(* ===== verification/_CoqProject ===== *)
-Q . S2P
Prelude.v
Checksum.v
NvFs.v
TextConf.v
NvConfig.v
NvBuf.v
NvServer.v
NvPacket.v
NvSync.v
CmrMsg.v
CmrMem.v
RawData.v
FdlPacket.v
ModemCtl.v
ModemBoot.v
ModemLoad.v
Modemd.v
Diag.v
DiagCmd.v
NvmDaemon.v
JpegTables.v
JpegStream.v
JpegDec.v
JpegEnc.v
JpegHead.v
JpegHuff.v
ExifStream.v
ExifData.v
ExifWriter.v
ExifRead.v
ExifDir.v
ExifApp1.v
ExifStd.v
ExifRound.v
ExifImage.v
JpegCodec.v
JpegThread.v
AudioNv.v
AudioRound.v
AudioFile.v
SlogConf.v
SlogOut.v
SlogModem.v
SlogSnap.v
Slog.v
SlogCtl.v
Md5.v
Base64.v
NumConv.v
