(* ===== verification/Prelude.v ===== *)
(** * A verification library for the Spreadtrum device tree

    The repository is the device tree of a family of Android telephones: the
    daemons that serve the modem, the libraries behind the camera, the audio
    and device management, and the configuration of the products.  This
    library models the C code of the daemons and libraries that carry the
    tree's own logic, and proves what makes it correct.

    ** How the parts interact

    The modem has no storage of its own.  Its non-volatile items live in image
    files that a daemon keeps for it: apps/nvitem on the newer chips (packets
    over a pipe, a request protocol, buffers in three stages, two files per image,
    a task that saves in the background) and apps/nvm_daemon on the older ones.
    apps/modem_control boots the modem with the same images, checks them first
    (_chkImg), and keeps a state machine that tells clients when the modem
    dies and comes back; apps/modemd does this where the modem is loaded into
    shared memory.  apps/rawdatad mirrors the product files in raw
    partitions; the block the NV daemon writes there is one it accepts.  The
    camera library passes its commands through cmr_msg.c; the device
    management client authenticates with MD5 and base64.  The camera's JPEG
    driver writes and parses the headers in software and programs the tables
    into the hardware, which does the rest.

    ** Files, in dependency order

    - Prelude: integers at their width ([u8], [u16], [u32], [+u], [s32]), buffers
      as byte lists with [load] and [store] that are [None] outside, little
      endian fields, reachability ([reach]), [zlia], [zcase], [solve_bytes].
    - Checksum: nvitem_fs.c [calc_checksum], modem_control/crc16.c, crc32.c.
      The sums agree with each other; the table-driven, unrolled [crc32b] is
      polynomial division and detects every one-byte error.
    - NvFs: nvitem_fs.c, the two files of an image, over a file system whose
      calls can fail and whose power can fail inside a write.  An interrupted
      [ramDisk_Write] leaves the old or the new image readable.
    - TextConf, NvConfig: the lines and conversions of stdio that the parsers
      use, and the configuration parser [ramDisk_Init].
    - NvBuf: nvitem_buf.c, the buffers and their dirty bits, against the class
      [RamDisk] that NvFs implements.  Saving writes what was committed.
    - NvServer: nvitem_server.c and nvitem_os.c, the two threads as a step
      relation whose steps are the critical sections; the mutex itself is not
      modelled.  No commit is forgotten, whatever the interleaving; an event
      can be lost.
    - NvPacket, NvSync: nvitem_packet.c, nvitem_sync.c.  Packets in order; a
      request commits when its tail arrives and rolls back otherwise; the
      result does not depend on how the stream is cut into packets, up to the
      defect of [__getToken] that [split_token_lost] shows.
    - CmrMsg: libcamera/sc8830/src/cmr_msg.c, a ring buffer under a mutex and a
      semaphore.  It refines a first-in first-out queue.
    - CmrMem: libcamera/sc8830/src/cmr_mem.c, the division of a block of memory
      among the buffers of a capture.  The buffers lie inside the block or in
      memory of the service and overlap only where stated; the
      block the size table chooses is enough.
    - RawData: rawdatad/rawdata.c, with crashes.  A crash leaves the old or the
      new data to be restored.
    - FdlPacket, ModemBoot, ModemLoad, ModemCtl: modem_control/packet.c,
      modem_boot.c, main.c.  Frames decode to what was encoded and carry valid
      checksums; an image arrives complete and padded, with the kernel's
      command line where it belongs; the list of images is read as it is
      written; a connection needs a version string; the manager's state machine.
    - Modemd: modemd/modemd.c, modemd_sipc.c, the daemon of the newer chips.
      Services start after the modem answered (under the hypervisor, without an
      exchange); the two watching threads
      announce no recovery without a failure.
    - Diag, DiagCmd: engmode/vdiag.c, eng_diag.c, the diagnostic channel of the
      production tools.  A frame that fits the buffer is routed the same way
      however the serial line cuts it; product data and the phase check record can be read back
      as they were written; a phase check message changes the file only when
      its CRC is good.
    - NvmDaemon: nvm_daemon/nvitem.c, the whole request loop.  One of the two
      copies of the fixed NV is good at every moment, as long as writes do not
      fail.
    - JpegTables, JpegStream, JpegDec: the constant tables, the byte input and
      the header parser of the JPEG decoder (jpeg_fw_8830/src).  Parsing ends on
      every input and does not depend on how the input arrives in pieces; a scan of four components is the one
      way past the end of a fixed array that is shown.
    - JpegEnc, JpegHead: the header writer of the encoder, with the polls of the
      hardware, and its round trip through the parser.
    - JpegHuff: jpegdec_vld.c.  The decoder's registers decode every valid
      Huffman table; the constants for the default tables agree with it.
    - ExifStream, ExifData, ExifWriter: the EXIF writer (exif_writer.c) on its
      write stream; the four directories are tables of blocks in the order of
      the source, each with the test of its valid flag.  ExifRead, ExifDir,
      ExifApp1 and ExifRound hold a reader of the segment that follows the
      EXIF standard, and how much room the segment takes.  ExifStd is a table
      of the standard's fields, made without the writer's: the reader finds
      the fields of that table, up to three flags the writer does not test.
    - ExifImage: the segment in front of a picture, in memory or in a file,
      and the camera's request.  A picture of the encoder with the segment
      decodes as the picture without it.
    - JpegCodec: jpeg_codec.c, the encoding and decoding of a picture in slices
      by calls of the firmware, a parameter.  The slices cover the picture; the
      size in a finished stream is the one the camera asked for.
    - JpegThread: jpeg_codec.c, the thread and the functions of its interface
      as two processes.  A caller that encodes and stops a handle at most once
      never leads the thread to a freed object, and [jpeg_stop] returns; a stop that finds the queue full, and a
      decoder, show what goes wrong.
    - AudioNv, AudioRound, AudioFile: libs/audio/nv_exchange, the audio
      parameters of every mode as a text file.  What is written is read back,
      member by member, for the modes of the XML list, but for a negative [q].  AudioRound decides the
      tests of a line once for all names, numbers and values.
    - SlogConf, SlogOut, SlogModem, SlogSnap, Slog, SlogCtl: tools/slog, the
      system log daemon.  SlogConf has the parser of the configuration and slogctl's editor
      of it, which changes what it is asked to and nothing else.  SlogOut has the
      log files of the streams, with short and failed writes and the renaming of
      full files: the files on disk are the end of the log.  SlogModem has the
      ring of the modem's last blocks, which implements a bounded list, and the
      dump of its memory.  SlogSnap has the timed snapshots, which are taken at
      the multiples of their positive intervals.  Slog has the choice of the storage and
      of the directory of a session, which stays one over all restarts, the
      space for the logs, snapshots on demand and the requests.  SlogCtl has the
      command line of slogctl, the threads that start other programs, and the
      record of a change in a watched directory.
    - Md5, Base64, NumConv: libdm/src/sprd_dm_md5_b64.c against RFC 1321, the
      base64 alphabet and the decimal and hexadecimal notations.

    ** Conventions

    A C function is a Rocq function.  Static variables and structures are
    records passed explicitly.  [None] is undefined behaviour: a theorem that
    says a call returns [Some] says that no access leaves its buffer.  What
    the environment decides (results of system calls, reads of a pipe, replies
    of the modem) is an argument.  Threads are step relations, one step per
    critical section or access outside one.

    Loops that are not structural have fuel.  The fuel is a bound the theorem
    proves sufficient: a statement that a call returns holds for the fuel the
    code's caller in the model uses.  Loops over scripts of input are
    structural on the script, and blocking on an exhausted script is an
    outcome of its own.

    ** Not modelled

    Logging, wake locks and process priorities; the contents of other vendors'
    code (Bluetooth, FM, GPS, GPU); register tables of the image sensors; user
    interfaces; Java applications; the retry loop and the terminal set-up of
    modem_boot.c; modemd_vlx.c; the audio, battery and AT command handlers of the
    diagnostic channel; the frame loop of the JPEG firmware;
    the screen shots and the reading of inotify events of slog.
    PROJECT.json lists every part with the reason. *)
From stdpp Require Export base list gmap strings numbers option.
From Stdlib Require Export ZArith Lia.

Global Open Scope Z_scope.

(** ** Fixed-width integers

    C's [unsigned char], [unsigned short] and 32-bit [unsigned int] (also
    [unsigned long]: the targets are 32-bit ARM) are [Z] values kept in range
    by an explicit wrap. *)
Definition u8 (z : Z) : Z := z mod 2 ^ 8.
Definition u16 (z : Z) : Z := z mod 2 ^ 16.
Definition u32 (z : Z) : Z := z mod 2 ^ 32.

(** The value of the low 32 bits read as a two's complement [int]. *)
Definition s32 (z : Z) : Z := (z + 2 ^ 31) mod 2 ^ 32 - 2 ^ 31.

Declare Scope cint_scope.
Delimit Scope cint_scope with cint.
Notation "a +u b" := (u32 (a + b)) (at level 50, left associativity) : cint_scope.
Notation "a -u b" := (u32 (a - b)) (at level 50, left associativity) : cint_scope.
Notation "a *u b" := (u32 (a * b)) (at level 40, left associativity) : cint_scope.
Open Scope cint_scope.

Abbreviation zlen l := (Z.of_nat (length l)).

Definition is_byte (b : Z) : Prop := 0 <= b < 256.
Definition is_u32 (z : Z) : Prop := 0 <= z < 2 ^ 32.
Abbreviation bytes := (Forall is_byte).

#[export] Instance is_byte_dec b : Decision (is_byte b).
Proof. unfold is_byte. apply _. Defined.

(** [zlia] is [lia] extended with division and remainder. *)
Ltac zlia := Z.to_euclidean_division_equations; lia.

(** Case analysis on every boolean comparison of integers in the goal,
    innermost first. *)
Ltac no_if t := lazymatch t with context [if _ then _ else _] => fail | _ => idtac end.
Ltac zcase1 :=
  match goal with
  | |- context [?a <=? ?b] => no_if a; no_if b; destruct (Z.leb_spec a b)
  | |- context [?a <? ?b] => no_if a; no_if b; destruct (Z.ltb_spec a b)
  | |- context [?a =? ?b] => no_if a; no_if b; destruct (Z.eqb_spec a b)
  end.
Ltac zcase := repeat (zcase1; simpl; try lia).

(** [bytes] goals on explicit lists. *)
Ltac solve_bytes :=
  repeat first [apply Forall_nil_2 | apply Forall_cons_2 | apply Forall_app_2];
  try done; try (unfold is_byte; lia).

Create HintDb words.

Lemma u8_range z : 0 <= u8 z < 2 ^ 8.
Proof. apply Z.mod_pos_bound. lia. Qed.
Lemma u16_range z : 0 <= u16 z < 2 ^ 16.
Proof. apply Z.mod_pos_bound. lia. Qed.
Lemma u32_range z : 0 <= u32 z < 2 ^ 32.
Proof. apply Z.mod_pos_bound. lia. Qed.
Lemma u32_small z : is_u32 z -> u32 z = z.
Proof. apply Z.mod_small. Qed.
Lemma u16_small z : 0 <= z < 2 ^ 16 -> u16 z = z.
Proof. apply Z.mod_small. Qed.
Lemma u8_byte z : is_byte (u8 z).
Proof. apply u8_range. Qed.
Lemma u8_small z : is_byte z -> u8 z = z.
Proof. apply Z.mod_small. Qed.
Lemma s32_small z : 0 <= z < 2 ^ 31 -> s32 z = z.
Proof. intros. unfold s32. rewrite Z.mod_small; lia. Qed.
Lemma s32_neg z : 2 ^ 31 <= z < 2 ^ 32 -> s32 z = z - 2 ^ 32.
Proof.
  intros. unfold s32. replace (z + 2 ^ 31) with (z - 2 ^ 31 + 1 * 2 ^ 32) by lia.
  rewrite Z_mod_plus_full, Z.mod_small; lia.
Qed.
#[export] Hint Resolve u8_range u16_range u32_range u8_byte : words.
#[export] Hint Unfold is_u32 is_byte : words.

(** ** Bit-level reasoning *)
Lemma testbit_high n z i : 0 <= n -> 0 <= z < 2 ^ n -> n <= i -> Z.testbit z i = false.
Proof.
  intros Hn Hz Hi. rewrite <- (Z.mod_small z (2 ^ n)) by lia.
  apply Z.mod_pow2_bits_high. lia.
Qed.

Lemma testbit_mod_pow2 a n i :
  0 <= n -> Z.testbit (a mod 2 ^ n) i = (i <? n) && Z.testbit a i.
Proof.
  intros Hn. destruct (Z.ltb_spec i n); simpl.
  - destruct (Z.neg_nonneg_cases i).
    + now rewrite !Z.testbit_neg_r.
    + now apply Z.mod_pow2_bits_low.
  - apply Z.mod_pow2_bits_high. lia.
Qed.

Lemma lxor_range n a b :
  0 <= n -> 0 <= a < 2 ^ n -> 0 <= b < 2 ^ n -> 0 <= Z.lxor a b < 2 ^ n.
Proof.
  intros Hn Ha Hb.
  assert (E : Z.lxor a b = Z.lxor a b mod 2 ^ n).
  { apply Z.bits_inj'. intros i Hi. rewrite testbit_mod_pow2 by lia.
    rewrite Z.lxor_spec. destruct (Z.ltb_spec i n); [easy|].
    now rewrite !(testbit_high n) by lia. }
  rewrite E. apply Z.mod_pos_bound. lia.
Qed.

Lemma lor_range n a b :
  0 <= n -> 0 <= a < 2 ^ n -> 0 <= b < 2 ^ n -> 0 <= Z.lor a b < 2 ^ n.
Proof.
  intros Hn Ha Hb.
  assert (E : Z.lor a b = Z.lor a b mod 2 ^ n).
  { apply Z.bits_inj'. intros i Hi. rewrite testbit_mod_pow2 by lia.
    rewrite Z.lor_spec. destruct (Z.ltb_spec i n); [easy|].
    now rewrite !(testbit_high n) by lia. }
  rewrite E. apply Z.mod_pos_bound. lia.
Qed.

(** Joining a low field to a shifted one is addition. *)
Lemma lor_shiftl_add k hi lo : 0 <= k -> 0 <= lo < 2 ^ k -> Z.lor (Z.shiftl hi k) lo = hi * 2 ^ k + lo.
Proof.
  intros Hk Hlo. assert (L : Z.land (Z.shiftl hi k) lo = 0).
  { apply Z.bits_inj'. intros i Hi. rewrite Z.land_spec, Z.bits_0, Z.shiftl_spec by done.
    destruct (Z.lt_ge_cases i k); [now rewrite Z.testbit_neg_r by lia|].
    now rewrite (testbit_high k lo) by lia; rewrite andb_false_r. }
  rewrite <- Z.lxor_lor, <- Z.add_nocarry_lxor by done. now rewrite Z.shiftl_mul_pow2.
Qed.

Lemma lxor_cancel_r a b c : Z.lxor a c = Z.lxor b c -> a = b.
Proof.
  intros H. apply (f_equal (fun z => Z.lxor z c)) in H.
  now rewrite !Z.lxor_assoc, Z.lxor_nilpotent, !Z.lxor_0_r in H.
Qed.

(** ** Byte buffers

    A C buffer is a [list Z]; an access outside it is undefined behaviour, the
    [None] of the option monad. *)
Definition load (m : list Z) (off n : Z) : option (list Z) :=
  if (0 <=? off) && (0 <=? n) && (off + n <=? zlen m)
  then Some (take (Z.to_nat n) (drop (Z.to_nat off) m)) else None.

Definition splice (m : list Z) (off : nat) (src : list Z) : list Z :=
  take off m ++ src ++ drop (off + length src) m.

Definition store (m : list Z) (off : Z) (src : list Z) : option (list Z) :=
  if (0 <=? off) && (off + zlen src <=? zlen m)
  then Some (splice m (Z.to_nat off) src) else None.

Lemma splice_length m off src :
  (off + length src <= length m)%nat -> length (splice m off src) = length m.
Proof.
  intros. unfold splice. rewrite !length_app, length_take, length_drop. lia.
Qed.

Lemma lookup_splice m off src i :
  (off + length src <= length m)%nat ->
  splice m off src !! i =
    if decide (off <= i < off + length src)%nat then src !! (i - off)%nat else m !! i.
Proof.
  intros H. unfold splice.
  assert (L : length (take off m) = off) by (rewrite length_take; lia).
  case_decide as D.
  - rewrite lookup_app_r, lookup_app_l; rewrite ?L; [done|lia|lia].
  - destruct (decide (i < off)%nat).
    + rewrite lookup_app_l by (rewrite L; lia). now rewrite lookup_take_lt by lia.
    + rewrite !lookup_app_r, L, lookup_drop by (rewrite ?L; lia). f_equal. lia.
Qed.

Lemma splice_nil m off : (off <= length m)%nat -> splice m off [] = m.
Proof.
  intros. unfold splice. simpl. rewrite Nat.add_0_r. apply take_drop.
Qed.

(** Two adjacent copies are one copy of the concatenation. *)
Lemma splice_app m off a b :
  (off + length a + length b <= length m)%nat ->
  splice (splice m off a) (off + length a) b = splice m off (a ++ b).
Proof.
  intros H. apply list_eq. intros i.
  rewrite !lookup_splice; rewrite ?splice_length, ?length_app; try lia.
  rewrite ?lookup_splice by lia. repeat case_decide; try lia; try done.
  - rewrite lookup_app_r by lia. f_equal. lia.
  - rewrite lookup_app_l by lia. done.
Qed.

Lemma take_app_0 (a b : list Z) : take (length a) (a ++ b) = a.
Proof. now rewrite take_app_le, take_ge by lia. Qed.
Lemma drop_app_0 (a b : list Z) : drop (length a) (a ++ b) = b.
Proof. now rewrite drop_app_ge, Nat.sub_diag by lia. Qed.

Lemma bytes_splice m off src : bytes m -> bytes src -> bytes (splice m off src).
Proof.
  intros. unfold splice. repeat apply Forall_app_2; auto using Forall_take, Forall_drop.
Qed.

Lemma store_Some m off src m' :
  store m off src = Some m' <->
  0 <= off /\ off + zlen src <= zlen m /\ m' = splice m (Z.to_nat off) src.
Proof.
  unfold store. zcase; split; intros; simplify_eq; intuition congruence || lia.
Qed.

Lemma store_length m off src m' : store m off src = Some m' -> length m' = length m.
Proof. rewrite store_Some. intros (?&?&->). apply splice_length. lia. Qed.

Lemma load_0 m n : 0 <= n <= zlen m -> load m 0 n = Some (take (Z.to_nat n) m).
Proof.
  intros. unfold load. rewrite !(proj2 (Z.leb_le _ _)) by lia.
  change (Z.to_nat 0) with 0%nat. now rewrite drop_0.
Qed.

Lemma store_all b d : length b = length d -> store b 0 d = Some d.
Proof.
  intros L. unfold store. rewrite !(proj2 (Z.leb_le _ _)) by lia. cbn [andb].
  unfold splice. change (Z.to_nat 0) with 0%nat. cbn [take app Nat.add]. rewrite drop_ge by lia. by rewrite app_nil_r.
Qed.

Lemma load_all b n : zlen b = n -> load b 0 n = Some b.
Proof.
  intros <-. unfold load. rewrite !(proj2 (Z.leb_le _ _)) by lia. cbn [andb]. change (Z.to_nat 0) with 0%nat.
  by rewrite drop_0, Nat2Z.id, take_ge by lia.
Qed.

(** Access to the start of a buffer. *)
Lemma load_prefix d t : load (d ++ t) 0 (zlen d) = Some d.
Proof.
  unfold load. rewrite length_app, !(proj2 (Z.leb_le _ _)) by lia. cbn [andb].
  rewrite Nat2Z.id. change (Z.to_nat 0) with 0%nat. rewrite drop_0. now rewrite take_app_0.
Qed.

Lemma splice_0 m src : (length src <= length m)%nat -> splice m 0 src = src ++ drop (length src) m.
Proof. done. Qed.

(** Access to the middle part of a buffer. *)
Lemma load_mid a m c off n : off = zlen a -> n = zlen m -> load (a ++ m ++ c) off n = Some m.
Proof.
  intros -> ->. unfold load. rewrite !length_app, !(proj2 (Z.leb_le _ _)) by lia. cbn [andb].
  rewrite !Nat2Z.id, drop_app_0. now rewrite take_app_0.
Qed.

Lemma store_mid a m s c off :
  off = zlen a -> length m = length s -> store (a ++ m ++ c) off s = Some (a ++ s ++ c).
Proof.
  intros -> L. unfold store. rewrite !length_app, !(proj2 (Z.leb_le _ _)) by lia. cbn [andb].
  unfold splice. rewrite Nat2Z.id, take_app_0, <- L. f_equal. f_equal.
  rewrite app_assoc, <- length_app, drop_app_0. done.
Qed.

(** ** Little-endian integers in buffers *)
Fixpoint le_dec (l : list Z) : Z :=
  match l with [] => 0 | b :: r => b + 256 * le_dec r end.

Fixpoint le_enc (n : nat) (z : Z) : list Z :=
  match n with O => [] | S k => z mod 256 :: le_enc k (z / 256) end.

Lemma le_enc_length n z : length (le_enc n z) = n.
Proof. revert z. induction n; simpl; auto. Qed.

Lemma le_enc_bytes n z : bytes (le_enc n z).
Proof.
  revert z. induction n; simpl; constructor; auto. apply Z.mod_pos_bound. lia.
Qed.

Lemma le_dec_enc n z : 0 <= z < 2 ^ (8 * Z.of_nat n) -> le_dec (le_enc n z) = z.
Proof.
  revert z. induction n as [|n IH]; intros z Hz; cbn [le_dec le_enc].
  - simpl in Hz. lia.
  - rewrite Nat2Z.inj_succ in Hz.
    replace (8 * Z.succ (Z.of_nat n)) with (8 + 8 * Z.of_nat n) in Hz by lia.
    rewrite Z.pow_add_r in Hz by lia. rewrite IH; zlia.
Qed.

Lemma le_dec_range l : bytes l -> 0 <= le_dec l < 2 ^ (8 * zlen l).
Proof.
  induction 1 as [|b r Hb _ IH]; cbn [le_dec length].
  - simpl. lia.
  - rewrite Nat2Z.inj_succ.
    replace (8 * Z.succ (zlen r)) with (8 + 8 * zlen r) by lia.
    rewrite Z.pow_add_r by lia. unfold is_byte in Hb. lia.
Qed.

(** The 32-bit and 16-bit fields of a C struct overlaid on a buffer. *)
Definition get32 (m : list Z) (off : nat) : Z := le_dec (take 4 (drop off m)).
Definition get16 (m : list Z) (off : nat) : Z := le_dec (take 2 (drop off m)).
Abbreviation le32 := (le_enc 4).
Abbreviation le16 := (le_enc 2).

Lemma get32_app_l a b : length a = 4%nat -> get32 (a ++ b) 0 = le_dec a.
Proof. intros H. unfold get32. rewrite drop_0, <- H. now rewrite take_app_0. Qed.

Lemma get32_skip a b off : get32 (a ++ b) (length a + off) = get32 b off.
Proof.
  unfold get32. rewrite drop_app_ge by lia. do 3 f_equal. lia.
Qed.

Lemma get32_le32 z r : is_u32 z -> get32 (le32 z ++ r) 0 = z.
Proof. intros H. rewrite get32_app_l by apply le_enc_length. now apply le_dec_enc. Qed.

Lemma get32_range m off : bytes m -> is_u32 (get32 m off).
Proof.
  intros H. unfold get32. assert (B : bytes (take 4 (drop off m))).
  { auto using Forall_take, Forall_drop. }
  apply le_dec_range in B. revert B. rewrite length_take. intros [? ?]. split; [done|].
  eapply Z.lt_le_trans; [eassumption|]. apply Z.pow_le_mono_r; lia.
Qed.

(** Induction on the length of a list. *)
Lemma list_len_ind {A} (P : list A -> Prop) :
  (forall l, (forall l', (length l' < length l)%nat -> P l') -> P l) -> forall l, P l.
Proof.
  intros H l. remember (length l) as n eqn:E. revert l E.
  induction n as [n IH] using lt_wf_ind. intros l ->. apply H. eauto.
Qed.

Lemma nth_map_seqZ (f : Z -> Z) n i d :
  0 <= i < n -> nth (Z.to_nat i) (map f (seqZ 0 n)) d = f i.
Proof.
  intros Hi. apply nth_lookup_Some. change (map f (seqZ 0 n)) with (f <$> seqZ 0 n).
  rewrite list_lookup_fmap.
  assert (E : seqZ 0 n !! Z.to_nat i = Some i) by (apply lookup_seqZ; lia).
  now rewrite E.
Qed.

(** A property of all values below [n], by evaluation. *)
Lemma forall_below (P : Z -> bool) n :
  forallb P (seqZ 0 n) = true -> forall i, 0 <= i < n -> P i = true.
Proof.
  intros H i Hi. rewrite forallb_forall in H. apply H, list_elem_of_In, elem_of_seqZ. lia.
Qed.

(** ** Reflexive transitive closure of a labelled step relation *)
Section Reach.
Context {S : Type} (step : S -> S -> Prop).
Inductive reach : S -> S -> Prop :=
| reach_refl s : reach s s
| reach_step s t u : reach s t -> step t u -> reach s u.

Lemma reach_inv (I : S -> Prop) s t :
    I s -> (forall a b, I a -> step a b -> I b) -> reach s t -> I t.
Proof. induction 3; eauto. Qed.

Lemma reach_trans s t u : reach s t -> reach t u -> reach s u.
Proof. induction 2; eauto using reach. Qed.

Lemma reach_one s t : step s t -> reach s t.
Proof. eauto using reach. Qed.
End Reach.
