(* ===== verification/Checksum.v ===== *)
(** * Checksums and CRCs

    The error-detecting codes of the modem-side daemons:
    [calc_checksum] (apps/nvitem/nvitem_fs.c, also nvm_daemon/nvitem.c and
    modem_control/modem_boot.c), [boot_checksum], [frm_chk], [crc_16_l_calc]
    and the table-driven [calculate_crc] (modem_control/crc16.c), and the
    table-driven, eight-way unrolled [crc32b] (nvm_daemon/crc32b.c, also
    rawdatad/crc32.c).  Definitions first; then a generic theory of
    polynomial division one bit at a time, against which the tables and the
    unrolled loop are verified. *)
From S2P Require Import Prelude.

(** ** One's complement 16-bit sums *)

(** The tail every sum shares: fold the carries twice and complement, the
    result truncated to [unsigned short]. *)
Definition fold_not (sum : Z) : Z :=
  let s1 := u32 (Z.shiftr sum 16 + Z.land sum 0xffff) in
  let s2 := u32 (s1 + Z.shiftr s1 16) in
  u16 (Z.lnot s2).

(** [while (pstart < pend) checksum += *pstart++;] and the odd last byte. *)
Fixpoint sum16 (acc : Z) (dat : list Z) : Z :=
  match dat with
  | b0 :: b1 :: r => sum16 (u32 (acc + (b0 + 256 * b1))) r
  | [b0] => u32 (acc + b0)
  | [] => acc
  end.

(** The branch of [calc_checksum] for an odd address.  [pstart] is declared
    [unsigned short *], so [*pstart] reads two bytes, [pstart + 1] is two bytes
    further and [pstart += 2] advances four bytes while [len] loses two.
    [mem] is the memory from [dat] on; reading past it is undefined. *)
Fixpoint sum_odd (fuel : nat) (acc : Z) (mem : list Z) (len : Z) : option Z :=
  match fuel with
  | O => None
  | S k =>
      if 1 <? len then
        w ← load mem 0 4;
        sum_odd k (u32 (acc + Z.lor (get16 w 0) (Z.shiftl (get16 w 2) 8)))
          (drop 4 mem) (len - 2)
      else if len =? 0 then Some acc
      else w ← load mem 0 2; Some (u32 (acc + get16 w 0))
  end.

(** [calc_checksum(dat, len)]: [odd] says whether [dat] is an odd address. *)
Definition calc_checksum (odd : bool) (mem : list Z) (len : Z) : option Z :=
  if odd then fold_not <$> sum_odd (S (Z.to_nat len)) 0 mem len
  else d ← load mem 0 len; Some (fold_not (sum16 0 d)).

(** [boot_checksum(src, len)]: [len >> 1] words, then the byte
    [src[len - 1]] when [len] is odd. *)
Fixpoint sum_words (n : nat) (acc : Z) (dat : list Z) : Z :=
  match n with
  | O => acc
  | S k => sum_words k (u32 (acc + get16 dat 0)) (drop 2 dat)
  end.

Definition boot_checksum (src : list Z) (len : Z) : option Z :=
  d ← load src 0 len;
  let size1 := Z.shiftr len 1 in
  let size2 := Z.land len 1 in
  let s := if len =? 0 then 0 else
             let s := sum_words (Z.to_nat size1) 0 d in
             if size2 =? 0 then s else u32 (s + nth (Z.to_nat (len - 1)) d 0) in
  Some (fold_not s).

(** [frm_chk(src, len)]: two words per turn while [len > 3], then the
    switch on the [len & 3] bytes left. *)
Fixpoint frm_sum (acc : Z) (dat : list Z) : Z :=
  match dat with
  | b0 :: b1 :: b2 :: b3 :: r =>
      frm_sum (u32 (u32 (acc + (b0 + 256 * b1)) + (b2 + 256 * b3))) r
  | [b0; b1] => u32 (acc + (b0 + 256 * b1))
  | [b0; b1; b2] => u32 (u32 (acc + (b0 + 256 * b1)) + b2)
  | [b0] => u32 (acc + b0)
  | [] => acc
  end.

Definition frm_chk (src : list Z) (len : Z) : option Z :=
  d ← load src 0 len; Some (fold_not (frm_sum 0 d)).

(** ** [crc_16_l_calc]: CRC-16/CCITT, one bit at a time *)
Definition CRC_16_POLYNOMIAL : Z := 0x1021.
Definition CRC_16_L_POLYNOMIAL : Z := 0x8000.

(** One turn of [for (i = 0x80; i != 0; i = i >> 1)] on the data byte [b]. *)
Definition crc_16_l_bit (b crc i : Z) : Z :=
  let crc1 := if negb (Z.land crc CRC_16_L_POLYNOMIAL =? 0)
              then Z.lxor (u16 (Z.shiftl crc 1)) CRC_16_POLYNOMIAL
              else u16 (Z.shiftl crc 1) in
  if negb (Z.land b i =? 0) then Z.lxor crc1 CRC_16_POLYNOMIAL else crc1.

Definition crc_16_l_byte (crc b : Z) : Z :=
  fold_left (crc_16_l_bit b) [0x80; 0x40; 0x20; 0x10; 8; 4; 2; 1] crc.

(** The [len] bytes at [buf_ptr] are [buf]. *)
Definition crc_16_l_calc (buf : list Z) : Z := fold_left crc_16_l_byte buf 0.

(** ** [calculate_crc]: the table-driven CRC-16, least significant bit first *)
Definition crc16_table : list Z := [
  0x0000; 0xC0C1; 0xC181; 0x0140; 0xC301; 0x03C0; 0x0280; 0xC241;
  0xC601; 0x06C0; 0x0780; 0xC741; 0x0500; 0xC5C1; 0xC481; 0x0440;
  0xCC01; 0x0CC0; 0x0D80; 0xCD41; 0x0F00; 0xCFC1; 0xCE81; 0x0E40;
  0x0A00; 0xCAC1; 0xCB81; 0x0B40; 0xC901; 0x09C0; 0x0880; 0xC841;
  0xD801; 0x18C0; 0x1980; 0xD941; 0x1B00; 0xDBC1; 0xDA81; 0x1A40;
  0x1E00; 0xDEC1; 0xDF81; 0x1F40; 0xDD01; 0x1DC0; 0x1C80; 0xDC41;
  0x1400; 0xD4C1; 0xD581; 0x1540; 0xD701; 0x17C0; 0x1680; 0xD641;
  0xD201; 0x12C0; 0x1380; 0xD341; 0x1100; 0xD1C1; 0xD081; 0x1040;
  0xF001; 0x30C0; 0x3180; 0xF141; 0x3300; 0xF3C1; 0xF281; 0x3240;
  0x3600; 0xF6C1; 0xF781; 0x3740; 0xF501; 0x35C0; 0x3480; 0xF441;
  0x3C00; 0xFCC1; 0xFD81; 0x3D40; 0xFF01; 0x3FC0; 0x3E80; 0xFE41;
  0xFA01; 0x3AC0; 0x3B80; 0xFB41; 0x3900; 0xF9C1; 0xF881; 0x3840;
  0x2800; 0xE8C1; 0xE981; 0x2940; 0xEB01; 0x2BC0; 0x2A80; 0xEA41;
  0xEE01; 0x2EC0; 0x2F80; 0xEF41; 0x2D00; 0xEDC1; 0xEC81; 0x2C40;
  0xE401; 0x24C0; 0x2580; 0xE541; 0x2700; 0xE7C1; 0xE681; 0x2640;
  0x2200; 0xE2C1; 0xE381; 0x2340; 0xE101; 0x21C0; 0x2080; 0xE041;
  0xA001; 0x60C0; 0x6180; 0xA141; 0x6300; 0xA3C1; 0xA281; 0x6240;
  0x6600; 0xA6C1; 0xA781; 0x6740; 0xA501; 0x65C0; 0x6480; 0xA441;
  0x6C00; 0xACC1; 0xAD81; 0x6D40; 0xAF01; 0x6FC0; 0x6E80; 0xAE41;
  0xAA01; 0x6AC0; 0x6B80; 0xAB41; 0x6900; 0xA9C1; 0xA881; 0x6840;
  0x7800; 0xB8C1; 0xB981; 0x7940; 0xBB01; 0x7BC0; 0x7A80; 0xBA41;
  0xBE01; 0x7EC0; 0x7F80; 0xBF41; 0x7D00; 0xBDC1; 0xBC81; 0x7C40;
  0xB401; 0x74C0; 0x7580; 0xB541; 0x7700; 0xB7C1; 0xB681; 0x7640;
  0x7200; 0xB2C1; 0xB381; 0x7340; 0xB101; 0x71C0; 0x7080; 0xB041;
  0x5000; 0x90C1; 0x9181; 0x5140; 0x9301; 0x53C0; 0x5280; 0x9241;
  0x9601; 0x56C0; 0x5780; 0x9741; 0x5500; 0x95C1; 0x9481; 0x5440;
  0x9C01; 0x5CC0; 0x5D80; 0x9D41; 0x5F00; 0x9FC1; 0x9E81; 0x5E40;
  0x5A00; 0x9AC1; 0x9B81; 0x5B40; 0x9901; 0x59C0; 0x5880; 0x9841;
  0x8801; 0x48C0; 0x4980; 0x8941; 0x4B00; 0x8BC1; 0x8A81; 0x4A40;
  0x4E00; 0x8EC1; 0x8F81; 0x4F40; 0x8D01; 0x4DC0; 0x4C80; 0x8C41;
  0x4400; 0x84C1; 0x8581; 0x4540; 0x8701; 0x47C0; 0x4680; 0x8641;
  0x8201; 0x42C0; 0x4380; 0x8341; 0x4100; 0x81C1; 0x8081; 0x4040].

Definition calculate_crc (crc : Z) (buffer : list Z) : Z :=
  fold_left (fun crc b =>
    Z.lxor (Z.shiftr crc 8)
           (nth (Z.to_nat (Z.land (Z.lxor crc b) 0xff)) crc16_table 0)) buffer crc.

(** ** [crc32b]: the table-driven CRC-32, most significant bit first *)
Definition crc_table : list Z := [
  0x00000000; 0x04c11db7; 0x09823b6e; 0x0d4326d9; 0x130476dc; 0x17c56b6b; 0x1a864db2; 0x1e475005;
  0x2608edb8; 0x22c9f00f; 0x2f8ad6d6; 0x2b4bcb61; 0x350c9b64; 0x31cd86d3; 0x3c8ea00a; 0x384fbdbd;
  0x4c11db70; 0x48d0c6c7; 0x4593e01e; 0x4152fda9; 0x5f15adac; 0x5bd4b01b; 0x569796c2; 0x52568b75;
  0x6a1936c8; 0x6ed82b7f; 0x639b0da6; 0x675a1011; 0x791d4014; 0x7ddc5da3; 0x709f7b7a; 0x745e66cd;
  0x9823b6e0; 0x9ce2ab57; 0x91a18d8e; 0x95609039; 0x8b27c03c; 0x8fe6dd8b; 0x82a5fb52; 0x8664e6e5;
  0xbe2b5b58; 0xbaea46ef; 0xb7a96036; 0xb3687d81; 0xad2f2d84; 0xa9ee3033; 0xa4ad16ea; 0xa06c0b5d;
  0xd4326d90; 0xd0f37027; 0xddb056fe; 0xd9714b49; 0xc7361b4c; 0xc3f706fb; 0xceb42022; 0xca753d95;
  0xf23a8028; 0xf6fb9d9f; 0xfbb8bb46; 0xff79a6f1; 0xe13ef6f4; 0xe5ffeb43; 0xe8bccd9a; 0xec7dd02d;
  0x34867077; 0x30476dc0; 0x3d044b19; 0x39c556ae; 0x278206ab; 0x23431b1c; 0x2e003dc5; 0x2ac12072;
  0x128e9dcf; 0x164f8078; 0x1b0ca6a1; 0x1fcdbb16; 0x018aeb13; 0x054bf6a4; 0x0808d07d; 0x0cc9cdca;
  0x7897ab07; 0x7c56b6b0; 0x71159069; 0x75d48dde; 0x6b93dddb; 0x6f52c06c; 0x6211e6b5; 0x66d0fb02;
  0x5e9f46bf; 0x5a5e5b08; 0x571d7dd1; 0x53dc6066; 0x4d9b3063; 0x495a2dd4; 0x44190b0d; 0x40d816ba;
  0xaca5c697; 0xa864db20; 0xa527fdf9; 0xa1e6e04e; 0xbfa1b04b; 0xbb60adfc; 0xb6238b25; 0xb2e29692;
  0x8aad2b2f; 0x8e6c3698; 0x832f1041; 0x87ee0df6; 0x99a95df3; 0x9d684044; 0x902b669d; 0x94ea7b2a;
  0xe0b41de7; 0xe4750050; 0xe9362689; 0xedf73b3e; 0xf3b06b3b; 0xf771768c; 0xfa325055; 0xfef34de2;
  0xc6bcf05f; 0xc27dede8; 0xcf3ecb31; 0xcbffd686; 0xd5b88683; 0xd1799b34; 0xdc3abded; 0xd8fba05a;
  0x690ce0ee; 0x6dcdfd59; 0x608edb80; 0x644fc637; 0x7a089632; 0x7ec98b85; 0x738aad5c; 0x774bb0eb;
  0x4f040d56; 0x4bc510e1; 0x46863638; 0x42472b8f; 0x5c007b8a; 0x58c1663d; 0x558240e4; 0x51435d53;
  0x251d3b9e; 0x21dc2629; 0x2c9f00f0; 0x285e1d47; 0x36194d42; 0x32d850f5; 0x3f9b762c; 0x3b5a6b9b;
  0x0315d626; 0x07d4cb91; 0x0a97ed48; 0x0e56f0ff; 0x1011a0fa; 0x14d0bd4d; 0x19939b94; 0x1d528623;
  0xf12f560e; 0xf5ee4bb9; 0xf8ad6d60; 0xfc6c70d7; 0xe22b20d2; 0xe6ea3d65; 0xeba91bbc; 0xef68060b;
  0xd727bbb6; 0xd3e6a601; 0xdea580d8; 0xda649d6f; 0xc423cd6a; 0xc0e2d0dd; 0xcda1f604; 0xc960ebb3;
  0xbd3e8d7e; 0xb9ff90c9; 0xb4bcb610; 0xb07daba7; 0xae3afba2; 0xaafbe615; 0xa7b8c0cc; 0xa379dd7b;
  0x9b3660c6; 0x9ff77d71; 0x92b45ba8; 0x9675461f; 0x8832161a; 0x8cf30bad; 0x81b02d74; 0x857130c3;
  0x5d8a9099; 0x594b8d2e; 0x5408abf7; 0x50c9b640; 0x4e8ee645; 0x4a4ffbf2; 0x470cdd2b; 0x43cdc09c;
  0x7b827d21; 0x7f436096; 0x7200464f; 0x76c15bf8; 0x68860bfd; 0x6c47164a; 0x61043093; 0x65c52d24;
  0x119b4be9; 0x155a565e; 0x18197087; 0x1cd86d30; 0x029f3d35; 0x065e2082; 0x0b1d065b; 0x0fdc1bec;
  0x3793a651; 0x3352bbe6; 0x3e119d3f; 0x3ad08088; 0x2497d08d; 0x2056cd3a; 0x2d15ebe3; 0x29d4f654;
  0xc5a92679; 0xc1683bce; 0xcc2b1d17; 0xc8ea00a0; 0xd6ad50a5; 0xd26c4d12; 0xdf2f6bcb; 0xdbee767c;
  0xe3a1cbc1; 0xe760d676; 0xea23f0af; 0xeee2ed18; 0xf0a5bd1d; 0xf464a0aa; 0xf9278673; 0xfde69bc4;
  0x89b8fd09; 0x8d79e0be; 0x803ac667; 0x84fbdbd0; 0x9abc8bd5; 0x9e7d9662; 0x933eb0bb; 0x97ffad0c;
  0xafb010b1; 0xab710d06; 0xa6322bdf; 0xa2f33668; 0xbcb4666d; 0xb8757bda; 0xb5365d03; 0xb1f740b4].

(** The macro [DO1]. *)
Definition DO1 (crc b : Z) : Z :=
  Z.lxor (nth (Z.to_nat (Z.land (Z.lxor (Z.shiftr crc 24) b) 0xff)) crc_table 0)
         (u32 (Z.shiftl crc 8)).

(** [while (len >= 8) { DO8(buf); len -= 8; }], then a byte at a time; [do1] is
    the macro [DO1]. *)
Fixpoint unrolled (do1 : Z -> Z -> Z) (crc : Z) (buf : list Z) : Z :=
  match buf with
  | b0 :: b1 :: b2 :: b3 :: b4 :: b5 :: b6 :: b7 :: r =>
      unrolled do1
        (do1 (do1 (do1 (do1 (do1 (do1 (do1 (do1 crc b0) b1) b2) b3) b4) b5) b6) b7) r
  | _ => fold_left do1 buf crc
  end.

(** [buf] is [None] for a null pointer, else the [len] bytes it points to. *)
Definition crc32b (crc : Z) (buf : option (list Z)) : Z :=
  match buf with None => 0 | Some l => unrolled DO1 crc l end.

(** ** Division by a polynomial, most significant bit first *)
Section Msb.
Context (w poly : Z).
Context (Hw : 8 <= w) (Hpoly : 0 <= poly < 2 ^ w) (Hpoly0 : Z.testbit poly 0 = true).

Definition msb_step (x : Z) : Z :=
    let s := (2 * x) mod 2 ^ w in
    if Z.testbit x (w - 1) then Z.lxor s poly else s.

Fixpoint msb_steps (n : nat) (x : Z) : Z :=
    match n with O => x | S k => msb_step (msb_steps k x) end.

Lemma msb_step_bit x i :
    0 <= i ->
    Z.testbit (msb_step x) i =
      xorb ((i <? w) && (1 <=? i) && Z.testbit x (i - 1))
           (Z.testbit x (w - 1) && Z.testbit poly i).
Proof.
    intros Hi. unfold msb_step.
    assert (D : Z.testbit ((2 * x) mod 2 ^ w) i =
                (i <? w) && ((1 <=? i) && Z.testbit x (i - 1))).
    { rewrite testbit_mod_pow2 by lia. f_equal.
      destruct (Z.leb_spec 1 i); simpl.
      - replace i with (Z.succ (i - 1)) at 1 by lia. apply Z.double_bits_succ.
      - replace i with 0 by lia. apply Z.testbit_even_0. }
    destruct (Z.testbit x (w - 1)); rewrite ?Z.lxor_spec, D; simpl;
      rewrite ?xorb_false_r, ?andb_assoc; reflexivity.
Qed.

Lemma msb_step_range x : 0 <= msb_step x < 2 ^ w.
Proof.
    unfold msb_step. pose proof (Z.mod_pos_bound (2 * x) (2 ^ w) ltac:(lia)).
    destruct (Z.testbit x (w - 1)); [apply lxor_range; lia | lia].
Qed.

Lemma msb_step_lxor a b : msb_step (Z.lxor a b) = Z.lxor (msb_step a) (msb_step b).
Proof.
    apply Z.bits_inj'. intros i Hi. rewrite Z.lxor_spec, !msb_step_bit by done.
    rewrite !Z.lxor_spec.
    destruct ((i <? w) && (1 <=? i)), (Z.testbit poly i), (Z.testbit a (w - 1)),
      (Z.testbit b (w - 1)), (Z.testbit a (i - 1)), (Z.testbit b (i - 1)); reflexivity.
Qed.

Lemma msb_steps_lxor n a b :
    msb_steps n (Z.lxor a b) = Z.lxor (msb_steps n a) (msb_steps n b).
Proof.
    induction n as [|n IH]; simpl; [done|]. rewrite IH.
    apply msb_step_lxor.
Qed.

Lemma msb_steps_range n x : 0 <= x < 2 ^ w -> 0 <= msb_steps n x < 2 ^ w.
Proof. destruct n; simpl; auto using msb_step_range. Qed.

(** A value whose top bits are clear is only shifted. *)
Lemma msb_steps_small n x :
    Z.of_nat n <= w -> 0 <= x < 2 ^ (w - Z.of_nat n) -> msb_steps n x = 2 ^ Z.of_nat n * x.
Proof.
    intros Hn. revert x. induction n as [|n IH]; intros x Hx.
    - simpl. lia.
    - assert (P : 0 < 2 ^ (w - Z.of_nat (S n))) by (apply Z.pow_pos_nonneg; lia).
      assert (E : 2 ^ (w - Z.of_nat n) = 2 * 2 ^ (w - Z.of_nat (S n))).
      { rewrite <- Z.pow_succ_r by lia. f_equal. lia. }
      cbn [msb_steps]. rewrite IH by lia.
      replace (2 ^ Z.of_nat (S n)) with (2 * 2 ^ Z.of_nat n)
        by (rewrite <- Z.pow_succ_r by lia; f_equal; lia).
      assert (B : 0 <= 2 ^ Z.of_nat n * x < 2 ^ (w - 1)).
      { replace (w - 1) with (Z.of_nat n + (w - Z.of_nat (S n))) by lia.
        rewrite Z.pow_add_r by lia. nia. }
      unfold msb_step. rewrite (testbit_high (w - 1)) by lia.
      assert (2 ^ w = 2 * 2 ^ (w - 1)) by (rewrite <- Z.pow_succ_r by lia; f_equal; lia).
      rewrite Z.mod_small; lia.
Qed.

Lemma msb_step_inj a b :
    0 <= a < 2 ^ w -> 0 <= b < 2 ^ w -> msb_step a = msb_step b -> a = b.
Proof.
    intros Ha Hb E.
    assert (T : Z.testbit a (w - 1) = Z.testbit b (w - 1)).
    { apply (f_equal (fun z => Z.testbit z 0)) in E.
      rewrite !msb_step_bit in E by lia.
      replace (1 <=? 0) with false in E by done.
      rewrite !andb_false_r, !Hpoly0, !andb_true_r in E. destruct (Z.testbit a (w - 1)),
        (Z.testbit b (w - 1)); done. }
    apply Z.bits_inj'. intros i Hi.
    destruct (Z.lt_ge_cases i (w - 1)) as [Hlt|Hge].
    - apply (f_equal (fun z => Z.testbit z (i + 1))) in E.
      rewrite !msb_step_bit, T in E by lia.
      replace (i + 1 - 1) with i in E by lia.
      rewrite (proj2 (Z.ltb_lt _ _)), (proj2 (Z.leb_le _ _)) in E by lia. simpl in E.
      destruct (Z.testbit a i), (Z.testbit b i), (Z.testbit b (w - 1)),
        (Z.testbit poly (i + 1)); done.
    - destruct (decide (i = w - 1)) as [->|]; [done|]. now rewrite !(testbit_high w) by lia.
Qed.

Lemma msb_steps_inj n a b :
    0 <= a < 2 ^ w -> 0 <= b < 2 ^ w -> msb_steps n a = msb_steps n b -> a = b.
Proof.
    intros Ha Hb. induction n as [|n IH]; simpl; [done|]. intros E.
    apply msb_step_inj in E; [now apply IH| |]; now apply msb_steps_range.
Qed.

(** A whole byte: the eight-step update of the register. *)
Definition msb_byte (crc b : Z) : Z := msb_steps 8 (Z.lxor crc (2 ^ (w - 8) * b)).

Lemma byte_shift_range b : is_byte b -> 0 <= 2 ^ (w - 8) * b < 2 ^ w.
Proof.
    intros Hb. unfold is_byte in Hb.
    replace w with (w - 8 + 8) at 3 by lia. rewrite Z.pow_add_r by lia.
    assert (0 < 2 ^ (w - 8)) by (apply Z.pow_pos_nonneg; lia). nia.
Qed.

Lemma msb_byte_range crc b :
    0 <= crc < 2 ^ w -> is_byte b -> 0 <= msb_byte crc b < 2 ^ w.
Proof.
    intros. apply msb_steps_range, lxor_range; auto using byte_shift_range. lia.
Qed.

Lemma msb_bytes_range l crc :
    0 <= crc < 2 ^ w -> bytes l -> 0 <= fold_left msb_byte l crc < 2 ^ w.
Proof.
    intros Hc Hl. revert crc Hc. induction Hl; simpl; auto using msb_byte_range.
Qed.

Lemma msb_byte_inj_crc c c' b :
    0 <= c < 2 ^ w -> 0 <= c' < 2 ^ w -> is_byte b -> msb_byte c b = msb_byte c' b -> c = c'.
Proof.
    intros ? ? Hb E. pose proof (byte_shift_range b Hb).
    apply msb_steps_inj in E; try (apply lxor_range; lia).
    eapply lxor_cancel_r; eauto.
Qed.

Lemma msb_byte_inj_byte c b b' :
    0 <= c < 2 ^ w -> is_byte b -> is_byte b' -> msb_byte c b = msb_byte c b' -> b = b'.
Proof.
    intros ? Hb Hb' E. pose proof (byte_shift_range b Hb). pose proof (byte_shift_range b' Hb').
    apply msb_steps_inj in E; try (apply lxor_range; lia).
    rewrite !(Z.lxor_comm c) in E. apply lxor_cancel_r in E.
    assert (0 < 2 ^ (w - 8)) by (apply Z.pow_pos_nonneg; lia). nia.
Qed.

(** Different registers stay different under the same bytes. *)
Lemma msb_bytes_inj l c c' :
    0 <= c < 2 ^ w -> 0 <= c' < 2 ^ w -> bytes l ->
    fold_left msb_byte l c = fold_left msb_byte l c' -> c = c'.
Proof.
    intros Hc Hc' Hl. revert c c' Hc Hc'. induction Hl; simpl; intros c c' Hc Hc' E; [done|].
    apply IHHl in E; auto using msb_byte_range. eauto using msb_byte_inj_crc.
Qed.

(** Every corruption confined to one byte changes the CRC. *)
Lemma msb_detects crc p b b' s :
    0 <= crc < 2 ^ w -> bytes (p ++ b :: s) -> is_byte b' -> b <> b' ->
    fold_left msb_byte (p ++ b :: s) crc <> fold_left msb_byte (p ++ b' :: s) crc.
Proof.
    intros Hc Hl Hb' Hne. apply Forall_app in Hl as [Hp Hs]. inversion_clear Hs as [|? ? Hb Hs'].
    rewrite !fold_left_app. simpl. intros E.
    pose proof (msb_bytes_range p crc Hc Hp).
    apply msb_bytes_inj in E; auto using msb_byte_range.
    apply Hne. eauto using msb_byte_inj_byte.
Qed.

(** The byte update splits into the part that depends on the top byte and the
      shifted rest: the identity a lookup table exploits. *)
Lemma msb_byte_table crc b :
    0 <= crc < 2 ^ w -> is_byte b ->
    msb_byte crc b =
      Z.lxor (msb_steps 8 (2 ^ (w - 8) * Z.land (Z.lxor (Z.shiftr crc (w - 8)) b) 0xff))
             ((2 ^ 8 * crc) mod 2 ^ w).
Proof.
    intros Hc Hb. unfold msb_byte.
    assert (0 < 2 ^ (w - 8)) by (apply Z.pow_pos_nonneg; lia).
    assert (Ew : 2 ^ w = 2 ^ (w - 8) * 2 ^ 8) by (rewrite <- Z.pow_add_r by lia; f_equal; lia).
    set (hi := Z.shiftr crc (w - 8)). set (lo := crc mod 2 ^ (w - 8)).
    assert (Hhi : is_byte hi).
    { unfold hi, is_byte. rewrite Z.shiftr_div_pow2 by lia. split.
      - apply Z.div_pos; lia.
      - apply Z.div_lt_upper_bound; lia. }
    assert (Hx : 0 <= Z.lxor hi b < 2 ^ 8) by (apply (lxor_range 8); unfold is_byte in *; lia).
    replace (Z.land (Z.lxor hi b) 0xff) with (Z.lxor hi b)
      by (change 0xff with (Z.ones 8); rewrite Z.land_ones, Z.mod_small; lia).
    assert (Ec : crc = Z.lxor (2 ^ (w - 8) * hi) lo).
    { apply Z.bits_inj'. intros i Hi. unfold hi, lo. rewrite Z.lxor_spec, testbit_mod_pow2 by lia.
      rewrite Z.mul_comm, <- Z.shiftl_mul_pow2, Z.shiftl_spec by lia.
      destruct (Z.ltb_spec i (w - 8)).
      - rewrite (Z.testbit_neg_r _ (i - (w - 8))) by lia. simpl. now destruct (Z.testbit crc i).
      - rewrite Z.shiftr_spec by lia. replace (i - (w - 8) + (w - 8)) with i by lia.
        simpl. now rewrite xorb_false_r. }
    assert (Ed : 2 ^ (w - 8) * Z.lxor hi b = Z.lxor (2 ^ (w - 8) * hi) (2 ^ (w - 8) * b)).
    { rewrite !(Z.mul_comm (2 ^ (w - 8))), <- !Z.shiftl_mul_pow2 by lia. apply Z.shiftl_lxor. }
    rewrite Ec at 1. rewrite Z.lxor_assoc, (Z.lxor_comm lo), <- Z.lxor_assoc, <- Ed.
    rewrite msb_steps_lxor. f_equal.
    rewrite (msb_steps_small 8 lo); [|lia|apply Z.mod_pos_bound; lia].
    unfold lo. change (Z.of_nat 8) with 8. rewrite Ew.
    rewrite (Z.mul_comm (2 ^ (w - 8))), Zmult_mod_distr_l. done.
Qed.
End Msb.

(** ** The 32-bit CRC *)
Definition poly32 : Z := 0x04c11db7.

(** Every entry of [crc_table] is the remainder of its index. *)
Lemma crc_table_spec : crc_table = map (fun i => msb_steps 32 poly32 8 (2 ^ 24 * i)) (seqZ 0 256).
Proof. vm_compute. reflexivity. Qed.

Lemma crc_table_nth i : 0 <= i < 256 -> nth (Z.to_nat i) crc_table 0 = msb_steps 32 poly32 8 (2 ^ 24 * i).
Proof.
  intros Hi. rewrite crc_table_spec.
  now apply (nth_map_seqZ (fun i => msb_steps 32 poly32 8 (2 ^ 24 * i))) with (n := 256).
Qed.

Lemma land_ff_byte x : is_byte (Z.land x 0xff).
Proof. change 0xff with (Z.ones 8). rewrite Z.land_ones by lia. apply Z.mod_pos_bound. lia. Qed.

Lemma DO1_msb crc b : is_u32 crc -> is_byte b -> DO1 crc b = msb_byte 32 poly32 crc b.
Proof.
  intros Hc Hb. rewrite msb_byte_table by (unfold poly32; lia || done).
  unfold DO1. rewrite crc_table_nth by apply land_ff_byte.
  f_equal. unfold u32. rewrite Z.shiftl_mul_pow2, Z.mul_comm; done || lia.
Qed.

Lemma fold_DO1_msb l crc :
  is_u32 crc -> bytes l -> fold_left DO1 l crc = fold_left (msb_byte 32 poly32) l crc.
Proof.
  intros Hc Hl. revert crc Hc. induction Hl as [|b l Hb Hl IH]; simpl; intros crc Hc; [done|].
  rewrite DO1_msb by done. apply IH. apply msb_byte_range; unfold poly32; lia || done.
Qed.

Lemma unrolled_fold do1 l crc : unrolled do1 crc l = fold_left do1 l crc.
Proof.
  revert crc. induction l as [l IH] using list_len_ind; intros crc.
  do 8 (destruct l as [|? l]; [reflexivity|]). cbn -[fold_left].
  rewrite IH by (simpl; lia). reflexivity.
Qed.

Lemma crc32b_fold crc l :
  is_u32 crc -> bytes l -> crc32b crc (Some l) = fold_left (msb_byte 32 poly32) l crc.
Proof. intros. simpl. rewrite unrolled_fold. now apply fold_DO1_msb. Qed.

(** C33: [crc32b], with its lookup table and its loop unrolled eight times,
    computes the remainder of the message by the generator 0x04c11db7, one bit
    at a time and most significant bit first. *)
Theorem crc32b_is_polynomial_division crc l :
  is_u32 crc -> bytes l -> crc32b crc (Some l) = fold_left (msb_byte 32 poly32) l crc.
Proof. apply crc32b_fold. Qed.

Lemma crc32b_is_polynomial_division_witness :
  crc32b 0 (Some [0x31; 0x32; 0x33]) = fold_left (msb_byte 32 poly32) [0x31; 0x32; 0x33] 0.
Proof.
  apply (crc32b_is_polynomial_division 0 [0x31; 0x32; 0x33]); [unfold is_u32; lia | solve_bytes].
Defined.

Lemma crc32b_range crc l : is_u32 crc -> bytes l -> is_u32 (crc32b crc (Some l)).
Proof.
  intros. rewrite crc32b_fold by done. apply msb_bytes_range; unfold poly32; lia || done.
Qed.

Lemma crc32b_byte_error crc p b b' s :
  is_u32 crc -> bytes (p ++ b :: s) -> is_byte b' -> b <> b' ->
  crc32b crc (Some (p ++ b :: s)) <> crc32b crc (Some (p ++ b' :: s)).
Proof.
  intros Hc Hl Hb' Hne. rewrite !crc32b_fold; try done.
  - apply msb_detects; unfold poly32; try lia; done.
  - apply Forall_app in Hl as [? Hs]. inversion_clear Hs.
    apply Forall_app_2; [done|]. now constructor.
Qed.

(** [crc32b] detects every error confined to one byte: two messages that
    differ in exactly one byte have different values, from any start value. *)
Lemma crc32b_detects_byte_error crc p b b' s :
  is_u32 crc -> bytes (p ++ b :: s) -> is_byte b' -> b <> b' ->
  crc32b crc (Some (p ++ b :: s)) <> crc32b crc (Some (p ++ b' :: s)).
Proof. apply crc32b_byte_error. Qed.

Lemma crc32b_detects_byte_error_witness :
  crc32b 0 (Some ([1] ++ 2 :: [3])) <> crc32b 0 (Some ([1] ++ 4 :: [3])).
Proof.
  apply (crc32b_detects_byte_error 0 [1] 2 4 [3]);
    [unfold is_u32; lia | solve_bytes | unfold is_byte; lia | lia].
Defined.

(** ** The 16-bit CCITT CRC *)
Lemma land_pow2_testbit x n : 0 <= n -> negb (Z.land x (2 ^ n) =? 0) = Z.testbit x n.
Proof.
  intros Hn. assert (E : Z.land x (2 ^ n) = if Z.testbit x n then 2 ^ n else 0).
  { apply Z.bits_inj'. intros i Hi. rewrite Z.land_spec, Z.pow2_bits_eqb by lia.
    destruct (Z.eqb_spec n i) as [->|].
    - destruct (Z.testbit x i) eqn:T; rewrite ?Z.pow2_bits_true, ?Z.testbit_0_l; done || lia.
    - rewrite andb_false_r. destruct (Z.testbit x n); rewrite ?Z.pow2_bits_false, ?Z.testbit_0_l; done || lia. }
  rewrite E. destruct (Z.testbit x n); [|done].
  assert (0 < 2 ^ n) by (apply Z.pow_pos_nonneg; lia).
  destruct (Z.eqb_spec (2 ^ n) 0); [lia|done].
Qed.

Abbreviation step16 := (msb_step 16 CRC_16_POLYNOMIAL).
Abbreviation steps16 := (msb_steps 16 CRC_16_POLYNOMIAL).

Lemma poly16_range : 0 <= CRC_16_POLYNOMIAL < 2 ^ 16.
Proof. unfold CRC_16_POLYNOMIAL. lia. Qed.

(** Feeding bit [k] of the data byte is feeding it into the top of the
    register and taking one division step. *)
Lemma crc_16_l_bit_step b crc k :
  0 <= k -> crc_16_l_bit b crc (2 ^ k) =
    step16 (Z.lxor crc (if Z.testbit b k then 2 ^ 15 else 0)).
Proof.
  intros Hk. unfold crc_16_l_bit.
  change CRC_16_L_POLYNOMIAL with (2 ^ 15). rewrite !land_pow2_testbit by lia.
  rewrite msb_step_lxor by lia.
  assert (E : step16 crc = if Z.testbit crc 15
     then Z.lxor (u16 (Z.shiftl crc 1)) CRC_16_POLYNOMIAL else u16 (Z.shiftl crc 1)).
  { unfold msb_step, u16. rewrite Z.shiftl_mul_pow2, Z.mul_comm by lia. done. }
  rewrite <- E. destruct (Z.testbit b k).
  - f_equal.
  - change (step16 0) with 0. now rewrite Z.lxor_0_r.
Qed.

(** The bits of the byte, each at its place in the top of the register. *)
Definition top_bit (b k : Z) : Z := if Z.testbit b k then 2 ^ (8 + k) else 0.

Lemma top_bits b : is_byte b ->
  2 ^ 8 * b = fold_left (fun x k => Z.lxor x (top_bit b k)) [7; 6; 5; 4; 3; 2; 1; 0] 0.
Proof.
  intros Hb. apply Z.eqb_eq. revert b Hb.
  refine (forall_below (fun b => 2 ^ 8 * b =? _) 256 _). vm_compute. reflexivity.
Qed.

Lemma crc_16_l_byte_msb crc b :
  is_byte b -> crc_16_l_byte crc b = msb_byte 16 CRC_16_POLYNOMIAL crc b.
Proof.
  intros Hb. unfold crc_16_l_byte, msb_byte. change (2 ^ (16 - 8)) with (2 ^ 8).
  rewrite top_bits by done.
  change [0x80; 0x40; 0x20; 0x10; 8; 4; 2; 1] with (map (Z.pow 2) [7; 6; 5; 4; 3; 2; 1; 0]).
  cbn [map fold_left]. rewrite !crc_16_l_bit_step by lia.
  rewrite Z.lxor_0_l, !msb_steps_lxor by lia.
  cbn [msb_steps]. rewrite !msb_step_lxor by lia.
  rewrite !Z.lxor_assoc. f_equal. unfold top_bit.
  repeat match goal with
  | |- Z.lxor _ _ = Z.lxor _ _ => f_equal
  end; match goal with |- context [Z.testbit b ?k] => destruct (Z.testbit b k) end;
  vm_compute; reflexivity.
Qed.

Lemma crc_16_l_calc_msb l :
  bytes l -> crc_16_l_calc l = fold_left (msb_byte 16 CRC_16_POLYNOMIAL) l 0.
Proof.
  unfold crc_16_l_calc. intros Hl. generalize 0. induction Hl as [|b l Hb _ IH];
    simpl; intros crc; [done|]. rewrite crc_16_l_byte_msb by done. apply IH.
Qed.

Lemma msb_byte_cancel w poly hi lo :
  8 <= w -> 0 <= poly < 2 ^ w -> is_byte hi -> 0 <= lo < 2 ^ (w - 8) ->
  msb_byte w poly (2 ^ (w - 8) * hi + lo) hi = 2 ^ 8 * lo.
Proof.
  intros Hw Hp Hhi Hlo. unfold msb_byte.
  assert (E : 2 ^ (w - 8) * hi + lo = Z.lxor (2 ^ (w - 8) * hi) lo).
  { rewrite <- Z.add_nocarry_lxor; [done|]. apply Z.bits_inj'. intros i Hi.
    rewrite Z.land_spec, Z.testbit_0_l, Z.mul_comm, Z.mul_pow2_bits by lia.
    destruct (Z.lt_ge_cases i (w - 8)).
    - now rewrite Z.testbit_neg_r by lia.
    - rewrite (testbit_high (w - 8) lo) by lia. apply andb_false_r. }
  rewrite E, Z.lxor_comm, <- Z.lxor_assoc, Z.lxor_nilpotent, Z.lxor_0_l.
  rewrite msb_steps_small; done || lia.
Qed.

Lemma crc_16_l_range l : bytes l -> 0 <= crc_16_l_calc l < 2 ^ 16.
Proof.
  intros Hl. rewrite crc_16_l_calc_msb by done. apply msb_bytes_range; [lia|apply poly16_range|lia|done].
Qed.

(** A frame followed by its own CRC, high byte first, has CRC 0: how the
    receiver of an FDL frame checks it. *)
Lemma crc_16_l_residue l :
  bytes l ->
  crc_16_l_calc (l ++ [Z.shiftr (crc_16_l_calc l) 8; Z.land (crc_16_l_calc l) 0xff]) = 0.
Proof.
  intros Hl. set (c := crc_16_l_calc l).
  assert (Hc : 0 <= c < 2 ^ 16) by (by apply crc_16_l_range).
  assert (Hhi : is_byte (Z.shiftr c 8)).
  { unfold is_byte. rewrite Z.shiftr_div_pow2 by lia. zlia. }
  pose proof (land_ff_byte c) as Hlo.
  rewrite crc_16_l_calc_msb by solve_bytes.
  rewrite fold_left_app, <- crc_16_l_calc_msb by done. fold c. cbn [fold_left].
  assert (Ec : c = 2 ^ (16 - 8) * Z.shiftr c 8 + Z.land c 0xff).
  { change 0xff with (Z.ones 8). rewrite Z.land_ones, Z.shiftr_div_pow2 by lia. zlia. }
  rewrite Ec at 1. rewrite msb_byte_cancel by (done || apply poly16_range || lia).
  replace (2 ^ 8 * Z.land c 0xff) with (2 ^ (16 - 8) * Z.land c 0xff + 0) by lia.
  rewrite msb_byte_cancel by (done || apply poly16_range || lia). done.
Qed.

(** ** One's complement sums *)
Lemma sum16_app_frm l acc : frm_sum acc l = sum16 acc l.
Proof.
  revert acc. induction l as [l IH] using list_len_ind; intros acc.
  destruct l as [|? [|? [|? [|? l]]]]; try reflexivity. simpl. now rewrite IH by (simpl; lia).
Qed.

Lemma sum_words_app n acc d t :
  length d = (2 * n)%nat -> sum_words n acc (d ++ t) = sum16 acc d.
Proof.
  revert acc d. induction n as [|n IH]; intros acc d Hd.
  - now destruct d.
  - destruct d as [|b0 [|b1 d]]; [simpl in Hd; lia | simpl in Hd; lia |].
    cbn [sum_words sum16 app].
    change (get16 (b0 :: b1 :: d ++ t) 0) with (b0 + 256 * (b1 + 256 * 0)).
    change (drop 2 (b0 :: b1 :: d ++ t)) with (d ++ t).
    rewrite IH by (simpl in Hd; lia). do 2 f_equal. lia.
Qed.

Lemma sum16_snoc d x acc :
  Nat.Even (length d) -> sum16 acc (d ++ [x]) = u32 (sum16 acc d + x).
Proof.
  revert acc. induction d as [d IH] using list_len_ind; intros acc He.
  destruct d as [|b0 [|b1 d]]; [done| |].
  - destruct He as [k Hk]. simpl in Hk. lia.
  - cbn [app sum16]. apply IH; [simpl; lia|]. destruct He as [k Hk].
    exists (k - 1)%nat. simpl in Hk. lia.
Qed.

(** The three one's complement sums of the code base agree: the word-at-a-time
    [calc_checksum] at an even address, the halved-length [boot_checksum] and
    the four-bytes-a-turn [frm_chk], on every buffer and length, out-of-bounds
    lengths included. *)
Lemma checksums_agree mem len :
  calc_checksum false mem len = boot_checksum mem len /\
  frm_chk mem len = boot_checksum mem len.
Proof.
  assert (A : calc_checksum false mem len = frm_chk mem len).
  { unfold calc_checksum, frm_chk. destruct (load mem 0 len); simpl; [|done].
    now rewrite sum16_app_frm. }
  enough (frm_chk mem len = boot_checksum mem len) by (split; congruence).
  unfold frm_chk, boot_checksum. destruct (load mem 0 len) as [d|] eqn:L; simpl; [|done].
  unfold load in L. destruct (0 <=? 0), (Z.leb_spec 0 len), (Z.leb_spec (0 + len) (zlen mem));
    try done; simpl in L; simplify_eq.
  set (d := take _ _). assert (Ld : zlen d = len).
  { unfold d. rewrite length_take, length_drop. lia. }
  clearbody d. subst len. rewrite sum16_app_frm. do 2 f_equal.
  destruct (Z.eqb_spec (zlen d) 0) as [E|NE].
  { destruct d; [done|simpl in E; lia]. }
  replace (Z.land (zlen d) 1) with (zlen d mod 2) by (symmetry; apply (Z.land_ones _ 1); lia).
  rewrite Z.shiftr_div_pow2 by lia. change (2 ^ 1) with 2.
  destruct (Z.eqb_spec (zlen d mod 2) 0) as [E|E].
  - rewrite <- (app_nil_r d) at 3. rewrite sum_words_app; [done|zlia].
  - destruct (exists_last (l := d)) as (d' & x & ->); [now destruct d|].
    rewrite length_app in *. simpl in *.
    assert (Hl : length d' = (2 * Z.to_nat (zlen (d' ++ [x]) / 2))%nat)
      by (rewrite length_app; simpl; zlia).
    rewrite length_app in Hl. simpl in Hl.
    rewrite sum_words_app by exact Hl.
    rewrite sum16_snoc by (eexists; exact Hl). do 2 f_equal.
    rewrite app_nth2 by lia.
    replace (Z.to_nat (Z.of_nat (length d' + 1) - 1) - length d')%nat with O by lia. done.
Qed.

Lemma fold_not_range s : 0 <= fold_not s < 2 ^ 16.
Proof. apply u16_range. Qed.

(** ** The sum of a prefix *)
Lemma calc_checksum_prefix d t :
  calc_checksum false (d ++ t) (zlen d) = Some (fold_not (sum16 0 d)).
Proof. unfold calc_checksum. now rewrite load_prefix. Qed.

Lemma calc_checksum_all d : calc_checksum false d (zlen d) = Some (fold_not (sum16 0 d)).
Proof. rewrite <- (app_nil_r d) at 1. apply calc_checksum_prefix. Qed.

(** ** Two corner cases of [calc_checksum] *)
Lemma sum_odd_overread fuel acc mem len :
  2 <= len -> zlen mem <= len -> sum_odd fuel acc mem len = None.
Proof.
  revert acc mem len. induction fuel as [|k IH]; intros acc mem len H2 Hm; [done|].
  cbn [sum_odd]. rewrite (proj2 (Z.ltb_lt 1 len)) by lia.
  unfold load. destruct (Z.leb_spec (0 + 4) (zlen mem)); cbn; [|done].
  apply IH; [lia|]. rewrite length_drop. lia.
Qed.

(** At an odd address [calc_checksum] steps four bytes for every two it
    counts, because its byte pointer is declared [unsigned short *]: on a
    buffer of exactly [len >= 2] bytes it always reads past the end. *)
Lemma calc_checksum_odd_overreads mem len :
  2 <= len -> zlen mem = len -> calc_checksum true mem len = None.
Proof.
  intros. unfold calc_checksum. rewrite sum_odd_overread by lia. done.
Qed.

Lemma calc_checksum_odd_overreads_witness :
  calc_checksum true [1; 2; 3; 4] 4 = None /\ calc_checksum false [1; 2; 3; 4] 4 = Some 0xf9fb.
Proof.
  split; [apply calc_checksum_odd_overreads; simpl; lia | vm_compute; reflexivity].
Defined.

Lemma sum16_ones k acc :
  0 <= acc -> acc + 65535 * Z.of_nat k < 2 ^ 32 ->
  sum16 acc (replicate (2 * k) 0xff) = acc + 65535 * Z.of_nat k.
Proof.
  revert acc. induction k as [|k IH]; intros acc Ha Hb; [simpl; lia|].
  replace (2 * S k)%nat with (S (S (2 * k))) by lia. cbn [replicate sum16].
  rewrite u32_small by (unfold is_u32; lia). rewrite IH; lia.
Qed.

(** An erased image (every byte 0xFF, of even size up to 128 KiB) has
    checksum 0, the checksum field of a zeroed header. *)
Lemma calc_checksum_blank k t :
  1 <= Z.of_nat k <= 65536 ->
  calc_checksum false (replicate (2 * k) 0xff ++ t) (Z.of_nat (2 * k)) = Some 0.
Proof.
  intros Hk. unfold calc_checksum, load. rewrite length_app, length_replicate.
  rewrite !(proj2 (Z.leb_le _ _)) by lia. cbn [andb mbind option_bind].
  rewrite Nat2Z.id. change (Z.to_nat 0) with 0%nat. rewrite drop_0.
  replace (take (2 * k) (replicate (2 * k) 255 ++ t)) with (replicate (2 * k) 255).
  2:{ rewrite take_app_le by (rewrite length_replicate; lia).
      rewrite take_ge; [done|rewrite length_replicate; lia]. }
  rewrite sum16_ones by lia. f_equal. unfold fold_not.
  set (s := 0 + 65535 * Z.of_nat k).
  replace (Z.shiftr s 16) with (Z.of_nat k - 1)
    by (rewrite Z.shiftr_div_pow2 by lia; unfold s; zlia).
  replace (Z.land s 0xffff) with (65536 - Z.of_nat k)
    by (change 0xffff with (Z.ones 16); rewrite Z.land_ones by lia; unfold s; zlia).
  replace (Z.of_nat k - 1 + (65536 - Z.of_nat k)) with 65535 by lia. reflexivity.
Qed.
