(* ===== verification/NvFs.v ===== *)
(** * The RAM-disk images of the NV daemon (apps/nvitem/nvitem_fs.c)

    Each NV partition is kept in two files, the image and its backup.  A file
    is a 512-byte header (magic, length, checksum, version) followed by the
    data.  [ramDisk_Read] reads one of them, chosen at random, and falls back
    on the other; [ramDisk_Write] rewrites the backup, then the image.

    The file system is a finite map from paths to contents; the outcome of
    each system call is given by an environment record, so every error path of
    the code is taken for some environment.  [ramDisk_Write] also returns the
    disk operations it issued, in order: a power failure leaves the effect of
    a prefix of them, the last one possibly torn. *)
From S2P Require Import Prelude.
From S2P Require Import Checksum.

Definition RAMNV_NUM : Z := 15.
Definition RAMNV_SECT_SIZE : Z := 512.
Definition NV_HEAD_MAGIC : Z := 0x00004e56.
Definition NV_VERSION : Z := 101.

Record RAM_NV_CONFIG := mkConfig {
  cfg_partId : Z;
  image_path : string;
  imageBak_path : string;
  image_size : Z }.

(** The built-in [_ramdiskCfg], sixteen entries, the unused ones zeroed. *)
Definition ramdiskCfg_default : list RAM_NV_CONFIG :=
  [ mkConfig 1 "/fixnv/fixnv.bin" "" 0x20000;
    mkConfig 2 "/runtimenv/runtimenv.bin" "" 0x40000 ]
  ++ replicate 14 (mkConfig 0 "" "" 0).

(** ** Files, system calls and crashes *)
Abbreviation fs := (gmap string (list Z)).

(** Which system calls succeed: opening an existing file, creating or
    truncating one, reading, and the result of the [k]-th [write] of [n]
    bytes to a file since it was opened. *)
Record Posix := mkPosix {
  open_ok : string -> bool;
  creat_ok : string -> bool;
  read_ok : string -> bool;
  write_res : string -> nat -> Z -> Z }.

Definition healthy : Posix :=
  mkPosix (fun _ => true) (fun _ => true) (fun _ => true) (fun _ _ n => n).

Inductive disk_op :=
| Trunc (p : string)
| Append (p : string) (d : list Z).

Definition apply_op (f : fs) (o : disk_op) : fs :=
  match o with
  | Trunc p => <[p := []]> f
  | Append p d => alter (fun c => c ++ d) p f
  end.

Definition run_ops (ops : list disk_op) (f : fs) : fs := fold_left apply_op ops f.

(** The file systems a crash during [ops] can leave. *)
Inductive crash : list disk_op -> fs -> fs -> Prop :=
| crash_now ops f : crash ops f f
| crash_torn p d k ops f :
    crash (Append p d :: ops) f (apply_op f (Append p (take k d)))
| crash_next o ops f f' : crash ops (apply_op f o) f' -> crash (o :: ops) f f'.

Section Fs.
Context (E : Posix).

(** [read(fd, buf, n)] at position [pos] of a file holding [c]. *)
Definition posix_read (p : string) (c : list Z) (pos : nat) (n : Z) : Z * list Z :=
  if read_ok E p then let d := take (Z.to_nat n) (drop pos c) in (zlen d, d) else (-1, []).

(** [write(fd, d, |d|)], the [k]-th one: the result and the operation. *)
Definition posix_write (p : string) (k : nat) (d : list Z) : Z * disk_op :=
  let r := write_res E p k (zlen d) in (r, Append p (take (Z.to_nat r) d)).

(** [ramDisk_Open], [ramDisk_Close]: the handle is the partition id. *)
Definition ramDisk_Open (partId : Z) : Z := partId.

Fixpoint getIdx_from (i : Z) (cfg : list RAM_NV_CONFIG) (partId : Z) : Z :=
  match cfg with
  | [] => -1
  | c :: r => if cfg_partId c =? 0 then -1
              else if partId =? cfg_partId c then i
              else getIdx_from (i + 1) r partId
  end.
Definition _getIdx (cfg : list RAM_NV_CONFIG) (handle : Z) : Z := getIdx_from 0 cfg handle.

(** [_chkNVEcc]; the buffer comes from [malloc], so its address is even, and
    the 32-bit header field is passed as an [uint16]. *)
Definition _chkNVEcc (buf : list Z) (size checksum : Z) : option bool :=
  crc ← calc_checksum false buf size; Some (crc =? u16 checksum).

(** Open an image, read the header and then the data; [Some None] when the
    file cannot be opened, else the two results of [read] and the buffers. *)
Definition read_image (p : string) (header buf : list Z) (size : Z) (f : fs)
  : option (option (Z * Z * list Z * list Z)) :=
  match f !! p with
  | Some c =>
      if open_ok E p then
        let '(ret1, d1) := posix_read p c 0 RAMNV_SECT_SIZE in
        let '(ret2, d2) := posix_read p c (length d1) size in
        header' ← store header 0 d1;
        buf' ← store buf 0 d2;
        Some (Some (ret1, ret2, header', buf'))
      else Some None
  | None => Some None
  end.

(** The last step of [ramDisk_Read]: check the second image and, when it is
    good, rewrite the first file from it. *)
Definition read_finish (firstName : string) (ret2 : Z) (header buf : list Z) (size : Z) (f : fs)
  : option (Z * list Z * fs) :=
  if negb (u32 ret2 =? size) then Some (1, buf, f) else
  ok ← _chkNVEcc buf size (get32 header 8);
  if negb ok then Some (1, buf, f) else
  if creat_ok E firstName then
    d ← load buf 0 size;
    let ops := [Trunc firstName; snd (posix_write firstName 0 header);
                snd (posix_write firstName 1 d)] in
    Some (1, buf, run_ops ops f)
  else Some (1, buf, f).

(** [rnd] is [rand() % 2]; [header0] is the uninitialised local [header]. *)
Definition ramDisk_Read (rnd : bool) (cfg : list RAM_NV_CONFIG) (handle : Z)
    (header0 buf : list Z) (size : Z) (f : fs) : option (Z * list Z * fs) :=
  let idx := _getIdx cfg handle in
  if idx =? -1 then Some (0, buf, f) else
  c ← cfg !! Z.to_nat idx;
  let firstName := if rnd then image_path c else imageBak_path c in
  let secondName := if rnd then imageBak_path c else image_path c in
  r1 ← read_image firstName header0 buf size f;
  first ← match r1 with
          | None => Some (false, 0, buf)
          | Some (ret1, ret2, header, buf) =>
              if negb (ret1 =? RAMNV_SECT_SIZE) then Some (false, ret2, buf) else
              if u32 ret2 =? size then
                ok ← _chkNVEcc buf size (get32 header 8); Some (ok, ret2, buf)
              else Some (false, ret2, buf)
          end;
  let '(ok, ret2, buf) := first in
  if (ok : bool) then Some (1, buf, f) else
  buf ← store buf 0 (replicate (Z.to_nat size) 0xff);
  let header := replicate (Z.to_nat RAMNV_SECT_SIZE) 0 in
  r2 ← read_image secondName header buf size f;
  match r2 with
  | None => read_finish firstName ret2 header buf size f
  | Some (ret1, ret2, header, buf) =>
      if negb (ret1 =? RAMNV_SECT_SIZE) then Some (1, buf, f)
      else read_finish firstName ret2 header buf size f
  end.

(** The header [ramDisk_Write] builds. *)
Definition nv_header (size checksum : Z) : list Z :=
  le32 NV_HEAD_MAGIC ++ le32 size ++ le32 checksum ++ le32 NV_VERSION
  ++ replicate (Z.to_nat (RAMNV_SECT_SIZE - 16)) 0.

(** Write one image file; [ret] is the result so far.  A failed [open] leaves
    [ret] alone. *)
Definition write_image (p : string) (header d : list Z) (ret : Z) : list disk_op * Z :=
  if creat_ok E p then
    let '(n1, o1) := posix_write p 0 header in
    let ret := if n1 =? RAMNV_SECT_SIZE then ret else 0 in
    let '(n2, o2) := posix_write p 1 d in
    let ret := if u32 n2 =? zlen d then ret else 0 in
    ([Trunc p; o1; o2], ret)
  else ([], ret).

Definition ramDisk_Write (cfg : list RAM_NV_CONFIG) (handle : Z) (buf : list Z) (size : Z)
  : option (list disk_op * Z) :=
  let idx := _getIdx cfg handle in
  if idx =? -1 then Some ([], 0) else
  c ← cfg !! Z.to_nat idx;
  crc ← calc_checksum false buf size;
  d ← load buf 0 size;
  let header := nv_header size crc in
  let '(ops1, ret) := write_image (imageBak_path c) header d 1 in
  let '(ops2, ret) := write_image (image_path c) header d ret in
  Some (ops1 ++ ops2, ret).
End Fs.

(** ** What the two files mean *)

(** The data of a file [ramDisk_Read] takes as good. *)
Definition accepted (size : Z) (c : list Z) : option (list Z) :=
  if RAMNV_SECT_SIZE + size <=? zlen c then
    let d := take (Z.to_nat size) (drop 512 c) in
    match calc_checksum false d size with
    | Some crc => if crc =? u16 (get32 (take 512 c) 8) then Some d else None
    | None => None
    end
  else None.

(** The file [ramDisk_Write] leaves for the data [d]. *)
Definition image_file (d : list Z) : list Z :=
  match calc_checksum false d (zlen d) with
  | Some crc => nv_header (zlen d) crc ++ d
  | None => []
  end.

(** ** Reading *)
Lemma drop_splice_0 m src n :
  (length src <= n)%nat -> (length src <= length m)%nat -> drop n (splice m 0 src) = drop n m.
Proof.
  intros. rewrite splice_0, drop_app_ge, drop_drop by lia. f_equal. lia.
Qed.

Section ReadProofs.
Context (E : Posix) (size : Z) (Hsize : 0 <= size < 2 ^ 32).
Implicit Types (p : string) (c d buf header : list Z) (f : fs).

Lemma read_image_contents p c header buf f :
  f !! p = Some c -> open_ok E p = true -> read_ok E p = true ->
  length header = 512%nat -> size <= zlen buf ->
  let d1 := take 512 c in let d2 := take (Z.to_nat size) (drop (length d1) c) in
  read_image E p header buf size f =
    Some (Some (zlen d1, zlen d2, splice header 0 d1, splice buf 0 d2)).
Proof.
  intros Hf Ho Hr Hh Hb. cbn zeta. unfold read_image, posix_read. rewrite Hf, Ho, Hr.
  change (Z.to_nat RAMNV_SECT_SIZE) with 512%nat. rewrite drop_0.
  unfold store. rewrite !length_take, !length_drop.
  rewrite !(proj2 (Z.leb_le _ _)) by lia. done.
Qed.

Lemma accepted_inv c d :
  accepted size c = Some d ->
  RAMNV_SECT_SIZE + size <= zlen c /\ d = take (Z.to_nat size) (drop 512 c) /\
  zlen d = size /\ fold_not (sum16 0 d) = u16 (get32 (take 512 c) 8).
Proof.
  unfold accepted, RAMNV_SECT_SIZE. destruct (Z.leb_spec (512 + size) (zlen c)); [|done].
  assert (L : zlen (take (Z.to_nat size) (drop 512 c)) = size)
    by (rewrite length_take, length_drop; lia).
  rewrite <- L at 2. rewrite calc_checksum_all.
  destruct (Z.eqb_spec (fold_not (sum16 0 (take (Z.to_nat size) (drop 512 c))))
              (u16 (get32 (take 512 c) 8))); [|done].
  intros [= <-]. auto.
Qed.

Lemma read_good p c d header buf f :
  f !! p = Some c -> open_ok E p = true -> read_ok E p = true ->
  length header = 512%nat -> size <= zlen buf -> accepted size c = Some d ->
  let b := d ++ drop (length d) buf in
  read_image E p header buf size f = Some (Some (RAMNV_SECT_SIZE, size, take 512 c, b)) /\
  _chkNVEcc b size (get32 (take 512 c) 8) = Some true /\ load b 0 size = Some d /\
  length b = length buf.
Proof.
  intros Hf Ho Hr Hh Hb Ha. destruct (accepted_inv _ _ Ha) as (Hc & Hd & L & Hsum).
  unfold RAMNV_SECT_SIZE in *. cbn zeta.
  rewrite (read_image_contents p c header buf f) by done. cbn zeta.
  assert (L1 : length (take 512 c) = 512%nat) by (rewrite length_take; lia).
  rewrite L1. rewrite <- Hd, L, !splice_0 by lia.
  rewrite L1. rewrite (drop_ge header), app_nil_r by lia.
  split; [done|]. split; [|split].
  - unfold _chkNVEcc. rewrite <- L at 1. rewrite calc_checksum_prefix. cbn.
    rewrite Hsum, Z.eqb_refl. done.
  - rewrite <- L at 1. apply load_prefix.
  - rewrite length_app, length_drop. lia.
Qed.

(** An image that is not [accepted] is rejected by the first half of
    [ramDisk_Read]: header short, data short, or checksum wrong. *)
Lemma read_bad p c header buf f :
  f !! p = Some c -> open_ok E p = true -> read_ok E p = true ->
  length header = 512%nat -> size <= zlen buf -> accepted size c = None ->
  exists ret1 ret2 h b,
    read_image E p header buf size f = Some (Some (ret1, ret2, h, b)) /\
    length b = length buf /\ drop (Z.to_nat size) b = drop (Z.to_nat size) buf /\
    ret1 = zlen (take 512 c) /\
    ret2 = zlen (take (Z.to_nat size) (drop (length (take 512 c)) c)) /\
    (ret1 <> RAMNV_SECT_SIZE \/ u32 ret2 <> size \/ _chkNVEcc b size (get32 h 8) = Some false).
Proof.
  intros Hf Ho Hr Hh Hb Ha.
  pose proof (read_image_contents p c header buf f Hf Ho Hr Hh Hb) as R. cbn zeta in R.
  do 4 eexists. split; [exact R|]. clear R. unfold RAMNV_SECT_SIZE in *.
  split. { rewrite splice_length; [done|]. rewrite length_take, length_drop. lia. }
  split. { apply drop_splice_0; rewrite length_take, length_drop; lia. }
  split; [done|]. split; [done|].
  rewrite !length_take, length_drop, ?length_take.
  destruct (Z.lt_ge_cases (zlen c) 512) as [|H1]; [left; lia|right].
  destruct (Z.lt_ge_cases (zlen c) (512 + size)) as [|H2]; [left; rewrite u32_small; unfold is_u32; lia|right].
  unfold accepted, RAMNV_SECT_SIZE in Ha. rewrite (proj2 (Z.leb_le _ _)) in Ha by lia.
  replace (512 `min` length c)%nat with 512%nat by lia.
  set (d := take (Z.to_nat size) (drop 512 c)) in *.
  assert (L : zlen d = size) by (unfold d; rewrite length_take, length_drop; lia).
  rewrite !splice_0 by (rewrite ?length_take; lia).
  rewrite length_take, (drop_ge header), app_nil_r by lia.
  unfold _chkNVEcc. rewrite <- L at 1. rewrite calc_checksum_prefix. cbn.
  rewrite <- L in Ha at 1. rewrite calc_checksum_all in Ha.
  destruct (_ =? _) in *; done.
Qed.
End ReadProofs.

(** ** Rewriting a file, and crashes *)
Definition rewrite_ops (p : string) (h d : list Z) : list disk_op :=
  [Trunc p; Append p h; Append p d].

Lemma trunc_append p h (f : fs) : apply_op (apply_op f (Trunc p)) (Append p h) = <[p := h]> f.
Proof.
  cbn [apply_op]. apply map_eq. intros i. destruct (decide (i = p)) as [->|].
  - now rewrite lookup_alter_eq, !lookup_insert_eq.
  - now rewrite lookup_alter_ne, !lookup_insert_ne by done.
Qed.

Lemma append_insert p c d (f : fs) : apply_op (<[p := c]> f) (Append p d) = <[p := c ++ d]> f.
Proof.
  cbn [apply_op]. apply map_eq. intros i. destruct (decide (i = p)) as [->|].
  - now rewrite lookup_alter_eq, !lookup_insert_eq.
  - now rewrite lookup_alter_ne, !lookup_insert_ne by done.
Qed.

Lemma run_rewrite p h d (f : fs) : run_ops (rewrite_ops p h d) f = <[p := h ++ d]> f.
Proof.
  unfold run_ops, rewrite_ops. cbn [fold_left]. now rewrite trunc_append, append_insert.
Qed.

Lemma crash_app a b f f' :
  crash (a ++ b) f f' -> crash a f f' \/ crash b (run_ops a f) f'.
Proof.
  revert f. induction a as [|o a IH]; intros f H; [now right|]. cbn in H.
  inversion H; subst.
  - left. constructor.
  - left. constructor.
  - apply IH in H4 as [?|?]; [left; now constructor|right; done].
Qed.

(** A crash while a file is rewritten leaves it untouched or a prefix of the
    new contents, and the other files alone. *)
Lemma crash_rewrite p h d f f' :
  crash (rewrite_ops p h d) f f' -> f' = f \/ exists k, f' = <[p := take k (h ++ d)]> f.
Proof.
  assert (T : forall k, exists j, take k h = take j (h ++ d)).
  { intros k. exists (k `min` length h)%nat. rewrite take_app_le by lia.
    destruct (Nat.le_ge_cases k (length h)); [f_equal; lia|]. now rewrite !take_ge by lia. }
  assert (T2 : forall k, h ++ take k d = take (length h + k) (h ++ d)).
  { intros k. rewrite take_app_ge by lia. do 2 f_equal. lia. }
  unfold rewrite_ops. intros H. inversion H as [|? ? ? ? ?|? ? ? ? H1]; subst; [now left|right].
  inversion H1 as [|? ? k|? ? ? ? H2]; subst.
  - exists 0%nat. done.
  - destruct (T k) as [j Hj]. exists j. rewrite <- Hj. apply trunc_append.
  - rewrite trunc_append in H2. inversion H2 as [|? ? k|? ? ? ? H3]; subst.
    + exists (length h). now rewrite take_app_0.
    + exists (length h + k)%nat. rewrite append_insert. now rewrite T2.
    + rewrite append_insert in H3. inversion H3; subst.
      exists (length (h ++ d)). now rewrite take_ge.
Qed.

Lemma nv_header_length s crc : length (nv_header s crc) = 512%nat.
Proof. unfold nv_header. rewrite !length_app, !le_enc_length, length_replicate. done. Qed.

Lemma nv_header_checksum s crc : is_u32 crc -> get32 (nv_header s crc) 8 = crc.
Proof.
  intros H. unfold nv_header. rewrite app_assoc.
  change 8%nat with (length (le32 NV_HEAD_MAGIC ++ le32 s) + 0)%nat.
  rewrite get32_skip. now apply get32_le32.
Qed.

Lemma image_file_eq d : image_file d = nv_header (zlen d) (fold_not (sum16 0 d)) ++ d.
Proof. unfold image_file. now rewrite calc_checksum_all. Qed.

Lemma image_file_length d : length (image_file d) = (512 + length d)%nat.
Proof. now rewrite image_file_eq, length_app, nv_header_length. Qed.

(** What [ramDisk_Write] stores is what [ramDisk_Read] takes as good. *)
Lemma accepted_image_file d : accepted (zlen d) (image_file d) = Some d.
Proof.
  unfold accepted, RAMNV_SECT_SIZE. rewrite image_file_length, (proj2 (Z.leb_le _ _)) by lia.
  rewrite Nat2Z.id, image_file_eq.
  assert (L := nv_header_length (zlen d) (fold_not (sum16 0 d))).
  replace (take 512 (nv_header (zlen d) (fold_not (sum16 0 d)) ++ d))
    with (nv_header (zlen d) (fold_not (sum16 0 d))) by (rewrite <- L; now rewrite take_app_0).
  replace (drop 512 (nv_header (zlen d) (fold_not (sum16 0 d)) ++ d)) with d
    by (rewrite <- L; now rewrite drop_app_0).
  rewrite (take_ge d) by done. rewrite calc_checksum_all.
  pose proof (fold_not_range (sum16 0 d)).
  rewrite nv_header_checksum by (unfold is_u32; lia).
  rewrite u16_small, Z.eqb_refl by lia. done.
Qed.

Lemma accepted_short size c : zlen c < 512 + size -> accepted size c = None.
Proof.
  intros. unfold accepted, RAMNV_SECT_SIZE. destruct (Z.leb_spec (512 + size) (zlen c)); lia || done.
Qed.

(** A torn image is either complete or rejected. *)
Lemma accepted_torn d k :
  accepted (zlen d) (take k (image_file d)) = Some d \/
  accepted (zlen d) (take k (image_file d)) = None.
Proof.
  destruct (le_lt_dec (512 + length d) k).
  - left. rewrite take_ge by (rewrite image_file_length; lia). apply accepted_image_file.
  - right. apply accepted_short. rewrite length_take, image_file_length. lia.
Qed.

Section Ramdisk.
(** The entry of the partition in the configuration table. *)
Context (cfg : list RAM_NV_CONFIG) (handle : Z) (c : RAM_NV_CONFIG).
Context (Hidx : _getIdx cfg handle <> -1).
Context (Hcfg : cfg !! Z.to_nat (_getIdx cfg handle) = Some c).
Implicit Types (d buf : list Z) (f : fs).

Definition first_name (rnd : bool) := if rnd then image_path c else imageBak_path c.
Definition second_name (rnd : bool) := if rnd then imageBak_path c else image_path c.

(** The first image is good: its data, and nothing is written. *)
Lemma read_takes_first rnd header0 buf size f x d :
  0 <= size < 2 ^ 32 -> length header0 = 512%nat -> size <= zlen buf ->
  f !! first_name rnd = Some x -> accepted size x = Some d ->
  ramDisk_Read healthy rnd cfg handle header0 buf size f =
    Some (1, d ++ drop (length d) buf, f).
Proof.
  intros Hs Hh Hb Hf Ha. unfold ramDisk_Read.
  destruct (Z.eqb_spec (_getIdx cfg handle) (-1)); [done|]. rewrite Hcfg. cbn [mbind option_bind].
  fold (first_name rnd) (second_name rnd).
  destruct (read_good healthy size Hs _ x d header0 buf f Hf eq_refl eq_refl Hh Hb Ha)
    as (-> & Hc & _). cbn [mbind option_bind negb].
  rewrite u32_small, !Z.eqb_refl by done. cbn [negb]. rewrite Hc. done.
Qed.

(** The first image is missing or bad and the second good: the data of the
    second, and the first file is repaired. *)
Lemma read_falls_back rnd header0 buf size f y d :
  0 <= size < 2 ^ 32 -> length header0 = 512%nat -> size <= zlen buf ->
  (f !! first_name rnd) ≫= accepted size = None ->
  f !! second_name rnd = Some y -> accepted size y = Some d ->
  ramDisk_Read healthy rnd cfg handle header0 buf size f =
    Some (1, d ++ drop (length d) buf, <[first_name rnd := take 512 y ++ d]> f).
Proof.
  intros Hs Hh Hb Hbad Hf Ha. unfold ramDisk_Read.
  destruct (Z.eqb_spec (_getIdx cfg handle) (-1)); [done|]. rewrite Hcfg. cbn [mbind option_bind].
  fold (first_name rnd) (second_name rnd).
  (* after the first half: rejected, with a buffer of the same length *)
  assert (R : exists ret2 b, length b = length buf /\
    drop (Z.to_nat size) b = drop (Z.to_nat size) buf /\
    (r1 ← read_image healthy (first_name rnd) header0 buf size f;
     match r1 with
     | None => Some (false, 0, buf)
     | Some (ret1, ret2, header, buf) =>
         if negb (ret1 =? RAMNV_SECT_SIZE) then Some (false, ret2, buf) else
         if u32 ret2 =? size then
           ok ← _chkNVEcc buf size (get32 header 8); Some (ok, ret2, buf)
         else Some (false, ret2, buf)
     end) = Some (false, ret2, b)).
  { destruct (f !! first_name rnd) as [x|] eqn:Hx.
    - destruct (read_bad healthy size Hs _ x header0 buf f Hx eq_refl eq_refl Hh Hb Hbad)
        as (ret1 & ret2 & h & b & -> & Lb & Db & _ & _ & Hrej). cbn [mbind option_bind].
      exists ret2, b. split_and!; [done..|]. destruct (Z.eqb_spec ret1 RAMNV_SECT_SIZE); [|done].
      destruct (Z.eqb_spec (u32 ret2) size); [|done]. cbn [negb].
      destruct Hrej as [ | [ | Hk]]; [done|done|]. rewrite Hk. done.
    - exists 0, buf. unfold read_image. now rewrite Hx. }
  destruct R as (ret2 & b & Lb & Db & R).
  destruct (read_image healthy (first_name rnd) header0 buf size f) as [r1|]; [|done].
  cbn [mbind option_bind] in R |- *. rewrite R. cbn [mbind option_bind]. clear R.
  destruct (store b 0 (replicate (Z.to_nat size) 0xff)) as [b'|] eqn:St.
  2:{ exfalso. unfold store in St. rewrite length_replicate, !(proj2 (Z.leb_le _ _)) in St by lia. done. }
  apply store_Some in St as (_ & Hr & ->). cbn [mbind option_bind].
  change (Z.to_nat 0) with 0%nat.
  assert (Lb' : length (splice b 0 (replicate (Z.to_nat size) 255)) = length buf)
    by (rewrite splice_length; lia).
  destruct (read_good healthy size Hs _ y d (replicate (Z.to_nat RAMNV_SECT_SIZE) 0)
    (splice b 0 (replicate (Z.to_nat size) 255)) f Hf eq_refl eq_refl
    (length_replicate _ _) ltac:(lia) Ha) as (-> & Hc & Hl & _).
  destruct (accepted_inv size Hs _ _ Ha) as (Hy & _ & Ld & _).
  cbn [mbind option_bind]. rewrite Z.eqb_refl. cbn [negb]. unfold read_finish.
  rewrite u32_small, Z.eqb_refl by done. cbn [negb]. rewrite Hc. cbn [mbind option_bind negb creat_ok healthy].
  rewrite Hl. cbn [mbind option_bind]. unfold posix_write, write_res. cbn [healthy snd].
  assert (D : drop (length d) (splice b 0 (replicate (Z.to_nat size) 255)) = drop (length d) buf).
  { replace (length d) with (Z.to_nat size) by lia.
    rewrite drop_splice_0 by (rewrite length_replicate; lia). done. }
  rewrite D, !Nat2Z.id, (take_ge (take 512 y)), (take_ge d) by done.
  do 2 f_equal. apply run_rewrite.
Qed.

(** ** Writing *)
Definition write_ops (d : list Z) : list disk_op :=
  let h := nv_header (zlen d) (fold_not (sum16 0 d)) in
  rewrite_ops (imageBak_path c) h d ++ rewrite_ops (image_path c) h d.

Lemma ramDisk_Write_healthy d t :
  ramDisk_Write healthy cfg handle (d ++ t) (zlen d) =
    Some (write_ops d, if zlen d <? 2 ^ 32 then 1 else 0).
Proof.
  unfold ramDisk_Write. destruct (Z.eqb_spec (_getIdx cfg handle) (-1)); [done|].
  rewrite Hcfg, calc_checksum_prefix, load_prefix. cbn [mbind option_bind].
  unfold write_image, posix_write. cbn [creat_ok healthy write_res].
  rewrite nv_header_length, !Nat2Z.id, !(take_ge (nv_header _ _)), !(take_ge d)
    by (rewrite ?nv_header_length; done).
  change (Z.of_nat 512 =? RAMNV_SECT_SIZE) with true.
  destruct (Z.ltb_spec (zlen d) (2 ^ 32)).
  - rewrite u32_small, Z.eqb_refl by (unfold is_u32; lia). done.
  - pose proof (u32_range (zlen d)). destruct (Z.eqb_spec (u32 (zlen d)) (zlen d)); [lia|done].
Qed.

Lemma run_write_ops d f :
  run_ops (write_ops d) f = <[image_path c := image_file d]> (<[imageBak_path c := image_file d]> f).
Proof.
  unfold write_ops, run_ops. rewrite fold_left_app. fold (run_ops (rewrite_ops (imageBak_path c)
    (nv_header (zlen d) (fold_not (sum16 0 d))) d) f).
  rewrite run_rewrite, image_file_eq. now rewrite (run_rewrite (imageBak_path c)).
Qed.

(** The states a power failure during [ramDisk_Write] can leave: the image
    still old and the backup old or a prefix of the new file, or the backup
    new and the image old or a prefix of the new file. *)
Lemma write_crash_states f f' d :
  crash (write_ops d) f f' ->
  f' = f \/ (exists k, f' = <[imageBak_path c := take k (image_file d)]> f) \/
  f' = <[imageBak_path c := image_file d]> f \/
  exists k, f' = <[image_path c := take k (image_file d)]> (<[imageBak_path c := image_file d]> f).
Proof.
  intros H. unfold write_ops in H. rewrite image_file_eq.
  apply crash_app in H as [H|H].
  - apply crash_rewrite in H. naive_solver.
  - rewrite run_rewrite in H. apply crash_rewrite in H. naive_solver.
Qed.

(** At least one good copy: [ramDisk_Read] returns the data of a good copy. *)
Lemma read_one_of (P : list Z -> Prop) rnd header0 buf size f x y :
  0 <= size < 2 ^ 32 -> length header0 = 512%nat -> size <= zlen buf ->
  f !! image_path c = Some x -> f !! imageBak_path c = Some y ->
  (forall d, accepted size x = Some d -> P d) -> (forall d, accepted size y = Some d -> P d) ->
  is_Some (accepted size x) \/ is_Some (accepted size y) ->
  exists r f', P r /\
    ramDisk_Read healthy rnd cfg handle header0 buf size f =
      Some (1, r ++ drop (length r) buf, f').
Proof.
  intros Hs Hh Hb Hx Hy Px Py H.
  assert (Hf : f !! first_name rnd = Some (if rnd then x else y)) by (destruct rnd; done).
  assert (Hg : f !! second_name rnd = Some (if rnd then y else x)) by (destruct rnd; done).
  destruct (accepted size (if rnd then x else y)) as [r|] eqn:A.
  - exists r, f. split; [destruct rnd; auto|]. eapply read_takes_first; eauto.
  - destruct (accepted size (if rnd then y else x)) as [r|] eqn:B.
    + eexists r, _. split; [destruct rnd; auto|]. eapply read_falls_back; eauto.
      rewrite Hf. exact A.
    + exfalso. destruct rnd, H as [[? ?]|[? ?]]; congruence.
Qed.

(** C1: the two-copy protocol is atomic under power failure.  Both copies hold
    the image [old]; the device loses power at any point of
    [ramDisk_Write(new)], between or inside the writes; at the next start
    [ramDisk_Read], whichever copy it tries first, succeeds and returns exactly
    [old] or exactly [new]. *)
Theorem ramDisk_Write_crash_atomic f f' rnd header0 buf x y old new t ops ret :
  image_path c <> imageBak_path c -> zlen new < 2 ^ 32 -> zlen old = zlen new ->
  f !! image_path c = Some x -> accepted (zlen old) x = Some old ->
  f !! imageBak_path c = Some y -> accepted (zlen old) y = Some old ->
  ramDisk_Write healthy cfg handle (new ++ t) (zlen new) = Some (ops, ret) ->
  crash ops f f' ->
  length header0 = 512%nat -> zlen new <= zlen buf ->
  exists r f'', (r = old \/ r = new) /\
    ramDisk_Read healthy rnd cfg handle header0 buf (zlen new) f' =
      Some (1, r ++ drop (length r) buf, f'').
Proof.
  intros Hne Hn Hl Hx Ax Hy Ay Hw Hc Hh Hb. rewrite Hl in *.
  rewrite ramDisk_Write_healthy in Hw. injection Hw as <- <-.
  pose proof (accepted_image_file new) as An.
  assert (Hs : 0 <= zlen new < 2 ^ 32) by lia.
  assert (T : forall k d, accepted (zlen new) (take k (image_file new)) = Some d -> d = new).
  { intros k d Hd. destruct (accepted_torn new k); congruence. }
  pose (read := fun f x y => read_one_of (fun r => r = old \/ r = new) rnd header0 buf _ f x y Hs Hh Hb).
  apply write_crash_states in Hc as [->|[[k ->]|[->|[k ->]]]].
  - apply (read _ x y); eauto; left; congruence.
  - apply (read _ x (take k (image_file new))); rewrite ?lookup_insert_eq, ?lookup_insert_ne by done;
      eauto; left; congruence.
  - apply (read _ x (image_file new)); rewrite ?lookup_insert_eq, ?lookup_insert_ne by done; eauto.
    + left; congruence.
    + right; congruence.
  - apply (read _ (take k (image_file new)) (image_file new)); eauto.
    + apply lookup_insert_eq.
    + rewrite lookup_insert_ne by done. apply lookup_insert_eq.
    + right; congruence.
Qed.

(** The round trip of a completed write: the next [ramDisk_Read] returns the
    written image from either copy and leaves the files as they are. *)
Lemma ramDisk_Read_Write f rnd header0 buf d t ops ret :
  image_path c <> imageBak_path c -> zlen d < 2 ^ 32 ->
  ramDisk_Write healthy cfg handle (d ++ t) (zlen d) = Some (ops, ret) ->
  length header0 = 512%nat -> zlen d <= zlen buf ->
  ret = 1 /\
  ramDisk_Read healthy rnd cfg handle header0 buf (zlen d) (run_ops ops f) =
    Some (1, d ++ drop (length d) buf, run_ops ops f).
Proof.
  intros Hne Hd Hw Hh Hb. rewrite ramDisk_Write_healthy in Hw. injection Hw as <- <-.
  rewrite (proj2 (Z.ltb_lt _ _)) by done. split; [done|]. rewrite run_write_ops. eapply read_takes_first; eauto using accepted_image_file.
  - lia.
  - unfold first_name. destruct rnd; [apply lookup_insert_eq|].
    rewrite lookup_insert_ne by done. apply lookup_insert_eq.
Qed.

(** An image whose checksum is wrong, while the other file does not exist
    (the built-in configuration names no backup), is silently replaced: the
    failed [open] leaves [ret2] from the first file and a zeroed header, an
    all-0xFF buffer has checksum 0, so the erased buffer passes the check, is
    written over the image and returned as a success. *)
Lemma ramDisk_Read_blanks_bad_image f rnd header0 buf x (k : nat) :
  1 <= Z.of_nat k <= 65536 -> zlen x = 512 + Z.of_nat (2 * k) ->
  length header0 = 512%nat -> Z.of_nat (2 * k) <= zlen buf ->
  f !! first_name rnd = Some x -> accepted (Z.of_nat (2 * k)) x = None ->
  f !! second_name rnd = None ->
  let ff := replicate (2 * k) 0xff in
  ramDisk_Read healthy rnd cfg handle header0 buf (Z.of_nat (2 * k)) f =
    Some (1, ff ++ drop (2 * k) buf, <[first_name rnd := replicate 512 0 ++ ff]> f).
Proof.
  intros Hk Lx Hh Hb Hf Ha Hs ff. unfold ramDisk_Read.
  destruct (Z.eqb_spec (_getIdx cfg handle) (-1)); [done|]. rewrite Hcfg. cbn [mbind option_bind].
  fold (first_name rnd) (second_name rnd).
  assert (Hsz : 0 <= Z.of_nat (2 * k) < 2 ^ 32) by lia.
  destruct (read_bad healthy _ Hsz _ x header0 buf f Hf eq_refl eq_refl Hh Hb Ha)
    as (ret1 & ret2 & h & b & -> & Lb & Db & R1 & R2 & Hrej).
  assert (L1 : length (take 512 x) = 512%nat) by (rewrite length_take; lia).
  rewrite L1 in R1, R2. change (ret1 = RAMNV_SECT_SIZE) in R1.
  assert (R2' : ret2 = Z.of_nat (2 * k)) by (rewrite R2, length_take, length_drop; lia).
  cbn [mbind option_bind]. rewrite R1, R2', Z.eqb_refl. cbn [negb].
  rewrite u32_small, Z.eqb_refl by (unfold is_u32; lia).
  destruct Hrej as [|[He|He]]; [done|rewrite R2', u32_small in He; [done|unfold is_u32; lia]|].
  rewrite He. cbn [mbind option_bind].
  unfold store. rewrite length_replicate, Lb, !(proj2 (Z.leb_le _ _)) by lia. cbn [andb mbind option_bind].
  rewrite Nat2Z.id. change (Z.to_nat 0) with 0%nat. fold ff.
  unfold read_image. rewrite Hs. cbn [mbind option_bind]. unfold read_finish.
  rewrite u32_small, Z.eqb_refl by (unfold is_u32; lia). cbn [negb].
  assert (Lf : length ff = (2 * k)%nat) by apply length_replicate.
  assert (Bf : forall t, calc_checksum false (ff ++ t) (Z.of_nat (2 * k)) = Some 0)
    by (intros t; now apply calc_checksum_blank).
  rewrite splice_0, Lf by lia. rewrite Nat2Z.id in Db. rewrite Db.
  unfold _chkNVEcc. rewrite Bf. cbn [mbind option_bind].
  change (get32 (replicate (Z.to_nat RAMNV_SECT_SIZE) 0) 8) with 0.
  change (0 =? u16 0) with true. cbn [negb creat_ok healthy].
  assert (Hl : forall t, load (ff ++ t) 0 (Z.of_nat (2 * k)) = Some ff)
    by (intros t; rewrite <- Lf; apply load_prefix).
  rewrite Hl. cbn [mbind option_bind]. unfold posix_write. cbn [snd healthy write_res]. rewrite !Nat2Z.id.
  rewrite (take_ge ff), (take_ge (replicate (Z.to_nat RAMNV_SECT_SIZE) 0)) by done.
  change (Z.to_nat RAMNV_SECT_SIZE) with 512%nat. do 2 f_equal. apply run_rewrite.
Qed.
End Ramdisk.

(** A write that can open neither file writes nothing and still reports
    success: the result is only cleared by a short [write]. *)
Lemma ramDisk_Write_unopened_succeeds E cfg handle c buf size crc :
  _getIdx cfg handle <> -1 -> cfg !! Z.to_nat (_getIdx cfg handle) = Some c ->
  creat_ok E (image_path c) = false -> creat_ok E (imageBak_path c) = false ->
  calc_checksum false buf size = Some crc ->
  ramDisk_Write E cfg handle buf size = Some ([], 1).
Proof.
  intros Hi Hc H1 H2 Hs. unfold ramDisk_Write. destruct (Z.eqb_spec (_getIdx cfg handle) (-1)); [done|].
  rewrite Hc, Hs. cbn [mbind option_bind].
  unfold calc_checksum in Hs. destruct (load buf 0 size); [|done]. cbn [mbind option_bind].
  unfold write_image. rewrite H1, H2. done.
Qed.

(** ** Partition handles *)
Lemma getIdx_from_spec cfg i h :
  getIdx_from i cfg h = -1 \/
  exists k c, getIdx_from i cfg h = i + Z.of_nat k /\ cfg !! k = Some c /\
    cfg_partId c = h /\ h <> 0.
Proof.
  revert i. induction cfg as [|c r IH]; intros i; [now left|]. cbn [getIdx_from].
  destruct (Z.eqb_spec (cfg_partId c) 0); [now left|].
  destruct (Z.eqb_spec h (cfg_partId c)) as [->|].
  - right. exists O, c. split_and!; done || lia.
  - destruct (IH (i + 1)) as [?|(k & c' & E & Hk & Hp & H0)]; [now left|right].
    exists (S k), c'. split_and!; try done. lia.
Qed.

(** The configuration entry of a handle. *)
Definition entry (cfg : list RAM_NV_CONFIG) (h : Z) : option RAM_NV_CONFIG :=
  if _getIdx cfg h =? -1 then None else cfg !! Z.to_nat (_getIdx cfg h).

Lemma entry_spec cfg h :
  (_getIdx cfg h = -1 /\ entry cfg h = None) \/
  exists k c, _getIdx cfg h <> -1 /\ _getIdx cfg h = Z.of_nat k /\ cfg !! k = Some c /\
    entry cfg h = Some c /\ cfg_partId c = h /\ h <> 0.
Proof.
  unfold entry, _getIdx. destruct (getIdx_from_spec cfg 0 h) as [->|(k & c & -> & Hk & Hp & H0)].
  - now left.
  - right. exists k, c. destruct (Z.eqb_spec (0 + Z.of_nat k) (-1)); [lia|].
    replace (Z.to_nat (0 + Z.of_nat k)) with k by lia. split_and!; done || lia.
Qed.

(** Every file of the configuration belongs to one partition and one role. *)
Definition distinct_paths (cfg : list RAM_NV_CONFIG) : Prop :=
  forall i j c c', cfg !! i = Some c -> cfg !! j = Some c' ->
    cfg_partId c <> 0 -> cfg_partId c' <> 0 ->
    image_path c <> imageBak_path c' /\
    (i <> j -> image_path c <> image_path c' /\ imageBak_path c <> imageBak_path c').

(** ** Instances *)
Definition demo_cfg : list RAM_NV_CONFIG := [mkConfig 7 "image" "backup" 4; mkConfig 0 "" "" 0].
Definition demo_entry : RAM_NV_CONFIG := mkConfig 7 "image" "backup" 4.
Definition demo_fs : fs := <["image" := image_file [1; 2; 3; 4]]> {["backup" := image_file [1; 2; 3; 4]]}.

Lemma ramDisk_Write_crash_atomic_witness :
  exists r f'', (r = [1; 2; 3; 4] \/ r = [5; 6; 7; 8]) /\
    ramDisk_Read healthy true demo_cfg 7 (replicate 512 0) [0; 0; 0; 0] 4
      (<["backup" := []]> demo_fs) = Some (1, r ++ [], f'').
Proof.
  destruct (ramDisk_Write healthy demo_cfg 7 [5; 6; 7; 8] 4) as [[ops ret]|] eqn:E; [|discriminate E].
  pose proof E as E0. vm_compute in E0. injection E0 as <- <-.
  destruct (ramDisk_Write_crash_atomic demo_cfg 7 demo_entry ltac:(discriminate) eq_refl
    demo_fs (<["backup" := []]> demo_fs) true (replicate 512 0) [0; 0; 0; 0]
    (image_file [1; 2; 3; 4]) (image_file [1; 2; 3; 4]) [1; 2; 3; 4] [5; 6; 7; 8] [] _ _
    ltac:(discriminate) ltac:(reflexivity) eq_refl ltac:(vm_compute; reflexivity)
    ltac:(vm_compute; reflexivity) ltac:(vm_compute; reflexivity) ltac:(vm_compute; reflexivity) E
    (crash_next _ _ _ _ (crash_now _ _)) ltac:(reflexivity) ltac:(simpl; lia))
    as (r & f'' & Hr & Hread).
  exists r, f''. split; [exact Hr|]. destruct Hr as [-> | ->]; exact Hread.
Defined.

Lemma ramDisk_Read_Write_witness :
  exists ops ret, ramDisk_Write healthy demo_cfg 7 [5; 6; 7; 8] 4 = Some (ops, ret) /\ ret = 1 /\
    ramDisk_Read healthy false demo_cfg 7 (replicate 512 0) [0; 0; 0; 0] 4 (run_ops ops ∅) =
      Some (1, [5; 6; 7; 8], run_ops ops ∅).
Proof.
  destruct (ramDisk_Write healthy demo_cfg 7 [5; 6; 7; 8] 4) as [[ops ret]|] eqn:E; [|discriminate E].
  exists ops, ret. split; [reflexivity|].
  exact (ramDisk_Read_Write demo_cfg 7 demo_entry ltac:(discriminate) eq_refl ∅ false
    (replicate 512 0) [0; 0; 0; 0] [5; 6; 7; 8] [] ops ret ltac:(discriminate) ltac:(reflexivity) E
    ltac:(reflexivity) ltac:(simpl; lia)).
Defined.

Lemma ramDisk_Read_blanks_bad_image_witness :
  ramDisk_Read healthy true demo_cfg 7 (replicate 512 0) [0; 0] 2
    {["image" := replicate 513 1 ++ [9]]} =
  Some (1, [0xff; 0xff], <["image" := replicate 512 0 ++ [0xff; 0xff]]> {["image" := replicate 513 1 ++ [9]]}).
Proof.
  exact (ramDisk_Read_blanks_bad_image demo_cfg 7 demo_entry ltac:(discriminate) eq_refl
    {["image" := replicate 513 1 ++ [9]]} true (replicate 512 0) [0; 0] (replicate 513 1 ++ [9]) 1
    ltac:(lia) ltac:(reflexivity) ltac:(reflexivity) ltac:(simpl; lia) ltac:(vm_compute; reflexivity)
    ltac:(vm_compute; reflexivity) ltac:(vm_compute; reflexivity)).
Defined.

Lemma ramDisk_Write_unopened_succeeds_witness :
  ramDisk_Write (mkPosix (fun _ => true) (fun _ => false) (fun _ => true) (fun _ _ n => n))
    demo_cfg 7 [1; 2] 2 = Some ([], 1).
Proof.
  apply (ramDisk_Write_unopened_succeeds
    (mkPosix (fun _ => true) (fun _ => false) (fun _ => true) (fun _ _ n => n)) demo_cfg 7 demo_entry [1; 2] 2 0xfdfe);
    [discriminate | reflexivity..].
Defined.
