(* ===== verification/TextConf.v ===== *)
(** * Reading configuration files

    What apps/nvitem/nvitem_fs.c and apps/modem_control/modem_boot.c use of
    stdio to read their configuration: [fgets] into a buffer, the removal of
    the last character of the line, and [sscanf] with [%x] and [%s]; and what
    the audio parameters and the system log use of string.h and stdlib.h.

    A file is the list of its characters that are still to be read.  The
    conversions follow the C standard: white space in front is skipped, [%s]
    takes the characters up to the next white space, [%x] an optional sign, an
    optional 0x and hexadecimal digits.  A conversion that the standard leaves
    undefined (a number beyond 32 bits, a string longer than its array) is
    [None]. *)
From S2P Require Import Prelude.
From Stdlib Require Import Ascii.

Abbreviation text := (list ascii).

Definition chars (s : string) : text := String.list_ascii_of_string s.
Definition NL : ascii := "010".
Definition NUL : ascii := "000".
Definition code (c : ascii) : Z := Z.of_N (N_of_ascii c).

(** [isspace]: blank, tab, new line, vertical tab, form feed, return. *)
Definition isspace (c : ascii) : bool := (code c =? 32) || ((9 <=? code c) && (code c <=? 13)).

Definition hex_digit_value (c : ascii) : option Z :=
  let z := code c in
  if (48 <=? z) && (z <=? 57) then Some (z - 48)
  else if (97 <=? z) && (z <=? 102) then Some (z - 87)
  else if (65 <=? z) && (z <=? 70) then Some (z - 55)
  else None.

(** ** Lines *)

(** [fgets(line, n, fp)]: at most n - 1 characters, up to a new line, which is
    part of the line; [None] at the end of the file. *)
Fixpoint fgets_chars (n : nat) (t : text) : text * text :=
  match n, t with
  | S k, c :: r => if ascii_dec c NL then ([c], r) else let '(l, r') := fgets_chars k r in (c :: l, r')
  | _, _ => ([], t)
  end.
Definition fgets (n : nat) (t : text) : option (text * text) :=
  match t with [] => None | _ => Some (fgets_chars (n - 1) t) end.

(** The characters of a C string, up to the first NUL. *)
Fixpoint cstr (l : text) : text :=
  match l with
  | [] => []
  | c :: r => if ascii_dec c NUL then [] else c :: cstr r
  end.

(** [line[strlen(line)-1] = 0]: undefined for the empty string. *)
Definition chop (l : text) : option text :=
  match cstr l with [] => None | l' => Some (removelast l') end.

(** ** [sscanf] *)

(** The outcome of a conversion: the input ended, it did not match, or the
    value and the rest of the input. *)
Inductive conv (A : Type) := Eof | Mismatch | Got (a : A) (rest : text).
Arguments Eof {A}.
Arguments Mismatch {A}.
Arguments Got {A} _ _.

Fixpoint skip_space (l : text) : text :=
  match l with [] => [] | c :: r => if isspace c then skip_space r else l end.

Fixpoint word (l : text) : text * text :=
  match l with
  | [] => ([], [])
  | c :: r => if isspace c then ([], l) else let '(w, r') := word r in (c :: w, r')
  end.
(** [%s] *)
Definition scan_s (l : text) : conv text :=
  match skip_space l with [] => Eof | l' => let '(w, r) := word l' in Got w r end.

Fixpoint hex_digits (l : text) : list Z * text :=
  match l with
  | [] => ([], [])
  | c :: r => match hex_digit_value c with
              | Some d => let '(ds, r') := hex_digits r in (d :: ds, r')
              | None => ([], l)
              end
  end.
Definition hex_number (ds : list Z) : Z := foldl (fun v d => 16 * v + d) 0 ds.

Definition skip_sign (l : text) : bool * text :=
  match l with
  | c :: r => if code c =? 45 then (true, r) else if code c =? 43 then (false, r) else (false, l)
  | [] => (false, [])
  end.
Definition is_x (c : ascii) : bool := (code c =? 120) || (code c =? 88).

(** [%x]; the value is [None] when it is not representable. *)
Definition scan_x (l : text) : conv (option Z) :=
  match skip_space l with
  | [] => Eof
  | l' =>
    let '(neg, u) := skip_sign l' in
    let digits := match u with
                  | c :: x :: r => if (code c =? 48) && is_x x then r else u
                  | _ => u
                  end in
    match hex_digits digits with
    | ([], _) => Mismatch
    | (ds, r) =>
      let v := hex_number ds in
      Got (if v <? 2 ^ 32 then Some (if neg then u32 (- v) else v) else None) r
    end
  end.

(** ** Strings and numbers *)
Fixpoint prefix_of (n l : text) : bool :=
  match n, l with
  | [], _ => true
  | a :: n, c :: l => if ascii_dec a c then prefix_of n l else false
  | _ :: _, [] => false
  end.
Fixpoint strstr (l n : text) : option text :=
  if prefix_of n l then Some l else match l with [] => None | _ :: r => strstr r n end.
Definition contains (l n : text) : bool := match strstr l n with Some _ => true | None => false end.

(** The characters up to the first one outside of a set. *)
Fixpoint span (p : ascii -> bool) (l : text) : text * text :=
  match l with
  | [] => ([], [])
  | c :: r => if p c then let '(w, r) := span p r in (c :: w, r) else ([], l)
  end.
Definition number (base : Z) (l : text) : Z :=
  let ok c := match hex_digit_value c with Some d => d <? base | None => false end in
  foldl (fun v c => base * v + default 0 (hex_digit_value c)) 0 (fst (span ok l)).

(** [strtol] into a [long] of 32 bits, and [atoi]. *)
Definition strtol (base : Z) (l : text) : Z :=
  let '(neg, u) := skip_sign (skip_space l) in
  let digits := match u with
                | c :: x :: r => if (base =? 16) && (code c =? 48) && is_x x then r else u
                | _ => u
                end in
  let v := number base digits in
  if neg then Z.max (- v) (- 2 ^ 31) else Z.min v (2 ^ 31 - 1).
Definition atoi (l : text) : Z := strtol 10 l.

(** A string in an array of characters, and what storing one leaves of it. *)
Definition c_string (a : text) : option text := if bool_decide (NUL ∈ a) then Some (cstr a) else None.
Definition store_string (a w : text) : option text :=
  if Nat.ltb (length w) (length a) then Some (w ++ NUL :: drop (S (length w)) a) else None.

(** Digits, for [%d] and [%x]. *)
Fixpoint to_digits (n : nat) (base v : Z) : list Z :=
  match n with
  | O => []
  | S k => if v <? base then [v] else to_digits k base (v / base) ++ [v mod base]
  end.
Definition digit_char (d : Z) : ascii := ascii_of_nat (Z.to_nat (if d <? 10 then 48 + d else 87 + d)).
Definition dec_text (v : Z) : text := digit_char <$> to_digits 10 10 v.

(** ** Lines that are well formed *)
Definition ordinary (c : ascii) : Prop := isspace c = false /\ c <> NUL.
Definition blank (c : ascii) : Prop := isspace c = true /\ c <> NL.
#[export] Instance ordinary_dec c : Decision (ordinary c).
Proof. unfold ordinary. apply _. Defined.
#[export] Instance blank_dec c : Decision (blank c).
Proof. unfold blank. apply _. Defined.

(** A word of a line, the space between two words. *)
Definition is_word (w : text) : Prop := w <> [] /\ Forall ordinary w.
Definition is_gap (w : text) : Prop := w <> [] /\ Forall blank w.

(** A hexadecimal number in a line, with or without 0x. *)
Definition is_hex (w : text) (v : Z) : Prop :=
  exists ds, ds <> [] /\ (exists w', (w = w' \/ exists x, is_x x = true /\ w = "0"%char :: x :: w') /\
    map hex_digit_value w' = map Some ds) /\ v = hex_number ds /\ 0 <= v < 2 ^ 32.

Definition stops (r : text) : Prop := match r with [] => True | c :: _ => isspace c = true end.

Lemma fgets_line n l rest :
  NL ∉ l -> (length l + 2 <= n)%nat -> fgets n (l ++ NL :: rest) = Some (l ++ [NL], rest).
Proof.
  intros Hl Hn. unfold fgets. assert (Hne : l ++ NL :: rest <> []) by (by destruct l).
  destruct (l ++ NL :: rest) as [|c0 r0] eqn:E; [done|]. rewrite <- E. clear E Hne c0 r0. f_equal.
  assert (Hk : (length l < n - 1)%nat) by lia. generalize dependent (n - 1)%nat. clear n Hn.
  induction l as [|c l IH]; intros [|k] Hk; try (simpl in Hk; lia).
  - cbn. by destruct (ascii_dec NL NL).
  - cbn [app fgets_chars]. apply not_elem_of_cons in Hl as [Hc Hl]. destruct (ascii_dec c NL); [congruence|].
    rewrite IH; [done|done|simpl in Hk; lia].
Qed.

Lemma fgets_shrinks n t l rest : (2 <= n)%nat -> fgets n t = Some (l, rest) -> (length rest < length t)%nat.
Proof.
  intros Hn. unfold fgets. destruct t as [|c t]; [done|]. intros [= E]. destruct (n - 1)%nat as [|k] eqn:Ek; [lia|].
  assert (G : forall k u l r, fgets_chars k u = (l, r) -> (length r <= length u)%nat).
  { clear. induction k as [|k IH]; intros [|c u] l r; cbn; try (intros [= <- <-]; simpl; lia).
    destruct (ascii_dec c NL); [intros [= <- <-]; lia|]. destruct (fgets_chars k u) as [l1 r1] eqn:E1. intros [= <- <-].
    apply IH in E1. lia. }
  cbn in E. destruct (ascii_dec c NL); [injection E as <- <-; simpl; lia|].
  destruct (fgets_chars k t) as [l1 r1] eqn:E1. injection E as <- <-. apply G in E1. simpl. lia.
Qed.

Lemma chop_line l : NUL ∉ l -> chop (l ++ [NL]) = Some l.
Proof.
  intros Hl. unfold chop. assert (E : cstr (l ++ [NL]) = l ++ [NL]).
  { clear -Hl. induction l as [|c l IH]; [done|]. cbn. apply not_elem_of_cons in Hl as [Hc Hl].
    destruct (ascii_dec c NUL); [congruence|]. by rewrite IH. }
  rewrite E. destruct (l ++ [NL]) eqn:E2; [by destruct l|]. rewrite <- E2. by rewrite removelast_last.
Qed.

Lemma skip_space_gap g l : Forall (fun c => isspace c = true) g -> skip_space (g ++ l) = skip_space l.
Proof. induction 1 as [|c g Hc Hg IH]; [done|]. cbn. by rewrite Hc. Qed.

Lemma skip_space_word w r : is_word w -> skip_space (w ++ r) = w ++ r.
Proof. intros [Hne Hw]. destruct w as [|c w]; [done|]. inversion Hw as [|? ? [Hc _] _]. cbn. by rewrite Hc. Qed.

Lemma word_app w r : Forall ordinary w -> stops r -> word (w ++ r) = (w, r).
Proof.
  intros Hw Hr. induction Hw as [|c w [Hc _] _ IH].
  - destruct r as [|c r]; [done|]. cbn in *. by rewrite Hr.
  - cbn. by rewrite Hc, IH.
Qed.

Lemma scan_s_word g w r : Forall (fun c => isspace c = true) g -> is_word w -> stops r -> scan_s (g ++ w ++ r) = Got w r.
Proof.
  intros Hg Hw Hr. unfold scan_s. rewrite skip_space_gap, skip_space_word by done. destruct Hw as [Hne Hw].
  destruct (w ++ r) as [|c l] eqn:E; [by destruct w|]. rewrite <- E, word_app by done. done.
Qed.

Definition ordinaryb (c : ascii) : bool := negb (isspace c) && negb (Ascii.eqb c NUL).
Lemma ordinaryb_spec c : ordinaryb c = true -> ordinary c.
Proof. intros [A%negb_true_iff B%negb_true_iff]%andb_true_iff. split; [done|]. by apply Ascii.eqb_neq. Qed.

(** A property of all characters, by computation. *)
Lemma all_ascii (P : ascii -> bool) : forallb P (map ascii_of_nat (seq 0 256)) = true -> forall c, P c = true.
Proof.
  intros HP c. rewrite forallb_forall in HP. apply HP, in_map_iff. exists (nat_of_ascii c). split; [apply ascii_nat_embedding|].
  apply in_seq. pose proof (nat_ascii_bounded c). lia.
Qed.

Lemma hex_digit_ordinary c d : hex_digit_value c = Some d -> ordinary c /\ code c <> 45 /\ code c <> 43 /\ is_x c = false.
Proof.
  intros Hd.
  pose proof (all_ascii (fun c => match hex_digit_value c with
    | Some _ => ordinaryb c && negb (code c =? 45) && negb (code c =? 43) && negb (is_x c) | None => true end)
    ltac:(vm_compute; reflexivity) c) as A. cbn beta in A. rewrite Hd in A.
  apply andb_true_iff in A as [A Hx]. apply andb_true_iff in A as [A H43]. apply andb_true_iff in A as [Ho H45].
  apply ordinaryb_spec in Ho. apply negb_true_iff in H43, H45, Hx. apply Z.eqb_neq in H43, H45. done.
Qed.

Lemma space_no_digit c : isspace c = true -> hex_digit_value c = None /\ is_x c = false.
Proof.
  intros Hs. pose proof (all_ascii (fun c => negb (isspace c) || match hex_digit_value c with Some _ => false | None => negb (is_x c) end)
    ltac:(vm_compute; reflexivity) c) as A. cbn beta in A. rewrite Hs in A. cbn in A.
  destruct (hex_digit_value c); [done|]. by apply negb_true_iff in A.
Qed.

Lemma x_ordinary c : is_x c = true -> ordinary c.
Proof.
  intros Hx. pose proof (all_ascii (fun c => negb (is_x c) || ordinaryb c) ltac:(vm_compute; reflexivity) c) as A.
  cbn beta in A. rewrite Hx in A. cbn in A. by apply ordinaryb_spec in A.
Qed.

Lemma hex_digits_app w ds r : map hex_digit_value w = map Some ds -> stops r -> hex_digits (w ++ r) = (ds, r).
Proof.
  revert ds. induction w as [|c w IH]; intros [|d ds] E Hr; try done.
  - destruct r as [|c r]; [done|]. cbn in *. by destruct (space_no_digit c Hr) as [-> _].
  - cbn in E. injection E as Ec E. cbn. by rewrite Ec, (IH ds).
Qed.

Lemma is_hex_word w v : is_hex w v -> is_word w.
Proof.
  intros (ds & Hds & (w' & Hw & E) & _).
  assert (Hw' : w' <> [] /\ Forall ordinary w').
  { split; [intros ->; by destruct ds|]. clear Hw Hds. revert ds E. induction w' as [|c w' IH]; intros [|d ds] E; try done.
    cbn in E. injection E as Ec E. constructor; [by apply (hex_digit_ordinary c d)|by apply (IH ds)]. }
  destruct Hw as [->|(x & Hx & ->)]; [done|]. split; [done|]. constructor; [by vm_compute|].
  constructor; [by apply x_ordinary|apply Hw'].
Qed.

Lemma scan_x_hex g w v r : Forall (fun c => isspace c = true) g -> is_hex w v -> stops r -> scan_x (g ++ w ++ r) = Got (Some v) r.
Proof.
  intros Hg Hh Hr. unfold scan_x. rewrite skip_space_gap, skip_space_word by eauto using is_hex_word.
  destruct Hh as (ds & Hds & (w' & Hw & E) & -> & Hv).
  assert (D : hex_digits (w' ++ r) = (ds, r)) by (by apply hex_digits_app).
  destruct ds as [|d ds]; [done|]. destruct w' as [|c w']; [done|]. cbn in E. injection E as Ec E.
  pose proof (hex_digit_ordinary c d Ec) as (_ & H45 & H43 & _).
  destruct Hw as [->|(x & Hx & ->)].
  - cbn [app]. unfold skip_sign. rewrite (proj2 (Z.eqb_neq _ _) H45), (proj2 (Z.eqb_neq _ _) H43).
    assert (N : match w' ++ r with [] => True | y :: _ => is_x y = false end).
    { destruct w' as [|y w']; cbn [app].
      - destruct r as [|y r]; [done|]. by apply space_no_digit.
      - destruct ds as [|d' ds]; [done|]. cbn in E. injection E as Ey _. by apply (hex_digit_ordinary y d'). }
    destruct (w' ++ r) as [|y l] eqn:El.
    + cbn [app] in D. rewrite El in D. rewrite D. by rewrite (proj2 (Z.ltb_lt _ _)) by lia.
    + rewrite N, andb_false_r. cbn [app] in D. rewrite El in D. rewrite D. by rewrite (proj2 (Z.ltb_lt _ _)) by lia.
  - cbn [app skip_sign]. change (code "0" =? 45) with false. change (code "0" =? 43) with false.
    cbv beta iota. change (code "0" =? 48) with true. rewrite Hx. cbn [andb]. cbn [app] in D. rewrite D. by rewrite (proj2 (Z.ltb_lt _ _)) by lia.
Qed.

Lemma gap_space g : is_gap g -> Forall (fun c => isspace c = true) g.
Proof. intros [_ Hg]. eapply Forall_impl; [|exact Hg]. by intros c [? _]. Qed.
Lemma gap_stops g r : is_gap g -> stops (g ++ r).
Proof. intros [Hne Hg]. destruct g as [|c g]; [done|]. inversion Hg as [|? ? [? _] _]. done. Qed.
Lemma is_hex_intro ds w' w v :
  ds <> [] -> w = w' \/ (exists x, is_x x = true /\ w = "0"%char :: x :: w') -> map hex_digit_value w' = map Some ds ->
  v = hex_number ds -> 0 <= v < 2 ^ 32 -> is_hex w v.
Proof. intros Hd Hw E Hv Hr. exists ds. split; [done|]. split; [by exists w'|done]. Qed.

(** ** Characters of a line *)
Lemma class_no (P : ascii -> bool) x c : forallb P x = true -> P c = false -> c ∉ x.
Proof. intros H Hc I. rewrite forallb_forall in H. apply list_elem_of_In in I. specialize (H c I). congruence. Qed.
Definition plain (c : ascii) : bool := negb (Ascii.eqb c NL) && negb (Ascii.eqb c NUL).
Lemma plain_no b : forallb plain b = true -> NL ∉ b /\ NUL ∉ b.
Proof. intros H. split; (eapply class_no; [exact H|reflexivity]). Qed.
Lemma cstr_plain b : NUL ∉ b -> cstr b = b.
Proof.
  induction b as [|c b IH]; intros N; [done|]. apply not_elem_of_cons in N as [Nc N]. cbn.
  destruct (ascii_dec c NUL); [congruence|]. by rewrite IH.
Qed.
Lemma prefix_of_app n l : prefix_of n l = true <-> exists r, l = n ++ r.
Proof.
  revert l. induction n as [|a n IH]; intros l; cbn; [split; [by exists l|done]|].
  destruct l as [|c l]; [split; [done|intros (r & ?); done]|]. destruct (ascii_dec a c) as [->|N].
  - rewrite IH. split; intros (r & E); exists r; [by rewrite E|by injection E].
  - split; [done|]. intros (r & E). by injection E.
Qed.
