(* ===== verification/NvConfig.v ===== *)
(** * The configuration of the NV daemon ([ramDisk_Init] of apps/nvitem/nvitem_fs.c)

    The partitions are read from a text file, one per line: the id, the path
    of the image and of its copy, and the size.  Lines that start with # and
    empty lines are skipped.  At most [RAMNV_NUM] entries are taken; an entry
    with id 0 ends the table for [_getIdx]. *)
From S2P Require Import Prelude.
From S2P Require Import TextConf.
From S2P Require Import NvFs.
From Stdlib Require Import Ascii.

Definition CFG_NUM : nat := 15.
Definition PATH_MAX : nat := 100.
Definition LINE_MAX : nat := 512.
Definition zero_config : RAM_NV_CONFIG := mkConfig 0 "" "" 0.

(** A [%s] into an array of 100 characters. *)
Definition to_path (w : text) : option string :=
  if (length w <? PATH_MAX)%nat then Some (String.string_of_list_ascii w) else None.

(** [sscanf(line, "%x %s %s %x", ...)] into entry [e]: the result and the entry. *)
Definition sscanf_config (line : text) (e : RAM_NV_CONFIG) : option (Z * RAM_NV_CONFIG) :=
  match scan_x line with
  | Eof => Some (-1, e)
  | Mismatch => Some (0, e)
  | Got v l =>
    id ← v;
    let e := mkConfig id (image_path e) (imageBak_path e) (image_size e) in
    match scan_s l with
    | Eof | Mismatch => Some (1, e)
    | Got w l =>
      p ← to_path w;
      let e := mkConfig id p (imageBak_path e) (image_size e) in
      match scan_s l with
      | Eof | Mismatch => Some (2, e)
      | Got w l =>
        b ← to_path w;
        let e := mkConfig id p b (image_size e) in
        match scan_x l with
        | Eof | Mismatch => Some (3, e)
        | Got v l => size ← v; Some (4, mkConfig id p b size)
        end
      end
    end
  end.

Definition is_skipped (l : text) : bool := match l with [] => true | c :: _ => Ascii.eqb c "#" end.

(** [_ramdiskCfg[cnt].partId = 0] and the result. *)
Definition config_end (cnt : nat) (cfg : list RAM_NV_CONFIG) : option (list RAM_NV_CONFIG) :=
  e ← cfg !! cnt; Some (<[cnt := mkConfig 0 (image_path e) (imageBak_path e) (image_size e)]> cfg).

(** The loop over the lines; each reads a character, so the length of the file
    bounds the turns. *)
Fixpoint config_loop (fuel : nat) (file : text) (cnt : nat) (cfg : list RAM_NV_CONFIG) : option (list RAM_NV_CONFIG) :=
  match fuel with
  | O => None
  | S k =>
    match fgets LINE_MAX file with
    | None => config_end cnt cfg
    | Some (line, rest) =>
      l ← chop line;
      if is_skipped l then config_loop k rest cnt cfg
      else
        e ← cfg !! cnt;
        '(n, e') ← sscanf_config l e;
        let cfg := <[cnt := e']> cfg in
        if n =? -1 then config_loop k rest cnt cfg
        else if (CFG_NUM <=? S cnt)%nat then config_end (S cnt) cfg
        else config_loop k rest (S cnt) cfg
    end
  end.

(** [file] is [None] when the configuration cannot be opened. *)
Definition ramDisk_Init (file : option text) : option (list RAM_NV_CONFIG) :=
  match file with
  | None => Some ramdiskCfg_default
  | Some t => config_loop (S (length t)) t 0 (replicate (S CFG_NUM) zero_config)
  end.

(** ** Well-formed files *)
Inductive conf_line :=
| Comment (t : text)
| Empty
| Entry (x1 g1 p g2 b g3 x2 : text) (id size : Z).

Definition line_text (l : conf_line) : text :=
  match l with
  | Comment t => "#"%char :: t
  | Empty => []
  | Entry x1 g1 p g2 b g3 x2 _ _ => x1 ++ g1 ++ p ++ g2 ++ b ++ g3 ++ x2
  end.
Definition line_ok (l : conf_line) : Prop :=
  (length (line_text l) + 2 <= LINE_MAX)%nat /\ NL ∉ line_text l /\ NUL ∉ line_text l /\
  match l with
  | Entry x1 g1 p g2 b g3 x2 id size =>
    is_hex x1 id /\ is_gap g1 /\ is_word p /\ is_gap g2 /\ is_word b /\ is_gap g3 /\ is_hex x2 size /\
    (length p < PATH_MAX)%nat /\ (length b < PATH_MAX)%nat /\ id <> 0
  | _ => True
  end.
Definition file_text (ls : list conf_line) : text := concat (map (fun l => line_text l ++ [NL]) ls).
Fixpoint entries (ls : list conf_line) : list RAM_NV_CONFIG :=
  match ls with
  | [] => []
  | Entry _ _ p _ b _ _ id size :: r => mkConfig id (String.string_of_list_ascii p) (String.string_of_list_ascii b) size :: entries r
  | _ :: r => entries r
  end.

Lemma hash_no_digit x1 id r : is_hex x1 id -> is_skipped (x1 ++ r) = false.
Proof.
  intros (ds & Hds & (w' & Hw & E) & _). destruct Hw as [->|(x & _ & ->)]; [|done].
  destruct w' as [|c w']; [by destruct ds|]. destruct ds as [|d ds]; [done|]. cbn in E. injection E as Ec _.
  cbn. destruct (Ascii.eqb_spec c "#") as [->|]; [done|done].
Qed.

Lemma sscanf_entry x1 g1 p g2 b g3 x2 id size e :
  line_ok (Entry x1 g1 p g2 b g3 x2 id size) ->
  sscanf_config (line_text (Entry x1 g1 p g2 b g3 x2 id size)) e =
    Some (4, mkConfig id (String.string_of_list_ascii p) (String.string_of_list_ascii b) size).
Proof.
  intros (_ & _ & _ & Hx1 & Hg1 & Hp & Hg2 & Hb & Hg3 & Hx2 & Lp & Lb & _). cbn [line_text]. unfold sscanf_config.
  assert (S1 := scan_x_hex [] x1 id (g1 ++ p ++ g2 ++ b ++ g3 ++ x2) (Forall_nil_2 _) Hx1 (gap_stops _ _ Hg1)). cbn [app] in S1. rewrite S1.
  cbn [mbind option_bind]. rewrite (scan_s_word g1 p) by auto using gap_space, gap_stops.
  unfold to_path. rewrite (proj2 (Nat.ltb_lt _ _) Lp). cbn [mbind option_bind].
  rewrite (scan_s_word g2 b) by auto using gap_space, gap_stops. rewrite (proj2 (Nat.ltb_lt _ _) Lb). cbn [mbind option_bind].
  assert (S2 := scan_x_hex g3 x2 size [] (gap_space _ Hg3) Hx2 I). rewrite app_nil_r in S2. rewrite S2. done.
Qed.

(** What the table holds when [cnt] entries have been taken. *)
Definition table (es : list RAM_NV_CONFIG) : list RAM_NV_CONFIG := es ++ replicate (S CFG_NUM - length es) zero_config.

Lemma table_snoc es e : (length es < CFG_NUM)%nat -> <[length es := e]> (table es) = table (es ++ [e]).
Proof.
  intros Hl. unfold table. rewrite insert_app_r_alt, Nat.sub_diag by done. rewrite <- app_assoc. f_equal.
  rewrite length_app. cbn [length]. replace (S CFG_NUM - length es)%nat with (S (S CFG_NUM - (length es + 1))) by lia. done.
Qed.

Lemma table_end es : (length es <= CFG_NUM)%nat -> config_end (length es) (table es) = Some (table es).
Proof.
  intros Hl. unfold config_end, table. rewrite lookup_app_r, Nat.sub_diag by done.
  destruct (S CFG_NUM - length es)%nat as [|k] eqn:E; [lia|]. cbn [replicate lookup list_lookup mbind option_bind]. f_equal.
  rewrite insert_app_r_alt, Nat.sub_diag by done. done.
Qed.

Lemma config_loop_spec ls fuel done_es :
  Forall line_ok ls -> (length (file_text ls) < fuel)%nat -> (length done_es < CFG_NUM)%nat ->
  config_loop fuel (file_text ls) (length done_es) (table done_es) = Some (table (take CFG_NUM (done_es ++ entries ls))).
Proof.
  intros Hls. revert fuel done_es. induction Hls as [|l ls Hl Hls IH]; intros [|k] es Hk He; try lia.
  - cbn [file_text map concat config_loop fgets entries]. rewrite app_nil_r, take_ge by lia. apply table_end. lia.
  - pose proof Hl as (Hlen & Hnl & Hnul & Hent).
    assert (E : file_text (l :: ls) = line_text l ++ NL :: file_text ls) by (unfold file_text; cbn; by rewrite <- app_assoc).
    rewrite E in Hk |- *. rewrite length_app in Hk. cbn [length] in Hk.
    cbn [config_loop]. rewrite fgets_line by done. rewrite chop_line by done. cbn [mbind option_bind].
    destruct l as [t| |x1 g1 p g2 b g3 x2 id size].
    + cbn [line_text is_skipped]. rewrite Ascii.eqb_refl. apply IH; lia.
    + cbn [line_text is_skipped]. apply IH; lia.
    + cbn [line_text]. rewrite (hash_no_digit x1 id) by apply Hent.
      assert (Hlk : table es !! length es = Some zero_config).
      { unfold table. rewrite lookup_app_r, Nat.sub_diag by done. destruct (S CFG_NUM - length es)%nat eqn:E2; [lia|done]. }
      rewrite Hlk. cbn [mbind option_bind].
      assert (Sc := sscanf_entry x1 g1 p g2 b g3 x2 id size zero_config Hl). cbn [line_text] in Sc. rewrite Sc.
      cbn [mbind option_bind]. change (4 =? -1) with false. cbv iota. rewrite table_snoc by done.
      set (e := mkConfig id _ _ size). cbn [entries]. fold e.
      replace (S (length es)) with (length (es ++ [e])) by (rewrite length_app; cbn; lia).
      destruct (Nat.leb_spec CFG_NUM (length (es ++ [e]))) as [Hc|Hc].
      * rewrite table_end by (rewrite length_app in *; cbn in *; lia). do 2 f_equal.
        change (e :: entries ls) with ([e] ++ entries ls). rewrite app_assoc, take_app_length'; [done|].
        rewrite length_app in *; cbn in *; lia.
      * rewrite IH; [|lia|done]. by rewrite <- app_assoc.
Qed.

Lemma entries_nonzero ls : Forall line_ok ls -> Forall (fun e => cfg_partId e <> 0) (entries ls).
Proof.
  induction 1 as [|l ls Hl Hls IH]; [constructor|]. destruct l; cbn [entries]; try done. constructor; [|done].
  destruct Hl as (_ & _ & _ & Hent). apply Hent.
Qed.

Lemma getIdx_table es i n id :
  Forall (fun e => cfg_partId e <> 0) es -> (0 < n)%nat ->
  getIdx_from i (es ++ replicate n zero_config) id =
    match list_find (fun e => id = cfg_partId e) es with Some (k, _) => i + Z.of_nat k | None => -1 end.
Proof.
  intros Hes Hn. revert i. induction Hes as [|e es He Hes IH]; intros i.
  - destruct n as [|n]; [lia|done].
  - cbn [app getIdx_from list_find]. rewrite (proj2 (Z.eqb_neq _ _) He).
    destruct (Z.eqb_spec id (cfg_partId e)) as [->|Hne]; [rewrite decide_True by done; lia|rewrite decide_False by done].
    rewrite IH. destruct (list_find _ es) as [[k e']|]; [|done]. cbn. lia.
Qed.

(** [ramDisk_Init] reads what the configuration says.  For every file of
    comments, empty lines and well-formed entries it returns the first fifteen
    entries in order and zeroes behind them, and [_getIdx] then finds exactly
    the first entry with an id, and no other id. *)
Lemma ramDisk_Init_configures ls (es := take CFG_NUM (entries ls)) :
  Forall line_ok ls ->
  exists cfg, ramDisk_Init (Some (file_text ls)) = Some cfg /\ length cfg = S CFG_NUM /\
    cfg = es ++ replicate (S CFG_NUM - length es) zero_config /\
    forall id, _getIdx cfg id = match list_find (fun e => id = cfg_partId e) es with Some (k, _) => Z.of_nat k | None => -1 end.
Proof.
  intros Hls. assert (Hl : (length es <= CFG_NUM)%nat) by (unfold es; rewrite length_take; lia).
  exists (table es). split_and!.
  - unfold ramDisk_Init. change (replicate (S CFG_NUM) zero_config) with (table []).
    apply (config_loop_spec ls _ []); [done|lia|cbn; unfold CFG_NUM; lia].
  - unfold table. rewrite length_app, length_replicate. lia.
  - done.
  - intros id. unfold _getIdx, table. rewrite getIdx_table; [|apply Forall_take; by apply entries_nonzero|lia].
    destruct (list_find _ es) as [[k e]|]; [|done]. lia.
Qed.

Definition sample : list conf_line :=
  [ Comment (chars " id image backup size"); Empty;
    Entry (chars "0x1") (chars " ") (chars "/productinfo/fixnv1.bin") (chars "  ") (chars "/backupfixnv/fixnv2.bin") (chars " ") (chars "0x20000") 1 0x20000;
    Entry (chars "2") (chars " ") (chars "/runtimenv1.bin") (chars " ") (chars "/runtimenv2.bin") (chars " ") (chars "40000") 2 0x40000 ].

Lemma sample_ok : Forall line_ok sample.
Proof.
  repeat (apply Forall_cons_2; [split; [cbn; unfold LINE_MAX; lia|split; [by apply (bool_decide_unpack _); vm_compute|split; [by apply (bool_decide_unpack _); vm_compute|]]]|]);
    [done|done| | |constructor].
  - cbn [chars]. split_and!; try (split; [done|by repeat constructor]); try (cbn; unfold PATH_MAX; lia); try done.
    + apply (is_hex_intro [1] (chars "1") (chars "0x1")); [done|right; by exists "x"%char|done|done|lia].
    + apply (is_hex_intro [2; 0; 0; 0; 0] (chars "20000") (chars "0x20000")); [done|right; by exists "x"%char|done|done|lia].
  - cbn [chars]. split_and!; try (split; [done|by repeat constructor]); try (cbn; unfold PATH_MAX; lia); try done.
    + by apply (is_hex_intro [2] (chars "2") (chars "2")); [|left|..].
    + by apply (is_hex_intro [4; 0; 0; 0; 0] (chars "40000") (chars "40000")); [|left|..].
Qed.

Lemma ramDisk_Init_configures_witness :
  exists cfg, ramDisk_Init (Some (file_text sample)) = Some cfg /\ _getIdx cfg 2 = 1 /\ _getIdx cfg 7 = -1.
Proof.
  destruct (ramDisk_Init_configures sample sample_ok) as (cfg & E & _ & _ & G).
  exists cfg. split_and!; [exact E|rewrite G; reflexivity|rewrite G; reflexivity].
Defined.

(** A line that does not start with a number is counted as an entry with id 0:
    it hides all the entries behind it. *)
Lemma config_garbage_hides : exists cfg,
  ramDisk_Init (Some (chars "junk" ++ [NL] ++ chars "1 /a /b 200" ++ [NL])) = Some cfg /\ _getIdx cfg 1 = -1.
Proof. eexists. split; vm_compute; reflexivity. Qed.

(** The last line of a file without a new line at its end loses a digit. *)
Lemma config_last_line : exists cfg,
  ramDisk_Init (Some (chars "1 /a /b 200")) = Some cfg /\ image_size <$> cfg !! 0%nat = Some 0x20.
Proof. eexists. split; vm_compute; reflexivity. Qed.
