(* ===== verification/NvBuf.v ===== *)
(** * The three-stage NV buffers (apps/nvitem/nvitem_buf.c)

    Every NV partition has three copies of its image: [fromChannel], written by
    the synchronisation protocol; [backup], the last committed state; and
    [toDisk], the copy being saved.  Each copy has a table of dirty bits, one
    per 512-byte sector.  [_RAMNV_CTL] is a record; its partitions are the list
    [part], indexed by the control id.  Accesses outside an array or a buffer
    are undefined: the operations live in the option monad.

    The disk is reached through the interface [RamDisk]: a write of an image
    and what a later read returns.  The implementation in NvFs provides it. *)
From S2P Require Import Prelude.
From S2P Require Import Checksum.
From S2P Require Import NvFs.

Definition RAMNV_DIRTYTABLE_MAXSIZE : nat := 32.
Definition U32MASK : Z := 0xFFFFFFFF.

(** ** The interface to the RAM disk *)
Class RamDisk (D : Type) := {
  (** [ramDisk_Write(handle, buf, size)]: the new disk and the result *)
  rd_write : D -> Z -> list Z -> option (D * bool);
  (** the image of [size] bytes any later [ramDisk_Read] returns *)
  rd_image : D -> Z -> Z -> option (list Z) }.

Class RamDiskLaws (D : Type) `{RamDisk D} := {
  rd_write_image d h b d' :
    rd_write d h b = Some (d', true) -> rd_image d' h (zlen b) = Some b;
  rd_write_other d h h' b d' r n :
    h <> h' -> rd_write d h b = Some (d', r) -> rd_image d' h' n = rd_image d h' n }.

(** ** Data *)
Record BUF_CTRL := mkBuf { diskbuf : list Z; dirty : list Z }.

Record PART_CTRL := mkPart {
  partId : Z;
  sctNum : Z;
  fromChannel : BUF_CTRL;
  backup : BUF_CTRL;
  toDisk : BUF_CTRL;
  fdhandle : Z }.

Record RAMNV_CTL := mkCtl { partNum : Z; part : list PART_CTRL }.

Definition set_fromChannel (p : PART_CTRL) (b : BUF_CTRL) : PART_CTRL :=
  mkPart (partId p) (sctNum p) b (backup p) (toDisk p) (fdhandle p).
Definition set_backup (p : PART_CTRL) (b : BUF_CTRL) : PART_CTRL :=
  mkPart (partId p) (sctNum p) (fromChannel p) b (toDisk p) (fdhandle p).
Definition set_toDisk (p : PART_CTRL) (b : BUF_CTRL) : PART_CTRL :=
  mkPart (partId p) (sctNum p) (fromChannel p) (backup p) b (fdhandle p).

(** [ramNvCtl.part[id]] and its update. *)
Definition get_part (s : RAMNV_CTL) (id : Z) : option PART_CTRL :=
  if (0 <=? id) then part s !! Z.to_nat id else None.
Definition put_part (s : RAMNV_CTL) (id : Z) (p : PART_CTRL) : RAMNV_CTL :=
  mkCtl (partNum s) (<[Z.to_nat id := p]> (part s)).

(** [RAMNV_SECT_SIZE * sctNum], the bytes the copies move. *)
Definition image_bytes (p : PART_CTRL) : Z := RAMNV_SECT_SIZE *u sctNum p.

(** [memcpy(dst, src, n)] between two buffers. *)
Definition copy_image (dst src : list Z) (n : Z) : option (list Z) :=
  d ← load src 0 n; store dst 0 d.

(** ** Lookup *)
Fixpoint getCtlId_from (fuel : nat) (i : Z) (ps : list PART_CTRL) (id : Z) : Z :=
  match fuel, ps with
  | S k, p :: r => if id =? partId p then i else getCtlId_from k (i + 1) r id
  | _, _ => 0xFFFFFFFF
  end.
Definition getCtlId (s : RAMNV_CTL) (id : Z) : Z :=
  getCtlId_from (Z.to_nat (partNum s)) 0 (part s) id.

(** ** Dirty bits *)

(** The loop of [_markDirtyInfo] on a table of 32 words.  The last word is
    shifted by [32 - scts], undefined for [scts = 0].  The index grows by one
    per turn and leaves the table after at most 32 turns, so a fuel of 33 is
    never exhausted. *)
Fixpoint mark_loop (fuel : nat) (tbl : list Z) (_bytes _bits scts : Z) : option (list Z) :=
  match fuel with
  | O => None
  | S k =>
      w ← tbl !! Z.to_nat _bytes;
      if (32 -u _bits) <? scts then
        mark_loop k (<[Z.to_nat _bytes := Z.lor w (u32 (Z.shiftl U32MASK _bits))]> tbl)
          (_bytes +u 1) 0 (scts -u (32 -u _bits))
      else if scts =? 0 then None
      else Some (<[Z.to_nat _bytes :=
             Z.lor w (u32 (Z.shiftl (Z.shiftr U32MASK (32 -u scts)) _bits))]> tbl)
  end.

Definition mark_table (tbl : list Z) (start scts : Z) : option (list Z) :=
  let _bytes := Z.shiftr start 5 in
  let _bits := start -u Z.shiftl _bytes 5 in
  mark_loop 33 tbl _bytes _bits scts.

Definition _markDirtyInfo (s : RAMNV_CTL) (id start scts : Z) : option RAMNV_CTL :=
  p ← get_part s id;
  t ← mark_table (dirty (fromChannel p)) start scts;
  Some (put_part s id (set_fromChannel p (mkBuf (diskbuf (fromChannel p)) t))).

(** [__ifHasDirty]: any dirty bit in the [backup] table. *)
Definition __ifHasDirty (p : PART_CTRL) : bool :=
  existsb (fun w => negb (w =? 0)) (take RAMNV_DIRTYTABLE_MAXSIZE (dirty (backup p))).

Definition or_dirty (a b : list Z) : list Z := zip_with Z.lor a b.
Definition clean : list Z := replicate RAMNV_DIRTYTABLE_MAXSIZE 0.

(** ** Data movement *)
Definition writeData (s : RAMNV_CTL) (id start : Z) (buf : list Z) : option RAMNV_CTL :=
  if zlen buf =? 0 then Some s else
  p ← get_part s id;
  d ← store (diskbuf (fromChannel p)) start buf;
  Some (put_part s id (set_fromChannel p (mkBuf d (dirty (fromChannel p))))).

(** The critical section of [backupData]. *)
Definition backup_copy (s : RAMNV_CTL) (id : Z) : option RAMNV_CTL :=
  p ← get_part s id;
  d ← copy_image (diskbuf (backup p)) (diskbuf (fromChannel p)) (image_bytes p);
  Some (put_part s id
    (set_backup p (mkBuf d (or_dirty (dirty (backup p)) (dirty (fromChannel p)))))).

Definition restoreData (s : RAMNV_CTL) (id : Z) : option RAMNV_CTL :=
  p ← get_part s id;
  d ← copy_image (diskbuf (fromChannel p)) (diskbuf (backup p)) (image_bytes p);
  Some (put_part s id (set_fromChannel p (mkBuf d (dirty (backup p))))).

Definition __getData (s : RAMNV_CTL) (id : Z) : option RAMNV_CTL :=
  p ← get_part s id;
  d ← copy_image (diskbuf (toDisk p)) (diskbuf (backup p)) (image_bytes p);
  let p := set_toDisk p (mkBuf d (or_dirty (dirty (toDisk p)) (dirty (backup p)))) in
  Some (put_part s id (set_backup p (mkBuf (diskbuf (backup p)) clean))).

Section Disk.
Context {D : Type} `{RamDisk D}.

(** The body of the loop of [saveToDisk] for one partition. *)
Definition save_one (s : RAMNV_CTL) (dk : D) (id : Z) : option (RAMNV_CTL * D) :=
  p ← get_part s id;
  if __ifHasDirty p then
    s ← __getData s id;
    p ← get_part s id;
    img ← load (diskbuf (toDisk p)) 0 (image_bytes p);
    r ← rd_write dk (fdhandle p) img;
    let '(dk, ok) := r in
    if (ok : bool) then
      Some (put_part s id (set_toDisk p (mkBuf (diskbuf (toDisk p)) clean)), dk)
    else Some (s, dk)
  else Some (s, dk).

Fixpoint save_loop (n : nat) (id : Z) (s : RAMNV_CTL) (dk : D) : option (RAMNV_CTL * D) :=
  match n with
  | O => Some (s, dk)
  | S k => r ← save_one s dk id; save_loop k (id + 1) (fst r) (snd r)
  end.
Definition saveToDisk (s : RAMNV_CTL) (dk : D) : option (RAMNV_CTL * D) :=
  save_loop (Z.to_nat (partNum s)) 0 s dk.

(** [backupData]: commit, then save at once in calibration mode or signal the
    saving task.  The result says whether the event was given. *)
Definition backupData (is_cali_mode : bool) (s : RAMNV_CTL) (dk : D) (id : Z)
  : option (RAMNV_CTL * D * bool) :=
  s ← backup_copy s id;
  if is_cali_mode then r ← saveToDisk s dk; Some (fst r, snd r, false)
  else Some (s, dk, true).
End Disk.

(** ** Initialisation *)
Section Init.
(** [malloc] and the contents it returns; [rd] is [ramDisk_Read]: the result
    and the buffer. *)
Context (malloc : Z -> option (list Z)) (rd : Z -> list Z -> Z -> option (Z * list Z)).

Definition empty_part : PART_CTRL := mkPart 0 0 (mkBuf [] clean) (mkBuf [] clean) (mkBuf [] clean) 0.

(** The [while (config->partId)] loop; [i] is the next free partition. *)
Fixpoint init_loop (cfg : list RAM_NV_CONFIG) (i : Z) (s : RAMNV_CTL) : option RAMNV_CTL :=
  match cfg with
  | [] => None
  | c :: r =>
      if cfg_partId c =? 0 then Some s else
      let fd := ramDisk_Open (cfg_partId c) in
      p ← get_part s i;
      let s := put_part s i
        (mkPart (partId p) (sctNum p) (fromChannel p) (backup p) (toDisk p) fd) in
      if fd =? 0 then init_loop r i s else
      fc ← malloc (image_size c +u 4);
      bk ← malloc (image_size c +u 4);
      td ← malloc (image_size c +u 4);
      fc ← store fc 0 (replicate (Z.to_nat (image_size c)) 0);
      r0 ← rd fd fc (image_size c);
      let '(ok, fc) := r0 in
      let p := fun fc bk td =>
        mkPart (cfg_partId c) (image_size c / RAMNV_SECT_SIZE)
          (mkBuf fc (dirty (fromChannel p))) (mkBuf bk (dirty (backup p)))
          (mkBuf td (dirty (toDisk p))) fd in
      (* the three buffers are freed: no byte of them may be touched again *)
      if ok =? 0 then init_loop r i (put_part s i (p [] [] [])) else
      bk ← copy_image bk fc (image_size c +u 4);
      td ← copy_image td fc (image_size c +u 4);
      let s := put_part s i (p fc bk td) in
      init_loop r (i + 1) (mkCtl (partNum s + 1) (part s))
  end.

Definition initBuf (cfg : list RAM_NV_CONFIG) : option RAMNV_CTL :=
  init_loop cfg 0 (mkCtl 0 (replicate (Z.to_nat RAMNV_NUM) empty_part)).
End Init.

(** [uninitBuf] closes the handles, clears the sizes and frees the buffers. *)
Fixpoint uninit_loop (n : nat) (i : Z) (s : RAMNV_CTL) : option RAMNV_CTL :=
  match n with
  | O => Some s
  | S k =>
      p ← get_part s i;
      let free := fun b => mkBuf [] (dirty b) in
      uninit_loop k (i + 1)
        (put_part s i (mkPart (partId p) 0 (free (fromChannel p)) (free (backup p))
                         (free (toDisk p)) (fdhandle p)))
  end.
Definition uninitBuf (s : RAMNV_CTL) : option RAMNV_CTL :=
  s ← uninit_loop (Z.to_nat (partNum s)) 0 s; Some (mkCtl 0 (part s)).

(** ** The dirty table *)

(** Whether sector [s] is marked. *)
Definition dirty_bit (tbl : list Z) (s : Z) : bool :=
  Z.testbit (nth (Z.to_nat (s / 32)) tbl 0) (s mod 32).

Lemma dirty_bit_insert tbl i v s :
  0 <= i < zlen tbl -> 0 <= s ->
  dirty_bit (<[Z.to_nat i := v]> tbl) s =
    if s / 32 =? i then Z.testbit v (s mod 32) else dirty_bit tbl s.
Proof.
  intros Hi Hs. unfold dirty_bit. destruct (Z.eqb_spec (s / 32) i) as [->|Hne].
  - erewrite nth_lookup_Some; [done|]. apply list_lookup_insert_eq. lia.
  - rewrite !nth_lookup, list_lookup_insert_ne; [done|]. assert (0 <= s / 32) by zlia. lia.
Qed.

Lemma full_mask_bit bits j :
  0 <= bits < 32 -> 0 <= j < 32 ->
  Z.testbit (u32 (Z.shiftl U32MASK bits)) j = (bits <=? j).
Proof.
  intros. unfold u32. rewrite testbit_mod_pow2, Z.shiftl_spec by lia.
  rewrite (proj2 (Z.ltb_lt _ _)) by lia. cbn [andb].
  change U32MASK with (Z.ones 32). destruct (Z.leb_spec bits j).
  - apply Z.ones_spec_low. lia.
  - apply Z.testbit_neg_r. lia.
Qed.

Lemma part_mask_bit bits scts j :
  0 <= bits < 32 -> 0 < scts <= 32 - bits -> 0 <= j < 32 ->
  Z.testbit (u32 (Z.shiftl (Z.shiftr U32MASK (32 - scts)) bits)) j =
    (bits <=? j) && (j <? bits + scts).
Proof.
  intros. unfold u32. rewrite testbit_mod_pow2, Z.shiftl_spec by lia.
  rewrite (proj2 (Z.ltb_lt j 32)) by lia. cbn [andb].
  change U32MASK with (Z.ones 32). destruct (Z.leb_spec bits j); cbn [andb].
  - rewrite Z.shiftr_spec by lia. destruct (Z.ltb_spec j (bits + scts)).
    + apply Z.ones_spec_low. lia.
    + apply Z.ones_spec_high. lia.
  - apply Z.testbit_neg_r. lia.
Qed.

Lemma mark_loop_spec fuel tbl b bits scts :
  0 <= b -> 0 <= bits < 32 -> 0 < scts ->
  32 * b + bits + scts <= 32 * zlen tbl -> zlen tbl <= 32 -> zlen tbl - b <= Z.of_nat fuel ->
  exists t, mark_loop fuel tbl b bits scts = Some t /\ length t = length tbl /\
    forall s, 0 <= s -> dirty_bit t s =
      dirty_bit tbl s || ((32 * b + bits <=? s) && (s <? 32 * b + bits + scts)).
Proof.
  revert tbl b bits scts. induction fuel as [|k IH]; intros tbl b bits scts Hb Hbits Hs Hr Ht Hf; [lia|].
  destruct (tbl !! Z.to_nat b) as [w|] eqn:Hw; [|apply lookup_ge_None in Hw; lia].
  assert (Hd : forall s, s / 32 = b -> dirty_bit tbl s = Z.testbit w (s mod 32)).
  { intros s Es. unfold dirty_bit. rewrite Es. erewrite nth_lookup_Some by exact Hw. done. }
  cbn [mark_loop]. rewrite Hw. cbn [mbind option_bind].
  rewrite (u32_small (32 - bits)) by (unfold is_u32; lia).
  destruct (Z.ltb_spec (32 - bits) scts).
  - rewrite (u32_small (b + 1)), (u32_small (scts - _)) by (unfold is_u32; lia).
    destruct (IH (<[Z.to_nat b := Z.lor w (u32 (Z.shiftl U32MASK bits))]> tbl) (b + 1) 0
      (scts - (32 - bits))) as (t & -> & Lt & Hbit); rewrite ?length_insert; try lia.
    exists t. split; [done|]. rewrite length_insert in Lt. split; [done|].
    intros s Hs0. rewrite Hbit, dirty_bit_insert by lia.
    destruct (Z.eqb_spec (s / 32) b).
    + rewrite Z.lor_spec, Hd, full_mask_bit by (done || zlia).
      rewrite <- orb_assoc. f_equal.
      destruct (Z.leb_spec (32 * (b + 1) + 0) s), (Z.leb_spec bits (s mod 32)),
        (Z.leb_spec (32 * b + bits) s), (Z.ltb_spec s (32 * b + bits + scts)); simpl; zlia.
    + f_equal. destruct (Z.leb_spec (32 * (b + 1) + 0) s), (Z.leb_spec (32 * b + bits) s),
        (Z.ltb_spec s (32 * (b + 1) + 0 + (scts - (32 - bits)))),
        (Z.ltb_spec s (32 * b + bits + scts)); simpl; zlia.
  - rewrite (proj2 (Z.eqb_neq scts 0)) by lia. rewrite (u32_small (32 - scts)) by (unfold is_u32; lia).
    eexists. split; [done|]. rewrite length_insert. split; [done|].
    intros s Hs0. rewrite dirty_bit_insert by lia. destruct (Z.eqb_spec (s / 32) b).
    + rewrite Z.lor_spec, Hd, part_mask_bit by (done || zlia). f_equal.
      destruct (Z.leb_spec bits (s mod 32)), (Z.leb_spec (32 * b + bits) s),
        (Z.ltb_spec (s mod 32) (bits + scts)), (Z.ltb_spec s (32 * b + bits + scts)); simpl; zlia.
    + destruct (Z.leb_spec (32 * b + bits) s), (Z.ltb_spec s (32 * b + bits + scts)); simpl;
        rewrite ?orb_false_r; zlia || done.
Qed.

(** [_markDirtyInfo] on a request inside the table marks exactly the
    sectors [start .. start + scts - 1] and leaves the other bits alone; in
    particular it stays inside the table and its loop ends. *)
Lemma mark_table_exact tbl start scts :
  length tbl = RAMNV_DIRTYTABLE_MAXSIZE -> 0 <= start -> 0 < scts -> start + scts <= 1024 ->
  exists t, mark_table tbl start scts = Some t /\ length t = length tbl /\
    forall s, 0 <= s ->
      dirty_bit t s = dirty_bit tbl s || ((start <=? s) && (s <? start + scts)).
Proof.
  intros Ht Hs Hn Hr. unfold mark_table, RAMNV_DIRTYTABLE_MAXSIZE in *.
  rewrite Z.shiftr_div_pow2, Z.shiftl_mul_pow2 by lia. change (2 ^ 5) with 32.
  rewrite u32_small by (unfold is_u32; zlia).
  destruct (mark_loop_spec 33 tbl (start / 32) (start - start / 32 * 32) scts)
    as (t & -> & Lt & Hbit); try zlia.
  exists t. split_and!; [done..|]. intros s H0. rewrite Hbit by done.
  replace (32 * (start / 32) + (start - start / 32 * 32)) with start by lia. done.
Qed.

Lemma mark_table_exact_witness :
  exists t, mark_table clean 30 5 = Some t /\ length t = length clean /\
    forall s, 0 <= s -> dirty_bit t s = dirty_bit clean s || ((30 <=? s) && (s <? 30 + 5)).
Proof. apply (mark_table_exact clean 30 5); [reflexivity | lia | lia | lia]. Defined.

(** A request of zero sectors, or one that starts beyond the 1024 sectors of
    the table, is not rejected: the first shifts a 32-bit word by 32, the
    second writes outside the array. *)
Lemma mark_table_unchecked tbl start :
  length tbl = RAMNV_DIRTYTABLE_MAXSIZE -> 0 <= start < 2 ^ 32 ->
  mark_table tbl start 0 = None /\
  (forall scts, 1024 <= start -> mark_table tbl start scts = None).
Proof.
  intros Ht Hs. unfold mark_table, RAMNV_DIRTYTABLE_MAXSIZE in *.
  rewrite Z.shiftr_div_pow2, Z.shiftl_mul_pow2 by lia. change (2 ^ 5) with 32.
  rewrite u32_small by (unfold is_u32; zlia).
  assert (Hb : 0 <= start - start / 32 * 32 < 32) by zlia.
  cbn [mark_loop]. split.
  - destruct (tbl !! Z.to_nat (start / 32)); [|done]. cbn [mbind option_bind].
    rewrite u32_small by (unfold is_u32; lia). destruct (Z.ltb_spec (32 - (start - start / 32 * 32)) 0); [lia|done].
  - intros scts Hge. rewrite (lookup_ge_None_2 tbl) by zlia. done.
Qed.

Lemma mark_table_unchecked_witness :
  mark_table clean 5 0 = None /\ (forall scts, 1024 <= 5 -> mark_table clean 5 scts = None).
Proof. apply (mark_table_unchecked clean 5); [reflexivity | lia]. Defined.

(** ** Well-formedness *)
Definition wf_buf (n : Z) (b : BUF_CTRL) : Prop :=
  n <= zlen (diskbuf b) /\ length (dirty b) = RAMNV_DIRTYTABLE_MAXSIZE.

Record wf_part (p : PART_CTRL) : Prop := {
  wf_sct : 0 <= sctNum p < 2 ^ 23;
  wf_fc : wf_buf (512 * sctNum p) (fromChannel p);
  wf_bk : wf_buf (512 * sctNum p) (backup p);
  wf_td : wf_buf (512 * sctNum p) (toDisk p) }.

Record wf_ctl (s : RAMNV_CTL) : Prop := {
  wf_num : 0 <= partNum s <= zlen (part s);
  wf_parts id p : 0 <= id < partNum s -> get_part s id = Some p -> wf_part p }.

Lemma image_bytes_wf p : wf_part p -> image_bytes p = 512 * sctNum p.
Proof. intros [? _ _ _]. apply u32_small. unfold is_u32, RAMNV_SECT_SIZE. lia. Qed.

Lemma get_put_eq s id p q : get_part s id = Some p -> get_part (put_part s id q) id = Some q.
Proof.
  unfold get_part, put_part. destruct (0 <=? id); [|done]. cbn [part]. intros Hp.
  apply list_lookup_insert_eq. eauto using lookup_lt_Some.
Qed.

Lemma get_put_ne s id id' q : id <> id' -> 0 <= id -> get_part (put_part s id q) id' = get_part s id'.
Proof.
  intros Hne Hid. unfold get_part, put_part. destruct (Z.leb_spec 0 id'); [|done]. cbn [part].
  apply list_lookup_insert_ne. lia.
Qed.

Lemma get_part_nonneg s id p : get_part s id = Some p -> 0 <= id.
Proof. unfold get_part. destruct (Z.leb_spec 0 id); done. Qed.

Lemma get_part_total s id : wf_ctl s -> 0 <= id < partNum s -> exists p, get_part s id = Some p.
Proof.
  intros [? _] Hid. unfold get_part. rewrite (proj2 (Z.leb_le _ _)) by lia.
  apply lookup_lt_is_Some_2. lia.
Qed.

Lemma wf_put s id p q :
  wf_ctl s -> get_part s id = Some p -> (wf_part p -> wf_part q) -> wf_ctl (put_part s id q).
Proof.
  intros [Hn Hp] Hg Hq. split.
  - unfold put_part. cbn. now rewrite length_insert.
  - intros id' p' Hid' Hp'. cbn in Hid'.
    destruct (decide (id = id')) as [<-|Hne].
    + rewrite (get_put_eq _ _ p) in Hp' by done. injection Hp' as <-. eauto.
    + rewrite get_put_ne in Hp' by eauto using get_part_nonneg. eauto.
Qed.

Lemma copy_image_spec dst src n :
  0 <= n <= zlen src -> n <= zlen dst ->
  exists d, copy_image dst src n = Some d /\ length d = length dst /\
    take (Z.to_nat n) d = take (Z.to_nat n) src.
Proof.
  intros Hs Hd. unfold copy_image. rewrite load_0 by done. cbn [mbind option_bind].
  assert (L : length (take (Z.to_nat n) src) = Z.to_nat n) by (rewrite length_take; lia).
  unfold store. rewrite L, !(proj2 (Z.leb_le _ _)) by lia. eexists. split; [done|].
  rewrite splice_length by (rewrite L; lia). split; [done|].
  change (Z.to_nat 0) with 0%nat. rewrite splice_0 by (rewrite L; lia).
  rewrite take_app_le by lia. now rewrite take_ge by lia.
Qed.

Lemma or_dirty_length a b :
  length a = RAMNV_DIRTYTABLE_MAXSIZE -> length b = RAMNV_DIRTYTABLE_MAXSIZE ->
  length (or_dirty a b) = RAMNV_DIRTYTABLE_MAXSIZE.
Proof. intros. unfold or_dirty. rewrite length_zip_with. lia. Qed.

(** ** The images the three stages hold *)
Definition img (b : BUF_CTRL) (p : PART_CTRL) : list Z := take (Z.to_nat (512 * sctNum p)) (diskbuf b).
Definition working (p : PART_CTRL) : list Z := img (fromChannel p) p.
Definition committed (p : PART_CTRL) : list Z := img (backup p) p.
Definition saving (p : PART_CTRL) : list Z := img (toDisk p) p.

Lemma img_length n b p : wf_buf n b -> n = 512 * sctNum p -> zlen (img b p) = Z.max 0 n.
Proof. intros [? _] ->. unfold img. rewrite length_take. lia. Qed.

Section Ops.
Context (s : RAMNV_CTL) (id : Z) (p : PART_CTRL).
Context (Hwf : wf_part p) (Hget : get_part s id = Some p).

(** Commit: the working image becomes the committed one and its dirty bits
    are added. *)
Lemma backup_copy_spec :
  exists q, backup_copy s id = Some (put_part s id q) /\ wf_part q /\
    committed q = working p /\ fromChannel q = fromChannel p /\ toDisk q = toDisk p /\
    sctNum q = sctNum p /\ fdhandle q = fdhandle p /\ partId q = partId p /\
    dirty (backup q) = or_dirty (dirty (backup p)) (dirty (fromChannel p)).
Proof.
  unfold backup_copy. rewrite Hget. cbn [mbind option_bind].
  rewrite image_bytes_wf by done. destruct Hwf as [Hs [? ?] [? ?] [? ?]].
  destruct (copy_image_spec (diskbuf (backup p)) (diskbuf (fromChannel p)) (512 * sctNum p))
    as (d & -> & Ld & Td); [lia..|]. cbn [mbind option_bind].
  eexists. split; [done|]. split_and!; try done.
  split; cbn; try done; split; cbn; rewrite ?Ld; auto using or_dirty_length.
Qed.

(** Roll back: the working image becomes the committed one again. *)
Lemma restoreData_spec :
  exists q, restoreData s id = Some (put_part s id q) /\ wf_part q /\
    working q = committed p /\ backup q = backup p /\ toDisk q = toDisk p /\
    sctNum q = sctNum p /\ fdhandle q = fdhandle p /\ partId q = partId p /\
    dirty (fromChannel q) = dirty (backup p).
Proof.
  unfold restoreData. rewrite Hget. cbn [mbind option_bind].
  rewrite image_bytes_wf by done. destruct Hwf as [Hs [? ?] [? ?] [? ?]].
  destruct (copy_image_spec (diskbuf (fromChannel p)) (diskbuf (backup p)) (512 * sctNum p))
    as (d & -> & Ld & Td); [lia..|]. cbn [mbind option_bind].
  eexists. split; [done|]. split_and!; try done.
  split; cbn; try done; split; cbn; rewrite ?Ld; done.
Qed.

(** Take over for saving: the committed image and its dirty bits move on, and
    the backup is clean. *)
Lemma getData_spec :
  exists q, __getData s id = Some (put_part s id q) /\ wf_part q /\
    saving q = committed p /\ committed q = committed p /\ fromChannel q = fromChannel p /\
    sctNum q = sctNum p /\ fdhandle q = fdhandle p /\ partId q = partId p /\
    dirty (backup q) = clean /\
    dirty (toDisk q) = or_dirty (dirty (toDisk p)) (dirty (backup p)).
Proof.
  unfold __getData. rewrite Hget. cbn [mbind option_bind].
  rewrite image_bytes_wf by done. destruct Hwf as [Hs [? ?] [? ?] [? ?]].
  destruct (copy_image_spec (diskbuf (toDisk p)) (diskbuf (backup p)) (512 * sctNum p))
    as (d & -> & Ld & Td); [lia..|]. cbn [mbind option_bind].
  eexists. split; [done|]. split_and!; try done.
  split; cbn; try done; split; cbn; rewrite ?Ld; auto using or_dirty_length.
Qed.

(** A write inside the image changes exactly the bytes it covers. *)
Lemma writeData_spec start buf :
  0 <= start -> start + zlen buf <= 512 * sctNum p -> buf <> [] ->
  exists q, writeData s id start buf = Some (put_part s id q) /\ wf_part q /\
    working q = splice (working p) (Z.to_nat start) buf /\ backup q = backup p /\
    toDisk q = toDisk p /\ sctNum q = sctNum p /\ fdhandle q = fdhandle p /\ partId q = partId p /\
    dirty (fromChannel q) = dirty (fromChannel p).
Proof.
  intros H0 H1 Hb. unfold writeData.
  destruct (Z.eqb_spec (zlen buf) 0) as [E|_]; [destruct buf; done|].
  rewrite Hget. cbn [mbind option_bind]. destruct Hwf as [Hs [Hf Hfd] Hbk Htd].
  unfold store. rewrite !(proj2 (Z.leb_le _ _)) by lia. cbn [mbind option_bind andb].
  eexists. split; [done|]. split_and!; try done.
  - split; cbn; try done. split; cbn; [|done]. rewrite splice_length; lia.
  - unfold working, img. cbn. set (n := Z.to_nat (512 * sctNum p)).
    apply list_eq. intros i. rewrite lookup_splice by (rewrite length_take; lia).
    destruct (decide (i < n)%nat).
    + rewrite !lookup_take_lt, lookup_splice by lia. done.
    + rewrite !lookup_take_ge by lia. case_decide; [lia|done].
Qed.

(** Marking inside the partition succeeds and touches only the table. *)
Lemma markDirty_spec start scts :
  0 <= start -> 0 < scts -> start + scts <= 1024 ->
  exists t, _markDirtyInfo s id start scts =
      Some (put_part s id (set_fromChannel p (mkBuf (diskbuf (fromChannel p)) t))) /\
    wf_part (set_fromChannel p (mkBuf (diskbuf (fromChannel p)) t)) /\
    forall k, 0 <= k -> dirty_bit t k =
      dirty_bit (dirty (fromChannel p)) k || ((start <=? k) && (k <? start + scts)).
Proof.
  intros H0 H1 H2. unfold _markDirtyInfo. rewrite Hget. cbn [mbind option_bind].
  destruct Hwf as [Hs [Hf Hfd] Hbk Htd]. unfold mark_table.
  rewrite Z.shiftr_div_pow2, Z.shiftl_mul_pow2 by lia. change (2 ^ 5) with 32.
  rewrite u32_small by (unfold is_u32; zlia).
  unfold RAMNV_DIRTYTABLE_MAXSIZE in Hfd.
  destruct (mark_loop_spec 33 (dirty (fromChannel p)) (start / 32) (start - start / 32 * 32) scts)
    as (t & -> & Lt & Hbit); try zlia. cbn [mbind option_bind].
  exists t. split; [done|]. split.
  - split; cbn; try done. split; cbn; [done|]. unfold RAMNV_DIRTYTABLE_MAXSIZE. lia.
  - intros k Hk. rewrite Hbit by done.
    replace (32 * (start / 32) + (start - start / 32 * 32)) with start by lia. done.
Qed.
End Ops.

Lemma ifHasDirty_clean p : dirty (backup p) = clean -> __ifHasDirty p = false.
Proof. intros H. unfold __ifHasDirty. now rewrite H. Qed.

Section Save.
Context {D : Type} `{RamDiskLaws D}.
Implicit Types (s : RAMNV_CTL) (dk : D) (p q : PART_CTRL).
(** The handles whose writes succeed. *)
Context (good : Z -> Prop).
Definition writes_succeed : Prop :=
  forall dk h b, good h -> zlen b < 2 ^ 32 -> exists dk', rd_write dk h b = Some (dk', true).

(** One partition whose write succeeds. *)
Lemma save_one_spec s dk id p :
  wf_part p -> get_part s id = Some p ->
  writes_succeed -> good (fdhandle p) ->
  exists q dk', save_one s dk id = Some (put_part s id q, dk') /\ wf_part q /\
    committed q = committed p /\ fromChannel q = fromChannel p /\ sctNum q = sctNum p /\
    fdhandle q = fdhandle p /\ partId q = partId p /\ __ifHasDirty q = false /\
    (if __ifHasDirty p then rd_image dk' (fdhandle p) (512 * sctNum p) = Some (committed p)
     else dk' = dk) /\
    (forall h n, h <> fdhandle p -> rd_image dk' h n = rd_image dk h n).
Proof.
  intros Hwf Hget Hok Hgood. unfold save_one. rewrite Hget. cbn [mbind option_bind].
  destruct (__ifHasDirty p) eqn:Hd.
  2:{ exists p, dk. replace (put_part s id p) with s; [split_and!; done|].
      unfold put_part, get_part in *. destruct (0 <=? id); [|done].
      rewrite list_insert_id by done. now destruct s. }
  destruct (getData_spec s id p Hwf Hget) as (q & -> & Hq & Hsv & Hc & Hf & Hs & Hh & Hp & Hdb & _).
  cbn [mbind option_bind]. rewrite (get_put_eq s id p q Hget). cbn [mbind option_bind].
  rewrite image_bytes_wf by done.
  pose proof (wf_td q Hq) as [Ltd _]. pose proof (wf_sct q Hq).
  rewrite load_0 by lia. cbn [mbind option_bind]. fold (img (toDisk q) q) (saving q).
  assert (L : zlen (saving q) = 512 * sctNum q).
  { unfold saving. rewrite (img_length (512 * sctNum q)); [lia|apply (wf_td q Hq)|done]. }
  destruct (Hok dk (fdhandle q) (saving q)) as (dk' & Hw); [by rewrite Hh|lia|].
  rewrite Hw. cbn [mbind option_bind].
  exists (set_toDisk q (mkBuf (diskbuf (toDisk q)) clean)), dk'.
  assert (P : put_part (put_part s id q) id (set_toDisk q (mkBuf (diskbuf (toDisk q)) clean)) =
              put_part s id (set_toDisk q (mkBuf (diskbuf (toDisk q)) clean))).
  { unfold put_part. cbn. now rewrite list_insert_insert_eq. }
  rewrite P. split; [done|]. destruct Hq as [? ? ? [? ?]]. split_and!; try done.
  - apply ifHasDirty_clean. done.
  - rewrite <- Hsv, <- Hh, <- Hs, <- L. eapply rd_write_image. exact Hw.
  - intros h n Hne. eapply rd_write_other; [|exact Hw]. congruence.
Qed.

(** What [saveToDisk] does to the partitions [lo .. lo + n - 1]. *)
Definition saved (lo hi : Z) s s' dk' : Prop :=
  forall i p, lo <= i < hi -> get_part s i = Some p ->
    exists q, get_part s' i = Some q /\ committed q = committed p /\
      fromChannel q = fromChannel p /\ __ifHasDirty q = false /\
      (__ifHasDirty p = true -> rd_image dk' (fdhandle p) (512 * sctNum p) = Some (committed p)).

Lemma save_loop_spec n lo s dk :
  wf_ctl s -> 0 <= lo -> lo + Z.of_nat n <= partNum s ->
  (forall i j p q, 0 <= i < partNum s -> 0 <= j < partNum s -> i <> j ->
     get_part s i = Some p -> get_part s j = Some q -> fdhandle p <> fdhandle q) ->
  writes_succeed -> (forall i p, 0 <= i < partNum s -> get_part s i = Some p -> good (fdhandle p)) ->
  exists s' dk', save_loop n lo s dk = Some (s', dk') /\ wf_ctl s' /\ partNum s' = partNum s /\
    saved lo (lo + Z.of_nat n) s s' dk' /\
    (forall i, 0 <= i < lo -> get_part s' i = get_part s i) /\
    (forall h m, (forall i p, lo <= i < lo + Z.of_nat n -> get_part s i = Some p -> fdhandle p <> h) ->
       rd_image dk' h m = rd_image dk h m).
Proof.
  revert lo s dk. induction n as [|n IH]; intros lo s dk Hwf Hlo Hhi Hdist Hok Hgood.
  { exists s, dk. split_and!; try done. intros i p Hi. lia. }
  destruct (get_part_total s lo Hwf ltac:(lia)) as [p Hp].
  pose proof (wf_parts s Hwf lo p ltac:(lia) Hp) as Wp.
  destruct (save_one_spec s dk lo p Wp Hp Hok (Hgood lo p ltac:(lia) Hp))
    as (q & dk1 & E1 & Wq & Cq & Fq & Sq & Hq & Pq & Dq & Iq & Oq).
  cbn [save_loop]. rewrite E1. cbn [mbind option_bind fst snd].
  assert (Hput : forall i, i <> lo -> get_part (put_part s lo q) i = get_part s i)
    by (intros; apply get_put_ne; lia).
  assert (Hself : get_part (put_part s lo q) lo = Some q) by eauto using get_put_eq.
  destruct (IH (lo + 1) (put_part s lo q) dk1) as (s' & dk' & E2 & W' & N' & S' & B' & O').
  - eauto using wf_put.
  - lia.
  - cbn. lia.
  - cbn. intros i j a b Hi Hj Hij Ha Hb.
    destruct (decide (i = lo)) as [->|], (decide (j = lo)) as [->|]; try done.
    + rewrite Hself in Ha. injection Ha as <-. rewrite Hput in Hb by done. rewrite Hq.
      eapply (Hdist lo j); eauto.
    + rewrite Hself in Hb. injection Hb as <-. rewrite Hput in Ha by done. rewrite Hq.
      eapply (Hdist i lo); eauto.
    + rewrite Hput in Ha, Hb by done. eauto.
  - done.
  - cbn. intros i a Hi Ha. destruct (decide (i = lo)) as [->|].
    + rewrite Hself in Ha. injection Ha as <-. rewrite Hq. eauto.
    + rewrite Hput in Ha by done. eauto.
  - exists s', dk'. split_and!; try done.
    + intros i a Hi Ha. destruct (decide (i = lo)) as [->|Hne].
      * assert (a = p) by congruence. subst a. exists q. rewrite B' by lia. split_and!; try done.
        intros Hd. rewrite Hd in Iq. rewrite O'; [done|].
        intros i b Hi' Hb. rewrite Hput in Hb by lia. apply (Hdist i lo); eauto; lia.
      * apply S'; [lia|]. rewrite Hput by done. done.
    + intros i Hi. rewrite B', Hput by lia. done.
    + intros h m Hh. rewrite O', Oq.
      * done.
      * apply not_eq_sym. apply (Hh lo p); [lia|done].
      * intros i b Hi Hb. rewrite Hput in Hb by lia. apply (Hh i b); [lia|done].
Qed.

(** C23: [saveToDisk], every write succeeding, ends; every partition that had
    uncommitted dirty sectors has its committed image on disk, read back from
    there; no partition is dirty any more; and the working and committed images
    are untouched. *)
Theorem saveToDisk_saves s dk :
  wf_ctl s ->
  (forall i j p q, 0 <= i < partNum s -> 0 <= j < partNum s -> i <> j ->
     get_part s i = Some p -> get_part s j = Some q -> fdhandle p <> fdhandle q) ->
  writes_succeed -> (forall i p, 0 <= i < partNum s -> get_part s i = Some p -> good (fdhandle p)) ->
  exists s' dk', saveToDisk s dk = Some (s', dk') /\ wf_ctl s' /\
    saved 0 (partNum s) s s' dk'.
Proof.
  intros Hwf Hd Hok Hgood. pose proof (wf_num s Hwf).
  destruct (save_loop_spec (Z.to_nat (partNum s)) 0 s dk Hwf ltac:(lia) ltac:(lia) Hd Hok Hgood)
    as (s' & dk' & E & W & _ & S & _). exists s', dk'. split_and!; try done.
  replace (0 + Z.of_nat (Z.to_nat (partNum s))) with (partNum s) in S by lia. done.
Qed.

(** A write that fails is not retried.  The dirty bits were moved out of
    [backup] before the write and only [backup] is consulted, so a second
    [saveToDisk] finds the partition clean and leaves the stale image on the
    disk. *)
Lemma failed_save_not_retried s dk id p dk1 :
  wf_part p -> get_part s id = Some p -> __ifHasDirty p = true ->
  rd_write dk (fdhandle p) (committed p) = Some (dk1, false) ->
  exists q, save_one s dk id = Some (put_part s id q, dk1) /\
    save_one (put_part s id q) dk1 id = Some (put_part s id q, dk1) /\
    committed q = committed p /\ dirty (toDisk q) = or_dirty (dirty (toDisk p)) (dirty (backup p)).
Proof.
  intros Hwf Hget Hdirty Hw. unfold save_one. rewrite Hget. cbn [mbind option_bind]. rewrite Hdirty.
  destruct (getData_spec s id p Hwf Hget) as (q & E & Hq & Hsv & Hc & Hf & Hs & Hh & Hp & Hdb & Htd).
  rewrite E. cbn [mbind option_bind]. rewrite (get_put_eq s id p q Hget). cbn [mbind option_bind].
  rewrite image_bytes_wf by done.
  pose proof (wf_td q Hq) as [Ltd _]. pose proof (wf_sct q Hq).
  rewrite load_0 by lia. cbn [mbind option_bind]. fold (img (toDisk q) q) (saving q).
  rewrite Hh, Hsv, Hw. cbn [mbind option_bind].
  exists q. split; [done|]. rewrite (get_put_eq s id p q Hget). cbn [mbind option_bind].
  rewrite ifHasDirty_clean by done. done.
Qed.
End Save.

(** ** The image files provide the interface *)
Section FsDisk.
Context (cfg : list RAM_NV_CONFIG).

#[export] Instance fs_disk : RamDisk fs := {
  rd_write f h b :=
    r ← ramDisk_Write healthy cfg h b (zlen b); Some (run_ops (fst r) f, snd r =? 1);
  rd_image f h n :=
    c ← entry cfg h;
    x ← f !! image_path c; y ← f !! imageBak_path c;
    d ← accepted n x; e ← accepted n y;
    if decide (d = e) then Some d else None }.

Lemma fs_disk_laws : distinct_paths cfg -> RamDiskLaws fs.
Proof.
  intros Hdist. split.
  - intros f h b f' Hw. cbn [rd_write rd_image fs_disk] in Hw |- *.
    destruct (entry_spec cfg h) as [[Hi He]|(k & c & Hi & Hk & Hc & He & Hp & H0)].
    { unfold ramDisk_Write in Hw. rewrite Hi in Hw. cbn in Hw. congruence. }
    rewrite Hk in Hi. assert (Hc' : cfg !! Z.to_nat (_getIdx cfg h) = Some c)
      by (rewrite Hk, Nat2Z.id; done).
    rewrite <- Hk in Hi. rewrite <- (app_nil_r b) in Hw at 1.
    rewrite (ramDisk_Write_healthy cfg h c Hi Hc') in Hw. cbn [mbind option_bind fst snd] in Hw.
    rewrite run_write_ops in Hw.
    injection Hw as <- _. rewrite He. cbn [mbind option_bind].
    assert (Hne : image_path c <> imageBak_path c).
    { apply (Hdist k k c c); congruence. }
    rewrite lookup_insert_eq, lookup_insert_ne, lookup_insert_eq by done. cbn [mbind option_bind].
    rewrite accepted_image_file. cbn [mbind option_bind]. now rewrite decide_True.
  - intros f h h' b f' r n Hne Hw. cbn [rd_write rd_image fs_disk] in Hw |- *.
    destruct (entry_spec cfg h') as [[Hi' ->]|(k' & c' & Hi' & Hk' & Hc' & -> & Hp' & H0')]; [done|].
    cbn [mbind option_bind].
    destruct (entry_spec cfg h) as [[Hi He]|(k & c & Hi & Hk & Hc & He & Hp & H0)].
    { unfold ramDisk_Write in Hw. rewrite Hi in Hw. cbn in Hw. injection Hw as <- _. done. }
    assert (Hc0 : cfg !! Z.to_nat (_getIdx cfg h) = Some c) by (rewrite Hk, Nat2Z.id; done).
    rewrite <- (app_nil_r b) in Hw at 1.
    rewrite (ramDisk_Write_healthy cfg h c Hi Hc0) in Hw. cbn [mbind option_bind fst snd] in Hw.
    rewrite run_write_ops in Hw. injection Hw as <- _.
    assert (Hkk : k <> k') by congruence.
    destruct (Hdist k k' c c' Hc Hc') as [A1 A2]; [congruence..|].
    destruct (Hdist k' k c' c Hc' Hc) as [B1 _]; [congruence..|].
    destruct (A2 Hkk) as [A3 A4].
    rewrite !lookup_insert_ne by done. done.
Qed.

(** A write through a configured handle succeeds on a healthy file system. *)
Lemma fs_writes_succeed : writes_succeed (D := fs) (fun h => entry cfg h <> None).
Proof.
  intros f h b He Hb. cbn [rd_write fs_disk].
  destruct (entry_spec cfg h) as [[Hi E]|(k & c & Hi & Hk & Hc & E & Hp & H0)]; [done|].
  assert (Hc' : cfg !! Z.to_nat (_getIdx cfg h) = Some c) by (rewrite Hk, Nat2Z.id; done).
  pose proof (ramDisk_Write_healthy cfg h c Hi Hc' b []) as W. rewrite app_nil_r in W. rewrite W.
  cbn [mbind option_bind fst snd]. rewrite (proj2 (Z.ltb_lt _ _)) by done. eauto.
Qed.
End FsDisk.

(** ** Instances *)
Definition one_part : PART_CTRL :=
  mkPart 7 1 (mkBuf (replicate 512 3) clean)
    (mkBuf (replicate 512 3) (1 :: replicate 31 0)) (mkBuf (replicate 512 0) clean) 7.
Definition one_ctl : RAMNV_CTL := mkCtl 1 [one_part].

(** A disk that is a map from handles to images, and one that always fails. *)
#[local] Instance map_disk : RamDisk (gmap Z (list Z)) := {
  rd_write d h b := Some (<[h := b]> d, true);
  rd_image d h n := b ← d !! h; if zlen b =? n then Some b else None }.
#[local] Instance map_disk_laws : RamDiskLaws (gmap Z (list Z)).
Proof.
  split; cbn.
  - intros d h b d' [= <-]. rewrite lookup_insert_eq. cbn. now rewrite Z.eqb_refl.
  - intros d h h' b d' r n Hne [= <- _]. now rewrite lookup_insert_ne.
Qed.
Definition bad_disk : RamDisk unit :=
  Build_RamDisk unit (fun d _ _ => Some (d, false)) (fun _ _ _ => None).

Lemma one_part_wf : wf_part one_part.
Proof. split; [cbn; lia|split; cbn; done || lia..]. Qed.

Lemma one_ctl_wf : wf_ctl one_ctl.
Proof.
  split; [cbn; lia|]. cbn. intros id p Hid. replace id with 0 by lia. cbn.
  intros [= <-]. apply one_part_wf.
Qed.

Lemma saveToDisk_saves_witness :
  exists s' dk', saveToDisk one_ctl ∅ = Some (s', dk') /\ wf_ctl s' /\
    saved 0 1 one_ctl s' dk'.
Proof.
  apply (saveToDisk_saves (fun _ => True) one_ctl ∅).
  - apply one_ctl_wf.
  - cbn. intros i j p q Hi Hj Hij. lia.
  - intros dk h b _ _. eexists. reflexivity.
  - intros i p Hi Hp. exact Logic.I.
Defined.

Lemma failed_save_not_retried_witness :
  exists q, save_one (H := bad_disk) one_ctl tt 0 = Some (put_part one_ctl 0 q, tt) /\
    save_one (H := bad_disk) (put_part one_ctl 0 q) tt 0 = Some (put_part one_ctl 0 q, tt) /\
    committed q = committed one_part /\
    dirty (toDisk q) = or_dirty (dirty (toDisk one_part)) (dirty (backup one_part)).
Proof.
  apply (failed_save_not_retried (H := bad_disk) one_ctl tt 0 one_part tt);
    [apply one_part_wf | reflexivity..].
Defined.
