(* ===== verification/NvServer.v ===== *)
(** * The two threads of the NV daemon (apps/nvitem/nvitem_server.c, nvitem_os.c)

    The main thread parses requests and commits them; the task [pSaveTask]
    waits for an event and then saves what is dirty.  They share the control
    table.  The step relation has one step per critical section or per access
    outside one: the commit of [backupData] and the event it gives are two
    steps of the main thread; the test [__ifHasDirty], [__getData] and
    [ramDisk_Write] are three steps of the saver for each partition.  The
    mutex itself is not in the state: each of [backupData], [restoreData] and
    [__getData] takes it once, leaves no way out before [putMutex] and takes
    nothing else while it holds it, so its body is one atomic step; that the
    lock is released is read off the code, not proved here.  Data arrives
    only behind a token whose sectors were marked, which is the guard of
    [step_data].  An event
    given while the saver does not wait is lost, as with
    [pthread_cond_signal], and the wait may return without one.  [waiteEvent]
    passes a null mutex, so the wait is modelled without one.  This is the
    daemon outside calibration mode: in that mode [backupData] calls
    [saveToDisk] itself and gives no event.  The steps of the main thread take
    the requests that stay inside their partition: those that do not are the
    subject of NvBuf and NvSync. *)
From S2P Require Import Prelude.
From S2P Require Import NvFs.
From S2P Require Import NvBuf.

(** Where the saving task is: in [waiteEvent], woken, before the test of
    partition [id], before its [__getData], before its [ramDisk_Write]. *)
Inductive saver := Waiting | Woken | Looking (id : Z) | Taking (id : Z) | Writing (id : Z).
(** Where the main thread is: in [syncAnalyzer], or in [backupData] between
    [putMutex] and [giveEvent]. *)
Inductive main_pc := Parsing | Signalling.

Definition giveEvent (v : saver) : saver := match v with Waiting => Woken | _ => v end.

(** Some bit of a dirty table is set. *)
Definition nonzero (t : list Z) : bool := existsb (fun w => negb (w =? 0)) (take RAMNV_DIRTYTABLE_MAXSIZE t).

Section Server.
Context {D : Type} `{RamDisk D}.

Record server := mkServer { ctl : RAMNV_CTL; disk : D; task : saver; pc : main_pc }.

Definition known (s : RAMNV_CTL) (id : Z) (p : PART_CTRL) : Prop :=
  0 <= id < partNum s /\ get_part s id = Some p.

Inductive server_step : server -> server -> Prop :=
(* the main thread: a request marks its sectors before it writes them *)
| step_mark s s' dk v id p start scts :
    known s id p -> _markDirtyInfo s id start scts = Some s' ->
    0 <= start -> 0 < scts -> start + scts <= 1024 ->
    server_step (mkServer s dk v Parsing) (mkServer s' dk v Parsing)
| step_data s s' dk v id p start buf :
    known s id p -> nonzero (dirty (fromChannel p)) = true -> writeData s id start buf = Some s' ->
    0 <= start -> start + zlen buf <= 512 * sctNum p -> buf <> [] ->
    server_step (mkServer s dk v Parsing) (mkServer s' dk v Parsing)
| step_restore s s' dk v id p :
    known s id p -> restoreData s id = Some s' ->
    server_step (mkServer s dk v Parsing) (mkServer s' dk v Parsing)
| step_commit s s' dk v id p :
    known s id p -> backup_copy s id = Some s' ->
    server_step (mkServer s dk v Parsing) (mkServer s' dk v Signalling)
| step_signal s dk v :
    server_step (mkServer s dk v Signalling) (mkServer s dk (giveEvent v) Parsing)
(* the saving task *)
| step_spurious s dk m :
    server_step (mkServer s dk Waiting m) (mkServer s dk Woken m)
| step_wake s dk m :
    server_step (mkServer s dk Woken m) (mkServer s dk (Looking 0) m)
| step_dirty s dk m id p :
    known s id p -> __ifHasDirty p = true ->
    server_step (mkServer s dk (Looking id) m) (mkServer s dk (Taking id) m)
| step_clean s dk m id p :
    known s id p -> __ifHasDirty p = false ->
    server_step (mkServer s dk (Looking id) m) (mkServer s dk (Looking (id + 1)) m)
| step_done s dk m id :
    partNum s <= id ->
    server_step (mkServer s dk (Looking id) m) (mkServer s dk Waiting m)
| step_take s s' dk m id :
    __getData s id = Some s' ->
    server_step (mkServer s dk (Taking id) m) (mkServer s' dk (Writing id) m)
| step_write s dk dk' m id p img ok :
    get_part s id = Some p -> load (diskbuf (toDisk p)) 0 (image_bytes p) = Some img ->
    rd_write dk (fdhandle p) img = Some (dk', ok) ->
    server_step (mkServer s dk (Writing id) m)
      (mkServer (if ok : bool then put_part s id (set_toDisk p (mkBuf (diskbuf (toDisk p)) clean)) else s)
         dk' (Looking (id + 1)) m).

(** ** Running alone, the task executes [saveToDisk] *)
Lemma save_loop_runs n : forall lo s dk m s' dk',
  wf_ctl s -> 0 <= lo -> lo + Z.of_nat n = partNum s -> save_loop n lo s dk = Some (s', dk') ->
  reach server_step (mkServer s dk (Looking lo) m) (mkServer s' dk' Waiting m).
Proof.
  induction n as [|n IH]; intros lo s dk m s' dk' W Hlo Hn E.
  - injection E as <- <-. apply reach_one, step_done. lia.
  - destruct (get_part_total s lo W ltac:(lia)) as [p Hp]. pose proof (wf_parts s W lo p ltac:(lia) Hp) as Wp.
    assert (K : known s lo p) by (split; [lia|done]).
    cbn [save_loop] in E. unfold save_one in E. rewrite Hp in E. cbn [mbind option_bind] in E.
    destruct (__ifHasDirty p) eqn:Hd.
    + destruct (getData_spec s lo p Wp Hp) as (q & Eg & Wq & _). rewrite Eg in E. cbn [mbind option_bind] in E.
      rewrite (get_put_eq s lo p q Hp) in E. cbn [mbind option_bind] in E.
      destruct (load (diskbuf (toDisk q)) 0 (image_bytes q)) as [b|] eqn:Eb; [|done]. cbn [mbind option_bind] in E.
      destruct (rd_write dk (fdhandle q) b) as [[dk1 ok]|] eqn:Ew; [|done]. cbn [mbind option_bind] in E.
      eapply reach_trans; [apply reach_one, (step_dirty _ _ _ _ p); done|].
      eapply reach_trans; [apply reach_one, step_take, Eg|].
      eapply reach_trans; [apply reach_one; eapply step_write; [apply (get_put_eq s lo p q Hp) | exact Eb | exact Ew]|].
      assert (W1 : wf_ctl (put_part s lo q)) by eauto using wf_put.
      destruct ok; cbn [mbind option_bind fst snd] in E; (apply IH; [| lia | cbn; lia | exact E]); [|done].
      eapply wf_put; [done | apply (get_put_eq s lo p q Hp) |]. intros [? ? ? [? ?]]. by split.
    + cbn [fst snd] in E. eapply reach_trans; [apply reach_one, (step_clean _ _ _ _ p); done|].
      apply IH; [done | lia | lia | exact E].
Qed.

Lemma task_runs_saveToDisk s dk m s' dk' :
  wf_ctl s -> saveToDisk s dk = Some (s', dk') ->
  reach server_step (mkServer s dk Woken m) (mkServer s' dk' Waiting m).
Proof.
  intros W E. eapply reach_trans; [apply reach_one, step_wake|].
  eapply save_loop_runs; [done | lia | | exact E]. pose proof (wf_num s W). lia.
Qed.
End Server.
Arguments server D : clear implicits.

#[export] Instance saver_eq_dec : EqDecision saver.
Proof. solve_decision. Defined.

(** ** Dirty tables *)
Lemma nonzero_lookup t : nonzero t = true <-> exists i w, (i < RAMNV_DIRTYTABLE_MAXSIZE)%nat /\ t !! i = Some w /\ w <> 0.
Proof.
  unfold nonzero. rewrite existsb_exists. split.
  - intros (w & Hin & Hw). apply list_elem_of_In, list_elem_of_lookup in Hin as [i Hi].
    apply lookup_take_Some in Hi as [Hi Hlt]. exists i, w. split; [done|]. split; [done|].
    apply negb_true_iff, Z.eqb_neq in Hw. done.
  - intros (i & w & Hi & Ht & Hw). exists w. split.
    + apply list_elem_of_In, list_elem_of_lookup. exists i. apply lookup_take_Some. done.
    + by apply negb_true_iff, Z.eqb_neq.
Qed.

Lemma nonzero_or a b :
  length a = RAMNV_DIRTYTABLE_MAXSIZE -> length b = RAMNV_DIRTYTABLE_MAXSIZE ->
  nonzero a = true \/ nonzero b = true -> nonzero (or_dirty a b) = true.
Proof.
  intros La Lb Hab. rewrite !nonzero_lookup in *.
  assert (Hi : exists i, (i < RAMNV_DIRTYTABLE_MAXSIZE)%nat /\ ((exists w, a !! i = Some w /\ w <> 0) \/ (exists w, b !! i = Some w /\ w <> 0))).
  { destruct Hab as [(i & w & ? & ? & ?) | (i & w & ? & ? & ?)]; exists i; eauto 6. }
  destruct Hi as (i & Hi & Hw).
  destruct (lookup_lt_is_Some_2 a i) as [x Hx]; [lia|]. destruct (lookup_lt_is_Some_2 b i) as [y Hy]; [lia|].
  exists i, (Z.lor x y). split; [done|]. unfold or_dirty. split.
  - by rewrite lookup_zip_with, Hx; cbn; rewrite Hy.
  - rewrite Z.lor_eq_0_iff. destruct Hw as [(w & ? & ?) | (w & ? & ?)]; simplify_eq; tauto.
Qed.

Lemma nonzero_bit t k :
  length t = RAMNV_DIRTYTABLE_MAXSIZE -> 0 <= k < 1024 -> dirty_bit t k = true -> nonzero t = true.
Proof.
  intros L Hk Hb. unfold RAMNV_DIRTYTABLE_MAXSIZE in L.
  destruct (lookup_lt_is_Some_2 t (Z.to_nat (k / 32))) as [w Hw]; [zlia|].
  apply nonzero_lookup. exists (Z.to_nat (k / 32)), w. split; [unfold RAMNV_DIRTYTABLE_MAXSIZE; zlia|]. split; [done|].
  intros ->. unfold dirty_bit in Hb. rewrite (nth_lookup_Some _ _ _ _ Hw), Z.bits_0 in Hb. done.
Qed.

(** ** What is committed is saved or remembered *)
Section Consistency.
Context {D : Type} `{RamDiskLaws D}.
Implicit Types (s : RAMNV_CTL) (dk : D) (p q : PART_CTRL) (v : saver).

Definition on_disk dk p : Prop := rd_image dk (fdhandle p) (512 * sctNum p) = Some (committed p).

(** The last committed image of partition [id] is on the disk, or about to be
    written. *)
Definition settled v dk (id : Z) p : Prop :=
  if decide (v = Writing id) then saving p = committed p else on_disk dk p.

Context (good : Z -> Prop).

Record consistent (x : server D) : Prop := {
  co_wf : wf_ctl (ctl x);
  co_good id p : known (ctl x) id p -> good (fdhandle p);
  co_handles i j p q : known (ctl x) i p -> known (ctl x) j q -> i <> j -> fdhandle p <> fdhandle q;
  co_change id p : known (ctl x) id p -> working p = committed p \/ nonzero (dirty (fromChannel p)) = true;
  co_saved id p : known (ctl x) id p -> __ifHasDirty p = true \/ settled (task x) (disk x) id p;
  co_task id : task x = Taking id \/ task x = Writing id -> 0 <= id < partNum (ctl x);
  co_look id : task x = Looking id -> 0 <= id }.

Lemma known_wf s id p : wf_ctl s -> known s id p -> wf_part p.
Proof. intros W [Hid Hp]. exact (wf_parts s W id p Hid Hp). Qed.

Lemma known_put s id p q j r :
  known s id p -> known (put_part s id q) j r -> (j = id /\ r = q) \/ (j <> id /\ known s j r).
Proof.
  intros [Hid Hp] [Hj Hr]. cbn in Hj. destruct (decide (j = id)) as [->|Hne].
  - left. rewrite (get_put_eq s id p q Hp) in Hr. by simplify_eq.
  - right. rewrite get_put_ne in Hr by lia. split; [done|]. by split.
Qed.

(** A step that replaces one partition. *)
Lemma update_consistent s dk v m id p q dk' v' m' :
  consistent (mkServer s dk v m) -> known s id p -> wf_part q -> fdhandle q = fdhandle p ->
  (working q = committed q \/ nonzero (dirty (fromChannel q)) = true) ->
  (__ifHasDirty q = true \/ settled v' dk' id q) ->
  (forall j r, j <> id -> known s j r -> settled v dk j r -> settled v' dk' j r) ->
  (forall j, v' = Taking j \/ v' = Writing j -> 0 <= j < partNum s) -> (forall j, v' = Looking j -> 0 <= j) ->
  consistent (mkServer (put_part s id q) dk' v' m').
Proof.
  intros [W Hg Hh Hc Hs _ _] K Wq Hq Hcq Hsq Ho Ht Hl. cbn [ctl disk task] in *.
  split; cbn [ctl disk task]; try done.
  - apply (wf_put s id p); [done|apply K|done].
  - intros j r Kr. destruct (known_put _ _ _ _ _ _ K Kr) as [[-> ->]|[Hj Kr']]; rewrite ?Hq; eauto.
  - intros i j a b Ka Kb Hij.
    destruct (known_put _ _ _ _ _ _ K Ka) as [[-> ->]|[Hi Ka']], (known_put _ _ _ _ _ _ K Kb) as [[-> ->]|[Hj Kb']];
      rewrite ?Hq; eauto.
  - intros j r Kr. destruct (known_put _ _ _ _ _ _ K Kr) as [[-> ->]|[Hj Kr']]; eauto.
  - intros j r Kr. destruct (known_put _ _ _ _ _ _ K Kr) as [[-> ->]|[Hj Kr']]; [done|].
    destruct (Hs j r Kr'); eauto.
Qed.

(** A step that changes no partition and leaves [Writing] alone. *)
Lemma move_consistent s dk v m v' m' :
  consistent (mkServer s dk v m) -> (forall id, v <> Writing id) -> (forall id, v' <> Writing id) ->
  (forall j, v' = Taking j -> 0 <= j < partNum s) -> (forall j, v' = Looking j -> 0 <= j) ->
  consistent (mkServer s dk v' m').
Proof.
  intros [W Hg Hh Hc Hs _ _] Hv Hv' Ht Hl. cbn [ctl disk task] in *. split; cbn [ctl disk task]; try done.
  - intros id p K. destruct (Hs id p K) as [?|S]; [by left|right]. unfold settled in S |- *.
    rewrite decide_False in S by apply Hv. by rewrite decide_False by apply Hv'.
  - intros id [E|E]; [eauto|]. by destruct (Hv' id).
Qed.

Hypothesis Hok : writes_succeed (D := D) good.

Lemma write_consistent s dk dk' m id p b ok :
  consistent (mkServer s dk (Writing id) m) -> get_part s id = Some p ->
  load (diskbuf (toDisk p)) 0 (image_bytes p) = Some b -> rd_write dk (fdhandle p) b = Some (dk', ok) ->
  consistent (mkServer (if ok then put_part s id (set_toDisk p (mkBuf (diskbuf (toDisk p)) clean)) else s)
                dk' (Looking (id + 1)) m).
Proof.
  intros C Hp Hl Hw. pose proof (co_task _ C id ltac:(by right)) as Hid. cbn [ctl task] in Hid.
  assert (K : known s id p) by done. pose proof (known_wf s id p (co_wf _ C) K) as Wp.
  rewrite image_bytes_wf in Hl by done. pose proof (wf_td p Wp) as [Lt _]. pose proof (wf_sct p Wp).
  rewrite load_0 in Hl by lia. injection Hl as <-. fold (img (toDisk p) p) (saving p) in Hw.
  assert (Ls : zlen (saving p) = 512 * sctNum p).
  { unfold saving. rewrite (img_length (512 * sctNum p)); [lia|apply (wf_td p Wp)|done]. }
  destruct (Hok dk (fdhandle p) (saving p)) as [dk1 E1]; [exact (co_good _ C id p K)|lia|].
  rewrite Hw in E1. injection E1 as <- ->.
  eapply update_consistent; [exact C | exact K | | done | | | | | ].
  - destruct Wp as [? ? ? [? ?]]. by split.
  - apply (co_change _ C id p K).
  - destruct (co_saved _ C id p K) as [Hd|Hs]; [by left|right]. cbn [task disk] in Hs.
    unfold settled in *. rewrite decide_True in Hs by done. rewrite decide_False by done.
    unfold on_disk. cbn [set_toDisk fdhandle sctNum]. rewrite <- Ls. rewrite (rd_write_image _ _ _ _ Hw).
    f_equal. exact Hs.
  - intros j r Hj Kr Hs. unfold settled in *. rewrite decide_False in Hs by congruence.
    rewrite decide_False by done. unfold on_disk in *. rewrite <- Hs. eapply rd_write_other; [|exact Hw].
    intros E. by apply (co_handles _ C id j p r K Kr ltac:(congruence)).
  - intros j [?|?]; done.
  - intros j [= <-]. lia.
Qed.

Lemma commit_consistent s s' dk v m m' id p :
  consistent (mkServer s dk v m) -> known s id p -> backup_copy s id = Some s' ->
  consistent (mkServer s' dk v m').
Proof.
  intros C K E. pose proof (known_wf s id p (co_wf _ C) K) as Wp. pose proof K as [_ Hp].
  destruct (backup_copy_spec s id p Wp Hp) as (q & Eq & Wq & Cq & Fq & Tq & Sq & Hq & _ & Dq).
  rewrite Eq in E. injection E as <-.
  assert (Wk : working q = working p) by (unfold working, img; by rewrite Fq, Sq).
  eapply update_consistent; [exact C | exact K | done | done | | | done | apply (co_task _ C) | apply (co_look _ C)].
  - left. by rewrite Wk, Cq.
  - pose proof (wf_bk p Wp) as [_ Lb]. pose proof (wf_fc p Wp) as [_ Lf].
    destruct (co_saved _ C id p K) as [Hd|Hs].
    + left. unfold __ifHasDirty. rewrite Dq. apply nonzero_or; [done|done|by left].
    + destruct (co_change _ C id p K) as [Hc|Hc].
      * right. cbn [task disk] in Hs. unfold settled, on_disk in *. rewrite Hq, Sq, Cq, Hc.
        case_decide; [|done]. rewrite <- Hs. unfold saving, img. by rewrite Tq, Sq.
      * left. unfold __ifHasDirty. rewrite Dq. apply nonzero_or; [done|done|by right].
Qed.

(** The steps of the parser change the working copy only. *)
Lemma parse_consistent s dk v m id p q :
  consistent (mkServer s dk v m) -> known s id p -> wf_part q -> backup q = backup p -> toDisk q = toDisk p ->
  sctNum q = sctNum p -> fdhandle q = fdhandle p ->
  (working q = committed p \/ nonzero (dirty (fromChannel q)) = true) ->
  consistent (mkServer (put_part s id q) dk v m).
Proof.
  intros C K Wq Bq Tq Sq Hq Hc.
  assert (Cq : committed q = committed p) by (unfold committed, img; by rewrite Bq, Sq).
  eapply update_consistent; [exact C | exact K | done | done | | | done | apply (co_task _ C) | apply (co_look _ C)].
  - by rewrite Cq.
  - unfold __ifHasDirty. rewrite Bq. destruct (co_saved _ C id p K) as [Hd|Hs]; [by left|right].
    cbn [task disk] in Hs. unfold settled, on_disk in *. rewrite Hq, Sq, Cq. case_decide; [|done].
    rewrite <- Hs. unfold saving, img. by rewrite Tq, Sq.
Qed.

Lemma take_consistent s s' dk m id :
  consistent (mkServer s dk (Taking id) m) -> __getData s id = Some s' ->
  consistent (mkServer s' dk (Writing id) m).
Proof.
  intros C E. pose proof (co_task _ C id ltac:(by left)) as Hid. cbn [ctl task] in Hid.
  destruct (get_part_total s id (co_wf _ C) Hid) as [p Hp]. assert (K : known s id p) by done.
  destruct (getData_spec s id p (known_wf s id p (co_wf _ C) K) Hp) as (q & Eq & Wq & Sv & Cq & Fq & Sq & Hq & _).
  rewrite Eq in E. injection E as <-.
  eapply update_consistent; [exact C | exact K | done | done | | | | |].
  - assert (Wk : working q = working p) by (unfold working, img; by rewrite Fq, Sq).
    rewrite Wk, Cq, Fq. apply (co_change _ C id p K).
  - right. unfold settled. rewrite decide_True by done. congruence.
  - intros j r Hj Kr Hs. unfold settled in *. rewrite decide_False in Hs by done. by rewrite decide_False by congruence.
  - intros j [?|?]; [done|]. cbn in *. by simplify_eq.
  - done.
Qed.

Lemma consistent_step x y : consistent x -> server_step x y -> consistent y.
Proof.
  intros C St. destruct St as
    [s s' dk v id p start scts K E G0 G1 G2 | s s' dk v id p start buf K Hc E G0 G1 G2 | s s' dk v id p K E
    | s s' dk v id p K E | s dk v | s dk m | s dk m | s dk m id p K Hd | s dk m id p K Hd | s dk m id Hn
    | s s' dk m id E | s dk dk' m id p b ok Hp Hl Hw];
    try (pose proof (known_wf s id p (co_wf _ C) K) as Wp; pose proof K as [Hid Hp]; cbn [ctl] in Hid).
  - destruct (markDirty_spec s id p Wp Hp start scts G0 G1 G2) as (t & Et & Wt & Bt). rewrite Et in E. injection E as <-.
    eapply parse_consistent; [done | exact K | done..|]. right. cbn.
    pose proof (wf_fc _ Wt) as [_ Lt]. apply (nonzero_bit t start Lt ltac:(lia)). rewrite Bt by done.
    rewrite (proj2 (Z.leb_le start start)), (proj2 (Z.ltb_lt start _)) by lia. apply orb_true_r.
  - destruct (writeData_spec s id p Wp Hp start buf G0 G1 G2) as (q & Eq & Wq & _ & Bq & Tq & Sq & Hq & _ & Dq).
    rewrite Eq in E. injection E as <-. eapply parse_consistent; [done | exact K | done..|]. right. rewrite Dq. exact Hc.
  - destruct (restoreData_spec s id p Wp Hp) as (q & Eq & Wq & Kq & Bq & Tq & Sq & Hq & _).
    rewrite Eq in E. injection E as <-. eapply parse_consistent; [done | exact K | done..|]. by left.
  - eapply commit_consistent; [exact C | exact K | exact E].
  - destruct v; cbn [giveEvent]; try (destruct C as [? ? ? ? ? ? ?]; split; done).
    eapply move_consistent; [exact C | done..].
  - eapply move_consistent; [exact C | done..].
  - eapply move_consistent; [exact C | done | done | done |]. intros j [= <-]. lia.
  - eapply move_consistent; [exact C | done | done | | done]. intros j [= <-]. done.
  - eapply move_consistent; [exact C | done | done | done |]. intros j [= <-]. lia.
  - eapply move_consistent; [exact C | done..].
  - eapply take_consistent; [exact C | exact E].
  - by apply (write_consistent s dk dk' m id p b ok).
Qed.

(** After [initBuf]: the images are as they are on the disk, nothing is
    dirty. *)
Record fresh (x : server D) : Prop := {
  fr_wf : wf_ctl (ctl x);
  fr_good id p : known (ctl x) id p -> good (fdhandle p);
  fr_handles i j p q : known (ctl x) i p -> known (ctl x) j q -> i <> j -> fdhandle p <> fdhandle q;
  fr_images id p : known (ctl x) id p -> working p = committed p /\ on_disk (disk x) p;
  fr_task : task x = Waiting }.

Lemma fresh_consistent x : fresh x -> consistent x.
Proof.
  intros [W Hg Hh Hi Ht]. split; rewrite ?Ht; try done.
  - intros id p K. left. by apply (Hi id p).
  - intros id p K. right. unfold settled. rewrite decide_False by done. by apply (Hi id p).
  - intros id [?|?]; done.
Qed.

(** C13: whatever the interleaving of the two threads, the last committed image
    of every partition is on the disk, or is being written, or is marked dirty
    for the next save: no commit is forgotten while every write succeeds.  In
    particular when no partition is dirty and the task waits, every committed
    image is on the disk. *)
Theorem nv_server_consistent x y :
  fresh x -> reach server_step x y ->
  wf_ctl (ctl y) /\
  (forall id p, known (ctl y) id p ->
     __ifHasDirty p = true \/ (task y = Writing id /\ saving p = committed p) \/ on_disk (disk y) p).
Proof.
  intros F R. assert (C : consistent y).
  { apply (reach_inv server_step consistent x y); eauto using fresh_consistent, consistent_step. }
  split; [apply C|]. intros id p K. destruct (co_saved _ C id p K) as [Hd|Hs]; [by left|right].
  unfold settled in Hs. case_decide; [left|right]; done.
Qed.
End Consistency.

(** ** Runs of the two threads *)
#[local] Existing Instance map_disk.
#[local] Existing Instance map_disk_laws.

Definition image (b : Z) : list Z := replicate 512 b.
Definition fresh_part : PART_CTRL :=
  mkPart 7 1 (mkBuf (image 3) clean) (mkBuf (image 3) clean) (mkBuf (image 3) clean) 7.
Definition fresh_ctl : RAMNV_CTL := mkCtl 1 [fresh_part].
Definition fresh_disk : gmap Z (list Z) := {[ 7 := image 3 ]}.
Definition fresh_server : server (gmap Z (list Z)) := mkServer fresh_ctl fresh_disk Waiting Parsing.

(** A request for the only sector: marked, written with [b], committed. *)
Definition request (s : RAMNV_CTL) (b : Z) : RAMNV_CTL :=
  default s (s1 ← _markDirtyInfo s 0 0 1; s2 ← writeData s1 0 0 (image b); backup_copy s2 0).
Definition ctl1 : RAMNV_CTL := request fresh_ctl 5.
Definition ctl2 : RAMNV_CTL := default ctl1 (__getData ctl1 0).
Definition ctl3 : RAMNV_CTL := request ctl2 6.
Definition part3 : PART_CTRL := default fresh_part (get_part ctl3 0).
Definition ctl4 : RAMNV_CTL := put_part ctl3 0 (set_toDisk part3 (mkBuf (diskbuf (toDisk part3)) clean)).

Lemma fresh_ctl_wf : wf_ctl fresh_ctl.
Proof.
  split; [cbn; lia|]. cbn [partNum fresh_ctl]. intros id p Hid. replace id with 0 by lia.
  intros [= <-]. split; [cbn; lia|split; cbn; done || lia..].
Qed.

Lemma known_fresh id p : known fresh_ctl id p -> id = 0 /\ p = fresh_part.
Proof. intros [Hid Hp]. cbn in Hid. replace id with 0 in * by lia. by injection Hp. Qed.

Lemma fresh_server_fresh : fresh (fun _ => True) fresh_server.
Proof.
  split; try done; cbn [ctl disk fresh_server].
  - apply fresh_ctl_wf.
  - intros i j p q [-> ->]%known_fresh [-> ->]%known_fresh. done.
  - intros id p [-> ->]%known_fresh. split; vm_compute; reflexivity.
Qed.

(** A request handled by the main thread while the task is at [v]. *)
Lemma request_runs s dk v b p s1 q s2 s3 :
  known s 0 p -> _markDirtyInfo s 0 0 1 = Some s1 ->
  known s1 0 q -> nonzero (dirty (fromChannel q)) = true -> sctNum q = 1 ->
  writeData s1 0 0 (image b) = Some s2 -> (exists r, known s2 0 r) -> backup_copy s2 0 = Some s3 ->
  reach server_step (mkServer s dk v Parsing) (mkServer s3 dk (giveEvent v) Parsing).
Proof.
  intros K1 E1 K2 Hn Hs E2 [r K3] E3.
  eapply reach_step; [|apply step_signal].
  eapply reach_step; [|eapply step_commit; [exact K3|exact E3]].
  eapply reach_step; [|eapply (step_data s1 s2 dk v 0 q 0 (image b)); try done; rewrite Hs; vm_compute; done].
  apply reach_one. eapply (step_mark s s1 dk v 0 p 0 1); done || lia.
Qed.

Ltac run_request s :=
  eapply (request_runs s); [split; [vm_compute; split; [discriminate|reflexivity] | vm_compute; reflexivity]
  | vm_compute; reflexivity
  | split; [vm_compute; split; [discriminate|reflexivity] | vm_compute; reflexivity]
  | vm_compute; reflexivity | reflexivity | vm_compute; reflexivity
  | eexists; split; [vm_compute; split; [discriminate|reflexivity] | vm_compute; reflexivity]
  | vm_compute; reflexivity ].

(** The first request, up to the write of its image. *)
Lemma first_save_runs : reach server_step fresh_server (mkServer ctl2 fresh_disk (Writing 0) Parsing).
Proof.
  eapply reach_step; [|apply (step_take ctl1); vm_compute; reflexivity].
  eapply reach_step; [|eapply (step_dirty ctl1); [split; [vm_compute; split; [discriminate|reflexivity] | vm_compute; reflexivity]|vm_compute; reflexivity]].
  eapply reach_step; [|apply step_wake].
  run_request fresh_ctl.
Qed.

(** An event given while the task is not waiting is lost.  A request
    committed while the task writes the partition's previous image leaves the
    partition dirty and its image off the disk, with the task waiting and the
    main thread back in the parser: the image is saved only if another request
    follows. *)
Lemma lost_wakeup :
  exists y p, reach server_step fresh_server y /\ task y = Waiting /\ pc y = Parsing /\
    known (ctl y) 0 p /\ __ifHasDirty p = true /\ ~ on_disk (disk y) p.
Proof.
  exists (mkServer ctl4 (<[7 := image 5]> fresh_disk) Waiting Parsing), (default fresh_part (get_part ctl4 0)).
  split; [|split; [reflexivity|split; [reflexivity|]]].
  2:{ split; [split; [vm_compute; split; [discriminate|reflexivity] | vm_compute; reflexivity]|].
      split; [vm_compute; reflexivity|]. vm_compute. discriminate. }
  eapply reach_step; [|apply (step_done _ _ _ 1); vm_compute; discriminate].
  eapply reach_step.
  2:{ eapply (step_write ctl3 fresh_disk _ Parsing 0 part3 (image 5) true);
      vm_compute; reflexivity. }
  eapply reach_trans; [apply first_save_runs|]. run_request ctl2.
Qed.

Lemma nv_server_consistent_witness :
  wf_ctl ctl2 /\
  (forall id p, known ctl2 id p ->
     __ifHasDirty p = true \/ (Writing 0 = Writing id /\ saving p = committed p) \/ on_disk fresh_disk p).
Proof.
  apply (nv_server_consistent (D := gmap Z (list Z)) (fun _ => True)) with
    (x := fresh_server) (y := mkServer ctl2 fresh_disk (Writing 0) Parsing).
  - intros dk h b _ _. eexists. reflexivity.
  - apply fresh_server_fresh.
  - apply first_save_runs.
Defined.
