(* ===== verification/NvPacket.v ===== *)
(** * The packet layer of the NV channel (apps/nvitem/nvitem_packet.c and the
      [channel_read]/[channel_write] of nvitem_channe_spipe.c)

    A packet is a 20-byte header (magic, ecc, group index, index in the group,
    body size) and a body of at most 1024 bytes.  [_getPacket] reads one packet
    from the channel and classifies it; [__sendPacketRsp] answers it. *)
From S2P Require Import Prelude.

Definition MAGICNUM : Z := 0x524d4e56.
Definition PACKET_HEAD_SIZE : Z := 20.
Definition PACKETSIZE : Z := 1024.
Definition PACKETRSP_SIZE : Z := 16.

Inductive packet_code := PACKET_START | PACKET_CONTINUE | PACKET_SKIP | PACKET_FAIL.

#[export] Instance packet_code_eq_dec : EqDecision packet_code.
Proof. solve_decision. Defined.

(** The static variables: the receive buffer and the position in the group. *)
Record packet_state := mkPacket {
  packeBuf : list Z;
  _idxGrp : Z;
  _idxSub : Z }.

(** [_initPacket]; the buffer keeps its contents. *)
Definition _initPacket (p : packet_state) : packet_state := mkPacket (packeBuf p) 0xFFFFFFFF 0.

(** The fields of [PACKET_HEAD] overlaid on the buffer. *)
Definition hd_magic (p : packet_state) : Z := get32 (packeBuf p) 0.
Definition hd_idxGrp (p : packet_state) : Z := get32 (packeBuf p) 8.
Definition hd_idxSub (p : packet_state) : Z := get32 (packeBuf p) 12.
Definition hd_sizeOfPacket (p : packet_state) : Z := get32 (packeBuf p) 16.

(** One [read] of the channel: an error, or the bytes it delivered. *)
Inductive ch_read := RdErr | RdData (d : list Z).

(** [channel_read]: [*hasRead] is the result of [read] as an [uint32]. *)
Definition channel_read (buf : list Z) (size : Z) (ev : ch_read) : option (bool * list Z * Z) :=
  match ev with
  | RdErr => let hasRead := u32 (-1) in Some (negb (hasRead <? size), buf, hasRead)
  | RdData d =>
      let d := take (Z.to_nat size) d in
      buf ← store buf 0 d;
      let hasRead := u32 (zlen d) in
      Some (negb (hasRead <? size), buf, hasRead)
  end.

(** [__chkEcc] and [__makeEcc] are constant. *)
Definition __chkEcc : bool := true.
Definition __makeEcc : Z := 0.

(** [_getPacket]: the new state, the classification and, for START and
    CONTINUE, the memory from the body on and its size. *)
Definition _getPacket (p : packet_state) (ev : ch_read)
  : option (packet_state * packet_code * (list Z * Z)) :=
  r ← channel_read (packeBuf p) (PACKET_HEAD_SIZE + PACKETSIZE) ev;
  let '(ok, b, hasRead) := r in
  let p := mkPacket b (_idxGrp p) (_idxSub p) in
  let none := ([], 0) in
  if negb ok then Some (p, PACKET_FAIL, none) else
  if hasRead <? PACKET_HEAD_SIZE then Some (p, PACKET_SKIP, none) else
  if negb (MAGICNUM =? hd_magic p) then Some (p, PACKET_SKIP, none) else
  if negb __chkEcc then Some (p, PACKET_SKIP, none) else
  if hasRead <? (PACKET_HEAD_SIZE +u hd_sizeOfPacket p) then Some (p, PACKET_SKIP, none) else
  let body := (drop (Z.to_nat PACKET_HEAD_SIZE) (packeBuf p), hd_sizeOfPacket p) in
  if _idxGrp p =? hd_idxGrp p then
    if (_idxSub p +u 1) =? hd_idxSub p then
      Some (mkPacket b (_idxGrp p) (_idxSub p +u 1), PACKET_CONTINUE, body)
    else Some (p, PACKET_SKIP, none)
  else if 0 =? hd_idxSub p then
    Some (mkPacket b (hd_idxGrp p) 0, PACKET_START, body)
  else Some (p, PACKET_SKIP, none).

(** [_sendPacktRsp(rsp)]: the 36 bytes written to the channel. *)
Definition _sendPacktRsp (p : packet_state) (rsp : Z) : list Z :=
  le32 (hd_magic p) ++ le32 __makeEcc ++ le32 (hd_idxGrp p) ++ le32 (hd_idxSub p) ++ le32 1
  ++ [u8 rsp] ++ replicate (Z.to_nat (PACKETRSP_SIZE - 1)) 0.

(** What the modem sends: a packet of one group, its body padded to the fixed
    transfer size. *)
Definition make_packet (grp sub : Z) (body : list Z) : list Z :=
  le32 MAGICNUM ++ le32 0 ++ le32 grp ++ le32 sub ++ le32 (zlen body)
  ++ body ++ replicate (Z.to_nat PACKETSIZE - length body) 0.

(** ** Theorems *)
Lemma make_packet_length grp sub body :
  zlen body <= PACKETSIZE -> length (make_packet grp sub body) = 1044%nat.
Proof.
  intros H. unfold make_packet. rewrite !length_app, !le_enc_length, length_replicate.
  unfold PACKETSIZE in *. lia.
Qed.

Section Fields.
Context (grp sub : Z) (body : list Z) (Hg : is_u32 grp) (Hs : is_u32 sub).
Context (Hb : zlen body <= PACKETSIZE).

Lemma packet_fields i j :
  let p := mkPacket (make_packet grp sub body) i j in
  hd_magic p = MAGICNUM /\ hd_idxGrp p = grp /\ hd_idxSub p = sub /\
  hd_sizeOfPacket p = zlen body.
Proof.
  cbn zeta. unfold hd_magic, hd_idxGrp, hd_idxSub, hd_sizeOfPacket, make_packet, packeBuf.
  assert (is_u32 (zlen body)) by (unfold is_u32, PACKETSIZE in *; lia).
  split_and!.
  - apply get32_le32. unfold is_u32, MAGICNUM. lia.
  - rewrite app_assoc. change 8%nat with (length (le32 MAGICNUM ++ le32 0) + 0)%nat.
    rewrite get32_skip. now apply get32_le32.
  - rewrite !app_assoc, <- !app_assoc.
    change 12%nat with (4 + (4 + (4 + 0)))%nat.
    rewrite (get32_skip (le32 MAGICNUM) _ (4 + (4 + 0))), (get32_skip (le32 0) _ (4 + 0)).
    rewrite <- (le_enc_length 4 grp) at 1. rewrite get32_skip. now apply get32_le32.
  - change 16%nat with (4 + (4 + (4 + (4 + 0))))%nat.
    rewrite (get32_skip (le32 MAGICNUM) _ (4 + (4 + (4 + 0)))),
      (get32_skip (le32 0) _ (4 + (4 + 0))).
    rewrite <- (le_enc_length 4 grp) at 1. rewrite get32_skip.
    rewrite <- (le_enc_length 4 sub) at 1. rewrite get32_skip. now apply get32_le32.
Qed.
End Fields.

(** A complete read replaces the whole buffer. *)
Lemma channel_read_full buf d size :
  zlen buf = size -> zlen d = size -> size < 2 ^ 32 ->
  channel_read buf size (RdData d) = Some (true, d, size).
Proof.
  intros Hb Hd Hs. unfold channel_read.
  rewrite take_ge by lia. unfold store. rewrite !(proj2 (Z.leb_le _ _)) by lia. cbn [andb mbind option_bind].
  rewrite u32_small by (unfold is_u32; lia). rewrite Hd, (proj2 (Z.ltb_ge size size)) by lia.
  unfold splice. change (Z.to_nat 0) with 0%nat. cbn [take app].
  rewrite drop_ge, app_nil_r by lia. done.
Qed.

Lemma drop_make_packet grp sub body :
  drop (Z.to_nat PACKET_HEAD_SIZE) (make_packet grp sub body) =
  body ++ replicate (Z.to_nat PACKETSIZE - length body) 0.
Proof. reflexivity. Qed.

(** [_getPacket] on a packet the modem built. *)
Lemma getPacket_made p grp sub body :
  length (packeBuf p) = 1044%nat -> is_u32 grp -> is_u32 sub -> zlen body <= PACKETSIZE ->
  let b := make_packet grp sub body in
  let cur := (body ++ replicate (Z.to_nat PACKETSIZE - length body) 0, zlen body) in
  _getPacket p (RdData b) = Some
    (if _idxGrp p =? grp then
       if (_idxSub p +u 1) =? sub then (mkPacket b grp sub, PACKET_CONTINUE, cur)
       else (mkPacket b (_idxGrp p) (_idxSub p), PACKET_SKIP, ([], 0))
     else if sub =? 0 then (mkPacket b grp 0, PACKET_START, cur)
     else (mkPacket b (_idxGrp p) (_idxSub p), PACKET_SKIP, ([], 0))).
Proof.
  intros Hp Hg Hs Hb. cbn zeta. unfold _getPacket.
  pose proof (make_packet_length grp sub body Hb) as L.
  rewrite channel_read_full by (unfold PACKET_HEAD_SIZE, PACKETSIZE; lia).
  cbn [mbind option_bind negb].
  destruct (packet_fields grp sub body Hg Hs Hb (_idxGrp p) (_idxSub p)) as (-> & -> & -> & ->).
  change (PACKET_HEAD_SIZE + PACKETSIZE <? PACKET_HEAD_SIZE) with false.
  rewrite Z.eqb_refl. cbn [negb __chkEcc _idxGrp _idxSub packeBuf].
  rewrite u32_small by (unfold is_u32, PACKET_HEAD_SIZE, PACKETSIZE in *; lia).
  rewrite (proj2 (Z.ltb_ge _ _)) by (unfold PACKET_HEAD_SIZE, PACKETSIZE in *; lia).
  rewrite drop_make_packet, (Z.eqb_sym 0 sub).
  destruct (Z.eqb_spec (_idxGrp p) grp) as [->|].
  - destruct (Z.eqb_spec (_idxSub p +u 1) sub) as [->|]; done.
  - destruct (Z.eqb_spec sub 0); done.
Qed.

(** The packet layer delivers in order and without duplicates: a packet is
    accepted only if it opens a new group at index 0 or is the successor of the
    last accepted packet of the current group, and then the state moves to its
    position; every other packet is skipped and the position kept. *)
Lemma getPacket_in_order p ev p' code cur :
  _getPacket p ev = Some (p', code, cur) ->
  match code with
  | PACKET_START => _idxGrp p <> _idxGrp p' /\ _idxSub p' = 0
  | PACKET_CONTINUE => _idxGrp p' = _idxGrp p /\ _idxSub p' = (_idxSub p +u 1)
  | _ => _idxGrp p' = _idxGrp p /\ _idxSub p' = _idxSub p
  end.
Proof.
  unfold _getPacket. destruct (channel_read _ _ _) as [[[ok b] n]|]; [|done]. cbn [mbind option_bind].
  destruct ok; cbn [negb]; [|intros [= <- <- <-]; done].
  destruct (n <? PACKET_HEAD_SIZE); [intros [= <- <- <-]; done|].
  destruct (MAGICNUM =? _); cbn [negb]; [|intros [= <- <- <-]; done]. cbn [negb __chkEcc].
  destruct (n <? _); [intros [= <- <- <-]; done|]. cbn [_idxGrp _idxSub].
  destruct (Z.eqb_spec (_idxGrp p) (hd_idxGrp (mkPacket b (_idxGrp p) (_idxSub p)))).
  - destruct (_ =? hd_idxSub _); intros [= <- <- <-]; done.
  - destruct (0 =? hd_idxSub _); intros [= <- <- <-]; done.
Qed.

Lemma getPacket_in_order_witness :
  _idxGrp (mkPacket (replicate 1044 0) 6 0) <> 7 /\ 0 = 0.
Proof.
  apply (getPacket_in_order (mkPacket (replicate 1044 0) 6 0) (RdData (make_packet 7 0 [1; 2]))
    (mkPacket (make_packet 7 0 [1; 2]) 7 0) PACKET_START
    (drop 20 (make_packet 7 0 [1; 2]), 2)).
  vm_compute. reflexivity.
Defined.

(** A failing [read] is not reported.  Its result -1 is stored in an
    [uint32] and compared with the size as 0xFFFFFFFF, so [channel_read] says
    success and [_getPacket] parses the stale buffer: it never answers FAIL, and
    after an accepted packet it answers SKIP for ever without touching the
    state, so the channel is never reopened. *)
Lemma read_error_never_fails p :
  (exists p' code cur, _getPacket p RdErr = Some (p', code, cur) /\ code <> PACKET_FAIL) /\
  (hd_idxGrp p = _idxGrp p -> hd_idxSub p = _idxSub p -> is_u32 (_idxSub p) ->
   _getPacket p RdErr = Some (p, PACKET_SKIP, ([], 0))).
Proof.
  unfold _getPacket. cbn [channel_read mbind option_bind].
  change (negb (negb (u32 (-1) <? PACKET_HEAD_SIZE + PACKETSIZE))) with false. cbv iota.
  change (u32 (-1) <? PACKET_HEAD_SIZE) with false. cbv iota.
  assert (E : mkPacket (packeBuf p) (_idxGrp p) (_idxSub p) = p) by (destruct p; done).
  rewrite E. cbn [negb __chkEcc]. split.
  - repeat case_match; do 3 eexists; (split; [reflexivity|done]).
  - intros Hg Hs Hr. destruct (MAGICNUM =? hd_magic p); cbn [negb]; [|done].
    destruct (_ <? _); [done|]. rewrite Hg, Z.eqb_refl, Hs.
    destruct (Z.eqb_spec (_idxSub p +u 1) (_idxSub p)) as [Eq|]; [|done].
    exfalso. unfold u32, is_u32 in *. zlia.
Qed.

Lemma read_error_never_fails_witness :
  _getPacket (mkPacket (make_packet 7 0 [1; 2]) 7 0) RdErr =
    Some (mkPacket (make_packet 7 0 [1; 2]) 7 0, PACKET_SKIP, ([], 0)).
Proof.
  apply (read_error_never_fails (mkPacket (make_packet 7 0 [1; 2]) 7 0));
    [vm_compute; reflexivity | vm_compute; reflexivity | unfold is_u32; simpl; lia].
Defined.

(** The size check of [_getPacket] overflows: a size field of 2^32 - 20 or
    more wraps [sizeof(PACKET_HEAD) + sizeOfPacket] to less than 20, passes, and
    is handed on as the size of the body, which has 1024 bytes; any other size
    above 1024 is rejected. *)
Lemma packet_size_check p d p' code body size :
  length (packeBuf p) = 1044%nat -> zlen d = 1044 -> bytes d ->
  _getPacket p (RdData d) = Some (p', code, (body, size)) ->
  (code = PACKET_START \/ code = PACKET_CONTINUE ->
     size = get32 d 16 /\ length body = 1024%nat /\ (size <= 1024 \/ 2 ^ 32 - 20 <= size)) /\
  (MAGICNUM = get32 d 0 -> get32 d 8 <> _idxGrp p -> get32 d 12 = 0 -> 2 ^ 32 - 20 <= get32 d 16 ->
     code = PACKET_START /\ size = get32 d 16).
Proof.
  intros Hp Hd Hby. unfold _getPacket.
  rewrite channel_read_full by (unfold PACKET_HEAD_SIZE, PACKETSIZE; lia).
  cbn [mbind option_bind negb]. unfold hd_magic, hd_sizeOfPacket, hd_idxGrp, hd_idxSub. cbn [packeBuf _idxGrp _idxSub].
  change (PACKET_HEAD_SIZE + PACKETSIZE <? PACKET_HEAD_SIZE) with false.
  pose proof (get32_range d 16 Hby) as Hr. unfold is_u32, PACKET_HEAD_SIZE, PACKETSIZE in *.
  assert (Ld : length (drop (Z.to_nat 20) d) = 1024%nat) by (rewrite length_drop; lia).
  destruct (Z.eqb_spec MAGICNUM (get32 d 0)); cbn [negb __chkEcc].
  2:{ intros [= <- <- <- <-]. split; [intros [|]; done|done]. }
  destruct (Z.ltb_spec (20 + 1024) (20 +u get32 d 16)) as [Hlt|Hge].
  { intros [= <- <- <- <-]. split; [intros [|]; done|]. intros _ _ _ Hbig. exfalso.
    unfold u32 in Hlt. zlia. }
  assert (Hok : get32 d 16 <= 1024 \/ 2 ^ 32 - 20 <= get32 d 16) by (unfold u32 in Hge; zlia).
  destruct (Z.eqb_spec (_idxGrp p) (get32 d 8)).
  - destruct (_ =? get32 d 12); intros [= <- <- <- <-]; (split; [|done]); [|intros [|]; done]. auto.
  - destruct (Z.eqb_spec 0 (get32 d 12)); intros [= <- <- <- <-]; (split; [|done]); [auto|intros [|]; done].
Qed.

(** A size field of 2^32 - 20 is accepted. *)
Definition oversized_packet : list Z :=
  le32 MAGICNUM ++ le32 0 ++ le32 7 ++ le32 0 ++ le32 (2 ^ 32 - 20) ++ replicate 1024 0.

Lemma packet_size_check_witness :
  exists body, _getPacket (mkPacket (replicate 1044 0) 6 0) (RdData oversized_packet) =
    Some (mkPacket oversized_packet 7 0, PACKET_START, (body, 2 ^ 32 - 20)) /\ length body = 1024%nat.
Proof.
  exists (replicate 1024 0).
  assert (E : _getPacket (mkPacket (replicate 1044 0) 6 0) (RdData oversized_packet) =
    Some (mkPacket oversized_packet 7 0, PACKET_START, (replicate 1024 0, 2 ^ 32 - 20)))
    by (vm_compute; reflexivity).
  split; [exact E|].
  apply (packet_size_check (mkPacket (replicate 1044 0) 6 0) oversized_packet _ _ _ _ eq_refl eq_refl
    ltac:(unfold oversized_packet; repeat apply Forall_app_2; try apply le_enc_bytes;
          apply Forall_replicate; unfold is_byte; lia) E).
  left. reflexivity.
Defined.
