(* ===== verification/NvSync.v ===== *)
(** * The NV synchronisation protocol (apps/nvitem/nvitem_sync.c)

    The modem sends a request as a stream of 20-byte tokens: a head naming the
    partition, then bodies, each naming a range of sectors and followed by their
    data, then a tail.  The stream is cut into packets.  [syncAnalyzer] is a
    state machine over the stream; it writes the data into the [fromChannel]
    buffer, commits on the tail ([backupData]) and rolls back on an error
    ([restoreData]).

    [core] is the state the parser threads: the buffers, the disk, the static
    variables of nvitem_sync.c and the number of events given to the saving
    task.  A cursor is the memory from [*buf] on together with [*size]; reading
    past that memory is undefined ([None]).  [drain] is the inner loop over one
    packet, [syncAnalyzer] the outer loop over the packets of the channel. *)
From S2P Require Import Prelude.
From S2P Require Import NvFs.
From S2P Require Import NvBuf.
From S2P Require Import NvPacket.

Definition SYNC_REQ_HEAD : Z := 0.
Definition SYNC_REQ_BODY : Z := 1.
Definition SYNC_REQ_TAIL : Z := 2.
(** [sizeof(SYNC_REQ)], the size of the largest member, [SYNC_BODY]. *)
Definition SYNC_REQ_SIZE : Z := 20.

Inductive sync_code := SYNC_CONTINUE | SYNC_NEXT | SYNC_DONE | SYNC_FAIL.

(** The static variables.  [syncReqBuf] is declared as an array of 20
    pointers, 80 bytes. *)
Record sync_vars := mkSync {
  _syncState : Z;
  _syncBusy : Z;
  syncReqFrame : Z;
  syncReqBuf : list Z;
  _ofst : Z;
  _id : Z;
  _start : Z;
  _len : Z }.

Definition _syncInit (v : sync_vars) : sync_vars :=
  mkSync 0 0 0 (syncReqBuf v) 0 0xFFFFFFFF 0 0.

Definition set_state (v : sync_vars) (st : Z) : sync_vars :=
  mkSync st (_syncBusy v) (syncReqFrame v) (syncReqBuf v) (_ofst v) (_id v) (_start v) (_len v).
Definition set_busy (v : sync_vars) (b : Z) : sync_vars :=
  mkSync (_syncState v) b (syncReqFrame v) (syncReqBuf v) (_ofst v) (_id v) (_start v) (_len v).
Definition set_token (v : sync_vars) (b : list Z) (o : Z) : sync_vars :=
  mkSync (_syncState v) (_syncBusy v) (syncReqFrame v) b o (_id v) (_start v) (_len v).
Definition set_frame (v : sync_vars) (f : Z) : sync_vars :=
  mkSync (_syncState v) (_syncBusy v) f (syncReqBuf v) (_ofst v) (_id v) (_start v) (_len v).
Definition set_id (v : sync_vars) (i : Z) : sync_vars :=
  mkSync (_syncState v) (_syncBusy v) (syncReqFrame v) (syncReqBuf v) (_ofst v) i (_start v) (_len v).
Definition set_range (v : sync_vars) (s l : Z) : sync_vars :=
  mkSync (_syncState v) (_syncBusy v) (syncReqFrame v) (syncReqBuf v) (_ofst v) (_id v) s l.

(** The token overlaid on [syncReqBuf]. *)
Definition tk_type (v : sync_vars) : Z := get32 (syncReqBuf v) 0.
Definition tk_reqIdx (v : sync_vars) : Z := get32 (syncReqBuf v) 4.
Definition tk_partId (v : sync_vars) : Z := get32 (syncReqBuf v) 8.
Definition tk_start (v : sync_vars) : Z := get32 (syncReqBuf v) 12.
Definition tk_num (v : sync_vars) : Z := get32 (syncReqBuf v) 16.

(** [*buf] and [*size]. *)
Record cursor := mkCur { cbuf : list Z; csize : Z }.
Definition advance (c : cursor) (n : Z) : cursor :=
  mkCur (drop (Z.to_nat n) (cbuf c)) (csize c -u n).

(** [__getToken]: a token is complete ([true]) or not.  The offset into
    [syncReqBuf] counts pointers, four bytes each. *)
Definition __getToken (v : sync_vars) (c : cursor) : option (bool * sync_vars * cursor) :=
  let need := SYNC_REQ_SIZE -u _ofst v in
  if csize c <? need then
    if negb (csize c =? 0) then Some (false, v, c) else
    d ← load (cbuf c) 0 (csize c);
    b ← store (syncReqBuf v) (4 * _ofst v) d;
    Some (false, set_token v b (_ofst v +u csize c), advance c (csize c))
  else if need =? 0 then Some (true, set_token v (syncReqBuf v) 0, c)
  else
    d ← load (cbuf c) 0 need;
    b ← store (syncReqBuf v) (4 * _ofst v) d;
    Some (true, set_token v b 0, advance c need).

Section Sync.
Context {D : Type} `{RamDisk D}.
Context (is_cali_mode : bool).

Record core := mkCore {
  ctl : RAMNV_CTL;
  disk : D;
  vars : sync_vars;
  events : nat }.

Definition with_vars (c : core) (v : sync_vars) : core := mkCore (ctl c) (disk c) v (events c).
Definition with_ctl (c : core) (s : RAMNV_CTL) : core := mkCore s (disk c) (vars c) (events c).

(** [_syncReset]; [true] is [SYNC_SUC_RESET].  The result is the BOOLEAN. *)
Definition _syncReset (ifSuc : bool) (c : core) : option (Z * core) :=
  let v := vars c in
  if ifSuc then
    r ← backupData is_cali_mode (ctl c) (disk c) (_id v);
    let '(s, dk, ev) := r in
    Some (1, mkCore s dk (_syncInit v) (if (ev : bool) then S (events c) else events c))
  else
    s ← (if negb (_syncState v =? 0) then restoreData (ctl c) (_id v) else Some (ctl c));
    Some (1, mkCore s (disk c) (_syncInit v) (events c)).

Definition _syncGetHead (c : core) (cur : cursor) : option (sync_code * core * cursor) :=
  r ← __getToken (vars c) cur;
  let '(got, v, cur) := r in
  if negb got then Some (SYNC_CONTINUE, with_vars c v, cur) else
  if negb (SYNC_REQ_HEAD =? tk_type v) then Some (SYNC_FAIL, with_vars c v, cur) else
  let v := set_frame v (tk_reqIdx v) in
  let v := set_id v (getCtlId (ctl c) (tk_partId v)) in
  if 0xFFFFFFFF =? _id v then Some (SYNC_FAIL, with_vars c v, cur)
  else Some (SYNC_NEXT, with_vars c v, cur).

Definition _syncGetBody (c : core) (cur : cursor) : option (sync_code * core * cursor) :=
  r ← __getToken (vars c) cur;
  let '(got, v, cur) := r in
  if negb got then Some (SYNC_CONTINUE, with_vars c v, cur) else
  if SYNC_REQ_BODY =? tk_type v then
    if negb ((syncReqFrame v +u 1) =? tk_reqIdx v) then Some (SYNC_FAIL, with_vars c v, cur) else
    let v := set_frame v (syncReqFrame v +u 1) in
    s ← _markDirtyInfo (ctl c) (_id v) (tk_start v) (tk_num v);
    let v := set_range v (tk_start v *u RAMNV_SECT_SIZE) (tk_num v *u RAMNV_SECT_SIZE) in
    Some (SYNC_NEXT, with_vars (with_ctl c s) v, cur)
  else if SYNC_REQ_TAIL =? tk_type v then
    if negb ((syncReqFrame v +u 1) =? tk_reqIdx v) then Some (SYNC_FAIL, with_vars c v, cur) else
    Some (SYNC_DONE, with_vars c (set_frame v (syncReqFrame v +u 1)), cur)
  else Some (SYNC_FAIL, with_vars c v, cur).

Definition _syncGetData (c : core) (cur : cursor) : option (sync_code * core * cursor) :=
  let v := vars c in
  if _len v <=? csize cur then
    d ← load (cbuf cur) 0 (_len v);
    s ← writeData (ctl c) (_id v) (_start v) d;
    Some (SYNC_NEXT, with_vars (with_ctl c s) (set_range v (_start v +u _len v) 0),
          advance cur (_len v))
  else
    d ← load (cbuf cur) 0 (csize cur);
    s ← writeData (ctl c) (_id v) (_start v) d;
    Some (SYNC_CONTINUE,
          with_vars (with_ctl c s) (set_range v (_start v +u csize cur) (_len v -u csize cur)),
          advance cur (csize cur)).

(** The [while (0 != size)] loop of [syncAnalyzer] over one packet: the state,
    the response sent, if any, and the size left.  Every turn consumes a token
    or ends a data block, so a fuel of twice the bytes and two is enough
    ([drain_fuel]). *)
Fixpoint drain (fuel : nat) (c : core) (cur : cursor) : option (core * option Z * Z) :=
  match fuel with
  | O => None
  | S k =>
      if csize cur =? 0 then Some (c, None, 0) else
      let st := _syncState (vars c) in
      if st =? 0 then
        r ← _syncGetHead c cur;
        let '(ret, c, cur) := r in
        match ret with
        | SYNC_FAIL => r ← _syncReset false c; Some (snd r, Some 0, csize cur)
        | SYNC_NEXT => drain k (with_vars c (set_state (vars c) 1)) cur
        | SYNC_CONTINUE => Some (c, Some 1, csize cur)
        | SYNC_DONE => drain k c cur
        end
      else if st =? 1 then
        r ← _syncGetBody c cur;
        let '(ret, c, cur) := r in
        match ret with
        | SYNC_FAIL => r ← _syncReset false c; Some (snd r, Some 0, csize cur)
        | SYNC_NEXT => drain k (with_vars c (set_state (vars c) 2)) cur
        | SYNC_CONTINUE => Some (c, Some 1, csize cur)
        | SYNC_DONE => r ← _syncReset true c; Some (snd r, Some (fst r), csize cur)
        end
      else
        r ← _syncGetData c cur;
        let '(ret, c, cur) := r in
        match ret with
        | SYNC_CONTINUE => Some (c, Some 1, csize cur)
        | SYNC_NEXT => drain k (with_vars c (set_state (vars c) 1)) cur
        | _ => drain k c cur
        end
  end.

Definition drain_all (c : core) (cur : cursor) : option (core * option Z * Z) :=
  drain (2 * length (cbuf cur) + 2) c cur.

(** One turn of the [do ... while (1)] loop: the packet read is classified and
    drained.  [None] in the middle component ends the function. *)
Definition sync_turn (c : core) (p : packet_state) (ev : ch_read)
  : option (core * packet_state * option (list (list Z))) :=
  r ← _getPacket p ev;
  let '(p, code, (body, size)) := r in
  let busy := negb (_syncBusy (vars c) =? 0) in
  let go := fun c : core =>
    let c := with_vars c (set_busy (vars c) 1) in
    r ← drain_all c (mkCur body size);
    let '(c, rsp, _) := r in
    Some (c, p, Some (match rsp with Some x => [_sendPacktRsp p x] | None => [] end)) in
  match code with
  | PACKET_FAIL => r ← _syncReset false c; Some (snd r, p, None)
  | PACKET_START => if busy then r ← _syncReset false c; go (snd r) else go c
  | PACKET_CONTINUE => if busy then go c else Some (c, p, Some [_sendPacktRsp p 0])
  | PACKET_SKIP => Some (c, p, Some [])
  end.

(** [syncAnalyzer] on the reads of the channel, in order: the state, the
    responses written and whether it returned. *)
Fixpoint syncAnalyzer (c : core) (p : packet_state) (evs : list ch_read)
  : option (core * packet_state * list (list Z) * bool) :=
  match evs with
  | [] => Some (c, p, [], false)
  | ev :: r =>
      t ← sync_turn c p ev;
      let '(c, p, out) := t in
      match out with
      | None => Some (c, p, [], true)
      | Some o =>
          t ← syncAnalyzer c p r;
          let '(c, p, o', ret) := t in Some (c, p, o ++ o', ret)
      end
  end.
End Sync.
Arguments core D : clear implicits.

(** ** The token reader *)
Ltac obind := cbn [mbind option_bind].

Section Tokens.
Implicit Types (v : sync_vars) (cur : cursor).

(** With nothing buffered, a token is read whole or not at all; the variables
    other than the token buffer stay. *)
Lemma getToken_cases v cur got v' cur' :
  _ofst v = 0 -> csize cur <> 0 -> __getToken v cur = Some (got, v', cur') ->
  if got then
    20 <= csize cur /\ cur' = mkCur (drop 20 (cbuf cur)) (csize cur -u 20) /\
    20 <= zlen (cbuf cur) /\ v' = set_token v (splice (syncReqBuf v) 0 (take 20 (cbuf cur))) 0
  else csize cur < 20 /\ v' = v /\ cur' = cur.
Proof.
  intros Ho Hc. unfold __getToken. rewrite Ho. change (SYNC_REQ_SIZE -u 0) with 20.
  destruct (Z.ltb_spec (csize cur) 20).
  - rewrite (proj2 (Z.eqb_neq _ _)) by done. cbn. intros [= <- <- <-]. done.
  - change (20 =? 0) with false. cbv iota. destruct (load (cbuf cur) 0 20) as [d|] eqn:Hd; [|done]. obind.
    unfold load in Hd. destruct (_ && _) eqn:Hl; [|done]. injection Hd as <-.
    rewrite !andb_true_iff, !Z.leb_le in Hl.
    destruct (store _ _ _) as [b|] eqn:Hb; [|done]. obind. apply store_Some in Hb as (_ & _ & ->).
    intros [= <- <- <-]. split_and!; done || lia.
Qed.

Lemma getToken_short v cur :
  _ofst v = 0 -> 0 < csize cur < 20 -> __getToken v cur = Some (false, v, cur).
Proof.
  intros Ho Hc. unfold __getToken. rewrite Ho. change (SYNC_REQ_SIZE -u 0) with 20.
  rewrite (proj2 (Z.ltb_lt _ _)), (proj2 (Z.eqb_neq _ _)) by lia. done.
Qed.

Lemma getToken_whole v tok rest n :
  _ofst v = 0 -> length (syncReqBuf v) = 80%nat -> length tok = 20%nat -> 20 <= n < 2 ^ 32 ->
  __getToken v (mkCur (tok ++ rest) n) =
    Some (true, set_token v (tok ++ drop 20 (syncReqBuf v)) 0, mkCur rest (n - 20)).
Proof.
  intros Ho Hb Ht Hn. unfold __getToken. rewrite Ho. change (SYNC_REQ_SIZE -u 0) with 20.
  cbn [csize cbuf]. rewrite (proj2 (Z.ltb_ge _ _)) by lia. change (20 =? 0) with false. cbv iota.
  rewrite load_0 by (rewrite length_app; lia). obind.
  replace (Z.to_nat 20) with (length tok) by lia. rewrite take_app_0.
  unfold store. rewrite !(proj2 (Z.leb_le _ _)) by lia. obind. unfold advance. cbn [cbuf csize andb].
  replace (Z.to_nat 20) with (length tok) by lia. rewrite drop_app_0, u32_small by (unfold is_u32; lia).
  unfold splice. change (Z.to_nat (4 * 0)) with 0%nat. cbn [take app Nat.add]. rewrite Ht. done.
Qed.

(** A token read from a prefix [a] does not depend on what follows it. *)
Lemma getToken_prefix v a x n y m r :
  _ofst v = 0 -> 20 <= zlen a -> 20 <= n -> 20 <= m ->
  __getToken v (mkCur (a ++ x) n) = Some r ->
  snd r = mkCur (drop 20 a ++ x) (n -u 20) /\
  __getToken v (mkCur (a ++ y) m) = Some (fst r, mkCur (drop 20 a ++ y) (m -u 20)).
Proof.
  intros Ho Ha Hn Hm. unfold __getToken. rewrite Ho. change (SYNC_REQ_SIZE -u 0) with 20.
  cbn [csize cbuf]. rewrite !(proj2 (Z.ltb_ge _ 20)) by lia. change (20 =? 0) with false. cbv iota.
  rewrite !load_0 by (rewrite length_app; lia). obind.
  change (Z.to_nat 20) with 20%nat. rewrite !take_app_le by lia.
  destruct (store _ _ _) as [b|]; [|done]. obind. intros [= <-]. cbn [fst snd].
  unfold advance. cbn [cbuf csize]. change (Z.to_nat 20) with 20%nat.
  rewrite !drop_app_le by lia. done.
Qed.
End Tokens.

Section Drain.
Context {D : Type} `{RamDisk D}.
Context (is_cali_mode : bool).
Implicit Types (c : core D) (cur : cursor).
Abbreviation drain := (drain is_cali_mode).
Abbreviation drain_all := (drain_all is_cali_mode).

(** The pieces of a turn of the loop, for a core with no buffered token. *)
Lemma head_cases c cur ret c' cur' :
  _ofst (vars c) = 0 -> csize cur <> 0 -> _syncGetHead c cur = Some (ret, c', cur') ->
  _ofst (vars c') = 0 /\ ctl c' = ctl c /\ _syncState (vars c') = _syncState (vars c) /\
  match ret with
  | SYNC_CONTINUE => csize cur < 20 /\ c' = c /\ cur' = cur
  | SYNC_DONE => False
  | _ => 20 <= csize cur /\ cur' = mkCur (drop 20 (cbuf cur)) (csize cur -u 20) /\
         20 <= zlen (cbuf cur)
  end.
Proof.
  intros Ho Hc. unfold _syncGetHead.
  destruct (__getToken _ _) as [[[got v] cu]|] eqn:Ht; [|done]. obind.
  apply getToken_cases in Ht; [|done..]. destruct got; cbn [negb].
  - destruct Ht as (? & -> & ? & ->). repeat case_match; intros; simplify_eq; done.
  - destruct Ht as (? & -> & ->). intros; simplify_eq. by destruct c.
Qed.

Lemma body_cases c cur ret c' cur' :
  _ofst (vars c) = 0 -> csize cur <> 0 -> _syncGetBody c cur = Some (ret, c', cur') ->
  _ofst (vars c') = 0 /\ _syncState (vars c') = _syncState (vars c) /\
  match ret with
  | SYNC_CONTINUE => csize cur < 20 /\ c' = c /\ cur' = cur
  | _ => 20 <= csize cur /\ cur' = mkCur (drop 20 (cbuf cur)) (csize cur -u 20) /\
         20 <= zlen (cbuf cur)
  end.
Proof.
  intros Ho Hc. unfold _syncGetBody.
  destruct (__getToken _ _) as [[[got v] cu]|] eqn:Ht; [|done]. obind.
  apply getToken_cases in Ht; [|done..]. destruct got; cbn [negb].
  - destruct Ht as (? & -> & ? & ->).
    destruct (_ =? tk_type _).
    + destruct (negb _); [intros; simplify_eq; done|].
      destruct (_markDirtyInfo _ _ _ _); [|done]. obind. intros; simplify_eq. done.
    + repeat case_match; intros; simplify_eq; done.
  - destruct Ht as (? & -> & ->). intros; simplify_eq. by destruct c.
Qed.

Lemma data_cases c cur ret c' cur' :
  _ofst (vars c) = 0 -> csize cur <> 0 -> _syncGetData c cur = Some (ret, c', cur') ->
  _ofst (vars c') = 0 /\ (length (cbuf cur') <= length (cbuf cur))%nat /\
  match ret with
  | SYNC_CONTINUE => csize cur < _len (vars c) /\ csize cur' = 0
  | SYNC_NEXT => _len (vars c) <= csize cur
  | _ => False
  end.
Proof.
  intros Ho Hc. unfold _syncGetData. destruct (Z.leb_spec (_len (vars c)) (csize cur)).
  all: destruct (load _ _ _); [|done]; obind; destruct (writeData _ _ _ _); [|done]; obind.
  all: intros; simplify_eq; split_and!; try done.
  all: unfold advance; cbn [cbuf csize]; rewrite ?length_drop, ?Z.sub_diag; done || lia.
Qed.

(** ** The fuel of [drain] *)
Definition phase (st : Z) : nat := if (st =? 0) || (st =? 1) then 0%nat else 1%nat.
Definition cost c cur : nat := (2 * length (cbuf cur) + phase (_syncState (vars c)))%nat.

Lemma phase_le st : (phase st <= 1)%nat.
Proof. unfold phase. destruct (_ || _); lia. Qed.
Lemma phase_data st : st <> 0 -> st <> 1 -> phase st = 1%nat.
Proof. intros. unfold phase. now rewrite !(proj2 (Z.eqb_neq _ _)) by done. Qed.

(** One turn of the loop: the parser of the current state and what follows. *)
Definition turn c cur : option (sync_code * core D * cursor) :=
  if _syncState (vars c) =? 0 then _syncGetHead c cur
  else if _syncState (vars c) =? 1 then _syncGetBody c cur else _syncGetData c cur.
Definition next_state (st : Z) : Z := if st =? 0 then 1 else if st =? 1 then 2 else 1.
Definition go_next c st : core D := with_vars c (set_state (vars c) (next_state st)).

Lemma turn_cases c cur ret c' cur' :
  _ofst (vars c) = 0 -> csize cur <> 0 -> turn c cur = Some (ret, c', cur') ->
  _ofst (vars c') = 0 /\
  match ret with
  | SYNC_NEXT => (cost (go_next c' (_syncState (vars c))) cur' < cost c cur)%nat
  | SYNC_CONTINUE => csize cur' <> 0 \/
      (_syncState (vars c) <> 0 /\ _syncState (vars c) <> 1 /\ csize cur < _len (vars c))
  | SYNC_DONE => _syncState (vars c) = 1
  | SYNC_FAIL => _syncState (vars c) = 0 \/ _syncState (vars c) = 1
  end.
Proof.
  intros Ho Hc. unfold turn, cost, go_next, next_state. cbn.
  destruct (Z.eqb_spec (_syncState (vars c)) 0) as [E0|N0];
    [|destruct (Z.eqb_spec (_syncState (vars c)) 1) as [E1|N1]]; intros Hh.
  - apply head_cases in Hh as (? & _ & _ & Hr); [|done..]. split; [done|].
    destruct ret; try done; [destruct Hr as (_ & _ & ->); by left| |by left].
    destruct Hr as (? & -> & ?). cbn. rewrite length_drop. pose proof (phase_le 1). lia.
  - apply body_cases in Hh as (? & _ & Hr); [|done..]. split; [done|].
    destruct ret; try done; [destruct Hr as (_ & _ & ->); by left| |by right].
    destruct Hr as (? & -> & ?). cbn. rewrite length_drop. pose proof (phase_le 2). lia.
  - apply data_cases in Hh as (? & ? & Hr); [|done..]. split; [done|].
    destruct ret; try done; [right; split_and!; (done || lia)|].
    rewrite (phase_data (_syncState _)) by done. change (phase 1) with 0%nat. lia.
Qed.

Lemma drain_turn k c cur :
  _ofst (vars c) = 0 ->
  drain (S k) c cur =
    if csize cur =? 0 then Some (c, None, 0) else
    r ← turn c cur;
    let '(ret, c', cur') := r in
    match ret with
    | SYNC_FAIL => r ← _syncReset is_cali_mode false c'; Some (snd r, Some 0, csize cur')
    | SYNC_NEXT => drain k (go_next c' (_syncState (vars c))) cur'
    | SYNC_CONTINUE => Some (c', Some 1, csize cur')
    | SYNC_DONE => r ← _syncReset is_cali_mode true c'; Some (snd r, Some (fst r), csize cur')
    end.
Proof.
  intros Ho. cbn [NvSync.drain]. destruct (Z.eqb_spec (csize cur) 0) as [|Hc]; [done|].
  pose proof (turn_cases c cur) as Ht. unfold turn, go_next, next_state in *.
  destruct (Z.eqb_spec (_syncState (vars c)) 0) as [E0|N0];
    [|destruct (Z.eqb_spec (_syncState (vars c)) 1) as [E1|N1]].
  - destruct (_syncGetHead c cur) as [[[ret c'] cur']|] eqn:Hh; [|done]. obind.
    destruct ret; try done. specialize (Ht _ _ _ Ho Hc eq_refl) as [_ Ht]. lia.
  - destruct (_syncGetBody c cur) as [[[ret c'] cur']|] eqn:Hh; [|done]. by destruct ret.
  - destruct (_syncGetData c cur) as [[[ret c'] cur']|] eqn:Hh; [|done]. obind.
    destruct ret; try done; specialize (Ht _ _ _ Ho Hc eq_refl) as [_ Ht]; lia.
Qed.

(** The loop ends: any fuel above the cost gives the same result. *)
Lemma drain_enough k k' c cur :
  _ofst (vars c) = 0 -> (cost c cur < k)%nat -> (cost c cur < k')%nat ->
  drain k c cur = drain k' c cur.
Proof.
  revert k' c cur. induction k as [|k IH]; intros [|k'] c cur Ho Hk Hk'; [lia..|].
  rewrite !drain_turn by done. destruct (Z.eqb_spec (csize cur) 0); [done|].
  destruct (turn c cur) as [[[ret c'] cur']|] eqn:Ht; [|done]. obind.
  apply turn_cases in Ht as [Ho' Hr]; [|done..]. destruct ret; try done.
  apply IH; [done|lia..].
Qed.

Lemma drain_all_turn c cur :
  _ofst (vars c) = 0 ->
  drain_all c cur =
    if csize cur =? 0 then Some (c, None, 0) else
    r ← turn c cur;
    let '(ret, c', cur') := r in
    match ret with
    | SYNC_FAIL => r ← _syncReset is_cali_mode false c'; Some (snd r, Some 0, csize cur')
    | SYNC_NEXT => drain_all (go_next c' (_syncState (vars c))) cur'
    | SYNC_CONTINUE => Some (c', Some 1, csize cur')
    | SYNC_DONE => r ← _syncReset is_cali_mode true c'; Some (snd r, Some (fst r), csize cur')
    end.
Proof.
  intros Ho. unfold NvSync.drain_all at 1.
  replace (2 * length (cbuf cur) + 2)%nat with (S (2 * length (cbuf cur) + 1)) by lia.
  rewrite drain_turn by done. destruct (Z.eqb_spec (csize cur) 0); [done|].
  destruct (turn c cur) as [[[ret c'] cur']|] eqn:Ht; [|done]. obind.
  apply turn_cases in Ht as [Ho' Hr]; [|done..]. destruct ret; try done.
  apply drain_enough; [done|..].
  - pose proof (phase_le (_syncState (vars c))). unfold cost in *. lia.
  - pose proof (phase_le (_syncState (vars (go_next c' (_syncState (vars c)))))). unfold cost. lia.
Qed.

(** ** How a stream may be cut into packets *)
Lemma head_prefix c a x n y m r :
  _ofst (vars c) = 0 -> 20 <= zlen a -> 20 <= n -> 20 <= m ->
  _syncGetHead c (mkCur (a ++ x) n) = Some r ->
  snd r = mkCur (drop 20 a ++ x) (n -u 20) /\
  _syncGetHead c (mkCur (a ++ y) m) = Some (fst r, mkCur (drop 20 a ++ y) (m -u 20)).
Proof.
  intros Ho Ha Hn Hm. unfold _syncGetHead.
  destruct (__getToken _ (mkCur (a ++ x) n)) as [[[got v] cu]|] eqn:Ht; [|done]. obind.
  destruct (getToken_prefix _ a x n y m _ Ho Ha Hn Hm Ht) as [Ec ->]. cbn in Ec. subst cu. obind.
  cbn [fst]. repeat case_match; intros; simplify_eq; done.
Qed.

Lemma body_prefix c a x n y m r :
  _ofst (vars c) = 0 -> 20 <= zlen a -> 20 <= n -> 20 <= m ->
  _syncGetBody c (mkCur (a ++ x) n) = Some r ->
  snd r = mkCur (drop 20 a ++ x) (n -u 20) /\
  _syncGetBody c (mkCur (a ++ y) m) = Some (fst r, mkCur (drop 20 a ++ y) (m -u 20)).
Proof.
  intros Ho Ha Hn Hm. unfold _syncGetBody.
  destruct (__getToken _ (mkCur (a ++ x) n)) as [[[got v] cu]|] eqn:Ht; [|done]. obind.
  destruct (getToken_prefix _ a x n y m _ Ho Ha Hn Hm Ht) as [Ec ->]. cbn in Ec. subst cu. obind.
  cbn [fst]. destruct (negb got); [intros; simplify_eq; done|].
  destruct (_ =? tk_type _).
  - destruct (negb _); [intros; simplify_eq; done|].
    destruct (_markDirtyInfo _ _ _ _); [|done]. obind. intros; simplify_eq; done.
  - repeat case_match; intros; simplify_eq; done.
Qed.

(** The working buffers are objects of a 32-bit machine. *)
Definition addressable (s : RAMNV_CTL) : Prop :=
  forall id p, get_part s id = Some p -> zlen (diskbuf (fromChannel p)) < 2 ^ 32.

Lemma writeData_addressable s id start d s' :
  addressable s -> writeData s id start d = Some s' -> addressable s'.
Proof.
  unfold writeData. intros Hs. case_match; [intros [= <-]; done|].
  destruct (get_part s id) as [p|] eqn:Hp; [|done]. obind.
  destruct (store _ _ _) as [b|] eqn:Hb; [|done]. obind. intros [= <-] id' q Hq.
  destruct (decide (id = id')) as [<-|Hne].
  - rewrite (get_put_eq s id p) in Hq by done. injection Hq as <-. cbn.
    rewrite (store_length _ _ _ _ Hb). eauto.
  - rewrite get_put_ne in Hq by eauto using get_part_nonneg. eauto.
Qed.

Lemma markDirty_addressable s id start n s' :
  addressable s -> _markDirtyInfo s id start n = Some s' -> addressable s'.
Proof.
  unfold _markDirtyInfo. intros Hs.
  destruct (get_part s id) as [p|] eqn:Hp; [|done]. obind.
  destruct (mark_table _ _ _) as [b|] eqn:Hb; [|done]. obind. intros [= <-] id' q Hq.
  destruct (decide (id = id')) as [<-|Hne].
  - rewrite (get_put_eq s id p) in Hq by done. injection Hq as <-. cbn. eauto.
  - rewrite get_put_ne in Hq by eauto using get_part_nonneg. eauto.
Qed.

Lemma put_put s id p q : put_part (put_part s id p) id q = put_part s id q.
Proof. unfold put_part. cbn. now rewrite list_insert_insert_eq. Qed.

(** Two adjacent writes are one. *)
Lemma writeData_app s id start a b :
  addressable s -> is_u32 start -> a <> [] -> b <> [] ->
  (s1 ← writeData s id start a; writeData s1 id (start +u zlen a) b) =
  writeData s id start (a ++ b) /\
  (forall s1, writeData s id start a = Some s1 -> start + zlen a < 2 ^ 32).
Proof.
  intros Hs Hu Ha Hb. unfold writeData.
  rewrite !(proj2 (Z.eqb_neq (zlen _) 0)) by (rewrite ?length_app; destruct a, b; simpl; done || lia).
  destruct (get_part s id) as [p|] eqn:Hp; [|done]. obind.
  pose proof (Hs id p Hp) as Hl.
  destruct (store (diskbuf (fromChannel p)) start a) as [d|] eqn:Hd; obind.
  - apply store_Some in Hd as (? & ? & ->).
    rewrite (get_put_eq s id p) by done. obind. cbn [diskbuf fromChannel set_fromChannel dirty].
    rewrite u32_small by (unfold is_u32; lia). split; [|intros; lia].
    unfold store. rewrite !length_app, splice_length, !(proj2 (Z.leb_le 0 _)) by lia. cbn [andb].
    rewrite Nat2Z.inj_add, Z.add_assoc. destruct (Z.leb_spec (start + zlen a + zlen b) (zlen (diskbuf (fromChannel p)))); [|done]. obind.
    rewrite put_put. do 4 f_equal. rewrite <- (splice_app _ _ a b) by lia. do 2 f_equal. lia.
  - split; [|done]. unfold store in Hd |- *. rewrite length_app.
    destruct (Z.leb_spec 0 start); cbn [andb] in *; [|done].
    destruct (Z.leb_spec (start + zlen a) (zlen (diskbuf (fromChannel p)))); [done|].
    rewrite (proj2 (Z.leb_gt _ _)) by lia. done.
Qed.

Lemma load_app_l a x : load (a ++ x) 0 (zlen a) = Some a.
Proof. rewrite load_0 by (rewrite length_app; lia). now rewrite Nat2Z.id, take_app_0. Qed.

Lemma data_prefix_next c a x y m r :
  _len (vars c) <= zlen a -> zlen a <= m < 2 ^ 32 -> is_u32 (_len (vars c)) ->
  _syncGetData c (mkCur (a ++ x) (zlen a)) = Some r ->
  let a' := drop (Z.to_nat (_len (vars c))) a in
  snd r = mkCur (a' ++ x) (zlen a') /\
  _syncGetData c (mkCur (a ++ y) m) = Some (fst r, mkCur (a' ++ y) (m - (zlen a - zlen a'))).
Proof.
  intros Hl Hm Hu. unfold _syncGetData, is_u32 in *. cbn [csize cbuf].
  rewrite !(proj2 (Z.leb_le (_len _) _)) by lia. rewrite !load_0 by (rewrite length_app; lia). obind.
  rewrite !take_app_le by lia. destruct (writeData _ _ _ _) as [s|]; [|done]. obind.
  intros [= <-]. cbn [fst snd]. unfold advance. cbn [cbuf csize].
  rewrite !drop_app_le, length_drop by lia.
  rewrite (u32_small (zlen a - _)), (u32_small (m - _)) by (unfold is_u32; lia).
  split; repeat f_equal; lia.
Qed.

Lemma getData_split c a b y c1 :
  addressable (ctl c) -> is_u32 (_start (vars c)) -> is_u32 (_len (vars c)) ->
  a <> [] -> b <> [] -> zlen a < _len (vars c) -> zlen a + zlen b < 2 ^ 32 ->
  _syncGetData c (mkCur a (zlen a)) = Some (SYNC_CONTINUE, c1, mkCur [] 0) ->
  _syncGetData c (mkCur (a ++ b ++ y) (zlen a + zlen b)) = _syncGetData c1 (mkCur (b ++ y) (zlen b)).
Proof.
  intros Hs Hst Hlen Ha Hb Hlt Hsz. unfold _syncGetData. cbn [csize cbuf].
  rewrite (proj2 (Z.leb_gt (_len (vars c)) (zlen a))) by lia.
  rewrite <- (app_nil_r a) at 1. rewrite load_app_l. obind.
  destruct (writeData _ _ _ _) as [s1|] eqn:Hw; [|done]. obind. intros [= <- _]. cbn.
  pose proof (writeData_app (ctl c) (_id (vars c)) (_start (vars c)) a b Hs Hst Ha Hb) as [_ Hsm].
  specialize (Hsm s1 Hw). unfold is_u32 in *.
  rewrite (u32_small (_len (vars c) - zlen a)) by (unfold is_u32; lia).
  assert (Hwr : forall d, d <> [] -> writeData (ctl c) (_id (vars c)) (_start (vars c)) (a ++ d) =
    writeData s1 (_id (vars c)) (_start (vars c) +u zlen a) d).
  { intros d Hd. pose proof (writeData_app (ctl c) (_id (vars c)) (_start (vars c)) a d Hs Hst Ha Hd) as [<- _].
    rewrite Hw. done. }
  assert (Lb : 0 < zlen b) by (destruct b; simpl; done || lia).
  destruct (Z.leb_spec (_len (vars c)) (zlen a + zlen b)).
  - rewrite (proj2 (Z.leb_le (_len (vars c) - zlen a) (zlen b))) by lia.
    rewrite !load_0 by (rewrite ?length_app; lia). obind.
    replace (Z.to_nat (_len (vars c))) with (length a + Z.to_nat (_len (vars c) - zlen a))%nat by lia.
    rewrite take_app_add. set (d := take _ (b ++ y)).
    assert (Ld : zlen d = _len (vars c) - zlen a).
    { unfold d. rewrite length_take, length_app. lia. }
    rewrite Hwr by (intros E; rewrite E in Ld; simpl in Ld; lia).
    destruct (writeData s1 _ _ d) as [s2|]; [|done]. obind. unfold advance, with_vars, with_ctl, set_range. cbn.
    rewrite <- Ld. rewrite Nat2Z.id.
    replace (Z.to_nat (_len (vars c))) with (length a + length d)%nat by lia.
    rewrite drop_app_add. unfold u32. rewrite Zplus_mod_idemp_l.
    replace (_start (vars c) + _len (vars c)) with (_start (vars c) + zlen a + zlen d) by lia.
    replace (zlen a + zlen b - _len (vars c)) with (zlen b - zlen d) by lia. done.
  - rewrite (proj2 (Z.leb_gt (_len (vars c) - zlen a) (zlen b))) by lia.
    rewrite app_assoc. replace (zlen a + zlen b) with (zlen (a ++ b)) by (rewrite length_app; lia).
    rewrite !load_app_l. obind. rewrite Hwr by done.
    destruct (writeData s1 _ _ b) as [s2|]; [|done]. obind. unfold advance, with_vars, with_ctl, set_range. cbn.
    rewrite !Nat2Z.id, !drop_app_0, !Z.sub_diag. unfold u32. rewrite Zplus_mod_idemp_l, length_app.
    rewrite Nat2Z.inj_add, Z.add_assoc, Z.sub_add_distr. done.
Qed.

(** The parser's invariant: no partial token is ever buffered, the range is in
    [uint32] and the buffers are addressable. *)
Record sane c : Prop := {
  sane_ofst : _ofst (vars c) = 0;
  sane_start : is_u32 (_start (vars c));
  sane_len : is_u32 (_len (vars c));
  sane_addr : addressable (ctl c) }.

Lemma sane_state c st : sane c -> sane (with_vars c (set_state (vars c) st)).
Proof. by intros []; split. Qed.

Lemma head_sane c cur ret c' cur' :
  sane c -> csize cur <> 0 -> _syncGetHead c cur = Some (ret, c', cur') -> sane c'.
Proof.
  intros [Ho Hs Hl Ha] Hc. unfold _syncGetHead.
  destruct (__getToken _ _) as [[[got v] cu]|] eqn:Ht; [|done]. obind.
  apply getToken_cases in Ht; [|done..]. destruct got; cbn [negb].
  - destruct Ht as (? & -> & ? & ->). repeat case_match; intros; simplify_eq; done.
  - destruct Ht as (? & -> & ->). intros; simplify_eq. done.
Qed.

Lemma body_sane c cur ret c' cur' :
  sane c -> csize cur <> 0 -> _syncGetBody c cur = Some (ret, c', cur') -> sane c'.
Proof.
  intros [Ho Hs Hl Ha] Hc. unfold _syncGetBody.
  destruct (__getToken _ _) as [[[got v] cu]|] eqn:Ht; [|done]. obind.
  apply getToken_cases in Ht; [|done..]. destruct got; cbn [negb].
  - destruct Ht as (? & -> & ? & ->). destruct (_ =? tk_type _).
    + destruct (negb _); [intros; simplify_eq; done|].
      destruct (_markDirtyInfo _ _ _ _) as [s|] eqn:Hm; [|done]. obind. intros; simplify_eq.
      split; [done|apply u32_range..|]. eauto using markDirty_addressable.
    + repeat case_match; intros; simplify_eq; done.
  - destruct Ht as (? & -> & ->). intros; simplify_eq. done.
Qed.

Lemma data_sane c cur ret c' cur' :
  sane c -> _syncGetData c cur = Some (ret, c', cur') -> sane c'.
Proof.
  intros [Ho Hs Hl Ha]. unfold _syncGetData. destruct (_ <=? _).
  all: destruct (load _ _ _); [|done]; obind; destruct (writeData _ _ _ _) eqn:Hw; [|done]; obind.
  all: intros; simplify_eq; (split; [done|cbn; try apply u32_range; done..|]).
  all: eauto using writeData_addressable.
Qed.

(** Whatever ends the loop with a reset clears the busy flag. *)
Lemma reset_idle b c r : _syncReset is_cali_mode b c = Some r -> _syncBusy (vars (snd r)) = 0.
Proof.
  unfold _syncReset. destruct b.
  - destruct (backupData _ _ _ _) as [[[? ?] ?]|]; [|done]. obind. intros [= <-]. done.
  - destruct (if negb _ then _ else _); [|done]. obind. intros [= <-]. done.
Qed.

Lemma turn_sane c cur ret c' cur' :
  sane c -> csize cur <> 0 -> turn c cur = Some (ret, c', cur') -> sane c'.
Proof.
  intros Hc Hn. unfold turn. repeat case_match; eauto using head_sane, body_sane, data_sane.
Qed.

(** A turn that succeeds on [a] succeeds on every extension of [a] with the
    same effect. *)
Lemma turn_next_prefix c a x y m c' cur' :
  sane c -> zlen a <> 0 -> 0 <= m -> zlen a + m < 2 ^ 32 ->
  turn c (mkCur (a ++ x) (zlen a)) = Some (SYNC_NEXT, c', cur') ->
  exists a', (length a' <= length a)%nat /\ cur' = mkCur (a' ++ x) (zlen a') /\
    turn c (mkCur (a ++ y) (zlen a + m)) = Some (SYNC_NEXT, c', mkCur (a' ++ y) (zlen a' + m)).
Proof.
  intros Hc Ha Hm Hsz. pose proof (sane_ofst c Hc) as Ho. unfold turn.
  assert (Sz : 20 <= zlen a -> (zlen a -u 20) = zlen (drop 20 a) /\ (zlen a + m -u 20) = zlen (drop 20 a) + m).
  { intros. rewrite length_drop, !u32_small by (unfold is_u32; lia). lia. }
  case_match; [|case_match]; intros Hh.
  - pose proof (head_cases c (mkCur (a ++ x) (zlen a)) _ _ _ Ho Ha Hh) as (_ & _ & _ & H20 & _ & _). cbn [csize] in H20.
    destruct (head_prefix c a x (zlen a) y (zlen a + m) _ Ho H20 H20 ltac:(lia) Hh) as [Ecur ->].
    destruct (Sz H20) as [S1 S2]. rewrite S1 in Ecur. rewrite S2. exists (drop 20 a).
    split_and!; [rewrite length_drop; lia|done..].
  - pose proof (body_cases c (mkCur (a ++ x) (zlen a)) _ _ _ Ho Ha Hh) as (_ & _ & H20 & _ & _). cbn [csize] in H20.
    destruct (body_prefix c a x (zlen a) y (zlen a + m) _ Ho H20 H20 ltac:(lia) Hh) as [Ecur ->].
    destruct (Sz H20) as [S1 S2]. rewrite S1 in Ecur. rewrite S2. exists (drop 20 a).
    split_and!; [rewrite length_drop; lia|done..].
  - pose proof (data_cases c (mkCur (a ++ x) (zlen a)) _ _ _ Ho Ha Hh) as (_ & _ & Hl). cbn [csize] in Hl.
    destruct (data_prefix_next c a x y (zlen a + m) _ Hl ltac:(lia) (sane_len c Hc) Hh) as [Ecur ->].
    exists (drop (Z.to_nat (_len (vars c))) a). cbn [fst snd] in *.
    split_and!; [rewrite length_drop; lia|done|]. repeat f_equal. rewrite length_drop. lia.
Qed.

Lemma turn_continue_split c a b x y c1 cur' :
  sane c -> zlen a <> 0 -> b <> [] -> zlen a + zlen b < 2 ^ 32 -> csize cur' = 0 ->
  turn c (mkCur (a ++ x) (zlen a)) = Some (SYNC_CONTINUE, c1, cur') ->
  _syncState (vars c1) = _syncState (vars c) /\
  turn c (mkCur (a ++ b ++ y) (zlen a + zlen b)) = turn c1 (mkCur (b ++ y) (zlen b)).
Proof.
  intros Hc Ha Hb Hsz H0 Ht.
  destruct (turn_cases c (mkCur (a ++ x) (zlen a)) _ _ _ (sane_ofst c Hc) Ha Ht) as [_ [?|(N0 & N1 & Hl)]]; [done|].
  cbn [csize] in Hl. unfold turn in *. rewrite !(proj2 (Z.eqb_neq (_syncState (vars c)) _)) in * by done.
  assert (E : _syncState (vars c1) = _syncState (vars c)).
  { unfold _syncGetData in Ht. rewrite (proj2 (Z.leb_gt _ _)) in Ht by done.
    destruct (load _ _ _); [|done]. cbn [mbind option_bind] in Ht.
    destruct (writeData _ _ _ _); [|done]. cbn [mbind option_bind] in Ht. by injection Ht as <- _. }
  split; [done|]. rewrite E, !(proj2 (Z.eqb_neq (_syncState (vars c)) _)) by done.
  destruct Hc. apply getData_split; try done; [by destruct a|].
  unfold _syncGetData in Ht |- *. cbn [csize cbuf] in *. rewrite (proj2 (Z.leb_gt _ _)) in * by done.
  rewrite load_app_l in Ht. rewrite <- (app_nil_r a) at 1. rewrite load_app_l. cbn [mbind option_bind] in *.
  destruct (writeData _ _ _ _); [|done]. cbn [mbind option_bind] in *. injection Ht as <- <-.
  unfold advance. cbn. rewrite Nat2Z.id, drop_ge, Z.sub_diag by lia. done.
Qed.

(** C31: packets are transparent.  A packet that the parser consumes to its last
    byte without finishing the request leaves the parser exactly where the
    first part of a longer packet would: parsing [a] and then [b] gives the
    state and the answer of parsing [a ++ b], whatever padding follows. *)
Theorem drain_split c a b x y c1 r :
  sane c -> b <> [] -> zlen a + zlen b < 2 ^ 32 ->
  drain_all c (mkCur (a ++ x) (zlen a)) = Some (c1, r, 0) -> _syncBusy (vars c1) = 1 ->
  drain_all c (mkCur (a ++ b ++ y) (zlen a + zlen b)) = drain_all c1 (mkCur (b ++ y) (zlen b)).
Proof.
  intros Hc Hb Hsz Hd Hbusy. remember (cost c (mkCur (a ++ x) (zlen a))) as n eqn:En.
  revert c a En Hc Hsz Hd. induction n as [n IH] using lt_wf_ind. intros c a En Hc Hsz Hd.
  rewrite drain_all_turn in Hd by apply Hc. cbn [csize cbuf] in Hd.
  destruct (Z.eqb_spec (zlen a) 0) as [E|Ha].
  { injection Hd as <- <-. destruct a; [|done]. done. }
  destruct (turn c (mkCur (a ++ x) (zlen a))) as [[[ret c'] cur']|] eqn:Ht; [|done].
  cbn [mbind option_bind] in Hd. pose proof (turn_sane c (mkCur (a ++ x) (zlen a)) _ _ _ Hc Ha Ht) as Hc'.
  assert (Hb0 : 0 < zlen b) by (destruct b; simpl; done || lia).
  rewrite (drain_all_turn c) by apply Hc. cbn [csize]. rewrite (proj2 (Z.eqb_neq (_ + _) 0)) by lia.
  pose proof (turn_cases c (mkCur (a ++ x) (zlen a)) _ _ _ (sane_ofst c Hc) Ha Ht) as [_ Hr].
  destruct ret.
  - injection Hd as -> _ H0.
    destruct (turn_continue_split c a b x y c1 cur' Hc Ha Hb Hsz H0 Ht) as [Es ->].
    rewrite (drain_all_turn c1) by apply Hc'. cbn [csize]. rewrite (proj2 (Z.eqb_neq (zlen b) 0)), Es by lia. done.
  - destruct (turn_next_prefix c a x (b ++ y) (zlen b) c' cur' Hc Ha ltac:(lia) Hsz Ht) as (a' & La & -> & ->).
    cbn [mbind option_bind]. eapply IH; [| reflexivity | by apply sane_state | lia | done]. lia.
  - destruct (_syncReset _ _ _) as [v|] eqn:Hv; [|done]. cbn [mbind option_bind] in Hd.
    injection Hd as <- _ _. apply reset_idle in Hv. congruence.
  - destruct (_syncReset _ _ _) as [v|] eqn:Hv; [|done]. cbn [mbind option_bind] in Hd.
    injection Hd as <- _ _. apply reset_idle in Hv. congruence.
Qed.
End Drain.

(** ** What the modem sends *)
Definition token (ty idx pt start num : Z) : list Z :=
  le32 ty ++ le32 idx ++ le32 pt ++ le32 start ++ le32 num.

(** A block of a request: its first sector and its data. *)
Record block := mkBlock { blk_start : Z; blk_data : list Z }.
Definition blk_num (b : block) : Z := zlen (blk_data b) / 512.
Definition wf_block (n : Z) (b : block) : Prop :=
  0 <= blk_start b /\ 0 < blk_num b /\ zlen (blk_data b) = 512 * blk_num b /\
  blk_start b + blk_num b <= n.

Fixpoint encode_blocks (pt idx : Z) (bs : list block) : list Z :=
  match bs with
  | [] => token SYNC_REQ_TAIL idx pt 0 0
  | b :: r => token SYNC_REQ_BODY idx pt (blk_start b) (blk_num b) ++ blk_data b
              ++ encode_blocks pt (idx +u 1) r
  end.
Definition encode_request (pt idx : Z) (bs : list block) : list Z :=
  token SYNC_REQ_HEAD idx pt 512 0 ++ encode_blocks pt (idx +u 1) bs.

(** The image after the blocks and the sectors they cover. *)
Definition apply_block (m : list Z) (b : block) : list Z :=
  splice m (Z.to_nat (512 * blk_start b)) (blk_data b).
Definition apply_blocks (m : list Z) (bs : list block) : list Z := foldl apply_block m bs.
Definition covers (k : Z) (b : block) : bool := (blk_start b <=? k) && (k <? blk_start b + blk_num b).

Lemma token_length ty idx pt start num : length (token ty idx pt start num) = 20%nat.
Proof. unfold token. now rewrite !length_app, !le_enc_length. Qed.

Lemma get32_after z r off : get32 (le32 z ++ r) (4 + off) = get32 r off.
Proof. rewrite <- (le_enc_length 4 z) at 1. apply get32_skip. Qed.

Lemma token_fields v ty idx pt start num r o :
  is_u32 ty -> is_u32 idx -> is_u32 pt -> is_u32 start -> is_u32 num ->
  let v' := set_token v (token ty idx pt start num ++ r) o in
  tk_type v' = ty /\ tk_reqIdx v' = idx /\ tk_partId v' = pt /\ tk_start v' = start /\ tk_num v' = num.
Proof.
  intros ? ? ? ? ? v'. subst v'. unfold tk_type, tk_reqIdx, tk_partId, tk_start, tk_num, token, set_token.
  cbn [syncReqBuf]. rewrite <- !app_assoc.
  split_and!; [| change 4%nat with (4 + 0)%nat | change 8%nat with (4 + (4 + 0))%nat
    | change 12%nat with (4 + (4 + (4 + 0)))%nat | change 16%nat with (4 + (4 + (4 + (4 + 0))))%nat];
    rewrite ?get32_after; now apply get32_le32.
Qed.

Lemma tk_start_frame v f : tk_start (set_frame v f) = tk_start v.
Proof. done. Qed.
Lemma tk_num_frame v f : tk_num (set_frame v f) = tk_num v.
Proof. done. Qed.

Section Request.
Context {D : Type} `{RamDisk D}.
Implicit Types (c : core D).
Abbreviation drain_all := (drain_all false).

(** The parser between two tokens of a request on partition [i], which is [p]. *)
Record between c (i : Z) (p : PART_CTRL) : Prop := {
  bt_state : _syncState (vars c) = 1;
  bt_ofst : _ofst (vars c) = 0;
  bt_buf : length (syncReqBuf (vars c)) = 80%nat;
  bt_id : _id (vars c) = i;
  bt_get : get_part (ctl c) i = Some p;
  bt_wf : wf_part p;
  bt_frame : is_u32 (syncReqFrame (vars c)) }.

(** One block. *)
Lemma drain_block c i p pt b rest n :
  between c i p -> sctNum p <= 1024 -> wf_block (sctNum p) b -> is_u32 pt ->
  0 <= n < 2 ^ 32 - 20 - zlen (blk_data b) -> n <= zlen rest ->
  exists c' q,
    drain_all c (mkCur (token SYNC_REQ_BODY (syncReqFrame (vars c) +u 1) pt (blk_start b) (blk_num b)
                        ++ blk_data b ++ rest) (20 + zlen (blk_data b) + n)) =
    drain_all c' (mkCur rest n) /\
    between c' i q /\ ctl c' = put_part (ctl c) i q /\ disk c' = disk c /\ events c' = events c /\
    syncReqFrame (vars c') = (syncReqFrame (vars c) +u 1) /\
    working q = apply_block (working p) b /\ backup q = backup p /\ sctNum q = sctNum p /\
    forall k, 0 <= k -> dirty_bit (dirty (fromChannel q)) k =
      dirty_bit (dirty (fromChannel p)) k || covers k b.
Proof.
  intros [St Ho Lb Hi Hg Hw Hf] Hsct (B0 & B1 & B2 & B3) Hpt Hn Hrest.
  pose proof (wf_sct p Hw) as Hs.
  rewrite drain_all_turn by done. cbn [csize]. rewrite (proj2 (Z.eqb_neq _ 0)) by lia.
  unfold turn. rewrite St. change (1 =? 0) with false. change (1 =? 1) with true. cbv iota.
  unfold _syncGetBody. rewrite getToken_whole by (done || apply token_length || lia). obind. cbn [negb].
  rewrite !tk_start_frame, !tk_num_frame.
  destruct (token_fields (vars c) SYNC_REQ_BODY (syncReqFrame (vars c) +u 1) pt (blk_start b) (blk_num b)
    (drop 20 (syncReqBuf (vars c))) 0) as (-> & -> & _ & -> & ->); [unfold is_u32, SYNC_REQ_BODY; lia|apply u32_range|done|unfold is_u32; lia..|].
  rewrite !Z.eqb_refl. cbn [negb].
  destruct (markDirty_spec (ctl c) i p Hw Hg (blk_start b) (blk_num b)) as (t & Hm & Hwt & Hbit); [lia..|].
  cbn [set_frame set_token _id]. rewrite Hi, Hm. obind.
  set (p1 := set_fromChannel p _) in *. set (c1 := go_next _ 1).
  assert (G1 : get_part (ctl c1) i = Some p1) by (cbn; eauto using get_put_eq).
  rewrite drain_all_turn by done. cbn [csize]. rewrite (proj2 (Z.eqb_neq _ 0)) by lia.
  unfold turn. change (_syncState (vars c1)) with 2. change (2 =? 0) with false. change (2 =? 1) with false. cbv iota.
  unfold _syncGetData. change (_len (vars c1)) with (blk_num b *u RAMNV_SECT_SIZE).
  unfold RAMNV_SECT_SIZE. rewrite (u32_small (blk_num b * 512)) by (unfold is_u32; lia). cbn [csize cbuf].
  rewrite (proj2 (Z.leb_le (blk_num b * 512) _)) by lia.
  replace (blk_num b * 512) with (zlen (blk_data b)) by lia. rewrite load_app_l. obind.
  change (_id (vars c1)) with (_id (vars c)). change (_start (vars c1)) with (blk_start b *u 512).
  rewrite Hi, (u32_small (blk_start b * 512)) by (unfold is_u32; lia).
  destruct (writeData_spec (ctl c1) i p1 Hwt G1 (blk_start b * 512) (blk_data b))
    as (q & -> & Hq & Wq & Bq & Tq & Sq & _ & _ & Dq);
    [lia|change (sctNum p1) with (sctNum p); lia|intros E; rewrite E in B2; simpl in B2; lia|]. obind.
  unfold advance. cbn [cbuf csize]. rewrite Nat2Z.id, drop_app_0.
  replace (20 + zlen (blk_data b) + n - 20 - zlen (blk_data b)) with n by lia. rewrite (u32_small n) by (unfold is_u32; lia).
  change (ctl c1) with (put_part (ctl c) i p1). rewrite put_put.
  eexists _, q. split; [reflexivity|]. split_and!; try done.
  - split; try done; cbn -[token app drop u32].
    + rewrite length_app, token_length, length_drop. lia.
    + eauto using get_put_eq.
    + apply u32_range.
  - rewrite Wq. unfold apply_block. rewrite (Z.mul_comm 512). done.
  - intros k Hk. rewrite Dq. apply Hbit. done.
Qed.

Lemma encode_blocks_length pt idx bs : 20 <= zlen (encode_blocks pt idx bs).
Proof.
  destruct bs; cbn [encode_blocks]; rewrite ?length_app, token_length; lia.
Qed.

Lemma dirty_bit_or a b k :
  length a = length b -> 0 <= k -> dirty_bit (or_dirty a b) k = dirty_bit a k || dirty_bit b k.
Proof.
  intros Hl Hk. unfold dirty_bit, or_dirty. set (j := Z.to_nat (k / 32)).
  destruct (a !! j) as [x|] eqn:Ha.
  - destruct (lookup_lt_is_Some_2 b j) as [y Hb]; [apply lookup_lt_Some in Ha; lia|].
    rewrite (nth_lookup_Some _ _ 0 _ Ha), (nth_lookup_Some _ _ 0 _ Hb), <- Z.lor_spec.
    erewrite nth_lookup_Some; [done|]. rewrite lookup_zip_with, Ha. cbn. rewrite Hb. done.
  - apply lookup_ge_None in Ha.
    rewrite !nth_overflow by (rewrite ?length_zip_with; lia). now rewrite Z.bits_0.
Qed.

(** What a finished request leaves behind. *)
Record committed_by c c' (i : Z) (p q : PART_CTRL) (bs : list block) : Prop := {
  cb_ctl : ctl c' = put_part (ctl c) i q;
  cb_wf : wf_part q;
  cb_idle : _syncState (vars c') = 0 /\ _syncBusy (vars c') = 0 /\ _ofst (vars c') = 0;
  cb_event : events c' = S (events c) /\ disk c' = disk c;
  cb_image : working q = apply_blocks (working p) bs /\ committed q = working q;
  cb_dirty k : 0 <= k -> dirty_bit (dirty (backup q)) k =
    dirty_bit (dirty (backup p)) k || dirty_bit (dirty (fromChannel p)) k || existsb (covers k) bs }.

Lemma drain_tail c i p pt pad :
  between c i p -> is_u32 pt ->
  exists c' q, drain_all c (mkCur (encode_blocks pt (syncReqFrame (vars c) +u 1) [] ++ pad) 20) = Some (c', Some 1, 0) /\
    committed_by c c' i p q [].
Proof.
  intros [St Ho Lb Hi Hg Hw Hf] Hpt. cbn [encode_blocks].
  rewrite drain_all_turn by done. cbn [csize]. change (20 =? 0) with false. cbv iota.
  unfold turn. rewrite St. change (1 =? 0) with false. change (1 =? 1) with true. cbv iota.
  unfold _syncGetBody. rewrite getToken_whole by (done || apply token_length || lia). obind. cbn [negb].
  destruct (token_fields (vars c) SYNC_REQ_TAIL (syncReqFrame (vars c) +u 1) pt 0 0
    (drop 20 (syncReqBuf (vars c))) 0) as (-> & Hr & _ & _ & _); [unfold is_u32, SYNC_REQ_TAIL; lia|apply u32_range|done|unfold is_u32; lia..|].
  change (SYNC_REQ_BODY =? SYNC_REQ_TAIL) with false. cbv iota. rewrite Hr, !Z.eqb_refl. cbn [negb]. obind.
  unfold _syncReset. cbn [vars with_vars set_frame set_token _id ctl disk]. unfold backupData. rewrite Hi.
  destruct (backup_copy_spec (ctl c) i p Hw Hg) as (q & -> & Wq & Cq & Fq & Tq & Sq & _ & _ & Dq). obind.
  eexists _, q. split; [reflexivity|]. pose proof Hw as [? [? Lf] [? Lk] ?].
  assert (Ew : working q = working p) by (unfold working, img; now rewrite Fq, Sq).
  split; try done.
  - by rewrite Ew, Cq.
  - intros k Hk. rewrite Dq, dirty_bit_or by congruence. cbn. now rewrite orb_false_r.
Qed.

Lemma drain_blocks bs c i p pt pad :
  between c i p -> sctNum p <= 1024 -> Forall (wf_block (sctNum p)) bs -> is_u32 pt ->
  let e := encode_blocks pt (syncReqFrame (vars c) +u 1) bs in
  zlen e < 2 ^ 32 ->
  exists c' q, drain_all c (mkCur (e ++ pad) (zlen e)) = Some (c', Some 1, 0) /\
    committed_by c c' i p q bs.
Proof.
  cbn zeta. intros Hb Hs Hbs Hpt. revert c p Hb Hs Hbs.
  induction bs as [|b bs IH]; intros c p Hb Hs Hbs Hsz.
  { change (zlen (encode_blocks pt (syncReqFrame (vars c) +u 1) [])) with 20. eauto using drain_tail. }
  inversion Hbs as [|? ? Hwb Hbs']; subst. clear Hbs. rename Hbs' into Hbs. cbn [encode_blocks] in *.
  pose proof (encode_blocks_length pt (syncReqFrame (vars c) +u 1 +u 1) bs) as He.
  set (e := encode_blocks pt _ bs) in *. rewrite !length_app, token_length in *. rewrite <- !app_assoc.
  destruct (drain_block c i p pt b (e ++ pad) (zlen e) Hb Hs Hwb Hpt)
    as (c1 & q1 & Hd & Hb1 & C1 & D1 & E1 & F1 & W1 & B1 & S1 & Dr1); [lia|rewrite length_app; lia|].
  replace (Z.of_nat (20 + (length (blk_data b) + length e))) with (20 + zlen (blk_data b) + zlen e) by lia.
  rewrite Hd. unfold e in *. rewrite <- F1 in *.
  destruct (IH c1 q1 Hb1) as (c' & q & -> & [Cc Wc Ic Ec Mc Dc]); [by rewrite S1..|lia|].
  exists c', q. split; [done|]. split; try done.
  - by rewrite Cc, C1, put_put.
  - by rewrite <- E1, <- D1.
  - destruct Mc as [-> ->]. by rewrite W1.
  - intros k Hk. rewrite Dc, B1, Dr1 by done. cbn [existsb]. by rewrite !orb_assoc.
Qed.

(** C2: a well-formed request commits.  Outside calibration mode and from the
    idle state, the stream of a request on a known partition (a head, any
    number of blocks inside the partition, a tail) that the loop of
    [syncAnalyzer] finds under one packet cursor is consumed to its end,
    answered with success, and leaves the parser idle; the committed image of
    the partition is its working image with every block written in order, the
    backup's dirty table becomes the union of the backup's old one, the
    channel's one (which a commit never clears) and the sectors the blocks
    cover, the saving task is signalled once and no other partition is
    touched.  The partition has at most 1024 sectors, those its dirty table
    has bits for, and the stream is shorter than 2^32 bytes. *)
Theorem sync_request_commits c i p pt idx bs pad :
  _syncState (vars c) = 0 -> _ofst (vars c) = 0 -> length (syncReqBuf (vars c)) = 80%nat ->
  is_u32 pt -> is_u32 idx -> getCtlId (ctl c) pt = i -> i <> 0xFFFFFFFF ->
  get_part (ctl c) i = Some p -> wf_part p -> sctNum p <= 1024 ->
  Forall (wf_block (sctNum p)) bs -> zlen (encode_request pt idx bs) < 2 ^ 32 ->
  exists c' q,
    drain_all c (mkCur (encode_request pt idx bs ++ pad) (zlen (encode_request pt idx bs))) =
      Some (c', Some 1, 0) /\
    committed_by c c' i p q bs /\
    (forall j, j <> i -> get_part (ctl c') j = get_part (ctl c) j).
Proof.
  intros St Ho Lb Hpt Hidx Hi Hne Hg Hw Hs Hbs. unfold encode_request.
  rewrite length_app, token_length, <- app_assoc. intros Hsz.
  pose proof (encode_blocks_length pt (idx +u 1) bs) as He. set (e := encode_blocks _ _ _) in *.
  rewrite drain_all_turn by done. cbn [csize]. rewrite (proj2 (Z.eqb_neq _ 0)) by lia.
  unfold turn. rewrite St. change (0 =? 0) with true. cbv iota.
  unfold _syncGetHead. rewrite getToken_whole by (done || apply token_length || lia). obind. cbn [negb].
  set (v := set_token _ _ _).
  destruct (token_fields (vars c) SYNC_REQ_HEAD idx pt 512 0
    (drop 20 (syncReqBuf (vars c))) 0) as (Ty & Ix & Pt & _ & _); [unfold is_u32, SYNC_REQ_HEAD; lia|done|done|unfold is_u32; lia..|].
  fold v in Ty, Ix, Pt. rewrite Ty, Ix. change (tk_partId (set_frame v idx)) with (tk_partId v). rewrite Pt, Hi.
  change (SYNC_REQ_HEAD =? SYNC_REQ_HEAD) with true. cbn [negb].
  change (_id (set_id (set_frame v idx) i)) with i. rewrite (proj2 (Z.eqb_neq _ i)) by congruence. obind.
  set (c1 := go_next _ 0).
  assert (Hb : between c1 i p).
  { split; try done. cbn -[token app drop]. rewrite length_app, token_length, length_drop. lia. }
  replace (Z.of_nat (20 + length e) - 20) with (zlen e) by lia.
  destruct (drain_blocks bs c1 i p pt pad Hb Hs Hbs Hpt) as (c' & q & Hd & Hc); [unfold e in *; cbn -[encode_blocks u32]; lia|].
  exists c', q. split; [exact Hd|]. split; [by destruct Hc; split|].
  intros j Hj. rewrite (cb_ctl _ _ _ _ _ _ Hc). apply get_put_ne; [done|]. eauto using get_part_nonneg.
Qed.

(** ** Errors *)
Record rolled_back c c' (i : Z) (p : PART_CTRL) : Prop := {
  rb_part : exists q, ctl c' = put_part (ctl c) i q /\ wf_part q /\ working q = committed p /\
    dirty (fromChannel q) = dirty (backup p) /\ backup q = backup p /\ toDisk q = toDisk p;
  rb_vars : vars c' = _syncInit (vars c);
  rb_rest : disk c' = disk c /\ events c' = events c }.

Lemma reset_rolls_back cali c p :
  _syncState (vars c) <> 0 -> get_part (ctl c) (_id (vars c)) = Some p -> wf_part p ->
  exists c', _syncReset cali false c = Some (1, c') /\ rolled_back c c' (_id (vars c)) p.
Proof.
  intros St Hg Hw. unfold _syncReset. rewrite (proj2 (Z.eqb_neq _ 0)) by done. cbn [negb].
  destruct (restoreData_spec _ _ p Hw Hg) as (q & -> & Wq & Cq & Bq & Tq & _ & _ & _ & Dq). obind.
  eexists. split; [done|]. split; try done. by exists q.
Qed.

(** C34: a request that is interrupted leaves no trace.  When [_getPacket]
    reports PACKET_FAIL (a read that returned fewer bytes than a packet), or a
    packet opens a new group while a request is in progress, the working image
    and its dirty table become the committed ones again and the parser is
    re-initialised; [syncAnalyzer] then returns, or treats the new packet as it
    would from the idle state.  A [read] that fails with -1 is not among these
    interruptions: the channel takes it for success and [_getPacket] never
    reports PACKET_FAIL for it ([read_error_never_fails]). *)
Theorem interrupted_request_rolls_back cali c pk ev pk' code cur p :
  _syncState (vars c) <> 0 -> get_part (ctl c) (_id (vars c)) = Some p -> wf_part p ->
  _getPacket pk ev = Some (pk', code, cur) ->
  exists c', rolled_back c c' (_id (vars c)) p /\
    (code = PACKET_FAIL -> sync_turn cali c pk ev = Some (c', pk', None)) /\
    (code = PACKET_START -> _syncBusy (vars c) <> 0 ->
     sync_turn cali c pk ev = sync_turn cali c' pk ev).
Proof.
  intros St Hg Hw Hp. destruct (reset_rolls_back cali c p St Hg Hw) as (c' & Hr & Hrb).
  exists c'. split; [done|]. unfold sync_turn. rewrite Hp. obind. destruct cur as [body size].
  split; intros ->.
  - rewrite Hr. done.
  - intros Hb. rewrite (proj2 (Z.eqb_neq _ 0)) by done. cbn [negb]. rewrite Hr. obind. cbn [snd].
    destruct Hrb as [_ -> _]. done.
Qed.

(** A token that is neither a body nor a tail, or that skips an index, is
    answered with failure and rolls the request back. *)
Lemma bad_token_rolls_back cali c i p ty idx pt start num rest n :
  between c i p -> is_u32 ty -> is_u32 idx -> is_u32 pt -> is_u32 start -> is_u32 num ->
  20 <= n < 2 ^ 32 ->
  (ty <> SYNC_REQ_BODY /\ ty <> SYNC_REQ_TAIL) \/ idx <> (syncReqFrame (vars c) +u 1) ->
  exists c0 c', NvSync.drain_all cali c (mkCur (token ty idx pt start num ++ rest) n) =
      Some (c', Some 0, n - 20) /\
    ctl c0 = ctl c /\ disk c0 = disk c /\ events c0 = events c /\ rolled_back c0 c' i p.
Proof.
  intros [St Ho Lb Hi Hg Hw Hf] ? ? ? ? ? Hn Hbad.
  rewrite drain_all_turn by done. cbn [csize]. rewrite (proj2 (Z.eqb_neq _ 0)) by lia.
  unfold turn. rewrite St. change (1 =? 0) with false. change (1 =? 1) with true. cbv iota.
  unfold _syncGetBody. rewrite getToken_whole by (done || apply token_length || lia). obind. cbn [negb].
  set (v := set_token _ _ _).
  destruct (token_fields (vars c) ty idx pt start num (drop 20 (syncReqBuf (vars c))) 0)
    as (Ty & Ix & _ & _ & _); [done..|]. fold v in Ty, Ix. rewrite Ty, Ix.
  destruct (reset_rolls_back cali (with_vars c v) p) as (c' & Hr & Hrb); [cbn; by rewrite St|cbn; by rewrite Hi|done|].
  exists (with_vars c v), c'. split; [|split_and!; try done; cbn in Hrb; by rewrite Hi in Hrb].
  change (syncReqFrame v) with (syncReqFrame (vars c)).
  destruct (Z.eqb_spec SYNC_REQ_BODY ty), (Z.eqb_spec SYNC_REQ_TAIL ty),
    (Z.eqb_spec (syncReqFrame (vars c) +u 1) idx); cbn [negb]; try (exfalso; unfold SYNC_REQ_BODY, SYNC_REQ_TAIL in *; lia).
  all: obind; rewrite Hr; done.
Qed.

(** A packet may not end inside a token.  The test of the size in
    [__getToken] is inverted: the bytes of an incomplete token are not
    buffered but dropped with the packet, which is answered as accepted, and
    the parser is where it was. *)
Lemma split_token_lost cali c a x :
  _ofst (vars c) = 0 -> _syncState (vars c) = 0 \/ _syncState (vars c) = 1 -> 0 < zlen a < 20 ->
  NvSync.drain_all cali c (mkCur (a ++ x) (zlen a)) = Some (c, Some 1, zlen a).
Proof.
  intros Ho Hst Ha. rewrite drain_all_turn by done. cbn [csize]. rewrite (proj2 (Z.eqb_neq _ 0)) by lia.
  unfold turn, _syncGetHead, _syncGetBody. rewrite getToken_short by done. obind. cbn [negb].
  destruct c. destruct Hst as [-> | ->]; done.
Qed.

(** A packet that ends exactly with the data of a block gets no answer at
    all, neither success nor failure, although the block was taken. *)
Lemma boundary_packet_unanswered c i p pt b pad :
  between c i p -> sctNum p <= 1024 -> wf_block (sctNum p) b -> is_u32 pt ->
  zlen (blk_data b) < 2 ^ 32 - 20 ->
  exists c' q,
    drain_all c (mkCur (token SYNC_REQ_BODY (syncReqFrame (vars c) +u 1) pt (blk_start b) (blk_num b)
                        ++ blk_data b ++ pad) (20 + zlen (blk_data b))) = Some (c', None, 0) /\
    get_part (ctl c') i = Some q /\ working q = apply_block (working p) b.
Proof.
  intros Hb Hs Hwb Hpt Hsz.
  destruct (drain_block c i p pt b pad 0 Hb Hs Hwb Hpt) as (c' & q & Hd & Hb' & _ & _ & _ & _ & Hq & _); [lia..|].
  rewrite Z.add_0_r in Hd. rewrite Hd, drain_all_turn by apply Hb'.
  exists c', q. split_and!; try done. apply Hb'.
Qed.
End Request.

(** ** A concrete device: one partition of one sector *)
Definition demo_part : PART_CTRL :=
  mkPart 1 1 (mkBuf (replicate 516 0) clean) (mkBuf (replicate 516 0) clean)
    (mkBuf (replicate 516 0) clean) 1.
Definition demo_core (st busy frame id start len : Z) : core fs :=
  mkCore (mkCtl 1 [demo_part]) ∅ (mkSync st busy frame (replicate 80 0) 0 id start len) 0.
Definition demo_block : block := mkBlock 0 (replicate 512 7).
#[local] Existing Instance fs_disk.

Lemma demo_part_wf : wf_part demo_part.
Proof. split; [cbn; lia|split; cbn; done || lia..]. Qed.

Lemma demo_between : between (demo_core 1 1 4 0 0 0) 0 demo_part.
Proof. split; first [done | apply demo_part_wf | cbn; unfold is_u32; lia]. Qed.

Lemma demo_block_wf : wf_block 1 demo_block.
Proof. unfold wf_block, blk_num, demo_block. vm_compute. split_and!; done. Qed.

Lemma demo_sane st busy frame id start len :
  is_u32 start -> is_u32 len -> sane (demo_core st busy frame id start len).
Proof.
  intros. split; try done. intros i p. unfold get_part. case_match; [|done].
  destruct (Z.to_nat i) as [|n]; cbn; [intros [= <-]; cbn; lia|]. by destruct n.
Qed.

Lemma drain_split_witness :
  exists c1, drain_all (H := fs_disk ramdiskCfg_default) false (demo_core 2 1 4 0 0 512) (mkCur [1; 2; 3; 4; 5] 5) =
    drain_all (H := fs_disk ramdiskCfg_default) false c1 (mkCur [4; 5] 2).
Proof.
  eexists. apply (drain_split (H := fs_disk ramdiskCfg_default) false (demo_core 2 1 4 0 0 512) [1; 2; 3] [4; 5] [] [] _ (Some 1)).
  - apply demo_sane; unfold is_u32; lia.
  - discriminate.
  - simpl. lia.
  - vm_compute. reflexivity.
  - reflexivity.
Defined.

Lemma sync_request_commits_witness :
  exists c' q,
    drain_all (H := fs_disk ramdiskCfg_default) false (demo_core 0 1 0 0xFFFFFFFF 0 0)
      (mkCur (encode_request 1 9 [demo_block]) (zlen (encode_request 1 9 [demo_block]))) =
      Some (c', Some 1, 0) /\
    committed q = replicate 512 7.
Proof.
  destruct (sync_request_commits (H := fs_disk ramdiskCfg_default) (demo_core 0 1 0 0xFFFFFFFF 0 0)
    0 demo_part 1 9 [demo_block] []) as (c' & q & Hd & Hc & _).
  1-12: first [reflexivity | discriminate | apply demo_part_wf | unfold is_u32; lia | cbn; lia
              | apply Forall_singleton, demo_block_wf | vm_compute; reflexivity].
  exists c', q. split.
  - rewrite <- Hd. now rewrite app_nil_r.
  - destruct (cb_image _ _ _ _ _ _ Hc) as [Hw ->]. rewrite Hw. reflexivity.
Defined.

Lemma interrupted_request_rolls_back_witness :
  exists c', rolled_back (demo_core 1 1 4 0 0 0) c' 0 demo_part /\
    (PACKET_FAIL = PACKET_FAIL ->
     sync_turn (H := fs_disk ramdiskCfg_default) false (demo_core 1 1 4 0 0 0)
       (mkPacket (replicate 1044 0) 6 0) (RdData [1; 2]) =
     Some (c', mkPacket (1 :: 2 :: replicate 1042 0) 6 0, None)) /\
    (PACKET_FAIL = PACKET_START -> 1 <> 0 ->
     sync_turn (H := fs_disk ramdiskCfg_default) false (demo_core 1 1 4 0 0 0)
       (mkPacket (replicate 1044 0) 6 0) (RdData [1; 2]) =
     sync_turn (H := fs_disk ramdiskCfg_default) false c' (mkPacket (replicate 1044 0) 6 0) (RdData [1; 2])).
Proof.
  apply (interrupted_request_rolls_back (H := fs_disk ramdiskCfg_default) false (demo_core 1 1 4 0 0 0)
    (mkPacket (replicate 1044 0) 6 0) (RdData [1; 2]) (mkPacket (1 :: 2 :: replicate 1042 0) 6 0) PACKET_FAIL ([], 0) demo_part).
  - discriminate.
  - reflexivity.
  - apply demo_part_wf.
  - vm_compute. reflexivity.
Defined.

Lemma bad_token_rolls_back_witness :
  exists c0 c', drain_all (H := fs_disk ramdiskCfg_default) false (demo_core 1 1 4 0 0 0)
      (mkCur (token 1 7 1 0 1 ++ []) 20) = Some (c', Some 0, 20 - 20) /\
    ctl c0 = mkCtl 1 [demo_part] /\ disk c0 = ∅ /\ events c0 = 0%nat /\ rolled_back c0 c' 0 demo_part.
Proof.
  apply (bad_token_rolls_back (H := fs_disk ramdiskCfg_default) false (demo_core 1 1 4 0 0 0) 0 demo_part 1 7 1 0 1 [] 20).
  1: apply demo_between.
  1-5: unfold is_u32; lia.
  1: lia.
  right. discriminate.
Defined.

Lemma split_token_lost_witness :
  drain_all (H := fs_disk ramdiskCfg_default) false (demo_core 1 1 4 0 0 0) (mkCur ([1; 0; 0; 0] ++ []) 4) =
    Some (demo_core 1 1 4 0 0 0, Some 1, 4).
Proof.
  apply (split_token_lost (H := fs_disk ramdiskCfg_default) false (demo_core 1 1 4 0 0 0) [1; 0; 0; 0] []);
    [reflexivity | right; reflexivity | simpl; lia].
Defined.

Lemma boundary_packet_unanswered_witness :
  exists c' q,
    drain_all (H := fs_disk ramdiskCfg_default) false (demo_core 1 1 4 0 0 0)
      (mkCur (token SYNC_REQ_BODY 5 1 0 1 ++ replicate 512 7 ++ []) 532) = Some (c', None, 0) /\
    get_part (ctl c') 0 = Some q /\ working q = apply_block (working demo_part) demo_block.
Proof.
  apply (boundary_packet_unanswered (H := fs_disk ramdiskCfg_default) (demo_core 1 1 4 0 0 0) 0 demo_part 1 demo_block []).
  - apply demo_between.
  - simpl. lia.
  - apply demo_block_wf.
  - unfold is_u32. lia.
  - simpl. lia.
Defined.
