(* ===== verification/CmrMsg.v ===== *)
(** * The camera message queue (libcamera/sc8830/src/cmr_msg.c)

    A bounded queue between threads: a ring of [msg_count] messages with read
    and write pointers, a counter [msg_number], a mutex and a semaphore that
    counts the messages a reader may take.

    [cmr_msg_cxt] is the record of the code; the pointers are indices from
    [msg_head].  The code between [pthread_mutex_lock] and
    [pthread_mutex_unlock] of each operation is a function on it; an access
    outside the ring is [None].  The operations run concurrently: [step]
    interleaves the reads outside the lock, the critical sections and the
    semaphore calls of any number of threads. *)
From S2P Require Import Prelude.

Definition CMR_MSG_MAGIC_CODE : Z := 0xEFFEA55A.
Definition CMR_MSG_POLLING_PERIOD : Z := 200000000.
Definition CMR_MSG_SUCCESS : Z := 0.
Definition CMR_MSG_PARAM_ERR : Z := 1.
Definition CMR_MSG_INVALID_HANDLE : Z := 2.
Definition CMR_MSG_NO_OTHER_MSG : Z := 3.
Definition CMR_MSG_NO_MEM : Z := 4.
Definition CMR_MSG_OVERFLOW : Z := 5.
Definition CMR_MSG_UNDERFLOW : Z := 6.

Record cmr_msg := mkMsg { msg_type : Z; sub_msg_type : Z; data : Z; alloc_flag : Z }.
Definition zero_msg : cmr_msg := mkMsg 0 0 0 0.
Definition sizeof_cmr_msg : Z := 16.

Record cmr_msg_cxt := mkCxt {
  msg_sem : nat;
  msg_count : Z;
  msg_number : Z;
  msg_magic : Z;
  msg_mem : list cmr_msg;
  msg_write : Z;
  msg_read : Z }.

(** [cmr_msg_queue_create]; [malloc] gives the array, of as many messages as
    fit the wrapped product, or nothing. *)
Definition cmr_msg_queue_create (malloc_cxt : bool) (malloc : Z -> option (list cmr_msg))
    (count : Z) : Z * option cmr_msg_cxt :=
  if 0 =? count then (- CMR_MSG_PARAM_ERR, None) else
  if negb malloc_cxt then (- CMR_MSG_NO_MEM, None) else
  match malloc (count *u sizeof_cmr_msg) with
  | None => (- CMR_MSG_NO_MEM, None)
  | Some head => (CMR_MSG_SUCCESS, Some (mkCxt 0 count 0 CMR_MSG_MAGIC_CODE head 0 0))
  end.

(** The checks that open [cmr_msg_get], [cmr_msg_timedget], [cmr_msg_peak]: an
    error to return, or go on.  [h] is the handle, [None] for 0. *)
Definition check_args (h : option cmr_msg_cxt) (message_null : bool) : option Z :=
  match h with
  | None => Some (- CMR_MSG_PARAM_ERR)
  | Some c => if message_null then Some (- CMR_MSG_PARAM_ERR)
              else if negb (msg_magic c =? CMR_MSG_MAGIC_CODE) then Some CMR_MSG_INVALID_HANDLE
              else None
  end.

(** [cmr_msg_post] reads [msg_cxt->msg_write] in its first declaration, before
    the handle is checked: undefined ([None]) for the handle 0. *)
Definition post_enter (h : option cmr_msg_cxt) (message_null : bool) : option (Z + Z) :=
  c ← h;
  let ori_node := msg_write c in
  match check_args h message_null with Some e => Some (inl e) | None => Some (inr ori_node) end.

(** [p++] and the wrap at the end of the ring. *)
Definition next_slot (c : cmr_msg_cxt) (p : Z) : Z :=
  let p := p + 1 in if msg_count c - 1 <? p then 0 else p.

Definition set_ring (c : cmr_msg_cxt) (mem : list cmr_msg) (wr rd num : Z) : cmr_msg_cxt :=
  mkCxt (msg_sem c) (msg_count c) num (msg_magic c) mem wr rd.
Definition set_sem (c : cmr_msg_cxt) (s : nat) : cmr_msg_cxt :=
  mkCxt s (msg_count c) (msg_number c) (msg_magic c) (msg_mem c) (msg_write c) (msg_read c).

(** The critical section of [cmr_msg_get] and [cmr_msg_timedget]: the result,
    the message copied out, if any, and the queue. *)
Definition get_locked (c : cmr_msg_cxt) : option (Z * option cmr_msg * cmr_msg_cxt) :=
  if msg_number c =? 0 then Some (CMR_MSG_UNDERFLOW, None, c) else
  if negb (msg_read c =? msg_write c) then
    m ← msg_mem c !! Z.to_nat (msg_read c);
    Some (CMR_MSG_SUCCESS, Some m,
      set_ring c (<[Z.to_nat (msg_read c) := zero_msg]> (msg_mem c)) (msg_write c)
        (next_slot c (msg_read c)) (msg_number c -u 1))
  else Some (CMR_MSG_SUCCESS, None,
         set_ring c (msg_mem c) (msg_write c) (msg_read c) (msg_number c -u 1)).

(** The critical section of [cmr_msg_peak]; the last component says whether the
    mutex is released: the empty branch returns without unlocking it. *)
Definition peak_locked (c : cmr_msg_cxt) : option (Z * option cmr_msg * cmr_msg_cxt * bool) :=
  if negb (msg_read c =? msg_write c) then
    m ← msg_mem c !! Z.to_nat (msg_read c);
    Some (CMR_MSG_SUCCESS, Some m,
      set_ring c (msg_mem c) (msg_write c) (next_slot c (msg_read c)) (msg_number c -u 1), true)
  else Some (- CMR_MSG_NO_OTHER_MSG, None, c, false).

(** The critical section of [cmr_msg_post]; [ori_node] was read before it. *)
Definition post_locked (c : cmr_msg_cxt) (ori_node : Z) (m : cmr_msg) : option (Z * cmr_msg_cxt) :=
  if msg_count c <=? (msg_number c +u 1) then Some (CMR_MSG_OVERFLOW, c) else
  _ ← msg_mem c !! Z.to_nat (msg_write c);
  let mem := <[Z.to_nat (msg_write c) := m]> (msg_mem c) in
  let wr := next_slot c (msg_write c) in
  let wr := if wr =? msg_read c then ori_node else wr in
  Some (CMR_MSG_SUCCESS, set_ring c mem wr (msg_read c) (msg_number c +u 1)).

(** The time [cmr_msg_timedget] waits until; [None] for a clock it rejects. *)
Definition timedget_deadline (tv_sec tv_nsec : Z) : option (Z * Z) :=
  if (tv_sec <? 0) || (tv_nsec <? 0) || (1000000000 <=? tv_nsec) then None else
  let tv_nsec := tv_nsec + CMR_MSG_POLLING_PERIOD in
  if 1000000000 <? tv_nsec then Some (tv_sec + 1, tv_nsec - 1000000000) else Some (tv_sec, tv_nsec).

(** [cmr_msg_queue_destroy]: the result and whether the queue is freed. *)
Definition cmr_msg_queue_destroy (h : option cmr_msg_cxt) : Z * bool :=
  match h with
  | None => (- CMR_MSG_PARAM_ERR, false)
  | Some c => if negb (msg_magic c =? CMR_MSG_MAGIC_CODE) then (CMR_MSG_INVALID_HANDLE, false)
              else (CMR_MSG_SUCCESS, true)
  end.

(** ** Threads *)
Inductive thread :=
| Idle
| PostLock (m : cmr_msg) (ori_node : Z)  (* about to take the mutex in post *)
| PostSem                                (* about to call sem_post *)
| GetLock                                (* past sem_wait or sem_timedwait in get *)
| PeakLock.                              (* past sem_trywait in peak *)

(** The queue, whether its mutex is held for ever, the threads, and the
    history: what was posted and delivered, and the error results. *)
Record sys := mkSys {
  cxt : cmr_msg_cxt;
  locked : bool;
  threads : list thread;
  posted : list cmr_msg;
  delivered : list cmr_msg;
  errors : list Z }.

Definition set_thread (s : sys) (i : nat) (t : thread) : sys :=
  mkSys (cxt s) (locked s) (<[i := t]> (threads s)) (posted s) (delivered s) (errors s).
Definition deliver (o : option cmr_msg) : list cmr_msg :=
  match o with Some m => [m] | None => [] end.
Definition fails (r : Z) : list Z := if r =? CMR_MSG_SUCCESS then [] else [r].

Inductive step : sys -> sys -> Prop :=
| step_post_enter s i m :
    threads s !! i = Some Idle ->
    step s (set_thread s i (PostLock m (msg_write (cxt s))))
| step_post_lock s i m ori r c :
    threads s !! i = Some (PostLock m ori) -> locked s = false ->
    post_locked (cxt s) ori m = Some (r, c) ->
    step s (mkSys c false
      (<[i := if r =? CMR_MSG_SUCCESS then PostSem else Idle]> (threads s))
      (if r =? CMR_MSG_SUCCESS then posted s ++ [m] else posted s) (delivered s)
      (errors s ++ fails r))
| step_post_sem s i :
    threads s !! i = Some PostSem ->
    step s (mkSys (set_sem (cxt s) (S (msg_sem (cxt s)))) (locked s) (<[i := Idle]> (threads s))
      (posted s) (delivered s) (errors s))
| step_get_wait s i n :
    threads s !! i = Some Idle -> msg_sem (cxt s) = S n ->
    step s (mkSys (set_sem (cxt s) n) (locked s) (<[i := GetLock]> (threads s))
      (posted s) (delivered s) (errors s))
| step_timedget_timeout s i :
    threads s !! i = Some Idle ->
    step s (mkSys (cxt s) (locked s) (threads s) (posted s) (delivered s)
      (errors s ++ [CMR_MSG_NO_OTHER_MSG]))
| step_get_lock s i r o c :
    threads s !! i = Some GetLock -> locked s = false ->
    get_locked (cxt s) = Some (r, o, c) ->
    step s (mkSys c false (<[i := Idle]> (threads s)) (posted s) (delivered s ++ deliver o)
      (errors s ++ fails r))
| step_peak_wait s i n :
    threads s !! i = Some Idle -> msg_sem (cxt s) = S n ->
    step s (mkSys (set_sem (cxt s) n) (locked s) (<[i := PeakLock]> (threads s))
      (posted s) (delivered s) (errors s))
| step_peak_empty s i :
    threads s !! i = Some Idle -> msg_sem (cxt s) = O ->
    step s (mkSys (cxt s) (locked s) (threads s) (posted s) (delivered s)
      (errors s ++ [- CMR_MSG_NO_OTHER_MSG]))
| step_peak_lock s i r o c rel :
    threads s !! i = Some PeakLock -> locked s = false ->
    peak_locked (cxt s) = Some (r, o, c, rel) ->
    step s (mkSys c (negb rel) (<[i := Idle]> (threads s)) (posted s) (delivered s ++ deliver o)
      (errors s ++ fails r)).

(** ** The ring refines a bounded FIFO *)

(** The index of the [k]-th queued message. *)
Definition slot (c : cmr_msg_cxt) (k : Z) : Z :=
  if msg_read c + k <? msg_count c then msg_read c + k else msg_read c + k - msg_count c.

(** The queue [q] is what the ring holds. *)
Record refines (c : cmr_msg_cxt) (q : list cmr_msg) : Prop := {
  rf_count : 0 < msg_count c < 2 ^ 32;
  rf_mem : zlen (msg_mem c) = msg_count c;
  rf_read : 0 <= msg_read c < msg_count c;
  rf_number : msg_number c = zlen q;
  rf_room : zlen q < msg_count c;
  rf_write : msg_write c = slot c (zlen q);
  rf_slots k m : q !! k = Some m -> msg_mem c !! Z.to_nat (slot c (Z.of_nat k)) = Some m }.

Lemma slot_range c q k : refines c q -> 0 <= k < msg_count c -> 0 <= slot c k < msg_count c.
Proof. intros [] Hk. unfold slot. zcase. Qed.

Lemma write_read_eq c q : refines c q -> (msg_read c =? msg_write c) = bool_decide (q = []).
Proof.
  intros [? ? ? ? ? -> _]. unfold slot. destruct q as [|m q].
  - cbn [length]. rewrite Z.add_0_r, (proj2 (Z.ltb_lt _ _)) by lia. by rewrite Z.eqb_refl.
  - rewrite bool_decide_eq_false_2 by done. apply Z.eqb_neq. cbn [length] in *. zcase.
Qed.

(** Posting appends, or overflows with one slot still free. *)
Lemma post_refines c q ori m :
  refines c q ->
  if zlen q + 1 <? msg_count c then
    exists c', post_locked c ori m = Some (CMR_MSG_SUCCESS, c') /\ refines c' (q ++ [m]) /\
      msg_sem c' = msg_sem c /\ msg_count c' = msg_count c
  else post_locked c ori m = Some (CMR_MSG_OVERFLOW, c).
Proof.
  intros R. pose proof (slot_range c q (zlen q) R) as Hw. destruct R as [Hc Hm Hr Hn Hroom Hwr Hs].
  unfold post_locked. rewrite Hn, u32_small by (unfold is_u32; lia).
  destruct (Z.ltb_spec (zlen q + 1) (msg_count c)) as [Hlt|];
    [|rewrite (proj2 (Z.leb_le _ _)) by lia; done].
  rewrite (proj2 (Z.leb_gt _ _)) by lia. rewrite Hwr. specialize (Hw ltac:(lia)).
  destruct (lookup_lt_is_Some_2 (msg_mem c) (Z.to_nat (slot c (zlen q)))) as [x ->]; [lia|].
  cbn [mbind option_bind].
  assert (Hnext : next_slot c (slot c (zlen q)) = slot c (zlen q + 1)).
  { unfold next_slot, slot in *. zcase. }
  rewrite Hnext. rewrite (proj2 (Z.eqb_neq _ (msg_read c))) by (unfold slot; zcase).
  eexists. split; [done|]. split; [|done]. split; cbn; rewrite ?length_insert, ?length_app; try done.
  - cbn. lia.
  - cbn. lia.
  - cbn. rewrite Nat2Z.inj_add. done.
  - intros k y Hk. change (slot _ (Z.of_nat k)) with (slot c (Z.of_nat k)).
    destruct (decide (k < length q)%nat) as [Hlk|Hge].
    + rewrite lookup_app_l in Hk by done. rewrite list_lookup_insert_ne; [eauto|]. unfold slot. zcase.
    + pose proof (lookup_lt_Some _ _ _ Hk) as Hl. rewrite length_app in Hl. cbn in Hl.
      assert (k = length q) by lia. subst k. rewrite lookup_app_r, Nat.sub_diag in Hk by lia.
      injection Hk as <-. apply list_lookup_insert_eq. lia.
Qed.

(** The ring after a message was taken, its slot overwritten or not. *)
Lemma take_refines c m q mem :
  refines c (m :: q) -> length mem = length (msg_mem c) ->
  (forall j, j <> Z.to_nat (msg_read c) -> mem !! j = msg_mem c !! j) ->
  refines (set_ring c mem (msg_write c) (next_slot c (msg_read c)) (msg_number c -u 1)) q.
Proof.
  intros [Hc Hm Hr Hn Hroom Hwr Hs] Hl Hmem. cbn [length] in *.
  split; cbn; try done.
  - lia.
  - unfold next_slot. zcase.
  - rewrite Hn, u32_small by (unfold is_u32; lia). lia.
  - lia.
  - rewrite Hwr. unfold slot, next_slot. cbn. zcase.
  - intros k y Hk. pose proof (lookup_lt_Some _ _ _ Hk) as Hk'.
    assert (E : slot (set_ring c mem (msg_write c) (next_slot c (msg_read c)) (msg_number c -u 1))
                 (Z.of_nat k) = slot c (Z.of_nat (S k))).
    { unfold slot, next_slot. cbn [set_ring msg_read msg_count]. zcase. }
    rewrite E, Hmem; [apply Hs; done|]. unfold slot. zcase.
Qed.

Lemma get_refines c m q :
  refines c (m :: q) ->
  exists c', get_locked c = Some (CMR_MSG_SUCCESS, Some m, c') /\ refines c' q /\ msg_sem c' = msg_sem c.
Proof.
  intros R. unfold get_locked. rewrite (write_read_eq c (m :: q) R), (rf_number _ _ R).
  rewrite (proj2 (Z.eqb_neq _ 0)) by (cbn; lia). cbn [bool_decide negb].
  pose proof (rf_slots _ _ R 0 m eq_refl) as Hm. pose proof (rf_read _ _ R).
  unfold slot in Hm. rewrite Z.add_0_r, (proj2 (Z.ltb_lt _ _)) in Hm by lia.
  rewrite bool_decide_eq_false_2 by done. cbn [negb]. rewrite Hm. cbn [mbind option_bind].
  eexists. split; [done|]. split; [|done]. rewrite <- (rf_number _ _ R). eapply take_refines; [done|apply length_insert|].
  intros j Hj. by rewrite list_lookup_insert_ne.
Qed.

Lemma peak_refines c m q :
  refines c (m :: q) ->
  exists c', peak_locked c = Some (CMR_MSG_SUCCESS, Some m, c', true) /\ refines c' q /\ msg_sem c' = msg_sem c.
Proof.
  intros R. unfold peak_locked. rewrite (write_read_eq c (m :: q) R).
  rewrite bool_decide_eq_false_2 by done. cbn [negb].
  pose proof (rf_slots _ _ R 0 m eq_refl) as Hm. pose proof (rf_read _ _ R).
  unfold slot in Hm. rewrite Z.add_0_r, (proj2 (Z.ltb_lt _ _)) in Hm by lia.
  rewrite Hm. cbn [mbind option_bind].
  eexists. split; [done|]. split; [|done]. eapply take_refines; done.
Qed.

(** ** The concurrent queue *)

(** Tokens of the semaphore that are not in its counter: a message posted but
    not yet signalled, or a signal consumed by a reader not yet in its critical
    section. *)
Definition owed (t : thread) : nat :=
  match t with PostSem | GetLock | PeakLock => 1%nat | _ => 0%nat end.
Definition owed_all (ts : list thread) : nat := sum_list_with owed ts.

Lemma owed_insert ts i t t' :
  ts !! i = Some t -> (owed_all (<[i := t']> ts) + owed t = owed_all ts + owed t')%nat.
Proof.
  unfold owed_all. revert i. induction ts as [|a ts IH]; intros [|i] Hi; cbn -[owed] in *; try done.
  - injection Hi as ->. lia.
  - rewrite <- !Nat.add_assoc. f_equal. exact (IH i Hi).
Qed.

Record queue_inv (n : Z) (s : sys) : Prop := {
  qi_queue : exists q, refines (cxt s) q /\ posted s = delivered s ++ q;
  qi_count : msg_count (cxt s) = n;
  qi_sem : msg_number (cxt s) = Z.of_nat (msg_sem (cxt s) + owed_all (threads s));
  qi_unlocked : locked s = false;
  qi_errors : CMR_MSG_UNDERFLOW ∉ errors s }.

Lemma refines_sem c q k : refines c q -> refines (set_sem c k) q.
Proof. by intros []; split. Qed.

(** A reader past the semaphore finds a message. *)
Lemma reader_nonempty n s i t :
  queue_inv n s -> threads s !! i = Some t -> owed t = 1%nat ->
  exists m q, refines (cxt s) (m :: q) /\ posted s = delivered s ++ m :: q.
Proof.
  intros [(q & R & E) _ Hs _ _] Ht Hw. pose proof (owed_insert _ _ _ Idle Ht) as Ho.
  rewrite Hw in Ho. change (owed Idle) with 0%nat in Ho. rewrite (rf_number _ _ R) in Hs.
  destruct q as [|m q]; [cbn in Hs; lia|eauto].
Qed.

Ltac owe Ht t' := let H := fresh in pose proof (owed_insert _ _ _ t' Ht) as H; cbn [owed] in H.

Lemma post_step_inv n s i m ori r c :
  queue_inv n s -> threads s !! i = Some (PostLock m ori) ->
  post_locked (cxt s) ori m = Some (r, c) ->
  queue_inv n (mkSys c false (<[i := if r =? CMR_MSG_SUCCESS then PostSem else Idle]> (threads s))
      (if r =? CMR_MSG_SUCCESS then posted s ++ [m] else posted s) (delivered s)
      (errors s ++ fails r)).
Proof.
  intros [(q & R & E) Hn Hs Hl He] Ht Hp. pose proof (post_refines (cxt s) q ori m R) as Hpr.
  destruct (_ <? _).
  - destruct Hpr as (c' & Hp' & R' & Hs' & Hc'). rewrite Hp in Hp'. injection Hp' as -> ->.
    change (CMR_MSG_SUCCESS =? CMR_MSG_SUCCESS) with true. cbv iota. owe Ht PostSem.
    split; cbn [cxt threads locked posted delivered errors set_thread set_sem msg_sem msg_count msg_number]; try done; try congruence.
    + exists (q ++ [m]). by rewrite E, app_assoc.
    + rewrite (rf_number _ _ R), <- Hs' in Hs. rewrite (rf_number _ _ R'), length_app. cbn [length]. lia.
    + by rewrite app_nil_r.
  - rewrite Hpr in Hp. injection Hp as <- <-. change (CMR_MSG_OVERFLOW =? CMR_MSG_SUCCESS) with false. cbv iota.
    owe Ht Idle. split; cbn [cxt threads locked posted delivered errors set_thread set_sem msg_sem msg_count msg_number]; try done; eauto; [lia|]. set_solver.
Qed.

Lemma take_step_inv n s i t m q c :
  queue_inv n s -> threads s !! i = Some t -> owed t = 1%nat ->
  refines (cxt s) (m :: q) -> posted s = delivered s ++ m :: q ->
  refines c q -> msg_sem c = msg_sem (cxt s) -> msg_count c = msg_count (cxt s) ->
  queue_inv n (mkSys c false (<[i := Idle]> (threads s)) (posted s) (delivered s ++ [m]) (errors s ++ [])).
Proof.
  intros [_ Hn Hs Hl He] Ht Hw R0 E R Hsem Hcnt. pose proof (owed_insert _ _ _ Idle Ht) as Ho.
  rewrite Hw in Ho. cbn [owed] in Ho. split; cbn [cxt threads locked posted delivered errors set_thread set_sem msg_sem msg_count msg_number]; try done.
  - exists q. by rewrite <- app_assoc.
  - congruence.
  - rewrite (rf_number _ _ R0) in Hs. rewrite (rf_number _ _ R), Hsem. cbn [length] in Hs. lia.
  - by rewrite app_nil_r.
Qed.

Lemma get_count c r o c' : get_locked c = Some (r, o, c') -> msg_count c' = msg_count c.
Proof.
  unfold get_locked. repeat case_match; intros; simplify_eq; try done.
  destruct (msg_mem c !! _); [|done]. by simplify_eq/=.
Qed.

Lemma peak_count c r o c' rel : peak_locked c = Some (r, o, c', rel) -> msg_count c' = msg_count c.
Proof.
  unfold peak_locked. repeat case_match; intros; simplify_eq; try done.
  destruct (msg_mem c !! _); [|done]. by simplify_eq/=.
Qed.

Lemma queue_inv_step n s s' : queue_inv n s -> step s s' -> queue_inv n s'.
Proof.
  intros I Hst. pose proof I as [(q & R & E) Hn Hs Hl He].
  destruct Hst as [s i m Ht|s i m ori r c Ht _ Hp|s i Ht|s i k Ht Hk|s i Ht|s i r o c Ht _ Hg
                  |s i k Ht Hk|s i Ht Hk|s i r o c rel Ht _ Hg].
  - owe Ht (PostLock m (msg_write (cxt s))). split; cbn [cxt threads locked posted delivered errors set_thread set_sem msg_sem msg_count msg_number]; eauto. lia.
  - by eapply post_step_inv.
  - owe Ht Idle. split; cbn [cxt threads locked posted delivered errors set_thread set_sem msg_sem msg_count msg_number]; eauto using refines_sem. lia.
  - owe Ht GetLock. split; cbn [cxt threads locked posted delivered errors set_thread set_sem msg_sem msg_count msg_number]; eauto using refines_sem. lia.
  - split; cbn [cxt threads locked posted delivered errors set_thread set_sem msg_sem msg_count msg_number]; eauto. set_solver.
  - destruct (reader_nonempty n s i _ I Ht eq_refl) as (m & q' & R' & E').
    destruct (get_refines _ _ _ R') as (c' & Hg' & Rc & Hsem). pose proof (get_count _ _ _ _ Hg').
    rewrite Hg in Hg'. injection Hg' as -> -> ->. eapply take_step_inv; eauto.
  - owe Ht PeakLock. split; cbn [cxt threads locked posted delivered errors set_thread set_sem msg_sem msg_count msg_number]; eauto using refines_sem. lia.
  - split; cbn [cxt threads locked posted delivered errors set_thread set_sem msg_sem msg_count msg_number]; eauto. set_solver.
  - destruct (reader_nonempty n s i _ I Ht eq_refl) as (m & q' & R' & E').
    destruct (peak_refines _ _ _ R') as (c' & Hg' & Rc & Hsem). pose proof (peak_count _ _ _ _ _ Hg').
    rewrite Hg in Hg'. injection Hg' as -> -> -> ->. eapply take_step_inv; eauto.
Qed.

(** A queue just created, and the threads about to use it. *)
Definition start_sys (c : cmr_msg_cxt) (k : nat) : sys := mkSys c false (replicate k Idle) [] [] [].

Lemma owed_idle k : owed_all (replicate k Idle) = 0%nat.
Proof. induction k; done. Qed.

Lemma create_refines malloc n c :
  0 < n < 2 ^ 28 -> (forall b l, 0 <= b -> malloc b = Some l -> zlen l = b / sizeof_cmr_msg) ->
  cmr_msg_queue_create true malloc n = (CMR_MSG_SUCCESS, Some c) ->
  refines c [] /\ msg_count c = n /\ msg_sem c = 0%nat /\ msg_number c = 0.
Proof.
  intros Hn Hm. unfold cmr_msg_queue_create, sizeof_cmr_msg in *. rewrite (proj2 (Z.eqb_neq _ _)) by lia.
  cbn [negb]. rewrite u32_small by (unfold is_u32; lia).
  destruct (malloc (n * 16)) as [l|] eqn:El; [|done]. intros [= <-]. apply Hm in El; [|lia].
  rewrite Z.div_mul in El by lia.
  split; [|done]. split; unfold slot; cbn; try done; try lia.
  by rewrite (proj2 (Z.ltb_lt _ _)) by lia.
Qed.

(** C3: under every interleaving of posts, gets, timed gets and peaks of any
    number of threads, the queue is a FIFO of capacity [count - 1]: the
    messages delivered, in order, are a prefix of the messages accepted, in
    order; no critical section touches memory outside the ring; a reader let
    through by the semaphore always finds a message, so the underflow error is
    never returned and the branch of [cmr_msg_peak] that keeps the mutex is
    never taken. *)
Theorem cmr_queue_fifo malloc n c k s :
  0 < n < 2 ^ 28 -> (forall b l, 0 <= b -> malloc b = Some l -> zlen l = b / sizeof_cmr_msg) ->
  cmr_msg_queue_create true malloc n = (CMR_MSG_SUCCESS, Some c) ->
  reach step (start_sys c k) s ->
  (exists q, posted s = delivered s ++ q /\ zlen q < n) /\
  locked s = false /\ CMR_MSG_UNDERFLOW ∉ errors s /\
  (forall i m ori, threads s !! i = Some (PostLock m ori) -> is_Some (post_locked (cxt s) ori m)) /\
  (forall i, threads s !! i = Some GetLock -> is_Some (get_locked (cxt s))) /\
  (forall i, threads s !! i = Some PeakLock -> is_Some (peak_locked (cxt s))).
Proof.
  intros Hn Hm Hc Hr. destruct (create_refines malloc n c Hn Hm Hc) as (R0 & N0 & S0 & M0).
  assert (I : queue_inv n s).
  { eapply (reach_inv step (queue_inv n)); [|apply queue_inv_step|exact Hr].
    split; cbn [cxt threads locked posted delivered errors set_thread set_sem msg_sem msg_count msg_number]; [by exists []|done|cbn [start_sys cxt threads]; rewrite owed_idle, S0; exact M0|done|set_solver]. }
  pose proof I as [(q & R & E) Hq Hs Hl He]. split_and!; try done.
  - exists q. pose proof (rf_room _ _ R). split; [done|lia].
  - intros i m ori _. pose proof (post_refines _ q ori m R) as Hp.
    destruct (_ <? _); [destruct Hp as (? & -> & _)|rewrite Hp]; eauto.
  - intros i Ht. destruct (reader_nonempty n s i _ I Ht eq_refl) as (m & q' & R' & _).
    destruct (get_refines _ _ _ R') as (c' & -> & _). eauto.
  - intros i Ht. destruct (reader_nonempty n s i _ I Ht eq_refl) as (m & q' & R' & _).
    destruct (peak_refines _ _ _ R') as (c' & -> & _). eauto.
Qed.

Definition demo_msg (t : Z) : cmr_msg := mkMsg t 0 0 0.
Definition demo_malloc (b : Z) : option (list cmr_msg) := Some (replicate (Z.to_nat (b / 16)) zero_msg).
Definition demo_queue : cmr_msg_cxt := mkCxt 0 3 0 CMR_MSG_MAGIC_CODE (replicate 3 zero_msg) 0 0.
(** One thread has posted and signalled; the other is past [sem_wait]. *)
Definition demo_sys : sys :=
  mkSys (mkCxt 0 3 1 CMR_MSG_MAGIC_CODE [demo_msg 5; zero_msg; zero_msg] 1 0) false [Idle; GetLock]
    [demo_msg 5] [] [].

Lemma demo_reach : reach step (start_sys demo_queue 2) demo_sys.
Proof.
  eapply reach_trans; [apply reach_one; eapply (step_post_enter _ 0 (demo_msg 5)); reflexivity|].
  eapply reach_trans; [apply reach_one; eapply (step_post_lock _ 0 (demo_msg 5)); reflexivity|].
  eapply reach_trans; [apply reach_one; eapply (step_post_sem _ 0); reflexivity|].
  eapply reach_trans; [apply reach_one; eapply (step_get_wait _ 1 0); reflexivity|].
  match goal with |- reach _ ?x _ => replace x with demo_sys by (vm_compute; reflexivity) end.
  apply reach_refl.
Qed.

Lemma cmr_queue_fifo_witness :
  (exists q, posted demo_sys = delivered demo_sys ++ q /\ zlen q < 3) /\
  locked demo_sys = false /\ CMR_MSG_UNDERFLOW ∉ errors demo_sys /\
  (forall i m ori, threads demo_sys !! i = Some (PostLock m ori) -> is_Some (post_locked (cxt demo_sys) ori m)) /\
  (forall i, threads demo_sys !! i = Some GetLock -> is_Some (get_locked (cxt demo_sys))) /\
  (forall i, threads demo_sys !! i = Some PeakLock -> is_Some (peak_locked (cxt demo_sys))).
Proof.
  apply (cmr_queue_fifo demo_malloc 3 demo_queue 2 demo_sys).
  - lia.
  - intros b l Hb [= <-]. unfold sizeof_cmr_msg. rewrite length_replicate. zlia.
  - reflexivity.
  - apply demo_reach.
Defined.

(** The deadline of [cmr_msg_timedget] is 200 ms after the clock, and a
    valid [timespec] except in one nanosecond of every second: at 800000000
    the nanoseconds become 1000000000, which [sem_timedwait] refuses. *)
Lemma timedget_deadline_valid sec ns :
  0 <= sec -> 0 <= ns < 1000000000 ->
  exists s n, timedget_deadline sec ns = Some (s, n) /\
    1000000000 * s + n = 1000000000 * sec + ns + CMR_MSG_POLLING_PERIOD /\
    0 <= n <= 1000000000 /\ (n = 1000000000 <-> ns = 800000000).
Proof.
  intros Hs Hn. unfold timedget_deadline, CMR_MSG_POLLING_PERIOD.
  rewrite !(proj2 (Z.ltb_ge _ 0)), (proj2 (Z.leb_gt _ ns)) by lia. cbn [orb].
  destruct (Z.ltb_spec 1000000000 (ns + 200000000)); do 2 eexists; (split; [reflexivity|]); lia.
Qed.

Lemma timedget_deadline_valid_witness :
  exists s n, timedget_deadline 5 800000000 = Some (s, n) /\
    1000000000 * s + n = 1000000000 * 5 + 800000000 + CMR_MSG_POLLING_PERIOD /\
    0 <= n <= 1000000000 /\ (n = 1000000000 <-> 800000000 = 800000000).
Proof. apply (timedget_deadline_valid 5 800000000); lia. Defined.
