(* ===== verification/CmrMem.v ===== *)
(** * The buffers of a capture (libcamera/sc8830/src/cmr_mem.c)

    A picture is taken into one block of memory that the camera service hands
    over.  [camera_capture_buf_size] says how large it has to be, and
    [camera_arrange_capture_buf] cuts it up: the frame as the sensor delivers
    it, the frame the encoder reads, the JPEG file, the thumbnail and its
    JPEG, and the rotated frame.  What does not fit is asked from the service
    through the callback [alloc_mem], a parameter here.

    A frame has a physical and a virtual address.  All arithmetic is on
    [uint32_t].  The tests for null pointers and the log are left out; the
    fields [data_end] and [reserved] of a frame, which this file only clears
    and copies, are not part of [img_frm]. *)
From S2P Require Import Prelude.
Local Open Scope cint_scope.

(** ** Data, from cmr_common.h, cmr_mem.h and sensor_drv_u.h *)
Record img_size := MkSize { width : Z; height : Z }.
Record img_rect := MkRect { start_x : Z; start_y : Z; rwidth : Z; rheight : Z }.
Record img_addr := MkAddr { addr_y : Z; addr_u : Z; addr_v : Z }.
Record img_frm := MkFrm { fmt : Z; buf_size : Z; frm_size : img_size; addr_phy : img_addr; addr_vir : img_addr }.

Definition IMG_DATA_TYPE_JPEG : Z := 0.
Definition IMG_DATA_TYPE_YUV420 : Z := 2.
Definition IMG_DATA_TYPE_RAW : Z := 5.
Definition SENSOR_IMAGE_FORMAT_RAW : Z := 2.
Definition RAWRGB_BIT_WIDTH : Z := 10.
Definition CMR_SLICE_HEIGHT : Z := 256.
Definition JPEG_EXIF_SIZE : Z := 64 * 1024.
Definition CMR_JPEG_SZIE (w h : Z) : Z := (w *u h) / 2.
Definition CAMERA_ALIGNED_16 (w : Z) : Z := Z.shiftl (Z.shiftr (w +u 16 -u 1) 4) 4.

Record cmr_cap_mem := MkCap {
  cap_raw : img_frm; cap_yuv : img_frm; target_yuv : img_frm; target_jpeg : img_frm;
  thum_yuv : img_frm; thum_jpeg : img_frm; jpeg_tmp : img_frm; scale_tmp : img_frm;
  cap_yuv_rot : img_frm; isp_tmp : img_frm }.

Definition zero_frm : img_frm := MkFrm 0 0 (MkSize 0 0) (MkAddr 0 0 0) (MkAddr 0 0 0).
Definition zero_mem : cmr_cap_mem :=
  MkCap zero_frm zero_frm zero_frm zero_frm zero_frm zero_frm zero_frm zero_frm zero_frm zero_frm.

(** Updates of a frame: the physical and virtual address of a plane, the size
    of the buffer, the size and format of the picture. *)
Definition set_y (p v : Z) (f : img_frm) : img_frm :=
  MkFrm (fmt f) (buf_size f) (frm_size f)
    (MkAddr p (addr_u (addr_phy f)) (addr_v (addr_phy f))) (MkAddr v (addr_u (addr_vir f)) (addr_v (addr_vir f))).
Definition set_u (p v : Z) (f : img_frm) : img_frm :=
  MkFrm (fmt f) (buf_size f) (frm_size f)
    (MkAddr (addr_y (addr_phy f)) p (addr_v (addr_phy f))) (MkAddr (addr_y (addr_vir f)) v (addr_v (addr_vir f))).
Definition set_buf_size (n : Z) (f : img_frm) : img_frm := MkFrm (fmt f) n (frm_size f) (addr_phy f) (addr_vir f).
Definition set_size (w h : Z) (f : img_frm) : img_frm := MkFrm (fmt f) (buf_size f) (MkSize w h) (addr_phy f) (addr_vir f).
Definition set_fmt (t : Z) (f : img_frm) : img_frm := MkFrm t (buf_size f) (frm_size f) (addr_phy f) (addr_vir f).

Definition phy_y (f : img_frm) : Z := addr_y (addr_phy f).
Definition vir_y (f : img_frm) : Z := addr_y (addr_vir f).
Definition phy_u (f : img_frm) : Z := addr_u (addr_phy f).
Definition vir_u (f : img_frm) : Z := addr_u (addr_vir f).

Definition on_cap_raw g m := MkCap (g (cap_raw m)) (cap_yuv m) (target_yuv m) (target_jpeg m) (thum_yuv m) (thum_jpeg m) (jpeg_tmp m) (scale_tmp m) (cap_yuv_rot m) (isp_tmp m).
Definition on_cap_yuv g m := MkCap (cap_raw m) (g (cap_yuv m)) (target_yuv m) (target_jpeg m) (thum_yuv m) (thum_jpeg m) (jpeg_tmp m) (scale_tmp m) (cap_yuv_rot m) (isp_tmp m).
Definition on_target_yuv g m := MkCap (cap_raw m) (cap_yuv m) (g (target_yuv m)) (target_jpeg m) (thum_yuv m) (thum_jpeg m) (jpeg_tmp m) (scale_tmp m) (cap_yuv_rot m) (isp_tmp m).
Definition on_target_jpeg g m := MkCap (cap_raw m) (cap_yuv m) (target_yuv m) (g (target_jpeg m)) (thum_yuv m) (thum_jpeg m) (jpeg_tmp m) (scale_tmp m) (cap_yuv_rot m) (isp_tmp m).
Definition on_thum_yuv g m := MkCap (cap_raw m) (cap_yuv m) (target_yuv m) (target_jpeg m) (g (thum_yuv m)) (thum_jpeg m) (jpeg_tmp m) (scale_tmp m) (cap_yuv_rot m) (isp_tmp m).
Definition on_thum_jpeg g m := MkCap (cap_raw m) (cap_yuv m) (target_yuv m) (target_jpeg m) (thum_yuv m) (g (thum_jpeg m)) (jpeg_tmp m) (scale_tmp m) (cap_yuv_rot m) (isp_tmp m).
Definition on_jpeg_tmp g m := MkCap (cap_raw m) (cap_yuv m) (target_yuv m) (target_jpeg m) (thum_yuv m) (thum_jpeg m) (g (jpeg_tmp m)) (scale_tmp m) (cap_yuv_rot m) (isp_tmp m).
Definition on_cap_yuv_rot g m := MkCap (cap_raw m) (cap_yuv m) (target_yuv m) (target_jpeg m) (thum_yuv m) (thum_jpeg m) (jpeg_tmp m) (scale_tmp m) (g (cap_yuv_rot m)) (isp_tmp m).

(** ** How much memory a capture gets *)
Definition IMG_SIZE_NUM : nat := 13.
Definition MB (n : Z) : Z := Z.shiftl n 20.
(** The rows of a table of struct cap_size_to_mem; the rest is zero. *)
Definition size_table (rows : list (Z * Z)) : list (Z * Z) := rows ++ replicate (IMG_SIZE_NUM - length rows) (0, 0).
Definition pixels : list Z :=
  [0x180000; 0x200000; 0x300000; 0x400000; 0x500000; 0x600000; 0x700000; 0x800000; 0x900000; 0xA00000; 0xB00000; 0xC00000; 0xD00000].
Definition back_cam_mem_size_tab : list (Z * Z) := size_table (zip pixels (MB <$> [5; 7; 11; 12; 13; 15; 17; 18])).
Definition back_cam_raw_mem_size_tab : list (Z * Z) := size_table (zip pixels (MB <$> [4; 7; 10; 11; 12; 14; 16; 17; 30; 30; 30; 30; 30])).
Definition front_cam_mem_size_tab : list (Z * Z) := size_table (zip pixels (MB <$> [6; 8; 11; 16; 16; 16; 16; 16])).
Definition front_cam_raw_mem_size_tab : list (Z * Z) := size_table (zip pixels (MB <$> [8; 8; 7; 16; 16; 16; 16; 16])).
Definition mem_size_tab : list (Z * Z) := size_table (zip pixels (MB <$> [4; 8; 16; 16; 16; 16; 16; 16])).

Definition mem_table (camera_id sn_fmt : Z) : list (Z * Z) :=
  if sn_fmt =? SENSOR_IMAGE_FORMAT_RAW then
    if camera_id =? 0 then back_cam_raw_mem_size_tab
    else if camera_id =? 1 then front_cam_raw_mem_size_tab else mem_size_tab
  else
    if camera_id =? 0 then back_cam_mem_size_tab
    else if camera_id =? 1 then front_cam_mem_size_tab else mem_size_tab.

(** The first row that is large enough; [None] is the result -1. *)
Definition camera_capture_buf_size (camera_id sn_fmt : Z) (image_size : img_size) : option Z :=
  let size_pixel := width image_size *u height image_size in
  '(_, r) ← list_find (fun r => size_pixel <= fst r) (mem_table camera_id sn_fmt); Some (snd r).

(** ** Sizes of the single buffers *)
Definition JPEG_SMALL_SIZE : Z := 300 * 1024.
Definition ADDR_BY_WORD (a : Z) : Z := Z.land (a +u 3) 0xfffffffc.
Definition get_jpeg_size (width height thum_width thum_height : Z) : Z :=
  ADDR_BY_WORD (if width *u height <=? JPEG_SMALL_SIZE then CMR_JPEG_SZIE width height +u JPEG_EXIF_SIZE
                else CMR_JPEG_SZIE width height).
Definition get_thum_yuv_size (width height thum_width thum_height : Z) : Z := ((thum_width *u thum_height) *u 3) / 2.
Definition get_thum_jpeg_size (width height thum_width thum_height : Z) : Z := ADDR_BY_WORD (CMR_JPEG_SZIE thum_width thum_height).
Definition get_jpg_tmp_size (width height thum_width thum_height : Z) : Z := (width *u CMR_SLICE_HEIGHT) *u 2.
Definition get_scaler_tmp_size (width height thum_width thum_height : Z) : Z := 0.
Definition get_isp_tmp_size (width height thum_width thum_height : Z) : Z := width *u CMR_SLICE_HEIGHT.
(** Indexed by [JPEG_TARGET], [THUM_YUV] and [THUM_JPEG]. *)
Definition get_size : list (Z -> Z -> Z -> Z -> Z) := [get_jpeg_size; get_thum_yuv_size; get_thum_jpeg_size].

(** ** Arranging *)
(** The functions below change the first [cmr_cap_mem] of the caller and the
    state [H] of the service, and can return -1. *)
Definition M (H A : Type) : Type := cmr_cap_mem * H -> option A * (cmr_cap_mem * H).
#[export] Instance M_ret {H} : MRet (M H) := fun A a s => (Some a, s).
#[export] Instance M_bind {H} : MBind (M H) := fun A B f m s =>
  match m s with (Some a, s') => f a s' | (None, s') => (None, s') end.
Definition failed {H A} : M H A := fun s => (None, s).
Definition upd {H} (g : cmr_cap_mem -> cmr_cap_mem) : M H unit := fun s => (Some tt, (g (fst s), snd s)).
Definition get_mem {H} : M H cmr_cap_mem := fun s => (Some (fst s), s).
Definition CMR_NO_MEM {H} (a b : Z) : M H unit := if b <? a then failed else mret tt.

Section Arrange.
Context {H : Type} (alloc_mem : H -> Z -> option (Z * Z) * H).

Definition alloc (sz : Z) : M H (Z * Z) := fun s =>
  let '(r, h) := alloc_mem (snd s) sz in (r, (fst s, h)).

(** [mem_frm] of struct cmr_cap_2_frm is the block; the rest of it is
    [alloc_mem] and its state. *)
Section Block.
Context (mem_frm : img_frm).
Implicit Types (sn_size image_size cap_size thum_size : img_size) (sn_trim : img_rect)
  (orig_fmt mem_res mem_end channel_size : Z) (need_rot : bool).

(** The JPEG file directly behind the frame, when there is no rotation. *)
Definition place_jpeg need_rot mem_res mem_end : M H (Z * Z) :=
  if need_rot then mret (mem_res, mem_end)
  else
    m ← get_mem;
    let n := buf_size (target_jpeg m) in
    CMR_NO_MEM n mem_res ;;
    upd (on_target_jpeg (set_y (phy_y mem_frm +u mem_end) (vir_y mem_frm +u mem_end))) ;;
    mret (mem_res -u n, mem_end +u n).

Definition arrange_raw_buf sn_size sn_trim image_size orig_fmt need_rot mem_res mem_end : M H (Z * Z * Z) :=
  if negb (orig_fmt =? IMG_DATA_TYPE_RAW) then failed else
  let iw := CAMERA_ALIGNED_16 (width image_size) in
  let ih := CAMERA_ALIGNED_16 (height image_size) in
  let channel_size := width sn_size *u height sn_size in
  let raw_size := (channel_size *u RAWRGB_BIT_WIDTH) / 8 in
  let y_to_raw := CMR_SLICE_HEIGHT *u width sn_size in
  let yy_to_y :=
    if negb (iw =? width sn_size) || negb (ih =? height sn_size) then CMR_SLICE_HEIGHT *u width sn_size
    else if negb (start_y sn_trim =? 0) then (height sn_size -u rheight sn_trim -u start_y sn_trim) *u width sn_size
    else 0 in
  let uv_size := Z.shiftr channel_size 1 +u Z.shiftr yy_to_y 1 in
  let useless_raw := (yy_to_y *u RAWRGB_BIT_WIDTH) / 8 in
  let py := phy_y mem_frm in
  let vy := vir_y mem_frm in
  upd (on_target_yuv (set_y py vy)) ;;
  upd (on_cap_yuv (set_y (py +u yy_to_y) (vy +u yy_to_y))) ;;
  upd (on_cap_raw (set_y (py +u yy_to_y +u y_to_raw) (vy +u yy_to_y +u y_to_raw))) ;;
  upd (on_cap_raw (set_buf_size raw_size)) ;;
  let offset := raw_size +u y_to_raw +u yy_to_y -u useless_raw in
  CMR_NO_MEM offset mem_res ;;
  '(mem_res, mem_end) ← place_jpeg need_rot (mem_res -u offset) (mem_end +u offset);
  '(pu, vu, mem_res, mem_end) ←
    (if uv_size <? mem_res then mret (py +u mem_end, vy +u mem_end, mem_res -u uv_size, mem_end +u uv_size)
     else '(p, v) ← alloc uv_size; mret (p, v, mem_res, mem_end));
  upd (on_target_yuv (set_u pu vu)) ;;
  upd (on_cap_yuv (set_u (pu +u Z.shiftr yy_to_y 1) (vu +u Z.shiftr yy_to_y 1))) ;;
  upd (on_cap_yuv (fun f => set_fmt IMG_DATA_TYPE_YUV420
    (set_size (width sn_size) (height sn_size) (set_buf_size (Z.shiftr (channel_size *u 3) 1) f)))) ;;
  upd (on_cap_raw (fun f => set_fmt IMG_DATA_TYPE_RAW (set_size (width sn_size) (height sn_size) f))) ;;
  upd (on_target_yuv (fun f => set_fmt IMG_DATA_TYPE_YUV420
    (set_size iw ih (set_buf_size (Z.shiftr (channel_size *u 3) 1) f)))) ;;
  mret (mem_res, mem_end, channel_size).

Definition arrange_jpeg_buf sn_size sn_trim image_size orig_fmt cap_size need_rot mem_res mem_end : M H (Z * Z * Z) :=
  if negb (orig_fmt =? IMG_DATA_TYPE_JPEG) then failed else
  let iw := CAMERA_ALIGNED_16 (width image_size) in
  let ih := CAMERA_ALIGNED_16 (height image_size) in
  let channel_size := iw *u ih in
  let py := phy_y mem_frm in
  let vy := vir_y mem_frm in
  let yy_to_y := (height sn_size -u start_y sn_trim -u rheight sn_trim) *u width sn_size in
  let tmp := height sn_size *u width sn_size in
  let y_end := yy_to_y +u Z.max channel_size tmp in
  upd (on_target_yuv (set_y py vy)) ;;
  upd (on_target_yuv (set_u (py +u y_end) (vy +u y_end))) ;;
  upd (on_cap_yuv (set_y (py +u y_end -u tmp) (vy +u y_end -u tmp))) ;;
  upd (on_cap_yuv (set_u (py +u y_end +u y_end -u tmp) (vy +u y_end +u y_end -u tmp))) ;;
  let offset := u32 (Z.shiftl y_end 1) in
  CMR_NO_MEM offset mem_res ;;
  '(mem_res, mem_end) ← place_jpeg need_rot (mem_res -u offset) offset;
  upd (on_cap_yuv (fun f => set_fmt IMG_DATA_TYPE_YUV420
    (set_size (CAMERA_ALIGNED_16 (width cap_size)) (CAMERA_ALIGNED_16 (height cap_size)) (set_buf_size (channel_size *u 2) f)))) ;;
  upd (on_target_yuv (fun f => set_fmt IMG_DATA_TYPE_YUV420 (set_size iw ih (set_buf_size (channel_size *u 2) f)))) ;;
  mret (mem_res, mem_end, channel_size).

Definition arrange_yuv_buf image_size orig_fmt cap_size need_rot mem_res mem_end : M H (Z * Z * Z) :=
  if (orig_fmt =? IMG_DATA_TYPE_JPEG) || (orig_fmt =? IMG_DATA_TYPE_RAW) then failed else
  let iw := CAMERA_ALIGNED_16 (width image_size) in
  let ih := CAMERA_ALIGNED_16 (height image_size) in
  let channel := iw *u ih in
  let tmp := width cap_size *u height cap_size in
  let py := phy_y mem_frm in
  let vy := vir_y mem_frm in
  (if tmp <? channel then
     upd (on_target_yuv (set_y py vy)) ;;
     upd (on_target_yuv (set_u (py +u channel) (vy +u channel))) ;;
     upd (on_cap_yuv (set_y (py +u channel -u tmp) (vy +u channel -u tmp))) ;;
     upd (on_cap_yuv (set_u (py +u channel +u Z.shiftr (channel -u tmp) 1) (vy +u channel +u Z.shiftr (channel -u tmp) 1)))
   else
     upd (on_cap_yuv (set_y py vy)) ;;
     upd (on_cap_yuv (set_u (py +u tmp) (vy +u tmp))) ;;
     upd (fun m => on_target_yuv (fun _ => cap_yuv m) m)) ;;
  let channel_size := if tmp <? channel then channel else tmp in
  let offset := Z.shiftr (channel_size *u 3) 1 in
  CMR_NO_MEM offset mem_res ;;
  '(mem_res, mem_end) ← place_jpeg need_rot (mem_res -u offset) offset;
  upd (on_cap_yuv (fun f => set_fmt IMG_DATA_TYPE_YUV420
    (set_size (CAMERA_ALIGNED_16 (width cap_size)) (CAMERA_ALIGNED_16 (height cap_size)) (set_buf_size offset f)))) ;;
  upd (on_target_yuv (fun f => set_fmt IMG_DATA_TYPE_YUV420 (set_size iw ih (set_buf_size offset f)))) ;;
  mret (mem_res, mem_end, channel_size).

(** A local [img_frame] of [arrange_misc_buf]: [sz] bytes at [p] and [v]. *)
Definition misc_frm (sz p v : Z) : img_frm :=
  set_u (p +u (sz *u 2) / 3) (v +u (sz *u 2) / 3) (set_y p v (set_buf_size sz zero_frm)).
(** The first loop: buffers from the block, as long as they fit. *)
Fixpoint misc_block (sizes : list Z) mem_res mem_end : list img_frm * list Z * Z * Z :=
  match sizes with
  | [] => ([], [], mem_res, mem_end)
  | n :: r =>
    if n <=? mem_res then
      let '(fs, rest, res, e) := misc_block r (mem_res -u n) (mem_end +u n) in
      (misc_frm n (phy_y mem_frm +u mem_end) (vir_y mem_frm +u mem_end) :: fs, rest, res, e)
    else ([], sizes, mem_res, mem_end)
  end.
(** The second loop: the others from the service. *)
Fixpoint misc_alloc (sizes : list Z) : M H (list img_frm) :=
  match sizes with
  | [] => mret []
  | n :: r => '(p, v) ← alloc n; fs ← misc_alloc r; mret (misc_frm n p v :: fs)
  end.

Definition arrange_misc_buf image_size thum_size mem_res mem_end : M H (Z * Z) :=
  let iw := CAMERA_ALIGNED_16 (width image_size) in
  let ih := CAMERA_ALIGNED_16 (height image_size) in
  let sizes := (fun f => f iw ih (width thum_size) (height thum_size)) <$> drop 1 get_size in
  let '(fs, rest, mem_res, mem_end) := misc_block sizes mem_res mem_end in
  more ← misc_alloc rest;
  let ty := nth 0 (fs ++ more) zero_frm in
  let tj := nth 1 (fs ++ more) zero_frm in
  upd (on_thum_yuv (fun f => set_size (width thum_size) (height thum_size)
    (set_u (phy_u ty) (vir_u ty) (set_y (phy_y ty) (vir_y ty) (set_buf_size (buf_size ty) f))))) ;;
  upd (on_thum_jpeg (fun f => set_y (phy_y tj) (vir_y tj) (set_buf_size (buf_size tj) f))) ;;
  upd (fun m => on_jpeg_tmp (fun f => set_y (phy_u (cap_yuv m)) (vir_u (cap_yuv m)) (set_buf_size (buf_size (cap_yuv m)) f)) m) ;;
  mret (mem_res, mem_end).

Definition arrange_rot_buf image_size need_rot mem_res mem_end channel_size : M H (Z * Z * Z) :=
  if negb need_rot then failed else
  let size_pixel := Z.shiftr (channel_size *u 3) 1 in
  '(mem_res, mem_end) ←
    (if size_pixel <? mem_res then
       let p := phy_y mem_frm +u mem_end in
       let v := vir_y mem_frm +u mem_end in
       upd (on_cap_yuv_rot (set_y p v)) ;;
       upd (on_cap_yuv_rot (set_u (p +u channel_size) (v +u channel_size))) ;;
       mret (mem_res -u size_pixel, mem_end +u size_pixel)
     else
       '(p, v) ← alloc channel_size;
       upd (on_cap_yuv_rot (set_y p v)) ;;
       '(p, v) ← alloc (Z.shiftr channel_size 1);
       upd (on_cap_yuv_rot (set_u p v)) ;;
       mret (mem_res, mem_end));
  upd (on_cap_yuv_rot (fun f => set_fmt IMG_DATA_TYPE_YUV420 (set_buf_size size_pixel
    (set_size (CAMERA_ALIGNED_16 (height image_size)) (CAMERA_ALIGNED_16 (width image_size)) f)))) ;;
  upd (fun m => on_target_jpeg (set_y (phy_y (cap_yuv_rot m)) (vir_y (cap_yuv_rot m))) m) ;;
  mret (mem_res, mem_end, channel_size).

(** The body of [camera_arrange_capture_buf] on [capture_mem[0]]. *)
Definition arrange_first sn_size sn_trim image_size orig_fmt cap_size thum_size need_rot : M H unit :=
  let iw := CAMERA_ALIGNED_16 (width image_size) in
  let ih := CAMERA_ALIGNED_16 (height image_size) in
  let mem_res := buf_size mem_frm in
  upd (fun _ => zero_mem) ;;
  upd (on_target_jpeg (set_buf_size (get_jpeg_size iw ih (width thum_size) (height thum_size)))) ;;
  '(mem_res, mem_end, channel_size) ←
    (if orig_fmt =? IMG_DATA_TYPE_RAW then arrange_raw_buf sn_size sn_trim image_size orig_fmt need_rot mem_res 0
     else if orig_fmt =? IMG_DATA_TYPE_JPEG then arrange_jpeg_buf sn_size sn_trim image_size orig_fmt cap_size need_rot mem_res 0
     else arrange_yuv_buf image_size orig_fmt cap_size need_rot mem_res 0);
  '(mem_res, mem_end) ← arrange_misc_buf image_size thum_size mem_res mem_end;
  (if need_rot then _ ← arrange_rot_buf image_size need_rot mem_res mem_end channel_size; mret tt else mret tt) ;;
  upd (on_target_jpeg (fun f => set_buf_size (buf_size f -u JPEG_EXIF_SIZE)
    (set_y (phy_y f +u JPEG_EXIF_SIZE) (vir_y f +u JPEG_EXIF_SIZE) f))).

(** The copies for a burst of [image_cnt] pictures; [None]: outside the array. *)
Fixpoint copy_mem (n i : nat) (capture_mem : list cmr_cap_mem) : option (list cmr_cap_mem) :=
  match n with
  | O => Some capture_mem
  | S n' => m0 ← capture_mem !! 0%nat; _ ← capture_mem !! i; copy_mem n' (S i) (<[i := m0]> capture_mem)
  end.

(** Whether it succeeds, the array and the state of the service. *)
Definition camera_arrange_capture_buf sn_size sn_trim image_size orig_fmt cap_size thum_size need_rot (image_cnt : Z)
    (capture_mem : list cmr_cap_mem) (h : H) : option (bool * list cmr_cap_mem * H) :=
  m0 ← capture_mem !! 0%nat;
  match arrange_first sn_size sn_trim image_size orig_fmt cap_size thum_size need_rot (m0, h) with
  | (None, (m, h)) => Some (false, <[0%nat := m]> capture_mem, h)
  | (Some _, (m, h)) =>
    l ← copy_mem (Z.to_nat (image_cnt - 1)) 1 (<[0%nat := m]> capture_mem); Some (true, l, h)
  end.
End Block.
End Arrange.

(** ** Layout *)

(** Pictures of at most 8192 by 8192 points, and a part of the sensor's
    picture. *)
Definition dims (s : img_size) : Prop := 0 <= width s <= 8192 /\ 0 <= height s <= 8192.
Definition trim_ok (sn : img_size) (r : img_rect) : Prop :=
  0 <= start_y r /\ 0 <= rheight r /\ start_y r + rheight r <= height sn.
(** The block does not wrap around the address space. *)
Definition block_ok (f : img_frm) : Prop :=
  0 <= buf_size f /\ 0 <= phy_y f /\ phy_y f + buf_size f < 2 ^ 32 /\ 0 <= vir_y f /\ vir_y f + buf_size f < 2 ^ 32.

Definition area (s : img_size) : Z := width s * height s.
Definition area16 (s : img_size) : Z := CAMERA_ALIGNED_16 (width s) * CAMERA_ALIGNED_16 (height s).

Lemma aligned_16_spec w : 0 <= w < 2 ^ 31 -> w <= CAMERA_ALIGNED_16 w <= w + 15 /\ CAMERA_ALIGNED_16 w mod 16 = 0.
Proof.
  intros Hw. unfold CAMERA_ALIGNED_16. rewrite !u32_small by (rewrite ?u32_small; unfold is_u32; lia).
  rewrite Z.shiftl_mul_pow2, Z.shiftr_div_pow2 by lia. split; zlia.
Qed.

Lemma aligned_16_le w : 0 <= w <= 8192 -> 0 <= CAMERA_ALIGNED_16 w <= 8192.
Proof. intros Hw. pose proof (aligned_16_spec w ltac:(lia)). zlia. Qed.

Lemma area_bound s : dims s -> 0 <= area s <= 2 ^ 26.
Proof. unfold area. intros [? ?]. nia. Qed.
Lemma area16_bound s : dims s -> 0 <= area16 s <= 2 ^ 26.
Proof.
  unfold area16. intros [Hw Hh]. apply aligned_16_le in Hw. apply aligned_16_le in Hh. nia.
Qed.

Lemma u32_area w h : 0 <= w <= 8192 -> 0 <= h <= 8192 -> u32 (w * h) = w * h.
Proof. intros. apply u32_small. unfold is_u32. nia. Qed.

Lemma shiftr_1 z : Z.shiftr z 1 = z / 2.
Proof. by rewrite Z.shiftr_div_pow2. Qed.

Lemma by_word_spec a : 0 <= a < 2 ^ 31 -> ADDR_BY_WORD a = (a + 3) / 4 * 4.
Proof.
  intros Ha. unfold ADDR_BY_WORD. rewrite u32_small by (unfold is_u32; lia).
  assert (E : Z.land (a + 3) 0xfffffffc = Z.shiftl (Z.shiftr (a + 3) 2) 2).
  { apply Z.bits_inj'. intros k Hk. rewrite Z.land_spec, Z.shiftl_spec by lia. change 0xfffffffc with (Z.shiftl (Z.ones 30) 2).
    rewrite Z.shiftl_spec by lia. destruct (Z.ltb_spec k 2).
    - rewrite !(Z.testbit_neg_r _ (k - 2)) by lia. apply andb_false_r.
    - rewrite Z.shiftr_spec by lia. replace (k - 2 + 2) with k by lia. rewrite Z.testbit_ones by lia.
      destruct (Z.ltb_spec (k - 2) 30); [by rewrite (proj2 (Z.leb_le 0 (k - 2))), andb_true_r by lia|].
      rewrite (Z.bits_above_log2 (a + 3) k); [done|lia|]. apply Z.log2_lt_pow2; [lia|].
      apply Z.lt_le_trans with (2 ^ 32); [lia|]. apply Z.pow_le_mono_r; lia. }
  rewrite E, Z.shiftl_mul_pow2, Z.shiftr_div_pow2 by lia. done.
Qed.

Lemma area16_mod s : dims s -> area16 s mod 8 = 0.
Proof.
  intros [Hw Hh]. unfold area16. pose proof (aligned_16_spec (width s) ltac:(lia)) as [_ Ew].
  apply Z.mod_divide in Ew; [|done]. destruct Ew as [k ->]. apply Z.mod_divide; [done|]. exists (2 * k * CAMERA_ALIGNED_16 (height s)). lia.
Qed.

(** Half a byte per point, and room for the EXIF header of a small picture. *)
Lemma jpeg_size_spec s tw th :
  dims s -> get_jpeg_size (CAMERA_ALIGNED_16 (width s)) (CAMERA_ALIGNED_16 (height s)) tw th =
    area16 s / 2 + (if area16 s <=? JPEG_SMALL_SIZE then JPEG_EXIF_SIZE else 0).
Proof.
  intros Hs. pose proof (area16_bound s Hs) as Hb. pose proof (area16_mod s Hs). destruct Hs as [Hw Hh].
  unfold get_jpeg_size, CMR_JPEG_SZIE. rewrite u32_area by (by apply aligned_16_le). fold (area16 s).
  unfold JPEG_SMALL_SIZE, JPEG_EXIF_SIZE. destruct (Z.leb_spec (area16 s) (300 * 1024)).
  - rewrite u32_small by (unfold is_u32; zlia). rewrite by_word_spec; zlia.
  - rewrite by_word_spec; zlia.
Qed.

(** Removes the wraps that do not wrap. *)
Ltac u32s :=
  repeat match goal with
  | |- context [u32 ?z] => lazymatch z with context [u32 _] => fail | _ => rewrite (u32_small z) by (unfold is_u32; zlia) end
  end.

Lemma run_some {H A B} (x : M H A) (f : A -> M H B) s a s' : x s = (Some a, s') -> (x ≫= f) s = f a s'.
Proof. intros E. unfold mbind, M_bind. by rewrite E. Qed.
Lemma run_none {H A B} (x : M H A) (f : A -> M H B) s s' : x s = (None, s') -> (x ≫= f) s = (None, s').
Proof. intros E. unfold mbind, M_bind. by rewrite E. Qed.

Section Layout.
Context {H : Type} (alloc_mem : H -> Z -> option (Z * Z) * H) (mem_frm : img_frm).
Implicit Types (m : cmr_cap_mem) (h : H) (f : img_frm).

(** [sz] bytes at the addresses [p] and [v] are between the offsets [lo] and
    [hi] of the block; or they were returned by the service. *)
Definition placed (lo hi p v sz : Z) : Prop :=
  exists o, lo <= o /\ o + sz <= hi /\ p = phy_y mem_frm + o /\ v = vir_y mem_frm + o.
Definition granted (p v sz : Z) : Prop := exists h h', alloc_mem h sz = (Some (p, v), h').

(** The planes of the frame that arrives and of the frame that is encoded, for
    a sensor that delivers YUV: the luminance in the first [n] bytes, the
    chrominance behind it up to [off]. *)
Definition yuv_planes (img cap : img_size) (n off : Z) m : Prop :=
  placed 0 n (phy_y (target_yuv m)) (vir_y (target_yuv m)) (area16 img) /\
  placed n off (phy_u (target_yuv m)) (vir_u (target_yuv m)) (area16 img / 2) /\
  placed 0 n (phy_y (cap_yuv m)) (vir_y (cap_yuv m)) (area cap) /\
  placed n off (phy_u (cap_yuv m)) (vir_u (cap_yuv m)) (area cap / 2).

(** The JPEG file behind the frame. *)
Definition jpeg_behind (need_rot : bool) (off jn : Z) m : Prop :=
  buf_size (target_jpeg m) = jn /\
  (need_rot = false -> phy_y (target_jpeg m) = phy_y mem_frm + off /\ vir_y (target_jpeg m) = vir_y mem_frm + off).
Definition jpeg_room (need_rot : bool) (jn : Z) : Z := if need_rot then 0 else jn.

Lemma placed_at o lo hi p v sz :
  lo <= o /\ o + sz <= hi /\ p = phy_y mem_frm + o /\ v = vir_y mem_frm + o -> placed lo hi p v sz.
Proof. intros. by exists o. Qed.

Hypothesis Hblock : block_ok mem_frm.

(** The step that places the JPEG file behind a frame of [off] bytes. *)
Lemma place_jpeg_run {B} (k : Z * Z -> M H B) need_rot off m h jn :
  0 <= off <= buf_size mem_frm -> buf_size (target_jpeg m) = jn -> 0 <= jn ->
  (place_jpeg mem_frm need_rot (buf_size mem_frm -u off) off ≫= k) (m, h) =
    if buf_size mem_frm <? off + jpeg_room need_rot jn then (None, (m, h))
    else k (buf_size mem_frm - (off + jpeg_room need_rot jn), off + jpeg_room need_rot jn)
          ((if need_rot then m else on_target_jpeg (set_y (phy_y mem_frm + off) (vir_y mem_frm + off)) m), h).
Proof.
  intros Ho Hj Hj0. destruct Hblock as (? & ? & ? & ? & ?). rewrite (u32_small (_ - off)) by (unfold is_u32; lia).
  unfold mbind at 1, M_bind at 1, place_jpeg, jpeg_room. destruct need_rot.
  - rewrite (proj2 (Z.ltb_ge _ _)) by lia. cbv [mret M_ret]. f_equal. f_equal; lia.
  - cbv [mbind M_bind get_mem CMR_NO_MEM fst snd]. rewrite Hj.
    destruct (Z.ltb_spec (buf_size mem_frm - off) jn) as [?|?].
    + by rewrite (proj2 (Z.ltb_lt _ _)) by lia.
    + rewrite (proj2 (Z.ltb_ge _ _)) by lia. cbv [mret M_ret upd fst snd]. u32s. f_equal. f_equal; lia.
Qed.

Lemma jpeg_behind_placed need_rot off jn m :
  buf_size (target_jpeg m) = jn ->
  jpeg_behind need_rot off jn (if need_rot then m else on_target_jpeg (set_y (phy_y mem_frm + off) (vir_y mem_frm + off)) m).
Proof. intros Hj. split; [by destruct need_rot|by intros ->]. Qed.

Lemma arrange_yuv_spec img cap orig_fmt need_rot m h (jn := buf_size (target_jpeg m))
    (n := Z.max (area16 img) (area cap)) (off := 3 * n / 2) :
  dims img -> dims cap -> orig_fmt <> IMG_DATA_TYPE_JPEG -> orig_fmt <> IMG_DATA_TYPE_RAW -> 0 <= jn ->
  exists r m', arrange_yuv_buf mem_frm img orig_fmt cap need_rot (buf_size mem_frm) 0 (m, h) = (r, (m', h)) /\
  match r with
  | None => buf_size mem_frm < off + jpeg_room need_rot jn
  | Some (res, e, ch) =>
    e = off + jpeg_room need_rot jn /\ e <= buf_size mem_frm /\ res = buf_size mem_frm - e /\ ch = n /\
    jpeg_behind need_rot off jn m' /\ yuv_planes img cap n off m'
  end.
Proof.
  intros Hi Hc H1 H2 Hj. assert (Dn : n = Z.max (area16 img) (area cap)) by done. assert (Do : off = 3 * n / 2) by done.
  clearbody n off. pose proof (area16_bound img Hi) as Bi. pose proof (area_bound cap Hc) as Bc.
  destruct Hblock as (G1 & G2 & G3 & G4 & G5). destruct Hi as [Hw Hh], Hc as [Hw' Hh'].
  unfold arrange_yuv_buf. rewrite (proj2 (Z.eqb_neq _ _) H1), (proj2 (Z.eqb_neq _ _) H2). cbn [orb].
  rewrite !u32_area by (try apply aligned_16_le; lia). fold (area16 img) (area cap).
  assert (E : (if area cap <? area16 img then area16 img else area cap) = n) by (destruct (Z.ltb_spec (area cap) (area16 img)); lia).
  rewrite E. assert (Hoff : Z.shiftr (n *u 3) 1 = off).
  { rewrite shiftr_1, Do. rewrite u32_small by (unfold is_u32; lia). f_equal. lia. }
  rewrite Hoff. set (first := if area cap <? area16 img then _ else _).
  assert (F : exists m1, first (m, h) = (Some tt, (m1, h)) /\ target_jpeg m1 = target_jpeg m /\
      (off <= buf_size mem_frm -> yuv_planes img cap n off m1)).
  { unfold first. destruct (Z.ltb_spec (area cap) (area16 img)) as [Hlt|Hge].
    - rewrite (u32_small (area16 img - area cap)) by (unfold is_u32; lia). rewrite shiftr_1.
      eexists. split; [reflexivity|]. split; [reflexivity|]. intros Ho. cbn.
      split_and!; [apply (placed_at 0)|apply (placed_at (area16 img))|apply (placed_at (area16 img - area cap))
        |apply (placed_at (area16 img + (area16 img - area cap) / 2))]; cbn; u32s; zlia.
    - eexists. split; [reflexivity|]. split; [reflexivity|]. intros Ho. cbn.
      split_and!; [apply (placed_at 0)|apply (placed_at (area cap))|apply (placed_at 0)|apply (placed_at (area cap))]; cbn; u32s; zlia. }
  destruct F as (m1 & F1 & F2 & F3). rewrite (run_some _ _ _ _ _ F1). clear first F1.
  unfold CMR_NO_MEM. destruct (Z.ltb_spec (buf_size mem_frm) off) as [Ho|Ho].
  { eexists None, _. split; [reflexivity|]. unfold jpeg_room. destruct need_rot; lia. }
  rewrite (run_some (mret tt) _ _ tt (m1, h)) by done.
  assert (P : yuv_planes img cap n off m1) by auto. clear F3.
  rewrite (place_jpeg_run _ need_rot off m1 h jn); [|zlia|by rewrite F2|done].
  destruct (Z.ltb_spec (buf_size mem_frm) (off + jpeg_room need_rot jn)) as [Hn|Hn].
  - by eexists None, _.
  - eexists (Some _), _. split; [reflexivity|]. split_and!; try lia.
    + apply (jpeg_behind_placed need_rot off jn m1). by rewrite F2.
    + by destruct need_rot.
Qed.

(** A sensor that delivers JPEG: both planes have [y_end] bytes. *)
Definition jpeg_y_end (sn : img_size) (trim : img_rect) (img : img_size) : Z :=
  (height sn - start_y trim - rheight trim) * width sn + Z.max (area16 img) (area sn).
Definition jpeg_planes (sn img : img_size) (y_end : Z) m : Prop :=
  placed 0 y_end (phy_y (target_yuv m)) (vir_y (target_yuv m)) (area16 img) /\
  placed y_end (2 * y_end) (phy_u (target_yuv m)) (vir_u (target_yuv m)) (area16 img) /\
  placed 0 y_end (phy_y (cap_yuv m)) (vir_y (cap_yuv m)) (area sn) /\
  placed y_end (2 * y_end) (phy_u (cap_yuv m)) (vir_u (cap_yuv m)) (area sn).

Lemma trim_rows sn trim : dims sn -> trim_ok sn trim -> 0 <= (height sn - start_y trim - rheight trim) * width sn <= area sn.
Proof. unfold area. intros [? ?] (? & ? & ?). nia. Qed.

Lemma arrange_jpeg_spec sn trim img cap need_rot m h (jn := buf_size (target_jpeg m))
    (y_end := jpeg_y_end sn trim img) (off := 2 * y_end) :
  dims sn -> trim_ok sn trim -> dims img -> 0 <= jn ->
  exists r m', arrange_jpeg_buf mem_frm sn trim img IMG_DATA_TYPE_JPEG cap need_rot (buf_size mem_frm) 0 (m, h) = (r, (m', h)) /\
  match r with
  | None => buf_size mem_frm < off + jpeg_room need_rot jn
  | Some (res, e, ch) =>
    e = off + jpeg_room need_rot jn /\ e <= buf_size mem_frm /\ res = buf_size mem_frm - e /\ ch = area16 img /\
    jpeg_behind need_rot off jn m' /\ jpeg_planes sn img y_end m'
  end.
Proof.
  intros Hs Ht Hi Hj. pose proof (area16_bound img Hi) as Bi. pose proof (area_bound sn Hs) as Bs. pose proof (trim_rows sn trim Hs Ht) as Bt.
  destruct Hblock as (G1 & G2 & G3 & G4 & G5). destruct Hi as [Hw Hh], Hs as [Hw' Hh'], Ht as (T1 & T2 & T3).
  unfold arrange_jpeg_buf. rewrite Z.eqb_refl. cbn [negb].
  rewrite (u32_small (height sn - start_y trim)), (u32_small (_ - rheight trim)) by (unfold is_u32; lia).
  rewrite (u32_area (CAMERA_ALIGNED_16 _)) by (by apply aligned_16_le). rewrite (u32_area (height sn - _ - _)), (u32_area (height sn)) by lia.
  rewrite (Z.mul_comm (height sn) (width sn)). fold (area16 img) (area sn).
  rewrite (u32_small (_ + Z.max _ _)) by (unfold is_u32; lia). fold (jpeg_y_end sn trim img) y_end.
  assert (Dy : y_end = (height sn - start_y trim - rheight trim) * width sn + Z.max (area16 img) (area sn)) by done.
  rewrite (u32_small (Z.shiftl y_end 1)) by (unfold is_u32; rewrite Z.shiftl_mul_pow2 by lia; lia).
  assert (Do : Z.shiftl y_end 1 = off) by (unfold off; rewrite Z.shiftl_mul_pow2 by lia; lia). rewrite Do.
  assert (Do' : off = 2 * y_end) by done. clearbody y_end off.
  do 4 (rewrite (run_some (upd _) _ _ tt _ eq_refl)). cbn [fst snd].
  unfold CMR_NO_MEM. destruct (Z.ltb_spec (buf_size mem_frm) off) as [Ho|Ho].
  { eexists None, _. split; [reflexivity|]. unfold jpeg_room. destruct need_rot; lia. }
  erewrite (run_some (mret tt)) by reflexivity.
  erewrite (place_jpeg_run _ need_rot off _ h jn); [|lia|reflexivity|done].
  destruct (Z.ltb_spec (buf_size mem_frm) (off + jpeg_room need_rot jn)) as [Hn|Hn]; [by eexists None, _|].
  eexists (Some _), _. split; [reflexivity|]. split_and!; try lia.
  - by split; destruct need_rot.
  - split_and!; [apply (placed_at 0)|apply (placed_at y_end)|apply (placed_at (y_end - area sn))|apply (placed_at (2 * y_end - area sn))];
      destruct need_rot; cbn; u32s; lia.
Qed.

(** A sensor that delivers raw data: [yy] bytes in front of the frame are
    saved because the rows above them are not needed. *)
Definition raw_yy (sn : img_size) (trim : img_rect) (img : img_size) : Z :=
  if negb (CAMERA_ALIGNED_16 (width img) =? width sn) || negb (CAMERA_ALIGNED_16 (height img) =? height sn) then 256 * width sn
  else if negb (start_y trim =? 0) then (height sn - rheight trim - start_y trim) * width sn else 0.
Definition raw_end (sn : img_size) (yy : Z) : Z := area sn * 10 / 8 + 256 * width sn + yy - yy * 10 / 8.
Definition raw_uv (sn : img_size) (yy : Z) : Z := area sn / 2 + yy / 2.

Definition raw_planes (sn : img_size) (yy off : Z) m : Prop :=
  phy_y (target_yuv m) = phy_y mem_frm /\ vir_y (target_yuv m) = vir_y mem_frm /\
  phy_y (cap_yuv m) = phy_y mem_frm + yy /\ vir_y (cap_yuv m) = vir_y mem_frm + yy /\
  (5 * yy + 4 <= area sn + 4 * (256 * width sn) -> placed 0 off (phy_y (cap_yuv m)) (vir_y (cap_yuv m)) (area sn)) /\
  buf_size (cap_raw m) = area sn * 10 / 8 /\
  placed 0 off (phy_y (cap_raw m)) (vir_y (cap_raw m)) (buf_size (cap_raw m) - yy * 10 / 8) /\
  phy_u (cap_yuv m) = phy_u (target_yuv m) +u yy / 2 /\ vir_u (cap_yuv m) = vir_u (target_yuv m) +u yy / 2.

Lemma raw_yy_bound sn trim img : dims sn -> trim_ok sn trim -> 256 <= height sn -> 0 <= raw_yy sn trim img <= area sn.
Proof.
  intros Hs Ht H256. pose proof (trim_rows sn trim Hs Ht) as Bt. pose proof (area_bound sn Hs). destruct Hs as [Hw Hh]. unfold raw_yy.
  destruct (_ || _); [unfold area; nia|]. destruct (negb _); [|lia].
  replace (height sn - rheight trim - start_y trim) with (height sn - start_y trim - rheight trim) by lia. lia.
Qed.

Lemma arrange_raw_spec sn trim img need_rot m h (jn := buf_size (target_jpeg m))
    (yy := raw_yy sn trim img) (off := raw_end sn yy) (e1 := off + jpeg_room need_rot jn) :
  dims sn -> trim_ok sn trim -> 256 <= height sn -> dims img -> 0 <= jn ->
  exists r m' h', arrange_raw_buf alloc_mem mem_frm sn trim img IMG_DATA_TYPE_RAW need_rot (buf_size mem_frm) 0 (m, h) = (r, (m', h')) /\
  match r with
  | None => buf_size mem_frm < e1 \/ exists h1, fst (alloc_mem h1 (raw_uv sn yy)) = None
  | Some (res, e, ch) =>
    e1 <= e <= buf_size mem_frm /\ res = buf_size mem_frm - e /\ ch = area sn /\
    jpeg_behind need_rot off jn m' /\ raw_planes sn yy off m' /\
    (placed e1 e (phy_u (target_yuv m')) (vir_u (target_yuv m')) (raw_uv sn yy) \/
     e = e1 /\ granted (phy_u (target_yuv m')) (vir_u (target_yuv m')) (raw_uv sn yy))
  end.
Proof.
  intros Hs Ht H256 Hi Hj. pose proof (area_bound sn Hs) as Bs. pose proof (raw_yy_bound sn trim img Hs Ht H256) as By. fold yy in By.
  destruct Hblock as (G1 & G2 & G3 & G4 & G5). destruct Hi as [Hw Hh], Hs as [Hw' Hh'], Ht as (T1 & T2 & T3).
  unfold arrange_raw_buf. rewrite Z.eqb_refl. cbn [negb]. unfold CMR_SLICE_HEIGHT, RAWRGB_BIT_WIDTH.
  rewrite !(u32_small (256 * width sn)) by (unfold is_u32; lia).
  rewrite (u32_small (height sn - rheight trim)), (u32_small (_ - start_y trim)) by (unfold is_u32; lia).
  rewrite (u32_area (width sn)), (u32_area (height sn - _ - _)) by lia. fold (area sn) (raw_yy sn trim img) yy.
  assert (Y26 : yy <= 2 ^ 26) by lia. rewrite !shiftr_1.
  rewrite (u32_small (area sn * 10)), (u32_small (yy * 10)), (u32_small (area sn / 2 + yy / 2)) by (unfold is_u32; zlia). fold (raw_uv sn yy).
  assert (Doff : area sn * 10 / 8 +u 256 * width sn +u yy -u yy * 10 / 8 = off).
  { unfold off, raw_end. u32s. reflexivity. }
  rewrite Doff. assert (Do : off = area sn * 10 / 8 + 256 * width sn + yy - yy * 10 / 8) by done.
  assert (De : e1 = off + jpeg_room need_rot jn) by done. assert (Du : raw_uv sn yy = area sn / 2 + yy / 2) by done.
  clearbody yy off e1. set (uv := raw_uv sn yy) in *. clearbody uv.
  do 4 (rewrite (run_some (upd _) _ _ tt _ eq_refl)). cbn [fst snd].
  unfold CMR_NO_MEM. destruct (Z.ltb_spec (buf_size mem_frm) off) as [Ho|Ho].
  { eexists None, _, _. split; [reflexivity|]. left. unfold jpeg_room in De. destruct need_rot; lia. }
  erewrite (run_some (mret tt)) by reflexivity.
  rewrite Z.add_0_l, (u32_small off) by (unfold is_u32; zlia).
  erewrite (place_jpeg_run _ need_rot off _ h jn); [|zlia|reflexivity|done]. rewrite <- De.
  destruct (Z.ltb_spec (buf_size mem_frm) e1) as [Hn|Hn]; [eexists None, _, _; split; [reflexivity|by left]|].
  assert (He : off <= e1) by (unfold jpeg_room in De; destruct need_rot; zlia).
  assert (Hyy : 0 <= yy + 256 * width sn + (area sn * 10 / 8 - yy * 10 / 8) <= off) by zlia.
  rewrite !(u32_small (_ + yy)), !(u32_small (_ + 256 * width sn)) by (unfold is_u32; zlia).
  destruct (Z.ltb_spec uv (buf_size mem_frm - e1)) as [Hu|Hu].
  - erewrite (run_some (mret _)) by reflexivity.
    rewrite !(u32_small (_ + e1)), (u32_small (_ - uv)), (u32_small (e1 + uv)) by (unfold is_u32; zlia).
    eexists (Some _), _, _. split; [reflexivity|]. split_and!; [zlia|zlia|zlia|done|..].
    + by split; destruct need_rot.
    + split_and!; try (by destruct need_rot).
      * intros Hy. apply (placed_at yy). destruct need_rot; cbn; zlia.
      * apply (placed_at (yy + 256 * width sn)). destruct need_rot; cbn; lia.
    + left. apply (placed_at e1). destruct need_rot; cbn; lia.
  - destruct (alloc_mem h uv) as [[[p v]|] h'] eqn:Ea.
    + erewrite (run_some (_ ≫= _)) by (cbv [mbind M_bind alloc mret M_ret snd fst]; rewrite Ea; reflexivity).
      eexists (Some _), _, _. split; [reflexivity|]. split_and!; [lia|lia|lia|done|..].
      * by split; destruct need_rot.
      * split_and!; try (by destruct need_rot).
        -- intros Hy. apply (placed_at yy). destruct need_rot; cbn; zlia.
        -- apply (placed_at (yy + 256 * width sn)). destruct need_rot; cbn; lia.
      * right. split; [done|]. exists h, h'. by destruct need_rot.
    + erewrite (run_none (_ ≫= _)) by (cbv [mbind M_bind alloc mret M_ret snd fst]; rewrite Ea; reflexivity).
      eexists None, _, _. split; [reflexivity|]. right. exists h. by rewrite Ea.
Qed.

(** ** The thumbnail and the rotated frame *)
Definition thum_yuv_bytes (thum : img_size) : Z := area thum * 3 / 2.
Definition thum_jpeg_bytes (thum : img_size) : Z := ADDR_BY_WORD (area thum / 2).

Lemma thum_sizes img thum : dims thum ->
  (fun g => g (CAMERA_ALIGNED_16 (width img)) (CAMERA_ALIGNED_16 (height img)) (width thum) (height thum)) <$> drop 1 get_size =
    [thum_yuv_bytes thum; thum_jpeg_bytes thum] /\
  0 <= thum_yuv_bytes thum < 2 ^ 27 /\ 0 <= thum_jpeg_bytes thum < 2 ^ 26.
Proof.
  intros Ht. pose proof (area_bound thum Ht) as Bt. destruct Ht as [Hw Hh].
  unfold get_size, get_thum_yuv_size, get_thum_jpeg_size, CMR_JPEG_SZIE. cbn [drop fmap list_fmap].
  rewrite (u32_area (width thum)) by lia. fold (area thum). rewrite u32_small by (unfold is_u32; lia).
  pose proof (by_word_spec (area thum / 2) ltac:(zlia)) as Hw4. unfold thum_yuv_bytes, thum_jpeg_bytes. rewrite Hw4. split; [done|]. zlia.
Qed.

(** A buffer in the block, or one of the service's: then the block is not
    used further. *)
Definition got (lo hi p v sz : Z) : Prop := placed lo hi p v sz \/ hi = lo /\ granted p v sz.

Lemma arrange_misc_spec img thum res e m h :
  dims thum -> 0 <= e -> 0 <= res -> res + e = buf_size mem_frm ->
  exists r m' h', arrange_misc_buf alloc_mem mem_frm img thum res e (m, h) = (r, (m', h')) /\
  match r with
  | None => exists h1 sz, fst (alloc_mem h1 sz) = None
  | Some (res', e') =>
    exists e3, e <= e3 <= e' /\ e' <= buf_size mem_frm /\ res' = buf_size mem_frm - e' /\
    got e e3 (phy_y (thum_yuv m')) (vir_y (thum_yuv m')) (thum_yuv_bytes thum) /\
    got e3 e' (phy_y (thum_jpeg m')) (vir_y (thum_jpeg m')) (thum_jpeg_bytes thum) /\
    cap_raw m' = cap_raw m /\ cap_yuv m' = cap_yuv m /\ target_yuv m' = target_yuv m /\ target_jpeg m' = target_jpeg m
  end.
Proof.
  intros Ht He Hr Hre. destruct Hblock as (G1 & G2 & G3 & G4 & G5).
  unfold arrange_misc_buf. destruct (thum_sizes img thum Ht) as (-> & By & Bj).
  set (ny := thum_yuv_bytes thum) in *. set (nj := thum_jpeg_bytes thum) in *. clearbody ny nj. cbn [misc_block].
  destruct (Z.leb_spec ny res) as [Hy|Hy]; [rewrite (u32_small (res - ny)), (u32_small (e + ny)) by (unfold is_u32; lia);
    destruct (Z.leb_spec nj (res - ny)) as [Hj|Hj]|].
  - eexists (Some _), _, _. split; [reflexivity|]. exists (e + ny). u32s. split_and!; try lia; try done.
    + left. apply (placed_at e). cbn. u32s. lia.
    + left. apply (placed_at (e + ny)). cbn. u32s. lia.
  - cbv [misc_alloc mbind M_bind alloc mret M_ret snd fst]. destruct (alloc_mem h nj) as [[[p v]|] h'] eqn:Ea.
    + eexists (Some _), _, _. split; [reflexivity|]. exists (e + ny). split_and!; try lia; try done.
      * left. apply (placed_at e). cbn. u32s. lia.
      * right. split; [done|]. by exists h, h'.
    + eexists None, _, _. split; [reflexivity|]. exists h, nj. by rewrite Ea.
  - cbv [misc_alloc mbind M_bind alloc mret M_ret snd fst]. destruct (alloc_mem h ny) as [[[p v]|] h'] eqn:Ea.
    + destruct (alloc_mem h' nj) as [[[p' v']|] h''] eqn:Ea'.
      * eexists (Some _), _, _. split; [reflexivity|]. exists e. split_and!; try lia; try done.
        -- right. split; [done|]. by exists h, h'.
        -- right. split; [done|]. by exists h', h''.
      * eexists None, _, _. split; [reflexivity|]. exists h', nj. by rewrite Ea'.
    + eexists None, _, _. split; [reflexivity|]. exists h, ny. by rewrite Ea.
Qed.

(** The rotated frame in the block, or in two pieces from the service; the
    JPEG file is put over it. *)
Definition rotated (lo hi ch : Z) m : Prop :=
  (placed lo hi (phy_y (cap_yuv_rot m)) (vir_y (cap_yuv_rot m)) (3 * ch / 2) /\
   phy_u (cap_yuv_rot m) = phy_y (cap_yuv_rot m) + ch /\ vir_u (cap_yuv_rot m) = vir_y (cap_yuv_rot m) + ch) \/
  (hi = lo /\ granted (phy_y (cap_yuv_rot m)) (vir_y (cap_yuv_rot m)) ch /\
   granted (phy_u (cap_yuv_rot m)) (vir_u (cap_yuv_rot m)) (ch / 2)).

Lemma arrange_rot_spec img res e ch m h :
  0 <= e -> 0 <= res -> res + e = buf_size mem_frm -> 0 <= ch <= 2 ^ 26 ->
  exists r m' h', arrange_rot_buf alloc_mem mem_frm img true res e ch (m, h) = (r, (m', h')) /\
  match r with
  | None => exists h1 sz, fst (alloc_mem h1 sz) = None
  | Some (res', e', _) =>
    e <= e' <= buf_size mem_frm /\ rotated e e' ch m' /\
    phy_y (target_jpeg m') = phy_y (cap_yuv_rot m') /\ vir_y (target_jpeg m') = vir_y (cap_yuv_rot m') /\
    buf_size (target_jpeg m') = buf_size (target_jpeg m) /\
    cap_raw m' = cap_raw m /\ cap_yuv m' = cap_yuv m /\ target_yuv m' = target_yuv m /\
    thum_yuv m' = thum_yuv m /\ thum_jpeg m' = thum_jpeg m
  end.
Proof.
  intros He Hr Hre Hc. destruct Hblock as (G1 & G2 & G3 & G4 & G5). unfold arrange_rot_buf. cbn [negb].
  rewrite (u32_small (ch * 3)), !shiftr_1 by (unfold is_u32; lia). rewrite (Z.mul_comm ch 3).
  destruct (Z.ltb_spec (3 * ch / 2) res) as [Hn|Hn].
  - eexists (Some _), _, _. split; [reflexivity|]. rewrite (u32_small (e + _)) by (unfold is_u32; zlia).
    split_and!; try zlia; try done. left. split_and!; [apply (placed_at e)|..]; cbn; u32s; zlia.
  - cbv [mbind M_bind alloc mret M_ret snd fst upd]. destruct (alloc_mem h ch) as [[[p v]|] h'] eqn:Ea.
    + destruct (alloc_mem h' (ch / 2)) as [[[p' v']|] h''] eqn:Ea'.
      * eexists (Some _), _, _. split; [reflexivity|]. split_and!; try lia; try done. right. split; [done|].
        split; [by exists h, h'|by exists h', h''].
      * eexists None, _, _. split; [reflexivity|]. exists h', (ch / 2). by rewrite Ea'.
    + eexists None, _, _. split; [reflexivity|]. exists h, ch. by rewrite Ea.
Qed.

(** ** The whole arrangement *)
Section Whole.
Context (sn : img_size) (trim : img_rect) (img : img_size) (orig_fmt : Z) (cap thum : img_size) (need_rot : bool).

Record inputs_ok : Prop := {
  in_sn : dims sn; in_trim : trim_ok sn trim; in_img : dims img; in_cap : dims cap; in_thum : dims thum;
  in_slice : orig_fmt = IMG_DATA_TYPE_RAW -> 256 <= height sn }.

Definition is_raw : bool := orig_fmt =? IMG_DATA_TYPE_RAW.
Definition is_jpeg : bool := orig_fmt =? IMG_DATA_TYPE_JPEG.
(** Where the frame ends, and the size of its luminance. *)
Definition frame_end : Z :=
  if is_raw then raw_end sn (raw_yy sn trim img)
  else if is_jpeg then 2 * jpeg_y_end sn trim img
  else 3 * Z.max (area16 img) (area cap) / 2.
Definition frame_channel : Z :=
  if is_raw then area sn else if is_jpeg then area16 img else Z.max (area16 img) (area cap).
Definition frame_planes m : Prop :=
  if is_raw then raw_planes sn (raw_yy sn trim img) frame_end m
  else if is_jpeg then jpeg_planes sn img (jpeg_y_end sn trim img) m
  else yuv_planes img cap (Z.max (area16 img) (area cap)) frame_end m.
Definition jpeg_bytes : Z :=
  get_jpeg_size (CAMERA_ALIGNED_16 (width img)) (CAMERA_ALIGNED_16 (height img)) (width thum) (height thum).

Lemma jpeg_bytes_bound : dims img -> JPEG_EXIF_SIZE <= jpeg_bytes <= area16 img / 2 + JPEG_EXIF_SIZE.
Proof.
  intros Hi. pose proof (area16_bound img Hi). unfold jpeg_bytes. rewrite jpeg_size_spec by done. unfold JPEG_SMALL_SIZE, JPEG_EXIF_SIZE.
  destruct (Z.leb_spec (area16 img) (300 * 1024)); zlia.
Qed.

(** The buffers follow each other in the block, each between its own two of
    the marks [frame_end <= e1 <= ... <= e5]. *)
Definition layout m : Prop :=
  exists e1 e2 e3 e4 e5,
  (frame_end <= e1 <= e2 /\ e2 <= e3 <= e4 /\ e4 <= e5 <= buf_size mem_frm) /\
  frame_planes m /\
  (orig_fmt = IMG_DATA_TYPE_RAW ->
     got e1 e2 (phy_u (target_yuv m)) (vir_u (target_yuv m)) (raw_uv sn (raw_yy sn trim img))) /\
  got e2 e3 (phy_y (thum_yuv m)) (vir_y (thum_yuv m)) (thum_yuv_bytes thum) /\
  got e3 e4 (phy_y (thum_jpeg m)) (vir_y (thum_jpeg m)) (thum_jpeg_bytes thum) /\
  buf_size (target_jpeg m) = jpeg_bytes - JPEG_EXIF_SIZE /\
  (need_rot = false ->
     placed frame_end e1 (phy_y (target_jpeg m) - JPEG_EXIF_SIZE) (vir_y (target_jpeg m) - JPEG_EXIF_SIZE) jpeg_bytes) /\
  (need_rot = true ->
     rotated e4 e5 frame_channel m /\
     phy_y (target_jpeg m) = phy_y (cap_yuv_rot m) +u JPEG_EXIF_SIZE /\
     vir_y (target_jpeg m) = vir_y (cap_yuv_rot m) +u JPEG_EXIF_SIZE).

Lemma planes_ext m m' : cap_raw m' = cap_raw m -> cap_yuv m' = cap_yuv m -> target_yuv m' = target_yuv m -> frame_planes m -> frame_planes m'.
Proof.
  intros E1 E2 E3. unfold frame_planes, raw_planes, jpeg_planes, yuv_planes. by rewrite E1, E2, E3.
Qed.

Lemma arrange_frame_spec m h :
  inputs_ok -> buf_size (target_jpeg m) = jpeg_bytes ->
  exists r m' h',
    (if is_raw then arrange_raw_buf alloc_mem mem_frm sn trim img orig_fmt need_rot (buf_size mem_frm) 0
     else if is_jpeg then arrange_jpeg_buf mem_frm sn trim img orig_fmt cap need_rot (buf_size mem_frm) 0
     else arrange_yuv_buf mem_frm img orig_fmt cap need_rot (buf_size mem_frm) 0) (m, h) = (r, (m', h')) /\
  match r with
  | None => buf_size mem_frm < frame_end + jpeg_room need_rot jpeg_bytes \/ exists h1 sz, fst (alloc_mem h1 sz) = None
  | Some (res, e2, ch) =>
    frame_end + jpeg_room need_rot jpeg_bytes <= e2 <= buf_size mem_frm /\ res = buf_size mem_frm - e2 /\ ch = frame_channel /\
    jpeg_behind need_rot frame_end jpeg_bytes m' /\ frame_planes m' /\
    (orig_fmt = IMG_DATA_TYPE_RAW ->
       got (frame_end + jpeg_room need_rot jpeg_bytes) e2 (phy_u (target_yuv m')) (vir_u (target_yuv m')) (raw_uv sn (raw_yy sn trim img)))
  end.
Proof.
  intros [Hs Ht Hi Hc Hth H256] Hj. assert (Hj0 : 0 <= jpeg_bytes).
  { pose proof (jpeg_bytes_bound Hi). unfold JPEG_EXIF_SIZE in *. lia. }
  unfold frame_planes, frame_end, frame_channel, is_raw, is_jpeg.
  destruct (Z.eqb_spec orig_fmt IMG_DATA_TYPE_RAW) as [->|Hr]; [|destruct (Z.eqb_spec orig_fmt IMG_DATA_TYPE_JPEG) as [->|Hn]].
  - destruct (arrange_raw_spec sn trim img need_rot m h) as (r & m' & h' & E & S); [done..|auto|done|by rewrite Hj|]. rewrite Hj in S.
    exists r, m', h'. split; [exact E|]. destruct r as [[[res e2] ch]|]; [|destruct S as [?|[h1 ?]]; eauto].
    destruct S as (S1 & S2 & S3 & S4 & S5 & S6). split_and!; try done; lia.
  - destruct (arrange_jpeg_spec sn trim img cap need_rot m h) as (r & m' & E & S); [done..|by rewrite Hj|]. rewrite Hj in S.
    exists r, m', h. split; [exact E|]. destruct r as [[[res e2] ch]|]; [|by left].
    destruct S as (S1 & S2 & S3 & S4 & S5 & S6). split_and!; try done; try lia.
  - destruct (arrange_yuv_spec img cap orig_fmt need_rot m h) as (r & m' & E & S); [done..|by rewrite Hj|]. rewrite Hj in S.
    exists r, m', h. split; [exact E|]. destruct r as [[[res e2] ch]|]; [|by left].
    destruct S as (S1 & S2 & S3 & S4 & S5 & S6). split_and!; try done; try lia.
Qed.

Lemma frame_end_nonneg : inputs_ok -> 0 <= frame_end /\ 0 <= frame_channel <= 2 ^ 26.
Proof.
  intros [Hs Ht Hi Hc Hth H256]. pose proof (area_bound sn Hs). pose proof (area_bound cap Hc). pose proof (area16_bound img Hi).
  pose proof (trim_rows sn trim Hs Ht). unfold frame_end, frame_channel, is_raw, is_jpeg, raw_end, jpeg_y_end.
  destruct (Z.eqb_spec orig_fmt IMG_DATA_TYPE_RAW) as [E|_].
  - pose proof (raw_yy_bound sn trim img Hs Ht (H256 E)). destruct Hs. split; zlia.
  - destruct (orig_fmt =? IMG_DATA_TYPE_JPEG); split; zlia.
Qed.

Lemma arrange_first_spec m h :
  inputs_ok ->
  exists r m' h', arrange_first alloc_mem mem_frm sn trim img orig_fmt cap thum need_rot (m, h) = (r, (m', h')) /\
  match r with
  | None => buf_size mem_frm < frame_end + jpeg_room need_rot jpeg_bytes \/ exists h1 sz, fst (alloc_mem h1 sz) = None
  | Some _ => layout m'
  end.
Proof.
  intros I. pose proof (frame_end_nonneg I) as [Hf Hch].
  pose proof (jpeg_bytes_bound (in_img I)) as Hjs. unfold JPEG_EXIF_SIZE in Hjs.
  pose proof (area16_bound img (in_img I)) as B16. pose proof Hblock as (G1 & G2 & G3 & G4 & G5).
  assert (Hroom : 0 <= jpeg_room need_rot jpeg_bytes) by (unfold jpeg_room; destruct need_rot; lia).
  unfold arrange_first. do 2 (rewrite (run_some (upd _) _ _ tt _ eq_refl)). cbn [fst snd]. fold jpeg_bytes is_raw is_jpeg.
  destruct (arrange_frame_spec (on_target_jpeg (set_buf_size jpeg_bytes) zero_mem) h I eq_refl) as (r1 & m1 & h1 & E1 & S1).
  destruct r1 as [[[res e2] ch]|]; [rewrite (run_some _ _ _ _ _ E1)|rewrite (run_none _ _ _ _ E1); by eexists None, _, _].
  destruct S1 as (P1 & -> & -> & [J1 J2] & P4 & P5). cbn beta iota.
  destruct (arrange_misc_spec img thum (buf_size mem_frm - e2) e2 m1 h1 (in_thum I)) as (r2 & m2 & h2 & E2 & S2); [lia..|].
  destruct r2 as [[res4 e4]|]; [rewrite (run_some _ _ _ _ _ E2)|rewrite (run_none _ _ _ _ E2); eexists None, _, _; split; [reflexivity|by right]].
  destruct S2 as (e3 & Q1 & Q2 & -> & Q4 & Q5 & R1 & R2 & R3 & R4). cbn beta iota.
  assert (J1' : buf_size (target_jpeg m2) = jpeg_bytes) by (by rewrite R4).
  assert (J3 : u32 (jpeg_bytes - JPEG_EXIF_SIZE) = jpeg_bytes - JPEG_EXIF_SIZE) by (apply u32_small; unfold is_u32, JPEG_EXIF_SIZE; zlia).
  destruct need_rot eqn:Hrot.
  - destruct (arrange_rot_spec img (buf_size mem_frm - e4) e4 frame_channel m2 h2) as (r3 & m3 & h3 & E3 & S3); [lia..|done|].
    destruct r3 as [[[res5 e5] ch5]|].
    2:{ rewrite (run_none _ _ _ _ (run_none _ _ _ _ E3)). eexists None, _, _. split; [reflexivity|by right]. }
    rewrite (run_some _ _ _ tt (m3, h3)) by (by rewrite (run_some _ _ _ _ _ E3)).
    destruct S3 as (T1 & T2 & T3 & T4 & T5 & T6 & T7 & T8 & T9 & T10).
    eexists (Some tt), _, _. split; [reflexivity|]. cbn [fst snd].
    exists (frame_end + jpeg_room true jpeg_bytes), e2, e3, e4, e5. split_and!; try lia.
    + eapply planes_ext; [| | |exact P4]; cbn; congruence.
    + intros Eraw. cbn. rewrite T8, R3. auto.
    + cbn. by rewrite T9.
    + cbn. by rewrite T10.
    + cbn. by rewrite T5, J1'.
    + intros Hno. congruence.
    + intros _. split; [exact T2|]. split; cbn; [by rewrite T3|by rewrite T4].
  - rewrite (run_some (mret tt) _ _ tt (m2, h2)) by done. eexists (Some tt), _, _. split; [reflexivity|]. cbn [fst snd].
    exists (frame_end + jpeg_room false jpeg_bytes), e2, e3, e4, e4. split_and!; try lia.
    + eapply planes_ext; [| | |exact P4]; cbn; congruence.
    + intros Eraw. cbn. rewrite R3. auto.
    + done.
    + done.
    + cbn. by rewrite J1'.
    + intros _. destruct (J2 eq_refl) as [J4 J5]. cbn [jpeg_room] in *. apply (placed_at frame_end). cbn. rewrite R4, J4, J5.
      unfold JPEG_EXIF_SIZE in *. u32s. lia.
    + intros Hno. congruence.
Qed.

(** The copies for a burst. *)
Lemma copy_mem_spec n i (l : list cmr_cap_mem) m0 :
  (0 < i)%nat -> l !! 0%nat = Some m0 -> (i + n <= length l)%nat ->
  exists l', copy_mem n i l = Some l' /\ l' !! 0%nat = Some m0 /\ (forall j, (i <= j < i + n)%nat -> l' !! j = Some m0) /\
    (forall j, (j < i)%nat -> l' !! j = l !! j).
Proof.
  revert i l. induction n as [|n IH]; intros i l Hi H0 Hn; cbn [copy_mem].
  - exists l. split_and!; try done. intros j ?. lia.
  - rewrite H0. destruct (lookup_lt_is_Some_2 l i) as [x Hx]; [lia|]. rewrite Hx. cbn [mbind option_bind].
    destruct (IH (S i) (<[i:=m0]> l)) as (l' & E & E0 & E1 & E2); [lia|by rewrite list_lookup_insert_ne by lia|rewrite length_insert; lia|].
    exists l'. split_and!; try done.
    + intros j Hj. destruct (decide (j = i)) as [->|Hne]; [|apply E1; lia]. rewrite E2 by lia. apply list_lookup_insert_eq. lia.
    + intros j Hj. rewrite E2 by lia. apply list_lookup_insert_ne. lia.
Qed.

Lemma arrange_outcome image_cnt capture_mem h :
  inputs_ok -> 1 <= image_cnt <= zlen capture_mem ->
  exists ok l h', camera_arrange_capture_buf alloc_mem mem_frm sn trim img orig_fmt cap thum need_rot image_cnt capture_mem h = Some (ok, l, h') /\
  if ok : bool then forall i, (i < Z.to_nat image_cnt)%nat -> exists m, l !! i = Some m /\ layout m
  else buf_size mem_frm < frame_end + jpeg_room need_rot jpeg_bytes \/ exists h1 sz, fst (alloc_mem h1 sz) = None.
Proof.
  intros I Hn. unfold camera_arrange_capture_buf. destruct (lookup_lt_is_Some_2 capture_mem 0) as [m0 Hm0]; [lia|].
  rewrite Hm0. cbn [mbind option_bind].
  destruct (arrange_first_spec m0 h I) as (r & m & h' & E & S). rewrite E. destruct r as [u|]; [|by eexists false, _, _].
  destruct (copy_mem_spec (Z.to_nat (image_cnt - 1)) 1 (<[0%nat := m]> capture_mem) m) as (l & El & L0 & L1 & _);
    [lia|apply list_lookup_insert_eq; lia|rewrite length_insert; lia|].
  rewrite El. eexists true, l, h'. split; [done|]. intros i Hi. exists m. split; [|done].
  destruct (decide (i = 0%nat)) as [->|]; [done|]. apply L1. lia.
Qed.
End Whole.
End Layout.


(** Whether [mem] bytes are enough for a YUV picture of up to [pix] points, and
    for a raw one of the same size up to 4608 points wide. *)
Definition row_enough (raw : bool) (r : Z * Z) : bool :=
  let '(pix, mem) := r in
  (pix =? 0) ||
  (if raw then (pix * 10 / 8 + 256 * 4608 + pix / 2 <=? mem) && (JPEG_SMALL_SIZE * 10 / 8 + 256 * 4608 + JPEG_SMALL_SIZE / 2 + JPEG_EXIF_SIZE <=? mem)
   else (2 * pix <=? mem) && (2 * JPEG_SMALL_SIZE + JPEG_EXIF_SIZE <=? mem)).

Lemma tables_enough camera_id sn_fmt : forallb (row_enough (sn_fmt =? SENSOR_IMAGE_FORMAT_RAW)) (mem_table camera_id sn_fmt) = true.
Proof.
  unfold mem_table. destruct (sn_fmt =? SENSOR_IMAGE_FORMAT_RAW), (camera_id =? 0), (camera_id =? 1); vm_compute; reflexivity.
Qed.

Lemma buf_size_row camera_id sn_fmt img mem :
  dims img -> 0 < area img -> camera_capture_buf_size camera_id sn_fmt img = Some mem ->
  exists pix, area img <= pix /\ 0 < pix /\ row_enough (sn_fmt =? SENSOR_IMAGE_FORMAT_RAW) (pix, mem) = true.
Proof.
  intros [Hw Hh] Ha. unfold camera_capture_buf_size. rewrite u32_area by lia. fold (area img).
  destruct (list_find _ _) as [[i [pix m]]|] eqn:E; [|done]. cbn. intros [= ->].
  apply list_find_Some in E as (E & Hp & _). cbn in Hp. exists pix. split_and!; [done|lia|].
  pose proof (tables_enough camera_id sn_fmt) as T. rewrite forallb_forall in T. apply (T (pix, mem)). apply list_elem_of_In. by eapply list_elem_of_lookup_2.
Qed.

Lemma area16_aligned img : dims img -> width img mod 16 = 0 -> height img mod 16 = 0 ->
  CAMERA_ALIGNED_16 (width img) = width img /\ CAMERA_ALIGNED_16 (height img) = height img.
Proof.
  intros [Hw Hh] Ew Eh. pose proof (aligned_16_spec (width img) ltac:(lia)). pose proof (aligned_16_spec (height img) ltac:(lia)). zlia.
Qed.

(** C22: the memory is enough.  A block of the size that
    [camera_capture_buf_size] asks for always suffices for a picture whose
    sides are multiples of 16: [camera_arrange_capture_buf] succeeds for every
    camera, for a YUV sensor whose frame is not larger than the picture and for
    a raw sensor of the same size up to 4608 points wide, with or without
    rotation, as long as the service grants the buffers that are asked from
    it. *)
Theorem capture_fits {H} (alloc_mem : H -> Z -> option (Z * Z) * H) mem_frm camera_id sn_fmt sn trim img orig_fmt cap thum
    need_rot image_cnt capture_mem h :
  block_ok mem_frm -> inputs_ok sn trim img orig_fmt cap thum -> 1 <= image_cnt <= zlen capture_mem ->
  (forall h sz, fst (alloc_mem h sz) <> None) ->
  width img mod 16 = 0 -> height img mod 16 = 0 -> 0 < area img ->
  camera_capture_buf_size camera_id sn_fmt img = Some (buf_size mem_frm) ->
  (sn_fmt <> SENSOR_IMAGE_FORMAT_RAW /\ orig_fmt <> IMG_DATA_TYPE_RAW /\ orig_fmt <> IMG_DATA_TYPE_JPEG /\ area cap <= area img) \/
  (sn_fmt = SENSOR_IMAGE_FORMAT_RAW /\ orig_fmt = IMG_DATA_TYPE_RAW /\ sn = img /\ start_y trim = 0 /\ width img <= 4608) ->
  exists l h', camera_arrange_capture_buf alloc_mem mem_frm sn trim img orig_fmt cap thum need_rot image_cnt capture_mem h = Some (true, l, h').
Proof.
  intros Hb I Hn Ha Ew Eh Hpos Hmem Hcase.
  destruct (arrange_outcome alloc_mem mem_frm Hb sn trim img orig_fmt cap thum need_rot image_cnt capture_mem h I Hn)
    as (ok & l & h' & E & S). destruct ok; [eauto|exfalso].
  destruct S as [S|(h1 & sz & Hf)]; [|by apply (Ha h1 sz)].
  destruct (buf_size_row camera_id sn_fmt img (buf_size mem_frm) (in_img _ _ _ _ _ _ I) Hpos Hmem) as (pix & Hp & Hp0 & Hrow).
  destruct (area16_aligned img (in_img _ _ _ _ _ _ I) Ew Eh) as [Aw Ah].
  assert (A16 : area16 img = area img) by (unfold area16, area; by rewrite Aw, Ah).
  assert (Hjb : jpeg_room need_rot (jpeg_bytes img thum) <= area img / 2 + (if area img <=? JPEG_SMALL_SIZE then JPEG_EXIF_SIZE else 0)).
  { unfold jpeg_room, jpeg_bytes. rewrite jpeg_size_spec, A16 by apply I. unfold JPEG_SMALL_SIZE, JPEG_EXIF_SIZE.
    destruct need_rot; [|lia]. destruct (_ <=? _); zlia. }
  revert S Hjb. unfold frame_end, is_raw, is_jpeg, raw_end, raw_yy. unfold row_enough in Hrow.
  rewrite (proj2 (Z.eqb_neq pix 0)) in Hrow by lia. cbn [orb] in Hrow.
  destruct Hcase as [(C1 & C2 & C3 & C4)|(-> & -> & -> & C4 & C5)].
  - rewrite (proj2 (Z.eqb_neq _ _) C1) in Hrow. rewrite (proj2 (Z.eqb_neq _ _) C2), (proj2 (Z.eqb_neq _ _) C3), A16.
    apply andb_true_iff in Hrow as [R1%Z.leb_le R2%Z.leb_le]. intros S Hjb. unfold JPEG_SMALL_SIZE, JPEG_EXIF_SIZE in *.
    destruct (Z.leb_spec (area img) (300 * 1024)); zlia.
  - cbn [Z.eqb] in Hrow. rewrite Z.eqb_refl in Hrow |- *. rewrite Aw, Ah, !Z.eqb_refl, C4, Z.eqb_refl. cbn [negb orb].
    apply andb_true_iff in Hrow as [R1%Z.leb_le R2%Z.leb_le]. intros S Hjb. unfold JPEG_SMALL_SIZE, JPEG_EXIF_SIZE in *.
    destruct (Z.leb_spec (area img) (300 * 1024)); zlia.
Qed.

(** ** Examples *)

(** A service that hands out consecutive addresses. *)
Definition bump (h sz : Z) : option (Z * Z) * Z := (Some (h, h), h + sz).
(** A block of [mb] megabytes. *)
Definition block (mb : Z) : img_frm :=
  MkFrm 0 (MB mb) (MkSize 0 0) (MkAddr 0x80000000 0 0) (MkAddr 0x40000000 0 0).
Definition five : img_size := MkSize 2560 1920.
Definition no_trim (s : img_size) : img_rect := MkRect 0 0 (width s) (height s).

Lemma five_ok orig_fmt : inputs_ok five (no_trim five) five orig_fmt five (MkSize 320 240).
Proof. split; cbn; unfold dims, trim_ok; cbn; lia. Qed.
Lemma block_13_ok : block_ok (block 13).
Proof. unfold block_ok. split_and!; vm_compute; done. Qed.

#[local] Abbreviation five_yuv :=
  (camera_arrange_capture_buf bump (block 13) five (no_trim five) five IMG_DATA_TYPE_YUV420 five (MkSize 320 240) false 3
    (replicate 3 zero_mem) 0xc0000000).


Lemma capture_fits_witness :
  exists l h', camera_arrange_capture_buf bump (block 12) five (no_trim five) five IMG_DATA_TYPE_RAW five (MkSize 320 240) true 1
    [zero_mem] 0xc0000000 = Some (true, l, h').
Proof.
  apply (capture_fits bump (block 12) 0 SENSOR_IMAGE_FORMAT_RAW five (no_trim five) five IMG_DATA_TYPE_RAW five (MkSize 320 240) true 1).
  - unfold block_ok. split_and!; vm_compute; done.
  - apply five_ok.
  - cbn. lia.
  - done.
  - done.
  - done.
  - done.
  - vm_compute. reflexivity.
  - right. cbn. split_and!; done || lia.
Defined.

(** The scratch buffer of the JPEG codec starts at the chrominance but is
    given the size of the whole frame: it reaches over the JPEG file. *)
Lemma jpeg_tmp_overlaps : exists l m, five_yuv = Some (true, l, 0xc0000000) /\ l !! 0%nat = Some m /\
  phy_y (jpeg_tmp m) < phy_y (target_jpeg m) /\
  phy_y (target_jpeg m) + buf_size (target_jpeg m) <= phy_y (jpeg_tmp m) + buf_size (jpeg_tmp m).
Proof.
  assert (E : exists l, five_yuv = Some (true, l, 0xc0000000)) by (eexists; vm_compute; reflexivity).
  destruct E as [l E]. exists l. destruct (l !! 0%nat) as [m|] eqn:Em.
  - exists m. split_and!; [done..| |]; vm_compute in E; injection E as <-; injection Em as <-; vm_compute; done.
  - exfalso. vm_compute in E. injection E as <-. done.
Qed.

(** For a sensor that delivers JPEG the table is too small at 8 megapixels. *)
Lemma jpeg_sensor_does_not_fit :
  let eight := MkSize 3264 2448 in
  camera_capture_buf_size 0 7 eight = Some (MB 18) /\
  exists l h, camera_arrange_capture_buf bump (block 18) eight (no_trim eight) eight IMG_DATA_TYPE_JPEG eight (MkSize 320 240) false 1
    [zero_mem] 0xc0000000 = Some (false, l, h).
Proof. split; [vm_compute; reflexivity|]. do 2 eexists. vm_compute. reflexivity. Qed.

(** With rotation the JPEG file is put over the rotated frame: it fits in its
    luminance for pictures of 128 K points and more. *)
Lemma rotated_jpeg_fits img thum : dims img -> 2 * JPEG_EXIF_SIZE <= area16 img -> jpeg_bytes img thum <= area16 img.
Proof.
  intros Hi Ha. unfold jpeg_bytes. rewrite jpeg_size_spec by done. unfold JPEG_EXIF_SIZE, JPEG_SMALL_SIZE in *.
  destruct (_ <=? _); zlia.
Qed.
