(* ===== verification/RawData.v ===== *)
(** * The raw-partition mirror of the product files (apps/rawdatad/rawdata.c)

    Four files under /productinfo are mirrored in two raw MMC partitions, one
    block of 4096 bytes per file.  A block is 3076 bytes of data, a big-endian
    counter and a big-endian CRC; block 0 has no counter.  At start
    [init_productinfo] rebuilds the files from the newer good copy and repairs
    the other one; afterwards a change of a file is written to both partitions
    with the counter advanced.

    A partition is a list of bytes.  [Io] gives the outcome of every system
    call.  The writes to the partitions are operations: a power failure leaves
    the effect of a prefix of them, the last one possibly torn. *)
From S2P Require Import Prelude.
From S2P Require Import Checksum.

Definition RAWDATA_BUFFER_SIZE : Z := 1024 * 4.
Definition RAWDATA_DATASIZE : Z := 1024 * 3 + 4.
Definition RAWDATA_COUNTER_SIZE : Z := 4.
Definition RAWDATA_CRC_OFFSET : Z := RAWDATA_DATASIZE + RAWDATA_COUNTER_SIZE.
Definition RAWDATA_COUNTER_THRES : Z := 0xEFFFFFFF.
Definition RAWDATA_BLOCK_PHASECHECK : Z := 0.

Definition PRODUCT_INFO : list string := [
  "/productinfo/productinfo.bin";
  "/productinfo/factorymode.file";
  "/productinfo/alarm_flag";
  "/productinfo/poweron_timeinmillis"].
Definition NO_FEADBACK : list string := ["/productinfo/productinfo.bin"].

(** The outcome of the system calls: [open] and [lseek] of a partition, the
    value [read] and [write] return, [fopen] of a file. *)
Record Io := mkIo {
  io_open : nat -> bool;
  io_seek : nat -> Z -> bool;
  io_read : nat -> Z -> Z -> Z;
  io_write : nat -> Z -> Z -> Z;
  io_fopen : string -> bool }.
Definition healthy_io : Io :=
  mkIo (fun _ => true) (fun _ _ => true) (fun _ _ n => n) (fun _ _ n => n) (fun _ => true).

Record raw_state := mkRaw {
  mmc : list (list Z);
  rawdata_buffer : list (list Z);
  files : gmap string (list Z) }.
Definition set_buffer (s : raw_state) (n : nat) (b : list Z) : raw_state :=
  mkRaw (mmc s) (<[n := b]> (rawdata_buffer s)) (files s).
Definition set_file (s : raw_state) (p : string) (d : list Z) : raw_state :=
  mkRaw (mmc s) (rawdata_buffer s) (<[p := d]> (files s)).

(** ** Big-endian fields *)
Definition put_be32 (z : Z) : list Z :=
  [Z.land (Z.shiftr z 24) 0xFF; Z.land (Z.shiftr z 16) 0xFF; Z.land (Z.shiftr z 8) 0xFF; Z.land z 0xFF].
Definition get_be32 (m : list Z) (off : nat) : Z :=
  match drop off m with
  | a :: b :: c :: d :: _ =>
      Z.lor (Z.lor (Z.lor (u32 (Z.shiftl a 24)) (u32 (Z.shiftl b 16))) (u32 (Z.shiftl c 8))) d
  | _ => 0
  end.

(** ** The partitions *)
Inductive mmc_op := MmcWrite (n : nat) (off : Z) (d : list Z).
Definition apply_mmc (m : list (list Z)) (o : mmc_op) : list (list Z) :=
  let 'MmcWrite n off d := o in alter (fun c => splice c (Z.to_nat off) d) n m.

Inductive mmc_crash : list mmc_op -> list (list Z) -> list (list Z) -> Prop :=
| mmc_crash_now ops m : mmc_crash ops m m
| mmc_crash_torn n off d k ops m :
    mmc_crash (MmcWrite n off d :: ops) m (apply_mmc m (MmcWrite n off (take k d)))
| mmc_crash_next o ops m m' : mmc_crash ops (apply_mmc m o) m' -> mmc_crash (o :: ops) m m'.

Section Raw.
Context (E : Io).

(** The result and the buffer. *)
Definition read_mmc_partition (s : raw_state) (n : nat) (offset : Z) (buf : list Z) (size : Z)
  : option (Z * list Z) :=
  c ← mmc s !! n;
  if negb (io_open E n) then Some (-1, buf) else
  if negb (io_seek E n offset) then Some (-1, buf) else
  let rsize := io_read E n offset size in
  buf ← store buf 0 (take (Z.to_nat rsize) (take (Z.to_nat size) (drop (Z.to_nat offset) c)));
  if negb (u32 rsize =? size) then Some (-1, buf) else Some (s32 rsize, buf).

(** The result and the writes done. *)
Definition write_mmc_partition (n : nat) (offset : Z) (buf : list Z) (size : Z)
  : option (Z * list mmc_op) :=
  if negb (io_open E n) then Some (-1, []) else
  if negb (io_seek E n offset) then Some (-1, []) else
  d ← load buf 0 size;
  let wsize := io_write E n offset size in
  let ops := [MmcWrite n offset (take (Z.to_nat wsize) d)] in
  if negb (u32 wsize =? size) then Some (-1, ops) else Some (s32 wsize, ops).

(** The verdict on a block in the buffer: its counter as an [int], 0 for block
    0, or -1 when the CRC is wrong. *)
Definition block_verdict (block : Z) (ptr : list Z) : Z :=
  let '(ret, crc_old, crc_calc) :=
    if block =? RAWDATA_BLOCK_PHASECHECK then
      (0, get_be32 ptr (Z.to_nat RAWDATA_DATASIZE),
       crc32b 0xFFFFFFFF (Some (take (Z.to_nat RAWDATA_DATASIZE) ptr)))
    else
      (s32 (get_be32 ptr (Z.to_nat RAWDATA_DATASIZE)), get_be32 ptr (Z.to_nat RAWDATA_CRC_OFFSET),
       crc32b 0xFFFFFFFF (Some (take (Z.to_nat RAWDATA_CRC_OFFSET) ptr))) in
  if negb (crc_old =? crc_calc) then -1 else ret.

Definition rawdata_check_block (s : raw_state) (partition : nat) (block : Z)
  : option (Z * raw_state) :=
  ptr ← rawdata_buffer s !! partition;
  ptr ← store ptr 0 (replicate (Z.to_nat RAWDATA_BUFFER_SIZE) 0xff);
  r ← read_mmc_partition s partition (block * RAWDATA_BUFFER_SIZE) ptr RAWDATA_BUFFER_SIZE;
  let '(ret, ptr) := r in
  let s := set_buffer s partition ptr in
  if ret =? -1 then Some (-1, s) else Some (block_verdict block ptr, s).

Definition wirte_productinfo (s : raw_state) (partition : nat) (block : Z) : option raw_state :=
  path ← PRODUCT_INFO !! Z.to_nat block;
  if negb (io_fopen E path) then Some s else
  buf ← rawdata_buffer s !! partition;
  d ← load buf 0 RAWDATA_DATASIZE;
  Some (set_file s path d).

(** One turn of the loop of [init_productinfo]. *)
Definition init_block (s : raw_state) (i : Z) : option raw_state :=
  r ← rawdata_check_block s 0 i;
  let '(valid1, s) := r in
  r ← rawdata_check_block s 1 i;
  let '(valid2, s) := r in
  if (valid1 =? -1) && (valid2 =? -1) then Some s else
  let partition := if valid2 <? valid1 then 0%nat else 1%nat in
  s ← wirte_productinfo s partition i;
  if negb (valid1 =? valid2) then
    buf ← rawdata_buffer s !! partition;
    w ← write_mmc_partition (1 - partition) (i * RAWDATA_BUFFER_SIZE) buf RAWDATA_BUFFER_SIZE;
    Some (mkRaw (fold_left apply_mmc (snd w) (mmc s)) (rawdata_buffer s) (files s))
  else Some s.

Definition init_productinfo (s : raw_state) : option raw_state :=
  fold_left (fun o i => s ← o; init_block s i) [0; 1; 2; 3] (Some s).

(** [read_productinfo(block, rawdata_buffer[0])].  The whole file is read into
    the buffer: a larger file overruns it ([None]). *)
Definition read_productinfo (s : raw_state) (block : Z) : option raw_state :=
  if 4 <=? block then Some s else
  path ← PRODUCT_INFO !! Z.to_nat block;
  if negb (io_fopen E path) then Some s else
  match files s !! path with
  | None => Some s
  | Some c =>
      buf ← rawdata_buffer s !! 0%nat;
      buf ← store buf 0 (replicate (Z.to_nat RAWDATA_BUFFER_SIZE) 0xff);
      buf ← store buf 0 c;
      Some (set_buffer s 0 buf)
  end.

(** [write_partition(block, rawdata_buffer[0])]: the state with the buffer
    stamped, and the writes.  [stack] is the uninitialised array [buf]. *)
Definition next_counter (counter : Z) : Z :=
  if RAWDATA_COUNTER_THRES <? counter then 0 else counter +u 1.

Definition write_partition (stack : list Z) (s : raw_state) (block : Z)
  : option (raw_state * list mmc_op) :=
  r ← read_mmc_partition s 0 (block * RAWDATA_BUFFER_SIZE + RAWDATA_DATASIZE) stack RAWDATA_COUNTER_SIZE;
  let counter := next_counter (get_be32 (snd r) 0) in
  ptr ← rawdata_buffer s !! 0%nat;
  ptr ← store ptr RAWDATA_DATASIZE (put_be32 counter);
  let crc := crc32b 0xFFFFFFFF (Some (take (Z.to_nat RAWDATA_CRC_OFFSET) ptr)) in
  ptr ← store ptr RAWDATA_CRC_OFFSET (put_be32 crc);
  w0 ← write_mmc_partition 0 (block * RAWDATA_BUFFER_SIZE) ptr RAWDATA_BUFFER_SIZE;
  w1 ← write_mmc_partition 1 (block * RAWDATA_BUFFER_SIZE) ptr RAWDATA_BUFFER_SIZE;
  let ops := snd w0 ++ snd w1 in
  Some (mkRaw (fold_left apply_mmc ops (mmc s)) (<[0%nat := ptr]> (rawdata_buffer s)) (files s), ops).

(** [strstr(hay, needle) != NULL] *)
Fixpoint strstr (needle hay : string) : bool :=
  String.prefix needle hay ||
  match hay with EmptyString => false | String _ r => strstr needle r end.

Definition rawdata_nofeadback_block (name : string) : bool := existsb (strstr name) NO_FEADBACK.

(** The IN_MODIFY and the IN_DELETE/IN_MOVE loops of [main]. *)
Inductive event_kind := IN_MODIFY | IN_DELETE_MOVE.
Definition event_block (stack : list Z) (kind : event_kind) (name : string) (s : raw_state) (i : Z)
  : option raw_state :=
  path ← PRODUCT_INFO !! Z.to_nat i;
  if strstr name path then
    s ← match kind with
        | IN_MODIFY => read_productinfo s i
        | IN_DELETE_MOVE =>
            buf ← rawdata_buffer s !! 0%nat;
            buf ← store buf 0 (replicate (Z.to_nat RAWDATA_BUFFER_SIZE) 0xff);
            Some (set_buffer s 0 buf)
        end;
    if rawdata_nofeadback_block name then Some s else
    w ← write_partition stack s i; Some (fst w)
  else Some s.
Definition handle_event (stack : list Z) (s : raw_state) (ev : event_kind * string) : option raw_state :=
  fold_left (fun o i => s ← o; event_block stack (fst ev) (snd ev) s i) [0; 1; 2; 3] (Some s).
End Raw.

(** The offsets as indices, and arithmetic on them. *)
Abbreviation OFS_CNT := (Z.to_nat RAWDATA_DATASIZE).
Abbreviation OFS_CRC := (Z.to_nat RAWDATA_CRC_OFFSET).
Abbreviation BLK := (Z.to_nat RAWDATA_BUFFER_SIZE).
Definition HEAD_LEN : nat := (OFS_CRC + 4)%nat.
Ltac rawlia :=
  unfold HEAD_LEN, RAWDATA_CRC_OFFSET, RAWDATA_COUNTER_SIZE, RAWDATA_DATASIZE, RAWDATA_BUFFER_SIZE,
    is_u32 in *; lia.

(** ** Blocks *)
Lemma get_be32_add a b c d r :
  is_byte a -> is_byte b -> is_byte c -> is_byte d ->
  get_be32 (a :: b :: c :: d :: r) 0 = 2 ^ 24 * a + 2 ^ 16 * b + 2 ^ 8 * c + d.
Proof.
  unfold is_byte. intros. cbn [get_be32 drop]. unfold u32. rewrite !Z.shiftl_mul_pow2 by rawlia.
  rewrite !Z.mod_small by rawlia.
  replace (a * 2 ^ 24) with (Z.shiftl a 24) by (rewrite Z.shiftl_mul_pow2; rawlia).
  rewrite (lor_shiftl_add 24) by rawlia.
  replace (a * 2 ^ 24 + b * 2 ^ 16) with (Z.shiftl (a * 2 ^ 8 + b) 16) by (rewrite Z.shiftl_mul_pow2; rawlia).
  rewrite (lor_shiftl_add 16) by rawlia.
  replace ((a * 2 ^ 8 + b) * 2 ^ 16 + c * 2 ^ 8) with (Z.shiftl (a * 2 ^ 16 + b * 2 ^ 8 + c) 8)
    by (rewrite Z.shiftl_mul_pow2; rawlia).
  rewrite (lor_shiftl_add 8) by rawlia. rawlia.
Qed.

Lemma put_be32_div z : put_be32 z = [z / 2 ^ 24 mod 256; z / 2 ^ 16 mod 256; z / 2 ^ 8 mod 256; z mod 256].
Proof.
  unfold put_be32. change 0xFF with (Z.ones 8). rewrite !Z.land_ones, !Z.shiftr_div_pow2 by rawlia. done.
Qed.

Lemma put_be32_bytes z : bytes (put_be32 z).
Proof. rewrite put_be32_div. repeat constructor; unfold is_byte; zlia. Qed.

(** The fields are read back. *)
Lemma get_put_be32 z r : is_u32 z -> get_be32 (put_be32 z ++ r) 0 = z.
Proof.
  intros Hz. pose proof (put_be32_bytes z) as B. rewrite put_be32_div in *.
  inversion_clear B as [|? ? Ha B']. inversion_clear B' as [|? ? Hb B]. inversion_clear B as [|? ? Hc B'].
  inversion_clear B' as [|? ? Hd _]. cbn [app]. rewrite get_be32_add by done. unfold is_u32 in Hz. zlia.
Qed.

Lemma put_get_be32 a b c d r :
  bytes [a; b; c; d] -> put_be32 (get_be32 (a :: b :: c :: d :: r) 0) = [a; b; c; d].
Proof.
  intros B. inversion_clear B as [|? ? Ha B']. inversion_clear B' as [|? ? Hb B]. inversion_clear B as [|? ? Hc B'].
  inversion_clear B' as [|? ? Hd _]. rewrite get_be32_add, put_be32_div by done. unfold is_byte in *.
  repeat f_equal; zlia.
Qed.

Lemma get_be32_drop m off : get_be32 m off = get_be32 (drop off m) 0.
Proof. unfold get_be32. now rewrite drop_0. Qed.

Lemma get_be32_app m off r : (off + 4 <= length m)%nat -> get_be32 (m ++ r) off = get_be32 m off.
Proof.
  intros H. unfold get_be32. rewrite drop_app_le by rawlia.
  assert (L : (4 <= length (drop off m))%nat) by (rewrite length_drop; rawlia).
  destruct (drop off m) as [|a [|b [|c [|d ?]]]]; cbn in L; try rawlia. done.
Qed.

(** The verdict depends on the first 3084 bytes only. *)
Lemma block_verdict_prefix i a b :
  (HEAD_LEN <= length a)%nat -> (HEAD_LEN <= length b)%nat -> take HEAD_LEN a = take HEAD_LEN b ->
  block_verdict i a = block_verdict i b.
Proof.
  intros La Lb E.
  assert (G : forall off, (off + 4 <= HEAD_LEN)%nat -> get_be32 a off = get_be32 b off).
  { intros off Ho. rewrite <- (take_drop HEAD_LEN a), <- (take_drop HEAD_LEN b), E.
    rewrite !get_be32_app by (rewrite length_take; rawlia). done. }
  assert (T : forall n, (n <= HEAD_LEN)%nat -> take n a = take n b).
  { intros n Hn. rewrite <- (Nat.min_l n HEAD_LEN), <- !take_take by rawlia. now rewrite E. }
  unfold block_verdict.
  rewrite (G OFS_CNT), (G OFS_CRC), (T OFS_CNT), (T OFS_CRC) by (rawlia). done.
Qed.

(** The verdict on a block with a counter. *)
Lemma block_verdict_counter i b :
  i <> 0 -> block_verdict i b =
    if get_be32 b OFS_CRC =? crc32b 0xFFFFFFFF (Some (take OFS_CRC b)) then s32 (get_be32 b OFS_CNT) else -1.
Proof.
  intros Hi. unfold block_verdict, RAWDATA_BLOCK_PHASECHECK. rewrite (proj2 (Z.eqb_neq i 0)) by done.
  destruct (_ =? _); done.
Qed.

(** The block [write_partition] makes of the buffer [ptr]. *)
Definition stamp (ptr : list Z) (counter : Z) : list Z :=
  let p := splice ptr OFS_CNT (put_be32 counter) in
  splice p OFS_CRC (put_be32 (crc32b 0xFFFFFFFF (Some (take OFS_CRC p)))).

Lemma put_be32_length z : length (put_be32 z) = 4%nat.
Proof. done. Qed.

Lemma take_splice_le m off src n : (n <= off)%nat -> (off <= length m)%nat -> take n (splice m off src) = take n m.
Proof.
  intros. unfold splice. rewrite take_app_le by (rewrite length_take; rawlia).
  rewrite take_take. f_equal. rawlia.
Qed.

Lemma drop_splice_at m off src :
  (off <= length m)%nat -> drop off (splice m off src) = src ++ drop (off + length src) m.
Proof.
  intros. unfold splice. rewrite drop_app_ge by (rewrite length_take; rawlia).
  rewrite length_take. replace (off - off `min` length m)%nat with 0%nat by rawlia. done.
Qed.

Section Stamp.
Context (ptr : list Z) (counter : Z) (Hp : length ptr = Z.to_nat RAWDATA_BUFFER_SIZE) (Hb : bytes ptr)
  (Hc : is_u32 counter).
Let p := splice ptr OFS_CNT (put_be32 counter).

Lemma stamp_p_length : length p = Z.to_nat RAWDATA_BUFFER_SIZE.
Proof. unfold p. rewrite splice_length; rewrite ?put_be32_length; rawlia. Qed.

Lemma stamp_length : length (stamp ptr counter) = Z.to_nat RAWDATA_BUFFER_SIZE.
Proof.
  unfold stamp. fold p. pose proof stamp_p_length.
  rewrite splice_length; rewrite ?put_be32_length; rawlia.
Qed.

Lemma stamp_bytes : bytes (stamp ptr counter).
Proof. unfold stamp. repeat apply bytes_splice; auto using put_be32_bytes. Qed.

Lemma stamp_data : take OFS_CNT (stamp ptr counter) = take OFS_CNT ptr.
Proof.
  unfold stamp. fold p. pose proof stamp_p_length. 
  rewrite take_splice_le by rawlia. unfold p. rewrite take_splice_le by rawlia. done.
Qed.

Lemma stamp_fields :
  take OFS_CRC (stamp ptr counter) = take OFS_CRC p /\
  get_be32 (stamp ptr counter) OFS_CNT = counter /\
  get_be32 (stamp ptr counter) OFS_CRC = crc32b 0xFFFFFFFF (Some (take OFS_CRC p)).
Proof.
  pose proof stamp_p_length as L. 
  assert (T : take OFS_CRC (stamp ptr counter) = take OFS_CRC p) by (unfold stamp; fold p; rewrite take_splice_le by rawlia; done).
  split; [exact T|]. split.
  - rewrite <- (take_drop OFS_CRC (stamp ptr counter)), T, get_be32_app by (rewrite length_take; rawlia).
    rewrite <- (get_be32_app (take OFS_CRC p) OFS_CNT (drop OFS_CRC p)) by (rewrite length_take; rawlia).
    rewrite take_drop, get_be32_drop. unfold p. rewrite drop_splice_at by rawlia. by apply get_put_be32.
  - rewrite get_be32_drop. unfold stamp. fold p. rewrite drop_splice_at by rawlia. apply get_put_be32.
    apply crc32b_range; [unfold is_u32; rawlia|]. apply Forall_take. unfold p.
    apply bytes_splice; auto using put_be32_bytes.
Qed.

Lemma stamp_verdict i : i <> 0 -> block_verdict i (stamp ptr counter) = s32 counter.
Proof.
  intros Hi. rewrite block_verdict_counter by done. destruct stamp_fields as (-> & -> & ->).
  now rewrite Z.eqb_refl.
Qed.

(** What a torn write of the stamped block over the block [ob] can look like,
    provided no torn prefix collides with the old CRC. *)
Context (i c : Z) (ob : list Z) (Hi : i <> 0) (Hob : length ob = Z.to_nat RAWDATA_BUFFER_SIZE)
  (Hbo : bytes ob) (Hv : block_verdict i ob = c).
Definition torn (k : nat) : list Z := take k (stamp ptr counter) ++ drop k ob.
Context (Hcol : forall k, (k <= OFS_CRC)%nat ->
  crc32b 0xFFFFFFFF (Some (take OFS_CRC (torn k))) = get_be32 ob OFS_CRC -> take OFS_CRC (torn k) = take OFS_CRC ob).

Lemma torn_length k : length (torn k) = Z.to_nat RAWDATA_BUFFER_SIZE.
Proof. unfold torn. rewrite length_app, length_take, length_drop, stamp_length. rawlia. Qed.

Lemma torn_old k : (k <= OFS_CRC)%nat -> drop OFS_CRC (torn k) = drop OFS_CRC ob.
Proof.
  intros Hk. unfold torn. pose proof stamp_length as L. 
  rewrite drop_app_ge by (rewrite length_take; rawlia). rewrite length_take, drop_drop. f_equal. rawlia.
Qed.

Lemma torn_new k n : (n <= k)%nat -> take n (torn k) = take n (stamp ptr counter).
Proof.
  intros Hk. unfold torn. pose proof stamp_length as L.
  destruct (decide (n <= length (stamp ptr counter))%nat).
  - rewrite take_app_le by (rewrite length_take; rawlia). rewrite take_take. f_equal. rawlia.
  - rewrite (take_ge (stamp ptr counter) k), (take_ge (stamp ptr counter) n) by rawlia.
    rewrite (drop_ge ob), app_nil_r by rawlia. apply take_ge. rawlia.
Qed.

Lemma head_split (m : list Z) : (HEAD_LEN <= length m)%nat -> take HEAD_LEN m = take OFS_CRC m ++ take 4 (drop OFS_CRC m).
Proof.
  intros L. rewrite <- (take_drop OFS_CRC m) at 1.
  rewrite take_app_ge by (rewrite length_take; rawlia). rewrite length_take.
  replace (HEAD_LEN - OFS_CRC `min` length m)%nat with 4%nat by rawlia. reflexivity.
Qed.

Lemma crc_field m n : bytes m -> length m = Z.to_nat RAWDATA_BUFFER_SIZE -> get_be32 m OFS_CRC = n -> take 4 (drop OFS_CRC m) = put_be32 n.
Proof.
  intros Bm Lm <-. rewrite get_be32_drop. 
  assert (L : (4 <= length (drop OFS_CRC m))%nat) by (rewrite length_drop; rawlia).
  assert (B : bytes (take 4 (drop OFS_CRC m))) by auto using Forall_take, Forall_drop.
  destruct (drop OFS_CRC m) as [|a [|b [|x [|d r]]]]; cbn in L; try rawlia.
  symmetry. apply put_get_be32. exact B.
Qed.

Lemma torn_verdict k :
  block_verdict i (torn k) = -1 \/
  (block_verdict i (torn k) = c /\ take HEAD_LEN (torn k) = take HEAD_LEN ob) \/
  (block_verdict i (torn k) = s32 counter /\ take HEAD_LEN (torn k) = take HEAD_LEN (stamp ptr counter)).
Proof.
  pose proof (torn_length k) as Lt. pose proof stamp_length as Ls. 
  assert (New : take HEAD_LEN (torn k) = take HEAD_LEN (stamp ptr counter) ->
    block_verdict i (torn k) = s32 counter /\ take HEAD_LEN (torn k) = take HEAD_LEN (stamp ptr counter)).
  { intros E. split; [|done]. rewrite (block_verdict_prefix i _ (stamp ptr counter)); [by apply stamp_verdict|rawlia..|done]. }
  pose proof (block_verdict_counter i (torn k) Hi) as V.
  destruct (Z.eqb_spec (get_be32 (torn k) OFS_CRC) (crc32b 0xFFFFFFFF (Some (take OFS_CRC (torn k))))) as [E|];
    [right|by left].
  destruct (decide (k <= OFS_CRC)%nat) as [Hk|Hk].
  - left. rewrite get_be32_drop, torn_old, <- get_be32_drop in E by done. symmetry in E. apply Hcol in E; [|done].
    assert (Eh : take HEAD_LEN (torn k) = take HEAD_LEN ob).
    { rewrite !head_split, torn_old, E by (done || rawlia). done. }
    split; [|done]. rewrite <- Hv. apply block_verdict_prefix; (done || rawlia).
  - right. apply New. assert (T : take OFS_CRC (torn k) = take OFS_CRC (stamp ptr counter)) by (apply torn_new; rawlia).
    rewrite !head_split, T by (rawlia). f_equal. rewrite T in E.
    apply crc_field in E; [|unfold torn; auto using Forall_app_2, Forall_take, Forall_drop, stamp_bytes|rawlia].
    rewrite E. symmetry. destruct stamp_fields as (Ep & _ & Ec).
    apply crc_field; [apply stamp_bytes|rawlia|]. by rewrite Ec, Ep.
Qed.
End Stamp.

(** ** Start-up recovery *)
Definition region (m : list Z) (i : Z) : list Z :=
  take BLK (drop (Z.to_nat (i * RAWDATA_BUFFER_SIZE)) m).
Definition holds_block (m : list Z) (i : Z) : Prop := 0 <= i /\ (i + 1) * RAWDATA_BUFFER_SIZE <= zlen m.

Lemma region_length m i : holds_block m i -> length (region m i) = BLK.
Proof.
  unfold holds_block, region, RAWDATA_BUFFER_SIZE. intros. rewrite length_take, length_drop. rawlia.
Qed.

Lemma read_mmc_healthy s n off buf size m :
  mmc s !! n = Some m -> 0 <= size < 2 ^ 31 -> 0 <= off -> off + size <= zlen m ->
  length buf = Z.to_nat size ->
  read_mmc_partition healthy_io s n off buf size = Some (size, take (Z.to_nat size) (drop (Z.to_nat off) m)).
Proof.
  intros Hm Hs Ho Hl Lb. unfold read_mmc_partition. rewrite Hm.
  cbn [mbind option_bind healthy_io io_open io_seek io_read negb].
  set (d := take _ (drop _ m)).
  assert (Ld : length d = Z.to_nat size) by (unfold d; rewrite length_take, length_drop; rawlia). clearbody d.
  rewrite (take_ge d), store_all by rawlia. cbn [mbind option_bind].
  rewrite u32_small, Z.eqb_refl, s32_small by (unfold is_u32; rawlia). done.
Qed.

Lemma check_block_healthy s n i m b :
  mmc s !! n = Some m -> holds_block m i -> rawdata_buffer s !! n = Some b -> length b = BLK ->
  rawdata_check_block healthy_io s n i =
    Some (block_verdict i (region m i), set_buffer s n (region m i)).
Proof.
  intros Hm Hi Hb Lb. unfold rawdata_check_block. rewrite Hb. cbn [mbind option_bind].
  rewrite store_all by (rewrite length_replicate; exact Lb). cbn [mbind option_bind].
  rewrite (read_mmc_healthy s n _ _ _ m Hm)
    by first [apply length_replicate | unfold holds_block, RAWDATA_BUFFER_SIZE in *; rawlia].
  cbn [mbind option_bind]. change (RAWDATA_BUFFER_SIZE =? -1) with false. cbv iota. reflexivity.
Qed.

Lemma region_splice_self m i d :
  holds_block m i -> length d = BLK -> region (splice m (Z.to_nat (i * RAWDATA_BUFFER_SIZE)) d) i = d.
Proof.
  unfold holds_block, region, RAWDATA_BUFFER_SIZE. intros H L.
  rewrite drop_splice_at by rawlia. rewrite take_app_le by rawlia. apply take_ge. rawlia.
Qed.

Lemma holds_splice m i off d :
  holds_block m i -> (off + length d <= length m)%nat -> holds_block (splice m off d) i.
Proof. unfold holds_block. intros. by rewrite splice_length. Qed.

Lemma path_total i : 0 <= i < 4 -> exists path, PRODUCT_INFO !! Z.to_nat i = Some path.
Proof. intros. apply lookup_lt_is_Some_2. cbn. rawlia. Qed.

(** The second half of a turn of [init_productinfo]. *)
Lemma restore_winner i path p0 p1 r0 r1 f (v0 v1 : Z) :
  PRODUCT_INFO !! Z.to_nat i = Some path -> holds_block p0 i -> holds_block p1 i ->
  length r0 = BLK -> length r1 = BLK ->
  let part := if v1 <? v0 then 0%nat else 1%nat in let win := if v1 <? v0 then r0 else r1 in
  exists s',
    (s ← wirte_productinfo healthy_io (mkRaw [p0; p1] [r0; r1] f) part i;
     if negb (v0 =? v1) then
       buf ← rawdata_buffer s !! part;
       w ← write_mmc_partition healthy_io (1 - part) (i * RAWDATA_BUFFER_SIZE) buf RAWDATA_BUFFER_SIZE;
       Some (mkRaw (fold_left apply_mmc (snd w) (mmc s)) (rawdata_buffer s) (files s))
     else Some s) = Some s' /\
    files s' = <[path := take (Z.to_nat RAWDATA_DATASIZE) win]> f /\
    exists q0 q1, mmc s' = [q0; q1] /\
      (if v0 =? v1 then q0 = p0 /\ q1 = p1
       else (if v1 <? v0 then q0 = p0 else q1 = p1) /\
            (if v1 <? v0 then region q1 i = win else region q0 i = win)).
Proof.
  intros Hp H0 H1 L0 L1. cbn zeta.
  assert (Hl : forall r, length r = BLK -> load r 0 RAWDATA_DATASIZE = Some (take (Z.to_nat RAWDATA_DATASIZE) r)).
  { intros r Lr. apply load_0. unfold RAWDATA_DATASIZE, RAWDATA_BUFFER_SIZE in *. rawlia. }
  assert (Ha : forall r, length r = BLK -> load r 0 RAWDATA_BUFFER_SIZE = Some r).
  { intros r Lr. apply load_all.  rawlia. }
  unfold wirte_productinfo, write_mmc_partition. rewrite Hp.
  cbn [mbind option_bind healthy_io io_fopen io_open io_seek io_write negb].
  destruct (v1 <? v0); cbn [rawdata_buffer lookup list_lookup mbind option_bind].
  all: rewrite Hl by assumption; cbn [mbind option_bind set_file mmc rawdata_buffer files].
  all: destruct (v0 =? v1); cbn [negb]; [eexists; split; [reflexivity|]; split; [reflexivity|]; by exists p0, p1|].
  all: cbn [lookup list_lookup mbind option_bind]; rewrite Ha by assumption; cbn [mbind option_bind].
  all: first [rewrite (take_ge r0 BLK) by rawlia | rewrite (take_ge r1 BLK) by rawlia].
  all: change (u32 RAWDATA_BUFFER_SIZE =? RAWDATA_BUFFER_SIZE) with true; cbn [negb mbind option_bind snd fold_left].
  all: eexists; split; [reflexivity|]; split; [reflexivity|].
  all: cbn [mmc apply_mmc Nat.sub alter list_alter]; do 2 eexists; (split; [reflexivity|]); split; [reflexivity|].
  all: apply region_splice_self; assumption.
Qed.

(** One block at start-up: the copy with the larger verdict is restored to the
    file and, when the verdicts differ, to the other partition. *)
Lemma init_block_spec i p0 p1 u0 u1 f path :
  PRODUCT_INFO !! Z.to_nat i = Some path -> holds_block p0 i -> holds_block p1 i ->
  length u0 = BLK -> length u1 = BLK ->
  let v0 := block_verdict i (region p0 i) in let v1 := block_verdict i (region p1 i) in
  ~ (v0 = -1 /\ v1 = -1) ->
  let win := if v1 <? v0 then region p0 i else region p1 i in
  exists s', init_block healthy_io (mkRaw [p0; p1] [u0; u1] f) i = Some s' /\
    files s' = <[path := take (Z.to_nat RAWDATA_DATASIZE) win]> f /\
    exists q0 q1, mmc s' = [q0; q1] /\
      (if v0 =? v1 then q0 = p0 /\ q1 = p1 else region q0 i = win /\ region q1 i = win).
Proof.
  intros Hp H0 H1 L0 L1. cbn zeta. intros Hv.
  pose proof (region_length p0 i H0) as R0. pose proof (region_length p1 i H1) as R1.
  unfold init_block. rewrite (check_block_healthy _ 0 i p0 u0) by first [reflexivity | assumption].
  cbn [mbind option_bind]. rewrite (check_block_healthy _ 1 i p1 u1) by first [reflexivity | assumption].
  cbn [mbind option_bind set_buffer mmc rawdata_buffer files insert list_insert].
  set (v0 := block_verdict i (region p0 i)) in *. set (v1 := block_verdict i (region p1 i)) in *.
  clearbody v0 v1. assert (Hnb : (v0 =? -1) && (v1 =? -1) = false)
    by (apply not_true_is_false; rewrite andb_true_iff, !Z.eqb_eq; exact Hv).
  rewrite Hnb.
  destruct (restore_winner i path p0 p1 _ _ f v0 v1 Hp H0 H1 R0 R1) as (s' & Hs & Hf & q0 & q1 & Hq & Hc).
  exists s'. split; [exact Hs|]. split; [exact Hf|]. exists q0, q1. split; [exact Hq|].
  destruct (v0 =? v1); [exact Hc|]. destruct Hc as [Hc1 Hc2]. destruct (v1 <? v0); rewrite Hc1 in *; first [split; [reflexivity|exact Hc2] | split; [exact Hc2|reflexivity]].
Qed.

(** ** A power failure during a write *)
Lemma write_mmc_healthy n off buf size :
  0 <= size < 2 ^ 31 -> zlen buf = size ->
  write_mmc_partition healthy_io n off buf size = Some (size, [MmcWrite n off buf]).
Proof.
  intros Hs Lb. unfold write_mmc_partition. cbn [healthy_io io_open io_seek io_write negb].
  rewrite load_all by done. cbn [mbind option_bind]. rewrite take_ge by rawlia.
  rewrite u32_small, Z.eqb_refl, s32_small by (unfold is_u32; rawlia). done.
Qed.

Lemma get_be32_take m off : get_be32 (take 4 (drop off m)) 0 = get_be32 m off.
Proof.
  rewrite (get_be32_drop m off). destruct (drop off m) as [|a [|b [|c [|d r]]]]; reflexivity.
Qed.

Lemma drop_region m i : drop OFS_CNT (region m i) = take (BLK - OFS_CNT) (drop (Z.to_nat (i * RAWDATA_BUFFER_SIZE) + OFS_CNT) m).
Proof. unfold region. rewrite skipn_firstn_comm, drop_drop. done. Qed.

(** [write_partition] on working partitions: both get the stamped buffer. *)
Lemma write_partition_healthy stack p0 p1 u0 u1 f i :
  holds_block p0 i -> length stack = 4%nat -> length u0 = BLK ->
  let nb := stamp u0 (next_counter (get_be32 (region p0 i) OFS_CNT)) in
  let off := Z.to_nat (i * RAWDATA_BUFFER_SIZE) in
  write_partition healthy_io stack (mkRaw [p0; p1] [u0; u1] f) i =
    Some (mkRaw [splice p0 off nb; splice p1 off nb] [nb; u1] f,
          [MmcWrite 0 (i * RAWDATA_BUFFER_SIZE) nb; MmcWrite 1 (i * RAWDATA_BUFFER_SIZE) nb]).
Proof.
  intros Hi Hs Lu. cbn zeta. unfold write_partition.
  rewrite (read_mmc_healthy _ 0 _ _ _ p0) by
    first [reflexivity | unfold holds_block, RAWDATA_BUFFER_SIZE, RAWDATA_DATASIZE, RAWDATA_COUNTER_SIZE in *; rawlia].
  cbn [mbind option_bind snd].
  assert (Ec : get_be32 (take (Z.to_nat RAWDATA_COUNTER_SIZE) (drop (Z.to_nat (i * RAWDATA_BUFFER_SIZE + RAWDATA_DATASIZE)) p0)) 0 =
               get_be32 (region p0 i) OFS_CNT).
  { change (Z.to_nat RAWDATA_COUNTER_SIZE) with 4%nat.
    rewrite <- (get_be32_take (region p0 i)), drop_region, take_take.
    replace (4 `min` (BLK - OFS_CNT))%nat with 4%nat by (rawlia).
    repeat f_equal. unfold holds_block, RAWDATA_DATASIZE, RAWDATA_BUFFER_SIZE in *. rawlia. }
  rewrite Ec. clear Ec. set (cnt := next_counter _). clearbody cnt.
  cbn [rawdata_buffer lookup list_lookup mbind option_bind].
  assert (S1 : forall b z, length b = BLK -> store b RAWDATA_DATASIZE (put_be32 z) = Some (splice b OFS_CNT (put_be32 z))).
  { intros b z Lb. unfold store. rewrite !(proj2 (Z.leb_le _ _)); [reflexivity|..];
      unfold RAWDATA_DATASIZE, RAWDATA_BUFFER_SIZE in *; rewrite ?put_be32_length; rawlia. }
  assert (S2 : forall b z, length b = BLK -> store b RAWDATA_CRC_OFFSET (put_be32 z) = Some (splice b OFS_CRC (put_be32 z))).
  { intros b z Lb. unfold store. rewrite !(proj2 (Z.leb_le _ _)); [reflexivity|..];
      unfold RAWDATA_CRC_OFFSET, RAWDATA_COUNTER_SIZE, RAWDATA_DATASIZE, RAWDATA_BUFFER_SIZE in *; rewrite ?put_be32_length; rawlia. }
  rewrite S1 by assumption. cbn [mbind option_bind].
  rewrite S2 by (apply stamp_p_length; assumption). cbn [mbind option_bind].
  pose proof (stamp_length u0 cnt Lu) as Ls. unfold stamp in *.
  set (nb := splice (splice u0 OFS_CNT _) OFS_CRC _) in *. clearbody nb.
  assert (Zs : zlen nb = RAWDATA_BUFFER_SIZE) by (rawlia).
  assert (Rs : 0 <= RAWDATA_BUFFER_SIZE < 2 ^ 31) by (rawlia).
  rewrite !write_mmc_healthy by assumption. cbn [mbind option_bind snd app]. reflexivity.
Qed.

Lemma region_torn m i nb k :
  holds_block m i -> length nb = BLK ->
  region (splice m (Z.to_nat (i * RAWDATA_BUFFER_SIZE)) (take k nb)) i = take k nb ++ drop k (region m i).
Proof.
  intros Hm Ln. unfold region. assert (Hl := Hm). unfold holds_block in Hl.
  rewrite drop_splice_at by rawlia. rewrite length_take, Ln.
  rewrite take_app_ge by (rewrite length_take; rawlia). rewrite length_take, Ln. f_equal.
  rewrite skipn_firstn_comm, drop_drop.
  destruct (decide (k <= BLK)%nat).
  - rewrite Nat.min_l by done. reflexivity.
  - rewrite Nat.min_r by lia. rewrite Nat.sub_diag.
    replace (BLK - k)%nat with 0%nat by lia. reflexivity.
Qed.

(** The four shapes of a crash between and during the two writes. *)
Lemma write_crash p0 p1 i nb m' :
  holds_block p0 i -> holds_block p1 i -> length nb = BLK ->
  mmc_crash [MmcWrite 0 (i * RAWDATA_BUFFER_SIZE) nb; MmcWrite 1 (i * RAWDATA_BUFFER_SIZE) nb] [p0; p1] m' ->
  exists q0 q1, m' = [q0; q1] /\ holds_block q0 i /\ holds_block q1 i /\
    ((exists k, region q0 i = take k nb ++ drop k (region p0 i) /\ q1 = p1) \/
     (region q0 i = nb /\ exists k, region q1 i = take k nb ++ drop k (region p1 i))).
Proof.
  intros H0 H1 Ln Hc.
  assert (Hs : forall m d, (length d <= BLK)%nat -> holds_block m i ->
    holds_block (splice m (Z.to_nat (i * RAWDATA_BUFFER_SIZE)) d) i).
  { intros m d Ld Hm. apply holds_splice; [done|]. unfold holds_block in Hm. rawlia. }
  assert (Lk : forall k, (length (take k nb) <= BLK)%nat) by (intros; rewrite length_take; lia).
  inversion Hc as [| n off d k ops m |o ops m m1 Hc1]; subst.
  - exists p0, p1. split_and!; try done. left. exists 0%nat. done.
  - cbn [apply_mmc alter list_alter]. do 2 eexists. split; [reflexivity|]. split; [by apply Hs|]. split; [done|].
    left. exists k. split; [by apply region_torn|done].
  - cbn [apply_mmc alter list_alter] in Hc1. set (r0 := splice p0 _ _) in Hc1.
    assert (R0 : region r0 i = nb) by (by apply region_splice_self).
    assert (T0 : holds_block r0 i) by (apply Hs; [lia|done]). clearbody r0.
    inversion Hc1 as [| n off d k ops m |o ops m m2 Hc2]; subst.
    + exists r0, p1. split_and!; try done. right. split; [done|]. by exists 0%nat.
    + cbn [apply_mmc alter list_alter]. do 2 eexists. split; [reflexivity|]. split; [done|]. split; [by apply Hs|].
      right. split; [done|]. exists k. by apply region_torn.
    + inversion Hc2; subst. cbn [apply_mmc alter list_alter]. do 2 eexists. split; [reflexivity|].
      split; [done|]. split; [apply Hs; [lia|done]|]. right. split; [done|].
      exists BLK. rewrite region_splice_self, drop_ge, app_nil_r by (done || (rewrite region_length; done)).
      symmetry. apply take_ge. lia.
Qed.

Lemma verdict_counter i b c :
  i <> 0 -> bytes b -> (HEAD_LEN <= length b)%nat -> block_verdict i b = c -> 0 <= c ->
  get_be32 b OFS_CNT = c.
Proof.
  intros Hi Bb Lb. rewrite block_verdict_counter by done. destruct (_ =? _); [|lia].
  intros <- Hc. assert (R : is_u32 (get_be32 b OFS_CNT)).
  { rewrite get_be32_drop. assert (L : (4 <= length (drop OFS_CNT b))%nat) by (rewrite length_drop; rawlia).
    assert (B : bytes (drop OFS_CNT b)) by auto using Forall_drop.
    destruct (drop OFS_CNT b) as [|x [|y [|z [|w r]]]]; cbn in L; try lia.
    inversion_clear B as [|? ? ? B1]. inversion_clear B1 as [|? ? ? B2]. inversion_clear B2 as [|? ? ? B3].
    inversion_clear B3. rewrite get_be32_add by done. unfold is_byte, is_u32 in *. lia. }
  unfold is_u32 in R. destruct (Z.lt_ge_cases (get_be32 b OFS_CNT) (2 ^ 31)).
  - rewrite s32_small by lia. done.
  - rewrite s32_neg in Hc by lia. lia.
Qed.

Lemma take_head_data a b : take HEAD_LEN a = take HEAD_LEN b -> take OFS_CNT a = take (A := Z) OFS_CNT b.
Proof.
  intros E. replace OFS_CNT with (OFS_CNT `min` HEAD_LEN)%nat by rawlia. rewrite <- !take_take. by rewrite E.
Qed.

(** Which of two copies start-up takes, when each is the old one with counter
    [c], the new one with [c + 1], or rejected with -1. *)
Definition good_copy (c : Z) (old new : list Z) (v : Z) (a : list Z) : Prop :=
  (v = c /\ a = old) \/ (v = c + 1 /\ a = new).

Lemma choose_copy c old new v0 v1 a0 a1 :
  0 <= c ->
  (v0 = -1 /\ good_copy c old new v1 a1) \/ (good_copy c old new v0 a0 /\ v1 = -1) \/
    (good_copy c old new v0 a0 /\ good_copy c old new v1 a1) ->
  ~ (v0 = -1 /\ v1 = -1) /\
  ((if v1 <? v0 then a0 else a1) = old \/ (if v1 <? v0 then a0 else a1) = new) /\
  (v0 = v1 -> a0 = a1).
Proof.
  unfold good_copy. intros Hc H. split; [lia|]. split.
  - destruct (Z.ltb_spec v1 v0); destruct H as [[? H]|[[H ?]|[H H']]]; first [lia | tauto].
  - intros E. destruct H as [[? H]|[[H ?]|[H H']]]; [lia|lia|].
    destruct H as [[? ->]|[? ->]], H' as [[? ->]|[? ->]]; (reflexivity || lia).
Qed.

(** C14: a change of a product file survives a power failure at any point of
    [write_partition].  For the blocks 1 to 3 (block 0, the phase check,
    has no counter) on a device whose opens, seeks, reads and writes all succeed:
    when both partitions hold the old block with a counter [c] below
    2^31 - 1, and no torn prefix of the new block happens to have the old CRC,
    the next start rebuilds the file with the old or the new data, whole, and
    leaves both partitions with that data under one counter and CRC.  (The
    counter itself may run up to 0xEFFFFFFF; above 2^31 - 1 its comparison as
    an [int] goes wrong, [rawdata_counter_sign].) *)
Theorem rawdata_crash_recovery stack p0 p1 u0 u1 f f' i path ob c s1 ops m' w0 w1 :
  1 <= i < 4 -> PRODUCT_INFO !! Z.to_nat i = Some path -> holds_block p0 i -> holds_block p1 i ->
  region p0 i = ob -> region p1 i = ob -> bytes ob -> block_verdict i ob = c -> 0 <= c < 2 ^ 31 - 1 ->
  length stack = 4%nat -> length u0 = BLK -> bytes u0 -> length w0 = BLK -> length w1 = BLK ->
  (forall k, (k <= OFS_CRC)%nat ->
     crc32b 0xFFFFFFFF (Some (take OFS_CRC (torn u0 (c + 1) ob k))) = get_be32 ob OFS_CRC ->
     take OFS_CRC (torn u0 (c + 1) ob k) = take OFS_CRC ob) ->
  write_partition healthy_io stack (mkRaw [p0; p1] [u0; u1] f) i = Some (s1, ops) ->
  mmc_crash ops [p0; p1] m' ->
  exists s2 d q0 q1, init_block healthy_io (mkRaw m' [w0; w1] f') i = Some s2 /\
    (d = take OFS_CNT ob \/ d = take OFS_CNT u0) /\ files s2 !! path = Some d /\
    mmc s2 = [q0; q1] /\ take OFS_CNT (region q0 i) = d /\
    take HEAD_LEN (region q0 i) = take HEAD_LEN (region q1 i).
Proof.
  intros Hi Hp H0 H1 R0 R1 Bo Hv Hc Hst Lu Bu L0 L1 Hcol Hw Hcr.
  assert (Lo : length ob = BLK) by (rewrite <- R0; by apply region_length).
  assert (Hcnt : get_be32 ob OFS_CNT = c) by (apply (verdict_counter i); rawlia || done).
  rewrite (write_partition_healthy stack p0 p1 u0 u1 f i H0 Hst Lu) in Hw. injection Hw as _ <-. rewrite R0, Hcnt in Hcr.
  replace (next_counter c) with (c + 1) in Hcr
    by (unfold next_counter, RAWDATA_COUNTER_THRES; rewrite (proj2 (Z.ltb_ge _ _)), u32_small by (unfold is_u32; lia); done).
  set (nb := stamp u0 (c + 1)) in *. assert (Ln : length nb = BLK) by (by apply stamp_length).
  assert (Uc : is_u32 (c + 1)) by (unfold is_u32; lia).
  assert (Vn : block_verdict i nb = c + 1) by (unfold nb; rewrite stamp_verdict, s32_small by (done || lia); done).
  assert (Dn : take OFS_CNT nb = take OFS_CNT u0) by (by apply stamp_data).
  assert (Torn := torn_verdict u0 (c + 1) Lu Bu Uc i c ob ltac:(lia) Lo Bo Hv Hcol). rewrite s32_small in Torn by lia.
  destruct (write_crash p0 p1 i nb m' H0 H1 Ln Hcr) as (q0 & q1 & -> & Q0 & Q1 & Hsh).
  set (v0 := block_verdict i (region q0 i)). set (v1 := block_verdict i (region q1 i)).
  destruct (choose_copy c (take HEAD_LEN ob) (take HEAD_LEN nb) v0 v1
    (take HEAD_LEN (region q0 i)) (take HEAD_LEN (region q1 i))) as (Hnb & Hwin & Heq); [lia| |].
  { subst v0 v1. unfold good_copy. destruct Hsh as [(k & E0 & ->)|(E0 & k & E1)].
    - rewrite E0, R0, R1. destruct (Torn k) as [T|T]; [left; auto|right; right; split; [exact T|auto]].
    - rewrite E0, E1, R1. destruct (Torn k) as [T|T]; [right; left; auto|right; right; split; [auto|exact T]]. }
  destruct (init_block_spec i q0 q1 w0 w1 f' path Hp Q0 Q1 L0 L1 Hnb) as (s2 & Hs2 & Hf & r0 & r1 & Hm & Hr).
  fold v0 v1 in Hf, Hr. clearbody v0 v1.
  set (win := if v1 <? v0 then region q0 i else region q1 i) in *.
  assert (Hw2 : take HEAD_LEN win = take HEAD_LEN ob \/ take HEAD_LEN win = take HEAD_LEN nb)
    by (unfold win; destruct (v1 <? v0); exact Hwin).
  exists s2, (take OFS_CNT win), r0, r1. split; [exact Hs2|].
  split. { destruct Hw2 as [E|E]; apply take_head_data in E; [left; exact E|right; rewrite E; exact Dn]. }
  split. { rewrite Hf. apply lookup_insert_eq. } split; [exact Hm|].
  destruct (Z.eqb_spec v0 v1) as [Ev|Ev].
  - specialize (Heq Ev). destruct Hr as [-> ->]. split; [|exact Heq].
    unfold win. rewrite Ev, Z.ltb_irrefl. apply take_head_data. exact Heq.
  - destruct Hr as [-> ->]. split; reflexivity.
Qed.

(** The counter is compared as an [int] although it runs up to
    0xEFFFFFFF.  Once a good copy in partition 0 has a counter of 2^31 or more,
    its verdict is below -1, the verdict of a copy with a wrong CRC: start-up
    then restores the file from the bad copy in partition 1 and overwrites the
    good one with it. *)
Lemma rawdata_counter_sign p0 p1 u0 u1 f i path :
  1 <= i < 4 -> PRODUCT_INFO !! Z.to_nat i = Some path -> holds_block p0 i -> holds_block p1 i ->
  length u0 = BLK -> length u1 = BLK ->
  2 ^ 31 <= get_be32 (region p0 i) OFS_CNT < 2 ^ 32 - 1 ->
  get_be32 (region p0 i) OFS_CRC = crc32b 0xFFFFFFFF (Some (take OFS_CRC (region p0 i))) ->
  get_be32 (region p1 i) OFS_CRC <> crc32b 0xFFFFFFFF (Some (take OFS_CRC (region p1 i))) ->
  exists s q0 q1, init_block healthy_io (mkRaw [p0; p1] [u0; u1] f) i = Some s /\
    files s !! path = Some (take OFS_CNT (region p1 i)) /\
    mmc s = [q0; q1] /\ region q0 i = region p1 i.
Proof.
  intros Hi Hp H0 H1 L0 L1 Hc Hg Hb.
  assert (V0 : block_verdict i (region p0 i) = get_be32 (region p0 i) OFS_CNT - 2 ^ 32).
  { rewrite block_verdict_counter, Hg, Z.eqb_refl by lia. apply s32_neg. lia. }
  assert (V1 : block_verdict i (region p1 i) = -1).
  { rewrite block_verdict_counter by lia. now rewrite (proj2 (Z.eqb_neq _ _)). }
  pose proof (init_block_spec i p0 p1 u0 u1 f path Hp H0 H1 L0 L1) as Hs. cbn zeta in Hs.
  rewrite V0, V1, (proj2 (Z.ltb_ge _ _)), (proj2 (Z.eqb_neq _ (-1))) in Hs by lia.
  destruct Hs as (s & Hs & Hf & q0 & q1 & Hm & Hr & _); [lia|].
  exists s, q0, q1. rewrite Hf. split; [exact Hs|]. split; [apply lookup_insert_eq|]. split; assumption.
Qed.

(** An event for a file that is gone again when it is handled is answered
    with the previous contents of the buffer: [read_productinfo] returns without
    touching it, and both partitions get the data of whatever block was handled
    last, under a good counter and CRC. *)
Lemma rawdata_stale_buffer stack name path p0 p1 u0 u1 f i :
  1 <= i < 4 -> PRODUCT_INFO !! Z.to_nat i = Some path -> holds_block p0 i -> holds_block p1 i ->
  length stack = 4%nat -> length u0 = BLK -> f !! path = None ->
  strstr name path = true -> rawdata_nofeadback_block name = false ->
  exists q0 q1 b1, event_block healthy_io stack IN_MODIFY name (mkRaw [p0; p1] [u0; u1] f) i =
      Some (mkRaw [q0; q1] [b1; u1] f) /\
    region q0 i = b1 /\ region q1 i = b1 /\ take OFS_CNT b1 = take OFS_CNT u0.
Proof.
  intros Hi Hp H0 H1 Hst Lu Hf Hn Hfb. unfold event_block. rewrite Hp. cbn [mbind option_bind].
  rewrite Hn. unfold read_productinfo. rewrite (proj2 (Z.leb_gt 4 i)) by lia. rewrite Hp.
  cbn [mbind option_bind healthy_io io_fopen negb files]. rewrite Hf. cbn [mbind option_bind]. rewrite Hfb.
  fold healthy_io. rewrite (write_partition_healthy stack p0 p1 u0 u1 f i H0 Hst Lu).
  set (nb := stamp u0 _). assert (Ln : length nb = BLK) by (by apply stamp_length).
  assert (Dn : take OFS_CNT nb = take OFS_CNT u0) by (by apply stamp_data). clearbody nb.
  cbn [mbind option_bind fst]. do 3 eexists. split; [reflexivity|].
  split; [by apply region_splice_self|]. split; [by apply region_splice_self|exact Dn].
Qed.

(** ** Instances *)
Definition demo_buf : list Z := replicate BLK 255.
Definition demo_old : list Z := stamp demo_buf 5.
Definition demo_dev (b : list Z) : list Z := replicate BLK 0 ++ b.

Lemma demo_buf_length : length demo_buf = BLK.
Proof. apply length_replicate. Qed.
Lemma demo_buf_bytes : bytes demo_buf.
Proof. apply Forall_replicate. unfold is_byte. lia. Qed.

Lemma demo_dev_block b : length b = BLK -> holds_block (demo_dev b) 1 /\ region (demo_dev b) 1 = b.
Proof.
  intros Lb. unfold holds_block, region, demo_dev. rewrite length_app, length_replicate. split; [rawlia|].
  rewrite drop_app_ge; rewrite length_replicate; [|rawlia].
  replace (Z.to_nat (1 * RAWDATA_BUFFER_SIZE) - BLK)%nat with 0%nat by rawlia. rewrite drop_0. apply take_ge. lia.
Qed.

(** The bytes the CRC covers. *)
Lemma stamp_covered u c : length u = BLK -> take OFS_CRC (stamp u c) = take OFS_CNT u ++ put_be32 c.
Proof.
  intros Lu. unfold stamp. rewrite take_splice_le; [|rawlia|rewrite stamp_p_length by done; rawlia].
  unfold splice. rewrite app_assoc, take_app_le; [|rewrite length_app, length_take, put_be32_length; rawlia].
  apply take_ge. rewrite length_app, length_take, put_be32_length. rawlia.
Qed.

(** Two stamps of the same data whose counters differ in the last byte. *)
Lemma mix_last (x : list Z) y z k :
  take k (x ++ [y]) ++ drop k (x ++ [z]) = x ++ [if decide (k <= length x)%nat then z else y].
Proof.
  case_decide.
  - rewrite take_app_le, drop_app_le, app_assoc, take_drop by done. done.
  - rewrite take_ge, drop_ge, app_nil_r by (rewrite length_app; cbn; lia). done.
Qed.

Lemma take_mix n k (a b : list Z) :
  (k <= n)%nat -> (k <= length a)%nat ->
  take n (take k a ++ drop k b) = take k (take n a) ++ drop k (take n b).
Proof.
  intros. rewrite take_app_ge by (rewrite length_take; lia). rewrite length_take, take_take, skipn_firstn_comm.
  repeat f_equal; lia.
Qed.

Lemma demo_torn k :
  (k <= OFS_CRC)%nat ->
  let x := take OFS_CNT demo_buf ++ [0; 0; 0] in
  take OFS_CRC (torn demo_buf 6 demo_old k) = x ++ [if decide (k <= length x)%nat then 5 else 6] /\
  take OFS_CRC demo_old = x ++ [5] /\ bytes x.
Proof.
  intros Hk x. pose proof demo_buf_length as L. unfold torn, demo_old.
  rewrite take_mix by (rewrite ?stamp_length by done; rawlia). rewrite !stamp_covered by done.
  change (put_be32 6) with ([0; 0; 0] ++ [6]). change (put_be32 5) with ([0; 0; 0] ++ [5]).
  rewrite !app_assoc. fold x. split; [apply mix_last|]. split; [reflexivity|].
  unfold x. apply Forall_app_2; [apply Forall_take, demo_buf_bytes|solve_bytes].
Qed.

Lemma demo_old_crc : get_be32 demo_old OFS_CRC = crc32b 0xFFFFFFFF (Some (take OFS_CRC demo_old)).
Proof.
  pose proof (stamp_fields demo_buf 5 demo_buf_length demo_buf_bytes ltac:(unfold is_u32; lia)) as (E & _ & Ec).
  fold demo_old in E, Ec. rewrite Ec, E. reflexivity.
Qed.

(** The CRC of the new counter is not the old one. *)
Lemma demo_crc_differs x :
  bytes x -> crc32b 0xFFFFFFFF (Some (x ++ [6])) <> crc32b 0xFFFFFFFF (Some (x ++ [5])).
Proof.
  intros Hx. apply crc32b_byte_error; [unfold is_u32; lia|apply Forall_app_2; [done|solve_bytes]|unfold is_byte; lia|lia].
Qed.

Lemma demo_no_collision k :
  (k <= OFS_CRC)%nat ->
  crc32b 0xFFFFFFFF (Some (take OFS_CRC (torn demo_buf 6 demo_old k))) = get_be32 demo_old OFS_CRC ->
  take OFS_CRC (torn demo_buf 6 demo_old k) = take OFS_CRC demo_old.
Proof.
  intros Hk. destruct (demo_torn k Hk) as (E1 & E2 & Bx). rewrite demo_old_crc, E1, E2.
  case_decide; [reflexivity|]. intros Hc. by apply demo_crc_differs in Hc.
Qed.

Lemma rawdata_crash_recovery_witness :
  exists m' s2 d q0 q1, init_block healthy_io (mkRaw m' [demo_buf; demo_buf] ∅) 1 = Some s2 /\
    (d = take OFS_CNT demo_old \/ d = take OFS_CNT demo_buf) /\
    files s2 !! "/productinfo/factorymode.file" = Some d /\
    mmc s2 = [q0; q1] /\ take OFS_CNT (region q0 1) = d /\
    take HEAD_LEN (region q0 1) = take HEAD_LEN (region q1 1).
Proof.
  pose proof demo_buf_length as L. pose proof demo_buf_bytes as B.
  assert (Lo : length demo_old = BLK) by (apply stamp_length; exact L).
  destruct (demo_dev_block demo_old Lo) as [Hh Hr].
  assert (Bo : bytes demo_old) by (apply stamp_bytes; exact B).
  assert (Hv : block_verdict 1 demo_old = 5).
  { unfold demo_old. rewrite stamp_verdict; [reflexivity | exact L | exact B | unfold is_u32; lia | lia]. }
  eexists. eapply (rawdata_crash_recovery [0; 0; 0; 0] (demo_dev demo_old) (demo_dev demo_old) demo_buf demo_buf ∅ ∅
    1 "/productinfo/factorymode.file" demo_old 5 _ _ _ demo_buf demo_buf ltac:(lia) ltac:(reflexivity)
    Hh Hh Hr Hr Bo Hv ltac:(lia) ltac:(reflexivity) L B L L demo_no_collision
    (write_partition_healthy [0; 0; 0; 0] _ _ _ _ _ 1 Hh ltac:(reflexivity) L)).
  apply (mmc_crash_torn 0 _ _ 10).
Defined.

Lemma rawdata_counter_sign_witness :
  exists s q0 q1, init_block healthy_io
      (mkRaw [demo_dev (stamp demo_buf (2 ^ 31)); demo_dev (torn demo_buf 6 demo_old OFS_CRC)] [demo_buf; demo_buf] ∅) 1 = Some s /\
    files s !! "/productinfo/factorymode.file" = Some (take OFS_CNT (torn demo_buf 6 demo_old OFS_CRC)) /\
    mmc s = [q0; q1] /\ region q0 1 = torn demo_buf 6 demo_old OFS_CRC.
Proof.
  pose proof demo_buf_length as L. pose proof demo_buf_bytes as B.
  assert (Lo : length demo_old = BLK) by (apply stamp_length; exact L).
  assert (Lt : length (torn demo_buf 6 demo_old OFS_CRC) = BLK) by (apply torn_length; assumption).
  assert (Ls : length (stamp demo_buf (2 ^ 31)) = BLK) by (apply stamp_length; exact L).
  destruct (demo_dev_block _ Ls) as [Hh0 Hr0]. destruct (demo_dev_block _ Lt) as [Hh1 Hr1].
  assert (U : is_u32 (2 ^ 31)) by (unfold is_u32; lia).
  destruct (stamp_fields demo_buf (2 ^ 31) L B U) as (E1 & E2 & E3).
  assert (C0 : 2 ^ 31 <= get_be32 (region (demo_dev (stamp demo_buf (2 ^ 31))) 1) OFS_CNT < 2 ^ 32 - 1)
    by (rewrite Hr0, E2; lia).
  assert (G0 : get_be32 (region (demo_dev (stamp demo_buf (2 ^ 31))) 1) OFS_CRC =
    crc32b 0xFFFFFFFF (Some (take OFS_CRC (region (demo_dev (stamp demo_buf (2 ^ 31))) 1))))
    by (rewrite Hr0, E3, E1; reflexivity).
  assert (G1 : get_be32 (region (demo_dev (torn demo_buf 6 demo_old OFS_CRC)) 1) OFS_CRC <>
    crc32b 0xFFFFFFFF (Some (take OFS_CRC (region (demo_dev (torn demo_buf 6 demo_old OFS_CRC)) 1)))).
  { rewrite Hr1, get_be32_drop, (torn_old demo_buf 6 L demo_old Lo OFS_CRC ltac:(lia)), <- get_be32_drop, demo_old_crc.
    destruct (demo_torn OFS_CRC ltac:(lia)) as (T1 & T2 & Bx). rewrite T1, T2.
    rewrite decide_False by (rewrite length_app, length_take; cbn [length]; rawlia).
    apply not_eq_sym, demo_crc_differs. exact Bx. }
  destruct (rawdata_counter_sign _ _ demo_buf demo_buf ∅ 1 "/productinfo/factorymode.file"
    ltac:(lia) ltac:(reflexivity) Hh0 Hh1 L L C0 G0 G1) as (s & q0 & q1 & Hs & Hf & Hm & Hq).
  rewrite Hr1 in Hf, Hq. exists s, q0, q1. split; [exact Hs|]. split; [exact Hf|]. split; [exact Hm|exact Hq].
Defined.

Lemma rawdata_stale_buffer_witness :
  exists q0 q1 b1, event_block healthy_io [0; 0; 0; 0] IN_MODIFY "alarm_flag"
      (mkRaw [demo_dev demo_old ++ replicate BLK 0; demo_dev demo_old ++ replicate BLK 0] [demo_buf; demo_buf] ∅) 2 =
      Some (mkRaw [q0; q1] [b1; demo_buf] ∅) /\
    region q0 2 = b1 /\ region q1 2 = b1 /\ take OFS_CNT b1 = take OFS_CNT demo_buf.
Proof.
  pose proof demo_buf_length as L.
  assert (Lo : length demo_old = BLK) by (apply stamp_length; exact L).
  assert (Hh : holds_block (demo_dev demo_old ++ replicate BLK 0) 2).
  { unfold holds_block, demo_dev. rewrite !length_app, !length_replicate. rawlia. }
  apply (rawdata_stale_buffer [0; 0; 0; 0] "alarm_flag" "/productinfo/alarm_flag").
  all: first [exact L | exact Hh | reflexivity | lia].
Defined.
