(* ===== verification/FdlPacket.v ===== *)
(** * The download protocol to the modem (apps/modem_control/packet.c)

    The boot loader of the modem is driven over the UART, with HDLC-like
    framing and a CRC, and then over SPI, with two checksums in the header.
    [setup_packet] builds a message in place, [translate_packet] and
    [untranslate_packet] frame it, the [send_*] functions send one message and
    wait for the acknowledgement.

    Buffers are byte lists; an access outside one is [None].  The results of
    [write] and [read] on the descriptor are the lists of an [exchange_io]; a
    function that would still wait for the descriptor when they are used up is
    also [None]. *)
From S2P Require Import Prelude.
From S2P Require Import Checksum.

Inductive CMD_TYPE :=
| BSL_CMD_CONNECT | BSL_CMD_START_DATA | BSL_CMD_MIDST_DATA | BSL_CMD_END_DATA
| BSL_CMD_EXEC_DATA | BSL_CMD_SWITCH_MODE | BSL_CMD_OTHER (code : Z).
Definition cmd_code (c : CMD_TYPE) : Z :=
  match c with
  | BSL_CMD_CONNECT => 0 | BSL_CMD_START_DATA => 1 | BSL_CMD_MIDST_DATA => 2
  | BSL_CMD_END_DATA => 3 | BSL_CMD_EXEC_DATA => 4 | BSL_CMD_SWITCH_MODE => 0x0D
  | BSL_CMD_OTHER z => z
  end.
Definition BSL_REP_ACK : Z := 0x80.
(** [flag]: [BSL_UART_PACKET] is 0, [BSL_SPI_PACKET] is 1. *)
Definition BSL_UART_PACKET : bool := true.
Definition BSL_SPI_PACKET : bool := false.

Definition cpu2be16 (w : Z) : Z := Z.lor (Z.shiftl (Z.land w 0xFF) 8) (Z.land (Z.shiftr w 8) 0xFF).
Definition cpu2be32 (d : Z) : Z :=
  Z.lor (Z.lor (Z.lor (Z.shiftl (Z.land d 0xFF) 24) (Z.shiftl (Z.land (Z.shiftr d 8) 0xFF) 16))
               (Z.shiftl (Z.land (Z.shiftr d 16) 0xFF) 8)) (Z.shiftr d 24).

(** ** Framing *)
Definition esc_byte (b : Z) : list Z :=
  if b =? 0x7E then [0x7D; 0x5E] else if b =? 0x7D then [0x7D; 0x5D] else [b].
Definition translate_packet (src : list Z) : list Z := [0x7E] ++ flat_map esc_byte src ++ [0x7E].

(** The loop of [untranslate_packet] from [status]; [dest] is what it has
    written.  At the closing flag it computes, and ignores, the CRC of
    [translated_size - 2] bytes: for a one-byte frame the length wraps to
    2^32 - 1 and the CRC runs out of the buffer ([None]). *)
Fixpoint untranslate_loop (status : Z) (dest src : list Z) : option (list Z) :=
  match src with
  | [] => Some dest
  | b :: r =>
      if status =? 0 then untranslate_loop (if b =? 0x7e then 1 else 0) dest r
      else if status =? 1 then
        if negb (b =? 0x7e) then untranslate_loop 2 (dest ++ [b]) r else untranslate_loop 1 dest r
      else if b =? 0x7E then (if zlen dest =? 1 then None else Some dest)
      else if List.last dest 0 =? 0x7D then
        untranslate_loop 2
          (if b =? 0x5E then removelast dest ++ [0x7E]
           else if b =? 0x5D then removelast dest ++ [0x7D] else dest) r
      else untranslate_loop 2 (dest ++ [b]) r
  end.
Definition untranslate_packet (src : list Z) : option (list Z) := untranslate_loop 0 [] src.

(** ** Messages *)

(** The UART form: header, big-endian, at offset 4, then [data_size] bytes,
    then the CRC.  [crc] is the value stored after the data. *)
Definition uart_header (msg : CMD_TYPE) (buffer : list Z) (data_size : Z) : option (list Z) :=
  b ← store buffer 4 (le16 (cpu2be16 (u16 (cmd_code msg))));
  store b 6 (le16 (cpu2be16 (u16 data_size))).
Definition uart_crc (msg : CMD_TYPE) (b : list Z) (data_size : Z) : option (list Z * Z) :=
  b ← uart_header msg b data_size;
  let length := 4 + data_size in
  d ← load b 4 length;
  b ← store b (length + 4) (le16 (cpu2be16 (crc_16_l_calc d)));
  Some (b, length + 2).

(** The SPI form: size, command, checksum of the data, checksum of the first
    six bytes. *)
Definition spi_header (msg : CMD_TYPE) (buffer : list Z) (size : Z) : option (list Z) :=
  b ← store buffer 0 (le16 (u16 size)); store b 2 (le16 (u16 (cmd_code msg))).
Definition spi_checksums (b : list Z) (offset data_size : Z) : option (list Z) :=
  c ← boot_checksum (drop (Z.to_nat offset) b) data_size;
  b ← store b 4 (le16 c);
  c ← boot_checksum b 6;
  store b 6 (le16 c).

(** [setup_packet]: the buffer and the size to send. *)
Definition setup_packet (msg : CMD_TYPE) (buffer : list Z) (offset data_size : Z) (uart : bool)
  : option (list Z * Z) :=
  let length := 4 + data_size in
  match msg with
  | BSL_CMD_CONNECT =>
      if uart then
        b ← uart_header msg buffer data_size;
        b ← store b (length + 4) [0; 0];
        Some (b, length + 2)
      else
        b ← spi_header msg buffer data_size;
        b ← store b 8 [0; 0];
        b ← spi_checksums b offset data_size;
        Some (b, 12)
  | BSL_CMD_START_DATA | BSL_CMD_EXEC_DATA =>
      if uart then uart_crc msg buffer data_size
      else
        b ← spi_header msg buffer data_size;
        b ← spi_checksums b offset data_size;
        Some (b, data_size + 8)
  | BSL_CMD_MIDST_DATA =>
      if uart then uart_crc msg buffer data_size
      else
        b ← spi_header msg buffer (if data_size =? 0 then 4 else data_size);
        b ← spi_checksums b offset data_size;
        Some (b, data_size + 8)
  | BSL_CMD_END_DATA =>
      if uart then uart_crc msg buffer data_size
      else
        b ← spi_header msg buffer 4;
        b ← spi_checksums b offset data_size;
        b ← store b 8 [0; 0; 0; 0];
        Some (b, 12)
  | BSL_CMD_SWITCH_MODE =>
      if uart then
        b ← uart_header msg buffer data_size;
        c ← frm_chk (drop 4 b) length;
        b ← store b (length + 4) (le16 c);
        Some (b, length + 2)
      else
        b ← spi_header msg buffer 4;
        b ← spi_checksums b offset data_size;
        b ← store b 8 [0; 0; 0; 0];
        Some (b, 12)
  | BSL_CMD_OTHER _ => Some (buffer, 0)
  end.

(** ** Sending a message and reading the answer *)

(** The results of the [write]s, and of the [read]s with the bytes delivered
    (none for an error). *)
Record exchange_io := mkExchange { io_writes : list Z; io_reads : list (list Z) }.

(** [do { retval = write(fd, send_buffer, translated_size); ... } while (translated_size > 0)]:
    the bytes that went out.  Every [write] starts at [send_buffer] again. *)
Fixpoint write_loop (ws : list Z) (send_buffer : list Z) (translated_size : Z) : option (list Z) :=
  match ws with
  | [] => None
  | retval :: r =>
      let out := take (Z.to_nat retval) (take (Z.to_nat translated_size) send_buffer) in
      let left := if 0 <? retval then translated_size - retval else translated_size in
      if 0 <? left then rest ← write_loop r send_buffer left; Some (out ++ rest) else Some out
  end.

(** [do { retval = read(fd, &raw_buffer[offset], size); ... } while (size != 0)] *)
Fixpoint read_loop (rs : list (list Z)) (got : list Z) (size : nat) : option (list Z) :=
  match rs with
  | [] => None
  | d :: r =>
      let d := take size d in
      if (size - length d =? 0)%nat then Some (got ++ d) else read_loop r (got ++ d) (size - length d)
  end.

(** The acknowledgement: the bytes of [send_buffer] behind a short answer are
    those of the request. *)
Definition reply_type (data : list Z) : Z := u16 (Z.lor (Z.shiftl (nth 0 data 0) 8) (nth 1 data 0)).

Definition SEND_BUFFER_SIZE : Z := 4000.

(** The common body of the [send_*] functions: the bytes sent and the result.
    [null_ok] says whether the type 0 counts as an acknowledgement. *)
Definition exchange (io : exchange_io) (uart null_ok : bool) (message : list Z) : option (list Z * Z) :=
  let verdict data := let t := reply_type data in
    if (t =? BSL_REP_ACK) || (null_ok && (t =? 0)) then 0 else -1 in
  if uart then
    let frame := translate_packet message in
    send_buffer ← store (replicate (Z.to_nat SEND_BUFFER_SIZE) 0) 0 frame;
    sent ← write_loop (io_writes io) send_buffer (zlen frame);
    raw ← read_loop (io_reads io) [] 8;
    d ← untranslate_packet raw;
    Some (sent, verdict (d ++ drop (length d) send_buffer))
  else
    retval ← head (io_writes io);
    let sent := take (Z.to_nat retval) message in
    if 0 <? retval then raw ← read_loop (io_reads io) [] 6; Some (sent, verdict raw)
    else Some (sent, -1).

Definition raw_buffer0 : list Z := replicate 32 0.

Definition send_message (io : exchange_io) (msg : CMD_TYPE) (buffer : list Z) (data_size : Z) (uart null_ok : bool)
  : option (list Z * Z) :=
  p ← setup_packet msg buffer 8 data_size uart;
  let '(b, size) := p in
  m ← load b (if uart then 4 else 0) size;
  exchange io uart null_ok m.

Definition send_connect_message (io : exchange_io) (uart : bool) : option (list Z * Z) :=
  send_message io BSL_CMD_CONNECT raw_buffer0 0 uart false.
Definition send_start_message (io : exchange_io) (size addr : Z) (uart : bool) : option (list Z * Z) :=
  b ← store raw_buffer0 8 (le32 (cpu2be32 addr));
  b ← store b 12 (le32 (cpu2be32 size));
  send_message io BSL_CMD_START_DATA b 8 uart true.
Definition send_end_message (io : exchange_io) (uart : bool) : option (list Z * Z) :=
  send_message io BSL_CMD_END_DATA raw_buffer0 0 uart true.
(** Over the UART the data is copied into a local buffer of 300 bytes; over SPI
    the message is built around the data in the caller's buffer. *)
Definition send_data_message (io : exchange_io) (buffer : list Z) (data_size : Z) (uart : bool)
  : option (list Z * Z) :=
  if uart then
    d ← load buffer 0 data_size;
    b ← store (replicate 300 0) 8 d;
    send_message io BSL_CMD_MIDST_DATA b data_size uart true
  else send_message io BSL_CMD_MIDST_DATA buffer data_size uart true.
Definition send_exec_message (io : exchange_io) (addr : Z) (uart : bool) : option (list Z * Z) :=
  b ← store raw_buffer0 8 (le32 (cpu2be32 addr));
  send_message io BSL_CMD_EXEC_DATA b 4 uart true.
Definition uart_send_change_spi_mode_message (io : exchange_io) : option (list Z * Z) :=
  send_message io BSL_CMD_SWITCH_MODE raw_buffer0 0 BSL_UART_PACKET false.

(** ** Framing *)
Abbreviation no_esc := (Forall (fun b => b <> 0x7D)).

Lemma last_snoc (d : list Z) b : List.last (d ++ [b]) 0 = b.
Proof. apply List.last_last. Qed.

(** The payload of a frame from the second byte on. *)
Lemma untranslate_run src dest rest :
  no_esc src -> dest <> [] -> List.last dest 0 <> 0x7D ->
  untranslate_loop 2 dest (flat_map esc_byte src ++ rest) = untranslate_loop 2 (dest ++ src) rest.
Proof.
  revert dest. induction src as [|b src IH]; intros dest Hs Hd Hl; [now rewrite app_nil_r|].
  inversion_clear Hs as [|? ? Hb Hs']. cbn [flat_map]. rewrite <- app_assoc. unfold esc_byte at 1.
  replace (dest ++ b :: src) with ((dest ++ [b]) ++ src) by (rewrite <- app_assoc; done).
  assert (Ne : dest ++ [b] <> []) by (destruct dest; done).
  destruct (Z.eqb_spec b 0x7E) as [->|H7e]; [|destruct (Z.eqb_spec b 0x7D); [done|]]; cbn -[Z.eqb List.last removelast].
  - rewrite (proj2 (Z.eqb_neq (List.last dest 0) 125)) by done. cbn -[Z.eqb List.last removelast].
    rewrite last_snoc. cbn -[List.last removelast]. rewrite removelast_last.
    apply IH; [done|destruct dest; done|rewrite last_snoc; lia].
  - rewrite (proj2 (Z.eqb_neq b 0x7E)), (proj2 (Z.eqb_neq (List.last dest 0) 125)) by done. cbn -[Z.eqb List.last].
    apply IH; [done|done|by rewrite last_snoc].
Qed.

(** The opening flag and the first byte. *)
Lemma untranslate_open b src rest :
  b <> 0x7D ->
  untranslate_packet ([0x7E] ++ flat_map esc_byte (b :: src) ++ rest) =
    untranslate_loop 2 [b] (flat_map esc_byte src ++ rest).
Proof.
  intros Hb. unfold untranslate_packet. cbn [flat_map app]. unfold esc_byte at 1.
  destruct (Z.eqb_spec b 0x7E) as [->|H7e]; [done|]. destruct (Z.eqb_spec b 0x7D); [done|].
  cbn -[Z.eqb]. change (0 =? 0) with true. change (126 =? 126) with true. cbv iota. cbn -[Z.eqb].
  change (1 =? 0) with false. change (1 =? 1) with true. cbv iota.
  rewrite (proj2 (Z.eqb_neq b 126)) by done. done.
Qed.

Lemma untranslate_translate_aux src :
  (2 <= length src)%nat -> no_esc src -> untranslate_packet (translate_packet src) = Some src.
Proof.
  intros Hl Hs. destruct src as [|b src]; [simpl in Hl; lia|]. inversion_clear Hs as [|? ? Hb Hs'].
  unfold translate_packet. rewrite untranslate_open, untranslate_run by done. cbn -[Z.eqb].
  change (2 =? 0) with false. change (2 =? 1) with false. change (126 =? 126) with true. cbv iota.
  rewrite (proj2 (Z.eqb_neq _ 1)) by (simpl in *; lia). done.
Qed.

(** Framing round trip: [untranslate_packet] recovers every payload of at
    least two bytes that does not contain the escape byte 0x7D. *)
Lemma untranslate_translate src :
  (2 <= length src)%nat -> no_esc src -> untranslate_packet (translate_packet src) = Some src.
Proof. apply untranslate_translate_aux. Qed.

Lemma untranslate_translate_witness :
  untranslate_packet (translate_packet [0x80; 0x7E; 0; 1]) = Some [0x80; 0x7E; 0; 1].
Proof. apply (untranslate_translate [0x80; 0x7E; 0; 1]); [simpl; lia | repeat constructor; lia]. Defined.

(** The payload is lost from its first 0x7D on.  A decoded 0x7D is taken for
    the first half of the next escape, so every later byte is dropped until one
    happens to be 0x5E. *)
Lemma untranslate_loses_tail a c :
  a <> [] -> no_esc a -> Forall (fun b => b <> 0x7D /\ b <> 0x7E /\ b <> 0x5E) c ->
  untranslate_packet (translate_packet (a ++ 0x7D :: c)) = Some (a ++ [0x7D]).
Proof.
  intros Hne Ha Hc. destruct a as [|b a]; [done|]. inversion_clear Ha as [|? ? Hb Ha'].
  unfold translate_packet. rewrite flat_map_app. cbn [app]. rewrite <- app_assoc.
  change (126 :: flat_map esc_byte (b :: a) ++ flat_map esc_byte (125 :: c) ++ [126])
    with ([0x7E] ++ flat_map esc_byte (b :: a) ++ (flat_map esc_byte (125 :: c) ++ [126])).
  rewrite untranslate_open, untranslate_run by done.
  set (d := [b] ++ a). assert (Hd : d <> []) by done. assert (Hld : List.last d 0 <> 0x7D).
  { unfold d. cbn [app]. destruct a as [|x a] using rev_ind; [done|].
    rewrite app_comm_cons, last_snoc. apply Forall_app in Ha' as [_ Hx]. by inversion_clear Hx. }
  change (b :: a ++ [125]) with (d ++ [125]). change (flat_map esc_byte (125 :: c) ++ [126]) with (125 :: 93 :: flat_map esc_byte c ++ [126]).
  assert (Ld : (1 <= length d)%nat) by (destruct d; [done|simpl; lia]). clearbody d.
  cbn -[Z.eqb List.last removelast].
  change (2 =? 0) with false. change (2 =? 1) with false. change (125 =? 126) with false. change (93 =? 126) with false.
  cbv iota. rewrite (proj2 (Z.eqb_neq (List.last d 0) 125)) by done. rewrite last_snoc.
  change (125 =? 125) with true. change (93 =? 94) with false. change (93 =? 93) with true. cbv iota. rewrite removelast_last.
  induction Hc as [|x c (Hx & Hx' & Hx'') Hc IH].
  - cbn -[Z.eqb]. change (2 =? 0) with false. change (2 =? 1) with false. change (126 =? 126) with true. cbv iota.
    rewrite (proj2 (Z.eqb_neq _ 1)) by (rewrite length_app; simpl; lia). done.
  - cbn [flat_map]. unfold esc_byte at 1. rewrite (proj2 (Z.eqb_neq x 126)), (proj2 (Z.eqb_neq x 125)) by done.
    cbn -[Z.eqb List.last removelast]. change (2 =? 0) with false. change (2 =? 1) with false. cbv iota.
    rewrite (proj2 (Z.eqb_neq x 126)), last_snoc, (proj2 (Z.eqb_neq x 94)) by done.
    change (125 =? 125) with true. cbv iota. rewrite removelast_last. destruct (x =? 93); exact IH.
Qed.

Lemma untranslate_loses_tail_witness :
  untranslate_packet (translate_packet ([0x80] ++ 0x7D :: [1; 2; 3])) = Some ([0x80] ++ [0x7D]).
Proof.
  apply (untranslate_loses_tail [0x80] [1; 2; 3]); [discriminate | repeat constructor; lia | repeat constructor; lia].
Defined.

(** ** The messages verify *)
Lemma be16_bytes w : 0 <= w < 2 ^ 16 -> le16 (cpu2be16 w) = [w / 256; w mod 256].
Proof.
  intros Hw. unfold cpu2be16. change 0xFF with (Z.ones 8).
  rewrite !Z.land_ones, Z.shiftr_div_pow2, lor_shiftl_add by (lia || zlia).
  cbn [le_enc]. change (2 ^ 8) with 256.
  apply (f_equal2 cons); [zlia|]. apply (f_equal2 cons); [zlia|done].
Qed.

Lemma crc_bytes l : bytes l -> le16 (cpu2be16 (crc_16_l_calc l)) = [Z.shiftr (crc_16_l_calc l) 8; Z.land (crc_16_l_calc l) 0xff].
Proof.
  intros Hl. rewrite be16_bytes by (apply crc_16_l_range; done).
  change 0xff with (Z.ones 8). rewrite Z.land_ones, Z.shiftr_div_pow2 by lia. done.
Qed.

Definition crc_command (msg : CMD_TYPE) : bool :=
  match msg with
  | BSL_CMD_START_DATA | BSL_CMD_MIDST_DATA | BSL_CMD_END_DATA | BSL_CMD_EXEC_DATA => true
  | _ => false
  end.

(** A UART message that carries a CRC verifies at the receiver.
    [setup_packet] leaves the data in place, puts the command and the size,
    big-endian, before it and the CRC after it, and the whole frame has CRC 0,
    the receiver's test. *)
Lemma uart_frame_verifies msg x y data z rest :
  crc_command msg = true -> length x = 4%nat -> length y = 4%nat -> length z = 2%nat ->
  bytes data -> zlen data < 2 ^ 16 ->
  exists b f crc, setup_packet msg (x ++ y ++ data ++ z ++ rest) 8 (zlen data) BSL_UART_PACKET =
      Some (b, zlen data + 6) /\
    load b 4 (zlen data + 6) = Some f /\
    f = [0; cmd_code msg; zlen data / 256; zlen data mod 256] ++ data ++ crc /\
    length crc = 2%nat /\ crc_16_l_calc f = 0.
Proof.
  intros Hm Lx Ly Lz Hd Hn.
  assert (Hset : setup_packet msg (x ++ y ++ data ++ z ++ rest) 8 (zlen data) BSL_UART_PACKET =
                 uart_crc msg (x ++ y ++ data ++ z ++ rest) (zlen data)) by (destruct msg; done).
  rewrite Hset. clear Hset. unfold uart_crc, uart_header.
  assert (Hc : u16 (cmd_code msg) = cmd_code msg /\ le16 (cpu2be16 (cmd_code msg)) = [0; cmd_code msg])
    by (destruct msg; done). destruct Hc as [-> ->].
  rewrite (u16_small (zlen data)), be16_bytes by lia.
  destruct y as [|y0 [|y1 [|y2 [|y3 []]]]]; try done.
  change (x ++ [y0; y1; y2; y3] ++ data ++ z ++ rest) with (x ++ [y0; y1] ++ ([y2; y3] ++ data ++ z ++ rest)).
  rewrite store_mid by (done || lia). cbn [mbind option_bind].
  replace (x ++ [0; cmd_code msg] ++ [y2; y3] ++ data ++ z ++ rest)
    with ((x ++ [0; cmd_code msg]) ++ [y2; y3] ++ (data ++ z ++ rest)) by (rewrite <- app_assoc; done).
  rewrite store_mid by (rewrite ?length_app; done || (cbn [length]; lia)). cbn [mbind option_bind].
  set (h := [0; cmd_code msg; zlen data / 256; zlen data mod 256]).
  replace ((x ++ [0; cmd_code msg]) ++ [zlen data / 256; zlen data mod 256] ++ data ++ z ++ rest)
    with (x ++ (h ++ data) ++ (z ++ rest)) by (unfold h; rewrite <- !app_assoc; done).
  rewrite load_mid by (rewrite ?length_app; cbn [length h]; lia). cbn [mbind option_bind].
  assert (Bh : bytes (h ++ data)).
  { apply Forall_app_2; [|done]. unfold h. repeat constructor; try (unfold is_byte; zlia).
    all: destruct msg; cbn; done || lia. }
  rewrite crc_bytes by done. set (c := crc_16_l_calc (h ++ data)).
  replace (x ++ (h ++ data) ++ z ++ rest) with ((x ++ h ++ data) ++ z ++ rest) by (rewrite <- !app_assoc; done).
  rewrite store_mid by (rewrite ?length_app; cbn [length h]; lia). cbn [mbind option_bind].
  eexists _, ((h ++ data) ++ [Z.shiftr c 8; Z.land c 255]), [Z.shiftr c 8; Z.land c 255].
  split; [replace (4 + zlen data + 2) with (zlen data + 6) by lia; reflexivity|]. split_and!.
  - replace ((x ++ h ++ data) ++ [Z.shiftr c 8; Z.land c 255] ++ rest)
      with (x ++ ((h ++ data) ++ [Z.shiftr c 8; Z.land c 255]) ++ rest) by (rewrite <- !app_assoc; done).
    apply load_mid; rewrite ?length_app; cbn [length h]; lia.
  - by rewrite <- app_assoc.
  - done.
  - apply crc_16_l_residue. done.
Qed.

Lemma uart_frame_verifies_witness :
  exists b f crc, setup_packet BSL_CMD_MIDST_DATA ([0; 0; 0; 0] ++ [0; 0; 0; 0] ++ [5; 6; 7] ++ [0; 0] ++ []) 8 3
      BSL_UART_PACKET = Some (b, 3 + 6) /\
    load b 4 (3 + 6) = Some f /\ f = [0; 2; 3 / 256; 3 mod 256] ++ [5; 6; 7] ++ crc /\
    length crc = 2%nat /\ crc_16_l_calc f = 0.
Proof.
  apply (uart_frame_verifies BSL_CMD_MIDST_DATA [0; 0; 0; 0] [0; 0; 0; 0] [5; 6; 7] [0; 0] []);
    [reflexivity | reflexivity | reflexivity | reflexivity | solve_bytes | simpl; lia].
Defined.

(** One's complement sums: the checksum word makes the total fold to -0. *)
Lemma fold_not_sum s :
  0 <= s < 2 ^ 20 -> 0 <= fold_not s < 2 ^ 16 /\ fold_not (s + fold_not s) = 0.
Proof.
  intros Hs. unfold fold_not. change 0xffff with (Z.ones 16). rewrite !Z.land_ones, !Z.shiftr_div_pow2 by lia.
  set (s1 := s / 2 ^ 16 + s mod 2 ^ 16). assert (H1 : 0 <= s1 < 2 ^ 17) by (unfold s1; zlia).
  rewrite (u32_small s1) by (unfold is_u32; lia).
  rewrite (u32_small (s1 + _)) by (unfold is_u32; zlia).
  set (c := u16 (Z.lnot (s1 + s1 / 2 ^ 16))).
  assert (Hc : c = 2 ^ 16 - 1 - (s1 + s1 / 2 ^ 16) mod 2 ^ 16) by (unfold c, u16, Z.lnot; zlia).
  split; [zlia|].
  set (t := s + c). set (t1 := t / 2 ^ 16 + t mod 2 ^ 16).
  assert (Ht1 : t1 = 65535 \/ t1 = 131070) by (unfold t1, t, s1 in *; zlia).
  rewrite (u32_small t1) by (unfold is_u32; lia). destruct Ht1 as [-> | ->]; reflexivity.
Qed.

Lemma boot_checksum_6 a0 a1 a2 a3 a4 a5 r :
  bytes [a0; a1; a2; a3; a4; a5] ->
  boot_checksum (a0 :: a1 :: a2 :: a3 :: a4 :: a5 :: r) 6 =
    Some (fold_not (a0 + 256 * a1 + (a2 + 256 * a3) + (a4 + 256 * a5))).
Proof.
  intros B. unfold boot_checksum.
  change (a0 :: a1 :: a2 :: a3 :: a4 :: a5 :: r) with ([] ++ [a0; a1; a2; a3; a4; a5] ++ r).
  rewrite load_mid by done. cbn [mbind option_bind]. change (6 =? 0) with false. change (Z.land 6 1 =? 0) with true.
  change (Z.to_nat (Z.shiftr 6 1)) with 3%nat. cbv iota. cbn [sum_words]. unfold get16. cbn [drop take le_dec].
  repeat (match goal with H : bytes (_ :: _) |- _ => inversion_clear H end). unfold is_byte in *.
  unfold u32. f_equal. f_equal. zlia.
Qed.

Lemma boot_checksum_8 a0 a1 a2 a3 a4 a5 a6 a7 r :
  bytes [a0; a1; a2; a3; a4; a5; a6; a7] ->
  boot_checksum (a0 :: a1 :: a2 :: a3 :: a4 :: a5 :: a6 :: a7 :: r) 8 =
    Some (fold_not (a0 + 256 * a1 + (a2 + 256 * a3) + (a4 + 256 * a5) + (a6 + 256 * a7))).
Proof.
  intros B. unfold boot_checksum.
  change (a0 :: a1 :: a2 :: a3 :: a4 :: a5 :: a6 :: a7 :: r) with ([] ++ [a0; a1; a2; a3; a4; a5; a6; a7] ++ r).
  rewrite load_mid by done. cbn [mbind option_bind]. change (8 =? 0) with false. change (Z.land 8 1 =? 0) with true.
  change (Z.to_nat (Z.shiftr 8 1)) with 4%nat. cbv iota. cbn [sum_words]. unfold get16. cbn [drop take le_dec].
  repeat (match goal with H : bytes (_ :: _) |- _ => inversion_clear H end). unfold is_byte in *.
  unfold u32. f_equal. f_equal. zlia.
Qed.

Lemma le16_val c : 0 <= c < 2 ^ 16 -> exists x y, le16 c = [x; y] /\ x + 256 * y = c /\ bytes [x; y].
Proof.
  intros Hc. exists (c mod 256), (c / 256 mod 256). split; [done|].
  split; [zlia|repeat constructor; unfold is_byte; zlia].
Qed.

(** The two checksums, on a buffer of at least eight bytes. *)
Lemma spi_checksums_verify b0 offset n b :
  bytes b0 -> 8 <= zlen b0 -> spi_checksums b0 offset n = Some b ->
  boot_checksum b 8 = Some 0 /\ length b = length b0 /\ bytes b.
Proof.
  intros B L. do 8 (destruct b0 as [|? b0]; [cbn in L; lia|]). unfold spi_checksums.
  destruct (boot_checksum (drop _ _) n) as [cs|]; [|done]. cbn [mbind option_bind].
  change (z :: z0 :: z1 :: z2 :: z3 :: z4 :: z5 :: z6 :: b0)
    with ([z; z0; z1; z2] ++ [z3; z4] ++ (z5 :: z6 :: b0)).
  rewrite store_mid by (done || rewrite le_enc_length; done). cbn [mbind option_bind].
  pose proof (le_enc_bytes 2 cs) as Bc. destruct (le16 cs) as [|c0 [|c1 []]] eqn:Ec; try done.
  assert (B6 : bytes [z; z0; z1; z2; c0; c1]).
  { repeat (match goal with H : bytes (_ :: _) |- _ => inversion_clear H end). solve_bytes. }
  cbn [app]. rewrite boot_checksum_6 by done. cbn [mbind option_bind].
  set (sum := z + 256 * z0 + (z1 + 256 * z2) + (c0 + 256 * c1)).
  assert (Hs : 0 <= sum < 2 ^ 20).
  { repeat (match goal with H : bytes (_ :: _) |- _ => inversion_clear H end). unfold sum, is_byte in *. lia. }
  destruct (fold_not_sum sum Hs) as [Hr H0]. destruct (le16_val _ Hr) as (x & y & Ex & Ev & Bxy). rewrite Ex.
  change (z :: z0 :: z1 :: z2 :: c0 :: c1 :: z5 :: z6 :: b0)
    with ([z; z0; z1; z2; c0; c1] ++ [z5; z6] ++ b0).
  rewrite store_mid by done. intros [= <-].
  assert (B8 : bytes [z; z0; z1; z2; c0; c1; x; y]) by (apply (Forall_app_2 _ [z; z0; z1; z2; c0; c1] [x; y]); done).
  cbn [app]. rewrite boot_checksum_8 by done. fold sum. rewrite Ev, H0. split; [done|]. split; [done|].
  apply (Forall_app_2 _ [z; z0; z1; z2; c0; c1; x; y] b0); [done|].
  do 8 (apply Forall_inv_tail in B). done.
Qed.

(** The header of eight bytes is all the checksum at offset 6 covers. *)
Lemma boot_checksum_store b off d b' :
  8 <= off -> 8 <= zlen b -> store b off d = Some b' -> boot_checksum b' 8 = boot_checksum b 8.
Proof.
  intros Ho Lb Hs. unfold boot_checksum. pose proof (store_length _ _ _ _ Hs) as L.
  apply store_Some in Hs as (_ & Hl & ->). rewrite !load_0 by lia. cbn [mbind option_bind].
  change (Z.to_nat 8) with 8%nat. assert (E : take 8 (splice b (Z.to_nat off) d) = take 8 b).
  { unfold splice. rewrite take_app_le, take_take by (rewrite length_take; lia). f_equal. lia. }
  rewrite E. done.
Qed.

Definition known_command (msg : CMD_TYPE) : bool :=
  match msg with BSL_CMD_OTHER _ => false | _ => true end.

(** An SPI header verifies at the receiver: the checksum at offset 6 makes
    the boot checksum of the eight header bytes 0, for every command, data size
    and buffer. *)
Lemma spi_header_verifies msg b0 offset n b size :
  known_command msg = true -> bytes b0 -> 12 <= zlen b0 ->
  setup_packet msg b0 offset n BSL_SPI_PACKET = Some (b, size) -> boot_checksum b 8 = Some 0.
Proof.
  intros Hk B L. assert (St : forall (a : list Z) o d a', bytes a -> bytes d -> 12 <= zlen a -> store a o d = Some a' ->
    bytes a' /\ 12 <= zlen a').
  { intros a o d a' Ba Bd La Hst. pose proof (store_length _ _ _ _ Hst). apply store_Some in Hst as (_ & _ & ->).
    split; [by apply bytes_splice|lia]. }
  assert (Hh : forall sz b1, spi_header msg b0 sz = Some b1 -> bytes b1 /\ 12 <= zlen b1).
  { intros sz b1. unfold spi_header. destruct (store b0 0 _) as [a|] eqn:Ha; [|done]. cbn [mbind option_bind].
    apply St in Ha as [Ba La]; [|auto using le_enc_bytes..]. intros Hb. apply St in Hb; auto using le_enc_bytes. }
  assert (Fin : forall sz tl b1, spi_header msg b0 sz = Some b1 ->
     (b ← spi_checksums b1 offset n; Some (b, tl)) = Some (b, size) -> boot_checksum b 8 = Some 0).
  { intros sz tl b1 Hb1. apply Hh in Hb1 as [B1 L1]. destruct (spi_checksums b1 offset n) as [b2|] eqn:E2; [|done].
    cbn [mbind option_bind]. intros [= <- _]. apply spi_checksums_verify in E2; [tauto|done|lia]. }
  assert (Fin2 : forall sz b1, spi_header msg b0 sz = Some b1 ->
     (b ← spi_checksums b1 offset n; b ← store b 8 [0; 0; 0; 0]; Some (b, 12)) = Some (b, size) ->
     boot_checksum b 8 = Some 0).
  { intros sz b1 Hb1. apply Hh in Hb1 as [B1 L1]. destruct (spi_checksums b1 offset n) as [b2|] eqn:E2; [|done].
    cbn [mbind option_bind]. apply spi_checksums_verify in E2 as (E & L2 & B2); [|done|lia].
    destruct (store b2 8 _) as [b3|] eqn:E3; [|done]. cbn [mbind option_bind]. intros [= <- _].
    rewrite (boot_checksum_store b2 8 _ b3) by (done || lia). done. }
  destruct msg; cbn [setup_packet BSL_SPI_PACKET]; try done.
  all: match goal with |- context [spi_header ?m ?b ?z] => destruct (spi_header m b z) as [b1|] eqn:E1; [|done] end;
    cbn [mbind option_bind]; eauto.
  apply Hh in E1 as [B1 L1]. destruct (store b1 8 _) as [b2|] eqn:E2; [|done]. cbn [mbind option_bind].
  apply St in E2 as [B2 L2]; [|done|solve_bytes|done].
  destruct (spi_checksums b2 offset n) as [b3|] eqn:E3; [|done]. cbn [mbind option_bind]. intros [= <- _].
  apply spi_checksums_verify in E3; [tauto|done|lia].
Qed.

Lemma spi_header_verifies_witness :
  exists b, setup_packet BSL_CMD_END_DATA raw_buffer0 8 0 BSL_SPI_PACKET = Some (b, 12) /\ boot_checksum b 8 = Some 0.
Proof.
  destruct (setup_packet BSL_CMD_END_DATA raw_buffer0 8 0 BSL_SPI_PACKET) as [[b size]|] eqn:E; [|discriminate E].
  exists b. split; [rewrite <- E; vm_compute in E; injection E as <- <-; vm_compute; reflexivity|].
  apply (spi_header_verifies BSL_CMD_END_DATA raw_buffer0 8 0 b size);
    [reflexivity | apply Forall_replicate; unfold is_byte; lia | simpl; lia | exact E].
Defined.

(** ** The exchange *)

(** The reply is assembled from any number of partial reads. *)
Lemma read_loop_concat rs got size :
  (0 < size)%nat -> length (concat rs) = size -> read_loop rs got size = Some (got ++ concat rs).
Proof.
  revert got size. induction rs as [|d rs IH]; intros got size Hs Hl; cbn [concat] in *; [simpl in Hl; lia|].
  rewrite length_app in Hl. cbn [read_loop]. rewrite take_ge by lia.
  destruct (Nat.eqb_spec (size - length d) 0).
  - assert (E : concat rs = []) by (apply length_zero_iff_nil; lia). rewrite E, app_nil_r. done.
  - rewrite IH by lia. by rewrite app_assoc.
Qed.

(** An acknowledged UART exchange: when one [write] takes the whole frame
    and the modem answers with an ACK frame of eight bytes, delivered in any
    pieces, exactly the frame goes out and the result is 0; any other type, 0
    included unless the command accepts it, is -1. *)
Lemma uart_exchange_reply message reply rs null_ok :
  zlen (translate_packet message) <= SEND_BUFFER_SIZE ->
  (2 <= length reply)%nat -> no_esc reply -> bytes reply ->
  concat rs = translate_packet reply -> length (translate_packet reply) = 8%nat ->
  exchange (mkExchange [zlen (translate_packet message)] rs) BSL_UART_PACKET null_ok message =
    Some (translate_packet message,
      let t := 256 * nth 0 reply 0 + nth 1 reply 0 in
      if (t =? BSL_REP_ACK) || (null_ok && (t =? 0)) then 0 else -1).
Proof.
  intros Hf Lr Hr Br Hrs H8. unfold exchange, BSL_UART_PACKET. cbn [io_writes io_reads].
  set (f := translate_packet message) in *.
  assert (Hp : 0 < zlen f) by (unfold f, translate_packet; rewrite !length_app; cbn; lia).
  unfold store. rewrite length_replicate. unfold SEND_BUFFER_SIZE in *.
  rewrite !(proj2 (Z.leb_le _ _)) by lia. cbn [andb mbind option_bind].
  set (sb := splice _ (Z.to_nat 0) f).
  assert (Tf : take (length f) sb = f) by exact (take_app_0 f _). clearbody sb.
  cbn [write_loop]. rewrite (proj2 (Z.ltb_lt 0 (zlen f))) by lia. rewrite Z.sub_diag, Nat2Z.id, Tf, take_ge by lia.
  change (0 <? 0) with false. cbv iota. cbn [mbind option_bind].
  rewrite read_loop_concat by (rewrite ?Hrs; lia). cbn [mbind option_bind app].
  rewrite Hrs. assert (U : untranslate_packet (translate_packet reply) = Some reply).
  { apply untranslate_translate_aux; done. }
  rewrite U. cbn [mbind option_bind].
  destruct reply as [|t0 [|t1 reply]]; [simpl in Lr; lia..|]. cbn [app nth].
  assert (Ht : reply_type (t0 :: t1 :: reply ++ drop (length (t0 :: t1 :: reply)) sb) = 256 * t0 + t1).
  { unfold reply_type. cbn [nth]. inversion_clear Br as [|? ? B0 B1]. inversion_clear B1 as [|? ? B1' _].
    unfold is_byte in *. rewrite lor_shiftl_add, u16_small by lia. lia. }
  rewrite Ht. done.
Qed.

Lemma uart_exchange_reply_witness :
  exchange (mkExchange [zlen (translate_packet [0; 3; 0; 0; 9; 9])] [[0x7E; 0; 0x80]; [0; 0; 1]; [2; 0x7E]])
    BSL_UART_PACKET true [0; 3; 0; 0; 9; 9] = Some (translate_packet [0; 3; 0; 0; 9; 9], 0).
Proof.
  apply (uart_exchange_reply [0; 3; 0; 0; 9; 9] [0; 0x80; 0; 0; 1; 2] [[0x7E; 0; 0x80]; [0; 0; 1]; [2; 0x7E]] true);
    [vm_compute; discriminate | simpl; lia | repeat constructor; lia | solve_bytes | reflexivity | reflexivity].
Defined.

(** A [write] that takes only part of a UART frame corrupts the stream: the
    loop repeats the call with the remaining length but from the start of the
    buffer, so the modem receives the beginning of the frame again instead of
    its end. *)
Lemma partial_write_resends f k :
  0 < k < zlen f ->
  write_loop [zlen f] f (zlen f) = Some f /\
  write_loop [k; zlen f - k] f (zlen f) =
    Some (take (Z.to_nat k) f ++ take (Z.to_nat (zlen f - k)) f).
Proof.
  intros Hk. cbn [write_loop]. rewrite Nat2Z.id, (take_ge f (length f)) by lia.
  rewrite (proj2 (Z.ltb_lt 0 (zlen f))), (proj2 (Z.ltb_lt 0 k)), !(proj2 (Z.ltb_lt 0 (zlen f - k))), !Z.sub_diag by lia. change (0 <? 0) with false. cbv iota.
  rewrite (take_ge f (length f)) by lia. split; [done|]. cbn [mbind option_bind].
  rewrite take_take, Nat.min_id. done.
Qed.

Lemma partial_write_resends_witness :
  write_loop [3] [1; 2; 3] 3 = Some [1; 2; 3] /\ write_loop [1; 3 - 1] [1; 2; 3] 3 = Some ([1] ++ [1; 2]).
Proof. apply (partial_write_resends [1; 2; 3] 1). simpl. lia. Defined.
