(* ===== verification/ModemCtl.v ===== *)
(** * The modem manager (apps/modem_control/main.c)

    The manager polls the state of the modem, keeps a small state machine and
    the table of its clients, tells the clients and the monitor process about
    changes, and boots the modem when needed.

    [manager] holds the static variables.  What a turn does to the outside is
    a list of [effect]s; what it reads from the outside is an [env].  [reports]
    runs the loop of [main] over the reports read from the state file; the
    thread that accepts clients is the operation [accept_client]. *)
From S2P Require Import Prelude.

Definition MAX_CLIENT_NUM : nat := 10.

Inductive MODEM_STA_E :=
| MODEM_STA_SHUTDOWN | MODEM_STA_BOOT | MODEM_STA_INIT | MODEM_STA_ALIVE | MODEM_STA_ASSERT
| MODEM_STA_BOOTCOMP.
#[export] Instance modem_sta_eq_dec : EqDecision MODEM_STA_E.
Proof. solve_decision. Defined.

Record manager := mkManager {
  modem_state : MODEM_STA_E;
  flash_less_flag : Z;
  client_fd : list Z }.
Definition set_modem_state (m : manager) (st : MODEM_STA_E) : manager :=
  mkManager st (flash_less_flag m) (client_fd m).
Definition set_flash (m : manager) (f : Z) : manager := mkManager (modem_state m) f (client_fd m).
Definition set_clients (m : manager) (c : list Z) : manager :=
  mkManager (modem_state m) (flash_less_flag m) c.

Inductive effect :=
| Write (fd : Z) (msg : list Z)   (* write to a client *)
| Close (fd : Z)
| SigUsr1 (pid : Z)               (* to the monitor *)
| SigUsr2 (pid : Z)
| ModemBoot.

(** What a turn reads: the result of [write] to a client, the pid of the
    monitor, the bytes of the assert report (none if it could not be read), the
    property persist.sys.sprd.modemreset, and the value an uninitialised [int]
    has when the report is not a number. *)
Record env := mkEnv {
  write_ret : Z -> Z;
  monitor_pid : Z;
  assert_report : list Z;
  modemreset : bool;
  garbage : Z }.

(** ** The accept thread *)

(** The first free slot takes the new client; with no free slot the
    descriptor is dropped. *)
Fixpoint accept_client (n : Z) (clients : list Z) : list Z :=
  match clients with
  | [] => []
  | fd :: r => if fd =? -1 then n :: r else fd :: accept_client n r
  end.

(** ** Broadcast *)
Fixpoint broadcast_modem_state (e : env) (msg : list Z) (clients : list Z) : list effect * list Z :=
  match clients with
  | [] => ([], [])
  | fd :: r =>
      let '(eff, r') := broadcast_modem_state e msg r in
      if 0 <? fd then
        if 0 <? write_ret e fd then (Write fd msg :: eff, fd :: r')
        else (Write fd msg :: Close fd :: eff, -1 :: r')
      else (eff, fd :: r')
  end.

(** ** Reading a report *)

(** [sscanf(message, "%d", &x)]: leading white space, a sign, digits. *)
Definition is_space (b : Z) : bool := (b =? 32) || ((9 <=? b) && (b <=? 13)).
Definition is_digit (b : Z) : bool := (48 <=? b) && (b <=? 57).
Fixpoint skip_space (l : list Z) : list Z :=
  match l with b :: r => if is_space b then skip_space r else l | [] => [] end.
Fixpoint scan_digits (acc : Z) (l : list Z) : Z :=
  match l with
  | b :: r => if is_digit b then scan_digits (10 * acc + (b - 48)) r else acc
  | [] => acc
  end.
Definition scan_int (l : list Z) : option Z :=
  let digits l := match l with b :: _ => if is_digit b then Some (scan_digits 0 l) else None | [] => None end in
  match skip_space l with
  | [] => None
  | b :: r => if b =? 45 then option_map Z.opp (digits r)
              else if b =? 43 then digits r else digits (b :: r)
  end.
Definition translate_modem_state_message (e : env) (message : list Z) : Z :=
  match scan_int message with Some x => s32 x | None => garbage e end.

(** "Modem Alive" and "Modem Assert\n" *)
Definition msg_alive : list Z := [77; 111; 100; 101; 109; 32; 65; 108; 105; 118; 101].
Definition msg_assert : list Z := [77; 111; 100; 101; 109; 32; 65; 115; 115; 101; 114; 116; 10].

(** [strlen(test_buffer)] bytes: up to the first zero byte. *)
Fixpoint c_string (l : list Z) : list Z :=
  match l with b :: r => if b =? 0 then [] else b :: c_string r | [] => [] end.

(** ** One report *)

(** The flash-less detection: the new flag and whether this is the first alive
    report. *)
Definition note_alive (flag alive : Z) : Z * bool :=
  if flag =? 0xff then if alive =? 1 then (0, true) else (1, false)
  else if flag =? 1 then if alive =? 1 then (2, true) else (1, false)
  else (flag, false).

Definition process_modem_state_message (e : env) (message : list Z) (m : manager)
  : list effect * manager :=
  let ret := translate_modem_state_message e message in
  if ret <? 0 then ([], m) else
  let alive_status := Z.land ret 1 in
  let reset_status := Z.shiftr ret 1 in
  let '(flag, first_alive) := note_alive (flash_less_flag m) alive_status in
  let m := set_flash m flag in
  let pid := monitor_pid e in
  let signal2 := if (0 <? pid) && negb first_alive then [SigUsr2 pid] else [] in
  match modem_state m with
  | MODEM_STA_SHUTDOWN | MODEM_STA_BOOT => ([], m)
  | MODEM_STA_INIT =>
      if reset_status =? 0 then
        if alive_status =? 1 then (signal2, set_modem_state m MODEM_STA_ALIVE)
        else ([], set_modem_state m MODEM_STA_BOOT)
      else ([], m)
  | MODEM_STA_ASSERT =>
      if reset_status =? 1 then
        (if 0 <? pid then [SigUsr1 pid] else [], set_modem_state m MODEM_STA_BOOT)
      else ([], m)
  | MODEM_STA_BOOTCOMP =>
      if (reset_status =? 0) && (alive_status =? 1) then
        let '(eff, cl) := broadcast_modem_state e msg_alive (client_fd m) in
        (eff ++ signal2, set_clients (set_modem_state m MODEM_STA_ALIVE) cl)
      else ([], m)
  | MODEM_STA_ALIVE =>
      let '(eff, m) :=
        if alive_status =? 0 then
          let msg := if 0 <? zlen (assert_report e) then c_string (assert_report e) else msg_assert in
          let '(eff, cl) := broadcast_modem_state e msg (client_fd m) in
          (eff, set_clients (set_modem_state m MODEM_STA_ASSERT) cl)
        else ([], m) in
      if (reset_status =? 1) || modemreset e then
        (eff ++ (if (0 <? pid) && negb first_alive then [SigUsr1 pid] else []),
         set_modem_state m MODEM_STA_BOOT)
      else (eff, m)
  end.

(** One turn of the loop of [main]; the report is [None] when the state file
    could not be read. *)
Definition main_turn (e : env) (report : option (list Z)) (m : manager) : list effect * manager :=
  let '(eff, m) := match report with
                   | Some msg => process_modem_state_message e msg m
                   | None => ([], m)
                   end in
  if decide (modem_state m = MODEM_STA_BOOT) then (eff ++ [ModemBoot], set_modem_state m MODEM_STA_BOOTCOMP)
  else (eff, m).

(** The static initial values, and [client_fd] as the accept thread sets it. *)
Definition main_init : manager := mkManager MODEM_STA_INIT 0xff (replicate MAX_CLIENT_NUM (-1)).

Fixpoint reports (rs : list (env * option (list Z))) (m : manager) : list effect * manager :=
  match rs with
  | [] => ([], m)
  | (e, r) :: rest =>
      let '(eff, m) := main_turn e r m in
      let '(eff', m) := reports rest m in (eff ++ eff', m)
  end.

(** ** Steps of the manager: a report or a new client *)
Inductive mstep : list effect * manager -> list effect * manager -> Prop :=
| mstep_report h m e r : mstep (h, m) (h ++ fst (main_turn e r m), snd (main_turn e r m))
| mstep_accept h m n : 0 <= n -> mstep (h, m) (h, set_clients m (accept_client n (client_fd m))).

(** ** The client table *)
Lemma broadcast_clients e msg cl :
  snd (broadcast_modem_state e msg cl) =
    map (fun fd => if (0 <? fd) && (write_ret e fd <=? 0) then -1 else fd) cl.
Proof.
  induction cl as [|fd cl IH]; [done|]. cbn [broadcast_modem_state map].
  destruct (broadcast_modem_state e msg cl) as [eff r]. cbn in IH. subst r.
  destruct (0 <? fd); cbn [andb]; [|done].
  destruct (Z.ltb_spec 0 (write_ret e fd)), (Z.leb_spec (write_ret e fd) 0); (lia || done).
Qed.

(** Every connected client is written once, in the order of the slots. *)
Definition written (effs : list effect) : list (Z * list Z) :=
  flat_map (fun x => match x with Write fd m => [(fd, m)] | _ => [] end) effs.

Lemma broadcast_writes e msg cl :
  written (fst (broadcast_modem_state e msg cl)) = map (fun fd => (fd, msg)) (List.filter (Z.ltb 0) cl).
Proof.
  induction cl as [|fd cl IH]; [done|]. cbn [broadcast_modem_state List.filter].
  destruct (broadcast_modem_state e msg cl) as [eff r]. cbn in IH.
  destruct (0 <? fd); [|done]. destruct (0 <? write_ret e fd); cbn; by rewrite IH.
Qed.

Lemma broadcast_all_ok e msg cl :
  (forall fd, 0 < fd -> 0 < write_ret e fd) ->
  broadcast_modem_state e msg cl = (map (fun fd => Write fd msg) (List.filter (Z.ltb 0) cl), cl).
Proof.
  intros Hok. induction cl as [|fd cl IH]; [done|]. cbn [broadcast_modem_state List.filter]. rewrite IH.
  destruct (Z.ltb_spec 0 fd); [|done]. by rewrite (proj2 (Z.ltb_lt _ _)) by auto.
Qed.

Lemma accept_client_length n cl : length (accept_client n cl) = length cl.
Proof. induction cl as [|fd cl IH]; [done|]. cbn. destruct (fd =? -1); cbn; congruence. Qed.

(** A client that is accepted while a slot is free is told of every later
    change: the next broadcast writes to it, and every client that was connected
    before is still written to.  With no free slot the connection is neither
    stored nor closed. *)
Lemma accepted_client_notified e msg n cl :
  0 < n ->
  let sent := written (fst (broadcast_modem_state e msg (accept_client n cl))) in
  (-1 ∈ cl -> (n, msg) ∈ sent) /\
  (forall fd, fd ∈ cl -> 0 < fd -> (fd, msg) ∈ sent) /\
  (-1 ∉ cl -> accept_client n cl = cl).
Proof.
  intros Hn. cbn zeta. rewrite broadcast_writes.
  assert (Hin : forall fd, 0 < fd -> fd ∈ accept_client n cl ->
    (fd, msg) ∈ map (fun fd => (fd, msg)) (List.filter (Z.ltb 0) (accept_client n cl))).
  { intros fd Hf Hfd. apply list_elem_of_In, in_map_iff. exists fd. split; [done|].
    apply filter_In. split; [by apply list_elem_of_In|by apply Z.ltb_lt]. }
  split; [|split].
  - intros H1. apply Hin; [done|]. clear Hin. induction cl as [|fd cl IH]; [set_solver|].
    cbn. destruct (Z.eqb_spec fd (-1)); [set_solver|]. apply elem_of_cons in H1 as [H1|H1]; [done|]. set_solver.
  - intros fd Hfd Hp. apply Hin; [done|]. clear Hin. induction cl as [|x cl IH]; [set_solver|].
    cbn. apply elem_of_cons in Hfd as [->|Hfd]; destruct (Z.eqb_spec x (-1)); (lia || set_solver).
  - intros H1. clear Hin. induction cl as [|fd cl IH]; [done|]. cbn. apply not_elem_of_cons in H1 as [H1 H2].
    rewrite (proj2 (Z.eqb_neq _ _)) by done. by rewrite IH.
Qed.

Definition demo_env : env := mkEnv (fun _ => 1) 77 [] false 0.

Lemma accepted_client_notified_witness :
  let sent := written (fst (broadcast_modem_state demo_env msg_alive (accept_client 9 [5; -1; -1]))) in
  (-1 ∈ [5; -1; -1] -> (9, msg_alive) ∈ sent) /\
  (forall fd, fd ∈ [5; -1; -1] -> 0 < fd -> (fd, msg_alive) ∈ sent) /\
  (-1 ∉ [5; -1; -1] -> accept_client 9 [5; -1; -1] = [5; -1; -1]).
Proof. apply (accepted_client_notified demo_env msg_alive 9 [5; -1; -1]). lia. Defined.

(** ** Before the first alive report *)
Definition silent (x : effect) : Prop := match x with ModemBoot => True | _ => False end.

Record manager_inv (s : list effect * manager) : Prop := {
  mi_state : modem_state (snd s) <> MODEM_STA_BOOT /\ modem_state (snd s) <> MODEM_STA_SHUTDOWN;
  mi_flag : flash_less_flag (snd s) ∈ [0xff; 0; 1; 2];
  mi_clients : length (client_fd (snd s)) = MAX_CLIENT_NUM;
  mi_quiet : flash_less_flag (snd s) = 0xff \/ flash_less_flag (snd s) = 1 ->
    Forall silent (fst s) /\
    (modem_state (snd s) = MODEM_STA_INIT \/ modem_state (snd s) = MODEM_STA_BOOTCOMP) }.

Lemma broadcast_length e msg cl : length (snd (broadcast_modem_state e msg cl)) = length cl.
Proof. rewrite broadcast_clients. apply length_map. Qed.

(** A turn that leaves the flag undecided is silent and stays before ALIVE. *)
Lemma land_1_cases z : Z.land z 1 = 0 \/ Z.land z 1 = 1.
Proof. assert (E : Z.land z 1 = z mod 2) by (apply (Z.land_ones z 1); lia). rewrite E. zlia. Qed.

(** The invariant, as a condition on one turn. *)
Definition turn_ok (flag : Z) (st : MODEM_STA_E) (effs : list effect) (m' : manager) : Prop :=
  modem_state m' <> MODEM_STA_SHUTDOWN /\ flash_less_flag m' ∈ [0xff; 0; 1; 2] /\
  length (client_fd m') = MAX_CLIENT_NUM /\
  (flash_less_flag m' = 0xff \/ flash_less_flag m' = 1 ->
     (flag = 0xff \/ flag = 1) /\ effs = [] /\
     (modem_state m' = st \/ modem_state m' = MODEM_STA_BOOT)).

Lemma process_turn_ok e msg m :
  modem_state m <> MODEM_STA_BOOT -> modem_state m <> MODEM_STA_SHUTDOWN ->
  flash_less_flag m ∈ [0xff; 0; 1; 2] -> length (client_fd m) = MAX_CLIENT_NUM ->
  (flash_less_flag m = 0xff \/ flash_less_flag m = 1 ->
     modem_state m = MODEM_STA_INIT \/ modem_state m = MODEM_STA_BOOTCOMP) ->
  turn_ok (flash_less_flag m) (modem_state m) (fst (process_modem_state_message e msg m))
    (snd (process_modem_state_message e msg m)).
Proof.
  intros Hb Hs Hf Hc Hq. unfold process_modem_state_message.
  set (ret := translate_modem_state_message e msg). destruct (ret <? 0); [unfold turn_ok; cbn; split_and!; auto|].
  destruct m as [st flag cl]. cbn [modem_state flash_less_flag client_fd] in *.
  assert (Hfl : flag = 0xff \/ flag = 0 \/ flag = 1 \/ flag = 2) by (rewrite !elem_of_cons in Hf; set_solver).
  clear Hf. unfold set_flash, set_modem_state, set_clients. cbn [modem_state flash_less_flag client_fd].
  generalize (Z.shiftr ret 1) as rs. intros rs.
  assert (Lb : forall m, length (snd (broadcast_modem_state e m cl)) = MAX_CLIENT_NUM)
    by (intros; by rewrite broadcast_length).
  set (amsg := if 0 <? zlen (assert_report e) then c_string (assert_report e) else msg_assert). clearbody amsg.
  pose proof (Lb msg_alive) as L1. pose proof (Lb amsg) as L2. clear Lb.
  destruct (broadcast_modem_state e msg_alive cl) as [eff1 cl1], (broadcast_modem_state e amsg cl) as [eff2 cl2].
  cbn [snd] in L1, L2.
  destruct (land_1_cases ret) as [Ha|Ha]; rewrite Ha; clear Ha ret;
    destruct Hfl as [-> |[-> |[-> | ->]]]; cbn [note_alive Z.eqb Pos.eqb]; destruct st; try done;
    destruct (rs =? 0), (rs =? 1), (modemreset e); cbn; try (exfalso; destruct Hq; [tauto|done|done]);
    unfold turn_ok; cbn; (split_and!; [done|set_solver|done|]); intros [?|?]; try done; auto.
Qed.

Lemma main_turn_inv e r h m :
  manager_inv (h, m) -> manager_inv (h ++ fst (main_turn e r m), snd (main_turn e r m)).
Proof.
  intros [[Hb Hs] Hf Hc Hq]. cbn [fst snd] in *.
  assert (Hq' : flash_less_flag m = 0xff \/ flash_less_flag m = 1 ->
    modem_state m = MODEM_STA_INIT \/ modem_state m = MODEM_STA_BOOTCOMP) by tauto.
  unfold main_turn.
  assert (T : turn_ok (flash_less_flag m) (modem_state m)
    (fst (match r with Some msg => process_modem_state_message e msg m | None => ([], m) end))
    (snd (match r with Some msg => process_modem_state_message e msg m | None => ([], m) end))).
  { destruct r; [by apply process_turn_ok|]. unfold turn_ok. cbn. split_and!; auto. }
  destruct (match r with Some _ => _ | None => _ end) as [eff m1]. cbn [fst snd] in T.
  destruct T as (T1 & T2 & T3 & T4). destruct (decide (modem_state m1 = MODEM_STA_BOOT)) as [E|E]; cbn [fst snd].
  - split; cbn; [done|done|done|]. intros Hfl. destruct (T4 Hfl) as (F & -> & _). destruct (Hq F) as [Hsil _].
    split; [|by right]. apply Forall_app_2; [done|]. repeat constructor.
  - split; cbn; [done|done|done|]. intros Hfl. destruct (T4 Hfl) as (F & -> & [Est|?]); [|done].
    destruct (Hq F) as [Hsil Hst]. rewrite app_nil_r, Est. done.
Qed.

(** C24: the state machine, for every sequence of reports and new clients: the
    manager is never left in BOOT or SHUTDOWN, the client table keeps its ten
    slots, and until the modem has reported alive for the first time nothing is
    sent: no client is written to and the monitor gets no signal, whatever
    booting it took. *)
Theorem manager_quiet_until_alive h m :
  reach mstep ([], main_init) (h, m) ->
  modem_state m <> MODEM_STA_BOOT /\ modem_state m <> MODEM_STA_SHUTDOWN /\
  length (client_fd m) = MAX_CLIENT_NUM /\
  (flash_less_flag m = 0xff \/ flash_less_flag m = 1 ->
   Forall silent h /\ (modem_state m = MODEM_STA_INIT \/ modem_state m = MODEM_STA_BOOTCOMP)).
Proof.
  intros Hr. assert (I : manager_inv (h, m)).
  { eapply (reach_inv mstep manager_inv); [| |exact Hr].
    - split; cbn; [done|set_solver|done|]. intros _. split; [constructor|by left].
    - intros a b Ia Hst. destruct Hst as [h0 m0 e r|h0 m0 n Hn]; [by apply main_turn_inv|].
      destruct Ia as [? ? ? ?]. split; cbn in *; try done. by rewrite accept_client_length. }
  destruct I as [[? ?] ? ? ?]. auto.
Qed.

Lemma manager_quiet_until_alive_witness :
  modem_state (snd (main_turn demo_env (Some [48; 10]) main_init)) <> MODEM_STA_BOOT /\
  modem_state (snd (main_turn demo_env (Some [48; 10]) main_init)) <> MODEM_STA_SHUTDOWN /\
  length (client_fd (snd (main_turn demo_env (Some [48; 10]) main_init))) = MAX_CLIENT_NUM /\
  (flash_less_flag (snd (main_turn demo_env (Some [48; 10]) main_init)) = 0xff \/
   flash_less_flag (snd (main_turn demo_env (Some [48; 10]) main_init)) = 1 ->
   Forall silent [ModemBoot] /\
   (modem_state (snd (main_turn demo_env (Some [48; 10]) main_init)) = MODEM_STA_INIT \/
    modem_state (snd (main_turn demo_env (Some [48; 10]) main_init)) = MODEM_STA_BOOTCOMP)).
Proof.
  apply (manager_quiet_until_alive [ModemBoot]).
  exact (reach_one mstep _ _ (mstep_report [] main_init demo_env (Some [48; 10]))).
Defined.

(** The recovery cycle.  From ALIVE, a report that the modem died, then one
    that it was reset, then one that it is alive again (no reset property, all
    clients reachable) tell every client of the assert, signal the monitor,
    boot the modem, tell every client that it is alive and signal the monitor
    again, in that order, and end in ALIVE with the same clients. *)
Lemma recovery_cycle e m :
  modem_state m = MODEM_STA_ALIVE -> flash_less_flag m = 0 \/ flash_less_flag m = 2 ->
  (forall fd, 0 < fd -> 0 < write_ret e fd) -> 0 < monitor_pid e -> modemreset e = false ->
  let told msg := map (fun fd => Write fd msg) (List.filter (Z.ltb 0) (client_fd m)) in
  let msg := if 0 <? zlen (assert_report e) then c_string (assert_report e) else msg_assert in
  reports [(e, Some [48; 10]); (e, Some [50; 10]); (e, Some [49; 10])] m =
    (told msg ++ [SigUsr1 (monitor_pid e); ModemBoot] ++ told msg_alive ++ [SigUsr2 (monitor_pid e)], m).
Proof.
  intros Hs Hf Hw Hp Hr. cbn zeta. destruct m as [st flag cl]. cbn [modem_state flash_less_flag client_fd] in *.
  subst st. pose proof (broadcast_all_ok e msg_alive cl Hw) as B1.
  set (amsg := if 0 <? zlen (assert_report e) then _ else _). pose proof (broadcast_all_ok e amsg cl Hw) as B2.
  pose proof (proj2 (Z.ltb_lt 0 (monitor_pid e)) Hp) as P.
  assert (T1 : main_turn e (Some [48; 10]) (mkManager MODEM_STA_ALIVE flag cl) =
    (map (fun fd => Write fd amsg) (List.filter (Z.ltb 0) cl), mkManager MODEM_STA_ASSERT flag cl)).
  { unfold main_turn, process_modem_state_message. fold amsg. clearbody amsg.
    destruct Hf as [-> | ->]; cbn -[broadcast_modem_state Z.ltb List.filter]; rewrite B2, Hr; done. }
  assert (T2 : main_turn e (Some [50; 10]) (mkManager MODEM_STA_ASSERT flag cl) =
    ([SigUsr1 (monitor_pid e); ModemBoot], mkManager MODEM_STA_BOOTCOMP flag cl)).
  { unfold main_turn, process_modem_state_message. rewrite P. destruct Hf as [-> | ->]; done. }
  assert (T3 : main_turn e (Some [49; 10]) (mkManager MODEM_STA_BOOTCOMP flag cl) =
    (map (fun fd => Write fd msg_alive) (List.filter (Z.ltb 0) cl) ++ [SigUsr2 (monitor_pid e)],
     mkManager MODEM_STA_ALIVE flag cl)).
  { unfold main_turn, process_modem_state_message. rewrite P.
    destruct Hf as [-> | ->]; cbn -[broadcast_modem_state List.filter]; rewrite B1; done. }
  cbn [reports]. rewrite T1, T2, T3, app_nil_r. done.
Qed.

Lemma recovery_cycle_witness :
  reports [(demo_env, Some [48; 10]); (demo_env, Some [50; 10]); (demo_env, Some [49; 10])]
    (mkManager MODEM_STA_ALIVE 0 [5; -1]) =
  ([Write 5 msg_assert; SigUsr1 77; ModemBoot; Write 5 msg_alive; SigUsr2 77], mkManager MODEM_STA_ALIVE 0 [5; -1]).
Proof.
  apply (recovery_cycle demo_env (mkManager MODEM_STA_ALIVE 0 [5; -1]));
    [reflexivity | left; reflexivity | intros; simpl; lia | simpl; lia | reflexivity].
Defined.

(** With the property persist.sys.sprd.modemreset set, a modem that reports
    that it is alive and not reset is rebooted: [reset_modem_if_assert] is
    consulted whatever the alive line says, not only after an assert. *)
Lemma modemreset_reboots_alive e m :
  modem_state m = MODEM_STA_ALIVE -> modemreset e = true ->
  exists eff, main_turn e (Some [49; 10]) m =
    (eff ++ [ModemBoot], mkManager MODEM_STA_BOOTCOMP (fst (note_alive (flash_less_flag m) 1)) (client_fd m)).
Proof.
  intros Hs Hr. destruct m as [st flag cl]. cbn [modem_state flash_less_flag client_fd] in *. subst st.
  unfold main_turn, process_modem_state_message. change (translate_modem_state_message e [49; 10]) with 1.
  change (1 <? 0) with false. cbv iota. change (Z.land 1 1) with 1. cbn [flash_less_flag].
  destruct (note_alive flag 1) as [f fa]. cbn -[Z.ltb]. rewrite Hr. cbn -[Z.ltb]. eexists. reflexivity.
Qed.

Lemma modemreset_reboots_alive_witness :
  exists eff, main_turn (mkEnv (fun _ => 1) 77 [] true 0) (Some [49; 10]) (mkManager MODEM_STA_ALIVE 0 [5]) =
    (eff ++ [ModemBoot], mkManager MODEM_STA_BOOTCOMP 0 [5]).
Proof.
  apply (modemreset_reboots_alive (mkEnv (fun _ => 1) 77 [] true 0) (mkManager MODEM_STA_ALIVE 0 [5])); reflexivity.
Defined.
