(* ===== verification/ModemBoot.v ===== *)
(** * Loading the modem (apps/modem_control/modem_boot.c)

    The images of the modem are downloaded one after the other with the
    messages of packet.c: START with the padded size and the address, DATA with
    60 KB each, END; then EXEC.  The first loader goes over the UART in packets
    of 256 bytes.

    A download is a sequence of messages; the modem's answers are an oracle
    [reply] on the messages sent so far and the new one.  The link layer is the
    interface [Link]: FdlPacket's functions send the same messages as bytes.
    An access outside a buffer is [None]. *)
From S2P Require Import Prelude.
From S2P Require Import Checksum.
From S2P Require Import FdlPacket.

Definition FDL_PACKET_SIZE : Z := 256.
Definition HS_PACKET_SIZE : Z := 60 * 1024.
Definition DL_FAILURE : Z := -1.
Definition DL_SUCCESS : Z := 0.

Record image_info := mkImage {
  image_path : option string;
  image_path_bak : string;
  image_size : Z;
  address : Z }.

(** ** The link *)
Inductive dl_msg :=
| MsgStart (size addr : Z)
| MsgData (payload : list Z)
| MsgEnd
| MsgExec (addr : Z).

(** Whether the modem acknowledges a message after the ones already sent. *)
Class Link := { reply : list dl_msg -> dl_msg -> bool }.

(** The link over the SPI wire: the message as packet.c builds it, and the
    modem's side of the exchange. *)
Definition send_wire (io : exchange_io) (m : dl_msg) : option (list Z * Z) :=
  match m with
  | MsgStart size addr => send_start_message io size addr BSL_SPI_PACKET
  | MsgData d => send_data_message io (replicate 8 0 ++ d) (zlen d) BSL_SPI_PACKET
  | MsgEnd => send_end_message io BSL_SPI_PACKET
  | MsgExec addr => send_exec_message io addr BSL_SPI_PACKET
  end.
#[local] Instance spi_link (modem : list dl_msg -> dl_msg -> exchange_io) : Link := {
  reply h m := match send_wire (modem h m) m with Some (_, r) => r =? 0 | None => false end }.

Section Download.
Context `{Link}.

(** Send a message: [DL_SUCCESS] or [DL_FAILURE], and the history. *)
Definition send (h : list dl_msg) (m : dl_msg) : Z * list dl_msg :=
  (if reply h m then DL_SUCCESS else DL_FAILURE, h ++ [m]).

(** How many bytes a [read] of [n] at [pos] delivers, at least one when there
    are any. *)
Context (read_len : nat -> nat -> nat).

(** [do { read_len = read(fd, buffer, packet_size); ... } while (packet_size > 0)],
    ended by a read that delivers nothing.  Every turn takes a byte, so a fuel
    of [packet_size] is enough. *)
Fixpoint read_fill (fuel : nat) (file : list Z) (pos packet_size : nat) : list Z * nat :=
  match fuel with
  | O => ([], pos)
  | S k =>
      let avail := drop pos file in
      let n := Nat.min (Nat.max 1 (read_len pos packet_size)) (Nat.min packet_size (length avail)) in
      if (n =? 0)%nat then ([], pos) else
      let '(d, pos') := read_fill k file (pos + n) (packet_size - n) in (take n avail ++ d, pos')
  end.

(** The loop of [download_image] over the packets of [hs] bytes; [tb] is [test_buffer] from
    offset 8 on.  The padding loop reuses [i]. *)
Fixpoint image_loop (hs : Z) (fuel : nat) (productinfo : bool) (cmdline : option (list Z)) (file : list Z)
    (count i : Z) (pos : nat) (image_size : Z) (tb : list Z) (h : list dl_msg)
  : option (Z * list dl_msg * list Z) :=
  match fuel with
  | O => None
  | S k =>
      if i <? count then
        let '(d, pos) := read_fill (Z.to_nat hs) file pos (Z.to_nat hs) in
        tb ← store tb 0 d;
        r ← (if image_size <? hs then
               tb ← store tb image_size (replicate (Z.to_nat (hs - image_size)) 0xFF);
               Some (tb, hs, 0)
             else Some (tb, i, image_size - hs));
        let '(tb, i, image_size) := r in
        tb ← (if productinfo then
                tb ← store tb (16 * 1024) (replicate 1024 0);
                match cmdline with
                | Some c => store tb (16 * 1024) (take 1024 c)
                | None => Some tb
                end
              else Some tb);
        payload ← load tb 0 hs;
        let '(ret, h) := send h (MsgData payload) in
        if negb (ret =? DL_SUCCESS) then Some (DL_FAILURE, h, tb)
        else image_loop hs k productinfo cmdline file count (i + 1) pos image_size tb h
      else let '(ret, h) := send h MsgEnd in Some (ret, h, tb)
  end.

(** [file] is the contents of the image file, [None] when it cannot be
    opened. *)
Definition download_image (info : image_info) (productinfo : bool) (cmdline : option (list Z))
    (file : option (list Z)) (tb : list Z) (h : list dl_msg) : option (Z * list dl_msg * list Z) :=
  match image_path info, file with
  | None, _ | _, None => Some (DL_SUCCESS, h, tb)
  | Some _, Some file =>
      let size := s32 (image_size info) in
      let count := Z.quot (size + HS_PACKET_SIZE - 1) HS_PACKET_SIZE in
      let '(ret, h) := send h (MsgStart (count * HS_PACKET_SIZE) (address info)) in
      if negb (ret =? DL_SUCCESS) then Some (DL_FAILURE, h, tb)
      else image_loop HS_PACKET_SIZE (S (Z.to_nat count)) productinfo cmdline file count 0 0 size tb h
  end.

(** [download_images]: the images from index 1 on, stopping at the first that
    fails, then EXEC in any case.  [ret0] is the uninitialised [ret], returned
    when there is no image. *)
Fixpoint images_loop (infos : list image_info) (files : image_info -> option (list Z))
    (cmdline : option (list Z)) (tb : list Z) (h : list dl_msg) (ret : Z) : option (Z * list dl_msg) :=
  match infos with
  | [] => Some (ret, h)
  | info :: r =>
      x ← download_image info (match r with [] => true | _ => false end) cmdline (files info) tb h;
      let '(ret, h, tb) := x in
      if negb (ret =? DL_SUCCESS) then Some (ret, h) else images_loop r files cmdline tb h ret
  end.
Definition download_images (infos : list image_info) (files : image_info -> option (list Z))
    (cmdline : option (list Z)) (tb : list Z) (ret0 : Z) (h : list dl_msg) : option (Z * list dl_msg) :=
  x ← images_loop (tail infos) files cmdline tb h ret0;
  let '(ret, h) := x in Some (ret, snd (send h (MsgExec 0x400000))).

(** [download_fdl]: the loader in [buffer], allocated with four spare bytes.
    [size] counts down to exactly 0. *)
Fixpoint fdl_loop (fuel : nat) (buffer : list Z) (off size : Z) (h : list dl_msg)
  : option (Z * list dl_msg) :=
  match fuel with
  | O => None
  | S k =>
      if size =? 0 then Some (DL_SUCCESS, h) else
      d ← load buffer off FDL_PACKET_SIZE;
      let '(ret, h) := send h (MsgData d) in
      if ret =? DL_FAILURE then Some (ret, h)
      else fdl_loop k buffer (off + FDL_PACKET_SIZE) (size - FDL_PACKET_SIZE) h
  end.
Definition download_fdl (info : image_info) (buffer : option (list Z)) (h : list dl_msg)
  : option (Z * list dl_msg) :=
  match buffer with
  | None => Some (DL_FAILURE, h)
  | Some buffer =>
      let size := s32 (image_size info) in
      let '(ret, h) := send h (MsgStart size (address info)) in
      if ret =? DL_FAILURE then Some (ret, h) else
      x ← fdl_loop (S (length buffer)) buffer 0 size h;
      let '(ret, h) := x in
      if ret =? DL_FAILURE then Some (ret, h) else
      let '(ret, h) := send h MsgEnd in
      if ret =? DL_FAILURE then Some (ret, h) else
      Some (send h (MsgExec (address info)))
  end.
End Download.

(** ** Choosing between an image and its backup *)

(** [_chkEcc]: the checksum of all but the last four bytes is in the first two
    of these. *)
Definition _chkEcc (buf : list Z) (size : Z) : option bool :=
  crc ← calc_checksum false buf (size - 4);
  hi ← buf !! Z.to_nat (size - 3);
  lo ← buf !! Z.to_nat (size - 4);
  Some (crc =? Z.lor (Z.shiftl hi 8) lo).

(** [_chkImg]: [file] is the contents, [None] when the file cannot be opened. *)
Definition _chkImg (file : option (list Z)) (size : Z) : option bool :=
  match file with
  | None => Some false
  | Some c =>
      let d := take (Z.to_nat size) c in
      if negb (zlen d =? size) then Some false else _chkEcc d size
  end.

(** The second part of [get_modem_images_info] for one entry.  [strcpy] into
    the string [strdup] made of the original path overruns it when the backup
    path is longer. *)
Definition check_image (fs : string -> option (list Z)) (info : image_info) : option image_info :=
  path ← image_path info;
  if String.eqb path (image_path_bak info) then Some info else
  ok ← _chkImg (fs path) (image_size info);
  if (ok : bool) then Some info else
  ok ← _chkImg (fs (image_path_bak info)) (image_size info);
  if negb (ok : bool) then Some info else
  if (String.length path <? String.length (image_path_bak info))%nat then None else
  Some (mkImage (Some (image_path_bak info)) (image_path_bak info) (image_size info) (address info)).

(** ** Reading *)
Section DownloadProofs.
Context `{Link} (read_len : nat -> nat -> nat).
Context (hs : Z) (Hhs : 0 < hs).
Abbreviation HS := (Z.to_nat hs).

(** Partial reads assemble the next bytes of the file. *)
Lemma read_fill_spec fuel file pos n :
  (n <= fuel)%nat ->
  exists pos', read_fill read_len fuel file pos n = (take n (drop pos file), pos') /\
    ((n <= length (drop pos file))%nat -> pos' = (pos + n)%nat).
Proof.
  revert pos n. induction fuel as [|k IH]; intros pos n Hn; cbn [read_fill].
  - assert (n = 0)%nat by lia. subst n. exists pos. split; [by rewrite take_0|intros _; lia].
  - set (avail := drop pos file). set (m := Nat.min _ _).
    destruct (Nat.eqb_spec m 0) as [E|E].
    + exists pos. assert (Hz : (n = 0 \/ length avail = 0)%nat) by (unfold m in E; lia).
      destruct Hz as [-> |Hz]; [split; [by rewrite take_0|intros _; lia]|].
      apply length_zero_iff_nil in Hz. rewrite Hz, take_nil. split; [done|]. cbn. intros Hn0. lia.
    + assert (Hm : (m <= n /\ m <= length avail)%nat) by (unfold m; lia).
      destruct (IH (pos + m)%nat (n - m)%nat ltac:(lia)) as (pos' & -> & Hp).
      exists pos'. rewrite <- drop_drop. fold avail. split.
      * f_equal. replace n with (m + (n - m))%nat at 2 by lia. by rewrite take_take_drop.
      * intros Hl. rewrite Hp; [lia|]. rewrite <- drop_drop, length_drop. fold avail. lia.
Qed.

(** ** The packets of an image *)
Fixpoint chunks (n : nat) (l : list Z) : list (list Z) :=
  match n with O => [] | S k => take HS l :: chunks k (drop HS l) end.

(** The first [sz] bytes, padded to [n] packets. *)
Definition padded (sz n : nat) (file : list Z) : list Z :=
  take sz file ++ replicate (n * HS - sz) 0xFF.

(** The buffer with a short last packet padded. *)
Lemma pad_last tb d (sz : nat) :
  (sz < HS)%nat -> (sz <= length d)%nat -> (length d <= HS)%nat -> (HS <= length tb)%nat ->
  take HS (splice (splice tb 0 d) sz (replicate (HS - sz) 255)) = take sz d ++ replicate (HS - sz) 255.
Proof.
  intros H1 H2 H3 H4. assert (L : length (splice tb 0 d) = length tb) by (apply splice_length; lia).
  unfold splice at 1. rewrite length_replicate. rewrite app_assoc, take_app_le.
  2:{ rewrite length_app, length_take, length_replicate. lia. }
  rewrite take_ge by (rewrite length_app, length_take, length_replicate; lia). f_equal.
  assert (E : splice tb 0 d = d ++ drop (length d) tb) by done. rewrite E, take_app_le by lia. done.
Qed.

Lemma full_packet tb d : length d = HS -> (HS <= length tb)%nat -> take HS (splice tb 0 d) = d.
Proof. intros H1 H2. rewrite <- H1. exact (take_app_0 d _). Qed.

Lemma HS_pos : (0 < HS)%nat.
Proof. lia. Qed.

Lemma chunks_full sz n file :
  (HS <= sz)%nat -> (sz <= length file)%nat -> (sz <= S n * HS)%nat ->
  chunks (S n) (padded sz (S n) file) = take HS file :: chunks n (padded (sz - HS) n (drop HS file)).
Proof.
  intros H1 H2 H3. cbn [chunks]. unfold padded. generalize HS, H1, H3. intros N Hn Hn3. f_equal.
  - rewrite take_app_le by (rewrite length_take; lia). rewrite take_take. f_equal. lia.
  - f_equal. rewrite drop_app_le by (rewrite length_take; lia). rewrite skipn_firstn_comm. f_equal. f_equal. lia.
Qed.

Lemma chunks_last sz file :
  (sz < HS)%nat -> (sz <= length file)%nat ->
  chunks 1 (padded sz 1 file) = [take sz file ++ replicate (HS - sz) 255].
Proof.
  intros H1 H2. cbn [chunks]. unfold padded. revert H1. generalize HS. intros N Hn. f_equal.
  replace (1 * N - sz)%nat with (N - sz)%nat by lia. apply take_ge.
  rewrite length_app, length_take, length_replicate. lia.
Qed.

Lemma store_in tb off d : (off + length d <= length tb)%nat -> store tb (Z.of_nat off) d = Some (splice tb off d).
Proof. intros. unfold store. rewrite !(proj2 (Z.leb_le _ _)) by lia. cbn [andb]. by rewrite Nat2Z.id. Qed.
Lemma store_0 tb d : (length d <= length tb)%nat -> store tb 0 d = Some (splice tb 0 d).
Proof. intros. unfold store. rewrite !(proj2 (Z.leb_le _ _)) by lia. done. Qed.

(** What the flag for the product data changes in a packet: the command line
    of the kernel, filled up with zeroes to 1 KB, at 16 KB. *)
Definition cmdline_area (cmdline : option (list Z)) : list Z :=
  let c := take 1024 (default [] cmdline) in c ++ drop (length c) (replicate 1024 0).
Definition patched (productinfo : bool) (cmdline : option (list Z)) (pkt : list Z) : list Z :=
  if productinfo then splice pkt (Z.to_nat (16 * 1024)) (cmdline_area cmdline) else pkt.

Lemma area_length cmdline : length (cmdline_area cmdline) = 1024%nat.
Proof.
  unfold cmdline_area. generalize 1024%nat. intros k. rewrite length_app, length_drop, length_replicate, length_take. lia.
Qed.

Lemma splice_over (l z c : list Z) o :
  (o + length z <= length l)%nat -> (length c <= length z)%nat -> splice (splice l o z) o c = splice l o (c ++ drop (length c) z).
Proof.
  intros Hl Hc. unfold splice. assert (Lo : length (take o l) = o) by (rewrite length_take; lia). rewrite length_app, length_drop.
  rewrite take_app_le by lia. rewrite take_take, Nat.min_id. f_equal. rewrite <- app_assoc. f_equal.
  rewrite drop_app_ge by lia. rewrite Lo. rewrite drop_app_le by lia.
  replace (o + length c - o)%nat with (length c) by lia. do 2 f_equal. lia.
Qed.

Lemma patched_take productinfo cmdline tb :
  productinfo = false \/ 17 * 1024 <= hs -> (HS <= length tb)%nat ->
  take HS (patched productinfo cmdline tb) = patched productinfo cmdline (take HS tb) /\
  length (patched productinfo cmdline tb) = length tb.
Proof.
  intros Hp Hl. unfold patched. destruct productinfo; [|done]. destruct Hp as [|Hp]; [done|]. pose proof (area_length cmdline) as La.
  set (a := cmdline_area cmdline) in *. clearbody a. assert (Ho : (Z.to_nat (16 * 1024) + length a <= HS)%nat) by lia.
  generalize dependent (Z.to_nat (16 * 1024)). clear La Hp. revert Hl. generalize HS. intros k Hl o Ho. split; [|apply splice_length; lia].
  unfold splice. rewrite take_take, Nat.min_l by lia.
  rewrite take_app_ge by (rewrite length_take; lia). f_equal. rewrite length_take.
  rewrite take_app_ge by lia. f_equal. rewrite skipn_firstn_comm. f_equal. lia.
Qed.

Lemma patch_stored productinfo cmdline tb :
  productinfo = false \/ 17 * 1024 <= hs -> (HS <= length tb)%nat ->
  (if productinfo then
     tb ← store tb (16 * 1024) (replicate 1024 0);
     match cmdline with Some c => store tb (16 * 1024) (take 1024 c) | None => Some tb end
   else Some tb) = Some (patched productinfo cmdline tb).
Proof.
  intros Hp Hl. unfold patched, cmdline_area. destruct productinfo; [|reflexivity]. destruct Hp as [|Hp]; [discriminate|].
  assert (Hs : forall l d, zlen d <= 1024 -> (HS <= length l)%nat -> store l (16 * 1024) d = Some (splice l (Z.to_nat (16 * 1024)) d)).
  { intros l d Hd Hl'. unfold store. rewrite !(proj2 (Z.leb_le _ _)) by lia. reflexivity. }
  assert (Hz : zlen (replicate 1024 0) = 1024) by (rewrite length_replicate; lia).
  rewrite Hs by lia. cbn [mbind option_bind]. assert (Hk : Z.of_nat 1024 = 1024) by lia. revert Hz Hk.
  generalize 1024%nat. intros k Hz Hk. generalize dependent (replicate k 0). intros z Hz. destruct cmdline as [c|]; cbn [default].
  - pose proof (firstn_le_length k c) as Hc. rewrite Hs; [|lia|rewrite splice_length; lia]. rewrite splice_over by lia. reflexivity.
  - rewrite take_nil. reflexivity.
Qed.

(** The bytes of the image are all sent when the patch does not reach them. *)
Lemma concat_chunks n l : concat (chunks n l) = take (n * HS) l.
Proof.
  revert l. induction n as [|n IH]; intros l; [done|]. cbn [chunks concat]. rewrite IH. cbn [Nat.mul]. by rewrite take_take_drop.
Qed.
Lemma sent_prefix n sz file productinfo cmdline :
  17 * 1024 <= hs -> (sz <= n * HS)%nat -> (sz <= length file)%nat -> productinfo = false \/ (sz <= Z.to_nat (16 * 1024))%nat ->
  take sz (concat (map (patched productinfo cmdline) (chunks n (padded sz n file)))) = take sz file.
Proof.
  intros H17 Hn Hf Hp. assert (Ht : forall l, take sz (padded sz n file ++ l) = take sz file).
  { intros l. unfold padded. rewrite <- app_assoc. rewrite take_app_le by (rewrite length_take; lia). by rewrite take_take, Nat.min_id. }
  destruct productinfo.
  - destruct Hp as [|Hp]; [discriminate|]. destruct n as [|n]; [assert (sz = 0)%nat as -> by lia; reflexivity|].
    cbn [chunks map concat]. unfold patched at 1. unfold splice. rewrite <- app_assoc.
    rewrite <- (app_nil_r (padded sz (S n) file)) at 1. assert (Ho : (Z.to_nat (16 * 1024) <= HS)%nat) by lia.
    revert Hp Ho. generalize (Z.to_nat (16 * 1024)). intros o Hp Ho.
    assert (Lp : (sz <= length (padded sz (S n) file))%nat) by (unfold padded; rewrite length_app, length_take; lia).
    rewrite app_nil_r, take_app_le by (rewrite !length_take; lia). rewrite !take_take, Nat.min_l by lia.
    rewrite <- (Ht []), app_nil_r. f_equal. lia.
  - change (map (patched false cmdline)) with (map (fun p : list Z => p)). rewrite map_id, concat_chunks, take_take, Nat.min_l by lia.
    by rewrite <- (Ht []), app_nil_r.
Qed.

Lemma image_loop_sends n fuel productinfo cmdline file count i pos sz tb h :
  (forall h m, reply h m = true) -> productinfo = false \/ 17 * 1024 <= hs ->
  count - i = Z.of_nat n -> 0 <= i -> count <= hs -> (n < fuel)%nat ->
  (n = 0 -> sz = 0)%nat -> (0 < n -> (n - 1) * HS < sz)%nat -> (sz <= n * HS)%nat ->
  (sz <= length (drop pos file))%nat -> (HS <= length tb)%nat ->
  exists tb', image_loop read_len hs fuel productinfo cmdline file count i pos (Z.of_nat sz) tb h =
    Some (DL_SUCCESS, h ++ map (MsgData ∘ patched productinfo cmdline) (chunks n (padded sz n (drop pos file))) ++ [MsgEnd], tb').
Proof.
  intros Hok Hpi. revert fuel i pos sz tb h. induction n as [|n IH]; intros fuel i pos sz tb h Hn Hi Hc Hf H0 Hlo Hhi Hfile Htb;
    (destruct fuel as [|k]; [lia|]); cbn [image_loop].
  { rewrite (proj2 (Z.ltb_ge _ _)) by lia. unfold send. rewrite Hok. by exists tb. }
  rewrite (proj2 (Z.ltb_lt _ _)) by lia.
  destruct (read_fill_spec HS file pos HS ltac:(lia)) as (pos' & -> & Hpos).
  set (avail := drop pos file) in *. pose proof HS_pos as Hp.
  rewrite store_0 by (rewrite length_take; lia). cbn [mbind option_bind].
  destruct (Z.ltb_spec (Z.of_nat sz) hs) as [Hs|Hs].
  - assert (n = 0)%nat by nia. subst n.
    assert (Ld : (sz <= length (take HS avail))%nat) by (rewrite length_take; lia).
    assert (Ls : length (splice tb 0 (take HS avail)) = length tb) by (apply splice_length; rewrite length_take; lia).
    replace (Z.to_nat (hs - Z.of_nat sz)) with (HS - sz)%nat by lia.
    rewrite (store_in _ sz) by (rewrite length_replicate, Ls; lia). cbn [mbind option_bind].
    assert (Lt : length (splice (splice tb 0 (take HS avail)) sz (replicate (HS - sz) 255)) = length tb)
      by (rewrite splice_length; rewrite ?length_replicate, ?Ls; lia).
    rewrite patch_stored by (done || lia). cbn [mbind option_bind].
    destruct (patched_take productinfo cmdline _ Hpi ltac:(by rewrite Lt)) as [Pt Pl].
    rewrite load_0 by lia. cbn [mbind option_bind]. rewrite Pt.
    rewrite pad_last by (rewrite ?length_take in *; lia). rewrite take_take, Nat.min_l by lia.
    unfold send at 1. rewrite Hok. change (DL_SUCCESS =? DL_SUCCESS) with true. cbn [negb].
    destruct k as [|k]; [lia|]. cbn [image_loop]. rewrite (proj2 (Z.ltb_ge _ count)) by lia. unfold send. rewrite Hok.
    eexists. rewrite chunks_last by lia. cbn [map app compose]. rewrite <- app_assoc. done.
  - assert (Hsz : (HS <= sz)%nat) by lia. cbn [mbind option_bind].
    assert (Ld : length (take HS avail) = HS) by (rewrite length_take; lia).
    assert (Lt : length (splice tb 0 (take HS avail)) = length tb) by (rewrite splice_length; lia).
    rewrite patch_stored by (done || lia). cbn [mbind option_bind].
    destruct (patched_take productinfo cmdline (splice tb 0 (take HS avail)) Hpi ltac:(by rewrite Lt)) as [Pt Pl].
    rewrite load_0 by lia. cbn [mbind option_bind]. rewrite Pt, full_packet by done.
    unfold send at 1. rewrite Hok. change (DL_SUCCESS =? DL_SUCCESS) with true. cbn [negb].
    rewrite Hpos by lia. replace (Z.of_nat sz - hs) with (Z.of_nat (sz - HS)) by lia.
    edestruct (IH k (i + 1) (pos + HS)%nat (sz - HS)%nat) as (tb' & E); try lia.
    + intros Hn0. assert (S n - 1 = S (n - 1))%nat by lia. nia.
    + rewrite <- drop_drop, length_drop. fold avail. lia.
    + rewrite Pl, Lt. exact Htb.
    + rewrite E. exists tb'. rewrite chunks_full by lia. rewrite <- drop_drop. fold avail.
      cbn [map compose]. rewrite <- !app_assoc. done.
Qed.

End DownloadProofs.

Section DownloadTheorems.
Context `{Link} (read_len : nat -> nat -> nat).

(** C35: a download is complete.  For an image file that holds the declared size
    (which leaves room for a packet below 2^31), when every message is
    acknowledged and whatever partial reads occur (none fails), the modem is sent START
    with the padded size and the address, then exactly the declared bytes of
    the file padded with 0xFF to a whole number of 60 KB packets, in order,
    then END, and the result is success.  With the flag of the last image, the
    product data, every packet is the same but for the 1 KB at its offset
    16 KB, which holds the kernel's command line filled up with zeroes; of an
    image of at most 16 KB, as the product data is, no declared byte is
    replaced. *)
Theorem download_image_complete info path productinfo cmdline file tb h :
  (forall h m, reply h m = true) ->
  image_path info = Some path -> 0 <= image_size info < 2 ^ 31 - HS_PACKET_SIZE ->
  image_size info <= zlen file -> HS_PACKET_SIZE <= zlen tb ->
  let n := Z.to_nat ((image_size info + HS_PACKET_SIZE - 1) / HS_PACKET_SIZE) in
  let sz := Z.to_nat (image_size info) in
  let packets := map (patched productinfo cmdline) (chunks HS_PACKET_SIZE n (padded HS_PACKET_SIZE sz n file)) in
  (exists tb', download_image read_len info productinfo cmdline (Some file) tb h =
    Some (DL_SUCCESS, h ++ [MsgStart (Z.of_nat n * HS_PACKET_SIZE) (address info)] ++ map MsgData packets ++ [MsgEnd], tb')) /\
  (productinfo = false \/ image_size info <= 16 * 1024 -> take sz (concat packets) = take sz file).
Proof.
  intros Hok Hp Hs Hf Htb n sz packets.
  assert (Hn : (image_size info + HS_PACKET_SIZE - 1) / HS_PACKET_SIZE = Z.of_nat n)
    by (unfold n; rewrite Z2Nat.id; [done|unfold HS_PACKET_SIZE in *; zlia]).
  assert (Hb : HS_PACKET_SIZE * Z.of_nat n <= image_size info + HS_PACKET_SIZE - 1 < HS_PACKET_SIZE * (Z.of_nat n + 1))
    by (rewrite <- Hn; unfold HS_PACKET_SIZE in *; zlia).
  clearbody n. split.
  2:{ intros Hpi. apply sent_prefix; unfold sz, HS_PACKET_SIZE in *; [lia..|]. destruct Hpi; [by left|right; lia]. }
  unfold download_image. rewrite Hp. unfold send. rewrite Hok. rewrite s32_small by (unfold HS_PACKET_SIZE in *; lia).
  rewrite Z.quot_div_nonneg by (unfold HS_PACKET_SIZE in *; lia). rewrite Hn. change (DL_SUCCESS =? DL_SUCCESS) with true. cbn [negb].
  destruct (image_loop_sends read_len HS_PACKET_SIZE eq_refl n (S (Z.to_nat (Z.of_nat n))) productinfo cmdline file (Z.of_nat n) 0 0 sz tb
    (h ++ [MsgStart (Z.of_nat n * HS_PACKET_SIZE) (address info)])) as (tb' & E);
    [exact Hok|by right|rewrite ?drop_0; unfold HS_PACKET_SIZE, sz in *; lia..|].
  unfold sz in E at 1. rewrite Z2Nat.id in E by lia. rewrite E, drop_0. exists tb'. unfold packets. rewrite map_map, <- !app_assoc. done.
Qed.
End DownloadTheorems.

Section Loader.
Context `{Link}.

(** The packets of 256 bytes of the first loader. *)
Lemma fdl_loop_sends n fuel buffer off h :
  (forall h m, reply h m = true) -> (n < fuel)%nat -> 0 <= off -> off + FDL_PACKET_SIZE * Z.of_nat n <= zlen buffer ->
  fdl_loop fuel buffer off (FDL_PACKET_SIZE * Z.of_nat n) h =
    Some (DL_SUCCESS, h ++ map MsgData (chunks FDL_PACKET_SIZE n (drop (Z.to_nat off) buffer))).
Proof.
  intros Hok. revert fuel off h. induction n as [|n IH]; intros fuel off h Hf Ho Hl;
    (destruct fuel as [|k]; [lia|]); cbn [fdl_loop].
  { rewrite app_nil_r. done. }
  unfold FDL_PACKET_SIZE in *. rewrite (proj2 (Z.eqb_neq _ 0)) by lia.
  unfold load. rewrite !(proj2 (Z.leb_le _ _)) by lia. cbn [andb mbind option_bind].
  unfold send. rewrite Hok. change (DL_SUCCESS =? DL_FAILURE) with false. cbv iota.
  replace (256 * Z.of_nat (S n) - 256) with (256 * Z.of_nat n) by lia. rewrite IH by lia.
  cbn [chunks map]. rewrite <- app_assoc, drop_drop. cbn [app].
  replace (Z.to_nat (off + 256)) with (Z.to_nat off + Z.to_nat 256)%nat by lia. done.
Qed.

(** A size that is not a multiple of 256 is counted down past 0. *)
Lemma fdl_loop_overruns fuel buffer off size h :
  (forall h m, reply h m = true) -> 0 <= off -> size mod FDL_PACKET_SIZE <> 0 ->
  zlen buffer - off < size + FDL_PACKET_SIZE -> fdl_loop fuel buffer off size h = None.
Proof.
  intros Hok. revert off size h. induction fuel as [|k IH]; intros off size h Ho Hm Hl; [done|]. cbn [fdl_loop].
  unfold FDL_PACKET_SIZE in *. destruct (Z.eqb_spec size 0) as [->|]; [by rewrite Z.mod_0_l in Hm by lia|].
  destruct (load buffer off 256) as [d|] eqn:Hd; [|done]. cbn [mbind option_bind].
  unfold send. rewrite Hok. change (DL_SUCCESS =? DL_FAILURE) with false. cbv iota.
  apply IH; [lia| |lia]. intros E. apply Hm. zlia.
Qed.

(** The first loader: when its size is a multiple of 256 every byte of it is
    sent, in order, between START and END, and then executed; for any other
    size the countdown [while (size)] misses 0 and the packets run out of the
    buffer that was allocated. *)
Lemma download_fdl_packets info buffer h :
  (forall h m, reply h m = true) -> 0 <= image_size info < 2 ^ 31 -> zlen buffer = image_size info + 4 ->
  (image_size info mod FDL_PACKET_SIZE = 0 ->
   download_fdl info (Some buffer) h =
     Some (DL_SUCCESS, h ++ [MsgStart (image_size info) (address info)]
       ++ map MsgData (chunks FDL_PACKET_SIZE (Z.to_nat (image_size info / FDL_PACKET_SIZE)) buffer)
       ++ [MsgEnd; MsgExec (address info)])) /\
  (image_size info mod FDL_PACKET_SIZE <> 0 -> download_fdl info (Some buffer) h = None).
Proof.
  intros Hok Hs Hl. unfold download_fdl. rewrite s32_small by lia. unfold send. rewrite !Hok.
  change (DL_SUCCESS =? DL_FAILURE) with false. cbv iota. split; intros Hm.
  - set (n := Z.to_nat (image_size info / FDL_PACKET_SIZE)).
    assert (Hn : image_size info = FDL_PACKET_SIZE * Z.of_nat n) by (unfold n, FDL_PACKET_SIZE in *; zlia).
    pose proof (fdl_loop_sends n (S (length buffer)) buffer 0 (h ++ [MsgStart (image_size info) (address info)]) Hok
      ltac:(unfold FDL_PACKET_SIZE in *; lia) ltac:(lia) ltac:(unfold FDL_PACKET_SIZE in *; lia)) as E.
    rewrite <- Hn in E. rewrite E. cbn [mbind option_bind].
    change (DL_SUCCESS =? DL_FAILURE) with false. cbv iota. rewrite !Hok.
    change (DL_SUCCESS =? DL_FAILURE) with false. cbv iota. rewrite drop_0, <- !app_assoc. done.
  - rewrite fdl_loop_overruns by (unfold FDL_PACKET_SIZE in *; done || lia). done.
Qed.

(** EXEC is sent even when an image was refused. *)
Lemma exec_after_failure read_len infos files cmdline tb ret0 h h' :
  images_loop read_len (tail infos) files cmdline tb h ret0 = Some (DL_FAILURE, h') ->
  download_images read_len infos files cmdline tb ret0 h = Some (DL_FAILURE, h' ++ [MsgExec 0x400000]).
Proof. intros E. unfold download_images. rewrite E. done. Qed.
End Loader.

#[local] Instance ack_all : Link := { reply _ _ := true }.
Definition demo_image (size : Z) : image_info := mkImage (Some "/modem/img") "/modem/img" size 0x400.

#[local] Abbreviation three_packets :=
  (map (patched true (Some [65; 66])) (chunks HS_PACKET_SIZE (Z.to_nat ((3 + HS_PACKET_SIZE - 1) / HS_PACKET_SIZE))
     (padded HS_PACKET_SIZE (Z.to_nat 3) (Z.to_nat ((3 + HS_PACKET_SIZE - 1) / HS_PACKET_SIZE)) [1; 2; 3; 4]))).
Lemma download_image_complete_witness :
  (exists tb', download_image (fun _ n => n) (demo_image 3) true (Some [65; 66]) (Some [1; 2; 3; 4])
      (replicate (Z.to_nat HS_PACKET_SIZE) 0) [] =
    Some (DL_SUCCESS, [] ++ [MsgStart (Z.of_nat (Z.to_nat ((3 + HS_PACKET_SIZE - 1) / HS_PACKET_SIZE)) * HS_PACKET_SIZE) 0x400]
      ++ map MsgData three_packets ++ [MsgEnd], tb')) /\
  (true = false \/ 3 <= 16 * 1024 -> take (Z.to_nat 3) (concat three_packets) = take (Z.to_nat 3) [1; 2; 3; 4]).
Proof.
  apply (download_image_complete (fun _ n => n) (demo_image 3) "/modem/img" true (Some [65; 66]) [1; 2; 3; 4]
    (replicate (Z.to_nat HS_PACKET_SIZE) 0) []).
  - intros; reflexivity.
  - reflexivity.
  - unfold HS_PACKET_SIZE. simpl. lia.
  - simpl. lia.
  - rewrite length_replicate. unfold HS_PACKET_SIZE. lia.
Defined.

Lemma download_fdl_packets_witness :
  download_fdl (demo_image 5) (Some (replicate 9 0)) [] = None /\
  download_fdl (demo_image 256) (Some (replicate 260 7)) [] =
    Some (DL_SUCCESS, [MsgStart 256 0x400; MsgData (replicate 256 7); MsgEnd; MsgExec 0x400]).
Proof.
  split.
  - apply (download_fdl_packets (demo_image 5) (replicate 9 0) []); [intros; reflexivity | simpl; lia | reflexivity | discriminate].
  - refine (proj1 (download_fdl_packets (demo_image 256) (replicate 260 7) [] _ _ _) _);
      [intros; reflexivity | simpl; lia | reflexivity | reflexivity].
Defined.

(** The choice between an image and its backup: whenever one of the two
    files has the declared size and a correct checksum, the path that is kept is
    one that does. *)
Lemma check_image_good fs info info' path :
  image_path info = Some path -> path <> image_path_bak info ->
  check_image fs info = Some info' ->
  _chkImg (fs path) (image_size info) = Some true \/
  _chkImg (fs (image_path_bak info)) (image_size info) = Some true ->
  exists p, image_path info' = Some p /\ _chkImg (fs p) (image_size info') = Some true /\
    image_size info' = image_size info /\ address info' = address info.
Proof.
  intros Hp Hne Hc Hok. unfold check_image in Hc. rewrite Hp in Hc. cbn [mbind option_bind] in Hc.
  rewrite (proj2 (String.eqb_neq _ _) Hne) in Hc.
  destruct (_chkImg (fs path) (image_size info)) as [[|]|] eqn:E1; cbn [mbind option_bind] in Hc; [| |done].
  - injection Hc as <-. exists path. done.
  - destruct Hok as [?|Hok]; [done|]. rewrite Hok in Hc. cbn [mbind option_bind negb] in Hc.
    destruct (_ <? _)%nat; [done|]. injection Hc as <-. exists (image_path_bak info). done.
Qed.

(** Eight bytes of data, their checksum, and a damaged copy. *)
Definition good_img : list Z := [1; 0; 2; 0; 0xfc; 0xff; 0; 0].
Definition demo_files (p : string) : option (list Z) :=
  if String.eqb p "/b" then Some good_img else Some [9; 0; 2; 0; 0xfc; 0xff; 0; 0].
Definition two_copies : image_info := mkImage (Some "/a") "/b" 8 0x400.

Lemma check_image_good_witness :
  exists p, image_path (mkImage (Some "/b") "/b" 8 0x400) = Some p /\
    _chkImg (demo_files p) 8 = Some true /\ 8 = 8 /\ 0x400 = 0x400.
Proof.
  apply (check_image_good demo_files two_copies (mkImage (Some "/b") "/b" 8 0x400) "/a").
  - reflexivity.
  - discriminate.
  - vm_compute. reflexivity.
  - right. vm_compute. reflexivity.
Defined.
