(* ===== verification/ModemLoad.v ===== *)
(** * The configuration of the modem's images and the handshake
      (apps/modem_control/modem_boot.c)

    [get_modem_images_info] reads the list of images from /modem_images.info
    and chooses between each image and its backup; a line without an address
    or a size names the serial device instead.  [try_to_connect_modem] resets
    the modem and waits for its version string; [modem_boot] runs the whole
    sequence.  What the serial line delivers is a script, one element per
    [read]: the byte, or [None] when there is none. *)
From S2P Require Import Prelude.
From S2P Require Import Checksum.
From S2P Require Import FdlPacket.
From S2P Require Import ModemBoot.
From S2P Require Import TextConf.
From Stdlib Require Import Ascii.

Definition max_item : nat := 7.
Definition LINE_LEN : nat := 512.
Definition PATH_LEN : nat := 100.

(** The globals [download_image_info], [modem_images_count], [uart_dev] and
    [fdl_cp_poweron_delay]. *)
Record boot_conf := mkConf {
  infos : list image_info; images_count : Z; uart_dev : string; poweron_delay : Z }.

(** The parser: the entry being filled and the two local arrays, which keep
    their contents from line to line and start uninitialised. *)
Record scan_state := mkScan { originPath : option string; bakPath : option string; sc_size : Z; sc_addr : Z }.

Definition to_path (w : text) : option string :=
  if (length w <? PATH_LEN)%nat then Some (String.string_of_list_ascii w) else None.

(** [sscanf(line, "%s %s %x %x", ...)] *)
Definition sscanf_image (line : text) (s : scan_state) : option (Z * scan_state) :=
  match scan_s line with
  | Eof | Mismatch => Some (-1, s)
  | Got w l =>
    p ← to_path w;
    match scan_s l with
    | Eof | Mismatch => Some (1, mkScan (Some p) (bakPath s) (sc_size s) (sc_addr s))
    | Got w l =>
      b ← to_path w;
      match scan_x l with
      | Eof | Mismatch => Some (2, mkScan (Some p) (Some b) (sc_size s) (sc_addr s))
      | Got v l =>
        size ← v;
        match scan_x l with
        | Eof | Mismatch => Some (3, mkScan (Some p) (Some b) size (sc_addr s))
        | Got v _ => addr ← v; Some (4, mkScan (Some p) (Some b) size addr)
        end
      end
    end
  end.

Definition null_image : image_info := mkImage None "" 0 0.
Definition is_skipped (l : text) : bool := match l with [] => true | c :: _ => Ascii.eqb c "#" end.

(** One line.  [paths] are the two arrays; the size and address are those of
    entry [cnt].  The result is the new state, and the number of entries. *)
Definition image_line (l : text) (cnt : nat) (paths : option string * option string) (c : boot_conf)
    : option (nat * (option string * option string) * boot_conf) :=
  old ← infos c !! cnt;
  '(n, s) ← sscanf_image l (mkScan (fst paths) (snd paths) (image_size old) (address old));
  if n =? -1 then Some (cnt, paths, c)
  else
    p ← originPath s; b ← bakPath s;
    let c := mkConf (<[cnt := mkImage (Some p) b (sc_size s) (sc_addr s)]> (infos c)) (images_count c) (uart_dev c) (poweron_delay c) in
    if (sc_addr s =? 0) || (sc_size s =? 0) then
      Some (cnt, (Some p, Some b), mkConf (infos c) (images_count c) p (if sc_size s =? 0 then poweron_delay c else s32 (sc_size s)))
    else Some (S cnt, (Some p, Some b), c).

Fixpoint images_lines (fuel : nat) (file : text) (cnt : nat) (paths : option string * option string) (c : boot_conf)
    : option (nat * boot_conf) :=
  match fuel with
  | O => None
  | S k =>
    match fgets LINE_LEN file with
    | None => Some (cnt, c)
    | Some (line, rest) =>
      l ← chop line;
      if is_skipped l then images_lines k rest cnt paths c
      else
        '(cnt', paths', c') ← image_line l cnt paths c;
        if (max_item <=? cnt')%nat then Some (cnt', c') else images_lines k rest cnt' paths' c'
    end
  end.

(** The second part: each image with a backup is checked. *)
Fixpoint check_images (fs : string -> option (list Z)) (n : nat) (l : list image_info) : option (list image_info) :=
  match n, l with
  | S k, i :: r => i' ← check_image fs i; r' ← check_images fs k r; Some (i' :: r')
  | _, _ => Some l
  end.

(** [file] is /modem_images.info, [None] when it cannot be opened: then the
    built-in list stays. *)
Definition get_modem_images_info (file : option text) (fs : string -> option (list Z)) (c : boot_conf) : option (Z * boot_conf) :=
  match file with
  | None => Some (0, c)
  | Some t =>
    let c := mkConf (replicate (S max_item) null_image) 0 (uart_dev c) (poweron_delay c) in
    '(cnt, c) ← images_lines (S (length t)) t 0 (None, None) c;
    let l := <[cnt := null_image]> (infos c) in
    l ← check_images fs cnt l;
    Some (Z.of_nat cnt, mkConf l (Z.of_nat cnt) (uart_dev c) (poweron_delay c))
  end.

(** ** The handshake *)
Inductive uart_event := Reset | HandShake (n : Z).
#[export] Instance uart_event_eq_dec : EqDecision uart_event.
Proof. solve_decision. Defined.

(** The reads still to come, and the events so far. *)
Record uart := mkUart { reads : list (option Z); events : list uart_event }.
Definition emit (e : uart_event) (u : uart) : uart := mkUart (reads u) (events u ++ [e]).

(** Outcomes: the loop returns, or it waits for a read that the script does
    not have. *)
Inductive waiting (A : Type) := Back (a : A) (u : uart) | Waits (u : uart).
Arguments Back {A} _ _.
Arguments Waits {A} _.

Definition FDL_CP_UART_TIMEOUT : Z := 200.
Definition MAX_POLL : Z := 2000000.
Definition VERSION_LEN : Z := 64.

(** [do read ... while(i<2000000)]: whether 0x55 came before the limit. *)
Fixpoint wait_55 (l : list (option Z)) (ev : list uart_event) (i : Z) : waiting bool :=
  match l with
  | [] => Waits (mkUart [] ev)
  | r :: l' =>
    let i := i + 1 in
    if match r with Some b => b =? 0x55 | None => false end then Back (negb (MAX_POLL <=? i)) (mkUart l' ev)
    else
      let ev := if i mod 1000 =? 0 then ev ++ [HandShake 3] else ev in
      if i <? MAX_POLL then wait_55 l' ev i else Back false (mkUart l' ev)
  end.

(** The version string, from its second byte on; [n] bytes are in the buffer
    of 64, so the next one is stored at index [n].  The result is
    [modem_connect]. *)
Fixpoint read_version (l : list (option Z)) (ev : list uart_event) (n modem_connect : Z) : waiting Z :=
  match l with
  | [] => Waits (mkUart [] ev)
  | Some b :: l' =>
    if b =? 0x7E then Back 1 (mkUart l' ev)
    else if VERSION_LEN <=? n + 1 then Back modem_connect (mkUart l' ev)
    else if modem_connect <? FDL_CP_UART_TIMEOUT then read_version l' ev (n + 1) modem_connect
    else Back modem_connect (mkUart l' ev)
  | None :: l' =>
    let modem_connect := modem_connect + 2 in
    if modem_connect <? FDL_CP_UART_TIMEOUT then read_version l' ev n modem_connect else Back modem_connect (mkUart l' ev)
  end.

(** One turn of the loop of [try_to_connect_modem]: [None] when it is left, or
    the new [modem_connect]. *)
Definition connect_turn (boot_status modem_connect : Z) (u : uart) : waiting (option Z) :=
  let restart := (FDL_CP_UART_TIMEOUT <=? modem_connect) && (boot_status =? 0) in
  let first := if restart then let u := emit Reset u in wait_55 (reads u) (events u) 0 else Back true u in
  match first with
  | Waits u => Waits u
  | Back false u => Back (Some modem_connect) u
  | Back true u =>
    let modem_connect := if restart then 0 else modem_connect in
    let u := emit (HandShake 1) u in
    match reads u with
    | [] => Waits u
    | r :: l =>
      let after :=
        match r with
        | None => Back modem_connect (mkUart l (events u))
        | Some b =>
          if b =? 0x7E then read_version l (events u) 1 0
          else
            let u := mkUart l (events u) in
            if b =? 0x55 then Back (modem_connect + 40 + 2) (emit (HandShake 3) u) else Back (modem_connect + 2) u
        end in
      match after with
      | Waits u => Waits u
      | Back mc u => if mc =? 1 then Back None u else Back (Some (mc + 2)) u
      end
    end
  end.

Fixpoint connect_loop (fuel : nat) (boot_status modem_connect : Z) (u : uart) : waiting unit :=
  match fuel with
  | O => Waits u
  | S k =>
    match connect_turn boot_status modem_connect u with
    | Waits u => Waits u
    | Back None u => Back tt u
    | Back (Some mc) u => connect_loop k boot_status mc u
    end
  end.
(** Every turn reads a byte, so the script bounds the turns. *)
Definition try_to_connect_modem (boot_status : Z) (u : uart) : waiting unit :=
  connect_loop (S (length (reads u))) boot_status FDL_CP_UART_TIMEOUT u.

(** ** Well-formed configurations *)
Inductive info_line :=
| Note (t : text)
| Nothing
| Image (p g1 b g2 x1 g3 x2 : text) (size addr : Z).

Definition info_text (l : info_line) : text :=
  match l with
  | Note t => "#"%char :: t
  | Nothing => []
  | Image p g1 b g2 x1 g3 x2 _ _ => p ++ g1 ++ b ++ g2 ++ x1 ++ g3 ++ x2
  end.
Definition info_ok (l : info_line) : Prop :=
  (length (info_text l) + 2 <= LINE_LEN)%nat /\ NL ∉ info_text l /\ NUL ∉ info_text l /\
  match l with
  | Image p g1 b g2 x1 g3 x2 size addr =>
    is_word p /\ is_gap g1 /\ is_word b /\ is_gap g2 /\ is_hex x1 size /\ is_gap g3 /\ is_hex x2 addr /\
    (length p < PATH_LEN)%nat /\ (length b < PATH_LEN)%nat /\ head p <> Some "#"%char
  | _ => True
  end.
Definition info_file (ls : list info_line) : text := concat (map (fun l => info_text l ++ [NL]) ls).

(** What the lines mean: the images so far, the device and the delay.  Lines
    behind the seventh image are not read. *)
Fixpoint meaning (ls : list info_line) (imgs : list image_info) (dev : string) (delay : Z) : list image_info * string * Z :=
  match ls with
  | [] => (imgs, dev, delay)
  | Image p _ b _ _ _ _ size addr :: r =>
    let p := String.string_of_list_ascii p in
    if (addr =? 0) || (size =? 0) then meaning r imgs p (if size =? 0 then delay else s32 size)
    else
      let imgs := imgs ++ [mkImage (Some p) (String.string_of_list_ascii b) size addr] in
      if (max_item <=? length imgs)%nat then (imgs, dev, delay) else meaning r imgs dev delay
  | _ :: r => meaning r imgs dev delay
  end.

Lemma sscanf_image_line p g1 b g2 x1 g3 x2 size addr s :
  info_ok (Image p g1 b g2 x1 g3 x2 size addr) ->
  sscanf_image (p ++ g1 ++ b ++ g2 ++ x1 ++ g3 ++ x2) s =
    Some (4, mkScan (Some (String.string_of_list_ascii p)) (Some (String.string_of_list_ascii b)) size addr).
Proof.
  intros (_ & _ & _ & Hp & Hg1 & Hb & Hg2 & Hx1 & Hg3 & Hx2 & Lp & Lb & _). unfold sscanf_image.
  assert (S1 := scan_s_word [] p (g1 ++ b ++ g2 ++ x1 ++ g3 ++ x2) (Forall_nil_2 _) Hp (gap_stops _ _ Hg1)). cbn [app] in S1. rewrite S1.
  unfold to_path. rewrite (proj2 (Nat.ltb_lt _ _) Lp). cbn [mbind option_bind].
  rewrite (scan_s_word g1 b) by auto using gap_space, gap_stops. rewrite (proj2 (Nat.ltb_lt _ _) Lb). cbn [mbind option_bind].
  rewrite (scan_x_hex g2 x1 size) by auto using gap_space, gap_stops. cbn [mbind option_bind].
  assert (S2 := scan_x_hex g3 x2 addr [] (gap_space _ Hg3) Hx2 I). rewrite app_nil_r in S2. rewrite S2. done.
Qed.

(** The table while [imgs] are known: the next entry may hold a line that named
    the device. *)
Definition partial (imgs : list image_info) (x : image_info) : list image_info :=
  imgs ++ x :: replicate (max_item - length imgs) null_image.

Lemma images_lines_spec ls fuel imgs x paths c :
  Forall info_ok ls -> (length (info_file ls) < fuel)%nat -> (length imgs < max_item)%nat -> infos c = partial imgs x ->
  let '(imgs', dev, delay) := meaning ls imgs (uart_dev c) (poweron_delay c) in
  exists x', images_lines fuel (info_file ls) (length imgs) paths c =
    Some (length imgs', mkConf (partial imgs' x') (images_count c) dev delay) /\ (length imgs' <= max_item)%nat.
Proof.
  intros Hls. revert fuel imgs x paths c. induction Hls as [|l ls Hl Hls IH]; intros [|k] imgs x paths c Hk Hi Hc; try lia.
  - cbn [meaning]. exists x. cbn [info_file map concat images_lines fgets]. split; [|lia]. rewrite <- Hc. by destruct c.
  - pose proof Hl as (Hlen & Hnl & Hnul & Him).
    assert (E : info_file (l :: ls) = info_text l ++ NL :: info_file ls) by (unfold info_file; cbn; by rewrite <- app_assoc).
    rewrite E in Hk |- *. rewrite length_app in Hk. cbn [length] in Hk.
    cbn [images_lines]. rewrite fgets_line by done. rewrite chop_line by done. cbn [mbind option_bind].
    destruct l as [t| |p g1 b g2 x1 g3 x2 size addr].
    + cbn [info_text is_skipped meaning]. rewrite Ascii.eqb_refl. apply (IH k imgs x paths c); [lia|lia|done].
    + cbn [info_text is_skipped meaning]. apply (IH k imgs x paths c); [lia|lia|done].
    + cbn [info_text meaning].
      assert (Hsk : is_skipped (p ++ g1 ++ b ++ g2 ++ x1 ++ g3 ++ x2) = false).
      { destruct Him as ([Hp _] & _ & _ & _ & _ & _ & _ & _ & _ & Hh). destruct p as [|ch p]; [done|]. cbn in *.
        destruct (Ascii.eqb_spec ch "#") as [->|]; done. }
      rewrite Hsk. unfold image_line. rewrite Hc.
      assert (Hlk : partial imgs x !! length imgs = Some x) by (unfold partial; by rewrite lookup_app_r, Nat.sub_diag by done).
      rewrite Hlk. cbn [mbind option_bind].
      rewrite (sscanf_image_line p g1 b g2 x1 g3 x2 size addr _ Hl). cbn [mbind option_bind]. change (4 =? -1) with false. cbv iota.
      cbn [originPath bakPath sc_size sc_addr mbind option_bind].
      set (P := String.string_of_list_ascii p). set (B := String.string_of_list_ascii b).
      assert (Hin : <[length imgs := mkImage (Some P) B size addr]> (partial imgs x) = partial imgs (mkImage (Some P) B size addr)).
      { unfold partial. by rewrite insert_app_r_alt, Nat.sub_diag by done. }
      cbn [uart_dev poweron_delay infos images_count]. rewrite Hin.
      destruct ((addr =? 0) || (size =? 0)) eqn:Ez; cbn [mbind option_bind].
      * rewrite (proj2 (Nat.leb_gt _ _) Hi).
        apply (IH k imgs (mkImage (Some P) B size addr) _ (mkConf _ (images_count c) P (if size =? 0 then poweron_delay c else s32 size))); [lia|lia|done].
      * set (i := mkImage (Some P) B size addr). assert (Hl1 : S (length imgs) = length (imgs ++ [i])) by (rewrite length_app; cbn; lia).
        assert (Hp1 : partial imgs i = partial (imgs ++ [i]) null_image \/ max_item = S (length imgs)).
        { destruct (decide (max_item = S (length imgs))); [by right|left]. unfold partial. rewrite <- app_assoc. f_equal. cbn [app]. f_equal.
          rewrite length_app. cbn [length]. replace (max_item - length imgs)%nat with (S (max_item - (length imgs + 1))) by lia. done. }
        rewrite Hl1. destruct (Nat.leb_spec max_item (length (imgs ++ [i]))) as [Hm|Hm].
        -- exists null_image. split; [|rewrite length_app in *; cbn in *; lia]. do 2 f_equal.
           unfold partial. rewrite <- app_assoc. cbn [app]. rewrite length_app in *. cbn [length] in *.
           replace (max_item - length imgs)%nat with 1%nat by lia. replace (max_item - (length imgs + 1))%nat with 0%nat by lia. done.
        -- apply (IH k (imgs ++ [i]) null_image _ (mkConf _ (images_count c) (uart_dev c) (poweron_delay c))); [lia|lia|].
           cbn [infos]. destruct Hp1 as [->|?]; [done|]. rewrite length_app in Hm. cbn in Hm. lia.
Qed.

(** The configuration of the images is read as it is written.  For every
    file of comments, empty lines and well-formed entries,
    [get_modem_images_info] takes the first seven images in order, remembers
    the device and the delay of the lines that name them, and returns the
    images with each damaged file replaced by its backup; the table ends with
    an empty entry. *)
Lemma images_info_reads ls fs c :
  Forall info_ok ls ->
  let '(imgs, dev, delay) := meaning ls [] (uart_dev c) (poweron_delay c) in
  get_modem_images_info (Some (info_file ls)) fs c =
    (l ← mapM (check_image fs) imgs;
     Some (zlen imgs, mkConf (l ++ replicate (S max_item - length imgs) null_image) (zlen imgs) dev delay)) /\
  (length imgs <= max_item)%nat.
Proof.
  intros Hls. pose proof (images_lines_spec ls (S (length (info_file ls))) [] null_image (None, None)
    (mkConf (replicate (S max_item) null_image) 0 (uart_dev c) (poweron_delay c)) Hls ltac:(lia) ltac:(cbn; unfold max_item; lia) eq_refl) as S.
  cbn [uart_dev poweron_delay images_count] in S. destruct (meaning ls [] (uart_dev c) (poweron_delay c)) as [[imgs dev] delay].
  destruct S as (x & E & Hl). split; [|done]. unfold get_modem_images_info. cbn [length] in E. rewrite E. cbn [mbind option_bind infos uart_dev poweron_delay].
  unfold partial. rewrite insert_app_r_alt, Nat.sub_diag by done. cbn [list_insert insert].
  replace (null_image :: replicate (max_item - length imgs) null_image) with (replicate (S max_item - length imgs) null_image)
    by (replace (S max_item - length imgs)%nat with (S (max_item - length imgs)) by lia; done).
  assert (G : forall rest, check_images fs (length imgs) (imgs ++ rest) = (l ← mapM (check_image fs) imgs; Some (l ++ rest))).
  { clear. induction imgs as [|i imgs IH]; intros rest; [by destruct rest|]. cbn [length app check_images mapM].
    destruct (check_image fs i) as [i'|]; [|done]. cbn [mbind option_bind]. rewrite IH. by destruct (mapM (check_image fs) imgs). }
  rewrite G. by destruct (mapM (check_image fs) imgs).
Qed.

(** ** Connecting *)
Lemma wait_55_spec l ev i r u :
  wait_55 l ev i = Back r u ->
  exists pre ev', l = pre ++ reads u /\ pre <> [] /\ events u = ev ++ ev' /\ Reset ∉ ev' /\ (r = true -> Some 0x55 ∈ pre).
Proof.
  revert ev i. induction l as [|x l IH]; intros ev i; [done|]. cbn [wait_55].
  destruct (match x with Some b => b =? 0x55 | None => false end) eqn:Ex.
  - intros [= <- <-]. exists [x], []. rewrite app_nil_r. split_and!; try done; [by apply not_elem_of_nil|]. intros _.
    destruct x as [b|]; [|done]. apply Z.eqb_eq in Ex as ->. by left.
  - set (ev1 := if _ =? 0 then _ else _). assert (E1 : exists ev', ev1 = ev ++ ev' /\ Reset ∉ ev').
    { unfold ev1. destruct (_ =? 0); [by exists [HandShake 3]; split; [|compute_done]|exists []; rewrite app_nil_r; by split; [|apply not_elem_of_nil]]. }
    destruct E1 as (e1 & -> & Hr). destruct (i + 1 <? MAX_POLL).
    + intros E. destruct (IH _ _ E) as (pre & e2 & -> & _ & Ee & Hr2 & H55). exists (x :: pre), (e1 ++ e2).
      split_and!; try done; [by rewrite Ee, app_assoc|by rewrite elem_of_app; intros [?|?]|intros ?; right; auto].
    + intros [= <- <-]. exists [x], e1. by split_and!.
Qed.

(** The bytes of a script. *)
Definition received (l : list (option Z)) : list Z := omap id l.

Lemma read_version_spec l ev n mc r u :
  read_version l ev n mc = Back r u -> Z.even mc = true ->
  events u = ev /\
  ((r = 1 /\ exists ver, l = ver ++ Some 0x7E :: reads u /\ Some 0x7E ∉ ver /\ n + zlen (received ver) < Z.max VERSION_LEN (n + 1)) \/
   (Z.even r = true /\ exists pre, l = pre ++ reads u)).
Proof.
  revert n mc. induction l as [|x l IH]; intros n mc; [done|]. cbn [read_version]. destruct x as [b|].
  - destruct (Z.eqb_spec b 0x7E) as [->|Hb].
    { intros [= <- <-] _. split; [done|]. left. split; [done|]. exists []. cbn. split_and!; [done|by apply not_elem_of_nil|lia]. }
    destruct (Z.leb_spec VERSION_LEN (n + 1)); [intros [= <- <-] ?; split; [done|]; right; split; [done|by exists [Some b]]|].
    destruct (mc <? FDL_CP_UART_TIMEOUT); [|intros [= <- <-] ?; split; [done|]; right; split; [done|by exists [Some b]]].
    intros E He. destruct (IH _ _ E He) as [Hev [(-> & ver & -> & Hv & Hn)|(Hr & pre & ->)]]; (split; [done|]).
    + left. split; [done|]. exists (Some b :: ver). split_and!; [done|rewrite not_elem_of_cons; split; congruence|].
      change (received (Some b :: ver)) with (b :: received ver). cbn [length]. unfold VERSION_LEN in *. lia.
    + right. split; [done|]. by exists (Some b :: pre).
  - destruct (mc + 2 <? FDL_CP_UART_TIMEOUT).
    2:{ intros [= <- <-] He. split; [done|]. right. split; [by rewrite Z.even_add, He|by exists [None]]. }
    intros E He. destruct (IH _ _ E) as [Hev [(-> & ver & -> & Hv & Hn)|(Hr & pre & ->)]]; [by rewrite Z.even_add, He|..]; (split; [done|]).
    + left. split; [done|]. exists (None :: ver). split_and!; [done|rewrite not_elem_of_cons; split; congruence|done].
    + right. split; [done|]. by exists (None :: pre).
Qed.

(** What a turn of the loop consumes and does. *)
Definition version_frame (l : list (option Z)) (pre ver rest : list (option Z)) : Prop :=
  l = pre ++ Some 0x7E :: ver ++ Some 0x7E :: rest /\ Some 0x7E ∉ ver /\ zlen (received ver) <= 62.

Definition turn_post (bs mc : Z) (u : uart) (r : option Z) (u' : uart) : Prop :=
  exists pre ev, events u' = events u ++ ev /\ (bs <> 0 -> Reset ∉ ev) /\
  match r with
  | None => exists ver, version_frame (reads u) pre ver (reads u') /\ (bs = 0 -> FDL_CP_UART_TIMEOUT <= mc -> Some 0x55 ∈ pre)
  | Some mc' => Z.even mc' = true /\ reads u = pre ++ reads u' /\ pre <> [] /\
      (bs = 0 -> FDL_CP_UART_TIMEOUT <= mc -> Some 0x55 ∈ pre \/ FDL_CP_UART_TIMEOUT <= mc')
  end.

(** The part of a turn after the wait, with the bytes [pre] and the events
    [ev] of the wait. *)
Lemma answer_spec mc u r u' :
  match reads (emit (HandShake 1) u) with
  | [] => Waits (emit (HandShake 1) u)
  | x :: l =>
    match
      match x with
      | None => Back mc (mkUart l (events (emit (HandShake 1) u)))
      | Some b =>
        if b =? 0x7E then read_version l (events (emit (HandShake 1) u)) 1 0
        else if b =? 0x55 then Back (mc + 40 + 2) (emit (HandShake 3) (mkUart l (events (emit (HandShake 1) u))))
        else Back (mc + 2) (mkUart l (events (emit (HandShake 1) u)))
      end
    with
    | Waits u => Waits u
    | Back mc u => if mc =? 1 then Back None u else Back (Some (mc + 2)) u
    end
  end = Back r u' -> Z.even mc = true -> turn_post 1 mc u r u'.
Proof.
  unfold turn_post. cbn [reads events emit]. destruct (reads u) as [|x l]; [done|].
  assert (Hodd : forall z, Z.even z = true -> (z =? 1) = false) by (intros z Hz; apply Z.eqb_neq; intros ->; done).
  assert (H2 : forall z, Z.even z = true -> Z.even (z + 2) = true) by (intros z Hz; by rewrite Z.even_add, Hz).
  destruct x as [b|].
  - destruct (Z.eqb_spec b 0x7E) as [->|Hb].
    + destruct (read_version l _ 1 0) as [rv uv|] eqn:Ev; [|done]. destruct (read_version_spec _ _ _ _ _ _ Ev eq_refl) as [Hev Hc].
      intros E Hm. destruct Hc as [(-> & ver & -> & Hv & Hn)|(Hr & pre & ->)].
      * injection E as <- <-. exists [], [HandShake 1]. split_and!; [done|intros _; compute_done|]. exists ver.
        split; [|done]. split_and!; [done|done|unfold VERSION_LEN in Hn; lia].
      * rewrite (Hodd _ Hr) in E. injection E as <- <-. exists (Some 0x7E :: pre), [HandShake 1].
        split_and!; [done|intros _; compute_done|by apply H2|done|done|done].
    + destruct (b =? 0x55); intros E Hm.
      * assert (He : Z.even (mc + 40 + 2) = true) by (apply H2; by rewrite Z.even_add, Hm).
        rewrite (Hodd _ He) in E. injection E as <- <-. exists [Some b], [HandShake 1; HandShake 3].
        cbn [events emit reads]. split_and!; [by rewrite <- app_assoc|intros _; compute_done|by apply H2|done|done|done].
      * rewrite (Hodd _ (H2 _ Hm)) in E. injection E as <- <-. exists [Some b], [HandShake 1].
        split_and!; [done|intros _; compute_done|by apply H2, H2|done|done|done].
  - intros E Hm. rewrite (Hodd _ Hm) in E. injection E as <- <-. exists [None], [HandShake 1].
    split_and!; [done|intros _; compute_done|by apply H2|done|done|done].
Qed.

Lemma connect_turn_spec bs mc u r u' : connect_turn bs mc u = Back r u' -> Z.even mc = true -> turn_post bs mc u r u'.
Proof.
  intros E Hm. unfold connect_turn in E. destruct (_ && _) eqn:Er.
  - apply andb_true_iff in Er as [Er%Z.leb_le ->%Z.eqb_eq].
    destruct (wait_55 _ _ 0) as [[|] u1|] eqn:Ew; [| |done]; destruct (wait_55_spec _ _ _ _ _ Ew) as (pre & ev & Hl & Hne & He & Hr & H55); cbn [emit reads events] in Hl, He.
    + destruct (answer_spec 0 u1 r u' E eq_refl) as (pre2 & ev2 & He2 & Hr2 & Hc). exists (pre ++ pre2), (Reset :: ev ++ ev2).
      split; [rewrite He2, He; by rewrite <- !app_assoc|]. split; [done|]. destruct r as [mc'|].
      * destruct Hc as (Hmc & Hl2 & Hne2 & _). split_and!; [done|by rewrite Hl, Hl2, app_assoc|by destruct pre|].
        intros _ _. left. apply elem_of_app. left. auto.
      * destruct Hc as (ver & (Hl2 & Hv & Hn) & _). exists ver. split; [split_and!; [by rewrite Hl, Hl2, app_assoc|done|done]|].
        intros _ _. apply elem_of_app. left. auto.
    + injection E as <- <-. exists pre, (Reset :: ev). split; [by rewrite He, <- app_assoc|]. split; [done|]. split_and!; [done|done|done|].
      intros _ ?. by right.
  - destruct (answer_spec mc u r u' E Hm) as (pre2 & ev2 & He2 & Hr2 & Hc). exists pre2, ev2.
    assert (Hno : bs = 0 -> ~ FDL_CP_UART_TIMEOUT <= mc).
    { intros -> Hle. rewrite (proj2 (Z.leb_le _ _) Hle) in Er. done. }
    split; [done|]. split; [intros _; by apply Hr2|]. destruct r as [mc'|].
    + destruct Hc as (Hmc & Hl2 & Hne2 & _). split_and!; try done. intros H0 H1. by destruct (Hno H0).
    + destruct Hc as (ver & Hv & _). exists ver. split; [done|]. intros H0 H1. by destruct (Hno H0).
Qed.

(** [try_to_connect_modem] returns only after the modem sent a version
    string: two bytes 0x7E with at most 62 bytes between them, none of them
    0x7E, and nothing read behind them.  At the first boot stage a byte 0x55
    came before; at the second stage the modem is never reset. *)
Lemma connect_after_version bs u u' :
  try_to_connect_modem bs u = Back tt u' ->
  exists pre ver ev, version_frame (reads u) pre ver (reads u') /\ events u' = events u ++ ev /\
    (bs = 0 -> Some 0x55 ∈ pre) /\ (bs <> 0 -> Reset ∉ ev).
Proof.
  unfold try_to_connect_modem. generalize (S (length (reads u))) as fuel. intros fuel.
  assert (G : forall fuel mc u, connect_loop fuel bs mc u = Back tt u' -> Z.even mc = true ->
    exists pre ver ev, version_frame (reads u) pre ver (reads u') /\ events u' = events u ++ ev /\
      (bs = 0 -> FDL_CP_UART_TIMEOUT <= mc -> Some 0x55 ∈ pre) /\ (bs <> 0 -> Reset ∉ ev)).
  { clear. intros fuel. induction fuel as [|k IH]; intros mc u; [done|]. cbn [connect_loop].
    destruct (connect_turn bs mc u) as [[mc'|] u1|] eqn:Et; [| |done]; intros E Hm;
      destruct (connect_turn_spec _ _ _ _ _ Et Hm) as (pre & ev & He & Hr & Hc).
    - destruct Hc as (Hm' & Hl & _ & H55). destruct (IH _ _ E Hm') as (pre2 & ver & ev2 & (Hl2 & Hv & Hn) & He2 & H55' & Hr2).
      exists (pre ++ pre2), ver, (ev ++ ev2). split_and!.
      + split_and!; [by rewrite Hl, Hl2, app_assoc|done|done].
      + by rewrite He2, He, app_assoc.
      + intros H0 H1. apply elem_of_app. destruct (H55 H0 H1); [by left|right; auto].
      + intros H0. rewrite elem_of_app. intros [?|?]; [by apply Hr|by apply Hr2].
    - injection E as <-. destruct Hc as (ver & Hv & H55). by exists pre, ver, ev. }
  intros E. destruct (G fuel FDL_CP_UART_TIMEOUT u E eq_refl) as (pre & ver & ev & H1 & H2 & H3 & H4).
  exists pre, ver, ev. split_and!; auto. intros H0. apply H3; [done|]. unfold FDL_CP_UART_TIMEOUT. lia.
Qed.

Lemma wait_55_finds k l ev i :
  i + Z.of_nat k + 1 < MAX_POLL -> exists ev', wait_55 (replicate k None ++ Some 0x55 :: l) ev i = Back true (mkUart l ev').
Proof.
  revert ev i. induction k as [|k IH]; intros ev i Hi.
  - cbn [replicate app wait_55]. change (0x55 =? 0x55) with true. cbv iota. rewrite (proj2 (Z.leb_gt _ _)) by lia. by eexists.
  - cbn [replicate app wait_55]. rewrite (proj2 (Z.ltb_lt _ _)) by lia. apply IH. lia.
Qed.

Lemma read_version_finds ver l ev n :
  0x7E ∉ ver -> n + zlen ver < VERSION_LEN -> read_version (map Some ver ++ Some 0x7E :: l) ev n 0 = Back 1 (mkUart l ev).
Proof.
  revert n. induction ver as [|b ver IH]; intros n Hv Hn; [done|]. cbn [map app read_version].
  apply not_elem_of_cons in Hv as [Hb Hv]. rewrite (proj2 (Z.eqb_neq b 0x7E)) by congruence. cbn [length] in Hn.
  rewrite (proj2 (Z.leb_gt _ _)) by lia. change (0 <? FDL_CP_UART_TIMEOUT) with true. apply IH; [done|lia].
Qed.

(** A modem that reports 0x55 within two million polls and then sends its
    version string is connected, whatever follows. *)
Lemma connect_completes k ver rest ev :
  Z.of_nat k + 1 < MAX_POLL -> 0x7E ∉ ver -> zlen ver <= 62 ->
  exists ev', try_to_connect_modem 0 (mkUart (replicate k None ++ Some 0x55 :: Some 0x7E :: map Some ver ++ Some 0x7E :: rest) ev) =
    Back tt (mkUart rest ev').
Proof.
  intros Hk Hv Hn. unfold try_to_connect_modem. cbn [connect_loop]. unfold connect_turn.
  change ((FDL_CP_UART_TIMEOUT <=? FDL_CP_UART_TIMEOUT) && (0 =? 0)) with true. cbn [emit reads events].
  destruct (wait_55_finds k (Some 0x7E :: map Some ver ++ Some 0x7E :: rest) (ev ++ [Reset]) 0) as [ev1 ->]; [lia|].
  cbn [emit reads events]. change (0x7E =? 0x7E) with true. cbv iota.
  rewrite read_version_finds by (done || unfold VERSION_LEN; lia). by eexists.
Qed.

(** ** Examples *)
Definition demo_reads : list (option Z) := [None; Some 0x55; None; Some 0x7E; Some 0x53; None; Some 0x50; Some 0x7E; Some 1].

Lemma connect_after_version_witness :
  exists u' pre ver ev, try_to_connect_modem 0 (mkUart demo_reads []) = Back tt u' /\ version_frame demo_reads pre ver (reads u') /\
    events u' = [] ++ ev /\ Some 0x55 ∈ pre.
Proof.
  assert (E : exists u', try_to_connect_modem 0 (mkUart demo_reads []) = Back tt u') by (eexists; vm_compute; reflexivity).
  destruct E as [u' E]. destruct (connect_after_version 0 (mkUart demo_reads []) u' E) as (pre & ver & ev & H1 & H2 & H3 & _).
  exists u', pre, ver, ev. split_and!; [exact E|exact H1|exact H2|by apply H3].
Defined.

Definition demo_info : list info_line :=
  [ Note (chars " modem images");
    Image (chars "/dev/ttyS1") (chars " ") (chars "/dev/ttyS1") (chars " ") (chars "0") (chars " ") (chars "0") 0 0;
    Image (chars "/a") (chars "  ") (chars "/b") (chars " ") (chars "8") (chars " ") (chars "0x400") 8 0x400 ].

Lemma demo_info_ok : Forall info_ok demo_info.
Proof.
  repeat (apply Forall_cons_2; [split; [cbn; unfold LINE_LEN; lia|split; [by apply (bool_decide_unpack _); vm_compute|split; [by apply (bool_decide_unpack _); vm_compute|]]]|]);
    [done| | |constructor]; cbn [chars]; split_and!; try (split; [done|by repeat constructor]); try (cbn; unfold PATH_LEN; lia); try done.
  - by apply (is_hex_intro [0] (chars "0") (chars "0")); [|left|..].
  - by apply (is_hex_intro [0] (chars "0") (chars "0")); [|left|..].
  - by apply (is_hex_intro [8] (chars "8") (chars "8")); [|left|..].
  - apply (is_hex_intro [4; 0; 0] (chars "400") (chars "0x400")); [done|right; by exists "x"%char|done|done|lia].
Qed.

Lemma images_info_reads_witness :
  get_modem_images_info (Some (info_file demo_info)) demo_files (mkConf [] 0 "" 180000) =
    Some (1, mkConf (mkImage (Some "/b") "/b" 8 0x400 :: replicate max_item null_image) 1 "/dev/ttyS1" 180000).
Proof.
  pose proof (images_info_reads demo_info demo_files (mkConf [] 0 "" 180000) demo_info_ok) as S.
  destruct S as [E _]. rewrite E. vm_compute. reflexivity.
Defined.
