(* ===== verification/Modemd.v ===== *)
(** * The modem daemon of the newer chips (apps/modemd/modemd.c, modemd_sipc.c)

    One daemon looks after the TD and the W modem: it starts the services that
    use a modem once the modem answers AT commands, watches each modem with
    two threads, tells its clients when a modem fails, and reloads the modem.

    - [findInBuf], the dialogue of [start_service] and the service lists;
    - [load_sipc_image], the copy of an image into the memory of the modem;
    - the table of clients;
    - the threads [detect_sipc_modem] and [detect_modem_blocked] of one modem as
      a step relation: one step per critical section of the state mutex and
      per phase of [load_sipc_modem_img].

    Properties ([property_get]) and the results of system calls are arguments;
    the seeks to offset 0 succeed.  A report on the socket of a modem is taken
    to name that modem.  A [start_service] that ends the process ends the run:
    no step follows it.
    The hypervisor variant modemd_vlx.c is not modelled. *)
From S2P Require Import Prelude.

Definition TD_MODEM : Z := 0x3434.
Definition W_MODEM : Z := 0x5656.
Definition MAX_CLIENT_NUM : nat := 10.

(** ** Searching a buffer *)

(** [needle] without its final NUL; [pos] is [needleMatchedPos]. *)
Fixpoint find_loop (buf needle : list Z) (pos : nat) : bool :=
  match buf with
  | [] => false
  | b :: r =>
    if nth pos needle 0 =? b then
      if (S pos =? length needle)%nat then true else find_loop r needle (S pos)
    else find_loop r needle 0
  end.
Definition findInBuf (buf : list Z) (len : nat) (needle : list Z) : bool :=
  match needle with [] => true | _ => find_loop (take len buf) needle 0 end.

(** ** Services *)
Inductive action := SetProp (name value : string) | System (command : string).

Definition stop_engservice (modem : Z) : list action :=
  if modem =? W_MODEM then [SetProp "ctl.stop" "engservicew"; SetProp "ctl.stop" "engmodemclientw"; SetProp "ctl.stop" "engpcclientw"]
  else [SetProp "ctl.stop" "engservicet"; SetProp "ctl.stop" "engmodemclientt"; SetProp "ctl.stop" "engpcclientt"].
Definition start_engservice (modem : Z) : list action :=
  if modem =? W_MODEM then [SetProp "ctl.start" "engservicew"; SetProp "ctl.start" "engmodemclientw"; SetProp "ctl.start" "engpcclientw"]
  else [SetProp "ctl.start" "engservicet"; SetProp "ctl.start" "engmodemclientt"; SetProp "ctl.start" "engpcclientt"].
Definition stop_phser (modem : Z) : list action :=
  [SetProp "ctl.stop" (if modem =? W_MODEM then "phoneserver_w" else "phoneserver_t")].
Definition start_phser (modem : Z) : list action :=
  [SetProp "ctl.start" (if modem =? W_MODEM then "phoneserver_w" else "phoneserver_t")].

(** [phoneCount] is the number of SIM cards the properties give. *)
Definition rild (ctl : string) (modem : Z) (phoneCount : string) : list action :=
  if modem =? TD_MODEM then
    if String.eqb phoneCount "2" then [SetProp ctl "tril-daemon"; SetProp ctl "tril-daemon1"] else [SetProp ctl "tril-daemon"]
  else if modem =? W_MODEM then
    if String.eqb phoneCount "2" then [SetProp ctl "wril-daemon"; SetProp ctl "wril-daemon1"] else [SetProp ctl "wril-daemon"]
  else [].
Definition stop_rild : Z -> string -> list action := rild "ctl.stop".
Definition start_rild : Z -> string -> list action := rild "ctl.start".

(** [pid]: what [get_task_pid] finds for the telephone application, as text. *)
Definition stop_service (modem : Z) (phoneCount : string) (pid : option string) : list action :=
  stop_engservice modem ++ stop_phser modem ++ stop_rild modem phoneCount ++
  match pid with Some p => [SetProp "sys.phone.app" p] | None => [] end ++
  (if modem =? TD_MODEM then [SetProp "ctl.start" "kill_td_phone"]
   else if modem =? W_MODEM then [SetProp "ctl.start" "kill_w_phone"] else []).

(** ** The dialogue with the modem *)
Definition OK : list Z := [79; 75].
Definition ERROR : list Z := [69; 82; 82; 79; 82].
Definition ascii_bytes (s : string) : list Z := (fun c => Z.of_N (Ascii.N_of_ascii c)) <$> String.list_ascii_of_string s.
Definition at_swap (phoneCount : string) : list Z :=
  if String.eqb phoneCount "2" then ascii_bytes "AT+SMMSWAP=0" ++ [13]
  else if String.eqb phoneCount "3" then ascii_bytes "AT+SMMSWAP=1" ++ [13]
  else ascii_bytes "AT" ++ [13].
Definition at_mux : list Z := ascii_bytes "AT+CMUX=0" ++ [13].
Definition AT_BUF : nat := 50.

(** What the device does: the reads to come, each the bytes it delivers, []
    for a result of 0 or less; whether each write is complete; and what was
    written. *)
Record tty := mkTty { tty_reads : list (list Z); tty_writes : list bool; written : list (list Z) }.
Inductive dialogue := DOk (t : tty) (count : Z) (buffer : list Z) | DExit (t : tty) | DWaits (t : tty) | DFuel.

(** A write; a script that is used up writes completely. *)
Definition tty_write (s : list Z) (t : tty) : bool * tty :=
  match tty_writes t with
  | [] => (true, mkTty (tty_reads t) [] (written t ++ [s]))
  | ok :: r => (ok, mkTty (tty_reads t) r (written t ++ [s]))
  end.

(** The loop [while(1)] of [start_service]: [p] bytes of the buffer are used. *)
Fixpoint at_loop (fuel : nat) (at_str : list Z) (t : tty) (buffer : list Z) (p : nat) (count : Z) : dialogue :=
  match fuel with
  | O => DFuel
  | S k =>
    let room := (AT_BUF - p)%nat in
    let resend t :=
      let '(ok, t) := tty_write at_str t in
      if negb ok then DExit t
      else if 5 <? count + 1 then DExit t else at_loop k at_str t buffer p (count + 1) in
    if (room =? 0)%nat then resend t
    else
      match tty_reads t with
      | [] => DWaits t
      | r :: rest =>
        let rest := match drop room r with [] => rest | more => more :: rest end in
        let t := mkTty rest (tty_writes t) (written t) in
        match take room r with
        | [] => resend t
        | d =>
          let buffer := splice buffer p d in
          if findInBuf buffer AT_BUF OK then DOk t count buffer
          else if findInBuf buffer AT_BUF ERROR then DExit t
          else if 5 <? count then DExit t
          else at_loop k at_str t buffer (p + length d) count
        end
      end
  end.

(** Every turn either fills the buffer or counts a resend. *)
Definition AT_FUEL : nat := 60.
Definition at_exchange (at_str : list Z) (t : tty) (count : Z) : dialogue :=
  let '(ok, t) := tty_write at_str t in
  if negb ok then DExit t else at_loop AT_FUEL at_str t (replicate AT_BUF 0) 0 count.

Inductive started := Started (acts : list action) (dev : option tty) | Failed | Exited (t : tty) | Hangs (t : tty).

(** The commands for the hypervisor's multiplexer. *)
Definition mux_swap (phoneCount : string) : list action :=
  if String.eqb phoneCount "2" then [System "echo 1 > /proc/mux_mode"]
  else if String.eqb phoneCount "3" then [System "echo 2 > /proc/mux_mode"] else [].
(** What follows once the modem is ready. *)
Definition start_all (modem : Z) (restart : bool) (phoneCount : string) : list action :=
  start_phser modem ++ start_engservice modem ++ start_rild modem phoneCount ++
  (if restart then [SetProp "ctl.restart" "media"] else []).

(** [start_service]; [dev] is the device of the modem, [None] when it cannot be
    opened.  Under the hypervisor ([is_vlx]) nothing is exchanged, and a device
    that cannot be opened is only logged.  The counter of resends is not reset
    between the two commands. *)
Definition start_service (modem : Z) (is_vlx restart : bool) (phoneCount : string) (dev : option tty) : started :=
  if is_vlx then Started (mux_swap phoneCount ++ start_all modem restart phoneCount) dev
  else
    match dev with
    | None => Failed
    | Some t =>
      match at_exchange (at_swap phoneCount) t 0 with
      | DOk t count _ =>
        match at_exchange at_mux t count with
        | DOk t _ _ => Started (start_all modem restart phoneCount) (Some t)
        | DExit t => Exited t
        | DWaits t => Hangs t
        | DFuel => Hangs t
        end
      | DExit t => Exited t
      | DWaits t => Hangs t
      | DFuel => Hangs t
      end
    end.

(** ** Loading an image *)
Definition LOAD_BUF : nat := Z.to_nat 8192.

(** [rd] and [wr] are the results of [read] and [write] at a position for a
    number of bytes.  The result is the return value and the bank. *)
Fixpoint load_loop (fuel : nat) (rd wr : nat -> nat -> Z) (file bank : list Z) (pos size : nat) : option (Z * list Z) :=
  match fuel with
  | O => None
  | S k =>
    if (size =? 0)%nat then Some (0, bank)
    else
      let rsize := Nat.min size LOAD_BUF in
      if negb (rd pos rsize =? Z.of_nat rsize) then Some (-1, bank)
      else
        let d := take rsize (drop pos file) in
        let w := wr pos rsize in
        let bank := splice bank pos (take (Z.to_nat w) d) in
        if negb (w =? Z.of_nat rsize) then Some (-1, bank)
        else load_loop k rd wr file bank (pos + rsize) (size - rsize)
  end.
(** Both files are opened at their start; [None] when one cannot be. *)
Definition load_sipc_image (rd wr : nat -> nat -> Z) (fin fout : option (list Z)) (size : nat) : option (Z * option (list Z)) :=
  match fin, fout with
  | Some file, Some bank => '(r, b) ← load_loop (S size) rd wr file bank 0 size; Some (r, Some b)
  | _, _ => Some (-1, fout)
  end.

(** ** Clients *)

(** [accept]: the first free slot, or the last one. *)
Fixpoint fill_client (i : nat) (client_fd : list Z) (n : Z) : list Z :=
  match client_fd with
  | [] => []
  | c :: r =>
    if c =? -1 then n :: r
    else if (i =? MAX_CLIENT_NUM - 1)%nat then n :: r
    else c :: fill_client (S i) r n
  end.
Definition accept_fill (client_fd : list Z) (n : Z) : list Z := fill_client 0 client_fd n.

(** [loop_info_sockclients]; [sent fd] is whether the write succeeds.  The new
    table and the clients that were written to. *)
Definition loop_info_sockclients (sent : Z -> bool) (client_fd : list Z) : list Z * list Z :=
  ((fun c => if (0 <=? c) && negb (sent c) then -1 else c) <$> client_fd,
   filter (fun c => 0 <= c) client_fd).

(** ** The two threads of a modem *)
Inductive mstate := MODEM_READY | MODEM_ASSERT | MODEM_RESET.
#[export] Instance mstate_eq_dec : EqDecision mstate.
Proof. solve_decision. Defined.

(** Where [load_sipc_modem_img] is: before it stops the modem, before each of
    the two images, before it stops the services, before it starts the modem,
    before it tells the clients, before it starts the services, before it
    declares the modem ready. *)
Inductive load_phase := LStop | LModem | LDsp | LStopSvc | LStart | LAlive | LStartSvc | LReady.
Definition next_phase (p : load_phase) : option load_phase :=
  match p with
  | LStop => Some LModem | LModem => Some LDsp | LDsp => Some LStopSvc | LStopSvc => Some LStart
  | LStart => Some LAlive | LAlive => Some LStartSvc | LStartSvc => Some LReady | LReady => None
  end.

(** [detect_sipc_modem]: in [select] with its flag [is_assert], before it
    tells the clients of a failure, or loading the modem for a failure that the
    clients know of or not.
    [detect_modem_blocked] also waits for the condition variable. *)
Inductive thread := Reading (is_assert : bool) | Informing | Loading (is_assert : bool) (p : load_phase) | CondWait (is_assert : bool).

Inductive message := Failure | Alive.
(** The shared state of one modem, and what the clients were told. *)
Record modem := mkModem { st : mstate; sipc : thread; blocked : thread; told : list message }.

(** A thread that loads: the state it leaves, the thread and the messages.
    [None] at the last phase, which is [load_done]. *)
Definition load_step (a : bool) (p : load_phase) : option (thread * list message) :=
  q ← next_phase p;
  Some (Loading a q, match p with LAlive => if a then [Alive] else [] | _ => [] end).
Definition wake (t : thread) : thread := match t with CondWait a => Reading a | _ => t end.

Inductive modem_step : modem -> modem -> Prop :=
(* detect_sipc_modem *)
| sipc_reset s a b m :
    modem_step (mkModem s (Reading a) b m) (mkModem MODEM_RESET (Loading a LStop) b m)
| sipc_assert s a b m :
    modem_step (mkModem s (Reading a) b m) (mkModem MODEM_ASSERT Informing b m)
| sipc_inform s b m (is_reset : bool) :
    modem_step (mkModem s Informing b m)
      (mkModem s (if is_reset then Loading true LStop else Reading true) b (m ++ [Failure]))
| sipc_load s a p t b m ms :
    load_step a p = Some (t, ms) -> modem_step (mkModem s (Loading a p) b m) (mkModem s t b (m ++ ms))
| sipc_ready s a b m :
    modem_step (mkModem s (Loading a LReady) b m) (mkModem MODEM_READY (Reading false) (wake b) m)
(* detect_modem_blocked *)
| blocked_skip s t a m :
    s <> MODEM_READY -> modem_step (mkModem s t (Reading a) m) (mkModem s t (Reading a) m)
| blocked_take t a m :
    modem_step (mkModem MODEM_READY t (Reading a) m) (mkModem MODEM_ASSERT t Informing m)
| blocked_inform s t m (is_reset : bool) :
    modem_step (mkModem s t Informing m)
      (mkModem s t (if is_reset then Loading true LStop else Reading true) (m ++ [Failure]))
| blocked_load s t a p b m ms :
    load_step a p = Some (b, ms) -> modem_step (mkModem s t (Loading a p) m) (mkModem s t b (m ++ ms))
| blocked_ready s t a m :
    modem_step (mkModem s t (Loading a LReady) m) (mkModem MODEM_READY t (Reading false) m)
| blocked_lost s t a m :
    s <> MODEM_READY -> modem_step (mkModem s t (Reading a) m) (mkModem s t (CondWait a) m)
| blocked_reconnect t a m :
    modem_step (mkModem MODEM_READY t (Reading a) m) (mkModem MODEM_READY t (Reading a) m)
| blocked_spurious s t a m :
    modem_step (mkModem s t (CondWait a) m) (mkModem s t (Reading a) m).

Definition modem_init : modem := mkModem MODEM_READY (Reading false) (Reading false) [].

(** ** What the search finds *)
Lemma find_loop_sound buf needle pos :
  needle <> [] -> (pos < length needle)%nat -> find_loop buf needle pos = true ->
  exists a b, take pos needle ++ buf = a ++ needle ++ b.
Proof.
  intros Hne. revert pos. induction buf as [|x buf IH]; intros pos Hp; [done|]. cbn [find_loop].
  destruct (Z.eqb_spec (nth pos needle 0) x) as [Hx|Hx].
  - assert (T : take (S pos) needle = take pos needle ++ [x]).
    { apply take_S_r. destruct (lookup_lt_is_Some_2 needle pos Hp) as [y Hy]. by rewrite (nth_lookup_Some _ _ _ _ Hy) in Hx; subst. }
    destruct (Nat.eqb_spec (S pos) (length needle)) as [E|E].
    + intros _. exists [], buf. cbn [app]. rewrite cons_middle, app_assoc, <- T. f_equal. apply take_ge. lia.
    + intros F. destruct (IH (S pos) ltac:(lia) F) as (a & b & Eq). exists a, b. rewrite <- Eq, T. by rewrite <- app_assoc.
  - intros F. destruct (IH 0%nat ltac:(lia) F) as (a & b & Eq). change (buf = a ++ needle ++ b) in Eq.
    exists (take pos needle ++ [x] ++ a), b. rewrite Eq. by rewrite <- !app_assoc.
Qed.

Lemma findInBuf_sound buf len needle :
  findInBuf buf len needle = true -> exists a b, take len buf = a ++ needle ++ b.
Proof.
  unfold findInBuf. destruct needle as [|x needle]; [intros _; by exists [], (take len buf)|].
  intros F. destruct (find_loop_sound _ (x :: needle) 0 ltac:(done) ltac:(cbn; lia) F) as (a & b & E). by exists a, b.
Qed.

(** It is not complete: after a mismatch the byte is not compared with the
    start of the needle again. *)
Lemma findInBuf_misses : findInBuf [79; 79; 75] 3 OK = false.
Proof. reflexivity. Qed.

(** A needle whose first byte occurs neither before it nor again inside it is
    found. *)
Lemma findInBuf_finds a x needle b len :
  x ∉ a -> (length a + S (length needle) <= len)%nat -> findInBuf (a ++ (x :: needle) ++ b) len (x :: needle) = true.
Proof.
  intros Ha Hl. unfold findInBuf. rewrite app_assoc, take_app_ge by (rewrite length_app; cbn; lia).
  set (c := take _ b). rewrite <- app_assoc. clearbody c. clear Hl.
  induction a as [|y a IH].
  - cbn [app]. assert (G : forall n done_, (x :: needle) = done_ ++ n -> n <> [] -> find_loop (n ++ c) (x :: needle) (length done_) = true).
    { induction n as [|z n IHn]; intros d E Hn; [done|]. cbn [app find_loop].
      assert (Hz : nth (length d) (x :: needle) 0 = z) by (rewrite E; apply nth_middle).
      rewrite Hz, Z.eqb_refl. destruct (Nat.eqb_spec (S (length d)) (length (x :: needle))) as [|Hne]; [done|].
      replace (S (length d)) with (length (d ++ [z])) by (rewrite length_app; cbn; lia). apply IHn; [by rewrite <- app_assoc|].
      intros ->. rewrite E, length_app in Hne. cbn in Hne. lia. }
    apply (G (x :: needle) []); done.
  - apply not_elem_of_cons in Ha as [Hy Ha]. cbn [app find_loop nth]. rewrite (proj2 (Z.eqb_neq x y)) by done. by apply IH.
Qed.

(** ** The dialogue *)
Lemma at_loop_ends fuel at_str t buffer p count :
  (p <= AT_BUF)%nat -> 0 <= count <= 5 -> (AT_BUF - p + Z.to_nat (6 - count) < fuel)%nat ->
  at_loop fuel at_str t buffer p count <> DFuel.
Proof.
  revert t buffer p count. induction fuel as [|k IH]; intros t buffer p count Hp Hc Hf; [lia|]. cbn [at_loop].
  assert (R : forall t, (let '(ok, t) := tty_write at_str t in
      if negb ok then DExit t else if 5 <? count + 1 then DExit t else at_loop k at_str t buffer p (count + 1)) <> DFuel).
  { intros t1. destruct (tty_write at_str t1) as [ok t2]. destruct (negb ok); [done|]. destruct (Z.ltb_spec 5 (count + 1)); [done|].
    apply IH; [done|lia|lia]. }
  destruct (Nat.eqb_spec (AT_BUF - p) 0); [apply R|]. destruct (tty_reads t) as [|r rest]; [done|].
  destruct (take (AT_BUF - p) r) as [|d0 d] eqn:Ed; [apply R|].
  assert (Hd : (length (d0 :: d) <= AT_BUF - p)%nat) by (rewrite <- Ed, length_take; lia).
  destruct (findInBuf _ _ OK); [done|]. destruct (findInBuf _ _ ERROR); [done|]. rewrite (proj2 (Z.ltb_ge 5 count)) by lia.
  cbn [length] in *. apply IH; [lia|lia|lia].
Qed.

(** What the buffer holds: the bytes [got] and zeroes behind them. *)
Definition at_buffer (got : list Z) : list Z := got ++ replicate (AT_BUF - length got) 0.

Lemma at_buffer_splice got d :
  (length got + length d <= AT_BUF)%nat -> splice (at_buffer got) (length got) d = at_buffer (got ++ d).
Proof.
  intros Hl. unfold splice, at_buffer. rewrite take_app_length, drop_app_ge by lia.
  replace (length got + length d - length got)%nat with (length d) by lia. rewrite drop_replicate, length_app, <- app_assoc. do 3 f_equal. lia.
Qed.

Lemma tty_write_reads s t : tty_reads (snd (tty_write s t)) = tty_reads t /\ written (snd (tty_write s t)) = written t ++ [s].
Proof. unfold tty_write. by destruct (tty_writes t). Qed.

(** What an exchange that succeeds has done since it started with the bytes
    [got]: the bytes [more] came in and the command was sent [k] more times. *)
Record exchanged (at_str got : list Z) (count : Z) (t t' : tty) (count' : Z) (buffer' more : list Z) (k : nat) : Prop := {
  ex_reads : concat (tty_reads t) = more ++ concat (tty_reads t');
  ex_written : written t' = written t ++ replicate k at_str;
  ex_count : count' = count + Z.of_nat k;
  ex_buffer : buffer' = at_buffer (got ++ more);
  ex_found : findInBuf buffer' AT_BUF OK = true }.

Lemma exchanged_resend at_str got count t t1 t2 t' count' buffer' more k :
  concat (tty_reads t1) = concat (tty_reads t) -> written t1 = written t -> t2 = snd (tty_write at_str t1) ->
  exchanged at_str got (count + 1) t2 t' count' buffer' more k -> exchanged at_str got count t t' count' buffer' more (S k).
Proof.
  intros H1 H2 -> [E1 E2 E3 E4 E5]. destruct (tty_write_reads at_str t1) as [W1 W2]. rewrite W1 in E1. rewrite W2 in E2.
  constructor; [by rewrite <- H1|by rewrite E2, H2, <- app_assoc|lia|done|done].
Qed.

Lemma exchanged_read at_str got count t t1 d t' count' buffer' more k :
  concat (tty_reads t) = d ++ concat (tty_reads t1) -> written t1 = written t ->
  exchanged at_str (got ++ d) count t1 t' count' buffer' more k -> exchanged at_str got count t t' count' buffer' (d ++ more) k.
Proof.
  intros H1 H2 [E1 E2 E3 E4 E5]. constructor; [by rewrite H1, E1, app_assoc|by rewrite E2, H2|done|by rewrite app_assoc|done].
Qed.

Lemma at_loop_ok fuel at_str t got count t' count' buffer' :
  (length got <= AT_BUF)%nat -> 0 <= count <= 5 ->
  at_loop fuel at_str t (at_buffer got) (length got) count = DOk t' count' buffer' ->
  count' <= 5 /\ exists more k, exchanged at_str got count t t' count' buffer' more k.
Proof.
  revert t got count. induction fuel as [|f IH]; intros t got count Hl Hc; [done|]. cbn [at_loop].
  assert (R : forall t1, concat (tty_reads t1) = concat (tty_reads t) -> written t1 = written t ->
      (let '(ok, t) := tty_write at_str t1 in
       if negb ok then DExit t else if 5 <? count + 1 then DExit t else at_loop f at_str t (at_buffer got) (length got) (count + 1)) = DOk t' count' buffer' ->
      count' <= 5 /\ exists more k, exchanged at_str got count t t' count' buffer' more k).
  { intros t1 Ht Hw. destruct (tty_write at_str t1) as [ok t2] eqn:E2. destruct (negb ok); [done|]. destruct (Z.ltb_spec 5 (count + 1)); [done|].
    intros E. destruct (IH t2 got (count + 1) Hl ltac:(lia) E) as (Hc' & more & k & Hx). split; [done|]. exists more, (S k).
    eapply exchanged_resend; [exact Ht|exact Hw|by rewrite E2|exact Hx]. }
  destruct (Nat.eqb_spec (AT_BUF - length got) 0) as [|Hroom]; [by apply R|].
  destruct (tty_reads t) as [|r rest] eqn:Er; [done|].
  set (rest' := match drop (AT_BUF - length got) r with [] => rest | _ :: _ => _ end).
  assert (Hrest : concat (r :: rest) = take (AT_BUF - length got) r ++ concat rest').
  { unfold rest'. cbn [concat]. rewrite <- (take_drop (AT_BUF - length got) r) at 1. rewrite <- app_assoc. f_equal.
    destruct (drop (AT_BUF - length got) r); done. }
  destruct (take (AT_BUF - length got) r) as [|d0 d] eqn:Ed; [apply R; cbn [tty_reads written]; [by rewrite Hrest|done]|].
  assert (Hd : (length got + length (d0 :: d) <= AT_BUF)%nat) by (rewrite <- Ed, length_take; lia). rewrite <- Er in Hrest.
  rewrite at_buffer_splice by done. destruct (findInBuf (at_buffer (got ++ d0 :: d)) AT_BUF OK) eqn:Ef.
  - intros [= <- <- <-]. split; [lia|]. exists (d0 :: d), 0%nat. constructor; [done|by rewrite app_nil_r|lia|done|done].
  - destruct (findInBuf _ _ ERROR); [done|]. destruct (Z.ltb_spec 5 count); [done|].
    rewrite <- length_app. intros E. destruct (IH _ (got ++ d0 :: d) count ltac:(rewrite length_app; lia) ltac:(lia) E) as (Hc' & more & k & Hx).
    split; [done|]. exists ((d0 :: d) ++ more), k. by eapply exchanged_read; [| |exact Hx].
Qed.

(** The zeroes of the buffer hold no letter, so the answer came from the
    device. *)
Lemma at_buffer_found got :
  findInBuf (at_buffer got) AT_BUF OK = true -> exists a b, got = a ++ OK ++ b.
Proof.
  intros F. destruct (findInBuf_sound _ _ _ F) as (a & b & E). exists a.
  assert (Ha : (S (length a) < AT_BUF)%nat) by (apply (f_equal length) in E; rewrite !length_app, length_take in E; cbn [OK length] in E; lia).
  assert (Hk : (at_buffer got) !! S (length a) = Some 75).
  { rewrite <- (lookup_take_lt _ AT_BUF) by done. rewrite E. rewrite lookup_app_r by lia. by replace (S (length a) - length a)%nat with 1%nat by lia. }
  assert (Hl : (S (length a) < length got)%nat).
  { destruct (decide (S (length a) < length got)%nat); [done|]. unfold at_buffer in Hk. rewrite lookup_app_r in Hk by lia.
    apply lookup_replicate in Hk as [Hk _]. done. }
  assert (Hlen : length (a ++ OK) = S (S (length a))) by (rewrite length_app; cbn [OK length]; lia).
  apply (f_equal (take (length (a ++ OK)))) in E. rewrite app_assoc, take_app_length, take_take, Nat.min_l in E by lia.
  exists (drop (length (a ++ OK)) got). rewrite app_assoc. rewrite <- E at 1.
  unfold at_buffer. rewrite take_app_le by lia. by rewrite take_drop.
Qed.

Lemma at_loop_waits fuel at_str t buffer p count t' :
  at_loop fuel at_str t buffer p count = DWaits t' -> tty_reads t' = [].
Proof.
  revert t buffer p count. induction fuel as [|k IH]; intros t buffer p count; [done|]. cbn [at_loop].
  assert (R : forall t, (let '(ok, t) := tty_write at_str t in
      if negb ok then DExit t else if 5 <? count + 1 then DExit t else at_loop k at_str t buffer p (count + 1)) = DWaits t' -> tty_reads t' = []).
  { intros t1. destruct (tty_write at_str t1) as [ok t2]. destruct (negb ok); [done|]. destruct (5 <? count + 1); [done|]. apply IH. }
  destruct (AT_BUF - p =? 0)%nat; [apply R|]. destruct (tty_reads t) as [|r rest] eqn:Er; [by intros [= <-]|].
  destruct (take (AT_BUF - p) r); [apply R|].
  destruct (findInBuf _ _ OK); [done|]. destruct (findInBuf _ _ ERROR); [done|]. destruct (5 <? count); [done|]. apply IH.
Qed.

Lemma at_exchange_ends at_str t count : 0 <= count <= 5 -> at_exchange at_str t count <> DFuel.
Proof.
  intros Hc. unfold at_exchange. destruct (tty_write at_str t) as [ok t1]. destruct (negb ok); [done|].
  apply at_loop_ends; unfold AT_BUF, AT_FUEL; lia.
Qed.

Lemma at_exchange_waits at_str t count t' : at_exchange at_str t count = DWaits t' -> tty_reads t' = [].
Proof. unfold at_exchange. destruct (tty_write at_str t) as [ok t1]. destruct (negb ok); [done|]. apply at_loop_waits. Qed.

(** What an exchange that succeeds has read and sent. *)
Lemma at_exchange_ok at_str t count t' count' buffer' :
  0 <= count <= 5 -> at_exchange at_str t count = DOk t' count' buffer' ->
  count' <= 5 /\ exists got k, concat (tty_reads t) = got ++ concat (tty_reads t') /\ (exists a b, got = a ++ OK ++ b) /\
    written t' = written t ++ replicate (S k) at_str /\ count' = count + Z.of_nat k.
Proof.
  intros Hc. unfold at_exchange. destruct (tty_write_reads at_str t) as [W1 W2]. destruct (tty_write at_str t) as [ok t1]. cbn [snd] in W1, W2.
  destruct (negb ok); [done|]. intros E. destruct (at_loop_ok AT_FUEL at_str t1 [] count _ _ _ ltac:(cbn; lia) Hc E) as (Hc' & more & k & [E1 E2 E3 E4 E5]).
  split; [done|]. exists more, k. rewrite <- W1, E1. split_and!; [done| |by rewrite E2, W2, <- app_assoc|done].
  apply at_buffer_found. rewrite E4 in E5. exact E5.
Qed.

(** Every service that is started is one [stop_service] stops. *)
Lemma started_stopped modem restart phoneCount pid n :
  SetProp "ctl.start" n ∈ start_all modem restart phoneCount -> SetProp "ctl.stop" n ∈ stop_service modem phoneCount pid.
Proof.
  unfold start_all, stop_service, start_phser, start_engservice, start_rild, stop_phser, stop_engservice, stop_rild, rild.
  rewrite !elem_of_app. intros [I|[I|[I|I]]].
  - right. left. apply list_elem_of_singleton in I as [= ->]. by apply list_elem_of_singleton.
  - left. destruct (modem =? W_MODEM); set_solver.
  - do 2 right. left. destruct (modem =? TD_MODEM), (modem =? W_MODEM), (String.eqb phoneCount "2"); set_solver.
  - destruct restart; [by apply list_elem_of_singleton in I|by apply not_elem_of_nil in I].
Qed.

(** C27: on a modem without hypervisor, [start_service] starts the telephone
    services only after the modem has said OK to the SIM command and again
    after the multiplexer command.  When it succeeds, the bytes the device
    delivered split into those read before the multiplexer command was sent
    and those read behind it, each with an OK in it; the SIM command was sent
    first and then the multiplexer command, seven times in all at most.  (A
    modem that answers late to a SIM command that was sent again can give
    both OKs to it: the code cannot tell.)  Under the hypervisor the services
    start without an exchange, and the device is not touched.  In both cases
    each service that is started is one that [stop_service] stops for the
    same modem and number of SIM cards. *)
Theorem start_service_answers modem is_vlx restart phoneCount dev acts dev' :
  start_service modem is_vlx restart phoneCount dev = Started acts dev' ->
  (if is_vlx then dev' = dev
   else exists t t', dev = Some t /\ dev' = Some t' /\
    (exists answer1 answer2, concat (tty_reads t) = answer1 ++ answer2 ++ concat (tty_reads t') /\
      (exists a b, answer1 = a ++ OK ++ b) /\ (exists a b, answer2 = a ++ OK ++ b)) /\
    (exists k1 k2, (1 <= k1)%nat /\ (1 <= k2)%nat /\ (k1 + k2 <= 7)%nat /\
      written t' = written t ++ replicate k1 (at_swap phoneCount) ++ replicate k2 at_mux)) /\
  (forall n pid, SetProp "ctl.start" n ∈ acts -> SetProp "ctl.stop" n ∈ stop_service modem phoneCount pid).
Proof.
  unfold start_service. destruct is_vlx.
  { intros [= <- <-]. split; [done|]. intros n pid [I|I]%elem_of_app; [|by eapply started_stopped].
    unfold mux_swap in I. destruct (String.eqb phoneCount "2"), (String.eqb phoneCount "3"); set_solver. }
  destruct dev as [t|]; [|done]. destruct (at_exchange (at_swap phoneCount) t 0) as [t1 c1 b1|t1|t1|] eqn:E1; [|done..].
  destruct (at_exchange at_mux t1 c1) as [t2 c2 b2|t2|t2|] eqn:E2; [|done..]. intros [= <- <-].
  destruct (at_exchange_ok _ _ 0 _ _ _ ltac:(lia) E1) as (Hc1 & g1 & k1 & R1 & A1 & W1 & K1).
  destruct (at_exchange_ok _ _ c1 _ _ _ ltac:(lia) E2) as (Hc2 & g2 & k2 & R2 & A2 & W2 & K2).
  split; [|intros n pid; by apply started_stopped]. exists t, t2. do 2 (split; [done|]). split.
  - exists g1, g2. by rewrite R1, R2.
  - exists (S k1), (S k2). split_and!; [lia|lia|lia|]. by rewrite W2, W1, app_assoc.
Qed.

(** The start of the services always comes to an end while the device keeps
    talking: [start_service] is left waiting only for a device that has
    delivered everything it will, whatever the bytes, the sizes of the reads
    and the results of the writes.  A full buffer counts as a missing answer,
    so a device that babbles is given up after five resends. *)
Lemma start_service_ends modem is_vlx restart phoneCount dev t' :
  start_service modem is_vlx restart phoneCount dev = Hangs t' -> tty_reads t' = [].
Proof.
  unfold start_service. destruct is_vlx; [done|]. destruct dev as [t|]; [|done]. pose proof (at_exchange_ends (at_swap phoneCount) t 0 ltac:(lia)) as N1.
  destruct (at_exchange (at_swap phoneCount) t 0) as [t1 c1 b1|t1|t1|] eqn:E1; [|done| |done].
  - destruct (at_exchange_ok _ _ 0 _ _ _ ltac:(lia) E1) as (Hc1 & g1 & k1 & R1 & A1 & W1 & K1).
    pose proof (at_exchange_ends at_mux t1 c1 ltac:(lia)) as N2.
    destruct (at_exchange at_mux t1 c1) eqn:E2; [done|done| |done]. intros [= <-]. by eapply at_exchange_waits.
  - intros [= <-]. by eapply at_exchange_waits.
Qed.

(** ** Witnesses of the dialogue *)
#[local] Abbreviation demo_tty :=
  (mkTty [ascii_bytes "A"; []; ascii_bytes "T+O"; ascii_bytes "K"; [13; 10] ++ ascii_bytes "OK"; ascii_bytes "+X"] [] []).

Lemma start_service_answers_witness :
  exists acts t', start_service W_MODEM false true "1" (Some demo_tty) = Started acts (Some t') /\ length acts = 6%nat /\
    written t' = [at_swap "1"; at_swap "1"; at_mux] /\
    exists t u, Some demo_tty = Some t /\ Some t' = Some u /\
    (exists answer1 answer2, concat (tty_reads t) = answer1 ++ answer2 ++ concat (tty_reads u) /\
      (exists a b, answer1 = a ++ OK ++ b) /\ (exists a b, answer2 = a ++ OK ++ b)) /\
    (exists k1 k2, (1 <= k1)%nat /\ (1 <= k2)%nat /\ (k1 + k2 <= 7)%nat /\
      written u = written t ++ replicate k1 (at_swap "1") ++ replicate k2 at_mux).
Proof.
  eexists _, _. split; [vm_compute; reflexivity|]. split; [reflexivity|]. split; [reflexivity|].
  refine (proj1 (start_service_answers W_MODEM false true "1" (Some demo_tty) _ _ _)). vm_compute; reflexivity.
Defined.

Lemma start_service_ends_witness :
  exists t', start_service TD_MODEM false false "2" (Some (mkTty [ascii_bytes "hello"] [] [])) = Hangs t' /\ tty_reads t' = [].
Proof.
  eexists. split; [vm_compute; reflexivity|]. refine (start_service_ends TD_MODEM false false "2" (Some (mkTty [ascii_bytes "hello"] [] [])) _ _).
  vm_compute; reflexivity.
Defined.

(** A device that echoes for ever without an answer ends the daemon. *)
Lemma start_service_babble :
  exists t', start_service TD_MODEM false false "2" (Some (mkTty (replicate 20 (ascii_bytes "0123456789")) [] [])) = Exited t' /\
    length (written t') = 7%nat.
Proof. eexists. split; vm_compute; reflexivity. Qed.

(** ** Loading *)
Section Load.
Context (rd wr : nat -> nat -> Z) (file : list Z).
(** [read] never delivers bytes the file does not have. *)
Hypothesis rd_bound : forall pos n, rd pos n <= Z.of_nat (length file - pos).

(** The loop leaves a prefix of the image in the bank, all of it when it
    returns 0. *)
Lemma load_loop_spec fuel bank pos size :
  (size < fuel)%nat -> (pos + size <= length bank)%nat ->
  exists r n, load_loop fuel rd wr file bank pos size = Some (r, splice bank pos (take n (drop pos file))) /\ (n <= size)%nat /\
    (r = -1 \/ r = 0 /\ n = size /\ (size = 0 \/ pos + size <= length file)%nat).
Proof.
  revert bank pos size. induction fuel as [|k IH]; intros bank pos size Hf Hb; [lia|]. cbn [load_loop].
  destruct (Nat.eqb_spec size 0) as [->|Hs]; [exists 0, 0%nat; rewrite take_0, splice_nil by lia; split_and!; [done|lia|auto]|].
  set (rsize := (size `min` LOAD_BUF)%nat). assert (Hr : (0 < rsize <= size)%nat) by (unfold rsize, LOAD_BUF; lia). clearbody rsize.
  destruct (Z.eqb_spec (rd pos rsize) (Z.of_nat rsize)) as [Er|Er]; cbn [negb];
    [|exists (-1), 0%nat; rewrite take_0, splice_nil by lia; split_and!; [done|lia|auto]].
  pose proof (rd_bound pos rsize) as Hrd. rewrite take_take.
  destruct (Z.eqb_spec (wr pos rsize) (Z.of_nat rsize)) as [Ew|Ew]; cbn [negb];
    [|eexists (-1), _; split_and!; [done|lia|auto]].
  rewrite Ew, Nat2Z.id, Nat.min_id. set (d := take rsize (drop pos file)).
  assert (Hd : length d = rsize) by (unfold d; rewrite length_take, length_drop; lia).
  destruct (IH (splice bank pos d) (pos + rsize)%nat (size - rsize)%nat) as (r & n & E & Hn & Hr'); [lia|rewrite splice_length; lia|].
  rewrite E. exists r, (rsize + n)%nat. split_and!; [|lia|].
  - do 2 f_equal. rewrite <- Hd at 1. rewrite splice_app by (rewrite length_take, Hd; lia).
    f_equal. unfold d. by rewrite <- drop_drop, take_take_drop.
  - destruct Hr' as [->|(-> & -> & Hz)]; [by left|right]. split_and!; [done|lia|lia].
Qed.
End Load.

(** [load_sipc_image] ends for every image size, whatever [read] and
    [write] return.  It leaves the first bytes of the image in the bank of the
    modem and nothing else; when it returns 0 these are all [size] bytes, and
    when it returns -1 some earlier number of them. *)
Lemma load_sipc_image_copies rd wr file bank size :
  (forall pos n, rd pos n <= Z.of_nat (length file - pos)) -> (size <= length bank)%nat ->
  exists r n, load_sipc_image rd wr (Some file) (Some bank) size = Some (r, Some (splice bank 0 (take n file))) /\ (n <= size)%nat /\
    (r = -1 \/ r = 0 /\ n = size /\ (size <= length file)%nat).
Proof.
  intros Hrd Hb. destruct (load_loop_spec rd wr file Hrd (S size) bank 0 size ltac:(lia) Hb) as (r & n & E & Hn & Hr).
  exists r, n. unfold load_sipc_image. rewrite E. cbn [mbind option_bind]. rewrite drop_0. split_and!; [done|done|].
  destruct Hr as [->|(-> & -> & Hz)]; [by left|right]. split_and!; [done|done|lia].
Qed.

Lemma load_sipc_image_copies_witness :
  let rd := fun pos n => Z.min (Z.of_nat n) (Z.of_nat (5 - pos)) in
  let file := [1; 2; 3; 4; 5] in let bank := [0; 0; 0; 0; 0; 0] in
  load_sipc_image rd (fun _ _ => 3) (Some file) (Some bank) 5 = Some (-1, Some [1; 2; 3; 0; 0; 0]) /\
  load_sipc_image rd (fun _ n => Z.of_nat n) (Some file) (Some bank) 5 = Some (0, Some [1; 2; 3; 4; 5; 0]) /\
  exists r n, load_sipc_image rd (fun _ n => Z.of_nat n) (Some file) (Some bank) 5 = Some (r, Some (splice bank 0 (take n file))) /\ (n <= 5)%nat /\
    (r = -1 \/ r = 0 /\ n = 5%nat /\ (5 <= length file)%nat).
Proof.
  intros rd file bank. split; [vm_compute; reflexivity|]. split; [vm_compute; reflexivity|].
  apply (load_sipc_image_copies rd (fun _ n => Z.of_nat n) file bank 5).
  - intros pos n. unfold rd, file. cbn [length]. lia.
  - cbn. lia.
Defined.

(** ** Clients *)

(** A client that connects is always in the table, and only one slot changes:
    the first free one, or the last one of a full table. *)
Lemma fill_client_spec i client_fd n :
  (i + length client_fd = MAX_CLIENT_NUM)%nat -> client_fd <> [] ->
  exists k, (k < length client_fd)%nat /\ fill_client i client_fd n = <[k := n]> client_fd /\
    (client_fd !! k = Some (-1) \/ k = (length client_fd - 1)%nat /\ -1 ∉ client_fd).
Proof.
  revert i. induction client_fd as [|c r IH]; intros i Hl Hne; [done|]. cbn [fill_client length] in *.
  destruct (Z.eqb_spec c (-1)) as [->|Hc]; [exists 0%nat; split_and!; [lia|done|by left]|].
  destruct (Nat.eqb_spec i (MAX_CLIENT_NUM - 1)) as [E|E].
  - destruct r as [|c' r]; [|cbn [length] in Hl; unfold MAX_CLIENT_NUM in *; lia].
    exists 0%nat. split_and!; [lia|done|right]. split; [done|]. by rewrite list_elem_of_singleton.
  - destruct (IH (S i)) as (k & Hk & Ef & Hd); [lia|intros ->; cbn in Hl; unfold MAX_CLIENT_NUM in *; lia|].
    exists (S k). split_and!; [lia|by rewrite Ef|]. destruct Hd as [Hd|[-> Hd]]; [by left|right].
    split; [lia|]. by apply not_elem_of_cons.
Qed.

Lemma accept_fill_stores client_fd n :
  length client_fd = MAX_CLIENT_NUM ->
  exists k, (k < MAX_CLIENT_NUM)%nat /\ accept_fill client_fd n = <[k := n]> client_fd /\
    (client_fd !! k = Some (-1) \/ k = 9%nat /\ -1 ∉ client_fd).
Proof.
  intros Hl. destruct (fill_client_spec 0 client_fd n) as (k & Hk & E & Hd); [by rewrite Hl|by intros ->|].
  rewrite Hl in *. exists k. by split_and!.
Qed.

(** A full table loses a descriptor that is still open. *)
Lemma accept_fill_leaks :
  accept_fill [10; 11; 12; 13; 14; 15; 16; 17; 18; 19] 20 = [10; 11; 12; 13; 14; 15; 16; 17; 18; 20].
Proof. reflexivity. Qed.

(** ** The threads *)
#[export] Instance message_eq_dec : EqDecision message.
Proof. solve_decision. Defined.
Definition count_msg (x : message) (m : list message) : nat := length (filter (fun y => y = x) m).

(** Whether a thread may still announce that the modem lives again. *)
Definition owes (t : thread) : nat :=
  match t with
  | Reading true | CondWait true => 1
  | Loading true (LStop | LModem | LDsp | LStopSvc | LStart | LAlive) => 1
  | _ => 0
  end.
Definition announced (x : modem) : Prop :=
  (count_msg Alive (told x) + owes (sipc x) + owes (blocked x) <= count_msg Failure (told x))%nat.

Lemma count_msg_app x m m' : count_msg x (m ++ m') = (count_msg x m + count_msg x m')%nat.
Proof. unfold count_msg. by rewrite list.filter_app, length_app. Qed.

Lemma load_step_owes a p t ms : load_step a p = Some (t, ms) -> (owes t + count_msg Alive ms = owes (Loading a p))%nat /\ count_msg Failure ms = 0%nat.
Proof. by destruct a, p; cbn; intros [= <- <-]. Qed.

Lemma owes_wake t : owes (wake t) = owes t.
Proof. by destruct t. Qed.

Lemma announced_step x y : announced x -> modem_step x y -> announced y.
Proof.
  unfold announced. intros H St. destruct St; cbn [told sipc blocked] in *; rewrite ?count_msg_app, ?owes_wake.
  all: try match goal with Hs : load_step _ _ = Some _ |- _ => apply load_step_owes in Hs as [? ?]; lia end.
  all: change (count_msg Alive [Failure]) with 0%nat; change (count_msg Failure [Failure]) with 1%nat.
  all: repeat match goal with r : bool |- _ => destruct r end; cbn [owes] in *; lia.
Qed.

(** C29: however the two threads that watch a modem interleave, the clients are
    told that the modem is alive again at most once for every failure they
    were told of: at every moment the number of these messages is bounded by
    the number of failure messages. *)
Theorem alive_after_failure x :
  reach modem_step modem_init x -> (count_msg Alive (told x) <= count_msg Failure (told x))%nat.
Proof.
  intros R. assert (I : announced x) by (eapply reach_inv; [|exact announced_step|exact R]; unfold announced; cbn; lia).
  unfold announced in I. lia.
Qed.

(** A load takes the eight phases. *)
Lemma sipc_load_all s a b m :
  reach modem_step (mkModem s (Loading a LStop) b m) (mkModem s (Loading a LReady) b (m ++ if a then [Alive] else [])).
Proof.
  do 5 (eapply reach_trans; [eapply reach_one, sipc_load; reflexivity|]; rewrite app_nil_r).
  do 2 (eapply reach_trans; [eapply reach_one, sipc_load; reflexivity|]). rewrite app_nil_r. apply reach_refl.
Qed.

Lemma alive_after_failure_witness :
  exists x, reach modem_step modem_init x /\ told x = [Failure; Alive] /\
    (count_msg Alive (told x) <= count_msg Failure (told x))%nat.
Proof.
  assert (R : reach modem_step modem_init (mkModem MODEM_READY (Reading false) (Reading false) [Failure; Alive])).
  { eapply reach_step; [|apply (sipc_ready MODEM_ASSERT true (Reading false))]. eapply reach_trans; [|apply (sipc_load_all MODEM_ASSERT true _ [Failure])].
    eapply reach_step; [|apply (sipc_inform MODEM_ASSERT _ [] true)]. apply reach_one. constructor. }
  eexists. split; [exact R|]. split; [reflexivity|]. apply (alive_after_failure _ R).
Defined.

(** The mutex does not exclude that both threads reload the modem at once, *)
Lemma double_reload :
  exists m, reach modem_step modem_init (mkModem MODEM_RESET (Loading false LStop) (Loading true LStop) m).
Proof.
  exists [Failure]. eapply reach_step; [|apply (sipc_reset MODEM_ASSERT)].
  eapply reach_step; [|apply (blocked_inform MODEM_ASSERT _ [] true)]. apply reach_one. constructor.
Qed.

(** so that the modem can be declared ready while its image is still being
    copied. *)
Lemma ready_while_loading :
  exists m, reach modem_step modem_init (mkModem MODEM_READY (Reading false) (Loading true LStop) m).
Proof.
  destruct double_reload as [m R]. exists (m ++ if false then [Alive] else []).
  eapply reach_step; [|apply (sipc_ready MODEM_RESET false (Loading true LStop))]. eapply reach_trans; [exact R|apply sipc_load_all].
Qed.
