(* ===== verification/Diag.v ===== *)
(** * The diagnostic channel (apps/engmode/vdiag.c, eng_diag.c, eng_attok.c)

    A PC sends frames that start and end with 0x7E to the telephone.  The
    thread [eng_vdiag_thread] collects a frame, lets [eng_diag] look at it, and
    either has the application processor handle it or forwards it to the modem.

    - the escapes [eng_diag_decode7d7e] and [eng_diag_encode7d7e], in place;
    - the tokens of AT commands and the decision of [eng_diag_parse];
    - [get_user_diag_buf] and one turn of the loop of the thread.

    Characters are unsigned bytes, as on the device.  The handlers that
    [eng_diag_user_handle] calls are an argument of the thread (DiagCmd.v models
    those of the product data).  Reopening a serial port that was closed is not
    modelled: a failed read leaves the state as it is. *)
From S2P Require Import Prelude.

(** ** Escapes, in place *)
Definition is_special (b : Z) : bool := (b =? 0x7d) || (b =? 0x7e).

(** The loop of [eng_diag_decode7d7e] on the [len] bytes at [off], from index
    [i].  [None]: an access outside the buffer.  The [memcpy] that moves the
    bytes behind an escape down by one has overlapping ranges, which C leaves
    undefined; it is taken to read every byte before it is overwritten, as a
    copy in ascending order (and [memmove]) does. *)
Fixpoint decode_loop (fuel : nat) (m : list Z) (off i len : Z) : option (list Z) :=
  match fuel with
  | O => Some m
  | S k =>
    if i <? len then
      b ← m !! Z.to_nat (off + i);
      if is_special b then
        c ← m !! Z.to_nat (off + i + 1);
        let m := <[Z.to_nat (off + i) := Z.lxor c 0x20]> m in
        d ← load m (off + i + 2) (len - (i + 1));
        m ← store m (off + i + 1) d;
        decode_loop k m off (i + 1) (len - 1)
      else decode_loop k m off (i + 1) len
    else Some m
  end.
Definition eng_diag_decode7d7e (m : list Z) (off len : Z) : option (list Z) := decode_loop (Z.to_nat len) m off 0 len.

(** [eng_diag_encode7d7e]; the result has the new length and [extra_len]. *)
Fixpoint encode_loop (fuel : nat) (m : list Z) (off i len extra_len : Z) : option (list Z * Z * Z) :=
  match fuel with
  | O => Some (m, len, extra_len)
  | S k =>
    if i <? len then
      b ← m !! Z.to_nat (off + i);
      if is_special b then
        d ← load m (off + i + 1) (len - (i + 1));
        m ← store m (off + i + 2) d;
        m ← store m (off + i) [0x7d; Z.lxor b 0x20];
        encode_loop k m off (i + 1) (len + 1) (extra_len + 1)
      else encode_loop k m off (i + 1) len extra_len
    else Some (m, len, extra_len)
  end.
(** Every byte is visited, and every added one. *)
Definition eng_diag_encode7d7e (m : list Z) (off len extra_len : Z) : option (list Z * Z * Z) :=
  encode_loop (2 * Z.to_nat len) m off 0 len extra_len.

(** [translate_packet] of adc_calibration.c, which frames an answer. *)
Definition escape (b : Z) : list Z :=
  if b =? 0x7E then [0x7D; 0x5E] else if b =? 0x7D then [0x7D; 0x5D] else [b].
Definition translate_packet (src : list Z) : list Z := [0x7E] ++ flat_map escape src ++ [0x7E].

(** [untranslate_packet_header]; [unpackSize] -1 is no limit. *)
Fixpoint untranslate_loop (st : Z) (flag : bool) (dest src : list Z) (unpackSize : Z) : list Z :=
  match src with
  | [] => dest
  | b :: r =>
    if st =? 0 then untranslate_loop (if b =? 0x7e then 1 else 0) flag dest r unpackSize
    else if st =? 1 then
      if b =? 0x7e then untranslate_loop 1 flag dest r unpackSize else untranslate_loop 2 flag (dest ++ [b]) r unpackSize
    else if b =? 0x7E then dest
    else
      let '(flag, dest) :=
        if (List.last dest 0 =? 0x7D) && negb flag then
          (true, if b =? 0x5E then removelast dest ++ [0x7E] else if b =? 0x5D then removelast dest ++ [0x7D] else dest)
        else (false, dest ++ [b]) in
      if (unpackSize + 1 <=? zlen dest) && negb (unpackSize =? -1) then dest else untranslate_loop 2 flag dest r unpackSize
  end.
Definition untranslate_packet_header (src : list Z) (unpackSize : Z) : list Z := untranslate_loop 0 false [] src unpackSize.

(** ** Strings in a buffer *)
Definition is_space (b : Z) : bool := (b =? 32) || ((9 <=? b) && (b <=? 13)).
Definition is_digit (b : Z) : bool := (48 <=? b) && (b <=? 57).
Definition is_upper (b : Z) : bool := (65 <=? b) && (b <=? 90).
Definition to_lower (b : Z) : Z := if is_upper b then b + 32 else b.
Definition chars (s : string) : list Z := (fun c => Z.of_N (Ascii.N_of_ascii c)) <$> String.list_ascii_of_string s.

(** [strncmp(l, lit, strlen(lit)) == 0]; [None] when [l] ends before the
    comparison does. *)
Fixpoint starts (lit l : list Z) : option bool :=
  match lit, l with
  | [], _ => Some true
  | _, [] => None
  | c :: lit, b :: l => if b =? c then starts lit l else Some false
  end.
(** The C string at the start of a memory region. *)
Fixpoint cstring (l : list Z) : option (list Z) :=
  match l with
  | [] => None
  | b :: r => if b =? 0 then Some [] else s ← cstring r; Some (b :: s)
  end.
(** [strtol(l, &end, 10)], with a [long] of 32 bits. *)
Fixpoint skip_spaces (l : list Z) : list Z :=
  match l with b :: r => if is_space b then skip_spaces r else l | [] => [] end.
Fixpoint digits_value (l : list Z) (v : Z) : Z :=
  match l with b :: r => if is_digit b then digits_value r (10 * v + (b - 48)) else v | [] => v end.
Definition strtol (l : list Z) : Z :=
  match skip_spaces l with
  | b :: r =>
    if b =? 45 then Z.max (- digits_value r 0) (- 2 ^ 31)
    else Z.min (digits_value (if b =? 43 then r else b :: r) 0) (2 ^ 31 - 1)
  | [] => 0
  end.

(** ** Tokens of an AT command: [p] is the pointer [*p_cur], [None] for NULL *)

(** [strsep] with one delimiter: the delimiter becomes NUL. *)
Definition strsep (d : Z) (m : list Z) (p : nat) : option (list Z * option nat) :=
  s ← cstring (drop p m);
  match list_find (fun b => b = d) s with
  | Some (k, _) => Some (<[(p + k)%nat := 0]> m, Some (p + k + 1)%nat)
  | None => Some (m, None)
  end.
Definition skipNextComma (m : list Z) (p : option nat) : option (option nat) :=
  match p with
  | None => Some None
  | Some p =>
    s ← cstring (drop p m);
    match list_find (fun b => b = 44) s with
    | Some (k, _) => Some (Some (p + k + 1)%nat)
    | None => Some (Some (p + length s)%nat)
    end
  end.
(** The token starts at the second component. *)
Definition nextTok (m : list Z) (p : nat) : option (list Z * nat * option nat) :=
  s ← cstring (drop p m);
  let p := (p + (length s - length (skip_spaces s)))%nat in
  b ← m !! p;
  if b =? 34 then
    '(m, q) ← strsep 34 m (S p); q ← skipNextComma m q; Some (m, S p, q)
  else '(m, q) ← strsep 44 m p; Some (m, p, q).
(** [at_tok_nextint]: the buffer, [*p_cur] and [*p_out], which keeps its value
    when there is no token. *)
Definition at_tok_nextint (m : list Z) (p : option nat) (out : Z) : option (list Z * option nat * Z) :=
  match p with
  | None => Some (m, None, out)
  | Some p =>
    '(m, t, q) ← nextTok m p; s ← cstring (drop t m); Some (m, q, strtol s)
  end.
Definition at_tok_equel_start (m : list Z) (p : nat) : option (option nat) :=
  s ← cstring (drop p m);
  Some ('(k, _) ← list_find (fun b => b = 61) s; Some (p + k + 1)%nat).

(** ** Which commands the application processor handles *)
Inductive diag_cmd :=
| CMD_COMMON | CMD_USER_VER | CMD_USER_FACTORYMODE | CMD_USER_AUDIO | CMD_USER_RESET | CMD_USER_GETVOLTAGE
| CMD_USER_APCALI | CMD_USER_APCMD | CMD_USER_ADC | CMD_USER_PRODUCT_CTRL | CMD_USER_DIRECT_PHSCHK | CMD_USER_MMICIT_READ.
#[export] Instance diag_cmd_eq_dec : EqDecision diag_cmd.
Proof. solve_decision. Defined.

(** The static variables that the decision reads and writes. *)
Record ap := mkAp {
  g_is_data : Z; cmd_type : Z; eq_or_tun_type : Z; eq_mode_sel_type : Z; g_index : Z; s_cmd_index : Z }.
Definition set_cmd_type v a := mkAp (g_is_data a) v (eq_or_tun_type a) (eq_mode_sel_type a) (g_index a) (s_cmd_index a).
Definition set_tun_type v a := mkAp (g_is_data a) (cmd_type a) v (eq_mode_sel_type a) (g_index a) (s_cmd_index a).
Definition set_mode_sel v a := mkAp (g_is_data a) (cmd_type a) (eq_or_tun_type a) v (g_index a) (s_cmd_index a).
Definition set_index v a := mkAp (g_is_data a) (cmd_type a) (eq_or_tun_type a) (eq_mode_sel_type a) v (s_cmd_index a).
Definition set_cmd_index v a := mkAp (g_is_data a) (cmd_type a) (eq_or_tun_type a) (eq_mode_sel_type a) (g_index a) v.

Definition at_sadm : list Z := chars "AT+SADM4AP".
Definition at_spenha : list Z := chars "AT+SPENHA".
Definition at_calibr : list Z := chars "AT+CALIBR".
(** The text of a command starts behind the flag and the header. *)
Definition AT_POS : nat := 9.

Section Parse.
(** [adev_get_audiomodenum4eng()]. *)
Context (modenum : Z).

(** AT+SADM4AP: commands 7 to 12, all but the first with an index. *)
Definition sadm_command (a : ap) (m : list Z) : option (bool * ap * list Z) :=
  p ← at_tok_equel_start m AT_POS;
  '(m, p, c) ← at_tok_nextint m p (cmd_type a);
  let a := set_cmd_type c a in
  if (7 <=? c) && (c <=? 12) then
    if c =? 7 then Some (true, a, m)
    else
      p ← p; s ← cstring (drop p m);
      let a := set_index (strtol s) a in
      Some (negb (modenum <=? g_index a), a, m)
  else Some (false, a, m).

(** AT+SPENHA: commands 0 to 4, all but the first with an index from 1. *)
Definition spenha_command (a : ap) (m : list Z) : option (bool * ap * list Z) :=
  p ← at_tok_equel_start m AT_POS;
  '(m, p, t) ← at_tok_nextint m p (eq_or_tun_type a);
  let a := set_tun_type t a in
  '(m, p, c) ← at_tok_nextint m p (cmd_type a);
  let a := set_cmd_type c a in
  if (0 <=? c) && (c <=? 4) then
    if c =? 0 then Some (true, a, m)
    else
      '(m, p, x) ← at_tok_nextint m p (g_index a);
      let a := set_index x a in
      if (modenum <? x) || (x <=? 0) then Some (false, a, m)
      else
        let a := set_index (x - 1) a in
        if c =? 2 then p ← p; b ← m !! p; Some (true, set_mode_sel (b - 48) a, m)
        else Some (true, a, m)
  else Some (false, a, m).

Definition is_audio_at_cmd_need_to_handle (a : ap) (m : list Z) : option (bool * ap * list Z) :=
  let ptr := drop AT_POS m in
  data ← (if g_is_data a =? 0 then Some false
          else
            is_at ← starts (chars "AT") ptr; b ← m !! AT_POS;
            Some (negb is_at && (is_digit b || is_upper b))) : option bool;
  if data : bool then Some (true, a, m)
  else
    is_sadm ← starts at_sadm ptr;
    if is_sadm : bool then sadm_command a m
    else
      is_spenha ← starts at_spenha ptr;
      if is_spenha : bool then spenha_command a m
      else
        is_calibr ← starts at_calibr ptr;
        if is_calibr : bool then
          p ← at_tok_equel_start m AT_POS;
          '(m, _, c) ← at_tok_nextint m p (cmd_type a);
          Some (true, set_cmd_type c a, m)
        else Some (false, a, m).

(** The names of the table [eng_linuxcmd]. *)
Definition eng_linuxcmd : list (list Z) := chars <$>
  ["AT+SENDKEY"; "AT+GETICH?"; "AT+ETSRESET"; "AT+RPOWERON"; "AT+GETVBAT"; "AT+STOPCHG"; "AT+TESTMMI"; "AT+BTTESTMODE";
   "AT+GETBTADDR"; "AT+SETBTADDR"; "AT+GSNR"; "AT+GSNW"; "AT+GETWIFIADDR"; "AT+SETWIFIADDR"; "AT+ETSCHECKRESET";
   "AT+SIMCHK"; "AT+FACTORYMODE"; "AT+SYSSLEEP"; "AT+CHARGERTEST"; "AT+SPBTTEST"; "AT+SPWIFITEST"; "AT+SPGPSTEST"; "+SPBTWIFICALI"].

(** [strcasestr(l, name) != NULL] on a string without its NUL. *)
Fixpoint strcasestr (l name : list Z) : bool :=
  bool_decide (take (length name) (to_lower <$> l) = to_lower <$> name) ||
  match l with [] => false | _ :: r => strcasestr r name end.
Definition eng_at2linux (l : list Z) : Z :=
  match list_find (fun name => strcasestr l name = true) eng_linuxcmd with Some (i, _) => Z.of_nat i | None => -1 end.
Definition is_ap_at_cmd_need_to_handle (a : ap) (m : list Z) : option (bool * ap) :=
  s ← cstring (drop AT_POS m);
  let i := eng_at2linux s in Some (negb (i =? -1), set_cmd_index i a).

(** [eng_diag_parse]: the command, the variables and the decoded buffer. *)
Definition eng_diag_parse (a : ap) (m : list Z) (len : Z) : option (diag_cmd * ap * list Z) :=
  m ← eng_diag_decode7d7e m 1 (len - 1);
  type ← m !! 7%nat;
  subtype ← m !! 8%nat;
  if type =? 12 then Some (if subtype =? 8 then CMD_USER_RESET else CMD_COMMON, a, m)
  else if type =? 0x0D then
    Some (if subtype =? 7 then CMD_USER_FACTORYMODE
          else if (2 <=? subtype) && (subtype <=? 4) then CMD_USER_PRODUCT_CTRL
          else if subtype =? 0x1A then CMD_USER_MMICIT_READ else CMD_COMMON, a, m)
  else if type =? 0x5F then Some (CMD_USER_DIRECT_PHSCHK, a, m)
  else if type =? 0x0F then Some (CMD_USER_ADC, a, m)
  else if type =? 0x68 then
    '(audio, a, m) ← is_audio_at_cmd_need_to_handle a m;
    if audio : bool then Some (CMD_USER_AUDIO, a, m)
    else
      '(apcmd, a) ← is_ap_at_cmd_need_to_handle a m;
      Some (if apcmd : bool then CMD_USER_APCMD else CMD_COMMON, a, m)
  else if type =? 0x1E then Some (CMD_USER_GETVOLTAGE, a, m)
  else if type =? 0x62 then Some (CMD_USER_APCALI, a, m)
  else if type =? 0 then Some (if subtype =? 2 then CMD_USER_VER else CMD_COMMON, a, m)
  else Some (CMD_COMMON, a, m).
End Parse.

(** ** Collecting a frame *)
Definition DATA_EXT_DIAG_SIZE : Z := 8192.
Record ext := mkExt { ext_data_buf : list Z; ext_buf_len : Z }.
Definition init_user_diag_buf : ext := mkExt (replicate (Z.to_nat DATA_EXT_DIAG_SIZE) 0) 0.
Definition put (b : Z) (x : ext) : ext := mkExt (<[Z.to_nat (ext_buf_len x) := b]> (ext_data_buf x)) (ext_buf_len x + 1).

Fixpoint get_user_diag_buf (buf : list Z) (x : ext) : bool * ext :=
  match buf with
  | [] => (false, x)
  | b :: r =>
    if (b =? 0x7e) && (ext_buf_len x =? 0) then get_user_diag_buf r (put b x)
    else if (0 <? ext_buf_len x) && (ext_buf_len x <? DATA_EXT_DIAG_SIZE) then
      let x := put b x in
      if b =? 0x7e then (true, x) else get_user_diag_buf r x
    else get_user_diag_buf r x
  end.

(** ** The thread *)
Inductive diag_status := ENG_DIAG_RECV_TO_AP | ENG_DIAG_RECV_TO_CP.
(** [g_ass_start]: a dump of the modem's memory was asked for. *)
Record link := mkLink { lk_ext : ext; status : diag_status; lk_ap : ap; g_ass_start : bool }.

Inductive event :=
| ToCP (d : list Z)                       (* written to the modem *)
| Handle (c : diag_cmd) (m : list Z).     (* handled here, with the decoded buffer *)

(** The loop that writes [backup_data_buf] to the modem: the chunks of the
    successive writes, whose results are [ws]; a used-up script writes all. *)
Fixpoint cp_write (ws : list Z) (d : list Z) : list (list Z) :=
  match ws with
  | [] => [d]
  | w :: ws =>
    if w <? 0 then match d with [] => [] | _ => cp_write ws d end
    else
      let n := Nat.min (Z.to_nat w) (length d) in
      take n d :: match drop n d with [] => [] | rest => cp_write ws rest end
  end.

Section Thread.
Context (modenum : Z) (user_handle : diag_cmd -> ap -> list Z -> ap).

(** One turn of the loop of [eng_vdiag_thread] with the bytes [r] that are in
    [log_data] after its reads; none when [r_cnt <= 0]. *)
Definition vdiag_turn (s : link) (r : list Z) : option (link * list event) :=
  if (length r =? 0)%nat then Some (s, [])
  else
    let forward ext st a d :=
      Some (mkLink ext st a (g_ass_start s || ((length r =? 2)%nat && (nth 1 r 0 =? 0xa))), [ToCP d]) in
    match status s with
    | ENG_DIAG_RECV_TO_CP =>
      forward (lk_ext s) (if List.last r 0 =? 0x7E then ENG_DIAG_RECV_TO_AP else ENG_DIAG_RECV_TO_CP) (lk_ap s) r
    | ENG_DIAG_RECV_TO_AP =>
      let '(found, x) := get_user_diag_buf r (lk_ext s) in
      let len := ext_buf_len x in
      if found : bool then
        '(type, a, m) ← eng_diag_parse modenum (lk_ap s) (ext_data_buf x) len;
        if decide (type = CMD_COMMON) then
          forward init_user_diag_buf ENG_DIAG_RECV_TO_AP a (take (Z.to_nat len) (ext_data_buf x))
        else
          Some (mkLink init_user_diag_buf ENG_DIAG_RECV_TO_AP (user_handle type a m) (g_ass_start s), [Handle type m])
      else if len =? 0 then forward x ENG_DIAG_RECV_TO_AP (lk_ap s) r
      else if len =? DATA_EXT_DIAG_SIZE then
        '(type, a, m) ← eng_diag_parse modenum (lk_ap s) (ext_data_buf x) len;
        if decide (type = CMD_COMMON) then
          forward init_user_diag_buf ENG_DIAG_RECV_TO_CP a (take (Z.to_nat len) m)
        else Some (mkLink (mkExt m len) ENG_DIAG_RECV_TO_AP a (g_ass_start s), [])
      else Some (mkLink x ENG_DIAG_RECV_TO_AP (lk_ap s) (g_ass_start s), [])
    end.

(** The loop on the contents of its turns. *)
Fixpoint vdiag_run (s : link) (rs : list (list Z)) : option (link * list event) :=
  match rs with
  | [] => Some (s, [])
  | r :: rs => '(s, e1) ← vdiag_turn s r; '(s, e2) ← vdiag_run s rs; Some (s, e1 ++ e2)
  end.

(** [DATA_BUF_SIZE / 2]: what one [read] asks for. *)
Definition READ_SIZE : nat := Z.to_nat (4096 * 2 / 2).
(** The results of the successive reads of the serial line ([None]: -1) as the
    contents of the turns.  A turn whose first read is full adds the result of
    a second one to [r_cnt]: its bytes, or the -1, which takes the last byte
    off.  Behind a last full read the thread is still waiting. *)
Fixpoint serial_turns (reads : list (option (list Z))) : list (list Z) :=
  match reads with
  | [] => []
  | None :: reads => [] :: serial_turns reads
  | Some d :: reads =>
    if (length d =? READ_SIZE)%nat then
      match reads with
      | [] => []
      | None :: reads => take (READ_SIZE - 1) d :: serial_turns reads
      | Some d2 :: reads => (d ++ d2) :: serial_turns reads
      end
    else d :: serial_turns reads
  end.
(** The thread on the reads of the serial line. *)
Definition vdiag_serial (s : link) (reads : list (option (list Z))) : option (link * list event) :=
  vdiag_run s (serial_turns reads).
End Thread.

(** Reads that are not full are turns of their own; behind a full one that is
    the last the frame waits, whole as it may be; and a second read that fails
    costs a byte. *)
Lemma short_reads_turns ds : Forall (fun d => (length d < READ_SIZE)%nat) ds -> serial_turns (Some <$> ds) = ds.
Proof.
  induction 1 as [|d ds Hd _ IH]; [done|]. cbn [fmap list_fmap serial_turns].
  rewrite (proj2 (Nat.eqb_neq _ _)) by lia. by rewrite IH.
Qed.
Lemma full_read_waits d : length d = READ_SIZE -> serial_turns [Some d] = [].
Proof. intros Hd. cbn [serial_turns]. by rewrite Hd, Nat.eqb_refl. Qed.
Lemma second_read_error d : length d = READ_SIZE -> serial_turns [Some d; None] = [take (READ_SIZE - 1) d].
Proof. intros Hd. cbn [serial_turns]. by rewrite Hd, Nat.eqb_refl. Qed.

Definition ap_init : ap := mkAp 0 0 0 0 0 (-1).
Definition link_init : link := mkLink init_user_diag_buf ENG_DIAG_RECV_TO_AP ap_init false.

(** ** What the escapes mean *)

(** The bytes that [eng_diag_decode7d7e] leaves; [x] is the byte behind the
    region. *)
Fixpoint unescape (l : list Z) (x : Z) : list Z :=
  match l with
  | [] => []
  | b :: r =>
    if is_special b then match r with [] => [Z.lxor x 0x20] | c :: r => Z.lxor c 0x20 :: unescape r x end
    else b :: unescape r x
  end.

Lemma lookup_at (A r : list Z) b n : n = zlen A -> (A ++ b :: r) !! Z.to_nat n = Some b.
Proof. intros ->. rewrite Nat2Z.id. by apply list_lookup_middle. Qed.

Lemma lookup_next (A : list Z) b r c n : n = zlen A + 1 -> (A ++ b :: c :: r) !! Z.to_nat n = Some c.
Proof. intros ->. rewrite (cons_middle b A), app_assoc. apply lookup_at. rewrite length_app. cbn [length]. lia. Qed.

Lemma insert_at (A r : list Z) b c n : n = zlen A -> <[Z.to_nat n := c]> (A ++ b :: r) = A ++ c :: r.
Proof. intros ->. rewrite Nat2Z.id. rewrite <- (Nat.add_0_r (length A)) at 1. by rewrite insert_app_r. Qed.

Lemma unescape_length l x : (length (unescape l x) <= length l)%nat.
Proof.
  induction l as [l IH] using list_len_ind. destruct l as [|b [|c r]]; [cbn; lia|cbn; destruct (is_special b); cbn; lia|].
  pose proof (IH r ltac:(cbn; lia)) as H1. pose proof (IH (c :: r) ltac:(cbn; lia)) as H2.
  cbn [unescape length] in *. destruct (is_special b); cbn [length]; lia.
Qed.

Lemma replicate_S_r {B} n (x : B) t : replicate (S n) x ++ t = replicate n x ++ x :: t.
Proof. rewrite replicate_S_end, <- app_assoc. done. Qed.

(** One escape: the region moves down by one byte and the byte behind it is
    doubled. *)
Lemma decode_shift A y c r x t n k :
  n = zlen A -> k = zlen r + 1 ->
  load (A ++ y :: c :: r ++ x :: t) (n + 2) k = Some (r ++ [x]) /\
  store (A ++ y :: c :: r ++ x :: t) (n + 1) (r ++ [x]) = Some ((A ++ [y]) ++ r ++ x :: x :: t).
Proof.
  intros -> ->. split.
  - replace (A ++ y :: c :: r ++ x :: t) with ((A ++ [y; c]) ++ (r ++ [x]) ++ t) by (by rewrite <- !app_assoc).
    apply load_mid; rewrite ?length_app; cbn [length]; lia.
  - replace (A ++ y :: c :: r ++ x :: t) with ((A ++ [y]) ++ (c :: r) ++ x :: t) by (by rewrite <- !app_assoc).
    rewrite (store_mid _ _ (r ++ [x])) by (rewrite ?length_app; cbn [length]; lia). by rewrite <- !app_assoc.
Qed.

Lemma decode_last A y x t n :
  n = zlen A -> load (A ++ y :: x :: t) (n + 2) 0 = Some [] /\ store (A ++ y :: x :: t) (n + 1) [] = Some (A ++ y :: x :: t).
Proof.
  intros ->. split.
  - replace (A ++ y :: x :: t) with ((A ++ [y; x]) ++ [] ++ t) by (by rewrite <- !app_assoc).
    apply load_mid; rewrite ?length_app; cbn [length]; lia.
  - replace (A ++ y :: x :: t) with ((A ++ [y]) ++ [] ++ x :: t) by (by rewrite <- !app_assoc).
    by rewrite (store_mid _ _ []) by (rewrite ?length_app; cbn [length]; lia).
Qed.

Lemma unescape_loop_spec fuel A l x t off i len :
  0 <= off -> 0 <= i -> off + i = zlen A -> len - i = zlen l -> (length l <= fuel)%nat ->
  decode_loop fuel (A ++ l ++ x :: t) off i len =
    Some (A ++ unescape l x ++ replicate (length l - length (unescape l x)) x ++ x :: t).
Proof.
  revert A l t i len. induction fuel as [|k IH]; intros A l t i len Hoff Hi HA Hl Hf.
  { destruct l; cbn [length] in Hf; [done|lia]. }
  cbn [decode_loop]. destruct l as [|b r]; cbn [length] in *.
  { rewrite (proj2 (Z.ltb_ge i len)) by lia. done. }
  rewrite (proj2 (Z.ltb_lt i len)) by lia. cbn [app]. rewrite (lookup_at A _ b (off + i)) by lia. cbn [mbind option_bind unescape].
  destruct (is_special b) eqn:Eb.
  - destruct r as [|c r]; cbn [length app] in *.
    + rewrite (lookup_next A b _ x) by lia. cbn [mbind option_bind]. rewrite insert_at by lia.
      destruct (decode_last A (Z.lxor x 0x20) x t (off + i) ltac:(lia)) as [L St]. replace (len - (i + 1)) with 0 by lia.
      rewrite L. cbn [mbind option_bind]. rewrite St. cbn [mbind option_bind]. destruct k as [|k]; cbn [decode_loop]; [done|].
      by rewrite (proj2 (Z.ltb_ge (i + 1) (len - 1))) by lia.
    + rewrite (lookup_next A b _ c) by lia. cbn [mbind option_bind]. rewrite insert_at by lia.
      destruct (decode_shift A (Z.lxor c 0x20) c r x t (off + i) (len - (i + 1)) ltac:(lia) ltac:(lia)) as [L St].
      rewrite L. cbn [mbind option_bind]. rewrite St. cbn [mbind option_bind].
      rewrite IH by (rewrite ?length_app; cbn [length]; lia). pose proof (unescape_length r x) as Hu.
      cbn [length]. replace (S (S (length r)) - S (length (unescape r x)))%nat with (S (length r - length (unescape r x))) by lia.
      rewrite <- !app_assoc. cbn [app]. by rewrite replicate_S_r.
  - rewrite (cons_middle b A), app_assoc, IH by (rewrite ?length_app; cbn [length]; lia). pose proof (unescape_length r x) as Hu.
    cbn [length]. replace (S (length r) - S (length (unescape r x)))%nat with (length r - length (unescape r x))%nat by lia.
    by rewrite <- !app_assoc.
Qed.

(** Unescaping undoes escaping; the closing flag becomes a blank. *)
Lemma unescape_escape p x : unescape (flat_map escape p ++ [0x7E]) x = p ++ [Z.lxor x 0x20].
Proof.
  induction p as [|b p IH]; [done|]. cbn [flat_map]. unfold escape at 1.
  destruct (Z.eqb_spec b 0x7E) as [->|H1]; [cbn; by rewrite IH|]. destruct (Z.eqb_spec b 0x7D) as [->|H2]; [cbn; by rewrite IH|].
  cbn [app unescape]. unfold is_special at 1. rewrite (proj2 (Z.eqb_neq b 0x7d)), (proj2 (Z.eqb_neq b 0x7e)) by done.
  cbn [orb]. by rewrite IH.
Qed.

(** ** A frame is collected however the line cuts it *)

(** The buffer while a frame is read: the bytes [pre] so far. *)
Definition collecting (pre : list Z) : ext :=
  mkExt (pre ++ replicate (Z.to_nat DATA_EXT_DIAG_SIZE - length pre) 0) (zlen pre).

Lemma put_collecting b pre : zlen pre < DATA_EXT_DIAG_SIZE -> put b (collecting pre) = collecting (pre ++ [b]).
Proof.
  intros Hl. unfold put, collecting. cbn [ext_data_buf ext_buf_len]. f_equal; [|rewrite length_app; cbn [length]; lia].
  destruct (Z.to_nat DATA_EXT_DIAG_SIZE - length pre)%nat as [|n] eqn:E; [lia|]. cbn [replicate].
  rewrite insert_at by done. rewrite length_app. cbn [length].
  replace (Z.to_nat DATA_EXT_DIAG_SIZE - (length pre + 1))%nat with n by lia. by rewrite <- app_assoc.
Qed.

Section Frame.
Context (body : list Z) (Hbody : 0x7e ∉ body) (Hlen : zlen body <= DATA_EXT_DIAG_SIZE - 3).
#[local] Abbreviation frame := (0x7e :: body ++ [0x7e]).

(** Behind the first byte a flag is the last byte. *)
Lemma frame_flag pre rest : frame = pre ++ 0x7e :: rest -> pre <> [] -> rest = [].
Proof.
  intros E Hp. destruct pre as [|b pre]; [done|]. injection E as _ E. destruct rest as [|z r _] using rev_ind; [done|].
  rewrite app_comm_cons, app_assoc in E. apply app_inj_tail in E as [E _]. exfalso. apply Hbody. rewrite E. set_solver.
Qed.

Lemma get_prefix r pre rest :
  frame = pre ++ r ++ rest -> r ++ rest <> [] ->
  get_user_diag_buf r (collecting pre) = (bool_decide (r <> [] /\ rest = []), collecting (pre ++ r)).
Proof.
  revert pre. induction r as [|b r IH]; intros pre E Hr.
  { rewrite bool_decide_eq_false_2 by tauto. by rewrite app_nil_r. }
  assert (L : zlen pre < DATA_EXT_DIAG_SIZE).
  { apply (f_equal length) in E. rewrite !length_app in E. cbn [length] in E. rewrite length_app in E. cbn [length] in E. lia. }
  cbn [get_user_diag_buf]. rewrite put_collecting by done. cbn [ext_buf_len collecting].
  assert (Next : (r ++ rest <> [] -> get_user_diag_buf r (collecting (pre ++ [b])) =
                   (bool_decide (b :: r <> [] /\ rest = []), collecting (pre ++ b :: r)))).
  { intros Hn. rewrite IH by (try done; rewrite E, <- app_assoc; done). rewrite <- app_assoc. f_equal.
    apply bool_decide_ext. split; [intros [? ?]; done|]. intros [_ ->]. split; [|done]. by rewrite app_nil_r in Hn. }
  destruct (Z.eqb_spec b 0x7e) as [->|Hb].
  - destruct pre as [|c pre]; cbn [length app].
    + cbn. apply Next. intros N. apply app_nil in N as [-> ->]. apply (f_equal length) in E. cbn in E. rewrite length_app in E. cbn in E. lia.
    + rewrite (proj2 (Z.eqb_neq _ 0)), (proj2 (Z.ltb_lt 0 _)), (proj2 (Z.ltb_lt _ DATA_EXT_DIAG_SIZE)) by (cbn [length] in *; lia).
      cbn [andb]. assert (N : r ++ rest = []) by (eapply (frame_flag (c :: pre)); [exact E|done]).
      apply app_nil in N as [-> ->]. by rewrite bool_decide_eq_true_2.
  - cbn [andb]. destruct pre as [|c pre].
    + injection E as E _. congruence.
    + rewrite (proj2 (Z.ltb_lt 0 _)), (proj2 (Z.ltb_lt _ DATA_EXT_DIAG_SIZE)) by (cbn [length] in *; lia).
      cbn [andb]. apply Next. intros N. apply app_nil in N as [-> ->]. rewrite app_nil_r in E.
      change (0x7e :: body ++ [0x7e]) with ((0x7e :: body) ++ [0x7e]) in E. apply app_inj_tail in E as [_ E]. congruence.
Qed.

Context (modenum : Z) (user_handle : diag_cmd -> ap -> list Z -> ap).
Context (a : ap) (type : diag_cmd) (a' : ap) (m : list Z).
Hypothesis Hparse : eng_diag_parse modenum a (ext_data_buf (collecting frame)) (zlen frame) = Some (type, a', m).

Lemma turn_pending g pre r rest :
  frame = pre ++ r ++ rest -> r <> [] -> rest <> [] ->
  vdiag_turn modenum user_handle (mkLink (collecting pre) ENG_DIAG_RECV_TO_AP a g) r =
    Some (mkLink (collecting (pre ++ r)) ENG_DIAG_RECV_TO_AP a g, []).
Proof.
  intros E Hr Hrest. unfold vdiag_turn. destruct r as [|b r]; [done|]. cbn [length Nat.eqb status lk_ext lk_ap].
  rewrite (get_prefix _ _ rest) by done. rewrite bool_decide_eq_false_2 by tauto. cbn [ext_buf_len collecting].
  apply (f_equal length) in E. rewrite !length_app in E. cbn [length] in E. rewrite length_app in E. cbn [length] in E.
  destruct rest as [|z rest]; [done|]. cbn [length] in E.
  rewrite (proj2 (Z.eqb_neq _ 0)), (proj2 (Z.eqb_neq _ DATA_EXT_DIAG_SIZE)) by (rewrite length_app; cbn [length]; lia). done.
Qed.

Lemma turn_last g pre r :
  frame = pre ++ r -> r <> [] ->
  vdiag_turn modenum user_handle (mkLink (collecting pre) ENG_DIAG_RECV_TO_AP a g) r =
    Some (if decide (type = CMD_COMMON) then (mkLink init_user_diag_buf ENG_DIAG_RECV_TO_AP a' g, [ToCP frame])
          else (mkLink init_user_diag_buf ENG_DIAG_RECV_TO_AP (user_handle type a' m) g, [Handle type m])).
Proof.
  intros E Hr. assert (Hlast : (length r =? 2)%nat && (nth 1 r 0 =? 0xa) = false).
  { destruct r as [|x [|y [|z r]]]; try done. cbn [length Nat.eqb andb nth].
    change (0x7e :: body ++ [0x7e]) with ((0x7e :: body) ++ [0x7e]) in E. rewrite (app_assoc pre [x] [y] : pre ++ [x; y] = _) in E.
    by apply app_inj_tail in E as [_ <-]. }
  unfold vdiag_turn. cbn [status lk_ext lk_ap g_ass_start]. rewrite Hlast, orb_false_r.
  rewrite (proj2 (Nat.eqb_neq (length r) 0)) by (by destruct r).
  rewrite (get_prefix _ _ []) by (by rewrite ?app_nil_r). rewrite bool_decide_eq_true_2 by done. rewrite <- E.
  cbn [ext_buf_len collecting]. rewrite Hparse. cbn [mbind option_bind].
  cbn [ext_data_buf collecting]. rewrite Nat2Z.id, take_app_length. by destruct (decide (type = CMD_COMMON)).
Qed.

Lemma run_idle s rs : concat rs = [] -> vdiag_run modenum user_handle s rs = Some (s, []).
Proof.
  induction rs as [|r rs IH]; [done|]. cbn [concat]. intros E. apply app_nil in E as [-> E]. cbn [vdiag_run].
  change (vdiag_turn modenum user_handle s []) with (Some (s, @nil event)). cbn [mbind option_bind]. by rewrite IH.
Qed.

Lemma run_frame g rs pre :
  pre ++ concat rs = frame -> concat rs <> [] ->
  vdiag_run modenum user_handle (mkLink (collecting pre) ENG_DIAG_RECV_TO_AP a g) rs =
    Some (if decide (type = CMD_COMMON) then (mkLink init_user_diag_buf ENG_DIAG_RECV_TO_AP a' g, [ToCP frame])
          else (mkLink init_user_diag_buf ENG_DIAG_RECV_TO_AP (user_handle type a' m) g, [Handle type m])).
Proof.
  revert pre. induction rs as [|r rs IH]; intros pre E Hne; [done|]. cbn [concat vdiag_run] in *.
  destruct (decide (r = [])) as [->|Hr].
  { change (vdiag_turn modenum user_handle ?s []) with (Some (s, @nil event)). cbn [mbind option_bind]. rewrite IH by done.
    cbn [mbind option_bind]. by destruct (decide (type = CMD_COMMON)). }
  destruct (decide (concat rs = [])) as [Hrest|Hrest].
  - rewrite turn_last by (try done; by rewrite <- E, Hrest, app_nil_r). cbn [mbind option_bind].
    destruct (decide (type = CMD_COMMON)); rewrite run_idle by done; cbn [mbind option_bind]; by rewrite app_nil_r.
  - rewrite (turn_pending _ _ _ (concat rs)) by done. cbn [mbind option_bind]. rewrite IH by (try done; by rewrite <- app_assoc).
    cbn [mbind option_bind]. by destruct (decide (type = CMD_COMMON)).
Qed.
End Frame.

(** C17: a frame of the PC that is shorter than the buffer (8192 bytes with its
    two flags) is treated as a whole however the serial line cuts it into
    reads, as long as the turns of the loop hold this frame and nothing else.
    Whatever the pieces, empty and failed reads among them, no byte is acted
    on before the closing flag; then exactly one thing happens.  When
    [eng_diag_parse] decides that the frame is for the modem, it is forwarded
    byte for byte as it was received, escapes included, although the parser
    has decoded its own copy in place; otherwise nothing is forwarded and the
    command is handled with the decoded buffer.  The thread is then ready for
    the next frame.  (A second frame in the same turn is lost, and a frame
    that fills the buffer is not treated like this.) *)
Theorem diag_frame_routed modenum user_handle body reads a g type a' m (frame := 0x7e :: body ++ [0x7e]) :
  0x7e ∉ body -> zlen frame < DATA_EXT_DIAG_SIZE -> concat (serial_turns reads) = frame ->
  eng_diag_parse modenum a (frame ++ replicate (Z.to_nat DATA_EXT_DIAG_SIZE - length frame) 0) (zlen frame) = Some (type, a', m) ->
  vdiag_serial modenum user_handle (mkLink init_user_diag_buf ENG_DIAG_RECV_TO_AP a g) reads =
    Some (if decide (type = CMD_COMMON) then (mkLink init_user_diag_buf ENG_DIAG_RECV_TO_AP a' g, [ToCP frame])
          else (mkLink init_user_diag_buf ENG_DIAG_RECV_TO_AP (user_handle type a' m) g, [Handle type m])).
Proof.
  intros Hb Hl E Hp. change init_user_diag_buf with (collecting []) at 1. unfold vdiag_serial. eapply run_frame; try done.
  - unfold frame in Hl. cbn [length] in Hl. rewrite length_app in Hl. cbn [length] in Hl. lia.
  - by rewrite E.
Qed.

(** What a handler sees.  For every payload that fits, the decoding in place
    of the frame that carries it leaves the opening flag, the payload exactly
    as it was before the escapes were put in, a blank where the closing flag
    was, and zeroes. *)
Lemma decode_frame payload (frame := translate_packet payload) (n := Z.to_nat DATA_EXT_DIAG_SIZE) :
  zlen frame < DATA_EXT_DIAG_SIZE ->
  eng_diag_decode7d7e (frame ++ replicate (n - length frame) 0) 1 (zlen frame - 1) =
    Some (0x7E :: payload ++ 0x20 :: replicate (n - 2 - length payload) 0).
Proof.
  intros Hl. assert (Ef : frame = 0x7E :: flat_map escape payload ++ [0x7E]) by done.
  assert (En : (n = Z.to_nat DATA_EXT_DIAG_SIZE)%nat) by done. clearbody frame n. set (e := flat_map escape payload ++ [0x7E]) in Ef.
  destruct (n - length frame)%nat as [|k] eqn:Ek; [lia|]. rewrite Ef in *. cbn [length replicate] in *.
  unfold eng_diag_decode7d7e. change ((0x7E :: e) ++ 0 :: replicate k 0) with ([0x7E] ++ e ++ 0 :: replicate k 0).
  rewrite unescape_loop_spec by (cbn [length]; lia). f_equal. cbn [app]. f_equal. unfold e at 1. rewrite unescape_escape, <- app_assoc.
  f_equal. cbn [app]. f_equal. change (0 :: replicate k 0) with (replicate (S k) 0). rewrite <- replicate_add. f_equal.
  pose proof (unescape_length e 0) as Hu. unfold e in Hu at 1. rewrite unescape_escape in Hu. unfold e at 2. rewrite unescape_escape.
  rewrite length_app in *. cbn [length] in *. lia.
Qed.

(** ** Witnesses *)
#[local] Abbreviation demo_body := (chars "1234" ++ [12; 0; 0x01; 0x05; 0x7d; 0x5e; 3]).
#[local] Abbreviation demo_reads := [Some [0x7e; 49]; Some (chars "23"); None; Some [52; 12; 0; 0x01]; Some [0x05; 0x7d; 0x5e; 3; 0x7e]].

Lemma diag_frame_routed_witness :
  0x7e ∉ demo_body /\ concat (serial_turns demo_reads) = 0x7e :: demo_body ++ [0x7e] /\
  vdiag_serial 4 (fun _ a _ => a) link_init demo_reads = Some (link_init, [ToCP (0x7e :: demo_body ++ [0x7e])]).
Proof.
  assert (N : 0x7e ∉ demo_body) by (apply (bool_decide_unpack _); vm_compute; exact I).
  split; [exact N|]. split; [reflexivity|].
  refine (diag_frame_routed 4 (fun _ a _ => a) demo_body demo_reads ap_init false CMD_COMMON ap_init _ N _ _ _);
    [vm_compute; reflexivity|reflexivity|vm_compute; reflexivity].
Defined.

(** ** The bytes for the modem arrive once and in order *)
Lemma cp_write_all ws d : concat (cp_write ws d) = d.
Proof.
  revert d. induction ws as [|w ws IH]; intros d; cbn [cp_write]; [cbn; by rewrite app_nil_r|].
  destruct (w <? 0); [destruct d; [done|apply IH]|]. cbn zeta. set (n := Nat.min _ _).
  destruct (drop n d) as [|x r] eqn:E; cbn [concat].
  - rewrite app_nil_r. rewrite <- (take_drop n d) at 2. by rewrite E, app_nil_r.
  - by rewrite IH, <- E, take_drop.
Qed.

(** ** The encoder in place *)
Lemma escape_special b : escape b = if is_special b then [0x7d; Z.lxor b 0x20] else [b].
Proof.
  unfold escape, is_special. destruct (Z.eqb_spec b 0x7E) as [->|]; [done|]. destruct (Z.eqb_spec b 0x7D) as [->|]; done.
Qed.
Lemma special_xor b : is_special b = true -> is_special (Z.lxor b 0x20) = false.
Proof. unfold is_special. rewrite orb_true_iff, !Z.eqb_eq. by intros [-> | ->]. Qed.

Definition specials (l : list Z) : nat := length (List.filter is_special l).

(** Making room for one escape. *)
Lemma encode_shift A b y r x t n k :
  n = zlen A -> k = zlen r ->
  exists m, load (A ++ b :: r ++ x :: t) (n + 1) k = Some r /\ store (A ++ b :: r ++ x :: t) (n + 2) r = Some m /\
    store m n [0x7d; y] = Some ((A ++ [0x7d]) ++ (y :: r) ++ t).
Proof.
  intros -> ->. destruct (r ++ [x]) as [|c r'] eqn:Er; [by destruct r|]. exists (A ++ [b; c] ++ r ++ t).
  assert (Lr : length r' = length r) by (apply (f_equal length) in Er; rewrite length_app in Er; cbn in Er; lia).
  assert (Em : A ++ b :: r ++ x :: t = (A ++ [b; c]) ++ r' ++ t).
  { rewrite (cons_middle x r), (app_assoc r [x]), Er, <- app_assoc. done. }
  split_and!.
  - replace (A ++ b :: r ++ x :: t) with ((A ++ [b]) ++ r ++ x :: t) by (by rewrite <- app_assoc).
    apply load_mid; rewrite ?length_app; cbn [length]; lia.
  - rewrite Em, (store_mid _ _ r) by (rewrite ?length_app; cbn [length]; lia). by rewrite <- app_assoc.
  - rewrite (store_mid A [b; c] [0x7d; y]) by done. by rewrite <- !app_assoc.
Qed.

Lemma escape_loop_spec fuel A l t off i len extra :
  0 <= off -> 0 <= i -> off + i = zlen A -> len - i = zlen l -> (specials l <= length t)%nat -> (length l + specials l <= fuel)%nat ->
  encode_loop fuel (A ++ l ++ t) off i len extra =
    Some (A ++ flat_map escape l ++ drop (specials l) t, len + Z.of_nat (specials l), extra + Z.of_nat (specials l)).
Proof.
  revert A l t i len extra. induction fuel as [fuel IH] using lt_wf_ind. intros A l t i len extra Hoff Hi HA Hl Ht Hf.
  destruct fuel as [|k].
  { destruct l; cbn [length] in Hf; [|lia]. cbn. rewrite drop_0, !Z.add_0_r. done. }
  destruct l as [|b r]; cbn [length] in *.
  { cbn [encode_loop]. rewrite (proj2 (Z.ltb_ge i len)) by lia. cbn. rewrite drop_0, !Z.add_0_r. done. }
  cbn [encode_loop]. rewrite (proj2 (Z.ltb_lt i len)) by lia. cbn [app]. rewrite (lookup_at A _ b (off + i)) by lia. cbn [mbind option_bind flat_map].
  rewrite escape_special. unfold specials in *. cbn [List.filter] in *. destruct (is_special b) eqn:Eb; cbn [length] in *.
  - destruct t as [|x t]; cbn [length] in Ht; [lia|].
    destruct (encode_shift A b (Z.lxor b 0x20) r x t (off + i) (len - (i + 1)) ltac:(lia) ltac:(lia)) as (m & L & S1 & S2).
    rewrite L. cbn [mbind option_bind]. rewrite S1. cbn [mbind option_bind]. rewrite S2. cbn [mbind option_bind].
    destruct k as [|k]; [lia|]. cbn [encode_loop]. rewrite (proj2 (Z.ltb_lt (i + 1) (len + 1))) by lia. cbn [app].
    rewrite (lookup_at (A ++ [0x7d])) by (rewrite length_app; cbn [length]; lia). cbn [mbind option_bind].
    rewrite special_xor by done. rewrite (cons_middle _ (A ++ [0x7d])), app_assoc.
    rewrite IH by (rewrite ?length_app; cbn [length]; lia). do 2 f_equal; [f_equal|]; [|lia|lia]. by rewrite <- !app_assoc.
  - rewrite (cons_middle b A), app_assoc. rewrite IH by (rewrite ?length_app; cbn [length]; lia). by rewrite <- !app_assoc.
Qed.

(** [eng_diag_encode7d7e] is the escaping of [translate_packet], in place. *)
Lemma encode_escapes A l t extra :
  (specials l <= length t)%nat ->
  eng_diag_encode7d7e (A ++ l ++ t) (zlen A) (zlen l) extra =
    Some (A ++ flat_map escape l ++ drop (specials l) t, zlen l + Z.of_nat (specials l), extra + Z.of_nat (specials l)).
Proof.
  intros Ht. unfold eng_diag_encode7d7e. rewrite Nat2Z.id. apply escape_loop_spec; try lia.
  unfold specials in *. pose proof (List.filter_length_le is_special l). lia.
Qed.

Lemma escaped_no_flag p : 0x7e ∉ flat_map escape p.
Proof.
  induction p as [|b p IH]; [apply not_elem_of_nil|]. cbn [flat_map]. rewrite elem_of_app, escape_special. intros [H|H]; [|done].
  unfold is_special in H. destruct (Z.eqb_spec b 0x7d) as [->|H1]; [set_solver|]. destruct (Z.eqb_spec b 0x7e) as [->|H2]; [set_solver|].
  cbn [orb] in H. set_solver.
Qed.

(** ** The other decoder *)
Lemma untranslate_escaped p flag dest rest :
  dest <> [] -> (List.last dest 0 = 0x7D -> flag = true) ->
  untranslate_loop 2 flag dest (flat_map escape p ++ 0x7E :: rest) (-1) = dest ++ p.
Proof.
  revert flag dest. induction p as [|b p IH]; intros flag dest Hd Hf; [cbn; by rewrite app_nil_r|].
  assert (Esc : forall c, c = 0x5E \/ c = 0x5D -> untranslate_loop 2 flag dest (0x7D :: c :: flat_map escape p ++ 0x7E :: rest) (-1) =
      dest ++ Z.lxor c 0x20 :: p).
  { intros c Hc. cbn [untranslate_loop]. cbn [Z.eqb Pos.eqb]. destruct (Z.eqb_spec (List.last dest 0) 0x7D) as [E|E].
    - rewrite Hf by done. cbn [andb negb]. rewrite andb_false_r. destruct Hc as [-> | ->]; cbn [Z.eqb Pos.eqb].
      all: rewrite last_last; cbn [Z.eqb Pos.eqb andb negb]; rewrite removelast_last, andb_false_r.
      all: rewrite IH by first [by destruct dest | by rewrite last_last | done]; by rewrite <- app_assoc.
    - cbn [andb]. rewrite andb_false_r. destruct Hc as [-> | ->]; cbn [Z.eqb Pos.eqb].
      all: rewrite last_last; cbn [Z.eqb Pos.eqb andb negb]; rewrite removelast_last, andb_false_r.
      all: rewrite IH by first [by destruct dest | by rewrite last_last | done]; by rewrite <- app_assoc. }
  cbn [flat_map]. rewrite escape_special. unfold is_special. destruct (Z.eqb_spec b 0x7d) as [->|H1]; [apply (Esc 0x5D); auto|].
  destruct (Z.eqb_spec b 0x7e) as [->|H2]; [apply (Esc 0x5E); auto|]. cbn [orb app untranslate_loop Z.eqb].
  rewrite (proj2 (Z.eqb_neq b 0x7E)) by done.
  assert (Hif : (List.last dest 0 =? 0x7D) && negb flag = false).
  { destruct (Z.eqb_spec (List.last dest 0) 0x7D); [by rewrite Hf by done|done]. }
  cbn [Pos.eqb]. rewrite Hif. cbn [Z.eqb Pos.eqb negb]. rewrite andb_false_r. rewrite IH by first [by destruct dest | by rewrite last_last | done]. by rewrite <- app_assoc.
Qed.

(** [untranslate_packet_header] recovers every payload from its frame, also one
    with bytes that are flags or escapes themselves, which the older decoder
    of modem_control loses. *)
Lemma untranslate_header_translate payload : untranslate_packet_header (translate_packet payload) (-1) = payload.
Proof.
  unfold untranslate_packet_header, translate_packet. cbn [app untranslate_loop Z.eqb Pos.eqb].
  destruct payload as [|b p]; [done|]. cbn [flat_map]. rewrite escape_special. unfold is_special.
  destruct (Z.eqb_spec b 0x7d) as [->|H1]; [by apply (untranslate_escaped p true [0x7D] [])|].
  destruct (Z.eqb_spec b 0x7e) as [->|H2]; [by apply (untranslate_escaped p true [0x7E] [])|].
  cbn [orb app untranslate_loop Z.eqb Pos.eqb]. rewrite (proj2 (Z.eqb_neq b 0x7e)) by done.
  by apply (untranslate_escaped p false [b] []).
Qed.

(** ** Defects *)

(** Of two frames in one read the second is lost. *)
Lemma second_frame_lost :
  vdiag_run 4 (fun _ a _ => a) link_init [[0x7e; 1; 2; 0x7e; 0x7e; 3; 4; 0x7e]] =
    Some (link_init, [ToCP [0x7e; 1; 2; 0x7e]]).
Proof. vm_compute. reflexivity. Qed.

(** A frame for this side that fills the buffer is never given up: whatever is
    read afterwards changes nothing and goes nowhere. *)
Lemma get_full r m : get_user_diag_buf r (mkExt m DATA_EXT_DIAG_SIZE) = (false, mkExt m DATA_EXT_DIAG_SIZE).
Proof. induction r as [|b r IH]; [done|]. cbn [get_user_diag_buf ext_buf_len]. rewrite andb_false_r. exact IH. Qed.

Lemma full_buffer_wedges modenum user_handle m a g type r :
  eng_diag_parse modenum a m DATA_EXT_DIAG_SIZE = Some (type, a, m) -> type <> CMD_COMMON ->
  let s := mkLink (mkExt m DATA_EXT_DIAG_SIZE) ENG_DIAG_RECV_TO_AP a g in vdiag_turn modenum user_handle s r = Some (s, []).
Proof.
  intros Hp Ht. unfold vdiag_turn. destruct r as [|b r]; [done|]. cbn [length Nat.eqb status lk_ext lk_ap].
  rewrite get_full. cbn [ext_buf_len ext_data_buf].
  change (DATA_EXT_DIAG_SIZE =? 0) with false. rewrite Z.eqb_refl, Hp. cbn [mbind option_bind]. by rewrite decide_False.
Qed.

Lemma get_plain r pre :
  0x7e ∉ r -> pre <> [] -> zlen pre + zlen r <= DATA_EXT_DIAG_SIZE ->
  get_user_diag_buf r (collecting pre) = (false, collecting (pre ++ r)).
Proof.
  revert pre. induction r as [|b r IH]; intros pre Hr Hp Hl; [by rewrite app_nil_r|]. apply not_elem_of_cons in Hr as [Hb Hr].
  cbn [get_user_diag_buf length] in *. rewrite (proj2 (Z.eqb_neq b 0x7e)) by done. cbn [andb ext_buf_len collecting].
  rewrite (proj2 (Z.ltb_lt 0 _)), (proj2 (Z.ltb_lt _ DATA_EXT_DIAG_SIZE)) by (destruct pre; [done|cbn [length] in *; lia]).
  cbn [andb]. rewrite put_collecting by lia. rewrite IH by (try done; try (by destruct pre); rewrite length_app; cbn [length]; lia).
  by rewrite <- app_assoc.
Qed.

Lemma decode_plain fuel A l t off i len :
  Forall (fun b => is_special b = false) l -> off + i = zlen A -> len - i = zlen l ->
  decode_loop fuel (A ++ l ++ t) off i len = Some (A ++ l ++ t).
Proof.
  intros Hl. revert A i. revert fuel. induction Hl as [|b l Hb Hl IH]; intros [|k] A i HA Hi; try done; cbn [decode_loop length] in *.
  - by rewrite (proj2 (Z.ltb_ge i len)) by lia.
  - rewrite (proj2 (Z.ltb_lt i len)) by lia. cbn [app]. rewrite (lookup_at A _ b (off + i)) by lia. cbn [mbind option_bind].
    rewrite Hb, (cons_middle b A), app_assoc. apply IH; rewrite ?length_app; cbn [length]; lia.
Qed.

(** Such a buffer is reached by one read of the size of the buffer. *)
Lemma full_buffer_reached modenum user_handle body :
  Forall (fun b => is_special b = false) body -> zlen body = DATA_EXT_DIAG_SIZE - 1 -> body !! 6%nat = Some 0x5F ->
  eng_diag_parse modenum ap_init (0x7e :: body) DATA_EXT_DIAG_SIZE = Some (CMD_USER_DIRECT_PHSCHK, ap_init, 0x7e :: body) /\
  vdiag_turn modenum user_handle link_init (0x7e :: body) =
    Some (mkLink (mkExt (0x7e :: body) DATA_EXT_DIAG_SIZE) ENG_DIAG_RECV_TO_AP ap_init false, []).
Proof.
  intros Hs Hl H7.
  assert (P : eng_diag_parse modenum ap_init (0x7e :: body) DATA_EXT_DIAG_SIZE = Some (CMD_USER_DIRECT_PHSCHK, ap_init, 0x7e :: body)).
  { destruct (lookup_lt_is_Some_2 body 7) as [y Hy]; [unfold DATA_EXT_DIAG_SIZE in Hl; lia|]. unfold eng_diag_parse, eng_diag_decode7d7e.
    pose proof (decode_plain (Z.to_nat (DATA_EXT_DIAG_SIZE - 1)) [0x7e] body [] 1 0 (DATA_EXT_DIAG_SIZE - 1) Hs ltac:(done) ltac:(lia)) as D.
    rewrite app_nil_r in D. cbn [app] in D. rewrite D. cbn [mbind option_bind]. change ((0x7e :: body) !! 7%nat) with (body !! 6%nat). change ((0x7e :: body) !! 8%nat) with (body !! 7%nat). rewrite H7, Hy. done. }
  split; [exact P|]. unfold vdiag_turn. cbn [length Nat.eqb status lk_ext lk_ap link_init get_user_diag_buf].
  change (ext_buf_len init_user_diag_buf =? 0) with true. cbn [Z.eqb Pos.eqb andb]. change init_user_diag_buf with (collecting []).
  rewrite put_collecting by done. cbn [app]. rewrite get_plain; [|rewrite Forall_forall in Hs; intros N; by apply list_elem_of_In, Hs in N|done|cbn [length]; lia].
  cbn [app]. unfold collecting. cbn [ext_buf_len ext_data_buf length].
  replace (Z.to_nat DATA_EXT_DIAG_SIZE - S (length body))%nat with 0%nat by lia. cbn [replicate]. rewrite app_nil_r.
  replace (Z.of_nat (S (length body))) with DATA_EXT_DIAG_SIZE by lia.
  change (DATA_EXT_DIAG_SIZE =? 0) with false. rewrite Z.eqb_refl, P. done.
Qed.

(** With an escape in a full buffer the decoder moves a byte from behind it. *)
Lemma long_frame_overreads :
  eng_diag_decode7d7e (0x7e :: [0x7d; 0x5e] ++ replicate (Z.to_nat 8189) 1) 1 (DATA_EXT_DIAG_SIZE - 1) = None.
Proof. vm_compute. reflexivity. Qed.

(** An audio command without its index follows a null pointer. *)
Lemma at_index_missing :
  eng_diag_parse 4 ap_init ([0x7e; 0; 0; 0; 0; 20; 0; 0x68; 0] ++ chars "AT+SADM4AP=8" ++ [0x7e] ++ replicate 100 0) 22 = None /\
  is_Some (eng_diag_parse 4 ap_init ([0x7e; 0; 0; 0; 0; 20; 0; 0x68; 0] ++ chars "AT+SADM4AP=8,1" ++ [0x7e] ++ replicate 100 0) 24).
Proof. split; [vm_compute; reflexivity|]. eexists. vm_compute. reflexivity. Qed.

(** The battery commands are decoded a second time: a payload byte that was
    escaped ends the frame. *)
Lemma decoded_twice :
  untranslate_packet_header (0x7E :: [1; 0x7E; 2; 3] ++ [0x20]) (-1) = [1].
Proof. reflexivity. Qed.
