(* ===== verification/DiagCmd.v ===== *)
(** * Commands of the diagnostic channel (apps/engmode/eng_diag.c, eng_productdata.c)

    The handlers that [eng_diag_user_handle] calls for the product data: the
    general access [eng_diag_product_ctrl], the phase check record
    [eng_diag_direct_phschk], the test results [eng_diag_mmicit_read], and the
    answers to the simple commands.

    A handler works on the buffer that the parser has decoded: [payload_buf].
    The file of the product data is an argument and a result; [None] when it
    cannot be opened.  [wr_ok] is whether a write succeeds.  Fresh memory has
    the contents [junk]. *)
From S2P Require Import Prelude Checksum Diag.

(** ** The file of the product data *)
Record disk := mkDisk { productinfo : option (list Z); wr_ok : bool }.

(** The bytes read and the error code. *)
Definition eng_read_productnvdata (d : disk) (data_len : nat) : list Z * Z :=
  match productinfo d with
  | Some f => (take data_len f, if (length (take data_len f) =? 0)%nat then 1 else 0)
  | None => ([], 1)
  end.
(** The file is written from its start and keeps its length. *)
Definition eng_write_productnvdata (d : disk) (data : list Z) : disk * Z :=
  match productinfo d with
  | Some f =>
    if wr_ok d then (mkDisk (Some (data ++ drop (length data) f)) true, if (length data =? 0)%nat then 1 else 0)
    else (d, 1)
  | None => (d, 1)
  end.

(** The CRC of engmode/crc16.c; its table is the one of modem_control. *)
Definition crc16 (crc : Z) (buffer : list Z) : Z := calculate_crc crc buffer.

(** ** Messages *)

(** [MSG_HEAD_T] at [buf + 1]: sequence number, length, type, subtype. *)
Definition HEAD : nat := 8.
Definition head_of (m : list Z) : list Z := take HEAD (drop 1 m).
Definition with_len (len : Z) (h : list Z) : list Z := take 4 h ++ le16 len ++ drop 6 h.
Definition with_subtype (v : Z) (h : list Z) : list Z := take 7 h ++ [v].
Definition eng_diag_size : Z := 8192.

(** An answer must fit into [eng_diag_buf]. *)
Definition answer (msg : list Z) : option (list Z) :=
  let r := translate_packet msg in if zlen r <=? eng_diag_size then Some r else None.

(** ** [eng_diag_product_ctrl] *)
Definition eng_diag_product_ctrl (junk : nat -> list Z) (m : list Z) (d : disk) : option (list Z * disk) :=
  let offset := get16 m 9 in
  let data_len := get16 m 11 in
  let head_len := 12 in
  subtype ← m !! 8%nat;
  if eng_diag_size <? head_len + data_len + 2 then Some ([], d)
  else if subtype =? 2 then
    let '(r, nverr) := eng_read_productnvdata d (Z.to_nat data_len) in
    let nvdata := r ++ drop (length r) (junk (Z.to_nat data_len)) in
    let data_len := if nverr =? 0 then data_len else 0 in
    let h := with_len (head_len + data_len) (with_subtype nverr (head_of m)) in
    a ← answer (h ++ take 4 (drop 9 m) ++ take (Z.to_nat data_len) nvdata);
    Some (a, d)
  else if subtype =? 3 then
    let '(r, nverr) := eng_read_productnvdata d (Z.to_nat data_len) in
    '(d, nverr) ← (if nverr =? 0 then
        let nvdata := r ++ drop (length r) (junk (Z.to_nat eng_diag_size)) in
        src ← load m 13 data_len;
        nvdata ← store nvdata offset src;
        Some (eng_write_productnvdata d (take (Z.to_nat data_len) nvdata))
      else Some (d, nverr));
    a ← answer (with_len (Z.of_nat HEAD) (with_subtype nverr (head_of m)));
    Some (a, d)
  else Some ([], d).

(** ** [eng_diag_direct_phschk] *)
Definition TEST_DATA_INFO_SIZE : nat := 256.
Definition RW_MASK : Z := 0x80.

Definition eng_diag_direct_phschk (junk : nat -> list Z) (m : list Z) (d : disk) : option (list Z * disk) :=
  let len := get16 m 5 in
  subtype ← m !! 8%nat;
  recv ← load m (len - 1) 2;
  data ← load m 9 (len - 10);
  if negb (le_dec recv =? crc16 0 data) then Some ([], d)
  else if Z.land subtype RW_MASK =? 0 then
    let '(d, error) :=
      if negb (Z.land subtype 0x7f =? 0) then
        let '(d, nverr) := eng_write_productnvdata d data in (d, if nverr =? 0 then 0 else 3)
      else (d, 2) in
    let h := head_of m in
    a ← answer (if error =? 0 then with_len 10 (with_subtype 1 h) ++ le16 0
                else with_len 12 (with_subtype 0 h) ++ le16 error ++ le16 0);
    Some (a, d)
  else
    let '(r, nverr) := eng_read_productnvdata d (Z.to_nat eng_diag_size) in
    let nvdata := r ++ drop (length r) (junk (Z.to_nat eng_diag_size)) in
    let h := head_of m in
    let info := take TEST_DATA_INFO_SIZE nvdata in
    a ← answer (if nverr =? 0 then with_len 266 (with_subtype 1 h) ++ info ++ le16 (crc16 0 info)
                else with_len 10 (with_subtype 0 h) ++ le16 0);
    Some (a, d).

(** ** [eng_diag_mmicit_read] *)

(** A row of the table of test results. *)
Record test_result := mkResult { groupid : Z; value : Z; name : list Z }.
Definition mmicit_row (r : test_result) : list Z := [u8 (zlen (name r) + 2); u8 (groupid r); u8 (value r)] ++ name r.

(** [result]: what [eng_sql_string2int_table_get] delivers.  [rspdata] has two
    bytes less than the answer buffer, and every name is stored with a NUL
    behind it. *)
Definition eng_diag_mmicit_read (m : list Z) (len : Z) (result : option (list test_result)) : option (list Z) :=
  match result with
  | None => load m 0 len
  | Some rows =>
    let data := flat_map mmicit_row rows in
    let datalen := Z.of_nat HEAD + zlen data in
    if eng_diag_size - 2 <? datalen + (if (length rows =? 0)%nat then 0 else 1) then None
    else answer (with_len datalen (head_of m) ++ data)
  end.

(** ** Simple answers *)

(** The end of [eng_diag_user_handle]: header, answer, closing flag; nothing is
    escaped. *)
Definition plain_answer (h rsp : list Z) : list Z := [0x7e] ++ with_len (Z.of_nat HEAD + zlen rsp) h ++ rsp ++ [0x7e].
(** [sprdver] is the property, of at most 255 characters. *)
Definition eng_diag_getver (sprdver : list Z) : list Z := take 248 sprdver.
Definition eng_diag_bootreset : list Z := chars "OK".
(** The new value of the property engtestmode, if it is set, and the subtype. *)
Definition eng_diag_factorymode (m : list Z) : option (option Z * Z) :=
  pdata ← m !! 9%nat;
  Some (if (pdata =? 0) || (pdata =? 1) then (Some pdata, 0) else (None, 1)).

(** ** What a handler is given *)

(** The buffer that [eng_diag_decode7d7e] leaves for a payload. *)
Definition payload_buf (p : list Z) : list Z := 0x7E :: p ++ 0x20 :: replicate (Z.to_nat eng_diag_size - 2 - length p) 0.

Lemma decode_payload p :
  zlen (translate_packet p) < DATA_EXT_DIAG_SIZE ->
  eng_diag_decode7d7e (ext_data_buf (collecting (translate_packet p))) 1 (zlen (translate_packet p) - 1) = Some (payload_buf p).
Proof. apply decode_frame. Qed.

(** ** Layout of a message *)
Lemma translate_length msg : (length (translate_packet msg) <= 2 * length msg + 2)%nat.
Proof.
  unfold translate_packet. rewrite !length_app. cbn [length].
  assert (L : (length (flat_map escape msg) <= 2 * length msg)%nat).
  { induction msg as [|b msg IH]; [done|]. cbn [flat_map length]. rewrite length_app, escape_special. destruct (is_special b); cbn [length]; lia. }
  lia.
Qed.

Lemma answer_fits msg : zlen (translate_packet msg) <= eng_diag_size -> answer msg = Some (translate_packet msg).
Proof. intros H. unfold answer. by rewrite (proj2 (Z.leb_le _ _)) by done. Qed.
Lemma answer_small msg : (length msg <= 4095)%nat -> answer msg = Some (translate_packet msg).
Proof. intros H. apply answer_fits. pose proof (translate_length msg). unfold eng_diag_size. lia. Qed.

Lemma head_of_buf hd r : length hd = HEAD -> head_of (0x7E :: hd ++ r) = hd.
Proof. intros L. unfold head_of. cbn [drop]. rewrite <- L. apply take_app_length. Qed.
Lemma subtype_of_buf hd r : length hd = HEAD -> (0x7E :: hd ++ r) !! 8%nat = hd !! 7%nat.
Proof. intros L. change ((0x7E :: hd ++ r) !! 8%nat) with ((hd ++ r) !! 7%nat). apply lookup_app_l. unfold HEAD in L. lia. Qed.
Lemma with_subtype_length v h : length h = HEAD -> length (with_subtype v h) = HEAD.
Proof. unfold HEAD, with_subtype. intros L. rewrite length_app, length_take, L. done. Qed.
Lemma with_len_length n h : length h = HEAD -> length (with_len n h) = HEAD.
Proof. unfold HEAD, with_len. intros L. rewrite !length_app, length_take, length_drop, le_enc_length, L. done. Qed.

Lemma get16_at a z r off : off = length a -> 0 <= z < 2 ^ 16 -> get16 (a ++ le16 z ++ r) off = z.
Proof.
  intros -> Hz. unfold get16. rewrite drop_app_0, <- (le_enc_length 2 z) at 1. rewrite take_app_0. by apply le_dec_enc.
Qed.
Lemma skip_head hd r n : length hd = HEAD -> drop (9 + n) (0x7E :: hd ++ r) = drop n r.
Proof.
  intros L. change (drop (9 + n) (0x7E :: hd ++ r)) with (drop (8 + n) (hd ++ r)). rewrite drop_app_ge by (unfold HEAD in L; lia).
  f_equal. unfold HEAD in L. lia.
Qed.
Lemma get16_head hd r n : length hd = HEAD -> get16 (0x7E :: hd ++ r) (9 + n) = get16 r n.
Proof. intros L. unfold get16. by rewrite skip_head. Qed.

(** The two length fields of a product data message. *)
Lemma product_fields hd x n r :
  length hd = HEAD -> 0 <= x < 2 ^ 16 -> 0 <= n < 2 ^ 16 ->
  let m := 0x7E :: hd ++ le16 x ++ le16 n ++ r in get16 m 9 = x /\ get16 m 11 = n /\ take 4 (drop 9 m) = le16 x ++ le16 n.
Proof.
  intros L Hx Hn m. unfold m. split_and!.
  - rewrite (get16_head hd _ 0) by done. by apply (get16_at [] x).
  - rewrite (get16_head hd _ 2) by done. by apply (get16_at (le16 x) n).
  - rewrite (skip_head hd _ 0) by done. done.
Qed.

(** ** Product data *)
Section Product.
Context (junk : nat -> list Z) (junk_size : forall n, length (junk n) = n).

(** A write at offset 0 replaces the start of the file. *)
Lemma product_write hd d f :
  length hd = HEAD -> hd !! 7%nat = Some 3 -> d <> [] -> zlen d <= eng_diag_size - 14 -> f <> [] ->
  eng_diag_product_ctrl junk (payload_buf (hd ++ le16 0 ++ le16 (zlen d) ++ d)) (mkDisk (Some f) true) =
    Some (translate_packet (with_len 8 (with_subtype 0 hd)), mkDisk (Some (d ++ drop (length d) f)) true).
Proof.
  intros L H7 Hd Hl Hf. unfold payload_buf. set (z := 0x20 :: replicate _ 0). rewrite <- !app_assoc.
  assert (Lz : zlen d < 2 ^ 16) by (unfold eng_diag_size in Hl; lia).
  destruct (product_fields hd 0 (zlen d) (d ++ z) L ltac:(lia) ltac:(lia)) as (F1 & F2 & _).
  unfold eng_diag_product_ctrl. cbv zeta. rewrite F1, F2, subtype_of_buf, H7 by done. cbn [mbind option_bind].
  rewrite (proj2 (Z.ltb_ge eng_diag_size _)) by lia. cbn [Z.eqb Pos.eqb]. unfold eng_read_productnvdata. cbn [productinfo].
  rewrite Nat2Z.id. destruct f as [|f0 f]; [done|]. destruct (length d) as [|n] eqn:En; [by destruct d|]. rewrite <- En.
  replace (length (take (length d) (f0 :: f)) =? 0)%nat with false by (rewrite En; done). cbn [Z.eqb].
  assert (Ld : load (0x7E :: hd ++ le16 0 ++ le16 (zlen d) ++ d ++ z) 13 (zlen d) = Some d).
  { replace (0x7E :: hd ++ le16 0 ++ le16 (zlen d) ++ d ++ z) with ((0x7E :: hd ++ le16 0 ++ le16 (zlen d)) ++ d ++ z)
      by (cbn [app]; by rewrite <- !app_assoc).
    apply load_mid; [|done]. cbn [length]. rewrite !length_app, !le_enc_length, L. done. }
  rewrite Ld. cbn [mbind option_bind]. set (nv := _ ++ drop _ (junk _)).
  assert (Hnv : zlen nv = eng_diag_size).
  { unfold nv. rewrite length_app, length_drop, junk_size, length_take. unfold eng_diag_size in *. lia. }
  assert (St : store nv 0 d = Some (d ++ drop (length d) nv)).
  { apply store_Some. split; [lia|]. split; [lia|]. done. }
  rewrite St. cbn [mbind option_bind]. rewrite take_app_length. unfold eng_write_productnvdata. cbn [productinfo wr_ok].
  rewrite (proj2 (Nat.eqb_neq (length d) 0)) by lia. rewrite head_of_buf by done.
  rewrite answer_small by (rewrite with_len_length; [unfold HEAD; lia|by apply with_subtype_length]). done.
Qed.

(** A read answers with the start of the file. *)
Lemma product_read hd x d rest w (msg := with_len (12 + zlen d) (with_subtype 0 hd) ++ le16 x ++ le16 (zlen d) ++ d) :
  length hd = HEAD -> hd !! 7%nat = Some 2 -> d <> [] -> 0 <= x < 2 ^ 16 -> zlen (translate_packet msg) <= eng_diag_size ->
  eng_diag_product_ctrl junk (payload_buf (hd ++ le16 x ++ le16 (zlen d))) (mkDisk (Some (d ++ rest)) w) =
    Some (translate_packet msg, mkDisk (Some (d ++ rest)) w).
Proof.
  intros L H7 Hd Hx Hl. unfold payload_buf. set (z := 0x20 :: replicate _ 0). rewrite <- !app_assoc.
  assert (Lm : zlen msg + 2 <= eng_diag_size).
  { unfold translate_packet in Hl. rewrite !length_app in Hl. cbn [length] in Hl.
    assert (G : forall l, (length l <= length (flat_map escape l))%nat).
    { induction l as [|b l IH]; [done|]. cbn [flat_map length]. rewrite length_app, escape_special. destruct (is_special b); cbn [length]; lia. }
    specialize (G msg). lia. }
  assert (Lz : 12 + zlen d + 2 <= eng_diag_size).
  { unfold msg in Lm. rewrite !length_app, !le_enc_length, with_len_length in Lm by (by apply with_subtype_length). unfold HEAD in Lm. lia. }
  destruct (product_fields hd x (zlen d) z L Hx ltac:(unfold eng_diag_size in Lz; lia)) as (F1 & F2 & F3).
  unfold eng_diag_product_ctrl. cbv zeta. rewrite F1, F2, F3, subtype_of_buf, H7 by done. cbn [mbind option_bind].
  rewrite (proj2 (Z.ltb_ge eng_diag_size _)) by lia. cbn [Z.eqb Pos.eqb]. unfold eng_read_productnvdata. cbn [productinfo].
  assert (En : (length d =? 0)%nat = false) by (apply Nat.eqb_neq; by destruct d).
  rewrite Nat2Z.id, take_app_length, En. cbn [Z.eqb]. rewrite Nat2Z.id, drop_ge by (by rewrite junk_size).
  rewrite app_nil_r, take_ge by lia. rewrite head_of_buf by done. rewrite <- app_assoc. fold msg. by rewrite answer_fits.
Qed.
End Product.

(** Product data that is written can be read back.  After a write command
    with offset 0 the file holds the data and is unchanged behind it, and the
    tool gets an acknowledgement; a read command of the same length is then
    answered with a frame that decodes to the header of the request, with the
    new length and the result 0, followed by exactly the data.  The bound is on
    the size of the escaped answer, which the code does not check. *)
Lemma product_data_roundtrip junk hdw hdr x d f :
  (forall n, length (junk n) = n) -> length hdw = HEAD -> hdw !! 7%nat = Some 3 -> length hdr = HEAD -> hdr !! 7%nat = Some 2 ->
  d <> [] -> f <> [] -> 0 <= x < 2 ^ 16 -> 2 * zlen d + 26 <= eng_diag_size ->
  exists ack rsp disk',
    eng_diag_product_ctrl junk (payload_buf (hdw ++ le16 0 ++ le16 (zlen d) ++ d)) (mkDisk (Some f) true) = Some (ack, disk') /\
    productinfo disk' = Some (d ++ drop (length d) f) /\
    untranslate_packet_header ack (-1) = with_len 8 (with_subtype 0 hdw) /\
    eng_diag_product_ctrl junk (payload_buf (hdr ++ le16 x ++ le16 (zlen d))) disk' = Some (rsp, disk') /\
    untranslate_packet_header rsp (-1) = with_len (12 + zlen d) (with_subtype 0 hdr) ++ le16 x ++ le16 (zlen d) ++ d.
Proof.
  intros Hj Lw Sw Lr Sr Hd Hf Hx Hl. eexists _, _, _.
  split; [apply (product_write junk Hj hdw d f); (done || lia)|]. split; [done|]. split; [apply untranslate_header_translate|].
  split; [|apply untranslate_header_translate]. apply (product_read junk Hj hdr x d); try done.
  pose proof (translate_length (with_len (12 + zlen d) (with_subtype 0 hdr) ++ le16 x ++ le16 (zlen d) ++ d)) as T.
  rewrite !length_app, !le_enc_length, with_len_length in T by (by apply with_subtype_length). unfold HEAD in T. lia.
Qed.

#[local] Abbreviation demo_head t := [1; 0; 0x7e; 0; 20; 0; 0x0D; t].
Lemma product_data_roundtrip_witness :
  exists ack rsp disk',
    eng_diag_product_ctrl (fun n => replicate n 0xEE) (payload_buf (demo_head 3 ++ le16 0 ++ le16 3 ++ [7; 0x7d; 9])) (mkDisk (Some [1; 2; 3; 4]) true) = Some (ack, disk') /\
    productinfo disk' = Some [7; 0x7d; 9; 4] /\
    untranslate_packet_header ack (-1) = [1; 0; 0x7e; 0; 8; 0; 0x0D; 0] /\
    eng_diag_product_ctrl (fun n => replicate n 0xEE) (payload_buf (demo_head 2 ++ le16 5 ++ le16 3)) disk' = Some (rsp, disk') /\
    untranslate_packet_header rsp (-1) = [1; 0; 0x7e; 0; 15; 0; 0x0D; 0; 5; 0; 3; 0; 7; 0x7d; 9].
Proof.
  apply (product_data_roundtrip (fun n => replicate n 0xEE) (demo_head 3) (demo_head 2) 5 [7; 0x7d; 9] [1; 2; 3; 4]);
    try reflexivity; try done. intros n. apply length_replicate.
Defined.

(** C30: a product data request reaches its handler intact.  Whatever the payload
    whose escaped frame is shorter than the buffer (8192 bytes), and however
    the serial line cuts that frame into reads, as long as the turns of the
    loop hold this frame and nothing else, the thread hands exactly one
    command, the product data one, to the handler, with the unescaped payload
    in the buffer, forwards nothing to the modem and is ready for the next
    frame. *)
Theorem product_request_delivered modenum user_handle hd args s reads a g (payload := hd ++ args) :
  length hd = HEAD -> hd !! 6%nat = Some 0x0D -> hd !! 7%nat = Some s -> 2 <= s <= 4 ->
  zlen (translate_packet payload) < DATA_EXT_DIAG_SIZE -> concat (serial_turns reads) = translate_packet payload ->
  vdiag_serial modenum user_handle (mkLink init_user_diag_buf ENG_DIAG_RECV_TO_AP a g) reads =
    Some (mkLink init_user_diag_buf ENG_DIAG_RECV_TO_AP (user_handle CMD_USER_PRODUCT_CTRL a (payload_buf payload)) g,
          [Handle CMD_USER_PRODUCT_CTRL (payload_buf payload)]).
Proof.
  intros L H6 H7 Hs Hl E. assert (Ep : payload_buf payload = 0x7E :: hd ++ args ++ drop (S (length payload)) (payload_buf payload)).
  { unfold payload_buf. cbn [drop]. rewrite drop_app_length. unfold payload. by rewrite <- app_assoc. }
  assert (P : eng_diag_parse modenum a (ext_data_buf (collecting (translate_packet payload))) (zlen (translate_packet payload)) =
              Some (CMD_USER_PRODUCT_CTRL, a, payload_buf payload)).
  { unfold eng_diag_parse. rewrite decode_payload by done. cbn [mbind option_bind]. rewrite Ep.
    rewrite subtype_of_buf, H7 by done. change ((0x7E :: hd ++ ?r) !! 7%nat) with ((hd ++ r) !! 6%nat).
    rewrite lookup_app_l, H6 by (unfold HEAD in L; lia). cbn [mbind option_bind Z.eqb Pos.eqb].
    rewrite (proj2 (Z.eqb_neq s 7)), (proj2 (Z.leb_le 2 s)), (proj2 (Z.leb_le s 4)) by lia. done. }
  change init_user_diag_buf with (collecting []) at 1. unfold vdiag_serial.
  rewrite (run_frame (flat_map escape payload) (escaped_no_flag _)) with (type := CMD_USER_PRODUCT_CTRL) (a' := a) (m := payload_buf payload); try done.
  - unfold translate_packet in Hl. cbn [app length] in Hl. rewrite length_app in Hl. cbn [length] in Hl. lia.
  - rewrite E. done.
Qed.

#[local] Abbreviation demo_payload := (demo_head 3 ++ le16 0 ++ le16 2 ++ [0x7e; 5]).
Lemma product_request_delivered_witness :
  vdiag_serial 4 (fun _ a _ => a) link_init [Some [0x7e; 1; 0]; Some [0x7d]; None; Some [0x5e; 0; 20; 0; 0x0D; 3; 0; 0; 2]; Some [0; 0x7d; 0x5e; 5; 0x7e]] =
    Some (link_init, [Handle CMD_USER_PRODUCT_CTRL (payload_buf demo_payload)]).
Proof.
  apply (product_request_delivered 4 (fun _ a _ => a) (demo_head 3) (le16 0 ++ le16 2 ++ [0x7e; 5]) 3
    [Some [0x7e; 1; 0]; Some [0x7d]; None; Some [0x5e; 0; 20; 0; 0x0D; 3; 0; 0; 2]; Some [0; 0x7d; 0x5e; 5; 0x7e]] ap_init false);
    try reflexivity; try done.
Defined.

(** ** The phase check record *)

(** Only a complete write command changes the product data through the phase
    check interface.  Whatever arrives, if the file is different afterwards
    then the CRC-16 at the end of the message matched its data, the message
    was a write with a command, and what was written is that data, at the
    start of the file; in every other case the file is untouched. *)
Lemma phschk_write_guarded junk m d a d' :
  eng_diag_direct_phschk junk m d = Some (a, d') -> d' <> d ->
  exists data recv subtype f, load m 9 (get16 m 5 - 10) = Some data /\ load m (get16 m 5 - 1) 2 = Some recv /\
    le_dec recv = crc16 0 data /\ m !! 8%nat = Some subtype /\ Z.land subtype RW_MASK = 0 /\ Z.land subtype 0x7f <> 0 /\
    productinfo d = Some f /\ productinfo d' = Some (data ++ drop (length data) f).
Proof.
  unfold eng_diag_direct_phschk. cbv zeta. destruct (m !! 8%nat) as [subtype|] eqn:E8; [|done].
  destruct (load m (get16 m 5 - 1) 2) as [recv|] eqn:Er; [|done]. destruct (load m 9 (get16 m 5 - 10)) as [data|] eqn:Ed; [|done].
  cbn [mbind option_bind]. destruct (Z.eqb_spec (le_dec recv) (crc16 0 data)) as [Hc|Hc]; cbn [negb]; [|by intros [= <- <-]].
  destruct (Z.eqb_spec (Z.land subtype RW_MASK) 0) as [Hw|Hw].
  - destruct (Z.eqb_spec (Z.land subtype 0x7f) 0) as [Hs|Hs]; cbn [negb].
    { destruct (answer _); cbn [mbind option_bind]; [by intros [= <- <-]|done]. }
    unfold eng_write_productnvdata. destruct (productinfo d) as [f|] eqn:Ef; [destruct (wr_ok d) eqn:Ew|].
    + destruct (answer _); cbn [mbind option_bind]; [|done]. intros [= <- <-] _. exists data, recv, subtype, f. by split_and!.
    + destruct (answer _); cbn [mbind option_bind]; [by intros [= <- <-]|done].
    + destruct (answer _); cbn [mbind option_bind]; [by intros [= <- <-]|done].
  - destruct (eng_read_productnvdata d _) as [r nverr]. destruct (answer _); cbn [mbind option_bind]; [by intros [= <- <-]|done].
Qed.

(** The phase check message: header with its length, data, CRC. *)
Definition phschk_msg (seq data : list Z) (subtype : Z) : list Z :=
  seq ++ le16 (10 + zlen data) ++ [0x5F; subtype] ++ data ++ le16 (crc16 0 data).

Lemma crc16_table_ok :
  forallb (fun i => (0 <=? nth (Z.to_nat i) crc16_table 0) && (nth (Z.to_nat i) crc16_table 0 <? 2 ^ 16)) (seqZ 0 256) = true /\
  NoDup ((fun t => t / 256) <$> crc16_table).
Proof. split; [vm_compute; reflexivity|]. apply (bool_decide_unpack _). vm_compute. exact I. Qed.

(** One step of the CRC: the index into the table and the new value. *)
Definition crc_index (crc b : Z) : Z := Z.land (Z.lxor crc b) 0xff.
Definition crc_step (crc b : Z) : Z := Z.lxor (Z.shiftr crc 8) (nth (Z.to_nat (crc_index crc b)) crc16_table 0).

Lemma crc_index_range crc b : 0 <= crc_index crc b < 256.
Proof. unfold crc_index. change 0xff with (Z.ones 8). rewrite Z.land_ones by lia. apply Z.mod_pos_bound. lia. Qed.
Lemma crc_entry i : 0 <= i < 256 -> 0 <= nth (Z.to_nat i) crc16_table 0 < 2 ^ 16.
Proof. intros Hi. pose proof (forall_below _ _ (proj1 crc16_table_ok) i Hi) as H. cbv beta in H. lia. Qed.
Lemma crc_high crc : 0 <= crc < 2 ^ 16 -> 0 <= Z.shiftr crc 8 < 2 ^ 8.
Proof. intros H. rewrite Z.shiftr_div_pow2 by lia. zlia. Qed.

Lemma crc_step_range crc b : 0 <= crc < 2 ^ 16 -> 0 <= crc_step crc b < 2 ^ 16.
Proof.
  intros H. apply (lxor_range 16); [lia| |apply crc_entry, crc_index_range]. pose proof (crc_high crc H). lia.
Qed.

Lemma crc16_from crc data : 0 <= crc < 2 ^ 16 -> 0 <= crc16 crc data < 2 ^ 16.
Proof.
  unfold crc16, calculate_crc. revert crc. induction data as [|b data IH]; intros crc H; [done|]. cbn [fold_left].
  apply IH. by apply (crc_step_range crc b).
Qed.

(** The high byte of a step is the high byte of the table entry, and these are
    all different: a step determines the index, and so the register. *)
Lemma crc_step_high crc b : 0 <= crc < 2 ^ 16 -> crc_step crc b / 256 = nth (Z.to_nat (crc_index crc b)) crc16_table 0 / 256.
Proof.
  intros H. unfold crc_step. change 256 with (2 ^ 8). rewrite <- !Z.shiftr_div_pow2, Z.shiftr_lxor by lia.
  replace (Z.shiftr (Z.shiftr crc 8) 8) with 0; [by rewrite Z.lxor_0_l|]. rewrite Z.shiftr_shiftr, Z.shiftr_div_pow2 by lia. zlia.
Qed.

Lemma crc_step_index crc crc' b b' :
  0 <= crc < 2 ^ 16 -> 0 <= crc' < 2 ^ 16 -> crc_step crc b = crc_step crc' b' -> crc_index crc b = crc_index crc' b'.
Proof.
  intros H H' E. apply (f_equal (fun z => z / 256)) in E. rewrite !crc_step_high in E by done.
  pose proof (crc_index_range crc b). pose proof (crc_index_range crc' b').
  assert (L : forall i, 0 <= i < 256 -> ((fun t => t / 256) <$> crc16_table) !! Z.to_nat i = Some (nth (Z.to_nat i) crc16_table 0 / 256)).
  { intros i Hi. rewrite list_lookup_fmap. assert (Z.to_nat i < length crc16_table)%nat by (change (length crc16_table) with 256%nat; lia).
    destruct (lookup_lt_is_Some_2 crc16_table (Z.to_nat i)) as [y Hy]; [done|]. by rewrite (nth_lookup_Some _ _ 0 _ Hy), Hy. }
  pose proof (L (crc_index crc b) ltac:(lia)) as L1. rewrite E in L1. pose proof (L (crc_index crc' b') ltac:(lia)) as L2.
  pose proof (NoDup_lookup _ _ _ _ (proj2 crc16_table_ok) L1 L2). lia.
Qed.

Lemma crc_index_lxor crc b : crc_index crc b = Z.lxor (crc mod 2 ^ 8) (b mod 2 ^ 8).
Proof.
  unfold crc_index. change 0xff with (Z.ones 8). rewrite <- !Z.land_ones by lia. apply Z.bits_inj'. intros i Hi.
  rewrite !Z.land_spec, !Z.lxor_spec, !Z.land_spec. by destruct (Z.testbit crc i), (Z.testbit b i), (Z.testbit (Z.ones 8) i).
Qed.

Lemma crc_step_inj crc crc' b : 0 <= crc < 2 ^ 16 -> 0 <= crc' < 2 ^ 16 -> crc_step crc b = crc_step crc' b -> crc = crc'.
Proof.
  intros H H' E. pose proof (crc_step_index _ _ _ _ H H' E) as I. unfold crc_step in E. rewrite I in E. apply lxor_cancel_r in E.
  rewrite !crc_index_lxor in I. apply lxor_cancel_r in I. rewrite !Z.shiftr_div_pow2 in E by lia. zlia.
Qed.

Lemma crc16_inj crc crc' s : 0 <= crc < 2 ^ 16 -> 0 <= crc' < 2 ^ 16 -> crc16 crc s = crc16 crc' s -> crc = crc'.
Proof.
  revert crc crc'. induction s as [|b s IH]; intros crc crc' H H' E; [done|].
  apply (crc_step_inj crc crc' b); try done. apply IH; [by apply crc_step_range|by apply crc_step_range|exact E].
Qed.

(** The CRC detects every error that is confined to one byte. *)
Lemma crc16_detects_byte_error p b b' s : is_byte b -> is_byte b' -> b <> b' -> crc16 0 (p ++ b :: s) <> crc16 0 (p ++ b' :: s).
Proof.
  intros Hb Hb' Hne E. unfold crc16, calculate_crc in E. rewrite !fold_left_app in E. cbn [fold_left] in E.
  pose proof (crc16_from 0 p ltac:(lia)) as R. unfold crc16, calculate_crc in R. set (c := fold_left _ p 0) in *. clearbody c.
  apply (crc16_inj (crc_step c b) (crc_step c b') s) in E; [|by apply crc_step_range..].
  apply crc_step_index in E; [|done..]. rewrite !crc_index_lxor in E. rewrite !(Z.lxor_comm (c mod _)) in E. apply lxor_cancel_r in E.
  apply Hne. unfold is_byte in *. zlia.
Qed.

Lemma le16_dec z : 0 <= z < 2 ^ 16 -> le_dec (le16 z) = z.
Proof. intros H. by apply (le_dec_enc 2). Qed.

(** The fields of a phase check message. *)
Lemma phschk_fields seq data subtype crc (m := payload_buf (seq ++ le16 (10 + zlen data) ++ [0x5F; subtype] ++ data ++ crc)) :
  length seq = 4%nat -> length crc = 2%nat -> 10 + zlen data < 2 ^ 16 ->
  get16 m 5 = 10 + zlen data /\ m !! 8%nat = Some subtype /\ load m (10 + zlen data - 1) 2 = Some crc /\ load m 9 (10 + zlen data - 10) = Some data /\ head_of m = seq ++ le16 (10 + zlen data) ++ [0x5F; subtype].
Proof.
  intros Ls Lc Ld. unfold m, payload_buf. set (z := 0x20 :: replicate _ 0). clearbody z. clear m. set (n := 10 + zlen data).
  assert (Lh : length (seq ++ le16 n ++ [0x5F; subtype]) = HEAD) by (rewrite !length_app, le_enc_length, Ls; done).
  assert (Em : (seq ++ le16 n ++ [0x5F; subtype] ++ data ++ crc) ++ z = (seq ++ le16 n ++ [0x5F; subtype]) ++ data ++ crc ++ z)
    by (by rewrite <- !app_assoc).
  rewrite Em. split_and!.
  - replace (0x7E :: (seq ++ le16 n ++ [0x5F; subtype]) ++ data ++ crc ++ z) with ((0x7E :: seq) ++ le16 n ++ [0x5F; subtype] ++ data ++ crc ++ z)
      by (cbn [app]; by rewrite <- !app_assoc). apply get16_at; [cbn [length]; lia|unfold n; lia].
  - rewrite subtype_of_buf by done. rewrite lookup_app_r, Ls by lia. change (7 - 4)%nat with 3%nat. done.
  - replace (0x7E :: (seq ++ le16 n ++ [0x5F; subtype]) ++ data ++ crc ++ z) with ((0x7E :: (seq ++ le16 n ++ [0x5F; subtype]) ++ data) ++ crc ++ z)
      by (cbn [app]; by rewrite <- !app_assoc). apply load_mid; [|by rewrite Lc]. cbn [length]. rewrite length_app, Lh. unfold HEAD, n. lia.
  - apply (load_mid (0x7E :: seq ++ le16 n ++ [0x5F; subtype])); [cbn [length]; rewrite Lh; done|unfold n; lia].
  - by apply head_of_buf.
Qed.

(** A message with one wrong byte in its data is not answered and changes
    nothing. *)
Lemma phschk_rejects_corruption junk seq p b b' s subtype d :
  length seq = 4%nat -> is_byte b -> is_byte b' -> b <> b' -> 10 + zlen (p ++ b :: s) < 2 ^ 16 ->
  eng_diag_direct_phschk junk
    (payload_buf (seq ++ le16 (10 + zlen (p ++ b :: s)) ++ [0x5F; subtype] ++ (p ++ b' :: s) ++ le16 (crc16 0 (p ++ b :: s)))) d = Some ([], d).
Proof.
  intros Ls Hb Hb' Hne Hl. assert (El : zlen (p ++ b :: s) = zlen (p ++ b' :: s)) by (rewrite !length_app; done). rewrite El in *.
  destruct (phschk_fields seq (p ++ b' :: s) subtype (le16 (crc16 0 (p ++ b :: s))) Ls (le_enc_length 2 _) Hl) as (F1 & F2 & F3 & F4 & _).
  unfold eng_diag_direct_phschk. cbv zeta. rewrite F1, F2, F3, F4. cbn [mbind option_bind].
  rewrite le16_dec by (by apply crc16_from). rewrite (proj2 (Z.eqb_neq _ _)); [done|by apply crc16_detects_byte_error].
Qed.

Lemma phschk_write junk seq data subtype f :
  length seq = 4%nat -> Z.land subtype RW_MASK = 0 -> Z.land subtype 0x7f <> 0 -> data <> [] -> 10 + zlen data < 2 ^ 16 ->
  eng_diag_direct_phschk junk (payload_buf (phschk_msg seq data subtype)) (mkDisk (Some f) true) =
    Some (translate_packet (seq ++ le16 10 ++ [0x5F; 1] ++ le16 0), mkDisk (Some (data ++ drop (length data) f)) true).
Proof.
  intros Ls Hw Hs Hd Hl.
  destruct (phschk_fields seq data subtype (le16 (crc16 0 data)) Ls (le_enc_length 2 _) Hl) as (F1 & F2 & F3 & F4 & F5).
  unfold eng_diag_direct_phschk, phschk_msg. cbv zeta. rewrite F1, F2, F3, F4. cbn [mbind option_bind].
  rewrite le16_dec by (by apply crc16_from). rewrite Z.eqb_refl, Hw. cbn [negb Z.eqb].
  rewrite (proj2 (Z.eqb_neq (Z.land subtype 0x7f) 0)) by done. cbn [negb]. unfold eng_write_productnvdata. cbn [productinfo wr_ok].
  rewrite (proj2 (Nat.eqb_neq (length data) 0)) by (by destruct data). cbn [Z.eqb]. rewrite F5.
  assert (Eh : with_len 10 (with_subtype 1 (seq ++ le16 (10 + zlen data) ++ [0x5F; subtype])) = seq ++ le16 10 ++ [0x5F; 1]).
  { destruct seq as [|? [|? [|? [|? [|]]]]]; try done. }
  rewrite Eh, answer_small by (rewrite !length_app, !le_enc_length, Ls; cbn; lia). cbn [mbind option_bind]. by rewrite <- !app_assoc.
Qed.

Lemma phschk_read junk seq data subtype info rest w :
  length seq = 4%nat -> Z.land subtype RW_MASK <> 0 -> 10 + zlen data < 2 ^ 16 -> length info = TEST_DATA_INFO_SIZE ->
  eng_diag_direct_phschk junk (payload_buf (phschk_msg seq data subtype)) (mkDisk (Some (info ++ rest)) w) =
    Some (translate_packet (seq ++ le16 266 ++ [0x5F; 1] ++ info ++ le16 (crc16 0 info)), mkDisk (Some (info ++ rest)) w).
Proof.
  intros Ls Hw Hl Hi.
  destruct (phschk_fields seq data subtype (le16 (crc16 0 data)) Ls (le_enc_length 2 _) Hl) as (F1 & F2 & F3 & F4 & F5).
  unfold eng_diag_direct_phschk, phschk_msg. cbv zeta. rewrite F1, F2, F3, F4. cbn [mbind option_bind].
  rewrite le16_dec by (by apply crc16_from). rewrite Z.eqb_refl. cbn [negb].
  rewrite (proj2 (Z.eqb_neq (Z.land subtype RW_MASK) 0)) by done. unfold eng_read_productnvdata. cbn [productinfo].
  assert (Et : take (Z.to_nat eng_diag_size) (info ++ rest) = info ++ take (Z.to_nat eng_diag_size - TEST_DATA_INFO_SIZE) rest).
  { rewrite take_app, take_ge, Hi; [done|]. rewrite Hi. unfold eng_diag_size, TEST_DATA_INFO_SIZE. lia. }
  rewrite Et, F5. set (t := take _ rest). rewrite (proj2 (Nat.eqb_neq (length (info ++ t)) 0)) by (rewrite length_app, Hi; done).
  cbn [Z.eqb]. rewrite <- app_assoc. rewrite <- Hi, take_app_length.
  assert (Eh : with_len 266 (with_subtype 1 (seq ++ le16 (10 + zlen data) ++ [0x5F; subtype])) = seq ++ le16 266 ++ [0x5F; 1]).
  { destruct seq as [|? [|? [|? [|? [|]]]]]; try done. }
  rewrite Eh, answer_small by (rewrite !length_app, !le_enc_length, Ls, Hi; unfold TEST_DATA_INFO_SIZE; cbn; lia).
  cbn [mbind option_bind]. by rewrite <- !app_assoc.
Qed.

(** The phase check record survives a round trip.  A record of 256 bytes that
    the production tool writes is acknowledged and stored at the start of the
    product file, and a later read command, whatever its own data, is answered
    with a frame that decodes to exactly that record followed by its CRC-16. *)
Lemma phschk_roundtrip junk seqw seqr record other sw sr f :
  length seqw = 4%nat -> length seqr = 4%nat -> length record = TEST_DATA_INFO_SIZE -> 10 + zlen other < 2 ^ 16 ->
  Z.land sw RW_MASK = 0 -> Z.land sw 0x7f <> 0 -> Z.land sr RW_MASK <> 0 ->
  exists ack rsp disk',
    eng_diag_direct_phschk junk (payload_buf (phschk_msg seqw record sw)) (mkDisk (Some f) true) = Some (ack, disk') /\
    productinfo disk' = Some (record ++ drop TEST_DATA_INFO_SIZE f) /\
    untranslate_packet_header ack (-1) = seqw ++ le16 10 ++ [0x5F; 1] ++ le16 0 /\
    eng_diag_direct_phschk junk (payload_buf (phschk_msg seqr other sr)) disk' = Some (rsp, disk') /\
    untranslate_packet_header rsp (-1) = seqr ++ le16 266 ++ [0x5F; 1] ++ record ++ le16 (crc16 0 record).
Proof.
  intros Lw Lr Li Lo Hw Hs Hr. assert (Hne : record <> []) by (intros ->; done).
  eexists _, _, _. split; [apply phschk_write; (done || (rewrite Li; unfold TEST_DATA_INFO_SIZE; lia))|]. rewrite Li.
  split; [done|]. split; [apply untranslate_header_translate|]. split; [by apply phschk_read|apply untranslate_header_translate].
Qed.

Lemma phschk_roundtrip_witness :
  let record := replicate TEST_DATA_INFO_SIZE 0x7e in
  exists ack rsp disk',
    eng_diag_direct_phschk (fun n => replicate n 0) (payload_buf (phschk_msg [1; 2; 3; 4] record 1)) (mkDisk (Some [5]) true) = Some (ack, disk') /\
    productinfo disk' = Some (record ++ drop TEST_DATA_INFO_SIZE [5]) /\
    untranslate_packet_header ack (-1) = [1; 2; 3; 4] ++ le16 10 ++ [0x5F; 1] ++ le16 0 /\
    eng_diag_direct_phschk (fun n => replicate n 0) (payload_buf (phschk_msg [9; 9; 9; 9] [] 0x81)) disk' = Some (rsp, disk') /\
    untranslate_packet_header rsp (-1) = [9; 9; 9; 9] ++ le16 266 ++ [0x5F; 1] ++ record ++ le16 (crc16 0 record).
Proof.
  intros record. apply (phschk_roundtrip (fun n => replicate n 0) [1; 2; 3; 4] [9; 9; 9; 9] record [] 1 0x81 [5]); try reflexivity; try done.
Defined.

Lemma phschk_write_guarded_witness :
  exists a d', eng_diag_direct_phschk (fun n => replicate n 0) (payload_buf (phschk_msg [1; 2; 3; 4] [7; 8] 1)) (mkDisk (Some [5; 6; 7]) true) = Some (a, d') /\
    d' = mkDisk (Some [7; 8; 7]) true /\
    exists data recv subtype f, load (payload_buf (phschk_msg [1; 2; 3; 4] [7; 8] 1)) 9 (get16 (payload_buf (phschk_msg [1; 2; 3; 4] [7; 8] 1)) 5 - 10) = Some data /\
      load (payload_buf (phschk_msg [1; 2; 3; 4] [7; 8] 1)) (get16 (payload_buf (phschk_msg [1; 2; 3; 4] [7; 8] 1)) 5 - 1) 2 = Some recv /\
      le_dec recv = crc16 0 data /\ payload_buf (phschk_msg [1; 2; 3; 4] [7; 8] 1) !! 8%nat = Some subtype /\
      Z.land subtype RW_MASK = 0 /\ Z.land subtype 0x7f <> 0 /\
      Some [5; 6; 7] = Some f /\ productinfo d' = Some (data ++ drop (length data) f).
Proof.
  eexists _, _. split; [vm_compute; reflexivity|]. split; [reflexivity|].
  eapply (phschk_write_guarded (fun n => replicate n 0) (payload_buf (phschk_msg [1; 2; 3; 4] [7; 8] 1)) (mkDisk (Some [5; 6; 7]) true));
    [vm_compute; reflexivity|discriminate].
Defined.

(** ** Test results *)

(** What the tool makes of the rows. *)
Fixpoint parse_rows (fuel : nat) (l : list Z) : list test_result :=
  match fuel, l with
  | S k, n :: g :: v :: r => mkResult g v (take (Z.to_nat (n - 2)) r) :: parse_rows k (drop (Z.to_nat (n - 2)) r)
  | _, _ => []
  end.

Lemma parse_rows_ok rows fuel :
  Forall (fun r => is_byte (groupid r) /\ is_byte (value r) /\ (length (name r) <= 253)%nat) rows -> (length rows <= fuel)%nat ->
  parse_rows fuel (flat_map mmicit_row rows) = rows.
Proof.
  intros H. revert fuel. induction H as [|[g v n] rows (Hg & Hv & Hn) _ IH]; intros [|k] Hf; cbn [length] in *; try done; try lia.
  cbn [flat_map]. unfold mmicit_row at 1. cbn [groupid value name app] in *. cbn [parse_rows].
  rewrite !u8_small by (done || (unfold is_byte; lia)). replace (Z.to_nat (zlen n + 2 - 2)) with (length n) by lia.
  rewrite take_app_length, drop_app_length. by rewrite IH by lia.
Qed.

(** The answer carries every test result. *)
Lemma mmicit_complete m len rows a :
  Forall (fun r => is_byte (groupid r) /\ is_byte (value r) /\ (length (name r) <= 253)%nat) rows ->
  length (head_of m) = HEAD -> eng_diag_mmicit_read m len (Some rows) = Some a ->
  parse_rows (length rows) (drop HEAD (untranslate_packet_header a (-1))) = rows.
Proof.
  intros H L. unfold eng_diag_mmicit_read. destruct (_ <? _); [done|]. unfold answer. destruct (_ <=? _); [|done]. intros [= <-].
  rewrite untranslate_header_translate. set (h := with_len _ _).
  assert (Lh : length h = HEAD) by (by apply with_len_length). rewrite drop_app_ge, Lh, Nat.sub_diag, drop_0 by lia. by apply parse_rows_ok.
Qed.

(** ** Defects *)
#[local] Abbreviation zero_junk := (fun n => replicate n 0).
#[local] Abbreviation head s := [0; 0; 0; 0; 0; 0; 0x0D; s].

(** A write at an offset loses its last bytes. *)
Lemma product_offset_tail_lost :
  eng_diag_product_ctrl zero_junk (payload_buf (head 3 ++ le16 2 ++ le16 3 ++ [7; 8; 9])) (mkDisk (Some [1; 2; 3; 4; 5; 6]) true) =
    Some ([0x7E; 0; 0; 0; 0; 8; 0; 0x0D; 0; 0x7E], mkDisk (Some [1; 2; 7; 4; 5; 6]) true).
Proof. vm_compute. reflexivity. Qed.
(** An offset near the end writes behind the buffer. *)
Lemma product_offset_overflow :
  eng_diag_product_ctrl zero_junk (payload_buf (head 3 ++ le16 8190 ++ le16 3 ++ [7; 8; 9])) (mkDisk (Some [1; 2; 3]) true) = None.
Proof. vm_compute. reflexivity. Qed.
(** An answer that grows by its escapes overflows the answer buffer. *)
Lemma product_answer_overflow :
  eng_diag_product_ctrl zero_junk (payload_buf (head 2 ++ le16 0 ++ le16 4100)) (mkDisk (Some (replicate (Z.to_nat 4100) 0x7e)) true) = None.
Proof. vm_compute. reflexivity. Qed.
(** The erase command, which the parser accepts, is not answered. *)
Lemma product_erase_unanswered d : eng_diag_product_ctrl zero_junk (payload_buf (head 4 ++ le16 0 ++ le16 0)) d = Some ([], d).
Proof. reflexivity. Qed.
(** A simple answer repeats the sequence number without escapes. *)
Lemma plain_answer_cut :
  untranslate_packet_header (plain_answer [0x7e; 0; 0; 0; 0; 0; 12; 8] eng_diag_bootreset) (-1) = [0; 0; 0; 10; 0; 12; 8; 79; 75].
Proof. reflexivity. Qed.
