(* ===== verification/NvmDaemon.v ===== *)
(** * The NV daemon of the flash-less modems (apps/nvm_daemon/nvitem.c)

    The modem sends requests through /dev/vbpipe1: a header of twelve bytes and
    then the data of the fixed NV, the running NV or the product information;
    a header alone asks for a sync.  The fixed NV is stamped with a checksum
    and an index and kept twice: the first file is rewritten by every request,
    its backup by the next sync.

    A run is driven by the results of the reads of the pipe, a list; the
    results of the writes to files are a second list, empty when every further
    write is complete.  Outside a buffer a store has no result ([None]).
    [req_head_info_count] only limits the log and is not kept.  [emmc] stands
    for the macro CONFIG_EMMC: partitions in place of files, which are not
    created when missing. *)
From S2P Require Import Prelude.
From S2P Require Import Checksum.
From S2P Require Import RawData.
From S2P Require Import ModemBoot.

Definition FIXNV_SIZE : Z := 64 * 1024.
Definition RUNTIMENV_SIZE : Z := 256 * 1024.
Definition PRODUCTINFO_SIZE : Z := 3 * 1024.
Definition DATA_BUF_LEN : Z := 2048 * 10.

(** The result of one read of the pipe: bytes, none at the end of the
    connection, or an error. *)
Inductive pipe_read := Got (b : list Z) | Failed.

(** ** Files *)
Inductive file_op := FWrite (path : string) (pos : nat) (b : list Z).

(** [write] at a position of the file; a gap is filled with zeros. *)
Definition fwrite (c : list Z) (pos : nat) (b : list Z) : list Z :=
  take pos (c ++ replicate (pos - length c) 0) ++ b ++ drop (pos + length b) c.

Definition apply_op (f : gmap string (list Z)) (o : file_op) : gmap string (list Z) :=
  match o with FWrite p pos b => <[p := fwrite (default [] (f !! p)) pos b]> f end.

Record os := mkOs { files : gmap string (list Z); results : list Z; log : list file_op }.

Definition do_op (o : file_op) (s : os) : os := mkOs (apply_op (files s) o) (results s) (log s ++ [o]).

(** [write]: the next result, never more than was asked for. *)
Definition do_write (s : os) (path : string) (pos : Z) (b : list Z) : Z * os :=
  let n := match results s with [] => zlen b | r :: _ => Z.min r (zlen b) end in
  let s := mkOs (files s) (tail (results s)) (log s) in
  if 0 <? n then (n, do_op (FWrite path (Z.to_nat pos) (take (Z.to_nat n) b)) s) else (n, s).

(** ** The daemon *)
Record nvm := mkNvm {
  fixnv_buffer : list Z; fixnv_buffer_offset : Z;
  phasecheck_buffer : list Z; phasecheck_buffer_offset : Z;
  indexvalue : Z; update_finxn_flag : bool;
  req_header : list Z; replies : list (list Z); sys : os }.

Definition set_fix (s : nvm) (b : list Z) (o : Z) : nvm :=
  mkNvm b o (phasecheck_buffer s) (phasecheck_buffer_offset s) (indexvalue s) (update_finxn_flag s)
    (req_header s) (replies s) (sys s).
Definition set_phase (s : nvm) (b : list Z) (o : Z) : nvm :=
  mkNvm (fixnv_buffer s) (fixnv_buffer_offset s) b o (indexvalue s) (update_finxn_flag s)
    (req_header s) (replies s) (sys s).
Definition set_index (s : nvm) (i : Z) : nvm :=
  mkNvm (fixnv_buffer s) (fixnv_buffer_offset s) (phasecheck_buffer s) (phasecheck_buffer_offset s)
    i (update_finxn_flag s) (req_header s) (replies s) (sys s).
Definition set_flag (s : nvm) (f : bool) : nvm :=
  mkNvm (fixnv_buffer s) (fixnv_buffer_offset s) (phasecheck_buffer s) (phasecheck_buffer_offset s)
    (indexvalue s) f (req_header s) (replies s) (sys s).
Definition set_header (s : nvm) (h : list Z) : nvm :=
  mkNvm (fixnv_buffer s) (fixnv_buffer_offset s) (phasecheck_buffer s) (phasecheck_buffer_offset s)
    (indexvalue s) (update_finxn_flag s) h (replies s) (sys s).
Definition reply (s : nvm) (b : list Z) : nvm :=
  mkNvm (fixnv_buffer s) (fixnv_buffer_offset s) (phasecheck_buffer s) (phasecheck_buffer_offset s)
    (indexvalue s) (update_finxn_flag s) (req_header s) (replies s ++ [b]) (sys s).
Definition set_sys (s : nvm) (o : os) : nvm :=
  mkNvm (fixnv_buffer s) (fixnv_buffer_offset s) (phasecheck_buffer s) (phasecheck_buffer_offset s)
    (indexvalue s) (update_finxn_flag s) (req_header s) (replies s) o.

(** The fields of [request_header_t]. *)
Definition hdr_type (h : list Z) : Z := get16 h 0.
Definition hdr_req_type (h : list Z) : Z := get16 h 2.
Definition hdr_offset (h : list Z) : Z := get32 h 4.
Definition hdr_size (h : list Z) : Z := get32 h 8.

(** The same code as [calc_checksum] of apps/nvitem/nvitem_fs.c, at an even
    address. *)
Definition nvm_checksum (dat : list Z) (len : Z) : option Z := calc_checksum false dat len.

Section Nvm.
Context (emmc : bool) (can_open : string -> bool).

Definition FIX_NV1 : string := if emmc then "/dev/block/mmcblk0p4" else "/fixnv/fixnv.bin".
Definition FIX_NV2 : string := if emmc then "/dev/block/mmcblk0p5" else "/backupfixnv/fixnv.bin".
Definition RUNTIME_NV1 : string := if emmc then "/dev/block/mmcblk0p6" else "/runtimenv/runtimenv.bin".
Definition RUNTIME_NV2 : string := if emmc then "/dev/block/mmcblk0p7" else "/runtimenv/runtimenvbkup.bin".
Definition PROD_INFO1 : string := if emmc then "/dev/block/mmcblk0p8" else "/productinfo/productinfo.bin".
Definition PROD_INFO2 : string := if emmc then "/dev/block/mmcblk0p9" else "/productinfo/productinfobkup.bin".

(** [open]: a missing file is created, a missing partition is an error. *)
Definition open_file (s : os) (path : string) : option os :=
  if can_open path then
    match files s !! path with
    | Some _ => Some s
    | None => if emmc then None else Some (do_op (FWrite path 0 []) s)
    end
  else None.

Definition update_fixnvfile (src : string) (size : Z) (s : nvm) : option (Z * nvm) :=
  sum ← nvm_checksum (fixnv_buffer s) (size - 4);
  b ← store (fixnv_buffer s) (size - 4) (le_enc 2 sum);
  b ← store b (size - 2) (le_enc 2 ((indexvalue s + 1) mod 100));
  b ← store b size [0x5a; 0x5a; 0x5a; 0x5a];
  let s := set_fix s b (fixnv_buffer_offset s) in
  match open_file (sys s) src with
  | None => Some (-1, s)
  | Some o =>
      d ← load b 0 (size + 4);
      let '(_, o) := do_write o src 0 d in
      Some (1, set_sys s o)
  end.

Definition update_backupfile (dst : string) (size : Z) (s : nvm) : option (Z * nvm) :=
  match open_file (sys s) dst with
  | None => Some (-1, s)
  | Some o =>
      d ← load (fixnv_buffer s) 0 (size + 4);
      let '(_, o) := do_write o dst 0 d in
      Some (1, set_sys s o)
  end.

(** Write [n] bytes of the product information to both files. *)
Definition write_both (src dst : string) (n : Z) (s : nvm) : option (Z * nvm) :=
  match open_file (sys s) src with
  | None => Some (-1, s)
  | Some o =>
      d ← load (phasecheck_buffer s) 0 n;
      let '(_, o) := do_write o src 0 d in
      match open_file o dst with
      | None => Some (-1, set_sys s o)
      | Some o =>
          let '(_, o) := do_write o dst 0 d in
          Some (1, set_sys s o)
      end
  end.

Definition update_productinfofile_emmc (src dst : string) (size : Z) (s : nvm) : option (Z * nvm) :=
  if String.eqb src dst then Some (-1, s) else
  if PRODUCTINFO_SIZE <? size then Some (-1, s) else
  b ← store (phasecheck_buffer s) size [0x5a; 0x5a; 0x5a; 0x5a];
  d ← load b 0 (size + 4);
  b ← store b (size + 4) (put_be32 (crc32b 0xffffffff (Some d)));
  write_both src dst (size + 8) (set_phase s b (phasecheck_buffer_offset s)).

Definition update_productinfofile (src dst : string) (size : Z) (s : nvm) : option (Z * nvm) :=
  if String.eqb src dst then Some (-1, s) else
  sum ← nvm_checksum (phasecheck_buffer s) size;
  b ← store (phasecheck_buffer s) size (le_enc 2 sum);
  b ← store b (size + 2) (le_enc 2 ((indexvalue s + 1) mod 100));
  write_both src dst (size + 4) (set_phase s b (phasecheck_buffer_offset s)).

(** ** The data of a request *)
Inductive data_result := DataDone (s : nvm) (rest : list pipe_read) | DataEof (s : nvm) (rest : list pipe_read)
  | DataBlocked (s : nvm).

(** The loop [while (total > 0)].  [length] is the variable that tells the
    three kinds apart; [pos1] and [pos2] are the positions in the two files of
    the running NV. *)
Fixpoint data_loop (length total pos1 pos2 : Z) (s : nvm) (script : list pipe_read) : option data_result :=
  if total <=? 0 then Some (DataDone s script) else
  match script with
  | [] => Some (DataBlocked s)
  | Failed :: rest => data_loop length total pos1 pos2 s rest
  | Got b :: rest =>
      let d := take (Z.to_nat (Z.min total DATA_BUF_LEN)) b in
      let r_cnt := zlen d in
      if r_cnt =? 0 then Some (DataEof s rest) else
      if length =? RUNTIMENV_SIZE then
        let '(w1, o) := do_write (sys s) RUNTIME_NV1 pos1 d in
        let s := set_sys s o in
        if w1 <? 0 then data_loop length total pos1 pos2 s rest else
        let '(w2, o) := do_write (sys s) RUNTIME_NV2 pos2 d in
        let s := set_sys s o in
        if w2 <? 0 then data_loop length total (pos1 + w1) pos2 s rest else
        data_loop length (total - r_cnt) (pos1 + w1) (pos2 + w2) s rest
      else if length =? FIXNV_SIZE then
        b ← store (fixnv_buffer s) (fixnv_buffer_offset s) d;
        data_loop length (total - r_cnt) pos1 pos2 (set_fix s b (fixnv_buffer_offset s +u r_cnt)) rest
      else
        b ← store (phasecheck_buffer s) (phasecheck_buffer_offset s) d;
        data_loop length (total - r_cnt) pos1 pos2 (set_phase s b (phasecheck_buffer_offset s +u r_cnt)) rest
  end.

(** ** One turn of the main loop *)
Inductive outcome := Done (s : nvm) (rest : list pipe_read) | Reopen (s : nvm) (rest : list pipe_read)
  | Exit (s : nvm) | Blocked (s : nvm).

Definition read_file (o : os) (path : string) (buf : list Z) (n : Z) : list Z :=
  splice buf 0 (take (Z.to_nat n) (default [] (files o !! path))).

(** [lseek] to a 32-bit offset: one that is negative as an [off_t] is refused
    and leaves the position at the start. *)
Definition seek (offset : Z) : Z := if offset <? 2 ^ 31 then offset else 0.

Definition load_fixnv (s : nvm) : option nvm :=
  o ← open_file (sys s) FIX_NV1;
  let b := read_file o FIX_NV1 (replicate (Z.to_nat (FIXNV_SIZE + 4)) 0xff) (FIXNV_SIZE + 4) in
  Some (set_fix (set_index (set_sys s o) (get16 b (Z.to_nat (FIXNV_SIZE - 2)))) b (hdr_offset (req_header s))).

Definition load_productinfo (s : nvm) : option nvm :=
  o ← open_file (sys s) PROD_INFO1;
  let n := PRODUCTINFO_SIZE + (if emmc then 8 else 4) in
  let b := read_file o PROD_INFO1 (replicate (Z.to_nat (PRODUCTINFO_SIZE + 8)) 0xff) n in
  let i := if emmc then indexvalue s else get16 b (Z.to_nat (PRODUCTINFO_SIZE + 2)) in
  Some (set_phase (set_index (set_sys s o) i) b (hdr_offset (req_header s))).

(** What follows the last byte of the data. *)
Definition finish (length : Z) (s : nvm) : option nvm :=
  if length =? RUNTIMENV_SIZE then Some s
  else if length =? PRODUCTINFO_SIZE then
    r ← (if emmc then update_productinfofile_emmc PROD_INFO1 PROD_INFO2 length s
         else update_productinfofile PROD_INFO1 PROD_INFO2 length s);
    Some (snd r)
  else r ← update_fixnvfile FIX_NV1 length (set_flag s true); Some (snd r).

Definition receive (length pos : Z) (s : nvm) (script : list pipe_read) : option outcome :=
  r ← data_loop length (s32 (hdr_size (req_header s))) pos pos s script;
  match r with
  | DataDone s rest => s ← finish length s; Some (Done s rest)
  | DataEof s rest => Some (Reopen s rest)
  | DataBlocked s => Some (Blocked s)
  end.

Definition request (s : nvm) (script : list pipe_read) : option outcome :=
  let type := hdr_type (req_header s) in
  if type =? 0 then
    match load_fixnv s with None => Some (Exit s) | Some s => receive FIXNV_SIZE 0 s script end
  else if type =? 1 then
    match open_file (sys s) RUNTIME_NV1 with
    | None => Some (Exit s)
    | Some o =>
        match open_file o RUNTIME_NV2 with
        | None => Some (Exit (set_sys s o))
        | Some o => receive RUNTIMENV_SIZE (seek (hdr_offset (req_header s))) (set_sys s o) script
        end
    end
  else if type =? 2 then
    match load_productinfo s with None => Some (Exit s) | Some s => receive PRODUCTINFO_SIZE 0 s script end
  else Some (Done s script).

Definition sync_command (s : nvm) : option nvm :=
  s ← (if update_finxn_flag s then r ← update_backupfile FIX_NV2 FIXNV_SIZE s; Some (snd r) else Some s);
  let s := set_flag s false in
  let h := splice (req_header s) 0 [0; 0] in
  Some (reply (set_header s h) h).

(** The body of [while (1)]: the result of the first read decides. *)
Definition turn (s : nvm) (script : list pipe_read) : option outcome :=
  match script with
  | [] => Some (Blocked s)
  | Failed :: rest => Some (Done s rest)
  | Got b :: rest =>
      let d := take 12 b in
      if zlen d =? 0 then Some (Reopen s rest) else
      let s := set_header s (splice (req_header s) 0 d) in
      if hdr_req_type (req_header s) =? 1 then s ← sync_command s; Some (Done s rest)
      else request s rest
  end.
End Nvm.

(** ** Files under a sequence of writes *)
Definition op_path (o : file_op) : string := match o with FWrite p _ _ => p end.
(** A write that a crash interrupts after [k] bytes. *)
Definition cut (k : nat) (o : file_op) : file_op := match o with FWrite p pos b => FWrite p pos (take k b) end.

(** The files after a crash somewhere in the sequence [ops]. *)
Definition crash (f : gmap string (list Z)) (ops : list file_op) (f' : gmap string (list Z)) : Prop :=
  exists pre, (exists post, ops = pre ++ post) /\ f' = fold_left apply_op pre f \/
    (exists o post k, ops = pre ++ o :: post /\ f' = apply_op (fold_left apply_op pre f) (cut k o)).

(** From [a] to [b] only the files [ps] are written, every write complete. *)
Definition touches (ps : list string) (a b : os) (ops : list file_op) : Prop :=
  log b = log a ++ ops /\ files b = fold_left apply_op ops (files a) /\
  Forall (fun o => op_path o ∈ ps) ops /\ results b = [].

Lemma apply_other o f q : op_path o <> q -> apply_op f o !! q = f !! q.
Proof. destruct o as [p pos b]. intros. cbn in *. by rewrite lookup_insert_ne. Qed.

Lemma applied_other ops f q :
  Forall (fun o => op_path o <> q) ops -> fold_left apply_op ops f !! q = f !! q.
Proof.
  revert f. induction ops as [|o ops IH]; intros f H; [done|]. apply Forall_cons_1 in H as [Ho H].
  cbn. by rewrite IH, apply_other.
Qed.

Lemma crash_other f ops f' q : Forall (fun o => op_path o <> q) ops -> crash f ops f' -> f' !! q = f !! q.
Proof.
  intros H [pre [[[post ->] ->]|(o & post & k & -> & ->)]]; apply Forall_app in H as [H1 H2].
  - by apply applied_other.
  - apply Forall_cons_1 in H2 as [Ho _]. rewrite apply_other by (destruct o; done). by apply applied_other.
Qed.

Lemma touches_refl ps a : results a = [] -> touches ps a a [].
Proof. intros. split; [by rewrite app_nil_r|done]. Qed.

Lemma touches_trans ps a b c o1 o2 : touches ps a b o1 -> touches ps b c o2 -> touches ps a c (o1 ++ o2).
Proof.
  intros (L1 & F1 & P1 & R1) (L2 & F2 & P2 & R2). split; [by rewrite L2, L1, app_assoc|].
  split; [by rewrite F2, F1, fold_left_app|]. split; [by apply Forall_app_2|done].
Qed.

Lemma touches_weaken ps qs a b ops : (forall p, p ∈ ps -> p ∈ qs) -> touches ps a b ops -> touches qs a b ops.
Proof.
  intros Hs (L & F & P & R). split; [done|]. split; [done|]. split; [|done].
  eapply List.Forall_impl; [|exact P]. intros o. apply Hs.
Qed.

Lemma touches_op ps a p pos b : p ∈ ps -> results a = [] -> touches ps a (do_op (FWrite p pos b) a) [FWrite p pos b].
Proof. intros Hp Hr. split; [done|]. split; [done|]. split; [|done]. by repeat constructor. Qed.

Lemma touches_not ps a b ops q : touches ps a b ops -> q ∉ ps -> Forall (fun o => op_path o <> q) ops.
Proof.
  intros (_ & _ & P & _) Hq. eapply List.Forall_impl; [|exact P]. intros o Ho E. cbn in Ho. by rewrite E in Ho.
Qed.

Lemma touches_other ps a b ops q : touches ps a b ops -> q ∉ ps -> files b !! q = files a !! q.
Proof. intros T Hq. pose proof (touches_not _ _ _ _ _ T Hq). destruct T as (_ & -> & _). by apply applied_other. Qed.

Lemma do_write_all s p pos b :
  results s = [] -> b <> [] -> do_write s p pos b = (zlen b, do_op (FWrite p (Z.to_nat pos) b) s).
Proof.
  intros Hr Hb. destruct s as [f r l]. cbn in Hr. subst r. unfold do_write. cbn [results files log tail].
  destruct b as [|x b]; [done|]. rewrite (proj2 (Z.ltb_lt _ _)) by (cbn [length]; lia).
  by rewrite Nat2Z.id, firstn_all.
Qed.

Lemma fwrite_0 c b : fwrite c 0 b = b ++ drop (length b) c.
Proof. done. Qed.

(** ** The stamped image *)
Definition fix_image (d : list Z) (idx : Z) : list Z :=
  d ++ le_enc 2 (fold_not (sum16 0 d)) ++ le_enc 2 idx ++ [0x5a; 0x5a; 0x5a; 0x5a].


Lemma fix_image_length d idx : length (fix_image d idx) = (length d + 8)%nat.
Proof. unfold fix_image. rewrite !length_app, !le_enc_length. cbn. lia. Qed.

(** The check of the boot code on an image with the checksum [lo], [hi]. *)
Lemma chkImg_shape d lo hi r size :
  zlen d = size - 4 -> (2 <= length r)%nat ->
  _chkImg (Some (d ++ lo :: hi :: r)) size = Some (fold_not (sum16 0 d) =? Z.lor (Z.shiftl hi 8) lo).
Proof.
  intros L Hr. destruct r as [|x [|y r]]; [cbn in Hr; lia..|]. unfold _chkImg.
  assert (E : take (Z.to_nat size) (d ++ lo :: hi :: x :: y :: r) = d ++ [lo; hi; x; y]).
  { replace (Z.to_nat size) with (length (d ++ [lo; hi; x; y])) by (rewrite length_app; cbn [length]; lia).
    change (lo :: hi :: x :: y :: r) with ([lo; hi; x; y] ++ r). by rewrite app_assoc, take_app_0. }
  rewrite E, length_app. cbn [length]. rewrite (proj2 (Z.eqb_eq _ _)) by lia. cbn [negb]. unfold ModemBoot._chkEcc.
  rewrite <- L, calc_checksum_prefix. cbn [mbind option_bind].
  replace (Z.to_nat (size - 3)) with (length d + 1)%nat by lia. rewrite Nat2Z.id.
  rewrite (lookup_app_r d _ (length d + 1)), (lookup_app_r d _ (length d)) by lia.
  replace (length d + 1 - length d)%nat with 1%nat by lia. rewrite Nat.sub_diag. done.
Qed.

(** A stamped image is accepted, whatever follows it. *)
Lemma fix_image_good d idx t size : zlen d = size - 4 -> _chkImg (Some (fix_image d idx ++ t)) size = Some true.
Proof.
  intros L. unfold fix_image. rewrite <- app_assoc. cbn [le_enc app]. rewrite chkImg_shape; [|done|cbn [length]; lia].
  f_equal. apply Z.eqb_eq. pose proof (fold_not_range (sum16 0 d)). rewrite (lor_shiftl_add 8) by zlia. zlia.
Qed.

Section Facts.
Context (emmc : bool) (can_open : string -> bool).
Abbreviation open_file := (open_file emmc can_open).
Implicit Types (s : nvm) (o : os).

Lemma open_file_spec o p o' :
  results o = [] -> open_file o p = Some o' ->
  (exists ops, touches [p] o o' ops) /\ default [] (files o' !! p) = default [] (files o !! p) /\
  can_open p = true /\ is_Some (files o' !! p).
Proof.
  unfold NvmDaemon.open_file. intros Hr. destruct (can_open p); [|done].
  destruct (files o !! p) as [c|] eqn:E.
  - intros [= <-]. rewrite E. split; [exists []; by apply touches_refl|]. split; [done|]. by split; [|eexists].
  - destruct emmc; [done|]. intros [= <-]. split; [eexists; apply touches_op; [set_solver|done]|].
    cbn. rewrite lookup_insert_eq, E. done.
Qed.

(** A file that is there is opened as it is. *)
Lemma open_file_there o p : can_open p = true -> is_Some (files o !! p) -> open_file o p = Some o.
Proof. unfold NvmDaemon.open_file. intros -> [c ->]. done. Qed.

(** The whole buffer written over the start of a file. *)
Lemma written o p b : files (do_op (FWrite p 0 b) o) !! p = Some (b ++ drop (length b) (default [] (files o !! p))).
Proof. cbn. by rewrite lookup_insert_eq. Qed.

Lemma update_fixnvfile_spec src size s o :
  zlen (fixnv_buffer s) = size + 4 -> 4 <= size -> results o = [] -> open_file (sys s) src = Some o ->
  let b := fix_image (take (Z.to_nat (size - 4)) (fixnv_buffer s)) ((indexvalue s + 1) mod 100) in
  update_fixnvfile emmc can_open src size s =
    Some (1, set_sys (set_fix s b (fixnv_buffer_offset s)) (do_op (FWrite src 0 b) o)).
Proof.
  intros L Hs Hr Ho b. unfold update_fixnvfile, nvm_checksum.
  set (d := take (Z.to_nat (size - 4)) (fixnv_buffer s)) in *.
  assert (Ld : zlen d = size - 4) by (unfold d; rewrite length_take; lia).
  rewrite <- (take_drop (Z.to_nat (size - 4)) (fixnv_buffer s)). fold d.
  set (r := drop (Z.to_nat (size - 4)) (fixnv_buffer s)).
  assert (Lr : length r = 8%nat) by (unfold r; rewrite length_drop; lia).
  rewrite <- Ld, calc_checksum_prefix. cbn [mbind option_bind].
  destruct r as [|r0 [|r1 [|r2 [|r3 [|r4 [|r5 [|r6 [|r7 [|]]]]]]]]]; try done.
  rewrite (store_mid d [r0; r1] _ [r2; r3; r4; r5; r6; r7]) by done. cbn [mbind option_bind].
  set (sum := le_enc 2 (fold_not (sum16 0 d))).
  replace (d ++ sum ++ [r2; r3; r4; r5; r6; r7]) with ((d ++ sum) ++ [r2; r3] ++ [r4; r5; r6; r7]) by by rewrite <- app_assoc.
  rewrite store_mid; [|rewrite length_app; cbn [sum length le_enc]; lia|done]. cbn [mbind option_bind].
  set (ix := le_enc 2 ((indexvalue s + 1) mod 100)).
  replace ((d ++ sum) ++ ix ++ [r4; r5; r6; r7]) with (((d ++ sum) ++ ix) ++ [r4; r5; r6; r7] ++ []) by by rewrite <- !app_assoc.
  rewrite store_mid; [|rewrite !length_app; cbn [sum ix length le_enc]; lia|done]. cbn [mbind option_bind].
  assert (Eb : ((d ++ sum) ++ ix) ++ [0x5a; 0x5a; 0x5a; 0x5a] ++ [] = b) by (unfold b, fix_image; by rewrite <- !app_assoc).
  rewrite Eb. unfold set_fix at 1. cbn [sys]. rewrite Ho.
  assert (Lb : zlen b = size + 4) by (unfold b; rewrite fix_image_length; lia).
  rewrite load_all by lia. cbn [mbind option_bind].
  rewrite do_write_all; [done|done|]. intros E. rewrite E in Lb. cbn in Lb. lia.
Qed.

Lemma update_backupfile_spec dst size s o :
  zlen (fixnv_buffer s) = size + 4 -> 0 <= size -> results o = [] -> open_file (sys s) dst = Some o ->
  update_backupfile emmc can_open dst size s = Some (1, set_sys s (do_op (FWrite dst 0 (fixnv_buffer s)) o)).
Proof.
  intros L Hs Hr Ho. unfold update_backupfile. rewrite Ho, load_all by lia. cbn [mbind option_bind].
  rewrite do_write_all; [done|done|]. intros E. rewrite E in L. cbn in L. lia.
Qed.

Lemma do_write_touches o p pos b ps :
  results o = [] -> p ∈ ps -> exists ops, touches ps o (snd (do_write o p pos b)) ops.
Proof.
  intros Hr Hp. destruct b as [|x b].
  - exists []. destruct o as [f r l]. cbn in Hr. subst r. by apply touches_refl.
  - rewrite do_write_all by done. eexists. by apply touches_op.
Qed.

Lemma write_both_touches src dst n s r :
  results (sys s) = [] -> write_both emmc can_open src dst n s = Some r ->
  exists ops o, touches [src; dst] (sys s) o ops /\ snd r = set_sys s o.
Proof.
  intros Hr. unfold write_both. destruct (open_file (sys s) src) as [o1|] eqn:E1.
  2:{ intros [= <-]. exists [], (sys s). split; [by apply touches_refl|]. by destruct s. }
  destruct (open_file_spec _ _ _ Hr E1) as ([ops1 T1] & _).
  apply (touches_weaken _ [src; dst]) in T1; [|set_solver].
  destruct (load (phasecheck_buffer s) 0 n) as [d|]; [|done]. cbn [mbind option_bind].
  destruct (do_write_touches o1 src 0 d [src; dst]) as [ops2 T2]; [apply T1|set_solver|].
  destruct (do_write o1 src 0 d) as [w1 o2]. cbn [snd] in T2.
  destruct (open_file o2 dst) as [o3|] eqn:E3.
  2:{ intros [= <-]. eexists _, o2. split; [eapply touches_trans; eassumption|done]. }
  destruct (open_file_spec _ _ _ ltac:(apply T2) E3) as ([ops3 T3] & _).
  apply (touches_weaken _ [src; dst]) in T3; [|set_solver].
  destruct (do_write_touches o3 dst 0 d [src; dst]) as [ops4 T4]; [apply T3|set_solver|].
  destruct (do_write o3 dst 0 d) as [w2 o4]. cbn [snd] in T4.
  intros [= <-]. eexists _, o4. split; [|done].
  do 3 (eapply touches_trans; [eassumption|]). exact T4.
Qed.

(** What the handling of a request for anything but the fixed NV leaves alone. *)
Record same_fix s s' : Prop := {
  sf_buf : fixnv_buffer s' = fixnv_buffer s;
  sf_flag : update_finxn_flag s' = update_finxn_flag s }.

Lemma productinfo_touches size s r :
  results (sys s) = [] ->
  (if emmc then update_productinfofile_emmc emmc can_open (PROD_INFO1 emmc) (PROD_INFO2 emmc) size s
   else update_productinfofile emmc can_open (PROD_INFO1 emmc) (PROD_INFO2 emmc) size s) = Some r ->
  exists ops, touches [PROD_INFO1 emmc; PROD_INFO2 emmc] (sys s) (sys (snd r)) ops /\ same_fix s (snd r).
Proof.
  intros Hr H.
  assert (W : snd r = s \/ exists b (off n : Z), write_both emmc can_open (PROD_INFO1 emmc) (PROD_INFO2 emmc) n (set_phase s b off) = Some r).
  { destruct emmc.
    - unfold update_productinfofile_emmc in H. destruct (String.eqb _ _); [left; by simplify_eq|].
      destruct (PRODUCTINFO_SIZE <? size); [left; by simplify_eq|].
      destruct (store (phasecheck_buffer s) size _) as [b1|]; [|done]. cbn [mbind option_bind] in H.
      destruct (load b1 0 _) as [d|]; [|done]. cbn [mbind option_bind] in H.
      destruct (store b1 (size + 4) _) as [b2|]; [|done]. cbn [mbind option_bind] in H. right. eauto.
    - unfold update_productinfofile in H. destruct (String.eqb _ _); [left; by simplify_eq|].
      destruct (nvm_checksum _ _) as [sum|]; [|done]. cbn [mbind option_bind] in H.
      destruct (store (phasecheck_buffer s) size _) as [b1|]; [|done]. cbn [mbind option_bind] in H.
      destruct (store b1 (size + 2) _) as [b2|]; [|done]. cbn [mbind option_bind] in H. right. eauto. }
  destruct W as [->|(b & o & n & W)].
  - exists []. split; [by apply touches_refl|done].
  - destruct (write_both_touches _ _ _ (set_phase s b o) _ Hr W) as (ops & o' & T & E). exists ops. rewrite E. done.
Qed.

Abbreviation data_loop := (data_loop emmc).

(** The data loop writes the files of the running NV only; apart from that it
    changes the buffer of its kind. *)
Lemma data_loop_frame length script : forall total pos1 pos2 s s' rest,
  results (sys s) = [] -> data_loop length total pos1 pos2 s script = Some (DataDone s' rest) ->
  (exists ops, touches [RUNTIME_NV1 emmc; RUNTIME_NV2 emmc] (sys s) (sys s') ops) /\
  zlen (fixnv_buffer s') = zlen (fixnv_buffer s) /\ update_finxn_flag s' = update_finxn_flag s /\
  indexvalue s' = indexvalue s /\ (length <> FIXNV_SIZE -> same_fix s s') /\
  (length <> RUNTIMENV_SIZE -> sys s' = sys s).
Proof.
  induction script as [|a script IH]; intros total pos1 pos2 s s' rest Hr; cbn [NvmDaemon.data_loop];
    (destruct (total <=? 0); [intros [= <- <-]; split; [exists []; by apply touches_refl|done]|]); [done|].
  destruct a as [b|]; [|by apply IH].
  set (d := take _ b). destruct (zlen d =? 0) eqn:E0; [done|].
  assert (Hd : d <> []) by (intros E; rewrite E in E0; done).
  destruct (length =? RUNTIMENV_SIZE) eqn:EL.
  - rewrite do_write_all by done. set (o1 := do_op _ (sys s)).
    assert (T1 : touches [RUNTIME_NV1 emmc; RUNTIME_NV2 emmc] (sys s) o1 [FWrite (RUNTIME_NV1 emmc) (Z.to_nat pos1) d])
      by (apply touches_op; [set_solver|done]).
    rewrite (proj2 (Z.ltb_ge _ _)) by lia. cbn [sys set_sys]. rewrite do_write_all; [|apply T1|done].
    set (o2 := do_op _ o1). rewrite (proj2 (Z.ltb_ge _ _)) by lia.
    assert (T2 : touches [RUNTIME_NV1 emmc; RUNTIME_NV2 emmc] o1 o2 [FWrite (RUNTIME_NV2 emmc) (Z.to_nat pos2) d])
      by (apply touches_op; [set_solver|apply T1]).
    intros H. apply IH in H as ([ops T] & F & G & I & S & _); [|apply T2].
    split; [eexists; eapply touches_trans; [exact T1|]; eapply touches_trans; [exact T2|exact T]|].
    apply Z.eqb_eq in EL. split_and!; try done. intros Hn. destruct (S Hn). by split.
  - apply Z.eqb_neq in EL. destruct (length =? FIXNV_SIZE) eqn:EF.
    + destruct (store (fixnv_buffer s) _ d) as [b'|] eqn:Es; [|done]. cbn [mbind option_bind].
      intros H. apply IH in H as (T & F & G & I & S & K); [|done]. split_and!; try done.
      * rewrite F. cbn [fixnv_buffer set_fix]. by apply store_length in Es as ->.
      * apply Z.eqb_eq in EF. done.
    + destruct (store (phasecheck_buffer s) _ d) as [b'|] eqn:Es; [|done]. cbn [mbind option_bind].
      intros H. apply IH in H as (T & F & G & I & S & K); [|done]. split_and!; try done.
      intros Hn. destruct (S Hn). by split.
Qed.

(** ** One good copy of the fixed NV at every moment *)
Abbreviation F1 := (FIX_NV1 emmc).
Abbreviation F2 := (FIX_NV2 emmc).
Definition accepted (c : option (list Z)) : Prop := _chkImg c FIXNV_SIZE = Some true.

Record fix_inv s : Prop := {
  fi_results : results (sys s) = [];
  fi_length : zlen (fixnv_buffer s) = FIXNV_SIZE + 4;
  fi_backup : accepted (files (sys s) !! F2);
  fi_first : update_finxn_flag s = true ->
    accepted (files (sys s) !! F1) /\ forall t, accepted (Some (fixnv_buffer s ++ t)) }.

(** From [s] to [s'] the files are written in the order of the log, and a
    crash anywhere leaves a good copy. *)
Definition safe_step s s' : Prop :=
  exists ops, log (sys s') = log (sys s) ++ ops /\ files (sys s') = fold_left apply_op ops (files (sys s)) /\
    forall f, crash (files (sys s)) ops f -> accepted (f !! F1) \/ accepted (f !! F2).

Lemma paths_distinct : F1 ∉ [F2] /\ F2 ∉ [F1] /\
  F1 ∉ [RUNTIME_NV1 emmc; RUNTIME_NV2 emmc] /\ F2 ∉ [RUNTIME_NV1 emmc; RUNTIME_NV2 emmc] /\
  F1 ∉ [PROD_INFO1 emmc; PROD_INFO2 emmc] /\ F2 ∉ [PROD_INFO1 emmc; PROD_INFO2 emmc].
Proof.
  rewrite !not_elem_of_cons. destruct emmc; cbn [FIX_NV1 FIX_NV2 RUNTIME_NV1 RUNTIME_NV2 PROD_INFO1 PROD_INFO2];
    split_and!; try done; apply not_elem_of_nil.
Qed.

Lemma backup_kept ps s s' ops :
  fix_inv s -> touches ps (sys s) (sys s') ops -> F2 ∉ ps -> safe_step s s' /\ accepted (files (sys s') !! F2).
Proof.
  intros I T H2. split.
  - exists ops. split; [apply T|]. split; [apply T|]. intros f C. right.
    rewrite (crash_other _ _ _ F2 (touches_not _ _ _ _ _ T H2) C). apply I.
  - rewrite (touches_other _ _ _ _ F2 T H2). apply I.
Qed.

Lemma other_request ps s s' ops :
  fix_inv s -> touches ps (sys s) (sys s') ops -> F1 ∉ ps -> F2 ∉ ps -> same_fix s s' ->
  fix_inv s' /\ safe_step s s'.
Proof.
  intros I T H1 H2 [Sb Sf]. destruct (backup_kept _ _ _ _ I T H2) as [Hs Hb]. split; [|done]. split.
  - apply T.
  - rewrite Sb. apply I.
  - done.
  - rewrite Sb, Sf, (touches_other _ _ _ _ F1 T H1). apply I.
Qed.

Lemma read_file_length o p buf n :
  zlen buf = n -> zlen (read_file o p buf n) = n.
Proof. intros L. unfold read_file. rewrite splice_length; rewrite ?length_take; lia. Qed.

Lemma load_fixnv_spec s s1 :
  results (sys s) = [] -> load_fixnv emmc can_open s = Some s1 ->
  (exists ops, touches [F1] (sys s) (sys s1) ops) /\ zlen (fixnv_buffer s1) = FIXNV_SIZE + 4 /\
  open_file (sys s1) F1 = Some (sys s1) /\ update_finxn_flag s1 = update_finxn_flag s /\
  fixnv_buffer s1 = read_file (sys s) F1 (replicate (Z.to_nat (FIXNV_SIZE + 4)) 0xff) (FIXNV_SIZE + 4) /\
  indexvalue s1 = get16 (fixnv_buffer s1) (Z.to_nat (FIXNV_SIZE - 2)) /\
  fixnv_buffer_offset s1 = hdr_offset (req_header s) /\ req_header s1 = req_header s.
Proof.
  intros Hr. unfold load_fixnv. destruct (open_file (sys s) F1) as [o|] eqn:E; [|discriminate].
  cbn [mbind option_bind]. destruct (open_file_spec _ _ _ Hr E) as (T & Hd & Hc & Hp). intros H. apply Some_inj in H as <-.
  assert (R : forall b n, read_file o F1 b n = read_file (sys s) F1 b n) by (intros; unfold read_file; by rewrite Hd).
  rewrite R. split; [exact T|]. split; [|split; [exact (open_file_there o F1 Hc Hp)|repeat split]].
  unfold set_fix. cbn [fixnv_buffer]. apply read_file_length. rewrite length_replicate. unfold FIXNV_SIZE. lia.
Qed.

Lemma fixnv_request s s1 s2 script rest s' p1 p2 total :
  fix_inv s -> load_fixnv emmc can_open s = Some s1 ->
  data_loop FIXNV_SIZE total p1 p2 s1 script = Some (DataDone s2 rest) -> finish emmc can_open FIXNV_SIZE s2 = Some s' ->
  fix_inv s' /\ safe_step s s'.
Proof.
  intros I El Ed Ef. destruct (load_fixnv_spec s s1 (fi_results _ I) El) as ([ops T] & L & O & _).
  destruct (data_loop_frame _ _ _ _ _ _ _ _ ltac:(apply T) Ed) as (_ & L2 & _ & _ & _ & E2).
  specialize (E2 ltac:(done)). unfold finish in Ef.
  change (FIXNV_SIZE =? RUNTIMENV_SIZE) with false in Ef. change (FIXNV_SIZE =? PRODUCTINFO_SIZE) with false in Ef.
  cbv iota in Ef.
  rewrite (update_fixnvfile_spec F1 FIXNV_SIZE (set_flag s2 true) (sys s1)) in Ef;
    [|by rewrite <- L, <- L2|unfold FIXNV_SIZE; lia|apply T|cbn [sys set_flag]; by rewrite E2].
  cbn [mbind option_bind snd] in Ef. injection Ef as <-. cbn [fixnv_buffer set_flag indexvalue].
  set (b := fix_image _ _).
  assert (T' : touches [F1] (sys s) (do_op (FWrite F1 0 b) (sys s1)) (ops ++ [FWrite F1 0 b])).
  { eapply touches_trans; [exact T|]. apply touches_op; [set_solver|apply T]. }
  assert (Lt : zlen (take (Z.to_nat (FIXNV_SIZE - 4)) (fixnv_buffer s2)) = FIXNV_SIZE - 4).
  { rewrite length_take. unfold FIXNV_SIZE in *. lia. }
  assert (G : forall t, accepted (Some (b ++ t))) by (intros t; apply fix_image_good; exact Lt).
  destruct (backup_kept [F1] s (set_sys (set_fix (set_flag s2 true) b (fixnv_buffer_offset s2)) (do_op (FWrite F1 0 b) (sys s1)))
    _ I T' ltac:(apply paths_distinct)) as [Hs Hb].
  split; [|exact Hs]. split.
  - apply T'.
  - cbn [fixnv_buffer set_sys set_fix]. unfold b. rewrite fix_image_length. lia.
  - exact Hb.
  - intros _. split; [|exact G]. cbn [sys set_sys]. rewrite written. apply G.
Qed.

Lemma same_fix_trans s1 s2 s3 : same_fix s1 s2 -> same_fix s2 s3 -> same_fix s1 s3.
Proof. intros [] []. split; congruence. Qed.

Lemma runtime_request s o1 o2 pos script s2 rest s' total :
  fix_inv s -> open_file (sys s) (RUNTIME_NV1 emmc) = Some o1 -> open_file o1 (RUNTIME_NV2 emmc) = Some o2 ->
  data_loop RUNTIMENV_SIZE total pos pos (set_sys s o2) script = Some (DataDone s2 rest) ->
  finish emmc can_open RUNTIMENV_SIZE s2 = Some s' -> fix_inv s' /\ safe_step s s'.
Proof.
  intros I E1 E2 Ed [= <-].
  destruct (open_file_spec _ _ _ (fi_results _ I) E1) as ([ops1 T1] & _).
  destruct (open_file_spec _ _ _ ltac:(apply T1) E2) as ([ops2 T2] & _).
  apply (touches_weaken _ [RUNTIME_NV1 emmc; RUNTIME_NV2 emmc]) in T1, T2; [|set_solver..].
  destruct (data_loop_frame _ _ _ _ _ (set_sys s o2) _ _ ltac:(apply T2) Ed) as ([ops3 T3] & _ & _ & _ & S & _).
  eapply (other_request [RUNTIME_NV1 emmc; RUNTIME_NV2 emmc]); [exact I| |apply paths_distinct..|by destruct (S ltac:(done))].
  eapply touches_trans; [exact T1|]. eapply touches_trans; [exact T2|exact T3].
Qed.

Lemma load_productinfo_spec s s1 :
  results (sys s) = [] -> load_productinfo emmc can_open s = Some s1 ->
  exists ops, touches [PROD_INFO1 emmc; PROD_INFO2 emmc] (sys s) (sys s1) ops /\ same_fix s s1 /\
    open_file (sys s1) (PROD_INFO1 emmc) = Some (sys s1) /\ indexvalue s1 = (if emmc then indexvalue s else
      get16 (phasecheck_buffer s1) (Z.to_nat (PRODUCTINFO_SIZE + 2))) /\
    phasecheck_buffer s1 = read_file (sys s) (PROD_INFO1 emmc) (replicate (Z.to_nat (PRODUCTINFO_SIZE + 8)) 0xff)
      (PRODUCTINFO_SIZE + (if emmc then 8 else 4)) /\
    phasecheck_buffer_offset s1 = hdr_offset (req_header s) /\ req_header s1 = req_header s.
Proof.
  intros Hr. unfold load_productinfo. destruct (open_file (sys s) (PROD_INFO1 emmc)) as [o|] eqn:E; [|discriminate].
  cbn [mbind option_bind]. destruct (open_file_spec _ _ _ Hr E) as ([ops T] & Hd & Hc & Hp). intros H. apply Some_inj in H as <-.
  assert (R : forall b n, read_file o (PROD_INFO1 emmc) b n = read_file (sys s) (PROD_INFO1 emmc) b n)
    by (intros; unfold read_file; by rewrite Hd).
  rewrite R. exists ops. split; [eapply touches_weaken; [|exact T]; set_solver|].
  split; [by split|]. split; [exact (open_file_there o _ Hc Hp)|repeat split].
Qed.

Lemma productinfo_request s s1 script s2 rest s' p1 p2 total :
  fix_inv s -> load_productinfo emmc can_open s = Some s1 ->
  data_loop PRODUCTINFO_SIZE total p1 p2 s1 script = Some (DataDone s2 rest) ->
  finish emmc can_open PRODUCTINFO_SIZE s2 = Some s' -> fix_inv s' /\ safe_step s s'.
Proof.
  intros I El Ed Ef. destruct (load_productinfo_spec s s1 (fi_results _ I) El) as (ops & T & S1 & _).
  destruct (data_loop_frame _ _ _ _ _ _ _ _ ltac:(apply T) Ed) as (_ & _ & _ & _ & S2 & E2).
  specialize (E2 ltac:(done)). specialize (S2 ltac:(done)). unfold finish in Ef.
  change (PRODUCTINFO_SIZE =? RUNTIMENV_SIZE) with false in Ef. change (PRODUCTINFO_SIZE =? PRODUCTINFO_SIZE) with true in Ef.
  cbv iota in Ef. match type of Ef with (?e ≫= _) = _ => destruct e as [r|] eqn:Er; [|done] end.
  injection Ef as <-.
  destruct (productinfo_touches PRODUCTINFO_SIZE s2 r) as (ops3 & T3 & S3); [rewrite E2; apply T|exact Er|].
  rewrite E2 in T3.
  eapply (other_request [PROD_INFO1 emmc; PROD_INFO2 emmc]); [exact I| |apply paths_distinct..|].
  - eapply touches_trans; [exact T|exact T3].
  - eapply same_fix_trans; [exact S1|]. eapply same_fix_trans; [exact S2|exact S3].
Qed.

Lemma nothing_safe s s' : fix_inv s -> sys s' = sys s -> safe_step s s'.
Proof.
  intros I E. exists []. rewrite E, app_nil_r. split; [done|]. split; [done|]. intros f C. right.
  rewrite (crash_other _ _ _ F2 (Forall_nil_2 _) C). apply I.
Qed.

Lemma sync_safe s s' : fix_inv s -> sync_command emmc can_open s = Some s' -> fix_inv s' /\ safe_step s s'.
Proof.
  intros I. unfold sync_command. destruct (update_finxn_flag s) eqn:Ef.
  2:{ intros [= <-]. split; [|by apply nothing_safe]. by split; try apply I. }
  destruct (fi_first _ I Ef) as [A1 Ab].
  destruct (open_file (sys s) F2) as [o|] eqn:Eo.
  2:{ unfold update_backupfile. rewrite Eo. intros [= <-]. split; [|by apply nothing_safe]. by split; try apply I. }
  destruct (open_file_spec _ _ _ (fi_results _ I) Eo) as ([ops T] & _).
  rewrite (update_backupfile_spec F2 FIXNV_SIZE s o (fi_length _ I)); [|unfold FIXNV_SIZE; lia|apply T|exact Eo].
  cbn [mbind option_bind snd]. intros [= <-]. set (b := fixnv_buffer s).
  assert (T' : touches [F2] (sys s) (do_op (FWrite F2 0 b) o) (ops ++ [FWrite F2 0 b])).
  { eapply touches_trans; [exact T|]. apply touches_op; [set_solver|apply T]. }
  split.
  - split; [apply T'|apply I| |done]. cbn [sys reply set_header set_flag set_sys]. rewrite written. apply Ab.
  - eexists. split; [apply T'|]. split; [apply T'|]. intros f C. left.
    rewrite (crash_other _ _ _ F1 (touches_not _ _ _ _ _ T' ltac:(apply paths_distinct)) C). done.
Qed.

Lemma turn_safe s script s' rest :
  fix_inv s -> turn emmc can_open s script = Some (Done s' rest) -> fix_inv s' /\ safe_step s s'.
Proof.
  intros I. unfold turn. destruct script as [|[b|] r]; [done| |intros [= <- _]; split; [done|by apply nothing_safe]].
  destruct (zlen (take 12 b) =? 0); [done|]. set (s1 := set_header s _).
  assert (I1 : fix_inv s1) by (by split; apply I).
  assert (J : forall x, fix_inv x /\ safe_step s1 x -> fix_inv x /\ safe_step s x) by done.
  destruct (hdr_req_type (req_header s1) =? 1).
  { destruct (sync_command emmc can_open s1) as [x|] eqn:E; [|done]. intros [= <- _]. by apply J, sync_safe. }
  unfold request, receive. destruct (hdr_type (req_header s1) =? 0); [|destruct (hdr_type (req_header s1) =? 1);
    [|destruct (hdr_type (req_header s1) =? 2)]].
  - destruct (load_fixnv emmc can_open s1) as [s2|] eqn:El; [|done].
    destruct (data_loop _ _ _ _ s2 r) as [[s3 r3|s3 r3|s3]|] eqn:Ed; try done. cbn [mbind option_bind].
    destruct (finish _ _ _ s3) as [x|] eqn:Ex; [|done]. intros [= <- _]. apply J. by eapply fixnv_request.
  - destruct (open_file (sys s1) _) as [o1|] eqn:E1; [|done]. destruct (open_file o1 _) as [o2|] eqn:E2; [|done].
    destruct (data_loop _ _ _ _ (set_sys s1 o2) r) as [[s3 r3|s3 r3|s3]|] eqn:Ed; try done. cbn [mbind option_bind].
    destruct (finish _ _ _ s3) as [x|] eqn:Ex; [|done]. intros [= <- _]. apply J. by eapply runtime_request.
  - destruct (load_productinfo emmc can_open s1) as [s2|] eqn:El; [|done].
    destruct (data_loop _ _ _ _ s2 r) as [[s3 r3|s3 r3|s3]|] eqn:Ed; try done. cbn [mbind option_bind].
    destruct (finish _ _ _ s3) as [x|] eqn:Ex; [|done]. intros [= <- _]. apply J. by eapply productinfo_request.
  - intros [= <- _]. split; [done|]. by apply nothing_safe.
Qed.

(** A turn that completes. *)
Inductive serves : nvm -> nvm -> Prop :=
| serves_turn s script s' rest : turn emmc can_open s script = Some (Done s' rest) -> serves s s'.

(** C15: the daemon never endangers the fixed NV while the file system takes
    its writes whole.  With no write that fails or is short (the code does not
    look at the results of its writes) and starting with a good backup
    and no update under way, after any sequence of requests and syncs that ran to their end, a crash at any
    point of the next one, inside a write too, leaves the first file or the
    backup with a checksum that the boot code accepts. *)
Theorem fixnv_crash_safe s0 s script s' rest ops f :
  results (sys s0) = [] -> zlen (fixnv_buffer s0) = FIXNV_SIZE + 4 -> update_finxn_flag s0 = false ->
  accepted (files (sys s0) !! F2) -> reach serves s0 s -> turn emmc can_open s script = Some (Done s' rest) ->
  log (sys s') = log (sys s) ++ ops -> crash (files (sys s)) ops f ->
  accepted (f !! F1) \/ accepted (f !! F2).
Proof.
  intros Hr Hl Hf Hb R E Hlog C.
  assert (I : fix_inv s).
  { apply (reach_inv serves fix_inv s0 s); [split; [done|done|done|congruence]| |done].
    intros a b Ia Hab. destruct Hab as [x sc y rr Ey]. by eapply turn_safe. }
  destruct (turn_safe _ _ _ _ I E) as [_ (ops' & L' & _ & Hc)].
  apply Hc. rewrite L' in Hlog. apply app_inv_head in Hlog as ->. done.
Qed.

(** ** What a request stores *)

(** The reads that deliver [n] bytes of data: in pieces of any size, with
    failed reads in between. *)
Inductive fed : Z -> list pipe_read -> list Z -> list pipe_read -> Prop :=
| fed_done rest : fed 0 rest [] rest
| fed_failed n script d rest : 0 < n -> fed n script d rest -> fed n (Failed :: script) d rest
| fed_got n b script d rest : b <> [] -> zlen b <= n -> zlen b <= DATA_BUF_LEN ->
    fed (n - zlen b) script d rest -> fed n (Got b :: script) (b ++ d) rest.

Lemma fed_length n script d rest : fed n script d rest -> zlen d = n.
Proof. induction 1; rewrite ?length_app; cbn [length] in *; lia. Qed.

Lemma fed_piece n (b : list Z) : b <> [] -> zlen b <= n -> zlen b <= DATA_BUF_LEN ->
  (n <=? 0) = false /\ take (Z.to_nat (Z.min n DATA_BUF_LEN)) b = b /\ (zlen b =? 0) = false.
Proof.
  intros Hb Hn Hd. assert (0 < zlen b) by (destruct b; [done|cbn [length]; lia]).
  split; [lia|]. split; [apply take_ge; lia|lia].
Qed.

Lemma fix_data n script d rest : fed n script d rest -> forall s p1 p2,
  0 <= fixnv_buffer_offset s -> fixnv_buffer_offset s + n <= zlen (fixnv_buffer s) -> zlen (fixnv_buffer s) < 2 ^ 32 ->
  data_loop FIXNV_SIZE n p1 p2 s script =
    Some (DataDone (set_fix s (splice (fixnv_buffer s) (Z.to_nat (fixnv_buffer_offset s)) d)
                      (fixnv_buffer_offset s + n)) rest).
Proof.
  induction 1 as [rest|n script d rest Hn Hf IH|n b script d rest Hb Hn Hd Hf IH]; intros s p1 p2 H0 H1 H2.
  - assert (E : forall sc, data_loop FIXNV_SIZE 0 p1 p2 s sc = Some (DataDone s sc)) by (intros []; done).
    rewrite E, splice_nil, Z.add_0_r by lia. by destruct s.
  - cbn [NvmDaemon.data_loop]. rewrite (proj2 (Z.leb_gt n 0)) by done. by apply IH.
  - destruct (fed_piece n b Hb Hn Hd) as (E1 & E2 & E3). pose proof (fed_length _ _ _ _ Hf) as Ld.
    cbn [NvmDaemon.data_loop]. rewrite E1, E2, E3.
    change (FIXNV_SIZE =? RUNTIMENV_SIZE) with false. change (FIXNV_SIZE =? FIXNV_SIZE) with true. cbv iota.
    assert (Es : store (fixnv_buffer s) (fixnv_buffer_offset s) b =
                 Some (splice (fixnv_buffer s) (Z.to_nat (fixnv_buffer_offset s)) b)).
    { apply store_Some. split; [done|]. split; [lia|done]. }
    rewrite Es. cbn [mbind option_bind]. rewrite u32_small by (unfold is_u32; lia).
    rewrite IH; cbn [fixnv_buffer_offset fixnv_buffer set_fix].
    + replace (Z.to_nat (fixnv_buffer_offset s + zlen b)) with (Z.to_nat (fixnv_buffer_offset s) + length b)%nat by lia.
      rewrite splice_app by lia. do 2 f_equal. unfold set_fix. cbn. f_equal. lia.
    + lia.
    + rewrite splice_length by lia. lia.
    + rewrite splice_length by lia. lia.
Qed.

Lemma productinfo_data n script d rest : fed n script d rest -> forall s p1 p2,
  0 <= phasecheck_buffer_offset s -> phasecheck_buffer_offset s + n <= zlen (phasecheck_buffer s) ->
  zlen (phasecheck_buffer s) < 2 ^ 32 ->
  data_loop PRODUCTINFO_SIZE n p1 p2 s script =
    Some (DataDone (set_phase s (splice (phasecheck_buffer s) (Z.to_nat (phasecheck_buffer_offset s)) d)
                      (phasecheck_buffer_offset s + n)) rest).
Proof.
  induction 1 as [rest|n script d rest Hn Hf IH|n b script d rest Hb Hn Hd Hf IH]; intros s p1 p2 H0 H1 H2.
  - assert (E : forall sc, data_loop PRODUCTINFO_SIZE 0 p1 p2 s sc = Some (DataDone s sc)) by (intros []; done).
    rewrite E, splice_nil, Z.add_0_r by lia. by destruct s.
  - cbn [NvmDaemon.data_loop]. rewrite (proj2 (Z.leb_gt n 0)) by done. by apply IH.
  - destruct (fed_piece n b Hb Hn Hd) as (E1 & E2 & E3). pose proof (fed_length _ _ _ _ Hf) as Ld.
    cbn [NvmDaemon.data_loop]. rewrite E1, E2, E3.
    change (PRODUCTINFO_SIZE =? RUNTIMENV_SIZE) with false. change (PRODUCTINFO_SIZE =? FIXNV_SIZE) with false. cbv iota.
    assert (Es : store (phasecheck_buffer s) (phasecheck_buffer_offset s) b =
                 Some (splice (phasecheck_buffer s) (Z.to_nat (phasecheck_buffer_offset s)) b)).
    { apply store_Some. split; [done|]. split; [lia|done]. }
    rewrite Es. cbn [mbind option_bind]. rewrite u32_small by (unfold is_u32; lia).
    rewrite IH; cbn [phasecheck_buffer_offset phasecheck_buffer set_phase].
    + replace (Z.to_nat (phasecheck_buffer_offset s + zlen b)) with (Z.to_nat (phasecheck_buffer_offset s) + length b)%nat by lia.
      rewrite splice_app by lia. do 2 f_equal. unfold set_phase. cbn. f_equal. lia.
    + lia.
    + rewrite splice_length by lia. lia.
    + rewrite splice_length by lia. lia.
Qed.

(** A turn that starts with a complete header. *)
Lemma turn_header s h script :
  zlen (req_header s) = 12 -> zlen h = 12 ->
  turn emmc can_open s (Got h :: script) =
    if hdr_req_type h =? 1 then s' ← sync_command emmc can_open (set_header s h); Some (Done s' script)
    else request emmc can_open (set_header s h) script.
Proof.
  intros L1 L2. unfold turn. rewrite take_ge by lia. rewrite (proj2 (Z.eqb_neq (zlen h) 0)) by lia.
  rewrite splice_0, drop_ge, app_nil_r by lia. done.
Qed.

Lemma hdr_range h : bytes h -> is_u32 (hdr_offset h) /\ is_u32 (hdr_size h).
Proof. intros B. split; by apply get32_range. Qed.

(** What is in the file is loaded into a buffer filled with 0xff. *)
Definition fix_old s : list Z := read_file (sys s) F1 (replicate (Z.to_nat (FIXNV_SIZE + 4)) 0xff) (FIXNV_SIZE + 4).

Lemma load_fixnv_succeeds s :
  can_open F1 = true -> emmc = false \/ is_Some (files (sys s) !! F1) -> exists s1, load_fixnv emmc can_open s = Some s1.
Proof.
  intros Hc Hp. unfold load_fixnv.
  assert (E : exists o, open_file (sys s) F1 = Some o).
  { unfold NvmDaemon.open_file. rewrite Hc. destruct (files (sys s) !! F1) eqn:Ef; [by eexists|].
    destruct Hp as [->|[]]; [by eexists|done]. }
  destruct E as [o ->]. cbn [mbind option_bind]. eexists. reflexivity.
Qed.

(** A request for the fixed NV that stays inside the image is carried out. *)
Lemma fixnv_turn s h script d rest :
  results (sys s) = [] -> zlen (req_header s) = 12 -> zlen h = 12 -> bytes h ->
  hdr_type h = 0 -> hdr_req_type h <> 1 -> hdr_offset h + hdr_size h <= FIXNV_SIZE + 4 ->
  can_open F1 = true -> emmc = false \/ is_Some (files (sys s) !! F1) ->
  fed (hdr_size h) script d rest ->
  let img := fix_image (take (Z.to_nat (FIXNV_SIZE - 4)) (splice (fix_old s) (Z.to_nat (hdr_offset h)) d))
               ((get16 (fix_old s) (Z.to_nat (FIXNV_SIZE - 2)) + 1) mod 100) in
  exists s', turn emmc can_open s (Got h :: script) = Some (Done s' rest) /\
    files (sys s') !! F1 = Some (img ++ drop (length img) (default [] (files (sys s) !! F1))) /\
    accepted (files (sys s') !! F1) /\ (forall p, p <> F1 -> files (sys s') !! p = files (sys s) !! p) /\
    fixnv_buffer s' = img /\ update_finxn_flag s' = true /\ results (sys s') = [] /\ req_header s' = h.
Proof.
  intros Hr Lr Lh Bh Ht Hq Hsz Hc Hp Hfed img. destruct (hdr_range h Bh) as [Ro Rs].
  rewrite (turn_header s h _ Lr Lh), (proj2 (Z.eqb_neq _ 1)) by done. set (s0 := set_header s h).
  unfold request. change (req_header s0) with h. rewrite Ht. change (0 =? 0) with true. cbv iota.
  destruct (load_fixnv_succeeds s0 Hc Hp) as [s1 E1]. rewrite E1.
  destruct (load_fixnv_spec s0 s1 Hr E1) as ([ops T] & L & O & Ff & Fb & Fi & Fo & Fh).
  fold (fix_old s0) in Fb. change (fix_old s0) with (fix_old s) in Fb.
  unfold receive. rewrite Fh. change (req_header s0) with h. unfold is_u32 in *.
  assert (HF : FIXNV_SIZE = 65536) by reflexivity.
  rewrite s32_small by lia.
  rewrite (fix_data _ _ _ _ Hfed s1 0 0); [|rewrite Fo; apply Ro|rewrite Fo, L; change (req_header s0) with h; lia|rewrite L; lia].
  cbn [mbind option_bind]. set (b := splice _ _ _).
  assert (Lb : zlen b = FIXNV_SIZE + 4).
  { pose proof (fed_length _ _ _ _ Hfed). unfold b. rewrite Fo. change (req_header s0) with h.
    rewrite splice_length; unfold FIXNV_SIZE in *; lia. }
  unfold finish. change (FIXNV_SIZE =? RUNTIMENV_SIZE) with false. change (FIXNV_SIZE =? PRODUCTINFO_SIZE) with false. cbv iota.
  rewrite (update_fixnvfile_spec F1 FIXNV_SIZE _ (sys s1)); [|exact Lb|unfold FIXNV_SIZE; lia|apply T|exact O].
  cbn [mbind option_bind snd fixnv_buffer set_flag indexvalue set_fix]. rewrite Fi, Fb.
  replace b with (splice (fix_old s) (Z.to_nat (hdr_offset h)) d) by (unfold b; rewrite Fo, Fb; done).
  fold img. eexists. split; [reflexivity|]. cbn [sys set_sys]. rewrite written.
  assert (Ed : default [] (files (sys s1) !! F1) = default [] (files (sys s) !! F1)).
  { unfold load_fixnv in E1. destruct (open_file (sys s0) F1) as [o|] eqn:Eo; [|done]. cbn [mbind option_bind] in E1.
    destruct (open_file_spec _ _ _ Hr Eo) as (_ & Hd & _). apply Some_inj in E1. rewrite <- E1. exact Hd. }
  rewrite Ed. split; [reflexivity|]. split.
  - apply fix_image_good. rewrite length_take, splice_length; [|pose proof (fed_length _ _ _ _ Hfed)];
      rewrite <- Fb in *; unfold FIXNV_SIZE in *; lia.
  - split; [|split; [reflexivity|split; [reflexivity|split; [apply T|exact Fh]]]].
    intros p Hne. unfold do_op. cbn [files apply_op]. rewrite lookup_insert_ne by done.
    apply (touches_other _ _ _ _ p T). set_solver.
Qed.

(** A sync command with the backup due: the buffer is written over the start
    of the backup, and the header is answered with type 0. *)
Lemma sync_turn s h rest :
  results (sys s) = [] -> zlen (fixnv_buffer s) = FIXNV_SIZE + 4 -> zlen (req_header s) = 12 -> zlen h = 12 ->
  hdr_req_type h = 1 -> update_finxn_flag s = true -> can_open F2 = true -> is_Some (files (sys s) !! F2) ->
  exists s', turn emmc can_open s (Got h :: rest) = Some (Done s' rest) /\
    files (sys s') !! F2 = Some (fixnv_buffer s ++ drop (length (fixnv_buffer s)) (default [] (files (sys s) !! F2))) /\
    (forall p, p <> F2 -> files (sys s') !! p = files (sys s) !! p) /\
    update_finxn_flag s' = false /\ replies s' = replies s ++ [splice h 0 [0; 0]].
Proof.
  intros Hr Lb Lr Lh Hq Hf Hc Hp. rewrite (turn_header s h _ Lr Lh), Hq. change (1 =? 1) with true. cbv iota.
  set (s0 := set_header s h).
  unfold sync_command. change (update_finxn_flag s0) with (update_finxn_flag s). rewrite Hf.
  rewrite (update_backupfile_spec F2 FIXNV_SIZE s0 (sys s) Lb); [|unfold FIXNV_SIZE; lia|exact Hr|by apply open_file_there].
  cbn [mbind option_bind snd]. eexists. split; [reflexivity|].
  cbn [sys set_sys reply set_header set_flag]. rewrite written. split; [reflexivity|].
  split; [|split; reflexivity]. intros p Hne. unfold do_op. cbn [files apply_op]. by rewrite lookup_insert_ne.
Qed.

(** A request for the fixed NV that stays inside the image, its data
    arriving in pieces of any size with failed reads in between, is carried
    out: the first file then starts with the old image, the data at its offset,
    closed with a checksum the boot code accepts and the next index modulo 100,
    and the other files are as they were; the next sync copies the same image
    to the backup and is answered. *)
Lemma fixnv_request_then_sync s h script d rest hs rest' :
  results (sys s) = [] -> zlen (req_header s) = 12 -> zlen h = 12 -> bytes h ->
  hdr_type h = 0 -> hdr_req_type h <> 1 -> hdr_offset h + hdr_size h <= FIXNV_SIZE + 4 ->
  can_open F1 = true -> emmc = false \/ is_Some (files (sys s) !! F1) -> fed (hdr_size h) script d rest ->
  zlen hs = 12 -> hdr_req_type hs = 1 -> can_open F2 = true -> is_Some (files (sys s) !! F2) ->
  let img := fix_image (take (Z.to_nat (FIXNV_SIZE - 4)) (splice (fix_old s) (Z.to_nat (hdr_offset h)) d))
               ((get16 (fix_old s) (Z.to_nat (FIXNV_SIZE - 2)) + 1) mod 100) in
  exists s1 s2 t1 t2,
    turn emmc can_open s (Got h :: script) = Some (Done s1 rest) /\
    files (sys s1) !! F1 = Some (img ++ t1) /\ accepted (files (sys s1) !! F1) /\
    (forall p, p <> F1 -> files (sys s1) !! p = files (sys s) !! p) /\
    turn emmc can_open s1 (Got hs :: rest') = Some (Done s2 rest') /\
    files (sys s2) !! F2 = Some (img ++ t2) /\ files (sys s2) !! F1 = files (sys s1) !! F1 /\
    update_finxn_flag s2 = false /\ replies s2 = replies s1 ++ [splice hs 0 [0; 0]].
Proof.
  intros Hr Lr Lh Bh Ht Hq Hz Hc Hp Hf Lhs Hqs Hc2 Hp2 img. pose proof paths_distinct as (N1 & _).
  destruct (fixnv_turn s h script d rest Hr Lr Lh Bh Ht Hq Hz Hc Hp Hf) as (s1 & E1 & A1 & G1 & O1 & B1 & Fl & R1 & H1).
  fold img in A1, B1.
  assert (Lb : zlen (fixnv_buffer s1) = FIXNV_SIZE + 4).
  { rewrite B1. unfold img. rewrite fix_image_length, length_take. destruct (hdr_range h Bh) as [[Ro _] _].
    pose proof (fed_length _ _ _ _ Hf).
    assert (zlen (fix_old s) = FIXNV_SIZE + 4)
      by (apply read_file_length; rewrite length_replicate; unfold FIXNV_SIZE; lia).
    rewrite splice_length; unfold FIXNV_SIZE in *; lia. }
  destruct (sync_turn s1 hs rest' R1 Lb) as (s2 & E2 & A2 & O2 & Fl2 & Rp); try done; [by rewrite H1|rewrite O1 by set_solver; done|].
  rewrite B1 in A2. exists s1, s2. do 2 eexists. split_and!; try eassumption. apply O2. set_solver.
Qed.

(** A request for the fixed NV whose data breaks off: the buffer keeps what
    had arrived, without a new checksum, and the backup stays due if it was. *)
Lemma interrupted_fixnv s h d rest :
  results (sys s) = [] -> zlen (req_header s) = 12 -> zlen h = 12 -> bytes h -> hdr_type h = 0 -> hdr_req_type h <> 1 ->
  can_open F1 = true -> is_Some (files (sys s) !! F1) -> d <> [] -> zlen d < hdr_size h -> zlen d <= DATA_BUF_LEN ->
  hdr_size h < 2 ^ 31 -> hdr_offset h + zlen d <= FIXNV_SIZE + 4 ->
  exists s', turn emmc can_open s (Got h :: Got d :: Got [] :: rest) = Some (Reopen s' rest) /\
    fixnv_buffer s' = splice (fix_old s) (Z.to_nat (hdr_offset h)) d /\ sys s' = sys s /\
    update_finxn_flag s' = update_finxn_flag s /\ req_header s' = h.
Proof.
  intros Hr Lr Lh Bh Ht Hq Hc Hp Hd Hn Hm Hs Hz. destruct (hdr_range h Bh) as [Ro Rs].
  rewrite (turn_header s h _ Lr Lh), (proj2 (Z.eqb_neq _ 1)) by done. set (s0 := set_header s h).
  unfold request. change (req_header s0) with h. rewrite Ht. change (0 =? 0) with true. cbv iota.
  unfold load_fixnv. rewrite open_file_there by done. cbn [mbind option_bind].
  change (set_sys s0 (sys s0)) with s0. fold (fix_old s0). change (fix_old s0) with (fix_old s). change (req_header s0) with h.
  assert (Lf : zlen (fix_old s) = FIXNV_SIZE + 4).
  { apply read_file_length. rewrite length_replicate. unfold FIXNV_SIZE. lia. }
  unfold receive. cbn [req_header set_fix set_index]. change (req_header s0) with h.
  unfold is_u32 in *. rewrite s32_small by lia. assert (0 < zlen d) by (destruct d; [done|cbn [length]; lia]).
  cbn [NvmDaemon.data_loop]. rewrite (proj2 (Z.leb_gt (hdr_size h) 0)) by lia. rewrite take_ge by lia.
  rewrite (proj2 (Z.eqb_neq (zlen d) 0)) by lia.
  change (FIXNV_SIZE =? RUNTIMENV_SIZE) with false. change (FIXNV_SIZE =? FIXNV_SIZE) with true. cbv iota.
  cbn [fixnv_buffer fixnv_buffer_offset set_fix].
  assert (Es : store (fix_old s) (hdr_offset h) d = Some (splice (fix_old s) (Z.to_nat (hdr_offset h)) d)).
  { apply store_Some. split; [lia|]. split; [lia|done]. }
  rewrite Es. cbn [mbind option_bind]. rewrite (proj2 (Z.leb_gt (hdr_size h - _) 0)) by lia. rewrite take_nil.
  change (zlen (@nil Z) =? 0) with true. cbv iota. cbn [mbind option_bind]. eexists. split; [reflexivity|]. done.
Qed.

(** ** The running NV *)
Lemma fwrite_app c pos a b : fwrite (fwrite c pos a) (pos + length a) b = fwrite c pos (a ++ b).
Proof.
  unfold fwrite. set (p := take pos (c ++ replicate (pos - length c) 0)).
  assert (Lp : length p = pos) by (unfold p; rewrite length_take, length_app, length_replicate; lia).
  assert (Lx : (pos + length a <= length (p ++ a ++ drop (pos + length a) c))%nat) by (rewrite !length_app; lia).
  rewrite take_app_le by done.
  assert (E : take (pos + length a) (p ++ a ++ drop (pos + length a) c) = p ++ a).
  { rewrite app_assoc. replace (pos + length a)%nat with (length (p ++ a)) at 1 by (rewrite length_app; lia). apply take_app_0. }
  rewrite E, <- !app_assoc. do 3 f_equal.
  rewrite app_assoc, drop_app_ge by (rewrite length_app; lia). rewrite drop_drop, !length_app. f_equal. lia.
Qed.

(** A file after the bytes [d] were written at [pos]; no bytes, no write. *)
Definition wrote (c : list Z) (pos : Z) (d : list Z) : list Z :=
  if decide (d = []) then c else fwrite c (Z.to_nat pos) d.

Lemma wrote_app c pos a b : 0 <= pos -> wrote (fwrite c (Z.to_nat pos) a) (pos + zlen a) b = fwrite c (Z.to_nat pos) (a ++ b).
Proof.
  intros H. unfold wrote. case_decide as E; [by rewrite E, app_nil_r|].
  replace (Z.to_nat (pos + zlen a)) with (Z.to_nat pos + length a)%nat by lia. apply fwrite_app.
Qed.

Lemma runtime_paths : RUNTIME_NV1 emmc <> RUNTIME_NV2 emmc.
Proof. destruct emmc; discriminate. Qed.

Lemma runtime_data n script d rest : fed n script d rest -> forall s p1 p2 c1 c2,
  results (sys s) = [] -> 0 <= p1 -> 0 <= p2 ->
  files (sys s) !! RUNTIME_NV1 emmc = Some c1 -> files (sys s) !! RUNTIME_NV2 emmc = Some c2 ->
  exists o, data_loop RUNTIMENV_SIZE n p1 p2 s script = Some (DataDone (set_sys s o) rest) /\
    files o !! RUNTIME_NV1 emmc = Some (wrote c1 p1 d) /\ files o !! RUNTIME_NV2 emmc = Some (wrote c2 p2 d).
Proof.
  induction 1 as [rest|n script d rest Hn Hf IH|n b script d rest Hb Hn Hd Hf IH]; intros s p1 p2 c1 c2 Hr H1 H2 E1 E2.
  - exists (sys s). split; [|by rewrite E1, E2].
    assert (E : forall sc, data_loop RUNTIMENV_SIZE 0 p1 p2 s sc = Some (DataDone s sc)) by (intros []; done).
    rewrite E. by destruct s.
  - cbn [NvmDaemon.data_loop]. rewrite (proj2 (Z.leb_gt n 0)) by done. by apply IH.
  - destruct (fed_piece n b Hb Hn Hd) as (G1 & G2 & G3). cbn [NvmDaemon.data_loop]. rewrite G1, G2, G3.
    change (RUNTIMENV_SIZE =? RUNTIMENV_SIZE) with true. cbv iota.
    rewrite do_write_all by done. rewrite (proj2 (Z.ltb_ge _ _)) by lia. cbn [sys set_sys].
    rewrite do_write_all by done. rewrite (proj2 (Z.ltb_ge _ _)) by lia. pose proof runtime_paths as Hne.
    set (o := do_op _ (do_op _ (sys s))).
    destruct (IH (set_sys s o) (p1 + zlen b) (p2 + zlen b) (fwrite c1 (Z.to_nat p1) b) (fwrite c2 (Z.to_nat p2) b))
      as (o' & Eo & A1 & A2); [exact Hr|lia|lia| | |].
    + cbn. by rewrite lookup_insert_ne, lookup_insert_eq, E1.
    + cbn. by rewrite lookup_insert_eq, lookup_insert_ne, E2.
    + exists o'. split; [exact Eo|]. rewrite A1, A2, !wrote_app by done. unfold wrote.
      rewrite !decide_False by (destruct b; done). done.
Qed.

(** A request for the running NV, its data arriving in pieces of any size,
    writes the data at its offset into both files and leaves the rest of them
    alone; a gap behind the end of a file is filled with zeros. *)
Lemma runtime_request_mirrored s h script d rest c1 c2 :
  results (sys s) = [] -> zlen (req_header s) = 12 -> zlen h = 12 -> bytes h ->
  hdr_type h = 1 -> hdr_req_type h <> 1 -> hdr_offset h < 2 ^ 31 -> 0 < hdr_size h < 2 ^ 31 ->
  can_open (RUNTIME_NV1 emmc) = true -> can_open (RUNTIME_NV2 emmc) = true ->
  files (sys s) !! RUNTIME_NV1 emmc = Some c1 -> files (sys s) !! RUNTIME_NV2 emmc = Some c2 ->
  fed (hdr_size h) script d rest ->
  exists s', turn emmc can_open s (Got h :: script) = Some (Done s' rest) /\
    files (sys s') !! RUNTIME_NV1 emmc = Some (fwrite c1 (Z.to_nat (hdr_offset h)) d) /\
    files (sys s') !! RUNTIME_NV2 emmc = Some (fwrite c2 (Z.to_nat (hdr_offset h)) d).
Proof.
  intros Hr Lr Lh Bh Ht Hq Ho Hs C1 C2 E1 E2 Hf. destruct (hdr_range h Bh) as [[Ro _] _].
  rewrite (turn_header s h _ Lr Lh), (proj2 (Z.eqb_neq _ 1)) by done. set (s0 := set_header s h).
  unfold request. change (req_header s0) with h. rewrite Ht. change (1 =? 0) with false. change (1 =? 1) with true. cbv iota.
  rewrite (open_file_there (sys s0) (RUNTIME_NV1 emmc)) by (done || by eexists).
  rewrite (open_file_there (sys s0) (RUNTIME_NV2 emmc)) by (done || by eexists).
  unfold receive. change (req_header (set_sys s0 (sys s0))) with h. rewrite s32_small by lia.
  unfold seek. rewrite (proj2 (Z.ltb_lt _ _)) by done.
  destruct (runtime_data _ _ _ _ Hf (set_sys s0 (sys s0)) (hdr_offset h) (hdr_offset h) c1 c2) as (o & -> & A1 & A2); try done.
  cbn [mbind option_bind]. eexists. split; [reflexivity|]. cbn [sys set_sys]. rewrite A1, A2. unfold wrote.
  pose proof (fed_length _ _ _ _ Hf). rewrite !decide_False by (intros ->; cbn in *; lia). done.
Qed.
End Facts.

(** ** The product information on eMMC *)
Definition prod_image (d : list Z) : list Z :=
  let b := d ++ [0x5a; 0x5a; 0x5a; 0x5a] in b ++ put_be32 (crc32b 0xffffffff (Some b)).

(** The raw data daemon accepts the block, whatever follows it. *)
Lemma prod_image_verdict d t :
  zlen d = PRODUCTINFO_SIZE -> bytes d -> block_verdict 0 (prod_image d ++ t) = 0.
Proof.
  intros L B. unfold block_verdict, RAWDATA_BLOCK_PHASECHECK. rewrite Z.eqb_refl. unfold prod_image.
  set (b := d ++ [0x5a; 0x5a; 0x5a; 0x5a]). set (c := crc32b 0xffffffff (Some b)).
  assert (Lb : OFS_CNT = length b).
  { unfold b. rewrite length_app. cbn [length]. unfold RAWDATA_DATASIZE, PRODUCTINFO_SIZE in *. lia. }
  assert (Bb : bytes b) by (unfold b; apply Forall_app_2; [done|solve_bytes]).
  rewrite Lb, <- app_assoc, take_app_0, get_be32_drop, drop_app_0.
  rewrite get_put_be32 by (apply crc32b_range; [unfold is_u32; lia|done]). fold c. by rewrite Z.eqb_refl.
Qed.

Lemma prod_image_length d : length (prod_image d) = (length d + 8)%nat.
Proof. unfold prod_image. rewrite !length_app. cbn [length put_be32]. lia. Qed.

(** Bytes behind a prefix do not matter to it. *)
Lemma take_splice_prefix n m (c d : list Z) off :
  (n <= m <= length c)%nat -> (off + length d <= m)%nat -> take n (splice (take m c) off d) = take n (splice c off d).
Proof.
  intros H1 H2. apply list_eq. intros i. destruct (decide (i < n)%nat); [|by rewrite !lookup_take_ge by lia].
  rewrite !lookup_take_lt, !lookup_splice; rewrite ?length_take; try lia.
  case_decide; [done|]. by rewrite lookup_take_lt by lia.
Qed.

Lemma read_file_full o p buf c n :
  files o !! p = Some c -> zlen buf = n -> n <= zlen c -> read_file o p buf n = take (Z.to_nat n) c.
Proof.
  intros E L1 L2. unfold read_file. rewrite E. cbn [default from_option id].
  rewrite splice_0, drop_ge, app_nil_r by (rewrite ?length_take; lia). done.
Qed.

Section Emmc.
Context (can_open : string -> bool).
Abbreviation PI1 := (PROD_INFO1 true).
Abbreviation PI2 := (PROD_INFO2 true).

Lemma update_productinfofile_emmc_spec s c1 c2 :
  zlen (phasecheck_buffer s) = PRODUCTINFO_SIZE + 8 -> results (sys s) = [] ->
  can_open PI1 = true -> can_open PI2 = true ->
  files (sys s) !! PI1 = Some c1 -> files (sys s) !! PI2 = Some c2 ->
  let b := prod_image (take (Z.to_nat PRODUCTINFO_SIZE) (phasecheck_buffer s)) in
  update_productinfofile_emmc true can_open PI1 PI2 PRODUCTINFO_SIZE s =
    Some (1, set_sys (set_phase s b (phasecheck_buffer_offset s)) (do_op (FWrite PI2 0 b) (do_op (FWrite PI1 0 b) (sys s)))).
Proof.
  intros L Hr C1 C2 E1 E2 b. unfold update_productinfofile_emmc. change (String.eqb PI1 PI2) with false.
  change (PRODUCTINFO_SIZE <? PRODUCTINFO_SIZE) with false. cbv iota.
  set (d := take (Z.to_nat PRODUCTINFO_SIZE) (phasecheck_buffer s)) in *.
  assert (Ld : zlen d = PRODUCTINFO_SIZE) by (unfold d; rewrite length_take; unfold PRODUCTINFO_SIZE in *; lia).
  rewrite <- (take_drop (Z.to_nat PRODUCTINFO_SIZE) (phasecheck_buffer s)). fold d.
  set (r := drop (Z.to_nat PRODUCTINFO_SIZE) (phasecheck_buffer s)).
  assert (Lr : length r = 8%nat) by (unfold r; rewrite length_drop; unfold PRODUCTINFO_SIZE in *; lia).
  destruct r as [|r0 [|r1 [|r2 [|r3 [|r4 [|r5 [|r6 [|r7 [|]]]]]]]]]; try done.
  rewrite (store_mid d [r0; r1; r2; r3] _ [r4; r5; r6; r7]) by done. cbn [mbind option_bind].
  rewrite app_assoc. set (e := d ++ [0x5a; 0x5a; 0x5a; 0x5a]).
  assert (Le : zlen e = PRODUCTINFO_SIZE + 4) by (unfold e; rewrite length_app; cbn [length]; lia).
  rewrite <- Le, load_prefix. cbn [mbind option_bind]. rewrite <- (app_nil_r (e ++ [r4; r5; r6; r7])), <- app_assoc.
  rewrite store_mid by done. cbn [mbind option_bind]. rewrite app_nil_r. fold (prod_image d). fold b.
  assert (Lb : zlen b = PRODUCTINFO_SIZE + 8) by (unfold b; rewrite prod_image_length; lia).
  assert (Hb : b <> []) by (intros E; rewrite E in Lb; cbn in Lb; unfold PRODUCTINFO_SIZE in Lb; lia).
  unfold write_both. cbn [sys set_phase phasecheck_buffer].
  rewrite open_file_there by (done || by eexists). rewrite load_all by done. cbn [mbind option_bind].
  rewrite do_write_all by done. rewrite open_file_there; [|done|].
  2:{ unfold do_op. cbn [files apply_op]. rewrite lookup_insert_ne by discriminate. by eexists. }
  by rewrite do_write_all.
Qed.

(** On eMMC a request for the product information leaves in both
    partitions the old data with the request's data at its offset, closed with
    a CRC that the raw data daemon accepts. *)
Lemma productinfo_request_verified s h script d rest c1 c2 :
  results (sys s) = [] -> zlen (req_header s) = 12 -> zlen h = 12 -> bytes h ->
  hdr_type h = 2 -> hdr_req_type h <> 1 -> hdr_offset h + hdr_size h <= PRODUCTINFO_SIZE ->
  can_open PI1 = true -> can_open PI2 = true ->
  files (sys s) !! PI1 = Some c1 -> files (sys s) !! PI2 = Some c2 -> PRODUCTINFO_SIZE + 8 <= zlen c1 ->
  bytes c1 -> bytes d -> fed (hdr_size h) script d rest ->
  exists s' t1 t2, turn true can_open s (Got h :: script) = Some (Done s' rest) /\
    files (sys s') !! PI1 = Some t1 /\ files (sys s') !! PI2 = Some t2 /\
    block_verdict 0 t1 = 0 /\ block_verdict 0 t2 = 0 /\
    take (Z.to_nat PRODUCTINFO_SIZE) t1 = take (Z.to_nat PRODUCTINFO_SIZE) (splice c1 (Z.to_nat (hdr_offset h)) d) /\
    take (Z.to_nat PRODUCTINFO_SIZE) t2 = take (Z.to_nat PRODUCTINFO_SIZE) t1.
Proof.
  intros Hr Lr Lh Bh Ht Hq Hz C1 C2 E1 E2 L1 B1 Bd Hf. destruct (hdr_range h Bh) as [[Ro _] [Rs _]].
  rewrite (turn_header true can_open s h _ Lr Lh), (proj2 (Z.eqb_neq _ 1)) by done. set (s0 := set_header s h).
  unfold request. change (req_header s0) with h. rewrite Ht. change (2 =? 0) with false. change (2 =? 1) with false.
  change (2 =? 2) with true. cbv iota. unfold load_productinfo.
  rewrite open_file_there by (done || by eexists). cbn [mbind option_bind].
  rewrite (read_file_full (sys s0) PI1 _ c1 (PRODUCTINFO_SIZE + 8) E1); [|rewrite length_replicate; unfold PRODUCTINFO_SIZE; lia|done].
  set (b := take (Z.to_nat (PRODUCTINFO_SIZE + 8)) c1).
  assert (Lb : zlen b = PRODUCTINFO_SIZE + 8) by (unfold b; rewrite length_take; unfold PRODUCTINFO_SIZE in *; lia).
  pose proof (fed_length _ _ _ _ Hf) as Ld. set (s1 := set_phase _ b _).
  assert (HP : PRODUCTINFO_SIZE = 3072) by reflexivity.
  unfold receive. change (req_header s1) with h. rewrite s32_small by lia.
  rewrite (productinfo_data true _ _ _ _ Hf s1 0 0); change (phasecheck_buffer s1) with b;
    change (phasecheck_buffer_offset s1) with (hdr_offset h); [|lia|lia|lia].
  cbn [mbind option_bind]. set (b' := splice b _ d).
  assert (Lb' : zlen b' = PRODUCTINFO_SIZE + 8) by (unfold b'; rewrite splice_length; lia).
  unfold finish. change (PRODUCTINFO_SIZE =? RUNTIMENV_SIZE) with false. rewrite Z.eqb_refl. cbv iota.
  rewrite (update_productinfofile_emmc_spec _ c1 c2); [|exact Lb'|exact Hr|exact C1|exact C2|exact E1|exact E2].
  cbn [mbind option_bind snd phasecheck_buffer set_phase].
  set (e := take (Z.to_nat PRODUCTINFO_SIZE) b'). set (img := prod_image e).
  assert (Le : zlen e = PRODUCTINFO_SIZE) by (unfold e; rewrite length_take; lia).
  assert (Be : bytes e) by (unfold e, b', b; apply Forall_take, bytes_splice; auto using Forall_take).
  assert (T : forall t, take (Z.to_nat PRODUCTINFO_SIZE) (img ++ t) = e).
  { intros t. unfold img, prod_image. rewrite <- !app_assoc. replace (Z.to_nat PRODUCTINFO_SIZE) with (length e) by lia.
    apply take_app_0. }
  eexists _, (img ++ drop (length img) c1), (img ++ drop (length img) c2). split; [reflexivity|].
  cbn [sys set_sys set_phase]. change (sys s1) with (sys s). split.
  { unfold do_op. cbn [files apply_op]. rewrite lookup_insert_ne, lookup_insert_eq by discriminate. by rewrite E1. }
  split; [rewrite written; unfold do_op; cbn [files apply_op]; rewrite lookup_insert_ne by discriminate; by rewrite E2|].
  split; [by apply prod_image_verdict|]. split; [by apply prod_image_verdict|]. rewrite !T. split; [|done].
  apply take_splice_prefix; lia.
Qed.
End Emmc.

(** ** Examples *)
Lemma sum16_zeros k acc : is_u32 acc -> sum16 acc (replicate (2 * k) 0) = acc.
Proof.
  intros Ha. induction k as [|k IH]; [done|]. replace (2 * S k)%nat with (S (S (2 * k))) by lia.
  cbn [replicate sum16]. rewrite Z.add_0_r, u32_small by done. exact IH.
Qed.

Definition zero_image : list Z := fix_image (replicate (Z.to_nat (FIXNV_SIZE - 4)) 0) 0.
Definition sync_header : list Z := [0; 0; 1; 0; 0; 0; 0; 0; 0; 0; 0; 0].
Definition two_bytes : list Z := [0; 0; 0; 0; 0; 0; 0; 0; 2; 0; 0; 0].
(** Both files and the buffer hold the image [z], and the backup is due. *)
Definition demo_nvm (z : list Z) : nvm :=
  mkNvm z 0 [] 0 0 true (replicate 12 0) []
    (mkOs {[ FIX_NV1 false := z; FIX_NV2 false := z ]} [] []).

Lemma zero_image_length : zlen zero_image = FIXNV_SIZE + 4.
Proof. unfold zero_image. rewrite fix_image_length, length_replicate. unfold FIXNV_SIZE. lia. Qed.

Lemma demo_files z :
  files (sys (demo_nvm z)) !! FIX_NV1 false = Some z /\ files (sys (demo_nvm z)) !! FIX_NV2 false = Some z.
Proof.
  split; [apply lookup_insert_eq|]. etransitivity; [apply lookup_insert_ne; discriminate|apply lookup_insert_eq].
Qed.

Lemma demo_old z : zlen z = FIXNV_SIZE + 4 -> fix_old false (demo_nvm z) = z.
Proof.
  intros L. unfold fix_old. rewrite (read_file_full _ _ _ z); [by rewrite take_ge by lia|apply demo_files| |lia].
  rewrite length_replicate. unfold FIXNV_SIZE. lia.
Qed.

(** A request for two bytes that breaks off after one, then a sync. *)
Lemma interrupted_then_sync z :
  zlen z = FIXNV_SIZE + 4 ->
  exists s1 s2,
    turn false (fun _ => true) (demo_nvm z) [Got two_bytes; Got [1]; Got []] = Some (Reopen s1 []) /\
    turn false (fun _ => true) s1 [Got sync_header] = Some (Done s2 []) /\
    exists t, files (sys s2) !! FIX_NV2 false = Some (splice z 0 [1] ++ t).
Proof.
  intros Lz. destruct (demo_files z) as [P1 P2].
  destruct (interrupted_fixnv false (fun _ => true) (demo_nvm z) two_bytes [1] []) as (s1 & E1 & B1 & S1 & F1 & H1);
    [done|done|done|unfold two_bytes; solve_bytes|done|done|done|rewrite P1; by eexists|done..|].
  rewrite demo_old in B1 by done. change (Z.to_nat (hdr_offset two_bytes)) with 0%nat in B1.
  assert (L : length (splice z 0 [1]) = length z).
  { apply splice_length. unfold FIXNV_SIZE in *. cbn [length]. lia. }
  destruct (sync_turn false (fun _ => true) s1 sync_header []) as (s2 & E2 & B2 & _);
    [by rewrite S1|by rewrite B1, L|by rewrite H1|done|done|by rewrite F1|done|rewrite S1, P2; by eexists|].
  exists s1, s2. split; [exact E1|]. split; [exact E2|]. rewrite B2, B1. by eexists.
Qed.

Lemma zero_image_accepted : accepted (Some zero_image).
Proof.
  unfold zero_image. rewrite <- (app_nil_r (fix_image _ _)). apply fix_image_good.
  rewrite length_replicate. unfold FIXNV_SIZE. lia.
Qed.

(** The image with its first byte overwritten fails the check. *)
Lemma overwritten_shape k size t :
  size = Z.of_nat (2 * k + 6) ->
  _chkImg (Some (splice (fix_image (replicate (2 * k + 2) 0) 0) 0 [1] ++ t)) size = Some false.
Proof.
  intros Hs. replace (2 * k + 2)%nat with (S (S (2 * k))) by lia. unfold fix_image.
  assert (E : sum16 0 (replicate (S (S (2 * k))) 0) = 0).
  { replace (S (S (2 * k))) with (2 * S k)%nat by lia. by apply sum16_zeros. }
  rewrite E. cbn [replicate]. rewrite splice_0 by (cbn [length app]; lia).
  cbn [length drop app]. rewrite <- app_assoc. cbn [le_enc app].
  change (1 :: 0 :: replicate (2 * k) 0 ++ ?r) with ((1 :: 0 :: replicate (2 * k) 0) ++ r).
  rewrite chkImg_shape; cbn [length]; rewrite ?length_replicate; [|lia|lia].
  cbn [sum16]. by rewrite sum16_zeros by apply u32_range.
Qed.

Lemma overwritten_rejected t : _chkImg (Some (splice zero_image 0 [1] ++ t)) FIXNV_SIZE = Some false.
Proof.
  unfold zero_image. replace (Z.to_nat (FIXNV_SIZE - 4)) with (2 * Z.to_nat 32765 + 2)%nat by (unfold FIXNV_SIZE; lia).
  apply overwritten_shape. unfold FIXNV_SIZE. lia.
Qed.

(** A request that breaks off spoils the backup.  With the backup due, a
    request for two bytes of the fixed NV of which one arrives before the
    connection ends, followed by a sync, writes the half-changed buffer with
    the old checksum to the backup: its check fails, and until the next
    complete request the first file is the only good copy. *)
Lemma interrupted_request_spoils_backup :
  exists s1 s2,
    turn false (fun _ => true) (demo_nvm zero_image) [Got two_bytes; Got [1]; Got []] = Some (Reopen s1 []) /\
    turn false (fun _ => true) s1 [Got sync_header] = Some (Done s2 []) /\
    accepted (files (sys (demo_nvm zero_image)) !! FIX_NV2 false) /\
    _chkImg (files (sys s2) !! FIX_NV2 false) FIXNV_SIZE = Some false.
Proof.
  destruct (interrupted_then_sync zero_image zero_image_length) as (s1 & s2 & E1 & E2 & t & E3).
  exists s1, s2. rewrite E3, (proj2 (demo_files zero_image)).
  split; [exact E1|]. split; [exact E2|]. split; [apply zero_image_accepted|apply overwritten_rejected].
Qed.

(** ** Instances *)
Definition anything (_ : string) : bool := true.
Definition two_pieces : list pipe_read := [Got [1]; Failed; Got [2]].

Lemma two_pieces_fed n : n = 2 -> fed n two_pieces [1; 2] [].
Proof.
  intros ->. change [1; 2] with ([1] ++ [2] ++ []). apply fed_got; [done|done|done|]. apply fed_failed; [done|].
  apply fed_got; [done|done|done|]. apply fed_done.
Qed.

Lemma two_bytes_bytes : bytes two_bytes.
Proof. unfold two_bytes. solve_bytes. Qed.

Lemma fixnv_request_then_sync_witness :
  exists s1 s2,
    turn false anything (demo_nvm zero_image) (Got two_bytes :: two_pieces) = Some (Done s1 []) /\
    turn false anything s1 [Got sync_header] = Some (Done s2 []) /\
    accepted (files (sys s1) !! FIX_NV1 false) /\ update_finxn_flag s2 = false.
Proof.
  destruct (fixnv_request_then_sync false anything (demo_nvm zero_image) two_bytes two_pieces [1; 2] [] sync_header [])
    as (s1 & s2 & t1 & t2 & E1 & _ & A & _ & E2 & _ & _ & Fl & _).
  - reflexivity.
  - reflexivity.
  - reflexivity.
  - apply two_bytes_bytes.
  - reflexivity.
  - discriminate.
  - vm_compute. discriminate.
  - reflexivity.
  - left. reflexivity.
  - apply two_pieces_fed. reflexivity.
  - reflexivity.
  - reflexivity.
  - reflexivity.
  - exists zero_image. apply demo_files.
  - exists s1, s2. split; [exact E1|]. split; [exact E2|]. split; [exact A|exact Fl].
Defined.

Definition start_nvm : nvm := set_flag (demo_nvm zero_image) false.

Lemma start_turn : exists s1, turn false anything start_nvm (Got two_bytes :: two_pieces) = Some (Done s1 []).
Proof.
  destruct (fixnv_turn false anything start_nvm two_bytes two_pieces [1; 2] []) as (s1 & E1 & _).
  1-3: reflexivity.
  - apply two_bytes_bytes.
  - reflexivity.
  - discriminate.
  - vm_compute. discriminate.
  - reflexivity.
  - left. reflexivity.
  - apply two_pieces_fed. reflexivity.
  - exists s1. exact E1.
Qed.

Lemma start_inv : fix_inv false start_nvm.
Proof.
  split; [reflexivity|exact zero_image_length| |discriminate].
  change (files (sys start_nvm)) with (files (sys (demo_nvm zero_image))).
  rewrite (proj2 (demo_files zero_image)). apply zero_image_accepted.
Qed.

Lemma fixnv_crash_safe_witness :
  exists s1 ops f, turn false anything start_nvm (Got two_bytes :: two_pieces) = Some (Done s1 []) /\
    log (sys s1) = log (sys start_nvm) ++ ops /\ crash (files (sys start_nvm)) ops f /\
    (accepted (f !! FIX_NV1 false) \/ accepted (f !! FIX_NV2 false)).
Proof.
  destruct start_turn as [s1 E]. destruct (turn_safe false anything _ _ _ _ start_inv E) as [_ (ops & L & _ & _)].
  assert (C : crash (files (sys start_nvm)) ops (fold_left apply_op ops (files (sys start_nvm)))).
  { exists ops. left. split; [exists []; by rewrite app_nil_r|reflexivity]. }
  exists s1, ops, (fold_left apply_op ops (files (sys start_nvm))). split; [exact E|]. split; [exact L|]. split; [exact C|].
  apply (fixnv_crash_safe false anything start_nvm start_nvm (Got two_bytes :: two_pieces) s1 [] ops).
  - reflexivity.
  - exact zero_image_length.
  - reflexivity.
  - exact (fi_backup false _ start_inv).
  - apply reach_refl.
  - exact E.
  - exact L.
  - exact C.
Defined.

Definition small_nvm : nvm :=
  mkNvm [] 0 [] 0 0 false (replicate 12 0) []
    (mkOs {[ RUNTIME_NV1 true := [7; 7; 7]; RUNTIME_NV2 true := [];
             PROD_INFO1 true := replicate 3080 0; PROD_INFO2 true := [] ]} [] []).
Definition runtime_two : list Z := [1; 0; 0; 0; 1; 0; 0; 0; 2; 0; 0; 0].
Definition product_two : list Z := [2; 0; 0; 0; 1; 0; 0; 0; 2; 0; 0; 0].

Lemma runtime_request_mirrored_witness :
  exists s', turn true anything small_nvm (Got runtime_two :: two_pieces) = Some (Done s' []) /\
    files (sys s') !! RUNTIME_NV1 true = Some [7; 1; 2] /\ files (sys s') !! RUNTIME_NV2 true = Some [0; 1; 2].
Proof.
  apply (runtime_request_mirrored true anything small_nvm runtime_two two_pieces [1; 2] [] [7; 7; 7] []).
  1-3: reflexivity.
  - unfold runtime_two. solve_bytes.
  - reflexivity.
  - discriminate.
  - vm_compute. reflexivity.
  - vm_compute. split; reflexivity.
  - reflexivity.
  - reflexivity.
  - vm_compute. reflexivity.
  - vm_compute. reflexivity.
  - apply two_pieces_fed. reflexivity.
Defined.

Lemma productinfo_request_verified_witness :
  exists s' t1 t2, turn true anything small_nvm (Got product_two :: two_pieces) = Some (Done s' []) /\
    files (sys s') !! PROD_INFO1 true = Some t1 /\ files (sys s') !! PROD_INFO2 true = Some t2 /\
    block_verdict 0 t1 = 0 /\ block_verdict 0 t2 = 0.
Proof.
  destruct (productinfo_request_verified anything small_nvm product_two two_pieces [1; 2] [] (replicate 3080 0) [])
    as (s' & t1 & t2 & E & F1 & F2 & V1 & V2 & _).
  1-3: reflexivity.
  - unfold product_two. solve_bytes.
  - reflexivity.
  - discriminate.
  - vm_compute. discriminate.
  - reflexivity.
  - reflexivity.
  - vm_compute. reflexivity.
  - vm_compute. reflexivity.
  - vm_compute. discriminate.
  - apply Forall_replicate. unfold is_byte. lia.
  - solve_bytes.
  - apply two_pieces_fed. reflexivity.
  - exists s', t1, t2. split; [exact E|]. split; [exact F1|]. split; [exact F2|]. split; [exact V1|exact V2].
Defined.
