(* ===== verification/JpegTables.v ===== *)
(** The tables of the JPEG codec: jpegcodec_table.c of
    common/libs/libcamera/jpeg/jpeg_fw_8830/src.

    Quantisation matrices for the five quality levels (with the reciprocals
    and shifts the hardware quantiser uses), the default Huffman tables of
    Annex K, the zigzag order, the register images of the default decoding
    tables and the code table of the encoder.  [DC_SYMBOL_NUM] is 12,
    [AC_SYMBOL_NUM] 256 and [MAX_BITS_SIZE] 16; the arrays have exactly the
    declared lengths. *)
From S2P Require Import Prelude.

Definition jpeg_fw_lum_quant_tbl_default : list (list Z) :=
[ [
   10; 7; 6; 10; 14; 24; 31; 37; 7; 7; 8; 11; 16; 35; 36; 33; 8; 8; 10; 14; 24; 34; 41; 34;
   8; 10; 13; 17; 31; 52; 48; 37; 11; 13; 22; 34; 41; 65; 62; 46; 14; 21; 33; 38; 49; 62;
   68; 55; 29; 38; 47; 52; 62; 73; 72; 61; 43; 55; 57; 59; 67; 60; 62; 59 ];

 [
   6; 4; 4; 6; 10; 16; 20; 24; 5; 5; 6; 8; 10; 23; 24; 22; 6; 5; 6; 10; 16; 23; 28; 22; 6;
   7; 9; 12; 20; 35; 32; 25; 7; 9; 15; 22; 27; 44; 41; 31; 10; 14; 22; 26; 32; 42; 45; 37;
   20; 26; 31; 35; 41; 48; 48; 40; 29; 37; 38; 39; 45; 40; 41; 40 ];

 [
   5; 3; 3; 5; 7; 12; 15; 18; 4; 4; 4; 6; 8; 17; 18; 17; 4; 4; 5; 7; 12; 17; 18; 17; 4; 5;
   7; 9; 15; 26; 24; 19; 5; 7; 11; 17; 20; 33; 31; 23; 7; 11; 17; 19; 24; 31; 34; 28; 15;
   19; 23; 26; 31; 36; 36; 30; 22; 28; 29; 29; 34; 30; 31; 30 ];

 [
   3; 2; 2; 3; 5; 8; 10; 12; 2; 2; 3; 4; 5; 12; 12; 11; 3; 3; 3; 5; 8; 11; 14; 11; 3; 3; 4;
   6; 10; 17; 16; 12; 4; 4; 7; 11; 14; 22; 21; 15; 5; 7; 11; 13; 16; 21; 23; 18; 10; 13;
   16; 17; 21; 24; 24; 20; 14; 18; 19; 20; 22; 20; 21; 20 ];

 [
   2; 1; 1; 2; 2; 4; 5; 6; 1; 1; 1; 2; 3; 6; 6; 6; 1; 1; 2; 2; 4; 6; 7; 6; 1; 2; 2; 3; 5;
   9; 8; 6; 2; 2; 4; 6; 7; 11; 10; 8; 2; 4; 6; 6; 8; 10; 11; 9; 5; 6; 8; 9; 10; 12; 12; 10;
   7; 9; 10; 10; 11; 10; 10; 10 ]].

Definition jpeg_fw_chr_quant_tbl_default : list (list Z) :=
[ [
   10; 7; 6; 10; 14; 24; 31; 37; 7; 7; 8; 11; 16; 35; 36; 33; 8; 8; 10; 14; 24; 34; 41; 34;
   8; 10; 13; 17; 31; 52; 48; 37; 11; 13; 22; 34; 41; 65; 62; 46; 14; 21; 33; 38; 49; 62;
   68; 55; 29; 38; 47; 52; 62; 73; 72; 61; 43; 55; 57; 59; 67; 60; 62; 59 ];

 [
   6; 4; 4; 6; 10; 16; 20; 24; 5; 5; 6; 8; 10; 23; 24; 22; 6; 5; 6; 10; 16; 23; 28; 22; 6;
   7; 9; 12; 20; 35; 32; 25; 7; 9; 15; 22; 27; 44; 41; 31; 10; 14; 22; 26; 32; 42; 45; 37;
   20; 26; 31; 35; 41; 48; 48; 40; 29; 37; 38; 39; 45; 40; 41; 40 ];

 [
   5; 3; 3; 5; 7; 12; 15; 18; 4; 4; 4; 6; 8; 17; 18; 17; 4; 4; 5; 7; 12; 17; 18; 17; 4; 5;
   7; 9; 15; 26; 24; 19; 5; 7; 11; 17; 20; 33; 31; 23; 7; 11; 17; 19; 24; 31; 34; 28; 15;
   19; 23; 26; 31; 36; 36; 30; 22; 28; 29; 29; 34; 30; 31; 30 ];

 [
   3; 2; 2; 3; 5; 8; 10; 12; 2; 2; 3; 4; 5; 12; 12; 11; 3; 3; 3; 5; 8; 11; 14; 11; 3; 3; 4;
   6; 10; 17; 16; 12; 4; 4; 7; 11; 14; 22; 21; 15; 5; 7; 11; 13; 16; 21; 23; 18; 10; 13;
   16; 17; 21; 24; 24; 20; 14; 18; 19; 20; 22; 20; 21; 20 ];

 [
   2; 1; 1; 2; 2; 4; 5; 6; 1; 1; 1; 2; 3; 6; 6; 6; 1; 1; 2; 2; 4; 6; 7; 6; 1; 2; 2; 3; 5;
   9; 8; 6; 2; 2; 4; 6; 7; 11; 10; 8; 2; 4; 6; 6; 8; 10; 11; 9; 5; 6; 8; 9; 10; 12; 12; 10;
   7; 9; 10; 10; 11; 10; 10; 10 ]].

Definition jpeg_fw_lum_dc_bits_default : list Z := [
  0; 0; 1; 5; 1; 1; 1; 1; 1; 1; 0; 0; 0; 0; 0; 0; 0 ].

Definition jpeg_fw_lum_dc_huffvalue_default : list Z := [
  0; 1; 2; 3; 4; 5; 6; 7; 8; 9; 10; 11 ].

Definition jpeg_fw_lum_ac_bits_default : list Z := [
  0; 0; 2; 1; 3; 3; 2; 4; 3; 5; 5; 4; 4; 0; 0; 1; 125 ].

Definition jpeg_fw_lum_ac_huffvalue_default : list Z := [
  1; 2; 3; 0; 4; 17; 5; 18; 33; 49; 65; 6; 19; 81; 97; 7; 34; 113; 20; 50; 129; 145; 161;
  8; 35; 66; 177; 193; 21; 82; 209; 240; 36; 51; 98; 114; 130; 9; 10; 22; 23; 24; 25; 26;
  37; 38; 39; 40; 41; 42; 52; 53; 54; 55; 56; 57; 58; 67; 68; 69; 70; 71; 72; 73; 74; 83;
  84; 85; 86; 87; 88; 89; 90; 99; 100; 101; 102; 103; 104; 105; 106; 115; 116; 117; 118;
  119; 120; 121; 122; 131; 132; 133; 134; 135; 136; 137; 138; 146; 147; 148; 149; 150; 151;
  152; 153; 154; 162; 163; 164; 165; 166; 167; 168; 169; 170; 178; 179; 180; 181; 182; 183;
  184; 185; 186; 194; 195; 196; 197; 198; 199; 200; 201; 202; 210; 211; 212; 213; 214; 215;
  216; 217; 218; 225; 226; 227; 228; 229; 230; 231; 232; 233; 234; 241; 242; 243; 244; 245;
  246; 247; 248; 249; 250; 0; 0; 0; 0; 0; 0; 0; 0; 0; 0; 0; 0; 0; 0; 0; 0; 0; 0; 0; 0; 0;
  0; 0; 0; 0; 0; 0; 0; 0; 0; 0; 0; 0; 0; 0; 0; 0; 0; 0; 0; 0; 0; 0; 0; 0; 0; 0; 0; 0; 0; 0;
  0; 0; 0; 0; 0; 0; 0; 0; 0; 0; 0; 0; 0; 0; 0; 0; 0; 0; 0; 0; 0; 0; 0; 0; 0; 0; 0; 0; 0; 0;
  0; 0; 0; 0; 0; 0; 0; 0; 0; 0; 0; 0; 0 ].

Definition jpeg_fw_chr_dc_bits_default : list Z := [
  0; 0; 3; 1; 1; 1; 1; 1; 1; 1; 1; 1; 0; 0; 0; 0; 0 ].

Definition jpeg_fw_chr_dc_huffvalue_default : list Z := [
  0; 1; 2; 3; 4; 5; 6; 7; 8; 9; 10; 11 ].

Definition jpeg_fw_chr_ac_bits_default : list Z := [
  0; 0; 2; 1; 2; 4; 4; 3; 4; 7; 5; 4; 4; 0; 1; 2; 119 ].

Definition jpeg_fw_chr_ac_huffvalue_default : list Z := [
  0; 1; 2; 3; 17; 4; 5; 33; 49; 6; 18; 65; 81; 7; 97; 113; 19; 34; 50; 129; 8; 20; 66; 145;
  161; 177; 193; 9; 35; 51; 82; 240; 21; 98; 114; 209; 10; 22; 36; 52; 225; 37; 241; 23;
  24; 25; 26; 38; 39; 40; 41; 42; 53; 54; 55; 56; 57; 58; 67; 68; 69; 70; 71; 72; 73; 74;
  83; 84; 85; 86; 87; 88; 89; 90; 99; 100; 101; 102; 103; 104; 105; 106; 115; 116; 117;
  118; 119; 120; 121; 122; 130; 131; 132; 133; 134; 135; 136; 137; 138; 146; 147; 148; 149;
  150; 151; 152; 153; 154; 162; 163; 164; 165; 166; 167; 168; 169; 170; 178; 179; 180; 181;
  182; 183; 184; 185; 186; 194; 195; 196; 197; 198; 199; 200; 201; 202; 210; 211; 212; 213;
  214; 215; 216; 217; 218; 226; 227; 228; 229; 230; 231; 232; 233; 234; 242; 243; 244; 245;
  246; 247; 248; 249; 250; 0; 0; 0; 0; 0; 0; 0; 0; 0; 0; 0; 0; 0; 0; 0; 0; 0; 0; 0; 0; 0;
  0; 0; 0; 0; 0; 0; 0; 0; 0; 0; 0; 0; 0; 0; 0; 0; 0; 0; 0; 0; 0; 0; 0; 0; 0; 0; 0; 0; 0; 0;
  0; 0; 0; 0; 0; 0; 0; 0; 0; 0; 0; 0; 0; 0; 0; 0; 0; 0; 0; 0; 0; 0; 0; 0; 0; 0; 0; 0; 0; 0;
  0; 0; 0; 0; 0; 0; 0; 0; 0; 0; 0; 0; 0 ].

Definition jpeg_fw_zigzag_order : list Z := [
  0; 1; 8; 16; 9; 2; 3; 10; 17; 24; 32; 25; 18; 11; 4; 5; 12; 19; 26; 33; 40; 48; 41; 34;
  27; 20; 13; 6; 7; 14; 21; 28; 35; 42; 49; 56; 57; 50; 43; 36; 29; 22; 15; 23; 30; 37; 44;
  51; 58; 59; 52; 45; 38; 31; 39; 46; 53; 60; 61; 54; 47; 55; 62; 63; 63; 63; 63; 63; 63;
  63; 63; 63; 63; 63; 63; 63; 63; 63; 63; 63 ].

Definition jpeg_fw_hufftab_dcLuma : list Z := [
  0x2; 0x20003; 0x30003; 0x40003; 0x50003; 0x60003; 0xe0004; 0x1e0005; 0x3e0006; 0x7e0007;
  0xfe0008; 0x1fe0009 ].

Definition jpeg_fw_hufftab_dcChroam : list Z := [
  0x2; 0x10002; 0x20002; 0x60003; 0xe0004; 0x1e0005; 0x3e0006; 0x7e0007; 0xfe0008;
  0x1fe0009; 0x3fe000a; 0x7fe000b ].

Definition jpeg_fw_new_lum_quant_tbl_default : list (list Z) :=
[ [
   3277; 2341; 2731; 3277; 2341; 2731; 2114; 3542; 2341; 2341; 2048; 2979; 2048; 3745;
   3641; 3972; 2048; 2048; 3277; 2341; 2731; 3855; 3197; 3855; 2048; 3277; 2521; 3855;
   2114; 2521; 2731; 3542; 2979; 2521; 2979; 3855; 3197; 4033; 2114; 2849; 2341; 3121;
   3972; 3449; 2675; 2114; 3855; 2383; 2260; 3449; 2789; 2521; 2114; 3591; 3641; 2149;
   3048; 2383; 2300; 2222; 3913; 2185; 2114; 2222 ];

 [
   2731; 2048; 2048; 2731; 3277; 2048; 3277; 2731; 3277; 3277; 2731; 2048; 3277; 2849;
   2731; 2979; 2731; 3277; 2731; 3277; 2048; 2849; 2341; 2979; 2731; 2341; 3641; 2731;
   3277; 3745; 2048; 2621; 2341; 3641; 2185; 2979; 2427; 2979; 3197; 2114; 3277; 2341;
   2979; 2521; 2048; 1560; 2913; 3542; 3277; 2521; 2114; 3745; 3197; 2731; 2731; 3277;
   2260; 3542; 3449; 1680; 2913; 3277; 3197; 3277 ];

 [
   3277; 2731; 2731; 3277; 2341; 2731; 2185; 3641; 2048; 2048; 2048; 2731; 2048; 3855;
   3641; 3855; 2048; 2048; 3277; 2341; 2731; 3855; 3641; 3855; 2048; 3277; 2341; 3641;
   2185; 2521; 2731; 3449; 3277; 2341; 2979; 3855; 3277; 3972; 2114; 2849; 2341; 2979;
   3855; 3449; 2731; 2114; 3855; 2341; 2185; 3449; 2849; 2521; 2114; 3641; 3641; 2185;
   2979; 2341; 2260; 2260; 3855; 2185; 2114; 2185 ];

 [
   2731; 2048; 2048; 2731; 3277; 2048; 3277; 2731; 2048; 2048; 2731; 2048; 3277; 2731;
   2731; 2979; 2731; 2731; 2731; 3277; 2048; 2979; 2341; 2979; 2731; 2731; 2048; 2731;
   3277; 3855; 2048; 2731; 2048; 2048; 2341; 2979; 2341; 2979; 3121; 2185; 3277; 2341;
   2979; 2521; 2048; 3121; 2849; 3641; 3277; 2521; 2048; 3855; 3121; 2731; 2731; 3277;
   2341; 3641; 3449; 3277; 2979; 3277; 3121; 3277 ];

 [
   2048; 2048; 2048; 2048; 2048; 2048; 3277; 2731; 2048; 2048; 2048; 2048; 2731; 2731;
   2731; 2731; 2048; 2048; 2048; 2048; 2048; 2731; 2341; 2731; 2048; 2048; 2048; 2731;
   3277; 3641; 2048; 2731; 2048; 2048; 2048; 2731; 2341; 2979; 3277; 2048; 2048; 2048;
   2731; 2731; 2048; 3277; 2979; 3641; 3277; 2731; 2048; 3641; 3277; 2731; 2731; 3277;
   2341; 3641; 3277; 3277; 2979; 3277; 3277; 3277 ]].

Definition jpeg_fw_new_lum_quant_tbl_default_shift : list (list Z) :=
[ [
   15; 14; 14; 15; 15; 16; 16; 17; 14; 14; 14; 15; 15; 17; 17; 17; 14; 14; 15; 15; 16; 17;
   17; 17; 14; 15; 15; 16; 16; 17; 17; 17; 15; 15; 16; 17; 17; 18; 17; 17; 15; 16; 17; 17;
   17; 17; 18; 17; 16; 17; 17; 17; 17; 18; 18; 17; 17; 17; 17; 17; 18; 17; 17; 17 ];

 [
   14; 13; 13; 14; 15; 15; 16; 16; 14; 14; 14; 14; 15; 16; 16; 16; 14; 14; 14; 15; 15; 16;
   16; 16; 14; 14; 15; 15; 16; 17; 16; 16; 14; 15; 15; 16; 16; 17; 17; 16; 15; 15; 16; 16;
   16; 16; 17; 17; 16; 16; 16; 17; 17; 17; 17; 17; 16; 17; 17; 16; 17; 17; 17; 17 ];

 [
   14; 13; 13; 14; 14; 15; 15; 16; 13; 13; 13; 14; 14; 16; 16; 16; 13; 13; 14; 14; 15; 16;
   16; 16; 13; 14; 14; 15; 15; 16; 16; 16; 14; 14; 15; 16; 16; 17; 16; 16; 14; 15; 16; 16;
   16; 16; 17; 16; 15; 16; 16; 16; 16; 17; 17; 16; 16; 16; 16; 16; 17; 16; 16; 16 ];

 [
   13; 12; 12; 13; 14; 14; 15; 15; 12; 12; 13; 13; 14; 15; 15; 15; 13; 13; 13; 14; 14; 15;
   15; 15; 13; 13; 13; 14; 15; 16; 15; 15; 13; 13; 14; 15; 15; 16; 16; 15; 14; 14; 15; 15;
   15; 16; 16; 16; 15; 15; 15; 16; 16; 16; 16; 16; 15; 16; 16; 16; 16; 16; 16; 16 ];

 [
   12; 11; 11; 12; 12; 13; 14; 14; 11; 11; 11; 12; 13; 14; 14; 14; 11; 11; 12; 12; 13; 14;
   14; 14; 11; 12; 12; 13; 14; 15; 14; 14; 12; 12; 13; 14; 14; 15; 15; 14; 12; 13; 14; 14;
   14; 15; 15; 15; 14; 14; 14; 15; 15; 15; 15; 15; 14; 15; 15; 15; 15; 15; 15; 15 ]].

Definition jpeg_fw_new_chr_quant_tbl_default : list (list Z) :=
[ [
   3277; 2341; 2731; 3277; 2341; 2731; 2114; 3542; 2341; 2341; 2048; 2979; 2048; 3745;
   3641; 3972; 2048; 2048; 3277; 2341; 2731; 3855; 3197; 3855; 2048; 3277; 2521; 3855;
   2114; 2521; 2731; 3542; 2979; 2521; 2979; 3855; 3197; 4033; 2114; 2849; 2341; 3121;
   3972; 3449; 2675; 2114; 3855; 2383; 2260; 3449; 2789; 2521; 2114; 3591; 3641; 2149;
   3048; 2383; 2300; 2222; 3913; 2185; 2114; 2222 ];

 [
   2731; 2048; 2048; 2731; 3277; 2048; 3277; 2731; 3277; 3277; 2731; 2048; 3277; 2849;
   2731; 2979; 2731; 3277; 2731; 3277; 2048; 2849; 2341; 2979; 2731; 2341; 3641; 2731;
   3277; 3745; 2048; 2621; 2341; 3641; 2185; 2979; 2427; 2979; 3197; 2114; 3277; 2341;
   2979; 2521; 2048; 1560; 2913; 3542; 3277; 2521; 2114; 3745; 3197; 2731; 2731; 3277;
   2260; 3542; 3449; 1680; 2913; 3277; 3197; 3277 ];

 [
   3277; 2731; 2731; 3277; 2341; 2731; 2185; 3641; 2048; 2048; 2048; 2731; 2048; 3855;
   3641; 3855; 2048; 2048; 3277; 2341; 2731; 3855; 3641; 3855; 2048; 3277; 2341; 3641;
   2185; 2521; 2731; 3449; 3277; 2341; 2979; 3855; 3277; 3972; 2114; 2849; 2341; 2979;
   3855; 3449; 2731; 2114; 3855; 2341; 2185; 3449; 2849; 2521; 2114; 3641; 3641; 2185;
   2979; 2341; 2260; 2260; 3855; 2185; 2114; 2185 ];

 [
   2731; 2048; 2048; 2731; 3277; 2048; 3277; 2731; 2048; 2048; 2731; 2048; 3277; 2731;
   2731; 2979; 2731; 2731; 2731; 3277; 2048; 2979; 2341; 2979; 2731; 2731; 2048; 2731;
   3277; 3855; 2048; 2731; 2048; 2048; 2341; 2979; 2341; 2979; 3121; 2185; 3277; 2341;
   2979; 2521; 2048; 3121; 2849; 3641; 3277; 2521; 2048; 3855; 3121; 2731; 2731; 3277;
   2341; 3641; 3449; 3277; 2979; 3277; 3121; 3277 ];

 [
   2048; 2048; 2048; 2048; 2048; 2048; 3277; 2731; 2048; 2048; 2048; 2048; 2731; 2731;
   2731; 2731; 2048; 2048; 2048; 2048; 2048; 2731; 2341; 2731; 2048; 2048; 2048; 2731;
   3277; 3641; 2048; 2731; 2048; 2048; 2048; 2731; 2341; 2979; 3277; 2048; 2048; 2048;
   2731; 2731; 2048; 3277; 2979; 3641; 3277; 2731; 2048; 3641; 3277; 2731; 2731; 3277;
   2341; 3641; 3277; 3277; 2979; 3277; 3277; 3277 ]].

Definition jpeg_fw_new_chr_quant_tbl_default_shift : list (list Z) :=
[ [
   15; 14; 14; 15; 15; 16; 16; 17; 14; 14; 14; 15; 15; 17; 17; 17; 14; 14; 15; 15; 16; 17;
   17; 17; 14; 15; 15; 16; 16; 17; 17; 17; 15; 15; 16; 17; 17; 18; 17; 17; 15; 16; 17; 17;
   17; 17; 18; 17; 16; 17; 17; 17; 17; 18; 18; 17; 17; 17; 17; 17; 18; 17; 17; 17 ];

 [
   14; 13; 13; 14; 15; 15; 16; 16; 14; 14; 14; 14; 15; 16; 16; 16; 14; 14; 14; 15; 15; 16;
   16; 16; 14; 14; 15; 15; 16; 17; 16; 16; 14; 15; 15; 16; 16; 17; 17; 16; 15; 15; 16; 16;
   16; 16; 17; 17; 16; 16; 16; 17; 17; 17; 17; 17; 16; 17; 17; 16; 17; 17; 17; 17 ];

 [
   14; 13; 13; 14; 14; 15; 15; 16; 13; 13; 13; 14; 14; 16; 16; 16; 13; 13; 14; 14; 15; 16;
   16; 16; 13; 14; 14; 15; 15; 16; 16; 16; 14; 14; 15; 16; 16; 17; 16; 16; 14; 15; 16; 16;
   16; 16; 17; 16; 15; 16; 16; 16; 16; 17; 17; 16; 16; 16; 16; 16; 17; 16; 16; 16 ];

 [
   13; 12; 12; 13; 14; 14; 15; 15; 12; 12; 13; 13; 14; 15; 15; 15; 13; 13; 13; 14; 14; 15;
   15; 15; 13; 13; 13; 14; 15; 16; 15; 15; 13; 13; 14; 15; 15; 16; 16; 15; 14; 14; 15; 15;
   15; 16; 16; 16; 15; 15; 15; 16; 16; 16; 16; 16; 15; 16; 16; 16; 16; 16; 16; 16 ];

 [
   12; 11; 11; 12; 12; 13; 14; 14; 11; 11; 11; 12; 13; 14; 14; 14; 11; 11; 12; 12; 13; 14;
   14; 14; 11; 12; 12; 13; 14; 15; 14; 14; 12; 12; 13; 14; 14; 15; 15; 14; 12; 13; 14; 14;
   14; 15; 15; 15; 14; 14; 14; 15; 15; 15; 15; 15; 14; 15; 15; 15; 15; 15; 15; 15 ]].

Definition jpeg_fw_ASIC_DCT_Matrix : list Z := [
  0; 32; 16; 48; 8; 40; 24; 56; 4; 36; 20; 52; 12; 44; 28; 60; 2; 34; 18; 50; 10; 42; 26;
  58; 6; 38; 22; 54; 14; 46; 30; 62; 1; 33; 17; 49; 9; 41; 25; 57; 5; 37; 21; 53; 13; 45;
  29; 61; 3; 35; 19; 51; 11; 43; 27; 59; 7; 39; 23; 55; 15; 47; 31; 63 ].

Definition jpeg_fw_vld_default_max_code : list Z := [
  0x7f807fe0; 0x7ff37ff7; 0x0; 0x0; 0x6; 0xe; 0x1e; 0x3e; 0x7e; 0xfe; 0x1fe; 0x3fe; 0x7fc;
  0xff8; 0x1ff0; 0x3fe0; 0x7fc0; 0xff80; 0x0; 0x2; 0x6; 0xe; 0x1e; 0x3e; 0x7e; 0xfe; 0x1fe;
  0x3fe; 0x7fe; 0xffe; 0x1ffc; 0x3ff8; 0x7ff0; 0xffe0; 0x0; 0x100; 0x402; 0xc03; 0x1c06;
  0x3b09; 0x7b0b; 0xfa0f; 0x1fa12; 0x3fa17; 0x7f91c; 0xff720; 0x1ff000; 0x3fe000; 0x7fc024;
  0xfffe25; 0x0; 0x100; 0x402; 0xb03; 0x1b05; 0x3b09; 0x7a0d; 0xf910; 0x1fa14; 0x3fa1b;
  0x7f920; 0xff724; 0x1ff000; 0x3fe028; 0x7fc329; 0xfffe2b ].

Definition jpeg_fw_vld_default_huffTab : list Z := [
  0x1; 0x102; 0x203; 0x1000300; 0x2001104; 0x411; 0x3010505; 0x22112; 0x33121; 0x40631;
  0x51241; 0x4106; 0x5113; 0x751; 0x4066161; 0x7107; 0x1322; 0x2271; 0x3214; 0x8132; 0x881;
  0x1491; 0x42a1; 0x9108; 0xa123; 0xb142; 0x507c1b1; 0x9c1; 0x2315; 0x3352; 0x52d1; 0xf0f0;
  0x1524; 0x6233; 0x7262; 0xd172; 0xa82; 0x1609; 0x608240a; 0x3416; 0xe117; 0x2518; 0xf119;
  0x171a; 0x1825; 0x1926; 0x1a27; 0x2628; 0x2729; 0x282a; 0x7092934; 0x2a35; 0x3536;
  0x3637; 0x3738; 0x3839; 0x393a; 0x3a43; 0x4344; 0x4445; 0x4546; 0x4647; 0x80a4748;
  0x4849; 0x494a; 0x4a53; 0x5354; 0x5455; 0x5556; 0x5657; 0x5758; 0x5859; 0x595a; 0x5a63;
  0x90b6364; 0x6465; 0x6566; 0x6667; 0x6768; 0x6869; 0x696a; 0x6a73; 0x7374; 0x7475;
  0x7576; 0x7677; 0xa007778; 0x7879; 0x797a; 0x7a83; 0x8284; 0x8385; 0x8486; 0x8587;
  0x8688; 0x8789; 0x888a; 0x8992; 0xb008a93; 0x9294; 0x9395; 0x9496; 0x9597; 0x9698;
  0x9799; 0x989a; 0x99a2; 0x9aa3; 0xa2a4; 0xa3a5; 0xa4a6; 0xa5a7; 0xa6a8; 0xa7a9; 0xa8aa;
  0xa9b2; 0xaab3; 0xb2b4; 0xb3b5; 0xb4b6; 0xb5b7; 0xb6b8; 0xb7b9; 0xb8ba; 0xb9c2; 0xbac3;
  0xc2c4; 0xc3c5; 0xc4c6; 0xc5c7; 0xc6c8; 0xc7c9; 0xc8ca; 0xc9d2; 0xcad3; 0xd2d4; 0xd3d5;
  0xd4d6; 0xd5d7; 0xd6d8; 0xd7d9; 0xd8da; 0xd9e1; 0xdae2; 0xe2e3; 0xe3e4; 0xe4e5; 0xe5e6;
  0xe6e7; 0xe7e8; 0xe8e9; 0xe9ea; 0xeaf1; 0xf2f2; 0xf3f3; 0xf4f4; 0xf5f5; 0xf6f6; 0xf7f7;
  0xf8f8; 0xf9f9; 0xfafa ].

Definition g_huff_tab_enc : list Z := [
  0x40000000; 0x80004000; 0xa0008000; 0xc000b000; 0xc800d000; 0xe000f000; 0xf000f800;
  0xfa00fd80; 0xfd80ff82; 0xff40ff83; 0xb000c000; 0xe400d800; 0xf600f200; 0xfa80fb00;
  0xfec0fec0; 0xff50ff84; 0xff88ff85; 0xff89ff86; 0xff8aff87; 0xff8bff88; 0xd000e000;
  0xf700f900; 0xfdc0fdc0; 0xff60ff40; 0xff84ff89; 0xff8cff8a; 0xff8dff8b; 0xff8eff8c;
  0xff8fff8d; 0xff90ff8e; 0xd800e800; 0xf800fb80; 0xfe00ff50; 0xff70ff8f; 0xff91ff90;
  0xff92ff91; 0xff93ff92; 0xff94ff93; 0xff95ff94; 0xff96ff95; 0xe800ec00; 0xfb00fe00;
  0xff97ff96; 0xff98ff97; 0xff99ff98; 0xff9aff99; 0xff9bff9a; 0xff9cff9b; 0xff9dff9c;
  0xff9eff9d; 0xec00f400; 0xfe40fee0; 0xff9fff9e; 0xffa0ff9f; 0xffa1ffa0; 0xffa2ffa1;
  0xffa3ffa2; 0xffa4ffa3; 0xffa5ffa4; 0xffa6ffa5; 0xf200f600; 0xfee0ff60; 0xffa7ffa6;
  0xffa8ffa7; 0xffa9ffa8; 0xffaaffa9; 0xffabffaa; 0xffacffab; 0xffadffac; 0xffaeffad;
  0xf400fa00; 0xff00ff70; 0xffafffae; 0xffb0ffaf; 0xffb1ffb0; 0xffb2ffb1; 0xffb3ffb2;
  0xffb4ffb3; 0xffb5ffb4; 0xffb6ffb5; 0xf900fc00; 0xffb7ff80; 0xffb8ffb6; 0xffb9ffb7;
  0xffbaffb8; 0xffbbffb9; 0xffbcffba; 0xffbdffbb; 0xffbeffbc; 0xffbfffbd; 0xfb80fc80;
  0xffc0ffbe; 0xffc1ffbf; 0xffc2ffc0; 0xffc3ffc1; 0xffc4ffc2; 0xffc5ffc3; 0xffc6ffc4;
  0xffc7ffc5; 0xffc8ffc6; 0xfc00fd00; 0xffc9ffc7; 0xffcaffc8; 0xffcbffc9; 0xffccffca;
  0xffcdffcb; 0xffceffcc; 0xffcfffcd; 0xffd0ffce; 0xffd1ffcf; 0xfc80fe40; 0xffd2ffd0;
  0xffd3ffd1; 0xffd4ffd2; 0xffd5ffd3; 0xffd6ffd4; 0xffd7ffd5; 0xffd8ffd6; 0xffd9ffd7;
  0xffdaffd8; 0xfd00fe80; 0xffdbffd9; 0xffdcffda; 0xffddffdb; 0xffdeffdc; 0xffdfffdd;
  0xffe0ffde; 0xffe1ffdf; 0xffe2ffe0; 0xffe3ffe1; 0xff20ff00; 0xffe4ffe2; 0xffe5ffe3;
  0xffe6ffe4; 0xffe7ffe5; 0xffe8ffe6; 0xffe9ffe7; 0xffeaffe8; 0xffebffe9; 0xffecffea;
  0xff80ffeb; 0xffedffec; 0xffeeffed; 0xffefffee; 0xfff0ffef; 0xfff1fff0; 0xfff2fff1;
  0xfff3fff2; 0xfff4fff3; 0xfff5fff4; 0xff86fff5; 0xfff6fff6; 0xfff7fff7; 0xfff8fff8;
  0xfff9fff9; 0xfffafffa; 0xfffbfffb; 0xfffcfffc; 0xfffdfffd; 0xfffefffe; 0x0; 0x0 ].
