(* ===== verification/JpegStream.v ===== *)
(** The byte source of the JPEG decoder: jpegdec_bitstream.c of
    common/libs/libcamera/jpeg/jpeg_fw_8830/src.

    The parser asks for one byte at a time through [get_char].  [stream] is
    the state of that file (the buffer, the read position, the number of
    bytes left, the file offset, the header length) and [get_char] refills the
    buffer through the caller's read function when it is empty.  A parser is a
    [prog]: a tree that branches on the outcome of each [get_char].  It runs
    against the buffered stream ([run]) or against the plain list of the
    remaining bytes ([run_list]); [run_refines] shows that the two agree, so
    that theorems about parsers are proved on lists. *)
From S2P Require Import Prelude.

(** ** Parsers as trees of byte requests *)
Inductive prog (A : Type) : Type :=
| Done (a : A)
| Get (k : option Z -> prog A).
Arguments Done {A} a.
Arguments Get {A} k.

Fixpoint pbind {A B} (p : prog A) (f : A -> prog B) : prog B :=
  match p with
  | Done a => f a
  | Get k => Get (fun o => pbind (k o) f)
  end.

(** On a list a request takes the head and fails at the end. *)
Fixpoint run_list {A} (p : prog A) (l : list Z) : A * list Z :=
  match p with
  | Done a => (a, l)
  | Get k => match l with
             | [] => run_list (k None) []
             | b :: r => run_list (k (Some b)) r
             end
  end.

(** ** The buffered stream *)

(** The caller's [read_bitstream]: given the offset and the number of bytes
    wanted, the bytes it stores in the buffer ([bytes_read_ptr] is their
    number). *)
Definition reader := Z -> Z -> list Z.

Record stream := MkStream {
  s_buf : list Z;              (* the memory at s_inter_buf_bitstream *)
  s_pos : nat;                 (* s_inter_buf_ptr, relative to it *)
  s_jremain_byte_num : Z;
  s_inter_buf_bitstream_len : Z;
  s_header_len : Z;
  s_file_offset : Z;
  s_read : option reader }.

(** [get_char]: [None] is an access outside the buffer, [Some (None, _)] the
    return value FALSE. *)
Definition refill (s : stream) : option stream :=
  match s_read s with
  | Some rd =>
    if s_jremain_byte_num s =? 0 then
      let data := rd (s_file_offset s) (s_inter_buf_bitstream_len s) in
      b ← store (s_buf s) 0 data;
      Some (MkStream b 0 (zlen data) (s_inter_buf_bitstream_len s) (s_header_len s)
              (s_file_offset s +u zlen data) (s_read s))
    else Some s
  | None => Some s
  end.

Definition get_char (s0 : stream) : option (option Z * stream) :=
  s ← refill s0;
  if 0 <? s_jremain_byte_num s then
    c ← s_buf s !! s_pos s;
    Some (Some c, MkStream (s_buf s) (S (s_pos s)) (s_jremain_byte_num s - 1)
                    (s_inter_buf_bitstream_len s) (s_header_len s +u 1) (s_file_offset s) (s_read s))
  else Some (None, s).

Definition skip_n_byte (n : Z) (s : stream) : option stream :=
  if n <=? s_jremain_byte_num s then
    Some (MkStream (s_buf s) (s_pos s + Z.to_nat n) (s_jremain_byte_num s - n)
            (s_inter_buf_bitstream_len s) (s_header_len s) (s_file_offset s) (s_read s))
  else None.

Fixpoint run {A} (p : prog A) (s : stream) : option (A * stream) :=
  match p with
  | Done a => Some (a, s)
  | Get k => '(o, s') ← get_char s; run (k o) s'
  end.

(** [get_header_len]: the stuffed bytes (0xFF00) among the bytes after the
    last word boundary do not count. *)
Fixpoint stuffed (s : stream) (from : Z) (n : nat) : option Z :=
  match n with
  | O => Some 0
  | S m =>
    if from <? 0 then None else
    c ← s_buf s !! Z.to_nat from;
    d ← (if c =? 0xff then
           e ← s_buf s !! Z.to_nat (from + 1);
           Some (if e =? 0 then 1 else 0)
         else Some 0);
    r ← stuffed s (from + 1) m;
    Some (d + r)
  end.

Definition get_header_len (s : stream) : option Z :=
  let wordAlign_len := Z.shiftl (Z.shiftr (s_header_len s) 2) 2 in
  let unligned_byte := s_header_len s - wordAlign_len in
  if 1 <? unligned_byte then
    d ← stuffed s (Z.of_nat (s_pos s) - unligned_byte) (Z.to_nat unligned_byte);
    Some (s_header_len s -u d)
  else Some (s_header_len s).

(** [is_res_jpg_file]: the four bytes at the position are "SJPG". *)
Fixpoint buf_starts (b : list Z) (pos : nat) (id : list Z) : option bool :=
  match id with
  | [] => Some true
  | x :: r => c ← b !! pos; if c =? x then buf_starts b (S pos) r else Some false
  end.
Definition JPEG_RES_ID : list Z := [0x53; 0x4a; 0x50; 0x47].
Definition is_res_jpg_file (s : stream) : option bool := buf_starts (s_buf s) (s_pos s) JPEG_RES_ID.

(** ** Where the stream comes from *)

(** [JpegDec_InitBitream] for a bitstream in memory. *)
Definition mem_stream (bitstream : list Z) (len : Z) : stream :=
  MkStream bitstream 0 len len 0 0 None.

(** The same for a read function: the buffer is 3072 zeroed bytes of the
    decoder's memory, filled at once. *)
Definition READ_BUF_LEN : Z := 3 * 1024.
Definition file_stream (rd : reader) : option stream :=
  let data := rd 0 READ_BUF_LEN in
  b ← store (replicate (Z.to_nat READ_BUF_LEN) 0) 0 data;
  Some (MkStream b 0 (zlen data) READ_BUF_LEN 0 (u32 (zlen data)) (Some rd)).

(** ** Laws of the list semantics *)
Lemma run_list_pbind {A B} (p : prog A) (f : A -> prog B) l :
  run_list (pbind p f) l = let '(a, l') := run_list p l in run_list (f a) l'.
Proof. revert l. induction p as [a|k IH]; intros [|b l]; simpl; auto. Qed.

Lemma run_list_suffix {A} (p : prog A) l : exists m, l = m ++ snd (run_list p l).
Proof.
  revert l. induction p as [a|k IH]; intros l; simpl; [by exists []|].
  destruct l as [|b l]; [apply IH|]. destruct (IH (Some b) l) as [m E].
  exists (b :: m). simpl. by rewrite <- E.
Qed.

Lemma run_list_length {A} (p : prog A) l : (length (snd (run_list p l)) <= length l)%nat.
Proof. destruct (run_list_suffix p l) as [m E]. rewrite E at 2. rewrite length_app. lia. Qed.

(** ** Refinement *)

(** What the decoder relies on of a reader of the file [f]: it returns bytes
    of the file from the offset on, at most as many as wanted, and none only
    at the end. *)
Definition reads_file (f : list Z) (rd : reader) : Prop :=
  forall off n, 0 <= off -> 0 < n ->
    let d := rd off n in
    d = take (length d) (drop (Z.to_nat off) f) /\ zlen d <= n /\
    (d = [] -> zlen f <= off).

(** The stream [s] has the bytes [l] to come. *)
Definition pending (l : list Z) (s : stream) : Prop :=
  0 <= s_jremain_byte_num s /\
  (s_pos s + Z.to_nat (s_jremain_byte_num s) <= length (s_buf s))%nat /\
  let here := take (Z.to_nat (s_jremain_byte_num s)) (drop (s_pos s) (s_buf s)) in
  match s_read s with
  | None => l = here
  | Some rd => exists f, reads_file f rd /\ zlen f < 2 ^ 32 /\
      0 <= s_file_offset s <= zlen f /\
      0 < s_inter_buf_bitstream_len s <= zlen (s_buf s) /\
      l = here ++ drop (Z.to_nat (s_file_offset s)) f
  end.

Lemma pending_refill l s :
  pending l s ->
  exists s', refill s = Some s' /\ pending l s' /\ s_header_len s' = s_header_len s /\
    (l <> [] -> 0 < s_jremain_byte_num s').
Proof.
  intros (Hn & Hb & Hl). unfold refill. destruct (s_read s) as [rd|] eqn:Er.
  2: { exists s. unfold pending. rewrite Er. repeat split; auto. intros Hne.
       destruct (Z.eq_dec (s_jremain_byte_num s) 0) as [E|]; [|lia]. by rewrite E in Hl. }
  destruct Hl as (f & Hf & Hsz & Ho & Hlen & Hl).
  destruct (Z.eqb_spec (s_jremain_byte_num s) 0) as [E|].
  2: { exists s. unfold pending. rewrite Er. repeat split; eauto 10. lia. }
  rewrite E in Hl. simpl in Hl. subst l.
  destruct (Hf (s_file_offset s) (s_inter_buf_bitstream_len s)) as (Hd & Hdn & Hde); [lia..|].
  set (d := rd (s_file_offset s) (s_inter_buf_bitstream_len s)) in *.
  assert (Hdl : (length d <= length f - Z.to_nat (s_file_offset s))%nat).
  { apply (f_equal length) in Hd. rewrite length_take, length_drop in Hd. lia. }
  assert (St : store (s_buf s) 0 d = Some (d ++ drop (length d) (s_buf s))).
  { unfold store. rewrite !(proj2 (Z.leb_le _ _)) by lia. simpl. by rewrite splice_0 by lia. }
  rewrite St. simpl. eexists. split; [done|]. unfold pending. cbn [s_jremain_byte_num s_pos s_buf s_read s_file_offset s_inter_buf_bitstream_len s_header_len].
  rewrite u32_small by (unfold is_u32; lia). rewrite length_app, length_drop.
  split; [split; [lia|split; [lia|]]|split; [done|]].
  - exists f. split; [done|]. split; [done|]. do 2 (split; [lia|]).
    replace (Z.to_nat (s_file_offset s + zlen d)) with (Z.to_nat (s_file_offset s) + length d)%nat by lia.
    rewrite drop_0, Nat2Z.id, take_app_0, <- drop_drop. rewrite Hd at 1. by rewrite take_drop.
  - intros Hne. destruct d as [|x d']; [|simpl; lia]. exfalso. apply Hne, drop_ge. specialize (Hde eq_refl). lia.
Qed.

Lemma pending_get_char l s :
  pending l s ->
  exists s', get_char s = Some (head l, s') /\ pending (tail l) s' /\
    s_header_len s' = (match l with [] => s_header_len s | _ => s_header_len s +u 1 end).
Proof.
  intros H. destruct (pending_refill _ _ H) as (t & Et & (Hn & Hb & Hl) & Hh & Hpos).
  unfold get_char. rewrite Et. simpl. destruct (Z.ltb_spec 0 (s_jremain_byte_num t)) as [Hp|Hp].
  - destruct (Z.to_nat (s_jremain_byte_num t)) as [|n] eqn:En; [lia|].
    assert (exists x, s_buf t !! s_pos t = Some x) as [x Ex] by (apply lookup_lt_is_Some_2; lia).
    rewrite (drop_S _ _ _ Ex) in Hl. simpl in Hl. rewrite Ex. simpl.
    assert (exists r, l = x :: r) as [r ->] by (destruct (s_read t); [destruct Hl as (? & _ & _ & _ & _ & ->)|]; eauto).
    eexists. split; [done|]. unfold pending.
    cbn [s_jremain_byte_num s_pos s_buf s_read s_file_offset s_inter_buf_bitstream_len s_header_len tail].
    replace (Z.to_nat (s_jremain_byte_num t - 1)) with n by lia. split; [|by rewrite Hh].
    split; [lia|split; [lia|]]. destruct (s_read t) as [rd|].
    + destruct Hl as (f & Hf & Hsz & Ho & Hlen & E). exists f. simplify_eq. auto 10.
    + by simplify_eq.
  - assert (l = []) as ->. { destruct l; [done|]. exfalso. assert (0 < s_jremain_byte_num t) by (by apply Hpos). lia. }
    exists t. simpl. repeat split; auto.
Qed.

(** Running a parser against the buffered stream gives what running it on the
    bytes to come gives; the header length counts the bytes consumed. *)
Lemma run_pending {A} (p : prog A) l s :
  pending l s ->
  0 <= s_header_len s -> s_header_len s + zlen l < 2 ^ 32 ->
  exists s', run p s = Some (fst (run_list p l), s') /\ pending (snd (run_list p l)) s' /\
    s_header_len s' = s_header_len s + zlen l - zlen (snd (run_list p l)).
Proof.
  revert l s. induction p as [a|k IH]; intros l s H H0 Hlt.
  - exists s. simpl. split; [done|split; [done|lia]].
  - destruct (pending_get_char _ _ H) as (t & Et & Ht & Eh). simpl. rewrite Et. simpl.
    destruct l as [|b l]; simpl in *.
    + destruct (IH None [] t) as (s' & ? & ? & ?); [done|cbn [length]; lia..|]. exists s'. rewrite Eh in *. auto.
    + rewrite u32_small in Eh by (unfold is_u32; lia).
      destruct (IH (Some b) l t) as (s' & ? & ? & ?); [done|lia..|]. exists s'. do 2 (split; [done|]). lia.
Qed.

Lemma mem_pending b t : pending b (mem_stream (b ++ t) (zlen b)).
Proof.
  unfold pending, mem_stream. cbn [s_jremain_byte_num s_pos s_buf s_read].
  rewrite drop_0, Nat2Z.id, take_app_0, length_app. repeat split; auto; lia.
Qed.

Lemma file_pending f rd :
  reads_file f rd -> zlen f < 2 ^ 32 -> exists s, file_stream rd = Some s /\ pending f s.
Proof.
  intros Hf Hsz. set (s0 := MkStream (replicate (Z.to_nat READ_BUF_LEN) 0) 0 0 READ_BUF_LEN 0 0 (Some rd)).
  destruct (pending_refill f s0) as (s & Es & Hp & _).
  { unfold pending, s0. cbn [s_jremain_byte_num s_pos s_buf s_read s_file_offset s_inter_buf_bitstream_len].
    rewrite length_replicate. unfold READ_BUF_LEN. split; [lia|split; [lia|]]. exists f. do 2 (split; [done|]). do 2 (split; [lia|]). done. }
  exists s. split; [|done]. unfold file_stream. rewrite <- Es. unfold refill, s0.
  cbn [s_jremain_byte_num s_pos s_buf s_read s_file_offset s_inter_buf_bitstream_len s_header_len].
  rewrite Z.eqb_refl. destruct (store _ _ _); done.
Qed.
