(* ===== verification/JpegDec.v ===== *)
(** The header parser of the JPEG decoder: jpegdec_parse.c, jpegdec_malloc.c
    and JPEG_FWParseHead of jpegdec_interface.c, all of
    common/libs/libcamera/jpeg/jpeg_fw_8830/src.

    [jdec] holds the fields of the decoder's JPEG_CODEC_T, of the caller's
    JPEG_DEC_INPUT_PARA_T and of the memory pool the parser reads or writes.
    A parser is a state-passing [prog] with an outcome: [Ok], [Failed] (the
    C functions return JPEG_FAILED, FALSE or M_ERROR, which all callers pass
    on), [Undef] (an access outside an array, or through NULL) or [NoFuel].
    SCI_ASSERT is defined as nothing for this platform
    (vsp/sc8830/inc/jpg_drv_sc8830.h), so an exhausted pool is not noticed. *)
From S2P Require Import Prelude JpegTables JpegStream.

(** ** Marker codes, jpeg_jfif.h *)
Definition M_SOF0 : Z := 0xc0.
Definition M_SOF1 : Z := 0xc1.
Definition M_SOF2 : Z := 0xc2.
Definition M_DHT : Z := 0xc4.
Definition M_RST0 : Z := 0xd0.
Definition M_RST7 : Z := 0xd7.
Definition M_SOI : Z := 0xd8.
Definition M_EOI : Z := 0xd9.
Definition M_SOS : Z := 0xda.
Definition M_DQT : Z := 0xdb.
Definition M_DRI : Z := 0xdd.
Definition M_APP0 : Z := 0xe0.

(** M_SOF3, M_SOF5 to M_SOF7, M_JPG, M_SOF9 to M_SOF11, M_DAC, M_SOF13 to
    M_SOF15, M_RST0 to M_RST7 and M_TEM. *)
Definition unexpected_markers : list Z :=
  [0xc3; 0xc5; 0xc6; 0xc7; 0xc8; 0xc9; 0xca; 0xcb; 0xcd; 0xce; 0xcf; 0xcc;
   0xd0; 0xd1; 0xd2; 0xd3; 0xd4; 0xd5; 0xd6; 0xd7; 0x01].

(** JPEG_MCU_FORMAT_E, vsp/sc8830/inc/jpg_global_define.h. *)
Definition JPEG_FW_YUV420 : Z := 0.
Definition JPEG_FW_YUV411 : Z := 1.
Definition JPEG_FW_YUV444 : Z := 2.
Definition JPEG_FW_YUV422 : Z := 3.
Definition JPEG_FW_YUV400 : Z := 4.
Definition JPEG_FW_YUV422_R : Z := 5.
Definition JPEG_FW_YUV411_R : Z := 6.

(** ** State *)
Record TBL_MAP_T := MkTblMap { dc_huff_tbl_id : Z; ac_huff_tbl_id : Z; quant_tbl_id : Z }.

(** A Huffman table: [bits] has 17 entries and [huffval] 257; both are empty
    while the pointers are NULL. *)
Record HUFF_TBL_T := MkHuff { bits : list Z; huffval : list Z }.

Record jpeg_component_info := MkComp {
  component_id : Z; component_index : Z; h_samp_factor : Z; v_samp_factor : Z;
  MCU_width : Z; MCU_height : Z }.

Record jdec := MkDec {
  restart_interval : Z; restart_to_go : Z; next_restart_num : Z;
  tbl_map : list TBL_MAP_T; num_components : Z;
  dc_huff_tbl : list HUFF_TBL_T; ac_huff_tbl : list HUFF_TBL_T;
  quant_tbl : list (option (list Z));
  using_default_huff_tab : bool; using_default_quant_tab : bool;
  comp_id_map : list Z; comp_info : list jpeg_component_info; comps_in_scan : Z;
  Ss : Z; Se : Z; Ah : Z; Al : Z; input_scan_number : Z; is_res_file : bool;
  g_huff_tbl_malloced : bool; s_used_extra_mem : Z; s_extra_mem_size : Z;
  progressive_mode : bool; input_width : Z; input_height : Z;
  input_mcu_info : Z; quant_level : Z }.

Definition eta_jdec (s : jdec) : jdec :=
  MkDec (restart_interval s) (restart_to_go s) (next_restart_num s) (tbl_map s)
    (num_components s) (dc_huff_tbl s) (ac_huff_tbl s) (quant_tbl s)
    (using_default_huff_tab s) (using_default_quant_tab s) (comp_id_map s) (comp_info s)
    (comps_in_scan s) (Ss s) (Se s) (Ah s) (Al s) (input_scan_number s) (is_res_file s)
    (g_huff_tbl_malloced s) (s_used_extra_mem s) (s_extra_mem_size s) (progressive_mode s)
    (input_width s) (input_height s) (input_mcu_info s) (quant_level s).

(** Assignment to a field: [s] with the projection [proj s] replaced by [v]. *)
Ltac setter s proj v :=
  let t := eval cbv [eta_jdec] in (eta_jdec s) in
  let t := eval pattern (proj s) in t in
  match t with ?g _ => let u := eval cbv beta in (g v) in exact u end.

Definition set_restart_interval (v : Z) (s : jdec) : jdec := ltac:(setter s restart_interval v).
Definition set_restart_to_go (v : Z) (s : jdec) : jdec := ltac:(setter s restart_to_go v).
Definition set_next_restart_num (v : Z) (s : jdec) : jdec := ltac:(setter s next_restart_num v).
Definition set_tbl_map (v : list TBL_MAP_T) (s : jdec) : jdec := ltac:(setter s tbl_map v).
Definition set_num_components (v : Z) (s : jdec) : jdec := ltac:(setter s num_components v).
Definition set_dc_huff_tbl (v : list HUFF_TBL_T) (s : jdec) : jdec := ltac:(setter s dc_huff_tbl v).
Definition set_ac_huff_tbl (v : list HUFF_TBL_T) (s : jdec) : jdec := ltac:(setter s ac_huff_tbl v).
Definition set_quant_tbl (v : list (option (list Z))) (s : jdec) : jdec := ltac:(setter s quant_tbl v).
Definition set_using_default_huff_tab (v : bool) (s : jdec) : jdec := ltac:(setter s using_default_huff_tab v).
Definition set_using_default_quant_tab (v : bool) (s : jdec) : jdec := ltac:(setter s using_default_quant_tab v).
Definition set_comp_id_map (v : list Z) (s : jdec) : jdec := ltac:(setter s comp_id_map v).
Definition set_comp_info (v : list jpeg_component_info) (s : jdec) : jdec := ltac:(setter s comp_info v).
Definition set_comps_in_scan (v : Z) (s : jdec) : jdec := ltac:(setter s comps_in_scan v).
Definition set_Ss (v : Z) (s : jdec) : jdec := ltac:(setter s Ss v).
Definition set_Se (v : Z) (s : jdec) : jdec := ltac:(setter s Se v).
Definition set_Ah (v : Z) (s : jdec) : jdec := ltac:(setter s Ah v).
Definition set_Al (v : Z) (s : jdec) : jdec := ltac:(setter s Al v).
Definition set_input_scan_number (v : Z) (s : jdec) : jdec := ltac:(setter s input_scan_number v).
Definition set_is_res_file (v : bool) (s : jdec) : jdec := ltac:(setter s is_res_file v).
Definition set_g_huff_tbl_malloced (v : bool) (s : jdec) : jdec := ltac:(setter s g_huff_tbl_malloced v).
Definition set_s_used_extra_mem (v : Z) (s : jdec) : jdec := ltac:(setter s s_used_extra_mem v).
Definition set_s_extra_mem_size (v : Z) (s : jdec) : jdec := ltac:(setter s s_extra_mem_size v).
Definition set_progressive_mode (v : bool) (s : jdec) : jdec := ltac:(setter s progressive_mode v).
Definition set_input_width (v : Z) (s : jdec) : jdec := ltac:(setter s input_width v).
Definition set_input_height (v : Z) (s : jdec) : jdec := ltac:(setter s input_height v).
Definition set_input_mcu_info (v : Z) (s : jdec) : jdec := ltac:(setter s input_mcu_info v).
Definition set_quant_level (v : Z) (s : jdec) : jdec := ltac:(setter s quant_level v).

(** ** The parser monad *)
Inductive outcome (A : Type) : Type :=
| Ok (a : A)
| Failed
| Undef
| NoFuel.
Arguments Ok {A} a.
Arguments Failed {A}.
Arguments Undef {A}.
Arguments NoFuel {A}.

Definition P (A : Type) : Type := jdec -> prog (outcome A * jdec).

#[export] Instance P_ret : MRet P := fun A a s => Done (Ok a, s).
#[export] Instance P_bind : MBind P := fun A B f m s =>
  pbind (m s) (fun '(r, s') =>
    match r with
    | Ok a => f a s'
    | Failed => Done (Failed, s')
    | Undef => Done (Undef, s')
    | NoFuel => Done (NoFuel, s')
    end).

Definition fail {A} : P A := fun s => Done (Failed, s).
Definition undef {A} : P A := fun s => Done (Undef, s).
Definition nofuel {A} : P A := fun s => Done (NoFuel, s).
Definition gets {A} (f : jdec -> A) : P A := fun s => Done (Ok (f s), s).
Definition modify (f : jdec -> jdec) : P unit := fun s => Done (Ok tt, f s).
Definition check (b : bool) : P unit := if b then mret tt else fail.

(** [get_char] with its FALSE made a failure; every caller returns at once. *)
Definition getc : P Z := fun s =>
  Get (fun o => match o with Some c => Done (Ok c, s) | None => Done (Failed, s) end).

Definition get_short_word : P Z :=
  v0 ← getc; v1 ← getc; mret (Z.lor (Z.shiftl v0 8) v1).

(** ** The memory pool, jpegdec_malloc.c *)

(** [JpegDec_ExtraMemAlloc].  The SCI_ASSERT that a request fits is empty in
    this build: the function goes on, moves [s_used_extra_mem] past the end of
    the pool and returns memory behind it, to which its callers then write.
    The model stops there, [undef], as at any other access outside of an
    array; it does not say what such a write does. *)
Definition JpegDec_ExtraMemAlloc (mem_size : Z) : P unit :=
  let n := Z.land (u32 (mem_size + 3)) (2 ^ 32 - 4) in
  used ← gets s_used_extra_mem; size ← gets s_extra_mem_size;
  if size -u used <? n then undef else modify (set_s_used_extra_mem (used +u n)).

(** ** Markers *)

(** [GetNextMarker]: three nested loops, each turn of which reads a byte. *)
Fixpoint skip_to_ff (n : nat) : P unit :=
  match n with
  | O => nofuel
  | S m => c ← getc; if c =? 0xff then mret tt else skip_to_ff m
  end.
Fixpoint skip_ffs (n : nat) : P Z :=
  match n with
  | O => nofuel
  | S m => c ← getc; if c =? 0xff then skip_ffs m else mret c
  end.
Fixpoint next_marker (fuel n : nat) : P Z :=
  match n with
  | O => nofuel
  | S m => skip_to_ff fuel ;; c ← skip_ffs fuel;
           if c =? 0 then next_marker fuel m else mret c
  end.
Definition GetNextMarker (fuel : nat) : P Z := next_marker fuel fuel.

(** ** Frame header: [GetSOF] *)
Definition zero_comp : jpeg_component_info := MkComp 0 0 0 0 0 0.
Definition sizeof_component_info : Z := 16.

Definition upd_comp (ci : nat) (f : jpeg_component_info -> jpeg_component_info) : P unit :=
  modify (fun s => set_comp_info (alter f ci (comp_info s)) s).

Definition s8 (z : Z) : Z := (z + 2 ^ 7) mod 2 ^ 8 - 2 ^ 7.

(** One turn of the component loop; [ci] counts up, [n] components are left. *)
Fixpoint sof_components (n ci : nat) : P unit :=
  match n with
  | O => mret tt
  | S m =>
    c ← getc;
    upd_comp ci (fun k => MkComp c (Z.of_nat ci) (h_samp_factor k) (v_samp_factor k)
                            (MCU_width k) (MCU_height k)) ;;
    let yuv_id := s8 (s8 c - 1) in
    check ((0 <=? yuv_id) && (yuv_id <=? 2)) ;;
    c ← getc;
    let h := Z.land (Z.shiftr c 4) 0x0f in
    let v := Z.land c 0x0f in
    upd_comp ci (fun k => MkComp (component_id k) (component_index k) h v
                            (if Nat.eqb ci 0 then h else 1) (if Nat.eqb ci 0 then v else 1)) ;;
    c ← getc;
    check (c <=? 2) ;;
    modify (fun s => set_tbl_map (alter (fun t => MkTblMap (dc_huff_tbl_id t) (ac_huff_tbl_id t) c)
                                    (Z.to_nat yuv_id) (tbl_map s)) s) ;;
    sof_components m (S ci)
  end.

(** The sampling factors of [comp_info[i]]; a component that was not
    allocated is the zeroed memory behind the allocation. *)
Definition samp_factors (i : nat) : P Z :=
  ks ← gets comp_info; used ← gets s_used_extra_mem; size ← gets s_extra_mem_size;
  match ks !! i with
  | Some k => mret (Z.lor (Z.shiftl (h_samp_factor k) 4) (v_samp_factor k))
  | None => if used + sizeof_component_info * Z.of_nat (S i - length ks) <=? size then mret 0 else undef
  end.

Definition sample_format (c : Z) : option Z :=
  if c =? 0x11 then Some JPEG_FW_YUV444
  else if c =? 0x21 then Some JPEG_FW_YUV422
  else if c =? 0x41 then Some JPEG_FW_YUV411
  else if c =? 0x14 then Some JPEG_FW_YUV411_R
  else if c =? 0x22 then Some JPEG_FW_YUV420
  else if c =? 0x12 then Some JPEG_FW_YUV422_R
  else None.

Definition GetSOF (isProgressive : bool) : P unit :=
  modify (set_progressive_mode isProgressive) ;;
  length ← get_short_word;
  check (8 <=? length) ;;
  c ← getc;
  check (c =? 8) ;;
  height ← get_short_word;
  width ← get_short_word;
  modify (set_input_height height) ;;
  modify (set_input_width width) ;;
  component_num ← getc;
  check (length =? component_num * 3 + 8) ;;
  modify (set_num_components component_num) ;;
  JpegDec_ExtraMemAlloc (component_num * sizeof_component_info) ;;
  modify (set_comp_info (replicate (Z.to_nat component_num) zero_comp)) ;;
  sof_components (Z.to_nat component_num) 0 ;;
  c ← samp_factors 0;
  if component_num =? 1 then modify (set_input_mcu_info JPEG_FW_YUV400)
  else
    match sample_format c with
    | None => fail
    | Some f =>
      modify (set_input_mcu_info f) ;;
      cu ← samp_factors 1;
      check (cu =? 0x11) ;;
      (if 2 <? component_num then cv ← samp_factors 2; check (cv =? 0x11) else mret tt)
    end.

(** ** Scan header: [GetSOS] *)
Fixpoint sos_components (n i : nat) : P unit :=
  match n with
  | O => mret tt
  | S m =>
    cc ← getc;
    c ← getc;
    check (cc =? u8 (Z.of_nat i + 1)) ;;
    tm ← gets tbl_map;
    match tm !! i with
    | None => undef
    | Some t =>
      modify (set_tbl_map (<[i := MkTblMap (Z.land (Z.shiftr c 4) 0x0f) (Z.land c 0x0f) (quant_tbl_id t)]> tm)) ;;
      ks ← gets comp_info;
      (if existsb (fun k => component_id k =? cc) ks
       then modify (fun s => set_comp_id_map (<[i := cc]> (comp_id_map s)) s) else mret tt) ;;
      sos_components m (S i)
    end
  end.

Definition GetSOS : P unit :=
  length ← get_short_word;
  check (3 <=? length) ;;
  n ← getc;
  check (length - 3 =? n * 2 + 3) ;;
  modify (set_comps_in_scan n) ;;
  sos_components (Z.to_nat n) 0 ;;
  c ← getc;
  cc ← getc;
  modify (set_Ss c) ;;
  modify (set_Se cc) ;;
  c ← getc;
  modify (set_Ah (Z.land (Z.shiftr c 4) 15)) ;;
  modify (set_Al (Z.land c 15)) ;;
  modify (set_next_restart_num 0) ;;
  modify (fun s => set_input_scan_number (u8 (input_scan_number s + 1)) s).

(** ** Segments that are skipped, restart interval *)
Fixpoint skip_chars (n : nat) : P unit :=
  match n with O => mret tt | S m => getc ;; skip_chars m end.

Definition SkipVariable : P unit :=
  length ← get_short_word;
  check (2 <=? length) ;;
  skip_chars (Z.to_nat (length - 2)).

Definition GetDRI : P unit :=
  length ← get_short_word;
  check (4 =? length) ;;
  ri ← get_short_word;
  modify (set_restart_interval ri) ;;
  modify (set_restart_to_go ri) ;;
  modify (set_next_restart_num 0).

(** [GetAPP0]: a JFIF segment is read to its end; a shorter one is left to
    the search for the next marker. *)
Definition JFIF_LEN : Z := 14.
Definition GetAPP0 : P unit :=
  length ← get_short_word;
  check (2 <=? length) ;;
  if JFIF_LEN <=? length - 2
  then skip_chars (Z.to_nat JFIF_LEN) ;; skip_chars (Z.to_nat (length - 2 - JFIF_LEN))
  else mret tt.

(** ** Huffman tables: [GetHuffTbl] *)
Definition NUM_HUFF_TBLS : nat := 4.
Definition MAX_BITS_SIZE : Z := 16.
Definition AC_SYMBOL_NUM : Z := 256.
Definition zero_huff : HUFF_TBL_T :=
  MkHuff (replicate (Z.to_nat (MAX_BITS_SIZE + 1)) 0) (replicate (Z.to_nat (AC_SYMBOL_NUM + 1)) 0).

Fixpoint huff_malloc (n : nat) : P unit :=
  match n with
  | O => mret tt
  | S m =>
    JpegDec_ExtraMemAlloc (MAX_BITS_SIZE + 1) ;;
    JpegDec_ExtraMemAlloc (AC_SYMBOL_NUM + 1) ;;
    JpegDec_ExtraMemAlloc (MAX_BITS_SIZE + 1) ;;
    JpegDec_ExtraMemAlloc (AC_SYMBOL_NUM + 1) ;;
    huff_malloc m
  end.

Definition upd_huff (ac : bool) (index : nat) (f : HUFF_TBL_T -> HUFF_TBL_T) : P unit :=
  modify (fun s => if ac then set_ac_huff_tbl (alter f index (ac_huff_tbl s)) s
                   else set_dc_huff_tbl (alter f index (dc_huff_tbl s)) s).

Definition default_bits (ac : bool) (index : nat) : list Z :=
  match ac, index with
  | true, O => jpeg_fw_lum_ac_bits_default
  | true, _ => jpeg_fw_chr_ac_bits_default
  | false, O => jpeg_fw_lum_dc_bits_default
  | false, _ => jpeg_fw_chr_dc_bits_default
  end.
Definition default_huffval (ac : bool) (index : nat) : list Z :=
  match ac, index with
  | true, O => jpeg_fw_lum_ac_huffvalue_default
  | true, _ => jpeg_fw_chr_ac_huffvalue_default
  | false, O => jpeg_fw_lum_dc_huffvalue_default
  | false, _ => jpeg_fw_chr_dc_huffvalue_default
  end.

(** The comparison with the default table at [i]. *)
Definition compare_default (dflt : list Z) (i : nat) (c : Z) : P unit :=
  match dflt !! i with
  | None => undef
  | Some d => if c =? d then mret tt else modify (set_using_default_huff_tab false)
  end.

(** The loops over [bits] (returning the sum) and over [huffval]. *)
Fixpoint read_bits (ac : bool) (index n i : nat) (count : Z) : P Z :=
  match n with
  | O => mret count
  | S m =>
    c ← getc;
    upd_huff ac index (fun h => MkHuff (<[i := c]> (bits h)) (huffval h)) ;;
    compare_default (default_bits ac index) i c ;;
    read_bits ac index m (S i) (u16 (count + c))
  end.
Fixpoint read_huffval (ac : bool) (index n i : nat) : P unit :=
  match n with
  | O => mret tt
  | S m =>
    c ← getc;
    upd_huff ac index (fun h => MkHuff (bits h) (<[i := c]> (huffval h))) ;;
    compare_default (default_huffval ac index) i c ;;
    read_huffval ac index m (S i)
  end.

(** One table of the segment; the result is the number of symbols. *)
Definition huff_table : P Z :=
  c ← getc;
  let index := Z.land c 0x13 in
  let ac := negb (Z.land index 0x10 =? 0) in
  let idx := Z.to_nat (if ac then index - 0x10 else index) in
  upd_huff ac idx (fun h => MkHuff (<[0%nat := 0]> (bits h)) (huffval h)) ;;
  count ← read_bits ac idx 16 1 0;
  check (count <=? 256) ;;
  read_huffval ac idx (Z.to_nat count) 0 ;;
  mret count.

(** The loop over the tables: every turn takes at least 17 from [length]. *)
Fixpoint huff_loop (fuel : nat) (length : Z) : P unit :=
  if length =? 0 then mret tt else
  match fuel with
  | O => nofuel
  | S m =>
    count ← huff_table;
    check (1 + 16 + count <=? length) ;;
    huff_loop m (length - (1 + 16 + count))
  end.

Definition GetHuffTbl : P unit :=
  malloced ← gets g_huff_tbl_malloced;
  (if malloced : bool then mret tt else
     huff_malloc NUM_HUFF_TBLS ;;
     modify (fun s => set_dc_huff_tbl (replicate NUM_HUFF_TBLS zero_huff)
                        (set_ac_huff_tbl (replicate NUM_HUFF_TBLS zero_huff) s)) ;;
     modify (set_g_huff_tbl_malloced true)) ;;
  length ← get_short_word;
  check (2 <=? length) ;;
  huff_loop (Z.to_nat (length - 2)) (length - 2).

(** ** Quantisation tables: [GetQuantTbl] *)
Definition zigzag (j : nat) : nat := Z.to_nat (nth j jpeg_fw_zigzag_order 0).

Fixpoint read_quant (wide : bool) (tbl n j : nat) : P unit :=
  match n with
  | O => mret tt
  | S m =>
    c ← (if wide then get_short_word else getc);
    modify (fun s => set_quant_tbl (alter (fmap (fun q => <[zigzag j := u8 c]> q)) tbl (quant_tbl s)) s) ;;
    read_quant wide tbl m (S j)
  end.

(** One table: its id and precision. *)
Definition quant_table : P (Z * Z) :=
  b ← getc;
  let prec := Z.shiftr b 4 in
  let n := Z.land b 0x0f in
  check (n <=? 2) ;;
  JpegDec_ExtraMemAlloc 64 ;;
  modify (fun s => set_quant_tbl (<[Z.to_nat n := Some (replicate 64 0)]> (quant_tbl s)) s) ;;
  read_quant (negb (prec =? 0)) (Z.to_nat n) 64 0 ;;
  mret (n, prec).

(** The result tells whether a table with id 2 was among them. *)
Fixpoint quant_loop (fuel : nat) (length : Z) (two : bool) : P bool :=
  if length =? 0 then mret two else
  match fuel with
  | O => nofuel
  | S m =>
    '(n, prec) ← quant_table;
    check (64 + 1 + 64 * prec <=? length) ;;
    quant_loop m (length - (64 + 1 + 64 * prec)) (two || (1 <? n))
  end.

Definition GetQuantTbl : P unit :=
  modify (set_using_default_quant_tab false) ;;
  length ← get_short_word;
  check (2 <=? length) ;;
  two ← quant_loop (Z.to_nat (length - 2)) (length - 2) false;
  if two : bool then
    qs ← gets quant_tbl;
    match qs with
    | [_; Some u; Some v] => check (bool_decide (u = v))
    | _ => undef
    end
  else mret tt.

(** ** The marker loop: [ProcessTables] and [ParseHead] *)
Definition segment (c : Z) : P unit :=
  if (c =? M_SOF0) || (c =? M_SOF1) then GetSOF false
  else if c =? M_SOF2 then GetSOF true
  else if c =? M_DHT then GetHuffTbl
  else if c =? M_DQT then GetQuantTbl
  else if c =? M_APP0 then GetAPP0
  else if c =? M_DRI then GetDRI
  else if existsb (Z.eqb c) unexpected_markers then fail
  else SkipVariable.

Fixpoint process_tables (fuel n : nat) : P Z :=
  match n with
  | O => nofuel
  | S m =>
    c ← GetNextMarker fuel;
    if (c =? M_SOI) || (c =? M_EOI) || (c =? M_SOS) then mret c
    else segment c ;; process_tables fuel m
  end.
Definition ProcessTables (fuel : nat) : P Z := process_tables fuel fuel.

Fixpoint find_soi (fuel n : nat) : P unit :=
  match n with
  | O => nofuel
  | S m =>
    c ← GetNextMarker fuel;
    check (negb (c =? M_EOI)) ;;
    if c =? M_SOI then mret tt else find_soi fuel m
  end.

Definition ParseHead (fuel : nat) : P unit :=
  find_soi fuel fuel ;;
  c ← ProcessTables fuel;
  if c =? M_SOS then GetSOS else fail.

(** [ParseHead_Res], after the four bytes of the id are skipped. *)
Definition res_format (f : Z) : option Z :=
  if f =? 0 then Some JPEG_FW_YUV420
  else if f =? 1 then Some JPEG_FW_YUV411
  else if f =? 2 then Some JPEG_FW_YUV444
  else if f =? 3 then Some JPEG_FW_YUV422
  else if f =? 4 then Some JPEG_FW_YUV400
  else None.

Definition parse_res : P unit :=
  h ← get_short_word;
  w ← get_short_word;
  modify (set_input_height h) ;;
  modify (set_input_width w) ;;
  modify (set_num_components 3) ;;
  f ← get_short_word;
  match res_format f with
  | None => fail
  | Some fmt =>
    modify (set_input_mcu_info fmt) ;;
    (if f =? 4 then modify (set_num_components 1) else mret tt) ;;
    q ← get_short_word;
    check (q <=? 4) ;;
    modify (set_quant_level q)
  end.

(** ** [JPEG_FWParseHead] *)

(** The codec after it is cleared and given its defaults; what the caller's
    parameter block and the pool hold is kept. *)
Definition reset_codec (s : jdec) : jdec :=
  MkDec 0x3ffff 0x3ffff 0 (replicate 3 (MkTblMap 0 0 0)) 0
    (replicate NUM_HUFF_TBLS (MkHuff [] [])) (replicate NUM_HUFF_TBLS (MkHuff [] []))
    (replicate 3 None) true true (replicate 3 0) [] 0 0 0 0 0 0 false
    false (s_used_extra_mem s) (s_extra_mem_size s) (progressive_mode s)
    (input_width s) (input_height s) (input_mcu_info s) (quant_level s).

(** [JpegDec_InitMem] on a buffer of [size >= 4] bytes at [addr]: the pool is
    the word-aligned part, zeroed. *)
Definition JpegDec_InitMem (addr size : Z) (s : jdec) : jdec :=
  let aligned := Z.shiftl (Z.shiftr (addr +u 3) 2) 2 in
  set_s_used_extra_mem 0 (set_s_extra_mem_size (size -u (aligned -u addr)) s).

Inductive source :=
| InMemory (bitstream : list Z) (bitstream_len : Z)
| FromFile (read_bitstream : reader).

(** [JpegDec_InitBitream]; [None] when the pool has no room for the buffer or
    the read function overruns it. *)
Definition JpegDec_InitBitream (src : source) (s : jdec) : option (jdec * stream) :=
  match src with
  | InMemory b len => Some (s, mem_stream b len)
  | FromFile rd =>
    match JpegDec_ExtraMemAlloc READ_BUF_LEN s with
    | Done (Ok _, s') => st ← file_stream rd; Some (s', st)
    | _ => None
    end
  end.

(** The result, the state and the value of [header_len].  A missing or tiny
    [dec_buf] makes the decoder go on with the memory of an earlier call. *)
Definition JPEG_FWParseHead (fuel : nat) (src : source) (addr size : Z) (s : jdec)
  : outcome unit * jdec * Z :=
  if (addr =? 0) || (size <? 4) then (Undef, s, 0) else
  let s0 := JpegDec_InitMem addr size (reset_codec s) in
  match JpegDec_InitBitream src s0 with
  | None => (Undef, s0, 0)
  | Some (s1, st) =>
    match is_res_jpg_file st with
    | None => (Undef, s1, 0)
    | Some true =>
      let s2 := set_is_res_file true s1 in
      match skip_n_byte 4 st with
      | None => (Failed, s2, 12)
      | Some st' =>
        match run (parse_res s2) st' with
        | None => (Undef, s2, 12)
        | Some (r, s3, _) => (r, s3, 12)
        end
      end
    | Some false =>
      let s2 := set_is_res_file false s1 in
      match run (ParseHead fuel s2) st with
      | None => (Undef, s2, 0)
      | Some (r, s3, st') =>
        match get_header_len st' with
        | None => (Undef, s3, 0)
        | Some h => (r, s3, h)
        end
      end
    end
  end.

(** ** Reasoning about parsers on byte lists *)
Definition exec {A} (m : P A) (s : jdec) (l : list Z) : outcome A * jdec * list Z := run_list (m s) l.

Definition recast {A B} (r : outcome A) : outcome B :=
  match r with Ok _ => NoFuel | Failed => Failed | Undef => Undef | NoFuel => NoFuel end.

Lemma exec_bind {A B} (m : P A) (f : A -> P B) s l :
  exec (m ≫= f) s l =
    match exec m s l with
    | (Ok a, s', l') => exec (f a) s' l'
    | (r, s', l') => (recast r, s', l')
    end.
Proof.
  unfold exec, mbind, P_bind. rewrite run_list_pbind.
  destruct (run_list (m s) l) as [[[] ?] ?]; reflexivity.
Qed.

Lemma exec_ret {A} (a : A) s l : exec (mret a) s l = (Ok a, s, l).
Proof. reflexivity. Qed.
Lemma exec_getc s c l : exec getc s (c :: l) = (Ok c, s, l).
Proof. reflexivity. Qed.
Lemma exec_getc_nil s : exec getc s [] = (Failed, s, []).
Proof. reflexivity. Qed.
Lemma exec_gets {A} (f : jdec -> A) s l : exec (gets f) s l = (Ok (f s), s, l).
Proof. reflexivity. Qed.
Lemma exec_modify f s l : exec (modify f) s l = (Ok tt, f s, l).
Proof. reflexivity. Qed.
Lemma exec_check b s l : exec (check b) s l = (if b then Ok tt else Failed, s, l).
Proof. by destruct b. Qed.

Create HintDb exec.
#[export] Hint Rewrite @exec_bind @exec_ret exec_getc exec_getc_nil @exec_gets exec_modify exec_check : exec.
Ltac exec_step := autorewrite with exec; cbn beta iota.

Definition be16 (v : Z) : list Z := [v / 256; v mod 256].

Lemma be16_join v : 0 <= v < 2 ^ 16 -> Z.lor (Z.shiftl (v / 256) 8) (v mod 256) = v.
Proof. intros H. rewrite lor_shiftl_add by zlia. zlia. Qed.

Lemma exec_short s v l : 0 <= v < 2 ^ 16 -> exec get_short_word s (be16 v ++ l) = (Ok v, s, l).
Proof. intros H. unfold get_short_word, be16. simpl app. exec_step. by rewrite be16_join. Qed.

Lemma exec_skip n s l r : length l = n -> exec (skip_chars n) s (l ++ r) = (Ok tt, s, r).
Proof.
  revert l. induction n as [|n IH]; intros [|c l]; try discriminate; simpl; intros H.
  - reflexivity.
  - exec_step. apply IH. lia.
Qed.

(** A whole number of words within the pool is handed out. *)
Lemma exec_alloc n s l k :
  Z.land (u32 (n + 3)) (2 ^ 32 - 4) = k -> 0 <= k -> 0 <= s_used_extra_mem s ->
  s_used_extra_mem s + k <= s_extra_mem_size s < 2 ^ 32 ->
  exec (JpegDec_ExtraMemAlloc n) s l = (Ok tt, set_s_used_extra_mem (s_used_extra_mem s + k) s, l).
Proof.
  intros Hk Hk0 Hu Hs. unfold JpegDec_ExtraMemAlloc. rewrite Hk. exec_step.
  rewrite (u32_small (s_extra_mem_size s - _)) by (unfold is_u32; lia).
  rewrite (proj2 (Z.ltb_ge _ _)) by lia. exec_step. by rewrite u32_small by (unfold is_u32; lia).
Qed.

(** ** Well-formed decoder states *)
Definition huff_wf (h : HUFF_TBL_T) : Prop :=
  (bits h = [] /\ huffval h = []) \/
  (length (bits h) = 17%nat /\ length (huffval h) = 257%nat /\ bytes (bits h) /\ bytes (huffval h)).
Definition quant_wf (q : option (list Z)) : Prop :=
  match q with None => True | Some t => length t = 64%nat /\ bytes t end.
Definition comp_wf (k : jpeg_component_info) : Prop :=
  is_byte (component_id k) /\ 0 <= h_samp_factor k < 16 /\ 0 <= v_samp_factor k < 16.
Definition tbl_wf (t : TBL_MAP_T) : Prop :=
  0 <= dc_huff_tbl_id t < 16 /\ 0 <= ac_huff_tbl_id t < 16 /\ 0 <= quant_tbl_id t <= 2.

Record wf (s : jdec) : Prop := {
  wf_tbl_len : length (tbl_map s) = 3%nat;
  wf_tbl : Forall tbl_wf (tbl_map s);
  wf_quant_len : length (quant_tbl s) = 3%nat;
  wf_quant : Forall quant_wf (quant_tbl s);
  wf_dc_len : length (dc_huff_tbl s) = NUM_HUFF_TBLS;
  wf_dc : Forall huff_wf (dc_huff_tbl s);
  wf_ac_len : length (ac_huff_tbl s) = NUM_HUFF_TBLS;
  wf_ac : Forall huff_wf (ac_huff_tbl s);
  wf_ids : length (comp_id_map s) = 3%nat;
  wf_comps : Forall comp_wf (comp_info s);
  wf_num : is_byte (num_components s);
  wf_pool : 0 <= s_used_extra_mem s <= s_extra_mem_size s;
  wf_pool_size : s_extra_mem_size s < 2 ^ 32;
  wf_restart : 0 <= restart_interval s < 2 ^ 18;
  wf_width : is_u32 (input_width s);
  wf_height : is_u32 (input_height s) }.

(** [ok N d Q m]: on at most [N] bytes to come, [m] keeps the state well
    formed, does not run out of fuel, and if it succeeds it has consumed [d]
    bytes and its result satisfies [Q]. *)
Definition ok {A} (N d : nat) (Q : A -> Prop) (m : P A) : Prop :=
  forall s l, wf s -> bytes l -> (length l <= N)%nat ->
    let '(r, s', l') := exec m s l in
    wf s' /\ bytes l' /\
    match r with
    | Ok a => Q a /\ (length l' + d <= length l)%nat
    | NoFuel => False
    | _ => True
    end.

Lemma ok_bind {A B} N d e Q R (m : P A) (f : A -> P B) :
  ok N d Q m -> (forall a, Q a -> (d <= N)%nat -> ok (N - d) e R (f a)) -> ok N (d + e) R (m ≫= f).
Proof.
  intros Hm Hf s l Hs Hl Hn. rewrite exec_bind. specialize (Hm s l Hs Hl Hn).
  destruct (exec m s l) as [[r s'] l']. destruct Hm as (Hs' & Hl' & Hr).
  destruct r as [a| | |]; simpl; auto. destruct Hr as [HQ Hd].
  specialize (Hf a HQ ltac:(lia) s' l' Hs' Hl' ltac:(lia)).
  destruct (exec (f a) s' l') as [[r s''] l'']. destruct Hf as (? & ? & Hr). split_and!; auto.
  destruct r; auto. destruct Hr. split; [done|lia].
Qed.

Lemma ok_weaken {A} N N' d d' (Q R : A -> Prop) m :
  ok N' d' Q m -> (N <= N')%nat -> (d <= d')%nat -> (forall a, Q a -> R a) -> ok N d R m.
Proof.
  intros Hm HN Hd HQ s l Hs Hl Hn. specialize (Hm s l Hs Hl ltac:(lia)).
  destruct (exec m s l) as [[r s'] l']. destruct Hm as (? & ? & Hr). split_and!; auto.
  destruct r; auto. destruct Hr. split; [auto|lia].
Qed.

Lemma ok_seq {A B} N Q R (m : P A) (f : A -> P B) :
  ok N 0 Q m -> (forall a, Q a -> ok N 0 R (f a)) -> ok N 0 R (m ≫= f).
Proof.
  intros Hm Hf. apply (ok_bind N 0 0 Q); [done|]. intros a Ha _. rewrite Nat.sub_0_r. auto.
Qed.

Lemma ok_ret {A} N (Q : A -> Prop) a : Q a -> ok N 0 Q (mret a).
Proof. intros H s l ? ? ?. rewrite exec_ret. split_and!; auto; lia. Qed.
Lemma ok_getc1 N : ok N 1 is_byte getc.
Proof.
  intros s [|c l] Hs Hl ?; [by rewrite exec_getc_nil|]. rewrite exec_getc.
  apply Forall_cons_1 in Hl as [??]. split_and!; auto. simpl. lia.
Qed.
Lemma ok_getc N : ok N 0 is_byte getc.
Proof. eapply ok_weaken; [apply ok_getc1|..]; auto. Qed.
Lemma ok_fail {A} N d (Q : A -> Prop) : ok N d Q fail.
Proof. intros s l ? ? ?. simpl. auto. Qed.
Lemma ok_undef {A} N d (Q : A -> Prop) : ok N d Q undef.
Proof. intros s l ? ? ?. simpl. auto. Qed.
Lemma ok_check N b : ok N 0 (fun _ => b = true) (check b).
Proof. intros s l ? ? ?. rewrite exec_check. destruct b; split_and!; auto; lia. Qed.
Lemma ok_gets {A} N (f : jdec -> A) (Q : A -> Prop) : (forall s, wf s -> Q (f s)) -> ok N 0 Q (gets f).
Proof. intros H s l ? ? ?. rewrite exec_gets. split_and!; auto; lia. Qed.
Lemma ok_modify N f : (forall s, wf s -> wf (f s)) -> ok N 0 (fun _ => True) (modify f).
Proof. intros H s l ? ? ?. rewrite exec_modify. split_and!; auto; lia. Qed.
Lemma ok_if {A} N d (Q : A -> Prop) (b : bool) m n : (b = true -> ok N d Q m) -> (b = false -> ok N d Q n) -> ok N d Q (if b then m else n).
Proof. destruct b; auto. Qed.

Lemma be_join_range a b : is_byte a -> is_byte b -> 0 <= Z.lor (Z.shiftl a 8) b < 2 ^ 16.
Proof. unfold is_byte. intros. rewrite lor_shiftl_add by lia. lia. Qed.
Lemma nibble_range c : 0 <= Z.land c 15 < 16.
Proof. change 15 with (Z.ones 4). rewrite Z.land_ones by lia. apply Z.mod_pos_bound. lia. Qed.

Lemma ok_short N : ok N 0 (fun v => 0 <= v < 2 ^ 16) get_short_word.
Proof.
  eapply ok_seq; [apply ok_getc|]. intros a Ha. eapply ok_seq; [apply ok_getc|]. intros b Hb.
  apply ok_ret. by apply be_join_range.
Qed.

Create HintDb ok.
#[export] Hint Resolve ok_getc ok_short ok_fail ok_undef ok_check nibble_range : ok.

(** Sequences of parsers, from left to right. *)
Ltac ok_auto :=
  repeat first
    [ progress intros
    | apply ok_ret; [solve [auto | lia]]
    | apply ok_fail | apply ok_undef
    | solve [eauto 3 with ok nocore]
    | eapply ok_seq; [solve [eauto 3 with ok nocore]|]
    | apply ok_if ].

(** Assignments that keep the state well formed. *)
Ltac wf_set :=
  let s := fresh "s" in let H := fresh "H" in
  intros s H; destruct H; constructor; cbn -[replicate alter insert];
  rewrite ?length_alter, ?length_insert, ?length_replicate; auto; unfold is_byte, is_u32 in *; try lia.

Lemma ok_alloc N n : ok N 0 (fun _ => True) (JpegDec_ExtraMemAlloc n).
Proof.
  intros s l Hs Hl HN. unfold JpegDec_ExtraMemAlloc. exec_step.
  set (k := Z.land _ _). destruct Hs. rewrite (u32_small (_ - _)) by (unfold is_u32; lia).
  assert (0 <= k) by (apply Z.land_nonneg; lia).
  destruct (Z.ltb_spec (s_extra_mem_size s - s_used_extra_mem s) k); exec_step.
  - split_and!; auto. by constructor.
  - rewrite u32_small by (unfold is_u32; lia). split_and!; auto; [|lia]. constructor; cbn; auto. lia.
Qed.
#[export] Hint Resolve ok_alloc : ok.

Lemma ok_comp N ci f : (forall k, comp_wf k -> comp_wf (f k)) -> ok N 0 (fun _ => True) (upd_comp ci f).
Proof. intros H. apply ok_modify. wf_set. apply Forall_alter; auto. Qed.

Lemma ok_huff N ac i f : (forall h, huff_wf h -> huff_wf (f h)) -> ok N 0 (fun _ => True) (upd_huff ac i f).
Proof. intros H. apply ok_modify. destruct ac; wf_set; apply Forall_alter; auto. Qed.

Lemma ok_sof_components N n ci : ok N 0 (fun _ => True) (sof_components n ci).
Proof.
  revert ci. induction n as [|n IH]; intros ci; simpl; [by apply ok_ret|].
  eapply ok_seq; [apply ok_getc|]. intros id Hid.
  eapply ok_seq; [apply ok_comp; intros k (_ & ? & ?); by split; [|split]|]. intros _ _.
  eapply ok_seq; [apply ok_check|]. intros ? Hy.
  eapply ok_seq; [apply ok_getc|]. intros c Hc.
  eapply ok_seq; [apply ok_comp; intros k (? & _ & _); split; [done|split; apply nibble_range]|]. intros _ _.
  eapply ok_seq; [apply ok_getc|]. intros q Hq.
  eapply ok_seq; [apply ok_check|]. intros ? Hle. cbn beta in Hle.
  eapply ok_seq; [|intros; apply IH].
  apply ok_modify. wf_set. apply Forall_alter; auto. intros t _ (? & ? & ?). split; [done|split; [done|simpl; lia]].
Qed.

Lemma ok_samp N i : ok N 0 (fun _ => True) (samp_factors i).
Proof.
  unfold samp_factors. do 3 (eapply ok_seq; [apply (ok_gets _ _ (fun _ => True)); done|intros ? _]).
  destruct (_ !! _); [by apply ok_ret|]. apply ok_if; intros _; [by apply ok_ret|apply ok_undef].
Qed.
#[export] Hint Resolve ok_sof_components ok_samp : ok.

(** A sequence whose first part is an assignment. *)
Ltac ok_assign := eapply ok_seq; [apply ok_modify; wf_set|intros _ _].

Lemma ok_GetSOF N b : ok N 0 (fun _ => True) (GetSOF b).
Proof.
  unfold GetSOF. ok_assign. ok_auto. do 2 ok_assign. ok_auto. ok_assign. ok_auto. ok_assign.
  { apply Forall_replicate. split; [done|split; simpl; lia]. }
  ok_auto; [apply ok_modify; wf_set|]. destruct (sample_format _); [|apply ok_fail]. ok_assign. ok_auto.
Qed.

Lemma ok_sos_components N n i : ok N 0 (fun _ => True) (sos_components n i).
Proof.
  revert i. induction n as [|n IH]; intros i; simpl; [by apply ok_ret|]. ok_auto.
  eapply ok_seq; [apply (ok_gets _ _ (fun tm => length tm = 3%nat /\ Forall tbl_wf tm)); by intros s []|].
  intros tm [Hl Ht]. destruct (tm !! i) as [t|] eqn:E; [|apply ok_undef]. ok_assign.
  { apply Forall_insert; [done|]. destruct (Forall_lookup_1 _ _ _ _ Ht E) as (_ & _ & ?).
    split; [apply nibble_range|split; [apply nibble_range|done]]. }
  eapply ok_seq; [apply (ok_gets _ _ (fun _ => True)); done|]. intros ks _.
  eapply ok_seq; [|intros; apply IH]. apply ok_if; intros _; [apply ok_modify; wf_set|by apply ok_ret].
Qed.
#[export] Hint Resolve ok_sos_components ok_GetSOF : ok.

Lemma ok_GetSOS N : ok N 0 (fun _ => True) GetSOS.
Proof.
  unfold GetSOS. ok_auto. ok_assign. ok_auto. do 2 ok_assign. ok_auto. do 3 ok_assign.
  apply ok_modify; wf_set.
Qed.

Lemma ok_skip N n : ok N 0 (fun _ => True) (skip_chars n).
Proof. induction n; simpl; [by apply ok_ret|]. ok_auto. Qed.
#[export] Hint Resolve ok_skip ok_GetSOS : ok.

Lemma ok_SkipVariable N : ok N 0 (fun _ => True) SkipVariable.
Proof. unfold SkipVariable. ok_auto. Qed.
Lemma ok_GetAPP0 N : ok N 0 (fun _ => True) GetAPP0.
Proof. unfold GetAPP0. ok_auto. Qed.
Lemma ok_GetDRI N : ok N 0 (fun _ => True) GetDRI.
Proof. unfold GetDRI. ok_auto. do 2 ok_assign. apply ok_modify. wf_set. Qed.
#[export] Hint Resolve ok_SkipVariable ok_GetAPP0 ok_GetDRI : ok.

Lemma huff_wf_bits i c h : is_byte c -> huff_wf h -> huff_wf (MkHuff (<[i := c]> (bits h)) (huffval h)).
Proof.
  intros Hc [[E1 E2]|(? & ? & ? & ?)]; [left|right]; simpl.
  - by rewrite E1, E2.
  - rewrite length_insert. split_and!; auto. by apply Forall_insert.
Qed.
Lemma huff_wf_val i c h : is_byte c -> huff_wf h -> huff_wf (MkHuff (bits h) (<[i := c]> (huffval h))).
Proof.
  intros Hc [[E1 E2]|(? & ? & ? & ?)]; [left|right]; simpl.
  - by rewrite E1, E2.
  - rewrite length_insert. split_and!; auto. by apply Forall_insert.
Qed.

Lemma ok_compare N d i c : ok N 0 (fun _ => True) (compare_default d i c).
Proof.
  unfold compare_default. destruct (d !! i); [|apply ok_undef].
  apply ok_if; intros _; [by apply ok_ret|apply ok_modify; wf_set].
Qed.
#[export] Hint Resolve ok_compare : ok.

Lemma ok_read_bits N ac idx n i count :
  0 <= count -> ok N 0 (fun c => 0 <= c) (read_bits ac idx n i count).
Proof.
  revert i count. induction n as [|n IH]; intros i count Hc; simpl; [by apply ok_ret|].
  eapply ok_seq; [apply ok_getc|]. intros c Hb.
  eapply ok_seq; [apply ok_huff; intros h; by apply huff_wf_bits|]. intros _ _.
  eapply ok_seq; [apply ok_compare|]. intros _ _. apply IH. apply u16_range.
Qed.
Lemma ok_read_huffval N ac idx n i : ok N 0 (fun _ => True) (read_huffval ac idx n i).
Proof.
  revert i. induction n as [|n IH]; intros i; simpl; [by apply ok_ret|].
  eapply ok_seq; [apply ok_getc|]. intros c Hb.
  eapply ok_seq; [apply ok_huff; intros h; by apply huff_wf_val|]. ok_auto.
Qed.

Lemma ok_huff_table N : ok N 0 (fun c => 0 <= c) huff_table.
Proof.
  unfold huff_table. eapply ok_seq; [apply ok_getc|]. intros c _.
  eapply ok_seq; [apply ok_huff; intros h; by apply huff_wf_bits|]. intros _ _.
  eapply ok_seq; [apply ok_read_bits; lia|]. intros n Hn.
  eapply ok_seq; [apply ok_check|]. intros _ _.
  eapply ok_seq; [apply ok_read_huffval|]. intros _ _. by apply ok_ret.
Qed.

Lemma ok_huff_loop N n length :
  0 <= length <= Z.of_nat n -> ok N 0 (fun _ => True) (huff_loop n length).
Proof.
  revert length. induction n as [|n IH]; intros length Hl; simpl;
    (apply ok_if; intros E; [by apply ok_ret|]); [lia|].
  eapply ok_seq; [apply ok_huff_table|]. intros c Hc.
  eapply ok_seq; [apply ok_check|]. intros ? Hk. cbn beta in *. apply IH. lia.
Qed.

Lemma ok_huff_malloc N n : ok N 0 (fun _ => True) (huff_malloc n).
Proof. induction n; simpl; [by apply ok_ret|]. ok_auto. Qed.

Lemma zero_huff_wf : huff_wf zero_huff.
Proof. right. repeat split; apply Forall_replicate; done. Qed.

Lemma ok_GetHuffTbl N : ok N 0 (fun _ => True) GetHuffTbl.
Proof.
  unfold GetHuffTbl. eapply ok_seq; [apply (ok_gets _ _ (fun _ => True)); done|]. intros b _.
  eapply ok_seq.
  { instantiate (1 := fun _ => True). apply ok_if; intros _; [by apply ok_ret|].
    eapply ok_seq; [apply ok_huff_malloc|]. intros _ _.
    ok_assign; [apply Forall_replicate, zero_huff_wf..|]. apply ok_modify; wf_set. }
  intros _ _. eapply ok_seq; [apply ok_short|]. intros n Hn.
  eapply ok_seq; [apply ok_check|]. intros ? Hc. cbn beta in *. apply ok_huff_loop. lia.
Qed.

Lemma ok_read_quant N wide tbl n j : ok N 0 (fun _ => True) (read_quant wide tbl n j).
Proof.
  revert j. induction n as [|n IH]; intros j; cbn [read_quant]; [by apply ok_ret|].
  eapply ok_seq; [apply (ok_if _ _ (fun _ => True)); intros _; eapply ok_weaken; eauto using ok_short, ok_getc|].
  intros c _. ok_assign; [|apply IH].
  apply Forall_alter; [done|]. intros [t|] _ Ht; [|done]. destruct Ht as [Hl Hb]. split; [by rewrite length_insert|].
  apply Forall_insert; [done|apply u8_byte].
Qed.

Lemma ok_quant_table N : ok N 0 (fun '(_, prec) => 0 <= prec) quant_table.
Proof.
  unfold quant_table. eapply ok_seq; [apply ok_getc|]. intros b Hb. ok_auto.
  ok_assign; [apply Forall_insert; [done|]; split; [done|apply Forall_replicate; done]|].
  eapply ok_seq; [apply ok_read_quant|]. intros _ _. apply ok_ret. apply Z.shiftr_nonneg. unfold is_byte in Hb. lia.
Qed.

Lemma ok_quant_loop N n length two :
  0 <= length <= Z.of_nat n -> ok N 0 (fun _ => True) (quant_loop n length two).
Proof.
  revert length two. induction n as [|n IH]; intros length two Hl; cbn [quant_loop];
    (apply ok_if; intros E; [by apply ok_ret|]); [lia|].
  eapply ok_seq; [apply ok_quant_table|]. intros [k prec] Hp.
  eapply ok_seq; [apply ok_check|]. intros ? Hk. cbn beta in *. apply IH. lia.
Qed.

Lemma ok_GetQuantTbl N : ok N 0 (fun _ => True) GetQuantTbl.
Proof.
  unfold GetQuantTbl. ok_assign. eapply ok_seq; [apply ok_short|]. intros n Hn.
  eapply ok_seq; [apply ok_check|]. intros ? Hc. cbn beta in Hc.
  eapply ok_seq; [apply ok_quant_loop; lia|]. intros two _. apply ok_if; intros _; [|by apply ok_ret].
  eapply ok_seq; [apply (ok_gets _ _ (fun _ => True)); done|]. intros qs _.
  repeat case_match; try apply ok_undef. eapply ok_weaken; [apply ok_check|..]; auto.
Qed.
#[export] Hint Resolve ok_GetHuffTbl ok_GetQuantTbl : ok.

Lemma ok_segment N c : ok N 0 (fun _ => True) (segment c).
Proof. unfold segment. ok_auto. Qed.

(** ** Termination of the marker loops: every turn consumes a byte. *)
Lemma ok_skip_to_ff N n : (N < n)%nat -> ok N 1 (fun _ => True) (skip_to_ff n).
Proof.
  revert N. induction n as [|n IH]; intros N Hn; [lia|]. simpl.
  apply (ok_bind N 1 0 is_byte); [apply ok_getc1|]. intros c _ Hd. apply ok_if; intros _; [by apply ok_ret|].
  eapply ok_weaken; [apply IH|..]; auto; lia.
Qed.
Lemma ok_skip_ffs N n : (N < n)%nat -> ok N 1 (fun _ => True) (skip_ffs n).
Proof.
  revert N. induction n as [|n IH]; intros N Hn; [lia|]. simpl.
  apply (ok_bind N 1 0 is_byte); [apply ok_getc1|]. intros c _ Hd. apply ok_if; intros _; [|by apply ok_ret].
  eapply ok_weaken; [apply IH|..]; auto; lia.
Qed.

Lemma ok_next_marker N fuel n : (N < fuel)%nat -> (N < n)%nat -> ok N 2 (fun _ => True) (next_marker fuel n).
Proof.
  revert N. induction n as [|n IH]; intros N Hf Hn; [lia|]. simpl.
  apply (ok_bind N 1 1 (fun _ => True)); [by apply ok_skip_to_ff|]. intros _ _ Hd.
  apply (ok_bind _ 1 0 (fun _ => True)); [apply ok_skip_ffs; lia|]. intros c _ Hd'.
  apply ok_if; intros _; [|by apply ok_ret]. eapply ok_weaken; [apply IH|..]; auto; lia.
Qed.

Lemma ok_GetNextMarker N fuel : (N < fuel)%nat -> ok N 2 (fun _ => True) (GetNextMarker fuel).
Proof. intros. by apply ok_next_marker. Qed.

Lemma ok_process_tables N fuel n : (N < fuel)%nat -> (N < n)%nat -> ok N 0 (fun _ => True) (process_tables fuel n).
Proof.
  revert N. induction n as [|n IH]; intros N Hf Hn; [lia|]. simpl.
  apply (ok_weaken _ N _ 2 (fun _ => True)); [|lia|lia|done].
  apply (ok_bind N 2 0 (fun _ => True)); [by apply ok_GetNextMarker|]. intros c _ Hd.
  apply ok_if; intros _; [by apply ok_ret|]. eapply ok_seq; [apply ok_segment|]. intros _ _. apply IH; lia.
Qed.

Lemma ok_find_soi N fuel n : (N < fuel)%nat -> (N < n)%nat -> ok N 0 (fun _ => True) (find_soi fuel n).
Proof.
  revert N. induction n as [|n IH]; intros N Hf Hn; [lia|]. simpl.
  apply (ok_weaken _ N _ 2 (fun _ => True)); [|lia|lia|done].
  apply (ok_bind N 2 0 (fun _ => True)); [by apply ok_GetNextMarker|]. intros c _ Hd.
  eapply ok_seq; [apply ok_check|]. intros _ _. apply ok_if; intros _; [by apply ok_ret|]. apply IH; lia.
Qed.

Lemma ok_ParseHead N fuel : (N < fuel)%nat -> ok N 0 (fun _ => True) (ParseHead fuel).
Proof.
  intros Hf. unfold ParseHead. eapply ok_seq; [by apply ok_find_soi|]. intros _ _.
  eapply ok_seq; [by apply ok_process_tables|]. intros c _. ok_auto.
Qed.

Lemma ok_parse_res N : ok N 0 (fun _ => True) parse_res.
Proof.
  unfold parse_res. ok_auto. do 3 ok_assign. ok_auto. destruct (res_format _); [|apply ok_fail]. ok_assign.
  eapply ok_seq; [apply (ok_if _ _ (fun _ => True)); intros _; [apply ok_modify; wf_set|by apply ok_ret]|].
  ok_auto. apply ok_modify. wf_set.
Qed.

(** ** Theorems *)

(** C18: the marker parser does not depend on how the read function cuts the
    file into pieces: against any read function that returns bytes of the
    file in order (at most as many as wanted, and none only at the end of the
    file), for a file below 4 GB, [ParseHead] over the stream's buffer has the
    outcome and the final state of a parse of the whole file in one piece, and
    the stream's own count of header bytes is the number of bytes parsed.
    This is about [ParseHead] and that count only: what [JPEG_FWParseHead] does
    around it, the test of the first byte for a resource file and the length
    it reports, looks at the buffer as it was filled, and does depend on the
    cuts. *)
Theorem jpeg_reader_independent f rd fuel s :
  reads_file f rd -> zlen f < 2 ^ 32 ->
  exists st st', file_stream rd = Some st /\
    run (ParseHead fuel s) st = Some (fst (exec (ParseHead fuel) s f), st') /\
    s_header_len st' = zlen f - zlen (snd (exec (ParseHead fuel) s f)).
Proof.
  intros Hf Hsz. destruct (file_pending f rd Hf Hsz) as (st & Est & Hp).
  assert (H0 : s_header_len st = 0).
  { unfold file_stream in Est. destruct (store _ _ _); [|discriminate]. by simplify_option_eq. }
  destruct (run_pending (ParseHead fuel s) f st Hp) as (st' & Er & _ & Eh); [lia..|].
  exists st, st'. split_and!; auto. rewrite Eh, H0. unfold exec. lia.
Qed.

(** A file of five bytes read one byte at a time. *)
Definition one_byte_reader (f : list Z) : reader := fun off n => take 1 (drop (Z.to_nat off) f).

Lemma one_byte_reads f : reads_file f (one_byte_reader f).
Proof.
  intros off n H0 Hn. unfold one_byte_reader. cbv zeta. rewrite length_take, length_drop. split_and!.
  - destruct (drop (Z.to_nat off) f) as [|x t] eqn:E; [by rewrite !take_nil|].
    apply (f_equal length) in E. rewrite length_drop in E. simpl in E.
    replace (1 `min` (length f - Z.to_nat off))%nat with 1%nat by lia. done.
  - lia.
  - intros E. apply (f_equal length) in E. rewrite length_take, length_drop in E. cbn [length] in E. lia.
Qed.

Definition idle_dec : jdec :=
  MkDec 0 0 0 [] 0 [] [] [] false false [] [] 0 0 0 0 0 0 false false 0 0 false 0 0 0 0.

Lemma jpeg_reader_independent_witness :
  let f := [0xff; M_SOI; 0xff; M_EOI; 7] in
  exists st st', file_stream (one_byte_reader f) = Some st /\
    run (ParseHead 6 idle_dec) st = Some (fst (exec (ParseHead 6) idle_dec f), st') /\
    s_header_len st' = zlen f - zlen (snd (exec (ParseHead 6) idle_dec f)).
Proof.
  intros f. apply (jpeg_reader_independent f (one_byte_reader f) 6 idle_dec); [apply one_byte_reads|reflexivity].
Defined.

(** The bytes a source delivers. *)
Definition source_bytes (src : source) (f : list Z) : Prop :=
  match src with
  | InMemory b len => exists t, b = f ++ t /\ len = zlen f
  | FromFile rd => reads_file f rd
  end.

Lemma wf_reset s : is_u32 (input_width s) -> is_u32 (input_height s) ->
  0 <= s_used_extra_mem s <= s_extra_mem_size s -> s_extra_mem_size s < 2 ^ 32 -> wf (reset_codec s).
Proof.
  intros Hw Hh Hu Hs. constructor; cbn -[replicate]; rewrite ?length_replicate; auto; unfold is_byte; try lia.
  - apply Forall_replicate. split; simpl; lia.
  - by apply Forall_replicate.
  - apply Forall_replicate. by left.
  - apply Forall_replicate. by left.
Qed.

Lemma align_word a : 0 <= a -> Z.shiftl (Z.shiftr (a + 3) 2) 2 = 4 * ((a + 3) / 4).
Proof. intros. rewrite Z.shiftl_mul_pow2, Z.shiftr_div_pow2 by lia. change (2 ^ 2) with 4. lia. Qed.

(** The pool after [JpegDec_InitMem]: at most three bytes are lost. *)
Lemma init_mem_size addr size s :
  0 < addr -> addr + 3 < 2 ^ 32 -> 4 <= size < 2 ^ 32 ->
  size - 3 <= s_extra_mem_size (JpegDec_InitMem addr size s) <= size /\
  s_used_extra_mem (JpegDec_InitMem addr size s) = 0.
Proof.
  intros Ha Ha' Hs. split; [|done]. cbn. rewrite (u32_small (addr + 3)) by (unfold is_u32; lia).
  rewrite align_word by lia. assert (0 <= 4 * ((addr + 3) / 4) - addr <= 3) by zlia.
  rewrite (u32_small (_ - addr)) by (unfold is_u32; lia). rewrite u32_small; [lia|unfold is_u32; lia].
Qed.

Lemma init_wf addr size s :
  0 < addr -> addr + 3 < 2 ^ 32 -> 4 <= size < 2 ^ 32 ->
  is_u32 (input_width s) -> is_u32 (input_height s) -> wf (JpegDec_InitMem addr size (reset_codec s)).
Proof.
  intros Ha Ha' Hs Hw Hh. pose proof (init_mem_size addr size (reset_codec s) Ha Ha' Hs) as [H1 H2].
  revert H1 H2. destruct (wf_reset (set_s_used_extra_mem 0 (set_s_extra_mem_size 4 s))); cbn in *; try lia; auto.
  unfold JpegDec_InitMem. intros H1 H2. constructor; cbn -[replicate] in *; auto; lia.
Qed.

Lemma init_stream src f s :
  source_bytes src f -> wf s -> zlen f < 2 ^ 32 ->
  match JpegDec_InitBitream src s with
  | None => True
  | Some (s', st) => wf s' /\ pending f st /\ s_header_len st = 0
  end.
Proof.
  intros Hb Hs Hsz. destruct src as [b len|rd]; simpl in *.
  - destruct Hb as (t & -> & ->). split_and!; auto. apply mem_pending.
  - pose proof (ok_alloc 0 READ_BUF_LEN s [] Hs ltac:(constructor) ltac:(simpl; lia)) as Ha.
    unfold exec in Ha. destruct (JpegDec_ExtraMemAlloc READ_BUF_LEN s) as [[r s']|k]; [|done].
    destruct Ha as (Hs' & _). destruct r; auto. destruct (file_pending f rd Hb Hsz) as (st & E & Hp). rewrite E. simpl.
    split_and!; auto. unfold file_stream in E. destruct (store _ _ _); [|discriminate]. by simplify_option_eq.
Qed.

Lemma pending_skip n l s s' :
  0 <= n -> pending l s -> skip_n_byte n s = Some s' ->
  pending (drop (Z.to_nat n) l) s' /\ s_header_len s' = s_header_len s.
Proof.
  unfold skip_n_byte. intros Hn (H0 & Hb & Hl). destruct (Z.leb_spec n (s_jremain_byte_num s)); [|done].
  intros [= <-]. split; [|done]. unfold pending. cbn [s_jremain_byte_num s_pos s_buf s_read s_file_offset s_inter_buf_bitstream_len].
  set (b := drop (s_pos s) (s_buf s)) in *.
  assert (Hlen : (Z.to_nat (s_jremain_byte_num s) <= length b)%nat) by (unfold b; rewrite length_drop; lia).
  assert (E : drop (Z.to_nat n) (take (Z.to_nat (s_jremain_byte_num s)) b) =
              take (Z.to_nat (s_jremain_byte_num s - n)) (drop (s_pos s + Z.to_nat n) (s_buf s))).
  { rewrite <- drop_drop. fold b.
    replace (Z.to_nat (s_jremain_byte_num s)) with (Z.to_nat n + Z.to_nat (s_jremain_byte_num s - n))%nat by lia.
    by rewrite take_drop_commute. }
  split; [lia|split; [lia|]]. destruct (s_read s) as [rd|].
  - destruct Hl as (f & ? & ? & ? & ? & ->). exists f. split_and!; auto; try lia.
    rewrite drop_app_le by (rewrite length_take; lia). by rewrite E.
  - by rewrite Hl, E.
Qed.

(** What a call of [JPEG_FWParseHead] leaves, on every path. *)
Lemma parse_head_result fuel src addr size s f :
  source_bytes src f -> bytes f -> zlen f < 2 ^ 32 -> (length f < fuel)%nat ->
  0 < addr -> addr + 3 < 2 ^ 32 -> 4 <= size < 2 ^ 32 ->
  is_u32 (input_width s) -> is_u32 (input_height s) ->
  let '(r, s', _) := JPEG_FWParseHead fuel src addr size s in wf s' /\ r <> NoFuel.
Proof.
  intros Hsrc Hf Hsz Hfuel Ha Ha' Hs Hw Hh. unfold JPEG_FWParseHead.
  rewrite (proj2 (Z.eqb_neq _ _)), (proj2 (Z.ltb_ge _ _)) by lia. cbn [orb].
  pose proof (init_wf addr size s Ha Ha' Hs Hw Hh) as H0.
  pose proof (init_stream src f _ Hsrc H0 Hsz) as Hi.
  destruct (JpegDec_InitBitream src _) as [[s1 st]|]; [|done]. destruct Hi as (H1 & Hp & Hz).
  assert (Hres : forall b, wf (set_is_res_file b s1)) by (intros b; revert s1 H1; wf_set).
  destruct (is_res_jpg_file st) as [[]|]; [| |done].
  - destruct (skip_n_byte 4 st) as [st'|] eqn:Esk; [|done].
    destruct (pending_skip 4 f st st' ltac:(lia) Hp Esk) as [Hp' Hz'].
    destruct (run_pending (parse_res (set_is_res_file true s1)) _ st' Hp') as (st'' & Er & _ & _);
      [lia|rewrite length_drop; lia|]. rewrite Er.
    pose proof (ok_parse_res (length f) _ (drop (Z.to_nat 4) f) (Hres true) (Forall_drop _ _ _ Hf) ltac:(rewrite length_drop; lia)) as Hk.
    unfold exec in Hk. destruct (run_list _ _) as [[r s3] l']. destruct Hk as (Hk & _ & Hr). simpl. split; [done|]. by intros ->.
  - destruct (run_pending (ParseHead fuel (set_is_res_file false s1)) f st Hp) as (st' & Er & _ & _); [lia..|]. rewrite Er.
    pose proof (ok_ParseHead (length f) fuel Hfuel _ f (Hres false) Hf ltac:(lia)) as Hk.
    unfold exec in Hk. destruct (run_list _ _) as [[r s3] l']. destruct Hk as (Hk & _ & Hr). simpl.
    destruct (get_header_len st'); split; try done. by intros ->.
Qed.

(** C25: the header parser terminates: with one unit of fuel more than the
    source has bytes, no loop of the parser runs out of fuel, whatever the
    bytes are and whether they come from memory or from a read function. *)
Theorem jpeg_head_terminates fuel src addr size s f :
  source_bytes src f -> bytes f -> zlen f < 2 ^ 32 -> (length f < fuel)%nat ->
  0 < addr -> addr + 3 < 2 ^ 32 -> 4 <= size < 2 ^ 32 ->
  is_u32 (input_width s) -> is_u32 (input_height s) ->
  fst (fst (JPEG_FWParseHead fuel src addr size s)) <> NoFuel.
Proof.
  intros. pose proof (parse_head_result fuel src addr size s f) as H8.
  destruct (JPEG_FWParseHead fuel src addr size s) as [[r s'] h]. by apply H8.
Qed.

Lemma jpeg_head_terminates_witness :
  let f := [0xff; M_SOI; 0xff; 0; 0xff; 0xff; M_DHT; 0] in
  fst (fst (JPEG_FWParseHead 9 (FromFile (one_byte_reader f)) 4096 8192 idle_dec)) <> NoFuel.
Proof.
  intros f. apply (jpeg_head_terminates 9 (FromFile (one_byte_reader f)) 4096 8192 idle_dec f); try done.
  - apply one_byte_reads.
  - repeat (constructor; [done|]). constructor.
  - apply Nat.ltb_lt. reflexivity.
Defined.

(** One component of a scan header. *)
Lemma exec_sos_component m i c s l :
  (i < length (tbl_map s))%nat -> (i < 255)%nat ->
  exists t s', tbl_map s !! i = Some t /\
    exec (sos_components (S m) i) s (Z.of_nat i + 1 :: c :: l) = exec (sos_components m (S i)) s' l /\
    s' = (let s1 := set_tbl_map (<[i := MkTblMap (Z.land (Z.shiftr c 4) 0x0f) (Z.land c 0x0f) (quant_tbl_id t)]> (tbl_map s)) s in
          if existsb (fun k => component_id k =? Z.of_nat i + 1) (comp_info s)
          then set_comp_id_map (<[i := Z.of_nat i + 1]> (comp_id_map s)) s1 else s1).
Proof.
  intros Hi Hb. destruct (lookup_lt_is_Some_2 _ _ Hi) as [t Ht]. exists t. eexists. split; [done|]. split; [|reflexivity].
  cbn [sos_components]. exec_step. rewrite u8_small by (unfold is_byte; lia). rewrite Z.eqb_refl. exec_step.
  rewrite Ht. exec_step. cbn [comp_info set_tbl_map]. destruct (existsb _ _); exec_step; reflexivity.
Qed.

Lemma exec_sos_component_len m i c s l :
  (i < length (tbl_map s))%nat -> (i < 255)%nat ->
  exists s', exec (sos_components (S m) i) s (Z.of_nat i + 1 :: c :: l) = exec (sos_components m (S i)) s' l /\
    length (tbl_map s') = length (tbl_map s) /\ input_width s' = input_width s /\ input_height s' = input_height s.
Proof.
  intros Hi Hb. destruct (exec_sos_component m i c s l Hi Hb) as (t & s' & _ & E & ->). eexists. split; [exact E|].
  destruct (existsb _ _); cbn; by rewrite length_insert.
Qed.

(** A scan header that lists a fourth component is not rejected: the
    decoder stores its table ids behind the three entries of [tbl_map]. *)
Lemma jpeg_sos_overflow s a b c d rest :
  length (tbl_map s) = 3%nat ->
  fst (fst (exec GetSOS s ([0; 14; 4; 1; a; 2; b; 3; c; 4; d] ++ rest))) = Undef.
Proof.
  intros Hl. unfold GetSOS. change ([0; 14; 4; 1; a; 2; b; 3; c; 4; d] ++ rest) with
    (be16 14 ++ 4 :: 1 :: a :: 2 :: b :: 3 :: c :: 4 :: d :: rest).
  rewrite exec_bind, exec_short by lia. exec_step. change (Z.to_nat 4) with 4%nat.
  destruct (exec_sos_component_len 3 0 a (set_comps_in_scan 4 s) (2 :: b :: 3 :: c :: 4 :: d :: rest)) as (s1 & E1 & L1 & _); [cbn; lia..|].
  destruct (exec_sos_component_len 2 1 b s1 (3 :: c :: 4 :: d :: rest)) as (s2 & E2 & L2 & _); [cbn in *; lia..|].
  destruct (exec_sos_component_len 1 2 c s2 (4 :: d :: rest)) as (s3 & E3 & L3 & _); [cbn in *; lia..|].
  change (Z.of_nat 0 + 1) with 1 in E1. change (Z.of_nat 1 + 1) with 2 in E2. change (Z.of_nat 2 + 1) with 3 in E3.
  cbn in L1. rewrite E1, E2, E3. cbn [sos_components]. exec_step.
  rewrite (lookup_ge_None_2 (tbl_map s3)) by lia. reflexivity.
Qed.

Lemma jpeg_sos_overflow_witness :
  fst (fst (exec GetSOS (reset_codec idle_dec) ([0; 14; 4; 1; 0; 2; 0x11; 3; 0x11; 4; 0x11] ++ [0; 63; 0]))) = Undef.
Proof. apply (jpeg_sos_overflow (reset_codec idle_dec) 0 0x11 0x11 0x11 [0; 63; 0]). reflexivity. Defined.

(** A stream without a frame header is accepted, and the picture size is the
    one the caller's parameter block held before. *)
Lemma jpeg_no_frame_accepted s rest :
  length (tbl_map s) = 3%nat ->
  exists s', exec (ParseHead 9) s ([0xff; M_SOI; 0xff; M_SOS; 0; 8; 1; 1; 0; 0; 63; 0] ++ rest) = (Ok tt, s', rest) /\
    input_width s' = input_width s /\ input_height s' = input_height s.
Proof.
  intros Hl. unfold ParseHead. exec_step.
  change (exec (find_soi 9 9) s _) with (@Ok unit tt, s, [0xff; M_SOS; 0; 8; 1; 1; 0; 0; 63; 0] ++ rest). cbn iota.
  exec_step. change (exec (ProcessTables 9) s _) with (Ok M_SOS, s, be16 8 ++ 1 :: 1 :: 0 :: 0 :: 63 :: 0 :: rest). cbn iota.
  rewrite Z.eqb_refl. unfold GetSOS. rewrite exec_bind, exec_short by lia. exec_step. change (Z.to_nat 1) with 1%nat.
  destruct (exec_sos_component_len 0 0 0 (set_comps_in_scan 1 s) (0 :: 63 :: 0 :: rest)) as (s1 & E1 & L1 & W & H); [cbn; lia..|].
  change (Z.of_nat 0 + 1) with 1 in E1. rewrite E1. cbn [sos_components]. exec_step. eexists. split; [reflexivity|]. cbn. rewrite W, H. done.
Qed.
