(* ===== verification/JpegEnc.v ===== *)
(** The header writer of the JPEG encoder: jpegenc_header.c,
    jpegenc_bitstream.c, JpegEnc_InitParam and JpegEnc_QTableCfg of
    jpegenc_init.c, JPEG_HWWriteHead of jpegenc_interface.c and
    jpegcodec_global.c, all of
    common/libs/libcamera/jpeg/jpeg_fw_8830/src.

    The encoder hands the header to the bitstream module of the hardware, one
    8 or 16 bit write at a time.  [bsm] is what the software sees of it: the
    writes made so far, and the outcomes of the polls of its ready bit that
    are to come. *)
From S2P Require Import Prelude JpegTables JpegDec.

(** ** The codec, JPEG_CODEC_T and JPEG_ENC_INPUT_PARA_T *)
Record SAMPLE_RATIO_T := MkRatio { h_ratio : Z; v_ratio : Z }.

(** The parameters the caller passes.  [mcu_info_0] and [mcu_info_1] are the
    [input_mcu_info] of the two frame descriptions. *)
Record enc_para := MkPara {
  p_width : Z; p_height : Z; mcu_info_0 : Z; mcu_info_1 : Z;
  p_quant_level : Z; p_restart_interval : Z }.

Record jenc := MkEnc {
  e_width : Z; e_height : Z; c_width : Z; c_height : Z;
  ratio : list SAMPLE_RATIO_T; e_mcu_info : Z; compress_level : Z; RST_Count : Z;
  e_tbl_map : list TBL_MAP_T;
  mcu_num_x : Z; mcu_num_y : Z; mcu_height : Z; mcu_width : Z;
  e_dc_huff : list HUFF_TBL_T; e_ac_huff : list HUFF_TBL_T;
  e_quant_tbl : list (list Z); quant_tbl_new : list (list Z); quant_tbl_shift : list (list Z);
  e_restart_interval : Z }.

Definition JPEG_QUALITY_MAX : Z := 5.

Definition lum_dc : HUFF_TBL_T := MkHuff jpeg_fw_lum_dc_bits_default jpeg_fw_lum_dc_huffvalue_default.
Definition lum_ac : HUFF_TBL_T := MkHuff jpeg_fw_lum_ac_bits_default jpeg_fw_lum_ac_huffvalue_default.
Definition chr_dc : HUFF_TBL_T := MkHuff jpeg_fw_chr_dc_bits_default jpeg_fw_chr_dc_huffvalue_default.
Definition chr_ac : HUFF_TBL_T := MkHuff jpeg_fw_chr_ac_bits_default jpeg_fw_chr_ac_huffvalue_default.
Definition null_huff : HUFF_TBL_T := MkHuff [] [].

Definition MAX3 (a b c : Z) : Z := Z.max a (Z.max b c).

(** [JpegEnc_InitParam]: whether it succeeds, and the codec.  The check of the
    quality level looks at the level of the previous picture. *)
Definition JpegEnc_InitParam (p : enc_para) (e : jenc) : bool * jenc :=
  if negb (mcu_info_0 p =? JPEG_FW_YUV422) && negb (mcu_info_0 p =? JPEG_FW_YUV420) &&
     negb (mcu_info_1 p =? JPEG_FW_YUV422) && negb (mcu_info_1 p =? JPEG_FW_YUV420)
  then (false, e)
  else if JPEG_QUALITY_MAX <? compress_level e then (false, e)
  else if (p_width p <? 1) || (p_height p <? 1) then (false, e)
  else
    let mcu_info := u8 (mcu_info_0 p) in
    let width := u16 (p_width p) in
    let height := u16 (p_height p) in
    let base r mh mw nx ny :=
      MkEnc width height (u16 (nx * mw)) (u16 (ny * mh)) r mcu_info (p_quant_level p) M_RST0
        (replicate 3 (MkTblMap 0 0 0)) nx ny mh mw
        [lum_dc; chr_dc; null_huff; null_huff] [lum_ac; chr_ac; null_huff; null_huff]
        [[]; []; []] [[]; []; []] [[]; []; []] (p_restart_interval p) in
    let ratios :=
      if mcu_info =? JPEG_FW_YUV420 then Some (MkRatio 2 2, MkRatio 1 1, MkRatio 1 1)
      else if mcu_info =? JPEG_FW_YUV422 then Some (MkRatio 2 1, MkRatio 1 1, MkRatio 1 1)
      else None in
    match ratios with
    | None => (false, base (replicate 3 (MkRatio 0 0)) 0 0 0 0)
    | Some (y, u, v) =>
      let mh := u16 (8 * MAX3 (v_ratio y) (v_ratio u) (v_ratio v)) in
      let mw := u16 (8 * MAX3 (h_ratio y) (h_ratio u) (h_ratio v)) in
      (true, base [y; u; v] mh mw (u16 ((width + mw - 1) / mw)) (u16 ((height + mh - 1) / mh)))
    end.

(** [JPEGFW_InitHuffTblWithDefaultValue]. *)
Definition JPEGFW_InitHuffTblWithDefaultValue (tm : list TBL_MAP_T) : list TBL_MAP_T :=
  zip_with (fun t id => MkTblMap id id (quant_tbl_id t)) tm [0; 1; 1].

(** [JpegEnc_QTableCfg]: the codec with its quantisation tables, and the words
    written to the quantiser's memory at JPG_MEMO0_ADDR; [None] when the
    quality level is no index of the tables. *)
Definition JPG_MEMO0_ADDR : Z := 0x60b00300.

Definition q_word (q sh : list Z) (i : nat) : option Z :=
  let idx k := m ← jpeg_fw_ASIC_DCT_Matrix !! k; Some (Z.to_nat m) in
  let half j := a ← q !! j; b ← sh !! j; Some (u16 (Z.lor (Z.shiftl a 4) (u16 (b - 11)))) in
  i1 ← idx i; i2 ← idx (S i);
  t1 ← half i1; t2 ← half i2;
  Some (Z.lor (Z.shiftl t2 16) t1).

Definition q_words (q sh : list Z) : option (list Z) := mapM (fun k => q_word q sh (2 * k)) (seq 0 32).

Definition JpegEnc_QTableCfg (e : jenc) : option (jenc * list (Z * Z)) :=
  let level := Z.to_nat (compress_level e) in
  ql ← jpeg_fw_lum_quant_tbl_default !! level;
  qc ← jpeg_fw_chr_quant_tbl_default !! level;
  nl ← jpeg_fw_new_lum_quant_tbl_default !! level;
  nc ← jpeg_fw_new_chr_quant_tbl_default !! level;
  sl ← jpeg_fw_new_lum_quant_tbl_default_shift !! level;
  sc ← jpeg_fw_new_chr_quant_tbl_default_shift !! level;
  wl ← q_words nl sl; wc ← q_words nc sc;
  let tm := zip_with (fun t id => MkTblMap (dc_huff_tbl_id t) (ac_huff_tbl_id t) id) (e_tbl_map e) [0; 1; 1] in
  let addrs := (fun k => JPG_MEMO0_ADDR + 4 * Z.of_nat k) <$> seq 0 64 in
  Some (MkEnc (e_width e) (e_height e) (c_width e) (c_height e) (ratio e) (e_mcu_info e)
          (compress_level e) (RST_Count e) tm (mcu_num_x e) (mcu_num_y e) (mcu_height e) (mcu_width e)
          (e_dc_huff e) (e_ac_huff e) [ql; qc; []] [nl; nc; []] [sl; sc; []] (e_restart_interval e),
        zip addrs (wl ++ wc)).

(** The part of [JPEG_HWEncInit] that sets up the codec for a first slice. *)
Definition set_e_tbl_map (tm : list TBL_MAP_T) (e : jenc) : jenc :=
  MkEnc (e_width e) (e_height e) (c_width e) (c_height e) (ratio e) (e_mcu_info e)
    (compress_level e) (RST_Count e) tm (mcu_num_x e) (mcu_num_y e) (mcu_height e) (mcu_width e)
    (e_dc_huff e) (e_ac_huff e) (e_quant_tbl e) (quant_tbl_new e) (quant_tbl_shift e) (e_restart_interval e).

Definition JPEG_HWEncInit (p : enc_para) (e0 : jenc) : outcome (list (Z * Z)) * jenc :=
  let '(ok, e1) := JpegEnc_InitParam p e0 in
  if negb ok then (Failed, e1) else
  let e2 := set_e_tbl_map (JPEGFW_InitHuffTblWithDefaultValue (e_tbl_map e1)) e1 in
  match JpegEnc_QTableCfg e2 with
  | None => (Undef, e2)
  | Some (e3, writes) => (Ok writes, e3)
  end.

(** ** The bitstream module and the writer monad *)

(** The writes made, as pairs of a width in bits and a value, and the number
    of polls of the ready bit. *)
Record bsm := MkBsm { writes : list (Z * Z); polls : nat }.

Section Writer.
(** Whether the [n]th poll finds the module ready before it times out. *)
Context (ready : nat -> bool).

Definition E (A : Type) : Type := bsm -> outcome A * bsm.

#[export] Instance E_ret : MRet E := fun A a s => (Ok a, s).
#[export] Instance E_bind : MBind E := fun A B f m s =>
  match m s with
  | (Ok a, s') => f a s'
  | (Failed, s') => (Failed, s')
  | (Undef, s') => (Undef, s')
  | (NoFuel, s') => (NoFuel, s')
  end.

(** A read of an array. *)
Definition rd {A} (l : list A) (i : nat) : E A :=
  fun s => (match l !! i with Some a => Ok a | None => Undef end, s).

(** A poll whose time-out makes the function return JPEG_FAILED. *)
Definition poll : E unit := fun s =>
  (if ready (polls s) then Ok tt else Failed, MkBsm (writes s) (S (polls s))).

(** [JPEGFW_PutC] and [JPEGFW_PutW] poll as well, and write in any case. *)
Definition put (nbits v : Z) : E unit := fun s =>
  (Ok tt, MkBsm (writes s ++ [(nbits, v)]) (S (polls s))).
Definition JPEGFW_PutC (ch : Z) : E unit := put 8 (u8 ch).
Definition JPEGFW_PutW (w : Z) : E unit := put 16 (u16 w).

Definition PutMarker (mark : Z) : E unit := JPEGFW_PutC 0xff ;; JPEGFW_PutC mark.

(** [for (k = i; k < i + n; k++) PutC(l[idx(k)])]. *)
Fixpoint put_range (l : list Z) (idx : nat -> nat) (i n : nat) : E unit :=
  match n with
  | O => mret tt
  | S m => v ← rd l (idx i); JPEGFW_PutC v ;; put_range l idx (S i) m
  end.

Definition PutAPP0 : E unit :=
  poll ;;
  PutMarker M_APP0 ;;
  JPEGFW_PutW (2 + 4 + 1 + 2 + 1 + 2 + 2 + 1 + 1) ;;
  JPEGFW_PutC 0x4a ;; JPEGFW_PutC 0x46 ;; JPEGFW_PutC 0x49 ;; JPEGFW_PutC 0x46 ;;
  JPEGFW_PutC 0 ;; JPEGFW_PutC 1 ;; JPEGFW_PutC 1 ;; JPEGFW_PutC 0 ;;
  JPEGFW_PutW 1 ;; JPEGFW_PutW 1 ;; JPEGFW_PutC 0 ;; JPEGFW_PutC 0.

Definition put_sof_component (e : jenc) (i : nat) : E unit :=
  r ← rd (ratio e) i; t ← rd (e_tbl_map e) i;
  JPEGFW_PutC (Z.of_nat i + 1) ;;
  JPEGFW_PutC (Z.lor (Z.shiftl (h_ratio r) 4) (v_ratio r)) ;;
  JPEGFW_PutC (quant_tbl_id t).

Definition PutSOF0 (e : jenc) : E unit :=
  poll ;;
  PutMarker M_SOF0 ;;
  JPEGFW_PutW (3 * 3 + 2 + 5 + 1) ;;
  JPEGFW_PutC 8 ;;
  JPEGFW_PutW (e_height e) ;;
  JPEGFW_PutW (e_width e) ;;
  JPEGFW_PutC 3 ;;
  put_sof_component e 0 ;; put_sof_component e 1 ;; put_sof_component e 2.

Definition put_sos_component (e : jenc) (i : nat) : E unit :=
  t ← rd (e_tbl_map e) i;
  JPEGFW_PutC (Z.of_nat i + 1) ;;
  JPEGFW_PutC (Z.lor (Z.shiftl (dc_huff_tbl_id t) 4) (ac_huff_tbl_id t)).

Definition PutSOS (e : jenc) : E unit :=
  poll ;;
  PutMarker M_SOS ;;
  JPEGFW_PutW (2 * 3 + 2 + 1 + 3) ;;
  JPEGFW_PutC 3 ;;
  put_sos_component e 0 ;; put_sos_component e 1 ;; put_sos_component e 2 ;;
  JPEGFW_PutC 0 ;; JPEGFW_PutC 63 ;; JPEGFW_PutC 0.

Definition put_one_quant (e : jenc) (i : nat) : E unit :=
  poll ;;
  PutMarker M_DQT ;;
  JPEGFW_PutW (64 + 1 + 2) ;;
  JPEGFW_PutC (Z.of_nat i) ;;
  quant ← rd (e_quant_tbl e) i;
  poll ;;
  put_range quant zigzag 0 32 ;;
  poll ;;
  put_range quant zigzag 32 32.

Definition PutQuantTbl (e : jenc) : E unit := put_one_quant e 0 ;; put_one_quant e 1.

(** The symbols in blocks of 32, a poll before each. *)
Fixpoint put_blocks (huffval : list Z) (blocks i : nat) : E unit :=
  match blocks with
  | O => mret tt
  | S m => poll ;; put_range huffval (fun k => k) i 32 ;; put_blocks huffval m (i + 32)
  end.

Definition sum_bits (bits : list Z) : Z := foldl (fun c b => u16 (c + b)) 0 (take 16 (drop 1 bits)).

Definition PutOneHuffTbl (index : Z) (bits huffval : list Z) : E unit :=
  let count := sum_bits bits in
  poll ;;
  PutMarker M_DHT ;;
  JPEGFW_PutW (2 + 1 + 16 + count) ;;
  JPEGFW_PutC index ;;
  put_range bits (fun k => k) 1 16 ;;
  put_blocks huffval (Z.to_nat (count / 32)) 0 ;;
  poll ;;
  put_range huffval (fun k => k) (32 * Z.to_nat (count / 32)) (Z.to_nat (count mod 32)).

Definition PutHuffTbl (e : jenc) : E unit :=
  dl ← rd (e_dc_huff e) 0; al ← rd (e_ac_huff e) 0;
  dc ← rd (e_dc_huff e) 1; ac ← rd (e_ac_huff e) 1;
  PutOneHuffTbl 0x00 (bits dl) (huffval dl) ;;
  PutOneHuffTbl 0x10 (bits al) (huffval al) ;;
  PutOneHuffTbl 0x01 (bits dc) (huffval dc) ;;
  PutOneHuffTbl 0x11 (bits ac) (huffval ac).

Definition WriteDRI (e : jenc) : E unit :=
  poll ;;
  if e_restart_interval e =? 0 then mret tt else
  PutMarker M_DRI ;; JPEGFW_PutW 4 ;; JPEGFW_PutW (e_restart_interval e).

Definition JPEG_HWWriteHead (e : jenc) : E unit :=
  poll ;;
  PutMarker M_SOI ;;
  PutAPP0 ;;
  PutQuantTbl e ;;
  PutSOF0 e ;;
  PutHuffTbl e ;;
  WriteDRI e ;;
  PutSOS e.

(** The thumbnail's header is written by the same sequence. *)
Definition JPEG_HWWriteHeadForThumbnail (e : jenc) : E unit :=
  poll ;;
  PutMarker M_SOI ;;
  PutAPP0 ;;
  PutQuantTbl e ;;
  PutSOF0 e ;;
  PutHuffTbl e ;;
  WriteDRI e ;;
  PutSOS e.

Definition JPEG_HWWriteTailForThumbnail : E unit := poll ;; PutMarker M_EOI.

(** [OutPutRstMarker] with the counter it updates; the outcome of its poll is
    not looked at. *)
Definition OutPutRstMarker (RST_Count : Z) : E Z :=
  (fun s => (Ok tt, MkBsm (writes s) (S (polls s)))) ;;
  let c := if M_RST7 <? RST_Count then M_RST0 else RST_Count in
  JPEGFW_PutC 0xff ;; JPEGFW_PutC c ;; mret (u8 (c + 1)).
End Writer.
