(* ===== verification/JpegHead.v ===== *)
(** Encoder and decoder of the JPEG header together.

    [head_bytes] is the header as the standard lays it out.  The first part
    shows that [JPEG_HWWriteHead] gives exactly these bytes to the bitstream
    module (and a prefix of them when the module stops being ready), the
    second that [ParseHead] recovers from them what was encoded. *)
From S2P Require Import Prelude JpegTables JpegStream JpegDec JpegEnc.

(** ** The bitstream module *)

(** What the encoder relies on of the hardware: an 8 bit write appends a byte
    to the stream, a 16 bit write two, the high byte first. This holds of every
    write made: [JPEGFW_PutC] and [JPEGFW_PutW] poll the ready bit, ignore a
    time-out and write all the same, and the encoder reports success then, so
    it relies on the module to take such a write too. *)
Class BitstreamModule (out : list (Z * Z) -> list Z) : Prop := {
  out_nil : out [] = [];
  out_8 : forall w v, is_byte v -> out (w ++ [(8, v)]) = out w ++ [v];
  out_16 : forall w v, 0 <= v < 2 ^ 16 -> out (w ++ [(16, v)]) = out w ++ be16 v }.

Definition ref_bytes (p : Z * Z) : list Z := if fst p =? 8 then [snd p] else be16 (snd p).
Definition valid_write (p : Z * Z) : Prop :=
  (fst p = 8 /\ is_byte (snd p)) \/ (fst p = 16 /\ 0 <= snd p < 2 ^ 16).
Definition ref_out (w : list (Z * Z)) : list Z := flat_map ref_bytes w.

#[export] Instance ref_out_module : BitstreamModule ref_out.
Proof.
  split; intros; unfold ref_out; rewrite ?flat_map_app; simpl; rewrite ?app_nil_r; reflexivity.
Qed.

Lemma out_valid out w : BitstreamModule out -> Forall valid_write w -> out w = ref_out w.
Proof.
  intros Ho. induction w as [|[n v] w IH] using rev_ind; intros Hw; [apply out_nil|].
  apply Forall_app in Hw as [Hw Hv]. apply Forall_cons_1 in Hv as [Hv _].
  unfold ref_out. rewrite flat_map_app. fold (ref_out w). rewrite <- (IH Hw). simpl. rewrite app_nil_r.
  destruct Hv as [[E Hb]|[E Hb]]; simpl in E, Hb; subst n; [by apply out_8|by apply out_16].
Qed.

(** ** The header as bytes *)
Definition app0_bytes : list Z :=
  [0xff; M_APP0] ++ be16 16 ++ [0x4a; 0x46; 0x49; 0x46; 0; 1; 1; 0] ++ be16 1 ++ be16 1 ++ [0; 0].
Definition zigzagged (q : list Z) : list Z := (fun k => nth (zigzag k) q 0) <$> seq 0 64.
Definition dqt_bytes (id : Z) (q : list Z) : list Z :=
  [0xff; M_DQT] ++ be16 67 ++ [id] ++ zigzagged q.
Definition sof_bytes (height width hv : Z) : list Z :=
  [0xff; M_SOF0] ++ be16 17 ++ [8] ++ be16 height ++ be16 width ++ [3; 1; hv; 0; 2; 0x11; 1; 3; 0x11; 1].
Definition dht_bytes (id : Z) (h : HUFF_TBL_T) : list Z :=
  let count := sum_bits (bits h) in
  [0xff; M_DHT] ++ be16 (19 + count) ++ [id] ++ take 16 (drop 1 (bits h)) ++ take (Z.to_nat count) (huffval h).
Definition dri_bytes (ri : Z) : list Z :=
  if ri =? 0 then [] else [0xff; M_DRI] ++ be16 4 ++ be16 ri.
Definition sos_bytes : list Z :=
  [0xff; M_SOS] ++ be16 12 ++ [3; 1; 0; 2; 0x11; 3; 0x11; 0; 63; 0].

(** What follows the SOI marker. *)
Definition head_rest (height width hv : Z) (ql qc : list Z) (ri : Z) : list Z :=
  app0_bytes ++ (dqt_bytes 0 ql ++ dqt_bytes 1 qc) ++ sof_bytes height width hv ++
  (dht_bytes 0x00 lum_dc ++ dht_bytes 0x10 lum_ac ++ dht_bytes 0x01 chr_dc ++ dht_bytes 0x11 chr_ac) ++
  dri_bytes ri ++ sos_bytes.
Definition head_bytes (height width hv : Z) (ql qc : list Z) (ri : Z) : list Z :=
  [0xff; M_SOI] ++ head_rest height width hv ql qc ri.

(** ** What the writer emits *)
Ltac byte_const := split; vm_compute; easy.

Section Emits.
Context (ready : nat -> bool).

(** [emits m bs]: [m] makes valid writes whose bytes are [bs], or a prefix of
    [bs] when a poll timed out. *)
Definition emits {A} (Q : A -> Prop) (m : E A) (bs : list Z) : Prop :=
  forall s, exists r w k, m s = (r, MkBsm (writes s ++ w) k) /\
    Forall valid_write w /\ ref_out w `prefix_of` bs /\
    match r with
    | Ok a => ref_out w = bs /\ Q a
    | Failed => exists n, ready n = false
    | _ => False
    end.

Lemma emits_bind {A B} Q R (m : E A) (f : A -> E B) b1 b2 :
  emits Q m b1 -> (forall a, Q a -> emits R (f a) b2) -> emits R (m ≫= f) (b1 ++ b2).
Proof.
  intros Hm Hf s. destruct (Hm s) as (r & w & k & E & Hv & Hp & Hr). unfold mbind, E_bind. rewrite E.
  destruct r as [a| | |]; try done.
  - destruct Hr as [Ew Ha]. destruct (Hf a Ha (MkBsm (writes s ++ w) k)) as (r' & w' & k' & E' & Hv' & Hp' & Hr').
    exists r', (w ++ w'), k'. rewrite E'. simpl. rewrite app_assoc. unfold ref_out. rewrite flat_map_app. fold (ref_out w) (ref_out w').
    rewrite Ew. split_and!; auto; [by apply Forall_app|by apply prefix_app|].
    destruct r'; auto. destruct Hr' as [-> ?]. done.
  - exists Failed, w, k. split_and!; auto. etrans; [apply Hp|]. by apply prefix_app_r.
Qed.

Lemma emits_ret {A} (Q : A -> Prop) a : Q a -> emits Q (mret a) [].
Proof.
  intros Ha s. exists (Ok a), [], (polls s). rewrite app_nil_r. split_and!; auto. by destruct s.
Qed.

Lemma emits_rd {A B} R (l : list A) i a (f : A -> E B) bs :
  l !! i = Some a -> emits R (f a) bs -> emits R (rd l i ≫= f) bs.
Proof.
  intros Hl Hf. apply (emits_bind (fun x => x = a) R _ _ []); [|by intros ? ->].
  intros s. exists (Ok a), [], (polls s). unfold rd. rewrite Hl, app_nil_r. split_and!; auto. by destruct s.
Qed.

Lemma emits_poll : emits (fun _ => True) (poll ready) [].
Proof.
  intros s. unfold poll. destruct (ready (polls s)) eqn:Er.
  - exists (Ok tt), [], (S (polls s)). rewrite app_nil_r. by split_and!.
  - exists Failed, [], (S (polls s)). rewrite app_nil_r. split_and!; eauto.
Qed.

Lemma emits_C c : is_byte c -> emits (fun _ => True) (JPEGFW_PutC c) [c].
Proof.
  intros Hc s. exists (Ok tt), [(8, c)], (S (polls s)). unfold JPEGFW_PutC, put. rewrite u8_small by done.
  split_and!; auto. constructor; [by left|constructor].
Qed.
Lemma emits_W v : 0 <= v < 2 ^ 16 -> emits (fun _ => True) (JPEGFW_PutW v) (be16 v).
Proof.
  intros Hc s. exists (Ok tt), [(16, v)], (S (polls s)). unfold JPEGFW_PutW, put. rewrite u16_small by done.
  split_and!; auto. constructor; [by right|constructor].
Qed.

(** Sequencing without results. *)
Lemma emits_seq {A B} R (m : E A) (n : E B) b1 b2 :
  emits (fun _ => True) m b1 -> emits R n b2 -> emits R (m ;; n) (b1 ++ b2).
Proof. intros Hm Hn. by eapply emits_bind. Qed.

Lemma emits_poll_seq {B} R (n : E B) b : emits R n b -> emits R (poll ready ;; n) b.
Proof. apply (emits_seq R (poll ready) n [] b), emits_poll. Qed.

Lemma emits_marker c : is_byte c -> emits (fun _ => True) (PutMarker c) [0xff; c].
Proof. intros Hc. apply (emits_seq _ _ _ [0xff] [c]); by apply emits_C. Qed.

Lemma emits_range l idx i n :
  bytes l -> (forall k, (i <= k < i + n)%nat -> (idx k < length l)%nat) ->
  emits (fun _ => True) (put_range l idx i n) ((fun k => nth (idx k) l 0) <$> seq i n).
Proof.
  intros Hl. revert i. induction n as [|n IH]; intros i Hi; cbn [put_range seq fmap list_fmap]; [by apply emits_ret|].
  destruct (lookup_lt_is_Some_2 l (idx i)) as [c Hc]; [apply Hi; lia|].
  apply emits_rd with c; [done|]. rewrite (nth_lookup_Some _ _ _ _ Hc).
  apply (emits_seq _ _ _ [c]); [apply emits_C; by eapply Forall_lookup_1|]. apply IH. intros k Hk. apply Hi. lia.
Qed.

Lemma map_nth_seq (l : list Z) i n :
  (i + n <= length l)%nat -> (fun k => nth k l 0) <$> seq i n = take n (drop i l).
Proof.
  intros H. apply list_eq. intros j. rewrite list_lookup_fmap. destruct (decide (j < n)%nat).
  - rewrite lookup_seq_lt by done. rewrite lookup_take_lt, lookup_drop by done. simpl.
    destruct (lookup_lt_is_Some_2 l (i + j)) as [c Hc]; [lia|]. by rewrite (nth_lookup_Some _ _ _ _ Hc).
  - rewrite lookup_seq_ge by lia. by rewrite lookup_take_ge by lia.
Qed.

Lemma emits_take l i n :
  bytes l -> (i + n <= length l)%nat ->
  emits (fun _ => True) (put_range l (fun k => k) i n) (take n (drop i l)).
Proof. intros Hl Hi. rewrite <- map_nth_seq by done. apply emits_range; [done|]. intros; lia. Qed.

Lemma emits_blocks l m i :
  bytes l -> (i + 32 * m <= length l)%nat ->
  emits (fun _ => True) (put_blocks ready l m i) (take (32 * m) (drop i l)).
Proof.
  intros Hl. revert i. induction m as [|m IH]; intros i Hi; cbn [put_blocks]; [by apply emits_ret|].
  apply emits_poll_seq.
  replace (32 * S m)%nat with (32 + 32 * m)%nat by lia. rewrite <- take_take_drop, drop_drop.
  apply emits_seq; [apply emits_take; [done|lia]|]. apply IH. lia.
Qed.

Ltac emit :=
  lazymatch goal with
  | |- emits _ (PutMarker _) _ => apply emits_marker; byte_const
  | |- emits _ (poll _) _ => apply emits_poll
  | |- emits _ (JPEGFW_PutC _) _ => apply emits_C; unfold is_byte; lia
  | |- emits _ (JPEGFW_PutW _) _ => apply emits_W; lia
  | |- emits _ (_ ≫= _) _ => apply emits_seq
  end.

(** Reassociation of an expected byte list to follow the writes. *)
Lemma emits_eq {A} (Q : A -> Prop) m b b' : emits Q m b' -> b = b' -> emits Q m b.
Proof. by intros ? ->. Qed.

Lemma emits_APP0 : emits (fun _ => True) (PutAPP0 ready) app0_bytes.
Proof. eapply emits_eq; [unfold PutAPP0; repeat emit|reflexivity]. Qed.

Lemma emits_one_quant e i q :
  e_quant_tbl e !! i = Some q -> length q = 64%nat -> bytes q -> (i < 256)%nat ->
  emits (fun _ => True) (put_one_quant ready e i) (dqt_bytes (Z.of_nat i) q).
Proof.
  intros Hq Hl Hb Hi. assert (Hz : forall k, (k < 64)%nat -> (zigzag k < length q)%nat).
  { intros k Hk. rewrite Hl.
    assert (H := forall_below (fun z => Nat.ltb (zigzag (Z.to_nat z)) 64) 64 ltac:(vm_compute; reflexivity) (Z.of_nat k) ltac:(lia)).
    cbn beta in H. rewrite Nat2Z.id in H. by apply Nat.ltb_lt in H. }
  unfold put_one_quant, dqt_bytes, zigzagged. change (seq 0 64) with (seq 0 32 ++ seq 32 32). rewrite fmap_app.
  eapply emits_eq.
  - do 4 (apply emits_seq; [emit|]). eapply emits_rd; [done|]. emit; [emit|]. emit; [apply emits_range; [done|]; intros; apply Hz; lia|].
    emit; [emit|]. apply emits_range; [done|]; intros; apply Hz; lia.
  - reflexivity.
Qed.

Lemma emits_huff id h :
  is_byte id -> bytes (bits h) -> bytes (huffval h) -> length (bits h) = 17%nat ->
  (Z.to_nat (sum_bits (bits h)) <= length (huffval h))%nat -> 0 <= sum_bits (bits h) <= 256 ->
  emits (fun _ => True) (PutOneHuffTbl ready id (bits h) (huffval h)) (dht_bytes id h).
Proof.
  intros Hid Hb Hv Hl Hs Hc. unfold PutOneHuffTbl, dht_bytes. set (c := sum_bits (bits h)) in *.
  assert (Hdm : (32 * Z.to_nat (c / 32) + Z.to_nat (c mod 32) = Z.to_nat c)%nat) by zlia.
  eapply emits_eq.
  - do 3 (apply emits_seq; [emit|]). apply emits_seq; [by apply emits_C|].
    apply emits_seq; [apply emits_take; [done|lia]|].
    apply emits_seq; [apply emits_blocks; [done|lia]|]. emit; [emit|]. apply emits_take; [done|lia].
  - rewrite drop_0. simpl app. rewrite <- Hdm, <- take_take_drop. reflexivity.
Qed.

Lemma emits_SOF0 e hr vr :
  0 <= e_height e < 2 ^ 16 -> 0 <= e_width e < 2 ^ 16 ->
  ratio e = [MkRatio hr vr; MkRatio 1 1; MkRatio 1 1] -> is_byte (Z.lor (Z.shiftl hr 4) vr) ->
  map quant_tbl_id (e_tbl_map e) = [0; 1; 1] ->
  emits (fun _ => True) (PutSOF0 ready e) (sof_bytes (e_height e) (e_width e) (Z.lor (Z.shiftl hr 4) vr)).
Proof.
  intros Hh Hw Hr Hb Ht. destruct (e_tbl_map e) as [|t0 [|t1 [|t2 [|]]]] eqn:Em; try discriminate Ht.
  injection Ht as E0 E1 E2. unfold PutSOF0, sof_bytes, put_sof_component. rewrite Hr, Em.
  eapply emits_eq.
  - do 7 (apply emits_seq; [emit|]).
    apply emits_seq; [|apply emits_seq];
      (eapply emits_rd; [reflexivity|]; eapply emits_rd; [reflexivity|]; rewrite ?E0, ?E1, ?E2;
       do 2 (apply emits_seq; [apply emits_C; first [exact Hb|byte_const]|]); apply emits_C; byte_const).
  - reflexivity.
Qed.

Lemma puts_SOS e :
  e_tbl_map e = [MkTblMap 0 0 0; MkTblMap 1 1 1; MkTblMap 1 1 1] ->
  emits (fun _ => True) (PutMarker M_SOS ;; JPEGFW_PutW (2 * 3 + 2 + 1 + 3) ;; JPEGFW_PutC 3 ;;
    put_sos_component e 0 ;; put_sos_component e 1 ;; put_sos_component e 2 ;;
    JPEGFW_PutC 0 ;; JPEGFW_PutC 63 ;; JPEGFW_PutC 0) sos_bytes.
Proof.
  intros Em. unfold sos_bytes, put_sos_component. rewrite Em. eapply emits_eq.
  - do 3 (apply emits_seq; [emit|]).
    do 3 (apply emits_seq; [eapply emits_rd; [reflexivity|]; apply emits_seq; apply emits_C; byte_const|]). repeat emit.
  - reflexivity.
Qed.

Lemma emits_DRI e : 0 <= e_restart_interval e < 2 ^ 16 ->
  emits (fun _ => True) (WriteDRI ready e) (dri_bytes (e_restart_interval e)).
Proof.
  intros Hr. unfold WriteDRI, dri_bytes. apply emits_poll_seq.
  destruct (_ =? 0); [by apply emits_ret|]. eapply emits_eq; [repeat emit|reflexivity].
Qed.
End Emits.

(** A writer that fails has sent less than all its bytes: each time-out that
    is looked at comes before bytes still to be sent. *)
Definition stops_short {A} (m : E A) (bs : list Z) : Prop :=
  forall s s', m s = (Failed, s') -> exists w, writes s' = writes s ++ w /\ (length (ref_out w) < length bs)%nat.
Definition emits_short (ready : nat -> bool) {A} (m : E A) (bs : list Z) : Prop :=
  emits ready (fun _ => True) m bs /\ stops_short m bs /\ bs <> [].

Section Short.
Context (ready : nat -> bool).

Lemma short_seq {A B} (m : E A) (n : E B) b1 b2 :
  emits ready (fun _ => True) m b1 -> emits_short ready n b2 -> emits_short ready (m ;; n) (b1 ++ b2).
Proof.
  intros Hm (Hn & Hs & Hne). split_and!; [by apply emits_seq| |by destruct b1].
  intros s s' E. destruct (Hm s) as (r & w & k & Em & _ & Hp & Hr). unfold mbind, E_bind in E. rewrite Em in E.
  destruct r as [a| | |]; try done.
  - destruct (Hs _ _ E) as (w' & Ew & Hl). exists (w ++ w'). simpl in Ew. rewrite Ew, app_assoc. split; [done|].
    unfold ref_out. rewrite flat_map_app. fold (ref_out w) (ref_out w'). rewrite (proj1 Hr), !length_app. lia.
  - injection E as <-. exists w. split; [done|]. apply prefix_length in Hp. rewrite length_app.
    destruct b2; [done|simpl; lia].
Qed.

(** Of a sequence of puts only the poll in front can fail. *)
Lemma short_poll {B} (n : E B) b :
  (forall r, emits r (fun _ => True) n b) -> b <> [] -> emits_short ready (poll ready ;; n) b.
Proof.
  intros Hn Hne. split_and!; [by apply emits_poll_seq| |done].
  intros s s' E. unfold mbind, E_bind, poll in E. destruct (ready (polls s)).
  - destruct (Hn (fun _ => true) (MkBsm (writes s) (S (polls s)))) as (r & w & k & Er & _ & _ & Hr). rewrite Er in E.
    destruct r; try done. by destruct Hr.
  - injection E as <-. exists []. rewrite app_nil_r. split; [done|]. destruct b; [done|simpl; lia].
Qed.

Lemma short_poll_seq {B} (n : E B) b : emits_short ready n b -> emits_short ready (poll ready ;; n) b.
Proof. apply (short_seq (poll ready) n [] b), emits_poll. Qed.
End Short.

(** ** The encoder after its initialisation *)
Record enc_wf (e : jenc) (hr vr : Z) (ql qc : list Z) : Prop := {
  ew_height : 0 <= e_height e < 2 ^ 16;
  ew_width : 0 <= e_width e < 2 ^ 16;
  ew_ratio : ratio e = [MkRatio hr vr; MkRatio 1 1; MkRatio 1 1];
  ew_format : (e_mcu_info e = JPEG_FW_YUV420 /\ hr = 2 /\ vr = 2) \/ (e_mcu_info e = JPEG_FW_YUV422 /\ hr = 2 /\ vr = 1);
  ew_map : e_tbl_map e = [MkTblMap 0 0 0; MkTblMap 1 1 1; MkTblMap 1 1 1];
  ew_dc : e_dc_huff e = [lum_dc; chr_dc; null_huff; null_huff];
  ew_ac : e_ac_huff e = [lum_ac; chr_ac; null_huff; null_huff];
  ew_quant : e_quant_tbl e = [ql; qc; []];
  ew_ql : length ql = 64%nat /\ bytes ql;
  ew_qc : length qc = 64%nat /\ bytes qc }.

(** Constant tables are checked by evaluation. *)
Definition bytesb (l : list Z) : bool := forallb (fun b => (0 <=? b) && (b <? 256)) l.
Lemma bytesb_spec l : bytesb l = true -> bytes l.
Proof.
  unfold bytesb. rewrite forallb_forall. intros H. apply List.Forall_forall. intros x Hx.
  apply H in Hx. unfold is_byte. lia.
Qed.

Definition table_ok (t : list Z) : bool := Nat.eqb (length t) 64 && bytesb t.
Lemma table_ok_spec t : table_ok t = true -> length t = 64%nat /\ bytes t.
Proof. unfold table_ok. rewrite andb_true_iff, Nat.eqb_eq. intros [H1 H2]. auto using bytesb_spec. Qed.

Lemma quant_tables_ok i t :
  jpeg_fw_lum_quant_tbl_default !! i = Some t \/ jpeg_fw_chr_quant_tbl_default !! i = Some t ->
  length t = 64%nat /\ bytes t.
Proof.
  intros H. apply table_ok_spec.
  assert (F : Forall (fun t => table_ok t = true) (jpeg_fw_lum_quant_tbl_default ++ jpeg_fw_chr_quant_tbl_default)).
  { apply List.Forall_forall. apply forallb_forall. vm_compute. reflexivity. }
  apply Forall_app in F as [F1 F2]. destruct H as [H|H]; [apply (Forall_lookup_1 _ _ _ _ F1 H)|apply (Forall_lookup_1 _ _ _ _ F2 H)].
Qed.

Lemma enc_init_wf p e0 ws e :
  JPEG_HWEncInit p e0 = (Ok ws, e) ->
  exists hr vr ql qc, enc_wf e hr vr ql qc /\
    e_height e = u16 (p_height p) /\ e_width e = u16 (p_width p) /\
    e_mcu_info e = u8 (mcu_info_0 p) /\ e_restart_interval e = p_restart_interval p /\
    jpeg_fw_lum_quant_tbl_default !! Z.to_nat (p_quant_level p) = Some ql /\
    jpeg_fw_chr_quant_tbl_default !! Z.to_nat (p_quant_level p) = Some qc.
Proof.
  unfold JPEG_HWEncInit. destruct (JpegEnc_InitParam p e0) as [ok e1] eqn:Ei. destruct ok; [|discriminate]. simpl negb. cbn iota.
  set (e2 := set_e_tbl_map _ e1). destruct (JpegEnc_QTableCfg e2) as [[e3 w3]|] eqn:Eq; [|discriminate]. intros [= <- <-].
  revert Eq. unfold JpegEnc_QTableCfg.
  destruct (jpeg_fw_lum_quant_tbl_default !! _) as [ql|] eqn:E1; [|discriminate].
  destruct (jpeg_fw_chr_quant_tbl_default !! _) as [qc|] eqn:E2; [|discriminate]. cbn [mbind option_bind].
  destruct (jpeg_fw_new_lum_quant_tbl_default !! _) as [nl|]; [|discriminate].
  destruct (jpeg_fw_new_chr_quant_tbl_default !! _) as [nc|]; [|discriminate].
  destruct (jpeg_fw_new_lum_quant_tbl_default_shift !! _) as [sl|]; [|discriminate].
  destruct (jpeg_fw_new_chr_quant_tbl_default_shift !! _) as [sc|]; [|discriminate]. cbn [mbind option_bind].
  destruct (q_words nl sl) as [wl|]; [|discriminate]. destruct (q_words nc sc) as [wc|]; [|discriminate]. cbn [mbind option_bind].
  intros [= <- _]. revert Ei. unfold JpegEnc_InitParam. 
  do 3 (match goal with |- (if ?b then _ else _) = _ -> _ => destruct b; [discriminate|] end).
  destruct (Z.eqb_spec (u8 (mcu_info_0 p)) JPEG_FW_YUV420) as [Em|];
    [|destruct (Z.eqb_spec (u8 (mcu_info_0 p)) JPEG_FW_YUV422) as [Em|]; [|discriminate]]; intros [= <-];
    unfold e2 in *; cbn -[jpeg_fw_lum_quant_tbl_default jpeg_fw_chr_quant_tbl_default u8 u16 lookup] in E1, E2 |- *.
  - exists 2, 2, ql, qc. split_and!; auto. constructor; cbn -[u8 u16]; eauto using quant_tables_ok; apply u16_range.
  - exists 2, 1, ql, qc. split_and!; auto. constructor; cbn -[u8 u16]; eauto using quant_tables_ok; apply u16_range.
Qed.

Section Write.
Context (ready : nat -> bool).

Definition huff_okb (h : HUFF_TBL_T) : bool :=
  bytesb (bits h) && bytesb (huffval h) && Nat.eqb (length (bits h)) 17 &&
  (sum_bits (bits h) <=? zlen (huffval h)) && (0 <=? sum_bits (bits h)) && (sum_bits (bits h) <=? 256).

Lemma emits_huffb id h :
  is_byte id -> huff_okb h = true ->
  emits ready (fun _ => True) (PutOneHuffTbl ready id (bits h) (huffval h)) (dht_bytes id h).
Proof.
  unfold huff_okb. rewrite !andb_true_iff, Nat.eqb_eq. intros Hid (((((H1 & H2) & H3) & H4) & H5) & H6).
  apply emits_huff; auto using bytesb_spec; lia.
Qed.

(** The writer sends [head_bytes]; when it fails, the SOS segment at least is
    missing. *)
Lemma emits_head e hr vr ql qc :
  enc_wf e hr vr ql qc -> 0 <= e_restart_interval e < 2 ^ 16 ->
  emits_short ready (JPEG_HWWriteHead ready e)
    (head_bytes (e_height e) (e_width e) (Z.lor (Z.shiftl hr 4) vr) ql qc (e_restart_interval e)).
Proof.
  intros [] Hri. unfold JPEG_HWWriteHead, head_bytes. apply short_poll_seq.
  apply short_seq; [apply emits_marker; byte_const|]. apply short_seq; [apply emits_APP0|].
  apply short_seq.
  { unfold PutQuantTbl. destruct ew_ql0, ew_qc0.
    apply emits_seq; (eapply emits_one_quant; [rewrite ew_quant0; reflexivity|done|done|lia]). }
  apply short_seq.
  { apply emits_SOF0; auto; [|by rewrite ew_map0]. destruct ew_format0 as [(_ & -> & ->)|(_ & -> & ->)]; byte_const. }
  apply short_seq; [|apply short_seq; [by apply emits_DRI|apply short_poll; [|done]; intros; by apply puts_SOS]].
  unfold PutHuffTbl. rewrite ew_dc0, ew_ac0. do 4 (eapply emits_rd; [reflexivity|]).
  do 3 (apply emits_seq; [apply emits_huffb; [byte_const|vm_compute; reflexivity]|]).
  apply emits_huffb; [byte_const|vm_compute; reflexivity].
Qed.
End Write.

(** ** The decoder on the header's segments *)
Lemma alter_known {A} (f : A -> A) (l : list A) i x : l !! i = Some x -> alter f i l = <[i := f x]> l.
Proof.
  intros H. rewrite list_insert_alter. apply list_alter_ext; [|done]. intros y Hy. by rewrite H in Hy; simplify_eq.
Qed.

Lemma exec_marker fuel c s l :
  c <> 0 -> c <> 0xff -> exec (GetNextMarker (S fuel)) s (0xff :: c :: l) = (Ok c, s, l).
Proof.
  intros H0 Hf. unfold GetNextMarker. cbn [next_marker skip_to_ff skip_ffs]. exec_step. rewrite Z.eqb_refl. exec_step.
  rewrite (proj2 (Z.eqb_neq c 0xff)) by done. exec_step. by rewrite (proj2 (Z.eqb_neq c 0)).
Qed.

(** A segment that parses takes the loop to the next one. *)
Lemma exec_tables_step fuel n c s l s' l' :
  c ∉ [0; 0xff; M_SOI; M_EOI; M_SOS] -> exec (segment c) s l = (Ok tt, s', l') ->
  exec (process_tables (S fuel) (S n)) s (0xff :: c :: l) = exec (process_tables (S fuel) n) s' l'.
Proof.
  intros Hc Hs. rewrite !not_elem_of_cons in Hc. destruct Hc as (? & ? & ? & ? & ? & _).
  cbn [process_tables]. rewrite exec_bind, exec_marker by done.
  rewrite !(proj2 (Z.eqb_neq c _)) by done. cbn [orb]. rewrite exec_bind, Hs. reflexivity.
Qed.

Lemma exec_APP0 s l : exec (segment M_APP0) s (be16 16 ++ [0x4a; 0x46; 0x49; 0x46; 0; 1; 1; 0] ++ be16 1 ++ be16 1 ++ [0; 0] ++ l) = (Ok tt, s, l).
Proof. reflexivity. Qed.

Lemma exec_DRI ri s l :
  0 <= ri < 2 ^ 16 -> exec (segment M_DRI) s (be16 4 ++ be16 ri ++ l) =
    (Ok tt, set_next_restart_num 0 (set_restart_to_go ri (set_restart_interval ri s)), l).
Proof.
  intros H. change (segment M_DRI) with GetDRI. unfold GetDRI. rewrite exec_bind, exec_short by lia. cbn iota.
  exec_step. rewrite exec_short by done. by exec_step.
Qed.

(** Storing the entries of [q] along the zigzag. *)
Definition fold_zz (q t : list Z) (ks : list nat) : list Z :=
  foldl (fun t k => <[zigzag k := nth (zigzag k) q 0]> t) t ks.

Lemma fold_zz_lookup q t ks i :
  length t = length q ->
  fold_zz q t ks !! i = if decide (i ∈ zigzag <$> ks) then q !! i else t !! i.
Proof.
  revert t. induction ks as [|k ks IH]; intros t Hl; [done|]. cbn [fold_zz foldl]. fold (fold_zz q (<[zigzag k := nth (zigzag k) q 0]> t) ks).
  rewrite IH by (by rewrite length_insert). rewrite fmap_cons.
  destruct (decide (i ∈ zigzag <$> ks)) as [Hi|Hi].
  - rewrite decide_True; [done|]. by right.
  - destruct (decide (i = zigzag k)) as [->|Hne].
    + rewrite decide_True by left. destruct (decide (zigzag k < length q)%nat).
      * rewrite list_lookup_insert_eq by lia. destruct (lookup_lt_is_Some_2 q (zigzag k)) as [c Hc]; [done|].
        by rewrite Hc, (nth_lookup_Some _ _ _ _ Hc).
      * rewrite !lookup_ge_None_2; [done|lia|rewrite length_insert; lia].
    + rewrite list_lookup_insert_ne by done. rewrite decide_False; [done|]. rewrite not_elem_of_cons. done.
Qed.

Lemma zigzag_all i : (i < 64)%nat -> i ∈ zigzag <$> seq 0 64.
Proof.
  intros Hi. assert (H : forallb (fun z => bool_decide (Z.to_nat z ∈ zigzag <$> seq 0 64)) (seqZ 0 64) = true) by (vm_compute; reflexivity).
  pose proof (forall_below _ _ H (Z.of_nat i) ltac:(lia)) as E. cbn beta in E. rewrite Nat2Z.id in E. by apply bool_decide_eq_true in E.
Qed.

Lemma fold_zz_all q t : length q = 64%nat -> length t = 64%nat -> fold_zz q t (seq 0 64) = q.
Proof.
  intros Hq Ht. apply list_eq. intros i. rewrite fold_zz_lookup by lia. destruct (decide (i < 64)%nat).
  - by rewrite decide_True by (by apply zigzag_all).
  - rewrite !lookup_ge_None_2 by lia. by destruct (decide _).
Qed.

Lemma exec_read_quant q tbl n j s t l :
  bytes q -> quant_tbl s !! tbl = Some (Some t) -> (forall k, (zigzag k < 64)%nat) -> length q = 64%nat ->
  exec (read_quant false tbl n j) s (((fun k => nth (zigzag k) q 0) <$> seq j n) ++ l) =
    (Ok tt, set_quant_tbl (<[tbl := Some (fold_zz q t (seq j n))]> (quant_tbl s)) s, l).
Proof.
  intros Hq. revert j s t. induction n as [|n IH]; intros j s t Ht Hz Hl; cbn [read_quant].
  - simpl. rewrite exec_ret. unfold fold_zz. simpl. rewrite list_insert_id by done. by destruct s.
  - cbn [seq]. rewrite fmap_cons. cbn [app]. exec_step.
    assert (Hc : is_byte (nth (zigzag j) q 0)). { apply Forall_nth; [done|]. rewrite Hl. apply Hz. }
    rewrite u8_small by done. rewrite (alter_known _ _ _ _ Ht). cbn [fmap option_fmap option_map].
    rewrite (IH (S j) _ (<[zigzag j := nth (zigzag j) q 0]> t)); auto.
    + cbn. rewrite list_insert_insert_eq. reflexivity.
    + cbn. apply list_lookup_insert_eq. by eapply lookup_lt_Some.
Qed.

Lemma zigzag_lt k : (zigzag k < 64)%nat.
Proof.
  assert (F : Forall (fun z => 0 <= z < 64) jpeg_fw_zigzag_order) by (repeat (constructor; [lia|]); constructor).
  unfold zigzag. destruct (decide (k < length jpeg_fw_zigzag_order)%nat).
  - destruct (lookup_lt_is_Some_2 jpeg_fw_zigzag_order k) as [z Hz]; [done|].
    rewrite (nth_lookup_Some _ _ _ _ Hz). apply (Forall_lookup_1 _ _ _ _ F) in Hz. lia.
  - rewrite nth_overflow by lia. lia.
Qed.

(** The state after a table, and the pool it needs. *)
Definition after_dqt (i : nat) (q : list Z) (s : jdec) : jdec :=
  set_quant_tbl (<[i := Some q]> (quant_tbl s))
    (set_s_used_extra_mem (s_used_extra_mem s + 64) (set_using_default_quant_tab false s)).

Definition room (n : Z) (s : jdec) : Prop :=
  0 <= s_used_extra_mem s /\ s_used_extra_mem s + n <= s_extra_mem_size s < 2 ^ 32.

Lemma exec_quant_table i q s l :
  (i < 2)%nat -> length q = 64%nat -> bytes q -> room 64 s -> length (quant_tbl s) = 3%nat ->
  exec quant_table s (Z.of_nat i :: zigzagged q ++ l) =
    (Ok (Z.of_nat i, 0), set_quant_tbl (<[i := Some q]> (quant_tbl s))
                           (set_s_used_extra_mem (s_used_extra_mem s + 64) s), l).
Proof.
  intros Hi Hq Hb [Hr1 Hr2] Hl. unfold quant_table, zigzagged.
  assert (Ei : Z.shiftr (Z.of_nat i) 4 = 0 /\ Z.land (Z.of_nat i) 0x0f = Z.of_nat i) by (destruct i as [|[|]]; [done..|lia]).
  destruct Ei as [E1 E2]. exec_step. rewrite E1, E2. rewrite (proj2 (Z.leb_le _ _)) by lia. exec_step.
  rewrite (exec_alloc 64 s _ 64) by first [reflexivity | lia]. exec_step. rewrite Z.eqb_refl, Nat2Z.id. cbn [negb].
  set (s1 := set_quant_tbl _ _). rewrite (exec_read_quant q i 64 0 s1 (replicate 64 0)).
  - rewrite fold_zz_all by done. exec_step. unfold s1. cbn -[replicate]. by rewrite list_insert_insert_eq.
  - done.
  - unfold s1. cbn -[replicate]. apply list_lookup_insert_eq. lia.
  - apply zigzag_lt.
  - done.
Qed.

Lemma exec_DQT i q s l :
  (i < 2)%nat -> length q = 64%nat -> bytes q -> room 64 s -> length (quant_tbl s) = 3%nat ->
  exec (segment M_DQT) s (be16 67 ++ [Z.of_nat i] ++ zigzagged q ++ l) = (Ok tt, after_dqt i q s, l).
Proof.
  intros Hi Hq Hb Hr Hl. change (segment M_DQT) with GetQuantTbl. unfold GetQuantTbl. exec_step.
  rewrite exec_short by lia. exec_step. change (Z.to_nat (67 - 2)) with (S 64). change (67 - 2) with 65.
  cbn [quant_loop app]. change (65 =? 0) with false. cbn iota. rewrite exec_bind.
  rewrite (exec_quant_table i q) by done. exec_step. change (65 - (64 + 1 + 64 * 0)) with 0. cbn [quant_loop].
  rewrite Z.eqb_refl. exec_step. cbn [orb]. rewrite (proj2 (Z.ltb_ge _ _)) by lia. exec_step. reflexivity.
Qed.

(** Frame header. *)
Definition after_sof (height width hv : Z) (fmt : Z) (s : jdec) : jdec :=
  let h := Z.land (Z.shiftr hv 4) 0x0f in
  let v := Z.land hv 0x0f in
  set_input_mcu_info fmt
   (set_tbl_map (zip_with (fun t q => MkTblMap (dc_huff_tbl_id t) (ac_huff_tbl_id t) q) (tbl_map s) [0; 1; 1])
    (set_comp_info [MkComp 1 0 h v h v; MkComp 2 1 1 1 1 1; MkComp 3 2 1 1 1 1]
     (set_s_used_extra_mem (s_used_extra_mem s + 48)
      (set_num_components 3
       (set_input_width width (set_input_height height (set_progressive_mode false s))))))).

Lemma exec_SOF height width hv fmt s l :
  0 <= height < 2 ^ 16 -> 0 <= width < 2 ^ 16 -> (hv = 0x22 /\ fmt = JPEG_FW_YUV420) \/ (hv = 0x21 /\ fmt = JPEG_FW_YUV422) ->
  room 48 s -> length (tbl_map s) = 3%nat ->
  exec (segment M_SOF0) s (be16 17 ++ [8] ++ be16 height ++ be16 width ++ [3; 1; hv; 0; 2; 0x11; 1; 3; 0x11; 1] ++ l) =
    (Ok tt, after_sof height width hv fmt s, l).
Proof.
  intros Hh Hw Hv [Hr1 Hr2] Hl. change (segment M_SOF0) with (GetSOF false). unfold GetSOF. exec_step.
  rewrite exec_short by lia. exec_step. cbn [app]. exec_step. rewrite exec_short by done. exec_step.
  rewrite exec_short by done. exec_step. cbn [app]. exec_step. change (17 =? 3 * 3 + 8) with true. exec_step.
  match goal with |- context [exec (JpegDec_ExtraMemAlloc _) ?s0 _] => rewrite (exec_alloc _ s0 _ 48) by first [reflexivity | cbn; lia] end.
  exec_step. destruct s as [? ? ? tm]. cbn in Hl. destruct tm as [|t0 [|t1 [|t2 [|]]]]; try discriminate Hl.
  destruct Hv as [[-> ->]|[-> ->]]; vm_compute; reflexivity.
Qed.

(** Huffman tables. *)
Definition htab (ac : bool) (s : jdec) : list HUFF_TBL_T := if ac then ac_huff_tbl s else dc_huff_tbl s.
Definition put_htab (ac : bool) (idx : nat) (t : HUFF_TBL_T) (s : jdec) : jdec :=
  if ac then set_ac_huff_tbl (<[idx := t]> (ac_huff_tbl s)) s else set_dc_huff_tbl (<[idx := t]> (dc_huff_tbl s)) s.

Lemma exec_upd_huff ac idx f t s l :
  htab ac s !! idx = Some t -> exec (upd_huff ac idx f) s l = (Ok tt, put_htab ac idx (f t) s, l).
Proof. intros H. unfold upd_huff. exec_step. destruct ac; simpl in *; by rewrite (alter_known _ _ _ _ H). Qed.

Lemma htab_put ac idx t s : (idx < length (htab ac s))%nat -> htab ac (put_htab ac idx t s) !! idx = Some t.
Proof. intros H. destruct ac; simpl in *; by apply list_lookup_insert_eq. Qed.
Lemma htab_put_length ac idx t s : length (htab ac (put_htab ac idx t s)) = length (htab ac s).
Proof. destruct ac; simpl; apply length_insert. Qed.
Lemma put_htab_put ac idx t u s : put_htab ac idx t (put_htab ac idx u s) = put_htab ac idx t s.
Proof. destruct ac; unfold put_htab; cbn; by rewrite list_insert_insert_eq. Qed.

Lemma splice_insert m i c vs :
  (i + S (length vs) <= length m)%nat -> splice (<[i := c]> m) (S i) vs = splice m i (c :: vs).
Proof.
  intros H. replace (<[i := c]> m) with (splice m i [c]).
  - replace (S i) with (i + length [c])%nat by (simpl; lia). rewrite splice_app by (simpl; lia). done.
  - unfold splice. rewrite insert_take_drop by lia. simpl. do 3 f_equal. lia.
Qed.

Lemma exec_compare d i c s l : d !! i = Some c -> exec (compare_default d i c) s l = (Ok tt, s, l).
Proof. intros H. unfold compare_default. by rewrite H, Z.eqb_refl. Qed.

Lemma exec_read_bits ac idx n i count s t vs l :
  htab ac s !! idx = Some t -> length vs = n -> (i + n <= length (bits t))%nat ->
  (forall k c, vs !! k = Some c -> default_bits ac idx !! (i + k)%nat = Some c) ->
  exec (read_bits ac idx n i count) s (vs ++ l) =
    (Ok (foldl (fun c b => u16 (c + b)) count vs),
     put_htab ac idx (MkHuff (splice (bits t) i vs) (huffval t)) s, l).
Proof.
  revert i count s t vs. induction n as [|n IH]; intros i count s t vs Ht Hn Hi Hd; destruct vs as [|c vs]; try discriminate Hn.
  - cbn [read_bits app foldl]. rewrite exec_ret, splice_nil by lia. destruct t. unfold put_htab.
    destruct ac; simpl in *; rewrite list_insert_id by done; by destruct s.
  - cbn [read_bits app foldl]. exec_step. rewrite (exec_upd_huff _ _ _ _ _ _ Ht). exec_step.
    rewrite exec_compare by (rewrite <- (Nat.add_0_r i); by apply Hd). cbn iota.
    assert (Hlen : (idx < length (htab ac s))%nat) by (by eapply lookup_lt_Some).
    rewrite (IH (S i) _ _ (MkHuff (<[i := c]> (bits t)) (huffval t)) vs).
    + cbn [bits huffval]. rewrite put_htab_put, splice_insert by (simpl in *; lia). done.
    + by apply htab_put.
    + simpl in *. lia.
    + cbn [bits]. rewrite length_insert. simpl in *. lia.
    + intros k d Hk. replace (S i + k)%nat with (i + S k)%nat by lia. by apply Hd.
Qed.

Lemma exec_read_huffval ac idx n i s t vs l :
  htab ac s !! idx = Some t -> length vs = n -> (i + n <= length (huffval t))%nat ->
  (forall k c, vs !! k = Some c -> default_huffval ac idx !! (i + k)%nat = Some c) ->
  exec (read_huffval ac idx n i) s (vs ++ l) =
    (Ok tt, put_htab ac idx (MkHuff (bits t) (splice (huffval t) i vs)) s, l).
Proof.
  revert i s t vs. induction n as [|n IH]; intros i s t vs Ht Hn Hi Hd; destruct vs as [|c vs]; try discriminate Hn.
  - cbn [read_huffval app]. rewrite exec_ret, splice_nil by lia. destruct t. unfold put_htab.
    destruct ac; simpl in *; rewrite list_insert_id by done; by destruct s.
  - cbn [read_huffval app]. exec_step. rewrite (exec_upd_huff _ _ _ _ _ _ Ht). exec_step.
    rewrite exec_compare by (rewrite <- (Nat.add_0_r i); by apply Hd). cbn iota.
    assert (Hlen : (idx < length (htab ac s))%nat) by (by eapply lookup_lt_Some).
    rewrite (IH (S i) _ (MkHuff (bits t) (<[i := c]> (huffval t))) vs).
    + cbn [bits huffval]. rewrite put_htab_put, splice_insert by (simpl in *; lia). done.
    + by apply htab_put.
    + simpl in *. lia.
    + cbn [huffval]. rewrite length_insert. simpl in *. lia.
    + intros k d Hk. replace (S i + k)%nat with (i + S k)%nat by lia. by apply Hd.
Qed.

(** The tables the decoder ends up with: the symbols, followed by the zeroes of
    the fresh memory. *)
Definition decoded (h : HUFF_TBL_T) : HUFF_TBL_T :=
  MkHuff (bits h) (splice (replicate 257 0) 0 (take (Z.to_nat (sum_bits (bits h))) (huffval h))).

(** Table [id] of a segment names the table [idx] of class [ac]. *)
Definition names (id : Z) (ac : bool) (idx : nat) : Prop :=
  let index := Z.land id 0x13 in
  negb (Z.land index 0x10 =? 0) = ac /\ Z.to_nat (if ac then index - 0x10 else index) = idx.

Definition default_huff (ac : bool) (idx : nat) : HUFF_TBL_T := MkHuff (default_bits ac idx) (default_huffval ac idx).

Lemma default_ok ac idx (h := default_huff ac idx) :
  huff_okb h = true /\ exists b, bits h = 0 :: b /\ length b = 16%nat.
Proof. unfold h. destruct ac, idx; (split; [vm_compute; reflexivity|eexists; split; reflexivity]). Qed.

Lemma exec_huff_table id ac idx s l (h := default_huff ac idx) :
  names id ac idx -> htab ac s !! idx = Some zero_huff ->
  exec huff_table s (id :: (take 16 (drop 1 (bits h)) ++ take (Z.to_nat (sum_bits (bits h))) (huffval h)) ++ l) =
    (Ok (sum_bits (bits h)), put_htab ac idx (decoded h) s, l).
Proof.
  intros [Hac Hidx] Ht. destruct (default_ok ac idx) as [Hok (b & Eb & Lb)]. fold h in Hok, Eb.
  unfold huff_okb in Hok. rewrite !andb_true_iff in Hok. destruct Hok as (((((_ & _) & _) & H4) & H5) & H6).
  assert (Hlen : (idx < length (htab ac s))%nat) by (by eapply lookup_lt_Some).
  unfold huff_table. exec_step. rewrite Hac, Hidx.
  rewrite (exec_upd_huff _ _ _ _ _ _ Ht). cbn iota. rewrite <- app_assoc.
  assert (E16 : take 16 (drop 1 (bits h)) = b) by (rewrite Eb; simpl; rewrite drop_0; apply take_ge; lia).
  rewrite exec_bind, (exec_read_bits ac idx 16 1 0 _ (MkHuff (<[0%nat := 0]> (bits zero_huff)) (huffval zero_huff))).
  2: by apply htab_put.
  2: by rewrite E16.
  2: cbn [bits zero_huff]; rewrite length_insert, length_replicate; reflexivity.
  2: { intros k c Hk. change (default_bits ac idx) with (bits h). rewrite E16 in Hk. by rewrite Eb. }
  change (foldl _ 0 (take 16 (drop 1 (bits h)))) with (sum_bits (bits h)). cbn iota. rewrite exec_bind, exec_check, H6. cbn iota.
  set (count := sum_bits (bits h)) in *. assert (Hl : length (take (Z.to_nat count) (huffval h)) = Z.to_nat count) by (rewrite length_take; lia).
  rewrite put_htab_put, exec_bind, (exec_read_huffval ac idx (Z.to_nat count) 0 _ (MkHuff (splice (<[0%nat:=0]> (bits zero_huff)) 1 (take 16 (drop 1 (bits h)))) (huffval zero_huff)) _ l).
  - exec_step. rewrite put_htab_put. unfold decoded. fold count. do 3 f_equal. cbn [bits huffval].
    rewrite E16, splice_insert by (unfold zero_huff; cbn [bits]; rewrite length_replicate, Lb; reflexivity). rewrite <- Eb.
    rewrite splice_0 by (rewrite Eb; unfold zero_huff; cbn [bits length]; rewrite length_replicate, Lb; done).
    rewrite drop_ge, app_nil_r; [done|]. rewrite Eb; unfold zero_huff; cbn [bits length]; rewrite length_replicate, Lb; done.
  - by apply htab_put.
  - done.
  - unfold zero_huff; cbn [huffval]. rewrite length_replicate. change (Z.to_nat (AC_SYMBOL_NUM + 1)) with 257%nat. lia.
  - intros k c Hk. change (default_huffval ac idx) with (huffval h). apply lookup_take_Some in Hk as [Hk _]. done.
Qed.

Lemma exec_huff_malloc n s l :
  room (560 * Z.of_nat n) s ->
  exec (huff_malloc n) s l = (Ok tt, set_s_used_extra_mem (s_used_extra_mem s + 560 * Z.of_nat n) s, l).
Proof.
  revert s. induction n as [|n IH]; intros s [H1 H2].
  - cbn [huff_malloc]. rewrite exec_ret. replace (s_used_extra_mem s + _) with (s_used_extra_mem s) by lia. by destruct s.
  - cbn [huff_malloc]. exec_step. rewrite (exec_alloc _ s _ 20) by first [reflexivity | lia]. cbn iota.
    rewrite exec_bind, (exec_alloc _ _ _ 260) by first [reflexivity | cbn; lia]. cbn iota.
    rewrite exec_bind, (exec_alloc _ _ _ 20) by first [reflexivity | cbn; lia]. cbn iota.
    rewrite exec_bind, (exec_alloc _ _ _ 260) by first [reflexivity | cbn; lia]. cbn iota.
    rewrite IH by (split; cbn; lia).
    match goal with |- (_, set_s_used_extra_mem ?x _, _) = (_, set_s_used_extra_mem ?y _, _) => replace x with y by (cbn; lia) end.
    reflexivity.
Qed.

Definition after_malloc (s : jdec) : jdec :=
  set_g_huff_tbl_malloced true
    (set_dc_huff_tbl (replicate NUM_HUFF_TBLS zero_huff) (set_ac_huff_tbl (replicate NUM_HUFF_TBLS zero_huff)
       (set_s_used_extra_mem (s_used_extra_mem s + 2240) s))).

(** The state a DHT segment starts from, once the tables are allocated. *)
Definition with_tables (s : jdec) : jdec := if g_huff_tbl_malloced s then s else after_malloc s.

Lemma exec_DHT id ac idx s l (h := default_huff ac idx) :
  names id ac idx -> (g_huff_tbl_malloced s = false -> room 2240 s) ->
  htab ac (with_tables s) !! idx = Some zero_huff ->
  exec (segment M_DHT) s
    (be16 (19 + sum_bits (bits h)) ++ [id] ++ (take 16 (drop 1 (bits h)) ++ take (Z.to_nat (sum_bits (bits h))) (huffval h)) ++ l) =
    (Ok tt, put_htab ac idx (decoded h) (with_tables s), l).
Proof.
  intros Hn Hroom Ht. change (segment M_DHT) with GetHuffTbl. unfold GetHuffTbl.
  destruct (default_ok ac idx) as [Hok _]. fold h in Hok. unfold huff_okb in Hok. rewrite !andb_true_iff in Hok.
  destruct Hok as (((((_ & _) & _) & _) & H5) & H6). set (count := sum_bits (bits h)) in *.
  assert (E : forall l', exec (if g_huff_tbl_malloced s then mret tt else
     huff_malloc NUM_HUFF_TBLS ;;
     modify (fun s => set_dc_huff_tbl (replicate NUM_HUFF_TBLS zero_huff) (set_ac_huff_tbl (replicate NUM_HUFF_TBLS zero_huff) s)) ;;
     modify (set_g_huff_tbl_malloced true)) s l' = (Ok tt, with_tables s, l')).
  { intros l'. unfold with_tables. destruct (g_huff_tbl_malloced s); [done|]. exec_step.
    rewrite exec_huff_malloc by (by apply Hroom). reflexivity. }
  rewrite exec_bind, exec_gets. cbn iota. rewrite exec_bind, E. cbn iota.
  rewrite exec_bind, exec_short by lia. cbn iota. rewrite exec_bind, exec_check, (proj2 (Z.leb_le _ _)) by lia. cbn iota.
  replace (19 + count - 2) with (17 + count) by lia. destruct (Z.to_nat (17 + count)) as [|n] eqn:En; [lia|].
  cbn [huff_loop app]. rewrite (proj2 (Z.eqb_neq _ _)) by lia. rewrite exec_bind, (exec_huff_table id ac idx) by done.
  fold h. fold count. cbn iota. rewrite exec_bind, exec_check, (proj2 (Z.leb_le _ _)) by lia. cbn iota.
  replace (17 + count - (1 + 16 + count)) with 0 by lia. destruct n; reflexivity.
Qed.

(** Scan header. *)
Definition after_sos (s : jdec) : jdec :=
  set_input_scan_number (u8 (input_scan_number s + 1))
   (set_next_restart_num 0 (set_Al 0 (set_Ah 0 (set_Se 63 (set_Ss 0
    (set_comp_id_map [1; 2; 3]
     (set_tbl_map (zip_with (fun t i => MkTblMap i i (quant_tbl_id t)) (tbl_map s) [0; 1; 1])
      (set_comps_in_scan 3 s)))))))).

Lemma exec_SOS s l :
  length (tbl_map s) = 3%nat -> length (comp_id_map s) = 3%nat -> map component_id (comp_info s) = [1; 2; 3] ->
  exec GetSOS s (be16 12 ++ [3; 1; 0; 2; 0x11; 3; 0x11; 0; 63; 0] ++ l) = (Ok tt, after_sos s, l).
Proof.
  intros Hl Hi Hc. destruct s as [? ? ? tm ? ? ? ? ? ? ids ks]. cbn in Hl, Hi, Hc.
  destruct tm as [|t0 [|t1 [|t2 [|]]]]; try discriminate Hl. destruct ids as [|a [|b [|c [|]]]]; try discriminate Hi.
  destruct ks as [|k0 [|k1 [|k2 [|]]]]; try discriminate Hc. injection Hc as E0 E1 E2.
  destruct k0, k1, k2. simpl in E0, E1, E2. subst. vm_compute. reflexivity.
Qed.

(** ** The whole header *)
Definition after_dri (ri : Z) (s : jdec) : jdec :=
  if ri =? 0 then s else set_next_restart_num 0 (set_restart_to_go ri (set_restart_interval ri s)).

Definition after_huff (s : jdec) : jdec :=
  put_htab true 1 (decoded chr_ac) (put_htab false 1 (decoded chr_dc)
    (put_htab true 0 (decoded lum_ac) (put_htab false 0 (decoded lum_dc) (after_malloc s)))).

Definition after_head (height width hv fmt : Z) (ql qc : list Z) (ri : Z) (s : jdec) : jdec :=
  after_sos (after_dri ri (after_huff (after_sof height width hv fmt (after_dqt 1 qc (after_dqt 0 ql s))))).

(** What the Huffman tables leave alone. *)
Record same_frame (s t : jdec) : Prop := {
  sf_map : tbl_map t = tbl_map s;
  sf_ids : comp_id_map t = comp_id_map s;
  sf_info : comp_info t = comp_info s;
  sf_num : num_components t = num_components s;
  sf_quant : quant_tbl t = quant_tbl s;
  sf_width : input_width t = input_width s;
  sf_height : input_height t = input_height s;
  sf_mcu : input_mcu_info t = input_mcu_info s;
  sf_prog : progressive_mode t = progressive_mode s;
  sf_default : using_default_huff_tab t = using_default_huff_tab s }.

#[export] Instance same_frame_trans : Transitive same_frame.
Proof. intros s t u [] []. constructor; congruence. Qed.

Lemma same_put ac idx t s : same_frame s (put_htab ac idx t s).
Proof. destruct ac; constructor; reflexivity. Qed.
Lemma same_malloc s : same_frame s (after_malloc s).
Proof. constructor; reflexivity. Qed.
Lemma same_huff s : same_frame s (after_huff s).
Proof. unfold after_huff. etrans; [apply same_malloc|]. do 3 (etrans; [apply same_put|]). apply same_put. Qed.
Lemma same_dri ri s : same_frame s (after_dri ri s).
Proof. unfold after_dri. destruct (ri =? 0); constructor; reflexivity. Qed.

Section Tables.
Context (f : nat).
Abbreviation tables n := (process_tables (S f) n).

Lemma exec_tables_SOS n s l : (0 < n)%nat -> exec (tables n) s (0xff :: M_SOS :: l) = (Ok M_SOS, s, l).
Proof.
  intros Hn. destruct n as [|n]; [lia|]. cbn [process_tables]. by rewrite exec_bind, exec_marker.
Qed.

Lemma tables_step n c s l s' l' :
  (0 < n)%nat -> c ∉ [0; 0xff; M_SOI; M_EOI; M_SOS] -> exec (segment c) s l = (Ok tt, s', l') ->
  exec (tables n) s (0xff :: c :: l) = exec (tables (n - 1)) s' l'.
Proof.
  intros Hn Hc Hs. destruct n as [|n]; [lia|]. rewrite (exec_tables_step f n c s l s' l') by done.
  by rewrite Nat.sub_succ, Nat.sub_0_r.
Qed.

Lemma tables_dht n id ac idx s l (h := default_huff ac idx) :
  (0 < n)%nat -> names id ac idx -> g_huff_tbl_malloced s = true -> htab ac s !! idx = Some zero_huff ->
  exec (tables n) s (dht_bytes id h ++ l) = exec (tables (n - 1)) (put_htab ac idx (decoded h) s) l.
Proof.
  intros Hn Hi Hm Ht. unfold dht_bytes. rewrite <- !app_assoc. cbn [app].
  apply tables_step; [done|compute_done|]. pose proof (exec_DHT id ac idx s l Hi) as E. fold h in E.
  unfold with_tables in E. rewrite Hm in E. rewrite <- app_assoc in E. by apply E.
Qed.

Lemma tables_dht_first n id ac idx s l (h := default_huff ac idx) :
  (0 < n)%nat -> names id ac idx -> g_huff_tbl_malloced s = false -> room 2240 s -> (idx < 4)%nat ->
  exec (tables n) s (dht_bytes id h ++ l) = exec (tables (n - 1)) (put_htab ac idx (decoded h) (after_malloc s)) l.
Proof.
  intros Hn Hi Hm Hr Hidx. unfold dht_bytes. rewrite <- !app_assoc. cbn [app].
  apply tables_step; [done|compute_done|]. pose proof (exec_DHT id ac idx s l Hi) as E. fold h in E.
  unfold with_tables in E. rewrite Hm in E. rewrite <- app_assoc in E. apply E; [done|].
  destruct ac; unfold after_malloc; cbn -[replicate]; apply lookup_replicate_2; done.
Qed.

Lemma tables_huff n s l :
  (3 < n)%nat -> g_huff_tbl_malloced s = false -> room 2240 s ->
  exec (tables n) s (dht_bytes 0x00 lum_dc ++ dht_bytes 0x10 lum_ac ++ dht_bytes 0x01 chr_dc ++ dht_bytes 0x11 chr_ac ++ l) =
    exec (tables (n - 4)) (after_huff s) l.
Proof.
  intros Hn Hm Hr. rewrite (tables_dht_first n 0 false 0 s) by first [done | lia].
  rewrite (tables_dht (n - 1) 0x10 true 0) by first [done | lia].
  rewrite (tables_dht (n - 1 - 1) 0x01 false 1) by first [done | lia].
  rewrite (tables_dht (n - 1 - 1 - 1) 0x11 true 1) by first [done | lia].
  by replace (n - 1 - 1 - 1 - 1)%nat with (n - 4)%nat by lia.
Qed.

(** The segments between the SOI marker and the data; [n] bounds their number. *)
Lemma exec_rest n height width hv fmt ql qc ri s l :
  (9 < n)%nat ->
  0 <= height < 2 ^ 16 -> 0 <= width < 2 ^ 16 -> 0 <= ri < 2 ^ 16 ->
  (hv = 0x22 /\ fmt = JPEG_FW_YUV420) \/ (hv = 0x21 /\ fmt = JPEG_FW_YUV422) ->
  length ql = 64%nat -> bytes ql -> length qc = 64%nat -> bytes qc ->
  wf s -> g_huff_tbl_malloced s = false -> room 2416 s ->
  exec (c ← tables n; if c =? M_SOS then GetSOS else fail) s (head_rest height width hv ql qc ri ++ l) =
    (Ok tt, after_head height width hv fmt ql qc ri s, l).
Proof.
  intros Hf Hh Hw Hri Hv Lq Bq Lc Bc Hwf Hm [Hr1 Hr2]. unfold head_rest. rewrite <- !app_assoc. cbn [app].
  rewrite exec_bind. unfold after_head.
  set (s2 := after_dqt 1 qc (after_dqt 0 ql s)). set (s3 := after_sof height width hv fmt s2).
  assert (Hs2 : length (tbl_map s2) = 3%nat /\ s_used_extra_mem s2 = s_used_extra_mem s + 128 /\ s_extra_mem_size s2 = s_extra_mem_size s).
  { destruct Hwf. unfold s2, after_dqt. cbn. split_and!; auto; lia. }
  destruct Hs2 as (L2 & U2 & Z2).
  assert (U3 : s_used_extra_mem s3 = s_used_extra_mem s + 176) by (unfold s3, after_sof; cbn [s_used_extra_mem set_input_mcu_info set_tbl_map set_comp_info set_s_used_extra_mem]; lia).
  assert (M3 : g_huff_tbl_malloced s3 = false) by exact Hm.
  assert (Z3 : s_extra_mem_size s3 = s_extra_mem_size s) by exact Z2.
  unfold app0_bytes. rewrite <- !app_assoc. cbn [app]. erewrite tables_step; [|lia|compute_done|apply exec_APP0].
  unfold dqt_bytes. rewrite <- !app_assoc. cbn [app].
  erewrite tables_step; [|lia|compute_done|apply (exec_DQT 0 ql); auto; [split; lia|by destruct Hwf]].
  erewrite tables_step; [|lia|compute_done|apply (exec_DQT 1 qc); auto; [split; cbn; lia|cbn; rewrite length_insert; by destruct Hwf]].
  fold s2. unfold sof_bytes. rewrite <- !app_assoc. cbn [app].
  erewrite tables_step; [|lia|compute_done|apply (exec_SOF height width hv fmt); auto; split; lia]. fold s3.
  rewrite tables_huff; [|lia|done|split; lia].
  set (s7 := after_huff s3).
  assert (E8 : exec (tables (n - 1 - 1 - 1 - 1 - 4)) s7 (dri_bytes ri ++ sos_bytes ++ l) =
    (Ok M_SOS, after_dri ri s7, be16 12 ++ [3; 1; 0; 2; 0x11; 3; 0x11; 0; 63; 0] ++ l)).
  { unfold dri_bytes, after_dri, sos_bytes. destruct (Z.eqb_spec ri 0) as [->|Hne]; rewrite <- ?app_assoc; cbn [app].
    - apply exec_tables_SOS. lia.
    - erewrite tables_step; [|lia|compute_done|by apply exec_DRI]. apply exec_tables_SOS. lia. }
  rewrite E8. cbn iota. rewrite Z.eqb_refl.
  assert (Hsf : same_frame s3 (after_dri ri s7)) by (etrans; [apply same_huff|apply same_dri]).
  apply exec_SOS.
  - rewrite (sf_map _ _ Hsf). unfold s3, after_sof. cbn [tbl_map set_input_mcu_info set_tbl_map]. rewrite length_zip_with, L2. reflexivity.
  - rewrite (sf_ids _ _ Hsf). transitivity (length (comp_id_map s)); [reflexivity|]. by destruct Hwf.
  - by rewrite (sf_info _ _ Hsf).
Qed.

Lemma exec_soi s l :
  exec (ParseHead (S f)) s (0xff :: M_SOI :: l) = exec (c ← tables (S f); if c =? M_SOS then GetSOS else fail) s l.
Proof.
  unfold ParseHead. rewrite exec_bind. cbn [find_soi]. rewrite exec_bind, exec_marker by done. cbn iota.
  rewrite exec_bind, exec_check. cbn iota. change (M_SOI =? M_EOI) with false. cbn [negb]. cbn iota.
  by rewrite Z.eqb_refl, exec_ret.
Qed.

Lemma exec_head height width hv fmt ql qc ri s l :
  (9 < f)%nat ->
  0 <= height < 2 ^ 16 -> 0 <= width < 2 ^ 16 -> 0 <= ri < 2 ^ 16 ->
  (hv = 0x22 /\ fmt = JPEG_FW_YUV420) \/ (hv = 0x21 /\ fmt = JPEG_FW_YUV422) ->
  length ql = 64%nat -> bytes ql -> length qc = 64%nat -> bytes qc ->
  wf s -> g_huff_tbl_malloced s = false -> room 2416 s ->
  exec (ParseHead (S f)) s (head_bytes height width hv ql qc ri ++ l) =
    (Ok tt, after_head height width hv fmt ql qc ri s, l).
Proof.
  intros Hf Hh Hw Hri Hv Lq Bq Lc Bc Hwf Hm Hr. unfold head_bytes. rewrite <- app_assoc. cbn [app].
  rewrite exec_soi. apply exec_rest; auto with lia.
Qed.
End Tables.

(** ** The decoder's entry point on a header in memory *)

(** A stream in memory keeps its buffer, and its position is the number of
    bytes counted. *)
Lemma mem_run_pos {A} (p : prog A) s a s' :
  s_read s = None -> s_header_len s = u32 (Z.of_nat (s_pos s)) -> run p s = Some (a, s') ->
  s_buf s' = s_buf s /\ s_read s' = None /\ s_header_len s' = u32 (Z.of_nat (s_pos s')).
Proof.
  revert s. induction p as [x|k IH]; intros s Hr Hh; simpl; [by intros [= _ <-]|].
  unfold get_char, refill. rewrite Hr. simpl. destruct (0 <? s_jremain_byte_num s); simpl; [|eauto].
  destruct (s_buf s !! s_pos s) as [c|]; simpl; [|discriminate]. intros E. apply IH in E; [|done|].
  - simpl in E. done.
  - simpl. rewrite Hh. unfold u32. rewrite Zplus_mod_idemp_l. f_equal. lia.
Qed.

(** No stuffed byte is found at the end of a scan header 00 3F 00. *)
Lemma stuffed_none s from n :
  (forall k, (k < n)%nat -> exists c, s_buf s !! (from + k)%nat = Some c /\ c <> 0xff) ->
  stuffed s (Z.of_nat from) n = Some 0.
Proof.
  revert from. induction n as [|n IH]; intros from H; [done|]. cbn [stuffed].
  rewrite (proj2 (Z.ltb_ge _ _)) by lia. destruct (H 0%nat ltac:(lia)) as (c & Hc & Hne).
  rewrite Nat2Z.id. rewrite Nat.add_0_r in Hc. rewrite Hc. cbn [mbind option_bind].
  rewrite (proj2 (Z.eqb_neq _ _)) by done. cbn [mbind option_bind].
  replace (Z.of_nat from + 1) with (Z.of_nat (S from)) by lia. rewrite IH; [done|].
  intros k Hk. destruct (H (S k) ltac:(lia)) as (d & Hd & ?). exists d. replace (S from + k)%nat with (from + S k)%nat by lia. done.
Qed.

Lemma header_len_exact s pre rest :
  s_buf s = pre ++ [0; 63; 0] ++ rest -> s_pos s = (length pre + 3)%nat -> s_header_len s = zlen pre + 3 ->
  zlen pre + 3 < 2 ^ 32 -> get_header_len s = Some (zlen pre + 3).
Proof.
  intros Hb Hp Hh Hlt. unfold get_header_len. rewrite Hh.
  rewrite Z.shiftl_mul_pow2, Z.shiftr_div_pow2 by lia. change (2 ^ 2) with 4.
  set (u := zlen pre + 3 - _). assert (Hu : u < 4) by (unfold u; zlia).
  destruct (Z.ltb_spec 1 u); [|done]. replace (Z.of_nat (s_pos s) - u) with (Z.of_nat (length pre + 3 - Z.to_nat u)) by lia.
  rewrite stuffed_none.
  - simpl. rewrite Z.sub_0_r. by rewrite u32_small by (unfold is_u32; lia).
  - intros k Hk. rewrite Hb, lookup_app_r, lookup_app_l by (simpl; lia).
    replace (length pre + 3 - Z.to_nat u + k - length pre)%nat with (3 - Z.to_nat u + k)%nat by lia.
    destruct (3 - Z.to_nat u + k)%nat as [|[|[|]]] eqn:Ek; simpl; [eexists; by split..|lia].
Qed.

(** What the encoder hands to the bitstream module, as the bytes it produces. *)
Definition encode_head (out : list (Z * Z) -> list Z) (ready : nat -> bool) (e : jenc) : outcome unit * list Z :=
  let '(r, b) := JPEG_HWWriteHead ready e (MkBsm [] 0) in (r, out (writes b)).

Lemma encode_head_bytes out ready e hr vr ql qc :
  BitstreamModule out -> enc_wf e hr vr ql qc -> 0 <= e_restart_interval e < 2 ^ 16 ->
  exists r bs, encode_head out ready e = (r, bs) /\
    let full := head_bytes (e_height e) (e_width e) (Z.lor (Z.shiftl hr 4) vr) ql qc (e_restart_interval e) in
    bs `prefix_of` full /\
    ((r = Ok tt /\ bs = full) \/ (r = Failed /\ (length bs < length full)%nat /\ exists n, ready n = false)).
Proof.
  intros Ho He Hr. destruct (emits_head ready e hr vr ql qc He Hr) as (Hm & Hs & _).
  destruct (Hm (MkBsm [] 0)) as (r & w & k & E & Hv & Hp & Hk).
  exists r, (out w). unfold encode_head. rewrite E. cbn [writes app]. rewrite (out_valid out w Ho Hv).
  split_and!; [done|done|]. destruct r as [[]| | |]; try done; [left; intuition|right].
  destruct (Hs _ _ E) as (w' & Ew & Hl). cbn [writes app] in Ew. by subst w'.
Qed.

Lemma rest_end height width hv ql qc ri :
  exists pre, head_rest height width hv ql qc ri = pre ++ [0; 63; 0].
Proof.
  unfold head_rest, sos_bytes. eexists. rewrite !app_assoc.
  change [3; 1; 0; 2; 17; 3; 17; 0; 63; 0] with ([3; 1; 0; 2; 17; 3; 17] ++ [0; 63; 0]). rewrite !app_assoc. reflexivity.
Qed.

(** Entry point: the parser's result on a header in memory that it accepts. *)
Lemma parse_mem_head fuel addr size s s' head pre data s2 :
  head = pre ++ [0; 63; 0] -> hd 0 head <> 0x53 -> zlen (head ++ data) < 2 ^ 32 ->
  0 < addr -> 4 <= size ->
  s2 = set_is_res_file false (JpegDec_InitMem addr size (reset_codec s)) ->
  exec (ParseHead fuel) s2 (head ++ data) = (Ok tt, s', data) ->
  JPEG_FWParseHead fuel (InMemory (head ++ data) (zlen (head ++ data))) addr size s = (Ok tt, s', zlen head).
Proof.
  intros Hh Hf Hlen Ha Hs H2 Hx. unfold JPEG_FWParseHead.
  rewrite (proj2 (Z.eqb_neq _ _)), (proj2 (Z.ltb_ge _ _)) by lia. cbn [orb JpegDec_InitBitream].
  set (st := mem_stream _ _). assert (Hne : exists c t, head = c :: t).
  { rewrite Hh. destruct pre; simpl; eauto. }
  assert (Eres : is_res_jpg_file st = Some false).
  { destruct Hne as (c & t & E). unfold is_res_jpg_file, st, mem_stream. cbn [s_buf s_pos]. rewrite E in *. simpl in Hf |- *.
    by rewrite (proj2 (Z.eqb_neq _ _)). }
  rewrite Eres, <- H2. pose proof (mem_pending (head ++ data) []) as Hp. rewrite app_nil_r in Hp. fold st in Hp.
  destruct (run_pending (ParseHead fuel s2) _ st Hp) as (st' & Er & Hp' & Eh); [done|simpl; lia|].
  unfold exec in Hx. rewrite Hx in *. cbn [fst snd] in *. rewrite Er.
  destruct (mem_run_pos (ParseHead fuel s2) st _ _ eq_refl eq_refl Er) as (Hb & Hr & Hpos).
  assert (Ehl : s_header_len st' = zlen head). { rewrite Eh, length_app. simpl. lia. }
  assert (Hb' : (s_pos st' <= length (s_buf st'))%nat). { destruct Hp' as (_ & ? & _). lia. }
  rewrite Hb in Hb'. simpl in Hb'. rewrite length_app in *.
  rewrite u32_small in Hpos by (unfold is_u32; lia). rewrite Hh, length_app in Ehl. simpl in Ehl.
  rewrite (header_len_exact st' pre data); [| | | |].
  - do 2 f_equal. rewrite Hh, length_app. simpl. lia.
  - rewrite Hb. unfold st, mem_stream. cbn [s_buf]. by rewrite Hh, <- app_assoc.
  - lia.
  - lia.
  - rewrite Hh, length_app in Hlen. simpl in Hlen. lia.
Qed.

Lemma after_huff_tables ri s (t := after_dri ri (after_huff s)) :
  take 2 (dc_huff_tbl t) = [decoded lum_dc; decoded chr_dc] /\
  take 2 (ac_huff_tbl t) = [decoded lum_ac; decoded chr_ac] /\
  restart_interval t = (if ri =? 0 then restart_interval s else ri).
Proof. unfold t, after_dri. destruct (ri =? 0); split_and!; reflexivity. Qed.

Lemma after_head_size height width hv fmt ql qc ri s (t := after_head height width hv fmt ql qc ri s) :
  input_width t = width /\ input_height t = height.
Proof.
  unfold t, after_head. set (s3 := after_sof _ _ _ _ _).
  assert (Hsf : same_frame s3 (after_dri ri (after_huff s3))) by (etrans; [apply same_huff|apply same_dri]).
  unfold after_sos. cbn [input_width input_height set_input_scan_number set_next_restart_num set_Al set_Ah set_Se set_Ss
    set_comp_id_map set_tbl_map set_comps_in_scan]. destruct Hsf. by rewrite sf_width0, sf_height0.
Qed.

(** The decoder when it starts on the markers. *)
Definition start_state (addr size : Z) (s : jdec) : jdec :=
  set_is_res_file false (JpegDec_InitMem addr size (reset_codec s)).

(** The encoder's header, and the decoder on what follows its SOI marker. *)
Lemma encoded_head out ready p e0 ws e addr size s :
  BitstreamModule out -> (forall n, ready n = true) ->
  JPEG_HWEncInit p e0 = (Ok ws, e) ->
  0 <= p_width p < 2 ^ 16 -> 0 <= p_height p < 2 ^ 16 -> 0 <= mcu_info_0 p < 2 ^ 8 ->
  0 <= p_restart_interval p < 2 ^ 16 ->
  0 < addr -> addr + 3 < 2 ^ 32 -> 2420 <= size < 2 ^ 32 ->
  is_u32 (input_width s) -> is_u32 (input_height s) ->
  exists hr vr ql qc, let hv := Z.lor (Z.shiftl hr 4) vr in
    enc_wf e hr vr ql qc /\
    (p_height p = e_height e /\ p_width p = e_width e /\ mcu_info_0 p = e_mcu_info e /\
     p_restart_interval p = e_restart_interval e) /\
    (jpeg_fw_lum_quant_tbl_default !! Z.to_nat (p_quant_level p) = Some ql /\
     jpeg_fw_chr_quant_tbl_default !! Z.to_nat (p_quant_level p) = Some qc) /\
    encode_head out ready e = (Ok tt, head_bytes (e_height e) (e_width e) hv ql qc (e_restart_interval e)) /\
    forall f n height width l, (9 < n)%nat -> 0 <= height < 2 ^ 16 -> 0 <= width < 2 ^ 16 ->
      exec (c ← process_tables (S f) n; if c =? M_SOS then GetSOS else fail) (start_state addr size s)
        (head_rest height width hv ql qc (e_restart_interval e) ++ l) =
      (Ok tt, after_head height width hv (e_mcu_info e) ql qc (e_restart_interval e) (start_state addr size s), l).
Proof.
  intros Ho Hready Hi Hw Hh Hm Hri Ha Ha' Hs Hiw Hih.
  destruct (enc_init_wf p e0 ws e Hi) as (hr & vr & ql & qc & He & Eh & Ew & Em & Er & Tl & Tc).
  rewrite u16_small in Eh, Ew by done. unfold u8 in Em. rewrite Z.mod_small in Em by done.
  rewrite <- Er in Hri. destruct (encode_head_bytes out ready e hr vr ql qc Ho He Hri) as (r & head & Ee & _ & Hr).
  destruct Hr as [[-> Hhead]|(_ & _ & n & Hn)]; [|by rewrite Hready in Hn]. rewrite Hhead in Ee.
  exists hr, vr, ql, qc. cbv zeta. split; [done|]. split; [done|]. split; [done|]. split; [done|]. intros f n height width l Hn Hhe Hwi.
  assert (Hwf : wf (start_state addr size s)).
  { unfold start_state. generalize (init_wf addr size s Ha Ha' ltac:(lia) Hiw Hih). generalize (JpegDec_InitMem addr size (reset_codec s)). wf_set. }
  assert (Hroom : room 2416 (start_state addr size s)).
  { destruct (init_mem_size addr size (reset_codec s) Ha Ha' ltac:(lia)). split; cbn in *; lia. }
  destruct He as [Hh16 Hw16 _ Hfmt Hmap _ _ Hq [Lq Bq] [Lc Bc]].
  apply exec_rest; auto. destruct Hfmt as [(-> & -> & ->)|(-> & -> & ->)]; [by left|by right].
Qed.

(** ** Theorems *)

(** C6: decoding the header the encoder writes gives back what was encoded.
    For every picture the encoder accepts (both sampling formats, every
    quality level, sizes and restart intervals that fit 16 bits), a ready
    bitstream module and any data after the header, [JPEG_HWWriteHead]
    succeeds and [JPEG_FWParseHead] accepts its bytes, reports their exact
    number as the header length, and yields the width, height, sampling
    format, quantisation tables, table assignment, Huffman tables (which it
    recognises as the default ones) and restart interval of the encoder. *)
Theorem jpeg_head_roundtrip out ready p e0 ws e data addr size s fuel :
  BitstreamModule out -> (forall n, ready n = true) ->
  JPEG_HWEncInit p e0 = (Ok ws, e) ->
  0 <= p_width p < 2 ^ 16 -> 0 <= p_height p < 2 ^ 16 -> 0 <= mcu_info_0 p < 2 ^ 8 ->
  0 <= p_restart_interval p < 2 ^ 16 ->
  zlen (snd (encode_head out ready e) ++ data) < 2 ^ 32 ->
  0 < addr -> addr + 3 < 2 ^ 32 -> 2420 <= size < 2 ^ 32 ->
  is_u32 (input_width s) -> is_u32 (input_height s) -> (10 < fuel)%nat ->
  exists head s', encode_head out ready e = (Ok tt, head) /\
    JPEG_FWParseHead fuel (InMemory (head ++ data) (zlen (head ++ data))) addr size s = (Ok tt, s', zlen head) /\
    input_width s' = p_width p /\ input_height s' = p_height p /\ input_mcu_info s' = mcu_info_0 p /\
    num_components s' = 3 /\ progressive_mode s' = false /\
    quant_tbl s' = [Some (nth 0 (e_quant_tbl e) []); Some (nth 1 (e_quant_tbl e) []); None] /\
    tbl_map s' = e_tbl_map e /\
    take 2 (dc_huff_tbl s') = [decoded lum_dc; decoded chr_dc] /\
    take 2 (ac_huff_tbl s') = [decoded lum_ac; decoded chr_ac] /\
    using_default_huff_tab s' = true /\
    restart_interval s' = (if p_restart_interval p =? 0 then 0x3ffff else p_restart_interval p).
Proof.
  intros Ho Hready Hi Hw Hh Hm Hri Hlen Ha Ha' Hs Hiw Hih Hfuel.
  destruct (encoded_head out ready p e0 ws e addr size s) as (hr & vr & ql & qc & He & (Eh & Ew & Em & Er) & _ & Ee & Hx); auto.
  rewrite Ee in *. cbn [snd] in Hlen. destruct fuel as [|f]; [lia|]. set (s2 := start_state addr size s) in *.
  destruct (rest_end (e_height e) (e_width e) (Z.lor (Z.shiftl hr 4) vr) ql qc (e_restart_interval e)) as [pre Hpre].
  eexists _, _. split; [done|]. split.
  { eapply (parse_mem_head _ _ _ _ _ _ (0xff :: M_SOI :: pre) data s2); [|done|done|done|lia|done|].
    { unfold head_bytes. by rewrite Hpre. }
    unfold head_bytes. rewrite <- app_assoc. cbn [app].
    rewrite exec_soi. destruct He. apply Hx; [lia|done|done]. }
  destruct He as [_ _ _ Hfmt Hmap _ _ Hq _ _].
  set (s3 := after_sof (e_height e) (e_width e) (Z.lor (Z.shiftl hr 4) vr) (e_mcu_info e) (after_dqt 1 qc (after_dqt 0 ql s2))).
  assert (Hsf : same_frame s3 (after_dri (e_restart_interval e) (after_huff s3))) by (etrans; [apply same_huff|apply same_dri]).
  destruct (after_huff_tables (e_restart_interval e) s3) as (Hdc & Hac & Hrr).
  unfold after_head. fold s3. set (s8 := after_dri _ _) in *. destruct Hsf. unfold after_sos.
  cbn [input_width input_height input_mcu_info num_components progressive_mode quant_tbl tbl_map dc_huff_tbl ac_huff_tbl using_default_huff_tab restart_interval
       set_input_scan_number set_next_restart_num set_Al set_Ah set_Se set_Ss set_comp_id_map set_tbl_map set_comps_in_scan].
  rewrite sf_width0, sf_height0, sf_mcu0, sf_num0, sf_prog0, sf_quant0, sf_map0, sf_default0, Hdc, Hac, Hrr, Hq, Hmap, <- Er.
  split_and!; try done; by rewrite <- ?Ew, <- ?Eh, <- ?Em.
Qed.

(** A 640 x 480 picture with 4:2:0 sampling, the third quality level and a
    restart interval of 40. *)
Definition sample_para : enc_para := MkPara 640 480 JPEG_FW_YUV420 JPEG_FW_YUV420 2 40.
Definition idle_enc : jenc := MkEnc 0 0 0 0 [] 0 0 0 [] 0 0 0 0 [] [] [] [] [] 0.
Definition sample_enc : jenc := snd (JPEG_HWEncInit sample_para idle_enc).
Definition sample_words : list (Z * Z) :=
  match fst (JPEG_HWEncInit sample_para idle_enc) with Ok w => w | _ => [] end.

Lemma jpeg_head_roundtrip_witness :
  exists head s', encode_head ref_out (fun _ => true) sample_enc = (Ok tt, head) /\
    JPEG_FWParseHead 11 (InMemory (head ++ [1; 2; 3]) (zlen (head ++ [1; 2; 3]))) 4096 4096 idle_dec = (Ok tt, s', zlen head) /\
    input_width s' = 640 /\ input_height s' = 480 /\ restart_interval s' = 40.
Proof.
  destruct (jpeg_head_roundtrip ref_out (fun _ => true) sample_para idle_enc sample_words sample_enc [1; 2; 3] 4096 4096 idle_dec 11)
    as (head & s' & H1 & H2 & H3 & H4 & _ & _ & _ & _ & _ & _ & _ & _ & H5).
  1: exact ref_out_module.
  1: reflexivity.
  1: vm_compute; reflexivity.
  1-4: split; [discriminate|reflexivity].
  1: vm_compute; reflexivity.
  1-2: reflexivity.
  1-3: split; [discriminate|reflexivity].
  1: apply Nat.ltb_lt; reflexivity.
  exists head, s'. split_and!; assumption.
Defined.

(** C38: whatever the polls of the bitstream module's ready bit answer, the
    header writer sends a prefix of the header it sends to a module that is
    always ready: it succeeds exactly with the whole header sent, and fails
    only after a poll timed out, with a proper prefix sent (with nothing, when
    the first poll already times out). The module is taken to accept every write made
    to it, also those of [JPEGFW_PutC] and [JPEGFW_PutW], which write without
    looking at the outcome of their own polls; so a time-out of one of those
    is not reported. *)
Theorem jpeg_head_timeout out ready p e0 ws e :
  BitstreamModule out -> JPEG_HWEncInit p e0 = (Ok ws, e) -> 0 <= p_restart_interval p < 2 ^ 16 ->
  exists r bs head, encode_head out ready e = (r, bs) /\ encode_head out (fun _ => true) e = (Ok tt, head) /\
    bs `prefix_of` head /\ (r = Ok tt <-> bs = head) /\ (r <> Ok tt -> r = Failed /\ exists n, ready n = false) /\
    (ready 0%nat = false -> r = Failed /\ bs = []).
Proof.
  intros Ho Hi Hri. destruct (enc_init_wf p e0 ws e Hi) as (hr & vr & ql & qc & He & _ & _ & _ & Er & _ & _). rewrite <- Er in Hri.
  destruct (encode_head_bytes out ready e hr vr ql qc Ho He Hri) as (r & bs & Eb & Hp & Hr).
  destruct (encode_head_bytes out (fun _ => true) e hr vr ql qc Ho He Hri) as (r' & head & Eh & _ & Hr').
  destruct Hr' as [[-> Ehead]|(_ & _ & n & Hn)]; [|discriminate Hn]. rewrite <- Ehead in Hp, Hr.
  exists r, bs, head. split_and!; [done|done|done| | |].
  - destruct Hr as [[-> ->]|(-> & Hl & _)]; [done|]. split; [done|]. intros ->. lia.
  - destruct Hr as [[-> _]|(-> & _ & Hn)]; [done|]. auto.
  - intros H0. unfold encode_head, JPEG_HWWriteHead, mbind, E_bind, poll in Eb. cbn [polls] in Eb. rewrite H0 in Eb.
    cbn [writes] in Eb. injection Eb as <- <-. split; [done|apply out_nil].
Qed.

Lemma jpeg_head_timeout_witness :
  exists r bs head, encode_head ref_out (fun n => Nat.ltb n 100) sample_enc = (r, bs) /\
    encode_head ref_out (fun _ => true) sample_enc = (Ok tt, head) /\ bs `prefix_of` head /\ (r = Ok tt <-> bs = head).
Proof.
  destruct (jpeg_head_timeout ref_out (fun n => Nat.ltb n 100) sample_para idle_enc sample_words sample_enc)
    as (r & bs & head & H1 & H2 & H3 & H4 & _); [exact ref_out_module|vm_compute; reflexivity| |].
  - split; [discriminate|reflexivity].
  - exists r, bs, head. split_and!; assumption.
Defined.

Lemma QTableCfg_range e : 5 <= compress_level e -> JpegEnc_QTableCfg e = None.
Proof.
  intros H. unfold JpegEnc_QTableCfg. destruct (jpeg_fw_lum_quant_tbl_default !! _) eqn:E; [|reflexivity].
  apply lookup_lt_Some in E. change (length jpeg_fw_lum_quant_tbl_default) with 5%nat in E. lia.
Qed.

(** A quality level beyond the tables is not rejected: the check looks at the
    level of the previous picture. *)
Lemma jpeg_level_unchecked p e0 :
  compress_level e0 <= JPEG_QUALITY_MAX -> mcu_info_0 p = JPEG_FW_YUV420 \/ mcu_info_0 p = JPEG_FW_YUV422 ->
  1 <= p_width p -> 1 <= p_height p -> 5 <= p_quant_level p -> fst (JPEG_HWEncInit p e0) = Undef.
Proof.
  intros Hl Hm Hw Hh Hq. unfold JPEG_HWEncInit, JpegEnc_InitParam.
  rewrite (proj2 (Z.ltb_ge JPEG_QUALITY_MAX _)), (proj2 (Z.ltb_ge (p_width p) _)), (proj2 (Z.ltb_ge (p_height p) _)) by lia.
  destruct Hm as [-> | ->].
  - change (u8 JPEG_FW_YUV420) with JPEG_FW_YUV420. cbn -[JpegEnc_QTableCfg Z.div u16 MAX3]. by rewrite QTableCfg_range.
  - change (u8 JPEG_FW_YUV422) with JPEG_FW_YUV422. cbn -[JpegEnc_QTableCfg Z.div u16 MAX3]. by rewrite QTableCfg_range.
Qed.

(** The restart markers written one after the other count from RST0 to RST7
    and start again. *)
Fixpoint rst_markers (n : nat) (count : Z) : list Z :=
  match n with
  | O => []
  | S m => match OutPutRstMarker count (MkBsm [] 0) with
           | (Ok c, b) => ref_out (writes b) ++ rst_markers m c
           | _ => []
           end
  end.

Lemma rst_markers_cycle n i :
  0 <= i <= 8 -> rst_markers n (M_RST0 + i) = flat_map (fun k => [0xff; M_RST0 + (i + Z.of_nat k) mod 8]) (seq 0 n).
Proof.
  revert i. induction n as [|n IH]; intros i Hi; [done|].
  cbn [rst_markers seq flat_map]. rewrite <- seq_shift, flat_map_concat_map, map_map, <- flat_map_concat_map.
  assert (E : OutPutRstMarker (M_RST0 + i) (MkBsm [] 0) = (Ok (M_RST0 + (i mod 8 + 1)), MkBsm [(8, 0xff); (8, M_RST0 + i mod 8)] 3)).
  { assert (C : i = 0 \/ i = 1 \/ i = 2 \/ i = 3 \/ i = 4 \/ i = 5 \/ i = 6 \/ i = 7 \/ i = 8) by lia.
    destruct C as [->|[->|[->|[->|[->|[->|[->|[->| ->]]]]]]]]; reflexivity. }
  rewrite E. cbn [writes ref_out flat_map ref_bytes fst snd]. cbn [Z.eqb]. rewrite Z.add_0_r. simpl app. do 2 f_equal.
  rewrite IH by (pose proof (Z.mod_pos_bound i 8); lia). rewrite !flat_map_concat_map. f_equal. apply map_ext. intros k. do 3 f_equal.
  rewrite Zplus_assoc_reverse, Zplus_mod_idemp_l. f_equal. lia.
Qed.
