(* ===== verification/JpegHuff.v ===== *)
(** The Huffman tables of the JPEG decoder: jpegdec_vld.c of
    common/libs/libcamera/jpeg/jpeg_fw_8830/src.

    [JPEGFW_FixHuffTbl] derives the code words from the number of codes of
    each length and packs them into the register values [active_base_max];
    the other functions write these to the variable-length decoder and fill
    its symbol memory.  The theorems relate the result to the canonical code
    of ITU-T T.81 and to the constants the driver uses for the default
    tables. *)
From S2P Require Import Prelude JpegTables JpegDec JpegEnc.

(** ** [JPEGFW_FixHuffTbl] *)

(** The array [huffsize]: the length of each code, in order; behind them the
    array is zero. *)
Definition huffsizes (bits : list Z) : list Z :=
  flat_map (fun l => replicate (Z.to_nat (nth l bits 0)) (Z.of_nat l)) (seq 1 16).

(** The inner loop assigns [code] while the length stays [si].  The array
    [huffcode] is the list of the codes assigned so far, so that the index
    [p] is its length; it has 257 entries. *)
Fixpoint same_size (n : nat) (sizes : list Z) (si code : Z) (huffcode : list Z) : option (Z * list Z) :=
  match n with
  | O => None
  | S m =>
    if nth (length huffcode) sizes 0 =? si
    then same_size m sizes si (u16 (code + 1)) (huffcode ++ [code])
    else Some (code, huffcode)
  end.
Fixpoint gen_codes (n : nat) (sizes : list Z) (si code : Z) (huffcode : list Z) : option (list Z) :=
  match n with
  | O => None
  | S m =>
    if nth (length huffcode) sizes 0 =? 0 then Some huffcode
    else
      '(code', huffcode') ← same_size 258 sizes si code huffcode;
      gen_codes m sizes (si + 1) (u16 (Z.shiftl code' 1)) huffcode'
  end.

(** The code words; 17 turns are enough for the lengths up to 16. *)
Definition huffcodes (bits : list Z) : option (list Z) :=
  let sizes := huffsizes bits in gen_codes 17 sizes (nth 0 sizes 0) 0 [].

(** [valptr] and [maxcode] of the lengths with codes; [None] for maxcode -1. *)
Fixpoint code_ranges (counts : list Z) (huffcode : list Z) (p : nat) : option (list (option (Z * Z))) :=
  match counts with
  | [] => Some []
  | x :: r =>
    if x =? 0 then t ← code_ranges r huffcode p; Some (None :: t)
    else
      let p' := (p + Z.to_nat x)%nat in
      mx ← huffcode !! (p' - 1)%nat;
      t ← code_ranges r huffcode p';
      Some (Some (u8 (Z.of_nat p), mx) :: t)
  end.

(** The register word of each length; [prev] is the range and the word of the
    length before. *)
Fixpoint reg_words (ranges : list (option (Z * Z))) (prev : option (option (Z * Z) * Z)) : list Z :=
  match ranges with
  | [] => []
  | Some (base, mx) :: r =>
    let w := Z.lor (Z.lor (Z.shiftl 1 31) (Z.shiftl base 16)) mx in
    w :: reg_words r (Some (Some (base, mx), w))
  | None :: r =>
    let w := match prev with
             | None => 0
             | Some (Some (_, mx), _) => u32 ((mx + 1) * 2)
             | Some (None, w0) => u32 (Z.land w0 0xffff * 2)
             end in
    w :: reg_words r (Some (None, w))
  end.

(** [active_base_max[1..16]] for a table. *)
Definition JPEGFW_FixHuffTbl (bits : list Z) : option (list Z) :=
  codes ← huffcodes bits;
  ranges ← code_ranges (take 16 (drop 1 bits)) codes 0;
  Some (reg_words ranges None).

(** ** Register writes *)
Definition JPG_VLD_REG_BASE : Z := 0x60b04800.
Definition DC_VALID_OFFSET : Z := 0x84.
Definition AC_VALID_OFFSET : Z := 0x88.
Definition Luma_DC_LUT_OFFSET : Z := 0x8c.
Definition Chroma_DC_LUT_OFFSET : Z := 0xcc.
Definition Luma_AC_LUT_OFFSET : Z := 0x10c.
Definition Chroma_AC_LUT_OFFSET : Z := 0x14c.

Definition max_regs (offset : Z) (f : Z -> Z) (abm : list Z) : list (Z * Z) :=
  imap (fun i w => (JPG_VLD_REG_BASE + offset + Z.of_nat i * 4, f w)) abm.

Definition configure_maxReg_DC (abm : list Z) (beChroma : bool) : list (Z * Z) :=
  max_regs (if beChroma then Chroma_DC_LUT_OFFSET else Luma_DC_LUT_OFFSET) (fun w => Z.land w 0xffff) abm.

Definition configure_maxReg_AC (abm : list Z) (beChroma : bool) : list (Z * Z) :=
  max_regs (if beChroma then Chroma_AC_LUT_OFFSET else Luma_AC_LUT_OFFSET)
    (fun w => let baseAddr := Z.land (Z.shiftr w 16) 0xff in
              let maxCode := Z.land w 0xffff in
              Z.lor (Z.shiftl maxCode 8) baseAddr) abm.

Definition collect_valid_bits (abm : list Z) : Z :=
  foldl Z.lor 0 (imap (fun i w => Z.shiftl (Z.shiftr w 31) (15 - Z.of_nat i)) abm).

(** The four tables [s_active_base_max]: luma DC, luma AC, chroma DC, chroma
    AC. *)
Record vld_tables := MkVld { abm0 : list Z; abm1 : list Z; abm2 : list Z; abm3 : list Z }.

Definition JPEGFW_configure_validReg (t : vld_tables) : list (Z * Z) :=
  let DCValid := Z.lor (Z.shiftl (collect_valid_bits (abm0 t)) 16) (Z.shiftl (collect_valid_bits (abm2 t)) 0) in
  let ACValid := Z.lor (Z.shiftl (collect_valid_bits (abm1 t)) 16) (Z.shiftl (collect_valid_bits (abm3 t)) 0) in
  [(JPG_VLD_REG_BASE + DC_VALID_OFFSET, DCValid); (JPG_VLD_REG_BASE + AC_VALID_OFFSET, ACValid)].

(** [JPEGFW_configure_vld_reg_jpegDec]: the writes and, for the default
    tables, the symbol memory, which is [huffTab] otherwise. *)
Definition JPEGFW_configure_vld_reg_jpegDec (using_default : bool) (t : vld_tables) (huffTab : list Z)
  : list (Z * Z) * list Z :=
  if using_default then
    (imap (fun i w => (JPG_VLD_REG_BASE + DC_VALID_OFFSET + Z.of_nat i * 4, w)) jpeg_fw_vld_default_max_code,
     jpeg_fw_vld_default_huffTab)
  else
    (JPEGFW_configure_validReg t ++
     configure_maxReg_DC (abm0 t) false ++ configure_maxReg_DC (abm2 t) true ++
     configure_maxReg_AC (abm1 t) false ++ configure_maxReg_AC (abm3 t) true, huffTab).

(** ** The symbol memory *)
Definition HUFFTAB_LEN : nat := 162.
Definition g_DC_offset : list Z := [0; 0; 2; 6; 14; 26; 38; 50; 62; 74; 86; 98; 110; 122; 134; 146; 158].

(** [tab[i] |= v << shift]; outside the table the write is undefined. *)
Definition or_at (tab : list Z) (i : nat) (v : Z) : option (list Z) :=
  w ← tab !! i; Some (<[i := Z.lor v w]> tab).

Fixpoint dc_length (tab : list Z) (start n j : nat) (vals : list Z) (shift : Z) : option (list Z * list Z) :=
  match n with
  | O => Some (tab, vals)
  | S m =>
    match vals with
    | [] => None
    | v :: r => tab' ← or_at tab (start + j) (Z.shiftl v shift); dc_length tab' start m (S j) r shift
    end
  end.
Fixpoint dc_lengths (tab : list Z) (counts offsets : list Z) (vals : list Z) (shift : Z) : option (list Z) :=
  match counts, offsets with
  | x :: cs, o :: os =>
    '(tab', vals') ← dc_length tab (Z.to_nat o) (Z.to_nat x) 0 vals shift;
    dc_lengths tab' cs os vals' shift
  | _, _ => Some tab
  end.
Definition build_hufftab_DC (tab : list Z) (h : HUFF_TBL_T) (beChroma : bool) : option (list Z) :=
  dc_lengths tab (take 16 (drop 1 (bits h))) (drop 1 g_DC_offset) (huffval h) (if beChroma then 24 else 16).

Fixpoint build_ac (tab : list Z) (n i : nat) (vals : list Z) (shift : Z) : option (list Z) :=
  match n with
  | O => Some tab
  | S m =>
    match vals with
    | [] => None
    | v :: r => tab' ← or_at tab i (Z.shiftl v shift); build_ac tab' m (S i) r shift
    end
  end.
Definition build_hufftab_AC (tab : list Z) (h : HUFF_TBL_T) (beChroma : bool) : option (list Z) :=
  build_ac tab HUFFTAB_LEN 0 (huffval h) (if beChroma then 8 else 0).

Definition JPEGFW_build_hufftab_jpegDec (dcl acl dcc acc : HUFF_TBL_T) (num_components : Z) : option (list Z) :=
  t1 ← build_hufftab_DC (replicate HUFFTAB_LEN 0) dcl false;
  t2 ← build_hufftab_AC t1 acl false;
  if num_components =? 1 then Some t2 else
  t3 ← build_hufftab_DC t2 dcc true;
  build_hufftab_AC t3 acc true.

(** [JPEGFW_InitHuffTbl]; with one component the chroma tables keep what they
    held. *)
Definition JPEGFW_InitHuffTbl (dcl acl dcc acc : HUFF_TBL_T) (num_components : Z) (t : vld_tables) : option vld_tables :=
  a0 ← JPEGFW_FixHuffTbl (bits dcl);
  a1 ← JPEGFW_FixHuffTbl (bits acl);
  if num_components =? 1 then Some (MkVld a0 a1 (abm2 t) (abm3 t)) else
  a2 ← JPEGFW_FixHuffTbl (bits dcc);
  a3 ← JPEGFW_FixHuffTbl (bits acc);
  Some (MkVld a0 a1 a2 a3).

Definition empty_vld : vld_tables := MkVld [] [] [] [].

(** ** The canonical code *)

(** The code words, as pairs of length and value, for the numbers of codes
    [counts] of the lengths from [l] on, [c] being the first free value. *)
Fixpoint canon (counts : list Z) (l c : Z) : list (Z * Z) :=
  match counts with
  | [] => []
  | x :: r => ((fun i => (l, c + i)) <$> seqZ 0 x) ++ canon r (l + 1) (2 * (c + x))
  end.

(** No length has more codes than there is room for. *)
Fixpoint fits (counts : list Z) (l c : Z) : Prop :=
  match counts with
  | [] => True
  | x :: r => 0 <= x /\ c + x <= 2 ^ l /\ fits r (l + 1) (2 * (c + x))
  end.

Fixpoint fitsb (counts : list Z) (l c : Z) : bool :=
  match counts with
  | [] => true
  | x :: r => (0 <=? x) && (c + x <=? 2 ^ l) && fitsb r (l + 1) (2 * (c + x))
  end.
Lemma fitsb_spec counts l c : fitsb counts l c = true <-> fits counts l c.
Proof.
  revert l c. induction counts as [|x r IH]; intros l c; simpl; [done|].
  rewrite !andb_true_iff, IH, !Z.leb_le. tauto.
Qed.

Lemma seqZ_succ x : 0 <= x -> seqZ 0 (x + 1) = seqZ 0 x ++ [x].
Proof. intros. rewrite seqZ_app by lia. f_equal. Qed.

Lemma canon_range counts l c l' c' :
  0 <= l -> 0 <= c -> fits counts l c -> (l', c') ∈ canon counts l c ->
  l <= l' < l + zlen counts /\ c * 2 ^ (l' - l) <= c' < 2 ^ l'.
Proof.
  revert l c. induction counts as [|x r IH]; intros l c Hl Hc Hf; simpl; [by intros ?%not_elem_of_nil|].
  destruct Hf as (Hx & Hk & Hf). intros [(i & E & Hi)%list_elem_of_fmap|Hr]%elem_of_app.
  - apply elem_of_seqZ in Hi. injection E as -> ->. rewrite Z.sub_diag. lia.
  - apply (IH (l + 1) (2 * (c + x))) in Hr as [H1 H2]; [|lia|lia|done].
    replace (l' - l) with (1 + (l' - (l + 1))) by lia. rewrite Z.pow_add_r by lia.
    pose proof (Z.pow_pos_nonneg 2 (l' - (l + 1))). split; [lia|]. split; [nia|lia].
Qed.

(** Of two code words the later is not shorter, and the beginning of the same
    length is larger: none is a prefix of another. *)
Lemma canon_ordered counts l c i j l1 c1 l2 c2 :
  0 <= l -> 0 <= c -> fits counts l c -> (i < j)%nat ->
  canon counts l c !! i = Some (l1, c1) -> canon counts l c !! j = Some (l2, c2) ->
  l1 <= l2 /\ c1 < Z.shiftr c2 (l2 - l1).
Proof.
  revert l c i j. induction counts as [|x r IH]; intros l c i j Hl Hc Hf Hij; simpl; [done|].
  destruct Hf as (Hx & Hk & Hf). set (blk := _ <$> seqZ 0 x).
  assert (Lb : length blk = Z.to_nat x) by (unfold blk; by rewrite length_fmap, length_seqZ).
  assert (Bl : forall k a b, blk !! k = Some (a, b) -> a = l /\ b = c + Z.of_nat k).
  { intros k a b H. unfold blk in H. apply list_lookup_fmap_Some in H as (y & E & Hy).
    apply lookup_seqZ in Hy as [-> _]. injection E as -> ->. lia. }
  destruct (decide (j < length blk)%nat).
  - rewrite !lookup_app_l by lia. intros [-> ->]%Bl [-> ->]%Bl. rewrite Z.sub_diag, Z.shiftr_0_r. lia.
  - destruct (decide (i < length blk)%nat) as [Hi|Hi].
    + rewrite lookup_app_l, lookup_app_r by lia. intros [-> ->]%Bl Hj.
      apply list_elem_of_lookup_2, canon_range in Hj as [H1 [H2 _]]; [|lia|lia|done]. split; [lia|].
      rewrite Z.shiftr_div_pow2 by lia. replace (l2 - l) with (1 + (l2 - (l + 1))) by lia. rewrite Z.pow_add_r by lia.
      pose proof (Z.pow_pos_nonneg 2 (l2 - (l + 1))). apply Z.lt_le_trans with (c + x); [lia|].
      apply Z.div_le_lower_bound; [lia|]. change (2 ^ 1) with 2. lia.
    + rewrite !lookup_app_r by lia. apply IH; [lia|lia|done|lia].
Qed.

(** ** The loops compute the canonical code *)
Lemma huffsizes_canon b0 counts :
  length counts = 16%nat -> Forall (fun x => 0 <= x) counts -> forall c,
  huffsizes (b0 :: counts) = fst <$> canon counts 1 c.
Proof.
  intros Hl Hp c. unfold huffsizes.
  assert (G : forall k cs l c, Forall (fun x => 0 <= x) cs -> drop k (b0 :: counts) = cs -> l = Z.of_nat k ->
    flat_map (fun l => replicate (Z.to_nat (nth l (b0 :: counts) 0)) (Z.of_nat l)) (seq k (length cs)) = fst <$> canon cs l c).
  { intros k cs. revert k. induction cs as [|x r IH]; intros k l d Hn Hd ->; [done|]. cbn [length seq flat_map canon].
    apply Forall_cons_1 in Hn as [Hx Hr]. rewrite fmap_app, <- list_fmap_compose.
    assert (Hk : (b0 :: counts) !! k = Some x) by (rewrite <- (Nat.add_0_r k), <- lookup_drop, Hd; done).
    rewrite (nth_lookup_Some _ _ _ _ Hk). f_equal.
    - apply list_eq. intros i. rewrite list_lookup_fmap. destruct (decide (i < Z.to_nat x)%nat).
      + rewrite lookup_replicate_2 by done. rewrite (proj2 (lookup_seqZ 0 x i (Z.of_nat i))) by lia. done.
      + rewrite (lookup_ge_None_2 (replicate _ _)), (lookup_ge_None_2 (seqZ _ _)); rewrite ?length_replicate, ?length_seqZ; auto; lia.
    - apply (IH (S k)); [done| |lia]. rewrite (drop_S _ _ _ Hk) in Hd. by injection Hd. }
  rewrite <- (G 1%nat counts 1 c Hp eq_refl eq_refl). by rewrite Hl.
Qed.

Lemma same_size_run n pre x l rest code hc :
  length hc = length pre -> nth 0 rest 0 <> l -> (x < n)%nat ->
  same_size n (pre ++ replicate x l ++ rest) l (u16 code) hc =
    Some (u16 (code + Z.of_nat x), hc ++ ((fun i => u16 (code + Z.of_nat i)) <$> seq 0 x)).
Proof.
  revert pre x code hc. induction n as [|n IH]; intros pre x code hc Hl Hr Hn; [lia|]. cbn [same_size]. rewrite Hl.
  rewrite app_nth2, Nat.sub_diag by lia. destruct x as [|x].
  - cbn [replicate app seq fmap list_fmap]. rewrite (proj2 (Z.eqb_neq _ _)) by done. by rewrite app_nil_r, Z.add_0_r.
  - cbn [replicate app nth]. rewrite Z.eqb_refl.
    replace (pre ++ l :: replicate x l ++ rest) with ((pre ++ [l]) ++ replicate x l ++ rest) by (by rewrite <- app_assoc).
    replace (u16 (u16 code + 1)) with (u16 (code + 1)) by (unfold u16; by rewrite Zplus_mod_idemp_l).
    rewrite IH; [|rewrite !length_app; simpl; lia|done|lia]. f_equal. f_equal; [f_equal; lia|].
    rewrite <- app_assoc. cbn [app seq fmap list_fmap]. rewrite <- fmap_S_seq, <- list_fmap_compose.
    do 2 f_equal; [f_equal; lia|]. apply list_fmap_ext. intros _ i _. simpl. f_equal. lia.
Qed.

Lemma canon_sizes_head counts l c : 0 <= l -> 0 <= c -> fits counts l c -> nth 0 (fst <$> canon counts l c) 0 = 0 \/ l <= nth 0 (fst <$> canon counts l c) 0.
Proof.
  intros Hl Hc Hf. destruct (canon counts l c) as [|[l' c'] t] eqn:E; [by left|right]. simpl.
  destruct (canon_range counts l c l' c' Hl Hc Hf) as [H _]; [rewrite E; left|lia].
Qed.

Lemma canon_cons x r l c : 0 <= x ->
  fst <$> canon (x :: r) l c = replicate (Z.to_nat x) l ++ (fst <$> canon r (l + 1) (2 * (c + x))).
Proof.
  intros Hx. cbn [canon]. rewrite fmap_app. f_equal. rewrite <- list_fmap_compose. apply list_eq. intros i.
  rewrite list_lookup_fmap. destruct (decide (i < Z.to_nat x)%nat).
  - rewrite lookup_replicate_2 by done. by rewrite (proj2 (lookup_seqZ 0 x i (Z.of_nat i))) by lia.
  - rewrite (lookup_ge_None_2 (replicate _ _)), (lookup_ge_None_2 (seqZ _ _)); rewrite ?length_replicate, ?length_seqZ; auto; lia.
Qed.

Lemma canon_cons_codes x r l c : 0 <= x -> 0 <= c -> c + x <= 2 ^ 16 ->
  snd <$> canon (x :: r) l c =
    ((fun i => u16 (c + Z.of_nat i)) <$> seq 0 (Z.to_nat x)) ++ (snd <$> canon r (l + 1) (2 * (c + x))).
Proof.
  intros Hx Hc Hf. cbn [canon]. rewrite fmap_app. f_equal. rewrite <- list_fmap_compose. unfold seqZ.
  rewrite <- list_fmap_compose. apply list_fmap_ext. intros k i Hk. apply lookup_seq in Hk as [-> ?]. simpl.
  rewrite u16_small by lia. lia.
Qed.

Lemma gen_codes_canon n counts l c pre hc :
  1 <= l -> l + zlen counts <= 17 -> 0 <= c -> fits counts l c -> length hc = length pre ->
  (length counts < n)%nat -> Forall (fun x => x < 256) counts ->
  gen_codes n (pre ++ (fst <$> canon counts l c)) l (u16 c) hc = Some (hc ++ (snd <$> canon counts l c)).
Proof.
  revert counts l c pre hc. induction n as [|n IH]; intros counts l c pre hc Hl Hm Hc Hf Hp Hn Hb; [lia|]. cbn [gen_codes].
  rewrite Hp, app_nth2, Nat.sub_diag by lia. destruct counts as [|x r].
  - simpl. by rewrite app_nil_r.
  - cbn [length] in *. pose proof Hf as (Hx & Hk & Hf'). apply Forall_cons_1 in Hb as [Hx' Hb].
    assert (H16 : 2 ^ l <= 2 ^ 16) by (apply Z.pow_le_mono_r; lia).
    pose proof (canon_sizes_head r (l + 1) (2 * (c + x)) ltac:(lia) ltac:(lia) Hf') as Hh.
    destruct (Z.eqb_spec (nth 0 (fst <$> canon (x :: r) l c) 0) 0) as [E|E].
    + assert (Z0 : canon (x :: r) l c = []).
      { destruct (canon (x :: r) l c) as [|[l' c'] t] eqn:Ec; [done|]. simpl in E. subst l'.
        destruct (canon_range (x :: r) l c 0 c' ltac:(lia) Hc Hf) as [? _]; [rewrite Ec; left|lia]. }
      rewrite Z0. simpl. by rewrite app_nil_r.
    + rewrite canon_cons by done. rewrite same_size_run; [|done|lia|lia]. cbn [mbind option_bind].
      rewrite Z2Nat.id by done. rewrite app_assoc.
      replace (u16 (Z.shiftl (u16 (c + x)) 1)) with (u16 (2 * (c + x))).
      2: { rewrite Z.shiftl_mul_pow2 by lia. unfold u16. change (2 ^ 1) with 2. rewrite Zmult_mod_idemp_l. f_equal. lia. }
      rewrite IH; [|lia|lia|lia|done| |lia|done].
      * rewrite canon_cons_codes by lia. by rewrite app_assoc.
      * rewrite !length_app, length_fmap, length_seq, length_replicate. lia.
Qed.

(** The loop starts at the length of the first code. *)
Lemma gen_codes_start n counts l :
  1 <= l -> l + zlen counts <= 17 -> fits counts l 0 -> (length counts < n)%nat -> Forall (fun x => x < 256) counts ->
  gen_codes n (fst <$> canon counts l 0) (nth 0 (fst <$> canon counts l 0) 0) 0 [] = Some (snd <$> canon counts l 0).
Proof.
  revert l. induction counts as [|x r IH]; intros l Hl Hm Hf Hn Hb.
  - destruct n; [lia|]. reflexivity.
  - pose proof Hf as (Hx & Hk & Hf'). destruct (Z.eq_dec x 0) as [->|Hne].
    + apply Forall_cons_1 in Hb as [_ Hb]. change (canon (0 :: r) l 0) with (canon r (l + 1) 0). cbn [length] in *.
      apply IH; try done; lia.
    + assert (E : nth 0 (fst <$> canon (x :: r) l 0) 0 = l).
      { rewrite canon_cons by done. destruct (Z.to_nat x) eqn:Ex; [lia|]. done. }
      rewrite E. change 0 with (u16 0) at 2. rewrite <- (app_nil_l (fst <$> canon (x :: r) l 0)).
      rewrite gen_codes_canon; auto; lia.
Qed.

Lemma huffcodes_canon b0 counts :
  length counts = 16%nat -> bytes counts -> fits counts 1 0 ->
  huffcodes (b0 :: counts) = Some (snd <$> canon counts 1 0).
Proof.
  intros Hl Hb Hf. unfold huffcodes. rewrite (huffsizes_canon b0 counts Hl) with (c := 0).
  - apply gen_codes_start; try lia; [done|]. eapply List.Forall_impl; [|apply Hb]. unfold is_byte. intros; lia.
  - eapply List.Forall_impl; [|apply Hb]. unfold is_byte. intros; lia.
Qed.

(** ** The register words *)

(** The words for a canonical code: first free value [c], [p] symbols before. *)
Fixpoint canon_regs (counts : list Z) (c p : Z) : list Z :=
  match counts with
  | [] => []
  | x :: r => (if x =? 0 then c else 2 ^ 31 + p * 2 ^ 16 + (c + x - 1)) :: canon_regs r (2 * (c + x)) (p + x)
  end.

Fixpoint canon_ranges (counts : list Z) (c p : Z) : list (option (Z * Z)) :=
  match counts with
  | [] => []
  | x :: r => (if x =? 0 then None else Some (p, c + x - 1)) :: canon_ranges r (2 * (c + x)) (p + x)
  end.

Abbreviation sum_list counts := (foldr Z.add 0 counts).

Lemma sum_nonneg counts : Forall (fun x => 0 <= x) counts -> 0 <= sum_list counts.
Proof. induction 1; simpl; lia. Qed.

Lemma fits_nonneg counts l c : fits counts l c -> Forall (fun x => 0 <= x) counts.
Proof. revert l c. induction counts; intros l c; simpl; [constructor|]. intros (? & _ & ?). constructor; eauto. Qed.

Lemma code_ranges_canon counts l c pre :
  0 <= l -> 0 <= c -> fits counts l c -> zlen pre + sum_list counts <= 256 ->
  code_ranges counts (pre ++ (snd <$> canon counts l c)) (length pre) = Some (canon_ranges counts c (zlen pre)).
Proof.
  revert l c pre. induction counts as [|x r IH]; intros l c pre Hl Hc Hf Hs; [done|]. destruct Hf as (Hx & Hk & Hf).
  cbn [foldr] in Hs. pose proof (sum_nonneg r (fits_nonneg _ _ _ Hf)) as Hr.
  cbn [code_ranges canon_ranges]. destruct (Z.eqb_spec x 0) as [->|Hne].
  - change (canon (0 :: r) l c) with (canon r (l + 1) (2 * (c + 0))). rewrite IH by (try done; lia). simpl. by rewrite !Z.add_0_r.
  - cbn [canon]. rewrite fmap_app, <- list_fmap_compose.
    set (blk := (snd ∘ _) <$> seqZ 0 x). assert (Lb : length blk = Z.to_nat x) by (unfold blk; by rewrite length_fmap, length_seqZ).
    assert (Eb : blk !! (Z.to_nat x - 1)%nat = Some (c + x - 1)).
    { unfold blk. rewrite list_lookup_fmap, (proj2 (lookup_seqZ 0 x (Z.to_nat x - 1) (x - 1))) by lia. simpl. f_equal. lia. }
    rewrite (lookup_app_r pre) by lia. rewrite lookup_app_l by lia.
    replace (length pre + Z.to_nat x - 1 - length pre)%nat with (Z.to_nat x - 1)%nat by lia. rewrite Eb. cbn [mbind option_bind].
    rewrite app_assoc. replace (length pre + Z.to_nat x)%nat with (length (pre ++ blk)) by (rewrite length_app; lia).
    rewrite IH by (try done; rewrite ?length_app; lia). cbn [mbind option_bind]. rewrite length_app, Lb.
    rewrite u8_small by (unfold is_byte; lia). do 2 f_equal. f_equal. lia.
Qed.

(** What the words of the length before say about the first free value. *)
Definition prev_says (prev : option (option (Z * Z) * Z)) (c : Z) : Prop :=
  match prev with
  | None => c = 0
  | Some (Some (_, mx), _) => c = (mx + 1) * 2
  | Some (None, w) => c = Z.land w 0xffff * 2
  end.

Lemma pack_word p mx :
  0 <= p < 256 -> 0 <= mx < 2 ^ 16 ->
  Z.lor (Z.lor (Z.shiftl 1 31) (Z.shiftl p 16)) mx = 2 ^ 31 + p * 2 ^ 16 + mx.
Proof.
  intros Hp Hm. replace (Z.shiftl 1 31) with (Z.shiftl (Z.shiftl 1 15) 16) by reflexivity.
  rewrite <- Z.shiftl_lor, lor_shiftl_add by lia. rewrite lor_shiftl_add by lia. lia.
Qed.

Lemma land16_small z : 0 <= z < 2 ^ 16 -> Z.land z 0xffff = z.
Proof. intros. change 0xffff with (Z.ones 16). rewrite Z.land_ones by lia. by apply Z.mod_small. Qed.

Lemma reg_words_canon counts l c p prev :
  1 <= l -> l + zlen counts <= 17 -> 0 <= c -> 0 <= p -> fits counts l c -> p + sum_list counts <= 256 ->
  (counts = [] \/ prev_says prev c) ->
  reg_words (canon_ranges counts c p) prev = canon_regs counts c p.
Proof.
  revert l c p prev. induction counts as [|x r IH]; intros l c p prev Hl Hm Hc Hp Hf Hs Hv; [done|].
  destruct Hv as [|Hv]; [done|]. destruct Hf as (Hx & Hk & Hf). cbn [foldr length] in *.
  pose proof (sum_nonneg r (fits_nonneg _ _ _ Hf)) as Hr.
  assert (H16 : 2 ^ l <= 2 ^ 16) by (apply Z.pow_le_mono_r; lia).
  cbn [canon_ranges canon_regs]. destruct (Z.eqb_spec x 0) as [->|Hne]; cbn [reg_words].
  - assert (Hw : match prev with None => 0 | Some (Some (_, mx), _) => u32 ((mx + 1) * 2) | Some (None, w0) => u32 (Z.land w0 0xffff * 2) end = c).
    { destruct prev as [[[[b mx]|] w]|]; simpl in Hv; subst c; auto; rewrite u32_small; auto; unfold is_u32; lia. }
    rewrite Hw. f_equal. apply (IH (l + 1)); try done; try lia.
    destruct r as [|y r']; [by left|right]. cbn [length] in *. simpl.
    assert (2 ^ l <= 2 ^ 15) by (apply Z.pow_le_mono_r; lia). rewrite land16_small; lia.
  - rewrite pack_word by lia. f_equal. apply (IH (l + 1)); try done; try lia. right. simpl. lia.
Qed.

(** [JPEGFW_FixHuffTbl] computes the words of the canonical code. *)
Lemma FixHuffTbl_canon b0 counts :
  length counts = 16%nat -> bytes counts -> fits counts 1 0 -> sum_list counts <= 256 ->
  JPEGFW_FixHuffTbl (b0 :: counts) = Some (canon_regs counts 0 0).
Proof.
  intros Hl Hb Hf Hs. unfold JPEGFW_FixHuffTbl. rewrite huffcodes_canon by done. cbn [mbind option_bind drop].
  rewrite drop_0, take_ge by lia.
  pose proof (code_ranges_canon counts 1 0 [] ltac:(lia) ltac:(lia) Hf) as E. simpl in E. rewrite E by lia. simpl.
  f_equal. apply (reg_words_canon counts 1); try done; try lia. by right.
Qed.

(** ** Decoding with the register words *)

(** The decoding procedure of T.81 (F.2.2.3) on a window of 16 bits [v]: try
    the lengths in turn; the first code of a length follows from the word of
    the length before.  The result is the index of the symbol and the length. *)
Fixpoint decode_window (regs : list Z) (l first v : Z) : option (Z * Z) :=
  match regs with
  | [] => None
  | w :: r =>
    let active := Z.testbit w 31 in
    let base := Z.land (Z.shiftr w 16) 0xff in
    let mx := Z.land w 0xffff in
    let code := Z.shiftr v (16 - l) in
    if active && (code <=? mx) then Some (base + (code - first), l)
    else decode_window r (l + 1) (2 * (if active then mx + 1 else mx)) v
  end.

Lemma word_fields p mx (w := 2 ^ 31 + p * 2 ^ 16 + mx) :
  0 <= p < 256 -> 0 <= mx < 2 ^ 16 ->
  Z.testbit w 31 = true /\ Z.land (Z.shiftr w 16) 0xff = p /\ Z.land w 0xffff = mx.
Proof.
  intros Hp Hm. unfold w. split_and!.
  - apply Z.testbit_true; [lia|]. replace (2 ^ 31 + p * 2 ^ 16 + mx) with (p * 2 ^ 16 + mx + 1 * 2 ^ 31) by lia.
    rewrite Z.div_add, (Z.div_small (p * 2 ^ 16 + mx)) by lia. done.
  - rewrite Z.shiftr_div_pow2 by lia. change 0xff with (Z.ones 8). rewrite Z.land_ones by lia.
    replace (2 ^ 31 + p * 2 ^ 16 + mx) with (mx + (p + 128 * 2 ^ 8) * 2 ^ 16) by lia.
    rewrite Z.div_add, (Z.div_small mx) by lia. rewrite Z.add_0_l, Z_mod_plus_full. apply Z.mod_small. lia.
  - change 0xffff with (Z.ones 16). rewrite Z.land_ones by lia.
    replace (2 ^ 31 + p * 2 ^ 16 + mx) with (mx + (p + 2 ^ 15) * 2 ^ 16) by lia. rewrite Z_mod_plus_full. apply Z.mod_small. lia.
Qed.

Lemma decode_canon counts l c p k l' c' v :
  1 <= l -> l + zlen counts <= 17 -> 0 <= c -> 0 <= p -> fits counts l c -> p + sum_list counts <= 256 ->
  canon counts l c !! k = Some (l', c') -> 0 <= v < 2 ^ 16 -> Z.shiftr v (16 - l') = c' ->
  decode_window (canon_regs counts c p) l c v = Some (p + Z.of_nat k, l').
Proof.
  revert l c p k. induction counts as [|x r IH]; intros l c p k Hl Hm Hc Hp Hf Hs Hk Hv Hc'; [done|].
  pose proof Hf as Hf0. destruct Hf as (Hx & Hle & Hf). cbn [foldr length] in *.
  pose proof (sum_nonneg r (fits_nonneg _ _ _ Hf)) as Hr.
  assert (H16 : 2 ^ l <= 2 ^ 16) by (apply Z.pow_le_mono_r; lia).
  destruct (canon_range (x :: r) l c l' c') as [Hl' [Hlo Hhi]]; [lia|done|done|by eapply list_elem_of_lookup_2|]. cbn [length] in Hl'.
  assert (Hcode : Z.shiftr v (16 - l) = Z.shiftr c' (l' - l)).
  { rewrite <- Hc', Z.shiftr_shiftr by lia. f_equal. lia. }
  cbn [canon_regs decode_window]. rewrite Hcode. cbn [canon] in Hk.
  destruct (decide (k < Z.to_nat x)%nat) as [Hkx|Hkx].
  - rewrite lookup_app_l in Hk by (rewrite length_fmap, length_seqZ; lia).
    apply list_lookup_fmap_Some in Hk as (y & E & Hy). apply lookup_seqZ in Hy as [-> _]. injection E as -> ->.
    rewrite (proj2 (Z.eqb_neq x 0)) by lia. destruct (word_fields p (c + x - 1)) as (-> & -> & ->); [lia..|].
    rewrite Z.sub_diag, Z.shiftr_0_r. rewrite (proj2 (Z.leb_le _ _)) by lia. simpl. do 2 f_equal. lia.
  - rewrite lookup_app_r in Hk by (rewrite length_fmap, length_seqZ; lia). rewrite length_fmap, length_seqZ in Hk.
    pose proof Hk as Hin. apply list_elem_of_lookup_2, canon_range in Hin as [[Hl1 _] [Hlo1 _]]; [|lia|lia|done].
    assert (Hbig : c + x <= Z.shiftr c' (l' - l)).
    { rewrite Z.shiftr_div_pow2 by lia. replace (l' - l) with (1 + (l' - (l + 1))) by lia. rewrite Z.pow_add_r by lia.
      pose proof (Z.pow_pos_nonneg 2 (l' - (l + 1))). apply Z.div_le_lower_bound; [lia|]. change (2 ^ 1) with 2. lia. }
    assert (Hr16 : r <> [] -> 2 ^ l <= 2 ^ 15) by (intros; destruct r; [done|]; apply Z.pow_le_mono_r; cbn [length] in *; lia).
    destruct (Z.eqb_spec x 0) as [->|Hne].
    + assert (Hrn : r <> []) by (intros ->; done). specialize (Hr16 Hrn). rewrite (testbit_high 31 c) by lia. cbn [andb]. rewrite land16_small by lia.
      replace (2 * c) with (2 * (c + 0)) by lia. rewrite (IH (l + 1) (2 * (c + 0)) (p + 0) (k - 0)%nat); try done; try lia.
      do 2 f_equal. lia.
    + destruct (word_fields p (c + x - 1)) as (-> & -> & ->); [lia..|]. rewrite (proj2 (Z.leb_gt _ _)) by lia. cbn [andb].
      replace (2 * (c + x - 1 + 1)) with (2 * (c + x)) by lia.
      rewrite (IH (l + 1) (2 * (c + x)) (p + x) (k - Z.to_nat x)%nat); try done; try lia. do 2 f_equal. lia.
Qed.

(** ** Theorems *)

(** A table the standard allows: 16 counts, at most 256 symbols, and never
    more codes of a length than there is room for. *)
Definition huff_table_valid (bits : list Z) : Prop :=
  length bits = 17%nat /\ bytes (drop 1 bits) /\ sum_list (drop 1 bits) <= 256 /\ fits (drop 1 bits) 1 0.

(** C19: for every valid table [JPEGFW_FixHuffTbl] terminates, its code words
    form a prefix code (each fits its length, a later one is not shorter and
    none is the beginning of another), and the register words decode it: from
    any 16 bits that start with the k-th code word, the decoding procedure of
    the standard finds symbol k and the length of its code. *)
Theorem huffman_decodes bits :
  huff_table_valid bits ->
  exists codes regs, huffcodes bits = Some codes /\ JPEGFW_FixHuffTbl bits = Some regs /\
    length codes = length (huffsizes bits) /\
    (forall k l c, huffsizes bits !! k = Some l -> codes !! k = Some c -> 1 <= l <= 16 /\ 0 <= c < 2 ^ l) /\
    (forall i j l1 c1 l2 c2, (i < j)%nat ->
       huffsizes bits !! i = Some l1 -> codes !! i = Some c1 -> huffsizes bits !! j = Some l2 -> codes !! j = Some c2 ->
       l1 <= l2 /\ c1 < Z.shiftr c2 (l2 - l1)) /\
    (forall k l c v, huffsizes bits !! k = Some l -> codes !! k = Some c ->
       0 <= v < 2 ^ 16 -> Z.shiftr v (16 - l) = c -> decode_window regs 1 0 v = Some (Z.of_nat k, l)).
Proof.
  intros (Hl & Hb & Hs & Hf). destruct bits as [|b0 counts]; [done|]. cbn [drop] in *. rewrite drop_0 in *. cbn [length] in Hl.
  assert (Hlen : length counts = 16%nat) by lia. exists (snd <$> canon counts 1 0), (canon_regs counts 0 0).
  rewrite (huffsizes_canon b0 counts Hlen) with (c := 0) by (by eapply fits_nonneg).
  assert (P : forall k l c, (fst <$> canon counts 1 0) !! k = Some l -> (snd <$> canon counts 1 0) !! k = Some c ->
    canon counts 1 0 !! k = Some (l, c)).
  { intros k l c. rewrite !list_lookup_fmap. destruct (canon counts 1 0 !! k) as [[]|]; simpl; congruence. }
  split_and!.
  - by apply huffcodes_canon.
  - by apply FixHuffTbl_canon.
  - by rewrite !length_fmap.
  - intros k l c H1 H2. pose proof (P _ _ _ H1 H2) as H. apply list_elem_of_lookup_2, canon_range in H; [|lia|lia|done]. lia.
  - intros i j l1 c1 l2 c2 Hij ? ? ? ?. apply (canon_ordered counts 1 0 i j); auto; lia.
  - intros k l c v ? ? ? ?. apply (decode_canon counts 1 0 0 k l c v); auto; lia.
Qed.

Lemma huffman_decodes_witness :
  huff_table_valid jpeg_fw_lum_ac_bits_default /\
  exists codes regs, huffcodes jpeg_fw_lum_ac_bits_default = Some codes /\
    JPEGFW_FixHuffTbl jpeg_fw_lum_ac_bits_default = Some regs /\
    (forall k l c v, huffsizes jpeg_fw_lum_ac_bits_default !! k = Some l -> codes !! k = Some c ->
       0 <= v < 2 ^ 16 -> Z.shiftr v (16 - l) = c -> decode_window regs 1 0 v = Some (Z.of_nat k, l)).
Proof.
  assert (V : huff_table_valid jpeg_fw_lum_ac_bits_default).
  { split_and!; [done|repeat (constructor; [done|]); constructor|done|apply fitsb_spec; vm_compute; reflexivity]. }
  split; [exact V|]. destruct (huffman_decodes jpeg_fw_lum_ac_bits_default V) as (codes & regs & H1 & H2 & _ & _ & _ & H3).
  exists codes, regs. auto.
Defined.

(** For the default Huffman tables the constants the driver writes to the
    decoder, and copies to its symbol memory, are exactly what the general
    path computes from the tables and writes, register by register. *)
Lemma huffman_default_registers :
  exists t tab, JPEGFW_InitHuffTbl lum_dc lum_ac chr_dc chr_ac 3 empty_vld = Some t /\
    JPEGFW_build_hufftab_jpegDec lum_dc lum_ac chr_dc chr_ac 3 = Some tab /\
    JPEGFW_configure_vld_reg_jpegDec false t tab = JPEGFW_configure_vld_reg_jpegDec true t tab.
Proof. do 2 eexists. split_and!; [vm_compute; reflexivity|vm_compute; reflexivity|]. vm_compute. reflexivity. Qed.

(** The code of a symbol of a table, with its length. *)
Definition symbol_code (h : HUFF_TBL_T) (sym : Z) : option (Z * Z) :=
  let sizes := huffsizes (bits h) in
  codes ← huffcodes (bits h);
  '(k, _) ← list_find (Z.eq sym) (take (length sizes) (huffval h));
  l ← sizes !! k; c ← codes !! k; Some (l, c).

Definition enc_word (sym : Z) : option Z :=
  '(ll, lc) ← symbol_code lum_ac sym;
  '(cl, cc) ← symbol_code chr_ac sym;
  Some (Z.lor (Z.shiftl (Z.shiftl cc (16 - cl)) 16) (Z.shiftl lc (16 - ll))).

(** The encoder's code table agrees with the decoder's derivation: for
    every run of zeroes and every coefficient size of baseline JPEG, the word
    of [g_huff_tab_enc] holds the left-aligned code words that
    [JPEGFW_FixHuffTbl] assigns to that symbol in the luminance and the
    chrominance AC table. *)
Lemma huffman_encoder_table r s :
  0 <= r < 16 -> 1 <= s <= 10 ->
  exists w, enc_word (16 * r + s) = Some w /\ g_huff_tab_enc !! Z.to_nat (10 * r + s - 1) = Some w.
Proof.
  intros Hr Hs.
  assert (F : forallb (fun z => match enc_word (16 * (z / 10) + z mod 10 + 1), g_huff_tab_enc !! Z.to_nat z with
                                | Some a, Some b => a =? b | _, _ => false end) (seqZ 0 160) = true) by (vm_compute; reflexivity).
  pose proof (forall_below _ _ F (10 * r + s - 1) ltac:(lia)) as E. clear F. cbn beta in E.
  assert (Q : (10 * r + s - 1) / 10 = r /\ (10 * r + s - 1) mod 10 = s - 1) by (clear E; split; zlia). destruct Q as [Q1 Q2]. rewrite Q1, Q2 in E.
  replace (16 * r + (s - 1) + 1) with (16 * r + s) in E by (clear E; lia).
  destruct (enc_word _) as [a|]; [|done]. destruct (g_huff_tab_enc !! _) as [b|]; [|done].
  apply Z.eqb_eq in E. subst. eauto.
Qed.

Lemma huffman_encoder_table_witness :
  exists w, enc_word (16 * 3 + 2) = Some w /\ g_huff_tab_enc !! Z.to_nat (10 * 3 + 2 - 1) = Some w.
Proof. apply (huffman_encoder_table 3 2); lia. Defined.

(** A DC table with many codes of one length writes behind the symbol memory. *)
Lemma huffman_dc_overflow vals :
  length vals = 257%nat ->
  build_hufftab_DC (replicate HUFFTAB_LEN 0) (MkHuff (replicate 16 0 ++ [5]) vals) false = None.
Proof.
  intros Hv. do 5 (destruct vals as [|? vals]; [done|]). vm_compute. reflexivity.
Qed.

(** The reciprocals of the quantiser: for each level and coefficient the
    16 bit factor divided by the power of two is the reciprocal of the
    quantisation step, rounded to the nearest. *)
Definition reciprocal_ok (q n sh : Z) : bool := 2 * Z.abs (n * q - 2 ^ sh) <=? q.

Lemma quantiser_reciprocals :
  forallb (fun k => forallb (fun j =>
      let at_ t := nth j (nth k t []) 0 in
      reciprocal_ok (at_ jpeg_fw_lum_quant_tbl_default) (at_ jpeg_fw_new_lum_quant_tbl_default) (at_ jpeg_fw_new_lum_quant_tbl_default_shift) &&
      reciprocal_ok (at_ jpeg_fw_chr_quant_tbl_default) (at_ jpeg_fw_new_chr_quant_tbl_default) (at_ jpeg_fw_new_chr_quant_tbl_default_shift))
    (seq 0 64)) (seq 0 5) = true.
Proof. vm_compute. reflexivity. Qed.
