(* ===== verification/ExifStream.v ===== *)
(** The write stream of the EXIF writer:
    common/libs/libcamera/jpeg/jpeg_fw_8830/src/jpeg_stream.c.

    A stream writes to a buffer, and when it was given a function that writes
    a file it empties the buffer into the file.  Pointers into the buffer are
    offsets from its start; the buffer lies within the address space, so that
    no pointer wraps.  The function is a value of the stream and acts on the
    state [W] of the outside. *)
From S2P Require Import Prelude.

(** Big-endian integers. *)
Definition be16 (v : Z) : list Z := [u8 (Z.shiftr v 8); u8 v].
Definition be32 (v : Z) : list Z := [u8 (Z.shiftr v 24); u8 (Z.shiftr v 16); u8 (Z.shiftr v 8); u8 v].
Fixpoint be_dec_acc (a : Z) (l : list Z) : Z :=
  match l with [] => a | b :: r => be_dec_acc (256 * a + b) r end.
Definition be_dec (l : list Z) : Z := be_dec_acc 0 l.

Section Stream.
Context {W : Type}.

(** The data, the offset in the file and the outside; the answer, the number
    of bytes written and the outside. *)
Definition JINF_WRITE_FILE_FUNC : Type := list Z -> Z -> W -> bool * Z * W.

Record JPEG_WRITE_STREAM_CONTEXT_T := MkStream {
  write_buf : list Z;
  write_ptr : option Z;
  write_file_func : option JINF_WRITE_FILE_FUNC;
  write_file_size : Z;
  world : W }.
Implicit Types c : JPEG_WRITE_STREAM_CONTEXT_T.

Definition write_buf_size c : Z := zlen (write_buf c).

Definition set_ptr p c := MkStream (write_buf c) p (write_file_func c) (write_file_size c) (world c).
Definition set_file_size z c := MkStream (write_buf c) (write_ptr c) (write_file_func c) z (world c).

Definition Jpeg_WriteStreamToFile c : bool * JPEG_WRITE_STREAM_CONTEXT_T :=
  match write_file_func c with
  | Some f =>
    let write_size := match write_ptr c with Some p => Z.max p 0 | None => 0 end in
    let '(_, actual_write_size, w) := f (take (Z.to_nat write_size) (write_buf c)) (write_file_size c) (world c) in
    (actual_write_size =? write_size,
     MkStream (write_buf c) (Some 0) (write_file_func c) (write_file_size c +u actual_write_size) w)
  | None => (false, c)
  end.

Definition Jpeg_SetWritePos (offset : Z) c : bool * JPEG_WRITE_STREAM_CONTEXT_T :=
  let file_size := write_file_size c in
  match write_file_func c with
  | Some _ =>
    if (offset <? file_size) || (file_size +u write_buf_size c <=? offset) then
      let '(ok, c') := Jpeg_WriteStreamToFile c in
      if ok then (true, set_file_size offset (set_ptr (Some 0) c')) else (false, c')
    else (true, set_ptr (Some (offset - file_size)) c)
  | None =>
    if write_buf_size c <? offset then (false, c) else (true, set_ptr (Some offset) c)
  end.

Definition Jpeg_GetWritePos c : Z :=
  let write_pos :=
    match write_ptr c with
    | Some p => if (0 <=? p) && (p <=? write_buf_size c) then p else 0
    | None => 0
    end in
  match write_file_func c with
  | Some _ => write_pos +u write_file_size c
  | None => write_pos
  end.

(** The test that follows the flush looks at the pointer as it was before. *)
Definition Jpeg_WriteC (ch : Z) c : bool * JPEG_WRITE_STREAM_CONTEXT_T :=
  let p := match write_ptr c with Some p => p | None => 0 end in
  let c := set_ptr (Some p) c in
  let '(ok, c) := if write_buf_size c <=? p then Jpeg_WriteStreamToFile c else (true, c) in
  if negb ok then (false, c)
  else if write_buf_size c <? p + 1 then (false, c)
  else (true, MkStream (splice (write_buf c) (Z.to_nat p) [u8 ch]) (Some (p + 1))
                (write_file_func c) (write_file_size c) (world c)).

Definition Jpeg_WriteW (w : Z) c : bool * JPEG_WRITE_STREAM_CONTEXT_T :=
  let '(ok, c) := Jpeg_WriteC (u8 (Z.shiftr w 8)) c in
  if ok then Jpeg_WriteC (u8 w) c else (false, c).

Definition Jpeg_WriteL (l : Z) c : bool * JPEG_WRITE_STREAM_CONTEXT_T :=
  match write_ptr c with
  | Some p =>
    if write_buf_size c <? p + 4 then (false, c)
    else (true, MkStream (splice (write_buf c) (Z.to_nat p) (be32 l)) (Some (p + 4))
                  (write_file_func c) (write_file_size c) (world c))
  | None => (false, c)
  end.

Fixpoint write_block (l : list Z) c : bool * JPEG_WRITE_STREAM_CONTEXT_T :=
  match l with
  | [] => (true, c)
  | b :: r => let '(ok, c) := Jpeg_WriteC b c in if ok then write_block r c else (false, c)
  end.

Definition Jpeg_WriteBlock (block_buf_ptr : option (list Z)) c : bool * JPEG_WRITE_STREAM_CONTEXT_T :=
  match write_ptr c, block_buf_ptr with
  | Some _, Some l => write_block l c
  | _, _ => (false, c)
  end.
End Stream.
Arguments JPEG_WRITE_STREAM_CONTEXT_T : clear implicits.
Arguments JINF_WRITE_FILE_FUNC : clear implicits.

(** ** The byte order *)
Lemma be16_length v : length (be16 v) = 2%nat.
Proof. done. Qed.
Lemma be32_length v : length (be32 v) = 4%nat.
Proof. done. Qed.

Lemma be_dec_app a l1 l2 : be_dec_acc a (l1 ++ l2) = be_dec_acc (be_dec_acc a l1) l2.
Proof. revert a. induction l1 as [|b l1 IH]; intros a; simpl; [done|apply IH]. Qed.

Lemma be_dec_be16 v : 0 <= v < 2 ^ 16 -> be_dec (be16 v) = v.
Proof. intros H. unfold be_dec, be16, u8. simpl be_dec_acc. rewrite Z.shiftr_div_pow2 by lia. zlia. Qed.

Lemma be_dec_be32 v : is_u32 v -> be_dec (be32 v) = v.
Proof.
  unfold is_u32. intros H. unfold be_dec, be32, u8. simpl be_dec_acc.
  rewrite !Z.shiftr_div_pow2 by lia.
  change (2 ^ 24) with (256 * 256 * 256); change (2 ^ 16) with (256 * 256); change (2 ^ 8) with 256.
  rewrite <- !Z.div_div by lia.
  pose proof (Z.div_mod v 256). pose proof (Z.div_mod (v / 256) 256). pose proof (Z.div_mod (v / 256 / 256) 256).
  assert (E : v / 256 / 256 / 256 mod 256 = v / 256 / 256 / 256).
  { apply Z.mod_small. rewrite !Z.div_div by lia. split; [apply Z.div_pos; lia|].
    apply Z.div_lt_upper_bound; lia. }
  lia.
Qed.

Lemma wbe16_bytes v : bytes (be16 v).
Proof. unfold be16. solve_bytes; auto with words. Qed.
Lemma wbe32_bytes v : bytes (be32 v).
Proof. unfold be32. solve_bytes; auto with words. Qed.

(** ** A stream without a file *)
Abbreviation wctx := (JPEG_WRITE_STREAM_CONTEXT_T unit).
Definition mem_ctx (b : list Z) (p : Z) : wctx := MkStream b (Some p) None 0 tt.

Lemma writec_ok b p ch :
  0 <= p < zlen b -> Jpeg_WriteC ch (mem_ctx b p) = (true, mem_ctx (splice b (Z.to_nat p) [u8 ch]) (p + 1)).
Proof.
  intros H. unfold Jpeg_WriteC, mem_ctx, write_buf_size. cbn.
  rewrite (proj2 (Z.leb_gt _ _)) by lia. cbn. by rewrite (proj2 (Z.ltb_ge _ _)) by lia.
Qed.

Lemma writec_full b p ch : zlen b <= p -> Jpeg_WriteC ch (mem_ctx b p) = (false, mem_ctx b p).
Proof.
  intros H. unfold Jpeg_WriteC, mem_ctx, write_buf_size. cbn. by rewrite (proj2 (Z.leb_le _ _)) by lia.
Qed.

Lemma u8_idem z : u8 (u8 z) = u8 z.
Proof. apply u8_small, u8_byte. Qed.

Lemma writew_ok b p w :
  0 <= p -> p + 2 <= zlen b ->
  Jpeg_WriteW w (mem_ctx b p) = (true, mem_ctx (splice b (Z.to_nat p) (be16 w)) (p + 2)).
Proof.
  intros H1 H2. unfold Jpeg_WriteW. rewrite writec_ok by lia.
  rewrite writec_ok by (rewrite splice_length; simpl; lia).
  replace (p + 1 + 1) with (p + 2) by lia. do 2 f_equal.
  replace (Z.to_nat (p + 1)) with (Z.to_nat p + length [u8 (u8 (Z.shiftr w 8))])%nat by (simpl; lia).
  rewrite splice_app by (simpl; lia). by rewrite !u8_idem.
Qed.

Lemma writel_ok b p l :
  0 <= p -> p + 4 <= zlen b ->
  Jpeg_WriteL l (mem_ctx b p) = (true, mem_ctx (splice b (Z.to_nat p) (be32 l)) (p + 4)).
Proof.
  intros H1 H2. unfold Jpeg_WriteL, mem_ctx, write_buf_size. cbn. by rewrite (proj2 (Z.ltb_ge _ _)) by lia.
Qed.

Lemma setpos_ok b p off : off <= zlen b -> Jpeg_SetWritePos off (mem_ctx b p) = (true, mem_ctx b off).
Proof.
  intros H. unfold Jpeg_SetWritePos, mem_ctx, write_buf_size. cbn. by rewrite (proj2 (Z.ltb_ge _ _)) by lia.
Qed.

Lemma getpos_ok b p : 0 <= p <= zlen b -> Jpeg_GetWritePos (mem_ctx b p) = p.
Proof.
  intros H. unfold Jpeg_GetWritePos, mem_ctx, write_buf_size. cbn. by rewrite !(proj2 (Z.leb_le _ _)) by lia.
Qed.

Lemma writeblock_ok b p l :
  0 <= p -> p + zlen l <= zlen b -> bytes l ->
  write_block l (mem_ctx b p) = (true, mem_ctx (splice b (Z.to_nat p) l) (p + zlen l)).
Proof.
  revert b p. induction l as [|x l IH]; intros b p H1 H2 Hb.
  - cbn [write_block length]. rewrite splice_nil by (simpl in H2; lia). by rewrite Z.add_0_r.
  - inversion Hb as [|? ? Hx Hl]; subst. cbn [length] in H2 |- *. cbn [write_block].
    rewrite writec_ok by lia. rewrite IH; [|lia|rewrite splice_length; simpl; lia|done].
    rewrite u8_small by done. do 2 f_equal; [|lia].
    replace (Z.to_nat (p + 1)) with (Z.to_nat p + length [x])%nat by (simpl; lia).
    by rewrite splice_app by (simpl; lia).
Qed.

(** With a file, a byte that finds the buffer full empties it and is lost. *)
Lemma writec_loses_byte {W} (f : JINF_WRITE_FILE_FUNC W) b w size :
  (forall d off v, f d off v = (true, zlen d, v)) ->
  forall ch, let '(ok, c) := Jpeg_WriteC ch (MkStream b (Some (zlen b)) (Some f) size w) in
  ok = false /\ write_ptr c = Some 0 /\ write_buf c = b.
Proof.
  intros Hf ch. unfold Jpeg_WriteC, Jpeg_WriteStreamToFile, write_buf_size. cbn.
  rewrite Z.leb_refl, Z.max_l, Nat2Z.id, take_ge, Hf by lia. cbn. rewrite Z.eqb_refl. cbn.
  by rewrite (proj2 (Z.ltb_lt _ _)) by lia.
Qed.
