(* ===== verification/ExifData.v ===== *)
(** The data of the EXIF writer: the structures of
    common/libs/libcamera/sc8830/inc/jpeg_exif_header.h and the tags of
    jpeg_fw_8830/inc/jpeg_exif_type.h.

    A pointer that may be null is an [option].  A C array is given by a list;
    its memory is the list cut or filled with zeros to the length of the
    array, as little-endian bytes ([mem_bytes], [mem_shorts] and so on), which
    is what the writer's [value_ptr] points to. *)
From S2P Require Import Prelude.

(** ** Tags and types *)
Definition IFD_BYTE : Z := 1.
Definition IFD_ASCII : Z := 2.
Definition IFD_SHORT : Z := 3.
Definition IFD_LONG : Z := 4.
Definition IFD_RATIONAL : Z := 5.
Definition IFD_UNDEFINED : Z := 7.
Definition IFD_SLONG : Z := 9.
Definition IFD_SRATIONAL : Z := 10.

Definition IFD_GPSVERSIONID : Z := 0x00.
Definition IFD_GPSLATITUDEREF : Z := 0x01.
Definition IFD_GPSLATITUDE : Z := 0x02.
Definition IFD_GPSLONGITUDEREF : Z := 0x03.
Definition IFD_GPSLONGITUDE : Z := 0x04.
Definition IFD_GPSALTITUDEREF : Z := 0x05.
Definition IFD_GPSALTITUDE : Z := 0x06.
Definition IFD_GPSTIMESTAMP : Z := 0x07.
Definition IFD_GPSSATELLITES : Z := 0x08.
Definition IFD_GPSSTATUS : Z := 0x09.
Definition IFD_GPSMEASUREMODE : Z := 0x0a.
Definition IFD_GPSDOP : Z := 0x0b.
Definition IFD_GPSSPEEDREF : Z := 0x0c.
Definition IFD_GPSSPEED : Z := 0x0d.
Definition IFD_GPSTRACKREF : Z := 0x0e.
Definition IFD_GPSTRACK : Z := 0x0f.
Definition IFD_GPSIMGDIRECTIONREF : Z := 0x10.
Definition IFD_GPSIMGDIRECTION : Z := 0x11.
Definition IFD_GPSMAPDATUM : Z := 0x12.
Definition IFD_GPSDESTLATITUDEREF : Z := 0x13.
Definition IFD_GPSDESTLATITUDE : Z := 0x14.
Definition IFD_GPSDESTLONGITUDEREF : Z := 0x15.
Definition IFD_GPSDESTLONGITUDE : Z := 0x16.
Definition IFD_GPSDESTBEARINGREF : Z := 0x17.
Definition IFD_GPSDESTBEARING : Z := 0x18.
Definition IFD_GPSDESTDISTANCEREF : Z := 0x19.
Definition IFD_GPSDESTDISTANCE : Z := 0x1a.
Definition IFD_GPSPROCESSINGMETHOD : Z := 0x1b.
Definition IFD_GPSAREAINFORMATION : Z := 0x1c.
Definition IFD_GPSDATESTAMP : Z := 0x1d.
Definition IFD_GPSDIFFERENTIAL : Z := 0x1e.
Definition IFD_IMAGEWIDTH : Z := 0x100.
Definition IFD_IMAGELENGTH : Z := 0x101.
Definition IFD_COMPRESSION : Z := 0x103.
Definition IFD_IMAGEDESCRIPTION : Z := 0x10e.
Definition IFD_MAKE : Z := 0x10f.
Definition IFD_MODEL : Z := 0x110.
Definition IFD_ORIENTATION : Z := 0x112.
Definition IFD_XRESOLUTION : Z := 0x11A.
Definition IFD_YRESOLUTION : Z := 0x11B.
Definition IFD_RESOLUTIONUNIT : Z := 0x128.
Definition IFD_TRANSFERFUNCTION : Z := 0x12D.
Definition IFD_SOFTWARE : Z := 0x131.
Definition IFD_DATETIME : Z := 0x132.
Definition IFD_ARTIST : Z := 0x13B.
Definition IFD_WHITEPOINT : Z := 0x13E.
Definition IFD_PRIMARYCHROMATICITIES : Z := 0x13F.
Definition IFD_JPEGINTERCHANGEFORMAT : Z := 0x201.
Definition IFD_JPEGINTERCHANGEFORMATLENGTH : Z := 0x202.
Definition IFD_YCBCRCOEFFICIENTS : Z := 0x211.
Definition IFD_YCBCRPOSITION : Z := 0x213.
Definition IFD_REFERENCEBLACKWHITE : Z := 0x214.
Definition IFD_COPYRIGHT : Z := 0x8298.
Definition IFD_EXIFIFDPOINTER : Z := 0x8769.
Definition IFD_GPSIFDPOINTER : Z := 0x8825.
Definition IFD_EXPOSURETIME : Z := 0x829A.
Definition IFD_FNUMBER : Z := 0x829D.
Definition IFD_EXPOSUREPROGRAM : Z := 0x8822.
Definition IFD_SPECTRALSENSITIVITY : Z := 0x8824.
Definition IFD_ISOSPEEDRATINGS : Z := 0x8827.
Definition IFD_OECF : Z := 0x8828.
Definition IFD_EXIFVERSION : Z := 0x9000.
Definition IFD_DATETIMEORIGINAL : Z := 0x9003.
Definition IFD_DATETIMEDIGITILIZED : Z := 0x9004.
Definition IFD_COMPONENTSCONFIGURATION : Z := 0x9101.
Definition IFD_COMPRESSEDBITSPERPIXEL : Z := 0x9102.
Definition IFD_SHUTTERSPEEDVALUE : Z := 0x9201.
Definition IFD_APERTUREVALUE : Z := 0x9202.
Definition IFD_BRIGHTNESSVALUE : Z := 0x9203.
Definition IFD_EXPOSUREBIASVALUE : Z := 0x9204.
Definition IFD_MAXAPERTUREVALUE : Z := 0x9205.
Definition IFD_SUBJECTDISTANCE : Z := 0x9206.
Definition IFD_METERINGMODE : Z := 0x9207.
Definition IFD_LIGHTSOURCE : Z := 0x9208.
Definition IFD_FLASH : Z := 0x9209.
Definition IFD_FOCALLENGTH : Z := 0x920A.
Definition IFD_SUBJECTAREA : Z := 0x9214.
Definition IFD_MAKERNOTE : Z := 0x927C.
Definition IFD_USERCOMMENT : Z := 0x9286.
Definition IFD_SUBSECTIME : Z := 0x9290.
Definition IFD_SUBSECTIMEORIGINAL : Z := 0x9291.
Definition IFD_SUBSECTIMEDIGITILIZED : Z := 0x9292.
Definition IFD_FLASHPIXVERSION : Z := 0xA000.
Definition IFD_COLORSPACE : Z := 0xA001.
Definition IFD_PIXELXDIMENSION : Z := 0xA002.
Definition IFD_PIXELYDIMENSION : Z := 0xA003.
Definition IFD_RELATEDSOUNDFILE : Z := 0xA004.
Definition IFD_INTEROPERABILITYIFDPOINTER : Z := 0xA005.
Definition IFD_FLASHENERGY : Z := 0xA20B.
Definition IFD_SPATIALFREQUENCYRESPONSE : Z := 0xA20C.
Definition IFD_FOCALPLANEXRESOLUTION : Z := 0xA20E.
Definition IFD_FOCALPLANEYRESOLUTION : Z := 0xA20F.
Definition IFD_FOCALPLANERESOLUTIONUNIT : Z := 0xA210.
Definition IFD_SUBJECTLOCATION : Z := 0xA214.
Definition IFD_EXPOSUREINDEX : Z := 0xA215.
Definition IFD_SENSINGMETHOD : Z := 0xA217.
Definition IFD_FILESOURCE : Z := 0xA300.
Definition IFD_SCENETYPE : Z := 0xA301.
Definition IFD_CFAPATTERN : Z := 0xA302.
Definition IFD_CUSTOMRENDERED : Z := 0xA401.
Definition IFD_EXPOSUREMODE : Z := 0xA402.
Definition IFD_WHITEBALANCE : Z := 0xA403.
Definition IFD_DIGITALZOOMRATIO : Z := 0xA404.
Definition IFD_FOCALLENGTHIN35MMFILM : Z := 0xA405.
Definition IFD_SCENECAPTURETYPE : Z := 0xA406.
Definition IFD_GAINCONTROL : Z := 0xA407.
Definition IFD_CONTRAST : Z := 0xA408.
Definition IFD_SATURATION : Z := 0xA409.
Definition IFD_SHARPNESS : Z := 0xA40A.
Definition IFD_DEVICESETTINGDESCRIPTION : Z := 0xA40B.
Definition IFD_SUBJECTDISTANCERANGE : Z := 0xA40C.
Definition IFD_IMAGEUNIQUEID : Z := 0xa420.
Definition IFD_INTEROPERABILITYINDEX : Z := 0x0001.
Definition IFD_INTEROPERABILITYVERSION : Z := 0x0002.

(** ** Structures *)
Record EXIF_RATIONAL_T := MkRational { numerator : Z; denominator : Z }.

(** Signed numerator and denominator. *)
Record EXIF_SRATIONAL_T := MkSRational { s_numerator : Z; s_denominator : Z }.

(** [c_type] and [c_size] are not read by the writer; [c_ptr] is an array of
    256 bytes inside the structure. *)
Record EXIF_CUSTOM_T := MkCustom { c_type : Z; c_ptr : list Z; c_count : Z; c_size : Z }.

Record EXIF_PRI_BASIC_T := MkPriBasic {
  YCbCrPositioning : Z; XResolution : EXIF_RATIONAL_T; YResolution : EXIF_RATIONAL_T; ResolutionUnit : Z;
  ImageWidth : Z; ImageLength : Z }.

Record EXIF_PRI_DATA_STRUCT_VALID_T := MkPriDataStructValid {
  v_Orientation : bool; v_Reserved : bool }.

Record EXIF_PRI_DATA_STRUCT_T := MkPriDataStruct {
  ds_valid : EXIF_PRI_DATA_STRUCT_VALID_T; Orientation : Z; Reserved : Z }.

Record EXIF_PRI_DATA_CHAR_VALID_T := MkPriDataCharValid {
  v_TransferFunction : bool; v_WhitePoint : bool; v_PrimaryChromaticities : bool; v_YCbCrCoefficients : bool;
  v_ReferenceBlackWhite : bool }.

Record EXIF_PRI_DATA_CHAR_T := MkPriDataChar {
  dc_valid : EXIF_PRI_DATA_CHAR_VALID_T; TransferFunction : list Z; WhitePoint : list EXIF_RATIONAL_T;
  PrimaryChromaticities : list EXIF_RATIONAL_T; YCbCrCoefficients : list EXIF_RATIONAL_T;
  ReferenceBlackWhite : list EXIF_RATIONAL_T }.

Record EXIF_PRI_DESC_VALID_T := MkPriDescValid {
  v_DateTime : bool; v_ImageDescription : bool; v_Make : bool; v_Model : bool; v_Software : bool;
  v_Artist : bool; v_Copyright : bool }.

Record EXIF_PRI_DESC_T := MkPriDesc {
  desc_valid : EXIF_PRI_DESC_VALID_T; DateTime : list Z; ImageDescription : list Z; Make : list Z;
  Model : list Z; Software : list Z; Artist : list Z; Copyright : list Z }.

Record EXIF_PRIMARY_INFO_T := MkPrimaryInfo {
  pri_basic : EXIF_PRI_BASIC_T; data_struct_ptr : option EXIF_PRI_DATA_STRUCT_T;
  data_char_ptr : option EXIF_PRI_DATA_CHAR_T; img_desc_ptr : option EXIF_PRI_DESC_T; pri_reserved : Z }.

Record EXIF_SPEC_BASIC_T := MkSpecBasic {
  ColorSpace : Z; ComponentsConfiguration : list Z; PixelXDimension : Z; PixelYDimension : Z }.

Record EXIF_SPEC_VERSION_T := MkSpecVersion {
  ExifVersion : list Z; FlashpixVersion : list Z }.

Record EXIF_SPEC_IMG_CONFIG_VALID_T := MkSpecImgConfigValid {
  v_CompressedBitsPerPixel : bool }.

Record EXIF_SPEC_IMG_CONFIG_T := MkSpecImgConfig {
  cfg_valid : EXIF_SPEC_IMG_CONFIG_VALID_T; CompressedBitsPerPixel : EXIF_RATIONAL_T }.

Record EXIF_SPEC_USER_VALID_T := MkSpecUserValid {
  v_MakerNote : bool; v_UserComment : bool }.

Record EXIF_SPEC_USER_T := MkSpecUser {
  user_valid : EXIF_SPEC_USER_VALID_T; MakerNote : EXIF_CUSTOM_T; UserComment : EXIF_CUSTOM_T }.

Record EXIF_SPEC_RELATED_FILE_VALID_T := MkSpecRelatedFileValid {
  v_RelatedSoundFile : bool }.

Record EXIF_SPEC_RELATED_FILE_T := MkSpecRelatedFile {
  rel_valid : EXIF_SPEC_RELATED_FILE_VALID_T; RelatedSoundFile : list Z }.

Record EXIF_SPEC_DATE_TIME_VALID_T := MkSpecDateTimeValid {
  v_DateTimeOriginal : bool; v_DateTimeDigitized : bool; v_SubSecTime : bool; v_SubSecTimeOriginal : bool;
  v_SubSecTimeDigitized : bool }.

Record EXIF_SPEC_DATE_TIME_T := MkSpecDateTime {
  dt_valid : EXIF_SPEC_DATE_TIME_VALID_T; DateTimeOriginal : list Z; DateTimeDigitized : list Z;
  SubSecTime : list Z; SubSecTimeOriginal : list Z; SubSecTimeDigitized : list Z }.

Record EXIF_SPEC_PIC_TAKING_COND_VALID_T := MkSpecPicTakingCondValid {
  v_ExposureTime : bool; v_FNumber : bool; v_ExposureProgram : bool; v_SpectralSensitivity : bool;
  v_ISOSpeedRatings : bool; v_OECF : bool; v_ShutterSpeedValue : bool; v_ApertureValue : bool;
  v_BrightnessValue : bool; v_ExposureBiasValue : bool; v_MaxApertureValue : bool; v_SubjectDistance : bool;
  v_MeteringMode : bool; v_LightSource : bool; v_Flash : bool; v_FocalLength : bool; v_SubjectArea : bool;
  v_FlashEnergy : bool; v_SpatialFrequencyResponse : bool; v_FocalPlaneXResolution : bool;
  v_FocalPlaneYResolution : bool; v_FocalPlaneResolutionUnit : bool; v_SubjectLocation : bool;
  v_ExposureIndex : bool; v_SensingMethod : bool; v_FileSource : bool; v_SceneType : bool;
  v_CFAPattern : bool; v_CustomRendered : bool; v_ExposureMode : bool; v_WhiteBalance : bool;
  v_DigitalZoomRatio : bool; v_FocalLengthIn35mmFilm : bool; v_SceneCaptureType : bool; v_GainControl : bool;
  v_Contrast : bool; v_Saturation : bool; v_Sharpness : bool; v_DeviceSettingDescription : bool;
  v_SubjectDistanceRange : bool }.

Record EXIF_SPEC_PIC_TAKING_COND_T := MkSpecPicTakingCond {
  ptc_valid : EXIF_SPEC_PIC_TAKING_COND_VALID_T; ExposureTime : EXIF_RATIONAL_T; FNumber : EXIF_RATIONAL_T;
  ExposureProgram : Z; SpectralSensitivity : list Z; ISOSpeedRatings : EXIF_CUSTOM_T; OECF : EXIF_CUSTOM_T;
  ShutterSpeedValue : EXIF_SRATIONAL_T; ApertureValue : EXIF_RATIONAL_T; BrightnessValue : EXIF_SRATIONAL_T;
  ExposureBiasValue : EXIF_SRATIONAL_T; MaxApertureValue : EXIF_RATIONAL_T;
  SubjectDistance : EXIF_RATIONAL_T; MeteringMode : Z; LightSource : Z; Flash : Z;
  FocalLength : EXIF_RATIONAL_T; SubjectArea : EXIF_CUSTOM_T; FlashEnergy : EXIF_RATIONAL_T;
  SpatialFrequencyResponse : EXIF_CUSTOM_T; FocalPlaneXResolution : EXIF_RATIONAL_T;
  FocalPlaneYResolution : EXIF_RATIONAL_T; FocalPlaneResolutionUnit : Z; SubjectLocation : list Z;
  ExposureIndex : EXIF_RATIONAL_T; SensingMethod : Z; FileSource : Z; SceneType : Z;
  CFAPattern : EXIF_CUSTOM_T; CustomRendered : Z; ExposureMode : Z; WhiteBalance : Z;
  DigitalZoomRatio : EXIF_RATIONAL_T; FocalLengthIn35mmFilm : Z; SceneCaptureType : Z; GainControl : Z;
  Contrast : Z; Saturation : Z; Sharpness : Z; DeviceSettingDescription : EXIF_CUSTOM_T;
  SubjectDistanceRange : Z }.

Record EXIF_SPEC_OTHER_VALID_T := MkSpecOtherValid {
  v_ImageUniqueID : bool }.

Record EXIF_SPEC_OTHER_T := MkSpecOther {
  oth_valid : EXIF_SPEC_OTHER_VALID_T; ImageUniqueID : list Z }.

Record EXIF_SPECIFIC_INFO_T := MkSpecificInfo {
  spec_basic : EXIF_SPEC_BASIC_T; version_ptr : option EXIF_SPEC_VERSION_T;
  img_config_ptr : option EXIF_SPEC_IMG_CONFIG_T; user_ptr : option EXIF_SPEC_USER_T;
  related_file_ptr : option EXIF_SPEC_RELATED_FILE_T; date_time_ptr : option EXIF_SPEC_DATE_TIME_T;
  pic_taking_cond_ptr : option EXIF_SPEC_PIC_TAKING_COND_T; other_ptr : option EXIF_SPEC_OTHER_T }.

Record EXIF_GPS_VALID_T := MkGpsValid {
  v_GPSVersionID : bool; v_GPSLatitudeRef : bool; v_GPSLatitude : bool; v_GPSLongitudeRef : bool;
  v_GPSLongitude : bool; v_GPSAltitudeRef : bool; v_GPSAltitude : bool; v_GPSTimeStamp : bool;
  v_GPSSatellites : bool; v_GPSStatus : bool; v_GPSMeasureMode : bool; v_GPSDOP : bool; v_GPSSpeedRef : bool;
  v_GPSSpeed : bool; v_GPSTrackRef : bool; v_GPSTrack : bool; v_GPSImgDirectionRef : bool;
  v_GPSImgDirection : bool; v_GPSMapDatum : bool; v_GPSDestLatitudeRef : bool; v_GPSDestLatitude : bool;
  v_GPSDestLongitudeRef : bool; v_GPSDestLongitude : bool; v_GPSDestBearingRef : bool;
  v_GPSDestBearing : bool; v_GPSDestDistanceRef : bool; v_GPSDestDistance : bool;
  v_GPSProcessingMethod : bool; v_GPSAreaInformation : bool; v_GPSDateStamp : bool; v_GPSDifferential : bool }.

Record EXIF_GPS_INFO_T := MkGpsInfo {
  gps_valid : EXIF_GPS_VALID_T; GPSVersionID : list Z; GPSLatitudeRef : list Z;
  GPSLatitude : list EXIF_RATIONAL_T; GPSLongitudeRef : list Z; GPSLongitude : list EXIF_RATIONAL_T;
  GPSAltitudeRef : Z; GPSAltitude : EXIF_RATIONAL_T; GPSTimeStamp : list EXIF_RATIONAL_T;
  GPSSatellites : list Z; GPSStatus : list Z; GPSMeasureMode : list Z; GPSDOP : EXIF_RATIONAL_T;
  GPSSpeedRef : list Z; GPSSpeed : EXIF_RATIONAL_T; GPSTrackRef : list Z; GPSTrack : EXIF_RATIONAL_T;
  GPSImgDirectionRef : list Z; GPSImgDirection : EXIF_RATIONAL_T; GPSMapDatum : list Z;
  GPSDestLatitudeRef : list Z; GPSDestLatitude : list EXIF_RATIONAL_T; GPSDestLongitudeRef : list Z;
  GPSDestLongitude : list EXIF_RATIONAL_T; GPSDestBearingRef : list Z; GPSDestBearing : EXIF_RATIONAL_T;
  GPSDestDistanceRef : list Z; GPSDestDistance : EXIF_RATIONAL_T; GPSProcessingMethod : EXIF_CUSTOM_T;
  GPSAreaInformation : EXIF_CUSTOM_T; GPSDateStamp : list Z; GPSDifferential : Z }.

Record EXIF_INTEROPERABILITY_VALID_T := MkInteroperabilityValid {
  v_InteroperabilityIndex : bool }.

Record EXIF_INTEROPERABILITY_INFO_T := MkInteroperabilityInfo {
  inter_valid : EXIF_INTEROPERABILITY_VALID_T; InteroperabilityIndex : EXIF_CUSTOM_T }.

Record JINF_EXIF_INFO_T := MkInfo {
  primary : EXIF_PRIMARY_INFO_T; spec_ptr : option EXIF_SPECIFIC_INFO_T; gps_ptr : option EXIF_GPS_INFO_T;
  inter_ptr : option EXIF_INTEROPERABILITY_INFO_T }.

(** ** The memory of a field *)
Definition mem_bytes (n : nat) (l : list Z) : list Z := take n ((u8 <$> l) ++ replicate n 0).
Definition mem_short (v : Z) : list Z := le16 v.
Definition mem_long (v : Z) : list Z := le32 v.
Definition mem_rational (r : EXIF_RATIONAL_T) : list Z := le32 (numerator r) ++ le32 (denominator r).
Definition mem_srational (r : EXIF_SRATIONAL_T) : list Z := le32 (s_numerator r) ++ le32 (s_denominator r).
Definition mem_shorts (n : nat) (l : list Z) : list Z := mjoin (mem_short <$> take n (l ++ replicate n 0)).
Definition mem_rationals (n : nat) (l : list EXIF_RATIONAL_T) : list Z :=
  mjoin (mem_rational <$> take n (l ++ replicate n (MkRational 0 0))).
