(* ===== verification/ExifWriter.v ===== *)
(** The EXIF writer: common/libs/libcamera/jpeg/jpeg_fw_8830/src/exif_writer.c
    up to [Jpeg_WriteAPP1].

    Each of the directories is a sequence of blocks of one shape: a test of
    the valid flag, the assignments to [ifd_info], one of the four functions
    that write an entry, and a count.  A block is a [block]; the tables
    [gps_items_1] and so on list the blocks in the order of the source, and
    [write_items] is the code they have in common.  [ifd_info] is assigned
    anew by every block.

    [M] is the state of the stream, with an early return of an error code as
    [inl] and undefined behaviour (a read outside a field) as [None]. *)
From S2P Require Import Prelude ExifStream ExifData.

Inductive JPEG_RET_E := JPEG_SUCCESS | JPEG_FAILED | JPEG_MEMORY_NOT_ENOUGH | JPEGE_INVALID_ARGUMENT.
#[export] Instance JPEG_RET_E_eq_dec : EqDecision JPEG_RET_E.
Proof. solve_decision. Defined.

(** ** The monad *)
Definition M (A : Type) : Type := wctx -> option ((JPEG_RET_E + A) * wctx).
#[export] Instance M_ret : MRet M := fun A a c => Some (inr a, c).
#[export] Instance M_bind : MBind M := fun A B f m c =>
  match m c with
  | Some (inr a, c') => f a c'
  | Some (inl e, c') => Some (inl e, c')
  | None => None
  end.
Definition throw {A} (e : JPEG_RET_E) : M A := fun c => Some (inl e, c).
Definition stream {A} (f : wctx -> A * wctx) : M A := fun c => let '(a, c') := f c in Some (inr a, c').
Definition getpos : M Z := fun c => Some (inr (Jpeg_GetWritePos c), c).
Definition of_option {A} (o : option A) : M A := fun c => a ← o; Some (inr a, c).

(** [if (!m) return r;] in a function that returns a value. *)
Definition guardb {A} (m : M bool) (r : A) (k : M A) : M A := b ← m; if b : bool then k else mret r.
(** [JPEG_WRITE_DATA(..., return JPEG_FAILED)]. *)
Definition write_data (f : wctx -> bool * wctx) : M unit :=
  b ← stream f; if b : bool then mret tt else throw JPEG_FAILED.
(** A call whose result is ignored. *)
Definition call (f : wctx -> bool * wctx) : M unit := stream f ;; mret tt.

Definition JPEG_ALIGN_4 (z : Z) : Z := u32 (Z.shiftl (Z.shiftr (z +u 3) 2) 2).
Definition IFD_HEAD_LENGTH : Z := 12.

(** Reads of the host's memory. *)
Definition mem8 (m : list Z) (i : nat) : option Z := m !! i.
Definition mem16 (m : list Z) (i : nat) : option Z :=
  if (i + 2 <=? length m)%nat then Some (get16 m i) else None.
Definition mem32 (m : list Z) (i : nat) : option Z :=
  if (i + 4 <=? length m)%nat then Some (get32 m i) else None.

(** [_GetAsciiStringSize] plus one, with which it is always used. *)
Fixpoint _GetAsciiStringSize (m : list Z) : option Z :=
  match m with
  | [] => None
  | c :: r => if c =? 0 then Some 0 else n ← _GetAsciiStringSize r; Some (n + 1)
  end.
Definition string_count (m : list Z) : option Z := n ← _GetAsciiStringSize m; Some (n + 1).

(** ** One entry

    [value_offset] is the union, as the four bytes it occupies. *)
Record IFD_INFO_T := MkIFD {
  tag : Z; type : Z; count : Z; value_offset : list Z; value_ptr : option (list Z) }.
Definition set_value_offset (v : list Z) (i : IFD_INFO_T) : IFD_INFO_T :=
  MkIFD (tag i) (type i) (count i) v (value_ptr i).
Definition long_value (i : IFD_INFO_T) : Z := get32 (value_offset i) 0.
Definition short_value (i : IFD_INFO_T) (k : nat) : Z := get16 (value_offset i) (2 * k).
Definition byte_value (i : IFD_INFO_T) (k : nat) : Z := nth k (value_offset i) 0.

Definition is_byte_type (t : Z) : bool := (t =? IFD_BYTE) || (t =? IFD_ASCII) || (t =? IFD_UNDEFINED).

(** The last field of the entry. *)
Definition offset_value (i : IFD_INFO_T) : Z :=
  if is_byte_type (type i) && (count i <=? 4) then
    Z.lor (Z.lor (Z.lor (Z.shiftl (byte_value i 0) 24) (Z.shiftl (byte_value i 1) 16))
             (Z.shiftl (byte_value i 2) 8)) (byte_value i 3)
  else if (type i =? IFD_SHORT) && (count i <=? 2) then
    Z.lor (Z.shiftl (short_value i 0) 16) (short_value i 1)
  else long_value i.

Definition Jpeg_WriteIFD (i : IFD_INFO_T) : M bool :=
  guardb (stream (Jpeg_WriteW (tag i))) false
  (guardb (stream (Jpeg_WriteW (type i))) false
  (guardb (stream (Jpeg_WriteL (count i))) false
  (guardb (stream (Jpeg_WriteL (offset_value i))) false (mret true)))).

Fixpoint write_rationals (m : list Z) (i n : nat) : M bool :=
  match n with
  | O => mret true
  | S k =>
    a ← of_option (mem32 m (8 * i)); guardb (stream (Jpeg_WriteL a)) false
    (b ← of_option (mem32 m (8 * i + 4)); guardb (stream (Jpeg_WriteL b)) false
    (write_rationals m (S i) k))
  end.
Fixpoint write_longs (m : list Z) (i n : nat) : M bool :=
  match n with
  | O => mret true
  | S k => a ← of_option (mem32 m (4 * i)); guardb (stream (Jpeg_WriteL a)) false (write_longs m (S i) k)
  end.
Fixpoint write_shorts (m : list Z) (i n : nat) : M bool :=
  match n with
  | O => mret true
  | S k => a ← of_option (mem16 m (2 * i)); guardb (stream (Jpeg_WriteW a)) false (write_shorts m (S i) k)
  end.
Fixpoint write_chars (m : list Z) (i n : nat) : M bool :=
  match n with
  | O => mret true
  | S k => a ← of_option (mem8 m i); guardb (stream (Jpeg_WriteC a)) false (write_chars m (S i) k)
  end.

(** The four functions: their answer, [*ifd_offset_ptr] and
    [*value_offset_ptr]. *)
Definition Jpeg_WriteRationalIFD (i : IFD_INFO_T) (ifdo vo : Z) : M (bool * Z * Z) :=
  let bad := (false, ifdo, vo) in
  match value_ptr i with
  | None => mret bad
  | Some ptr =>
    guardb (stream (Jpeg_SetWritePos ifdo)) bad
    (guardb (Jpeg_WriteIFD i) bad
    (ifdo' ← getpos;
     guardb (stream (Jpeg_SetWritePos vo)) bad
    (guardb (write_rationals ptr 0 (Z.to_nat (count i))) bad
    (pos ← getpos;
     mret (true, ifdo', JPEG_ALIGN_4 pos)))))
  end.

Definition Jpeg_WriteLongIFD (i : IFD_INFO_T) (ifdo vo : Z) : M (bool * Z * Z) :=
  let bad := (false, ifdo, vo) in
  match value_ptr i with
  | None => mret bad
  | Some ptr =>
    i ← (if count i <=? 1 then v ← of_option (mem32 ptr 0); mret (set_value_offset (le32 v) i) else mret i);
    guardb (stream (Jpeg_SetWritePos ifdo)) bad
    (guardb (Jpeg_WriteIFD i) bad
    (ifdo' ← getpos;
     if 1 <? count i then
       guardb (stream (Jpeg_SetWritePos vo)) bad
       (guardb (write_longs ptr 0 (Z.to_nat (count i))) bad
       (pos ← getpos;
        mret (true, ifdo', JPEG_ALIGN_4 pos)))
     else mret (true, ifdo', vo)))
  end.

(** A failure in the loop returns JPEG_FAILED, which is not zero: to the
    caller the function succeeded, and has not moved the offsets. *)
Definition Jpeg_WriteShortIFD (i : IFD_INFO_T) (ifdo vo : Z) : M (bool * Z * Z) :=
  let bad := (false, ifdo, vo) in
  match value_ptr i with
  | None => mret bad
  | Some ptr =>
    i ← (if count i <=? 2 then
           s0 ← of_option (mem16 ptr 0);
           s1 ← (if count i =? 2 then of_option (mem16 ptr 2) else mret 0);
           mret (set_value_offset (le16 s0 ++ le16 s1) i)
         else mret i);
    guardb (stream (Jpeg_SetWritePos ifdo)) bad
    (guardb (Jpeg_WriteIFD i) bad
    (ifdo' ← getpos;
     if 2 <? count i then
       guardb (stream (Jpeg_SetWritePos vo)) bad
       (guardb (write_shorts ptr 0 (Z.to_nat (count i))) (true, ifdo, vo)
       (pos ← getpos;
        mret (true, ifdo', JPEG_ALIGN_4 pos)))
     else mret (true, ifdo', vo)))
  end.

(** The switch copies [count] bytes into the union, whose other bytes keep
    the offset that was stored there. *)
Definition Jpeg_WriteByteIFD (i : IFD_INFO_T) (ifdo vo : Z) : M (bool * Z * Z) :=
  let bad := (false, ifdo, vo) in
  match value_ptr i with
  | None => mret bad
  | Some ptr =>
    i ← (if count i <=? 4 then
           bs ← of_option (load ptr 0 (count i));
           mret (set_value_offset (splice (value_offset i) 0 bs) i)
         else mret i);
    guardb (stream (Jpeg_SetWritePos ifdo)) bad
    (guardb (Jpeg_WriteIFD i) bad
    (ifdo' ← getpos;
     if 4 <? count i then
       guardb (stream (Jpeg_SetWritePos vo)) bad
       (guardb (write_chars ptr 0 (Z.to_nat (count i))) (true, ifdo, vo)
       (pos ← getpos;
        mret (true, ifdo', JPEG_ALIGN_4 pos)))
     else mret (true, ifdo', vo)))
  end.

(** ** Blocks *)
Inductive writer := WRational | WLong | WShort | WByte.

(** What a block stores in [ifd_info].  [it_count] is [None] when the string
    it counts has no end.  [it_union] is the value of the union in the blocks
    that store a short there instead of the offset. *)
Record block := MkBlock {
  it_tag : Z; it_type : Z; it_count : option Z; it_writer : writer; it_mem : list Z; it_union : option (list Z) }.

Definition write_ifd (w : writer) : IFD_INFO_T -> Z -> Z -> M (bool * Z * Z) :=
  match w with
  | WRational => Jpeg_WriteRationalIFD
  | WLong => Jpeg_WriteLongIFD
  | WShort => Jpeg_WriteShortIFD
  | WByte => Jpeg_WriteByteIFD
  end.

(** [ifd_offset], [ifd_value_offset] and [entries]. *)
Record cursor := MkCur { ifd_offset : Z; ifd_value_offset : Z; entries : Z }.

Definition write_item (ifh_offset : Z) (it : block) (k : cursor) : M cursor :=
  n ← of_option (it_count it);
  let u := match it_union it with Some u => u | None => le32 (ifd_value_offset k -u ifh_offset) end in
  '(ok, o, v) ← write_ifd (it_writer it) (MkIFD (it_tag it) (it_type it) n u (Some (it_mem it)))
                  (ifd_offset k) (ifd_value_offset k);
  if ok : bool then mret (MkCur o v (u16 (entries k + 1))) else throw JPEG_FAILED.

Fixpoint write_items (ifh_offset : Z) (l : list block) (k : cursor) : M cursor :=
  match l with
  | [] => mret k
  | it :: r => k ← write_item ifh_offset it k; write_items ifh_offset r k
  end.

Definition item (tag type count : Z) (w : writer) (m : list Z) : block := MkBlock tag type (Some count) w m None.
(** The value stored in the union is the short the field holds. *)
Definition direct (tag type count : Z) (w : writer) (m : list Z) : block :=
  MkBlock tag type (Some count) w m (Some (take 2 m ++ [0; 0])).
(** A string of at most 255 characters. *)
Definition text_item (tag : Z) (s : list Z) : block :=
  MkBlock tag IFD_ASCII (string_count (mem_bytes 256 s)) WByte (mem_bytes 256 s) None.
Definition custom_item (tag type : Z) (w : writer) (c : EXIF_CUSTOM_T) : block :=
  item tag type (c_count c) w (mem_bytes 256 (c_ptr c)).

(** A block and its guard: the pointer to the structure and the flag. *)
Definition field {A} (p : option A) (valid : A -> bool) (it : A -> block) : list block :=
  match p with Some a => if valid a then [it a] else [] | None => [] end.

(** The start of a directory of at most [max] entries at [begin_offset]: the
    number of entries is written provisionally, and the values follow the
    space of the entries. *)
Definition begin_ifd (begin_offset max : Z) : M cursor :=
  call (Jpeg_SetWritePos begin_offset) ;;
  write_data (Jpeg_WriteW max) ;;
  ifd_offset ← getpos;
  mret (MkCur ifd_offset (JPEG_ALIGN_4 (ifd_offset +u (max * IFD_HEAD_LENGTH) +u 4)) 0).

(** Its end: the offset of the next directory, and the number of entries. *)
Definition end_ifd (begin_offset next : Z) (k : cursor) : M Z :=
  call (Jpeg_SetWritePos (ifd_offset k)) ;;
  write_data (Jpeg_WriteL next) ;;
  call (Jpeg_SetWritePos begin_offset) ;;
  write_data (Jpeg_WriteW (entries k)) ;;
  mret (ifd_value_offset k).

(** An entry that holds the offset of another directory, and the directory,
    which [sub] writes from an offset and whose end it returns. *)
Definition write_pointer (ifh_offset : Z) (tag : Z) (sub : Z -> M Z) (k : cursor) : M cursor :=
  let v := JPEG_ALIGN_4 (ifd_value_offset k) in
  let offset := v -u ifh_offset in
  '(ok, o, v) ← Jpeg_WriteLongIFD (MkIFD tag IFD_LONG 1 (le32 offset) (Some (mem_long offset))) (ifd_offset k) v;
  if ok : bool then
    e ← sub v;
    mret (MkCur o e (u16 (entries k + 1)))
  else throw JPEG_FAILED.

(** ** The directories *)
Definition exif_version : list Z := [0x30; 0x32; 0x32; 0x30].
Definition flashpix_version : list Z := [0x30; 0x31; 0x30; 0x30].

Definition inter_items (i : EXIF_INTEROPERABILITY_INFO_T) : list block :=
  field (Some i) (fun p => v_InteroperabilityIndex (inter_valid p) && (0 <? c_count (InteroperabilityIndex p)))
    (fun p => custom_item IFD_INTEROPERABILITYINDEX IFD_ASCII WByte (InteroperabilityIndex p)).

Definition spec_items_1 (s : EXIF_SPECIFIC_INFO_T) : list block :=
  field (pic_taking_cond_ptr s) (fun p => v_ExposureTime (ptc_valid p))
    (fun p => item IFD_EXPOSURETIME IFD_RATIONAL 1 WRational (mem_rational (ExposureTime p))) ++
  field (pic_taking_cond_ptr s) (fun p => v_FNumber (ptc_valid p))
    (fun p => item IFD_FNUMBER IFD_RATIONAL 1 WRational (mem_rational (FNumber p))) ++
  field (pic_taking_cond_ptr s) (fun p => v_ExposureProgram (ptc_valid p))
    (fun p => item IFD_EXPOSUREPROGRAM IFD_SHORT 1 WShort (mem_short (ExposureProgram p))) ++
  field (pic_taking_cond_ptr s) (fun p => v_SpectralSensitivity (ptc_valid p))
    (fun p => text_item IFD_SPECTRALSENSITIVITY (SpectralSensitivity p)) ++
  field (pic_taking_cond_ptr s) (fun p => v_ISOSpeedRatings (ptc_valid p) && (0 <? c_count (ISOSpeedRatings p)))
    (fun p => custom_item IFD_ISOSPEEDRATINGS IFD_SHORT WShort (ISOSpeedRatings p)) ++
  field (pic_taking_cond_ptr s) (fun p => v_OECF (ptc_valid p) && (0 <? c_count (OECF p)))
    (fun p => custom_item IFD_OECF IFD_UNDEFINED WByte (OECF p)) ++
  [item IFD_EXIFVERSION IFD_UNDEFINED 4 WByte exif_version] ++
  field (date_time_ptr s) (fun p => v_DateTimeOriginal (dt_valid p))
    (fun p => item IFD_DATETIMEORIGINAL IFD_ASCII 20 WByte (mem_bytes 20 (DateTimeOriginal p))) ++
  field (date_time_ptr s) (fun p => v_DateTimeDigitized (dt_valid p))
    (fun p => item IFD_DATETIMEDIGITILIZED IFD_ASCII 20 WByte (mem_bytes 20 (DateTimeDigitized p))).

Definition spec_items_2 (s : EXIF_SPECIFIC_INFO_T) : list block :=
  let b := spec_basic s in
  [item IFD_COMPONENTSCONFIGURATION IFD_UNDEFINED 4 WByte (mem_bytes 4 (ComponentsConfiguration b))] ++
  field (img_config_ptr s) (fun p => v_CompressedBitsPerPixel (cfg_valid p))
    (fun p => item IFD_COMPRESSEDBITSPERPIXEL IFD_RATIONAL 1 WRational (mem_rational (CompressedBitsPerPixel p))) ++
  field (pic_taking_cond_ptr s) (fun p => v_ShutterSpeedValue (ptc_valid p))
    (fun p => item IFD_SHUTTERSPEEDVALUE IFD_SRATIONAL 1 WRational (mem_srational (ShutterSpeedValue p))) ++
  field (pic_taking_cond_ptr s) (fun p => v_ApertureValue (ptc_valid p))
    (fun p => item IFD_APERTUREVALUE IFD_RATIONAL 1 WRational (mem_rational (ApertureValue p))) ++
  field (pic_taking_cond_ptr s) (fun p => v_BrightnessValue (ptc_valid p))
    (fun p => item IFD_BRIGHTNESSVALUE IFD_SRATIONAL 1 WRational (mem_srational (BrightnessValue p))) ++
  field (pic_taking_cond_ptr s) (fun p => v_ExposureBiasValue (ptc_valid p))
    (fun p => item IFD_EXPOSUREBIASVALUE IFD_SRATIONAL 1 WRational (mem_srational (ExposureBiasValue p))) ++
  field (pic_taking_cond_ptr s) (fun p => v_MaxApertureValue (ptc_valid p))
    (fun p => item IFD_MAXAPERTUREVALUE IFD_RATIONAL 1 WRational (mem_rational (MaxApertureValue p))) ++
  field (pic_taking_cond_ptr s) (fun p => v_SubjectDistance (ptc_valid p))
    (fun p => item IFD_SUBJECTDISTANCE IFD_RATIONAL 1 WRational (mem_rational (SubjectDistance p))) ++
  field (pic_taking_cond_ptr s) (fun p => v_MeteringMode (ptc_valid p))
    (fun p => item IFD_METERINGMODE IFD_SHORT 1 WShort (mem_short (MeteringMode p))).

Definition spec_items_3 (s : EXIF_SPECIFIC_INFO_T) : list block :=
  field (pic_taking_cond_ptr s) (fun p => v_LightSource (ptc_valid p))
    (fun p => item IFD_LIGHTSOURCE IFD_SHORT 1 WShort (mem_short (LightSource p))) ++
  field (pic_taking_cond_ptr s) (fun p => v_Flash (ptc_valid p))
    (fun p => item IFD_FLASH IFD_SHORT 1 WShort (mem_short (Flash p))) ++
  field (pic_taking_cond_ptr s) (fun p => v_FocalLength (ptc_valid p))
    (fun p => item IFD_FOCALLENGTH IFD_RATIONAL 1 WRational (mem_rational (FocalLength p))) ++
  field (pic_taking_cond_ptr s) (fun p => v_SubjectArea (ptc_valid p) && (0 <? c_count (SubjectArea p)))
    (fun p => custom_item IFD_SUBJECTAREA IFD_SHORT WRational (SubjectArea p)) ++
  field (user_ptr s) (fun p => (0 <? c_count (MakerNote p)))
    (fun p => custom_item IFD_MAKERNOTE IFD_UNDEFINED WByte (MakerNote p)) ++
  field (user_ptr s) (fun p => (0 <? c_count (UserComment p)))
    (fun p => custom_item IFD_USERCOMMENT IFD_UNDEFINED WByte (UserComment p)) ++
  field (date_time_ptr s) (fun p => v_SubSecTime (dt_valid p)) (fun p => text_item IFD_SUBSECTIME (SubSecTime p)) ++
  field (date_time_ptr s) (fun p => v_SubSecTimeOriginal (dt_valid p))
    (fun p => text_item IFD_SUBSECTIMEORIGINAL (SubSecTimeOriginal p)) ++
  field (date_time_ptr s) (fun p => v_SubSecTimeDigitized (dt_valid p))
    (fun p => text_item IFD_SUBSECTIMEDIGITILIZED (SubSecTimeDigitized p)).

Definition spec_items_4 (s : EXIF_SPECIFIC_INFO_T) : list block :=
  let b := spec_basic s in
  [item IFD_FLASHPIXVERSION IFD_UNDEFINED 4 WByte flashpix_version] ++
  [item IFD_COLORSPACE IFD_SHORT 1 WShort (mem_short (ColorSpace b))] ++
  [item IFD_PIXELXDIMENSION IFD_LONG 1 WLong (mem_long (PixelXDimension b))] ++
  [item IFD_PIXELYDIMENSION IFD_LONG 1 WLong (mem_long (PixelYDimension b))] ++
  field (related_file_ptr s) (fun p => v_RelatedSoundFile (rel_valid p))
    (fun p => item IFD_RELATEDSOUNDFILE IFD_ASCII 13 WByte (mem_bytes 13 (RelatedSoundFile p))).

Definition spec_items_5 (s : EXIF_SPECIFIC_INFO_T) : list block :=
  field (pic_taking_cond_ptr s) (fun p => v_FlashEnergy (ptc_valid p))
    (fun p => item IFD_FLASHENERGY IFD_RATIONAL 1 WRational (mem_rational (FlashEnergy p))) ++
  field (pic_taking_cond_ptr s) (fun p => v_SpatialFrequencyResponse (ptc_valid p) && (0 <? c_count (SpatialFrequencyResponse p)))
    (fun p => custom_item IFD_SPATIALFREQUENCYRESPONSE IFD_UNDEFINED WByte (SpatialFrequencyResponse p)) ++
  field (pic_taking_cond_ptr s) (fun p => v_FocalPlaneXResolution (ptc_valid p))
    (fun p => item IFD_FOCALPLANEXRESOLUTION IFD_RATIONAL 1 WRational (mem_rational (FocalPlaneXResolution p))) ++
  field (pic_taking_cond_ptr s) (fun p => v_FocalPlaneYResolution (ptc_valid p))
    (fun p => item IFD_FOCALPLANEYRESOLUTION IFD_RATIONAL 1 WRational (mem_rational (FocalPlaneYResolution p))) ++
  field (pic_taking_cond_ptr s) (fun p => v_FocalPlaneResolutionUnit (ptc_valid p))
    (fun p => item IFD_FOCALPLANERESOLUTIONUNIT IFD_SHORT 1 WShort (mem_short (FocalPlaneResolutionUnit p))) ++
  field (pic_taking_cond_ptr s) (fun p => v_SubjectLocation (ptc_valid p))
    (fun p => item IFD_SUBJECTLOCATION IFD_SHORT 2 WShort (mem_shorts 2 (SubjectLocation p))) ++
  field (pic_taking_cond_ptr s) (fun p => v_ExposureIndex (ptc_valid p))
    (fun p => item IFD_EXPOSUREINDEX IFD_RATIONAL 1 WRational (mem_rational (ExposureIndex p))) ++
  field (pic_taking_cond_ptr s) (fun p => v_SensingMethod (ptc_valid p))
    (fun p => item IFD_SENSINGMETHOD IFD_SHORT 1 WShort (mem_short (SensingMethod p))) ++
  field (pic_taking_cond_ptr s) (fun p => v_FileSource (ptc_valid p))
    (fun p => item IFD_FILESOURCE IFD_UNDEFINED 1 WByte (mem_bytes 1 [FileSource p])).

Definition spec_items_6 (s : EXIF_SPECIFIC_INFO_T) : list block :=
  field (pic_taking_cond_ptr s) (fun p => v_SceneType (ptc_valid p))
    (fun p => item IFD_SCENETYPE IFD_UNDEFINED 1 WByte (mem_bytes 1 [SceneType p])) ++
  field (pic_taking_cond_ptr s) (fun p => v_CFAPattern (ptc_valid p) && (0 <? c_count (CFAPattern p)))
    (fun p => custom_item IFD_CFAPATTERN IFD_UNDEFINED WByte (CFAPattern p)) ++
  field (pic_taking_cond_ptr s) (fun p => v_CustomRendered (ptc_valid p))
    (fun p => item IFD_CUSTOMRENDERED IFD_SHORT 1 WShort (mem_short (CustomRendered p))) ++
  field (pic_taking_cond_ptr s) (fun p => v_ExposureMode (ptc_valid p))
    (fun p => item IFD_EXPOSUREMODE IFD_SHORT 1 WShort (mem_short (ExposureMode p))) ++
  field (pic_taking_cond_ptr s) (fun p => v_WhiteBalance (ptc_valid p))
    (fun p => item IFD_WHITEBALANCE IFD_SHORT 1 WShort (mem_short (WhiteBalance p))) ++
  field (pic_taking_cond_ptr s) (fun p => v_DigitalZoomRatio (ptc_valid p))
    (fun p => item IFD_DIGITALZOOMRATIO IFD_RATIONAL 1 WRational (mem_rational (DigitalZoomRatio p))) ++
  field (pic_taking_cond_ptr s) (fun p => v_FocalLengthIn35mmFilm (ptc_valid p))
    (fun p => item IFD_FOCALLENGTHIN35MMFILM IFD_SHORT 1 WShort (mem_short (FocalLengthIn35mmFilm p))) ++
  field (pic_taking_cond_ptr s) (fun p => v_SceneCaptureType (ptc_valid p))
    (fun p => item IFD_SCENECAPTURETYPE IFD_SHORT 1 WShort (mem_short (SceneCaptureType p))) ++
  field (pic_taking_cond_ptr s) (fun p => v_GainControl (ptc_valid p))
    (fun p => item IFD_GAINCONTROL IFD_SHORT 1 WShort (mem_short (GainControl p))).

Definition spec_items_7 (s : EXIF_SPECIFIC_INFO_T) : list block :=
  field (pic_taking_cond_ptr s) (fun p => v_Contrast (ptc_valid p))
    (fun p => item IFD_CONTRAST IFD_SHORT 1 WShort (mem_short (Contrast p))) ++
  field (pic_taking_cond_ptr s) (fun p => v_Saturation (ptc_valid p))
    (fun p => item IFD_SATURATION IFD_SHORT 1 WShort (mem_short (Saturation p))) ++
  field (pic_taking_cond_ptr s) (fun p => v_Sharpness (ptc_valid p))
    (fun p => item IFD_SHARPNESS IFD_SHORT 1 WShort (mem_short (Sharpness p))) ++
  field (pic_taking_cond_ptr s) (fun p => v_DeviceSettingDescription (ptc_valid p) && (0 <? c_count (DeviceSettingDescription p)))
    (fun p => custom_item IFD_DEVICESETTINGDESCRIPTION IFD_UNDEFINED WByte (DeviceSettingDescription p)) ++
  field (pic_taking_cond_ptr s) (fun p => v_SubjectDistanceRange (ptc_valid p))
    (fun p => item IFD_SUBJECTDISTANCERANGE IFD_SHORT 1 WShort (mem_short (SubjectDistanceRange p))) ++
  field (other_ptr s) (fun p => v_ImageUniqueID (oth_valid p))
    (fun p => item IFD_IMAGEUNIQUEID IFD_ASCII 33 WByte (mem_bytes 33 (ImageUniqueID p))).

Definition gps_items_1 (g : EXIF_GPS_INFO_T) : list block :=
  field (Some g) (fun p => v_GPSVersionID (gps_valid p))
    (fun p => item IFD_GPSVERSIONID IFD_BYTE 4 WByte (mem_bytes 4 (GPSVersionID p))) ++
  field (Some g) (fun p => v_GPSLatitudeRef (gps_valid p))
    (fun p => item IFD_GPSLATITUDEREF IFD_ASCII 2 WByte (mem_bytes 2 (GPSLatitudeRef p))) ++
  field (Some g) (fun p => v_GPSLatitude (gps_valid p))
    (fun p => item IFD_GPSLATITUDE IFD_RATIONAL 3 WRational (mem_rationals 3 (GPSLatitude p))) ++
  field (Some g) (fun p => v_GPSLongitudeRef (gps_valid p))
    (fun p => item IFD_GPSLONGITUDEREF IFD_ASCII 2 WByte (mem_bytes 2 (GPSLongitudeRef p))) ++
  field (Some g) (fun p => v_GPSLongitude (gps_valid p))
    (fun p => item IFD_GPSLONGITUDE IFD_RATIONAL 3 WRational (mem_rationals 3 (GPSLongitude p))) ++
  field (Some g) (fun p => v_GPSAltitudeRef (gps_valid p))
    (fun p => item IFD_GPSALTITUDEREF IFD_BYTE 1 WByte (mem_bytes 1 [GPSAltitudeRef p])) ++
  field (Some g) (fun p => v_GPSAltitude (gps_valid p))
    (fun p => item IFD_GPSALTITUDE IFD_RATIONAL 1 WRational (mem_rational (GPSAltitude p))) ++
  field (Some g) (fun p => v_GPSTimeStamp (gps_valid p))
    (fun p => item IFD_GPSTIMESTAMP IFD_RATIONAL 3 WRational (mem_rationals 3 (GPSTimeStamp p))) ++
  field (Some g) (fun p => v_GPSSatellites (gps_valid p)) (fun p => text_item IFD_GPSSATELLITES (GPSSatellites p)).

Definition gps_items_2 (g : EXIF_GPS_INFO_T) : list block :=
  field (Some g) (fun p => v_GPSStatus (gps_valid p))
    (fun p => item IFD_GPSSTATUS IFD_ASCII 2 WByte (mem_bytes 2 (GPSStatus p))) ++
  field (Some g) (fun p => v_GPSMeasureMode (gps_valid p))
    (fun p => item IFD_GPSMEASUREMODE IFD_ASCII 2 WByte (mem_bytes 2 (GPSMeasureMode p))) ++
  field (Some g) (fun p => v_GPSDOP (gps_valid p))
    (fun p => item IFD_GPSDOP IFD_RATIONAL 1 WRational (mem_rational (GPSDOP p))) ++
  field (Some g) (fun p => v_GPSSpeedRef (gps_valid p))
    (fun p => item IFD_GPSSPEEDREF IFD_ASCII 2 WByte (mem_bytes 2 (GPSSpeedRef p))) ++
  field (Some g) (fun p => v_GPSSpeed (gps_valid p))
    (fun p => item IFD_GPSSPEED IFD_RATIONAL 1 WRational (mem_rational (GPSSpeed p))) ++
  field (Some g) (fun p => v_GPSTrackRef (gps_valid p))
    (fun p => item IFD_GPSTRACKREF IFD_ASCII 2 WByte (mem_bytes 2 (GPSTrackRef p))) ++
  field (Some g) (fun p => v_GPSTrack (gps_valid p))
    (fun p => item IFD_GPSTRACK IFD_RATIONAL 1 WRational (mem_rational (GPSTrack p))) ++
  field (Some g) (fun p => v_GPSImgDirectionRef (gps_valid p))
    (fun p => item IFD_GPSIMGDIRECTIONREF IFD_ASCII 2 WByte (mem_bytes 2 (GPSImgDirectionRef p))) ++
  field (Some g) (fun p => v_GPSImgDirection (gps_valid p))
    (fun p => item IFD_GPSIMGDIRECTION IFD_RATIONAL 1 WRational (mem_rational (GPSImgDirection p))).

Definition gps_items_3 (g : EXIF_GPS_INFO_T) : list block :=
  field (Some g) (fun p => v_GPSMapDatum (gps_valid p)) (fun p => text_item IFD_GPSMAPDATUM (GPSMapDatum p)) ++
  field (Some g) (fun p => v_GPSDestLatitudeRef (gps_valid p))
    (fun p => item IFD_GPSDESTLATITUDEREF IFD_ASCII 2 WByte (mem_bytes 2 (GPSDestLatitudeRef p))) ++
  field (Some g) (fun p => v_GPSDestLatitude (gps_valid p))
    (fun p => item IFD_GPSDESTLATITUDE IFD_RATIONAL 3 WRational (mem_rationals 3 (GPSDestLatitude p))) ++
  field (Some g) (fun p => v_GPSDestLongitudeRef (gps_valid p))
    (fun p => item IFD_GPSDESTLONGITUDEREF IFD_ASCII 2 WByte (mem_bytes 2 (GPSDestLongitudeRef p))) ++
  field (Some g) (fun p => v_GPSDestLatitude (gps_valid p))
    (fun p => item IFD_GPSDESTLONGITUDE IFD_RATIONAL 3 WRational (mem_rationals 3 (GPSDestLongitude p))) ++
  field (Some g) (fun p => v_GPSDestBearingRef (gps_valid p))
    (fun p => item IFD_GPSDESTBEARINGREF IFD_ASCII 2 WByte (mem_bytes 2 (GPSDestBearingRef p))) ++
  field (Some g) (fun p => v_GPSDestBearing (gps_valid p))
    (fun p => item IFD_GPSDESTBEARING IFD_RATIONAL 1 WRational (mem_rational (GPSDestBearing p))) ++
  field (Some g) (fun p => v_GPSDestDistanceRef (gps_valid p))
    (fun p => item IFD_GPSDESTDISTANCEREF IFD_ASCII 2 WByte (mem_bytes 2 (GPSDestDistanceRef p))) ++
  field (Some g) (fun p => v_GPSDestDistance (gps_valid p))
    (fun p => item IFD_GPSDESTDISTANCE IFD_RATIONAL 1 WRational (mem_rational (GPSDestDistance p))).

Definition gps_items_4 (g : EXIF_GPS_INFO_T) : list block :=
  field (Some g) (fun p => v_GPSProcessingMethod (gps_valid p) && (0 <? c_count (GPSProcessingMethod p)))
    (fun p => custom_item IFD_GPSPROCESSINGMETHOD IFD_UNDEFINED WByte (GPSProcessingMethod p)) ++
  field (Some g) (fun p => v_GPSAreaInformation (gps_valid p) && (0 <? c_count (GPSAreaInformation p)))
    (fun p => custom_item IFD_GPSAREAINFORMATION IFD_UNDEFINED WByte (GPSAreaInformation p)) ++
  field (Some g) (fun p => v_GPSDateStamp (gps_valid p))
    (fun p => item IFD_GPSDATESTAMP IFD_ASCII 11 WByte (mem_bytes 11 (GPSDateStamp p))) ++
  field (Some g) (fun p => v_GPSDifferential (gps_valid p))
    (fun p => item IFD_GPSDIFFERENTIAL IFD_SHORT 1 WShort (mem_short (GPSDifferential p))).

Definition pri_items_1 (q : EXIF_PRIMARY_INFO_T) : list block :=
  let b := pri_basic q in
  field (data_struct_ptr q) (fun p => v_Reserved (ds_valid p))
    (fun p => direct IFD_COMPRESSION IFD_SHORT 1 WShort (mem_short (Reserved p))) ++
  field (img_desc_ptr q) (fun p => v_ImageDescription (desc_valid p))
    (fun p => text_item IFD_IMAGEDESCRIPTION (ImageDescription p)) ++
  field (img_desc_ptr q) (fun p => v_Make (desc_valid p)) (fun p => text_item IFD_MAKE (Make p)) ++
  field (img_desc_ptr q) (fun p => v_Model (desc_valid p)) (fun p => text_item IFD_MODEL (Model p)) ++
  field (data_struct_ptr q) (fun p => v_Orientation (ds_valid p))
    (fun p => direct IFD_ORIENTATION IFD_SHORT 1 WShort (mem_short (Orientation p))) ++
  [item IFD_XRESOLUTION IFD_RATIONAL 1 WRational (mem_rational (XResolution b))] ++
  [item IFD_YRESOLUTION IFD_RATIONAL 1 WRational (mem_rational (YResolution b))] ++
  [direct IFD_RESOLUTIONUNIT IFD_SHORT 1 WShort (mem_short (ResolutionUnit b))].

Definition pri_items_2 (q : EXIF_PRIMARY_INFO_T) : list block :=
  field (data_char_ptr q) (fun p => v_TransferFunction (dc_valid p))
    (fun p => item IFD_TRANSFERFUNCTION IFD_SHORT (3 * 256) WShort (mem_shorts 768 (TransferFunction p))) ++
  field (img_desc_ptr q) (fun p => v_Software (desc_valid p)) (fun p => text_item IFD_SOFTWARE (Software p)) ++
  field (img_desc_ptr q) (fun p => v_DateTime (desc_valid p))
    (fun p => item IFD_DATETIME IFD_ASCII 20 WByte (mem_bytes 20 (DateTime p))) ++
  field (img_desc_ptr q) (fun p => v_Artist (desc_valid p)) (fun p => text_item IFD_ARTIST (Artist p)) ++
  field (data_char_ptr q) (fun p => v_WhitePoint (dc_valid p))
    (fun p => item IFD_WHITEPOINT IFD_RATIONAL 2 WRational (mem_rationals 2 (WhitePoint p))) ++
  field (data_char_ptr q) (fun p => v_PrimaryChromaticities (dc_valid p))
    (fun p => item IFD_PRIMARYCHROMATICITIES IFD_RATIONAL 6 WRational (mem_rationals 6 (PrimaryChromaticities p))).

Definition pri_items_3 (q : EXIF_PRIMARY_INFO_T) : list block :=
  let b := pri_basic q in
  field (data_char_ptr q) (fun p => v_YCbCrCoefficients (dc_valid p))
    (fun p => item IFD_YCBCRCOEFFICIENTS IFD_RATIONAL 3 WRational (mem_rationals 3 (YCbCrCoefficients p))) ++
  [item IFD_YCBCRPOSITION IFD_SHORT 1 WShort (mem_short (YCbCrPositioning b))] ++
  [item IFD_IMAGEWIDTH IFD_LONG 1 WShort (mem_long (ImageWidth b))] ++
  [item IFD_IMAGELENGTH IFD_LONG 1 WShort (mem_long (ImageLength b))] ++
  field (data_char_ptr q) (fun p => v_ReferenceBlackWhite (dc_valid p))
    (fun p => item IFD_REFERENCEBLACKWHITE IFD_RATIONAL 6 WRational (mem_rationals 6 (ReferenceBlackWhite p))) ++
  field (img_desc_ptr q) (fun p => v_Copyright (desc_valid p)) (fun p => text_item IFD_COPYRIGHT (Copyright p)).

Definition Jpeg_WriteExifInteroperabilityInfo (inter_ptr : option EXIF_INTEROPERABILITY_INFO_T)
    (ifh_offset begin_offset : Z) : M Z :=
  match inter_ptr with
  | None => throw JPEG_FAILED
  | Some i =>
    k ← begin_ifd begin_offset 1;
    k ← write_items ifh_offset (inter_items i) k;
    end_ifd begin_offset 0 k
  end.

Definition Jpeg_WriteExifSpecInfo (spec_ptr : option EXIF_SPECIFIC_INFO_T)
    (inter_ptr : option EXIF_INTEROPERABILITY_INFO_T) (ifh_offset begin_offset : Z) : M Z :=
  match spec_ptr with
  | None => throw JPEG_FAILED
  | Some s =>
    k ← begin_ifd begin_offset 57;
    k ← write_items ifh_offset (spec_items_1 s ++ spec_items_2 s ++ spec_items_3 s ++ spec_items_4 s) k;
    k ← (match inter_ptr with
         | Some _ => write_pointer ifh_offset IFD_INTEROPERABILITYIFDPOINTER
                       (Jpeg_WriteExifInteroperabilityInfo inter_ptr ifh_offset) k
         | None => mret k
         end);
    k ← write_items ifh_offset (spec_items_5 s ++ spec_items_6 s ++ spec_items_7 s) k;
    end_ifd begin_offset 0 k
  end.

Definition gps_items (g : EXIF_GPS_INFO_T) : list block :=
  gps_items_1 g ++ gps_items_2 g ++ gps_items_3 g ++ gps_items_4 g.

Definition Jpeg_WriteExifGPSInfo (gps_ptr : option EXIF_GPS_INFO_T) (ifh_offset begin_offset : Z) : M Z :=
  match gps_ptr with
  | None => throw JPEG_FAILED
  | Some g =>
    k ← begin_ifd begin_offset 31;
    k ← write_items ifh_offset (gps_items g) k;
    end_ifd begin_offset 0 k
  end.

(** EXIF_THUMBNAIL_INFO_T: the fields that are used. *)
Record EXIF_THUMBNAIL_INFO_T := MkThumb { stream_buf_ptr : option (list Z); stream_buf_size : Z }.

(** The picture, when the guard the three thumbnail blocks share holds. *)
Definition thumbnail_of (t : option EXIF_THUMBNAIL_INFO_T) : option (list Z * Z) :=
  t ← t; p ← stream_buf_ptr t;
  if 0 <? stream_buf_size t then Some (p, stream_buf_size t) else None.

(** The two entries of the thumbnail, the offset as yet unknown. *)
Definition thumbnail_items (t : option EXIF_THUMBNAIL_INFO_T) : list block :=
  match thumbnail_of t with
  | Some (_, size) =>
    [item IFD_JPEGINTERCHANGEFORMAT IFD_LONG 1 WLong (mem_long 0);
     item IFD_JPEGINTERCHANGEFORMATLENGTH IFD_LONG 1 WLong (mem_long size)]
  | None => []
  end.

(** The picture goes to [ifd_value_offset], and the entry at
    [thumbnail_ifd_offset] is written again. *)
Definition write_thumbnail (t : option EXIF_THUMBNAIL_INFO_T) (ifh_offset thumbnail_ifd_offset : Z) (k : cursor) : M cursor :=
  match thumbnail_of t with
  | Some (p, size) =>
    let thumbnail_offset := ifd_value_offset k -u ifh_offset in
    call (Jpeg_SetWritePos (ifd_value_offset k)) ;;
    data ← of_option (load p 0 size);
    ok ← stream (Jpeg_WriteBlock (Some data));
    if negb ok then throw JPEG_FAILED else
    v ← getpos;
    call (Jpeg_SetWritePos thumbnail_ifd_offset) ;;
    '(ok, _, v) ← Jpeg_WriteLongIFD (MkIFD IFD_JPEGINTERCHANGEFORMAT IFD_LONG 1 (le32 thumbnail_offset)
                     (Some (mem_long thumbnail_offset))) thumbnail_ifd_offset v;
    if ok : bool then mret (MkCur (ifd_offset k) v (entries k)) else throw JPEG_FAILED
  | None => mret k
  end.

Definition Jpeg_WriteExifIFD (q : EXIF_PRIMARY_INFO_T) (spec_ptr : option EXIF_SPECIFIC_INFO_T)
    (gps_ptr : option EXIF_GPS_INFO_T) (inter_ptr : option EXIF_INTEROPERABILITY_INFO_T)
    (thumbnail_ptr : option EXIF_THUMBNAIL_INFO_T) (is_next_ifd_exist : bool)
    (ifh_offset begin_offset : Z) : M Z :=
  k ← begin_ifd begin_offset 24;
  k ← write_items ifh_offset (pri_items_1 q ++ pri_items_2 q) k;
  let thumbnail_ifd_offset := ifd_offset k in
  k ← write_items ifh_offset (thumbnail_items thumbnail_ptr ++ pri_items_3 q) k;
  k ← (match spec_ptr with
       | Some _ => write_pointer ifh_offset IFD_EXIFIFDPOINTER
                     (Jpeg_WriteExifSpecInfo spec_ptr inter_ptr ifh_offset) k
       | None => mret k
       end);
  k ← (match gps_ptr with
       | Some _ => write_pointer ifh_offset IFD_GPSIFDPOINTER (Jpeg_WriteExifGPSInfo gps_ptr ifh_offset) k
       | None => mret k
       end);
  k ← write_thumbnail thumbnail_ptr ifh_offset thumbnail_ifd_offset k;
  end_ifd begin_offset (if is_next_ifd_exist then ifd_value_offset k -u ifh_offset else 0) k.

(** ** The segment *)
Definition EXIF_BIG_ENDIAN : Z := 0x4d4d.
Definition EXIF_IFH_FIX_VALUE : Z := 0x002a.
Definition M_MARKER : Z := 0xff.
Definition M_APP1 : Z := 0xe1.

Definition Jpeg_WriteIFH (begin_offset : Z) : M Z :=
  call (Jpeg_SetWritePos begin_offset) ;;
  write_data (Jpeg_WriteW EXIF_BIG_ENDIAN) ;;
  write_data (Jpeg_WriteW EXIF_IFH_FIX_VALUE) ;;
  write_data (Jpeg_WriteL 8) ;;
  getpos.

Definition exif_id : list Z := [0x45; 0x78; 0x69; 0x66; 0; 0].

Fixpoint write_id (l : list Z) : M unit :=
  match l with
  | [] => mret tt
  | c :: r => write_data (Jpeg_WriteC c) ;; write_id r
  end.

(** Used by no function of the file. *)
Definition Jpeg_WriteSOIMarker (begin_offset : Z) : M Z :=
  call (Jpeg_SetWritePos begin_offset) ;;
  write_data (Jpeg_WriteC M_MARKER) ;;
  write_data (Jpeg_WriteC 0xd8) ;;
  getpos.

Definition Jpeg_WriteAPP1Header (begin_offset app1_length : Z) : M Z :=
  call (Jpeg_SetWritePos begin_offset) ;;
  write_data (Jpeg_WriteC M_MARKER) ;;
  write_data (Jpeg_WriteC M_APP1) ;;
  write_data (Jpeg_WriteW app1_length) ;;
  write_id exif_id ;;
  getpos.

(** The second directory describes the thumbnail. *)
Definition ifd1_primary : EXIF_PRIMARY_INFO_T :=
  MkPrimaryInfo (MkPriBasic 1 (MkRational 72 1) (MkRational 72 1) 2 0 0)
    (Some (MkPriDataStruct (MkPriDataStructValid true true) 1 6)) None None 0.

(** The body of [Jpeg_WriteAPP1] once the stream is set up, and
    [*app1_size_ptr]. *)
Definition write_app1 (e : JINF_EXIF_INFO_T) (thumbnail_buf_ptr : option (list Z)) (thumbnail_size : Z) : M Z :=
  let ifh_offset := 10 in
  begin_offset ← Jpeg_WriteIFH ifh_offset;
  let is_ifd1_exist := match thumbnail_buf_ptr with Some _ => 0 <? thumbnail_size | None => false end in
  end_offset ← Jpeg_WriteExifIFD (primary e) (spec_ptr e) (gps_ptr e) (inter_ptr e) None is_ifd1_exist
                 ifh_offset begin_offset;
  end_offset ←
    (if is_ifd1_exist then
       Jpeg_WriteExifIFD ifd1_primary None None None (Some (MkThumb thumbnail_buf_ptr thumbnail_size)) false
         ifh_offset end_offset
     else mret end_offset);
  let app1_length := u16 (u16 end_offset - 2) in
  Jpeg_WriteAPP1Header 0 app1_length ;;
  mret (app1_length + 2).

(** The result, and the contents of the target buffer. *)
Definition Jpeg_WriteAPP1 (target_buf : option (list Z)) (exif_info_ptr : option JINF_EXIF_INFO_T)
    (thumbnail_buf_ptr : option (list Z)) (thumbnail_size : Z) : option ((JPEG_RET_E + Z) * list Z) :=
  match exif_info_ptr, target_buf with
  | None, _ => Some (inl JPEGE_INVALID_ARGUMENT, default [] target_buf)
  | Some _, None => Some (inl JPEG_MEMORY_NOT_ENOUGH, [])
  | Some e, Some b =>
    if zlen b <? 10 then Some (inl JPEG_MEMORY_NOT_ENOUGH, b)
    else '(r, c) ← write_app1 e thumbnail_buf_ptr thumbnail_size (mem_ctx b 0); Some (r, write_buf c)
  end.
