(* ===== verification/ExifRead.v ===== *)
(** What an EXIF reader finds in the segment that ExifWriter.v writes.

    [read_ifd] reads a directory the way the EXIF and TIFF standards define
    it: a count, twelve bytes per entry, and the offset of the next directory,
    all big-endian; a value of more than four bytes lies at the offset the
    entry gives.  It is a reference definition and models no code of the
    repository.  The lemmas follow the writer function by function: a run
    from a stream with room leaves exactly the entries of the blocks
    ([laid]) and changes no byte outside its own regions ([frame]). *)
From S2P Require Import Prelude ExifStream ExifData ExifWriter.

(** ** The reader *)
Inductive exif_value :=
| VBytes (l : list Z)
| VShorts (l : list Z)
| VLongs (l : list Z)
| VRationals (l : list (Z * Z)).

Record entry := MkEntry { e_tag : Z; e_type : Z; e_count : Z; e_value : exif_value }.

Definition type_size (t : Z) : option Z :=
  if is_byte_type t then Some 1
  else if t =? IFD_SHORT then Some 2
  else if (t =? IFD_LONG) || (t =? IFD_SLONG) then Some 4
  else if (t =? IFD_RATIONAL) || (t =? IFD_SRATIONAL) then Some 8
  else None.

Fixpoint be_values (size k : nat) (l : list Z) : list Z :=
  match k with O => [] | S k => be_dec (take size l) :: be_values size k (drop size l) end.
Fixpoint pairs (l : list Z) : list (Z * Z) :=
  match l with a :: b :: r => (a, b) :: pairs r | _ => [] end.

Definition read_value (t : Z) (n : nat) (l : list Z) : exif_value :=
  if is_byte_type t then VBytes l
  else if t =? IFD_SHORT then VShorts (be_values 2 n l)
  else if (t =? IFD_LONG) || (t =? IFD_SLONG) then VLongs (be_values 4 n l)
  else VRationals (pairs (be_values 4 (2 * n) l)).

(** Offsets count from [ifh], where the byte order is. *)
Section Reader.
Context (seg : list Z) (ifh : Z).

Definition rd (off size : Z) : option Z := l ← load seg (ifh + off) size; Some (be_dec l).

Definition read_entry (off : Z) : option entry :=
  t ← rd off 2; ty ← rd (off + 2) 2; n ← rd (off + 4) 4;
  size ← type_size ty;
  l ← (if size * n <=? 4 then load seg (ifh + (off + 8)) (size * n)
       else p ← rd (off + 8) 4; load seg (ifh + p) (size * n));
  Some (MkEntry t ty n (read_value ty (Z.to_nat n) l)).

Fixpoint read_entries (off : Z) (n : nat) : option (list entry) :=
  match n with
  | O => Some []
  | S k => e ← read_entry off; r ← read_entries (off + 12) k; Some (e :: r)
  end.

Definition read_ifd (off : Z) : option (list entry * Z) :=
  n ← rd off 2; es ← read_entries (off + 2) (Z.to_nat n); next ← rd (off + 2 + 12 * n) 4;
  Some (es, next).
End Reader.

(** The value of a field as the host's memory has it. *)
Definition host_value (t : Z) (n : nat) (m : list Z) : exif_value :=
  if is_byte_type t then VBytes (take n m)
  else if t =? IFD_SHORT then VShorts ((fun i => get16 m (2 * i)) <$> seq 0 n)
  else if (t =? IFD_LONG) || (t =? IFD_SLONG) then VLongs ((fun i => get32 m (4 * i)) <$> seq 0 n)
  else VRationals ((fun i => (get32 m (8 * i), get32 m (8 * i + 4))) <$> seq 0 n).

Definition n_of (it : block) : Z := default 0 (it_count it).
Definition view (it : block) : entry :=
  MkEntry (it_tag it) (it_type it) (n_of it) (host_value (it_type it) (Z.to_nat (n_of it)) (it_mem it)).

(** ** Blocks whose writer suits their type *)
Definition block_ok (it : block) : bool :=
  let n := n_of it in
  match it_count it with Some _ => true | None => false end &&
  (1 <=? n) && (n <? 2 ^ 32) && (0 <=? it_tag it) && (it_tag it <? 2 ^ 16) &&
  match it_writer it with
  | WRational => ((it_type it =? IFD_RATIONAL) || (it_type it =? IFD_SRATIONAL)) && (8 * n <=? zlen (it_mem it)) &&
      bool_decide (it_union it = None)
  | WLong => (it_type it =? IFD_LONG) && (4 * n <=? zlen (it_mem it)) && bool_decide (it_union it = None)
  | WShort =>
      ((it_type it =? IFD_SHORT) && (2 * n <=? zlen (it_mem it)) &&
         ((n <=? 2) || bool_decide (it_union it = None))) ||
      ((it_type it =? IFD_LONG) && (n =? 1) && (4 <=? zlen (it_mem it)) && (get16 (it_mem it) 2 =? 0))
  | WByte => is_byte_type (it_type it) && (n <=? zlen (it_mem it)) && bool_decide (it_union it = None)
  end &&
  bool_decide (bytes (it_mem it)).

(** What the writer puts into the last four bytes of the entry, and at the
    offset of the values. *)
Definition be_shorts (m : list Z) (n : nat) : list Z := mjoin ((fun i => be16 (get16 m (2 * i))) <$> seq 0 n).
Definition be_longs (m : list Z) (n : nat) : list Z := mjoin ((fun i => be32 (get32 m (4 * i))) <$> seq 0 n).

Definition field4 (ifh : Z) (it : block) (v : Z) : list Z :=
  let n := n_of it in
  let m := it_mem it in
  match it_writer it with
  | WRational => be32 (v - ifh)
  | WLong => if n <=? 1 then be32 (get32 m 0) else be32 (v - ifh)
  | WShort =>
    if it_type it =? IFD_LONG then be32 (get32 m 0)
    else if n <=? 2 then be16 (get16 m 0) ++ be16 (if n =? 2 then get16 m 2 else 0) else be32 (v - ifh)
  | WByte => if n <=? 4 then take (Z.to_nat n) m ++ drop (Z.to_nat n) (le32 (v - ifh)) else be32 (v - ifh)
  end.
Definition entry_bytes (ifh : Z) (it : block) (v : Z) : list Z :=
  be16 (it_tag it) ++ be16 (it_type it) ++ be32 (n_of it) ++ field4 ifh it v.

Definition ext_bytes (it : block) : list Z :=
  let n := n_of it in
  let m := it_mem it in
  match it_writer it with
  | WRational => be_longs m (2 * Z.to_nat n)
  | WLong => if n <=? 1 then [] else be_longs m (Z.to_nat n)
  | WShort => if n <=? 2 then [] else be_shorts m (Z.to_nat n)
  | WByte => if n <=? 4 then [] else take (Z.to_nat n) m
  end.

Definition align4 (z : Z) : Z := 4 * ((z + 3) / 4).
Definition next_v (it : block) (v : Z) : Z :=
  match ext_bytes it with [] => v | l => align4 (v + zlen l) end.

(** ** The byte order of values *)
Lemma join_cons {A} (x : list A) l : mjoin (x :: l) = x ++ mjoin l.
Proof. done. Qed.

Lemma join_length {A} c (f : A -> list Z) (l : list A) :
  (forall x, length (f x) = c) -> length (mjoin (f <$> l)) = (c * length l)%nat.
Proof.
  intros H. induction l as [|x l IH]; [simpl; lia|]. cbn [fmap list_fmap]. rewrite join_cons, length_app, IH, H. simpl. lia.
Qed.

Lemma be_longs_length m n : length (be_longs m n) = (4 * n)%nat.
Proof. unfold be_longs. rewrite (join_length 4) by done. by rewrite length_seq. Qed.
Lemma be_shorts_length m n : length (be_shorts m n) = (2 * n)%nat.
Proof. unfold be_shorts. rewrite (join_length 2) by done. by rewrite length_seq. Qed.

Lemma take_be32 v l : take 4 (be32 v ++ l) = be32 v.
Proof. done. Qed.
Lemma drop_be32 v l : drop 4 (be32 v ++ l) = l.
Proof. done. Qed.
Lemma take_be16 v l : take 2 (be16 v ++ l) = be16 v.
Proof. done. Qed.
Lemma drop_be16 v l : drop 2 (be16 v ++ l) = l.
Proof. done. Qed.

Lemma be_longs_values m n : bytes m -> be_values 4 n (be_longs m n) = (fun i => get32 m (4 * i)) <$> seq 0 n.
Proof.
  intros B. unfold be_longs. rewrite <- (length_seq n 0) at 1. generalize (seq 0 n). intros l.
  induction l as [|i l IH]; [done|]. cbn [fmap list_fmap length be_values]. rewrite join_cons.
  rewrite take_be32, drop_be32, be_dec_be32 by by apply get32_range.
  by rewrite IH.
Qed.

Lemma get16_range m off : bytes m -> 0 <= get16 m off < 2 ^ 16.
Proof.
  intros H. unfold get16. assert (B : bytes (take 2 (drop off m))) by auto using Forall_take, Forall_drop.
  apply le_dec_range in B. revert B. rewrite length_take. intros [? ?]. split; [done|].
  eapply Z.lt_le_trans; [eassumption|]. apply Z.pow_le_mono_r; lia.
Qed.

Lemma be_shorts_values m n : bytes m -> be_values 2 n (be_shorts m n) = (fun i => get16 m (2 * i)) <$> seq 0 n.
Proof.
  intros B. unfold be_shorts. rewrite <- (length_seq n 0) at 1. generalize (seq 0 n). intros l.
  induction l as [|i l IH]; [done|]. cbn [fmap list_fmap length be_values]. rewrite join_cons.
  rewrite take_be16, drop_be16, be_dec_be16 by by apply get16_range.
  by rewrite IH.
Qed.

Lemma pairs_longs m n :
  pairs ((fun i => get32 m (4 * i)) <$> seq 0 (2 * n)) =
  (fun i => (get32 m (8 * i), get32 m (8 * i + 4))) <$> seq 0 n.
Proof.
  assert (G : forall k, pairs ((fun i => get32 m (4 * i)) <$> seq (2 * k) (2 * n)) =
    (fun i => (get32 m (8 * i), get32 m (8 * i + 4))) <$> seq k n); [|exact (G 0%nat)].
  induction n as [|n IH]; intros k; [done|].
  replace (2 * S n)%nat with (S (S (2 * n))) by lia. cbn [seq fmap list_fmap pairs].
  f_equal; [do 2 f_equal; lia|]. specialize (IH (S k)). replace (2 * S k)%nat with (S (S (2 * k))) in IH by lia.
  exact IH.
Qed.

(** ** Regions of a buffer *)
Definition has (b : list Z) (off : Z) (l : list Z) : Prop := load b off (zlen l) = Some l.

Definition frame (P : Z -> Prop) (b b' : list Z) : Prop :=
  length b' = length b /\ forall i, 0 <= i -> ~ P i -> b' !! Z.to_nat i = b !! Z.to_nat i.

Lemma load_bounds b off n l : load b off n = Some l -> 0 <= off /\ 0 <= n /\ off + n <= zlen b /\ zlen l = n.
Proof.
  unfold load. zcase; [|done..]. intros E. simplify_eq. rewrite length_take, length_drop. lia.
Qed.

Lemma load_agree b b' off n l :
  load b off n = Some l -> off + n <= zlen b' ->
  (forall i, off <= i < off + n -> b' !! Z.to_nat i = b !! Z.to_nat i) -> load b' off n = Some l.
Proof.
  intros L Hb A. pose proof (load_bounds _ _ _ _ L) as (? & ? & ? & _). revert L. unfold load.
  rewrite !(proj2 (Z.leb_le _ _)) by lia. cbn [andb]. intros E. simplify_eq. f_equal.
  apply list_eq. intros i. destruct (decide (i < Z.to_nat n)%nat).
  - rewrite !lookup_take_lt, !lookup_drop by lia. rewrite <- (Nat2Z.id (Z.to_nat off + i)). apply A. lia.
  - rewrite !lookup_take_ge by lia. done.
Qed.

Lemma has_bounds b off l : has b off l -> 0 <= off /\ off + zlen l <= zlen b.
Proof. intros H. apply load_bounds in H. lia. Qed.

Lemma has_splice b off l : 0 <= off -> off + zlen l <= zlen b -> has (splice b (Z.to_nat off) l) off l.
Proof.
  intros H1 H2. unfold has, splice. apply load_mid; [|done]. rewrite length_take. lia.
Qed.

Lemma has_app b off l1 l2 : has b off l1 -> has b (off + zlen l1) l2 -> has b off (l1 ++ l2).
Proof.
  intros H1 H2. pose proof (has_bounds _ _ _ H1). pose proof (has_bounds _ _ _ H2). revert H1 H2.
  unfold has, load. rewrite length_app, !(proj2 (Z.leb_le _ _)) by lia. cbn [andb]. intros E1 E2.
  apply (inj Some) in E1, E2. f_equal.
  replace (Z.to_nat (Z.of_nat (length l1 + length l2))) with (length l1 + length l2)%nat by lia.
  rewrite Nat2Z.id in E1, E2. rewrite <- take_take_drop, E1. f_equal.
  rewrite drop_drop. rewrite <- E2 at 2. do 2 f_equal. lia.
Qed.

Lemma has_app_inv b off l1 l2 : has b off (l1 ++ l2) -> has b off l1 /\ has b (off + zlen l1) l2.
Proof.
  intros H. pose proof (has_bounds _ _ _ H) as [? B]. rewrite length_app in B. revert H.
  unfold has, load. rewrite length_app, !(proj2 (Z.leb_le _ _)) by lia. cbn [andb].
  intros E. apply (inj Some) in E. rewrite !Nat2Z.id in *.
  replace (Z.to_nat (Z.of_nat (length l1 + length l2))) with (length l1 + length l2)%nat in E by lia.
  rewrite <- take_take_drop in E. apply app_inj_1 in E as [E1 E2]; [|rewrite length_take, length_drop; lia].
  split; f_equal; [done|]. rewrite drop_drop in E2. rewrite <- E2 at 2. do 2 f_equal. lia.
Qed.

Lemma has_frame P b b' off l :
  frame P b b' -> (forall i, off <= i < off + zlen l -> ~ P i) -> has b off l -> has b' off l.
Proof.
  intros [L F] D H. pose proof (has_bounds _ _ _ H). eapply load_agree; [exact H|rewrite L; lia|].
  intros i Hi. apply F; [lia|]. by apply D.
Qed.

Lemma frame_refl P b : frame P b b.
Proof. by split. Qed.
Lemma frame_trans P b1 b2 b3 : frame P b1 b2 -> frame P b2 b3 -> frame P b1 b3.
Proof. intros [L1 F1] [L2 F2]. split; [congruence|]. intros i Hi HP. rewrite F2 by done. by apply F1. Qed.
Lemma frame_weaken (P Q : Z -> Prop) b b' : (forall i, P i -> Q i) -> frame P b b' -> frame Q b b'.
Proof. intros H [L F]. split; [done|]. intros i Hi HQ. apply F; auto. Qed.
Lemma frame_splice b off l :
  0 <= off -> off + zlen l <= zlen b -> frame (fun i => off <= i < off + zlen l) b (splice b (Z.to_nat off) l).
Proof.
  intros H1 H2. split; [apply splice_length; lia|]. intros i Hi N. rewrite lookup_splice by lia.
  case_decide; [lia|done].
Qed.
Lemma frame_zlen P b b' : frame P b b' -> zlen b' = zlen b.
Proof. intros [L _]. by rewrite L. Qed.

(** ** Runs of the writer *)
Lemma bind_run {A B} (m : M A) (f : A -> M B) c a c' : m c = Some (inr a, c') -> (m ≫= f) c = f a c'.
Proof. intros E. unfold mbind, M_bind. by rewrite E. Qed.
Lemma guardb_run {A} (m : M bool) (r : A) k c c' : m c = Some (inr true, c') -> guardb m r k c = k c'.
Proof. intros E. unfold guardb. by erewrite bind_run by exact E. Qed.
Lemma stream_run {A} (f : wctx -> A * wctx) c a c' : f c = (a, c') -> stream f c = Some (inr a, c').
Proof. intros E. unfold stream. by rewrite E. Qed.
Lemma data_run f c c' : f c = (true, c') -> write_data f c = Some (inr tt, c').
Proof. intros E. unfold write_data. by erewrite bind_run by (apply stream_run; exact E). Qed.
Lemma call_run f c c' : f c = (true, c') -> call f c = Some (inr tt, c').
Proof. intros E. unfold call. by erewrite bind_run by (apply stream_run; exact E). Qed.
Lemma getpos_run b p : 0 <= p <= zlen b -> getpos (mem_ctx b p) = Some (inr p, mem_ctx b p).
Proof. intros H. unfold getpos. by rewrite getpos_ok. Qed.
Lemma of_option_run {A} (o : option A) a c : o = Some a -> of_option o c = Some (inr a, c).
Proof. by intros ->. Qed.

Lemma write_ifd_run i b p :
  0 <= p -> p + 12 <= zlen b ->
  Jpeg_WriteIFD i (mem_ctx b p) =
    Some (inr true, mem_ctx (splice b (Z.to_nat p)
            (be16 (tag i) ++ be16 (type i) ++ be32 (count i) ++ be32 (offset_value i))) (p + 12)).
Proof.
  intros H1 H2. unfold Jpeg_WriteIFD.
  erewrite guardb_run by (apply stream_run, writew_ok; lia).
  erewrite guardb_run by (apply stream_run, writew_ok; rewrite ?splice_length; cbn [length be16]; lia).
  replace (Z.to_nat (p + 2)) with (Z.to_nat p + length (be16 (tag i)))%nat by (cbn; lia).
  rewrite splice_app by (cbn; lia).
  erewrite guardb_run by (apply stream_run, writel_ok; rewrite ?splice_length; cbn [length be16 app]; lia).
  replace (Z.to_nat (p + 2 + 2)) with (Z.to_nat p + length (be16 (tag i) ++ be16 (type i)))%nat by (cbn; lia).
  rewrite splice_app by (cbn; lia).
  erewrite guardb_run by (apply stream_run, writel_ok; rewrite ?splice_length; cbn [length be16 be32 app]; lia).
  replace (Z.to_nat (p + 2 + 2 + 4)) with
    (Z.to_nat p + length ((be16 (tag i) ++ be16 (type i)) ++ be32 (count i)))%nat by (cbn; lia).
  rewrite splice_app by (cbn; lia). unfold mret, M_ret.
  replace (p + 2 + 2 + 4 + 4) with (p + 12) by lia. by rewrite <- !app_assoc.
Qed.

(** The values. *)
Lemma write_longs_run m i n b p :
  (4 * (i + n) <= length m)%nat -> 0 <= p -> p + 4 * Z.of_nat n <= zlen b ->
  write_longs m i n (mem_ctx b p) =
    Some (inr true, mem_ctx (splice b (Z.to_nat p) (mjoin ((fun j => be32 (get32 m (4 * j))) <$> seq i n)))
                      (p + 4 * Z.of_nat n)).
Proof.
  revert i b p. induction n as [|n IH]; intros i b p Hm H1 H2.
  - cbn. rewrite splice_nil, Z.add_0_r by lia. done.
  - cbn [write_longs seq fmap list_fmap]. rewrite join_cons.
    erewrite bind_run by (apply of_option_run; unfold mem32; rewrite (proj2 (Nat.leb_le _ _)) by lia; done).
    erewrite guardb_run by (apply stream_run, writel_ok; lia).
    rewrite IH by (rewrite ?splice_length; cbn [length be32]; lia).
    replace (Z.to_nat (p + 4)) with (Z.to_nat p + length (be32 (get32 m (4 * i))))%nat by (cbn; lia).
    rewrite splice_app; [by replace (p + 4 + 4 * Z.of_nat n) with (p + 4 * Z.of_nat (S n)) by lia|].
    rewrite be32_length.
    rewrite (join_length 4) by done. rewrite length_seq. lia.
Qed.

Lemma write_rationals_longs m i n c : write_rationals m i n c = write_longs m (2 * i) (2 * n) c.
Proof.
  revert i c. induction n as [|n IH]; intros i c; [done|].
  replace (2 * S n)%nat with (S (S (2 * n))) by lia. cbn [write_rationals write_longs].
  replace (4 * (2 * i))%nat with (8 * i)%nat by lia. replace (4 * S (2 * i))%nat with (8 * i + 4)%nat by lia.
  replace (S (S (2 * i))) with (2 * S i)%nat by lia.
  unfold mbind, M_bind, guardb.
  destruct (of_option (mem32 m (8 * i)) c) as [[[|] c1]|]; [done| |done].
  unfold mbind, M_bind. destruct (stream _ c1) as [[[|[]] c2]|]; [done| |done|done].
  destruct (of_option (mem32 m (8 * i + 4)) c2) as [[[|] c3]|]; [done| |done].
  destruct (stream _ c3) as [[[|[]] c4]|]; [done|apply IH|done|done].
Qed.

Lemma write_shorts_run m i n b p :
  (2 * (i + n) <= length m)%nat -> 0 <= p -> p + 2 * Z.of_nat n <= zlen b ->
  write_shorts m i n (mem_ctx b p) =
    Some (inr true, mem_ctx (splice b (Z.to_nat p) (mjoin ((fun j => be16 (get16 m (2 * j))) <$> seq i n)))
                      (p + 2 * Z.of_nat n)).
Proof.
  revert i b p. induction n as [|n IH]; intros i b p Hm H1 H2.
  - cbn. rewrite splice_nil, Z.add_0_r by lia. done.
  - cbn [write_shorts seq fmap list_fmap]. rewrite join_cons.
    erewrite bind_run by (apply of_option_run; unfold mem16; rewrite (proj2 (Nat.leb_le _ _)) by lia; done).
    erewrite guardb_run by (apply stream_run, writew_ok; lia).
    rewrite IH by (rewrite ?splice_length; cbn [length be16]; lia).
    replace (Z.to_nat (p + 2)) with (Z.to_nat p + length (be16 (get16 m (2 * i))))%nat by (cbn; lia).
    rewrite splice_app; [by replace (p + 2 + 2 * Z.of_nat n) with (p + 2 * Z.of_nat (S n)) by lia|].
    rewrite be16_length.
    rewrite (join_length 2) by done. rewrite length_seq. lia.
Qed.

Lemma write_chars_run m i n b p :
  (i + n <= length m)%nat -> bytes m -> 0 <= p -> p + Z.of_nat n <= zlen b ->
  write_chars m i n (mem_ctx b p) =
    Some (inr true, mem_ctx (splice b (Z.to_nat p) (take n (drop i m))) (p + Z.of_nat n)).
Proof.
  revert i b p. induction n as [|n IH]; intros i b p Hm B H1 H2.
  - cbn. rewrite splice_nil, Z.add_0_r by lia. done.
  - cbn [write_chars]. destruct (lookup_lt_is_Some_2 m i) as [x Hx]; [lia|].
    erewrite bind_run by (apply of_option_run; exact Hx).
    erewrite guardb_run by (apply stream_run, writec_ok; lia).
    rewrite IH by (rewrite ?splice_length; cbn [length]; try done; lia).
    rewrite (drop_S _ _ _ Hx). cbn [take].
    rewrite u8_small by (eapply (proj1 (Forall_lookup _ _)); [exact B|exact Hx]).
    replace (Z.to_nat (p + 1)) with (Z.to_nat p + length [x])%nat by (cbn; lia).
    rewrite splice_app by (cbn [length]; rewrite length_take, length_drop; lia).
    by replace (p + 1 + Z.of_nat n) with (p + Z.of_nat (S n)) by lia.
Qed.

(** The last field of the entry. *)
Lemma div_256 q r : 0 <= r < 256 -> (q * 256 + r) / 256 = q.
Proof. intros. zlia. Qed.
Lemma mod_256 q r : 0 <= r < 256 -> (q * 256 + r) mod 256 = r.
Proof. intros. zlia. Qed.

Lemma be32_bytes4 a b c d :
  is_byte a -> is_byte b -> is_byte c -> is_byte d ->
  be32 (Z.lor (Z.lor (Z.lor (Z.shiftl a 24) (Z.shiftl b 16)) (Z.shiftl c 8)) d) = [a; b; c; d].
Proof.
  unfold is_byte. intros Ha Hb Hc Hd.
  assert (E : Z.lor (Z.lor (Z.lor (Z.shiftl a 24) (Z.shiftl b 16)) (Z.shiftl c 8)) d =
              ((a * 2 ^ 8 + b) * 2 ^ 8 + c) * 2 ^ 8 + d).
  { replace (Z.lor (Z.shiftl a 24) (Z.shiftl b 16)) with (Z.shiftl (a * 2 ^ 8 + b) 16).
    2:{ rewrite <- lor_shiftl_add by lia. rewrite Z.shiftl_lor, Z.shiftl_shiftl by lia. done. }
    replace (Z.lor (Z.shiftl (a * 2 ^ 8 + b) 16) (Z.shiftl c 8)) with (Z.shiftl ((a * 2 ^ 8 + b) * 2 ^ 8 + c) 8).
    2:{ rewrite <- lor_shiftl_add by lia. rewrite Z.shiftl_lor, Z.shiftl_shiftl by lia. done. }
    by rewrite lor_shiftl_add by lia. }
  rewrite E. unfold be32, u8. rewrite !Z.shiftr_div_pow2 by lia.
  change (2 ^ 24) with (256 * 256 * 256); change (2 ^ 16) with (256 * 256); change (2 ^ 8) with 256.
  rewrite <- !Z.div_div by lia. rewrite !div_256, !mod_256 by lia. by rewrite Z.mod_small by lia.
Qed.

Lemma be32_shorts a b :
  0 <= a < 2 ^ 16 -> 0 <= b < 2 ^ 16 -> be32 (Z.lor (Z.shiftl a 16) b) = be16 a ++ be16 b.
Proof.
  intros Ha Hb. rewrite lor_shiftl_add by lia. unfold be32, be16, u8. cbn [app].
  rewrite !Z.shiftr_div_pow2 by lia.
  change (2 ^ 24) with (256 * 256 * 256); change (2 ^ 16) with (256 * 256) in *; change (2 ^ 8) with 256.
  assert (E : a * (256 * 256) + b = (a * 256 + b / 256) * 256 + b mod 256) by zlia.
  assert (0 <= b mod 256 < 256) by zlia. assert (0 <= b / 256 < 256) by zlia.
  rewrite E. rewrite <- !Z.div_div by lia. rewrite !div_256, !mod_256 by lia. repeat f_equal; zlia.
Qed.

Lemma jpeg_align z : 0 <= z < 2 ^ 31 -> JPEG_ALIGN_4 z = align4 z.
Proof.
  intros H. unfold JPEG_ALIGN_4, align4.
  rewrite (u32_small (z + 3)) by (unfold is_u32; lia).
  rewrite Z.shiftl_mul_pow2, Z.shiftr_div_pow2 by lia. change (2 ^ 2) with 4.
  rewrite u32_small; [lia|]. unfold is_u32. zlia.
Qed.

Lemma align4_ge z : z <= align4 z < z + 4.
Proof. unfold align4. zlia. Qed.
Lemma align4_id z : z mod 4 = 0 -> align4 z = z.
Proof. unfold align4. intros. zlia. Qed.
Lemma align4_mod z : align4 z mod 4 = 0.
Proof. unfold align4. zlia. Qed.

Lemma get32_le z : is_u32 z -> get32 (le32 z) 0 = z.
Proof. intros H. rewrite <- (app_nil_r (le32 z)). by apply get32_le32. Qed.
Lemma get16_le z l : 0 <= z < 2 ^ 16 -> get16 (le16 z ++ l) 0 = z.
Proof.
  intros H. unfold get16. rewrite drop_0. rewrite <- (le_enc_length 2 z) at 1.
  rewrite take_app_0. by apply le_dec_enc.
Qed.
Lemma get16_le_2 a z : 0 <= z < 2 ^ 16 -> get16 (le16 a ++ le16 z) 2 = z.
Proof.
  intros H. unfold get16. rewrite <- (le_enc_length 2 a) at 2. rewrite drop_app_0.
  rewrite take_ge by (rewrite le_enc_length; lia). by apply le_dec_enc.
Qed.
Lemma get32_le_2 a b :
  0 <= a < 2 ^ 16 -> 0 <= b < 2 ^ 16 -> get32 (le16 a ++ le16 b) 0 = a + 2 ^ 16 * b.
Proof.
  intros Ha Hb. unfold get32. rewrite drop_0, take_ge by (rewrite length_app, !le_enc_length; lia).
  cbn [le_enc app le_dec]. zlia.
Qed.
Lemma get32_halves m : bytes m -> (4 <= length m)%nat -> get32 m 0 = get16 m 0 + 2 ^ 16 * get16 m 2.
Proof.
  intros B H. destruct m as [|a [|b [|c [|d m]]]]; try (cbn in H; lia).
  unfold get32, get16. cbn. lia.
Qed.

Lemma block_ok_inv it :
  block_ok it = true ->
  it_count it = Some (n_of it) /\ 1 <= n_of it < 2 ^ 32 /\ 0 <= it_tag it < 2 ^ 16 /\ bytes (it_mem it) /\
  match it_writer it with
  | WRational => (it_type it = IFD_RATIONAL \/ it_type it = IFD_SRATIONAL) /\ 8 * n_of it <= zlen (it_mem it) /\
                 it_union it = None
  | WLong => it_type it = IFD_LONG /\ 4 * n_of it <= zlen (it_mem it) /\ it_union it = None
  | WShort => (it_type it = IFD_SHORT /\ 2 * n_of it <= zlen (it_mem it) /\ (n_of it <= 2 \/ it_union it = None)) \/
              (it_type it = IFD_LONG /\ n_of it = 1 /\ 4 <= zlen (it_mem it) /\ get16 (it_mem it) 2 = 0)
  | WByte => is_byte_type (it_type it) = true /\ n_of it <= zlen (it_mem it) /\ it_union it = None
  end.
Proof.
  unfold block_ok. rewrite !andb_true_iff. intros [[[[[[C N1] N2] T1] T2] K] B].
  apply Z.leb_le in N1, T1. apply Z.ltb_lt in N2, T2. apply bool_decide_eq_true in B.
  split; [unfold n_of; by destruct (it_count it)|]. do 3 (split; [done || lia|]).
  destruct (it_writer it).
  - rewrite !andb_true_iff, orb_true_iff, !Z.eqb_eq, Z.leb_le, bool_decide_eq_true in K. tauto.
  - rewrite !andb_true_iff, Z.eqb_eq, Z.leb_le, bool_decide_eq_true in K. tauto.
  - rewrite orb_true_iff, !andb_true_iff, orb_true_iff, !Z.eqb_eq, !Z.leb_le, bool_decide_eq_true in K. tauto.
  - rewrite !andb_true_iff, Z.leb_le, bool_decide_eq_true in K. tauto.
Qed.

(** The shape all four functions share once the union is set: the entry is
    written, then perhaps the values. *)
Section Run.
Context (ifh : Z) (it : block) (D V : Z) (b : list Z).
Hypothesis ok : block_ok it = true.
Hypothesis room : 0 <= ifh <= V /\ 0 <= D /\ D + 12 <= zlen b /\ V + zlen (ext_bytes it) <= zlen b /\ zlen b < 2 ^ 31.

Let b1 : list Z := splice b (Z.to_nat D) (entry_bytes ifh it V).
Let b2 : list Z := splice b1 (Z.to_nat V) (ext_bytes it).
Let off : Z := V -u ifh.

Lemma off_eq : off = V - ifh.
Proof. apply u32_small. unfold is_u32. lia. Qed.

Lemma field4_length : length (field4 ifh it V) = 4%nat.
Proof.
  apply block_ok_inv in ok as (_ & N & _ & _ & K). unfold field4.
  destruct (it_writer it); zcase; rewrite ?length_app, ?be32_length, ?be16_length; try done.
  rewrite length_take, length_drop. cbn [length]. lia.
Qed.
Lemma entry_bytes_length : length (entry_bytes ifh it V) = 12%nat.
Proof. unfold entry_bytes. by rewrite !length_app, !be16_length, be32_length, field4_length. Qed.
Lemma b1_length : length b1 = length b.
Proof. apply splice_length. rewrite entry_bytes_length. lia. Qed.

Lemma ifd_entry_run u p ptr :
  be32 (offset_value (MkIFD (it_tag it) (it_type it) (n_of it) u ptr)) = field4 ifh it V -> p = D ->
  Jpeg_WriteIFD (MkIFD (it_tag it) (it_type it) (n_of it) u ptr) (mem_ctx b p) = Some (inr true, mem_ctx b1 (D + 12)).
Proof. intros E ->. rewrite write_ifd_run by lia. cbn [tag type count]. rewrite E. done. Qed.

Lemma run_inline : ext_bytes it = [] -> b2 = b1 /\ next_v it V = V.
Proof.
  intros E. unfold b2, next_v. rewrite E. split; [|done]. apply splice_nil. rewrite b1_length. lia.
Qed.
Lemma run_outline : ext_bytes it <> [] -> next_v it V = JPEG_ALIGN_4 (V + zlen (ext_bytes it)).
Proof.
  intros E. rewrite jpeg_align by lia. unfold next_v. by destruct (ext_bytes it).
Qed.

Definition run_result (e p' : Z) : option ((JPEG_RET_E + cursor) * wctx) :=
  Some (inr (MkCur (D + 12) (next_v it V) (u16 (e + 1))), mem_ctx b2 p').

(** From the answer of one of the four functions. *)
Lemma item_of_ifd e p p' :
  let i := MkIFD (it_tag it) (it_type it) (n_of it)
             (match it_union it with Some u => u | None => le32 off end) (Some (it_mem it)) in
  write_ifd (it_writer it) i D V (mem_ctx b p) = Some (inr (true, D + 12, next_v it V), mem_ctx b2 p') ->
  write_item ifh it (MkCur D V e) (mem_ctx b p) = run_result e p'.
Proof.
  intros i E. unfold write_item. apply block_ok_inv in ok as (C & _).
  erewrite bind_run by (apply of_option_run; exact C). cbn [ifd_value_offset ifd_offset entries].
  erewrite bind_run by exact E. done.
Qed.

Lemma rational_run e p : it_writer it = WRational ->
  exists p', write_item ifh it (MkCur D V e) (mem_ctx b p) = run_result e p'.
Proof.
  intros W. pose proof (block_ok_inv _ ok) as (_ & N & _ & B & K). rewrite W in K. destruct K as (T & L & U).
  assert (X : ext_bytes it = be_longs (it_mem it) (2 * Z.to_nat (n_of it))) by (unfold ext_bytes; by rewrite W).
  assert (XL : length (ext_bytes it) = (8 * Z.to_nat (n_of it))%nat) by (rewrite X, be_longs_length; lia).
  eexists. apply item_of_ifd. rewrite U, W. cbn [write_ifd]. unfold Jpeg_WriteRationalIFD. cbn [value_ptr].
  erewrite guardb_run by (apply stream_run, setpos_ok; lia).
  erewrite guardb_run.
  2:{ apply ifd_entry_run; [|done]. rewrite off_eq. unfold offset_value, field4. rewrite W. cbn [type count].
      destruct T as [-> | ->]; cbn [is_byte_type Z.eqb andb orb IFD_RATIONAL]; unfold long_value; cbn [value_offset];
        (rewrite get32_le by (unfold is_u32; lia)); done. }
  pose proof b1_length. erewrite bind_run by (apply getpos_run; lia).
  erewrite guardb_run by (apply stream_run, setpos_ok; lia).
  cbn [count]. rewrite (guardb_run _ _ _ _ (mem_ctx b2 (V + zlen (ext_bytes it)))).
  2:{ rewrite write_rationals_longs, write_longs_run by lia. unfold b2. rewrite X. do 4 f_equal.
      rewrite <- X, XL. lia. }
  assert (length b2 = length b1) by (apply splice_length; lia).
  erewrite bind_run by (apply getpos_run; lia).
  rewrite run_outline by (intros E; rewrite E in XL; cbn in XL; lia). done.
Qed.
Lemma long_run e p : it_writer it = WLong ->
  exists p', write_item ifh it (MkCur D V e) (mem_ctx b p) = run_result e p'.
Proof.
  intros W. pose proof (block_ok_inv _ ok) as (_ & N & _ & B & K). rewrite W in K. destruct K as (T & L & U).
  pose proof b1_length.
  assert (XD : ext_bytes it = if n_of it <=? 1 then [] else be_longs (it_mem it) (Z.to_nat (n_of it)))
    by (unfold ext_bytes; by rewrite W).
  assert (FD : field4 ifh it V = if n_of it <=? 1 then be32 (get32 (it_mem it) 0) else be32 (V - ifh))
    by (unfold field4; by rewrite W).
  destruct (Z.leb_spec (n_of it) 1) as [N1|N1]; eexists; apply item_of_ifd; rewrite U, W; cbn [write_ifd];
    unfold Jpeg_WriteLongIFD; cbn [value_ptr count];
    [rewrite (proj2 (Z.leb_le _ _)) by lia|rewrite (proj2 (Z.leb_gt _ _)) by lia].
  - destruct (run_inline XD) as [E2 EV]. rewrite E2, EV.
    erewrite bind_run.
    2:{ erewrite bind_run by (apply of_option_run; unfold mem32; rewrite (proj2 (Nat.leb_le _ _)) by lia; done). done. }
    erewrite guardb_run by (apply stream_run, setpos_ok; lia). cbn [set_value_offset tag type count value_ptr].
    erewrite guardb_run.
    2:{ apply ifd_entry_run; [|done]. rewrite FD. unfold offset_value. cbn [type count]. rewrite T.
        cbn [is_byte_type Z.eqb andb orb IFD_LONG]. unfold long_value. cbn [value_offset].
        by rewrite get32_le by by apply get32_range. }
    erewrite bind_run by (apply getpos_run; lia). cbn [count]. by rewrite (proj2 (Z.ltb_ge _ _)) by lia.
  - assert (XL : length (ext_bytes it) = (4 * Z.to_nat (n_of it))%nat) by (rewrite XD, be_longs_length; lia).
    erewrite bind_run by done.
    erewrite guardb_run by (apply stream_run, setpos_ok; lia).
    erewrite guardb_run.
    2:{ apply ifd_entry_run; [|done]. rewrite FD, off_eq. unfold offset_value. cbn [type count]. rewrite T.
        cbn [is_byte_type Z.eqb andb orb IFD_LONG]. unfold long_value. cbn [value_offset].
        by rewrite get32_le by (unfold is_u32; lia). }
    erewrite bind_run by (apply getpos_run; lia). cbn [count]. rewrite (proj2 (Z.ltb_lt _ _)) by lia.
    erewrite guardb_run by (apply stream_run, setpos_ok; lia).
    rewrite (guardb_run _ _ _ _ (mem_ctx b2 (V + zlen (ext_bytes it)))).
    2:{ rewrite write_longs_run by lia. unfold b2. rewrite XD. do 4 f_equal. rewrite <- XD, XL. lia. }
    assert (length b2 = length b1) by (apply splice_length; lia).
    erewrite bind_run by (apply getpos_run; lia).
    rewrite run_outline by (intros E; rewrite E in XL; cbn in XL; lia). done.
Qed.

Lemma byte_run e p : it_writer it = WByte ->
  exists p', write_item ifh it (MkCur D V e) (mem_ctx b p) = run_result e p'.
Proof.
  intros W. pose proof (block_ok_inv _ ok) as (_ & N & _ & B & K). rewrite W in K. destruct K as (T & L & U).
  pose proof b1_length.
  assert (XD : ext_bytes it = if n_of it <=? 4 then [] else take (Z.to_nat (n_of it)) (it_mem it))
    by (unfold ext_bytes; by rewrite W).
  assert (FD : field4 ifh it V = if n_of it <=? 4
      then take (Z.to_nat (n_of it)) (it_mem it) ++ drop (Z.to_nat (n_of it)) (le32 (V - ifh)) else be32 (V - ifh))
    by (unfold field4; by rewrite W).
  pose proof field4_length as FL.
  destruct (Z.leb_spec (n_of it) 4) as [N1|N1]; eexists; apply item_of_ifd; rewrite U, W; cbn [write_ifd];
    unfold Jpeg_WriteByteIFD; cbn [value_ptr count];
    [rewrite (proj2 (Z.leb_le _ _)) by lia|rewrite (proj2 (Z.leb_gt _ _)) by lia].
  - destruct (run_inline XD) as [E2 EV]. rewrite E2, EV.
    erewrite bind_run.
    2:{ erewrite bind_run by (apply of_option_run, load_0; lia). done. }
    erewrite guardb_run by (apply stream_run, setpos_ok; lia). cbn [set_value_offset tag type count value_ptr value_offset].
    rewrite splice_0 by (rewrite length_take, le_enc_length; lia).
    replace (length (take (Z.to_nat (n_of it)) (it_mem it))) with (Z.to_nat (n_of it)) by (rewrite length_take; lia).
    rewrite off_eq, <- FD.
    erewrite guardb_run.
    2:{ apply ifd_entry_run; [|done]. unfold offset_value. cbn [type count]. rewrite T, (proj2 (Z.leb_le _ _)) by lia.
        cbn [andb]. unfold byte_value. cbn [value_offset].
        assert (FB : bytes (field4 ifh it V)).
        { rewrite FD. apply Forall_app_2; [by apply Forall_take|apply Forall_drop, le_enc_bytes]. }
        destruct (field4 ifh it V) as [|x0 [|x1 [|x2 [|x3 [|]]]]]; try discriminate FL.
        do 4 (inversion_clear FB as [|? ? ? FB']; rename FB' into FB). by apply be32_bytes4. }
    erewrite bind_run by (apply getpos_run; lia). cbn [count]. by rewrite (proj2 (Z.ltb_ge _ _)) by lia.
  - assert (XL : length (ext_bytes it) = Z.to_nat (n_of it)) by (rewrite XD, length_take; lia).
    erewrite bind_run by done.
    erewrite guardb_run by (apply stream_run, setpos_ok; lia).
    erewrite guardb_run.
    2:{ apply ifd_entry_run; [|done]. rewrite FD, off_eq. unfold offset_value. cbn [type count].
        rewrite T, (proj2 (Z.leb_gt _ _)) by lia. cbn [andb].
        rewrite (proj2 (Z.eqb_neq (it_type it) IFD_SHORT)) by (intros E; by rewrite E in T).
        cbn [andb]. unfold long_value. cbn [value_offset]. by rewrite get32_le by (unfold is_u32; lia). }
    erewrite bind_run by (apply getpos_run; lia). cbn [count]. rewrite (proj2 (Z.ltb_lt _ _)) by lia.
    erewrite guardb_run by (apply stream_run, setpos_ok; lia).
    rewrite (guardb_run _ _ _ _ (mem_ctx b2 (V + zlen (ext_bytes it)))).
    2:{ rewrite write_chars_run by (try done; lia). unfold b2. rewrite XD, drop_0. do 4 f_equal. rewrite <- XD, XL. lia. }
    assert (length b2 = length b1) by (apply splice_length; lia).
    erewrite bind_run by (apply getpos_run; lia).
    rewrite run_outline by (intros E; rewrite E in XL; cbn in XL; lia). done.
Qed.
(** The inline case of the shorts: the first two are loaded into the union. *)
Lemma short_inline s0 s1 e p :
  it_writer it = WShort -> n_of it <= 2 -> (4 <= length (it_mem it) \/ 2 * Z.to_nat (n_of it) <= length (it_mem it))%nat ->
  s0 = get16 (it_mem it) 0 -> s1 = (if n_of it =? 2 then get16 (it_mem it) 2 else 0) ->
  (forall ptr, be32 (offset_value (MkIFD (it_tag it) (it_type it) (n_of it) (le16 s0 ++ le16 s1) ptr)) = field4 ifh it V) ->
  exists p', write_item ifh it (MkCur D V e) (mem_ctx b p) = run_result e p'.
Proof.
  intros W N2 L E0 E1 F. pose proof (block_ok_inv _ ok) as (_ & N & _). pose proof b1_length.
  destruct run_inline as [E2 EV]; [unfold ext_bytes; by rewrite W, (proj2 (Z.leb_le _ _)) by lia|].
  assert (S1 : (if n_of it =? 2 then of_option (mem16 (it_mem it) 2) else mret 0) (mem_ctx b p) = Some (inr s1, mem_ctx b p)).
  { rewrite E1. destruct (Z.eqb_spec (n_of it) 2); [|done].
    apply of_option_run. unfold mem16. by rewrite (proj2 (Nat.leb_le _ _)) by lia. }
  eexists. apply item_of_ifd. rewrite W, E2, EV. cbn [write_ifd]. unfold Jpeg_WriteShortIFD. cbn [value_ptr count].
  rewrite (proj2 (Z.leb_le _ _)) by lia.
  erewrite bind_run.
  2:{ erewrite bind_run by (apply of_option_run; unfold mem16; rewrite (proj2 (Nat.leb_le _ _)) by lia; done).
      erewrite bind_run by exact S1. done. }
  erewrite guardb_run by (apply stream_run, setpos_ok; lia). cbn [set_value_offset tag type count value_ptr].
  erewrite guardb_run by (apply ifd_entry_run; [rewrite <- E0; apply F|done]).
  erewrite bind_run by (apply getpos_run; lia). cbn [count]. by rewrite (proj2 (Z.ltb_ge _ _)) by lia.
Qed.

Lemma short_run e p : it_writer it = WShort ->
  exists p', write_item ifh it (MkCur D V e) (mem_ctx b p) = run_result e p'.
Proof.
  intros W. pose proof (block_ok_inv _ ok) as (_ & N & _ & B & K). rewrite W in K.
  pose proof (get16_range _ 0 B) as R0. pose proof (get16_range _ 2 B) as R2.
  destruct K as [(T & L & U)|(T & N1 & L & Z2)].
  2:{ apply (short_inline (get16 (it_mem it) 0) 0); try done; [lia|left; lia|by rewrite N1|].
      intros ptr. unfold offset_value, field4. rewrite W. cbn [type count]. rewrite T.
      cbn [is_byte_type Z.eqb andb orb IFD_LONG]. unfold long_value. cbn [value_offset].
      rewrite get32_le_2, get32_halves by (try done; lia). by rewrite Z2. }
  destruct (Z.leb_spec (n_of it) 2) as [N1|N1].
  - assert (L' : (2 * Z.to_nat (n_of it) <= length (it_mem it))%nat) by lia.
    apply (short_inline _ _ e p W N1 (or_intror L') eq_refl eq_refl).
    intros ptr. unfold offset_value, field4. rewrite W. cbn [type count]. rewrite T.
    change (is_byte_type IFD_SHORT) with false. change (IFD_SHORT =? IFD_SHORT) with true.
    change (IFD_SHORT =? IFD_LONG) with false. cbn [andb]. rewrite (proj2 (Z.leb_le _ _)) by lia.
    unfold short_value. cbn [value_offset Nat.mul Nat.add].
    assert (0 <= (if n_of it =? 2 then get16 (it_mem it) 2 else 0) < 2 ^ 16) by (destruct (_ =? 2); lia).
    rewrite get16_le, get16_le_2 by done.
    by apply be32_shorts.
  - destruct U as [U|U]; [lia|]. pose proof b1_length.
    assert (XD : ext_bytes it = be_shorts (it_mem it) (Z.to_nat (n_of it)))
      by (unfold ext_bytes; by rewrite W, (proj2 (Z.leb_gt _ _)) by lia).
    assert (XL : length (ext_bytes it) = (2 * Z.to_nat (n_of it))%nat) by (rewrite XD, be_shorts_length; lia).
    eexists. apply item_of_ifd. rewrite U, W. cbn [write_ifd]. unfold Jpeg_WriteShortIFD. cbn [value_ptr count].
    rewrite (proj2 (Z.leb_gt _ _)) by lia. erewrite bind_run by done.
    erewrite guardb_run by (apply stream_run, setpos_ok; lia).
    erewrite guardb_run.
    2:{ apply ifd_entry_run; [|done]. rewrite off_eq. unfold offset_value, field4. rewrite W. cbn [type count]. rewrite T.
        change (is_byte_type IFD_SHORT) with false. change (IFD_SHORT =? IFD_SHORT) with true.
    change (IFD_SHORT =? IFD_LONG) with false. cbn [andb]. rewrite (proj2 (Z.leb_gt _ _)) by lia.
        unfold long_value. cbn [value_offset]. by rewrite get32_le by (unfold is_u32; lia). }
    erewrite bind_run by (apply getpos_run; lia). cbn [count]. rewrite (proj2 (Z.ltb_lt _ _)) by lia.
    erewrite guardb_run by (apply stream_run, setpos_ok; lia).
    rewrite (guardb_run _ _ _ _ (mem_ctx b2 (V + zlen (ext_bytes it)))).
    2:{ rewrite write_shorts_run by lia. unfold b2. rewrite XD. do 4 f_equal. rewrite <- XD, XL. lia. }
    assert (length b2 = length b1) by (apply splice_length; lia).
    erewrite bind_run by (apply getpos_run; lia).
    rewrite run_outline by (intros E; rewrite E in XL; cbn in XL; lia). done.
Qed.

Lemma write_item_run e p :
  exists p', write_item ifh it (MkCur D V e) (mem_ctx b p) = run_result e p'.
Proof.
  destruct (it_writer it) eqn:W; [by apply rational_run|by apply long_run|by apply short_run|by apply byte_run].
Qed.
End Run.

(** ** Entries laid out in a buffer

    A block together with the offset of its values. *)
Fixpoint laid (ifh : Z) (b : list Z) (D : Z) (l : list (block * Z)) : Prop :=
  match l with
  | [] => True
  | (it, v) :: r => has b D (entry_bytes ifh it v) /\ has b v (ext_bytes it) /\ laid ifh b (D + 12) r
  end.

Fixpoint places (V : Z) (its : list block) : list (block * Z) :=
  match its with [] => [] | it :: r => (it, V) :: places (next_v it V) r end.
Fixpoint end_v (its : list block) (V : Z) : Z :=
  match its with [] => V | it :: r => end_v r (next_v it V) end.

Definition blocks_ok (its : list block) : bool := forallb block_ok its.

Lemma laid_app ifh b D l1 l2 : laid ifh b D (l1 ++ l2) <-> laid ifh b D l1 /\ laid ifh b (D + 12 * zlen l1) l2.
Proof.
  revert D. induction l1 as [|[it v] l1 IH]; intros D.
  - cbn. rewrite Z.add_0_r. tauto.
  - cbn [laid app length]. rewrite IH. replace (D + 12 + 12 * zlen l1) with (D + 12 * Z.of_nat (S (length l1))) by lia.
    tauto.
Qed.

Lemma places_app V l1 l2 : places V (l1 ++ l2) = places V l1 ++ places (end_v l1 V) l2.
Proof. revert V. induction l1 as [|it l1 IH]; intros V; [done|]. cbn. by rewrite IH. Qed.
Lemma places_fst V l : (places V l).*1 = l.
Proof. revert V. induction l as [|it l IH]; intros V; [done|]. cbn. by rewrite IH. Qed.
Lemma places_length V l : length (places V l) = length l.
Proof. by rewrite <- (length_map fst), (places_fst V l : map fst _ = l). Qed.
Lemma end_v_app l1 l2 V : end_v (l1 ++ l2) V = end_v l2 (end_v l1 V).
Proof. revert V. induction l1 as [|it l1 IH]; intros V; [done|]. apply IH. Qed.

Lemma next_v_ge it V : V + zlen (ext_bytes it) <= next_v it V.
Proof. unfold next_v. destruct (ext_bytes it) as [|x l]; [cbn; lia|]. pose proof (align4_ge (V + zlen (x :: l))). lia. Qed.
Lemma next_v_mod it V : V mod 4 = 0 -> next_v it V mod 4 = 0.
Proof. unfold next_v. destruct (ext_bytes it); [done|]. intros _. apply align4_mod. Qed.
Lemma end_v_ge its V : V <= end_v its V.
Proof.
  revert V. induction its as [|it its IH]; intros V; [done|]. cbn. specialize (IH (next_v it V)).
  pose proof (next_v_ge it V). lia.
Qed.
Lemma end_v_mod its V : V mod 4 = 0 -> end_v its V mod 4 = 0.
Proof. revert V. induction its; intros V H; [done|]. cbn. auto using next_v_mod. Qed.

(** Entries stay when their region does. *)
Lemma laid_agree ifh b b' D V its :
  blocks_ok its = true -> D + 12 * zlen its <= zlen b' -> end_v its V <= zlen b' ->
  (forall i, D <= i < D + 12 * zlen its \/ V <= i < end_v its V -> b' !! Z.to_nat i = b !! Z.to_nat i) ->
  laid ifh b D (places V its) -> laid ifh b' D (places V its).
Proof.
  revert D V. induction its as [|it its IH]; intros D V OK HD HV H; [done|].
  cbn [blocks_ok forallb] in OK. apply andb_true_iff in OK as [O1 O2].
  cbn [places laid]. cbn [end_v length] in *. pose proof (next_v_ge it V). pose proof (end_v_ge its (next_v it V)).
  intros (L1 & L2 & L3). split; [|split].
  - eapply load_agree; [exact L1| |]; rewrite entry_bytes_length by done; [lia|]. intros i Hi. apply H. lia.
  - eapply load_agree; [exact L2|lia|]. intros i Hi. apply H. lia.
  - apply IH; [done|lia|lia| |done]. intros i Hi. apply H. lia.
Qed.

(** ** What a reader makes of an entry *)
Lemma rd_has seg ifh off l : has seg (ifh + off) l -> rd seg ifh off (zlen l) = Some (be_dec l).
Proof. intros H. unfold rd. by rewrite H. Qed.

Lemma rd16 seg ifh off v : 0 <= v < 2 ^ 16 -> has seg (ifh + off) (be16 v) -> rd seg ifh off 2 = Some v.
Proof. intros Hv H. rewrite (rd_has _ _ _ _ H : rd seg ifh off 2 = _). by rewrite be_dec_be16. Qed.
Lemma rd32 seg ifh off v : is_u32 v -> has seg (ifh + off) (be32 v) -> rd seg ifh off 4 = Some v.
Proof. intros Hv H. rewrite (rd_has _ _ _ _ H : rd seg ifh off 4 = _). by rewrite be_dec_be32. Qed.

Lemma has_take b off l n : has b off l -> (n <= length l)%nat -> has b off (take n l).
Proof. intros H Hn. rewrite <- (take_drop n l) in H. by apply has_app_inv in H as [H _]. Qed.

(** The bytes of a value, inline or not, and their decoding. *)
Definition value_bytes (it : block) : list Z :=
  let n := Z.to_nat (n_of it) in
  let m := it_mem it in
  if is_byte_type (it_type it) then take n m
  else if it_type it =? IFD_SHORT then be_shorts m n
  else if (it_type it =? IFD_LONG) || (it_type it =? IFD_SLONG) then be_longs m n
  else be_longs m (2 * n).

Lemma read_value_bytes it :
  bytes (it_mem it) ->
  read_value (it_type it) (Z.to_nat (n_of it)) (value_bytes it) =
    host_value (it_type it) (Z.to_nat (n_of it)) (it_mem it).
Proof.
  intros B. unfold read_value, host_value, value_bytes.
  destruct (is_byte_type (it_type it)); [done|]. destruct (it_type it =? IFD_SHORT); [by rewrite be_shorts_values|].
  destruct (_ || _); [by rewrite be_longs_values|]. rewrite be_longs_values by done. by rewrite pairs_longs.
Qed.

Lemma be_longs_1 m : be_longs m 1 = be32 (get32 m 0).
Proof. done. Qed.
Lemma be_shorts_2 m : be_shorts m 2 = be16 (get16 m 0) ++ be16 (get16 m 2).
Proof. done. Qed.

(** The value of a block is in the entry when it has at most four bytes, and
    at the offset otherwise. *)
Lemma value_where ifh it v :
  block_ok it = true ->
  exists size, type_size (it_type it) = Some size /\ zlen (value_bytes it) = size * n_of it /\
    if size * n_of it <=? 4 then exists t, field4 ifh it v = value_bytes it ++ t
    else field4 ifh it v = be32 (v - ifh) /\ ext_bytes it = value_bytes it.
Proof.
  intros OK. pose proof (block_ok_inv _ OK) as (_ & N & _ & B & K). unfold field4, ext_bytes, value_bytes.
  destruct (it_writer it) eqn:W.
  - destruct K as (T & L & _). exists 8.
    assert (T' : type_size (it_type it) = Some 8 /\ is_byte_type (it_type it) = false /\ (it_type it =? IFD_SHORT) = false /\
      (it_type it =? IFD_LONG) || (it_type it =? IFD_SLONG) = false) by (destruct T as [-> | ->]; done).
    destruct T' as (-> & -> & -> & ->). rewrite be_longs_length, (proj2 (Z.leb_gt _ _)) by lia.
    split; [done|]. split; [lia|done].
  - destruct K as (T & L & _). exists 4. rewrite T. change (is_byte_type IFD_LONG) with false. cbn [Z.eqb Pos.eqb orb].
    change (IFD_LONG =? IFD_SHORT) with false. change (IFD_LONG =? IFD_LONG) with true. cbn [orb].
    rewrite be_longs_length. split; [done|]. split; [lia|]. destruct (Z.leb_spec (n_of it) 1).
    + rewrite (proj2 (Z.leb_le _ _)) by lia. exists []. replace (n_of it) with 1 by lia. by rewrite app_nil_r.
    + by rewrite (proj2 (Z.leb_gt _ _)) by lia.
  - destruct K as [(T & L & _)|(T & N1 & _)].
    + exists 2. rewrite T. change (is_byte_type IFD_SHORT) with false. change (IFD_SHORT =? IFD_SHORT) with true.
      change (IFD_SHORT =? IFD_LONG) with false. cbv iota. rewrite be_shorts_length. split; [done|]. split; [lia|].
      destruct (Z.leb_spec (n_of it) 2).
      * rewrite (proj2 (Z.leb_le _ _)) by lia. destruct (Z.eqb_spec (n_of it) 2) as [E|].
        -- exists []. rewrite E, app_nil_r. done.
        -- exists (be16 0). replace (n_of it) with 1 by lia. done.
      * by rewrite (proj2 (Z.leb_gt _ _)) by lia.
    + exists 4. rewrite T, N1. change (is_byte_type IFD_LONG) with false. change (IFD_LONG =? IFD_SHORT) with false.
      change (IFD_LONG =? IFD_LONG) with true. cbn [orb]. split; [done|]. split; [done|]. exists []. by rewrite app_nil_r.
  - destruct K as (T & L & _). exists 1. unfold type_size. rewrite T. split; [done|].
    rewrite length_take. split; [lia|]. rewrite Z.mul_1_l. destruct (Z.leb_spec (n_of it) 4); [by eexists|done].
Qed.

Lemma type_size_range t size : type_size t = Some size -> 0 <= t < 2 ^ 16 /\ 0 < size.
Proof.
  unfold type_size, is_byte_type, IFD_BYTE, IFD_ASCII, IFD_UNDEFINED, IFD_SHORT, IFD_LONG, IFD_SLONG, IFD_RATIONAL, IFD_SRATIONAL.
  repeat (match goal with |- context [t =? ?k] => destruct (Z.eqb_spec t k) end; cbn [orb]); intros; simplify_eq; lia.
Qed.

Lemma entry_read seg ifh off it v :
  block_ok it = true -> 0 <= ifh <= v -> v < 2 ^ 31 ->
  has seg (ifh + off) (entry_bytes ifh it v) -> has seg v (ext_bytes it) ->
  read_entry seg ifh off = Some (view it).
Proof.
  intros OK Hv1 Hv2 HE HX. pose proof (block_ok_inv _ OK) as (_ & N & T & B & _).
  destruct (value_where ifh it v OK) as (size & TS & L & W). pose proof (type_size_range _ _ TS) as [TR SP].
  unfold entry_bytes in HE.
  apply has_app_inv in HE as [H1 HE]. apply has_app_inv in HE as [H2 HE]. apply has_app_inv in HE as [H3 H4].
  rewrite <- Z.add_assoc in H2. replace (ifh + off + zlen (be16 (it_tag it)) + zlen (be16 (it_type it))) with (ifh + (off + 4)) in H3 by (cbn; lia).
  replace (ifh + off + zlen (be16 (it_tag it)) + zlen (be16 (it_type it)) + zlen (be32 (n_of it))) with (ifh + (off + 8)) in H4 by (cbn; lia).
  unfold read_entry. rewrite (rd16 _ _ _ _ T H1). cbn [mbind option_bind].
  rewrite (rd16 _ _ (off + 2) _ TR H2). cbn [mbind option_bind].
  assert (U : is_u32 (n_of it)) by (unfold is_u32; lia). rewrite (rd32 _ _ _ _ U H3). cbn [mbind option_bind]. rewrite TS. cbn [mbind option_bind].
  unfold view. rewrite <- (read_value_bytes it B).
  destruct (Z.leb_spec (size * n_of it) 4).
  - destruct W as [t Wt]. rewrite Wt in H4. apply has_app_inv in H4 as [H4 _]. unfold has in H4. rewrite L in H4.
    rewrite H4. done.
  - destruct W as [W1 W2]. rewrite W1 in H4.
    assert (U' : is_u32 (v - ifh)) by (unfold is_u32; lia). rewrite (rd32 _ _ _ _ U' H4).
    cbn [mbind option_bind]. replace (ifh + (v - ifh)) with v by lia. rewrite W2 in HX. unfold has in HX. rewrite L in HX.
    rewrite HX. done.
Qed.

(** The places a reader can follow. *)
Definition placed_ok (ifh : Z) (q : block * Z) : Prop := block_ok (fst q) = true /\ ifh <= snd q < 2 ^ 31.

Lemma entries_read seg ifh D l :
  0 <= ifh -> Forall (placed_ok ifh) l -> laid ifh seg (ifh + D) l ->
  read_entries seg ifh D (length l) = Some (view <$> l.*1).
Proof.
  intros Hi F. revert D. induction F as [|[it v] l [O V] F IH]; intros D; [done|].
  cbn [laid]. intros (H1 & H2 & H3). cbn [length read_entries fmap list_fmap fst].
  cbn in O, V. rewrite (entry_read _ _ _ it v) by (done || lia). cbn [mbind option_bind].
  rewrite <- Z.add_assoc in H3. by rewrite (IH _ H3).
Qed.

(** A directory at [off] with its entries, and the offset that follows it. *)
Definition dir_at (ifh : Z) (b : list Z) (off : Z) (l : list (block * Z)) (next : Z) : Prop :=
  has b off (be16 (zlen l)) /\ laid ifh b (off + 2) l /\ has b (off + 2 + 12 * zlen l) (be32 next).

Lemma dir_read seg ifh off l next :
  0 <= ifh -> Forall (placed_ok ifh) l -> zlen l < 2 ^ 16 -> is_u32 next -> dir_at ifh seg (ifh + off) l next ->
  read_ifd seg ifh off = Some (view <$> l.*1, next).
Proof.
  intros Hi F Hl Hn (H1 & H2 & H3). unfold read_ifd. rewrite (rd16 _ _ _ _ (conj (Nat2Z.is_nonneg _) Hl) H1).
  cbn [mbind option_bind]. rewrite Nat2Z.id. rewrite <- Z.add_assoc in H2. rewrite (entries_read _ _ _ _ Hi F H2).
  assert (H3' : has seg (ifh + (off + 2 + 12 * zlen l)) (be32 next)) by (by rewrite !Z.add_assoc).
  cbn [mbind option_bind]. rewrite (rd32 _ _ _ _ Hn H3'). done.
Qed.

Lemma places_ok ifh V its :
  blocks_ok its = true -> ifh <= V -> end_v its V < 2 ^ 31 -> Forall (placed_ok ifh) (places V its).
Proof.
  revert V. induction its as [|it its IH]; intros V; [constructor|]. cbn [blocks_ok forallb places end_v].
  intros [O1 O2]%andb_true_iff Hi He. pose proof (next_v_ge it V). pose proof (end_v_ge its (next_v it V)).
  constructor; [split; [done|cbn; lia]|]. apply IH; [done|lia|done].
Qed.
