(* ===== verification/ExifDir.v ===== *)
(** The directories of the EXIF writer as regions of the buffer.

    [step] is a part of a directory: [n] entries from [D] on, values from [V]
    to [endf V], and nothing else touched.  [sub] is a whole directory.  Both
    compose, so that each function of ExifWriter.v is followed by one lemma. *)
From S2P Require Import Prelude ExifStream ExifData ExifWriter ExifRead.

Definition agree (R : Z -> Prop) (b b' : list Z) : Prop :=
  forall i, R i -> b' !! Z.to_nat i = b !! Z.to_nat i.

Definition region (D n V E : Z) (i : Z) : Prop := D <= i < D + 12 * n \/ V <= i < E.

(** One of several frames in a row. *)
Ltac frame_by F := eapply frame_trans; [eapply frame_weaken; [|exact F]; unfold region; intros ?; cbn beta; lia|].

Section Steps.
Context (ifh : Z).

Record step (m : cursor -> M cursor) (n : nat) (endf : Z -> Z) (Post : list Z -> Z -> Z -> Prop) : Prop := {
  step_run b p D V e :
    0 <= ifh <= D -> D + 12 * Z.of_nat n <= V -> V mod 4 = 0 -> endf V <= zlen b -> zlen b < 2 ^ 31 ->
    0 <= e -> e + Z.of_nat n < 2 ^ 16 ->
    exists b' p',
      m (MkCur D V e) (mem_ctx b p) =
        Some (inr (MkCur (D + 12 * Z.of_nat n) (endf V) (e + Z.of_nat n)), mem_ctx b' p') /\
      frame (region D (Z.of_nat n) V (endf V)) b b' /\ Post b' D V;
  step_end V : V mod 4 = 0 -> V <= endf V /\ endf V mod 4 = 0;
  step_stable b b' D V :
    V mod 4 = 0 -> D + 12 * Z.of_nat n <= V -> endf V <= zlen b' ->
    agree (region D (Z.of_nat n) V (endf V)) b b' -> Post b D V -> Post b' D V }.

Record sub (f : Z -> M Z) (endf : Z -> Z) (Q : list Z -> Z -> Prop) : Prop := {
  sub_run b p off :
    0 <= ifh <= off -> endf off <= zlen b -> zlen b < 2 ^ 31 ->
    exists b' p', f off (mem_ctx b p) = Some (inr (endf off), mem_ctx b' p') /\
      frame (fun i => off <= i < endf off) b b' /\ Q b' off;
  sub_end off : off <= endf off /\ endf off mod 4 = 0;
  sub_stable b b' off :
    endf off <= zlen b' -> agree (fun i => off <= i < endf off) b b' -> Q b off -> Q b' off }.

Lemma frame_agree (P R : Z -> Prop) b b' :
  frame P b b' -> (forall i, R i -> 0 <= i /\ ~ P i) -> agree R b b'.
Proof. intros [_ F] H i Hi. destruct (H i Hi). by apply F. Qed.

Lemma step_ret : step mret 0 (fun V => V) (fun _ _ _ => True).
Proof.
  split; [|done|done]. intros b p D V e ???????. exists b, p.
  cbn. rewrite !Z.add_0_r. split; [done|]. split; [apply frame_refl|done].
Qed.

Lemma step_seq m1 n1 e1 P1 m2 n2 e2 P2 :
  step m1 n1 e1 P1 -> step m2 n2 e2 P2 ->
  step (fun k => k ← m1 k; m2 k) (n1 + n2) (fun V => e2 (e1 V))
    (fun b D V => P1 b D V /\ P2 b (D + 12 * Z.of_nat n1) (e1 V)).
Proof.
  intros S1 S2. split.
  - intros b p D V e Hi HD HV HE Hb He Hn.
    destruct (step_end _ _ _ _ S1 V HV) as [G1 M1]. destruct (step_end _ _ _ _ S2 _ M1) as [G2 M2].
    destruct (step_run _ _ _ _ S1 b p D V e) as (b1 & p1 & R1 & F1 & Q1); try lia.
    pose proof (frame_zlen _ _ _ F1) as L1.
    destruct (step_run _ _ _ _ S2 b1 p1 (D + 12 * Z.of_nat n1) (e1 V) (e + Z.of_nat n1)) as (b2 & p2 & R2 & F2 & Q2); try lia.
    pose proof (frame_zlen _ _ _ F2) as L2.
    exists b2, p2. split; [|split; [|split]].
    + erewrite bind_run by exact R1. rewrite R2. do 4 f_equal; lia.
    + eapply frame_trans; eapply frame_weaken; [|exact F1| |exact F2]; unfold region; lia.
    + eapply (step_stable _ _ _ _ S1); [done|lia|lia| |exact Q1].
      eapply frame_agree; [exact F2|]. unfold region. lia.
    + exact Q2.
  - intros V HV. destruct (step_end _ _ _ _ S1 V HV) as [G1 M1]. destruct (step_end _ _ _ _ S2 _ M1). lia.
  - intros b b' D V HV HD HE A [Q1 Q2].
    destruct (step_end _ _ _ _ S1 V HV) as [G1 M1]. destruct (step_end _ _ _ _ S2 _ M1) as [G2 M2]. split.
    + eapply (step_stable _ _ _ _ S1); [done|lia|lia| |exact Q1]. intros i Hi. apply A. unfold region in *. lia.
    + eapply (step_stable _ _ _ _ S2); [done|lia|lia| |exact Q2]. intros i Hi. apply A. unfold region in *. lia.
Qed.

Lemma step_item it :
  block_ok it = true ->
  step (write_item ifh it) 1 (next_v it) (fun b D V => laid ifh b D (places V [it])).
Proof.
  intros OK. pose proof (entry_bytes_length ifh it) as EL. split.
  - intros b p D V e Hi HD HV HE Hb He Hn. pose proof (next_v_ge it V).
    destruct (write_item_run ifh it D V b OK ltac:(lia) e p) as [p' R]. eexists _, p'. split; [|split].
    + rewrite R. unfold run_result. do 3 f_equal. rewrite u16_small by lia. f_equal; lia.
    + pose proof (b1_length ifh it D V b OK ltac:(lia)) as L1.
      eapply frame_trans; eapply frame_weaken;
        [|eapply (frame_splice b D (entry_bytes ifh it V)); rewrite ?EL by done; lia| |
          eapply (frame_splice _ V (ext_bytes it)); lia]; unfold region; rewrite ?EL by done; lia.
    + pose proof (b1_length ifh it D V b OK ltac:(lia)) as L1. cbn [places laid]. split; [|split; [|done]].
      * eapply has_frame; [eapply (frame_splice _ V (ext_bytes it)); lia| |].
        -- intros i. rewrite EL by done. lia.
        -- apply has_splice; rewrite ?EL by done; lia.
      * apply has_splice; lia.
  - intros V HV. pose proof (next_v_ge it V). auto using next_v_mod with lia.
  - intros b b' D V HV HD HE A. pose proof (next_v_ge it V). apply laid_agree; cbn [length end_v blocks_ok forallb]; rewrite ?OK; try done; try lia.
Qed.

Lemma step_items its :
  blocks_ok its = true ->
  step (write_items ifh its) (length its) (end_v its) (fun b D V => laid ifh b D (places V its)).
Proof.
  induction its as [|it its IH]; intros OK; [apply step_ret|].
  cbn [blocks_ok forallb] in OK. apply andb_true_iff in OK as [O1 O2].
  pose proof (step_seq _ _ _ _ _ _ _ _ (step_item it O1) (IH O2)) as S.
  destruct S as [R E St]. split; [|exact E|].
  - intros b p D V e ???????. destruct (R b p D V e) as (b' & p' & R' & F' & Q1 & Q2); try done.
    exists b', p'. split; [exact R'|]. split; [exact F'|]. cbn [places laid] in *. tauto.
  - intros b b' D V HV HD HE A L. specialize (St b b' D V HV HD HE A). cbn [places laid] in *. tauto.
Qed.

(** ** Whole directories *)

(** The offset of the values of a directory with room for [max] entries. *)
Definition v0 (max off : Z) : Z := align4 (off + 2 + 12 * max + 4).

Lemma v0_ge max off : off + 2 + 12 * max + 4 <= v0 max off /\ v0 max off mod 4 = 0.
Proof. unfold v0. pose proof (align4_ge (off + 2 + 12 * max + 4)). split; [lia|apply align4_mod]. Qed.

Lemma begin_ifd_run max off b p :
  0 <= off -> 0 <= max < 2 ^ 16 -> off + 2 <= zlen b -> v0 max off <= zlen b -> zlen b < 2 ^ 31 ->
  exists p', begin_ifd off max (mem_ctx b p) =
    Some (inr (MkCur (off + 2) (v0 max off) 0), mem_ctx (splice b (Z.to_nat off) (be16 max)) p').
Proof.
  intros H1 H2 H3 H4 H5. exists (off + 2). unfold begin_ifd, v0 in *. pose proof (align4_ge (off + 2 + 12 * max + 4)).
  erewrite bind_run by (apply call_run, setpos_ok; lia).
  erewrite bind_run by (apply data_run, writew_ok; lia).
  erewrite bind_run by (apply getpos_run; rewrite splice_length; cbn; lia).
  unfold IFD_HEAD_LENGTH. rewrite (u32_small (off + 2 + max * 12)), u32_small by (unfold is_u32; lia).
  rewrite jpeg_align by lia. replace (off + 2 + max * 12 + 4) with (off + 2 + 12 * max + 4) by lia. done.
Qed.

Lemma end_ifd_run off next D V e b p :
  0 <= off -> off + 2 <= zlen b -> 0 <= D -> D + 4 <= zlen b ->
  exists p', end_ifd off next (MkCur D V e) (mem_ctx b p) =
    Some (inr V, mem_ctx (splice (splice b (Z.to_nat D) (be32 next)) (Z.to_nat off) (be16 e)) p').
Proof.
  intros H1 H2 H3 H4. exists (off + 2). unfold end_ifd. cbn [ifd_offset ifd_value_offset entries].
  erewrite bind_run by (apply call_run, setpos_ok; lia).
  erewrite bind_run by (apply data_run, writel_ok; lia).
  erewrite bind_run by (apply call_run, setpos_ok; rewrite splice_length; cbn; lia).
  erewrite bind_run by (apply data_run, writew_ok; rewrite ?splice_length; cbn; lia). done.
Qed.

(** A directory around a [step]; [next] gives the offset of the following
    directory from the end of the values. *)
Definition dir_writer (body : cursor -> M cursor) (max : Z) (next : Z -> Z) (off : Z) : M Z :=
  k ← begin_ifd off max; k ← body k; end_ifd off (next (ifd_value_offset k)) k.

Lemma sub_dir body n endf Post max next :
  step body n endf Post -> Z.of_nat n <= max < 2 ^ 16 ->
  sub (dir_writer body max next) (fun off => endf (v0 max off))
    (fun b off => has b off (be16 (Z.of_nat n)) /\ Post b (off + 2) (v0 max off) /\
                  has b (off + 2 + 12 * Z.of_nat n) (be32 (next (endf (v0 max off))))).
Proof.
  intros S Hn. split.
  - intros b p off Hi HE Hb. destruct (v0_ge max off) as [G0 M0]. destruct (step_end _ _ _ _ S _ M0) as [G1 M1].
    unfold dir_writer. destruct (begin_ifd_run max off b p) as [p1 R1]; try lia.
    pose proof (frame_splice b off (be16 max) ltac:(lia) ltac:(cbn; lia)) as F1. pose proof (frame_zlen _ _ _ F1) as L1.
    destruct (step_run _ _ _ _ S (splice b (Z.to_nat off) (be16 max)) p1 (off + 2) (v0 max off) 0)
      as (b2 & p2 & R2 & F2 & Q2); try lia. rewrite Z.add_0_l in R2.
    pose proof (frame_zlen _ _ _ F2) as L2.
    destruct (end_ifd_run off (next (endf (v0 max off))) (off + 2 + 12 * Z.of_nat n) (endf (v0 max off)) (Z.of_nat n) b2 p2)
      as [p3 R3]; try lia.
    pose proof (frame_splice b2 (off + 2 + 12 * Z.of_nat n) (be32 (next (endf (v0 max off)))) ltac:(lia) ltac:(cbn; lia)) as F3.
    pose proof (frame_zlen _ _ _ F3) as L3.
    pose proof (frame_splice _ off (be16 (Z.of_nat n)) ltac:(lia) ltac:(rewrite L3; cbn; lia) :
      frame _ (splice b2 (Z.to_nat (off + 2 + 12 * Z.of_nat n)) (be32 (next (endf (v0 max off))))) _) as F4.
    cbn [length be16 be32] in F1, F3, F4.
    eexists _, p3. split; [|split; [|split; [|split]]].
    + erewrite bind_run by exact R1. erewrite bind_run by exact R2. cbn [ifd_value_offset]. exact R3.
    + frame_by F1. frame_by F2. frame_by F3. eapply frame_weaken; [|exact F4]. intros ?. cbn beta. lia.
    + apply has_splice; [lia|]. rewrite L3. cbn. lia.
    + eapply (step_stable _ _ _ _ S); [done|lia| | |exact Q2].
      { rewrite (frame_zlen _ _ _ F4). lia. }
      eapply (frame_agree (fun i => off <= i < off + 2 \/ off + 2 + 12 * Z.of_nat n <= i < off + 2 + 12 * Z.of_nat n + 4)).
      { eapply frame_trans; eapply frame_weaken; [|exact F3| |exact F4]; intros ?; cbn beta; lia. }
      unfold region. intros i. cbn beta. lia.
    + eapply has_frame; [exact F4| |apply has_splice; cbn; lia]. cbn. lia.
  - intros off. destruct (v0_ge max off) as [G0 M0]. destruct (step_end _ _ _ _ S _ M0). lia.
  - intros b b' off HE A (H1 & H2 & H3). destruct (v0_ge max off) as [G0 M0]. destruct (step_end _ _ _ _ S _ M0) as [G1 M1].
    split; [|split].
    + eapply load_agree; [exact H1|cbn; lia|]. intros i Hi. apply A. cbn in Hi. lia.
    + eapply (step_stable _ _ _ _ S); [done|lia|lia| |exact H2]. intros i Hi. apply A. unfold region in Hi.
      pose proof (has_bounds _ _ _ H1). lia.
    + eapply load_agree; [exact H3|cbn; lia|]. intros i Hi. apply A. cbn in Hi. lia.
Qed.

(** An entry with the offset of a directory, and the directory. *)
Definition ptr_block (tag off : Z) : block := item tag IFD_LONG 1 WLong (mem_long off).

Lemma ptr_block_ok tag off : 0 <= tag < 2 ^ 16 -> block_ok (ptr_block tag off) = true.
Proof.
  intros H. unfold block_ok, ptr_block, n_of, item. cbn [it_count it_tag it_type it_writer it_mem it_union default].
  rewrite (proj2 (Z.leb_le 0 tag)), (proj2 (Z.ltb_lt tag (2 ^ 16))) by lia.
  rewrite (bool_decide_eq_true_2 (bytes (mem_long off))) by apply le_enc_bytes. done.
Qed.

(** The entry is the same whatever the union holds before. *)
Definition ptr_bytes (tag off : Z) : list Z := be16 tag ++ be16 IFD_LONG ++ be32 1 ++ be32 off.

Lemma ptr_entry tag off v : is_u32 off -> entry_bytes ifh (ptr_block tag off) v = ptr_bytes tag off.
Proof. intros H. unfold entry_bytes, ptr_block, field4, n_of, item, mem_long.
  cbn [it_writer it_count it_mem it_type it_tag default from_option id]. change (1 <=? 1) with true. by rewrite get32_le. Qed.

Lemma ptr_long_run t off u D V b p :
  is_u32 off -> 0 <= D -> D + 12 <= zlen b ->
  Jpeg_WriteLongIFD (MkIFD t IFD_LONG 1 u (Some (mem_long off))) D V (mem_ctx b p) =
    Some (inr (true, D + 12, V), mem_ctx (splice b (Z.to_nat D) (ptr_bytes t off)) (D + 12)).
Proof.
  intros Ho H1 H2. unfold Jpeg_WriteLongIFD. cbn [value_ptr count Z.leb Z.compare Pos.compare Pos.compare_cont].
  erewrite bind_run.
  2:{ erewrite bind_run by (apply of_option_run; unfold mem32, mem_long; rewrite le_enc_length; done). done. }
  unfold mem_long. rewrite get32_le by done.
  erewrite guardb_run by (apply stream_run, setpos_ok; lia). cbn [set_value_offset tag type count value_ptr].
  erewrite guardb_run by (apply write_ifd_run; lia). cbn [tag type count].
  erewrite bind_run by (apply getpos_run; rewrite splice_length; cbn; lia). cbn [count].
  assert (E : offset_value (MkIFD t IFD_LONG 1 (le32 off) (Some (le32 off))) = off) by (by apply get32_le).
  unfold set_value_offset. cbn [tag type count value_ptr]. by rewrite E.
Qed.

Lemma step_pointer tag f endf Q :
  0 <= tag < 2 ^ 16 -> sub f endf Q ->
  step (write_pointer ifh tag f) 1 endf
    (fun b D V => laid ifh b D [(ptr_block tag (V - ifh), V)] /\ Q b V).
Proof.
  intros Ht S. split.
  - intros b p D V e Hi HD HV HE Hb He Hn. destruct (sub_end _ _ _ S V) as [G M].
    assert (U : is_u32 (V - ifh)) by (unfold is_u32; lia).
    pose proof (frame_splice b D (ptr_bytes tag (V - ifh)) ltac:(lia) ltac:(cbn; lia)) as F1.
    pose proof (frame_zlen _ _ _ F1) as L1. cbn [ptr_bytes be16 be32 app length] in F1.
    destruct (sub_run _ _ _ S (splice b (Z.to_nat D) (ptr_bytes tag (V - ifh))) (D + 12) V) as (b2 & p2 & R2 & F2 & Q2); try lia.
    exists b2, p2. split; [|split; [|split]].
    + unfold write_pointer. cbn [ifd_value_offset ifd_offset entries]. rewrite jpeg_align, align4_id by (done || lia).
      rewrite (u32_small (V - ifh)) by done. erewrite bind_run by (apply ptr_long_run; [done|lia|lia]). cbn beta iota.
      erewrite bind_run by exact R2. rewrite u16_small by lia. done.
    + frame_by F1. eapply frame_weaken; [|exact F2]. unfold region. lia.
    + cbn [laid]. rewrite ptr_entry by done. split; [|split; [|done]].
      * eapply has_frame; [exact F2| |apply has_splice; cbn; lia]. cbn. lia.
      * unfold has. cbn. pose proof (frame_zlen _ _ _ F2). unfold load.
        rewrite !(proj2 (Z.leb_le _ _)) by lia. done.
    + exact Q2.
  - intros V HV. apply (sub_end _ _ _ S).
  - intros b b' D V HV HD HE A [L Q1]. destruct (sub_end _ _ _ S V) as [G M]. split.
    + pose proof (ptr_block_ok tag (V - ifh) Ht) as OK. cbn [laid] in *. destruct L as (H1 & H2 & _).
      split; [|split; [|done]].
      * eapply load_agree; [exact H1| |]; rewrite entry_bytes_length by done; [lia|]. intros i Hi. apply A. unfold region. lia.
      * eapply load_agree; [exact H2|cbn; lia|]. cbn. lia.
    + eapply (sub_stable _ _ _ S); [done| |exact Q1]. intros i Hi. apply A. unfold region. lia.
Qed.
End Steps.
