(* ===== verification/ExifApp1.v ===== *)
(** The segment that [Jpeg_WriteAPP1] produces, read back.

    [read_exif] is the reference reader of a whole APP1 segment: the marker
    and the length, the identifier, the byte order, the first directory, the
    directories it points to, and the second directory with the thumbnail.
    The main theorem is the round trip: a reader of the segment finds the
    values the caller passed, in the order of the source's blocks. *)
From S2P Require Import Prelude ExifStream ExifData ExifWriter ExifRead ExifDir.

(** ** The reader of a segment *)
Definition pointer_tags : list Z :=
  [IFD_EXIFIFDPOINTER; IFD_GPSIFDPOINTER; IFD_INTEROPERABILITYIFDPOINTER; IFD_JPEGINTERCHANGEFORMAT].
Definition is_pointer (e : entry) : bool := bool_decide (e_tag e ∈ pointer_tags).

Fixpoint find_long (t : Z) (es : list entry) : option Z :=
  match es with
  | [] => None
  | e :: r => if e_tag e =? t then match e_value e with VLongs [v] => Some v | _ => None end else find_long t r
  end.

Record exif_tree := MkTree {
  t_ifd0 : list entry; t_exif : option (list entry); t_inter : option (list entry); t_gps : option (list entry);
  t_ifd1 : option (list entry * list Z) }.

Definition read_sub (seg : list Z) (ifh : Z) (p : option Z) : option (option (list entry)) :=
  match p with
  | None => Some None
  | Some off => '(es, _) ← read_ifd seg ifh off; Some (Some es)
  end.
Definition plain (es : list entry) : list entry := filter (fun e => is_pointer e = false) es.

Definition read_ifd1 (seg : list Z) (ifh next : Z) : option (option (list entry * list Z)) :=
  if next =? 0 then Some None else
  '(es, _) ← read_ifd seg ifh next;
  off ← find_long IFD_JPEGINTERCHANGEFORMAT es; n ← find_long IFD_JPEGINTERCHANGEFORMATLENGTH es;
  data ← load seg (ifh + off) n;
  Some (Some (plain es, data)).

Definition read_exif (seg : list Z) : option exif_tree :=
  let ifh := 10 in
  head ← load seg 0 10;
  order ← load seg ifh 8;
  if negb (bool_decide (head = [0xff; 0xe1] ++ be16 (zlen seg - 2) ++ [0x45; 0x78; 0x69; 0x66; 0; 0])) then None else
  if negb (bool_decide (order = be16 0x4d4d ++ be16 0x2a ++ be32 8)) then None else
  '(es, next) ← read_ifd seg ifh 8;
  exif ← read_sub seg ifh (find_long IFD_EXIFIFDPOINTER es);
  inter ← read_sub seg ifh (exif ≫= find_long IFD_INTEROPERABILITYIFDPOINTER);
  gps ← read_sub seg ifh (find_long IFD_GPSIFDPOINTER es);
  ifd1 ← read_ifd1 seg ifh next;
  Some (MkTree (plain es) (plain <$> exif) inter gps ifd1).

(** What the caller passed. *)
Definition spec_a (s : EXIF_SPECIFIC_INFO_T) : list block :=
  spec_items_1 s ++ spec_items_2 s ++ spec_items_3 s ++ spec_items_4 s.
Definition spec_b (s : EXIF_SPECIFIC_INFO_T) : list block := spec_items_5 s ++ spec_items_6 s ++ spec_items_7 s.
Definition pri_a (q : EXIF_PRIMARY_INFO_T) : list block := pri_items_1 q ++ pri_items_2 q.

Definition tree_of (e : JINF_EXIF_INFO_T) (thumb : option (list Z)) : exif_tree :=
  MkTree (view <$> (pri_a (primary e) ++ pri_items_3 (primary e)))
    ((fun s => view <$> (spec_a s ++ spec_b s)) <$> spec_ptr e)
    (spec_ptr e ≫= fun _ => (fun i => view <$> inter_items i) <$> inter_ptr e)
    ((fun g => view <$> gps_items g) <$> gps_ptr e)
    ((fun t => (view <$> (pri_a ifd1_primary ++
                 [item IFD_JPEGINTERCHANGEFORMATLENGTH IFD_LONG 1 WLong (mem_long (zlen t))] ++
                 pri_items_3 ifd1_primary), t)) <$> thumb).

(** ** Well-formed blocks *)
Definition leaf_ok (it : block) : bool := block_ok it && negb (bool_decide (it_tag it ∈ pointer_tags)).
Definition leaves_ok (l : list block) : bool := forallb leaf_ok l.

Definition text_ok (s : list Z) : bool := existsb (Z.eqb 0) (mem_bytes 256 s).
Definition custom_ok (size : Z) (c : EXIF_CUSTOM_T) : bool := size * c_count c <=? 256.
Definition small_ok (z : Z) : bool := (0 <=? z) && (z <? 2 ^ 16).

Lemma mem_bytes_length n l : length (mem_bytes n l) = n.
Proof. unfold mem_bytes. rewrite length_take, length_app, length_replicate. lia. Qed.
Lemma mem_bytes_bytes n l : bytes (mem_bytes n l).
Proof.
  unfold mem_bytes. apply Forall_take, Forall_app_2; [|apply Forall_replicate; unfold is_byte; lia].
  apply Forall_fmap, Forall_true. intros x. apply u8_byte.
Qed.
Lemma mem_shorts_length n l : length (mem_shorts n l) = (2 * n)%nat.
Proof.
  unfold mem_shorts. rewrite (join_length 2).
  - rewrite length_take, length_app, length_replicate. lia.
  - intros x. apply le_enc_length.
Qed.
Lemma mem_rationals_length n l : length (mem_rationals n l) = (8 * n)%nat.
Proof.
  unfold mem_rationals. rewrite (join_length 8).
  - rewrite length_take, length_app, length_replicate. lia.
  - intros x. unfold mem_rational. by rewrite length_app, !le_enc_length.
Qed.
Lemma join_bytes {A} (f : A -> list Z) (l : list A) : (forall x, bytes (f x)) -> bytes (mjoin (f <$> l)).
Proof. intros H. induction l; [constructor|]. cbn [fmap list_fmap]. rewrite join_cons. by apply Forall_app_2. Qed.
Lemma mem_rational_bytes r : bytes (mem_rational r).
Proof. apply Forall_app_2; apply le_enc_bytes. Qed.

Lemma string_size m : existsb (Z.eqb 0) m = true -> exists k, _GetAsciiStringSize m = Some k /\ 0 <= k < zlen m.
Proof.
  induction m as [|c m IH]; [done|]. cbn [existsb _GetAsciiStringSize length].
  destruct (Z.eqb_spec c 0) as [->|N]; [intros _; exists 0; split; [done|lia]|].
  destruct (Z.eqb_spec 0 c); [congruence|]. cbn [orb]. intros H. destruct (IH H) as (k & -> & ?).
  exists (k + 1). cbn. split; [done|lia].
Qed.

Definition tag_ok (t : Z) : bool := (0 <=? t) && (t <? 2 ^ 16) && negb (bool_decide (t ∈ pointer_tags)).

(** A block is well-formed and its values take at most [c] bytes, padding
    included. *)
Definition fits (c : Z) (it : block) : Prop := leaf_ok it = true /\ forall V, next_v it V <= V + c.

Lemma fits_intro c it :
  tag_ok (it_tag it) = true -> block_ok it = true -> (zlen (ext_bytes it) = 0 \/ zlen (ext_bytes it) + 3 <= c) -> 0 <= c ->
  fits c it.
Proof.
  unfold tag_ok. rewrite !andb_true_iff. intros [_ T] OK H Hc. split; [unfold leaf_ok; by rewrite OK, T|].
  intros V. unfold next_v. destruct (ext_bytes it) as [|x l] eqn:E; [lia|].
  pose proof (align4_ge (V + zlen (x :: l))). cbn [length] in *. lia.
Qed.

Lemma block_ok_intro it n :
  tag_ok (it_tag it) = true -> it_count it = Some n -> 1 <= n < 2 ^ 32 -> bytes (it_mem it) ->
  (match it_writer it with
   | WRational => ((it_type it =? IFD_RATIONAL) || (it_type it =? IFD_SRATIONAL)) && (8 * n <=? zlen (it_mem it)) &&
       bool_decide (it_union it = None)
   | WLong => (it_type it =? IFD_LONG) && (4 * n <=? zlen (it_mem it)) && bool_decide (it_union it = None)
   | WShort =>
       ((it_type it =? IFD_SHORT) && (2 * n <=? zlen (it_mem it)) &&
          ((n <=? 2) || bool_decide (it_union it = None))) ||
       ((it_type it =? IFD_LONG) && (n =? 1) && (4 <=? zlen (it_mem it)) && (get16 (it_mem it) 2 =? 0))
   | WByte => is_byte_type (it_type it) && (n <=? zlen (it_mem it)) && bool_decide (it_union it = None)
   end) = true -> block_ok it = true.
Proof.
  unfold tag_ok. rewrite !andb_true_iff. intros [[T1 T2] _] C N B K. unfold block_ok, n_of. rewrite C. cbn [default from_option id].
  rewrite T1, T2, K, (proj2 (Z.leb_le 1 n)), (proj2 (Z.ltb_lt n _)) by lia. by rewrite (bool_decide_eq_true_2 _ B).
Qed.

(** The kinds of blocks in the tables. *)
Ltac fits_item n :=
  match goal with H : tag_ok _ = true |- _ =>
    apply fits_intro; [exact H|apply (block_ok_intro _ n); [exact H|done|lia| |]| |] end.

Lemma fits_short tag v : tag_ok tag = true -> fits 0 (item tag IFD_SHORT 1 WShort (mem_short v)).
Proof. intros H. fits_item 1; [apply le_enc_bytes|done|by left|done]. Qed.
Lemma fits_direct tag v : tag_ok tag = true -> fits 0 (direct tag IFD_SHORT 1 WShort (mem_short v)).
Proof. intros H. fits_item 1; [apply le_enc_bytes|done|by left|done]. Qed.
Lemma fits_long tag v : tag_ok tag = true -> fits 0 (item tag IFD_LONG 1 WLong (mem_long v)).
Proof. intros H. fits_item 1; [apply le_enc_bytes|done|by left|done]. Qed.
Lemma fits_rational tag r : tag_ok tag = true -> fits 11 (item tag IFD_RATIONAL 1 WRational (mem_rational r)).
Proof. intros H. fits_item 1; [apply mem_rational_bytes|done|by right|done]. Qed.
Lemma fits_srational tag r : tag_ok tag = true -> fits 11 (item tag IFD_SRATIONAL 1 WRational (mem_srational r)).
Proof. intros H. fits_item 1; [apply Forall_app_2; apply le_enc_bytes|done|by right|done]. Qed.
Lemma fits_rationals tag n l :
  tag_ok tag = true -> (1 <= n <= 100)%nat ->
  fits (8 * Z.of_nat n + 3) (item tag IFD_RATIONAL (Z.of_nat n) WRational (mem_rationals n l)).
Proof.
  intros H N. fits_item (Z.of_nat n).
  - apply join_bytes, mem_rational_bytes.
  - cbn [it_writer it_type it_mem it_union item]. rewrite mem_rationals_length, (proj2 (Z.leb_le _ _)) by lia. done.
  - right. cbn [ext_bytes it_writer it_mem item n_of it_count default from_option id]. rewrite be_longs_length. lia.
  - lia.
Qed.
Lemma fits_shorts tag n l :
  tag_ok tag = true -> (1 <= n <= 1000)%nat ->
  fits (2 * Z.of_nat n + 3) (item tag IFD_SHORT (Z.of_nat n) WShort (mem_shorts n l)).
Proof.
  intros H N. fits_item (Z.of_nat n).
  - apply join_bytes. intros x. apply le_enc_bytes.
  - cbn [it_writer it_type it_mem it_union item]. rewrite mem_shorts_length, (proj2 (Z.leb_le (2 * _) _)) by lia.
    change (IFD_SHORT =? IFD_SHORT) with true. by rewrite orb_true_r.
  - cbn [ext_bytes it_writer it_mem item n_of it_count default from_option id].
    destruct (Z.of_nat n <=? 2); [by left|right]. rewrite be_shorts_length. lia.
  - lia.
Qed.
Lemma fits_bytes_n tag ty n m :
  tag_ok tag = true -> is_byte_type ty = true -> 1 <= n < 2 ^ 32 -> n <= zlen m -> bytes m ->
  fits (n + 3) (item tag ty n WByte m).
Proof.
  intros H T N L B. fits_item n.
  - done.
  - cbn [it_writer it_type it_mem it_union item]. by rewrite T, (proj2 (Z.leb_le _ _)) by lia.
  - cbn [ext_bytes it_writer it_mem item n_of it_count default from_option id].
    destruct (n <=? 4); [by left|right]. rewrite length_take. lia.
  - lia.
Qed.
Lemma fits_bytes tag ty n l :
  tag_ok tag = true -> is_byte_type ty = true -> (1 <= n <= 1000)%nat ->
  fits (Z.of_nat n + 3) (item tag ty (Z.of_nat n) WByte (mem_bytes n l)).
Proof.
  intros H T N. apply fits_bytes_n; [done|done|lia|by rewrite mem_bytes_length|apply mem_bytes_bytes].
Qed.
Lemma fits_text tag s : tag_ok tag = true -> text_ok s = true -> fits 259 (text_item tag s).
Proof.
  intros H T. destruct (string_size _ T) as (k & K & R). rewrite mem_bytes_length in R.
  assert (E : text_item tag s = item tag IFD_ASCII (k + 1) WByte (mem_bytes 256 s)).
  { unfold text_item, item, string_count. by rewrite K. }
  rewrite E. destruct (fits_bytes_n tag IFD_ASCII (k + 1) (mem_bytes 256 s)) as [F1 F2]; try done.
  - lia.
  - rewrite mem_bytes_length. lia.
  - apply mem_bytes_bytes.
  - split; [done|]. intros V. specialize (F2 V). lia.
Qed.
Lemma fits_custom tag ty c :
  tag_ok tag = true -> is_byte_type ty = true -> 0 <? c_count c = true -> custom_ok 1 c = true ->
  fits 259 (custom_item tag ty WByte c).
Proof.
  intros H T P%Z.ltb_lt C%Z.leb_le. unfold custom_item. destruct (fits_bytes_n tag ty (c_count c) (mem_bytes 256 (c_ptr c))) as [F1 F2]; try done.
  - lia.
  - rewrite mem_bytes_length. lia.
  - apply mem_bytes_bytes.
  - split; [done|]. intros V. specialize (F2 V). lia.
Qed.
Lemma fits_custom_short tag c :
  tag_ok tag = true -> 0 <? c_count c = true -> custom_ok 2 c = true -> fits 259 (custom_item tag IFD_SHORT WShort c).
Proof.
  intros H P%Z.ltb_lt C%Z.leb_le. fits_item (c_count c).
  - apply mem_bytes_bytes.
  - cbn [it_writer it_type it_mem it_union item custom_item]. rewrite mem_bytes_length, (proj2 (Z.leb_le (2 * _) _)) by lia.
    change (IFD_SHORT =? IFD_SHORT) with true. by rewrite orb_true_r.
  - cbn [ext_bytes it_writer it_mem item custom_item n_of it_count default from_option id].
    destruct (c_count c <=? 2); [by left|right]. rewrite be_shorts_length. lia.
  - lia.
Qed.
Lemma fits_width tag v :
  tag_ok tag = true -> small_ok v = true -> fits 0 (item tag IFD_LONG 1 WShort (mem_long v)).
Proof.
  intros H S. apply andb_true_iff in S as [S1%Z.leb_le S2%Z.ltb_lt]. fits_item 1.
  - apply le_enc_bytes.
  - cbn [it_writer it_type it_mem it_union item]. unfold mem_long, get16. cbn [le_enc drop take le_dec].
    replace (v / 256 / 256) with 0 by zlia. done.
  - by left.
  - done.
Qed.

(** ** The tables *)
Definition fits_list (n c : Z) (its : list block) : Prop :=
  leaves_ok its = true /\ zlen its <= n /\ forall V, end_v its V <= V + c.

Lemma fits_list_app n1 c1 l1 n2 c2 l2 :
  fits_list n1 c1 l1 -> fits_list n2 c2 l2 -> fits_list (n1 + n2) (c1 + c2) (l1 ++ l2).
Proof.
  intros (L1 & N1 & E1) (L2 & N2 & E2). split; [|split].
  - unfold leaves_ok. rewrite forallb_app. by rewrite (L1 : forallb _ _ = _), (L2 : forallb _ _ = _).
  - rewrite length_app. lia.
  - intros V. rewrite end_v_app. specialize (E1 V). specialize (E2 (end_v l1 V)). lia.
Qed.
Lemma fits_list_one c it : fits c it -> fits_list 1 c [it].
Proof. intros [L E]. split; [cbn; by rewrite L|]. split; [done|]. exact E. Qed.
Lemma fits_list_field {A} c (p : option A) valid it :
  0 <= c -> (forall a, p = Some a -> valid a = true -> fits c (it a)) -> fits_list 1 c (field p valid it).
Proof.
  intros Hc H. unfold field. destruct p as [a|]; [|split; [done|split; [done|cbn; lia]]].
  destruct (valid a) eqn:V; [by apply fits_list_one, H|]. split; [done|split; [done|cbn; lia]].
Qed.
Lemma fits_list_weaken n c n' c' its : fits_list n c its -> n <= n' -> c <= c' -> fits_list n' c' its.
Proof. intros (L & N & E) ??. split; [done|]. split; [lia|]. intros V. specialize (E V). lia. Qed.

Lemma leaves_blocks its : leaves_ok its = true -> blocks_ok its = true.
Proof.
  unfold leaves_ok, blocks_ok. rewrite !forallb_forall. intros H x Hx. specialize (H x Hx).
  unfold leaf_ok in H. by apply andb_true_iff in H as [H _].
Qed.

(** What the caller has to observe: strings end within their arrays, custom
    values lie within theirs, and the widths the writer cuts to 16 bits have
    no more; the subject area, which is written with the wrong function, is
    not given. *)
Definition opt_ok {A} (f : A -> bool) (o : option A) : bool := match o with Some a => f a | None => true end.
Definition desc_ok (p : EXIF_PRI_DESC_T) : bool :=
  let v := desc_valid p in
  implb (v_ImageDescription v) (text_ok (ImageDescription p)) && implb (v_Make v) (text_ok (Make p)) &&
  implb (v_Model v) (text_ok (Model p)) && implb (v_Software v) (text_ok (Software p)) &&
  implb (v_Artist v) (text_ok (Artist p)) && implb (v_Copyright v) (text_ok (Copyright p)).
Definition pri_ok (q : EXIF_PRIMARY_INFO_T) : bool :=
  small_ok (ImageWidth (pri_basic q)) && small_ok (ImageLength (pri_basic q)) && opt_ok desc_ok (img_desc_ptr q).
Definition ptc_ok (p : EXIF_SPEC_PIC_TAKING_COND_T) : bool :=
  let v := ptc_valid p in
  implb (v_SpectralSensitivity v) (text_ok (SpectralSensitivity p)) &&
  implb (v_ISOSpeedRatings v) (custom_ok 2 (ISOSpeedRatings p)) && implb (v_OECF v) (custom_ok 1 (OECF p)) &&
  negb (v_SubjectArea v && (0 <? c_count (SubjectArea p))) &&
  implb (v_SpatialFrequencyResponse v) (custom_ok 1 (SpatialFrequencyResponse p)) &&
  implb (v_CFAPattern v) (custom_ok 1 (CFAPattern p)) &&
  implb (v_DeviceSettingDescription v) (custom_ok 1 (DeviceSettingDescription p)).
Definition user_ok (p : EXIF_SPEC_USER_T) : bool := custom_ok 1 (MakerNote p) && custom_ok 1 (UserComment p).
Definition dt_ok (p : EXIF_SPEC_DATE_TIME_T) : bool :=
  let v := dt_valid p in
  implb (v_SubSecTime v) (text_ok (SubSecTime p)) && implb (v_SubSecTimeOriginal v) (text_ok (SubSecTimeOriginal p)) &&
  implb (v_SubSecTimeDigitized v) (text_ok (SubSecTimeDigitized p)).
Definition spec_ok (s : EXIF_SPECIFIC_INFO_T) : bool :=
  opt_ok ptc_ok (pic_taking_cond_ptr s) && opt_ok user_ok (user_ptr s) && opt_ok dt_ok (date_time_ptr s).
Definition gps_ok (g : EXIF_GPS_INFO_T) : bool :=
  let v := gps_valid g in
  implb (v_GPSSatellites v) (text_ok (GPSSatellites g)) && implb (v_GPSMapDatum v) (text_ok (GPSMapDatum g)) &&
  implb (v_GPSProcessingMethod v) (custom_ok 1 (GPSProcessingMethod g)) &&
  implb (v_GPSAreaInformation v) (custom_ok 1 (GPSAreaInformation g)).
Definition inter_ok (i : EXIF_INTEROPERABILITY_INFO_T) : bool :=
  implb (v_InteroperabilityIndex (inter_valid i)) (custom_ok 1 (InteroperabilityIndex i)).
(** The descriptions the writer writes as they are.  Outside of them it does
    not: a string without its end or a custom value longer than its array is
    read past the array; ImageWidth and ImageLength of 2^16 or more lose their
    upper half, since they are entries of type LONG written by
    [Jpeg_WriteShortIFD] (exif_writer.c:2451); a SubjectArea with a count is an
    entry of type SHORT written by [Jpeg_WriteRationalIFD]
    (exif_writer.c:901). *)
Definition exif_ok (e : JINF_EXIF_INFO_T) : bool :=
  pri_ok (primary e) && opt_ok spec_ok (spec_ptr e) && opt_ok gps_ok (gps_ptr e) && opt_ok inter_ok (inter_ptr e).

(** The condition of a block from the conditions on the structures. *)
Ltac split_ok :=
  repeat match goal with
  | H : _ && _ = true |- _ => apply andb_true_iff in H as [? ?]
  | E : ?p = Some ?a, H : opt_ok ?f ?p = true |- _ => rewrite E in H; cbn [opt_ok] in H; unfold f in H
  | V : ?v = true, H : implb ?v _ = true |- _ => rewrite V in H; cbn [implb] in H
  end.
Ltac fits_leaf :=
  lazymatch goal with
  | |- fits _ (item _ _ _ WShort (mem_short _)) => apply fits_short; done
  | |- fits _ (direct _ _ _ _ _) => apply fits_direct; done
  | |- fits _ (item _ _ _ WLong (mem_long _)) => apply fits_long; done
  | |- fits _ (item _ _ _ WShort (mem_long _)) => apply fits_width; [done|split_ok; done]
  | |- fits _ (item _ _ _ _ (mem_rational _)) => apply fits_rational; done
  | |- fits _ (item _ _ _ _ (mem_srational _)) => apply fits_srational; done
  | |- fits _ (item ?t _ _ _ (mem_rationals ?k ?l)) => apply (fits_rationals t k l); [done|lia]
  | |- fits _ (item ?t _ _ _ (mem_shorts ?k ?l)) => apply (fits_shorts t k l); [done|lia]
  | |- fits _ (item ?t ?ty _ _ (mem_bytes ?k ?l)) => apply (fits_bytes t ty k l); [done|done|lia]
  | |- fits _ (text_item _ _) => apply fits_text; [done|split_ok; done]
  | |- fits _ (custom_item _ _ WByte _) => split_ok; apply fits_custom; done
  | |- fits _ (custom_item _ _ WShort _) => split_ok; apply fits_custom_short; done
  | |- fits _ (custom_item _ _ WRational _) =>
    exfalso; split_ok; match goal with A : ?x = true, B : ?y = true, N : negb (?x && ?y) = true |- _ => by rewrite A, B in N end
  | |- fits _ (item _ _ _ WByte _) => apply fits_bytes_n; [done|done|lia|done|repeat constructor; done]
  end.
Ltac fits_table :=
  lazymatch goal with
  | |- fits_list _ _ (_ ++ _) => eapply fits_list_app; [fits_table|fits_table]
  | |- fits_list _ _ (field _ (fun p => _ && (0 <? c_count (SubjectArea p))) _) =>
    eapply (fits_list_field 0); [done|intros ? ? ?; fits_leaf]
  | |- fits_list _ _ (field _ _ _) =>
    eapply fits_list_field; [|intros ? ? ?; simplify_eq; fits_leaf]; lia
  | |- fits_list _ _ [_] => eapply fits_list_one; fits_leaf
  end.
Ltac table := eapply fits_list_weaken; [fits_table|done|done].

Lemma inter_fits i : inter_ok i = true -> fits_list 1 259 (inter_items i).
Proof. intros H. unfold inter_items, inter_ok in *. table. Qed.

Lemma gps_fits g : gps_ok g = true -> fits_list 31 2000 (gps_items g).
Proof.
  intros H. unfold gps_items, gps_ok in *.
  apply (fits_list_weaken (9 + (9 + (9 + 4))) (400 + (200 + (600 + 600)))); [|done|done].
  repeat apply fits_list_app; [unfold gps_items_1|unfold gps_items_2|unfold gps_items_3|unfold gps_items_4]; table.
Qed.

Lemma spec_a_fits s : spec_ok s = true -> fits_list 32 2800 (spec_a s).
Proof.
  intros H. unfold spec_a, spec_ok in *.
  apply (fits_list_weaken (9 + (9 + (9 + 5))) (900 + (200 + (1400 + 100)))); [|done|done].
  repeat apply fits_list_app; [unfold spec_items_1|unfold spec_items_2|unfold spec_items_3|unfold spec_items_4]; table.
Qed.
Lemma spec_b_fits s : spec_ok s = true -> fits_list 24 1500 (spec_b s).
Proof.
  intros H. unfold spec_b, spec_ok in *.
  apply (fits_list_weaken (9 + (9 + 6)) (500 + (400 + 500))); [|done|done].
  repeat apply fits_list_app; [unfold spec_items_5|unfold spec_items_6|unfold spec_items_7]; table.
Qed.
Lemma pri_a_fits q : pri_ok q = true -> fits_list 14 3300 (pri_a q).
Proof.
  intros H. unfold pri_a, pri_ok in *. apply (fits_list_weaken (8 + 6) (900 + 2400)); [|done|done].
  apply fits_list_app; [unfold pri_items_1|unfold pri_items_2]; table.
Qed.
Lemma pri_c_fits q : pri_ok q = true -> fits_list 6 400 (pri_items_3 q).
Proof. intros H. unfold pri_items_3, pri_ok in *. table. Qed.

(** ** The directories *)
Section Dirs.
Context (ifh : Z).

Lemma bind_ext {A B} (m : M A) (f g : A -> M B) c : (forall a c, f a c = g a c) -> (m ≫= f) c = (m ≫= g) c.
Proof. intros H. unfold mbind, M_bind. destruct (m c) as [[[|] ]|]; [done|apply H|done]. Qed.
Lemma bind_assoc {A B C} (m : M A) (f : A -> M B) (g : B -> M C) c :
  ((m ≫= f) ≫= g) c = (m ≫= fun a => f a ≫= g) c.
Proof. unfold mbind, M_bind. by destruct (m c) as [[[|] ]|]. Qed.

Lemma sub_ext f g endf Q : (forall off c, g off c = f off c) -> sub ifh f endf Q -> sub ifh g endf Q.
Proof.
  intros H [R E S]. split; [|done|done]. intros b p off ???. rewrite H. by apply R.
Qed.
Lemma sub_post f endf Q Q' : (forall b off, Q b off <-> Q' b off) -> sub ifh f endf Q -> sub ifh f endf Q'.
Proof.
  intros H [R E S]. split; [|done|].
  - intros b p off ???. destruct (R b p off) as (b' & p' & ? & ? & ?); try done. exists b', p'. by rewrite <- H.
  - intros b b' off ??. rewrite <- !H. by apply S.
Qed.

Lemma sub_inter i :
  inter_ok i = true ->
  sub ifh (Jpeg_WriteExifInteroperabilityInfo (Some i) ifh) (fun off => end_v (inter_items i) (v0 1 off))
    (fun b off => dir_at ifh b off (places (v0 1 off) (inter_items i)) 0).
Proof.
  intros OK. destruct (inter_fits i OK) as (L & N & _).
  eapply sub_post, sub_ext, (sub_dir ifh _ _ _ _ 1 (fun _ => 0) (step_items ifh _ (leaves_blocks _ L))); [|done|lia].
  intros b off. unfold dir_at. by rewrite places_length.
Qed.

Lemma sub_gps g :
  gps_ok g = true ->
  sub ifh (Jpeg_WriteExifGPSInfo (Some g) ifh) (fun off => end_v (gps_items g) (v0 31 off))
    (fun b off => dir_at ifh b off (places (v0 31 off) (gps_items g)) 0).
Proof.
  intros OK. destruct (gps_fits g OK) as (L & N & _).
  eapply sub_post, sub_ext, (sub_dir ifh _ _ _ _ 31 (fun _ => 0) (step_items ifh _ (leaves_blocks _ L))); [|done|lia].
  intros b off. unfold dir_at. by rewrite places_length.
Qed.

(** A pointer that is written only when there is a directory. *)
Definition opt_end {A} (endf : A -> Z -> Z) (o : option A) (V : Z) : Z :=
  match o with Some a => endf a V | None => V end.
Definition opt_ptr {A} (tag : Z) (o : option A) (V : Z) : list (block * Z) :=
  match o with Some _ => [(ptr_block tag (V - ifh), V)] | None => [] end.
Definition opt_post {A} (Q : A -> list Z -> Z -> Prop) (o : option A) (b : list Z) (V : Z) : Prop :=
  match o with Some a => Q a b V | None => True end.

Lemma step_opt {A} tag (o : option A) (f : A -> Z -> M Z) endf Q :
  0 <= tag < 2 ^ 16 -> (forall a, o = Some a -> sub ifh (f a) (endf a) (Q a)) ->
  step ifh (fun k => match o with Some a => write_pointer ifh tag (f a) k | None => mret k end)
    (match o with Some _ => 1 | None => 0 end) (opt_end endf o)
    (fun b D V => laid ifh b D (opt_ptr tag o V) /\ opt_post Q o b V).
Proof.
  intros Ht H. destruct o as [a|]; [by apply step_pointer, H|].
  destruct (step_ret ifh) as [R E S]. split; [|done|done].
  intros b p D V e ???????. destruct (R b p D V e) as (b' & p' & ? & ? & ?); try done. exists b', p'. done.
Qed.

Definition inter_end (i : EXIF_INTEROPERABILITY_INFO_T) (off : Z) : Z := end_v (inter_items i) (v0 1 off).
Definition inter_post i b off : Prop := dir_at ifh b off (places (v0 1 off) (inter_items i)) 0.

Section Spec.
Context (s : EXIF_SPECIFIC_INFO_T) (io : option EXIF_INTEROPERABILITY_INFO_T).
Definition spec_v1 (off : Z) : Z := end_v (spec_a s) (v0 57 off).
Definition spec_v2 (off : Z) : Z := opt_end inter_end io (spec_v1 off).
Definition spec_end (off : Z) : Z := end_v (spec_b s) (spec_v2 off).
Definition spec_places (off : Z) : list (block * Z) :=
  places (v0 57 off) (spec_a s) ++ opt_ptr IFD_INTEROPERABILITYIFDPOINTER io (spec_v1 off) ++
  places (spec_v2 off) (spec_b s).
Definition spec_post (b : list Z) (off : Z) : Prop :=
  dir_at ifh b off (spec_places off) 0 /\ opt_post inter_post io b (spec_v1 off).
Hypothesis OK : spec_ok s = true.
Hypothesis OKi : opt_ok inter_ok io = true.

Lemma sub_spec : sub ifh (Jpeg_WriteExifSpecInfo (Some s) io ifh) spec_end spec_post.
Proof.
  destruct (spec_a_fits s OK) as (La & Na & _). destruct (spec_b_fits s OK) as (Lb & Nb & _).
  assert (SI : forall i, io = Some i -> sub ifh (Jpeg_WriteExifInteroperabilityInfo (Some i) ifh) (inter_end i) (inter_post i)).
  { intros i E. apply sub_inter. by rewrite E in OKi. }
  pose proof (step_opt IFD_INTEROPERABILITYIFDPOINTER io (fun i => Jpeg_WriteExifInteroperabilityInfo (Some i) ifh)
    inter_end inter_post ltac:(done) SI) as S2.
  pose proof (step_seq ifh _ _ _ _ _ _ _ _ (step_items ifh _ (leaves_blocks _ La))
    (step_seq ifh _ _ _ _ _ _ _ _ S2 (step_items ifh _ (leaves_blocks _ Lb)))) as S.
  eapply sub_post, sub_ext, (sub_dir ifh _ _ _ _ 57 (fun _ => 0) S).
  - intros b off. unfold spec_post, dir_at, spec_places. rewrite !laid_app, !length_app, !places_length.
    replace (length (opt_ptr IFD_INTEROPERABILITYIFDPOINTER io (spec_v1 off))) with (match io with Some _ => 1 | None => 0 end)%nat
      by by destruct io.
    unfold spec_v2, spec_v1. tauto.
  - intros off c. unfold Jpeg_WriteExifSpecInfo, dir_writer. apply bind_ext. intros k c'.
    rewrite bind_assoc. apply bind_ext. intros k1 c1. rewrite bind_assoc. unfold mbind, M_bind. by destruct io.
  - destruct io; lia.
Qed.
End Spec.

Definition gps_end (g : EXIF_GPS_INFO_T) (off : Z) : Z := end_v (gps_items g) (v0 31 off).
Definition gps_post g b off : Prop := dir_at ifh b off (places (v0 31 off) (gps_items g)) 0.

(** The first directory. *)
Section Ifd0.
Context (q : EXIF_PRIMARY_INFO_T) (so : option EXIF_SPECIFIC_INFO_T) (go : option EXIF_GPS_INFO_T)
  (io : option EXIF_INTEROPERABILITY_INFO_T) (more : bool).
Definition pri_v1 (off : Z) : Z := end_v (pri_a q) (v0 24 off).
Definition pri_v2 (off : Z) : Z := end_v (pri_items_3 q) (pri_v1 off).
Definition pri_v3 (off : Z) : Z := opt_end (fun s => spec_end s io) so (pri_v2 off).
Definition ifd0_end (off : Z) : Z := opt_end gps_end go (pri_v3 off).
Definition ifd0_places (off : Z) : list (block * Z) :=
  places (v0 24 off) (pri_a q) ++ places (pri_v1 off) (pri_items_3 q) ++
  opt_ptr IFD_EXIFIFDPOINTER so (pri_v2 off) ++ opt_ptr IFD_GPSIFDPOINTER go (pri_v3 off).
Definition ifd0_next (off : Z) : Z := if more then ifd0_end off -u ifh else 0.
Definition ifd0_post (b : list Z) (off : Z) : Prop :=
  dir_at ifh b off (ifd0_places off) (ifd0_next off) /\
  opt_post (fun s => spec_post s io) so b (pri_v2 off) /\ opt_post gps_post go b (pri_v3 off).
Hypothesis OK : exif_ok (MkInfo q so go io) = true.

Lemma sub_ifd0 : sub ifh (Jpeg_WriteExifIFD q so go io None more ifh) ifd0_end ifd0_post.
Proof.
  unfold exif_ok in OK. cbn [primary spec_ptr gps_ptr inter_ptr] in OK. rewrite !andb_true_iff in OK.
  destruct OK as [[[Oq Os] Og] Oi].
  destruct (pri_a_fits q Oq) as (La & Na & _). destruct (pri_c_fits q Oq) as (Lc & Nc & _).
  assert (SS : forall s, so = Some s -> sub ifh (Jpeg_WriteExifSpecInfo (Some s) io ifh) (spec_end s io) (spec_post s io)).
  { intros s E. apply sub_spec; [by rewrite E in Os|done]. }
  assert (SG : forall g, go = Some g -> sub ifh (Jpeg_WriteExifGPSInfo (Some g) ifh) (gps_end g) (gps_post g)).
  { intros g E. apply sub_gps. by rewrite E in Og. }
  pose proof (step_opt IFD_EXIFIFDPOINTER so (fun s => Jpeg_WriteExifSpecInfo (Some s) io ifh)
    (fun s => spec_end s io) (fun s => spec_post s io) ltac:(done) SS) as S3.
  pose proof (step_opt IFD_GPSIFDPOINTER go (fun g => Jpeg_WriteExifGPSInfo (Some g) ifh) gps_end gps_post ltac:(done) SG) as S4.
  pose proof (step_seq ifh _ _ _ _ _ _ _ _ (step_items ifh _ (leaves_blocks _ La))
    (step_seq ifh _ _ _ _ _ _ _ _ (step_items ifh _ (leaves_blocks _ Lc)) (step_seq ifh _ _ _ _ _ _ _ _ S3 S4))) as S.
  eapply sub_post, sub_ext, (sub_dir ifh _ _ _ _ 24 (fun V => if more then V -u ifh else 0) S).
  - intros b off. unfold ifd0_post, dir_at, ifd0_places. rewrite !laid_app, !length_app, !places_length.
    replace (length (opt_ptr IFD_EXIFIFDPOINTER so (pri_v2 off))) with (match so with Some _ => 1 | None => 0 end)%nat
      by by destruct so.
    replace (length (opt_ptr IFD_GPSIFDPOINTER go (pri_v3 off))) with (match go with Some _ => 1 | None => 0 end)%nat
      by by destruct go.
    unfold ifd0_next, ifd0_end, pri_v3, pri_v2, pri_v1. tauto.
  - intros off c. unfold Jpeg_WriteExifIFD, dir_writer. apply bind_ext. intros k c'.
    rewrite bind_assoc. apply bind_ext. intros k1 c1. rewrite bind_assoc. apply bind_ext. intros k2 c2.
    rewrite bind_assoc. cbn [thumbnail_items thumbnail_of mbind option_bind]. unfold mbind, M_bind.
    destruct so; destruct go; done.
  - destruct so, go; lia.
Qed.
End Ifd0.

(** The directory of the thumbnail. *)
Lemma thumbnail_run t D V e tio b p :
  0 <= ifh <= V -> V + zlen t <= zlen b -> 0 <= tio -> tio + 12 <= zlen b -> zlen b < 2 ^ 31 -> bytes t -> 0 < zlen t ->
  exists p', write_thumbnail (Some (MkThumb (Some t) (zlen t))) ifh tio (MkCur D V e) (mem_ctx b p) =
    Some (inr (MkCur D (V + zlen t) e),
          mem_ctx (splice (splice b (Z.to_nat V) t) (Z.to_nat tio) (ptr_bytes IFD_JPEGINTERCHANGEFORMAT (V - ifh))) p').
Proof.
  intros H1 H2 H3 H4 H5 B T. exists (tio + 12). unfold write_thumbnail, thumbnail_of.
  cbn [mbind option_bind stream_buf_ptr stream_buf_size]. rewrite (proj2 (Z.ltb_lt _ _)) by done.
  cbn [ifd_value_offset ifd_offset entries].
  erewrite bind_run by (apply call_run, setpos_ok; lia).
  erewrite bind_run by (apply of_option_run, load_all; done).
  erewrite bind_run by (apply stream_run; cbn [Jpeg_WriteBlock write_ptr mem_ctx]; apply (writeblock_ok b V t); [lia|lia|done]).
  cbn [negb]. assert (L : length (splice b (Z.to_nat V) t) = length b) by (apply splice_length; lia).
  erewrite bind_run by (apply getpos_run; lia).
  erewrite bind_run by (apply call_run, setpos_ok; lia).
  rewrite (u32_small (V - ifh)) by (unfold is_u32; lia).
  erewrite bind_run by (apply ptr_long_run; [unfold is_u32; lia|lia|lia]). done.
Qed.

Section Ifd1.
Context (q : EXIF_PRIMARY_INFO_T) (t : list Z).
Definition len_block : block := item IFD_JPEGINTERCHANGEFORMATLENGTH IFD_LONG 1 WLong (mem_long (zlen t)).
Definition ifd1_end (off : Z) : Z := pri_v2 q off + zlen t.
Definition ifd1_places (off : Z) : list (block * Z) :=
  places (v0 24 off) (pri_a q) ++ [(ptr_block IFD_JPEGINTERCHANGEFORMAT (pri_v2 q off - ifh), pri_v1 q off)] ++
  places (pri_v1 q off) (len_block :: pri_items_3 q).
Definition ifd1_post (b : list Z) (off : Z) : Prop :=
  dir_at ifh b off (ifd1_places off) 0 /\ has b (pri_v2 q off) t.
Hypothesis OK : pri_ok q = true.
Hypothesis Ht : bytes t /\ 0 < zlen t.

Lemma ifd1_run b p off :
  0 <= ifh <= off -> ifd1_end off <= zlen b -> zlen b < 2 ^ 31 ->
  exists b' p', Jpeg_WriteExifIFD q None None None (Some (MkThumb (Some t) (zlen t))) false ifh off (mem_ctx b p) =
      Some (inr (ifd1_end off), mem_ctx b' p') /\
    frame (fun i => off <= i < ifd1_end off) b b' /\ ifd1_post b' off.
Proof.
  intros Hi HE Hb. destruct Ht as [Bt Lt].
  destruct (pri_a_fits q OK) as (La & Na & _). destruct (pri_c_fits q OK) as (Lc & Nc & _).
  set (J0 := ptr_block IFD_JPEGINTERCHANGEFORMAT 0).
  assert (Oc : blocks_ok (J0 :: len_block :: pri_items_3 q) = true).
  { cbn [blocks_ok forallb]. unfold J0, len_block. rewrite !(ptr_block_ok _ _ : _ -> block_ok (item _ _ _ _ _) = true) by done.
    by apply leaves_blocks. }
  pose proof (step_items ifh _ (leaves_blocks _ La)) as S1. pose proof (step_items ifh _ Oc) as S2.
  destruct (v0_ge 24 off) as [G0 M0]. destruct (step_end _ _ _ _ _ S1 _ M0) as [G1 M1].
  destruct (step_end _ _ _ _ _ S2 _ M1) as [G2 _].
  fold (pri_v1 q off) in G1, M1, G2. change (end_v (J0 :: _) (pri_v1 q off)) with (pri_v2 q off) in G2.
  unfold ifd1_end in *. set (la := zlen (pri_a q)) in *. set (lc := zlen (pri_items_3 q)) in *.
  assert (Lr : zlen (J0 :: len_block :: pri_items_3 q) = 2 + lc) by (cbn [length]; lia).
  destruct (begin_ifd_run 24 off b p) as [p1 R1]; try lia.
  pose proof (frame_splice b off (be16 24) ltac:(lia) ltac:(cbn; lia)) as F1. pose proof (frame_zlen _ _ _ F1) as L1.
  destruct (step_run _ _ _ _ _ S1 _ p1 (off + 2) (v0 24 off) 0 ltac:(lia) ltac:(lia) M0 ltac:(rewrite L1; fold (pri_v1 q off); lia)
    ltac:(lia) ltac:(lia) ltac:(lia)) as (b2 & p2 & R2 & F2 & Q2).
  fold (pri_v1 q off) in R2, F2. pose proof (frame_zlen _ _ _ F2) as L2.
  destruct (step_run _ _ _ _ _ S2 b2 p2 (off + 2 + 12 * la) (pri_v1 q off) (0 + la) ltac:(lia) ltac:(lia) M1
    ltac:(change (end_v (J0 :: _) (pri_v1 q off)) with (pri_v2 q off); lia) ltac:(lia) ltac:(lia) ltac:(lia)) as (b3 & p3 & R3 & F3 & Q3).
  change (end_v (J0 :: _) (pri_v1 q off)) with (pri_v2 q off) in R3, F3. pose proof (frame_zlen _ _ _ F3) as L3.
  rewrite Lr in R3, F3. set (tio := off + 2 + 12 * la) in *. set (Dn := tio + 12 * (2 + lc)) in *. set (V := pri_v2 q off) in *.
  destruct (thumbnail_run t Dn V (0 + la + (2 + lc)) tio b3 p3) as [p4 R4]; try done; try lia.
  set (b4a := splice b3 (Z.to_nat V) t) in *. set (pb := ptr_bytes IFD_JPEGINTERCHANGEFORMAT (V - ifh)) in *.
  pose proof (frame_splice b3 V t ltac:(lia) ltac:(lia)) as F4a. fold b4a in F4a. pose proof (frame_zlen _ _ _ F4a) as L4a.
  pose proof (frame_splice b4a tio pb ltac:(lia) ltac:(cbn; lia)) as F4b. pose proof (frame_zlen _ _ _ F4b) as L4b.
  set (b4 := splice b4a (Z.to_nat tio) pb) in *. change (zlen pb) with 12 in F4b.
  destruct (end_ifd_run off 0 Dn (V + zlen t) (0 + la + (2 + lc)) b4 p4) as [p5 R5]; try lia.
  pose proof (frame_splice b4 Dn (be32 0) ltac:(lia) ltac:(cbn; lia)) as F5a. pose proof (frame_zlen _ _ _ F5a) as L5a.
  set (b5a := splice b4 (Z.to_nat Dn) (be32 0)) in *. change (zlen (be32 0)) with 4 in F5a.
  pose proof (frame_splice b5a off (be16 (0 + la + (2 + lc))) ltac:(lia) ltac:(cbn; lia)) as F5b. pose proof (frame_zlen _ _ _ F5b) as L5b.
  set (b5 := splice b5a (Z.to_nat off) (be16 (0 + la + (2 + lc)))) in *. change (zlen (be16 _)) with 2 in F1, F5b.
  assert (F35 : frame (fun i => V <= i < V + zlen t \/ tio <= i < tio + 12 \/ Dn <= i < Dn + 4 \/ off <= i < off + 2) b3 b5).
  { frame_by F4a. frame_by F4b. frame_by F5a. eapply frame_weaken; [|exact F5b]. intros ?; cbn beta; lia. }
  assert (F25 : frame (fun i => V <= i < V + zlen t \/ tio <= i < Dn + 4 \/ off <= i < off + 2 \/ pri_v1 q off <= i < V) b2 b5).
  { frame_by F3. eapply frame_weaken; [|exact F35]. intros ?; cbn beta; lia. }
  exists b5, p5. split; [|split; [|split; [split; [|split]|]]].
  - unfold Jpeg_WriteExifIFD. erewrite bind_run by exact R1. erewrite bind_run by exact R2. cbn [ifd_offset].
    assert (T0 : thumbnail_items (Some (MkThumb (Some t) (zlen t))) = [J0; len_block]).
    { unfold thumbnail_items, thumbnail_of. cbn [mbind option_bind stream_buf_ptr stream_buf_size].
      by rewrite (proj2 (Z.ltb_lt _ _)) by done. }
    rewrite T0. cbn [app]. erewrite bind_run by exact R3. cbn beta iota. erewrite bind_run by done.
    erewrite bind_run by done. erewrite bind_run by exact R4. exact R5.
  - frame_by F1. frame_by F2. eapply frame_weaken; [|exact F25]. intros ?; cbn beta; lia.
  - unfold ifd1_places. rewrite !length_app, !places_length. cbn [length]. 
    replace (Z.of_nat _) with (0 + la + (2 + lc)) by lia. apply has_splice; [lia|cbn; lia].
  - unfold ifd1_places. rewrite !laid_app, places_length. split; [|split].
    + eapply laid_agree; [by apply leaves_blocks|lia|fold (pri_v1 q off); lia| |exact Q2].
      apply (frame_agree _ _ _ _ F25). fold (pri_v1 q off). intros i. cbn beta. lia.
    + cbn [laid]. fold la tio. rewrite ptr_entry by (unfold is_u32; lia). split; [|split; [|done]].
      * eapply has_frame; [exact F5b|cbn; lia|]. eapply has_frame; [exact F5a|cbn; lia|]. apply has_splice; [lia|cbn; lia].
      * unfold has. cbn. unfold load. rewrite !(proj2 (Z.leb_le _ _)) by lia. done.
    + cbn [length]. fold la tio. replace (tio + 12 * Z.of_nat 1) with (tio + 12) by lia.
      assert (Or : blocks_ok (len_block :: pri_items_3 q) = true) by by apply andb_true_iff in Oc as [_ Oc].
      change (places (pri_v1 q off) (J0 :: len_block :: pri_items_3 q))
        with ((J0, pri_v1 q off) :: places (pri_v1 q off) (len_block :: pri_items_3 q)) in Q3.
      destruct Q3 as (_ & _ & Q3).
      assert (EV : end_v (len_block :: pri_items_3 q) (pri_v1 q off) = V) by done.
      eapply laid_agree; [done|cbn [length]; lia|rewrite EV; lia| |exact Q3].
      apply (frame_agree _ _ _ _ F35). rewrite EV. cbn [length]. intros i. cbn beta. lia.
  - unfold ifd1_places. rewrite !length_app, !places_length. cbn [length].
    replace (off + 2 + 12 * Z.of_nat _) with Dn by lia.
    eapply has_frame; [exact F5b|cbn; lia|]. apply has_splice; [lia|cbn; lia].
  - eapply has_frame; [exact F5b|cbn; lia|]. eapply has_frame; [exact F5a|cbn; lia|].
    eapply has_frame; [exact F4b|cbn; lia|]. apply has_splice; lia.
Qed.
End Ifd1.
End Dirs.
