(* ===== verification/ExifStd.v ===== *)
(** The fields of the EXIF standard, version 2.2, as a table of its own.

    [std_tree] says which entries a description stands for: the tag numbers
    and types are the numbers of the standard's tables 3 to 5, 12 and 14, each
    field is present when its own flag says that it is valid, and its value is
    that of its own member.  Nothing here refers to the tables of ExifWriter.v
    or to the macros of jpeg_exif_type.h; only the order within a directory is
    that of the writer.  The lemmas show that the blocks of the writer are the
    entries of this table ([tree_std]), up to the three flags it does not test
    ([as_written]). *)
From S2P Require Import Prelude ExifStream ExifData ExifWriter ExifRead ExifDir ExifApp1.

(** ** Entries of the standard's types *)
Definition padded {A} (n : nat) (z : A) (l : list A) : list A := take n (l ++ replicate n z).
Definition rational_value (r : EXIF_RATIONAL_T) : Z * Z := (u32 (numerator r), u32 (denominator r)).

Definition e_bytes (tag ty : Z) (l : list Z) : entry := MkEntry tag ty (zlen l) (VBytes l).
Definition e_byte (tag : Z) (n : nat) (l : list Z) : entry := e_bytes tag 1 (padded n 0 (u8 <$> l)).
Definition e_ascii (tag : Z) (n : nat) (l : list Z) : entry := e_bytes tag 2 (padded n 0 (u8 <$> l)).
Definition e_undefined (tag : Z) (n : nat) (l : list Z) : entry := e_bytes tag 7 (padded n 0 (u8 <$> l)).
Definition e_shorts (tag : Z) (n : nat) (l : list Z) : entry :=
  MkEntry tag 3 (Z.of_nat n) (VShorts (u16 <$> padded n 0 l)).
Definition e_short (tag v : Z) : entry := MkEntry tag 3 1 (VShorts [u16 v]).
Definition e_long (tag v : Z) : entry := MkEntry tag 4 1 (VLongs [u32 v]).
Definition e_rationals (tag : Z) (n : nat) (l : list EXIF_RATIONAL_T) : entry :=
  MkEntry tag 5 (Z.of_nat n) (VRationals (rational_value <$> padded n (MkRational 0 0) l)).
Definition e_rational (tag : Z) (r : EXIF_RATIONAL_T) : entry := MkEntry tag 5 1 (VRationals [rational_value r]).
Definition e_srational (tag : Z) (r : EXIF_SRATIONAL_T) : entry :=
  MkEntry tag 10 1 (VRationals [(u32 (s_numerator r), u32 (s_denominator r))]).

(** A string, up to and with its end, in an array of 256 bytes. *)
Fixpoint until_nul (l : list Z) : option (list Z) :=
  match l with
  | [] => None
  | c :: r => if c =? 0 then Some [c] else t ← until_nul r; Some (c :: t)
  end.
Definition e_text (tag : Z) (s : list Z) : entry := e_bytes tag 2 (default [] (until_nul (padded 256 0 (u8 <$> s)))).

(** The first [c_count] values in the array of 256 bytes. *)
Definition custom_bytes (tag ty : Z) (c : EXIF_CUSTOM_T) : entry :=
  MkEntry tag ty (c_count c) (VBytes (take (Z.to_nat (c_count c)) (padded 256 0 (u8 <$> c_ptr c)))).
Definition e_custom (tag : Z) (c : EXIF_CUSTOM_T) : entry := custom_bytes tag 7 c.
Definition e_custom_text (tag : Z) (c : EXIF_CUSTOM_T) : entry := custom_bytes tag 2 c.
Definition e_custom_shorts (tag : Z) (c : EXIF_CUSTOM_T) : entry :=
  let m := padded 256 0 (u8 <$> c_ptr c) in
  MkEntry tag 3 (c_count c) (VShorts ((fun i => get16 m (2 * i)) <$> seq 0 (Z.to_nat (c_count c)))).

Definition present {A} (p : option A) (valid : A -> bool) (e : A -> entry) : list entry :=
  match p with Some a => if valid a then [e a] else [] | None => [] end.

(** ** The directories

    [Reserved] is the member that carries the compression; the two versions
    are constants of the standard. *)
Definition std_ifd0 (q : EXIF_PRIMARY_INFO_T) : list entry :=
  present (data_struct_ptr q) (fun p => v_Reserved (ds_valid p)) (fun p => e_short 0x103 (Reserved p)) ++
  present (img_desc_ptr q) (fun p => v_ImageDescription (desc_valid p))
    (fun p => e_text 0x10e (ImageDescription p)) ++
  present (img_desc_ptr q) (fun p => v_Make (desc_valid p)) (fun p => e_text 0x10f (Make p)) ++
  present (img_desc_ptr q) (fun p => v_Model (desc_valid p)) (fun p => e_text 0x110 (Model p)) ++
  present (data_struct_ptr q) (fun p => v_Orientation (ds_valid p)) (fun p => e_short 0x112 (Orientation p)) ++
  [e_rational 0x11a (XResolution (pri_basic q))] ++
  [e_rational 0x11b (YResolution (pri_basic q))] ++
  [e_short 0x128 (ResolutionUnit (pri_basic q))] ++
  present (data_char_ptr q) (fun p => v_TransferFunction (dc_valid p))
    (fun p => e_shorts 0x12d 768 (TransferFunction p)) ++
  present (img_desc_ptr q) (fun p => v_Software (desc_valid p)) (fun p => e_text 0x131 (Software p)) ++
  present (img_desc_ptr q) (fun p => v_DateTime (desc_valid p)) (fun p => e_ascii 0x132 20 (DateTime p)) ++
  present (img_desc_ptr q) (fun p => v_Artist (desc_valid p)) (fun p => e_text 0x13b (Artist p)) ++
  present (data_char_ptr q) (fun p => v_WhitePoint (dc_valid p)) (fun p => e_rationals 0x13e 2 (WhitePoint p)) ++
  present (data_char_ptr q) (fun p => v_PrimaryChromaticities (dc_valid p))
    (fun p => e_rationals 0x13f 6 (PrimaryChromaticities p)) ++
  present (data_char_ptr q) (fun p => v_YCbCrCoefficients (dc_valid p))
    (fun p => e_rationals 0x211 3 (YCbCrCoefficients p)) ++
  [e_short 0x213 (YCbCrPositioning (pri_basic q))] ++
  [e_long 0x100 (ImageWidth (pri_basic q))] ++
  [e_long 0x101 (ImageLength (pri_basic q))] ++
  present (data_char_ptr q) (fun p => v_ReferenceBlackWhite (dc_valid p))
    (fun p => e_rationals 0x214 6 (ReferenceBlackWhite p)) ++
  present (img_desc_ptr q) (fun p => v_Copyright (desc_valid p)) (fun p => e_text 0x8298 (Copyright p)).

Definition std_exif (s : EXIF_SPECIFIC_INFO_T) : list entry :=
  present (pic_taking_cond_ptr s) (fun p => v_ExposureTime (ptc_valid p))
    (fun p => e_rational 0x829a (ExposureTime p)) ++
  present (pic_taking_cond_ptr s) (fun p => v_FNumber (ptc_valid p)) (fun p => e_rational 0x829d (FNumber p)) ++
  present (pic_taking_cond_ptr s) (fun p => v_ExposureProgram (ptc_valid p))
    (fun p => e_short 0x8822 (ExposureProgram p)) ++
  present (pic_taking_cond_ptr s) (fun p => v_SpectralSensitivity (ptc_valid p))
    (fun p => e_text 0x8824 (SpectralSensitivity p)) ++
  present (pic_taking_cond_ptr s) (fun p => v_ISOSpeedRatings (ptc_valid p) && (0 <? c_count (ISOSpeedRatings p)))
    (fun p => e_custom_shorts 0x8827 (ISOSpeedRatings p)) ++
  present (pic_taking_cond_ptr s) (fun p => v_OECF (ptc_valid p) && (0 <? c_count (OECF p)))
    (fun p => e_custom 0x8828 (OECF p)) ++
  [e_undefined 0x9000 4 [0x30; 0x32; 0x32; 0x30]] ++
  present (date_time_ptr s) (fun p => v_DateTimeOriginal (dt_valid p))
    (fun p => e_ascii 0x9003 20 (DateTimeOriginal p)) ++
  present (date_time_ptr s) (fun p => v_DateTimeDigitized (dt_valid p))
    (fun p => e_ascii 0x9004 20 (DateTimeDigitized p)) ++
  [e_undefined 0x9101 4 (ComponentsConfiguration (spec_basic s))] ++
  present (img_config_ptr s) (fun p => v_CompressedBitsPerPixel (cfg_valid p))
    (fun p => e_rational 0x9102 (CompressedBitsPerPixel p)) ++
  present (pic_taking_cond_ptr s) (fun p => v_ShutterSpeedValue (ptc_valid p))
    (fun p => e_srational 0x9201 (ShutterSpeedValue p)) ++
  present (pic_taking_cond_ptr s) (fun p => v_ApertureValue (ptc_valid p))
    (fun p => e_rational 0x9202 (ApertureValue p)) ++
  present (pic_taking_cond_ptr s) (fun p => v_BrightnessValue (ptc_valid p))
    (fun p => e_srational 0x9203 (BrightnessValue p)) ++
  present (pic_taking_cond_ptr s) (fun p => v_ExposureBiasValue (ptc_valid p))
    (fun p => e_srational 0x9204 (ExposureBiasValue p)) ++
  present (pic_taking_cond_ptr s) (fun p => v_MaxApertureValue (ptc_valid p))
    (fun p => e_rational 0x9205 (MaxApertureValue p)) ++
  present (pic_taking_cond_ptr s) (fun p => v_SubjectDistance (ptc_valid p))
    (fun p => e_rational 0x9206 (SubjectDistance p)) ++
  present (pic_taking_cond_ptr s) (fun p => v_MeteringMode (ptc_valid p))
    (fun p => e_short 0x9207 (MeteringMode p)) ++
  present (pic_taking_cond_ptr s) (fun p => v_LightSource (ptc_valid p)) (fun p => e_short 0x9208 (LightSource p)) ++
  present (pic_taking_cond_ptr s) (fun p => v_Flash (ptc_valid p)) (fun p => e_short 0x9209 (Flash p)) ++
  present (pic_taking_cond_ptr s) (fun p => v_FocalLength (ptc_valid p))
    (fun p => e_rational 0x920a (FocalLength p)) ++
  present (pic_taking_cond_ptr s) (fun p => v_SubjectArea (ptc_valid p) && (0 <? c_count (SubjectArea p)))
    (fun p => e_custom_shorts 0x9214 (SubjectArea p)) ++
  present (user_ptr s) (fun p => v_MakerNote (user_valid p) && (0 <? c_count (MakerNote p)))
    (fun p => e_custom 0x927c (MakerNote p)) ++
  present (user_ptr s) (fun p => v_UserComment (user_valid p) && (0 <? c_count (UserComment p)))
    (fun p => e_custom 0x9286 (UserComment p)) ++
  present (date_time_ptr s) (fun p => v_SubSecTime (dt_valid p)) (fun p => e_text 0x9290 (SubSecTime p)) ++
  present (date_time_ptr s) (fun p => v_SubSecTimeOriginal (dt_valid p))
    (fun p => e_text 0x9291 (SubSecTimeOriginal p)) ++
  present (date_time_ptr s) (fun p => v_SubSecTimeDigitized (dt_valid p))
    (fun p => e_text 0x9292 (SubSecTimeDigitized p)) ++
  [e_undefined 0xa000 4 [0x30; 0x31; 0x30; 0x30]] ++
  [e_short 0xa001 (ColorSpace (spec_basic s))] ++
  [e_long 0xa002 (PixelXDimension (spec_basic s))] ++
  [e_long 0xa003 (PixelYDimension (spec_basic s))] ++
  present (related_file_ptr s) (fun p => v_RelatedSoundFile (rel_valid p))
    (fun p => e_ascii 0xa004 13 (RelatedSoundFile p)) ++
  present (pic_taking_cond_ptr s) (fun p => v_FlashEnergy (ptc_valid p))
    (fun p => e_rational 0xa20b (FlashEnergy p)) ++
  present (pic_taking_cond_ptr s) (fun p => v_SpatialFrequencyResponse (ptc_valid p) && (0 <? c_count (SpatialFrequencyResponse p)))
    (fun p => e_custom 0xa20c (SpatialFrequencyResponse p)) ++
  present (pic_taking_cond_ptr s) (fun p => v_FocalPlaneXResolution (ptc_valid p))
    (fun p => e_rational 0xa20e (FocalPlaneXResolution p)) ++
  present (pic_taking_cond_ptr s) (fun p => v_FocalPlaneYResolution (ptc_valid p))
    (fun p => e_rational 0xa20f (FocalPlaneYResolution p)) ++
  present (pic_taking_cond_ptr s) (fun p => v_FocalPlaneResolutionUnit (ptc_valid p))
    (fun p => e_short 0xa210 (FocalPlaneResolutionUnit p)) ++
  present (pic_taking_cond_ptr s) (fun p => v_SubjectLocation (ptc_valid p))
    (fun p => e_shorts 0xa214 2 (SubjectLocation p)) ++
  present (pic_taking_cond_ptr s) (fun p => v_ExposureIndex (ptc_valid p))
    (fun p => e_rational 0xa215 (ExposureIndex p)) ++
  present (pic_taking_cond_ptr s) (fun p => v_SensingMethod (ptc_valid p))
    (fun p => e_short 0xa217 (SensingMethod p)) ++
  present (pic_taking_cond_ptr s) (fun p => v_FileSource (ptc_valid p))
    (fun p => e_undefined 0xa300 1 [FileSource p]) ++
  present (pic_taking_cond_ptr s) (fun p => v_SceneType (ptc_valid p))
    (fun p => e_undefined 0xa301 1 [SceneType p]) ++
  present (pic_taking_cond_ptr s) (fun p => v_CFAPattern (ptc_valid p) && (0 <? c_count (CFAPattern p)))
    (fun p => e_custom 0xa302 (CFAPattern p)) ++
  present (pic_taking_cond_ptr s) (fun p => v_CustomRendered (ptc_valid p))
    (fun p => e_short 0xa401 (CustomRendered p)) ++
  present (pic_taking_cond_ptr s) (fun p => v_ExposureMode (ptc_valid p))
    (fun p => e_short 0xa402 (ExposureMode p)) ++
  present (pic_taking_cond_ptr s) (fun p => v_WhiteBalance (ptc_valid p))
    (fun p => e_short 0xa403 (WhiteBalance p)) ++
  present (pic_taking_cond_ptr s) (fun p => v_DigitalZoomRatio (ptc_valid p))
    (fun p => e_rational 0xa404 (DigitalZoomRatio p)) ++
  present (pic_taking_cond_ptr s) (fun p => v_FocalLengthIn35mmFilm (ptc_valid p))
    (fun p => e_short 0xa405 (FocalLengthIn35mmFilm p)) ++
  present (pic_taking_cond_ptr s) (fun p => v_SceneCaptureType (ptc_valid p))
    (fun p => e_short 0xa406 (SceneCaptureType p)) ++
  present (pic_taking_cond_ptr s) (fun p => v_GainControl (ptc_valid p)) (fun p => e_short 0xa407 (GainControl p)) ++
  present (pic_taking_cond_ptr s) (fun p => v_Contrast (ptc_valid p)) (fun p => e_short 0xa408 (Contrast p)) ++
  present (pic_taking_cond_ptr s) (fun p => v_Saturation (ptc_valid p)) (fun p => e_short 0xa409 (Saturation p)) ++
  present (pic_taking_cond_ptr s) (fun p => v_Sharpness (ptc_valid p)) (fun p => e_short 0xa40a (Sharpness p)) ++
  present (pic_taking_cond_ptr s) (fun p => v_DeviceSettingDescription (ptc_valid p) && (0 <? c_count (DeviceSettingDescription p)))
    (fun p => e_custom 0xa40b (DeviceSettingDescription p)) ++
  present (pic_taking_cond_ptr s) (fun p => v_SubjectDistanceRange (ptc_valid p))
    (fun p => e_short 0xa40c (SubjectDistanceRange p)) ++
  present (other_ptr s) (fun p => v_ImageUniqueID (oth_valid p)) (fun p => e_ascii 0xa420 33 (ImageUniqueID p)).

Definition std_gps (g : EXIF_GPS_INFO_T) : list entry :=
  present (Some g) (fun p => v_GPSVersionID (gps_valid p)) (fun p => e_byte 0x00 4 (GPSVersionID p)) ++
  present (Some g) (fun p => v_GPSLatitudeRef (gps_valid p)) (fun p => e_ascii 0x01 2 (GPSLatitudeRef p)) ++
  present (Some g) (fun p => v_GPSLatitude (gps_valid p)) (fun p => e_rationals 0x02 3 (GPSLatitude p)) ++
  present (Some g) (fun p => v_GPSLongitudeRef (gps_valid p)) (fun p => e_ascii 0x03 2 (GPSLongitudeRef p)) ++
  present (Some g) (fun p => v_GPSLongitude (gps_valid p)) (fun p => e_rationals 0x04 3 (GPSLongitude p)) ++
  present (Some g) (fun p => v_GPSAltitudeRef (gps_valid p)) (fun p => e_byte 0x05 1 [GPSAltitudeRef p]) ++
  present (Some g) (fun p => v_GPSAltitude (gps_valid p)) (fun p => e_rational 0x06 (GPSAltitude p)) ++
  present (Some g) (fun p => v_GPSTimeStamp (gps_valid p)) (fun p => e_rationals 0x07 3 (GPSTimeStamp p)) ++
  present (Some g) (fun p => v_GPSSatellites (gps_valid p)) (fun p => e_text 0x08 (GPSSatellites p)) ++
  present (Some g) (fun p => v_GPSStatus (gps_valid p)) (fun p => e_ascii 0x09 2 (GPSStatus p)) ++
  present (Some g) (fun p => v_GPSMeasureMode (gps_valid p)) (fun p => e_ascii 0x0a 2 (GPSMeasureMode p)) ++
  present (Some g) (fun p => v_GPSDOP (gps_valid p)) (fun p => e_rational 0x0b (GPSDOP p)) ++
  present (Some g) (fun p => v_GPSSpeedRef (gps_valid p)) (fun p => e_ascii 0x0c 2 (GPSSpeedRef p)) ++
  present (Some g) (fun p => v_GPSSpeed (gps_valid p)) (fun p => e_rational 0x0d (GPSSpeed p)) ++
  present (Some g) (fun p => v_GPSTrackRef (gps_valid p)) (fun p => e_ascii 0x0e 2 (GPSTrackRef p)) ++
  present (Some g) (fun p => v_GPSTrack (gps_valid p)) (fun p => e_rational 0x0f (GPSTrack p)) ++
  present (Some g) (fun p => v_GPSImgDirectionRef (gps_valid p)) (fun p => e_ascii 0x10 2 (GPSImgDirectionRef p)) ++
  present (Some g) (fun p => v_GPSImgDirection (gps_valid p)) (fun p => e_rational 0x11 (GPSImgDirection p)) ++
  present (Some g) (fun p => v_GPSMapDatum (gps_valid p)) (fun p => e_text 0x12 (GPSMapDatum p)) ++
  present (Some g) (fun p => v_GPSDestLatitudeRef (gps_valid p)) (fun p => e_ascii 0x13 2 (GPSDestLatitudeRef p)) ++
  present (Some g) (fun p => v_GPSDestLatitude (gps_valid p)) (fun p => e_rationals 0x14 3 (GPSDestLatitude p)) ++
  present (Some g) (fun p => v_GPSDestLongitudeRef (gps_valid p))
    (fun p => e_ascii 0x15 2 (GPSDestLongitudeRef p)) ++
  present (Some g) (fun p => v_GPSDestLongitude (gps_valid p)) (fun p => e_rationals 0x16 3 (GPSDestLongitude p)) ++
  present (Some g) (fun p => v_GPSDestBearingRef (gps_valid p)) (fun p => e_ascii 0x17 2 (GPSDestBearingRef p)) ++
  present (Some g) (fun p => v_GPSDestBearing (gps_valid p)) (fun p => e_rational 0x18 (GPSDestBearing p)) ++
  present (Some g) (fun p => v_GPSDestDistanceRef (gps_valid p)) (fun p => e_ascii 0x19 2 (GPSDestDistanceRef p)) ++
  present (Some g) (fun p => v_GPSDestDistance (gps_valid p)) (fun p => e_rational 0x1a (GPSDestDistance p)) ++
  present (Some g) (fun p => v_GPSProcessingMethod (gps_valid p) && (0 <? c_count (GPSProcessingMethod p)))
    (fun p => e_custom 0x1b (GPSProcessingMethod p)) ++
  present (Some g) (fun p => v_GPSAreaInformation (gps_valid p) && (0 <? c_count (GPSAreaInformation p)))
    (fun p => e_custom 0x1c (GPSAreaInformation p)) ++
  present (Some g) (fun p => v_GPSDateStamp (gps_valid p)) (fun p => e_ascii 0x1d 11 (GPSDateStamp p)) ++
  present (Some g) (fun p => v_GPSDifferential (gps_valid p)) (fun p => e_short 0x1e (GPSDifferential p)).

Definition std_inter (i : EXIF_INTEROPERABILITY_INFO_T) : list entry :=
  present (Some i) (fun p => v_InteroperabilityIndex (inter_valid p) && (0 <? c_count (InteroperabilityIndex p)))
    (fun p => e_custom_text 0x01 (InteroperabilityIndex p)).

(** The directory of the thumbnail, a JPEG picture of [size] bytes. *)
Definition std_ifd1 (size : Z) : list entry :=
  [e_short 0x103 6; e_short 0x112 1; e_rational 0x11a (MkRational 72 1); e_rational 0x11b (MkRational 72 1);
   e_short 0x128 2; e_long 0x202 size; e_short 0x213 1; e_long 0x100 0; e_long 0x101 0].

Definition std_tree (e : JINF_EXIF_INFO_T) (thumb : option (list Z)) : exif_tree :=
  MkTree (std_ifd0 (primary e)) (std_exif <$> spec_ptr e) (spec_ptr e ≫= fun _ => std_inter <$> inter_ptr e)
    (std_gps <$> gps_ptr e) ((fun t => (std_ifd1 (zlen t), t)) <$> thumb).

(** ** The description as the writer reads it

    The block of GPSDestLongitude tests the flag of GPSDestLatitude, and those
    of MakerNote and UserComment test the count only. *)
Definition gps_as_written (g : EXIF_GPS_INFO_T) : EXIF_GPS_INFO_T :=
  let v := gps_valid g in
  let v' := MkGpsValid
    (v_GPSVersionID v) (v_GPSLatitudeRef v) (v_GPSLatitude v) (v_GPSLongitudeRef v) (v_GPSLongitude v)
    (v_GPSAltitudeRef v) (v_GPSAltitude v) (v_GPSTimeStamp v) (v_GPSSatellites v) (v_GPSStatus v)
    (v_GPSMeasureMode v) (v_GPSDOP v) (v_GPSSpeedRef v) (v_GPSSpeed v) (v_GPSTrackRef v) (v_GPSTrack v)
    (v_GPSImgDirectionRef v) (v_GPSImgDirection v) (v_GPSMapDatum v) (v_GPSDestLatitudeRef v)
    (v_GPSDestLatitude v) (v_GPSDestLongitudeRef v) (v_GPSDestLatitude v) (v_GPSDestBearingRef v)
    (v_GPSDestBearing v) (v_GPSDestDistanceRef v) (v_GPSDestDistance v) (v_GPSProcessingMethod v)
    (v_GPSAreaInformation v) (v_GPSDateStamp v) (v_GPSDifferential v) in
  MkGpsInfo
    v' (GPSVersionID g) (GPSLatitudeRef g) (GPSLatitude g) (GPSLongitudeRef g) (GPSLongitude g)
    (GPSAltitudeRef g) (GPSAltitude g) (GPSTimeStamp g) (GPSSatellites g) (GPSStatus g) (GPSMeasureMode g)
    (GPSDOP g) (GPSSpeedRef g) (GPSSpeed g) (GPSTrackRef g) (GPSTrack g) (GPSImgDirectionRef g)
    (GPSImgDirection g) (GPSMapDatum g) (GPSDestLatitudeRef g) (GPSDestLatitude g) (GPSDestLongitudeRef g)
    (GPSDestLongitude g) (GPSDestBearingRef g) (GPSDestBearing g) (GPSDestDistanceRef g) (GPSDestDistance g)
    (GPSProcessingMethod g) (GPSAreaInformation g) (GPSDateStamp g) (GPSDifferential g).
Definition user_as_written (p : EXIF_SPEC_USER_T) : EXIF_SPEC_USER_T :=
  MkSpecUser (MkSpecUserValid (0 <? c_count (MakerNote p)) (0 <? c_count (UserComment p))) (MakerNote p) (UserComment p).
Definition spec_as_written (s : EXIF_SPECIFIC_INFO_T) : EXIF_SPECIFIC_INFO_T :=
  MkSpecificInfo (spec_basic s) (version_ptr s) (img_config_ptr s) (user_as_written <$> user_ptr s)
    (related_file_ptr s) (date_time_ptr s) (pic_taking_cond_ptr s) (other_ptr s).
Definition as_written (e : JINF_EXIF_INFO_T) : JINF_EXIF_INFO_T :=
  MkInfo (primary e) (spec_as_written <$> spec_ptr e) (gps_as_written <$> gps_ptr e) (inter_ptr e).

(** ** The blocks of the writer are the fields of the standard *)
Lemma le_dec_mod n z : le_dec (le_enc n z) = z mod 2 ^ (8 * Z.of_nat n).
Proof.
  revert z. induction n as [|n IH]; intros z; [symmetry; apply Z.mod_1_r|]. cbn [le_dec le_enc]. rewrite IH.
  replace (8 * Z.of_nat (S n)) with (8 + 8 * Z.of_nat n) by lia. rewrite Z.pow_add_r by lia.
  by rewrite Z.rem_mul_r by lia.
Qed.
Lemma get16_mod v l : get16 (le16 v ++ l) 0 = u16 v.
Proof. exact (le_dec_mod 2 v). Qed.
Lemma get32_mod v l : get32 (le32 v ++ l) 0 = u32 v.
Proof. exact (le_dec_mod 4 v). Qed.

(** The values of an array of elements of [k] bytes. *)
Lemma array_values {A B} (k : nat) (enc : A -> list Z) (get : list Z -> nat -> B) (val : A -> B) l :
  (forall a, length (enc a) = k) -> (forall a r, get (enc a ++ r) 0%nat = val a) ->
  (forall m r i, length m = k -> get (m ++ r) (k + i)%nat = get r i) ->
  (fun i => get (mjoin (enc <$> l)) (k * i)%nat) <$> seq 0 (length l) = val <$> l.
Proof.
  intros L H K. induction l as [|a l IH]; [done|]. cbn [length seq fmap list_fmap]. rewrite join_cons. f_equal.
  - rewrite Nat.mul_0_r. apply H.
  - rewrite <- IH, <- fmap_S_seq, <- list_fmap_compose. apply list_fmap_ext. intros i x _. unfold compose.
    replace (k * S x)%nat with (k + k * x)%nat by lia. by apply K.
Qed.

Lemma get16_next m r i : length m = 2%nat -> get16 (m ++ r) (2 + i) = get16 r i.
Proof. intros L. unfold get16. rewrite drop_app_ge by lia. do 3 f_equal. lia. Qed.

Lemma padded_length {A} n (z : A) l : length (padded n z l) = n.
Proof. unfold padded. rewrite length_take, length_app, length_replicate. lia. Qed.

Lemma view_bytes tag ty n z l :
  is_byte_type ty = true -> z = Z.of_nat n ->
  view (item tag ty z WByte (mem_bytes n l)) = e_bytes tag ty (padded n 0 (u8 <$> l)).
Proof.
  intros T ->. unfold view, e_bytes, host_value. cbn [it_tag it_type it_mem item n_of it_count default from_option id].
  rewrite T, padded_length, Nat2Z.id. do 2 f_equal.
  change (take n (mem_bytes n l) = mem_bytes n l). apply firstn_all2. by rewrite mem_bytes_length.
Qed.

Lemma view_shorts tag n z l :
  z = Z.of_nat n -> view (item tag IFD_SHORT z WShort (mem_shorts n l)) = e_shorts tag n l.
Proof.
  intros ->. unfold view, e_shorts, host_value. cbn [it_tag it_type it_mem item n_of it_count default from_option id].
  cbn [is_byte_type Z.eqb IFD_SHORT Pos.eqb orb IFD_BYTE IFD_ASCII IFD_UNDEFINED]. rewrite Nat2Z.id. do 2 f_equal.
  enough (E : (fun i => get16 (mem_shorts n l) (2 * i)) <$> seq 0 (length (padded n 0 l)) = u16 <$> padded n 0 l)
    by by rewrite padded_length in E.
  apply (array_values 2 mem_short get16 u16).
  - intros. apply le_enc_length.
  - apply get16_mod.
  - apply get16_next.
Qed.

Lemma view_rationals tag n z l :
  z = Z.of_nat n -> view (item tag IFD_RATIONAL z WRational (mem_rationals n l)) = e_rationals tag n l.
Proof.
  intros ->. unfold view, e_rationals, host_value. cbn [it_tag it_type it_mem item n_of it_count default from_option id].
  cbn [is_byte_type Z.eqb IFD_RATIONAL Pos.eqb orb IFD_BYTE IFD_ASCII IFD_UNDEFINED IFD_SHORT IFD_LONG IFD_SLONG].
  rewrite Nat2Z.id. do 2 f_equal. set (o := MkRational 0 0).
  enough (E : (fun i => (get32 (mem_rationals n l) (8 * i), get32 (mem_rationals n l) (8 * i + 4))) <$>
    seq 0 (length (padded n o l)) = rational_value <$> padded n o l) by by rewrite padded_length in E.
  apply (array_values 8 mem_rational (fun m i => (get32 m i, get32 m (i + 4))) rational_value).
  - intros r. unfold mem_rational. by rewrite length_app, !le_enc_length.
  - intros r m. unfold mem_rational, rational_value. rewrite <- app_assoc. f_equal; [apply get32_mod|].
    change (0 + 4)%nat with (length (le32 (numerator r)) + 0)%nat. rewrite get32_skip. apply get32_mod.
  - intros m r i <-. rewrite <- Nat.add_assoc. by rewrite !get32_skip.
Qed.

Lemma view_short tag w v : view (w tag IFD_SHORT 1 WShort (mem_short v)) = view (item tag IFD_SHORT 1 WShort (mem_short v)) ->
  view (w tag IFD_SHORT 1 WShort (mem_short v)) = e_short tag v.
Proof.
  intros ->. unfold view, e_short. cbn [it_tag it_type item n_of it_count default from_option id]. f_equal.
  exact (f_equal (fun x => VShorts [x]) (le_dec_mod 2 v)).
Qed.
Lemma view_long tag w v : view (item tag IFD_LONG 1 w (mem_long v)) = e_long tag v.
Proof.
  unfold view, e_long. cbn [it_tag it_type item n_of it_count default from_option id]. f_equal.
  exact (f_equal (fun x => VLongs [x]) (le_dec_mod 4 v)).
Qed.
Lemma pair_value ty tag a b :
  ty = IFD_RATIONAL \/ ty = IFD_SRATIONAL ->
  view (item tag ty 1 WRational (le32 a ++ le32 b)) = MkEntry tag ty 1 (VRationals [(u32 a, u32 b)]).
Proof.
  intros T. unfold view. cbn [it_tag it_type item n_of it_count default from_option id]. f_equal.
  assert (E : host_value ty (Z.to_nat 1) (le32 a ++ le32 b) = VRationals [(get32 (le32 a ++ le32 b) 0, get32 (le32 b ++ []) 0)])
    by by destruct T; subst.
  etransitivity; [exact E|]. by rewrite !get32_mod.
Qed.
Lemma view_rational tag r : view (item tag IFD_RATIONAL 1 WRational (mem_rational r)) = e_rational tag r.
Proof. apply pair_value. by left. Qed.
Lemma view_srational tag r : view (item tag IFD_SRATIONAL 1 WRational (mem_srational r)) = e_srational tag r.
Proof. apply pair_value. by right. Qed.

Lemma until_nul_size m : _GetAsciiStringSize m = (fun t => zlen t - 1) <$> until_nul m.
Proof.
  induction m as [|c m IH]; [done|]. cbn [_GetAsciiStringSize until_nul]. destruct (c =? 0); [done|]. rewrite IH.
  destruct (until_nul m) as [t|]; [|done]. cbn [fmap option_fmap option_map mbind option_bind length]. f_equal. lia.
Qed.
Lemma until_nul_take m t : until_nul m = Some t -> take (length t) m = t.
Proof.
  revert t. induction m as [|c m IH]; intros t; [done|]. cbn [until_nul]. destruct (c =? 0); [by intros [= <-]|].
  destruct (until_nul m) as [t'|]; [|done]. intros [= <-]. cbn. by rewrite IH.
Qed.
Lemma view_text tag s : view (text_item tag s) = e_text tag s.
Proof.
  unfold view, e_text, e_bytes, text_item. cbn [it_tag it_type it_mem n_of it_count]. unfold n_of, string_count. cbn [it_count].
  change (padded 256 0 (u8 <$> s)) with (mem_bytes 256 s). generalize (mem_bytes 256 s). intros m.
  rewrite until_nul_size. destruct (until_nul m) as [t|] eqn:E; [|done].
  cbn [fmap option_fmap option_map mbind option_bind default from_option id]. rewrite Z.sub_add.
  unfold host_value. change (is_byte_type IFD_ASCII) with true. cbn iota. by rewrite Nat2Z.id, (until_nul_take m t E).
Qed.

Lemma view_custom tag ty c : is_byte_type ty = true -> view (custom_item tag ty WByte c) = custom_bytes tag ty c.
Proof. intros T. unfold view, custom_bytes, custom_item, host_value. cbn [it_tag it_type it_mem item n_of it_count]. by rewrite T. Qed.
Lemma view_custom_shorts tag w c : view (custom_item tag IFD_SHORT w c) = e_custom_shorts tag c.
Proof. done. Qed.

Lemma view_field {A} (p : option A) valid it e :
  (forall a, view (it a) = e a) -> view <$> field p valid it = present p valid e.
Proof. intros H. destruct p as [a|]; [|done]. cbn. destruct (valid a); [|done]. cbn. by rewrite H. Qed.
Lemma view_field_map {A} (f : A -> A) p valid valid' it e :
  (forall a, valid a = valid' (f a)) -> (forall a, view (it a) = e (f a)) ->
  view <$> field p valid it = present (f <$> p) valid' e.
Proof. intros V H. destruct p as [a|]; [|done]. cbn. rewrite V. destruct (valid' (f a)); [|done]. cbn. by rewrite H. Qed.

(** One block, and a table of blocks. *)
Ltac view_block :=
  lazymatch goal with
  | |- view (text_item _ _) = _ => apply view_text
  | |- view (custom_item _ IFD_SHORT _ _) = _ => apply view_custom_shorts
  | |- view (custom_item _ _ _ _) = _ => apply view_custom; reflexivity
  | |- view (item _ _ _ WByte (mem_bytes _ _)) = _ => apply view_bytes; reflexivity
  | |- view (item _ _ _ _ (mem_shorts _ _)) = _ => apply view_shorts; reflexivity
  | |- view (item _ _ _ _ (mem_rationals _ _)) = _ => apply view_rationals; reflexivity
  | |- view (item _ _ _ _ (mem_rational _)) = _ => apply view_rational
  | |- view (item _ _ _ _ (mem_srational _)) = _ => apply view_srational
  | |- view (item _ _ _ _ (mem_long _)) = _ => apply view_long
  | |- view (item _ _ _ _ (mem_short _)) = _ => apply (view_short _ item); reflexivity
  | |- view (direct _ _ _ _ (mem_short _)) = _ => apply (view_short _ direct); reflexivity
  | |- _ => reflexivity
  end.
Ltac view_table :=
  rewrite <- ?app_assoc, ?fmap_app;
  repeat lazymatch goal with |- _ ++ _ = _ ++ _ => f_equal end;
  lazymatch goal with
  | |- view <$> [_] = [_] => apply (f_equal (fun x => [x])); view_block
  | |- view <$> field ?p _ _ = present ?p _ _ => apply view_field; intros ?; view_block
  | |- view <$> field (user_ptr _) _ _ = _ => apply (view_field_map user_as_written); intros ?; [symmetry; apply andb_diag|view_block]
  | |- view <$> field (Some ?g) _ _ = _ =>
    apply (view_field_map gps_as_written (Some g)); intros ?; [reflexivity|cbn beta; view_block]
  end.

Lemma ifd0_std q : view <$> (pri_a q ++ pri_items_3 q) = std_ifd0 q.
Proof. unfold pri_a, pri_items_1, pri_items_2, pri_items_3, std_ifd0. view_table. Qed.
Lemma exif_std s : view <$> (spec_a s ++ spec_b s) = std_exif (spec_as_written s).
Proof.
  unfold spec_a, spec_b, spec_items_1, spec_items_2, spec_items_3, spec_items_4, spec_items_5, spec_items_6, spec_items_7, std_exif.
  cbn [spec_as_written spec_basic img_config_ptr user_ptr related_file_ptr date_time_ptr pic_taking_cond_ptr other_ptr].
  view_table.
Qed.
Lemma gps_std g : view <$> gps_items g = std_gps (gps_as_written g).
Proof. unfold gps_items, gps_items_1, gps_items_2, gps_items_3, gps_items_4, std_gps. view_table. Qed.
Lemma inter_std i : view <$> inter_items i = std_inter i.
Proof. unfold inter_items, std_inter. view_table. Qed.
Lemma ifd1_std (t : list Z) :
  view <$> (pri_a ifd1_primary ++ [item IFD_JPEGINTERCHANGEFORMATLENGTH IFD_LONG 1 WLong (mem_long (zlen t))] ++
    pri_items_3 ifd1_primary) = std_ifd1 (zlen t).
Proof.
  rewrite !fmap_app. change (view <$> [item IFD_JPEGINTERCHANGEFORMATLENGTH IFD_LONG 1 WLong (mem_long (zlen t))])
    with [view (item IFD_JPEGINTERCHANGEFORMATLENGTH IFD_LONG 1 WLong (mem_long (zlen t)))].
  by rewrite view_long.
Qed.

(** What the blocks of the writer stand for is what the standard says. *)
Lemma tree_std e thumb : tree_of e thumb = std_tree (as_written e) thumb.
Proof.
  unfold tree_of, std_tree, as_written. cbn [primary spec_ptr gps_ptr inter_ptr]. f_equal.
  - apply ifd0_std.
  - destruct (spec_ptr e) as [s|]; [|done]. exact (f_equal Some (exif_std s)).
  - destruct (spec_ptr e) as [s|]; [|done]. destruct (inter_ptr e) as [i|]; [|done].
    exact (f_equal Some (inter_std i)).
  - destruct (gps_ptr e) as [g|]; [|done]. exact (f_equal Some (gps_std g)).
  - destruct thumb as [t|]; [|done]. cbn [fmap option_fmap option_map]. by rewrite ifd1_std.
Qed.

(** Where the three flags are as the writer takes them, nothing changes. *)
Lemma as_written_same e :
  (forall g, gps_ptr e = Some g -> v_GPSDestLongitude (gps_valid g) = v_GPSDestLatitude (gps_valid g)) ->
  (forall s u, spec_ptr e = Some s -> user_ptr s = Some u ->
     user_valid u = MkSpecUserValid (0 <? c_count (MakerNote u)) (0 <? c_count (UserComment u))) ->
  as_written e = e.
Proof.
  destruct e as [q so go io]. unfold as_written. cbn [primary spec_ptr gps_ptr inter_ptr]. intros G U. f_equal.
  - destruct so as [s|]; [|done]. cbn. f_equal. destruct s as [b v c [u|] r d p o]; [|done]. unfold spec_as_written. cbn.
    do 2 f_equal. specialize (U _ _ eq_refl eq_refl). destruct u. unfold user_as_written. cbn in *. by rewrite U.
  - destruct go as [g|]; [|done]. cbn. f_equal. specialize (G _ eq_refl). destruct g as [v]. destruct v.
    unfold gps_as_written. cbn in *. by rewrite G.
Qed.
