(* ===== verification/ExifRound.v ===== *)
(** The round trip of the EXIF segment: what [Jpeg_WriteAPP1] writes, the
    reference reader of ExifApp1.v reads back, and the room it takes. *)
From S2P Require Import Prelude ExifStream ExifData ExifWriter ExifRead ExifDir ExifApp1 ExifStd.

(** ** Directories under changes elsewhere *)
Definition placed_in (lo hi : Z) (q : block * Z) : Prop :=
  block_ok (fst q) = true /\ lo <= snd q /\ snd q + zlen (ext_bytes (fst q)) <= hi.

Lemma placed_in_weaken lo hi lo' hi' l :
  lo' <= lo -> hi <= hi' -> Forall (placed_in lo hi) l -> Forall (placed_in lo' hi') l.
Proof. intros ??. apply Forall_impl. intros q (? & ? & ?). split; [done|]. lia. Qed.

Lemma places_in V its : blocks_ok its = true -> Forall (placed_in V (end_v its V)) (places V its).
Proof.
  revert V. induction its as [|it its IH]; intros V; [constructor|]. cbn [blocks_ok forallb places end_v].
  intros [O1 O2]%andb_true_iff. pose proof (next_v_ge it V). pose proof (end_v_ge its (next_v it V)).
  constructor; [split; [done|cbn; lia]|]. eapply placed_in_weaken; [| |by apply IH]; lia.
Qed.

Lemma ptr_in ifh lo hi tag V : 0 <= tag < 2 ^ 16 -> lo <= V <= hi -> placed_in lo hi (ptr_block tag (V - ifh), V).
Proof. intros Ht HV. split; [by apply ptr_block_ok|]. cbn. lia. Qed.

Lemma opt_ptr_in {A} ifh lo hi tag (o : option A) V :
  0 <= tag < 2 ^ 16 -> lo <= V <= hi -> Forall (placed_in lo hi) (opt_ptr ifh tag o V).
Proof. intros Ht HV. destruct o; constructor; [by apply ptr_in|constructor]. Qed.

Lemma dir_agree ifh b b' off l next hi :
  Forall (placed_in (off + 2 + 12 * zlen l + 4) hi) l -> off + 2 + 12 * zlen l + 4 <= hi <= zlen b' ->
  agree (fun i => off <= i < hi) b b' -> dir_at ifh b off l next -> dir_at ifh b' off l next.
Proof.
  intros F Hh A (H1 & H2 & H3). split; [|split].
  - eapply load_agree; [exact H1|cbn; lia|]. intros i Hi. cbn in Hi. apply A. lia.
  - assert (G : forall l' D, Forall (placed_in (off + 2 + 12 * zlen l + 4) hi) l' ->
      off + 2 <= D -> D + 12 * zlen l' <= hi -> laid ifh b D l' -> laid ifh b' D l');
      [|apply (G l); [done|lia|lia|done]].
    intros l' D F'. revert D. induction F' as [|[it v] l' (O & V1 & V2) F' IH]; intros D D1 D2; [done|].
    cbn [laid length fst snd] in *. intros (L1 & L2 & L3). split; [|split].
    + eapply load_agree; [exact L1| |]; rewrite entry_bytes_length by done; [lia|]. intros i Hi. apply A. lia.
    + eapply load_agree; [exact L2|lia|]. intros i Hi. apply A. lia.
    + apply IH; [lia|lia|done].
  - eapply load_agree; [exact H3|cbn; lia|]. intros i Hi. cbn in Hi. apply A. lia.
Qed.

Lemma placed_in_ok ifh lo hi l : ifh <= lo -> hi < 2 ^ 31 -> Forall (placed_in lo hi) l -> Forall (placed_ok ifh) l.
Proof. intros ??. apply Forall_impl. intros q (? & ? & ?). split; [done|]. lia. Qed.

(** ** Entries that are no pointers *)
Lemma view_ptr tag off : is_u32 off -> view (ptr_block tag off) = MkEntry tag IFD_LONG 1 (VLongs [off]).
Proof.
  intros H. unfold view, ptr_block, item, n_of, mem_long. cbn [it_tag it_type it_count it_mem default from_option id].
  unfold host_value. cbn [is_byte_type Z.eqb IFD_LONG Pos.eqb orb]. do 2 f_equal.
  change ((fun i => get32 (le32 off) (4 * i)) <$> seq 0 (Z.to_nat 1)) with [get32 (le32 off) 0]. by rewrite get32_le.
Qed.

Lemma ptr_tags t : bool_decide (t ∈ pointer_tags) = true -> t ∈ pointer_tags.
Proof. apply bool_decide_eq_true_1. Qed.

Lemma find_leaves t its r :
  leaves_ok its = true -> t ∈ pointer_tags -> find_long t ((view <$> its) ++ r) = find_long t r.
Proof.
  intros L T. induction its as [|it its IH]; [done|]. cbn [leaves_ok forallb] in L. apply andb_true_iff in L as [L1 L2].
  cbn [fmap list_fmap app find_long]. change (e_tag (view it)) with (it_tag it).
  destruct (Z.eqb_spec (it_tag it) t) as [E|]; [|by apply IH].
  unfold leaf_ok in L1. apply andb_true_iff in L1 as [_ N]. rewrite E in N. by rewrite (bool_decide_eq_true_2 _ T) in N.
Qed.

Lemma plain_leaves its : leaves_ok its = true -> plain (view <$> its) = view <$> its.
Proof.
  intros L. unfold plain. induction its as [|it its IH]; [done|]. cbn [leaves_ok forallb] in L.
  apply andb_true_iff in L as [L1 L2]. cbn [fmap list_fmap]. rewrite filter_cons_True; [by rewrite IH|].
  unfold is_pointer. change (e_tag (view it)) with (it_tag it).
  unfold leaf_ok in L1. apply andb_true_iff in L1 as [_ N]. by apply negb_true_iff in N.
Qed.
Lemma plain_app es1 es2 : plain (es1 ++ es2) = plain es1 ++ plain es2.
Proof. apply list.filter_app. Qed.

Lemma fmap_view_ptr ifh {A} tag (o : option A) V :
  is_u32 (V - ifh) ->
  view <$> (opt_ptr ifh tag o V).*1 = match o with Some _ => [MkEntry tag IFD_LONG 1 (VLongs [V - ifh])] | None => [] end.
Proof. intros H. destruct o; [|done]. cbn. by rewrite view_ptr. Qed.

(** ** Reading the directories *)
Lemma v0_off max off : 0 <= max -> off + 6 <= v0 max off.
Proof. intros H. pose proof (v0_ge max off). lia. Qed.

Lemma inter_end_ge i off : off <= inter_end i off.
Proof. unfold inter_end. pose proof (v0_off 1 off). pose proof (end_v_ge (inter_items i) (v0 1 off)). lia. Qed.
Lemma opt_end_ge {A} (endf : A -> Z -> Z) o V : (forall a V, V <= endf a V) -> V <= opt_end endf o V.
Proof. intros H. destruct o; cbn; [apply H|lia]. Qed.

Lemma spec_bounds s io V : V + 6 <= spec_v1 s V <= spec_v2 s io V /\ spec_v2 s io V <= spec_end s io V.
Proof.
  pose proof (v0_off 57 V). pose proof (end_v_ge (spec_a s) (v0 57 V)) as G1. fold (spec_v1 s V) in G1.
  pose proof (opt_end_ge inter_end io (spec_v1 s V) inter_end_ge) as G2. fold (spec_v2 s io V) in G2.
  pose proof (end_v_ge (spec_b s) (spec_v2 s io V)) as G3. fold (spec_end s io V) in G3. lia.
Qed.

Lemma pri_bounds (q' : EXIF_PRIMARY_INFO_T) (o : Z) : o + 6 <= v0 24 o <= pri_v1 q' o /\ pri_v1 q' o <= pri_v2 q' o.
Proof.
  pose proof (v0_off 24 o). pose proof (end_v_ge (pri_a q') (v0 24 o)) as G1. fold (pri_v1 q' o) in G1.
  pose proof (end_v_ge (pri_items_3 q') (pri_v1 q' o)) as G2. fold (pri_v2 q' o) in G2. lia.
Qed.
Lemma ifd0_bounds e off :
  pri_v2 (primary e) off <= pri_v3 (primary e) (spec_ptr e) (inter_ptr e) off <=
    ifd0_end (primary e) (spec_ptr e) (gps_ptr e) (inter_ptr e) off.
Proof.
  split; apply opt_end_ge; intros a V; [pose proof (spec_bounds a (inter_ptr e) V); lia|].
  unfold gps_end. pose proof (v0_off 31 V). pose proof (end_v_ge (gps_items a) (v0 31 V)). lia.
Qed.

Section Read.
Context (seg : list Z) (ifh : Z).
Hypothesis Hifh : 0 <= ifh.
Hypothesis Hseg : zlen seg < 2 ^ 31.

(** A subdirectory behind a pointer. *)
Lemma read_sub_dir {A} (o : option A) V l :
  (forall a, o = Some a -> Forall (placed_ok ifh) l /\ zlen l < 2 ^ 16 /\ dir_at ifh seg V l 0) ->
  read_sub seg ifh (match o with Some _ => Some (V - ifh) | None => None end) =
    Some ((fun _ => view <$> l.*1) <$> o).
Proof.
  intros H. destruct o as [a|]; [|done]. destruct (H a eq_refl) as (F & N & D). cbn [read_sub].
  replace V with (ifh + (V - ifh)) in D by lia. rewrite (dir_read seg ifh (V - ifh) l 0) by done. done.
Qed.

Lemma read_gps go V :
  opt_ok gps_ok go = true -> ifh <= V -> opt_end gps_end go V <= zlen seg -> opt_post (gps_post ifh) go seg V ->
  read_sub seg ifh (match go with Some _ => Some (V - ifh) | None => None end) =
    Some ((fun g => view <$> gps_items g) <$> go).
Proof.
  intros OK HV HE Q. destruct go as [g|]; [|done]. cbn [opt_ok opt_end opt_post] in *. unfold gps_end, gps_post in *.
  destruct (gps_fits g OK) as (L & N & _). pose proof (v0_off 31 V).
  rewrite (read_sub_dir (Some g) V (places (v0 31 V) (gps_items g))); [cbn; by rewrite places_fst|].
  intros _ _. rewrite places_length. split; [|split; [lia|done]]. apply places_ok; [by apply leaves_blocks|lia|lia].
Qed.

Lemma read_inter io V :
  opt_ok inter_ok io = true -> ifh <= V -> opt_end inter_end io V <= zlen seg -> opt_post (inter_post ifh) io seg V ->
  read_sub seg ifh (match io with Some _ => Some (V - ifh) | None => None end) =
    Some ((fun i => view <$> inter_items i) <$> io).
Proof.
  intros OK HV HE Q. destruct io as [i|]; [|done]. cbn [opt_ok opt_end opt_post] in *. unfold inter_end, inter_post in *.
  destruct (inter_fits i OK) as (L & N & _). pose proof (v0_off 1 V).
  rewrite (read_sub_dir (Some i) V (places (v0 1 V) (inter_items i))); [cbn; by rewrite places_fst|].
  intros _ _. rewrite places_length. split; [|split; [lia|done]]. apply places_ok; [by apply leaves_blocks|lia|lia].
Qed.

(** The EXIF directory and the interoperability directory it points to. *)
Section Spec.
Context (s : EXIF_SPECIFIC_INFO_T) (io : option EXIF_INTEROPERABILITY_INFO_T) (V : Z).
Hypothesis OK : spec_ok s = true.
Hypothesis OKi : opt_ok inter_ok io = true.
Hypothesis HV : ifh <= V.
Hypothesis HE : spec_end s io V <= zlen seg.
Hypothesis Q : spec_post ifh s io seg V.

Lemma spec_entries :
  view <$> (spec_places ifh s io V).*1 =
    (view <$> spec_a s) ++
    (match io with
     | Some _ => [MkEntry IFD_INTEROPERABILITYIFDPOINTER IFD_LONG 1 (VLongs [spec_v1 s V - ifh])]
     | None => [] end) ++ (view <$> spec_b s).
Proof.
  pose proof (spec_bounds s io V). unfold spec_places. rewrite !fmap_app, !places_fst. by rewrite fmap_view_ptr by (unfold is_u32; lia).
Qed.

Lemma read_spec :
  read_sub seg ifh (Some (V - ifh)) = Some (Some (view <$> (spec_places ifh s io V).*1)) /\
  plain (view <$> (spec_places ifh s io V).*1) = view <$> (spec_a s ++ spec_b s) /\
  read_sub seg ifh (find_long IFD_INTEROPERABILITYIFDPOINTER (view <$> (spec_places ifh s io V).*1)) =
    Some ((fun i => view <$> inter_items i) <$> io).
Proof.
  destruct (spec_a_fits s OK) as (La & Na & _). destruct (spec_b_fits s OK) as (Lb & Nb & _). pose proof (spec_bounds s io V) as B.
  destruct Q as [Q1 Q2]. split; [|split].
  - apply (read_sub_dir (Some s) V). intros _ _. split; [|split; [|done]].
    + unfold spec_places. apply Forall_app_2; [|apply Forall_app_2].
      * apply places_ok; [by apply leaves_blocks|pose proof (v0_off 57 V); lia|fold (spec_v1 s V); lia].
      * eapply placed_in_ok, opt_ptr_in; [exact HV| |done|split; [|reflexivity]]; lia.
      * apply places_ok; [by apply leaves_blocks|lia|fold (spec_end s io V); lia].
    + unfold spec_places. rewrite !length_app, !places_length. destruct io; cbn [opt_ptr length]; lia.
  - rewrite spec_entries, !plain_app, !plain_leaves by done. rewrite fmap_app. f_equal. by destruct io.
  - rewrite spec_entries, find_leaves by (done || by apply ptr_tags).
    rewrite <- (read_inter io (spec_v1 s V)); [|done|lia|fold (spec_v2 s io V); lia|done]. f_equal.
    destruct io; [done|]. cbn [app]. rewrite <- (app_nil_r (view <$> spec_b s)). by rewrite find_leaves by (done || by apply ptr_tags).
Qed.
End Spec.

(** The first directory and what it points to. *)
Section Ifd0.
Context (e : JINF_EXIF_INFO_T) (more : bool) (off : Z).
#[local] Abbreviation q := (primary e).
#[local] Abbreviation ifd0_l := (ifd0_places ifh q (spec_ptr e) (gps_ptr e) (inter_ptr e) off).
#[local] Abbreviation v2 := (pri_v2 q off).
#[local] Abbreviation v3 := (pri_v3 q (spec_ptr e) (inter_ptr e) off).
#[local] Abbreviation v4 := (ifd0_end q (spec_ptr e) (gps_ptr e) (inter_ptr e) off).
Hypothesis OK : exif_ok e = true.
Hypothesis HV : ifh <= off.
Hypothesis HE : v4 <= zlen seg.
Hypothesis Q : ifd0_post ifh q (spec_ptr e) (gps_ptr e) (inter_ptr e) more seg off.

Lemma exif_ok_inv :
  pri_ok q = true /\ opt_ok spec_ok (spec_ptr e) = true /\ opt_ok gps_ok (gps_ptr e) = true /\
  opt_ok inter_ok (inter_ptr e) = true.
Proof. unfold exif_ok in OK. rewrite !andb_true_iff in OK. tauto. Qed.

#[local] Abbreviation ptrs :=
  ((match spec_ptr e with Some _ => [MkEntry IFD_EXIFIFDPOINTER IFD_LONG 1 (VLongs [v2 - ifh])] | None => [] end) ++
   (match gps_ptr e with Some _ => [MkEntry IFD_GPSIFDPOINTER IFD_LONG 1 (VLongs [v3 - ifh])] | None => [] end)).

Lemma ifd0_entries : view <$> ifd0_l.*1 = (view <$> pri_a q) ++ (view <$> pri_items_3 q) ++ ptrs.
Proof.
  pose proof (pri_bounds q off). pose proof (ifd0_bounds e off). unfold ifd0_places. rewrite !fmap_app, !places_fst.
  by rewrite !fmap_view_ptr by (unfold is_u32; lia).
Qed.

Lemma read_ifd0 :
  read_ifd seg ifh (off - ifh) = Some (view <$> ifd0_l.*1, if more then v4 - ifh else 0) /\
  plain (view <$> ifd0_l.*1) = view <$> (pri_a q ++ pri_items_3 q) /\
  find_long IFD_EXIFIFDPOINTER (view <$> ifd0_l.*1) =
    (match spec_ptr e with Some _ => Some (v2 - ifh) | None => None end) /\
  find_long IFD_GPSIFDPOINTER (view <$> ifd0_l.*1) =
    (match gps_ptr e with Some _ => Some (v3 - ifh) | None => None end).
Proof.
  destruct exif_ok_inv as (Oq & _). destruct (pri_a_fits q Oq) as (La & Na & _). destruct (pri_c_fits q Oq) as (Lc & Nc & _).
  pose proof (pri_bounds q off) as B1. pose proof (ifd0_bounds e off) as B2. destruct Q as (Q1 & _).
  split; [|split].
  - replace off with (ifh + (off - ifh)) in Q1 at 1 by lia. rewrite (fun F N U => dir_read _ _ _ _ _ Hifh F N U Q1).
    + unfold ifd0_next. by rewrite (u32_small (v4 - ifh)) by (unfold is_u32; lia).
    + unfold ifd0_places. apply Forall_app_2; [|apply Forall_app_2; [|apply Forall_app_2]].
      * apply places_ok; [by apply leaves_blocks|lia|fold (pri_v1 q off); lia].
      * apply places_ok; [by apply leaves_blocks|lia|fold (pri_v2 q off); lia].
      * eapply placed_in_ok, opt_ptr_in; [exact HV| |done|split; [|reflexivity]]; lia.
      * eapply placed_in_ok, opt_ptr_in; [exact HV| |done|split; [|reflexivity]]; lia.
    + unfold ifd0_places. rewrite !length_app, !places_length. destruct (spec_ptr e), (gps_ptr e); cbn [opt_ptr length]; lia.
    + unfold ifd0_next. destruct more; [apply u32_range|]; unfold is_u32; lia.
  - rewrite ifd0_entries, !plain_app, !plain_leaves, fmap_app by done. f_equal.
    rewrite <- (app_nil_r (view <$> pri_items_3 q)) at 2. f_equal. by destruct (spec_ptr e), (gps_ptr e).
  - rewrite ifd0_entries, !find_leaves by (done || by apply ptr_tags). by destruct (spec_ptr e), (gps_ptr e).
Qed.
End Ifd0.

(** The second directory and the thumbnail. *)
Lemma read_thumbnail t off :
  ifh < off -> 0 < zlen t -> ifd1_end ifd1_primary t off <= zlen seg -> ifd1_post ifh ifd1_primary t seg off ->
  read_ifd1 seg ifh (off - ifh) =
    Some (Some (view <$> (pri_a ifd1_primary ++ [len_block t] ++ pri_items_3 ifd1_primary), t)).
Proof.
  intros HV Ht HE [Q1 Q2]. set (q := ifd1_primary) in *. assert (Oq : pri_ok q = true) by done.
  destruct (pri_a_fits q Oq) as (La & Na & _). destruct (pri_c_fits q Oq) as (Lc & Nc & _).
  pose proof (pri_bounds q off) as B. unfold ifd1_end in HE.
  assert (Ll : leaves_ok [len_block t] = true).
  { unfold leaves_ok, leaf_ok. cbn [forallb]. by rewrite (ptr_block_ok _ _ : _ -> block_ok (len_block t) = true). }
  assert (E : view <$> (ifd1_places ifh q t off).*1 = (view <$> pri_a q) ++
    MkEntry IFD_JPEGINTERCHANGEFORMAT IFD_LONG 1 (VLongs [pri_v2 q off - ifh]) ::
    (view <$> [len_block t]) ++ (view <$> pri_items_3 q)).
  { unfold ifd1_places. rewrite !fmap_app, !places_fst. cbn [fmap list_fmap fst app].
    by rewrite view_ptr by (unfold is_u32; lia). }
  unfold read_ifd1. destruct (Z.eqb_spec (off - ifh) 0); [lia|].
  replace off with (ifh + (off - ifh)) in Q1 at 1 by lia. rewrite (fun F N U => dir_read _ _ _ _ _ Hifh F N U Q1).
  - cbn [mbind option_bind]. rewrite E.
    rewrite (find_leaves IFD_JPEGINTERCHANGEFORMAT); [|exact La|by apply ptr_tags]. cbn [find_long e_tag e_value Z.eqb].
    rewrite Z.eqb_refl. cbn [mbind option_bind].
    assert (F : find_long IFD_JPEGINTERCHANGEFORMATLENGTH ((view <$> pri_a q) ++
      MkEntry IFD_JPEGINTERCHANGEFORMAT IFD_LONG 1 (VLongs [pri_v2 q off - ifh]) ::
      (view <$> [len_block t]) ++ (view <$> pri_items_3 q)) = Some (zlen t)).
    { cbn [fmap list_fmap app]. rewrite (view_ptr _ (zlen t) : _ -> view (len_block t) = _) by (unfold is_u32; lia). reflexivity. }
    rewrite F. cbn [mbind option_bind]. replace (ifh + (pri_v2 q off - ifh)) with (pri_v2 q off) by lia.
    unfold has in Q2. rewrite Q2. cbn [mbind option_bind]. do 3 f_equal.
  - unfold ifd1_places. apply Forall_app_2; [|apply Forall_app_2].
    + apply places_ok; [by apply leaves_blocks|lia|fold (pri_v1 q off); lia].
    + eapply (placed_in_ok ifh ifh (zlen seg)); [lia|lia|]. constructor; [apply ptr_in; [done|lia]|constructor].
    + apply places_ok; [|lia|]; [|by change (pri_v2 q off < 2 ^ 31); lia].
      apply (leaves_blocks ([len_block t] ++ _)). unfold leaves_ok. rewrite forallb_app. by rewrite (Ll : forallb _ _ = _), (Lc : forallb _ _ = _).
  - unfold ifd1_places. rewrite !length_app, !places_length. cbn [length]. lia.
  - unfold is_u32. lia.
Qed.
End Read.

(** ** The head of the segment *)
Definition ifh_bytes : list Z := be16 EXIF_BIG_ENDIAN ++ be16 EXIF_IFH_FIX_VALUE ++ be32 8.
Definition app1_head (n : Z) : list Z := [0xff; 0xe1] ++ be16 n ++ exif_id.

Lemma splice_next b p q l1 l2 :
  q = p + zlen l1 -> 0 <= p -> q + zlen l2 <= zlen b ->
  splice (splice b (Z.to_nat p) l1) (Z.to_nat q) l2 = splice b (Z.to_nat p) (l1 ++ l2).
Proof. intros -> H1 H2. rewrite <- splice_app by lia. f_equal. lia. Qed.

Lemma ifh_run b p :
  18 <= zlen b -> Jpeg_WriteIFH 10 (mem_ctx b p) = Some (inr 18, mem_ctx (splice b 10 ifh_bytes) 18).
Proof.
  intros H. unfold Jpeg_WriteIFH. erewrite bind_run by (apply call_run, setpos_ok; lia).
  erewrite bind_run by (apply data_run, writew_ok; lia).
  erewrite bind_run by (apply data_run, writew_ok; rewrite ?splice_length; cbn; lia).
  rewrite splice_next by (cbn; lia).
  erewrite bind_run by (apply data_run, writel_ok; rewrite ?splice_length; cbn; lia).
  rewrite splice_next by (cbn; lia).
  rewrite <- app_assoc. apply getpos_run. rewrite splice_length; cbn; lia.
Qed.

Lemma id_run l b p :
  bytes l -> 0 <= p -> p + zlen l <= zlen b ->
  write_id l (mem_ctx b p) = Some (inr tt, mem_ctx (splice b (Z.to_nat p) l) (p + zlen l)).
Proof.
  intros B. revert b p. induction B as [|x l Hx B IH]; intros b p H1 H2.
  - cbn. by rewrite splice_nil, Z.add_0_r by (cbn in H2; lia).
  - cbn [write_id length] in *. erewrite bind_run by (apply data_run, writec_ok; lia).
    rewrite IH by (rewrite ?splice_length; cbn; lia). rewrite u8_small by done.
    rewrite splice_next by (cbn [length]; lia).
    do 3 f_equal. lia.
Qed.

Lemma app1_head_run n b p :
  10 <= zlen b -> Jpeg_WriteAPP1Header 0 n (mem_ctx b p) = Some (inr 10, mem_ctx (splice b 0 (app1_head n)) 10).
Proof.
  intros H. unfold Jpeg_WriteAPP1Header. erewrite bind_run by (apply call_run, setpos_ok; lia).
  erewrite bind_run by (apply data_run, writec_ok; lia).
  erewrite bind_run by (apply data_run, writec_ok; rewrite ?splice_length; cbn; lia).
  rewrite splice_next by (cbn; lia).
  erewrite bind_run by (apply data_run, writew_ok; rewrite ?splice_length; cbn; lia).
  rewrite splice_next by (cbn; lia).
  erewrite bind_run by (apply id_run; [repeat constructor; lia|lia|rewrite ?splice_length; cbn; lia]).
  rewrite splice_next by (cbn; lia).
  apply getpos_run. rewrite splice_length; cbn; lia.
Qed.

(** ** The segment *)
Section Segment.
Context (e : JINF_EXIF_INFO_T) (thumb : option (list Z)).
Definition ifd1_off : Z := ifd0_end (primary e) (spec_ptr e) (gps_ptr e) (inter_ptr e) 18.
Definition app1_end : Z :=
  match thumb with Some t => ifd1_end ifd1_primary t ifd1_off | None => ifd1_off end.
#[local] Abbreviation size := (match thumb with Some t => zlen t | None => 0 end).
#[local] Abbreviation more := (match thumb with Some _ => true | None => false end).
#[local] Abbreviation ifd0_q b :=
  (ifd0_post 10 (primary e) (spec_ptr e) (gps_ptr e) (inter_ptr e) more b 18).
#[local] Abbreviation ifd1_q b :=
  (match thumb with Some t => ifd1_post 10 ifd1_primary t b ifd1_off | None => True end).

Lemma ifd1_off_ge : 24 <= ifd1_off.
Proof. pose proof (pri_bounds (primary e) 18). pose proof (ifd0_bounds e 18). unfold ifd1_off. lia. Qed.
Lemma app1_end_ge : ifd1_off <= app1_end.
Proof. pose proof (pri_bounds ifd1_primary ifd1_off). unfold app1_end, ifd1_end. destruct thumb; lia. Qed.

Lemma ifd1_stable b b' :
  app1_end <= zlen b' -> agree (fun i => ifd1_off <= i < app1_end) b b' -> ifd1_q b -> ifd1_q b'.
Proof.
  unfold app1_end. destruct thumb as [t|]; [|done]. intros HE A [Q1 Q2].
  pose proof (pri_bounds ifd1_primary ifd1_off) as B. unfold ifd1_end in *.
  assert (Oq : pri_ok ifd1_primary = true) by done.
  destruct (pri_a_fits _ Oq) as (La & Na & _). destruct (pri_c_fits _ Oq) as (Lc & Nc & _).
  pose proof (v0_ge 24 ifd1_off) as [G _].
  assert (N : zlen (ifd1_places 10 ifd1_primary t ifd1_off) <= 22).
  { unfold ifd1_places. rewrite !length_app, !places_length. cbn [length]. lia. }
  split.
  - eapply (dir_agree 10 b b' ifd1_off _ 0 (pri_v2 ifd1_primary ifd1_off)); [|lia| |exact Q1].
    + apply (placed_in_weaken (v0 24 ifd1_off) (pri_v2 ifd1_primary ifd1_off)); [lia|lia|].
      unfold ifd1_places. apply Forall_app_2; [|apply Forall_app_2].
      * apply (placed_in_weaken (v0 24 ifd1_off) (pri_v1 ifd1_primary ifd1_off)); [lia|lia|].
        by apply places_in, leaves_blocks.
      * constructor; [apply ptr_in; [done|lia]|constructor].
      * apply (placed_in_weaken (pri_v1 ifd1_primary ifd1_off) (pri_v2 ifd1_primary ifd1_off)); [lia|lia|].
        apply (places_in _ (len_block t :: pri_items_3 ifd1_primary)).
        cbn [blocks_ok forallb]. unfold len_block. rewrite (ptr_block_ok _ _ : _ -> block_ok (item _ _ _ _ _) = true) by done.
        by apply leaves_blocks.
    + intros i Hi. apply A. lia.
  - eapply load_agree; [exact Q2|lia|]. intros i Hi. apply A. lia.
Qed.

Definition seg_post (b : list Z) : Prop :=
  has b 0 (app1_head (app1_end - 2)) /\ has b 10 ifh_bytes /\ ifd0_q b /\ ifd1_q b.
Hypothesis OK : exif_ok e = true.
Hypothesis OKt : match thumb with Some t => bytes t /\ 0 < zlen t | None => True end.

Lemma ifd0_sub : sub 10 (Jpeg_WriteExifIFD (primary e) (spec_ptr e) (gps_ptr e) (inter_ptr e) None more 10)
  (ifd0_end (primary e) (spec_ptr e) (gps_ptr e) (inter_ptr e)) 
  (ifd0_post 10 (primary e) (spec_ptr e) (gps_ptr e) (inter_ptr e) more).
Proof. apply sub_ifd0. by destruct e. Qed.

Lemma seg_stable b b' :
  app1_end <= zlen b' -> agree (fun i => 0 <= i < app1_end) b b' -> seg_post b -> seg_post b'.
Proof.
  pose proof ifd1_off_ge. pose proof app1_end_ge. intros HE A (H1 & H2 & H3 & H4). split; [|split; [|split]].
  - eapply load_agree; [exact H1|cbn; lia|]. intros i Hi. apply A. cbn in Hi. lia.
  - eapply load_agree; [exact H2|cbn; lia|]. intros i Hi. apply A. cbn in Hi. lia.
  - eapply (sub_stable _ _ _ _ ifd0_sub); [fold ifd1_off; lia| |exact H3]. intros i Hi. apply A. fold ifd1_off in Hi. lia.
  - eapply ifd1_stable; [done| |exact H4]. intros i Hi. apply A. lia.
Qed.

Lemma ifd1_opt_run b p :
  app1_end <= zlen b -> zlen b < 2 ^ 31 ->
  exists b' p',
    (if more then Jpeg_WriteExifIFD ifd1_primary None None None (Some (MkThumb thumb size)) false 10 ifd1_off
     else mret ifd1_off) (mem_ctx b p) = Some (inr app1_end, mem_ctx b' p') /\
    frame (fun i => ifd1_off <= i < app1_end) b b' /\ ifd1_q b'.
Proof.
  intros HE Hb. pose proof ifd1_off_ge. unfold app1_end in *. destruct thumb as [t|].
  - apply ifd1_run; [done|done|lia|done|done].
  - exists b, p. split; [done|]. split; [apply frame_refl|done].
Qed.

Lemma app1_run b :
  app1_end <= zlen b -> zlen b < 2 ^ 31 -> app1_end < 2 ^ 16 ->
  exists b', Jpeg_WriteAPP1 (Some b) (Some e) thumb size = Some (inr app1_end, b') /\
    frame (fun i => 0 <= i < app1_end) b b' /\ seg_post b'.
Proof.
  intros HE Hb H16. pose proof ifd1_off_ge as G1. pose proof app1_end_ge as G2.
  unfold Jpeg_WriteAPP1, write_app1. rewrite (proj2 (Z.ltb_ge _ _)) by lia.
  assert (EM : match thumb with Some _ => 0 <? size | None => false end = more).
  { destruct thumb as [t|]; [|done]. by rewrite (proj2 (Z.ltb_lt _ _)) by apply OKt. }
  pose proof (ifh_run b 0 ltac:(lia)) as R1.
  pose proof (frame_splice b 10 ifh_bytes ltac:(lia) ltac:(cbn; lia)) as F1. pose proof (frame_zlen _ _ _ F1) as L1.
  destruct (sub_run _ _ _ _ ifd0_sub (splice b (Z.to_nat 10) ifh_bytes) 18 18) as (b2 & p2 & R2 & F2 & Q2);
    [lia|rewrite L1; fold ifd1_off; lia|by rewrite L1|]. fold ifd1_off in R2, F2. pose proof (frame_zlen _ _ _ F2) as L2.
  destruct (ifd1_opt_run b2 p2) as (b3 & p3 & R3 & F3 & Q3); [lia|lia|]. pose proof (frame_zlen _ _ _ F3) as L3.
  pose proof (app1_head_run (app1_end - 2) b3 p3 ltac:(lia)) as R4.
  pose proof (frame_splice b3 0 (app1_head (app1_end - 2)) ltac:(lia) ltac:(cbn; lia)) as F4.
  set (b4 := splice b3 (Z.to_nat 0) (app1_head (app1_end - 2))) in *. pose proof (frame_zlen _ _ _ F4) as L4.
  change (zlen ifh_bytes) with 8 in F1. change (zlen (app1_head _)) with 10 in F4.
  exists b4. split; [|split; [|split; [|split; [|split]]]].
  - erewrite bind_run by exact R1. rewrite EM. erewrite bind_run by exact R2. erewrite bind_run by exact R3.
    rewrite (u16_small app1_end), u16_small by lia. erewrite bind_run by exact R4. cbn [mret M_ret mbind option_bind].
    do 3 f_equal. lia.
  - frame_by F1. frame_by F2. frame_by F3. eapply frame_weaken; [|exact F4]. intros ?; cbn beta; lia.
  - apply has_splice; [lia|cbn; lia].
  - eapply has_frame; [exact F4|cbn; lia|]. eapply has_frame; [exact F3|cbn; lia|]. eapply has_frame; [exact F2|cbn; lia|].
    apply has_splice; [lia|cbn; lia].
  - eapply (sub_stable _ _ _ _ ifd0_sub); [fold ifd1_off; lia| |exact Q2]. fold ifd1_off.
    eapply (frame_agree (fun i => 0 <= i < 10 \/ ifd1_off <= i < app1_end)); [|intros i; cbn beta; lia].
    frame_by F3. eapply frame_weaken; [|exact F4]. intros ?; cbn beta; lia.
  - eapply ifd1_stable; [lia| |exact Q3]. apply (frame_agree _ _ _ _ F4). intros i. cbn beta. lia.
Qed.

Lemma seg_read seg : zlen seg = app1_end -> app1_end < 2 ^ 16 -> seg_post seg -> read_exif seg = Some (tree_of e thumb).
Proof.
  intros HL H16 (H1 & H2 & H3 & H4). pose proof ifd1_off_ge as G1. pose proof app1_end_ge as G2.
  destruct (exif_ok_inv e OK) as (Oq & Os & Og & Oi).
  destruct (read_ifd0 seg 10 ltac:(lia) ltac:(lia) e more 18 OK ltac:(lia) ltac:(fold ifd1_off; lia) H3) as (R0 & P0 & X0 & Y0).
  destruct H3 as (_ & Qs & Qg). set (es := view <$> _.*1) in *.
  pose proof (pri_bounds (primary e) 18) as B1. pose proof (ifd0_bounds e 18) as B2. fold ifd1_off in B2, R0.
  unfold read_exif. unfold has in H1, H2. change (zlen (app1_head _)) with 10 in H1. change (zlen ifh_bytes) with 8 in H2.
  rewrite H1, H2. cbn [mbind option_bind]. rewrite HL, (bool_decide_eq_true_2 (app1_head _ = _)) by done.
  rewrite (bool_decide_eq_true_2 (ifh_bytes = _)) by done. cbn [negb]. change 8 with (18 - 10). rewrite R0. cbn [mbind option_bind].
  rewrite X0, Y0. fold ifd1_off in *.
  rewrite (read_gps seg 10 ltac:(lia) ltac:(lia) (gps_ptr e)
    (pri_v3 (primary e) (spec_ptr e) (inter_ptr e) 18) Og ltac:(lia) ltac:(change (ifd1_off <= zlen seg); lia) Qg).
  assert (R1 : read_ifd1 seg 10 (if more then ifd1_off - 10 else 0) =
    Some ((fun t => (view <$> (pri_a ifd1_primary ++ [len_block t] ++ pri_items_3 ifd1_primary), t)) <$> thumb)).
  { unfold app1_end in *. destruct thumb as [t|]; [|done]. destruct OKt. apply read_thumbnail; [lia|lia|lia|done|lia|done]. }
  rewrite R1, P0. unfold tree_of. destruct (spec_ptr e) as [s|]; [|done].
  destruct (read_spec seg 10 ltac:(lia) ltac:(lia) s (inter_ptr e) (pri_v2 (primary e) 18)) as (S1 & S2 & S3);
    [done|done|lia|cbn [pri_v3 opt_end] in B2; unfold pri_v3 in B2; cbn [opt_end] in B2; lia|done|].
  rewrite S1. cbn [mbind option_bind]. rewrite S3. cbn [mbind option_bind fmap option_fmap option_map]. by rewrite S2.
Qed.
End Segment.

(** ** The room it takes *)
Lemma v0_le max off : 0 <= max -> v0 max off <= off + 12 * max + 9.
Proof. intros H. unfold v0. pose proof (align4_ge (off + 2 + 12 * max + 4)). lia. Qed.

Lemma pri_end_le q off : pri_ok q = true -> pri_v2 q off <= off + 3997.
Proof.
  intros OK. destruct (pri_a_fits q OK) as (_ & _ & Ea). destruct (pri_c_fits q OK) as (_ & _ & Ec).
  pose proof (v0_le 24 off). specialize (Ea (v0 24 off)). specialize (Ec (pri_v1 q off)).
  unfold pri_v2. unfold pri_v1 in *. lia.
Qed.
Lemma spec_end_le s io off : spec_ok s = true -> opt_ok inter_ok io = true -> spec_end s io off <= off + 5273.
Proof.
  intros OK OKi. destruct (spec_a_fits s OK) as (_ & _ & Ea). destruct (spec_b_fits s OK) as (_ & _ & Eb).
  assert (I : spec_v2 s io off <= spec_v1 s off + 280).
  { unfold spec_v2. destruct io as [i|]; cbn [opt_end opt_ok] in *; [|lia]. destruct (inter_fits i OKi) as (_ & _ & Ei).
    unfold inter_end. pose proof (v0_le 1 (spec_v1 s off)). specialize (Ei (v0 1 (spec_v1 s off))). lia. }
  pose proof (v0_le 57 off). specialize (Ea (v0 57 off)). specialize (Eb (spec_v2 s io off)).
  unfold spec_end. unfold spec_v1 in *. lia.
Qed.
Lemma gps_end_le g off : gps_ok g = true -> gps_end g off <= off + 2381.
Proof.
  intros OK. destruct (gps_fits g OK) as (_ & _ & E). unfold gps_end. pose proof (v0_le 31 off). specialize (E (v0 31 off)). lia.
Qed.

Definition thumb_size (thumb : option (list Z)) : Z := match thumb with Some t => zlen t | None => 0 end.
Definition thumb_ok (thumb : option (list Z)) : Prop :=
  match thumb with Some t => bytes t /\ 0 < zlen t | None => True end.
Definition MAX_DIRS : Z := 15666.

Lemma app1_end_le e thumb : exif_ok e = true -> app1_end e thumb <= MAX_DIRS + thumb_size thumb.
Proof.
  intros OK. destruct (exif_ok_inv e OK) as (Oq & Os & Og & Oi). pose proof (pri_end_le (primary e) 18 Oq) as B1.
  assert (B2 : pri_v3 (primary e) (spec_ptr e) (inter_ptr e) 18 <= pri_v2 (primary e) 18 + 5273).
  { unfold pri_v3. destruct (spec_ptr e) as [s|]; cbn [opt_end opt_ok] in *; [|lia]. by apply spec_end_le. }
  assert (B3 : ifd1_off e <= pri_v3 (primary e) (spec_ptr e) (inter_ptr e) 18 + 2381).
  { unfold ifd1_off, ifd0_end. destruct (gps_ptr e) as [g|]; cbn [opt_end opt_ok] in *; [|lia]. by apply gps_end_le. }
  pose proof (pri_end_le ifd1_primary (ifd1_off e) eq_refl) as B4. unfold app1_end, MAX_DIRS, thumb_size, ifd1_end.
  destruct thumb; lia.
Qed.

Lemma agree_take n b : 0 <= n -> agree (fun i => 0 <= i < n) b (take (Z.to_nat n) b).
Proof. intros Hn i Hi. apply lookup_take_lt. lia. Qed.

Lemma frame_drop n b b' : 0 <= n -> frame (fun i => 0 <= i < n) b b' -> drop (Z.to_nat n) b' = drop (Z.to_nat n) b.
Proof.
  intros Hn [L F]. apply list_eq. intros i. rewrite !lookup_drop.
  specialize (F (Z.of_nat (Z.to_nat n + i))). rewrite Nat2Z.id in F. apply F; lia.
Qed.

(** The segment in a buffer that has room for it. *)
Lemma app1_in_buffer e thumb b :
  exif_ok e = true -> thumb_ok thumb -> thumb_size thumb <= 49000 ->
  MAX_DIRS + thumb_size thumb <= zlen b -> zlen b < 2 ^ 31 ->
  exists n b', Jpeg_WriteAPP1 (Some b) (Some e) thumb (thumb_size thumb) = Some (inr n, b') /\
    20 <= n <= MAX_DIRS + thumb_size thumb /\ zlen b' = zlen b /\
    drop (Z.to_nat n) b' = drop (Z.to_nat n) b /\
    take 10 b' = app1_head (n - 2) /\
    read_exif (take (Z.to_nat n) b') = Some (tree_of e thumb).
Proof.
  intros OK OKt Ht HE Hb. pose proof (app1_end_le e thumb OK) as B. pose proof (ifd1_off_ge e). pose proof (app1_end_ge e thumb).
  unfold MAX_DIRS in *. destruct (app1_run e thumb OK OKt b) as (b' & R & F & Q); [lia|lia|lia|].
  pose proof (frame_zlen _ _ _ F) as L. exists (app1_end e thumb), b'.
  split; [exact R|]. split; [lia|]. split; [done|]. split; [apply (frame_drop (app1_end e thumb)); [lia|exact F]|]. split.
  - destruct Q as [Q _]. unfold has in Q. change (zlen (app1_head _)) with 10 in Q. rewrite load_0 in Q by lia. by simplify_eq.
  - assert (Lt : zlen (take (Z.to_nat (app1_end e thumb)) b') = app1_end e thumb) by (rewrite length_take; lia).
    apply seg_read; [done|done|done|lia|]. eapply seg_stable; [done| |by apply agree_take; lia|exact Q]. lia.
Qed.

(** C7: what the EXIF writer writes, a reader reads, field by field of the
    EXIF 2.2 standard.  The expected entries are those of a separate table of
    the standard's tag numbers, types and counts, in which every field hangs
    on its own flag and member; the writer's tables and macros are proved
    equal to it.  For every description in scope, with or without a thumbnail
    (of 1 to 49000 bytes), and for every buffer of less than 2^31 bytes with
    15666 bytes more than the thumbnail (the callers' buffers have 21504
    more), [Jpeg_WriteAPP1] succeeds, takes at most that, leaves the rest of
    the buffer alone, and the reader of the segment finds exactly the fields
    the standard has for the description, in the writer's order, and the
    thumbnail with its own directory.  Three flags are not the fields' own,
    which [as_written] writes out: GPSDestLongitude is written under the flag
    of GPSDestLatitude (exif_writer.c:1912), and MakerNote and UserComment
    under their counts, whatever their flags (exif_writer.c:919).  In scope are
    descriptions whose strings end within their arrays and whose custom values
    fit theirs, with ImageWidth and ImageLength below 2^16, which the writer
    stores as shorts (exif_writer.c:2451), and without a SubjectArea that has
    a count, which it writes with the writer of rationals (exif_writer.c:901);
    outside of these two the segment is wrong. *)
Theorem exif_roundtrip e thumb b :
  exif_ok e = true -> thumb_ok thumb -> thumb_size thumb <= 49000 ->
  MAX_DIRS + thumb_size thumb <= zlen b -> zlen b < 2 ^ 31 ->
  exists n b', Jpeg_WriteAPP1 (Some b) (Some e) thumb (thumb_size thumb) = Some (inr n, b') /\
    n <= MAX_DIRS + thumb_size thumb /\ drop (Z.to_nat n) b' = drop (Z.to_nat n) b /\
    read_exif (take (Z.to_nat n) b') = Some (std_tree (as_written e) thumb).
Proof.
  intros OK OKt Ht HE Hb. destruct (app1_in_buffer e thumb b OK OKt Ht HE Hb) as (n & b' & R & N & _ & D & _ & T).
  rewrite tree_std in T. exists n, b'. split; [done|]. split; [lia|]. by split.
Qed.

(** A maker, a resolution, a user comment, an interoperability index and a
    latitude. *)
Definition sample_exif : JINF_EXIF_INFO_T :=
  let r := MkRational 72 1 in let c := MkCustom 0 [0x52; 0x39; 0x38; 0] 4 256 in
  MkInfo
    (MkPrimaryInfo (MkPriBasic 1 r r 2 640 480) None None
       (Some (MkPriDesc (MkPriDescValid false false true false false false false) [] [] [0x53; 0x50; 0x52; 0x44] [] [] [] [])) 0)
    (Some (MkSpecificInfo (MkSpecBasic 1 [1; 2; 3; 0] 640 480) (Some (MkSpecVersion [0x30; 0x32; 0x32; 0x30] [0x30; 0x31; 0x30; 0x30]))
       None (Some (MkSpecUser (MkSpecUserValid false true) (MkCustom 0 [] 0 0) c)) None None None None))
    (Some (MkGpsInfo (MkGpsValid true true true false false false false false false false false false false false false false
         false false false false false false false false false false false false false false false)
       [2; 2; 0; 0] [0x4e; 0] [MkRational 31 1; MkRational 14 1; MkRational 5 1] [] [] 0 r [] [] [] [] r [] r [] r [] r [] [] [] [] [] [] r [] r
       (MkCustom 0 [] 0 0) (MkCustom 0 [] 0 0) [] 0))
    (Some (MkInteroperabilityInfo (MkInteroperabilityValid true) c)).

Lemma sample_thumb_ok : thumb_ok (Some [0xff; 0xd8; 0xff; 0xd9]).
Proof. split; [repeat constructor; done|done]. Qed.

Lemma exif_roundtrip_witness :
  exists n b', Jpeg_WriteAPP1 (Some (replicate (Z.to_nat 16000) 0)) (Some sample_exif) (Some [0xff; 0xd8; 0xff; 0xd9]) 4 = Some (inr n, b') /\
    read_exif (take (Z.to_nat n) b') = Some (std_tree (as_written sample_exif) (Some [0xff; 0xd8; 0xff; 0xd9])).
Proof.
  destruct (exif_roundtrip sample_exif (Some [0xff; 0xd8; 0xff; 0xd9]) (replicate (Z.to_nat 16000) 0)) as (n & b' & R & _ & _ & T).
  1: reflexivity.
  1: exact sample_thumb_ok.
  1: discriminate.
  1, 2: rewrite length_replicate, Z2Nat.id; [reflexivity || discriminate|discriminate].
  exists n, b'. split; [exact R|exact T].
Defined.
