(* ===== verification/ExifImage.v ===== *)
(** The EXIF segment put into a picture: the end of
    common/libs/libcamera/jpeg/jpeg_fw_8830/src/exif_writer.c and the request
    that the camera thread answers in
    common/libs/libcamera/sc8830/src/jpeg_codec.c.

    The picture lies in memory, a [list Z] indexed by address in which 0 is
    the null pointer; the segment is written to a temporary buffer of its own
    and copied in front of the picture.  The last theorem puts the encoder,
    the EXIF writer and the decoder together. *)
From S2P Require Import Prelude JpegTables JpegStream JpegDec JpegEnc JpegHead.
From S2P Require Import ExifStream ExifData ExifWriter ExifRead ExifDir ExifApp1 ExifRound.

(** ** Parameters *)
Definition JINF_SUCCESS : Z := 0.
Definition JINF_MEMORY_NOT_ENOUGH : Z := 3.
Definition JINF_FAILED : Z := 0xff.
Definition ret_code (r : JPEG_RET_E) : Z :=
  match r with JPEG_SUCCESS => 0 | JPEG_FAILED => 0xff | JPEG_MEMORY_NOT_ENOUGH => 2 | JPEGE_INVALID_ARGUMENT => -3 end.

Record JINF_WEXIF_OUT_PARAM_T := MkOut { output_buf_ptr : Z; output_size : Z }.

(** The temporary buffer is given by its contents, which carry its size. *)
Record JINF_WEXIF_IN_PARAM_T (W : Type) := MkIn {
  exif_info_ptr : option JINF_EXIF_INFO_T;
  src_jpeg_buf_ptr : Z; src_jpeg_size : Z;
  thumbnail_buf_ptr : Z; thumbnail_buf_size : Z;
  temp_buf_ptr : option (list Z);
  wrtie_file_func : option (JINF_WRITE_FILE_FUNC W);
  target_buf_ptr : Z; target_buf_size : Z }.
Arguments MkIn {W} _ _ _ _ _ _ _ _ _.
Arguments exif_info_ptr {W} _.
Arguments src_jpeg_buf_ptr {W} _.
Arguments src_jpeg_size {W} _.
Arguments thumbnail_buf_ptr {W} _.
Arguments thumbnail_buf_size {W} _.
Arguments temp_buf_ptr {W} _.
Arguments wrtie_file_func {W} _.
Arguments target_buf_ptr {W} _.
Arguments target_buf_size {W} _.

(** ** Into memory or into a file *)
Section Sinks.
Context {W : Type}.
Implicit Types i : JINF_WEXIF_IN_PARAM_T W.

(** What the thumbnail pointer points to; a pointer to less memory than
    announced is found out when the thumbnail is copied. *)
Definition thumbnail_data i (m : list Z) : option (list Z) :=
  if thumbnail_buf_ptr i =? 0 then None
  else Some (default [] (load m (thumbnail_buf_ptr i) (thumbnail_buf_size i))).

Definition app1_of i m : option ((JPEG_RET_E + Z) * list Z) :=
  Jpeg_WriteAPP1 (temp_buf_ptr i) (exif_info_ptr i) (thumbnail_data i m) (thumbnail_buf_size i).

Definition JPEG_AddExifToMemory i (m : list Z) : option (JPEG_RET_E * option JINF_WEXIF_OUT_PARAM_T * list Z) :=
  '(ret, app1_buf) ← app1_of i m;
  match ret with
  | inl e => Some (e, None, m)
  | inr app1_size =>
    let free_buf_size := src_jpeg_buf_ptr i -u target_buf_ptr i in
    if free_buf_size <? app1_size then Some (JPEG_MEMORY_NOT_ENOUGH, None, m) else
    let target := src_jpeg_buf_ptr i -u app1_size in
    let out := MkOut target (app1_size +u src_jpeg_size i) in
    m ← store m target [M_MARKER; M_SOI];
    app1 ← load app1_buf 0 app1_size;
    m ← store m (target + 2) app1;
    Some (JPEG_SUCCESS, Some out, m)
  end.

(** One call of the file function; [None] when the data is no memory. *)
Definition write_part (f : JINF_WRITE_FILE_FUNC W) (data : option (list Z)) (off size : Z) (w : W) : option (bool * Z * W) :=
  d ← data; let '(ok, n, w) := f d off w in Some (ok && (size =? n), n, w).

Definition JPEG_AddExifToFile (f : JINF_WRITE_FILE_FUNC W) i (m : list Z) (w : W) : option (JPEG_RET_E * W) :=
  '(ret, app1_buf) ← app1_of i m;
  match ret with
  | inl e => Some (e, w)
  | inr app1_size =>
    '(ok, n1, w) ← write_part f (Some [M_MARKER; M_SOI]) 0 2 w;
    if negb ok then Some (JPEG_FAILED, w) else
    '(ok, n2, w) ← write_part f (load app1_buf 0 app1_size) n1 app1_size w;
    if negb ok then Some (JPEG_FAILED, w) else
    let size := src_jpeg_size i -u 2 in
    '(ok, _, w) ← write_part f (load m (src_jpeg_buf_ptr i + 2) size) (n1 +u n2) size w;
    if negb ok then Some (JPEG_FAILED, w) else Some (JPEG_SUCCESS, w)
  end.

(** The result code, the output parameter when it is set, the memory and the
    outside. *)
Definition IMGJPEG_WriteExif (in_param : option (JINF_WEXIF_IN_PARAM_T W)) (m : list Z) (w : W)
  : option (Z * option JINF_WEXIF_OUT_PARAM_T * list Z * W) :=
  match in_param with
  | None => Some (ret_code JPEGE_INVALID_ARGUMENT, None, m, w)
  | Some i =>
    if bool_decide (exif_info_ptr i = None) && (src_jpeg_buf_ptr i =? 0) && bool_decide (temp_buf_ptr i = None)
    then Some (ret_code JPEGE_INVALID_ARGUMENT, None, m, w)
    else match wrtie_file_func i with
    | Some f =>
      '(ret, w) ← JPEG_AddExifToFile f i m w;
      Some (if bool_decide (ret = JPEG_SUCCESS) then JINF_SUCCESS else JINF_FAILED, None, m, w)
    | None =>
      if target_buf_ptr i =? 0 then Some (ret_code JPEGE_INVALID_ARGUMENT, None, m, w)
      else if src_jpeg_buf_ptr i <=? target_buf_ptr i then Some (JINF_MEMORY_NOT_ENOUGH, None, m, w)
      else
        '(ret, out, m) ← JPEG_AddExifToMemory i m;
        Some (if bool_decide (ret = JPEG_SUCCESS) then JINF_SUCCESS else JINF_FAILED, out, m, w)
    end
  end.
End Sinks.

(** ** The request of the camera *)
Definition JPEG_CODEC_SUCCESS : Z := 0.
Definition JPEG_CODEC_PARAM_ERR : Z := 1.
Definition JPEG_CODEC_NO_MEM : Z := 3.
Definition JPEG_CODEC_ERROR : Z := 5.

Record jpeg_enc_exif_param := MkExifParam {
  src_jpeg_addr_virt : Z; p_src_jpeg_size : Z; thumbnail_addr_virt : Z; p_thumbnail_size : Z;
  target_addr_virt : Z; target_size : Z; exif_ptr : option JINF_EXIF_INFO_T }.

(** The size that is asked for, and the contents that [malloc] gives it. *)
Definition temp_buf_size (p : jpeg_enc_exif_param) : Z := p_thumbnail_size p +u 21 * 1024.

(** On an error the output is what an uninitialised variable holds: [None]. *)
Definition _jpeg_enc_wexif (p : jpeg_enc_exif_param) (temp : option (list Z)) (m : list Z)
  : option (Z * option JINF_WEXIF_OUT_PARAM_T * list Z) :=
  match temp with
  | None => Some (JPEG_CODEC_NO_MEM, None, m)
  | Some _ =>
    let input_param : JINF_WEXIF_IN_PARAM_T unit := MkIn (exif_ptr p) (src_jpeg_addr_virt p) (p_src_jpeg_size p) (thumbnail_addr_virt p)
      (p_thumbnail_size p) temp None (target_addr_virt p) (target_size p) in
    '(ret, out, m, _) ← IMGJPEG_WriteExif (Some input_param) m tt; Some (ret, out, m)
  end.

Definition _check_wexif_param (p : jpeg_enc_exif_param) : Z :=
  if (target_addr_virt p =? 0) || (src_jpeg_addr_virt p =? 0) then JPEG_CODEC_PARAM_ERR else JPEG_CODEC_SUCCESS.

(** The thread on [JPEG_EVT_ENC_EXIF], and [s_exif_output]. *)
Definition enc_exif_event (p : jpeg_enc_exif_param) (temp : option (list Z)) (s_exif_output : JINF_WEXIF_OUT_PARAM_T)
    (m : list Z) : option (JINF_WEXIF_OUT_PARAM_T * list Z) :=
  '(ret, wexif_out_param, m) ← _jpeg_enc_wexif p temp m;
  if ret =? JPEG_CODEC_SUCCESS then out ← wexif_out_param; Some (out, m)
  else Some (MkOut (output_buf_ptr s_exif_output) 0, m).

(** The caller's side.  [copied] and [posted] say whether the copy of the
    parameters could be allocated and [cmr_msg_post] took the message; the
    semaphore is posted when the thread is done with the event. *)
Definition jpeg_enc_add_eixf (copied posted : bool) (p : jpeg_enc_exif_param) (temp : option (list Z))
    (s_exif_output output : JINF_WEXIF_OUT_PARAM_T) (m : list Z)
  : option (Z * JINF_WEXIF_OUT_PARAM_T * JINF_WEXIF_OUT_PARAM_T * list Z) :=
  if negb (_check_wexif_param p =? JPEG_CODEC_SUCCESS) then Some (JPEG_CODEC_PARAM_ERR, output, s_exif_output, m)
  else if negb copied then Some (JPEG_CODEC_NO_MEM, output, s_exif_output, m)
  else if negb posted then Some (JPEG_CODEC_ERROR, output, s_exif_output, m)
  else
    '(s_exif_output, m) ← enc_exif_event p temp s_exif_output m;
    if negb (output_size s_exif_output =? 0) then Some (JPEG_CODEC_SUCCESS, s_exif_output, s_exif_output, m)
    else Some (JPEG_CODEC_ERROR, MkOut (output_buf_ptr output) 0, s_exif_output, m).

(** ** Date and time *)
Record JINF_DATE_T := MkDate { year : Z; month : Z; day : Z }.
Record JINF_TIME_T := MkTime { hour : Z; minute : Z; second : Z }.

(** [%0<width>d] on a 16 bit value: five digits are enough. *)
Fixpoint dec_digits (fuel : nat) (n : Z) : list Z :=
  match fuel with
  | O => []
  | S f => (if n <? 10 then [] else dec_digits f (n / 10)) ++ [0x30 + n mod 10]
  end.
Definition fmt_0d (width : nat) (n : Z) : list Z :=
  let d := dec_digits 5 n in replicate (width - length d) 0x30 ++ d.

Definition date_time_text (d : JINF_DATE_T) (t : JINF_TIME_T) : list Z :=
  fmt_0d 4 (year d) ++ [0x3a] ++ fmt_0d 2 (month d) ++ [0x3a] ++ fmt_0d 2 (day d) ++ [0x20] ++
  fmt_0d 2 (hour t) ++ [0x3a] ++ fmt_0d 2 (minute t) ++ [0x3a] ++ fmt_0d 2 (second t).

Definition IMGJPEG_FormatDateTime (d : JINF_DATE_T) (t : JINF_TIME_T) (date_time : list Z) : option (Z * list Z) :=
  if zlen date_time <? 20 then Some (JINF_MEMORY_NOT_ENOUGH, date_time)
  else b ← store date_time 0 (date_time_text d t ++ [0]); Some (JINF_SUCCESS, b).

Lemma fmt_0d_2 n : 0 <= n < 100 -> length (fmt_0d 2 n) = 2%nat.
Proof.
  intros H. unfold fmt_0d. cbn [dec_digits]. destruct (Z.ltb_spec n 10); [done|].
  by rewrite (proj2 (Z.ltb_lt (n / 10) 10)) by zlia.
Qed.
Lemma fmt_0d_4 n : 0 <= n < 10000 -> length (fmt_0d 4 n) = 4%nat.
Proof.
  intros H. unfold fmt_0d. cbn [dec_digits]. destruct (Z.ltb_spec n 10); [done|].
  destruct (Z.ltb_spec (n / 10) 10); [done|]. destruct (Z.ltb_spec (n / 10 / 10) 10); [done|].
  by rewrite (proj2 (Z.ltb_lt (n / 10 / 10 / 10) 10)) by zlia.
Qed.

(** A date fits the twenty bytes that are asked for when its numbers have
    their usual widths, and one with a year of five digits does not. *)
Lemma date_time_fits d t b :
  0 <= year d < 10000 -> Forall (fun n => 0 <= n < 100) [month d; day d; hour t; minute t; second t] -> 20 <= zlen b ->
  IMGJPEG_FormatDateTime d t b = Some (JINF_SUCCESS, date_time_text d t ++ [0] ++ drop 20 b).
Proof.
  intros Hy H Hb. unfold IMGJPEG_FormatDateTime. rewrite (proj2 (Z.ltb_ge _ _)) by lia.
  assert (L : length (date_time_text d t ++ [0]) = 20%nat).
  { inversion_clear H as [|? ? H1 H']. inversion_clear H' as [|? ? H2 H]. inversion_clear H as [|? ? H3 H'].
    inversion_clear H' as [|? ? H4 H]. inversion_clear H as [|? ? H5 _].
    unfold date_time_text. rewrite !length_app, fmt_0d_4, !fmt_0d_2 by done. done. }
  unfold store. rewrite !(proj2 (Z.leb_le _ _)) by lia. cbn [andb mbind option_bind]. rewrite splice_0, L by lia.
  by rewrite <- app_assoc.
Qed.
Lemma date_time_overflow b :
  zlen b = 20 -> IMGJPEG_FormatDateTime (MkDate 10000 1 1) (MkTime 0 0 0) b = None.
Proof.
  intros L. unfold IMGJPEG_FormatDateTime. rewrite L. cbn [Z.ltb Z.compare Pos.compare Pos.compare_cont].
  unfold store. rewrite L. reflexivity.
Qed.

(** ** The picture with the segment *)
Definition with_segment (seg src : list Z) : list Z := [M_MARKER; M_SOI] ++ seg ++ drop 2 src.

Lemma load_inv m off n l :
  load m off n = Some l -> 0 <= off /\ 0 <= n /\ off + n <= zlen m /\ l = take (Z.to_nat n) (drop (Z.to_nat off) m).
Proof. unfold load. zcase; intros; simplify_eq; try lia. done. Qed.
Lemma load_intro m off n :
  0 <= off -> 0 <= n -> off + n <= zlen m -> load m off n = Some (take (Z.to_nat n) (drop (Z.to_nat off) m)).
Proof. intros. unfold load. by rewrite !(proj2 (Z.leb_le _ _)) by lia. Qed.

Lemma store_twice m m1 m2 off a b :
  store m off a = Some m1 -> store m1 (off + zlen a) b = Some m2 -> store m off (a ++ b) = Some m2.
Proof.
  rewrite !store_Some. intros (H1 & H2 & ->) (_ & H4 & ->). rewrite splice_length in H4 by lia. rewrite length_app.
  split; [done|]. split; [lia|]. apply splice_next; [done|lia|lia].
Qed.

(** The segment ends two bytes into the picture, on its SOI marker. *)
Lemma load_picture m m' src n size seg pic :
  load m src size = Some pic -> 2 <= size -> zlen seg = n ->
  store m (src - n) ([M_MARKER; M_SOI] ++ seg) = Some m' ->
  load m' (src - n) (n + size) = Some (with_segment seg pic).
Proof.
  intros (H1 & H2 & H3 & ->)%load_inv Hs Hn (H4 & H5 & ->)%store_Some. cbn [app length] in H5.
  assert (L : length (splice m (Z.to_nat (src - n)) ([M_MARKER; M_SOI] ++ seg)) = length m) by (apply splice_length; cbn [app length]; lia).
  rewrite load_intro by (rewrite ?L; lia). f_equal. unfold with_segment, splice.
  rewrite drop_app_ge by (rewrite length_take; lia). rewrite length_take, Nat.min_l by lia.
  rewrite Nat.sub_diag, drop_0, <- app_assoc. cbn [app length]. replace (Z.to_nat (n + size)) with (2 + (length seg + Z.to_nat (size - 2)))%nat by lia.
  cbn [take Nat.add]. do 2 f_equal. rewrite take_app_ge by lia. f_equal.
  rewrite Nat.add_comm, Nat.add_sub. replace (Z.to_nat size) with (2 + Z.to_nat (size - 2))%nat by lia.
  rewrite <- firstn_skipn_comm, drop_drop. do 2 f_equal. lia.
Qed.

Section Memory.
Context {W : Type} (i : JINF_WEXIF_IN_PARAM_T W) (m : list Z).
Hypothesis Hm : zlen m < 2 ^ 32.

(** Success has one cause. *)
Lemma add_memory_inv out m' :
  JPEG_AddExifToMemory i m = Some (JPEG_SUCCESS, Some out, m') ->
  exists n buf seg, app1_of i m = Some (inr n, buf) /\ load buf 0 n = Some seg /\
    out = MkOut (src_jpeg_buf_ptr i -u n) (n +u src_jpeg_size i) /\
    store m (src_jpeg_buf_ptr i -u n) ([M_MARKER; M_SOI] ++ seg) = Some m'.
Proof.
  unfold JPEG_AddExifToMemory. destruct (app1_of i m) as [[[e|n] buf]|] eqn:E; [| |done].
  { cbn [mbind option_bind]. by intros [=]. }
  cbn [mbind option_bind]. destruct (_ <? n); [done|].
  destruct (store m _ [M_MARKER; M_SOI]) as [m1|] eqn:E1; [|done]. cbn [mbind option_bind].
  destruct (load buf 0 n) as [seg|] eqn:E2; [|done]. cbn [mbind option_bind].
  destruct (store m1 _ seg) as [m2|] eqn:E3; [|done]. cbn [mbind option_bind]. intros [= <- <-].
  exists n, buf, seg. split_and!; try done. by eapply store_twice.
Qed.

Lemma add_memory_run n buf :
  app1_of i m = Some (inr n, buf) -> 0 <= n <= zlen buf -> n <= src_jpeg_buf_ptr i - target_buf_ptr i ->
  0 <= target_buf_ptr i -> src_jpeg_buf_ptr i + 2 <= zlen m ->
  exists m', JPEG_AddExifToMemory i m = Some (JPEG_SUCCESS, Some (MkOut (src_jpeg_buf_ptr i - n) (n +u src_jpeg_size i)), m') /\
    store m (src_jpeg_buf_ptr i - n) ([M_MARKER; M_SOI] ++ take (Z.to_nat n) buf) = Some m'.
Proof.
  intros E Hn Hf Ht Hs. unfold JPEG_AddExifToMemory. rewrite E. cbn [mbind option_bind].
  rewrite (u32_small (_ - target_buf_ptr i)), (proj2 (Z.ltb_ge _ _)) by (unfold is_u32; lia).
  rewrite (u32_small (_ - n)) by (unfold is_u32; lia). set (a := src_jpeg_buf_ptr i - n).
  assert (E1 : store m a [M_MARKER; M_SOI] = Some (splice m (Z.to_nat a) [M_MARKER; M_SOI])) by (apply store_Some; split_and!; [lia|cbn; lia|done]).
  rewrite E1, load_0 by lia. cbn [mbind option_bind]. eexists.
  assert (E2 : store (splice m (Z.to_nat a) [M_MARKER; M_SOI]) (a + 2) (take (Z.to_nat n) buf) =
    Some (splice (splice m (Z.to_nat a) [M_MARKER; M_SOI]) (Z.to_nat (a + 2)) (take (Z.to_nat n) buf))).
  { apply store_Some. rewrite splice_length by (cbn; lia). rewrite length_take. split_and!; [lia|lia|done]. }
  rewrite E2. cbn [mbind option_bind]. split; [done|]. by eapply store_twice.
Qed.
End Memory.

(** What the caller of the file function relies on: the data is there
    afterwards, at the offset it was written to. *)
Class FileSink {W} (f : JINF_WRITE_FILE_FUNC W) (contents : W -> list Z) : Prop :=
  sink_write d off w : 0 <= off <= zlen (contents w) ->
    exists w', f d off w = (true, zlen d, w') /\
      contents w' = take (Z.to_nat off) (contents w) ++ d ++ drop (Z.to_nat off + length d) (contents w).

Lemma sink_append {W} (f : JINF_WRITE_FILE_FUNC W) contents d size w off :
  FileSink f contents -> size = zlen d -> off = zlen (contents w) ->
  exists w', write_part f (Some d) off size w = Some (true, size, w') /\ contents w' = contents w ++ d.
Proof.
  intros Hf -> ->. destruct (Hf d (zlen (contents w)) w) as (w' & E & C); [lia|]. exists w'. unfold write_part.
  cbn [mbind option_bind]. rewrite E, Z.eqb_refl. split; [done|]. rewrite C, Nat2Z.id, take_ge, drop_ge by lia.
  by rewrite app_nil_r.
Qed.

Definition file_write (d : list Z) (off : Z) (w : list Z) : bool * Z * list Z :=
  (true, zlen d, splice w (Z.to_nat off) d).
#[export] Instance file_write_sink : FileSink file_write id.
Proof. intros d off w H. by eexists. Qed.

(** C32: the file and the memory get the same picture.  Whenever the EXIF
    writer puts its segment in front of a picture in memory, the variant that
    writes a file succeeds as well on every file that keeps what is written
    to it, and an empty file then holds exactly the bytes that the output
    parameter of the memory variant describes. *)
Theorem exif_sinks_agree {W} f contents (i : JINF_WEXIF_IN_PARAM_T W) m w out m' pic :
  FileSink f contents -> contents w = [] -> zlen m < 2 ^ 32 -> 2 <= src_jpeg_size i ->
  load m (src_jpeg_buf_ptr i) (src_jpeg_size i) = Some pic ->
  JPEG_AddExifToMemory i m = Some (JPEG_SUCCESS, Some out, m') ->
  exists w', JPEG_AddExifToFile f i m w = Some (JPEG_SUCCESS, w') /\
    load m' (output_buf_ptr out) (output_size out) = Some (contents w').
Proof.
  intros Hf Hw Hm Hs Hp Ha. destruct (add_memory_inv i m out m' Ha) as (n & buf & seg & E & Eb & -> & Es).
  pose proof (load_inv _ _ _ _ Hp) as (P1 & P2 & P3 & P4). pose proof (load_bounds _ _ _ _ Eb) as (_ & B2 & _ & B4).
  pose proof (proj1 (store_Some _ _ _ _) Es) as (S1 & S2 & _). cbn [app length] in S2.
  assert (U : src_jpeg_buf_ptr i -u n = src_jpeg_buf_ptr i - n).
  { destruct (Z.le_gt_cases n (src_jpeg_buf_ptr i)); [apply u32_small; unfold is_u32; lia|]. exfalso.
    assert (n < 2 ^ 32) by lia. revert S2. unfold u32. rewrite <- (Z.mod_unique (src_jpeg_buf_ptr i - n) (2 ^ 32) (-1) (src_jpeg_buf_ptr i - n + 2 ^ 32)); lia. }
  rewrite U in *. rewrite (u32_small (n + _)) by (unfold is_u32; lia). cbn [output_buf_ptr output_size].
  unfold JPEG_AddExifToFile. rewrite E. cbn [mbind option_bind].
  destruct (sink_append f contents [M_MARKER; M_SOI] 2 w 0 Hf eq_refl) as (w1 & W1 & C1); [by rewrite Hw|].
  rewrite W1. cbn [mbind option_bind negb]. rewrite Eb.
  destruct (sink_append f contents seg n w1 2 Hf) as (w2 & W2 & C2); [done|by rewrite C1, Hw|].
  rewrite W2. cbn [mbind option_bind negb]. rewrite (u32_small (src_jpeg_size i - 2)), (u32_small (2 + n)) by (unfold is_u32; lia).
  assert (D : load m (src_jpeg_buf_ptr i + 2) (src_jpeg_size i - 2) = Some (drop 2 pic)).
  { rewrite load_intro by lia. f_equal. rewrite P4, skipn_firstn_comm, drop_drop. f_equal; [lia|]. f_equal. lia. }
  rewrite D. pose proof (load_bounds _ _ _ _ D) as (_ & _ & _ & LD).
  destruct (sink_append f contents (drop 2 pic) (src_jpeg_size i - 2) w2 (2 + n) Hf) as (w3 & W3 & C3);
    [done|rewrite C2, C1, Hw, length_app; cbn [length app]; lia|].
  rewrite W3. cbn [mbind option_bind negb]. exists w3. split; [done|].
  rewrite (load_picture m m' _ n _ seg pic Hp Hs B4 Es), C3, C2, C1, Hw. by cbn [app]; rewrite ?app_assoc.
Qed.


(** The sample description, a picture of six bytes. *)
Definition sample_memory (pic : list Z) : list Z := replicate (Z.to_nat 20000) 0 ++ pic.
Definition sample_input (pic : list Z) : JINF_WEXIF_IN_PARAM_T (list Z) :=
  MkIn (Some sample_exif) 20000 (zlen pic) 0 0 (Some (replicate (Z.to_nat 16000) 0)) None 16 0.

Lemma sample_memory_length pic : zlen (sample_memory pic) = 20000 + zlen pic.
Proof. unfold sample_memory. rewrite length_app, length_replicate. lia. Qed.
Lemma sample_memory_load pic : load (sample_memory pic) 20000 (zlen pic) = Some pic.
Proof.
  rewrite <- (app_nil_r pic) at 1. apply load_mid; [|done]. rewrite length_replicate. lia.
Qed.

Lemma sample_app1 pic : exists n buf, app1_of (sample_input pic) (sample_memory pic) = Some (inr n, buf) /\ 20 <= n <= zlen buf /\ n <= 16000.
Proof.
  assert (Lt : zlen (replicate (Z.to_nat 16000) 0) = 16000) by (rewrite length_replicate; lia).
  destruct (app1_in_buffer sample_exif None (replicate (Z.to_nat 16000) 0)) as (n & buf & R & Hn & L & _);
    [reflexivity|exact I|discriminate|rewrite Lt; discriminate|rewrite Lt; reflexivity|].
  exists n, buf. split; [exact R|]. unfold MAX_DIRS in Hn. cbn [thumb_size] in Hn. lia.
Qed.

Lemma exif_sinks_agree_witness :
  exists out m' w, JPEG_AddExifToMemory (sample_input [0xff; 0xd8; 1; 2; 3; 4]) (sample_memory [0xff; 0xd8; 1; 2; 3; 4]) =
      Some (JPEG_SUCCESS, Some out, m') /\
    JPEG_AddExifToFile file_write (sample_input [0xff; 0xd8; 1; 2; 3; 4]) (sample_memory [0xff; 0xd8; 1; 2; 3; 4]) [] =
      Some (JPEG_SUCCESS, w) /\
    load m' (output_buf_ptr out) (output_size out) = Some w.
Proof.
  set (pic := [0xff; 0xd8; 1; 2; 3; 4]). destruct (sample_app1 pic) as (n & buf & E & Hn & Hn').
  pose proof (sample_memory_length pic) as L. cbn [length pic] in L.
  destruct (add_memory_run (sample_input pic) (sample_memory pic) ltac:(lia) n buf E) as (m' & Em & _).
  1-4: cbn [src_jpeg_buf_ptr target_buf_ptr sample_input]; lia.
  destruct (exif_sinks_agree file_write id (sample_input pic) (sample_memory pic) []
    (MkOut (20000 - n) (n +u 6)) m' pic file_write_sink) as (w & H1 & H2).
  1: reflexivity.
  1: lia.
  1: discriminate.
  1: apply sample_memory_load.
  1: exact Em.
  eexists _, m', w. split; [exact Em|]. split; [exact H1|exact H2].
Defined.

(** ** The decoder on a picture with a segment *)
Lemma be16_same v : 0 <= v < 2 ^ 16 -> ExifStream.be16 v = JpegDec.be16 v.
Proof.
  intros H. unfold ExifStream.be16, JpegDec.be16, u8. rewrite Z.shiftr_div_pow2 by lia.
  rewrite (Z.mod_small (v / 2 ^ 8)) by zlia. done.
Qed.

Lemma app1_skipped f n s seg rest :
  (0 < n)%nat -> 10 <= zlen seg < 2 ^ 16 -> take 10 seg = app1_head (zlen seg - 2) ->
  exec (process_tables (S f) n) s (seg ++ rest) = exec (process_tables (S f) (n - 1)) s rest.
Proof.
  intros Hn Hl Ht. rewrite <- (take_drop 10 seg) at 1. rewrite Ht. unfold app1_head. rewrite be16_same by lia.
  rewrite <- !app_assoc. cbn [app]. apply tables_step; [done|compute_done|].
  change (segment 225) with SkipVariable. unfold SkipVariable. rewrite exec_bind.
  rewrite (exec_short s (zlen seg - 2)) by lia. cbn iota. rewrite exec_bind, exec_check, (proj2 (Z.leb_le _ _)) by lia. cbn iota.
  rewrite (app_assoc exif_id). apply exec_skip. rewrite length_app, length_drop. cbn [exif_id length]. lia.
Qed.

(** ** A request of the camera *)
Definition thumbnail_at (p : jpeg_enc_exif_param) (m : list Z) (thumb : option (list Z)) : Prop :=
  p_thumbnail_size p = thumb_size thumb /\
  match thumb with
  | Some t => thumbnail_addr_virt p <> 0 /\ load m (thumbnail_addr_virt p) (zlen t) = Some t
  | None => thumbnail_addr_virt p = 0
  end.

Section Request.
Context (p : jpeg_enc_exif_param) (x : JINF_EXIF_INFO_T) (thumb : option (list Z)) (temp m : list Z).
#[local] Abbreviation src := (src_jpeg_addr_virt p).
#[local] Abbreviation size := (p_src_jpeg_size p).

(** A description and a thumbnail the writer can take, a temporary buffer of
    the size that is asked for, and room in front of the picture. *)
Record exif_request : Prop := {
  rq_exif : exif_ptr p = Some x;
  rq_ok : exif_ok x = true;
  rq_thumb : thumb_ok thumb;
  rq_small : thumb_size thumb <= 49000;
  rq_at : thumbnail_at p m thumb;
  rq_temp : zlen temp = temp_buf_size p;
  rq_target : 0 < target_addr_virt p;
  rq_room : target_addr_virt p + MAX_DIRS + thumb_size thumb <= src;
  rq_src : 2 <= size /\ src + size <= zlen m;
  rq_mem : zlen m < 2 ^ 31 }.
Hypothesis R : exif_request.

#[local] Abbreviation input :=
  (MkIn (exif_ptr p) src size (thumbnail_addr_virt p) (p_thumbnail_size p) (Some temp) None (target_addr_virt p) (target_size p)
   : JINF_WEXIF_IN_PARAM_T unit).

Lemma request_thumb : thumbnail_data input m = thumb.
Proof.
  destruct R as [_ _ _ _ [Es At] _ _ _ _ _]. unfold thumbnail_data. cbn [thumbnail_buf_ptr thumbnail_buf_size]. rewrite Es.
  destruct thumb as [t|]; [|by rewrite At]. destruct At as [N L]. rewrite (proj2 (Z.eqb_neq _ _)) by done. cbn [thumb_size]. by rewrite L.
Qed.

Lemma request_run s0 out0 :
  exists n seg m', let out := MkOut (src - n) (n + size) in
    jpeg_enc_add_eixf true true p (Some temp) s0 out0 m = Some (JPEG_CODEC_SUCCESS, out, out, m') /\
    store m (src - n) ([M_MARKER; M_SOI] ++ seg) = Some m' /\ zlen seg = n /\ 20 <= n < 2 ^ 16 /\
    take 10 seg = app1_head (n - 2) /\ read_exif seg = Some (tree_of x thumb).
Proof.
  pose proof request_thumb as Et. destruct R as [Ex Ok Tk Ts [Es _] Tp Tg Rm [S1 S2] Mm].
  assert (T0 : 0 <= thumb_size thumb) by (destruct thumb; cbn; lia).
  unfold temp_buf_size in Tp. rewrite Es, u32_small in Tp by (unfold is_u32; lia). unfold MAX_DIRS in *.
  destruct (app1_in_buffer x thumb temp Ok Tk Ts) as (n & buf & E & Hn & Lb & _ & Hh & Hr); [unfold MAX_DIRS; lia|lia|].
  unfold MAX_DIRS in Hn.
  assert (E' : app1_of input m = Some (inr n, buf)).
  { unfold app1_of. rewrite Et. cbn [temp_buf_ptr exif_info_ptr thumbnail_buf_size]. by rewrite Ex, Es. }
  destruct (add_memory_run input m ltac:(lia) n buf E') as (m' & Em & Sm);
    [lia|cbn [src_jpeg_buf_ptr target_buf_ptr]; lia|cbn [target_buf_ptr]; lia|cbn [src_jpeg_buf_ptr]; lia|].
  cbn [src_jpeg_buf_ptr src_jpeg_size] in Em, Sm. rewrite (u32_small (n + size)) in Em by (unfold is_u32; lia).
  exists n, (take (Z.to_nat n) buf), m'. cbv zeta. split; [|split; [done|split; [rewrite length_take; lia|split; [lia|split; [|done]]]]].
  - unfold jpeg_enc_add_eixf, _check_wexif_param, enc_exif_event, _jpeg_enc_wexif, IMGJPEG_WriteExif.
    rewrite (proj2 (Z.eqb_neq (target_addr_virt p) 0)), (proj2 (Z.eqb_neq src 0)) by lia. cbn [orb negb Z.eqb JPEG_CODEC_SUCCESS].
    cbn [exif_info_ptr src_jpeg_buf_ptr temp_buf_ptr wrtie_file_func target_buf_ptr].
    rewrite (bool_decide_eq_false_2 (exif_ptr p = None)) by (by rewrite Ex). cbn [andb].
    rewrite (proj2 (Z.eqb_neq (target_addr_virt p) 0)), (proj2 (Z.leb_gt src _)) by lia. rewrite Em. cbn [mbind option_bind].
    rewrite bool_decide_eq_true_2 by done. change (JINF_SUCCESS =? JPEG_CODEC_SUCCESS) with true.
    cbn [mbind option_bind output_size]. by rewrite (proj2 (Z.eqb_neq (n + size) 0)) by lia.
  - rewrite take_take, Nat.min_l by lia. done.
Qed.
End Request.

(** C4: a picture from the encoder, with the EXIF segment, decodes as before
    and carries the description.  For a header the encoder writes, any data
    after it and a well-formed request, the request succeeds; the segment and
    a new SOI marker are written in front of the picture and over its own SOI
    marker, and nowhere else; the output parameter describes the new picture.
    A reader of the segment finds the description and the thumbnail, and
    [JPEG_FWParseHead] ends in the state it reaches on the picture without
    the segment, with the header longer by the segment. *)
Theorem exif_picture_decodes out ready p e0 ws e data addr size s fuel q x thumb temp m s0 out0 :
  BitstreamModule out -> (forall n, ready n = true) ->
  JPEG_HWEncInit p e0 = (Ok ws, e) ->
  0 <= p_width p < 2 ^ 16 -> 0 <= p_height p < 2 ^ 16 -> 0 <= mcu_info_0 p < 2 ^ 8 ->
  0 <= p_restart_interval p < 2 ^ 16 ->
  0 < addr -> addr + 3 < 2 ^ 32 -> 2420 <= size < 2 ^ 32 ->
  is_u32 (input_width s) -> is_u32 (input_height s) -> (10 < fuel)%nat ->
  exif_request q x thumb temp m ->
  load m (src_jpeg_addr_virt q) (p_src_jpeg_size q) = Some (snd (encode_head out ready e) ++ data) ->
  exists head seg m' s', let a := src_jpeg_addr_virt q - zlen seg in
    let o := MkOut a (zlen seg + p_src_jpeg_size q) in
    encode_head out ready e = (Ok tt, head) /\
    jpeg_enc_add_eixf true true q (Some temp) s0 out0 m = Some (JPEG_CODEC_SUCCESS, o, o, m') /\
    m' = splice m (Z.to_nat a) ([0xff; M_SOI] ++ seg) /\
    load m' a (output_size o) = Some (with_segment seg (head ++ data)) /\
    read_exif seg = Some (tree_of x thumb) /\
    JPEG_FWParseHead fuel (InMemory (head ++ data) (zlen (head ++ data))) addr size s = (Ok tt, s', zlen head) /\
    JPEG_FWParseHead fuel (InMemory (with_segment seg (head ++ data)) (zlen (with_segment seg (head ++ data)))) addr size s =
      (Ok tt, s', zlen head + zlen seg).
Proof.
  intros Ho Hready Hi Hw Hh Hm Hri Ha Ha' Hs Hiw Hih Hfuel Rq Hp.
  destruct (encoded_head out ready p e0 ws e addr size s) as (hr & vr & ql & qc & [Hh16 Hw16 _ _ _ _ _ _ _ _] & _ & _ & Ee & Hx); auto.
  specialize (fun f n l H => Hx f n _ _ l H Hh16 Hw16).
  set (head := head_bytes _ _ _ _ _ _) in Ee. set (rest := head_rest _ _ _ _ _ _) in Hx.
  assert (Eh : head = 0xff :: M_SOI :: rest) by done. rewrite Ee in Hp. cbn [snd] in Hp.
  destruct (rest_end (e_height e) (e_width e) (Z.lor (Z.shiftl hr 4) vr) ql qc (e_restart_interval e)) as [pre Hpre]. fold rest in Hpre.
  clearbody head rest.
  destruct (request_run q x thumb temp m Rq s0 out0) as (n & seg & m' & Er & Es & Ln & Hn & Ht & Hr).
  pose proof (load_bounds _ _ _ _ Hp) as (_ & P2 & P3 & P4). destruct Rq as [_ _ _ _ _ _ _ _ [S1 _] Mm].
  pose proof (proj1 (store_Some _ _ _ _) Es) as (B1 & B2 & B3). cbn [app length] in B2. destruct fuel as [|f]; [lia|].
  assert (Ew : with_segment seg (head ++ data) = (0xff :: M_SOI :: seg ++ rest) ++ data).
  { unfold with_segment. rewrite Eh. cbn [app drop]. by rewrite <- app_assoc. }
  exists head, seg, m'. eexists. rewrite Ln. cbv zeta. cbn [output_size].
  split; [done|]. split; [done|]. split; [done|]. split; [by apply (load_picture m m' _ n _ seg _ Hp S1 Ln Es)|]. split; [done|]. split.
  - apply (parse_mem_head _ _ _ _ _ head (0xff :: M_SOI :: pre) data (start_state addr size s)); [by rewrite Eh, Hpre|by rewrite Eh|lia|lia|lia|done|].
    rewrite Eh. cbn [app]. rewrite exec_soi. apply Hx. lia.
  - rewrite Ew. replace (zlen head + n) with (zlen (0xff :: M_SOI :: seg ++ rest)) by (rewrite Eh; cbn [length]; rewrite length_app; lia).
    apply (parse_mem_head _ _ _ _ _ _ (0xff :: M_SOI :: seg ++ pre) data (start_state addr size s)); [|done| |lia|lia|done|].
    + rewrite Hpre. cbn [app]. by rewrite <- app_assoc.
    + rewrite <- Ew. unfold with_segment. rewrite !length_app, length_drop. cbn [length]. lia.
    + cbn [app]. rewrite exec_soi, <- app_assoc, exec_bind, app1_skipped, <- exec_bind; [apply Hx; lia|lia|lia|by rewrite Ln].
Qed.

Definition sample_head : list Z := snd (encode_head ref_out (fun _ => true) sample_enc).
Definition sample_request (pic : list Z) : jpeg_enc_exif_param := MkExifParam 20000 (zlen pic) 0 0 16 0 (Some sample_exif).

Lemma sample_request_ok pic :
  2 <= zlen pic < 2 ^ 20 ->
  exif_request (sample_request pic) sample_exif None (replicate (Z.to_nat (21 * 1024)) 0) (sample_memory pic).
Proof.
  intros H. pose proof (sample_memory_length pic) as L. split.
  - reflexivity.
  - reflexivity.
  - exact I.
  - discriminate.
  - split; reflexivity.
  - rewrite length_replicate. reflexivity.
  - reflexivity.
  - discriminate.
  - rewrite L. cbn [sample_request src_jpeg_addr_virt p_src_jpeg_size]. lia.
  - lia.
Qed.

Lemma sample_head_length : zlen sample_head = 629.
Proof. vm_compute. reflexivity. Qed.

Lemma exif_picture_decodes_witness :
  exists seg m' s', let pic := sample_head ++ [1; 2; 3] in
    jpeg_enc_add_eixf true true (sample_request pic) (Some (replicate (Z.to_nat (21 * 1024)) 0)) (MkOut 0 0) (MkOut 0 0) (sample_memory pic) =
      Some (JPEG_CODEC_SUCCESS, MkOut (20000 - zlen seg) (zlen seg + zlen pic), MkOut (20000 - zlen seg) (zlen seg + zlen pic), m') /\
    read_exif seg = Some (tree_of sample_exif None) /\
    JPEG_FWParseHead 12 (InMemory (with_segment seg pic) (zlen (with_segment seg pic))) 4096 4096 idle_dec =
      (Ok tt, s', zlen sample_head + zlen seg).
Proof.
  pose proof sample_head_length as L.
  destruct (exif_picture_decodes ref_out (fun _ => true) sample_para idle_enc sample_words sample_enc [1; 2; 3] 4096 4096 idle_dec 12
    (sample_request (sample_head ++ [1; 2; 3])) sample_exif None (replicate (Z.to_nat (21 * 1024)) 0)
    (sample_memory (sample_head ++ [1; 2; 3])) (MkOut 0 0) (MkOut 0 0)) as (head & seg & m' & s' & E & R & _ & _ & T & _ & P).
  1: exact ref_out_module.
  1: reflexivity.
  1: vm_compute; reflexivity.
  1-4: split; [discriminate|reflexivity].
  1-2: reflexivity.
  1-3: split; [discriminate|reflexivity].
  1: apply Nat.ltb_lt; reflexivity.
  1: apply sample_request_ok; rewrite length_app; cbn [length]; lia.
  1: apply sample_memory_load.
  assert (Eh : head = sample_head) by (unfold sample_head; by rewrite E).
  rewrite Eh in P. exists seg, m', s'. split; [exact R|]. split; [exact T|exact P].
Defined.
