(* ===== verification/JpegCodec.v ===== *)
(** The work of the JPEG thread of the camera:
    common/libs/libcamera/sc8830/src/jpeg_codec.c, from [_enc_start] to
    [_dec_next], and [adjust_jpg_resolution] of jpegenc_api.c.

    The firmware is a parameter: [fw] gives the answer to the last of the
    calls made so far, so that it may depend on all of them.  A context is a
    record; what the functions do outside of it (calls of the firmware, the
    memory behind the addresses, events for the camera) is the [world].  The
    ping and pong buffers of [JPEG_ENC_T] are not used. *)
From S2P Require Import Prelude JpegTables JpegStream JpegDec JpegEnc JpegHead.

(** ** Data *)
Record img_addr := MkAddr { addr_y : Z; addr_u : Z; addr_v : Z }.
Record img_size := MkSize { width : Z; height : Z }.
Record img_data_end := MkEnd { y_endian : Z; uv_endian : Z }.

Definition JPEG_SLICE_HEIGHT : Z := 4096.
Definition JPEG_DECODE_FW_BUF_SIZE : Z := 20 * 1024.
Definition JPEG_CODEC_SUCCESS : Z := 0.
Definition JPEG_CODEC_PARAM_ERR : Z := 1.
Definition JPEG_CODEC_NO_MEM : Z := 3.
Definition JPEG_CODEC_ENC_WAIT_SRC : Z := 4.
Definition JPEG_CODEC_ERROR : Z := 5.
Definition JPEGENC_YUV_420 : Z := 0.
Definition JPEGENC_QUALITY_MIDDLE_LOW : Z := 1.
Definition JPEGDEC_YUV_422 : Z := 1.

Record JPEG_ENC_T := MkEncT {
  src_fmt : Z; size : img_size; out_size : img_size; slice_height : Z; slice_mod : Z;
  src_addr_phy : img_addr; src_addr_vir : img_addr; src_endian : img_data_end;
  quality_level : Z; stream_buf_phy : Z; stream_buf_vir : Z; stream_buf_size : Z; stream_real_size : Z;
  temp_buf_phy : Z; temp_buf_vir : Z; temp_buf_size : Z;
  cur_line_num : Z; cur_id : Z; is_finish : bool; is_thumbnail : bool }.

Record jpeg_enc_in_param := MkEncIn {
  in_src_fmt : Z; in_size : img_size; in_out_size : img_size; in_slice_height : Z; in_slice_mod : Z;
  in_src_addr_phy : img_addr; in_src_addr_vir : img_addr; in_src_endian : img_data_end;
  in_quality_level : Z; in_stream_buf_phy : Z; in_stream_buf_vir : Z; in_stream_buf_size : Z;
  in_temp_buf_phy : Z; in_temp_buf_vir : Z; in_temp_buf_size : Z }.

(** [_get_enc_start_param] on a zeroed context. *)
Definition _get_enc_start_param (p : jpeg_enc_in_param) : JPEG_ENC_T :=
  MkEncT (in_src_fmt p) (in_size p) (in_out_size p) (in_slice_height p) (in_slice_mod p)
    (in_src_addr_phy p) (in_src_addr_vir p) (in_src_endian p)
    (in_quality_level p) (in_stream_buf_phy p) (in_stream_buf_vir p) (in_stream_buf_size p) 0
    (in_temp_buf_phy p) (in_temp_buf_vir p) (in_temp_buf_size p) 0 0 false false.

Record jpeg_enc_next_param := MkEncNext {
  n_handle : Z; n_src_addr_phy : img_addr; n_src_addr_vir : img_addr; n_slice_height : Z; ready_line_num : Z }.

(** The fields that encoding changes. *)
Definition set_line (l : Z) (e : JPEG_ENC_T) : JPEG_ENC_T :=
  MkEncT (src_fmt e) (size e) (out_size e) (slice_height e) (slice_mod e) (src_addr_phy e) (src_addr_vir e) (src_endian e)
    (quality_level e) (stream_buf_phy e) (stream_buf_vir e) (stream_buf_size e) (stream_real_size e)
    (temp_buf_phy e) (temp_buf_vir e) (temp_buf_size e) l (cur_id e) (is_finish e) (is_thumbnail e).
Definition set_slice (h : Z) (e : JPEG_ENC_T) : JPEG_ENC_T :=
  MkEncT (src_fmt e) (size e) (out_size e) h (slice_mod e) (src_addr_phy e) (src_addr_vir e) (src_endian e)
    (quality_level e) (stream_buf_phy e) (stream_buf_vir e) (stream_buf_size e) (stream_real_size e)
    (temp_buf_phy e) (temp_buf_vir e) (temp_buf_size e) (cur_line_num e) (cur_id e) (is_finish e) (is_thumbnail e).
Definition set_done (s : Z) (e : JPEG_ENC_T) : JPEG_ENC_T :=
  MkEncT (src_fmt e) (size e) (out_size e) (slice_height e) (slice_mod e) (src_addr_phy e) (src_addr_vir e) (src_endian e)
    (quality_level e) (stream_buf_phy e) (stream_buf_vir e) (stream_buf_size e) s
    (temp_buf_phy e) (temp_buf_vir e) (temp_buf_size e) (height (size e)) (cur_id e) true (is_thumbnail e).
Definition set_id (i : Z) (e : JPEG_ENC_T) : JPEG_ENC_T :=
  MkEncT (src_fmt e) (size e) (out_size e) (slice_height e) (slice_mod e) (src_addr_phy e) (src_addr_vir e) (src_endian e)
    (quality_level e) (stream_buf_phy e) (stream_buf_vir e) (stream_buf_size e) (stream_real_size e)
    (temp_buf_phy e) (temp_buf_vir e) (temp_buf_size e) (cur_line_num e) i (is_finish e) (is_thumbnail e).
Definition set_thumbnail (e : JPEG_ENC_T) : JPEG_ENC_T :=
  MkEncT (src_fmt e) (size e) (out_size e) (slice_height e) (slice_mod e) (src_addr_phy e) (src_addr_vir e) (src_endian e)
    (quality_level e) (stream_buf_phy e) (stream_buf_vir e) (stream_buf_size e) (stream_real_size e)
    (temp_buf_phy e) (temp_buf_vir e) (temp_buf_size e) (cur_line_num e) (cur_id e) (is_finish e) true.

(** ** The firmware *)
Record JPEGENC_PARAMS_T := MkEncParams {
  ep_format : Z; ep_width : Z; ep_height : Z; set_slice_height : Z; ep_yuv : img_addr; ep_yuv_vir : img_addr;
  ep_stream_vir : Z; ep_stream_phy : Z; stream_buf_len : Z; quality : Z }.
Record JPEGENC_SLICE_NEXT_T := MkSliceNext { sn_height : Z; yuv_phy_buf : Z; yuv_u_phy_buf : Z; yuv_v_phy_buf : Z }.
Record JPEGDEC_PARAMS_T := MkDecParams {
  dp_format : Z; dp_width : Z; dp_height : Z; dp_stream_size : Z; src_buf : Z; src_phy_buf : Z;
  target_buf_Y : Z; target_phy_buf_Y : Z; target_buf_UV : Z; target_phy_buf_UV : Z; dp_slice_height : Z }.

(** [stream_size] of the encoder, [total_height] of the decoder, and
    [is_over]. *)
Record JPEGENC_SLICE_OUT_T := MkSliceOut { out_count : Z; is_over : bool }.

Inductive fw_call :=
| JPEGENC_Slice_Start (p : JPEGENC_PARAMS_T) | JPEGENC_Slice_Next (p : JPEGENC_SLICE_NEXT_T)
| JPEGDEC_Slice_Start (p : JPEGDEC_PARAMS_T) | JPEGDEC_Slice_Next (p : JPEGENC_SLICE_NEXT_T).
Definition firmware : Type := list fw_call -> Z * JPEGENC_SLICE_OUT_T.

Definition _quality_covert (quality : Z) : Z := JPEGENC_QUALITY_MIDDLE_LOW.

Definition ask (fw : firmware) (c : fw_call) (calls : list fw_call) : Z * JPEGENC_SLICE_OUT_T * list fw_call :=
  let calls := calls ++ [c] in let '(r, o) := fw calls in (r, o, calls).

(** ** Encoding *)
Section Encode.
Context (fw : firmware).

(** The slices of [_enc_start] after the first; [stops k] is what
    [jcontext.is_stop] is found to be before slice [k]. *)
Fixpoint frame_loop (n k : nat) (stops : nat -> bool) (slice : Z) (e : JPEG_ENC_T) (calls : list fw_call)
  : Z * JPEG_ENC_T * list fw_call :=
  match n with
  | O => (JPEG_CODEC_SUCCESS, e, calls)
  | S m =>
    if stops k then (JPEG_CODEC_ERROR, e, calls) else
    let off := cur_line_num e *u width (size e) in
    let p := MkSliceNext slice (addr_y (src_addr_phy e) +u off) (addr_u (src_addr_phy e) +u off / 2) 0 in
    let '(r, out, calls) := ask fw (JPEGENC_Slice_Next p) calls in
    if negb (r =? 0) && negb (r =? 1) then (JPEG_CODEC_ERROR, e, calls) else
    let e := set_line (cur_line_num e +u slice) e in
    if is_over out then (JPEG_CODEC_SUCCESS, set_done (out_count out) e, calls)
    else frame_loop m (S k) stops slice e calls
  end.

Definition enc_slice_height (e : JPEG_ENC_T) : Z :=
  if is_thumbnail e then height (size e)
  else if slice_height e =? height (size e) then JPEG_SLICE_HEIGHT else slice_height e.

Definition enc_params (e : JPEG_ENC_T) : JPEGENC_PARAMS_T :=
  MkEncParams JPEGENC_YUV_420 (width (size e)) (height (size e)) (enc_slice_height e)
    (MkAddr (addr_y (src_addr_phy e)) (addr_u (src_addr_phy e)) 0) (MkAddr (addr_y (src_addr_vir e)) (addr_u (src_addr_vir e)) 0)
    (stream_buf_vir e) (stream_buf_phy e) (stream_buf_size e) (_quality_covert (quality_level e)).

(** [None]: a division by a slice height of zero. *)
Definition _enc_start (malloced : bool) (stops : nat -> bool) (e : JPEG_ENC_T) (calls : list fw_call)
  : option (Z * JPEG_ENC_T * list fw_call) :=
  if negb malloced then Some (JPEG_CODEC_NO_MEM, e, calls) else
  let slice := enc_slice_height e in
  let '(r, out, calls) := ask fw (JPEGENC_Slice_Start (enc_params e)) calls in
  if negb (r =? 0) then Some (JPEG_CODEC_ERROR, e, calls) else
  let e := set_line slice e in
  if slice_height e =? height (size e) then
    if slice =? 0 then None else
    let slice_num := height (size e) / slice + (if height (size e) mod slice =? 0 then 0 else 1) - 1 in
    let '(r, e, calls) :=
      if slice_num =? 0 then (JPEG_CODEC_SUCCESS, set_done (out_count out) e, calls)
      else frame_loop (Z.to_nat (Z.max 1 slice_num)) 0 stops slice e calls in
    Some (r, set_id 0 e, calls)
  else Some (JPEG_CODEC_SUCCESS, set_id 0 e, calls).

Definition _enc_next (p : jpeg_enc_next_param) (e : JPEG_ENC_T) (calls : list fw_call) : Z * JPEG_ENC_T * list fw_call :=
  let h := height (size e) in
  let cur := cur_line_num e in
  if (ready_line_num p <? cur +u slice_height e) && negb (ready_line_num p =? h)
  then (JPEG_CODEC_ENC_WAIT_SRC, e, calls) else
  let slice :=
    if negb (addr_y (n_src_addr_phy p) =? 0) then Some (n_slice_height p, n_src_addr_phy p)
    else if h <=? cur then None
    else
      let s := if negb (n_slice_height p =? 0) then n_slice_height p else slice_height e in
      let s := if (ready_line_num p <? cur +u slice_height e) && (ready_line_num p =? h) then ready_line_num p -u cur else s in
      let off := cur *u width (size e) in
      Some (s, MkAddr (addr_y (src_addr_phy e) +u off) (addr_u (src_addr_phy e) +u off / 2) (addr_v (src_addr_phy e))) in
  match slice with
  | None => (JPEG_CODEC_ERROR, e, calls)
  | Some (s, a) =>
    let '(r, out, calls) := ask fw (JPEGENC_Slice_Next (MkSliceNext s (addr_y a) (addr_u a) (addr_v a))) calls in
    let ret := if r =? 0 then JPEG_CODEC_SUCCESS else JPEG_CODEC_ERROR in
    let e := set_slice s (set_line (cur +u s) e) in
    (ret, if cur_line_num e =? h then set_done (out_count out) e else e, calls)
  end.

(** The loop of the thread around it: [None] when the fuel is used up. *)
Fixpoint enc_next_loop (fuel : nat) (p : jpeg_enc_next_param) (e : JPEG_ENC_T) (calls : list fw_call)
  : option (Z * JPEG_ENC_T * list fw_call) :=
  match fuel with
  | O => None
  | S f =>
    let '(ret, e, calls) := _enc_next p e calls in
    if negb (ret =? JPEG_CODEC_SUCCESS) then Some (ret, e, calls)
    else if (height (size e) <=? ready_line_num p) && (cur_line_num e <? height (size e))
    then enc_next_loop f p e calls
    else Some (ret, e, calls)
  end.
End Encode.

(** ** The size in a finished stream *)

(** From the start of the stream to behind the SOF0 marker: the number of
    bytes, [Some None] when [jpg_size] bytes hold none, and [None] for a read
    behind the memory. *)
Fixpoint sof0_scan (l : list Z) (i jpg_size : Z) : option (option Z) :=
  match l with
  | [] => None
  | tmp1 :: r =>
    if tmp1 =? 0xff then
      match r with
      | [] => None
      | tmp2 :: r' =>
        if tmp2 =? 0xc0 then Some (Some (i + 2))
        else if i + 2 <? jpg_size then sof0_scan r' (i + 2) jpg_size else Some None
      end
    else if i + 1 <? jpg_size then sof0_scan r (i + 1) jpg_size else Some None
  end.

Definition adjust_jpg_resolution (m : list Z) (jpg_buf jpg_size w h : Z) : option (Z * list Z) :=
  found ← sof0_scan (drop (Z.to_nat jpg_buf) m) 0 jpg_size;
  match found with
  | None => Some (-1, m)
  | Some i =>
    m ← store m (jpg_buf + i + 3) [Z.land (Z.shiftr h 8) 0xff; Z.land h 0xff; Z.land (Z.shiftr w 8) 0xff; Z.land w 0xff];
    Some (0, m)
  end.

Record JPEG_ENC_CB_PARAM_T := MkEncCb {
  cb_stream_buf_phy : Z; cb_stream_buf_vir : Z; stream_size : Z; cb_slice_height : Z; total_height : Z; cb_is_thumbnail : bool }.

Definition _prc_enc_cbparam (thumbnail : bool) (e : JPEG_ENC_T) (m : list Z) : option (JPEG_ENC_CB_PARAM_T * list Z) :=
  let p := MkEncCb (stream_buf_phy e) (stream_buf_vir e) (stream_real_size e) (slice_height e) (cur_line_num e) thumbnail in
  if (cur_line_num e =? height (size e)) && negb thumbnail then
    '(_, m) ← adjust_jpg_resolution m (stream_buf_vir e) (stream_real_size e) (width (out_size e)) (height (out_size e));
    Some (p, m)
  else Some (p, m).

(** ** Decoding *)
Record JPEG_DEC_T := MkDecT {
  d_stream_buf_phy : Z; d_stream_buf_vir : Z; d_stream_buf_size : Z; d_size : img_size;
  d_slice_height : Z; d_set_slice_height : Z; d_slice_mod : Z;
  dst_addr_phy : img_addr; dst_addr_vir : img_addr; dst_endian : img_data_end; dst_fmt : Z;
  d_temp_buf_phy : Z; d_temp_buf_vir : Z; d_temp_buf_size : Z;
  d_cur_line_num : Z; handle_line_num : Z; d_is_finish : bool }.

Record jpeg_dec_in_param := MkDecIn {
  di_stream_buf_phy : Z; di_stream_buf_vir : Z; di_stream_buf_size : Z; di_size : img_size;
  di_slice_height : Z; di_slice_mod : Z; di_dst_addr_phy : img_addr; di_dst_addr_vir : img_addr;
  di_dst_endian : img_data_end; di_dst_fmt : Z; di_temp_buf_phy : Z; di_temp_buf_vir : Z; di_temp_buf_size : Z }.

Definition _get_dec_start_param (p : jpeg_dec_in_param) : JPEG_DEC_T :=
  MkDecT (di_stream_buf_phy p) (di_stream_buf_vir p) (di_stream_buf_size p) (di_size p)
    (di_slice_height p) 0 (di_slice_mod p) (di_dst_addr_phy p) (di_dst_addr_vir p) (di_dst_endian p) (di_dst_fmt p)
    (di_temp_buf_phy p) (di_temp_buf_vir p) (di_temp_buf_size p) 0 0 false.

Record jpeg_dec_next_param := MkDecNext {
  dn_handle : Z; dn_dst_addr_phy : img_addr; dn_dst_addr_vir : img_addr; dn_slice_height : Z }.

Definition set_progress (set_slice cur handled : Z) (fin : bool) (d : JPEG_DEC_T) : JPEG_DEC_T :=
  MkDecT (d_stream_buf_phy d) (d_stream_buf_vir d) (d_stream_buf_size d) (d_size d) (d_slice_height d) set_slice (d_slice_mod d)
    (dst_addr_phy d) (dst_addr_vir d) (dst_endian d) (dst_fmt d) (d_temp_buf_phy d) (d_temp_buf_vir d) (d_temp_buf_size d)
    cur handled fin.
Definition set_dst (phy vir : img_addr) (d : JPEG_DEC_T) : JPEG_DEC_T :=
  MkDecT (d_stream_buf_phy d) (d_stream_buf_vir d) (d_stream_buf_size d) (d_size d) (d_slice_height d) (d_set_slice_height d)
    (d_slice_mod d) phy vir (dst_endian d) (dst_fmt d) (d_temp_buf_phy d) (d_temp_buf_vir d) (d_temp_buf_size d)
    (d_cur_line_num d) (handle_line_num d) (d_is_finish d).

(** What the camera is told. *)
Inductive event :=
| CMR_JPEG_ENC_DONE (p : JPEG_ENC_CB_PARAM_T) | CMR_JPEG_ENC_ERR
| CMR_JPEG_DEC_DONE (slice_height total_height addr_phy_u addr_vir_u : Z) | CMR_JPEG_DEC_ERR.

(** The chrominance: every second line of the temporary buffer. *)
Fixpoint copy_uv (n : nat) (dst src w : Z) (m : list Z) : option (list Z) :=
  match n with
  | O => Some m
  | S k =>
    row ← load m src w;
    m ← store m dst row;
    copy_uv k (dst +u w) (src +u u32 (Z.shiftl w 1)) w m
  end.

(** On the context of the active handle. *)
Definition _dec_callback (d : JPEG_DEC_T) (m : list Z) : option (JPEG_DEC_T * list Z * list event) :=
  let last := height (d_size d) <? d_cur_line_num d +u d_set_slice_height d in
  let cpy_height := if last then height (d_size d) -u d_cur_line_num d else d_set_slice_height d in
  m ← copy_uv (Z.to_nat (Z.shiftr cpy_height 1)) (addr_u (dst_addr_vir d)) (d_temp_buf_vir d) (width (d_size d)) m;
  let total := d_cur_line_num d +u cpy_height in
  let d' := set_progress (d_set_slice_height d) total cpy_height (last || d_is_finish d) d in
  let ev := if negb (d_slice_height d =? height (d_size d)) || (total =? height (d_size d))
    then [CMR_JPEG_DEC_DONE cpy_height total (addr_u (dst_addr_phy d)) (addr_u (dst_addr_vir d))] else [] in
  Some (d', m, ev).

Section Decode.
Context (fw : firmware).

Definition dec_slice (d : JPEG_DEC_T) : Z :=
  if d_slice_height d =? height (d_size d) then JPEG_SLICE_HEIGHT else d_slice_height d.

(** [_dec_start] up to and with the first slice. *)
Definition dec_first (d : JPEG_DEC_T) (calls : list fw_call) : Z * JPEGENC_SLICE_OUT_T * JPEG_DEC_T * list fw_call :=
  let p := MkDecParams JPEGDEC_YUV_422 (width (d_size d)) (height (d_size d)) (d_stream_buf_size d) (d_stream_buf_vir d)
    (d_stream_buf_phy d) (addr_y (dst_addr_vir d)) (addr_y (dst_addr_phy d)) (d_temp_buf_vir d) (d_temp_buf_phy d) (dec_slice d) in
  let d := set_progress (dec_slice d) 0 (handle_line_num d) false d in
  let '(r, out, calls) := ask fw (JPEGDEC_Slice_Start p) calls in
  (if r =? 0 then JPEG_CODEC_SUCCESS else JPEG_CODEC_ERROR, out, d, calls).

Definition _dec_next (p : jpeg_dec_next_param) (d : JPEG_DEC_T) (calls : list fw_call) : Z * JPEG_DEC_T * list fw_call :=
  let one := addr_y (dn_dst_addr_phy p) =? 0 in
  let step := Z.shiftr (handle_line_num d *u width (d_size d)) 1 in
  let sl := if one then d_slice_height d else dn_slice_height p in
  let y := if one then addr_y (dst_addr_phy d) +u (d_cur_line_num d *u width (d_size d)) else addr_y (dn_dst_addr_phy p) in
  let d :=
    if one then set_dst (MkAddr (addr_y (dst_addr_phy d)) (addr_u (dst_addr_phy d) +u step) (addr_v (dst_addr_phy d)))
                        (MkAddr (addr_y (dst_addr_vir d)) (addr_u (dst_addr_vir d) +u step) (addr_v (dst_addr_vir d))) d
    else set_dst (MkAddr (addr_y (dst_addr_phy d)) (addr_u (dn_dst_addr_phy p)) (addr_v (dn_dst_addr_phy p)))
                 (MkAddr (addr_y (dst_addr_vir d)) (addr_u (dn_dst_addr_vir p)) (addr_v (dn_dst_addr_vir p))) d in
  let '(r, out, calls) := ask fw (JPEGDEC_Slice_Next (MkSliceNext sl y (d_temp_buf_phy d) 0)) calls in
  (if r =? 0 then JPEG_CODEC_SUCCESS else JPEG_CODEC_ERROR,
   if is_over out then set_progress (d_set_slice_height d) (d_cur_line_num d) (handle_line_num d) true d else d, calls).

(** The loop of [_dec_start] on a whole frame, the callback on the context it
    decodes.  The test is of [slice_out], which the loop does not change. *)
Inductive loop_result (A : Type) := Returns (a : A) | OutOfFuel | Undefined.
Arguments Returns {A} _.
Arguments OutOfFuel {A}.
Arguments Undefined {A}.

Fixpoint dec_loop (fuel : nat) (over : bool) (d : JPEG_DEC_T) (calls : list fw_call) (m : list Z)
  : loop_result (Z * JPEG_DEC_T * list fw_call * list Z * list event) :=
  match fuel with
  | O => OutOfFuel
  | S f =>
    if over then Returns (JPEG_CODEC_SUCCESS, d, calls, m, []) else
    match _dec_callback d m with
    | None => Undefined
    | Some (d, m, ev) =>
      let '(r, d, calls) := _dec_next (MkDecNext 0 (MkAddr 0 0 0) (MkAddr 0 0 0) JPEG_SLICE_HEIGHT) d calls in
      if negb (r =? JPEG_CODEC_SUCCESS) then Returns (JPEG_CODEC_ERROR, d, calls, m, ev)
      else match dec_loop f over d calls m with
           | Returns (r, d, calls, m, ev') => Returns (r, d, calls, m, ev ++ ev')
           | x => x
           end
    end
  end.

Definition _dec_start (fuel : nat) (d : JPEG_DEC_T) (calls : list fw_call) (m : list Z)
  : loop_result (Z * JPEG_DEC_T * list fw_call * list Z * list event) :=
  let '(ret, out, d, calls) := dec_first d calls in
  if (ret =? JPEG_CODEC_SUCCESS) && (d_slice_height d =? height (d_size d))
  then dec_loop fuel (is_over out) d calls m
  else Returns (ret, d, calls, m, []).
End Decode.
Arguments Returns {A} _.
Arguments OutOfFuel {A}.
Arguments Undefined {A}.

(** ** The size in the encoder's header *)
Lemma scan_skip l r i n :
  Forall (fun c => c <> 0xff) l -> i + zlen l < n -> sof0_scan (l ++ r) i n = sof0_scan r (i + zlen l) n.
Proof.
  intros F. revert i. induction F as [|c l Hc F IH]; intros i Hi; cbn [app length] in *; [f_equal; lia|].
  cbn [sof0_scan]. rewrite (proj2 (Z.eqb_neq c _)) by done. rewrite (proj2 (Z.ltb_lt (i + 1) n)) by lia.
  rewrite IH by lia. f_equal. lia.
Qed.
Lemma scan_marker c r i n :
  c <> 0xc0 -> i + 2 < n -> sof0_scan ([0xff; c] ++ r) i n = sof0_scan r (i + 2) n.
Proof.
  intros Hc Hi. cbn [app sof0_scan]. rewrite Z.eqb_refl, (proj2 (Z.eqb_neq c _)) by done. by rewrite (proj2 (Z.ltb_lt _ _)) by lia.
Qed.

(** No quantisation table of the encoder has a byte 0xff. *)
Lemma quant_tables_noff i t :
  jpeg_fw_lum_quant_tbl_default !! i = Some t \/ jpeg_fw_chr_quant_tbl_default !! i = Some t ->
  forallb (fun b => negb (b =? 0xff)) t = true.
Proof.
  assert (F : Forall (fun t => forallb (fun b => negb (b =? 0xff)) t = true) (jpeg_fw_lum_quant_tbl_default ++ jpeg_fw_chr_quant_tbl_default)).
  { apply List.Forall_forall. apply forallb_forall. vm_compute. reflexivity. }
  apply Forall_app in F as [F1 F2]. intros [H|H]; [apply (Forall_lookup_1 _ _ _ _ F1 H)|apply (Forall_lookup_1 _ _ _ _ F2 H)].
Qed.

Lemma zigzagged_noff q :
  length q = 64%nat -> forallb (fun b => negb (b =? 0xff)) q = true -> Forall (fun c => c <> 0xff) (zigzagged q).
Proof.
  intros L F. rewrite forallb_forall in F. unfold zigzagged. apply Forall_fmap, Forall_forall. intros k _. cbn.
  assert (I : In (nth (zigzag k) q 0) q) by (apply nth_In; rewrite L; apply zigzag_lt).
  specialize (F _ I). by destruct (Z.eqb_spec (nth (zigzag k) q 0) 255).
Qed.

(** The bytes in front of the size and behind it. *)
Definition before_size (ql qc : list Z) : list Z :=
  [0xff; M_SOI] ++ app0_bytes ++ dqt_bytes 0 ql ++ dqt_bytes 1 qc ++ [0xff; M_SOF0] ++ be16 17 ++ [8].
Definition after_size (hv ri : Z) : list Z :=
  [3; 1; hv; 0; 2; 0x11; 1; 3; 0x11; 1] ++
  (dht_bytes 0x00 lum_dc ++ dht_bytes 0x10 lum_ac ++ dht_bytes 0x01 chr_dc ++ dht_bytes 0x11 chr_ac) ++ dri_bytes ri ++ sos_bytes.

Lemma head_size_split h w hv ql qc ri :
  head_bytes h w hv ql qc ri = before_size ql qc ++ (be16 h ++ be16 w) ++ after_size hv ri.
Proof. unfold head_bytes, head_rest, before_size, after_size, sof_bytes. by rewrite <- !app_assoc. Qed.

Lemma dqt_length id q : length (dqt_bytes id q) = 69%nat.
Proof. unfold dqt_bytes, zigzagged. rewrite !length_app, length_fmap, length_seq. reflexivity. Qed.
Lemma before_size_length ql qc : length (before_size ql qc) = 163%nat.
Proof. unfold before_size. rewrite !length_app, !dqt_length. reflexivity. Qed.

Lemma scan_head ql qc r n :
  Forall (fun c => c <> 0xff) (zigzagged ql) -> Forall (fun c => c <> 0xff) (zigzagged qc) -> 160 <= n ->
  sof0_scan (before_size ql qc ++ r) 0 n = Some (Some 160).
Proof.
  intros Fl Fc Hn.
  assert (D : forall id q s i, 0 <= id < 2 -> Forall (fun c => c <> 0xff) (zigzagged q) -> i + 69 < n ->
    sof0_scan (dqt_bytes id q ++ s) i n = sof0_scan s (i + 69) n).
  { intros id q s i Hid F Hi. unfold dqt_bytes. rewrite <- !app_assoc. rewrite scan_marker by (done || lia).
    assert (Lz : length (zigzagged q) = 64%nat) by (unfold zigzagged; by rewrite length_fmap, length_seq).
    change (be16 67) with [0; 67]. change ([0; 67] ++ [id] ++ zigzagged q ++ s) with ((0 :: 67 :: id :: zigzagged q) ++ s).
    rewrite scan_skip; [cbn [length]; rewrite Lz; f_equal; lia| |cbn [length]; rewrite Lz; lia].
    repeat (constructor; [lia|]). done. }
  unfold before_size. change app0_bytes with ([0xff; M_APP0] ++ [0; 16; 0x4a; 0x46; 0x49; 0x46; 0; 1; 1; 0; 0; 1; 0; 1; 0; 0]).
  rewrite <- !app_assoc. rewrite (scan_marker M_SOI) by (done || lia).
  rewrite (scan_marker M_APP0) by (done || lia).
  rewrite scan_skip; [|repeat (constructor; [done|]); constructor|cbn; lia].
  change (0 + 2 + 2 + zlen _) with 20. rewrite (D 0 ql), (D 1 qc) by (done || lia). reflexivity.
Qed.

Lemma size_bytes v : 0 <= v < 2 ^ 16 -> [Z.land (Z.shiftr v 8) 0xff; Z.land v 0xff] = be16 v.
Proof.
  intros H. change 0xff with (Z.ones 8). rewrite !Z.land_ones, Z.shiftr_div_pow2 by lia. unfold be16.
  rewrite (Z.mod_small (v / 2 ^ 8)) by zlia. done.
Qed.

Lemma adjust_head pre h w hv ql qc ri post n w' h' :
  Forall (fun c => c <> 0xff) (zigzagged ql) -> Forall (fun c => c <> 0xff) (zigzagged qc) -> 160 <= n ->
  0 <= w' < 2 ^ 16 -> 0 <= h' < 2 ^ 16 ->
  adjust_jpg_resolution (pre ++ head_bytes h w hv ql qc ri ++ post) (zlen pre) n w' h' =
    Some (0, pre ++ head_bytes h' w' hv ql qc ri ++ post).
Proof.
  intros Fl Fc Hn Hw Hh. unfold adjust_jpg_resolution. rewrite Nat2Z.id, drop_app_0, !head_size_split, <- !app_assoc.
  rewrite scan_head by done. cbn [mbind option_bind].
  change [Z.land (Z.shiftr h' 8) 255; Z.land h' 255; Z.land (Z.shiftr w' 8) 255; Z.land w' 255]
    with ([Z.land (Z.shiftr h' 8) 255; Z.land h' 255] ++ [Z.land (Z.shiftr w' 8) 255; Z.land w' 255]).
  rewrite !size_bytes by done. pose proof (before_size_length ql qc) as L.
  rewrite !(app_assoc pre), !(app_assoc (be16 _) (be16 _)).
  rewrite (store_mid (pre ++ before_size ql qc)); [done|rewrite length_app; lia|done].
Qed.

(** C11: a finished picture is announced with the size the camera asked for.
    When the last slice is encoded, the stream in memory starts with the
    encoder's header; [_prc_enc_cbparam] finds its frame header, whatever the
    quality level, and changes the four bytes of the height and the width there
    to those of [out_size] and no other byte of the memory, and the decoder
    reads this size from the changed header.  (Sizes below 65536; the bitstream
    module does not time out.) *)
Theorem adjusted_picture_decodes out ready p e0 ws e data addr dsize s fuel ec pre post :
  BitstreamModule out -> (forall n, ready n = true) ->
  JPEG_HWEncInit p e0 = (Ok ws, e) ->
  0 <= p_width p < 2 ^ 16 -> 0 <= p_height p < 2 ^ 16 -> 0 <= mcu_info_0 p < 2 ^ 8 ->
  0 <= p_restart_interval p < 2 ^ 16 ->
  zlen (snd (encode_head out ready e) ++ data) < 2 ^ 32 ->
  0 < addr -> addr + 3 < 2 ^ 32 -> 2420 <= dsize < 2 ^ 32 ->
  is_u32 (input_width s) -> is_u32 (input_height s) -> (10 < fuel)%nat ->
  cur_line_num ec = height (size ec) -> stream_buf_vir ec = zlen pre ->
  stream_real_size ec = zlen (snd (encode_head out ready e) ++ data) ->
  0 <= width (out_size ec) < 2 ^ 16 -> 0 <= height (out_size ec) < 2 ^ 16 ->
  exists head head' cb s', encode_head out ready e = (Ok tt, head) /\
    (exists a z, head = a ++ (be16 (e_height e) ++ be16 (e_width e)) ++ z /\
       head' = a ++ (be16 (height (out_size ec)) ++ be16 (width (out_size ec))) ++ z /\ length a = 163%nat) /\
    _prc_enc_cbparam false ec (pre ++ head ++ data ++ post) = Some (cb, pre ++ head' ++ data ++ post) /\
    stream_size cb = zlen (head' ++ data) /\
    JPEG_FWParseHead fuel (InMemory (head' ++ data) (zlen (head' ++ data))) addr dsize s = (Ok tt, s', zlen head') /\
    input_width s' = width (out_size ec) /\ input_height s' = height (out_size ec).
Proof.
  intros Ho Hready Hi Hw Hh Hm Hri Hlen Ha Ha' Hs Hiw Hih Hfuel Ec Ev Es Hw' Hh'.
  destruct (encoded_head out ready p e0 ws e addr dsize s) as (hr & vr & ql & qc & He & _ & (Tl & Tc) & Ee & Hx); auto.
  assert (Lq : length ql = 64%nat /\ length qc = 64%nat) by (destruct He as [_ _ _ _ _ _ _ _ [? _] [? _]]; done).
  pose proof (zigzagged_noff ql (proj1 Lq) (quant_tables_noff _ _ (or_introl Tl))) as Fl.
  pose proof (zigzagged_noff qc (proj2 Lq) (quant_tables_noff _ _ (or_intror Tc))) as Fc.
  rewrite Ee in Hlen, Es. cbn [snd] in Hlen, Es. set (hv := Z.lor _ _) in *. set (ri := e_restart_interval e) in *.
  assert (L : forall h w, length (head_bytes h w hv ql qc ri) = (167 + length (after_size hv ri))%nat).
  { intros h w. rewrite head_size_split, !length_app, before_size_length. cbn [be16 length]. lia. }
  exists (head_bytes (e_height e) (e_width e) hv ql qc ri), (head_bytes (height (out_size ec)) (width (out_size ec)) hv ql qc ri).
  destruct fuel as [|f]; [lia|]. eexists _, _. split; [done|].
  split; [exists (before_size ql qc), (after_size hv ri); rewrite before_size_length; by rewrite !head_size_split|].
  rewrite length_app, L in Hlen, Es. split; [|split; [|split]].
  - unfold _prc_enc_cbparam. rewrite Ec, Z.eqb_refl. cbn [andb negb]. rewrite Ev, adjust_head by (done || lia). done.
  - cbn [stream_size]. rewrite Es, length_app, L. done.
  - destruct (rest_end (height (out_size ec)) (width (out_size ec)) hv ql qc ri) as [pe Hpe].
    apply (parse_mem_head _ _ _ _ _ _ (0xff :: M_SOI :: pe) data (start_state addr dsize s)); [|done| |done|lia|done|].
    + unfold head_bytes. by rewrite Hpe.
    + rewrite length_app, L. lia.
    + unfold head_bytes. rewrite <- app_assoc. cbn [app]. rewrite exec_soi. apply Hx; [lia|done|done].
  - apply after_head_size.
Qed.

(** ** The slices of a picture *)

(** Consecutive pieces of the lines from [a] to [b]. *)
Fixpoint tiles (a b : Z) (cuts : list (Z * Z)) : Prop :=
  match cuts with
  | [] => a = b
  | (x, n) :: r => x = a /\ 0 < n /\ tiles (a + n) b r
  end.

Definition slice_call (a : img_addr) (w : Z) (cut : Z * Z) : fw_call :=
  JPEGENC_Slice_Next (MkSliceNext (snd cut) (addr_y a + fst cut * w) (addr_u a + fst cut * w / 2) (addr_v a)).

(** The whole picture lies within the address space. *)
Record picture_ok (e : JPEG_ENC_T) : Prop := {
  pk_slice : 0 < slice_height e;
  pk_height : 0 <= height (size e) /\ height (size e) + slice_height e < 2 ^ 32;
  pk_width : 0 <= width (size e);
  pk_addr : 0 <= addr_y (src_addr_phy e) /\ 0 <= addr_u (src_addr_phy e);
  pk_y : addr_y (src_addr_phy e) + height (size e) * width (size e) < 2 ^ 32;
  pk_u : addr_u (src_addr_phy e) + height (size e) * width (size e) < 2 ^ 32 }.

Section Slices.
Context (fw : firmware) (p : jpeg_enc_next_param).
Hypothesis Hfw : forall l, fst (fw l) = 0.
Hypothesis Haddr : addr_y (n_src_addr_phy p) = 0.

(** The height of the slices: the message's, or without one the context's. *)
Definition wanted (e : JPEG_ENC_T) : Z := if n_slice_height p =? 0 then slice_height e else n_slice_height p.
(** The first slice does not go over the end of the picture. *)
Record message_ok (e : JPEG_ENC_T) : Prop := {
  mk_slice : 0 <= n_slice_height p;
  mk_height : height (size e) + n_slice_height p < 2 ^ 32;
  mk_first : cur_line_num e + wanted e <= height (size e) \/ height (size e) < cur_line_num e + slice_height e }.

(** One slice, from the current line on. *)
Lemma enc_next_slice e calls :
  picture_ok e -> message_ok e -> ready_line_num p = height (size e) -> 0 <= cur_line_num e < height (size e) ->
  exists n, 0 < n <= Z.max (slice_height e) (n_slice_height p) /\ cur_line_num e + n <= height (size e) /\
    let calls' := calls ++ [slice_call (src_addr_phy e) (width (size e)) (cur_line_num e, n)] in
    let last := cur_line_num e + n =? height (size e) in
    let e1 := set_slice n (set_line (cur_line_num e + n) e) in
    (n = wanted e \/ last = true) /\
    _enc_next fw p e calls = (JPEG_CODEC_SUCCESS, if last then set_done (out_count (snd (fw calls'))) e1 else e1, calls').
Proof.
  intros [K1 K2 K3 K4 K5 K6] [L1 L2 L3] Hr Hc. set (cur := cur_line_num e) in *. set (h := height (size e)) in *. set (w := width (size e)) in *.
  assert (M : 0 <= cur * w <= h * w) by nia.
  assert (Wn : 0 < wanted e <= Z.max (slice_height e) (n_slice_height p)) by (unfold wanted; destruct (Z.eqb_spec (n_slice_height p) 0); lia).
  exists (if h <? cur + slice_height e then h - cur else wanted e).
  assert (B : h * w < 2 ^ 32) by lia. assert (D : 0 <= cur * w / 2 <= cur * w) by zlia.
  unfold _enc_next. fold cur h w. rewrite Hr, Haddr, Z.eqb_refl. cbn [negb]. rewrite andb_false_r.
  replace (if negb (n_slice_height p =? 0) then n_slice_height p else slice_height e) with (wanted e) by (unfold wanted; by destruct (_ =? _)).
  rewrite (proj2 (Z.leb_gt h cur)) by lia. rewrite (u32_small (cur + _)), (u32_small (h - cur)) by (unfold is_u32; lia).
  rewrite (u32_small (cur * w)), (u32_small (addr_y _ + _)), (u32_small (addr_u _ + _)) by (unfold is_u32; lia).
  rewrite andb_true_r. unfold ask, slice_call. cbn [fst snd addr_y addr_u addr_v Z.eqb negb].
  destruct (Z.ltb_spec h (cur + slice_height e)) as [Hl|Hl].
  - split; [lia|]. split; [lia|]. cbv zeta. rewrite (proj2 (Z.eqb_eq (cur + _) h)) by lia. split; [by right|].
    rewrite (surjective_pairing (fw _)), Hfw. cbn iota. rewrite (u32_small (cur + _)) by (unfold is_u32; lia).
    cbn [cur_line_num set_slice set_line]. rewrite (proj2 (Z.eqb_eq (cur + _) h)) by lia. done.
  - split; [lia|]. split; [lia|]. cbv zeta. split; [by left|].
    rewrite (surjective_pairing (fw _)), Hfw. cbn iota. rewrite (u32_small (cur + _)) by (unfold is_u32; lia). done.
Qed.

(** C12: once the whole picture is there, the thread encodes the rest of it in
    slices that cover every line exactly once.  However many lines are left,
    one message without an address of its own (as the camera sends it) makes
    the calls of the firmware for consecutive slices, each at the address of
    its first line and none longer than the larger of the slice heights of the
    message and of the context; the loop ends, the context is finished at the last line, and
    the size of the stream is the firmware's answer to the last call.  The
    firmware has to take every slice, the picture has to lie in the 32-bit
    address space, and the height in the message must not lead over the end of
    the picture where the context's does not. *)
Theorem enc_slices_cover e calls fuel :
  picture_ok e -> message_ok e -> ready_line_num p = height (size e) -> 0 <= cur_line_num e < height (size e) ->
  (Z.to_nat (height (size e) - cur_line_num e) <= fuel)%nat ->
  exists cuts e', enc_next_loop fw fuel p e calls = Some (JPEG_CODEC_SUCCESS, e', calls ++ (slice_call (src_addr_phy e) (width (size e)) <$> cuts)) /\
    tiles (cur_line_num e) (height (size e)) cuts /\ Forall (fun c => snd c <= Z.max (slice_height e) (n_slice_height p)) cuts /\
    is_finish e' = true /\ cur_line_num e' = height (size e) /\
    stream_real_size e' = out_count (snd (fw (calls ++ (slice_call (src_addr_phy e) (width (size e)) <$> cuts)))).
Proof.
  revert e calls. induction fuel as [|f IH]; intros e calls K M Hr Hc Hf; [lia|].
  destruct (enc_next_slice e calls K M Hr Hc) as (n & Hn & Hh & HL & E). cbn [enc_next_loop]. rewrite E. clear E.
  set (c := slice_call _ _ _) in *. destruct (Z.eqb_spec (cur_line_num e + n) (height (size e))) as [El|Nl].
  - exists [(cur_line_num e, n)], (set_done (out_count (snd (fw (calls ++ [c])))) (set_slice n (set_line (cur_line_num e + n) e))).
    cbn [negb Z.eqb JPEG_CODEC_SUCCESS]. cbn [height size set_done set_slice set_line cur_line_num]. rewrite Z.ltb_irrefl, andb_false_r.
    split; [done|]. split; [cbn; lia|]. split; [constructor; [cbn; lia|constructor]|]. done.
  - destruct HL as [En|[=]]. cbn [negb Z.eqb JPEG_CODEC_SUCCESS]. set (e1 := set_slice _ _).
    change (height (size e1)) with (height (size e)). change (cur_line_num e1) with (cur_line_num e + n).
    rewrite Hr, Z.leb_refl, (proj2 (Z.ltb_lt _ _)) by lia. cbn [andb].
    assert (K1 : picture_ok e1) by (destruct K, M; split; try done; unfold e1; cbn [slice_height set_slice set_line size]; lia).
    assert (M1 : message_ok e1).
    { destruct M as [M1 M2 _]. split; [done|done|]. unfold wanted in *. change (slice_height e1) with n. change (cur_line_num e1) with (cur_line_num e + n).
      change (size e1) with (size e). destruct (Z.eqb_spec (n_slice_height p) 0); lia. }
    destruct (IH e1 (calls ++ [c]) K1 M1 Hr) as (cuts & e' & R & T & F & D1 & D2 & D3);
      [unfold e1; cbn [cur_line_num set_slice set_line size]; lia|unfold e1; cbn [cur_line_num set_slice set_line size]; lia|].
    exists ((cur_line_num e, n) :: cuts), e'. cbn [fmap list_fmap].
    change (src_addr_phy e1) with (src_addr_phy e) in *. change (width (size e1)) with (width (size e)) in *.
    rewrite <- app_assoc in R, D3. split; [exact R|]. split; [|split].
    + cbn [tiles]. split; [done|]. split; [lia|exact T].
    + constructor; [cbn; lia|]. eapply Forall_impl; [|exact F]. intros x Hx. cbn in Hx |- *. change (slice_height e1) with n in Hx. lia.
    + split; [exact D1|]. split; [exact D2|exact D3].
Qed.

(** A height in the message that leads over the end of the picture where the
    context's does not: the call succeeds, the picture is never finished. *)
Lemma enc_next_overshoots e calls :
  picture_ok e -> ready_line_num p = height (size e) -> 0 <= cur_line_num e ->
  cur_line_num e + slice_height e <= height (size e) < cur_line_num e + n_slice_height p -> cur_line_num e + n_slice_height p < 2 ^ 32 ->
  exists e' calls', _enc_next fw p e calls = (JPEG_CODEC_SUCCESS, e', calls') /\ is_finish e' = is_finish e /\ height (size e') < cur_line_num e'.
Proof.
  intros [K1 K2 K3 K4 K5 K6] Hr Hc Ho Hb. unfold _enc_next. rewrite Hr, Haddr, Z.eqb_refl. cbn [negb]. rewrite andb_false_r.
  rewrite (proj2 (Z.leb_gt _ _)) by lia. rewrite (u32_small (cur_line_num e + slice_height e)) by (unfold is_u32; lia).
  rewrite (proj2 (Z.ltb_ge _ _)) by lia. cbn [andb]. rewrite (proj2 (Z.eqb_neq (n_slice_height p) 0)) by lia. unfold ask. cbn [fst snd addr_y addr_u addr_v Z.eqb negb].
  rewrite (surjective_pairing (fw _)), Hfw. cbn iota. rewrite (u32_small (cur_line_num e + _)) by (unfold is_u32; lia).
  cbn [cur_line_num set_slice set_line Z.eqb]. rewrite (proj2 (Z.eqb_neq _ _)) by lia. eexists _, _. split; [reflexivity|]. split; [done|cbn; lia].
Qed.
End Slices.

(** A VGA picture of which the first slice of 16 lines is encoded. *)
Definition sample_context : JPEG_ENC_T :=
  MkEncT 0 (MkSize 640 480) (MkSize 480 320) 16 0 (MkAddr 0x1000 0x100000 0) (MkAddr 0x1000 0x100000 0) (MkEnd 0 0) 80
    0x200000 5 100000 0 0 0 0 16 0 false false.
Definition sample_fw : firmware := fun l => (0, MkSliceOut (zlen l) false).

Lemma enc_slices_cover_witness :
  exists cuts e', enc_next_loop sample_fw 464 (MkEncNext 0 (MkAddr 0 0 0) (MkAddr 0 0 0) 32 480) sample_context [] =
      Some (JPEG_CODEC_SUCCESS, e', slice_call (MkAddr 0x1000 0x100000 0) 640 <$> cuts) /\
    tiles 16 480 cuts /\ is_finish e' = true.
Proof.
  destruct (enc_slices_cover sample_fw (MkEncNext 0 (MkAddr 0 0 0) (MkAddr 0 0 0) 32 480) (fun _ => eq_refl) eq_refl
    sample_context [] 464) as (cuts & e' & R & T & _ & F & _).
  - split; cbn; lia.
  - split; cbn; lia.
  - reflexivity.
  - cbn; lia.
  - cbn; lia.
  - exists cuts, e'. split; [exact R|]. split; [exact T|exact F].
Defined.

Definition sample_finished : JPEG_ENC_T := set_done 632 sample_context.

Lemma adjusted_picture_decodes_witness :
  exists head head' cb s', encode_head ref_out (fun _ => true) sample_enc = (Ok tt, head) /\
    _prc_enc_cbparam false sample_finished ([7; 7; 7; 7; 7] ++ head ++ [1; 2; 3] ++ [9]) =
      Some (cb, [7; 7; 7; 7; 7] ++ head' ++ [1; 2; 3] ++ [9]) /\
    JPEG_FWParseHead 11 (InMemory (head' ++ [1; 2; 3]) (zlen (head' ++ [1; 2; 3]))) 4096 4096 idle_dec = (Ok tt, s', zlen head') /\
    input_width s' = 480 /\ input_height s' = 320.
Proof.
  destruct (adjusted_picture_decodes ref_out (fun _ => true) sample_para idle_enc sample_words sample_enc [1; 2; 3] 4096 4096 idle_dec 11
    sample_finished [7; 7; 7; 7; 7] [9]) as (head & head' & cb & s' & E & _ & A & _ & P & Pw & Ph).
  1: exact ref_out_module.
  1: reflexivity.
  1: vm_compute; reflexivity.
  1-4: split; [discriminate|reflexivity].
  1: vm_compute; reflexivity.
  1-2: reflexivity.
  1-3: split; [discriminate|reflexivity].
  1: apply Nat.ltb_lt; reflexivity.
  1-2: reflexivity.
  1: vm_compute; reflexivity.
  1-2: split; [discriminate|reflexivity].
  exists head, head', cb, s'. split; [exact E|]. split; [exact A|]. split; [exact P|]. split; [exact Pw|exact Ph].
Defined.

(** ** Loops that do not end as they should *)

(** A slice height of zero with an address of its own is encoded for ever. *)
Lemma enc_next_spins fw p e calls fuel :
  (forall l, fst (fw l) = 0) -> addr_y (n_src_addr_phy p) <> 0 -> n_slice_height p = 0 ->
  ready_line_num p = height (size e) -> 0 <= cur_line_num e < height (size e) -> height (size e) < 2 ^ 32 ->
  enc_next_loop fw fuel p e calls = None.
Proof.
  intros Hfw Ha Hs Hr Hc Hh. revert e calls Hr Hc Hh. induction fuel as [|f IH]; intros e calls Hr Hc Hh; [done|].
  cbn [enc_next_loop]. unfold _enc_next. rewrite Hr, Z.eqb_refl, andb_false_r, (proj2 (Z.eqb_neq _ 0)), Hs by done.
  cbn [negb]. unfold ask. rewrite (surjective_pairing (fw _)), Hfw. cbn [Z.eqb]. cbn [cur_line_num set_slice set_line].
  rewrite Z.add_0_r, (u32_small (cur_line_num e)) by (unfold is_u32; lia).
  rewrite (proj2 (Z.eqb_neq (cur_line_num e) _)) by lia. cbn [Z.eqb JPEG_CODEC_SUCCESS negb].
  set (e1 := set_slice 0 _). change (height (size e1)) with (height (size e)). change (cur_line_num e1) with (cur_line_num e).
  rewrite Z.leb_refl, (proj2 (Z.ltb_lt _ _)) by lia. cbn [andb]. by apply IH.
Qed.

(** A frame whose first slice is not the last one is never decoded with
    success: the loop waits for a flag that it does not set. *)
Lemma dec_frame_no_success fw fuel d calls m r d' calls' m' ev :
  dec_loop fw fuel false d calls m = Returns (r, d', calls', m', ev) -> r = JPEG_CODEC_ERROR.
Proof.
  revert d calls m r d' calls' m' ev. induction fuel as [|f IH]; intros d calls m r d' calls' m' ev; [done|].
  cbn [dec_loop]. destruct (_dec_callback d m) as [[[d1 m1] ev1]|]; [|done].
  destruct (_dec_next fw _ d1 calls) as [[r1 d2] calls1]. destruct (negb _); [by intros [= <-]|].
  destruct (dec_loop fw f false d2 calls1 m1) as [[[[[? ?] ?] ?] ?]| |] eqn:E; [|done|done].
  intros [= <- <- <- <- <-]. by eapply IH.
Qed.
