(* ===== verification/JpegThread.v ===== *)
(** The JPEG thread of the camera and its caller:
    common/libs/libcamera/sc8830/src/jpeg_codec.c, [_thread_proc] and the
    functions of its interface.

    The caller and the thread share the context [jcontext], the queue and the
    objects that handles point to.  A step of the caller is the part of a
    function up to the next access that the thread can see or to a semaphore;
    a step of the thread is the handling of one message.  [is_stop], which a
    running encoder looks at, is an argument of the handler.  The queue is the
    first-in first-out queue that CmrMsg.v shows cmr_msg.c to be; of its forty
    slots one stays free. *)
From S2P Require Import Prelude JpegCodec.
From S2P Require ExifImage.

Definition JPEG_MSG_QUEUE_SIZE : Z := 40.

Record JPEG_HANDLE_T := MkHandle { h_handle : Z; h_type : Z }.

(** The messages by their type; the parameters of the requests that allocate
    a copy of them are part of the message. *)
Inductive jmsg :=
| JPEG_EVT_ENC_START (cxt : Z) | JPEG_EVT_ENC_NEXT (p : jpeg_enc_next_param)
| JPEG_EVT_DEC_START (cxt : Z) | JPEG_EVT_DEC_NEXT (p : jpeg_dec_next_param)
| JPEG_EVT_STOP (handle : Z) | JPEG_EVT_KILL
| JPEG_EVT_ENC_EXIF (p : ExifImage.jpeg_enc_exif_param) | JPEG_EVT_ENC_THUMB (cxt : Z).

(** [handles] holds [None] for a handle that is allocated but not filled in. *)
Record jstate := MkJ {
  queue : list jmsg; active_handle : Z; is_stop : bool; is_exit_thread : bool; stop_sem : nat; sync_sem : nat;
  handles : gmap Z (option JPEG_HANDLE_T); encs : gmap Z JPEG_ENC_T; decs : gmap Z JPEG_DEC_T;
  s_exif_output : ExifImage.JINF_WEXIF_OUT_PARAM_T; s_thumbnail : Z;
  calls : list fw_call; mem : list Z; events : list event }.

Definition set_queue q s := MkJ q (active_handle s) (is_stop s) (is_exit_thread s) (stop_sem s) (sync_sem s) (handles s) (encs s)
  (decs s) (s_exif_output s) (s_thumbnail s) (calls s) (mem s) (events s).
Definition set_active a s := MkJ (queue s) a (is_stop s) (is_exit_thread s) (stop_sem s) (sync_sem s) (handles s) (encs s)
  (decs s) (s_exif_output s) (s_thumbnail s) (calls s) (mem s) (events s).
Definition set_stop b s := MkJ (queue s) (active_handle s) b (is_exit_thread s) (stop_sem s) (sync_sem s) (handles s) (encs s)
  (decs s) (s_exif_output s) (s_thumbnail s) (calls s) (mem s) (events s).
Definition set_exit s := MkJ (queue s) (active_handle s) (is_stop s) true (stop_sem s) (sync_sem s) (handles s) (encs s)
  (decs s) (s_exif_output s) (s_thumbnail s) (calls s) (mem s) (events s).
Definition set_sems a b s := MkJ (queue s) (active_handle s) (is_stop s) (is_exit_thread s) a b (handles s) (encs s)
  (decs s) (s_exif_output s) (s_thumbnail s) (calls s) (mem s) (events s).
Definition set_handles h s := MkJ (queue s) (active_handle s) (is_stop s) (is_exit_thread s) (stop_sem s) (sync_sem s) h (encs s)
  (decs s) (s_exif_output s) (s_thumbnail s) (calls s) (mem s) (events s).
Definition set_encs e s := MkJ (queue s) (active_handle s) (is_stop s) (is_exit_thread s) (stop_sem s) (sync_sem s) (handles s) e
  (decs s) (s_exif_output s) (s_thumbnail s) (calls s) (mem s) (events s).
Definition set_decs d s := MkJ (queue s) (active_handle s) (is_stop s) (is_exit_thread s) (stop_sem s) (sync_sem s) (handles s) (encs s)
  d (s_exif_output s) (s_thumbnail s) (calls s) (mem s) (events s).
Definition set_exif x s := MkJ (queue s) (active_handle s) (is_stop s) (is_exit_thread s) (stop_sem s) (sync_sem s) (handles s) (encs s)
  (decs s) x (s_thumbnail s) (calls s) (mem s) (events s).
Definition set_thumb t s := MkJ (queue s) (active_handle s) (is_stop s) (is_exit_thread s) (stop_sem s) (sync_sem s) (handles s) (encs s)
  (decs s) (s_exif_output s) t (calls s) (mem s) (events s).
Definition set_outside c m ev s := MkJ (queue s) (active_handle s) (is_stop s) (is_exit_thread s) (stop_sem s) (sync_sem s) (handles s)
  (encs s) (decs s) (s_exif_output s) (s_thumbnail s) c m (events s ++ ev).

(** What the environment decides while a message is handled. *)
Record luck := MkLuck { l_malloc : bool; l_stops : nat -> bool; l_temp : option (list Z); l_fuel : nat }.

(** How the handling ends: with a state; with an access to an object that is
    not there; with a callback on the context of another request; with an
    access outside the memory that the caller's addresses name, or a division
    by zero; in a loop that [l_fuel] rounds do not finish. *)
Inductive turn_result := Fine (s : jstate) | Dangling | Crossed | Wild | Spins.

(** ** The thread *)
Definition handle_of (h : Z) (s : jstate) : option JPEG_HANDLE_T := o ← handles s !! h; o.

Definition _jpeg_stop (handle : Z) (s : jstate) : turn_result :=
  if handle =? 0 then Fine s else
  match handle_of handle s with
  | None => Dangling
  | Some h =>
    if h_type h =? 0 then
      if negb (h_handle h =? 0) && bool_decide (encs s !! h_handle h = None) then Dangling
      else Fine (set_active 0 (set_handles (delete handle (handles s)) (set_encs (delete (h_handle h) (encs s)) s)))
    else if h_type h =? 1 then
      if negb (h_handle h =? 0) && bool_decide (decs s !! h_handle h = None) then Dangling
      else Fine (set_active 0 (set_handles (delete handle (handles s)) (set_decs (delete (h_handle h) (decs s)) s)))
    else Fine s
  end.

Section Thread.
Context (fw : firmware).

Definition enc_done (thumbnail : bool) (e : JPEG_ENC_T) (s : jstate) : turn_result :=
  match _prc_enc_cbparam thumbnail e (mem s) with
  | Some (p, m) =>
    if thumbnail then Fine (set_thumb (stream_size p) (set_outside (calls s) m [] s))
    else Fine (set_outside (calls s) m [CMR_JPEG_ENC_DONE p] s)
  | None => Wild
  end.

(** [_dec_callback] goes through [jcontext.active_handle]. *)
Definition active_dec (s : jstate) : option Z :=
  h ← handle_of (active_handle s) s; _ ← decs s !! h_handle h; Some (h_handle h).

Definition dec_done (s : jstate) : turn_result :=
  match active_dec s with
  | None => Dangling
  | Some c =>
    match d ← decs s !! c; _dec_callback d (mem s) with
    | Some (d, m, ev) => Fine (set_outside (calls s) m ev (set_decs (<[c := d]> (decs s)) s))
    | None => Wild
    end
  end.

Definition on_dec_start (o : luck) (c : Z) (d : JPEG_DEC_T) (s : jstate) : turn_result :=
  let '(ret, _, d1, cs1) := dec_first fw d (calls s) in
  if negb (ret =? JPEG_CODEC_SUCCESS) then
    Fine (set_outside cs1 (mem s) [CMR_JPEG_DEC_ERR] (set_decs (<[c := d1]> (decs s)) s))
  else match active_dec s with
  | None => Dangling
  | Some c' =>
    if negb (c' =? c) then Crossed else
    match _dec_start fw (l_fuel o) d (calls s) (mem s) with
    | Undefined => Wild
    | OutOfFuel => Spins
    | Returns (ret, d, cs, m, ev) =>
      let s := set_outside cs m ev (set_decs (<[c := d]> (decs s)) s) in
      if ret =? JPEG_CODEC_SUCCESS then dec_done s else Fine (set_outside cs m [CMR_JPEG_DEC_ERR] s)
    end
  end.

Definition on_dec_next (p : jpeg_dec_next_param) (s : jstate) : turn_result :=
  match h ← handle_of (dn_handle p) s; d ← decs s !! h_handle h; Some (h_handle h, d) with
  | None => Dangling
  | Some (c, d) =>
    let '(ret, d, cs) := _dec_next fw p d (calls s) in
    let s := set_outside cs (mem s) [] (set_decs (<[c := d]> (decs s)) s) in
    if ret =? JPEG_CODEC_SUCCESS then dec_done s else Fine (set_outside cs (mem s) [CMR_JPEG_DEC_ERR] s)
  end.

Definition on_enc_start (o : luck) (c : Z) (s : jstate) : turn_result :=
  match encs s !! c with
  | None => Dangling
  | Some e =>
    match _enc_start fw (l_malloc o) (l_stops o) e (calls s) with
    | None => Wild
    | Some (ret, e, cs) =>
      let s := set_outside cs (mem s) [] (set_encs (<[c := e]> (encs s)) s) in
      if ret =? JPEG_CODEC_SUCCESS then enc_done false e s else Fine (set_outside cs (mem s) [CMR_JPEG_ENC_ERR] s)
    end
  end.

Definition on_enc_next (o : luck) (p : jpeg_enc_next_param) (s : jstate) : turn_result :=
  match h ← handle_of (n_handle p) s; e ← encs s !! h_handle h; Some (h_handle h, e) with
  | None => Dangling
  | Some (c, e) =>
    match enc_next_loop fw (l_fuel o) p e (calls s) with
    | None => Spins
    | Some (ret, e, cs) =>
      let s := set_outside cs (mem s) [] (set_encs (<[c := e]> (encs s)) s) in
      if ret =? JPEG_CODEC_ENC_WAIT_SRC then Fine s
      else if ret =? JPEG_CODEC_SUCCESS then enc_done false e s
      else Fine (set_outside cs (mem s) [CMR_JPEG_ENC_ERR] s)
    end
  end.

Definition on_enc_exif (o : luck) (p : ExifImage.jpeg_enc_exif_param) (s : jstate) : turn_result :=
  match ExifImage.enc_exif_event p (l_temp o) (s_exif_output s) (mem s) with
  | None => Wild
  | Some (out, m) => Fine (set_sems (stop_sem s) (S (sync_sem s)) (set_outside (calls s) m [] (set_exif out s)))
  end.

(** The context of a thumbnail is freed behind the switch. *)
Definition on_enc_thumb (o : luck) (c : Z) (s : jstate) : turn_result :=
  match encs s !! c with
  | None => Dangling
  | Some e =>
    match _enc_start fw (l_malloc o) (l_stops o) e (calls s) with
    | None => Wild
    | Some (ret, e, cs) =>
      let s := set_thumb 0 (set_outside cs (mem s) [] (set_encs (delete c (encs s)) s)) in
      let post s := set_sems (stop_sem s) (S (sync_sem s)) s in
      if ret =? JPEG_CODEC_SUCCESS then match enc_done true e s with Fine s => Fine (post s) | r => r end
      else Fine (post s)
    end
  end.

(** A message that is not looked at is freed when it was allocated. *)
Definition discard (m : jmsg) (s : jstate) : jstate :=
  match m with JPEG_EVT_ENC_THUMB c => set_encs (delete c (encs s)) s | _ => s end.

(** One round of [_thread_proc] on a message that is taken off the queue. *)
Definition thread_turn (o : luck) (m : jmsg) (s : jstate) : turn_result :=
  match m with
  | JPEG_EVT_STOP h =>
    match _jpeg_stop h s with Fine s => Fine (set_sems (S (stop_sem s)) (sync_sem s) s) | r => r end
  | _ =>
    if is_stop s then Fine (discard m s) else
    match m with
    | JPEG_EVT_ENC_START c => on_enc_start o c s
    | JPEG_EVT_ENC_NEXT p => on_enc_next o p s
    | JPEG_EVT_DEC_START c => match decs s !! c with Some d => on_dec_start o c d s | None => Dangling end
    | JPEG_EVT_DEC_NEXT p => on_dec_next p s
    | JPEG_EVT_KILL => match _jpeg_stop (active_handle s) s with Fine s => Fine (set_exit s) | r => r end
    | JPEG_EVT_ENC_EXIF p => on_enc_exif o p s
    | JPEG_EVT_ENC_THUMB c => on_enc_thumb o c s
    | JPEG_EVT_STOP h => Fine s
    end
  end.

Definition thread_step (o : luck) (s : jstate) : option turn_result :=
  match queue s with
  | [] => None
  | m :: q => if is_exit_thread s then None else Some (thread_turn o m (set_queue q s))
  end.
End Thread.

(** ** The caller *)
Definition JPEG_YUV_SLICE_MUTI_BUF : Z := 1.

(** [jpeg_init]: [created] is what starting the thread gives; the statics
    [s_exif_output] and [s_thumbnail] keep their values. *)
Definition jpeg_init (created : Z) (malloced : bool) (s : jstate) : Z * jstate :=
  (if malloced then if created =? 0 then JPEG_CODEC_SUCCESS else JPEG_CODEC_ERROR else JPEG_CODEC_NO_MEM,
   MkJ [] 0 false false 0 0 (handles s) (encs s) (decs s) (s_exif_output s) (s_thumbnail s) (calls s) (mem s) (events s)).

(** [cmr_msg_post]. *)
Definition post (m : jmsg) (s : jstate) : option jstate :=
  if zlen (queue s) <? JPEG_MSG_QUEUE_SIZE - 1 then Some (set_queue (queue s ++ [m]) s) else None.

(** Where the caller is: outside of the interface; in a start, behind its
    post; in [jpeg_stop], in front of its post and at its semaphore; at the
    semaphore of the EXIF header or of the thumbnail; at [pthread_join]. *)
Inductive position :=
| Idle | Posted (hp : Z) (h : JPEG_HANDLE_T) | Stopping (h : Z) | StopWait (h : Z)
| ExifWait | ThumbWait (c : Z) | Joining | Gone.

(** [open]: the handles the caller was given and their contexts. *)
Record sys := MkSys { pos : position; open : gmap Z Z; st : jstate }.

Definition jpeg_enc_start (ep hp : Z) (q : jpeg_enc_in_param) (y : sys) : Z * sys :=
  if (ep =? 0) || (hp =? 0) then (JPEG_CODEC_NO_MEM, y) else
  let s := set_handles (<[hp := None]> (handles (st y))) (set_encs (<[ep := _get_enc_start_param q]> (encs (st y))) (st y)) in
  match post (JPEG_EVT_ENC_START ep) s with
  | None => (JPEG_CODEC_ERROR, y)
  | Some s => (JPEG_CODEC_SUCCESS, MkSys (Posted hp (MkHandle ep 0)) (open y) s)
  end.

Definition jpeg_dec_start (dp hp : Z) (q : jpeg_dec_in_param) (y : sys) : Z * sys :=
  if (dp =? 0) || (hp =? 0) then (JPEG_CODEC_NO_MEM, y) else
  let s := set_handles (<[hp := None]> (handles (st y))) (set_decs (<[dp := _get_dec_start_param q]> (decs (st y))) (st y)) in
  match post (JPEG_EVT_DEC_START dp) s with
  | None => (JPEG_CODEC_ERROR, y)
  | Some s => (JPEG_CODEC_SUCCESS, MkSys (Posted hp (MkHandle dp 1)) (open y) s)
  end.

Definition zero_addr (phy vir : img_addr) : bool :=
  (addr_y phy =? 0) || (addr_y vir =? 0) || (addr_u phy =? 0) || (addr_u vir =? 0).

Definition post_copy (malloced : bool) (m : jmsg) (y : sys) : Z * sys :=
  if negb malloced then (JPEG_CODEC_NO_MEM, y) else
  match post m (st y) with
  | None => (JPEG_CODEC_ERROR, y)
  | Some s => (JPEG_CODEC_SUCCESS, MkSys (pos y) (open y) s)
  end.

(** [None]: an access to an object that is not there. *)
Definition jpeg_enc_next (malloced : bool) (p : jpeg_enc_next_param) (y : sys) : option (Z * sys) :=
  if negb (active_handle (st y) =? n_handle p) then Some (JPEG_CODEC_PARAM_ERR, y) else
  h ← handle_of (n_handle p) (st y);
  e ← encs (st y) !! h_handle h;
  if is_finish e then Some (JPEG_CODEC_ERROR, y)
  else if (slice_mod e =? JPEG_YUV_SLICE_MUTI_BUF) && zero_addr (n_src_addr_phy p) (n_src_addr_vir p)
  then Some (JPEG_CODEC_PARAM_ERR, y)
  else Some (post_copy malloced (JPEG_EVT_ENC_NEXT p) y).

Definition jpeg_dec_next (malloced : bool) (p : jpeg_dec_next_param) (y : sys) : option (Z * sys) :=
  if negb (active_handle (st y) =? dn_handle p) then Some (JPEG_CODEC_PARAM_ERR, y) else
  h ← handle_of (dn_handle p) (st y);
  d ← decs (st y) !! h_handle h;
  if d_is_finish d then Some (JPEG_CODEC_ERROR, y)
  else if (d_slice_mod d =? JPEG_YUV_SLICE_MUTI_BUF) && zero_addr (dn_dst_addr_phy p) (dn_dst_addr_vir p)
  then Some (JPEG_CODEC_PARAM_ERR, y)
  else Some (post_copy malloced (JPEG_EVT_DEC_NEXT p) y).

Definition jpeg_stop (handle : Z) (y : sys) : Z * sys :=
  if handle =? 0 then (JPEG_CODEC_PARAM_ERR, y)
  else (JPEG_CODEC_SUCCESS, MkSys (Stopping handle) (open y) (set_stop true (st y))).

Definition jpeg_enc_add_eixf (malloced : bool) (p : ExifImage.jpeg_enc_exif_param) (y : sys) : Z * sys :=
  if negb (ExifImage._check_wexif_param p =? JPEG_CODEC_SUCCESS) then (JPEG_CODEC_PARAM_ERR, y)
  else if negb malloced then (JPEG_CODEC_NO_MEM, y) else
  match post (JPEG_EVT_ENC_EXIF p) (st y) with
  | None => (JPEG_CODEC_ERROR, y)
  | Some s => (JPEG_CODEC_SUCCESS, MkSys ExifWait (open y) s)
  end.

Definition jpeg_enc_thumbnail (ep : Z) (q : jpeg_enc_in_param) (y : sys) : Z * sys :=
  if ep =? 0 then (JPEG_CODEC_NO_MEM, y) else
  match post (JPEG_EVT_ENC_THUMB ep) (set_encs (<[ep := set_thumbnail (_get_enc_start_param q)]> (encs (st y))) (st y)) with
  | None => (JPEG_CODEC_ERROR, y)
  | Some s => (JPEG_CODEC_SUCCESS, MkSys (ThumbWait ep) (open y) s)
  end.

Definition jpeg_deinit (y : sys) : Z * sys :=
  match post JPEG_EVT_KILL (st y) with
  | None => (JPEG_CODEC_ERROR, y)
  | Some s => (JPEG_CODEC_SUCCESS, MkSys Joining (open y) s)
  end.

(** The rest of these functions, with what they return; [None] while the
    caller has to wait, and outside of them. *)
Definition resume (y : sys) : option (Z * sys) :=
  let s := st y in
  match pos y with
  | Posted hp h =>
    Some (JPEG_CODEC_SUCCESS, MkSys Idle (<[hp := h_handle h]> (open y)) (set_handles (<[hp := Some h]> (handles s)) (set_active hp s)))
  | Stopping h =>
    match post (JPEG_EVT_STOP h) s with
    | None => Some (JPEG_CODEC_ERROR, MkSys Idle (open y) s)
    | Some s => Some (JPEG_CODEC_SUCCESS, MkSys (StopWait h) (open y) s)
    end
  | StopWait h =>
    match stop_sem s with
    | O => None
    | S n => Some (JPEG_CODEC_SUCCESS, MkSys Idle (delete h (open y)) (set_stop false (set_sems n (sync_sem s) s)))
    end
  | ExifWait =>
    match sync_sem s with
    | O => None
    | S n => Some (if negb (ExifImage.output_size (s_exif_output s) =? 0) then JPEG_CODEC_SUCCESS else JPEG_CODEC_ERROR,
                   MkSys Idle (open y) (set_sems (stop_sem s) n s))
    end
  | ThumbWait _ =>
    match sync_sem s with
    | O => None
    | S n => Some (if negb (s_thumbnail s =? 0) then JPEG_CODEC_SUCCESS else JPEG_CODEC_ERROR,
                   MkSys Idle (open y) (set_sems (stop_sem s) n s))
    end
  | Joining => if is_exit_thread s then Some (JPEG_CODEC_SUCCESS, MkSys Gone (open y) s) else None
  | Idle | Gone => None
  end.

Inductive request :=
| EncStart (ep hp : Z) (q : jpeg_enc_in_param) | EncNext (malloced : bool) (p : jpeg_enc_next_param)
| DecStart (dp hp : Z) (q : jpeg_dec_in_param) | DecNext (malloced : bool) (p : jpeg_dec_next_param)
| Stop (h : Z) | AddExif (malloced : bool) (p : ExifImage.jpeg_enc_exif_param)
| Thumbnail (ep : Z) (q : jpeg_enc_in_param) | Deinit.

Definition call (r : request) (y : sys) : option (Z * sys) :=
  match r with
  | EncStart ep hp q => Some (jpeg_enc_start ep hp q y)
  | DecStart dp hp q => Some (jpeg_dec_start dp hp q y)
  | EncNext b p => jpeg_enc_next b p y
  | DecNext b p => jpeg_dec_next b p y
  | Stop h => Some (jpeg_stop h y)
  | AddExif b p => Some (jpeg_enc_add_eixf b p y)
  | Thumbnail ep q => Some (jpeg_enc_thumbnail ep q y)
  | Deinit => Some (jpeg_deinit y)
  end.

(** What an allocation gives: no address, or one that is not in use. *)
Definition fresh (a : Z) (s : jstate) : Prop := a = 0 \/ (handles s !! a = None /\ encs s !! a = None /\ decs s !! a = None).

(** The calls of a caller that stops only handles it was given and did not stop
    before.  It may continue a picture under any handle but 0, also one that it
    has stopped or was never given.  [dec] says whether it decodes pictures. *)
Definition allowed (dec : bool) (r : request) (y : sys) : Prop :=
  match r with
  | EncStart ep hp _ => fresh ep (st y) /\ fresh hp (st y)
  | DecStart dp hp _ => dec = true /\ fresh dp (st y) /\ fresh hp (st y)
  | EncNext _ p => n_handle p <> 0
  | DecNext _ p => dec = true /\ dn_handle p <> 0
  | Stop h => h = 0 \/ is_Some (open y !! h)
  | Thumbnail ep _ => fresh ep (st y)
  | AddExif _ _ | Deinit => True
  end.

Section System.
Context (fw : firmware) (dec : bool).

Inductive step : sys -> sys -> Prop :=
| step_call r ret y y' : pos y = Idle -> allowed dec r y -> call r y = Some (ret, y') -> step y y'
| step_resume ret y y' : resume y = Some (ret, y') -> step y y'
| step_thread o y s : thread_step fw o (st y) = Some (Fine s) -> step y (MkSys (pos y) (open y) s).

(** The caller or the thread goes to an object that is not there or is
    another request's. *)
Inductive faults : sys -> Prop :=
| fault_call r y : pos y = Idle -> allowed dec r y -> call r y = None -> faults y
| fault_thread o y r : thread_step fw o (st y) = Some r -> r = Dangling \/ r = Crossed -> faults y.
End System.

Definition ready_state (m : list Z) : jstate := MkJ [] 0 false false 0 0 ∅ ∅ ∅ (ExifImage.MkOut 0 0) 0 [] m [].
Definition ready (m : list Z) : sys := MkSys Idle ∅ (ready_state m).

(** ** No request meets an object of another *)

(** The handles in [own] and what they point to are there; the active handle
    is one of them. *)
Record wf (own : gmap Z Z) (s : jstate) : Prop := {
  wf_live : forall h c, own !! h = Some c ->
    h <> 0 /\ handles s !! h = Some (Some (MkHandle c 0)) /\ c <> 0 /\ is_Some (encs s !! c);
  wf_inj : forall h h' c, own !! h = Some c -> own !! h' = Some c -> h = h';
  wf_active : active_handle s = 0 \/ is_Some (own !! active_handle s);
  wf_running : is_exit_thread s = false }.

(** The messages that free nothing. *)
Definition plain (own : gmap Z Z) (s : jstate) (m : jmsg) : Prop :=
  match m with
  | JPEG_EVT_ENC_START c => is_Some (encs s !! c)
  | JPEG_EVT_ENC_NEXT p => is_Some (own !! n_handle p)
  | _ => False
  end.

Definition pending (own : gmap Z Z) (s : jstate) (last : list jmsg) : Prop :=
  exists pre, queue s = pre ++ last /\ Forall (plain own s) pre.

(** What handling such a message leaves as it is. *)
Record kept (s s' : jstate) : Prop := {
  kept_handles : handles s' = handles s;
  kept_encs : forall c, is_Some (encs s !! c) <-> is_Some (encs s' !! c);
  kept_active : active_handle s' = active_handle s;
  kept_stop : is_stop s' = is_stop s;
  kept_exit : is_exit_thread s' = is_exit_thread s;
  kept_stop_sem : stop_sem s' = stop_sem s;
  kept_sync_sem : sync_sem s' = sync_sem s }.

Lemma insert_some (m : gmap Z JPEG_ENC_T) c e x :
  is_Some (m !! c) -> is_Some (m !! x) <-> is_Some (<[c := e]> m !! x).
Proof.
  intros H. destruct (decide (x = c)) as [->|N]; [by rewrite lookup_insert_eq|by rewrite lookup_insert_ne by done].
Qed.

Lemma wf_kept own s s' : wf own s -> kept s s' -> wf own s'.
Proof.
  intros [A B C D] K. destruct K as [K1 K2 K3 K4 K5 K6 K7]. split; [|done|by rewrite K3|by rewrite K5].
  intros h c H. destruct (A h c H) as (? & ? & ? & ?). rewrite K1. repeat split; try done. by apply K2.
Qed.

Lemma pending_kept own s s' last : pending own s last -> kept s s' -> queue s' = queue s -> pending own s' last.
Proof.
  intros (pre & E & F) K Q. exists pre. rewrite Q. split; [done|]. eapply Forall_impl; [|exact F].
  intros []; cbn; try done. by apply K.
Qed.

Section Turns.
Context (fw : firmware).

Lemma enc_done_kept thumbnail e s :
  enc_done thumbnail e s = Wild \/ exists s', enc_done thumbnail e s = Fine s' /\ kept s s' /\ queue s' = queue s.
Proof.
  unfold enc_done. destruct (_prc_enc_cbparam thumbnail e (mem s)) as [[p m]|]; [|by left]. right.
  destruct thumbnail; (eexists; split; [reflexivity|]; split; [split|]; done).
Qed.

Lemma plain_turn own s m o :
  wf own s -> plain own s m ->
  thread_turn fw o m s = Wild \/ thread_turn fw o m s = Spins \/
  exists s', thread_turn fw o m s = Fine s' /\ kept s s' /\ queue s' = queue s.
Proof.
  intros W P.
  assert (H : forall c e cs b, is_Some (encs s !! c) ->
    let s1 := set_outside cs (mem s) [] (set_encs (<[c := e]> (encs s)) s) in
    kept s s1 /\ queue s1 = queue s /\
    let r := if b : bool then enc_done false e s1 else Fine (set_outside cs (mem s) [CMR_JPEG_ENC_ERR] s1) in
    r = Wild \/ exists s', r = Fine s' /\ kept s s' /\ queue s' = queue s).
  { intros c e cs b Hc s1. assert (K : kept s s1) by (split; try done; cbn; intros; by apply insert_some).
    split; [done|]. split; [done|]. destruct b; cbv zeta.
    - destruct (enc_done_kept false e s1) as [E|(s' & E & K' & Q)]; [by left|right]. exists s'. split; [done|].
      split; [|done]. destruct K as [K1 K2 K3 K4 K5 K6 K7], K' as [L1 L2 L3 L4 L5 L6 L7].
      split; try congruence. intros x. by rewrite K2.
    - right. eexists. split; [reflexivity|]. split; [|done]. destruct K. by split. }
  destruct m as [c|p| | | | | |]; try done; cbn in P |- *.
  - destruct (is_stop s); [right; right; by exists s|]. unfold on_enc_start. pose proof P as [e0 E0]. rewrite E0.
    destruct (_enc_start fw _ _ e0 _) as [[[ret e] cs]|]; [|by left].
    destruct (H c e cs (ret =? JPEG_CODEC_SUCCESS) P) as (_ & _ & [R|R]); [by left|by right; right].
  - destruct (is_stop s); [right; right; by exists s|]. unfold on_enc_next, handle_of. destruct P as [c Hc].
    destruct (wf_live _ _ W _ _ Hc) as (_ & Hh & _ & [e0 E0]). rewrite Hh. cbn [mbind option_bind h_handle]. rewrite E0.
    cbn [mbind option_bind]. destruct (enc_next_loop fw _ p e0 _) as [[[ret e] cs]|]; [|by right; left].
    destruct (H c e cs (ret =? JPEG_CODEC_SUCCESS)) as (K & Q & R); [by rewrite E0|].
    destruct (ret =? JPEG_CODEC_ENC_WAIT_SRC); [right; right; by eexists|]. destruct R; [by left|by right; right].
Qed.

(** A round of the thread while the queue holds [last] behind such messages. *)
Lemma thread_pending own s last o r :
  wf own s -> pending own s last -> thread_step fw o s = Some r ->
  (r = Wild \/ r = Spins) \/
  (exists s', r = Fine s' /\ wf own s' /\ kept s s' /\ pending own s' last /\ length (queue s) = S (length (queue s'))) \/
  (exists m q, last = m :: q /\ queue s = last /\ r = thread_turn fw o m (set_queue q s)).
Proof.
  intros W (pre & Q & F) T. unfold thread_step in T. rewrite Q in T. destruct pre as [|m pre]; cbn [app] in *.
  - destruct last as [|m q]; [done|]. rewrite (wf_running _ _ W) in T. injection T as <-. right; right. by exists m, q.
  - rewrite (wf_running _ _ W) in T. injection T as <-. inversion F as [|? ? Hm F']; subst.
    set (s1 := set_queue (pre ++ last) s). assert (K1 : kept s s1) by by split.
    pose proof (wf_kept _ _ _ W K1) as W1. assert (P1 : pending own s1 last) by by exists pre.
    destruct (plain_turn own s1 m o W1) as [E|[E|(s' & E & K & Qs)]]; [done|left; by left|left; by right|].
    right; left. exists s'. split; [done|]. split; [by eapply wf_kept|].
    split; [destruct K1, K; split; try congruence; intros c; etrans; eauto|]. split; [by eapply pending_kept|].
    rewrite Q, Qs. done.
Qed.
End Turns.

(** The messages that end a wait, and the queue behind them. *)
Definition at_pos (own : gmap Z Z) (y : sys) : Prop :=
  let s := st y in
  match pos y with
  | Idle => own = open y /\ pending own s [] /\ stop_sem s = O /\ sync_sem s = O
  | Posted hp h =>
    (own = open y /\ pending own s [] /\ stop_sem s = O /\ sync_sem s = O) /\
    hp <> 0 /\ h = MkHandle (h_handle h) 0 /\ h_handle h <> 0 /\ handles s !! hp = Some None /\
    is_Some (encs s !! h_handle h) /\ forall h' c, own !! h' = Some c -> c <> h_handle h
  | Stopping h => (own = open y /\ pending own s [] /\ stop_sem s = O /\ sync_sem s = O) /\ is_Some (own !! h) /\ is_stop s = true
  | StopWait h =>
    sync_sem s = O /\ is_stop s = true /\
    (own = open y /\ is_Some (own !! h) /\ pending own s [JPEG_EVT_STOP h] /\ stop_sem s = O \/
     own = delete h (open y) /\ queue s = [] /\ stop_sem s = 1%nat)
  | ExifWait =>
    own = open y /\ stop_sem s = O /\
    ((exists p, pending own s [JPEG_EVT_ENC_EXIF p]) /\ sync_sem s = O \/ queue s = [] /\ (sync_sem s <= 1)%nat)
  | ThumbWait c =>
    own = open y /\ stop_sem s = O /\
    ((pending own s [JPEG_EVT_ENC_THUMB c] /\ sync_sem s = O /\ is_Some (encs s !! c) /\ forall h c', own !! h = Some c' -> c' <> c) \/
     queue s = [] /\ (sync_sem s <= 1)%nat)
  | Joining => own = open y /\ stop_sem s = O /\ sync_sem s = O /\ (pending own s [JPEG_EVT_KILL] \/ queue s = [])
  | Gone => False
  end.

Definition Inv (y : sys) : Prop :=
  is_exit_thread (st y) = true /\ (pos y = Joining \/ pos y = Gone) \/ exists own, wf own (st y) /\ at_pos own y.

(** *** The caller's steps *)
Lemma pending_end own s last : queue s = last -> pending own s last.
Proof. intros E. by exists []. Qed.

Lemma wf_alloc own s hs es q :
  wf own s -> (forall h o, handles s !! h = Some o -> hs !! h = Some o) -> (forall c, is_Some (encs s !! c) -> is_Some (es !! c)) ->
  wf own (set_queue q (set_handles hs (set_encs es s))).
Proof.
  intros [A B C D] Hh He. split; cbn; try done. intros h c H. destruct (A h c H) as (? & ? & ? & ?). auto.
Qed.

Lemma pending_post own s s' m s1 :
  pending own s [] -> queue s' = queue s -> (forall c, is_Some (encs s !! c) -> is_Some (encs s' !! c)) ->
  post m s' = Some s1 -> s1 = set_queue (queue s' ++ [m]) s' /\ pending own s1 [m].
Proof.
  unfold post. intros (pre & E & F) Q He. destruct (_ <? _); [|done]. intros [= <-]. split; [done|].
  rewrite app_nil_r in E. exists pre. cbn. rewrite Q, E. split; [done|].
  eapply Forall_impl; [|exact F]. intros []; cbn; try done. apply He.
Qed.

Lemma pending_shift own s m : pending own s [m] -> plain own s m -> pending own s [].
Proof. intros (pre & E & F) P. exists (pre ++ [m]). rewrite app_nil_r. split; [done|]. apply Forall_app. auto. Qed.

Lemma insert_mono (m : gmap Z JPEG_ENC_T) k e c : is_Some (m !! c) -> is_Some (<[k := e]> m !! c).
Proof. intros H. destruct (decide (c = k)) as [->|]; [by rewrite lookup_insert_eq|by rewrite lookup_insert_ne]. Qed.

Section Calls.
Context (y : sys).
Hypothesis (Hp : pos y = Idle) (W : wf (open y) (st y)) (P : pending (open y) (st y) []).
Hypothesis (S1 : stop_sem (st y) = O) (S2 : sync_sem (st y) = O).

Lemma idle_inv : Inv y.
Proof. right. exists (open y). split; [done|]. unfold at_pos. by rewrite Hp. Qed.

(** A message that allocates nothing. *)
Lemma posted m s1 : post m (st y) = Some s1 ->
  wf (open y) s1 /\ pending (open y) s1 [m] /\ stop_sem s1 = O /\ sync_sem s1 = O.
Proof.
  intros E. eapply (pending_post _ (st y)) in E as [-> Q]; [|exact P|done|done].
  split; [by eapply wf_kept; [exact W|split]|]. done.
Qed.

Lemma not_owned c h c' : encs (st y) !! c = None -> open y !! h = Some c' -> c' <> c.
Proof. intros N Hc ->. destruct (wf_live _ _ W _ _ Hc) as (_ & _ & _ & [? ?]). congruence. Qed.

Lemma enc_start_ok ep hp q : fresh ep (st y) -> fresh hp (st y) -> Inv (snd (jpeg_enc_start ep hp q y)).
Proof.
  pose proof idle_inv as I. intros Fe Fh. unfold jpeg_enc_start.
  destruct (Z.eqb_spec ep 0) as [|Ne]; [done|]. destruct (Z.eqb_spec hp 0) as [|Nh]; [done|]. cbn [orb].
  destruct Fe as [|(_ & Fe & _)], Fh as [|(Fh & _ & _)]; try done.
  destruct (post _ _) as [s1|] eqn:E; [|done]. cbn [snd].
  eapply (pending_post _ (st y)) in E as [-> Q]; [|exact P|done|apply insert_mono].
  right. exists (open y). split.
  - apply wf_alloc; [done| |apply insert_mono]. intros h o Ho. rewrite lookup_insert_ne; [done|]. intros ->. congruence.
  - cbn. split; [split; [done|]; split; [|done]|].
    + eapply pending_shift; [exact Q|]. cbn. by rewrite lookup_insert_eq.
    + rewrite !lookup_insert_eq. repeat (split; [done|]). intros h' c. by apply not_owned.
Qed.

Lemma enc_next_ok b p : n_handle p <> 0 -> exists ret y', jpeg_enc_next b p y = Some (ret, y') /\ Inv y'.
Proof.
  pose proof idle_inv as I. intros N. unfold jpeg_enc_next, handle_of.
  destruct (Z.eqb_spec (active_handle (st y)) (n_handle p)) as [Ea|]; [|by eexists _, _]. cbn [negb].
  destruct (wf_active _ _ W) as [E0|[c Hc]]; [congruence|]. rewrite Ea in Hc.
  destruct (wf_live _ _ W _ _ Hc) as (_ & Hh & _ & [e He]). rewrite Hh. cbn [mbind option_bind h_handle]. rewrite He. cbn [mbind option_bind].
  repeat match goal with |- context [if ?b then Some _ else _] => destruct b; [by eexists _, _|] end.
  eexists _, _. split; [apply f_equal, surjective_pairing|]. unfold post_copy. destruct b; [|done]. cbn [negb].
  destruct (post _ _) as [s1|] eqn:E; [|done]. destruct (posted _ _ E) as (W1 & P1 & ? & ?). right. exists (open y).
  split; [done|]. unfold at_pos. cbn [snd pos st open]. rewrite Hp. split; [done|]. split; [|done].
  eapply pending_shift; [exact P1|]. cbn. by exists c.
Qed.

Lemma thumbnail_ok ep q : fresh ep (st y) -> Inv (snd (jpeg_enc_thumbnail ep q y)).
Proof.
  pose proof idle_inv as I. intros Fe. unfold jpeg_enc_thumbnail. destruct (Z.eqb_spec ep 0); [done|].
  destruct Fe as [|(_ & Fe & _)]; [done|]. destruct (post _ _) as [s1|] eqn:E; [|done]. cbn [snd].
  eapply (pending_post _ (st y)) in E as [-> Q]; [|exact P|done|apply insert_mono].
  right. exists (open y). split; [apply (wf_alloc _ _ (handles (st y))); [done|done|apply insert_mono]|].
  cbn. split; [done|]. split; [done|]. left. split; [done|]. split; [done|]. rewrite lookup_insert_eq. split; [done|].
  intros h' c. by apply not_owned.
Qed.

Lemma call_keeps r : allowed false r y -> exists ret y', call r y = Some (ret, y') /\ Inv y'.
Proof.
  pose proof idle_inv as I. destruct r as [ep hp q|b p|dp hp q|b p|h|b p|ep q|]; cbn [call allowed]; intros Ha;
    try (by destruct Ha as [[=] _]); [|by apply enc_next_ok| | | |];
    (eexists _, _; split; [apply f_equal, surjective_pairing|]).
  - destruct Ha. by apply enc_start_ok.
  - unfold jpeg_stop. destruct (Z.eqb_spec h 0); [done|]. destruct Ha as [|Ha]; [done|]. right. exists (open y).
    split; [destruct W; by split|]. cbn. auto.
  - unfold jpeg_enc_add_eixf. destruct (negb _); [done|]. destruct (negb _); [done|].
    destruct (post _ _) as [s1|] eqn:E; [|done]. destruct (posted _ _ E) as (W1 & P1 & ? & ?). right. exists (open y).
    split; [done|]. cbn. split; [done|]. split; [done|]. left. split; [by exists p|done].
  - by apply thumbnail_ok.
  - unfold jpeg_deinit. destruct (post _ _) as [s1|] eqn:E; [|done]. destruct (posted _ _ E) as (W1 & P1 & ? & ?). right. exists (open y).
    split; [done|]. cbn. auto.
Qed.
End Calls.

Lemma call_ok r y :
  pos y = Idle -> allowed false r y -> Inv y -> exists ret y', call r y = Some (ret, y') /\ Inv y'.
Proof.
  intros Hp Ha [[_ [E|E]]|(own & W & P)]; [congruence|congruence|]. unfold at_pos in P. rewrite Hp in P.
  destruct P as (-> & P & S1 & S2). by apply call_keeps.
Qed.

(** The rest of a call; a wait ends with its semaphore. *)
Lemma resume_posted hp h y : pos y = Posted hp h -> Inv y ->
  Inv (MkSys Idle (<[hp := h_handle h]> (open y)) (set_handles (<[hp := Some h]> (handles (st y))) (set_active hp (st y)))).
Proof.
  intros Hp [[_ [E|E]]|(own & W & A)]; [congruence|congruence|]. unfold at_pos in A. rewrite Hp in A.
  destruct A as ((-> & P & S1 & S2) & N0 & Eh & Nc & Hh & He & Ho). right. exists (<[hp := h_handle h]> (open y)).
  assert (N : open y !! hp = None).
  { destruct (open y !! hp) as [c|] eqn:E; [|done]. destruct (wf_live _ _ W _ _ E) as (_ & ? & _). congruence. }
  split.
  - split; cbn.
    + intros h' c. destruct (decide (h' = hp)) as [->|]; [rewrite !lookup_insert_eq; intros [= <-]; by rewrite Eh|].
      rewrite !lookup_insert_ne by done. apply W.
    + intros h1 h2 c. destruct (decide (h1 = hp)) as [->|], (decide (h2 = hp)) as [->|]; try done;
        rewrite ?lookup_insert_eq, ?lookup_insert_ne by done; try (apply W); intros; simplify_eq; exfalso; eapply Ho; eauto.
    + right. by rewrite lookup_insert_eq.
    + apply W.
  - cbn. split; [done|]. split; [|done]. destruct P as (pre & Q & F). exists pre. cbn. split; [done|].
    eapply Forall_impl; [|exact F]. intros []; cbn; try done. intros [c Hc]. rewrite lookup_insert_ne by congruence. by exists c.
Qed.

Lemma resume_ok y ret y' : resume y = Some (ret, y') -> Inv y -> Inv y'.
Proof.
  intros R I. unfold resume in R. destruct (pos y) as [|hp h|h|h| |c| |] eqn:Hp; try done.
  - injection R as <- <-. by apply resume_posted.
  - destruct I as [[_ [E|E]]|(own & W & A)]; [congruence|congruence|]. unfold at_pos in A. rewrite Hp in A.
    destruct A as ((-> & P & S1 & S2) & Ho & Hs). destruct (post _ _) as [s1|] eqn:E.
    + injection R as <- <-. eapply (pending_post _ (st y)) in E as [-> Q]; [|exact P|done|done]. right. exists (open y).
      split; [by eapply wf_kept; [exact W|split]|]. cbn. split; [done|]. split; [done|]. left. done.
    + injection R as <- <-. right. exists (open y). done.
  - destruct (stop_sem (st y)) as [|n] eqn:Es; [done|]. injection R as <- <-.
    destruct I as [[_ [E|E]]|(own & W & A)]; [congruence|congruence|]. unfold at_pos in A. rewrite Hp, Es in A.
    destruct A as (S2 & _ & [(_ & _ & _ & ?)|(-> & Q & [= ->])]); [done|]. right. exists (delete h (open y)).
    split; [destruct W; by split|]. cbn. split; [done|]. split; [by apply pending_end|done].
  - destruct (sync_sem (st y)) as [|n] eqn:Es; [done|]. injection R as <- <-.
    destruct I as [[_ [E|E]]|(own & W & A)]; [congruence|congruence|]. unfold at_pos in A. rewrite Hp, Es in A.
    destruct A as (-> & S1 & [[_ ?]|(Q & ?)]); [done|]. right. exists (open y).
    split; [destruct W; by split|]. cbn. split; [done|]. split; [by apply pending_end|]. split; [done|lia].
  - destruct (sync_sem (st y)) as [|n] eqn:Es; [done|]. injection R as <- <-.
    destruct I as [[_ [E|E]]|(own & W & A)]; [congruence|congruence|]. unfold at_pos in A. rewrite Hp, Es in A.
    destruct A as (-> & S1 & [(_ & ? & _)|(Q & ?)]); [done|]. right. exists (open y).
    split; [destruct W; by split|]. cbn. split; [done|]. split; [by apply pending_end|]. split; [done|lia].
  - destruct (is_exit_thread (st y)) eqn:Ex; [|done]. injection R as <- <-. left. split; [done|by right].
Qed.

(** *** The thread's steps *)

(** What [_jpeg_stop] frees. *)
Lemma stop_turn own s h c :
  wf own s -> own !! h = Some c ->
  exists s', _jpeg_stop h s = Fine s' /\ wf (delete h own) s' /\ queue s' = queue s /\ is_stop s' = is_stop s /\
    stop_sem s' = stop_sem s /\ sync_sem s' = sync_sem s /\ calls s' = calls s /\
    handles s' = delete h (handles s) /\ encs s' = delete c (encs s) /\ active_handle s' = 0.
Proof.
  intros W H. destruct (wf_live _ _ W _ _ H) as (N & Hh & Nc & [e He]). unfold _jpeg_stop, handle_of.
  rewrite (proj2 (Z.eqb_neq h 0)) by done. rewrite Hh. cbn [mbind option_bind h_type h_handle Z.eqb].
  rewrite He, bool_decide_eq_false_2 by done. rewrite andb_false_r. eexists. split; [reflexivity|].
  split; [|by repeat split]. split; cbn.
  - intros h' c' H'. apply lookup_delete_Some in H' as [Nh H']. destruct (wf_live _ _ W _ _ H') as (? & ? & ? & ?).
    rewrite lookup_delete_ne by done. rewrite lookup_delete_ne; [done|]. intros ->. apply Nh. eapply wf_inj; eauto.
  - intros h1 h2 c' H1 H2. apply lookup_delete_Some in H1 as [_ H1]. apply lookup_delete_Some in H2 as [_ H2]. eapply wf_inj; eauto.
  - by left.
  - apply W.
Qed.

Section Rounds.
Context (fw : firmware).

(** The messages with an answer: it is given unless the message is discarded. *)
Lemma exif_turn own s p o :
  wf own s -> thread_turn fw o (JPEG_EVT_ENC_EXIF p) s = Wild \/
  exists s', thread_turn fw o (JPEG_EVT_ENC_EXIF p) s = Fine s' /\ wf own s' /\ queue s' = queue s /\ stop_sem s' = stop_sem s /\
    sync_sem s' = (if is_stop s then sync_sem s else S (sync_sem s)).
Proof.
  intros W. cbn. destruct (is_stop s); [right; by exists s|]. unfold on_enc_exif.
  destruct (ExifImage.enc_exif_event _ _ _ _) as [[out m]|]; [|by left]. right. eexists. split; [reflexivity|].
  split; [destruct W; by split|]. done.
Qed.

Lemma thumb_turn own s c o :
  wf own s -> is_Some (encs s !! c) -> (forall h c', own !! h = Some c' -> c' <> c) ->
  thread_turn fw o (JPEG_EVT_ENC_THUMB c) s = Wild \/
  exists s', thread_turn fw o (JPEG_EVT_ENC_THUMB c) s = Fine s' /\ wf own s' /\ queue s' = queue s /\ stop_sem s' = stop_sem s /\
    sync_sem s' = (if is_stop s then sync_sem s else S (sync_sem s)).
Proof.
  intros W [e He] Hc.
  assert (D : forall s1, kept (set_encs (delete c (encs s)) s) s1 -> wf own s1).
  { intros s1. apply wf_kept. split; cbn; try apply W. intros h' c' H'. destruct (wf_live _ _ W _ _ H') as (? & ? & ? & ?).
    rewrite lookup_delete_ne; [done|]. intros <-. by eapply Hc. }
  cbn. destruct (is_stop s) eqn:Es; [right; eexists; split; [reflexivity|]; split; [apply D; by split|done]|].
  unfold on_enc_thumb. rewrite He. destruct (_enc_start fw _ _ e _) as [[[ret e'] cs]|]; [|by left].
  set (s1 := set_thumb 0 _). assert (K : kept (set_encs (delete c (encs s)) s) s1) by by split.
  destruct (ret =? JPEG_CODEC_SUCCESS).
  - destruct (enc_done_kept true e' s1) as [->|(s' & -> & K' & Q)]; [by left|]. right. eexists. split; [reflexivity|].
    pose proof (wf_kept _ _ _ (D _ K) K') as W'. destruct K' as [? ? ? ? ? L6 L7].
    split; [destruct W'; by split|]. cbn. rewrite Q, L6, L7. done.
  - right. eexists. split; [reflexivity|]. split; [destruct (D _ K); by split|]. done.
Qed.

Lemma kill_turn own s o :
  wf own s -> exists s', thread_turn fw o JPEG_EVT_KILL s = Fine s' /\
    (is_exit_thread s' = true \/ s' = s /\ is_stop s = true).
Proof.
  intros W. cbn. destruct (is_stop s); [exists s; auto|].
  destruct (wf_active _ _ W) as [->|[c Hc]]; [cbn; eexists; split; [reflexivity|by left]|].
  destruct (stop_turn _ _ _ _ W Hc) as (s' & -> & _). eexists. split; [reflexivity|by left].
Qed.

(** A round at [y]: what it must leave, and what the last message must do. *)
Lemma thread_round own o y r last :
  wf own (st y) -> thread_step fw o (st y) = Some r -> pending own (st y) last ->
  (forall s', kept (st y) s' -> pending own s' last -> at_pos own (MkSys (pos y) (open y) s')) ->
  (forall m q, last = m :: q -> queue (st y) = last ->
    (thread_turn fw o m (set_queue q (st y)) = Wild \/
     exists s', thread_turn fw o m (set_queue q (st y)) = Fine s' /\ Inv (MkSys (pos y) (open y) s'))) ->
  (r = Wild \/ r = Spins) \/ exists s', r = Fine s' /\ Inv (MkSys (pos y) (open y) s').
Proof.
  intros W T P H1 H2.
  destruct (thread_pending fw own (st y) last o r W P T) as [E|[(s' & -> & W' & K & P' & _)|(m & q & El & Q & ->)]].
  - by left.
  - right. exists s'. split; [done|]. right. exists own. split; [done|by apply H1].
  - destruct (H2 m q El Q) as [E|E]; [by left; left|by right].
Qed.

Lemma thread_ok o y r :
  Inv y -> thread_step fw o (st y) = Some r ->
  (r = Wild \/ r = Spins) \/ exists s', r = Fine s' /\ Inv (MkSys (pos y) (open y) s').
Proof.
  intros [[Ex _]|(own & W & A)] T; [unfold thread_step in T; rewrite Ex in T; by destruct (queue (st y))|].
  pose proof (fun last => thread_round own o y r last W T) as Go.
  assert (W0 : wf own (set_queue [] (st y))) by (eapply wf_kept; [exact W|by split]).
  assert (Q0 : queue (st y) <> []) by (intros Q0; unfold thread_step in T; by rewrite Q0 in T).
  unfold at_pos in A, Go. destruct (pos y) as [|hp h|h|h| |c| |] eqn:Hp; cbn [pos open st] in Go.
  - destruct A as (-> & P & S1 & S2). apply (Go _ P); [|done]. intros s' K P'. by rewrite (kept_stop_sem _ _ K), (kept_sync_sem _ _ K).
  - destruct A as ((-> & P & S1 & S2) & ? & ? & ? & ? & ? & ?). apply (Go _ P); [|done]. intros s' K P'.
    rewrite (kept_stop_sem _ _ K), (kept_sync_sem _ _ K), (kept_handles _ _ K). repeat (split; [done|]). split; [by apply K|done].
  - destruct A as ((-> & P & S1 & S2) & ? & ?). apply (Go _ P); [|done]. intros s' K P'.
    by rewrite (kept_stop_sem _ _ K), (kept_sync_sem _ _ K), (kept_stop _ _ K).
  - destruct A as (S2 & Es & [(-> & Ho & P & S1)|(_ & Q & _)]); [|done]. apply (Go _ P).
    + intros s' K P'. rewrite (kept_stop_sem _ _ K), (kept_sync_sem _ _ K), (kept_stop _ _ K). split; [done|]. split; [done|]. by left.
    + intros m q [= <- <-] Q. destruct Ho as [c Hc]. destruct (stop_turn _ _ _ _ W0 Hc) as (s' & E & W' & Q' & E1 & E2 & E3 & _).
      right. cbn [thread_turn]. rewrite E. eexists. split; [reflexivity|]. right. exists (delete h (open y)).
      split; [destruct W'; by split|]. cbn. rewrite E1, E2, E3. cbn. split; [done|]. split; [done|]. right. rewrite Q', S1. done.
  - destruct A as (-> & S1 & [[[p P] S2]|(Q & _)]); [|done]. apply (Go _ P).
    + intros s' K P'. rewrite (kept_stop_sem _ _ K), (kept_sync_sem _ _ K). split; [done|]. split; [done|]. left. split; [by exists p|done].
    + intros m q [= <- <-] Q. destruct (exif_turn _ _ p o W0) as [E|(s' & E & W' & Q' & E1 & E2)]; [by left|right]. exists s'.
      split; [done|]. right. exists (open y). split; [done|]. cbn. rewrite E1, E2, Q'. cbn. rewrite S2.
      split; [done|]. split; [done|]. right. split; [done|]. destruct (is_stop _); lia.
  - destruct A as (-> & S1 & [(P & S2 & Hc & Ho)|(Q & _)]); [|done]. apply (Go _ P).
    + intros s' K P'. rewrite (kept_stop_sem _ _ K), (kept_sync_sem _ _ K). split; [done|]. split; [done|]. left.
      split; [done|]. split; [done|]. split; [by apply K|done].
    + intros m q [= <- <-] Q. destruct (thumb_turn _ _ c o W0 Hc Ho) as [E|(s' & E & W' & Q' & E1 & E2)]; [by left|right]. exists s'.
      split; [done|]. right. exists (open y). split; [done|]. cbn. rewrite E1, E2, Q'. cbn. rewrite S2.
      split; [done|]. split; [done|]. right. split; [done|]. destruct (is_stop _); lia.
  - destruct A as (-> & S1 & S2 & [P|Q]); [|done]. apply (Go _ P).
    + intros s' K P'. rewrite (kept_stop_sem _ _ K), (kept_sync_sem _ _ K). auto.
    + intros m q [= <- <-] Q. destruct (kill_turn _ _ o W0) as (s' & E & [Ex|[-> _]]); right; eexists; (split; [exact E|]).
      * left. split; [done|by left].
      * right. exists (open y). split; [done|]. cbn. auto.
  - done.
Qed.
End Rounds.

(** *** Runs *)
Section Runs.
Context (fw : firmware) (m0 : list Z).

Lemma ready_inv : Inv (ready m0).
Proof. right. exists ∅. split; [split; cbn; auto; intros *; by rewrite lookup_empty|]. cbn. split; [done|]. split; [by apply pending_end|done]. Qed.

Lemma inv_reach y : reach (step fw false) (ready m0) y -> Inv y.
Proof.
  apply reach_inv; [apply ready_inv|]. intros a b I S. destruct S as [r ret y1 y' Hp Ha C|ret y1 y' R|o y1 s T].
  - destruct (call_ok r y1 Hp Ha I) as (ret1 & y2 & C' & I'). congruence.
  - by eapply resume_ok.
  - destruct (thread_ok fw o y1 _ I T) as [[|]|(s' & [= ->] & I')]; done.
Qed.

(** C5: the caller and the JPEG thread never go to an object that is freed or
    is another request's.  A caller that encodes pictures may use any number of
    handles, thumbnails and EXIF headers, send slices under any handle but 0
    (also one it has stopped, which the test of the active handle refuses), stop
    handles while the queue is full and end the thread; it decodes nothing and
    stops a handle at most once.  However its steps and the thread's alternate,
    every context and handle that a message, a call or
    [jcontext.active_handle] leads to is still allocated. *)
Theorem codec_no_dangling y : reach (step fw false) (ready m0) y -> ~ faults fw false y.
Proof.
  intros R F. apply inv_reach in R as I. destruct F as [r y Hp Ha C|o y r T E].
  - destruct (call_ok r y Hp Ha I) as (? & ? & C' & _). congruence.
  - destruct (thread_ok fw o y r I T) as [[->| ->]|(s' & -> & _)]; by destruct E.
Qed.

(** The thread alone, one outcome of its environment for every round. *)
Fixpoint turns (os : list luck) (s : jstate) : turn_result :=
  match os with
  | [] => Fine s
  | o :: os => match thread_step fw o s with Some (Fine s) => turns os s | Some r => r | None => Fine s end
  end.

Lemma discarding own pre last os os' s :
  is_stop s = true -> is_exit_thread s = false -> queue s = pre ++ last -> Forall (plain own s) pre -> length os = length pre ->
  turns (os ++ os') s = turns os' (set_queue last s).
Proof.
  revert os s. induction pre as [|m pre IH]; intros os s Hs Hx Q F L; cbn [app length] in *.
  - destruct os; [|done]. cbn [app]. f_equal. destruct s; cbn in *; by subst.
  - destruct os as [|o os]; [done|]. cbn [app turns]. unfold thread_step. rewrite Q, Hx. inversion F as [|? ? Hm F']; subst.
    assert (E : thread_turn fw o m (set_queue (pre ++ last) s) = Fine (set_queue (pre ++ last) s)).
    { destruct m; try done; cbn; by rewrite Hs. }
    rewrite E. rewrite (IH os (set_queue (pre ++ last) s)); [done|done|done|done|done|cbn in L; lia].
Qed.

End Runs.

(** ** Witnesses *)
Definition sample_in : jpeg_enc_in_param :=
  MkEncIn 0 (MkSize 640 480) (MkSize 640 480) 16 0 (MkAddr 0x1000 0x100000 0) (MkAddr 0x1000 0x100000 0) (MkEnd 0 0) 80
    0x200000 5 100000 0 0 0.
Definition resumed (y : sys) : sys := match resume y with Some (_, y) => y | None => y end.
Definition w_posted : sys := snd (jpeg_enc_start 100 200 sample_in (ready [])).
Definition w_started : sys := resumed w_posted.
Definition w_stopping : sys := snd (jpeg_stop 200 w_started).
Definition w_waiting : sys := resumed w_stopping.

Lemma resumed_step fw dec y : resume y <> None -> step fw dec y (resumed y).
Proof. unfold resumed. destruct (resume y) as [[ret y']|] eqn:E; [|done]. intros _. by eapply step_resume. Qed.

Lemma w_started_reach dec : reach (step sample_fw dec) (ready []) w_started.
Proof.
  eapply reach_step; [eapply reach_step; [apply reach_refl|]|].
  - apply (step_call _ _ (EncStart 100 200 sample_in) JPEG_CODEC_SUCCESS (ready []) w_posted); [done| |reflexivity].
    split; right; repeat split; apply lookup_empty.
  - by apply resumed_step.
Qed.
Lemma w_waiting_reach : reach (step sample_fw false) (ready []) w_waiting.
Proof.
  eapply reach_step; [eapply reach_step; [apply w_started_reach|]|].
  - apply (step_call _ _ (Stop 200) JPEG_CODEC_SUCCESS w_started w_stopping); [done| |reflexivity]. right. vm_compute. by eexists.
  - apply resumed_step. unfold resume. change (pos w_stopping) with (Stopping 200). cbv iota zeta. by destruct (post _ _).
Qed.

Lemma codec_no_dangling_witness :
  open w_waiting !! 200 = Some 100 /\ pos w_waiting = StopWait 200 /\ ~ faults sample_fw false w_waiting.
Proof.
  split; [reflexivity|]. split; [reflexivity|]. apply (codec_no_dangling sample_fw []). exact w_waiting_reach.
Defined.

Definition some_luck : luck := MkLuck true (fun _ => false) None 100.

(** ** What goes wrong *)

(** A caller that decodes: the thread takes the message before
    [jcontext.active_handle] is set, and the callback goes through handle 0. *)
Definition sample_dec : jpeg_dec_in_param :=
  MkDecIn 0 0 0 (MkSize 640 480) 16 0 (MkAddr 0 0 0) (MkAddr 0 0 0) (MkEnd 0 0) 0 0 0 0.
Lemma dec_start_race : exists y, reach (step sample_fw true) (ready []) y /\ faults sample_fw true y.
Proof.
  exists (snd (jpeg_dec_start 100 200 sample_dec (ready []))). split.
  - apply reach_one, (step_call _ _ (DecStart 100 200 sample_dec) JPEG_CODEC_SUCCESS); [done| |reflexivity].
    split; [done|]. split; right; repeat split; apply lookup_empty.
  - eapply (fault_thread _ _ some_luck); [reflexivity|]. left. reflexivity.
Qed.

(** [jpeg_enc_next] with handle 0 while no handle is active. *)
Lemma enc_next_null b p y :
  active_handle (st y) = 0 -> n_handle p = 0 -> handles (st y) !! 0 = None -> jpeg_enc_next b p y = None.
Proof. intros A N H. unfold jpeg_enc_next, handle_of. by rewrite A, N, H. Qed.

(** A handle that was stopped already: the thread goes to the freed object. *)
Lemma second_stop_dangles fw o h s : h <> 0 -> handles s !! h = None -> thread_turn fw o (JPEG_EVT_STOP h) s = Dangling.
Proof. intros N H. cbn. unfold _jpeg_stop, handle_of. by rewrite (proj2 (Z.eqb_neq _ _)), H by done. Qed.

(** A stop that finds the queue full fails and leaves [is_stop] set. *)
Lemma stop_queue_full h y :
  pos y = Stopping h -> JPEG_MSG_QUEUE_SIZE - 1 <= zlen (queue (st y)) -> resume y = Some (JPEG_CODEC_ERROR, MkSys Idle (open y) (st y)).
Proof. intros Hp Q. unfold resume, post. rewrite Hp. by rewrite (proj2 (Z.ltb_ge _ _)). Qed.

(** From then on a request that waits for its answer waits for ever, and so
    does the end of the thread: their messages are discarded. *)
Definition stuck (y : sys) : Prop :=
  (pos y = ExifWait \/ (exists c, pos y = ThumbWait c) \/ pos y = Joining) /\
  is_stop (st y) = true /\ sync_sem (st y) = O /\ is_exit_thread (st y) = false /\
  Forall (fun m => forall h, m <> JPEG_EVT_STOP h) (queue (st y)).

Lemma stuck_waits fw dec y z : stuck y -> reach (step fw dec) y z -> pos z = pos y /\ resume z = None.
Proof.
  intros K R. assert (I : pos z = pos y /\ stuck z).
  { revert R. apply reach_inv with (I := fun z => pos z = pos y /\ stuck z); [done|]. intros a b [E (P & Hs & Hy & Hx & F)] S.
    destruct S as [r ret a b Hp _ _|ret a b R|o a s T].
    - exfalso. destruct P as [P|[[c P]|P]]; congruence.
    - exfalso. unfold resume in R. destruct P as [P|[[c P]|P]]; rewrite P in R; [by rewrite Hy in R|by rewrite Hy in R|by rewrite Hx in R].
    - split; [done|]. split; [done|]. unfold thread_step in T. destruct (queue (st a)) as [|m q] eqn:Q; [done|]. rewrite Hx in T.
      inversion F as [|? ? Hm F']; subst. assert (T' : s = discard m (set_queue q (st a))).
      { destruct m; cbn in T; rewrite ?Hs in T; try (by injection T as <-). by destruct (Hm handle). }
      rewrite T'. destruct m; cbn; by rewrite Hs, Hy, Hx. }
  destruct I as [E (P & Hs & Hy & Hx & _)]. split; [done|]. unfold resume. destruct P as [P|[[c P]|P]]; rewrite P, ?Hy, ?Hx; done.
Qed.

(** Such a state is reached: one encoder, a queue full of its slices, a stop
    that fails, and a request for the EXIF header. *)
Definition w_next : jpeg_enc_next_param := MkEncNext 200 (MkAddr 0 0 0) (MkAddr 0 0 0) 0 32.
Definition w_exif : ExifImage.jpeg_enc_exif_param := ExifImage.MkExifParam 20000 10 0 0 16 0 None.
Definition w_filled (n : nat) : sys :=
  MkSys Idle (open w_started) (set_queue (JPEG_EVT_ENC_START 100 :: replicate n (JPEG_EVT_ENC_NEXT w_next)) (st w_started)).

Lemma w_filled_step n : (n < 38)%nat -> step sample_fw false (w_filled n) (w_filled (S n)).
Proof.
  intros Hn. apply (step_call _ _ (EncNext true w_next) JPEG_CODEC_SUCCESS); [done|vm_compute; discriminate|].
  cbn [call]. unfold jpeg_enc_next. change (active_handle (st (w_filled n))) with 200. cbn [n_handle w_next Z.eqb Pos.eqb negb].
  change (handle_of 200 (st (w_filled n))) with (Some (MkHandle 100 0)). cbn [mbind option_bind h_handle].
  change (encs (st (w_filled n)) !! 100) with (Some (_get_enc_start_param sample_in)). cbn [mbind option_bind].
  change (is_finish (_get_enc_start_param sample_in)) with false. change (slice_mod (_get_enc_start_param sample_in)) with 0.
  cbn [Z.eqb JPEG_YUV_SLICE_MUTI_BUF andb]. unfold post_copy, post. cbn [negb].
  change (queue (st (w_filled n))) with (JPEG_EVT_ENC_START 100 :: replicate n (JPEG_EVT_ENC_NEXT w_next)).
  cbn [length]. rewrite length_replicate, (proj2 (Z.ltb_lt _ _)) by (unfold JPEG_MSG_QUEUE_SIZE; lia).
  unfold w_filled. rewrite replicate_S_end. reflexivity.
Qed.

Lemma w_filled_reach n : (n <= 38)%nat -> reach (step sample_fw false) (ready []) (w_filled n).
Proof.
  induction n as [|n IH]; intros Hn; [exact (w_started_reach false)|].
  eapply reach_step; [apply IH; lia|]. by apply w_filled_step.
Qed.

Lemma discard_step fw dec p ow s c q :
  queue s = JPEG_EVT_ENC_START c :: q -> is_stop s = true -> is_exit_thread s = false ->
  step fw dec (MkSys p ow s) (MkSys p ow (set_queue q s)).
Proof.
  intros Q Hs Hx. apply (step_thread _ _ some_luck (MkSys p ow s)). cbn [st]. unfold thread_step. rewrite Q, Hx. cbn. by rewrite Hs.
Qed.
Lemma exif_step fw dec ow s p :
  zlen (queue s) < JPEG_MSG_QUEUE_SIZE - 1 -> ExifImage._check_wexif_param p = JPEG_CODEC_SUCCESS ->
  step fw dec (MkSys Idle ow s) (MkSys ExifWait ow (set_queue (queue s ++ [JPEG_EVT_ENC_EXIF p]) s)).
Proof.
  intros Q C. apply (step_call _ _ (AddExif true p) JPEG_CODEC_SUCCESS); [done|done|]. cbn [call]. unfold jpeg_enc_add_eixf, post.
  rewrite C. cbn [st]. by rewrite (proj2 (Z.ltb_lt _ _)).
Qed.

Lemma failed_stop_blocks :
  exists y, reach (step sample_fw false) (ready []) y /\ pos y = ExifWait /\
    forall z, reach (step sample_fw false) y z -> pos z = ExifWait /\ resume z = None.
Proof.
  set (s := set_stop true (st (w_filled 38))). set (q := replicate 38 (JPEG_EVT_ENC_NEXT w_next)).
  assert (R1 : reach (step sample_fw false) (ready []) (MkSys (Stopping 200) (open w_started) s)).
  { eapply reach_step; [by apply (w_filled_reach 38)|].
    apply (step_call _ _ (Stop 200) JPEG_CODEC_SUCCESS); [done| |reflexivity]. right. vm_compute. by eexists. }
  assert (R2 : reach (step sample_fw false) (ready []) (MkSys Idle (open w_started) s)).
  { eapply reach_step; [exact R1|]. apply (step_resume _ _ JPEG_CODEC_ERROR). apply (stop_queue_full 200); [done|]. vm_compute. discriminate. }
  assert (R3 : reach (step sample_fw false) (ready []) (MkSys Idle (open w_started) (set_queue q s))).
  { eapply reach_step; [exact R2|]. by apply (discard_step _ _ _ _ s 100). }
  exists (MkSys ExifWait (open w_started) (set_queue (q ++ [JPEG_EVT_ENC_EXIF w_exif]) s)). split; [|split; [done|]].
  - eapply reach_step; [exact R3|]. apply (exif_step _ _ _ (set_queue q s)); [vm_compute; reflexivity|reflexivity].
  - intros z. apply stuck_waits. split; [by left|]. split; [done|]. split; [done|]. split; [done|].
    apply Forall_app. split; [|by repeat constructor]. apply Forall_replicate. discriminate.
Qed.
