(* ===== verification/AudioNv.v ===== *)
(** The audio parameters as text:
    common/libs/audio/nv_exchange/string_exchange_bin.c, which writes the
    parameters of every audio mode to a text file and reads such a file, and
    the structures of common/apps/engmode/eng_audio.h.

    Texts are lists of characters, as in TextConf.v; [long] has 32 bits, as on
    the processors of these telephones.  An access outside of an array, and a
    conversion of [sscanf] without an argument that would store something, is
    [None]. *)
From S2P Require Import Prelude TextConf.
From Stdlib Require Import Ascii.

(** ** The parameters *)
Definition NAME_LEN_MAX : nat := 16.
Definition EQ_BAND_MAX : nat := 8.
Definition EQ_MODE_MAX : nat := 6.
Definition AUDIO_DEVICE_MODE_PARAM_MAX : nat := 8.
Definition AUDIO_AGC_INPUG_GAIN_MAX : nat := 8.
Definition AUDIO_ARM_VOLUME_LEVEL : nat := 31.
Definition AUDIO_NV_ARM_APP_PARA_RESERVE : nat := 9.
Definition AUDIO_ARM_APP_TYPE_MAX : nat := 16.
Definition AUDIO_NV_ARM_PARA_RESERVE : nat := 64.
Definition EXTEND_MAX : nat := 59.
Definition EXP_MAX : nat := 2.

Record EQ_BAND_INPUT_PARA_T := MkBand { fo : Z; q : Z; boostdB : Z; gaindB : Z }.
Record EQ_MODE_PARA_T := MkEqMode { agc_in_gain : Z; band_control : Z; eq_band : list EQ_BAND_INPUT_PARA_T }.
Record AUDIO_ENHA_EQ_STRUCT_T := MkEq { para_name : text; eq_control : Z; eq_modes : list EQ_MODE_PARA_T; externdArray : list Z }.
Record AUDIO_NV_ARM_DEVICE_PATH_T := MkPath { valid_dev_set_count : Z; dev_reserve : Z; dev_set : list Z }.
Record AUDIO_NV_ARM_APP_CONFIG_INFO_T := MkApp {
  eq_switch : Z; agc_input_gain : list Z; valid_volume_level_count : Z; arm_volume : list Z; app_reserve : list Z }.
Record AUDIO_NV_ARM_APP_SET_T := MkAppSet {
  valid_app_set_count : Z; valid_agc_input_gain_count : Z; aud_proc_exp_control : list Z;
  app_config_info : list AUDIO_NV_ARM_APP_CONFIG_INFO_T }.
Record AUDIO_NV_ARM_MODE_STRUCT_T := MkArm {
  dev_path_set : AUDIO_NV_ARM_DEVICE_PATH_T; app_config_info_set : AUDIO_NV_ARM_APP_SET_T;
  midi_opt : Z; aud_dev : Z; arm_reserve : list Z }.
Record AUDIO_TOTAL_T := MkTotal {
  audio_enha_eq : AUDIO_ENHA_EQ_STRUCT_T; ucModeName : text; tAudioNvArmModeStruct : AUDIO_NV_ARM_MODE_STRUCT_T }.
Definition sizeof_AUDIO_TOTAL_T : Z := 3344.

(** ** Its members, and access to them *)
Inductive arm_field :=
| ValidDev | DevReserve | DevSet (i : Z) | ValidApp | ValidAgc | ExpControl (i : Z)
| EqSwitch (a : Z) | AgcGain (a i : Z) | VolCount (a : Z) | ArmVolume (a i : Z) | AppReserve (a i : Z)
| MidiOpt | AudDev | ArmReserve (i : Z).
Inductive eq_field :=
| EqControl | AgcInGain (m : Z) | BandControl (m : Z) | Fo (m b : Z) | Q (m b : Z) | Boost (m b : Z) | Gain (m b : Z) | Extend (i : Z).

Definition at_index {A B} (i : Z) (l : list A) (f : A -> option B) : option B := if 0 <=? i then x ← l !! Z.to_nat i; f x else None.
Definition update {A} (i : Z) (l : list A) (f : A -> option A) : option (list A) :=
  at_index i l (fun x => y ← f x; Some (<[Z.to_nat i := y]> l)).
Definition put (i v : Z) (l : list Z) : option (list Z) := update i l (fun _ => Some v).

Definition app_get (f : arm_field) (c : AUDIO_NV_ARM_APP_CONFIG_INFO_T) : option Z :=
  match f with
  | EqSwitch _ => Some (eq_switch c) | VolCount _ => Some (valid_volume_level_count c)
  | AgcGain _ i => at_index i (agc_input_gain c) Some | ArmVolume _ i => at_index i (arm_volume c) Some
  | AppReserve _ i => at_index i (app_reserve c) Some | _ => None
  end.
Definition arm_get (f : arm_field) (s : AUDIO_NV_ARM_MODE_STRUCT_T) : option Z :=
  let p := dev_path_set s in let t := app_config_info_set s in
  match f with
  | ValidDev => Some (valid_dev_set_count p) | DevReserve => Some (dev_reserve p) | DevSet i => at_index i (dev_set p) Some
  | ValidApp => Some (valid_app_set_count t) | ValidAgc => Some (valid_agc_input_gain_count t)
  | ExpControl i => at_index i (aud_proc_exp_control t) Some
  | EqSwitch a | AgcGain a _ | VolCount a | ArmVolume a _ | AppReserve a _ => at_index a (app_config_info t) (app_get f)
  | MidiOpt => Some (midi_opt s) | AudDev => Some (aud_dev s) | ArmReserve i => at_index i (arm_reserve s) Some
  end.
Definition eq_get (f : eq_field) (e : AUDIO_ENHA_EQ_STRUCT_T) : option Z :=
  match f with
  | EqControl => Some (eq_control e)
  | AgcInGain m => at_index m (eq_modes e) (fun x => Some (agc_in_gain x))
  | BandControl m => at_index m (eq_modes e) (fun x => Some (band_control x))
  | Fo m b => at_index m (eq_modes e) (fun x => at_index b (eq_band x) (fun y => Some (fo y)))
  | Q m b => at_index m (eq_modes e) (fun x => at_index b (eq_band x) (fun y => Some (q y)))
  | Boost m b => at_index m (eq_modes e) (fun x => at_index b (eq_band x) (fun y => Some (boostdB y)))
  | Gain m b => at_index m (eq_modes e) (fun x => at_index b (eq_band x) (fun y => Some (gaindB y)))
  | Extend i => at_index i (externdArray e) Some
  end.

(** A store, which truncates to the member's width. *)
Definition s16 (z : Z) : Z := (z + 2 ^ 15) mod 2 ^ 16 - 2 ^ 15.
Definition app_put (f : arm_field) (v : Z) (c : AUDIO_NV_ARM_APP_CONFIG_INFO_T) : option AUDIO_NV_ARM_APP_CONFIG_INFO_T :=
  match f with
  | EqSwitch _ => Some (MkApp (u16 v) (agc_input_gain c) (valid_volume_level_count c) (arm_volume c) (app_reserve c))
  | AgcGain _ i => l ← put i (u16 v) (agc_input_gain c); Some (MkApp (eq_switch c) l (valid_volume_level_count c) (arm_volume c) (app_reserve c))
  | VolCount _ => Some (MkApp (eq_switch c) (agc_input_gain c) (u16 v) (arm_volume c) (app_reserve c))
  | ArmVolume _ i => l ← put i (u32 v) (arm_volume c); Some (MkApp (eq_switch c) (agc_input_gain c) (valid_volume_level_count c) l (app_reserve c))
  | AppReserve _ i => l ← put i (u16 v) (app_reserve c); Some (MkApp (eq_switch c) (agc_input_gain c) (valid_volume_level_count c) (arm_volume c) l)
  | _ => None
  end.
Definition arm_put (f : arm_field) (v : Z) (s : AUDIO_NV_ARM_MODE_STRUCT_T) : option AUDIO_NV_ARM_MODE_STRUCT_T :=
  let p := dev_path_set s in let t := app_config_info_set s in
  let with_p p := Some (MkArm p t (midi_opt s) (aud_dev s) (arm_reserve s)) in
  let with_t t := Some (MkArm p t (midi_opt s) (aud_dev s) (arm_reserve s)) in
  match f with
  | ValidDev => with_p (MkPath (u16 v) (dev_reserve p) (dev_set p))
  | DevReserve => with_p (MkPath (valid_dev_set_count p) (u16 v) (dev_set p))
  | DevSet i => l ← put i (u16 v) (dev_set p); with_p (MkPath (valid_dev_set_count p) (dev_reserve p) l)
  | ValidApp => with_t (MkAppSet (u16 v) (valid_agc_input_gain_count t) (aud_proc_exp_control t) (app_config_info t))
  | ValidAgc => with_t (MkAppSet (valid_app_set_count t) (u16 v) (aud_proc_exp_control t) (app_config_info t))
  | ExpControl i => l ← put i (u16 v) (aud_proc_exp_control t);
      with_t (MkAppSet (valid_app_set_count t) (valid_agc_input_gain_count t) l (app_config_info t))
  | EqSwitch a | AgcGain a _ | VolCount a | ArmVolume a _ | AppReserve a _ => l ← update a (app_config_info t) (app_put f v);
      with_t (MkAppSet (valid_app_set_count t) (valid_agc_input_gain_count t) (aud_proc_exp_control t) l)
  | MidiOpt => Some (MkArm p t (u16 v) (aud_dev s) (arm_reserve s))
  | AudDev => Some (MkArm p t (midi_opt s) (u16 v) (arm_reserve s))
  | ArmReserve i => l ← put i (u16 v) (arm_reserve s); Some (MkArm p t (midi_opt s) (aud_dev s) l)
  end.
Definition band_put (f : eq_field) (v : Z) (y : EQ_BAND_INPUT_PARA_T) : option EQ_BAND_INPUT_PARA_T :=
  match f with
  | Fo _ _ => Some (MkBand (s16 v) (q y) (boostdB y) (gaindB y)) | Q _ _ => Some (MkBand (fo y) (s16 v) (boostdB y) (gaindB y))
  | Boost _ _ => Some (MkBand (fo y) (q y) (s16 v) (gaindB y)) | Gain _ _ => Some (MkBand (fo y) (q y) (boostdB y) (s16 v))
  | _ => None
  end.
Definition mode_put (f : eq_field) (v : Z) (x : EQ_MODE_PARA_T) : option EQ_MODE_PARA_T :=
  match f with
  | AgcInGain _ => Some (MkEqMode (s16 v) (band_control x) (eq_band x))
  | BandControl _ => Some (MkEqMode (agc_in_gain x) (s16 v) (eq_band x))
  | Fo _ b | Q _ b | Boost _ b | Gain _ b => l ← update b (eq_band x) (band_put f v); Some (MkEqMode (agc_in_gain x) (band_control x) l)
  | _ => None
  end.
Definition eq_put (f : eq_field) (v : Z) (e : AUDIO_ENHA_EQ_STRUCT_T) : option AUDIO_ENHA_EQ_STRUCT_T :=
  match f with
  | EqControl => Some (MkEq (para_name e) (u16 v) (eq_modes e) (externdArray e))
  | Extend i => l ← put i (s16 v) (externdArray e); Some (MkEq (para_name e) (eq_control e) (eq_modes e) l)
  | AgcInGain m | BandControl m | Fo m _ | Q m _ | Boost m _ | Gain m _ =>
    l ← update m (eq_modes e) (mode_put f v); Some (MkEq (para_name e) (eq_control e) l (externdArray e))
  end.

(** ** The audio modes *)
Record audio_mode_item_t := MkItem { index : Z; mode_name : text }.
Record aud_mode_t := MkModes { num : Z; audio_mode_item_info : option (list audio_mode_item_t) }.

(** The handler of expat's events, each a tag with its attributes, in names
    and values; [next] is the pointer to the next item. *)
Definition tag : Type := text * list text.
Definition audmode_create (m : aud_mode_t) (s : text) (malloced : bool) : aud_mode_t * bool :=
  if atoi s =? 0 then (m, false) else
  let m' := MkModes (atoi s) (audio_mode_item_info m) in
  match audio_mode_item_info m with
  | Some _ => (m', true)
  | None =>
    if malloced && (0 <? atoi s) then (MkModes (atoi s) (Some (replicate (Z.to_nat (atoi s)) (MkItem 0 (replicate NAME_LEN_MAX NUL)))), true)
    else (m', false)
  end.
Definition start_tag (malloced : bool) (st : aud_mode_t * option nat) (t : tag) : option (aud_mode_t * option nat) :=
  let '(m, next) := st in
  if bool_decide (t.1 = chars "audiomode") then
    a0 ← t.2 !! 0%nat;
    if bool_decide (a0 = chars "num") then
      a1 ← t.2 !! 1%nat;
      let '(m, ok) := audmode_create m a1 malloced in Some (m, if ok : bool then Some 0%nat else None)
    else Some (m, next)
  else if bool_decide (t.1 = chars "item") then
    match next with
    | None => Some (m, next)
    | Some k =>
      a0 ← t.2 !! 0%nat;
      if negb (bool_decide (a0 = chars "name")) then Some (m, next) else
      a2 ← t.2 !! 2%nat;
      if negb (bool_decide (a2 = chars "index")) then Some (m, next) else
      a1 ← t.2 !! 1%nat;
      a3 ← t.2 !! 3%nat;
      l ← audio_mode_item_info m;
      it ← l !! k;
      let w := take NAME_LEN_MAX a1 in
      let it := MkItem (atoi a3) (w ++ drop (length w) (mode_name it)) in
      Some (MkModes (num m) (Some (<[k := it]> l)), Some (S k))
    end
  else Some (m, next).
(** [parse]: the file is read in pieces, and expat calls the handler for the
    tags it meets; [s] is [s_audiomode].  [None]: an access outside of the
    items, or the rounds do not end. *)
Inductive round := NoBuffer | ReadError | Piece (bytes : Z) (tags : list tag) (xml_ok : bool).
Fixpoint parse_tags (malloced : bool) (st : aud_mode_t * option nat) (ts : list tag) : option (aud_mode_t * option nat) :=
  match ts with
  | [] => Some st
  | t :: ts => st ← start_tag malloced st t; parse_tags malloced st ts
  end.
Fixpoint parse_rounds (malloced : bool) (st : aud_mode_t * option nat) (rs : list round) : option (option aud_mode_t) :=
  match rs with
  | [] => None
  | NoBuffer :: _ | ReadError :: _ => Some None
  | Piece n ts ok :: rs =>
    st ← parse_tags malloced st ts;
    if negb ok then Some None else if n =? 0 then Some (Some (fst st)) else parse_rounds malloced st rs
  end.
Definition parse (s : option aud_mode_t) (calloced opened created malloced : bool) (rs : list round) : option (option aud_mode_t) :=
  match s with
  | Some m => Some (Some m)
  | None => if calloced && opened && created then parse_rounds malloced (MkModes 0 None, None) rs else Some None
  end.
Definition adev_get_audiomodenum4eng (s : option aud_mode_t) : option Z := m ← s; Some (num m).
Definition adev_free_audmode (s : option aud_mode_t) : option aud_mode_t := None.

(** ** Reading *)
Definition my_strtol (src : text) : Z :=
  let hex c := match hex_digit_value c with Some _ => true | None => false end in
  let ds := take 8 (fst (span hex (drop 2 src))) in
  s32 (foldl (fun v c => 16 * v + default 0 (hex_digit_value c)) 0 ds).

Inductive arm_key :=
| KMidiOpt | KAudDev | KArmReserve | KValidDev | KDevReserve | KDevSet | KValidApp | KValidAgc | KExpControl
| KEqSwitch (a : Z) | KAgcGain (a : Z) | KVolCount (a : Z) | KArmVolume (a : Z) | KAppReserve (a : Z).
Inductive eq_key :=
| KEqControl | KAgcInGain (m : Z) | KBandControl (m : Z) | KFo (m b : Z) | KQ (m b : Z) | KBoost (m b : Z) | KGain (m b : Z) | KExtend.

(** The tests of a line of the first kind, in their order. *)
Definition arm_tests : list (text * arm_key) :=
  [(chars "AudioStructure\midi_opt", KMidiOpt); (chars "AudioStructure\aud_dev", KAudDev); (chars "AudioStructure\reserve", KArmReserve);
   (chars "dev_path_set\valid_dev_set_count", KValidDev); (chars "dev_path_set\reserve", KDevReserve);
   (chars "dev_path_set\dev_set", KDevSet); (chars "app_config_info_set\valid_app_set_count", KValidApp);
   (chars "app_config_info_set\valid_agc_input_gain_count", KValidAgc);
   (chars "app_config_info_set\aud_proc_exp_control", KExpControl)].
Definition app_prefix : text := chars "app_config_info_set\app_config_info\app_config_info[".
Definition app_tests (a : Z) : list (text * arm_key) :=
  [(chars "eq_switch", KEqSwitch a); (chars "agc_input_gain", KAgcGain a); (chars "valid_volume_level_count", KVolCount a);
   (chars "arm_volume", KArmVolume a); (chars "reserve", KAppReserve a)].
Definition band_tests (m b : Z) : list (text * eq_key) :=
  [(chars "boostdB", KBoost m b); (chars "gaindB", KGain m b)].

Fixpoint first_test {K} (l : text) (ts : list (text * K)) : option K :=
  match ts with
  | [] => None
  | (n, k) :: ts => if contains l n then Some k else first_test l ts
  end.

(** [sscanf] with a set of digits and a second conversion up to [stop], which
    has no argument: only if it finds nothing is this defined. *)
Definition scan_digits (p : ascii -> bool) (stop : ascii) (l data : text) : option text :=
  let '(w, r) := span p l in
  match w, r with
  | [], _ => Some data
  | _, [] => store_string data w
  | _, c :: _ => if ascii_dec c stop then store_string data w else None
  end.
Definition digit09 (c : ascii) : bool := (48 <=? code c) && (code c <=? 57).
Definition digit19 (c : ascii) : bool := (49 <=? code c) && (code c <=? 57).

(** Which member a line names, and the text to look for the value in; with
    [data], a buffer that keeps its contents from line to line. *)
Definition arm_decide (l data : text) : option (option (arm_key * text) * text) :=
  match first_test l arm_tests with
  | Some k => Some (Some (k, l), data)
  | None =>
    match strstr l app_prefix with
    | None => Some (None, data)
    | Some t =>
      data ← scan_digits digit09 "]" (drop (length app_prefix) t) data;
      Some ((k ← first_test t (app_tests (s16 (atoi (cstr data)))); Some (k, t)), data)
    end
  end.

Definition eq_decide (l data : text) : option (option eq_key * text) :=
  if contains l (chars "eq_control") then Some (Some KEqControl, data) else
  let extend := if contains l (chars "extendArray") then Some KExtend else None in
  match strstr l (chars "eq_mode_") with
  | None => Some (extend, data)
  | Some t =>
    data ← scan_digits digit19 "\" (drop 8 t) data;
    let m := atoi (cstr data) - 1 in
    if contains t (chars "agc_in_gain") then Some (Some (KAgcInGain m), data)
    else if contains t (chars "band_control") then Some (Some (KBandControl m), data)
    else match strstr t (chars "eq_band_") with
    | None => Some (extend, data)
    | Some t =>
      data ← scan_digits digit09 "\" (drop 8 t) data;
      let b := s16 (atoi (cstr data)) - 1 in
      if contains t (chars "fo") then Some (Some (KFo m b), data)
      else if Nat.ltb (length t) 9 then None
      else if contains (drop 9 t) (chars "q") then Some (Some (KQ m b), data)
      else match first_test t (band_tests m b) with
           | Some k => Some (Some k, data)
           | None => Some (extend, data)
           end
    end
  end.

(** The value behind the equals sign, in a buffer of 128 characters. *)
Inductive width := Short | Int | Volume.
Definition arm_width (k : arm_key) : width :=
  match k with KMidiOpt | KVolCount _ => Int | KArmVolume _ => Volume | _ => Short end.
Definition eq_width (k : eq_key) : width := match k with KAgcInGain _ | KBandControl _ => Int | _ => Short end.
Definition line_value (w : width) (l : text) : option Z :=
  let nvtemp := match strstr l (chars "=") with Some t => drop 1 t | None => [] end in
  if Nat.leb 128 (length nvtemp) then None else
  let hex := match strstr nvtemp (chars "0x") with Some t => Some t | None => strstr nvtemp (chars "0X") end in
  Some (match hex, w with
        | Some t, Volume => my_strtol t
        | None, Volume | None, Int => atoi nvtemp
        | Some _, Int => strtol 16 nvtemp
        | Some _, Short => s16 (strtol 16 nvtemp)
        | None, Short => s16 (atoi nvtemp)
        end).

(** The arrays are filled in the order of the lines, by counters. *)
Record counters := MkCounters {
  index_dev_set : Z; index_aud_proc_exp_control : Z; index_agc_input_gain : Z; index_arm_volume : Z;
  index_reserve_1 : Z; index_reserve_3 : Z; index_extendArray : Z }.
Definition counters0 : counters := MkCounters 0 0 0 0 0 0 0.
Definition next (i : Z) (n : nat) : Z := if i + 1 =? Z.of_nat n then 0 else i + 1.
Definition arm_target (k : arm_key) (c : counters) : arm_field * counters :=
  let '(MkCounters ds ep ag vo r1 r3 ex) := c in
  match k with
  | KMidiOpt => (MidiOpt, c) | KAudDev => (AudDev, c)
  | KArmReserve => (ArmReserve r1, MkCounters ds ep ag vo (next r1 AUDIO_NV_ARM_PARA_RESERVE) r3 ex)
  | KValidDev => (ValidDev, c) | KDevReserve => (DevReserve, c)
  | KDevSet => (DevSet ds, MkCounters (next ds AUDIO_DEVICE_MODE_PARAM_MAX) ep ag vo r1 r3 ex)
  | KValidApp => (ValidApp, c) | KValidAgc => (ValidAgc, c)
  | KExpControl => (ExpControl ep, MkCounters ds (next ep EXP_MAX) ag vo r1 r3 ex)
  | KEqSwitch a => (EqSwitch a, c)
  | KAgcGain a => (AgcGain a ag, MkCounters ds ep (next ag AUDIO_AGC_INPUG_GAIN_MAX) vo r1 r3 ex)
  | KVolCount a => (VolCount a, c)
  | KArmVolume a => (ArmVolume a vo, MkCounters ds ep ag (next vo AUDIO_ARM_VOLUME_LEVEL) r1 r3 ex)
  | KAppReserve a => (AppReserve a r3, MkCounters ds ep ag vo r1 (next r3 AUDIO_NV_ARM_APP_PARA_RESERVE) ex)
  end.
Definition eq_target (k : eq_key) (c : counters) : eq_field * counters :=
  let '(MkCounters ds ep ag vo r1 r3 ex) := c in
  match k with
  | KEqControl => (EqControl, c) | KAgcInGain m => (AgcInGain m, c) | KBandControl m => (BandControl m, c)
  | KFo m b => (Fo m b, c) | KQ m b => (Q m b, c) | KBoost m b => (Boost m b, c) | KGain m b => (Gain m b, c)
  | KExtend => (Extend ex, MkCounters ds ep ag vo r1 r3 (next ex EXTEND_MAX))
  end.

Record reader := MkReader {
  params : list AUDIO_TOTAL_T; output_arm : Z; output_eq : Z; outputstyle : text; data : text; cnt : counters }.

(** [sscanf] of the mode's name, up to the next backslash: whether its result
    is not 0, and the buffer. *)
Definition scan_style (lit l buf : text) : option (bool * text) :=
  if prefix_of lit l then
    match drop (length lit) l with
    | [] => Some (true, buf)
    | r => match fst (span (fun c => negb (Ascii.eqb c "\")) r) with
           | [] => Some (false, buf)
           | w => buf ← store_string buf w; Some (true, buf)
           end
    end
  else Some (false, buf).

(** The index of the mode of this name, the old one if there is none. *)
Fixpoint find_mode (w : text) (items : list audio_mode_item_t) (old : Z) : option Z :=
  match items with
  | [] => Some old
  | it :: items => n ← c_string (mode_name it); if bool_decide (w = n) then Some (index it) else find_mode w items old
  end.
Definition mode_items (m : aud_mode_t) : list audio_mode_item_t := default [] (audio_mode_item_info m).

Definition arm_line (m : aud_mode_t) (l : text) (r : reader) : option reader :=
  '(go, style) ← scan_style (chars "audio_arm\audio_arm\") l (outputstyle r);
  if negb go then Some (MkReader (params r) (output_arm r) (output_eq r) style (data r) (cnt r)) else
  let w := cstr style in
  out ← find_mode w (take (Z.to_nat (num m)) (mode_items m)) (output_arm r);
  '(d, dat) ← arm_decide l (data r);
  ps ← update out (params r) (fun t => n ← store_string (ucModeName t) w; Some (MkTotal (audio_enha_eq t) n (tAudioNvArmModeStruct t)));
  match d with
  | None => Some (MkReader ps out (output_eq r) style dat (cnt r))
  | Some (k, t) =>
    v ← line_value (arm_width k) t;
    let '(f, c) := arm_target k (cnt r) in
    ps ← update out ps (fun t => s ← arm_put f v (tAudioNvArmModeStruct t); Some (MkTotal (audio_enha_eq t) (ucModeName t) s));
    Some (MkReader ps out (output_eq r) style dat c)
  end.

Definition eq_line (m : aud_mode_t) (l : text) (r : reader) : option reader :=
  '(go, style) ← scan_style (chars "%audio\") (skip_space l) (outputstyle r);
  if negb go then Some (MkReader (params r) (output_arm r) (output_eq r) style (data r) (cnt r)) else
  let w := cstr style in
  out ← find_mode (cstr (drop 3 style)) (take (Z.to_nat (num m)) (mode_items m)) (output_eq r);
  '(d, dat) ← eq_decide l (data r);
  ps ← update out (params r) (fun t => let e := audio_enha_eq t in n ← store_string (para_name e) w;
         Some (MkTotal (MkEq n (eq_control e) (eq_modes e) (externdArray e)) (ucModeName t) (tAudioNvArmModeStruct t)));
  match d with
  | None => Some (MkReader ps (output_arm r) out style dat (cnt r))
  | Some k =>
    v ← line_value (eq_width k) l;
    let '(f, c) := eq_target k (cnt r) in
    ps ← update out ps (fun t => e ← eq_put f v (audio_enha_eq t); Some (MkTotal e (ucModeName t) (tAudioNvArmModeStruct t)));
    Some (MkReader ps (output_arm r) out style dat c)
  end.

Definition read_line (m : aud_mode_t) (l : text) (r : reader) : option reader :=
  if contains l (chars "audio_arm\audio_arm\") then arm_line m l r
  else if contains l (chars "%audio\") then eq_line m l r
  else Some r.

(** [fuel]: a round for every character is enough. *)
Fixpoint read_lines (fuel : nat) (m : aud_mode_t) (t : text) (r : reader) : option reader :=
  match fuel with
  | O => Some r
  | S f =>
    match fgets 1024 t with
    | None => Some r
    | Some (l, t) => r ← read_line m (cstr l) r; read_lines f m t r
    end
  end.
(** [s] is what [parse] leaves.  The name of the last mode is logged. *)
Definition stringfile2nvstruct (s : option aud_mode_t) (file : option text) (ps : list AUDIO_TOTAL_T) : option (list AUDIO_TOTAL_T) :=
  m ← s;
  match file with
  | None => Some ps
  | Some t =>
    _ ← at_index (num m - 1) (mode_items m) Some;
    r ← read_lines (S (length t)) m t (MkReader ps (-1) (-1) (replicate 128 NUL) (replicate 128 NUL) counters0);
    Some (params r)
  end.

(** ** Writing *)
Definition hex_text (v : Z) : text := digit_char <$> to_digits 8 16 (u32 v).

(** The lines behind the mode's name, up to the value; [i], [a], [m] and [b]
    are printed in decimal. *)
Definition arm_label (f : arm_field) : text :=
  let app a := chars "\AudioStructure\app_config_info_set\app_config_info\app_config_info[" ++ dec_text a in
  match f with
  | ValidDev => chars "\AudioStructure\dev_path_set\valid_dev_set_count=0x"
  | DevReserve => chars "\AudioStructure\dev_path_set\reserve=0x"
  | DevSet i => chars "\AudioStructure\dev_path_set\dev_set\dev_set[" ++ dec_text i ++ chars "]=0x"
  | ValidApp => chars "\AudioStructure\app_config_info_set\valid_app_set_count=0x"
  | ValidAgc => chars "\AudioStructure\app_config_info_set\valid_agc_input_gain_count=0x"
  | ExpControl i => chars "\AudioStructure\app_config_info_set\aud_proc_exp_control\aud_proc_exp_control[" ++ dec_text i ++ chars "]=0x"
  | EqSwitch a => app a ++ chars "]\eq_switch=0x"
  | AgcGain a i => app a ++ chars "]\agc_input_gain\agc_input_gain[" ++ dec_text i ++ chars "]=0x"
  | VolCount a => app a ++ chars "]\valid_volume_level_count=0x"
  | ArmVolume a i => app a ++ chars "]\arm_volume\arm_volume[" ++ dec_text i ++ chars "]=0x"
  | AppReserve a i => app a ++ chars "]\reserve\reserve[" ++ dec_text i ++ chars "]=0x"
  | MidiOpt => chars "\AudioStructure\midi_opt=0x"
  | AudDev => chars "\AudioStructure\aud_dev=0x"
  | ArmReserve i => chars "\AudioStructure\reserve\reserve[" ++ dec_text i ++ chars "]=0x"
  end.
Definition eq_label (f : eq_field) : text :=
  let mode m := chars "\eq_mode_" ++ dec_text (m + 1) in
  let band m b := mode m ++ chars "\eq_band_" ++ dec_text (b + 1) in
  match f with
  | EqControl => chars "\eq_control=0x"
  | AgcInGain m => mode m ++ chars "\agc_in_gain=0x"
  | BandControl m => mode m ++ chars "\band_control=0x"
  | Fo m b => band m b ++ chars "\fo=0x"
  | Q m b => band m b ++ chars "\q=0x"
  | Boost m b => band m b ++ chars "\boostdB=0x"
  | Gain m b => band m b ++ chars "\gaindB=0x"
  | Extend i => chars "\extendArray\extendArray[" ++ dec_text i ++ chars "]=0x"
  end.

(** The members in the order of the loops. *)
Definition upto (n : nat) : list Z := Z.of_nat <$> seq 0 n.
Definition app_fields (a : Z) : list arm_field :=
  EqSwitch a :: (AgcGain a <$> upto AUDIO_AGC_INPUG_GAIN_MAX) ++ VolCount a :: (ArmVolume a <$> upto AUDIO_ARM_VOLUME_LEVEL) ++
  (AppReserve a <$> upto AUDIO_NV_ARM_APP_PARA_RESERVE).
Definition arm_fields : list arm_field :=
  [ValidDev; DevReserve] ++ (DevSet <$> upto AUDIO_DEVICE_MODE_PARAM_MAX) ++ [ValidApp; ValidAgc] ++ (ExpControl <$> upto EXP_MAX) ++
  concat (app_fields <$> upto AUDIO_ARM_APP_TYPE_MAX) ++ [MidiOpt; AudDev] ++ (ArmReserve <$> upto AUDIO_NV_ARM_PARA_RESERVE).
Definition mode_fields (m : Z) : list eq_field :=
  [AgcInGain m; BandControl m] ++ concat ((fun b => [Fo m b; Q m b; Boost m b; Gain m b]) <$> upto EQ_BAND_MAX).
Definition eq_fields : list eq_field := EqControl :: concat (mode_fields <$> upto EQ_MODE_MAX) ++ (Extend <$> upto EXTEND_MAX).

(** All equaliser values but [q] are cut to 16 bits. *)
Definition eq_mask (f : eq_field) (v : Z) : Z := match f with Q _ _ => v | _ => Z.land v 0xffff end.

(** A line; [None] when the member is not there. *)
Definition arm_text (name : text) (s : AUDIO_NV_ARM_MODE_STRUCT_T) (f : arm_field) : option text :=
  v ← arm_get f s; Some (chars "audio_arm\audio_arm\" ++ name ++ arm_label f ++ hex_text v ++ [NL]).
Definition eq_text (name : text) (e : AUDIO_ENHA_EQ_STRUCT_T) (f : eq_field) : option text :=
  v ← eq_get f e; Some (chars "%audio\" ++ name ++ eq_label f ++ hex_text (eq_mask f v) ++ [NL]).

(** The names lie one behind the other in two blocks; a name that fills its
    place runs on into the next. *)
Definition arm_names (m : aud_mode_t) : text := concat (mode_name <$> take (Z.to_nat (num m)) (mode_items m)).
Definition eq_names (m : aud_mode_t) : text := concat ((fun it => chars "EQ_" ++ take (NAME_LEN_MAX - 3) (mode_name it)) <$> take (Z.to_nat (num m)) (mode_items m)).
Definition mode_text (m : aud_mode_t) (i : nat) (t : AUDIO_TOTAL_T) : option text :=
  an ← c_string (drop (i * NAME_LEN_MAX) (arm_names m));
  en ← c_string (drop (i * NAME_LEN_MAX) (eq_names m));
  la ← mapM (arm_text an (tAudioNvArmModeStruct t)) arm_fields;
  le ← mapM (eq_text en (audio_enha_eq t)) eq_fields;
  Some (concat la ++ concat le).

(** [Some None]: the file is not written. *)
Definition nvstruct2stringfile (s : option aud_mode_t) (malloced opened : bool) (ps : list AUDIO_TOTAL_T) (lenbytes : Z) : option (option text) :=
  m ← s;
  if negb malloced then Some None
  else if Nat.ltb (length (mode_items m)) (Z.to_nat (num m)) then None
  else if negb (u32 lenbytes =? u32 (sizeof_AUDIO_TOTAL_T * num m)) then Some None
  else if negb opened then Some None else
  ls ← mapM (fun i => t ← ps !! i; mode_text m i t) (seq 0 (Z.to_nat (num m)));
  Some (Some (concat ls)).
