(* ===== verification/AudioRound.v ===== *)
(** The round trip of the audio parameters: what [nvstruct2stringfile] writes,
    [stringfile2nvstruct] reads.

    A line is concrete but for the mode's name, the indices and the value.
    [item] describes such lines, [find_sym] searches them whatever these parts
    are, and the tests of the reader are decided by evaluation. *)
From S2P Require Import Prelude TextConf AudioNv.
From Stdlib Require Import Ascii.

(** ** Lines with unknown parts *)

(** A part [x] that is not empty, whose characters are in [P], and in which the
    words of [F] do not occur. *)
Inductive item := Ch (c : ascii) | Part (P : ascii -> bool) (F : list text) (x : text).
Definition part_ok (it : item) : Prop :=
  match it with Ch _ => True | Part P F x => x <> [] /\ forallb P x = true /\ Forall (fun n => strstr x n = None) F end.
Definition inst1 (it : item) : text := match it with Ch c => [c] | Part _ _ x => x end.
Definition inst (l : list item) : text := concat (inst1 <$> l).
Definition lit (s : string) : list item := Ch <$> chars s.

(** Three-valued: [None] when it depends on the parts. *)
Fixpoint prefix_sym (n : text) (l : list item) : option bool :=
  match n, l with
  | [], _ => Some true
  | _ :: _, [] => Some false
  | a :: n, Ch c :: l => if ascii_dec a c then prefix_sym n l else Some false
  | a :: _, Part P _ _ :: _ => if P a then None else Some false
  end.
Definition is_false (o : option bool) : bool := match o with Some false => true | _ => false end.

(** No occurrence of [n] starts inside the part. *)
Definition skips (n : text) (P : ascii -> bool) (F : list text) (l : list item) : bool :=
  forallb (fun k => negb (forallb P (take k n)) ||
    match drop k n with [] => bool_decide (n ∈ F) | v => is_false (prefix_sym v l) end) (seq 1 (length n)).
(** The number of items in front of the first occurrence. *)
Fixpoint find_sym (l : list item) (n : text) (k : nat) : option (option nat) :=
  match l with
  | Part P F _ :: r => if skips n P F r then find_sym r n (S k) else None
  | Ch c :: r => match prefix_sym n l with Some true => Some (Some k) | Some false => find_sym r n (S k) | None => None end
  | [] => match n with [] => Some (Some k) | _ => Some None end
  end.

Lemma inst_app a b : inst (a ++ b) = inst a ++ inst b.
Proof. unfold inst. by rewrite fmap_app, concat_app. Qed.
Lemma inst_lit s : inst (lit s) = chars s.
Proof. unfold inst, lit. induction (chars s) as [|c t IH]; [done|]. cbn. f_equal. exact IH. Qed.

Lemma prefix_sym_sound l n b : Forall part_ok l -> prefix_sym n l = Some b -> prefix_of n (inst l) = b.
Proof.
  revert l. induction n as [|a n IH]; intros l F H; [destruct l; cbn in *; congruence|].
  destruct l as [|[c|P Fs x] l]; cbn [prefix_sym] in H; [injection H as <-; done| |].
  - apply List.Forall_cons_iff in F as [_ F']. change (inst (Ch c :: l)) with (c :: inst l). cbn [prefix_of].
    destruct (ascii_dec a c); [by apply IH|congruence].
  - apply List.Forall_cons_iff in F as [(Hx & HP & _) F']. destruct (P a) eqn:E; [done|]. injection H as <-.
    change (inst (Part P Fs x :: l)) with (x ++ inst l). destruct x as [|c x]; [done|]. cbn [forallb] in HP. cbn [app prefix_of].
    apply andb_true_iff in HP as [HP _]. destruct (ascii_dec a c); [congruence|done].
Qed.

Lemma strstr_none_app x n y : strstr x n = None -> prefix_of n (x ++ y) = true -> exists k, (k < length n)%nat /\ length x = k.
Proof.
  intros H Hp. exists (length x). split; [|done]. apply prefix_of_app in Hp as (r & E).
  destruct (Nat.lt_ge_cases (length x) (length n)) as [|L]; [done|]. exfalso.
  assert (P : prefix_of n x = true).
  { apply prefix_of_app. exists (drop (length n) x). rewrite <- (take_drop (length n) x) at 1. f_equal.
    apply (f_equal (take (length n))) in E. rewrite take_app_le, take_app_length in E by lia. done. }
  destruct x; cbn in H; rewrite P in H; done.
Qed.

(** No occurrence starts at [x], a tail of a part. *)
Lemma skips_tail n P F l x :
  n <> [] -> skips n P F l = true -> Forall part_ok l -> x <> [] -> forallb P x = true -> Forall (fun n => strstr x n = None) F ->
  prefix_of n (x ++ inst l) = false.
Proof.
  intros Hn S Fl Hx HP HF. destruct (prefix_of n (x ++ inst l)) eqn:E; [|done]. exfalso.
  pose proof E as E'. apply prefix_of_app in E' as (r & Er). unfold skips in S. rewrite forallb_forall in S.
  destruct (Nat.lt_ge_cases (length x) (length n)) as [L|L].
  - assert (T : take (length x) n = x).
    { apply (f_equal (take (length x))) in Er. rewrite take_app_length, take_app_le in Er by lia. done. }
    specialize (S (length x)). rewrite T, HP in S. cbn [negb orb] in S.
    assert (I : In (length x) (seq 1 (length n))) by (apply in_seq; destruct x; cbn in *; [done|lia]).
    specialize (S I). destruct (drop (length x) n) as [|v0 v] eqn:D; [apply (f_equal length) in D; rewrite length_drop in D; cbn in D; lia|].
    destruct (prefix_sym (v0 :: v) l) as [[|]|] eqn:Es; try done. apply prefix_sym_sound in Es; [|done].
    assert (Pt : prefix_of (v0 :: v) (inst l) = true); [|congruence]. apply prefix_of_app. exists r. rewrite <- D.
    apply (f_equal (drop (length x))) in Er. rewrite drop_app_length, drop_app_le in Er by lia. done.
  - assert (T : n = take (length n) x).
    { apply (f_equal (take (length n))) in Er. rewrite take_app_le, take_app_length in Er by lia. done. }
    assert (Hall : forallb P n = true).
    { rewrite T. rewrite <- (take_drop (length n) x), forallb_app in HP. by apply andb_true_iff in HP as [? _]. }
    specialize (S (length n)). rewrite take_ge, drop_ge, Hall in S by lia. cbn [negb orb] in S.
    assert (I : In (length n) (seq 1 (length n))) by (apply in_seq; destruct n; cbn in *; [done|lia]).
    specialize (S I). apply bool_decide_eq_true in S. rewrite Forall_forall in HF. specialize (HF n (proj1 (list_elem_of_In _ _) S)).
    destruct (strstr_none_app x n (inst l) HF E) as (k & ? & ?). lia.
Qed.

Lemma skip_part n P F l x :
  n <> [] -> skips n P F l = true -> Forall part_ok l -> forallb P x = true -> Forall (fun n => strstr x n = None) F ->
  strstr (x ++ inst l) n = strstr (inst l) n.
Proof.
  intros Hn S Fl HP HF. induction x as [|c x IH]; [done|]. cbn [app strstr].
  change (c :: x ++ inst l) with ((c :: x) ++ inst l). rewrite (skips_tail n P F l (c :: x)) by done.
  apply IH; [cbn in HP; by apply andb_true_iff in HP as [_ ?]|].
  eapply Forall_impl; [|exact HF]. intros n' H. cbn in H. by destruct (prefix_of n' (c :: x)).
Qed.

Lemma find_sym_sound l n o : n <> [] -> Forall part_ok l -> find_sym l n 0 = Some o -> strstr (inst l) n = (fun k => inst (drop k l)) <$> o.
Proof.
  intros Hn Fl. enough (G : forall l k o, Forall part_ok l -> find_sym l n k = Some o ->
    match o with Some j => exists i, j = (i + k)%nat /\ strstr (inst l) n = Some (inst (drop i l)) | None => strstr (inst l) n = None end).
  { intros H. specialize (G l 0%nat o Fl H). destruct o as [j|]; [|done]. destruct G as (i & -> & ->). by rewrite Nat.add_0_r. }
  clear l o Fl. induction l as [|[c|P F x] l IH]; intros k o Fl H; try (apply List.Forall_cons_iff in Fl as [Hk Fl']); cbn [find_sym] in H.
  - destruct n; [done|]. by injection H as <-.
  - destruct (prefix_sym n (Ch c :: l)) as [b|] eqn:Es; [|done]. apply prefix_sym_sound in Es; [|by constructor].
    change (inst (Ch c :: l)) with (c :: inst l) in *. cbn [strstr]. rewrite Es. destruct b; [injection H as <-; by exists 0%nat|].
    specialize (IH _ _ Fl' H). destruct o as [j|]; [|done]. destruct IH as (i & -> & ->). exists (S i). split; [lia|done].
  - destruct (skips n P F l) eqn:S; [|done]. change (inst (Part P F x :: l)) with (x ++ inst l).
    destruct Hk as (_ & HP & HF). rewrite (skip_part n P F) by done. specialize (IH _ _ Fl' H).
    destruct o as [j|]; [|done]. destruct IH as (i & -> & ->). exists (Datatypes.S i). split; [lia|done].
Qed.

Fixpoint first_sym {K} (l : list item) (ts : list (text * K)) : option (option K) :=
  match ts with
  | [] => Some None
  | (n, k) :: ts => match find_sym l n 0 with Some (Some _) => Some (Some k) | Some None => first_sym l ts | None => None end
  end.
Lemma first_sym_sound {K} l (ts : list (text * K)) o :
  Forall (fun t => t.1 <> []) ts -> Forall part_ok l -> first_sym l ts = Some o -> first_test (inst l) ts = o.
Proof.
  intros Ft Fl. induction Ft as [|[n k] ts Hn Ft IH]; cbn [first_sym first_test]; [by intros [= <-]|]. unfold contains.
  destruct (find_sym l n 0) as [[t|]|] eqn:E; [| |done]; apply find_sym_sound in E; try done; rewrite E; [by intros [= <-]|exact IH].
Qed.
Lemma contains_sym l n b : n <> [] -> Forall part_ok l ->
  match find_sym l n 0 with Some (Some _) => Some true | Some None => Some false | None => None end = Some b -> contains (inst l) n = b.
Proof.
  intros Hn Fl. unfold contains. destruct (find_sym l n 0) as [[t|]|] eqn:E; [| |done]; apply find_sym_sound in E; try done; rewrite E;
    by intros [= <-].
Qed.

(** ** The parts of the lines *)
Definition namec (c : ascii) : bool := negb (existsb (Ascii.eqb c) [NUL; NL; "\"; "_"; "="]%char).
Definition hexc (c : ascii) : bool := digit09 c || ((97 <=? code c) && (code c <=? 102)).

(** A mode's name: short enough for both copies, and none that looks like a
    label. *)
Record name_ok (w : text) : Prop := {
  n_some : w <> []; n_short : (length w <= 12)%nat; n_chars : forallb namec w = true;
  n_extend : strstr w (chars "extendArray") = None }.

Abbreviation num_part x := (Part digit09 [] x).
Definition arm_sym_label (f : arm_field) (da di : text) : list item :=
  let app := lit "\AudioStructure\app_config_info_set\app_config_info\app_config_info[" ++ [num_part da] in
  match f with
  | ValidDev => lit "\AudioStructure\dev_path_set\valid_dev_set_count=0x"
  | DevReserve => lit "\AudioStructure\dev_path_set\reserve=0x"
  | DevSet _ => lit "\AudioStructure\dev_path_set\dev_set\dev_set[" ++ [num_part di] ++ lit "]=0x"
  | ValidApp => lit "\AudioStructure\app_config_info_set\valid_app_set_count=0x"
  | ValidAgc => lit "\AudioStructure\app_config_info_set\valid_agc_input_gain_count=0x"
  | ExpControl _ => lit "\AudioStructure\app_config_info_set\aud_proc_exp_control\aud_proc_exp_control[" ++ [num_part di] ++ lit "]=0x"
  | EqSwitch _ => app ++ lit "]\eq_switch=0x"
  | AgcGain _ _ => app ++ lit "]\agc_input_gain\agc_input_gain[" ++ [num_part di] ++ lit "]=0x"
  | VolCount _ => app ++ lit "]\valid_volume_level_count=0x"
  | ArmVolume _ _ => app ++ lit "]\arm_volume\arm_volume[" ++ [num_part di] ++ lit "]=0x"
  | AppReserve _ _ => app ++ lit "]\reserve\reserve[" ++ [num_part di] ++ lit "]=0x"
  | MidiOpt => lit "\AudioStructure\midi_opt=0x"
  | AudDev => lit "\AudioStructure\aud_dev=0x"
  | ArmReserve _ => lit "\AudioStructure\reserve\reserve[" ++ [num_part di] ++ lit "]=0x"
  end.
Definition value_sym (hx : text) : list item := [Part hexc [] hx; Ch NL].
Definition arm_sym (f : arm_field) (w da di hx : text) : list item :=
  lit "audio_arm\audio_arm\" ++ [Part namec [chars "extendArray"] w] ++ arm_sym_label f da di ++ value_sym hx.

Definition app_of (f : arm_field) : Z := match f with EqSwitch a | AgcGain a _ | VolCount a | ArmVolume a _ | AppReserve a _ => a | _ => 0 end.
Definition idx_of (f : arm_field) : Z := match f with DevSet i | ExpControl i | AgcGain _ i | ArmVolume _ i | AppReserve _ i | ArmReserve i => i | _ => 0 end.

Lemma inst_part P F x : inst [Part P F x] = x.
Proof. unfold inst. cbn. apply app_nil_r. Qed.
Lemma inst_value hx : inst (value_sym hx) = hx ++ [NL].
Proof. done. Qed.

Lemma arm_line_inst f w hx :
  inst (arm_sym f w (dec_text (app_of f)) (dec_text (idx_of f)) hx) = chars "audio_arm\audio_arm\" ++ w ++ arm_label f ++ hx ++ [NL].
Proof.
  unfold arm_sym. rewrite !inst_app, inst_lit, inst_part, inst_value. do 3 f_equal.
  destruct f; unfold arm_sym_label, arm_label; rewrite ?inst_app, ?inst_lit, ?inst_part; rewrite <- ?app_assoc; reflexivity.
Qed.

Definition key_of (f : arm_field) : arm_key :=
  match f with
  | ValidDev => KValidDev | DevReserve => KDevReserve | DevSet _ => KDevSet | ValidApp => KValidApp | ValidAgc => KValidAgc
  | ExpControl _ => KExpControl | EqSwitch a => KEqSwitch a | AgcGain a _ => KAgcGain a | VolCount a => KVolCount a
  | ArmVolume a _ => KArmVolume a | AppReserve a _ => KAppReserve a | MidiOpt => KMidiOpt | AudDev => KAudDev | ArmReserve _ => KArmReserve
  end.
Definition is_app (f : arm_field) : bool :=
  match f with EqSwitch _ | AgcGain _ _ | VolCount _ | ArmVolume _ _ | AppReserve _ _ => true | _ => false end.

Lemma span_app p x c r : forallb p x = true -> p c = false -> span p (x ++ c :: r) = (x, c :: r).
Proof.
  intros H Hc. induction x as [|a x IH]; cbn; [by rewrite Hc|]. cbn in H. apply andb_true_iff in H as [-> H]. by rewrite IH.
Qed.
Lemma scan_digits_app p stop x r dat :
  x <> [] -> forallb p x = true -> p stop = false -> (length x < length dat)%nat ->
  scan_digits p stop (x ++ stop :: r) dat = Some (x ++ NUL :: drop (S (length x)) dat).
Proof.
  intros N H Hs L. unfold scan_digits. rewrite span_app by done. destruct x as [|a x]; [done|]. destruct (ascii_dec stop stop); [|done].
  unfold store_string. by rewrite (proj2 (Nat.ltb_lt _ _)).
Qed.
Lemma cstr_app x r : NUL ∉ x -> cstr (x ++ NUL :: r) = x.
Proof.
  induction x as [|a x IH]; intros N; cbn; [done|]. apply not_elem_of_cons in N as [Na N].
  destruct (ascii_dec a NUL); [congruence|]. by rewrite IH.
Qed.

Section ArmLines.
Context (w da di hx : text).
Hypothesis (Hw : name_ok w) (Ha : da <> [] /\ forallb digit09 da = true) (Hi : di <> [] /\ forallb digit09 di = true).
Hypothesis Hx : hx <> [] /\ forallb hexc hx = true.

Lemma lit_ok s : Forall part_ok (lit s).
Proof. apply Forall_fmap, Forall_forall. done. Qed.
Lemma num_ok x : x <> [] /\ forallb digit09 x = true -> Forall part_ok [num_part x].
Proof. intros []. constructor; [split; [done|]; split; [done|constructor]|constructor]. Qed.
Lemma value_ok : Forall part_ok (value_sym hx).
Proof. destruct Hx. constructor; [split; [done|]; split; [done|constructor]|repeat constructor]. Qed.
Lemma name_part_ok : Forall part_ok [Part namec [chars "extendArray"] w].
Proof. destruct Hw. constructor; [split; [done|]; split; [done|]; constructor; [done|constructor]|constructor]. Qed.
Hint Resolve lit_ok num_ok value_ok name_part_ok : core.
Ltac parts := repeat (apply Forall_app; split); auto.

Lemma arm_sym_ok f : Forall part_ok (arm_sym f w da di hx).
Proof. unfold arm_sym. parts. destruct f; cbn [arm_sym_label]; parts. Qed.

(** The line names its member, and its value is behind the only sign. *)
Lemma arm_plain_decide f dat : is_app f = false ->
  let l := inst (arm_sym f w da di hx) in
  arm_decide l dat = Some (Some (key_of f, l), dat) /\ strstr l (chars "=") = Some (chars "=0x" ++ hx ++ [NL]).
Proof.
  intros N. cbv zeta. split.
  - unfold arm_decide. rewrite (first_sym_sound (arm_sym f w da di hx) arm_tests (Some (key_of f))); [done| |apply arm_sym_ok|].
    + repeat constructor; discriminate.
    + destruct f; try discriminate N; vm_compute; reflexivity.
  - destruct f; try discriminate N;
      (erewrite (find_sym_sound (arm_sym _ w da di hx) (chars "=")); [|done|apply arm_sym_ok|vm_compute; reflexivity]; reflexivity).
Qed.

Definition app_key (f : arm_field) (a : Z) : arm_key :=
  match f with EqSwitch _ => KEqSwitch a | AgcGain _ _ => KAgcGain a | VolCount _ => KVolCount a | ArmVolume _ _ => KArmVolume a | _ => KAppReserve a end.
Lemma arm_app_decide f dat : is_app f = true -> (length da < length dat)%nat ->
  exists t, arm_decide (inst (arm_sym f w da di hx)) dat =
      Some (Some (app_key f (s16 (atoi da)), t), da ++ NUL :: drop (S (length da)) dat) /\
    strstr t (chars "=") = Some (chars "=0x" ++ hx ++ [NL]).
Proof.
  intros N L. destruct Ha as [Ha1 Ha2]. set (k := 37%nat). exists (inst (drop k (arm_sym f w da di hx))).
  pose proof (arm_sym_ok f) as Ok. assert (Okd : Forall part_ok (drop k (arm_sym f w da di hx))) by by apply Forall_drop. split.
  - unfold arm_decide. rewrite (first_sym_sound (arm_sym f w da di hx) arm_tests None); [|repeat constructor; discriminate|done|].
    2:{ destruct f; try discriminate N; vm_compute; reflexivity. }
    rewrite (find_sym_sound (arm_sym f w da di hx) app_prefix (Some k)); [|discriminate|done|].
    2:{ destruct f; try discriminate N; vm_compute; reflexivity. }
    cbn [fmap option_fmap option_map].
    assert (E : exists r, inst (drop k (arm_sym f w da di hx)) = app_prefix ++ da ++ "]"%char :: r).
    { destruct f; try discriminate N; eexists; reflexivity. }
    destruct E as [r E]. rewrite E at 1. rewrite drop_app_length, scan_digits_app by done. cbn [mbind option_bind].
    rewrite cstr_app by (by eapply class_no; [exact Ha2|]).
    generalize (s16 (atoi da)). intros z. rewrite (first_sym_sound _ _ (Some (app_key f z))); [done|repeat constructor; discriminate|done|].
    destruct f; try discriminate N; vm_compute; reflexivity.
  - destruct f; try discriminate N;
      (erewrite (find_sym_sound _ (chars "=")); [|done|exact Okd|vm_compute; reflexivity]; reflexivity).
Qed.
End ArmLines.

(** The same for the lines of the equaliser. *)
Definition eq_sym_label (f : eq_field) (dm db di : text) : list item :=
  let mode := lit "\eq_mode_" ++ [Part digit19 [] dm] in
  let band := mode ++ lit "\eq_band_" ++ [num_part db] in
  match f with
  | EqControl => lit "\eq_control=0x"
  | AgcInGain _ => mode ++ lit "\agc_in_gain=0x"
  | BandControl _ => mode ++ lit "\band_control=0x"
  | Fo _ _ => band ++ lit "\fo=0x"
  | Q _ _ => band ++ lit "\q=0x"
  | Boost _ _ => band ++ lit "\boostdB=0x"
  | Gain _ _ => band ++ lit "\gaindB=0x"
  | Extend _ => lit "\extendArray\extendArray[" ++ [num_part di] ++ lit "]=0x"
  end.
Definition eq_sym (f : eq_field) (w dm db di hx : text) : list item :=
  lit "%audio\EQ_" ++ [Part namec [chars "extendArray"] w] ++ eq_sym_label f dm db di ++ value_sym hx.
Definition eq_mode_of (f : eq_field) : Z := match f with AgcInGain m | BandControl m | Fo m _ | Q m _ | Boost m _ | Gain m _ => m | _ => 0 end.
Definition eq_band_of (f : eq_field) : Z := match f with Fo _ b | Q _ b | Boost _ b | Gain _ b => b | _ => 0 end.
Definition eq_idx_of (f : eq_field) : Z := match f with Extend i => i | _ => 0 end.

Lemma eq_line_inst f w hx :
  inst (eq_sym f w (dec_text (eq_mode_of f + 1)) (dec_text (eq_band_of f + 1)) (dec_text (eq_idx_of f)) hx) =
  chars "%audio\" ++ (chars "EQ_" ++ w) ++ eq_label f ++ hx ++ [NL].
Proof.
  unfold eq_sym. rewrite !inst_app, inst_lit, inst_part, inst_value.
  change (chars "%audio\EQ_") with (chars "%audio\" ++ chars "EQ_"). rewrite <- !app_assoc. do 4 f_equal.
  destruct f; unfold eq_sym_label, eq_label; rewrite ?inst_app, ?inst_lit, ?inst_part; rewrite <- ?app_assoc; reflexivity.
Qed.

Definition eq_key_of (f : eq_field) (m b : Z) : eq_key :=
  match f with
  | EqControl => KEqControl | AgcInGain _ => KAgcInGain m | BandControl _ => KBandControl m | Fo _ _ => KFo m b | Q _ _ => KQ m b
  | Boost _ _ => KBoost m b | Gain _ _ => KGain m b | Extend _ => KExtend
  end.

Section EqLines.
Context (w dm db di hx : text).
Hypothesis (Hw : name_ok w) (Hm : dm <> [] /\ forallb digit19 dm = true) (Hb : length db = 1%nat /\ forallb digit09 db = true).
Hypothesis (Hi : di <> [] /\ forallb digit09 di = true) (Hx : hx <> [] /\ forallb hexc hx = true).

Lemma mode_ok : Forall part_ok [Part digit19 [] dm].
Proof. destruct Hm. constructor; [split; [done|]; split; [done|constructor]|constructor]. Qed.
Lemma band_ok : Forall part_ok [num_part db].
Proof. apply num_ok. destruct Hb as [L ?]. split; [|done]. by destruct db. Qed.
Hint Resolve lit_ok num_ok value_ok name_part_ok mode_ok band_ok : core.

Lemma eq_sym_ok f : Forall part_ok (eq_sym f w dm db di hx).
Proof.
  unfold eq_sym. repeat (apply Forall_app; split); auto. destruct f; cbn [eq_sym_label]; repeat (apply Forall_app; split); auto.
Qed.

Ltac sym_contains b := rewrite (contains_sym _ _ b); [|discriminate|(apply eq_sym_ok || by apply Forall_drop, eq_sym_ok)|vm_compute; reflexivity].
Ltac sym_find o := rewrite (find_sym_sound _ _ o); [|discriminate|(apply eq_sym_ok || by apply Forall_drop, eq_sym_ok)|vm_compute; reflexivity];
  cbn [fmap option_fmap option_map].

(** Up to the mode and its number. *)
Lemma eq_mode_scan f dat : (forall i, f <> Extend i) -> f <> EqControl -> (length dm < length dat)%nat ->
  let t := inst (drop 12 (eq_sym f w dm db di hx)) in
  contains (inst (eq_sym f w dm db di hx)) (chars "eq_control") = false /\
  strstr (inst (eq_sym f w dm db di hx)) (chars "eq_mode_") = Some t /\
  scan_digits digit19 "\" (drop 8 t) dat = Some (dm ++ NUL :: drop (S (length dm)) dat).
Proof.
  intros N1 N2 L. cbv zeta. destruct Hm as [Hm1 Hm2].
  assert (E : exists r, inst (drop 12 (eq_sym f w dm db di hx)) = chars "eq_mode_" ++ dm ++ "\"%char :: r).
  { destruct f; try (by destruct (N1 i)); try done; eexists; reflexivity. }
  destruct E as [r E]. rewrite E. change 8%nat with (length (chars "eq_mode_")). rewrite drop_app_length, scan_digits_app by done.
  split; [|split]; [| |done].
  - destruct f; try (by destruct (N1 i)); try done; by sym_contains false.
  - rewrite <- E. destruct f; try (by destruct (N1 i)); try done; by sym_find (Some 12%nat).
Qed.

(** The rest of a line of a band. *)
Definition is_band (f : eq_field) : bool := match f with Fo _ _ | Q _ _ | Boost _ _ | Gain _ _ => true | _ => false end.
Definition band_items (f : eq_field) : list item := drop 10 (drop 12 (eq_sym f w dm db di hx)).

Lemma band_scan f dat : is_band f = true -> (1 < length dat)%nat ->
  scan_digits digit09 "\" (drop 8 (inst (band_items f))) dat = Some (db ++ NUL :: drop (S (length db)) dat) /\
  (9 <= length (inst (band_items f)))%nat /\ drop 9 (inst (band_items f)) = inst (drop 9 (band_items f)).
Proof.
  intros N L. destruct Hb as [Hb1 Hb2].
  assert (E : exists r, inst (band_items f) = chars "eq_band_" ++ db ++ "\"%char :: r /\ inst (drop 9 (band_items f)) = "\"%char :: r).
  { destruct f; try discriminate N; eexists; split; reflexivity. }
  destruct E as (r & -> & ->). split; [|split].
  - change 8%nat with (length (chars "eq_band_")). rewrite drop_app_length, scan_digits_app; [done|by destruct db|done|done|lia].
  - rewrite length_app, length_app, Hb1. cbn. lia.
  - rewrite app_assoc. rewrite drop_app_length'; [done|]. rewrite length_app, Hb1. done.
Qed.

Lemma eq_mode_decide f dat : (forall i, f <> Extend i) -> f <> EqControl -> (length dm < length dat)%nat -> (1 < length dat)%nat ->
  exists dat', eq_decide (inst (eq_sym f w dm db di hx)) dat = Some (Some (eq_key_of f (atoi dm - 1) (s16 (atoi db) - 1)), dat') /\
    length dat' = length dat.
Proof.
  intros N1 N2 L L1. destruct (eq_mode_scan f dat N1 N2 L) as (E1 & E2 & E3). unfold eq_decide. rewrite E1, E2, E3.
  cbn [mbind option_bind]. destruct Hm as [_ Hm2], Hb as [Hb1 Hb2]. rewrite cstr_app by (by eapply class_no; [exact Hm2|]).
  generalize (atoi dm - 1). intros m.
  set (dat1 := dm ++ NUL :: _). assert (Ld : length dat1 = length dat) by (unfold dat1; rewrite length_app; cbn; rewrite length_drop; lia).
  destruct (is_band f) eqn:B.
  - assert (T : contains (inst (drop 12 (eq_sym f w dm db di hx))) (chars "agc_in_gain") = false /\
      contains (inst (drop 12 (eq_sym f w dm db di hx))) (chars "band_control") = false /\
      strstr (inst (drop 12 (eq_sym f w dm db di hx))) (chars "eq_band_") = Some (inst (band_items f))).
    { destruct f; try discriminate B; (split; [by sym_contains false|]; split; [by sym_contains false|by sym_find (Some 10%nat)]). }
    destruct T as (-> & -> & ->). destruct (band_scan f dat1 B) as (-> & L9 & D9); [lia|]. cbn [mbind option_bind].
    rewrite cstr_app by (by eapply class_no; [exact Hb2|]). generalize (s16 (atoi db) - 1). intros b.
    rewrite (proj2 (Nat.ltb_ge _ _)) by lia. rewrite D9. exists (db ++ NUL :: drop (S (length db)) dat1).
    split; [|rewrite length_app; cbn; rewrite length_drop; lia].
    assert (Ok : Forall part_ok (band_items f)) by (by apply Forall_drop, Forall_drop, eq_sym_ok).
    assert (Ok9 : Forall part_ok (drop 9 (band_items f))) by by apply Forall_drop.
    destruct f; try discriminate B.
    + rewrite (contains_sym _ _ true); [done|discriminate|exact Ok|vm_compute; reflexivity].
    + rewrite (contains_sym _ _ false); [|discriminate|exact Ok|vm_compute; reflexivity].
      rewrite (contains_sym _ _ true); [done|discriminate|exact Ok9|vm_compute; reflexivity].
    + rewrite (contains_sym _ _ false); [|discriminate|exact Ok|vm_compute; reflexivity].
      rewrite (contains_sym _ _ false); [|discriminate|exact Ok9|vm_compute; reflexivity].
      rewrite (first_sym_sound _ _ (Some (KBoost m b))); [done|repeat constructor; discriminate|exact Ok|vm_compute; reflexivity].
    + rewrite (contains_sym _ _ false); [|discriminate|exact Ok|vm_compute; reflexivity].
      rewrite (contains_sym _ _ false); [|discriminate|exact Ok9|vm_compute; reflexivity].
      rewrite (first_sym_sound _ _ (Some (KGain m b))); [done|repeat constructor; discriminate|exact Ok|vm_compute; reflexivity].
  - destruct f as [| | | | | | |i]; try done; try (by destruct (N1 i)); try discriminate B.
    + sym_contains true. by exists dat1.
    + sym_contains false. sym_contains true. by exists dat1.
Qed.

Lemma eq_line_decide f dat : (length dm < length dat)%nat -> (1 < length dat)%nat ->
  exists dat', eq_decide (inst (eq_sym f w dm db di hx)) dat = Some (Some (eq_key_of f (atoi dm - 1) (s16 (atoi db) - 1)), dat') /\
    length dat' = length dat /\ strstr (inst (eq_sym f w dm db di hx)) (chars "=") = Some (chars "=0x" ++ hx ++ [NL]).
Proof.
  intros L L1. enough (D : exists dat', eq_decide (inst (eq_sym f w dm db di hx)) dat =
    Some (Some (eq_key_of f (atoi dm - 1) (s16 (atoi db) - 1)), dat') /\ length dat' = length dat).
  { destruct D as (dat' & D & Ld). exists dat'. split; [done|]. split; [done|].
    destruct f; (erewrite (find_sym_sound _ (chars "=")); [|done|apply eq_sym_ok|vm_compute; reflexivity]; reflexivity). }
  destruct f as [| | | | | | |i]; try (by apply eq_mode_decide).
  - exists dat. split; [|done]. unfold eq_decide. by sym_contains true.
  - exists dat. split; [|done]. unfold eq_decide. sym_contains false. sym_find (@None nat). by sym_contains true.
Qed.
End EqLines.

(** ** Numbers *)
Lemma to_digits_spec base n v : 2 <= base -> 0 <= v < base ^ Z.of_nat n -> (0 < n)%nat ->
  foldl (fun a d => base * a + d) 0 (to_digits n base v) = v /\ Forall (fun d => 0 <= d < base) (to_digits n base v) /\
  to_digits n base v <> [] /\ (length (to_digits n base v) <= n)%nat.
Proof.
  intros Hb. revert v. induction n as [|n IH]; intros v Hv Hn; [lia|]. cbn [to_digits].
  destruct (Z.ltb_spec v base) as [L|L]; [split; [cbn; lia|]; split; [repeat constructor; lia|]; split; [done|cbn; lia]|].
  destruct n as [|n]; [change (Z.of_nat 1) with 1 in Hv; rewrite Z.pow_1_r in Hv; lia|]. rewrite Nat2Z.inj_succ, Z.pow_succ_r in Hv by lia.
  assert (Hd : 0 <= v / base < base ^ Z.of_nat (S n)).
  { split; [apply Z.div_pos; lia|]. apply Z.div_lt_upper_bound; lia. }
  destruct (IH (v / base) Hd ltac:(lia)) as (E & F & N & Ln). rewrite foldl_app. rewrite E. cbn [foldl].
  pose proof (Z.div_mod v base ltac:(lia)). pose proof (Z.mod_pos_bound v base ltac:(lia)).
  split; [lia|]. split; [apply Forall_app; split; [done|repeat constructor; lia]|]. split; [by destruct (to_digits (S n) base _)|].
  rewrite length_app. cbn [length]. lia.
Qed.

Lemma digit_char_value d : 0 <= d < 16 ->
  hex_digit_value (digit_char d) = Some d /\ hexc (digit_char d) = true /\ (d < 10 -> digit09 (digit_char d) = true) /\
  (1 <= d < 10 -> digit19 (digit_char d) = true).
Proof.
  intros H. assert (I : In d (upto 16)).
  { unfold upto. apply in_map_iff. exists (Z.to_nat d). split; [lia|]. apply in_seq. lia. }
  revert H. pattern d. revert d I. apply List.Forall_forall. unfold upto. cbn. repeat constructor; vm_compute; intuition discriminate.
Qed.

Lemma fold_digits base ds : Forall (fun d => 0 <= d < 16) ds -> forall a,
  foldl (fun v c => base * v + default 0 (hex_digit_value c)) a (digit_char <$> ds) = foldl (fun a d => base * a + d) a ds.
Proof.
  induction 1 as [|d ds Hd F IH]; intros a; [done|]. cbn [fmap list_fmap foldl]. destruct (digit_char_value d Hd) as (-> & _). apply IH.
Qed.
Lemma map_class (P : ascii -> bool) (R : Z -> Prop) ds : (forall d, R d -> P (digit_char d) = true) -> Forall R ds -> forallb P (digit_char <$> ds) = true.
Proof. intros H. induction 1 as [|d ds Hd F IH]; [done|]. cbn. by rewrite H, IH. Qed.

Lemma hex_text_ok v : hex_text v <> [] /\ forallb hexc (hex_text v) = true /\ (length (hex_text v) <= 8)%nat.
Proof.
  unfold hex_text. destruct (to_digits_spec 16 8 (u32 v)) as (_ & F & N & L); [lia|apply Z.mod_pos_bound; lia|lia|].
  split; [by destruct (to_digits 8 16 (u32 v))|]. split; [|by rewrite length_fmap].
  eapply map_class; [|exact F]. intros d Hd. by destruct (digit_char_value d Hd) as (_ & ? & _).
Qed.
Lemma hex_number_text v r : 0 <= v < 2 ^ 32 -> number 16 (hex_text v ++ NL :: r) = v.
Proof.
  intros Hv. destruct (hex_text_ok v) as (_ & C & _). unfold number. rewrite span_app; [| |done].
  - cbn [fst]. unfold hex_text. rewrite (u32_small v) by done. destruct (to_digits_spec 16 8 v) as (E & F & _); [lia|lia|lia|].
    by rewrite fold_digits, E.
  - unfold hex_text. destruct (to_digits_spec 16 8 (u32 v)) as (_ & F & _); [lia|apply Z.mod_pos_bound; lia|lia|].
    eapply map_class; [|exact F]. intros d Hd. cbn. destruct (digit_char_value d Hd) as (-> & _). apply Z.ltb_lt; cbv beta in Hd; lia.
Qed.

Lemma strtol_text v r : 0 <= v < 2 ^ 32 -> strtol 16 (chars "0x" ++ hex_text v ++ NL :: r) = Z.min v (2 ^ 31 - 1).
Proof.
  intros Hv. rewrite <- (hex_number_text v r Hv) at 2. generalize (hex_text v ++ NL :: r). intros l. reflexivity.
Qed.

Lemma my_strtol_text v r : 0 <= v < 2 ^ 32 -> my_strtol (chars "0x" ++ hex_text v ++ NL :: r) = s32 v.
Proof.
  intros Hv. unfold my_strtol. change (drop 2 _) with (hex_text v ++ NL :: r). destruct (hex_text_ok v) as (_ & _ & L).
  rewrite span_app; [|unfold hex_text|done].
  - cbn [fst]. rewrite take_ge by done. unfold hex_text. rewrite (u32_small v) by done.
    destruct (to_digits_spec 16 8 v) as (E & F & _); [lia|lia|lia|]. by rewrite fold_digits, E.
  - destruct (to_digits_spec 16 8 (u32 v)) as (_ & F & _); [lia|apply Z.mod_pos_bound; lia|lia|].
    eapply map_class; [|exact F]. intros d Hd. cbn. destruct (digit_char_value d Hd) as (-> & _). done.
Qed.

(** The indices that occur are below 100. *)
Lemma dec_text_ok v : 0 <= v < 100 -> dec_text v <> [] /\ forallb digit09 (dec_text v) = true /\ (length (dec_text v) <= 10)%nat /\
  atoi (dec_text v) = v /\ (v < 10 -> length (dec_text v) = 1%nat) /\ (1 <= v < 10 -> forallb digit19 (dec_text v) = true).
Proof.
  intros H. assert (I : In v (upto 100)).
  { unfold upto. apply in_map_iff. exists (Z.to_nat v). split; [lia|]. apply in_seq. lia. }
  revert H. pattern v. revert v I. apply List.Forall_forall. unfold upto. cbn [seq fmap list_fmap].
  repeat (constructor; [vm_compute; intuition (discriminate || lia)|]). constructor.
Qed.

(** ** Members *)
Definition below (i : Z) (n : nat) : Prop := 0 <= i < Z.of_nat n.
Definition app_range (f : arm_field) : Prop :=
  match f with
  | EqSwitch _ | VolCount _ => True | AgcGain _ i => below i AUDIO_AGC_INPUG_GAIN_MAX | ArmVolume _ i => below i AUDIO_ARM_VOLUME_LEVEL
  | AppReserve _ i => below i AUDIO_NV_ARM_APP_PARA_RESERVE | _ => False
  end.
Definition arm_range (f : arm_field) : Prop :=
  match f with
  | DevSet i => below i AUDIO_DEVICE_MODE_PARAM_MAX | ExpControl i => below i EXP_MAX | ArmReserve i => below i AUDIO_NV_ARM_PARA_RESERVE
  | EqSwitch a | AgcGain a _ | VolCount a | ArmVolume a _ | AppReserve a _ => below a AUDIO_ARM_APP_TYPE_MAX /\ app_range f
  | _ => True
  end.
Definition eq_range (f : eq_field) : Prop :=
  match f with
  | EqControl => True | AgcInGain m | BandControl m => below m EQ_MODE_MAX
  | Fo m b | Q m b | Boost m b | Gain m b => below m EQ_MODE_MAX /\ below b EQ_BAND_MAX
  | Extend i => below i EXTEND_MAX
  end.

(** The arrays have their lengths. *)
Definition app_shape (c : AUDIO_NV_ARM_APP_CONFIG_INFO_T) : Prop :=
  length (agc_input_gain c) = AUDIO_AGC_INPUG_GAIN_MAX /\ length (arm_volume c) = AUDIO_ARM_VOLUME_LEVEL /\
  length (app_reserve c) = AUDIO_NV_ARM_APP_PARA_RESERVE.
Record arm_shape (s : AUDIO_NV_ARM_MODE_STRUCT_T) : Prop := {
  sh_dev : length (dev_set (dev_path_set s)) = AUDIO_DEVICE_MODE_PARAM_MAX;
  sh_exp : length (aud_proc_exp_control (app_config_info_set s)) = EXP_MAX;
  sh_apps : length (app_config_info (app_config_info_set s)) = AUDIO_ARM_APP_TYPE_MAX;
  sh_app : Forall app_shape (app_config_info (app_config_info_set s));
  sh_res : length (arm_reserve s) = AUDIO_NV_ARM_PARA_RESERVE }.
Record eq_shape (e : AUDIO_ENHA_EQ_STRUCT_T) : Prop := {
  sh_modes : length (eq_modes e) = EQ_MODE_MAX;
  sh_bands : Forall (fun x => length (eq_band x) = EQ_BAND_MAX) (eq_modes e);
  sh_ext : length (externdArray e) = EXTEND_MAX }.

Definition arm_trunc (f : arm_field) (v : Z) : Z := match f with ArmVolume _ _ => u32 v | _ => u16 v end.
Definition eq_trunc (f : eq_field) (v : Z) : Z := match f with EqControl => u16 v | _ => s16 v end.

Lemma below_lookup {A} i n (l : list A) : below i n -> length l = n -> exists x, l !! Z.to_nat i = Some x /\ 0 <= i.
Proof. intros [H0 H1] L. destruct (lookup_lt_is_Some_2 l (Z.to_nat i)) as [x Hx]; [lia|]. by exists x. Qed.
Lemma update_at {A} i (l : list A) f x y : 0 <= i -> l !! Z.to_nat i = Some x -> f x = Some y -> update i l f = Some (<[Z.to_nat i := y]> l).
Proof. intros H0 Hx Hy. unfold update, at_index. rewrite (proj2 (Z.leb_le 0 i)), Hx by done. cbn. by rewrite Hy. Qed.
Lemma at_index_eq {A B} i (l : list A) (y : A) (g : A -> option B) x : 0 <= i -> l !! Z.to_nat i = Some x ->
  at_index i (<[Z.to_nat i := y]> l) g = g y.
Proof.
  intros H0 Hx. unfold at_index. rewrite (proj2 (Z.leb_le 0 i)) by done.
  rewrite list_lookup_insert_eq by (by eapply lookup_lt_Some). done.
Qed.
Lemma at_index_ne {A B} i j (l : list A) (y : A) (g : A -> option B) : i <> j -> 0 <= i ->
  at_index j (<[Z.to_nat i := y]> l) g = at_index j l g.
Proof. intros N H0. unfold at_index. destruct (Z.leb_spec 0 j); [|done]. rewrite list_lookup_insert_ne by lia. done. Qed.
Lemma put_at i v n (l : list Z) : below i n -> length l = n ->
  exists l', put i v l = Some l' /\ length l' = n /\ at_index i l' Some = Some v /\ forall j, j <> i -> at_index j l' Some = at_index j l Some.
Proof.
  intros H L. destruct (below_lookup i n l H L) as (x & Hx & H0). eexists. split; [by eapply update_at|].
  split; [by rewrite length_insert|]. split; [by eapply at_index_eq|]. intros j N. by apply at_index_ne.
Qed.

Lemma app_put_spec f v c : app_range f -> app_shape c ->
  exists c', app_put f v c = Some c' /\ app_shape c' /\ app_get f c' = Some (arm_trunc f v) /\
    forall g, g <> f -> app_of g = app_of f -> app_get g c' = app_get g c.
Proof.
  intros R (S1 & S2 & S3). destruct f; cbn in R; try done; cbn [app_put].
  all: try (destruct (put_at i (u16 v) _ _ R S1) as (l & -> & Ll & Lg & Ln));
       try (destruct (put_at i (u16 v) _ _ R S3) as (l & -> & Ll & Lg & Ln));
       try (destruct (put_at i (u32 v) _ _ R S2) as (l & -> & Ll & Lg & Ln)); cbn [mbind option_bind].
  all: eexists; split; [reflexivity|]; split; [by split|]; split; [done|]; intros [] N E; cbn in E; subst; cbn; try done.
  all: apply Ln; congruence.
Qed.

Lemma arm_put_spec f v s : arm_range f -> arm_shape s ->
  exists s', arm_put f v s = Some s' /\ arm_shape s' /\ arm_get f s' = Some (arm_trunc f v) /\ forall g, g <> f -> arm_get g s' = arm_get g s.
Proof.
  intros R [S1 S2 S3 S4 S5]. destruct (is_app f) eqn:A.
  - assert (R' : below (app_of f) AUDIO_ARM_APP_TYPE_MAX /\ app_range f) by (by destruct f). destruct R' as [Ra Rf].
    destruct (below_lookup _ _ _ Ra S3) as (c & Hc & H0). pose proof (Forall_lookup_1 _ _ _ _ S4 Hc) as Sc.
    destruct (app_put_spec f v c Rf Sc) as (c' & E & Sc' & G & N).
    pose proof (update_at _ _ _ _ _ H0 Hc E) as U. set (l := <[_ := c']> _) in U.
    exists (MkArm (dev_path_set s) (MkAppSet (valid_app_set_count (app_config_info_set s)) (valid_agc_input_gain_count (app_config_info_set s))
      (aud_proc_exp_control (app_config_info_set s)) l) (midi_opt s) (aud_dev s) (arm_reserve s)).
    split; [destruct f; try discriminate A; unfold arm_put; cbn [app_of] in U; rewrite U; reflexivity|].
    split; [split; cbn; try done; [by unfold l; rewrite length_insert|by apply Forall_insert]|].
    assert (Ga : forall g, arm_get g (MkArm (dev_path_set s) (MkAppSet (valid_app_set_count (app_config_info_set s)) (valid_agc_input_gain_count (app_config_info_set s))
      (aud_proc_exp_control (app_config_info_set s)) l) (midi_opt s) (aud_dev s) (arm_reserve s)) =
      if is_app g then at_index (app_of g) l (app_get g) else arm_get g s) by (by intros []).
    split; [rewrite Ga, A; unfold l; by erewrite at_index_eq|]. intros g Ng. rewrite Ga. destruct (is_app g) eqn:Ag; [|done].
    assert (Gs : arm_get g s = at_index (app_of g) (app_config_info (app_config_info_set s)) (app_get g)) by (by destruct g).
    rewrite Gs. unfold l. destruct (decide (app_of g = app_of f)) as [Eq|Ne]; [|apply at_index_ne; congruence].
    rewrite Eq. erewrite at_index_eq by done. unfold at_index. rewrite (proj2 (Z.leb_le 0 _)), Hc by done. cbn. by apply N.
  - destruct f; try discriminate A; cbn in R; cbn [arm_put].
    all: try (destruct (put_at i (u16 v) _ _ R S1) as (l & -> & Ll & Lg & Ln));
         try (destruct (put_at i (u16 v) _ _ R S2) as (l & -> & Ll & Lg & Ln));
         try (destruct (put_at i (u16 v) _ _ R S5) as (l & -> & Ll & Lg & Ln)); cbn [mbind option_bind].
    all: eexists; split; [reflexivity|]; split; [by split|]; split; [done|]; intros [] N; cbn; try done.
    all: apply Ln; congruence.
Qed.

(** The same for the equaliser: a band, a mode, the structure. *)
Definition band_get (f : eq_field) (y : EQ_BAND_INPUT_PARA_T) : option Z :=
  match f with Fo _ _ => Some (fo y) | Q _ _ => Some (q y) | Boost _ _ => Some (boostdB y) | Gain _ _ => Some (gaindB y) | _ => None end.
Definition mode_get (f : eq_field) (x : EQ_MODE_PARA_T) : option Z :=
  match f with
  | AgcInGain _ => Some (agc_in_gain x) | BandControl _ => Some (band_control x)
  | Fo _ b | Q _ b | Boost _ b | Gain _ b => at_index b (eq_band x) (band_get f) | _ => None
  end.
Definition in_mode (f : eq_field) : bool := match f with EqControl | Extend _ => false | _ => true end.

Lemma eq_get_mode f e : in_mode f = true -> eq_get f e = at_index (eq_mode_of f) (eq_modes e) (mode_get f).
Proof. by destruct f. Qed.
Lemma mode_get_band f x : is_band f = true -> mode_get f x = at_index (eq_band_of f) (eq_band x) (band_get f).
Proof. by destruct f. Qed.

Lemma mode_put_spec f v x : eq_range f -> in_mode f = true -> length (eq_band x) = EQ_BAND_MAX ->
  exists x', mode_put f v x = Some x' /\ length (eq_band x') = EQ_BAND_MAX /\ mode_get f x' = Some (eq_trunc f v) /\
    forall g, g <> f -> in_mode g = true -> eq_mode_of g = eq_mode_of f -> mode_get g x' = mode_get g x.
Proof.
  intros R M L. destruct (is_band f) eqn:B.
  - assert (Rb : below (eq_band_of f) EQ_BAND_MAX) by (destruct f; try discriminate B; apply R).
    destruct (below_lookup _ _ _ Rb L) as (y & Hy & H0).
    assert (E : exists y', band_put f v y = Some y' /\ band_get f y' = Some (eq_trunc f v) /\
      forall g, g <> f -> is_band g = true -> eq_mode_of g = eq_mode_of f -> eq_band_of g = eq_band_of f -> band_get g y' = band_get g y).
    { destruct f; try discriminate B; eexists; (split; [reflexivity|]; split; [done|]; intros [] N Bg E1 E2; cbn in *; congruence). }
    destruct E as (y' & E & G & N). pose proof (update_at _ _ _ _ _ H0 Hy E) as U.
    exists (MkEqMode (agc_in_gain x) (band_control x) (<[Z.to_nat (eq_band_of f) := y']> (eq_band x))).
    split; [destruct f; try discriminate B; unfold mode_put; cbn [eq_band_of] in U; rewrite U; reflexivity|].
    split; [by cbn; rewrite length_insert|]. split; [rewrite mode_get_band by done; cbn [eq_band]; by erewrite at_index_eq|].
    intros g Ng Mg Em. destruct (is_band g) eqn:Bg; [|by destruct g]. rewrite !mode_get_band by done. cbn [eq_band].
    destruct (decide (eq_band_of g = eq_band_of f)) as [Eb|Ne]; [|apply at_index_ne; congruence].
    rewrite Eb. erewrite at_index_eq by done. unfold at_index. rewrite (proj2 (Z.leb_le 0 _)), Hy by done. cbn. by apply N.
  - destruct f; try discriminate B; try discriminate M; cbn [mode_put];
      (eexists; split; [reflexivity|]; split; [done|]; split; [done|]; intros [] N Mg E; cbn in *; congruence).
Qed.

Lemma eq_put_spec f v e : eq_range f -> eq_shape e ->
  exists e', eq_put f v e = Some e' /\ eq_shape e' /\ para_name e' = para_name e /\ eq_get f e' = Some (eq_trunc f v) /\
    forall g, g <> f -> eq_get g e' = eq_get g e.
Proof.
  intros R [S1 S2 S3]. destruct (in_mode f) eqn:M.
  - assert (Rm : below (eq_mode_of f) EQ_MODE_MAX) by (destruct f; try discriminate M; cbn in *; tauto).
    destruct (below_lookup _ _ _ Rm S1) as (x & Hx & H0). pose proof (Forall_lookup_1 _ _ _ _ S2 Hx) as Sx.
    destruct (mode_put_spec f v x R M Sx) as (x' & E & Sx' & G & N). pose proof (update_at _ _ _ _ _ H0 Hx E) as U.
    set (e' := MkEq (para_name e) (eq_control e) (<[Z.to_nat (eq_mode_of f) := x']> (eq_modes e)) (externdArray e)). exists e'.
    split; [destruct f; try discriminate M; unfold eq_put; cbn [eq_mode_of] in U; rewrite U; reflexivity|].
    split; [split; cbn; [by rewrite length_insert|by apply Forall_insert|done]|]. split; [done|].
    split; [rewrite eq_get_mode by done; cbn [eq_modes e']; by erewrite at_index_eq|]. intros g Ng.
    destruct (in_mode g) eqn:Mg; [|by destruct g]. rewrite !eq_get_mode by done. cbn [eq_modes e'].
    destruct (decide (eq_mode_of g = eq_mode_of f)) as [Em|Ne]; [|apply at_index_ne; congruence].
    rewrite Em. erewrite at_index_eq by done. unfold at_index. rewrite (proj2 (Z.leb_le 0 _)), Hx by done. cbn. by apply N.
  - destruct f; try discriminate M; cbn in R; cbn [eq_put];
      try (destruct (put_at i (s16 v) _ _ R S3) as (l & -> & Ll & Lg & Ln)); cbn [mbind option_bind];
      (eexists; split; [reflexivity|]; split; [by split|]; split; [done|]; split; [done|]; intros [] N; cbn; try done).
    apply Ln. congruence.
Qed.

(** ** One line *)
Lemma line_value_text wd t v : 0 <= v < 2 ^ 32 -> strstr t (chars "=") = Some (chars "=0x" ++ hex_text v ++ [NL]) ->
  line_value wd t = Some (match wd with Short => s16 (Z.min v (2 ^ 31 - 1)) | Int => Z.min v (2 ^ 31 - 1) | Volume => s32 v end).
Proof.
  intros Hv E. destruct (hex_text_ok v) as (_ & _ & L). unfold line_value. rewrite E.
  change (drop 1 (chars "=0x" ++ hex_text v ++ [NL])) with (chars "0x" ++ hex_text v ++ [NL]).
  rewrite (proj2 (Nat.leb_gt 128 _)) by (rewrite !length_app; change (length (chars "0x")) with 2%nat; change (length [NL]) with 1%nat; lia).
  change (strstr (chars "0x" ++ hex_text v ++ [NL]) (chars "0x")) with (Some (chars "0x" ++ hex_text v ++ [NL])).
  rewrite strtol_text, my_strtol_text by done. done.
Qed.

Lemma s16_id v : - 2 ^ 15 <= v < 2 ^ 15 -> s16 v = v.
Proof. intros H. unfold s16. rewrite Z.mod_small by lia. lia. Qed.
Lemma s16_u16 v : s16 (u16 v) = s16 v.
Proof. unfold s16, u16. rewrite Zplus_mod_idemp_l. done. Qed.
Lemma u16_s16 v : u16 (s16 v) = u16 v.
Proof. unfold s16, u16. rewrite Zminus_mod_idemp_l. by rewrite Z.add_simpl_r. Qed.
Lemma u32_s32 v : u32 (s32 v) = u32 v.
Proof. unfold s32, u32. rewrite Zminus_mod_idemp_l. by rewrite Z.add_simpl_r. Qed.

(** The values the members can have. *)
Definition arm_fits (f : arm_field) (v : Z) : Prop := match f with ArmVolume _ _ => 0 <= v < 2 ^ 32 | _ => 0 <= v < 2 ^ 16 end.
Definition eq_fits (f : eq_field) (v : Z) : Prop :=
  match f with EqControl => 0 <= v < 2 ^ 16 | _ => - 2 ^ 15 <= v < 2 ^ 15 end.

(** What is read back for a value: itself, but for a negative [q].  That one is
    the only member printed without a mask to 16 bits, so its sign bits are
    written too and [strtol] saturates: it comes back as -1. *)
Definition q_back (v : Z) : Z := if v <? 0 then -1 else v.
Definition eq_back (f : eq_field) (v : Z) : Z := match f with Q _ _ => q_back v | _ => v end.

Definition arm_text_of (w : text) (f : arm_field) (v : Z) : text := chars "audio_arm\audio_arm\" ++ w ++ arm_label f ++ hex_text v ++ [NL].
Definition eq_text_of (w : text) (f : eq_field) (v : Z) : text := chars "%audio\" ++ (chars "EQ_" ++ w) ++ eq_label f ++ hex_text (eq_mask f v) ++ [NL].

Lemma arm_range_small f : arm_range f -> 0 <= app_of f < 100 /\ 0 <= idx_of f < 100.
Proof. destruct f; cbn; unfold below, EXP_MAX, AUDIO_ARM_APP_TYPE_MAX, AUDIO_NV_ARM_PARA_RESERVE, AUDIO_DEVICE_MODE_PARAM_MAX,
  AUDIO_AGC_INPUG_GAIN_MAX, AUDIO_ARM_VOLUME_LEVEL, AUDIO_NV_ARM_APP_PARA_RESERVE; lia. Qed.
Lemma eq_range_small f : eq_range f -> 0 <= eq_mode_of f < 6 /\ 0 <= eq_band_of f < 8 /\ 0 <= eq_idx_of f < 100.
Proof. destruct f; cbn; unfold below, EQ_MODE_MAX, EQ_BAND_MAX, EXTEND_MAX; lia. Qed.

Lemma arm_read w f v dat : name_ok w -> arm_range f -> arm_fits f v -> (10 < length dat)%nat ->
  exists t dat' v', arm_decide (arm_text_of w f v) dat = Some (Some (key_of f, t), dat') /\ length dat' = length dat /\
    line_value (arm_width (key_of f)) t = Some v' /\ arm_trunc f v' = v.
Proof.
  intros Hw R V L. destruct (arm_range_small f R) as [Ra Ri]. destruct (dec_text_ok _ Ra) as (Na & Ca & La & Ea & _).
  destruct (dec_text_ok _ Ri) as (Ni & Ci & _). destruct (hex_text_ok v) as (Nx & Cx & _).
  assert (V32 : 0 <= v < 2 ^ 32) by (destruct f; cbn in V; lia).
  unfold arm_text_of. rewrite <- arm_line_inst.
  assert (D : exists t dat', arm_decide (inst (arm_sym f w (dec_text (app_of f)) (dec_text (idx_of f)) (hex_text v))) dat =
    Some (Some (key_of f, t), dat') /\ length dat' = length dat /\ strstr t (chars "=") = Some (chars "=0x" ++ hex_text v ++ [NL])).
  { destruct (is_app f) eqn:A.
    - destruct (arm_app_decide w _ (dec_text (idx_of f)) (hex_text v) Hw (conj Na Ca) (conj Ni Ci) (conj Nx Cx) f dat A) as (t & D & T); [lia|].
      exists t, (dec_text (app_of f) ++ NUL :: drop (S (length (dec_text (app_of f)))) dat). rewrite D. split; [|split; [|done]].
      + rewrite Ea, s16_id by lia. by destruct f.
      + rewrite length_app. cbn [length]. rewrite length_drop. lia.
    - destruct (arm_plain_decide w (dec_text (app_of f)) (dec_text (idx_of f)) (hex_text v) Hw (conj Na Ca) (conj Ni Ci) (conj Nx Cx) f dat A)
        as (D & T). by eexists _, dat. }
  destruct D as (t & dat' & D & Ld & T). eexists t, dat', _. split; [done|]. split; [done|].
  split; [by apply line_value_text|]. destruct f; cbn in V |- *; rewrite ?u16_s16, ?u32_s32; unfold u16, u32;
    try (rewrite Z.min_l by lia); by rewrite Z.mod_small.
Qed.

Lemma hex_text_u32 v : hex_text (u32 v) = hex_text v.
Proof. unfold hex_text, u32. by rewrite Z.mod_mod by lia. Qed.

(** The number printed, and the member it is stored to. *)
Lemma eq_printed f v (u := u32 (eq_mask f v)) : eq_fits f v ->
  0 <= u < 2 ^ 32 /\ forall wd, wd <> Volume ->
    eq_trunc f (match wd with Short => s16 (Z.min u (2 ^ 31 - 1)) | Int => Z.min u (2 ^ 31 - 1) | Volume => s32 u end) = eq_back f v.
Proof.
  intros V. assert (B : 0 <= u < 2 ^ 32) by (apply Z.mod_pos_bound; lia). split; [done|].
  assert (X : exists x, eq_trunc f x = eq_back f v /\ eq_trunc f (s16 x) = eq_back f v /\ Z.min u (2 ^ 31 - 1) = x).
  { assert (G : Z.land v 0xffff = u16 v) by (change 0xffff with (Z.ones 16); by rewrite Z.land_ones).
    assert (Bu : 0 <= u16 v < 2 ^ 16) by (apply Z.mod_pos_bound; lia). exists (Z.min u (2 ^ 31 - 1)).
    subst u. destruct f; cbn in V; cbn [eq_mask eq_trunc eq_back] in *; rewrite ?G in *.
    5:{ unfold q_back. destruct (Z.ltb_spec v 0).
        - replace (Z.min (u32 v) (2 ^ 31 - 1)) with (2 ^ 31 - 1); [by split_and!|]. unfold u32. rewrite <- (Z.mod_unique v (2 ^ 32) (-1) (v + 2 ^ 32)); lia.
        - rewrite u32_small by (unfold is_u32; lia). rewrite Z.min_l by lia. by rewrite !s16_id by (rewrite ?s16_id; lia). }
    all: rewrite u32_small by (unfold is_u32; lia); rewrite Z.min_l by lia; rewrite ?u16_s16, ?s16_u16; split_and!; try done.
    all: rewrite ?s16_u16, ?s16_id by (rewrite ?s16_id; lia); try done; unfold u16; rewrite ?Z.mod_mod by lia; by rewrite Z.mod_small. }
  destruct X as (x & X1 & X2 & ->). intros [] N; done.
Qed.

Lemma eq_read w f v dat : name_ok w -> eq_range f -> eq_fits f v -> (10 < length dat)%nat ->
  exists dat' v', eq_decide (eq_text_of w f v) dat = Some (Some (eq_key_of f (eq_mode_of f) (eq_band_of f)), dat') /\ length dat' = length dat /\
    line_value (eq_width (eq_key_of f (eq_mode_of f) (eq_band_of f))) (eq_text_of w f v) = Some v' /\ eq_trunc f v' = eq_back f v.
Proof.
  intros Hw R V L. destruct (eq_range_small f R) as (Rm & Rb & Ri). destruct (dec_text_ok (eq_mode_of f + 1) ltac:(lia)) as (Nm & _ & Lm & Em & _ & Cm).
  destruct (dec_text_ok (eq_band_of f + 1) ltac:(lia)) as (Nb & Cb & _ & Eb & Lb & _).
  destruct (dec_text_ok _ Ri) as (Ni & Ci & _). destruct (eq_printed f v V) as [U1 U2]. unfold eq_text_of. rewrite <- hex_text_u32.
  set (u := u32 (eq_mask f v)) in *. destruct (hex_text_ok u) as (Nx & Cx & _). rewrite <- eq_line_inst.
  destruct (eq_line_decide w _ _ (dec_text (eq_idx_of f)) (hex_text u) Hw (conj Nm (Cm ltac:(lia))) (conj (Lb ltac:(lia)) Cb) (conj Ni Ci) (conj Nx Cx) f dat)
    as (dat' & D & Ld & T); [lia|lia|].
  rewrite Em, Eb, Z.add_simpl_r in D. rewrite s16_id, Z.add_simpl_r in D by lia. eexists dat', _. split; [done|]. split; [done|].
  split; [apply (line_value_text _ _ u); [lia|exact T]|]. apply U2. by destruct f.
Qed.

(** ** The table of modes *)

(** One item for each name, in the order of their indices. *)
Record modes_ok (m : aud_mode_t) (ws : list text) : Prop := {
  mo_num : num m = Z.of_nat (length ws);
  mo_count : length (mode_items m) = length ws;
  mo_item : forall i w, ws !! i = Some w -> exists it rest, mode_items m !! i = Some it /\ index it = Z.of_nat i /\
    mode_name it = w ++ NUL :: rest /\ length (mode_name it) = NAME_LEN_MAX;
  mo_names : Forall name_ok ws;
  mo_nodup : NoDup ws }.

Lemma name_no_nul w : name_ok w -> NUL ∉ w.
Proof. intros [_ _ C _]. by eapply class_no; [exact C|]. Qed.
Lemma c_string_app w r : NUL ∉ w -> c_string (w ++ NUL :: r) = Some w.
Proof. intros N. unfold c_string. rewrite bool_decide_eq_true_2 by set_solver. by rewrite cstr_app. Qed.

Lemma find_mode_at m ws i w old : modes_ok m ws -> ws !! i = Some w ->
  find_mode w (take (Z.to_nat (num m)) (mode_items m)) old = Some (Z.of_nat i).
Proof.
  intros [M1 M2 M3 M4 M5] Hw. rewrite M1, Nat2Z.id, take_ge by lia.
  assert (G : forall k ws', (forall j w, ws' !! j = Some w -> ws !! (k + j)%nat = Some w) -> forall items, length items = length ws' ->
    (forall j w, ws' !! j = Some w -> exists it rest, items !! j = Some it /\ index it = Z.of_nat (k + j) /\ mode_name it = w ++ NUL :: rest) ->
    forall j, ws' !! j = Some w -> find_mode w items old = Some (Z.of_nat (k + j))).
  { intros k ws'. revert k. induction ws' as [|x ws' IH]; intros k Hk items L Hit j Hj; [done|].
    destruct items as [|it items]; [done|]. destruct (Hit 0%nat x eq_refl) as (it' & rest & [= <-] & Ei & En).
    assert (Nx : name_ok x) by (eapply (Forall_lookup_1 _ _ _ _ M4), (Hk 0%nat x eq_refl)).
    cbn [find_mode]. rewrite En, c_string_app by by apply name_no_nul. cbn [mbind option_bind].
    destruct j as [|j]; [injection Hj as ->; rewrite bool_decide_eq_true_2 by done; by rewrite Ei|].
    rewrite bool_decide_eq_false_2; [|intros ->; pose proof (NoDup_lookup _ _ _ _ M5 (Hk 0%nat x eq_refl) (Hk (S j) x Hj)); lia].
    replace (k + S j)%nat with (S k + j)%nat by lia. apply IH; [|cbn in L; lia| |done].
    - intros j' w' H'. specialize (Hk (S j') w' H'). by replace (S k + j')%nat with (k + S j')%nat by lia.
    - intros j' w' H'. destruct (Hit (S j') w' H') as (it' & rest' & ? & E & ?). exists it', rest'. split; [done|].
      split; [|done]. rewrite E. f_equal. lia. }
  apply (G 0%nat ws); [done|done| |done]. intros j x Hj. destruct (M3 j x Hj) as (it & rest & ? & ? & ? & _). by exists it, rest.
Qed.

(** The copies of the names that the lines are written with. *)
Lemma concat_piece {A} (ls : list (list A)) n i x : Forall (fun l => length l = n) ls -> ls !! i = Some x -> exists r, drop (i * n) (concat ls) = x ++ r.
Proof.
  intros F. revert i. induction F as [|l ls Hl F IH]; intros i H; [done|]. destruct i as [|i]; [injection H as ->; by exists (concat ls)|].
  destruct (IH i H) as (r & E). exists r. cbn [concat]. rewrite drop_app_ge by lia. rewrite Hl. rewrite <- E. f_equal. lia.
Qed.

Lemma mode_names m ws i w : modes_ok m ws -> ws !! i = Some w ->
  c_string (drop (i * NAME_LEN_MAX) (arm_names m)) = Some w /\ c_string (drop (i * NAME_LEN_MAX) (eq_names m)) = Some (chars "EQ_" ++ w).
Proof.
  intros [M1 M2 M3 M4 M5] Hw. pose proof (Forall_lookup_1 _ _ _ _ M4 Hw) as Nw. pose proof (name_no_nul w Nw) as Nn.
  destruct (M3 i w Hw) as (it & rest & Hi & _ & En & _).
  assert (F : Forall (fun it => length (mode_name it) = NAME_LEN_MAX) (mode_items m)).
  { apply Forall_lookup. intros j it' Hj. destruct (lookup_lt_is_Some_2 ws j) as [w' Hw']; [apply lookup_lt_Some in Hj; lia|].
    destruct (M3 j w' Hw') as (it2 & _ & H2 & _ & _ & L). congruence. }
  assert (T : take (Z.to_nat (num m)) (mode_items m) = mode_items m) by (apply take_ge; lia). split.
  - destruct (concat_piece (mode_name <$> mode_items m) NAME_LEN_MAX i (mode_name it)) as (r & E).
    + apply Forall_fmap. exact F.
    + by rewrite list_lookup_fmap, Hi.
    + unfold arm_names. rewrite T, E, En, <- app_assoc. by apply c_string_app.
  - destruct (concat_piece ((fun it => chars "EQ_" ++ take (NAME_LEN_MAX - 3) (mode_name it)) <$> mode_items m) NAME_LEN_MAX i
      (chars "EQ_" ++ take (NAME_LEN_MAX - 3) (mode_name it))) as (r & E).
    + apply Forall_fmap. eapply Forall_impl; [|exact F]. intros it' L. cbn. rewrite length_take, L. done.
    + by rewrite list_lookup_fmap, Hi.
    + unfold eq_names. rewrite T, E, En. rewrite take_app_ge by (destruct Nw; unfold NAME_LEN_MAX; lia).
      assert (K : exists k, (NAME_LEN_MAX - 3 - length w)%nat = S k).
      { exists (12 - length w)%nat. destruct Nw. unfold NAME_LEN_MAX. lia. }
      destruct K as [k ->]. cbn [take]. rewrite <- !app_assoc. cbn [app]. rewrite app_assoc. apply c_string_app.
      apply not_elem_of_app. split; [|done]. intros I. apply list_elem_of_In in I. cbn in I. intuition discriminate.
Qed.

(** ** One line, read *)
Definition total_shape (t : AUDIO_TOTAL_T) : Prop :=
  arm_shape (tAudioNvArmModeStruct t) /\ eq_shape (audio_enha_eq t) /\ length (ucModeName t) = NAME_LEN_MAX /\
  length (para_name (audio_enha_eq t)) = NAME_LEN_MAX.
Definition buffers_ok (r : reader) : Prop := length (outputstyle r) = 128%nat /\ length (data r) = 128%nat.

Lemma prefix_of_self n r : prefix_of n (n ++ r) = true.
Proof. apply prefix_of_app. by exists r. Qed.
Lemma contains_head n r : contains (n ++ r) n = true.
Proof. unfold contains. destruct (n ++ r) as [|c l] eqn:E; cbn [strstr]; rewrite <- E, prefix_of_self; done. Qed.
Lemma store_string_ok a w : (length w < length a)%nat -> exists a', store_string a w = Some a' /\ length a' = length a /\
  (NUL ∉ w -> cstr a' = w) /\ exists r, a' = w ++ NUL :: r.
Proof.
  intros L. unfold store_string. rewrite (proj2 (Nat.ltb_lt _ _)) by done. eexists. split; [reflexivity|].
  split; [rewrite length_app; cbn [length]; rewrite length_drop; lia|]. split; [by apply cstr_app|by eexists].
Qed.
Lemma arm_label_head f : exists r, arm_label f = "\"%char :: r.
Proof. destruct f; eexists; reflexivity. Qed.
Lemma eq_label_head f : exists r, eq_label f = "\"%char :: r.
Proof. destruct f; eexists; reflexivity. Qed.
Lemma scan_style_ok lit w r buf : w <> [] -> "\"%char ∉ w -> (length w < length buf)%nat ->
  exists buf', scan_style lit (lit ++ w ++ "\"%char :: r) buf = Some (true, buf') /\ store_string buf w = Some buf'.
Proof.
  intros N Nb L. destruct (store_string_ok buf w L) as (buf' & E & _). exists buf'. split; [|done].
  unfold scan_style. rewrite prefix_of_self, drop_app_length.
  assert (S : span (fun c => negb (Ascii.eqb c "\")) (w ++ "\"%char :: r) = (w, "\"%char :: r)).
  { apply span_app; [|done]. apply forallb_forall. intros c Hc. destruct (Ascii.eqb_spec c "\"); [|done]. subst. exfalso.
    by apply Nb, list_elem_of_In. }
  destruct (w ++ "\"%char :: r) as [|c l] eqn:El; [by destruct w|]. rewrite S. cbn [fst]. destruct w; [done|]. by rewrite E.
Qed.

Section Step.
Context (m : aud_mode_t) (ws : list text) (i : nat) (w : text).
Hypothesis (M : modes_ok m ws) (Hw : ws !! i = Some w).

Lemma step_name : name_ok w.
Proof. eapply Forall_lookup_1; [apply M|exact Hw]. Qed.
Lemma step_back : "\"%char ∉ w.
Proof. destruct step_name as [_ _ C _]. by eapply class_no; [exact C|]. Qed.

Lemma arm_step r t f v c :
  buffers_ok r -> params r !! i = Some t -> total_shape t -> arm_range f -> arm_fits f v -> arm_target (key_of f) (cnt r) = (f, c) ->
  exists r' t', read_line m (arm_text_of w f v) r = Some r' /\ params r' = <[i := t']> (params r) /\ buffers_ok r' /\ cnt r' = c /\
    total_shape t' /\ audio_enha_eq t' = audio_enha_eq t /\ cstr (ucModeName t') = w /\
    arm_get f (tAudioNvArmModeStruct t') = Some v /\
    forall g, g <> f -> arm_get g (tAudioNvArmModeStruct t') = arm_get g (tAudioNvArmModeStruct t).
Proof.
  intros [B1 B2] Ht (Sa & Se & Ln & Lp) R V Tg. pose proof step_name as Nw. pose proof (name_no_nul w Nw) as Nn.
  destruct (arm_read w f v (data r) Nw R V) as (tx & dat' & v' & D & Ld & Lv & Tr); [lia|].
  destruct (arm_put_spec f v' (tAudioNvArmModeStruct t) R Sa) as (s' & P & Ss & G & N). rewrite Tr in G.
  destruct (store_string_ok (ucModeName t) w) as (nm & En & Lnm & Cn & _); [rewrite Ln; destruct Nw; unfold NAME_LEN_MAX; lia|].
  assert (Sc : exists buf', scan_style (chars "audio_arm\audio_arm\") (arm_text_of w f v) (outputstyle r) = Some (true, buf') /\
    length buf' = 128%nat /\ cstr buf' = w).
  { unfold arm_text_of. destruct (arm_label_head f) as [lr ->]. destruct (store_string_ok (outputstyle r) w) as (b & Eb & Lb & Cb & _);
      [rewrite B1; destruct Nw; lia|].
    destruct (scan_style_ok (chars "audio_arm\audio_arm\") w (lr ++ hex_text v ++ [NL]) (outputstyle r)) as (b' & E & Eb');
      [apply Nw|apply step_back|rewrite B1; destruct Nw; lia|]. cbn [app]. rewrite E. exists b'. split; [done|]. rewrite Eb in Eb'. injection Eb' as <-.
    split; [lia|by apply Cb]. }
  destruct Sc as (style & Sc & Ls & Cs). unfold read_line.
  replace (contains (arm_text_of w f v) (chars "audio_arm\audio_arm\")) with true by (symmetry; apply contains_head).
  unfold arm_line. rewrite Sc. cbn [mbind option_bind negb]. rewrite Cs, (find_mode_at m ws i w) by done. cbn [mbind option_bind].
  rewrite D. cbn [mbind option_bind]. assert (H0 : 0 <= Z.of_nat i) by lia.
  rewrite (update_at _ _ _ t (MkTotal (audio_enha_eq t) nm (tAudioNvArmModeStruct t)) H0); [|by rewrite Nat2Z.id|by rewrite En].
  cbn [mbind option_bind]. rewrite Lv. cbn [mbind option_bind]. rewrite Tg.
  rewrite (update_at _ _ _ (MkTotal (audio_enha_eq t) nm (tAudioNvArmModeStruct t)) (MkTotal (audio_enha_eq t) nm s') H0).
  2:{ rewrite Nat2Z.id. rewrite list_lookup_insert_eq; [done|]. by eapply lookup_lt_Some. }
  2:{ cbn. by rewrite P. }
  cbn [mbind option_bind]. eexists _, (MkTotal (audio_enha_eq t) nm s'). split; [reflexivity|]. cbn.
  split; [by rewrite Nat2Z.id, list_insert_insert_eq|]. split; [split; cbn; lia|]. split; [done|].
  split; [split; [done|]; split; [done|]; split; cbn; lia|]. split; [done|]. split; [by apply Cn|]. done.
Qed.

Lemma eq_not_arm f v : eq_range f -> contains (eq_text_of w f v) (chars "audio_arm\audio_arm\") = false.
Proof.
  intros R. unfold eq_text_of. rewrite <- eq_line_inst. destruct (eq_range_small f R) as (Rm & Rb & Ri).
  destruct (dec_text_ok (eq_mode_of f + 1) ltac:(lia)) as (Nm & _ & _ & _ & _ & Cm).
  destruct (dec_text_ok (eq_band_of f + 1) ltac:(lia)) as (_ & Cb & _ & _ & Lb & _).
  destruct (dec_text_ok _ Ri) as (Ni & Ci & _). destruct (hex_text_ok (eq_mask f v)) as (Nx & Cx & _).
  apply contains_sym; [discriminate|apply eq_sym_ok; [apply step_name| | | |]; auto|].
  - split; [done|]. apply Cm. lia.
  - split; [|done]. apply Lb. lia.
  - generalize (dec_text (eq_mode_of f + 1)), (dec_text (eq_band_of f + 1)), (dec_text (eq_idx_of f)), (hex_text (eq_mask f v)).
    intros dm db di hx. destruct f; vm_compute; reflexivity.
Qed.

Lemma eq_style r f v : length (outputstyle r) = 128%nat ->
  exists buf', scan_style (chars "%audio\") (skip_space (eq_text_of w f v)) (outputstyle r) = Some (true, buf') /\
    length buf' = 128%nat /\ cstr buf' = chars "EQ_" ++ w /\ cstr (drop 3 buf') = w.
Proof.
  intros B1. pose proof step_name as Nw. pose proof (name_no_nul w Nw) as Nn.
  change (skip_space (eq_text_of w f v)) with (eq_text_of w f v). unfold eq_text_of. destruct (eq_label_head f) as [lr ->].
  assert (Ne : forall c, c ∉ chars "EQ_" -> c ∉ w -> c ∉ chars "EQ_" ++ w) by (intros c ? ?; rewrite elem_of_app; tauto).
  assert (Lw : (length (chars "EQ_" ++ w) < 128)%nat) by (rewrite length_app; destruct Nw; cbn; lia).
  destruct (store_string_ok (outputstyle r) (chars "EQ_" ++ w)) as (b & Eb & Lb & Cb & x & Ex); [by rewrite B1|].
  destruct (scan_style_ok (chars "%audio\") (chars "EQ_" ++ w) (lr ++ hex_text (eq_mask f v) ++ [NL]) (outputstyle r)) as (b' & E & Eb');
    [done|apply Ne; [intros I; apply list_elem_of_In in I; cbn in I; intuition discriminate|apply step_back]|by rewrite B1|].
  cbn [app]. cbn [app] in E. rewrite E. exists b'. split; [done|]. rewrite Eb in Eb'. injection Eb' as <-.
  split; [lia|]. split; [apply Cb, Ne; [intros I; apply list_elem_of_In in I; cbn in I; intuition discriminate|done]|]. rewrite Ex. change (drop 3 ((chars "EQ_" ++ w) ++ NUL :: x)) with (w ++ NUL :: x).
  by apply cstr_app.
Qed.

Lemma eq_step r t f v c :
  buffers_ok r -> params r !! i = Some t -> total_shape t -> eq_range f -> eq_fits f v ->
  eq_target (eq_key_of f (eq_mode_of f) (eq_band_of f)) (cnt r) = (f, c) ->
  exists r' t', read_line m (eq_text_of w f v) r = Some r' /\ params r' = <[i := t']> (params r) /\ buffers_ok r' /\ cnt r' = c /\
    total_shape t' /\ tAudioNvArmModeStruct t' = tAudioNvArmModeStruct t /\ ucModeName t' = ucModeName t /\
    cstr (para_name (audio_enha_eq t')) = chars "EQ_" ++ w /\ eq_get f (audio_enha_eq t') = Some (eq_back f v) /\
    forall g, g <> f -> eq_get g (audio_enha_eq t') = eq_get g (audio_enha_eq t).
Proof.
  intros [B1 B2] Ht (Sa & Se & Ln & Lp) R V Tg. pose proof step_name as Nw. pose proof (name_no_nul w Nw) as Nn.
  destruct (eq_read w f v (data r) Nw R V) as (dat' & v' & D & Ld & Lv & Tr); [lia|].
  destruct (store_string_ok (para_name (audio_enha_eq t)) (chars "EQ_" ++ w)) as (nm & En & Lnm & Cn & _);
    [rewrite Lp, length_app; destruct Nw; cbn; unfold NAME_LEN_MAX; lia|].
  set (e := audio_enha_eq t) in *. set (e1 := MkEq nm (eq_control e) (eq_modes e) (externdArray e)).
  assert (Se1 : eq_shape e1) by (destruct Se; by split).
  destruct (eq_put_spec f v' e1 R Se1) as (e' & P & Ss & Pn & G & N). rewrite Tr in G.
  destruct (eq_style r f v B1) as (style & Sc & Ls & Cs & Cd). unfold read_line. rewrite eq_not_arm by done.
  replace (contains (eq_text_of w f v) (chars "%audio\")) with true by (symmetry; apply contains_head).
  unfold eq_line. rewrite Sc. cbn [mbind option_bind negb]. rewrite Cs, Cd, (find_mode_at m ws i w) by done. cbn [mbind option_bind].
  rewrite D. cbn [mbind option_bind]. assert (H0 : 0 <= Z.of_nat i) by lia.
  rewrite (update_at _ _ _ t (MkTotal e1 (ucModeName t) (tAudioNvArmModeStruct t)) H0); [|by rewrite Nat2Z.id|by fold e; rewrite En].
  cbn [mbind option_bind]. rewrite Lv. cbn [mbind option_bind]. rewrite Tg.
  rewrite (update_at _ _ _ (MkTotal e1 (ucModeName t) (tAudioNvArmModeStruct t)) (MkTotal e' (ucModeName t) (tAudioNvArmModeStruct t)) H0).
  2:{ rewrite Nat2Z.id. rewrite list_lookup_insert_eq; [done|]. by eapply lookup_lt_Some. }
  2:{ cbn [audio_enha_eq ucModeName tAudioNvArmModeStruct]. by rewrite P. }
  cbn [mbind option_bind]. eexists _, (MkTotal e' (ucModeName t) (tAudioNvArmModeStruct t)). split; [reflexivity|].
  cbn [params outputstyle data cnt audio_enha_eq ucModeName tAudioNvArmModeStruct].
  split; [by rewrite Nat2Z.id, list_insert_insert_eq|]. split; [split; cbn; lia|]. split; [done|].
  split; [split; [done|]; split; [done|]; split; [done|cbn; rewrite Pn; cbn; lia]|]. split; [done|]. split; [done|].
  split; [rewrite Pn; apply Cn; rewrite elem_of_app; intros [I|I]; [apply list_elem_of_In in I; cbn in I; intuition discriminate|done]|].
  split; [done|]. intros g Ng. rewrite N by done. by destruct g.
Qed.
End Step.

(** ** All lines of a mode *)
#[export] Instance arm_field_eq_dec : EqDecision arm_field.
Proof. solve_decision. Defined.
#[export] Instance eq_field_eq_dec : EqDecision eq_field.
Proof. solve_decision. Defined.

(** The counters say the right index at every line, and end where they began. *)
Fixpoint sim {F} `{EqDecision F} (target : F -> counters -> F * counters) (fs : list F) (c : counters) : option counters :=
  match fs with
  | [] => Some c
  | f :: fs => let '(g, c) := target f c in if decide (g = f) then sim target fs c else None
  end.
Definition arm_next (f : arm_field) (c : counters) : arm_field * counters := arm_target (key_of f) c.
Definition eq_next (f : eq_field) (c : counters) : eq_field * counters := eq_target (eq_key_of f (eq_mode_of f) (eq_band_of f)) c.
Lemma arm_sim_fields : sim arm_next arm_fields counters0 = Some counters0.
Proof. vm_compute. reflexivity. Qed.
Lemma eq_sim_fields : sim eq_next eq_fields counters0 = Some counters0.
Proof. vm_compute. reflexivity. Qed.

Lemma elem_concat {A} (x : A) ls : x ∈ concat ls <-> exists l, x ∈ l /\ l ∈ ls.
Proof. rewrite list_elem_of_In, in_concat. setoid_rewrite list_elem_of_In. naive_solver. Qed.
Lemma elem_upto i n : i ∈ upto n <-> below i n.
Proof.
  unfold upto, below. rewrite list_elem_of_fmap. split.
  - intros (k & -> & H). apply elem_of_seq in H. lia.
  - intros H. exists (Z.to_nat i). split; [lia|]. apply elem_of_seq. lia.
Qed.
Lemma elem_map {A} (g : Z -> A) x n : x ∈ (g <$> upto n) <-> exists i, x = g i /\ below i n.
Proof. rewrite list_elem_of_fmap. setoid_rewrite elem_upto. done. Qed.
Lemma elem_app_fields f a : f ∈ app_fields a <-> is_app f = true /\ app_of f = a /\ app_range f.
Proof.
  unfold app_fields. rewrite elem_of_cons, elem_of_app, elem_of_cons, elem_of_app, !elem_map.
  destruct f; cbn; naive_solver.
Qed.
Lemma elem_arm_fields f : f ∈ arm_fields <-> arm_range f.
Proof.
  unfold arm_fields. rewrite !elem_of_app, !elem_of_cons, !elem_of_nil, !elem_map, elem_concat.
  setoid_rewrite elem_map. split.
  - intros [H|[H|[H|[H|[H|[H|H]]]]]]; try solve [naive_solver]. destruct H as (l & Hf & a & -> & Ha).
    apply elem_app_fields in Hf as (A & <- & R). by destruct f.
  - intros R. destruct (is_app f) eqn:A; [|destruct f; naive_solver].
    do 4 right. left. exists (app_fields (app_of f)). assert (R' : below (app_of f) AUDIO_ARM_APP_TYPE_MAX /\ app_range f) by (by destruct f).
    destruct R'. split; [by apply elem_app_fields|]. by exists (app_of f).
Qed.
Lemma elem_eq_fields f : f ∈ eq_fields <-> eq_range f.
Proof.
  unfold eq_fields, mode_fields. rewrite !elem_of_cons, !elem_of_app, !elem_map, elem_concat.
  setoid_rewrite elem_map. split.
  - intros [-> |[(l & Hf & m & -> & Hm)|H]]; [done| |naive_solver].
    rewrite !elem_of_app, !elem_of_cons, elem_concat in Hf. setoid_rewrite elem_map in Hf.
    destruct Hf as [[-> |[-> |Hf]]|(l & Hf & b & -> & Hb)]; [done|done|by apply elem_of_nil in Hf|]. rewrite !elem_of_cons in Hf.
    destruct Hf as [-> |[-> |[-> |[-> |Hf]]]]; try done. by apply elem_of_nil in Hf.
  - intros R. destruct (in_mode f) eqn:A; [|destruct f; naive_solver]. right; left.
    eexists. split; [|exists (eq_mode_of f); split; [reflexivity|destruct f; try discriminate A; cbn in *; tauto]].
    rewrite elem_of_app, !elem_of_cons, elem_concat. destruct (is_band f) eqn:B; [|destruct f; try discriminate; cbn; auto].
    right. eexists. split; [|apply elem_map; exists (eq_band_of f); split; [reflexivity|]].
    + destruct f; try discriminate B; cbn; set_solver.
    + destruct f; try discriminate B; apply R.
Qed.

Fixpoint read_all (m : aud_mode_t) (ls : list text) (r : reader) : option reader :=
  match ls with
  | [] => Some r
  | l :: ls => r ← read_line m l r; read_all m ls r
  end.
Lemma read_all_app m a b r r1 : read_all m a r = Some r1 -> read_all m (a ++ b) r = read_all m b r1.
Proof.
  revert r. induction a as [|l a IH]; intros r; cbn [read_all app]; [by intros [= ->]|].
  destruct (read_line m l r) as [r2|]; [|done]. cbn [mbind option_bind]. apply IH.
Qed.

(** The lines of one kind: [line] writes a member that [get] reads, [back] is
    the value it has afterwards, [rest] is what they leave alone and [named]
    what each of them establishes. *)
Section Runs.
Context {F : Type} `{EqDecision F} (m : aud_mode_t) (i : nat) (line : F -> Z -> text) (get : F -> AUDIO_TOTAL_T -> option Z)
  (rest : relation AUDIO_TOTAL_T) (named : AUDIO_TOTAL_T -> Prop) (target : F -> counters -> F * counters) (ok : F -> Z -> Prop)
  (back : F -> Z -> Z).
Context `{!PreOrder rest}.
Hypothesis Hstep : forall r t f v c, buffers_ok r -> params r !! i = Some t -> total_shape t -> ok f v -> target f (cnt r) = (f, c) ->
  exists r' t', read_line m (line f v) r = Some r' /\ params r' = <[i := t']> (params r) /\ buffers_ok r' /\ cnt r' = c /\ total_shape t' /\
    rest t t' /\ named t' /\ get f t' = Some (back f v) /\ forall g, g <> f -> get g t' = get g t.

Lemma run_lines (p : AUDIO_TOTAL_T) fs : forall ls r t c,
  (forall f v, f ∈ fs -> get f p = Some v -> ok f v) -> mapM (fun f => v ← get f p; Some (line f v)) fs = Some ls ->
  sim target fs (cnt r) = Some c -> buffers_ok r -> params r !! i = Some t -> total_shape t ->
  exists r' t', read_all m ls r = Some r' /\ params r' = <[i := t']> (params r) /\ buffers_ok r' /\ cnt r' = c /\ total_shape t' /\
    rest t t' /\ (fs = [] /\ t' = t \/ named t') /\ forall g, get g t' = if decide (g ∈ fs) then back g <$> get g p else get g t.
Proof.
  induction fs as [|f fs IH]; intros ls r t c V L S B Ht Sh; cbn [mapM] in L.
  { injection L as <-. exists r, t. cbn in S. injection S as <-. split; [done|]. split; [by rewrite list_insert_id|].
    repeat (split; [done|]). split; [by left|]. intros g. by rewrite decide_False by apply not_elem_of_nil. }
  destruct (get f p) as [v|] eqn:Ev; [|done]. cbn [mbind option_bind] in L. destruct (mapM _ fs) as [ls'|] eqn:E'; [|done].
  injection L as <-. cbn [sim] in S. destruct (target f (cnt r)) as [g c1] eqn:Tg.
  destruct (decide (g = f)) as [->|]; [|done].
  destruct (Hstep r t f v c1) as (r1 & t1 & E1 & P1 & B1 & C1 & Sh1 & Q1 & N1 & G1 & O1); try done.
  { apply V; [by left|done]. }
  destruct (IH ls' r1 t1 c) as (r2 & t2 & E2 & P2 & B2 & C2 & Sh2 & Q2 & N2 & G2); try done.
  { intros f' v' I. apply V. by right. }
  { by rewrite C1. }
  { rewrite P1. apply list_lookup_insert_eq. by eapply lookup_lt_Some. }
  exists r2, t2. cbn [read_all]. rewrite E1. cbn [mbind option_bind].
  split; [done|]. split; [by rewrite P2, P1, list_insert_insert_eq|]. repeat (split; [done|]). split; [by etrans|]. split.
  - right. by destruct N2 as [[_ ->]|N2].
  - intros g. rewrite G2. destruct (decide (g = f)) as [->|N].
    + rewrite (decide_True (P := f ∈ f :: fs)) by by left. destruct (decide (f ∈ fs)); [done|]. by rewrite G1, Ev.
    + destruct (decide (g ∈ fs)); [by rewrite decide_True by by right|]. rewrite decide_False; [by apply O1|].
      rewrite elem_of_cons. tauto.
Qed.
End Runs.
