(* ===== verification/AudioFile.v ===== *)
(** The text file of the audio parameters as a whole: what
    [nvstruct2stringfile] writes, [stringfile2nvstruct] reads back, for the
    modes that [parse] found in the list of audio modes.  The lines one by one
    are in AudioRound.v. *)
From S2P Require Import Prelude TextConf AudioNv AudioRound.
From Stdlib Require Import Ascii.

(** ** Structures with the same members are the same *)
Lemma at_index_ext {A} (l l' : list A) n :
  length l = n -> length l' = n -> (forall i, below i n -> at_index i l Some = at_index i l' Some) -> l = l'.
Proof.
  intros L L' H. apply list_eq_same_length with n; try done. intros k x y Hk Hx Hy.
  specialize (H (Z.of_nat k)). unfold at_index in H. rewrite (proj2 (Z.leb_le 0 _)), Nat2Z.id, Hx, Hy in H by lia.
  cbn in H. unfold below in H. assert (Some x = Some y) by (apply H; lia). congruence.
Qed.

Lemma at_index_of_nat {A B} k (l : list A) (g : A -> option B) x : l !! k = Some x -> at_index (Z.of_nat k) l g = g x.
Proof. intros H. unfold at_index. rewrite (proj2 (Z.leb_le 0 _)), Nat2Z.id, H by lia. done. Qed.

Lemma app_ext c c' : app_shape c -> app_shape c' -> (forall f, app_range f -> app_get f c = app_get f c') -> c = c'.
Proof.
  intros (S1 & S2 & S3) (S1' & S2' & S3') H. destruct c, c'. cbn in *.
  pose proof (H (EqSwitch 0) I) as [= ->]. pose proof (H (VolCount 0) I) as [= ->]. f_equal.
  - eapply at_index_ext; [exact S1|exact S1'|]. intros i. apply (H (AgcGain 0 i)).
  - eapply at_index_ext; [exact S2|exact S2'|]. intros i. apply (H (ArmVolume 0 i)).
  - eapply at_index_ext; [exact S3|exact S3'|]. intros i. apply (H (AppReserve 0 i)).
Qed.

Definition with_app (a : Z) (f : arm_field) : arm_field :=
  match f with
  | EqSwitch _ => EqSwitch a | AgcGain _ i => AgcGain a i | VolCount _ => VolCount a | ArmVolume _ i => ArmVolume a i
  | AppReserve _ i => AppReserve a i | _ => f
  end.
Lemma arm_ext s s' : arm_shape s -> arm_shape s' -> (forall f, arm_range f -> arm_get f s = arm_get f s') -> s = s'.
Proof.
  intros [S1 S2 S3 S4 S5] [S1' S2' S3' S4' S5'] H. destruct s as [[v r d] [va vg ex apps] mo ad re], s' as [[v' r' d'] [va' vg' ex' apps'] mo' ad' re'].
  cbn in *. pose proof (H ValidDev I) as [= ->]. pose proof (H DevReserve I) as [= ->]. pose proof (H ValidApp I) as [= ->].
  pose proof (H ValidAgc I) as [= ->]. pose proof (H MidiOpt I) as [= ->]. pose proof (H AudDev I) as [= ->].
  rewrite (at_index_ext d d' _ S1 S1') by (intros i; exact (H (DevSet i))).
  rewrite (at_index_ext ex ex' _ S2 S2') by (intros i; exact (H (ExpControl i))).
  rewrite (at_index_ext re re' _ S5 S5') by (intros i; exact (H (ArmReserve i))).
  assert (apps = apps') as ->; [|done]. apply list_eq_same_length with AUDIO_ARM_APP_TYPE_MAX; [exact S3'|exact S3|].
  intros k c c' Hk Hc Hc'. apply app_ext; [exact (Forall_lookup_1 _ _ _ _ S4 Hc)|exact (Forall_lookup_1 _ _ _ _ S4' Hc')|]. intros f Rf.
  assert (A : is_app f = true) by (by destruct f).
  specialize (H (with_app (Z.of_nat k) f)).
  assert (G : forall l x, l !! k = Some x -> at_index (Z.of_nat k) l (app_get (with_app (Z.of_nat k) f)) = app_get f x).
  { intros l x Hx. rewrite (at_index_of_nat _ _ _ x) by done. by destruct f. }
  rewrite <- (G _ _ Hc), <- (G _ _ Hc'). destruct f; try discriminate A; apply H; (split; [unfold below; lia|done]).
Qed.

Definition with_mode (m : Z) (f : eq_field) : eq_field :=
  match f with
  | AgcInGain _ => AgcInGain m | BandControl _ => BandControl m | Fo _ b => Fo m b | Q _ b => Q m b | Boost _ b => Boost m b | Gain _ b => Gain m b
  | _ => f
  end.
Lemma mode_ext x y : length (eq_band x) = EQ_BAND_MAX -> length (eq_band y) = EQ_BAND_MAX ->
  (forall f, eq_range f -> in_mode f = true -> mode_get f x = mode_get f y) -> x = y.
Proof.
  intros Lx Ly H. destruct x as [a b l], y as [a' b' l']. cbn in Lx, Ly.
  assert (R0 : below 0 EQ_MODE_MAX) by (unfold below, EQ_MODE_MAX; lia).
  pose proof (H (AgcInGain 0) R0 eq_refl) as [= ->]. pose proof (H (BandControl 0) R0 eq_refl) as [= ->]. f_equal.
  apply list_eq_same_length with EQ_BAND_MAX; try done. intros k c c' Hk Hc Hc'.
  assert (Rk : below 0 EQ_MODE_MAX /\ below (Z.of_nat k) EQ_BAND_MAX) by (split; [done|unfold below; lia]).
  pose proof (H (Fo 0 (Z.of_nat k)) Rk eq_refl) as E1. pose proof (H (Q 0 (Z.of_nat k)) Rk eq_refl) as E2.
  pose proof (H (Boost 0 (Z.of_nat k)) Rk eq_refl) as E3. pose proof (H (Gain 0 (Z.of_nat k)) Rk eq_refl) as E4.
  cbn [mode_get eq_band] in E1, E2, E3, E4.
  repeat match goal with E : at_index _ _ _ = at_index _ _ _ |- _ =>
    rewrite (at_index_of_nat _ _ _ _ Hc), (at_index_of_nat _ _ _ _ Hc') in E end.
  destruct c, c'. cbn in *. congruence.
Qed.
Lemma eq_ext e e' : eq_shape e -> eq_shape e' -> (forall f, eq_range f -> eq_get f e = eq_get f e') ->
  eq_control e = eq_control e' /\ eq_modes e = eq_modes e' /\ externdArray e = externdArray e'.
Proof.
  intros [S1 S2 S3] [S1' S2' S3'] H. split; [by injection (H EqControl I)|]. split.
  - apply list_eq_same_length with EQ_MODE_MAX; try done. intros k x x' Hk Hx Hx'.
    apply mode_ext; [by apply (Forall_lookup_1 _ _ _ _ S2 Hx)|by apply (Forall_lookup_1 _ _ _ _ S2' Hx')|]. intros f Rf M.
    specialize (H (with_mode (Z.of_nat k) f)).
    assert (G : forall l z, l !! k = Some z -> at_index (Z.of_nat k) l (mode_get (with_mode (Z.of_nat k) f)) = mode_get f z).
    { intros l z Hz. rewrite (at_index_of_nat _ _ _ z) by done. by destruct f. }
    rewrite <- (G _ _ Hx), <- (G _ _ Hx'). rewrite !eq_get_mode in H by (by destruct f).
    destruct f; try discriminate M; apply H; cbn in *; unfold below in *; lia.
  - eapply at_index_ext; [done|done|]. intros i. apply (H (Extend i)).
Qed.

(** ** The lines in the file *)
Definition line_ok (l : text) : Prop := exists b, l = b ++ [NL] /\ forallb plain b = true /\ (length b <= 1022)%nat.

Lemma forallb_weak {A} (p q : A -> bool) l : (forall x, p x = true -> q x = true) -> forallb p l = true -> forallb q l = true.
Proof. intros W. rewrite !forallb_forall. auto. Qed.
Lemma digit_plain c : digit09 c = true -> plain c = true.
Proof. destruct c as [[] [] [] [] [] [] [] []]; vm_compute; congruence. Qed.
Lemma hex_plain c : hexc c = true -> plain c = true.
Proof. destruct c as [[] [] [] [] [] [] [] []]; vm_compute; congruence. Qed.
Lemma name_plain c : namec c = true -> plain c = true.
Proof. destruct c as [[] [] [] [] [] [] [] []]; vm_compute; congruence. Qed.

(** A piece of a line: its characters, and a bound on its length. *)
Definition piece (n : nat) (b : text) : Prop := forallb plain b = true /\ (length b <= n)%nat.
Lemma piece_app n k a b : piece n a -> piece k b -> piece (n + k) (a ++ b).
Proof. intros [A1 A2] [B1 B2]. split; [by rewrite forallb_app, A1, B1|]. rewrite length_app. lia. Qed.
Lemma piece_num v : 0 <= v < 100 -> piece 10 (dec_text v).
Proof. intros H. destruct (dec_text_ok v H) as (_ & C & L & _). split; [|done]. by eapply forallb_weak; [apply digit_plain|]. Qed.
Lemma piece_hex v : piece 8 (hex_text v).
Proof. destruct (hex_text_ok v) as (_ & C & L). split; [|done]. by eapply forallb_weak; [apply hex_plain|]. Qed.
Lemma piece_name w : name_ok w -> piece 12 w.
Proof. intros [_ L C _]. split; [|done]. by eapply forallb_weak; [apply name_plain|]. Qed.
Lemma piece_chars s : forallb plain (chars s) = true -> piece (length (chars s)) (chars s).
Proof. by split. Qed.
Lemma piece_weak n k b : piece n b -> (n <= k)%nat -> piece k b.
Proof. intros [? ?] ?. split; [done|lia]. Qed.
#[local] Hint Resolve piece_app piece_num piece_hex piece_name piece_chars : piece.

Lemma arm_label_piece f : arm_range f -> piece 200 (arm_label f).
Proof.
  intros R. destruct (arm_range_small f R) as [Ra Ri].
  destruct f; cbn [app_of idx_of] in *; cbn [arm_label]; (eapply piece_weak; [eauto 10 with piece|]); vm_compute; lia.
Qed.
Lemma eq_label_piece f : eq_range f -> piece 200 (eq_label f).
Proof.
  intros R. destruct (eq_range_small f R) as (Rm & Rb & Ri). assert (0 <= eq_mode_of f + 1 < 100 /\ 0 <= eq_band_of f + 1 < 100) as [Rm' Rb'] by lia.
  destruct f; cbn [eq_mode_of eq_band_of eq_idx_of] in *; cbn [eq_label]; (eapply piece_weak; [eauto 10 with piece|]); vm_compute; lia.
Qed.
Lemma arm_line_ok w f v : name_ok w -> arm_range f -> line_ok (arm_text_of w f v).
Proof.
  intros Nw R. exists (chars "audio_arm\audio_arm\" ++ w ++ arm_label f ++ hex_text v).
  split; [unfold arm_text_of; by rewrite <- !app_assoc|].
  eapply piece_weak; [pose proof (arm_label_piece f R); eauto 10 with piece|]. vm_compute. lia.
Qed.
Lemma eq_line_ok w f v : name_ok w -> eq_range f -> line_ok (eq_text_of w f v).
Proof.
  intros Nw R. exists (chars "%audio\" ++ (chars "EQ_" ++ w) ++ eq_label f ++ hex_text (eq_mask f v)).
  split; [unfold eq_text_of; by rewrite <- !app_assoc|].
  eapply piece_weak; [pose proof (eq_label_piece f R); eauto 10 with piece|]. vm_compute. lia.
Qed.

Lemma read_lines_all m ls : forall fuel r, Forall line_ok ls -> (length ls < fuel)%nat -> read_lines fuel m (concat ls) r = read_all m ls r.
Proof.
  induction ls as [|l ls IH]; intros [|fuel] r F H; try (cbn in H; lia); [done|]. apply List.Forall_cons_iff in F as [(b & -> & P & L) F].
  destruct (plain_no b P) as [N1 N2]. cbn [concat read_lines read_all]. rewrite <- app_assoc. cbn [app]. rewrite fgets_line by (done || lia).
  rewrite cstr_plain by (rewrite elem_of_app, list_elem_of_singleton; intros [?|[=]]; done).
  destruct (read_line m (b ++ [NL]) r) as [r'|]; [|done]. cbn [mbind option_bind]. apply IH; [done|cbn in H; lia].
Qed.
Lemma lines_length ls : Forall line_ok ls -> (length ls <= length (concat ls))%nat.
Proof.
  induction 1 as [|l ls (b & -> & _) F IH]; [done|]. cbn [concat length]. rewrite !length_app. cbn [length]. lia.
Qed.

(** ** One mode, and all of them *)

(** Parameters with every value in the range of its member. *)
Record params_ok (p : AUDIO_TOTAL_T) : Prop := {
  ok_shape : total_shape p;
  ok_arm : forall f v, arm_range f -> arm_get f (tAudioNvArmModeStruct p) = Some v -> arm_fits f v;
  ok_eq : forall f v, eq_range f -> eq_get f (audio_enha_eq p) = Some v -> eq_fits f v }.

(** The equaliser modes as they are read back: every member as it was, a
    negative [q] as -1. *)
Definition band_back (y : EQ_BAND_INPUT_PARA_T) : EQ_BAND_INPUT_PARA_T := MkBand (fo y) (q_back (q y)) (boostdB y) (gaindB y).
Definition mode_back (x : EQ_MODE_PARA_T) : EQ_MODE_PARA_T := MkEqMode (agc_in_gain x) (band_control x) (band_back <$> eq_band x).
Definition enha_back (e : AUDIO_ENHA_EQ_STRUCT_T) : AUDIO_ENHA_EQ_STRUCT_T :=
  MkEq (para_name e) (eq_control e) (mode_back <$> eq_modes e) (externdArray e).

Lemma at_index_fmap {A B C} i (l : list A) (g : A -> B) (h : B -> option C) : at_index i (g <$> l) h = at_index i l (h ∘ g).
Proof. unfold at_index. destruct (0 <=? i); [|done]. rewrite list_lookup_fmap. by destruct (l !! Z.to_nat i). Qed.
Lemma at_index_then {A B C} i (l : list A) (h : A -> option B) (k : A -> option C) (f : B -> C) :
  (forall a, k a = f <$> h a) -> at_index i l k = f <$> at_index i l h.
Proof. intros H. unfold at_index. destruct (0 <=? i); [|done]. destruct (l !! Z.to_nat i); [apply H|done]. Qed.
Lemma enha_back_get f e : eq_get f (enha_back e) = eq_back f <$> eq_get f e.
Proof.
  destruct f; cbn [eq_get enha_back eq_modes externdArray eq_control]; [done|..];
    rewrite ?at_index_fmap; apply at_index_then; intros x; cbn; try done; rewrite at_index_fmap; by apply at_index_then.
Qed.
Lemma enha_back_shape e : eq_shape e -> eq_shape (enha_back e).
Proof.
  intros [S1 S2 S3]. split; cbn; [by rewrite length_fmap| |done]. apply Forall_fmap.
  eapply List.Forall_impl; [|exact S2]. intros x Hx. cbn. by rewrite length_fmap.
Qed.

(** [t] has the name [w] and the parameters of [p], negative [q]s aside. *)
Record read_back (w : text) (p t : AUDIO_TOTAL_T) : Prop := {
  rb_shape : total_shape t;
  rb_name : cstr (ucModeName t) = w;
  rb_eq_name : cstr (para_name (audio_enha_eq t)) = chars "EQ_" ++ w;
  rb_arm : tAudioNvArmModeStruct t = tAudioNvArmModeStruct p;
  rb_control : eq_control (audio_enha_eq t) = eq_control (audio_enha_eq p);
  rb_modes : eq_modes (audio_enha_eq t) = mode_back <$> eq_modes (audio_enha_eq p);
  rb_extern : externdArray (audio_enha_eq t) = externdArray (audio_enha_eq p) }.

Lemma arm_get_some f s : arm_range f -> arm_shape s -> is_Some (arm_get f s).
Proof.
  intros R [S1 S2 S3 S4 S5]. unfold is_Some.
  assert (G : forall i n (l : list Z), below i n -> length l = n -> exists v, at_index i l Some = Some v).
  { intros i n l B L. destruct (below_lookup i n l B L) as (x & Hx & H0). exists x. unfold at_index. rewrite (proj2 (Z.leb_le 0 i)), Hx; done. }
  destruct (is_app f) eqn:A; [|destruct f; try discriminate A; cbn; eauto].
  assert (R' : below (app_of f) AUDIO_ARM_APP_TYPE_MAX /\ app_range f) by (by destruct f). destruct R' as [Ra Rf].
  destruct (below_lookup _ _ _ Ra S3) as (c & Hc & H0). pose proof (Forall_lookup_1 _ _ _ _ S4 Hc) as (T1 & T2 & T3).
  assert (E : arm_get f s = app_get f c).
  { transitivity (at_index (app_of f) (app_config_info (app_config_info_set s)) (app_get f)); [by destruct f|].
    unfold at_index. by rewrite (proj2 (Z.leb_le 0 _)), Hc. }
  rewrite E. destruct f; try discriminate A; cbn in *; eauto.
Qed.
Lemma eq_get_some f e : eq_range f -> eq_shape e -> is_Some (eq_get f e).
Proof.
  intros R S. destruct (eq_put_spec f 0 e R S) as (e' & P & _). destruct (in_mode f) eqn:M.
  - rewrite eq_get_mode by done. destruct S as [S1 S2 S3].
    assert (Rm : below (eq_mode_of f) EQ_MODE_MAX) by (destruct f; try discriminate M; cbn in *; tauto).
    destruct (below_lookup _ _ _ Rm S1) as (x & Hx & H0). unfold at_index. rewrite (proj2 (Z.leb_le 0 _)), Hx by done. cbn.
    destruct (is_band f) eqn:B; [|destruct f; try discriminate; cbn; eauto]. rewrite mode_get_band by done.
    assert (Rb : below (eq_band_of f) EQ_BAND_MAX) by (destruct f; try discriminate B; apply R).
    destruct (below_lookup _ _ _ Rb (Forall_lookup_1 _ _ _ _ S2 Hx)) as (y & Hy & H1).
    unfold at_index. rewrite (proj2 (Z.leb_le 0 _)), Hy by done. destruct f; try discriminate B; cbn; eauto.
  - destruct f; try discriminate M; [by eexists|]. destruct S as [_ _ S3]. destruct (below_lookup _ _ _ R S3) as (x & Hx & H0).
    exists x. cbn. unfold at_index. by rewrite (proj2 (Z.leb_le 0 _)), Hx.
Qed.

(** What the lines of the other kind leave alone. *)
Definition same_eq : relation AUDIO_TOTAL_T := fun t t' => audio_enha_eq t = audio_enha_eq t'.
Definition same_arm : relation AUDIO_TOTAL_T := fun t t' => tAudioNvArmModeStruct t = tAudioNvArmModeStruct t' /\ ucModeName t = ucModeName t'.
#[export] Instance same_eq_preorder : PreOrder same_eq.
Proof. split; [done|]. intros ? ? ?. apply eq_trans. Qed.
#[export] Instance same_arm_preorder : PreOrder same_arm.
Proof. split; [done|]. intros ? ? ? [E1 E2] [E3 E4]. split; congruence. Qed.

Section Modes.
Context (m : aud_mode_t) (ws : list text).
Hypothesis M : modes_ok m ws.

Lemma arm_run i w p la r t :
  ws !! i = Some w -> params_ok p -> mapM (arm_text w (tAudioNvArmModeStruct p)) arm_fields = Some la ->
  cnt r = counters0 -> buffers_ok r -> params r !! i = Some t -> total_shape t ->
  exists r' t', read_all m la r = Some r' /\ params r' = <[i := t']> (params r) /\ buffers_ok r' /\ cnt r' = counters0 /\ total_shape t' /\
    same_eq t t' /\ cstr (ucModeName t') = w /\
    forall f, arm_range f -> arm_get f (tAudioNvArmModeStruct t') = arm_get f (tAudioNvArmModeStruct p).
Proof.
  intros Hw [_ Oa _] L C B Ht Sh.
  destruct (run_lines m i (arm_text_of w) (fun f t => arm_get f (tAudioNvArmModeStruct t)) same_eq
    (fun t => cstr (ucModeName t) = w) arm_next (fun f v => arm_range f /\ arm_fits f v) (fun _ v => v)) with (p := p) (fs := arm_fields) (ls := la) (r := r) (t := t) (c := counters0)
    as (r' & t' & E & P & B' & C' & Sh' & R & N & G); try done.
  - intros r0 t0 f v c B0 H0 S0 [Rf Vf] Tg. destruct (arm_step m ws i w M Hw r0 t0 f v c) as (r' & t' & E & P & B' & C' & Sh' & Q & N & G & O); try done.
    exists r', t'. exact (conj E (conj P (conj B' (conj C' (conj Sh' (conj (Logic.eq_sym Q) (conj N (conj G O)))))))).
  - intros f v I E. apply elem_arm_fields in I. eauto.
  - rewrite C. apply arm_sim_fields.
  - exists r', t'. repeat (split; [done|]). split; [by destruct N as [[? _]|N]|]. intros f Rf. rewrite G.
    rewrite decide_True by by apply elem_arm_fields. by destruct (arm_get f _).
Qed.
Lemma eq_run i w p le r t :
  ws !! i = Some w -> params_ok p -> mapM (eq_text (chars "EQ_" ++ w) (audio_enha_eq p)) eq_fields = Some le ->
  cnt r = counters0 -> buffers_ok r -> params r !! i = Some t -> total_shape t ->
  exists r' t', read_all m le r = Some r' /\ params r' = <[i := t']> (params r) /\ buffers_ok r' /\ cnt r' = counters0 /\ total_shape t' /\
    same_arm t t' /\ cstr (para_name (audio_enha_eq t')) = chars "EQ_" ++ w /\
    forall f, eq_range f -> eq_get f (audio_enha_eq t') = eq_get f (enha_back (audio_enha_eq p)).
Proof.
  intros Hw [_ _ Oe] L C B Ht Sh.
  destruct (run_lines m i (eq_text_of w) (fun f t => eq_get f (audio_enha_eq t))
    same_arm
    (fun t => cstr (para_name (audio_enha_eq t)) = chars "EQ_" ++ w) eq_next (fun f v => eq_range f /\ eq_fits f v) eq_back)
    with (p := p) (fs := eq_fields) (ls := le) (r := r) (t := t) (c := counters0) as (r' & t' & E & P & B' & C' & Sh' & R & N & G); try done.
  - intros r0 t0 f v c B0 H0 S0 [Rf Vf] Tg. destruct (eq_step m ws i w M Hw r0 t0 f v c) as (r' & t' & E & P & B' & C' & Sh' & Q & Q' & N & G & O); try done.
    exists r', t'. exact (conj E (conj P (conj B' (conj C' (conj Sh' (conj (conj (Logic.eq_sym Q) (Logic.eq_sym Q')) (conj N (conj G O)))))))).
  - intros f v I E. apply elem_eq_fields in I. eauto.
  - rewrite C. apply eq_sim_fields.
  - exists r', t'. repeat (split; [done|]). split; [by destruct N as [[? _]|N]|]. intros f Rf. rewrite G.
    by rewrite decide_True, enha_back_get by by apply elem_eq_fields.
Qed.

Lemma mode_lines i w p : ws !! i = Some w -> params_ok p ->
  exists la le, mapM (arm_text w (tAudioNvArmModeStruct p)) arm_fields = Some la /\
    mapM (eq_text (chars "EQ_" ++ w) (audio_enha_eq p)) eq_fields = Some le /\
    mode_text m i p = Some (concat (la ++ le)) /\ Forall line_ok (la ++ le).
Proof.
  intros Hw [(Sa & Se & _) _ _]. destruct (mode_names m ws i w M Hw) as [En Ee].
  assert (Nw : name_ok w) by (eapply Forall_lookup_1; [apply M|exact Hw]).
  destruct (mapM_is_Some_2 (arm_text w (tAudioNvArmModeStruct p)) arm_fields) as [la La].
  { apply Forall_forall. intros f I. apply list_elem_of_In, elem_arm_fields in I. destruct (arm_get_some f _ I Sa) as [v Ev]. unfold compose, arm_text. rewrite Ev. by eexists. }
  destruct (mapM_is_Some_2 (eq_text (chars "EQ_" ++ w) (audio_enha_eq p)) eq_fields) as [le Le].
  { apply Forall_forall. intros f I. apply list_elem_of_In, elem_eq_fields in I. destruct (eq_get_some f _ I Se) as [v Ev]. unfold compose, eq_text. rewrite Ev. by eexists. }
  exists la, le. split; [done|]. split; [done|]. split.
  { unfold mode_text. rewrite En, Ee. cbn [mbind option_bind]. rewrite La. cbn [mbind option_bind]. rewrite Le. cbn [mbind option_bind]. by rewrite concat_app. }
  apply mapM_Some_1 in La, Le. apply Forall_app. split; apply Forall_forall; intros l I; apply list_elem_of_In, list_elem_of_lookup in I as [k Hk].
  - destruct (Forall2_lookup_r _ _ _ _ _ La Hk) as (f & Hf & E). apply list_elem_of_lookup_2, elem_arm_fields in Hf.
    unfold arm_text in E. destruct (arm_get f _) as [v|]; [|done]. cbn [mbind option_bind] in E. injection E as <-. by apply (arm_line_ok w f v).
  - destruct (Forall2_lookup_r _ _ _ _ _ Le Hk) as (f & Hf & E). apply list_elem_of_lookup_2, elem_eq_fields in Hf.
    unfold eq_text in E. destruct (eq_get f _) as [v|]; [|done]. cbn [mbind option_bind] in E. injection E as <-. by apply (eq_line_ok w f v).
Qed.

Lemma mode_run i w p la le r t :
  ws !! i = Some w -> params_ok p -> mapM (arm_text w (tAudioNvArmModeStruct p)) arm_fields = Some la ->
  mapM (eq_text (chars "EQ_" ++ w) (audio_enha_eq p)) eq_fields = Some le ->
  cnt r = counters0 -> buffers_ok r -> params r !! i = Some t -> total_shape t ->
  exists r' t', read_all m (la ++ le) r = Some r' /\ params r' = <[i := t']> (params r) /\ buffers_ok r' /\ cnt r' = counters0 /\ read_back w p t'.
Proof.
  intros Hw Ok La Le C B Ht Sh.
  destruct (arm_run i w p la r t) as (r1 & t1 & E1 & P1 & B1 & C1 & S1 & Q1 & N1 & G1); try assumption.
  assert (H1 : params r1 !! i = Some t1) by (rewrite P1; apply list_lookup_insert_eq; by eapply lookup_lt_Some).
  destruct (eq_run i w p le r1 t1) as (r2 & t2 & E2 & P2 & B2 & C2 & S2 & [Q2 Q2'] & N2 & G2); try assumption.
  exists r2, t2. split; [by rewrite (read_all_app _ _ _ _ _ E1)|]. split; [by rewrite P2, P1, list_insert_insert_eq|].
  split; [done|]. split; [done|]. destruct Ok as [(Sa & Se & _) _ _]. destruct S2 as (Sa2 & Se2 & Ln).
  destruct (eq_ext _ _ Se2 (enha_back_shape _ Se) G2) as (X1 & X2 & X3). split; try done; [congruence|].
  rewrite <- Q2. apply arm_ext; [by rewrite Q2|done|done].
Qed.

Context (ps : list AUDIO_TOTAL_T).
Hypothesis Ps : length ps = length ws /\ Forall params_ok ps.

Lemma concat_concat_map {A} (lss : list (list (list A))) : concat (concat lss) = concat (map (@concat A) lss).
Proof. induction lss as [|ls lss IH]; [done|]. cbn [concat map]. by rewrite concat_app, IH. Qed.

Lemma modes_run n : forall j r, (j + n)%nat = length ws -> length (params r) = length ws -> Forall total_shape (params r) ->
  cnt r = counters0 -> buffers_ok r ->
  exists lss r', mapM (fun i => t ← ps !! i; mode_text m i t) (seq j n) = Some (map (@concat ascii) lss) /\ Forall line_ok (concat lss) /\
    read_all m (concat lss) r = Some r' /\ length (params r') = length ws /\ (forall i, (i < j)%nat -> params r' !! i = params r !! i) /\
    forall i w p, (j <= i)%nat -> ws !! i = Some w -> ps !! i = Some p -> exists t, params r' !! i = Some t /\ read_back w p t.
Proof.
  destruct Ps as [Lp Fp]. induction n as [|n IH]; intros j r Hj Lr Fr C B.
  { exists [], r. split; [done|]. split; [constructor|]. split; [done|]. split; [done|]. split; [done|].
    intros i w p Hi Hw. apply lookup_lt_Some in Hw. lia. }
  destruct (lookup_lt_is_Some_2 ws j) as [w Hw]; [lia|]. destruct (lookup_lt_is_Some_2 ps j) as [p Hp]; [lia|].
  destruct (lookup_lt_is_Some_2 (params r) j) as [t Ht]; [lia|]. pose proof (Forall_lookup_1 _ _ _ _ Fp Hp) as Okp.
  destruct (mode_lines j w p Hw Okp) as (la & le & La & Le & Et & Fl).
  destruct (mode_run j w p la le r t) as (r1 & t1 & E1 & P1 & B1 & C1 & Rb); try assumption; [by eapply Forall_lookup_1|].
  destruct (IH (S j) r1) as (lss & r' & Em & F' & E' & L' & Old & New); try assumption; [lia|by rewrite P1, length_insert| |].
  { rewrite P1. apply Forall_insert; [done|apply Rb]. }
  exists ((la ++ le) :: lss), r'. cbn [seq mapM]. rewrite Hp. cbn [mbind option_bind]. rewrite Et. cbn [mbind option_bind]. rewrite Em.
  split; [done|]. cbn [concat]. split; [by apply Forall_app|]. split; [by rewrite (read_all_app _ _ _ _ _ E1)|]. split; [done|]. split.
  - intros i Hi. rewrite Old, P1 by lia. apply list_lookup_insert_ne. lia.
  - intros i w' p' Hi Hw' Hp'. destruct (decide (i = j)) as [->|N]; [|apply New; [lia|done|done]].
    rewrite Old, P1 by lia. rewrite list_lookup_insert_eq by lia. exists t1. split; [done|]. congruence.
Qed.
End Modes.

(** ** The list of modes *)
Definition mode_tag (n : Z) : tag := (chars "audiomode", [chars "num"; dec_text n]).
Definition item_tag (i : nat) (w : text) : tag := (chars "item", [chars "name"; w; chars "index"; dec_text (Z.of_nat i)]).
Fixpoint item_tags (i : nat) (ws : list text) : list tag :=
  match ws with [] => [] | w :: ws => item_tag i w :: item_tags (S i) ws end.
Definition mode_tags (ws : list text) : list tag := mode_tag (Z.of_nat (length ws)) :: item_tags 0 ws.

(** The file in pieces; the last one, of no bytes, ends it. *)
Definition rounds (pieces : list (Z * list tag)) (final : list tag) : list round :=
  map (fun p => Piece p.1 p.2 true) pieces ++ [Piece 0 final true].

Lemma parse_tags_app malloced a b st : parse_tags malloced st (a ++ b) = st ← parse_tags malloced st a; parse_tags malloced st b.
Proof.
  revert st. induction a as [|t a IH]; intros st; [done|]. cbn [app parse_tags]. destruct (start_tag malloced st t); [|done]. apply IH.
Qed.
Lemma parse_pieces malloced pieces final : Forall (fun p => p.1 <> 0) pieces -> forall st,
  parse_rounds malloced st (rounds pieces final) = st ← parse_tags malloced st (concat (map snd pieces) ++ final); Some (Some (fst st)).
Proof.
  induction 1 as [|[n ts] pieces N F IH]; intros st.
  - cbn [rounds map app parse_rounds concat]. destruct (parse_tags malloced st final); done.
  - cbn [rounds map app parse_rounds concat fst snd]. rewrite <- app_assoc, parse_tags_app.
    destruct (parse_tags malloced st ts) as [st'|]; [|done]. cbn [mbind option_bind negb].
    rewrite (proj2 (Z.eqb_neq n 0)) by done. apply IH.
Qed.

Definition named_item (i : nat) (w : text) : audio_mode_item_t := MkItem (Z.of_nat i) (w ++ replicate (NAME_LEN_MAX - length w) NUL).
Lemma item_start n l i w : name_ok w -> (i < 100)%nat -> l !! i = Some (MkItem 0 (replicate NAME_LEN_MAX NUL)) ->
  start_tag true (MkModes n (Some l), Some i) (item_tag i w) = Some (MkModes n (Some (<[i := named_item i w]> l)), Some (S i)).
Proof.
  intros Nw Hi Hl. unfold start_tag, item_tag. cbn [fst snd]. rewrite bool_decide_eq_false_2 by discriminate.
  rewrite bool_decide_eq_true_2 by done. cbn [lookup list_lookup mbind option_bind]. rewrite !bool_decide_eq_true_2 by done.
  cbn [negb audio_mode_item_info num mbind option_bind]. rewrite Hl. cbn [mbind option_bind mode_name]. destruct (dec_text_ok (Z.of_nat i)) as (_ & _ & _ & -> & _); [lia|].
  assert (L : (length w <= NAME_LEN_MAX)%nat) by (destruct Nw; unfold NAME_LEN_MAX; lia).
  rewrite take_ge, drop_replicate by done. done.
Qed.

Lemma items_start n ws : forall i l, Forall name_ok ws -> (i + length ws <= 100)%nat -> length l = i ->
  parse_tags true (MkModes n (Some (l ++ replicate (length ws) (MkItem 0 (replicate NAME_LEN_MAX NUL)))), Some i) (item_tags i ws) =
  Some (MkModes n (Some (l ++ imap (fun k => named_item (i + k)) ws)), Some (i + length ws)%nat).
Proof.
  induction ws as [|w ws IH]; intros i l F H L; [cbn; by rewrite Nat.add_0_r|]. apply List.Forall_cons_iff in F as [Nw F].
  cbn [item_tags parse_tags length replicate]. rewrite item_start by (done || (cbn in H; lia) || (by rewrite lookup_app_r, L, Nat.sub_diag by lia)).
  cbn [mbind option_bind]. rewrite insert_app_r_alt, L, Nat.sub_diag by lia. cbn [insert list_insert].
  replace (l ++ named_item i w :: replicate (length ws) (MkItem 0 (replicate NAME_LEN_MAX NUL)))
    with ((l ++ [named_item i w]) ++ replicate (length ws) (MkItem 0 (replicate NAME_LEN_MAX NUL))) by (by rewrite <- app_assoc).
  rewrite IH; [|done|cbn in H; lia|rewrite length_app; cbn; lia]. do 2 f_equal; [|f_equal; lia]. do 2 f_equal. rewrite <- app_assoc.
  cbn [imap app]. f_equal. rewrite Nat.add_0_r. f_equal. apply imap_ext. intros k x _. cbn. by rewrite Nat.add_succ_r.
Qed.

Lemma parse_modes ws : Forall name_ok ws -> NoDup ws -> (0 < length ws < 100)%nat ->
  exists m st, parse_tags true (MkModes 0 None, None) (mode_tags ws) = Some (m, st) /\ modes_ok m ws.
Proof.
  intros F D H. unfold mode_tags. cbn [parse_tags]. unfold start_tag, mode_tag. cbn [fst snd].
  rewrite bool_decide_eq_true_2 by done. cbn [lookup list_lookup mbind option_bind]. rewrite bool_decide_eq_true_2 by done.
  unfold audmode_create. destruct (dec_text_ok (Z.of_nat (length ws))) as (_ & _ & _ & -> & _); [lia|].
  rewrite (proj2 (Z.eqb_neq _ 0)), (proj2 (Z.ltb_lt 0 _)) by lia. cbn [audio_mode_item_info andb]. rewrite Nat2Z.id.
  pose proof (items_start (Z.of_nat (length ws)) ws 0 [] F) as E. cbn [app] in E. cbn [mbind option_bind]. rewrite E by (done || lia).
  eexists _, _. split; [reflexivity|]. split; cbn [num]; unfold mode_items; cbn [audio_mode_item_info default]; try done.
  - apply length_imap.
  - intros i w Hw. assert (Nw : name_ok w) by by eapply Forall_lookup_1. exists (named_item i w), (replicate (15 - length w) NUL).
    split; [cbn; by rewrite list_lookup_imap, Hw|]. split; [done|]. destruct Nw. unfold named_item, NAME_LEN_MAX. cbn [mode_name].
    split; [by replace (16 - length w)%nat with (S (15 - length w)) by lia|]. rewrite length_app, length_replicate. lia.
Qed.

(** ** The whole file *)
Lemma file_roundtrip m ws ps dest :
  modes_ok m ws -> (0 < length ws)%nat -> length ps = length ws -> Forall params_ok ps -> length dest = length ws -> Forall total_shape dest ->
  exists txt dest',
    nvstruct2stringfile (Some m) true true ps (sizeof_AUDIO_TOTAL_T * Z.of_nat (length ws)) = Some (Some txt) /\
    stringfile2nvstruct (Some m) (Some txt) dest = Some dest' /\ length dest' = length ws /\
    forall i w p, ws !! i = Some w -> ps !! i = Some p -> exists t, dest' !! i = Some t /\ read_back w p t.
Proof.
  intros M H0 Lp Fp Ld Fd. pose proof M as [M1 M2 M3 _ _].
  set (r0 := MkReader dest (-1) (-1) (replicate 128 NUL) (replicate 128 NUL) counters0).
  destruct (modes_run m ws M ps (conj Lp Fp) (length ws) 0 r0) as (lss & r' & Em & Fl & E' & L' & _ & New);
    [done|done|done|done|split; apply length_replicate|].
  exists (concat (concat lss)), (params r'). split; [|split; [|split; [done|]]].
  - unfold nvstruct2stringfile. cbn [mbind option_bind negb]. rewrite M1, Nat2Z.id, (proj2 (Nat.ltb_ge _ _)) by lia.
    rewrite Z.eqb_refl. cbn [negb]. rewrite Em. cbn [mbind option_bind]. by rewrite concat_concat_map.
  - unfold stringfile2nvstruct. cbn [mbind option_bind]. rewrite M1.
    destruct (lookup_lt_is_Some_2 (mode_items m) (length ws - 1)) as [it Hit]; [lia|].
    replace (Z.of_nat (length ws) - 1) with (Z.of_nat (length ws - 1)) by lia. rewrite (at_index_of_nat _ _ _ _ Hit). cbn [mbind option_bind].
    fold r0. rewrite read_lines_all; [|done|pose proof (lines_length _ Fl); lia]. by rewrite E'.
  - intros i w p. apply New. lia.
Qed.

(** C8: for a list of one to 99 audio modes with distinct names (of one to
    twelve characters, none of them a NUL, a newline, a backslash, an
    underscore or an equals sign, and not with [extendArray] in them), however
    the XML file that lists them is cut into pieces, [parse] finds the modes;
    the file that [nvstruct2stringfile] then writes for parameters with any
    values of their members' types is read by [stringfile2nvstruct] without an
    access outside of an array, and every mode in memory has its names and, in
    all 1,144 of its members, the parameters of that mode, save that a
    negative [q] of an equaliser band is read back as -1.  (No open of a file
    and no allocation fails.) *)
Theorem audio_nv_roundtrip ws pieces final ps dest :
  Forall name_ok ws -> NoDup ws -> (0 < length ws < 100)%nat ->
  Forall (fun p => p.1 <> 0) pieces -> concat (map snd pieces) ++ final = mode_tags ws ->
  length ps = length ws -> Forall params_ok ps -> length dest = length ws -> Forall total_shape dest ->
  exists m txt dest',
    parse None true true true true (rounds pieces final) = Some (Some m) /\
    nvstruct2stringfile (Some m) true true ps (sizeof_AUDIO_TOTAL_T * Z.of_nat (length ws)) = Some (Some txt) /\
    stringfile2nvstruct (Some m) (Some txt) dest = Some dest' /\ length dest' = length ws /\
    forall i w p, ws !! i = Some w -> ps !! i = Some p -> exists t, dest' !! i = Some t /\ read_back w p t.
Proof.
  intros F D H Np Ep Lp Fp Ld Fd. destruct (parse_modes ws F D H) as (m & st & E & M).
  destruct (file_roundtrip m ws ps dest M) as (txt & dest' & W & R & L & Back); try done; [lia|].
  exists m, txt, dest'. split; [|by split]. unfold parse. cbn [andb]. by rewrite parse_pieces, Ep, E.
Qed.

(** Parameters with extreme values. *)
Definition sample_app : AUDIO_NV_ARM_APP_CONFIG_INFO_T :=
  MkApp 1 (replicate 8 0x7fff) 31 (replicate 31 0xffffffff) (replicate 9 0).
Definition sample : AUDIO_TOTAL_T :=
  MkTotal (MkEq (replicate 16 NUL) 0xffff (replicate 6 (MkEqMode 7 (-8) (replicate 8 (MkBand (-1) 0x7fff (-0x8000) 3)))) (replicate 59 (-2)))
    (replicate 16 NUL) (MkArm (MkPath 5 0 (replicate 8 9)) (MkAppSet 2 3 (replicate 2 0x8000) (replicate 16 sample_app)) 1 2 (replicate 64 0xffff)).
Lemma at_replicate {A B} i n (x : A) (g : A -> option B) v : at_index i (replicate n x) g = Some v -> g x = Some v.
Proof.
  unfold at_index. destruct (0 <=? i); [|done]. destruct (_ !! _) as [y|] eqn:E; [|done]. apply lookup_replicate in E as [-> _]. done.
Qed.
Lemma sample_params_ok : params_ok sample.
Proof.
  assert (S : total_shape sample).
  { split; [|split; [|done]]; split; try reflexivity; apply Forall_replicate; repeat split. }
  split; [done| |].
  - intros f v _ E. destruct f; cbn [arm_get] in E; cbn [arm_fits]; repeat (apply at_replicate in E; cbn [app_get] in E);
      injection E as <-; lia.
  - intros f v _ E. destruct f; cbn [eq_get] in E; cbn [eq_fits]; cbn [sample audio_enha_eq eq_modes externdArray] in E;
      repeat (apply at_replicate in E; cbn [eq_band] in E); injection E as <-; lia.
Qed.

Definition blank : AUDIO_TOTAL_T :=
  MkTotal (MkEq (replicate 16 NUL) 0 (replicate 6 (MkEqMode 0 0 (replicate 8 (MkBand 0 0 0 0)))) (replicate 59 0))
    (replicate 16 NUL) (MkArm (MkPath 0 0 (replicate 8 0)) (MkAppSet 0 0 (replicate 2 0)
      (replicate 16 (MkApp 0 (replicate 8 0) 0 (replicate 31 0) (replicate 9 0)))) 0 0 (replicate 64 0)).
Lemma blank_shape : total_shape blank.
Proof. split; [|split; [|done]]; split; try reflexivity; apply Forall_replicate; repeat split. Qed.
Example field_count : (length arm_fields + length eq_fields = 1144)%nat.
Proof. vm_compute. reflexivity. Qed.
Lemma headset_ok : Forall name_ok [chars "Headset"; chars "Handsfree"].
Proof. repeat constructor; discriminate. Qed.

(** Two modes, the list of modes in one piece, read over blank memory. *)
Lemma audio_nv_roundtrip_witness : exists m txt dest',
  parse None true true true true (rounds [(512, mode_tags [chars "Headset"; chars "Handsfree"])] []) = Some (Some m) /\
  nvstruct2stringfile (Some m) true true [sample; sample] (sizeof_AUDIO_TOTAL_T * 2) = Some (Some txt) /\
  stringfile2nvstruct (Some m) (Some txt) [blank; blank] = Some dest' /\ length dest' = 2%nat /\
  forall i w p, [chars "Headset"; chars "Handsfree"] !! i = Some w -> [sample; sample] !! i = Some p -> exists t, dest' !! i = Some t /\ read_back w p t.
Proof.
  apply (audio_nv_roundtrip [chars "Headset"; chars "Handsfree"] [(512, mode_tags [chars "Headset"; chars "Handsfree"])] [] [sample; sample] [blank; blank]).
  - exact headset_ok.
  - apply (bool_decide_eq_true_1 _). vm_compute. reflexivity.
  - cbn. lia.
  - constructor; [discriminate|constructor].
  - apply app_nil_r.
  - reflexivity.
  - constructor; [exact sample_params_ok|constructor; [exact sample_params_ok|constructor]].
  - reflexivity.
  - constructor; [exact blank_shape|constructor; [exact blank_shape|constructor]].
Defined.

(** ** What is lost *)

(** A negative [q] is printed with its sign bits, and no [strtol] into a
    [long] of 32 bits reads them back: -2 becomes -1. *)
Lemma negative_q_lost : line_value (eq_width (KQ 0 0)) (eq_text_of (chars "Headset") (Q 0 0) (-2)) = Some (-1) /\
  line_value (eq_width (KFo 0 0)) (eq_text_of (chars "Headset") (Fo 0 0) (-2)) = Some (-2).
Proof. split; vm_compute; reflexivity. Qed.

Definition one_mode (w : string) : aud_mode_t := MkModes 1 (Some [named_item 0 (chars w)]).
(** A line of a mode that is not in the list: as the first line it goes to
    index -1, behind a known mode's line it changes that mode. *)
Lemma unknown_mode_outside :
  stringfile2nvstruct (Some (one_mode "Headset")) (Some (arm_text_of (chars "Handset") MidiOpt 7)) [blank] = None.
Proof. vm_compute. reflexivity. Qed.
Lemma unknown_mode_overwrites : exists t,
  stringfile2nvstruct (Some (one_mode "Headset")) (Some (arm_text_of (chars "Headset") MidiOpt 1 ++ arm_text_of (chars "Handset") MidiOpt 7)) [blank] = Some [t] /\
  cstr (ucModeName t) = chars "Handset" /\ midi_opt (tAudioNvArmModeStruct t) = 7.
Proof. eexists. split; [vm_compute; reflexivity|]. by split. Qed.

(** The name in a line, of up to 127 characters, is copied into sixteen. *)
Lemma long_name_outside : stringfile2nvstruct (Some (one_mode "Headset"))
  (Some (arm_text_of (chars "Headset") MidiOpt 1 ++ arm_text_of (chars "HeadsetWithMicro") MidiOpt 7)) [blank] = None.
Proof. vm_compute. reflexivity. Qed.
(** The index of an application is not compared with the size of the array. *)
Lemma app_index_outside : stringfile2nvstruct (Some (one_mode "Headset")) (Some (arm_text_of (chars "Headset") (EqSwitch 16) 1)) [blank] = None.
Proof. vm_compute. reflexivity. Qed.
(** A thirteenth character of the mode's name fills the place of the copy with
    EQ_ in front, and the lines go on into the next name, or outside. *)
Lemma long_mode_unterminated : c_string (drop 0 (eq_names (one_mode "HandsfreeLoud"))) = None.
Proof. vm_compute. reflexivity. Qed.
(** More items than the announced number. *)
Lemma extra_item_outside w : parse None true true true true (rounds [] (mode_tag 1 :: item_tags 0 [chars "Headset"; w])) = None.
Proof. reflexivity. Qed.
(** A list that cannot be read, and the number of modes is asked for. *)
Lemma no_list_no_number rs : parse None true false true true rs = Some None /\ adev_get_audiomodenum4eng None = None.
Proof. done. Qed.
