(* ===== verification/SlogConf.v ===== *)
(** The system log daemon, its configuration: tools/slog/slog.h, parse_conf.c,
    and the part of slogctl.c that edits the file.

    The daemon reads a file of lines with fields separated by tabs and builds
    the lists of what to log; slogctl rewrites single fields of that file.  A
    pointer that [calloc] leaves null is the empty text.  [None] is an access
    outside of an array or through a null pointer. *)
From S2P Require Import Prelude TextConf.
From Stdlib Require Import Ascii.

(** ** slog.h *)
Definition SLOG_TYPE_STREAM : Z := 0x1.
Definition SLOG_TYPE_MISC : Z := 0x2.
Definition SLOG_TYPE_SNAPSHOT : Z := 0x4.
Definition SLOG_TYPE_NOTIFY : Z := 0x8.
Definition SLOG_STATE_ON : Z := 0.
Definition SLOG_STATE_OFF : Z := 1.
Definition SLOG_LOW_POWER : Z := 2.
Definition SLOG_ENABLE : Z := 1.
Definition SLOG_DISABLE : Z := 0.
Definition INTERNAL_LOG_PATH : text := chars "/data/slog".
Definition MAX_NAME_LEN : nat := 128.
Definition MAX_LINE_LEN : nat := 2048.

(** [fd_out] is the open file with the offset in it; the remaining times of
    the struct belong to the notifications. *)
Record slog_info := MkInfo {
  type : Z; state : Z; level : Z; interval : Z; opt : text; max_size : Z; name : text; log_path : text; log_basename : text;
  content : text; fd_device : bool; fd_out : option (text * nat); outbytecount : Z }.
Definition calloc_info : slog_info := MkInfo 0 0 0 0 [] 0 [] [] [] [] false None 0.
Definition set_state (s : Z) (i : slog_info) : slog_info :=
  MkInfo (type i) s (level i) (interval i) (opt i) (max_size i) (name i) (log_path i) (log_basename i) (content i) (fd_device i) (fd_out i) (outbytecount i).

(** The pointers to the two places for logs; the text of the external one is
    known only later. *)
Inductive storage := Internal | External.
(** The globals that the file sets, and the commands it made the shell run. *)
Record config := MkConfig {
  slog_enable : Z; config_log_path : storage; current_log_path : option storage; screenshot_enable : Z;
  stream_log_head : list slog_info; snapshot_log_head : list slog_info; notify_log_head : list slog_info; misc_log : option slog_info;
  commands : list text }.
Definition config0 : config := MkConfig SLOG_ENABLE Internal None 1 [] [] [] None [].
Definition set_enable (v : Z) (c : config) : config :=
  MkConfig v (config_log_path c) (current_log_path c) (screenshot_enable c) (stream_log_head c) (snapshot_log_head c) (notify_log_head c) (misc_log c) (commands c).
Definition set_paths (p : storage) (c : config) : config :=
  MkConfig (slog_enable c) p (Some p) (screenshot_enable c) (stream_log_head c) (snapshot_log_head c) (notify_log_head c) (misc_log c) (commands c).
Definition set_screenshot (v : Z) (c : config) : config :=
  MkConfig (slog_enable c) (config_log_path c) (current_log_path c) v (stream_log_head c) (snapshot_log_head c) (notify_log_head c) (misc_log c) (commands c).
Definition set_lists (st sn no : list slog_info) (mi : option slog_info) (c : config) : config :=
  MkConfig (slog_enable c) (config_log_path c) (current_log_path c) (screenshot_enable c) st sn no mi (commands c).
Definition system (s : text) (c : config) : config :=
  MkConfig (slog_enable c) (config_log_path c) (current_log_path c) (screenshot_enable c) (stream_log_head c) (snapshot_log_head c)
    (notify_log_head c) (misc_log c) (commands c ++ [s]).

(** ** Fields of a line *)
Definition TAB : ascii := "009".
(** [!strncmp(s, p, strlen(p))] *)
Definition starts (s : text) (p : string) : bool := prefix_of (chars p) s.
Fixpoint break_at (c : ascii) (l : text) : option (text * text) :=
  match l with
  | [] => None
  | a :: r => if ascii_dec a c then Some ([], r) else '(w, r) ← break_at c r; Some (a :: w, r)
  end.
Fixpoint skip_char (c : ascii) (l : text) : text :=
  match l with
  | [] => []
  | a :: r => if ascii_dec a c then skip_char c r else l
  end.
(** Cuts [src] at the first [c]; the result is the text behind it. *)
Definition parse_string (src : text) (c : ascii) : option (text * text) :=
  '(w, r) ← break_at c src; Some (w, skip_char c r).

(** ** The lines *)
Definition handle_sysdump (s : text) (c : config) : config :=
  if starts s "off" then system (chars "echo 0 > /proc/sys/kernel/sysdump_enable") c
  else if starts s "on" then
    system (chars "echo 0 > /proc/sys/kernel/sysdump_crashkey_only") (system (chars "echo 1 > /proc/sys/kernel/sysdump_enable") c)
  else if starts s "crashkey" then
    system (chars "echo 1 > /proc/sys/kernel/sysdump_crashkey_only") (system (chars "echo 1 > /proc/sys/kernel/sysdump_enable") c)
  else c.

(** A line leaves the configuration and the result, or ends the daemon. *)
Inductive parsed := Parsed (c : config) (ret : Z) | Exited.
(** [made]: the directory is there, and can be given to the system. *)
Definition handle_coredump (made : bool) (s : text) (c : config) : parsed :=
  if starts s "on" then if made then Parsed c 0 else Exited
  else Parsed (if starts s "off" then system (chars "rm -r /data/corefile") c else c) 0.
Definition handle_hprofs (made : bool) (s : text) (c : config) : parsed :=
  if starts s "on" then if made then Parsed c 0 else Exited
  else Parsed (if starts s "off" then system (chars "rm -r /data/misc/hprofs") c else c) 0.
Definition handle_sprd_debug (s : text) (c : config) : config :=
  if starts s "off" then system (chars "echo 0 > /sys/module/sprd_debug/parameters/enable") c
  else if starts s "on" then system (chars "echo 1 > /sys/module/sprd_debug/parameters/enable") c
  else c.
Definition handle_watchdog (v : string) (c : config) : config :=
  system (chars "echo " ++ chars v ++ chars " > /sys/module/sprd_wdt_sys/parameters/enabled") c.

Definition parse_3_entries (made : bool) (l : text) (c : config) : parsed :=
  match ('(ty, l) ← parse_string l TAB; '(nm, pos3) ← parse_string l TAB; Some (nm, pos3)) with
  | None => Parsed c (-1)
  | Some (nm, pos3) =>
    if starts nm "logpath" then Parsed (set_paths (if starts pos3 "internal" then Internal else External) c) 0
    else if starts nm "screenshot" then Parsed (set_screenshot (if starts pos3 "enable" then 1 else 0) c) 0
    else if starts nm "slogsaveall" then Parsed (handle_watchdog (if starts pos3 "on" then "1" else "0") c) 0
    else if starts nm "sysdump" then Parsed (handle_sysdump pos3 c) 0
    else if starts nm "coredump" then handle_coredump made pos3 c
    else if starts nm "hprofs" then handle_hprofs made pos3 c
    else if starts nm "sprd_debug" then Parsed (handle_sprd_debug pos3 c) 0
    else Parsed c 0
  end.

(** The head of a list stays; a new item comes second. *)
Definition link {A} (x : A) (l : list A) : list A := match l with [] => [x] | h :: t => h :: x :: t end.
(** The last character is looked at before the text is known not to be empty. *)
Definition chop_nl (l : text) : option text :=
  match l with [] => None | _ => Some (if ascii_dec (List.last l NUL) NL then removelast l else l) end.

Definition parse_4_entries (alloc : bool) (l : text) (c : config) : option parsed :=
  match ('(ty, l) ← parse_string l TAB; '(nm, l) ← parse_string l TAB; '(pos3, pos4) ← parse_string l TAB; Some (ty, nm, pos3, pos4)) with
  | None => Some (Parsed c (-1))
  | Some (ty, nm, pos3, pos4) =>
    if negb alloc then Some (Parsed c (-1))
    else if starts ty "notify" then
      ct ← chop_nl pos4;
      let info := MkInfo (Z.lor SLOG_TYPE_NOTIFY SLOG_TYPE_MISC) 0 (atoi pos3) 0 [] 0 nm (chars "misc") nm ct false None 0 in
      Some (Parsed (set_lists (stream_log_head c) (snapshot_log_head c) (link info (notify_log_head c)) (misc_log c) c) 0)
    else Some (Parsed c 0)
  end.

Definition stream_path (nm : text) : text :=
  if starts nm "kernel" then chars "kernel"
  else if starts nm "modem" then chars "modem"
  else if starts nm "bt" then chars "bt"
  else if starts nm "tc" then chars "tcp"
  else chars "android".
Definition parse_5_entries (alloc : bool) (l : text) (c : config) : parsed :=
  match ('(ty, l) ← parse_string l TAB; '(nm, l) ← parse_string l TAB; '(pos3, l) ← parse_string l TAB; '(pos4, pos5) ← parse_string l TAB;
         Some (ty, nm, pos3, pos4, pos5)) with
  | None => Parsed c (-1)
  | Some (ty, nm, pos3, pos4, pos5) =>
    if negb alloc then Parsed c (-1)
    else if starts ty "stream" then
      let info := MkInfo SLOG_TYPE_STREAM (if starts pos3 "on" then 0 else SLOG_STATE_OFF) (atoi pos5) 0 [] (atoi pos4) nm (stream_path nm) nm [] false None 0 in
      Parsed (set_lists (link info (stream_log_head c)) (snapshot_log_head c) (notify_log_head c) (misc_log c) c) 0
    else if starts ty "misc" then
      let info := MkInfo SLOG_TYPE_MISC (if starts pos3 "off" then SLOG_STATE_OFF else 0) (atoi pos5) 0 [] (atoi pos4) nm [] [] [] false None 0 in
      Parsed (set_lists (stream_log_head c) (snapshot_log_head c) (notify_log_head c) (Some info) c) 0
    else Parsed c 0
  end.

Definition parse_6_entries (alloc : bool) (l : text) (c : config) : option parsed :=
  match ('(ty, l) ← parse_string l TAB; '(nm, l) ← parse_string l TAB; '(pos3, l) ← parse_string l TAB; '(pos4, l) ← parse_string l TAB;
         '(pos5, pos6) ← parse_string l TAB; Some (ty, nm, pos3, pos4, pos5, pos6)) with
  | None => Some (Parsed c (-1))
  | Some (ty, nm, pos3, pos4, pos5, pos6) =>
    if negb alloc then Some (Parsed c (-1))
    else if starts ty "snap" then
      ct ← chop_nl pos6;
      let info := MkInfo (Z.lor SLOG_TYPE_SNAPSHOT SLOG_TYPE_MISC) 0 (atoi pos4) (atoi pos5) pos3 0 nm (chars "misc") nm ct false None 0 in
      Some (Parsed (set_lists (stream_log_head c) (link info (snapshot_log_head c)) (notify_log_head c) (misc_log c) c) 0)
    else Some (Parsed c 0)
  end.

(** One line; [ret] is what the line before left.  A comment skips the test
    that ends the loop. *)
Definition parse_line (alloc made : bool) (l : text) (c : config) (ret : Z) : option (parsed * bool) :=
  if bool_decide (head l = Some "#"%char) then Some (Parsed c ret, true) else
  let c := if starts l "enable" then set_enable SLOG_ENABLE c else c in
  let c := if starts l "disable" then set_enable SLOG_DISABLE c else c in
  let c := if starts l "low_power" then set_enable SLOG_LOW_POWER c else c in
  r ← (if starts l "var" then Some (parse_3_entries made l c)
       else if starts l "snap" then parse_6_entries alloc l c
       else if starts l "stream" then Some (parse_5_entries alloc l c)
       else if starts l "notify" then parse_4_entries alloc l c
       else if starts l "misc" then Some (parse_5_entries alloc l c)
       else Some (Parsed c ret));
  Some (r, match r with Parsed _ ret => ret =? 0 | Exited => false end).

(** [alloc] and [made] say for every line whether allocations and directories
    succeed; [fuel]: a round for every character is enough. *)
Fixpoint parse_lines (alloc made : nat -> bool) (fuel k : nat) (t : text) (c : config) (ret : Z) : option parsed :=
  match fuel with
  | O => Some (Parsed c ret)
  | S f =>
    match fgets MAX_LINE_LEN t with
    | None => Some (Parsed c ret)
    | Some (l, t) =>
      '(r, go) ← parse_line (alloc k) (made k) (cstr l) c ret;
      match r with
      | Parsed c ret => if go : bool then parse_lines alloc made f (S k) t c ret else Some (Parsed c ret)
      | Exited => Some Exited
      end
    end
  end.

(** ** The file *)
Inductive mkdir_result := Made | Eexist | Failed.
(** What the file system answers: the file for changes in the temporary
    directory, whether it can be opened, and the two defaults. *)
Record conf_files := MkFiles { tmp_conf : option text; tmp_dir : mkdir_result; tmp_opens : bool; debuggable : bool; default_debug : option text; default_user : option text }.
Definition default_conf (e : conf_files) : option text := if debuggable e then default_debug e else default_user e.
(** The text to parse with the first value of [ret]; [None]: the daemon ends. *)
Definition config_text (e : conf_files) : option (text * Z) :=
  '(copy, ret) ← match tmp_conf e with
    | Some t => Some (t, 0)
    | None => match tmp_dir e with
              | Failed => None
              | d => t ← default_conf e; Some (t, match d with Eexist => -1 | _ => 0 end)
              end
    end;
  if tmp_opens e then Some (copy, ret) else t ← default_conf e; Some (t, ret).
Definition parse_config (alloc made : nat -> bool) (e : conf_files) : option parsed :=
  match config_text e with
  | None => Some Exited
  | Some (t, ret) => parse_lines alloc made (S (length t)) 0 t config0 ret
  end.

(** ** The answer to a query *)
Definition int_text (v : Z) : text := if v <? 0 then "-"%char :: dec_text (- v) else dec_text v.
Definition tabbed (l : list text) : text := match l with [] => [] | a :: r => a ++ concat ((fun x => TAB :: x) <$> r) end.
Definition on_off (i : slog_info) : text := chars (if state i =? SLOG_STATE_ON then "on" else "off").
Definition stream_line (i : slog_info) : text :=
  tabbed [chars "stream"; name i; on_off i; int_text (max_size i); int_text (level i)] ++ [NL].
Definition misc_line (i : slog_info) : text :=
  tabbed [chars "misc"; name i; on_off i; int_text (max_size i); int_text (level i)] ++ [NL].
Definition snap_line (i : slog_info) : text :=
  tabbed [chars "snap"; name i; opt i; int_text (level i); int_text (interval i); content i] ++ [NL].
Definition notify_line (i : slog_info) : text := tabbed [chars "notify"; name i; int_text (level i); content i] ++ [NL].
Definition path_text (external_storage : text) (p : storage) : text :=
  match p with Internal => INTERNAL_LOG_PATH | External => external_storage end.
(** [started]: the six flags of the threads. *)
Definition gen_config_string (external_storage : text) (started : list Z) (c : config) : option text :=
  cur ← current_log_path c;
  mi ← misc_log c;
  let t := chars "state: " ++ int_text (slog_enable c) ++ [NL] ++
    chars "backend threads(stream snapshot notify bt tcp modem):" ++ concat ((fun v => " "%char :: int_text v) <$> started) ++ [NL] ++
    chars "current logpath," ++ path_text external_storage cur ++ chars "," ++ [NL] ++
    chars "config logpath," ++ path_text external_storage (config_log_path c) ++ chars "," ++ [NL] ++
    chars "internal storage," ++ INTERNAL_LOG_PATH ++ chars "," ++ [NL] ++
    chars "external storage," ++ external_storage ++ chars "," ++ [NL] ++
    concat (stream_line <$> stream_log_head c) ++ misc_line mi ++ concat (snap_line <$> snapshot_log_head c) ++
    concat (notify_line <$> notify_log_head c) in
  if Nat.ltb (length t) MAX_LINE_LEN then Some t else None.

(** ** slogctl *)
Definition kw_names (keyword : text) (nm : text) : bool :=
  if starts keyword "android" then
    starts nm "main" || starts nm "system" || starts nm "radio" || starts nm "events" || starts nm "kernel"
  else if starts keyword "modem" then starts nm "modem"
  else if starts keyword "tcp" then starts nm "tcp"
  else if starts keyword "bt" then starts nm "bt"
  else false.
Definition update_5_entries (keyword status line : text) : option text :=
  match ('(ty, l) ← parse_string line TAB; '(nm, l) ← parse_string l TAB; '(pos3, l) ← parse_string l TAB; '(pos4, pos5) ← parse_string l TAB;
         Some (nm, pos4, pos5)) with
  | None => Some line
  | Some (nm, pos4, pos5) =>
    if kw_names keyword nm then
      let l := tabbed [chars "stream"; nm; status; pos4; pos5] in
      if Nat.ltb (length l) MAX_NAME_LEN then Some l else None
    else Some line
  end.

Definition is_state (l : text) : bool := starts l "enable" || starts l "disable" || starts l "low_powe".
Definition update_line (keyword status line : text) : option text :=
  if is_state keyword then
    if is_state line then
      let l := keyword ++ [NL] in if Nat.ltb (length l) MAX_NAME_LEN then Some l else None
    else Some line
  else if starts line "stream" then update_5_entries keyword status line else Some line.
(** The new text, collected in [buffer]. *)
Fixpoint update_lines (fuel : nat) (keyword status t buffer : text) : option text :=
  match fuel with
  | O => Some buffer
  | S f =>
    match fgets MAX_NAME_LEN t with
    | None => Some buffer
    | Some (l, t) =>
      l ← update_line keyword status (cstr l);
      if Nat.ltb (length (buffer ++ l)) MAX_LINE_LEN then update_lines f keyword status t (buffer ++ l) else None
    end
  end.
(** [opens]: the file can be opened for writing.  An empty file, or another
    keyword, prints a buffer that was never written. *)
Definition update_conf (keyword status : text) (conf : option text) (opens : bool) : option (option text) :=
  match conf with
  | None => Some None
  | Some t =>
    if is_state keyword || starts keyword "androi" || starts keyword "modem" || starts keyword "bt" || starts keyword "tcp" then
      b ← update_lines (S (length t)) keyword status t [];
      match t with
      | [] => if opens then None else Some (Some t)
      | _ => Some (Some (if opens then b else t))
      end
    else None
  end.

(** ** Fields that were put together are found again *)
Definition tab_free (w : text) : Prop := TAB ∉ w.
Definition no_tab_first (w : text) : Prop := match w with [] => True | c :: _ => c <> TAB end.

Lemma break_at_app w r : tab_free w -> break_at TAB (w ++ TAB :: r) = Some (w, r).
Proof.
  unfold tab_free. induction w as [|c w IH]; intros N; cbn; [done|]. apply not_elem_of_cons in N as [Nc N].
  destruct (ascii_dec c TAB); [congruence|]. by rewrite IH.
Qed.
Lemma skip_char_id r : no_tab_first r -> skip_char TAB r = r.
Proof. destruct r as [|c r]; [done|]. cbn. intros N. by destruct (ascii_dec c TAB). Qed.
Lemma parse_string_app w r : tab_free w -> no_tab_first r -> parse_string (w ++ TAB :: r) TAB = Some (w, r).
Proof. intros W R. unfold parse_string. rewrite break_at_app by done. cbn. by rewrite skip_char_id. Qed.

Lemma break_at_some l w r : break_at TAB l = Some (w, r) -> tab_free w /\ (length w + length r < length l)%nat /\ l = w ++ TAB :: r.
Proof.
  revert w r. induction l as [|c l IH]; intros w r; [done|]. cbn. destruct (ascii_dec c TAB) as [->|Nc].
  - intros [= <- <-]. split; [apply not_elem_of_nil|]. split; [cbn; lia|done].
  - destruct (break_at TAB l) as [[w' r']|] eqn:E; [|done]. intros [= <- <-]. destruct (IH _ _ eq_refl) as (F & L & ->).
    split; [unfold tab_free; apply not_elem_of_cons; by split|]. split; [cbn; lia|done].
Qed.
Lemma skip_char_spec l : no_tab_first (skip_char TAB l) /\ (length (skip_char TAB l) <= length l)%nat.
Proof. induction l as [|c l IH]; [done|]. cbn. destruct (ascii_dec c TAB); [|by cbn]. split; [apply IH|]. cbn. lia. Qed.
Lemma parse_string_some l w r : parse_string l TAB = Some (w, r) ->
  tab_free w /\ no_tab_first r /\ (length w + length r < length l)%nat.
Proof.
  unfold parse_string. destruct (break_at TAB l) as [[w' r']|] eqn:E; [|done]. cbn. intros [= <- <-].
  destruct (break_at_some _ _ _ E) as (F & L & _). destruct (skip_char_spec r') as [N L']. split; [done|]. split; [done|]. lia.
Qed.

(** ** The switch of a group of streams *)
Definition switch_info (keyword status : text) (i : slog_info) : slog_info :=
  if kw_names keyword (name i) then set_state (if starts status "on" then SLOG_STATE_ON else SLOG_STATE_OFF) i else i.
Definition switch (keyword status : text) (c : config) : config :=
  set_lists (switch_info keyword status <$> stream_log_head c) (snapshot_log_head c) (notify_log_head c) (misc_log c) c.
Definition switch_parsed (keyword status : text) (p : parsed) : parsed :=
  match p with Parsed c ret => Parsed (switch keyword status c) ret | Exited => Exited end.
Definition switches (keyword status : text) : Prop :=
  (keyword = chars "android" \/ keyword = chars "modem" \/ keyword = chars "tcp" \/ keyword = chars "bt") /\
  (status = chars "on" \/ status = chars "off").

Lemma link_fmap {A} (f : A -> A) x l : f <$> link x l = link (f x) (f <$> l).
Proof. by destruct l. Qed.

Section Switch.
Context (kw st : text).
Hypothesis K : switches kw st.

Lemma st_ok : tab_free st /\ no_tab_first st /\ st <> [] /\ (length st <= 3)%nat.
Proof. destruct K as [_ [-> | ->]]; (split; [apply (bool_decide_unpack _); vm_compute; exact I|]); (split; [discriminate|]); (split; [discriminate|cbn; lia]). Qed.
Lemma kw_not_state : is_state kw = false.
Proof. destruct K as [[-> |[-> |[-> | ->]]] _]; reflexivity. Qed.

Lemma parse_3_switch made l c : parse_3_entries made l (switch kw st c) = switch_parsed kw st (parse_3_entries made l c).
Proof.
  unfold parse_3_entries. destruct (parse_string l TAB) as [[ty l1]|]; [|done]. cbn [mbind option_bind].
  destruct (parse_string l1 TAB) as [[nm p3]|]; [|done]. cbn [mbind option_bind].
  unfold handle_coredump, handle_hprofs, handle_sprd_debug, handle_sysdump. destruct made; repeat case_match; reflexivity.
Qed.
Lemma parse_4_switch alloc l c : parse_4_entries alloc l (switch kw st c) = switch_parsed kw st <$> parse_4_entries alloc l c.
Proof.
  unfold parse_4_entries. destruct (_ ≫= _) as [[[[ty nm] p3] p4]|]; [|done]. destruct alloc; [|done]. cbn [negb].
  destruct (starts ty "notify"); [|done]. destruct (chop_nl p4); done.
Qed.
Lemma parse_6_switch alloc l c : parse_6_entries alloc l (switch kw st c) = switch_parsed kw st <$> parse_6_entries alloc l c.
Proof.
  unfold parse_6_entries. destruct (_ ≫= _) as [[[[[[ty nm] p3] p4] p5] p6]|]; [|done]. destruct alloc; [|done]. cbn [negb].
  destruct (starts ty "snap"); [|done]. destruct (chop_nl p6); done.
Qed.

(** The fields of a stream's line. *)
Definition fields5 (l : text) : option (text * text * text * text * text) :=
  '(ty, l) ← parse_string l TAB; '(nm, l) ← parse_string l TAB; '(pos3, l) ← parse_string l TAB; '(pos4, pos5) ← parse_string l TAB;
  Some (ty, nm, pos3, pos4, pos5).
Definition info5 (nm pos3 pos4 pos5 : text) : slog_info :=
  MkInfo SLOG_TYPE_STREAM (if starts pos3 "on" then 0 else SLOG_STATE_OFF) (atoi pos5) 0 [] (atoi pos4) nm (stream_path nm) nm [] false None 0.

Lemma parse_string_first l w r : no_tab_first l -> parse_string l TAB = Some (w, r) -> w <> [].
Proof.
  intros N E. unfold parse_string in E. destruct (break_at TAB l) as [[w' r']|] eqn:B; [|done]. cbn in E. injection E as <- <-.
  apply break_at_some in B as (_ & _ & ->). by destruct w'.
Qed.
Lemma free_first w r : tab_free w -> w <> [] -> no_tab_first (w ++ r).
Proof. destruct w as [|c w]; [done|]. intros F _. apply not_elem_of_cons in F as [F _]. cbn. congruence. Qed.

Lemma fields5_some l ty nm p3 p4 p5 : fields5 l = Some (ty, nm, p3, p4, p5) ->
  (tab_free nm /\ nm <> []) /\ (tab_free p4 /\ p4 <> []) /\ no_tab_first p5 /\
  (length ty + length nm + length p3 + length p4 + length p5 + 4 <= length l)%nat /\ p3 <> [].
Proof.
  unfold fields5. intros E. destruct (parse_string l TAB) as [[a l1]|] eqn:E1; [|done]. cbn [mbind option_bind] in E.
  destruct (parse_string l1 TAB) as [[b l2]|] eqn:E2; [|done]. cbn [mbind option_bind] in E.
  destruct (parse_string l2 TAB) as [[c l3]|] eqn:E3; [|done]. cbn [mbind option_bind] in E.
  destruct (parse_string l3 TAB) as [[d l4]|] eqn:E4; [|done]. cbn [mbind option_bind] in E. injection E as <- <- <- <- <-.
  pose proof (parse_string_first _ _ _ (proj1 (proj2 (parse_string_some _ _ _ E1))) E2).
  pose proof (parse_string_first _ _ _ (proj1 (proj2 (parse_string_some _ _ _ E2))) E3).
  pose proof (parse_string_first _ _ _ (proj1 (proj2 (parse_string_some _ _ _ E3))) E4).
  apply parse_string_some in E1 as (? & ? & ?), E2 as (? & ? & ?), E3 as (? & ? & ?), E4 as (? & ? & ?).
  repeat (split; [by auto|]). split; [lia|done].
Qed.
Lemma fields5_tabbed ty nm p3 p4 p5 : tab_free ty -> tab_free nm /\ nm <> [] -> tab_free p3 /\ p3 <> [] -> tab_free p4 /\ p4 <> [] -> no_tab_first p5 ->
  fields5 (tabbed [ty; nm; p3; p4; p5]) = Some (ty, nm, p3, p4, p5).
Proof.
  intros Ft [Fn Nn] [F3 N3] [F4 N4] N5. unfold fields5, tabbed. cbn [fmap list_fmap concat]. rewrite app_nil_r. cbn [app].
  rewrite parse_string_app by (done || by apply free_first). cbn [mbind option_bind].
  rewrite parse_string_app by (done || by apply free_first). cbn [mbind option_bind].
  rewrite parse_string_app by (done || by apply free_first). cbn [mbind option_bind]. by rewrite parse_string_app.
Qed.

Lemma parse_5_fields alloc l c : parse_5_entries alloc l c =
  match fields5 l with
  | None => Parsed c (-1)
  | Some (ty, nm, p3, p4, p5) =>
    if negb alloc then Parsed c (-1)
    else if starts ty "stream" then
      Parsed (set_lists (link (info5 nm p3 p4 p5) (stream_log_head c)) (snapshot_log_head c) (notify_log_head c) (misc_log c) c) 0
    else if starts ty "misc" then
      let info := MkInfo SLOG_TYPE_MISC (if starts p3 "off" then SLOG_STATE_OFF else 0) (atoi p5) 0 [] (atoi p4) nm [] [] [] false None 0 in
      Parsed (set_lists (stream_log_head c) (snapshot_log_head c) (notify_log_head c) (Some info) c) 0
    else Parsed c 0
  end.
Proof. reflexivity. Qed.
Lemma update_5_fields l : update_5_entries kw st l =
  match fields5 l with
  | None => Some l
  | Some (_, nm, _, p4, p5) =>
    if kw_names kw nm then
      let l := tabbed [chars "stream"; nm; st; p4; p5] in if Nat.ltb (length l) MAX_NAME_LEN then Some l else None
    else Some l
  end.
Proof.
  unfold update_5_entries, fields5. destruct (parse_string l TAB) as [[a l1]|]; [|done]. cbn [mbind option_bind].
  destruct (parse_string l1 TAB) as [[b l2]|]; [|done]. cbn [mbind option_bind].
  destruct (parse_string l2 TAB) as [[c l3]|]; [|done]. cbn [mbind option_bind].
  destruct (parse_string l3 TAB) as [[d l4]|]; [|done]. done.
Qed.

Lemma switch_info5 nm p3 p4 p5 : switch_info kw st (info5 nm p3 p4 p5) = if kw_names kw nm then info5 nm st p4 p5 else info5 nm p3 p4 p5.
Proof. unfold switch_info. cbn [name info5]. by destruct (kw_names kw nm). Qed.

Lemma prefix_break p w c r : c ∉ p -> prefix_of p (w ++ c :: r) = prefix_of p w.
Proof.
  revert w. induction p as [|a p IH]; intros w N; [by destruct w|]. apply not_elem_of_cons in N as [Na N].
  destruct w as [|b w]; cbn; [destruct (ascii_dec a c); congruence|]. destruct (ascii_dec a b); [by apply IH|done].
Qed.
Lemma fields5_type l ty nm p3 p4 p5 : fields5 l = Some (ty, nm, p3, p4, p5) -> starts ty "stream" = starts l "stream".
Proof.
  unfold fields5. intros E. destruct (parse_string l TAB) as [[a l1]|] eqn:E1; [|done]. cbn [mbind option_bind] in E.
  destruct (parse_string l1 TAB) as [[b l2]|] eqn:E2; [|done]. cbn [mbind option_bind] in E.
  destruct (parse_string l2 TAB) as [[c l3]|] eqn:E3; [|done]. cbn [mbind option_bind] in E.
  destruct (parse_string l3 TAB) as [[d l4]|] eqn:E4; [|done]. cbn [mbind option_bind] in E. injection E as <- _ _ _ _.
  unfold parse_string in E1. destruct (break_at TAB l) as [[w r]|] eqn:B; [|done]. cbn in E1. injection E1 as <- _.
  apply break_at_some in B as (_ & _ & ->). symmetry. apply prefix_break. apply (bool_decide_unpack _). vm_compute. exact I.
Qed.

(** A stream's line is switched; one that cannot be parsed stays as it is. *)
Lemma update_stream_line alloc l c : (length l <= 125)%nat -> starts l "stream" = true ->
  exists l', update_5_entries kw st l = Some l' /\ (length l' <= length l + 2)%nat /\ starts l' "stream" = true /\
    parse_5_entries alloc l' (switch kw st c) = switch_parsed kw st (parse_5_entries alloc l c).
Proof.
  intros L S. rewrite update_5_fields. setoid_rewrite parse_5_fields. destruct (fields5 l) as [[[[[ty nm] p3] p4] p5]|] eqn:E.
  2:{ exists l. rewrite E. split; [done|]. split; [lia|]. done. }
  pose proof (fields5_some _ _ _ _ _ _ E) as (Fn & F4 & F5 & Len & N3). destruct st_ok as (Fs & _ & Ns & Ls).
  pose proof (fields5_type _ _ _ _ _ _ E) as T. rewrite S in T. rewrite T.
  destruct (kw_names kw nm) eqn:Kn.
  - assert (L' : (length (tabbed [chars "stream"; nm; st; p4; p5]) <= length l + 2)%nat).
    { unfold tabbed. cbn [fmap list_fmap concat]. rewrite app_nil_r, !length_app. cbn [length].
      assert (6 <= length ty)%nat.
      { apply prefix_of_app in T as (r & ->). rewrite length_app. change (length (chars "stream")) with 6%nat. lia. }
      assert (1 <= length p3)%nat by (destruct p3; [done|cbn; lia]). change (length (chars "stream")) with 6%nat. lia. }
    eexists. cbv zeta. rewrite (proj2 (Nat.ltb_lt _ _)) by (unfold MAX_NAME_LEN; lia). split; [reflexivity|]. split; [done|].
    split; [done|]. rewrite fields5_tabbed by (done || (split; [done|done]) || (apply (bool_decide_unpack _); vm_compute; exact I)).
    destruct alloc; [|done]. cbn [negb]. change (starts (chars "stream") "stream") with true. unfold switch_parsed. f_equal.
    unfold switch, set_lists. cbn. by rewrite link_fmap, switch_info5, Kn.
  - exists l. rewrite E. split; [done|]. split; [lia|]. split; [done|]. destruct alloc; [|done]. cbn [negb]. rewrite T.
    unfold switch_parsed. f_equal. unfold switch, set_lists. cbn. by rewrite link_fmap, switch_info5, Kn.
Qed.

Lemma parse_5_misc alloc l c : starts l "stream" = false ->
  parse_5_entries alloc l (switch kw st c) = switch_parsed kw st (parse_5_entries alloc l c).
Proof.
  intros S. rewrite !parse_5_fields. destruct (fields5 l) as [[[[[ty nm] p3] p4] p5]|] eqn:E; [|done]. rewrite (fields5_type _ _ _ _ _ _ E), S.
  destruct alloc; [|done]. cbn [negb]. by destruct (starts ty "misc").
Qed.

Lemma update_line_ok alloc made l c ret : (length l <= 125)%nat ->
  exists l', update_line kw st l = Some l' /\ (length l' <= length l + 2)%nat /\
    parse_line alloc made l' (switch kw st c) ret = (fun p => (switch_parsed kw st p.1, p.2)) <$> parse_line alloc made l c ret.
Proof.
  intros L. unfold update_line. rewrite kw_not_state. destruct (starts l "stream") eqn:S.
  - assert (Fst : forall l', starts l' "stream" = true -> forall c, parse_line alloc made l' c ret =
      Some (parse_5_entries alloc l' c, match parse_5_entries alloc l' c with Parsed _ r => r =? 0 | Exited => false end)).
    { intros l' S' c'. unfold parse_line, starts in *. apply prefix_of_app in S' as (r & ->). reflexivity. }
    destruct (update_stream_line alloc l c L S) as (l' & E & L' & S' & P). exists l'. split; [done|]. split; [done|].
    rewrite !Fst, P by done. by destruct (parse_5_entries alloc l c).
  - exists l. split; [done|]. split; [lia|]. unfold parse_line. rewrite S. destruct (bool_decide _); [done|].
    assert (C : forall b v c, (if b : bool then set_enable v (switch kw st c) else switch kw st c) = switch kw st (if b then set_enable v c else c)) by (by intros []).
    rewrite !C. set (c' := if starts l "low_power" then _ else _). clearbody c'.
    destruct (starts l "var"); [rewrite parse_3_switch; by destruct (parse_3_entries made l c')|].
    destruct (starts l "snap"); [rewrite parse_6_switch; by destruct (parse_6_entries alloc l c') as [[]|]|].
    destruct (starts l "notify"); [rewrite parse_4_switch; by destruct (parse_4_entries alloc l c') as [[]|]|].
    destruct (starts l "misc"); [rewrite parse_5_misc by done; by destruct (parse_5_entries alloc l c')|]. done.
Qed.

(** The new line is a line again. *)
Definition is_line (l : text) : Prop := exists b, l = b ++ [NL] /\ forallb plain b = true.
Lemma skip_char_line r : is_line r -> is_line (skip_char TAB r).
Proof.
  intros (b & -> & P). induction b as [|c b IH]; cbn; [by exists []|]. apply andb_true_iff in P as [Pc P].
  destruct (ascii_dec c TAB); [by apply IH|]. exists (c :: b). split; [done|]. cbn. by rewrite Pc.
Qed.
Lemma parse_string_line l w r : is_line l -> parse_string l TAB = Some (w, r) -> forallb plain w = true /\ is_line r.
Proof.
  intros (b & -> & P) E. unfold parse_string in E. destruct (break_at TAB (b ++ [NL])) as [[w' r']|] eqn:B; [|done].
  cbn in E. injection E as <- <-. enough (forallb plain w' = true /\ is_line r') as [? ?] by (split; [done|by apply skip_char_line]).
  revert w' r' B. induction b as [|c b IH]; intros w' r' B; [by cbn in B|].
  cbn in P. apply andb_true_iff in P as [Pc P]. cbn in B. destruct (ascii_dec c TAB).
  - injection B as <- <-. split; [done|]. by exists b.
  - destruct (break_at TAB (b ++ [NL])) as [[w r]|]; [|done]. injection B as <- <-. destruct (IH P _ _ eq_refl) as [Pw Lr].
    split; [cbn; by rewrite Pc|done].
Qed.
Lemma update_line_shape l l' : is_line l -> update_line kw st l = Some l' -> is_line l'.
Proof.
  intros L E. unfold update_line in E. rewrite kw_not_state in E. destruct (starts l "stream"); [|congruence].
  rewrite update_5_fields in E. unfold fields5 in E.
  destruct (parse_string l TAB) as [[a l1]|] eqn:E1; [|cbn in E; congruence]. cbn [mbind option_bind] in E.
  destruct (parse_string l1 TAB) as [[b l2]|] eqn:E2; [|cbn in E; congruence]. cbn [mbind option_bind] in E.
  destruct (parse_string l2 TAB) as [[c l3]|] eqn:E3; [|cbn in E; congruence]. cbn [mbind option_bind] in E.
  destruct (parse_string l3 TAB) as [[d l4]|] eqn:E4; [|cbn in E; congruence]. cbn [mbind option_bind] in E.
  destruct (parse_string_line _ _ _ L E1) as [_ L1]. destruct (parse_string_line _ _ _ L1 E2) as [Pb L2].
  destruct (parse_string_line _ _ _ L2 E3) as [_ L3]. destruct (parse_string_line _ _ _ L3 E4) as [Pd (x & -> & Px)].
  destruct (kw_names kw b); [|congruence]. cbv zeta in E. destruct (Nat.ltb _ _); [|done]. injection E as <-.
  exists (tabbed [chars "stream"; b; st; d; x]). unfold tabbed. cbn [fmap list_fmap concat]. rewrite !app_nil_r.
  split; [by rewrite <- !app_assoc|]. rewrite !forallb_app. cbn [forallb]. rewrite Pb, Pd, Px.
  destruct K as [_ [-> | ->]]; reflexivity.
Qed.

(** ** The whole file *)
Lemma update_lines_all ls : forall fuel buf ls', Forall is_line ls -> Forall (fun l => (length l <= 125)%nat) ls -> (length ls < fuel)%nat ->
  mapM (update_line kw st) ls = Some ls' -> (length buf + length (concat ls') < MAX_LINE_LEN)%nat ->
  update_lines fuel kw st (concat ls) buf = Some (buf ++ concat ls').
Proof.
  induction ls as [|l ls IH]; intros [|fuel] buf ls' F L Hf E B; try (cbn in Hf; lia).
  { cbn in E. injection E as <-. cbn. by rewrite app_nil_r. }
  apply List.Forall_cons_iff in F as [(b & -> & P) F]. apply List.Forall_cons_iff in L as [L1 L]. destruct (plain_no b P) as [N1 N2].
  rewrite length_app in L1. cbn [length] in L1.
  cbn [mapM] in E. destruct (update_line kw st (b ++ [NL])) as [l'|] eqn:El; [|done]. cbn [mbind option_bind] in E.
  destruct (mapM _ ls) as [lt|] eqn:Et; [|done]. injection E as <-. cbn [concat] in *. rewrite length_app in B.
  cbn [update_lines]. rewrite <- app_assoc. cbn [app]. rewrite fgets_line by (done || unfold MAX_NAME_LEN; lia).
  rewrite cstr_plain by (rewrite elem_of_app, list_elem_of_singleton; intros [?|[=]]; done). rewrite El. cbn [mbind option_bind].
  rewrite (proj2 (Nat.ltb_lt _ _)) by (rewrite length_app; lia).
  rewrite (IH fuel (buf ++ l') lt) by (done || (cbn in Hf; lia) || (rewrite length_app; lia)). by rewrite <- app_assoc.
Qed.

Lemma parse_lines_update alloc made ls : forall k fuel fuel' c ret ls', Forall is_line ls -> Forall (fun l => (length l <= 125)%nat) ls ->
  (length ls < fuel)%nat -> (length ls < fuel')%nat -> mapM (update_line kw st) ls = Some ls' ->
  parse_lines alloc made fuel' k (concat ls') (switch kw st c) ret = switch_parsed kw st <$> parse_lines alloc made fuel k (concat ls) c ret.
Proof.
  induction ls as [|l ls IH]; intros k [|fuel] [|fuel'] c ret ls' F L Hf Hf' E; try (cbn in Hf, Hf'; lia).
  { cbn in E. injection E as <-. done. }
  apply List.Forall_cons_iff in F as [Fl F]. apply List.Forall_cons_iff in L as [L1 L].
  destruct (update_line_ok (alloc k) (made k) l c ret L1) as (l' & El & L' & P). pose proof (update_line_shape l l' Fl El) as Fl'.
  cbn [mapM] in E. rewrite El in E. cbn [mbind option_bind] in E. destruct (mapM _ ls) as [lt|] eqn:Et; [|done]. injection E as <-.
  assert (Rd : forall l fuel t c, is_line l -> (length l <= 127)%nat -> parse_lines alloc made (S fuel) k (l ++ t) c ret =
    ('(r, go) ← parse_line (alloc k) (made k) l c ret;
     match r with Parsed c ret => if go : bool then parse_lines alloc made fuel (S k) t c ret else Some (Parsed c ret) | Exited => Some Exited end)).
  { intros x n t c' (b & -> & Pb) Lx. destruct (plain_no b Pb) as [N1 N2]. rewrite length_app in Lx. cbn [length] in Lx.
    cbn [parse_lines]. rewrite <- app_assoc. cbn [app]. rewrite fgets_line by (done || unfold MAX_LINE_LEN; lia).
    rewrite cstr_plain by (rewrite elem_of_app, list_elem_of_singleton; intros [?|[=]]; done). done. }
  cbn [concat]. rewrite !Rd by (done || lia). rewrite P. destruct (parse_line (alloc k) (made k) l c ret) as [[r go]|]; [|done].
  cbn [fmap option_fmap option_map mbind option_bind fst snd]. destruct r as [c1 r1|]; [|done]. cbn [switch_parsed].
  destruct go; [|done]. apply IH; [done|done|cbn in Hf; lia|cbn in Hf'; lia|done].
Qed.

Lemma updates ls : Forall (fun l => (length l <= 125)%nat) ls ->
  exists ls', mapM (update_line kw st) ls = Some ls' /\ (length (concat ls') <= length (concat ls) + 2 * length ls)%nat.
Proof.
  induction 1 as [|l ls L F (lt & E & Hl)]; [by exists []|]. destruct (update_line_ok true true l config0 0 L) as (l' & El & L' & _).
  exists (l' :: lt). cbn [mapM]. rewrite El. cbn [mbind option_bind]. rewrite E. split; [done|]. cbn [concat length]. rewrite !length_app. lia.
Qed.
End Switch.

Lemma lines_long ls : Forall is_line ls -> (length ls <= length (concat ls))%nat.
Proof. induction 1 as [|l ls (b & -> & _) F IH]; [done|]. cbn [concat length]. rewrite !length_app. cbn [length]. lia. Qed.
Lemma switch0 kw st : switch kw st config0 = config0.
Proof. done. Qed.

Definition with_conf (t : text) (e : conf_files) : conf_files := MkFiles (Some t) (tmp_dir e) true (debuggable e) (default_debug e) (default_user e).

(** C21: slogctl switches a group of streams (android, modem, tcp, bt) in the
    configuration file and nothing else: the file it writes is parsed by the
    daemon to the configuration of the old file, with the state of exactly the
    streams of that group set to what was asked for.  This holds for lines of
    up to 125 characters and a file that leaves two characters for every line
    in the buffer of 2,048, with any fields and in any order; a file that the
    daemon gives up on stays one, at the same line. *)
Theorem slogctl_switches kw st ls alloc made e :
  switches kw st -> ls <> [] -> Forall is_line ls -> Forall (fun l => (length l <= 125)%nat) ls ->
  (length (concat ls) + 2 * length ls < MAX_LINE_LEN)%nat ->
  exists t, update_conf kw st (Some (concat ls)) true = Some (Some t) /\
    parse_config alloc made (with_conf t e) = switch_parsed kw st <$> parse_config alloc made (with_conf (concat ls) e).
Proof.
  intros K N F L B. destruct (updates kw st K ls L) as (ls' & E & Hl). exists (concat ls'). pose proof (lines_long ls F) as Ll. split.
  - unfold update_conf. rewrite (update_lines_all kw st ls _ [] ls') by (done || lia || (cbn [length]; lia)). cbn [mbind option_bind app].
    assert (Ne : exists c r, concat ls = c :: r).
    { destruct ls as [|l ls]; [done|]. apply List.Forall_cons_iff in F as [(b & -> & _) _]. cbn [concat]. destruct b; cbn; eauto. }
    destruct Ne as (c & r & ->). destruct K as [[-> |[-> |[-> | ->]]] _]; reflexivity.
  - unfold parse_config, config_text. cbn [with_conf tmp_conf tmp_opens mbind option_bind].
    rewrite <- (switch0 kw st) at 1. apply parse_lines_update; try done; [lia|].
    assert (length ls' = length ls) as <- by (symmetry; exact (Forall2_length (mapM_Some_1 _ _ _ E))).
    assert (Fl : Forall is_line ls'); [|pose proof (lines_long ls' Fl); lia].
    apply Forall_lookup. intros i l Hi. apply mapM_Some_1 in E. destruct (Forall2_lookup_r _ _ _ _ _ E Hi) as (l0 & H0 & E0).
    eapply update_line_shape; [done|by eapply Forall_lookup_1|done].
Qed.

Definition line_of (fields : list string) : text := tabbed (chars <$> fields) ++ [NL].
Definition sample_lines : list text :=
  [line_of ["#type"; "name"]; line_of ["enable"]; line_of ["var"; "logpath"; "external"]; line_of ["stream"; "kernel"; "on"; "0"; "7"];
   line_of ["stream"; "modem"; "off"; "0"; "5"]; line_of ["misc"; "misc"; "on"; "0"; "5"]].

Definition no_files : conf_files := MkFiles None Made true true None None.
Lemma slogctl_switches_witness : exists t, update_conf (chars "modem") (chars "on") (Some (concat sample_lines)) true = Some (Some t) /\
  parse_config (fun _ => true) (fun _ => true) (with_conf t no_files) =
  switch_parsed (chars "modem") (chars "on") <$> parse_config (fun _ => true) (fun _ => true) (with_conf (concat sample_lines) no_files).
Proof.
  apply (slogctl_switches (chars "modem") (chars "on") sample_lines (fun _ => true) (fun _ => true) no_files).
  - split; [right; left; reflexivity|left; reflexivity].
  - discriminate.
  - repeat constructor; (eexists; split; [reflexivity|reflexivity]).
  - repeat constructor; vm_compute; lia.
  - vm_compute. lia.
Defined.

(** ** What goes wrong *)

(** When the directory for changes is there but the file is not, the result of
    [mkdir] ends the loop at the first line that is not a comment: nothing is
    configured but the state, and the threads use the null [misc_log]. *)
Lemma existing_dir_stops_parsing : exists c,
  parse_config (fun _ => true) (fun _ => true) (MkFiles None Eexist true true (Some (concat sample_lines)) None) = Some (Parsed c (-1)) /\
  stream_log_head c = [] /\ misc_log c = None /\ gen_config_string [] [] c = None.
Proof. eexists. split; [vm_compute; reflexivity|]. done. Qed.

(** A list keeps its first item first and reverses the others. *)
Lemma streams_reversed : exists c,
  parse_config (fun _ => true) (fun _ => true)
    (with_conf (concat [line_of ["stream"; "a"; "on"; "0"; "7"]; line_of ["stream"; "b"; "on"; "0"; "7"]; line_of ["stream"; "c"; "on"; "0"; "7"]]) no_files) =
  Some (Parsed c 0) /\ name <$> stream_log_head c = [chars "a"; chars "c"; chars "b"].
Proof. eexists. split; [vm_compute; reflexivity|]. done. Qed.

(** A query that does not fit writes past the message. *)
Definition long_config : config :=
  MkConfig SLOG_ENABLE Internal (Some Internal) 1 (replicate 100 (info5 (chars "a-stream-name-of-24-chars") (chars "on") (chars "0") (chars "7"))) []
    [] (Some calloc_info) [].
Lemma query_overflows : gen_config_string (chars "/mnt/sdcard") [1; 1; 1; 0; 0; 0] long_config = None.
Proof. vm_compute. reflexivity. Qed.
