(* ===== verification/SlogOut.v ===== *)
(** The system log daemon, the log files: tools/slog/handler.c, the part that
    writes entries of a stream (kernel, main, system, radio, events) to its file
    and renames full files.

    A file system is a map from paths to contents.  The functions of liblog are
    parameters: what [android_log_processLogBuffer] (or its binary sibling)
    makes of an entry, and what [android_log_printLogLine] writes for it to the
    descriptor and returns.  [Quit] is a call of [exit], [Bad] an access outside
    of an array. *)
From S2P Require Import Prelude TextConf SlogConf.
From Stdlib Require Import Ascii.

Inductive run (A : Type) := Done (a : A) | Quit | Bad.
Arguments Done {A} _.
Arguments Quit {A}.
Arguments Bad {A}.
#[export] Instance run_bind : MBind run := fun A B f m => match m with Done a => f a | Quit => Quit | Bad => Bad end.
Definition valid {A} (o : option A) : run A := match o with Some a => Done a | None => Bad end.

(** ** Files *)
Abbreviation fs := (gmap text text).
Record world := MkWorld { files : fs; cur_path : text; top_logdir : text; internal_log_size : Z }.
Definition set_files (f : fs) (w : world) : world := MkWorld f (cur_path w) (top_logdir w) (internal_log_size w).
Definition set_out (fd : option (text * nat)) (n : Z) (i : slog_info) : slog_info :=
  MkInfo (type i) (state i) (level i) (interval i) (opt i) (max_size i) (name i) (log_path i) (log_basename i) (content i) (fd_device i) fd n.
Definition set_device (b : bool) (i : slog_info) : slog_info :=
  MkInfo (type i) (state i) (level i) (interval i) (opt i) (max_size i) (name i) (log_path i) (log_basename i) (content i) b (fd_out i) (outbytecount i).

Definition file_of (f : fs) (p : text) : text := default [] (f !! p).
Definition write_at (c : text) (off : nat) (b : text) : text :=
  take off c ++ replicate (off - length c) NUL ++ b ++ drop (off + length b) c.
Definition pwrite (f : fs) (p : text) (off : nat) (b : text) : fs := <[p := write_at (file_of f p) off b]> f.
Definition append (f : fs) (p b : text) : fs := <[p := file_of f p ++ b]> f.
Definition rename (a b : text) (f : fs) : fs := match f !! a with Some c => <[b := c]> (delete a f) | None => f end.

(** The outcomes of [write], one for each call; when there are no more, the
    calls take everything. *)
Inductive wrote := Wrote (n : nat) | Eintr | WriteError.
Fixpoint write_loop (outs : list wrote) (f : fs) (p : text) (off : nat) (b : text) (result : Z) : fs * nat * Z :=
  match b, outs with
  | [], _ => (f, off, result)
  | _, [] => (pwrite f p off b, (off + length b)%nat, result + zlen b)
  | _, Wrote n :: outs =>
    let c := take n b in write_loop outs (pwrite f p off c) p (off + length c) (drop n b) (result + zlen c)
  | _, Eintr :: outs => write_loop outs f p off b result
  | _, WriteError :: _ => (f, off, -1)
  end.
Definition write_from_buffer (outs : list wrote) (f : fs) (fd : option (text * nat)) (b : text) : fs * option (text * nat) * Z :=
  match fd with
  | None => (f, None, -1)
  | Some (p, off) => let '(f, off, r) := write_loop outs f p off b 0 in (f, Some (p, off), r)
  end.

(** ** The file of a stream *)

(** What the system answers: [mkdir], the time of the modem, and two opens. *)
Record env := MkEnv { made : bool; mstamp : option text; stamp_opens : bool; opens : bool; renames : nat -> bool }.
(** [size]: of the buffer for the path. *)
Definition gen_logfile_in (size : nat) (made : bool) (w : world) (i : slog_info) : run text :=
  if Nat.ltb (length (cur_path w ++ chars "/" ++ top_logdir w ++ chars "/" ++ log_path i)) size then
    if negb made then Quit else
    let p := cur_path w ++ chars "/" ++ top_logdir w ++ chars "/" ++ log_path i ++ chars "/" ++ log_basename i ++ chars ".log" in
    if Nat.ltb (length p) size then Done p else Bad
  else Bad.
Definition gen_logfile : bool -> world -> slog_info -> run text := gen_logfile_in MAX_NAME_LEN.
Definition write_modem_timestamp (e : env) (i : slog_info) (p : text) (f : fs) : run fs :=
  if negb (starts (name i) "modem") then Done f else
  match mstamp e with
  | None => Done f
  | Some s => if stamp_opens e then Done (append f p s) else Quit
  end.
Definition gen_outfd (e : env) (w : world) (i : slog_info) : run (world * slog_info) :=
  p ← gen_logfile (made e) w i;
  f ← write_modem_timestamp e i p (files w);
  if negb (opens e) then Quit else
  let c := file_of f p in
  Done (set_files (<[p := c]> f) w, set_out (Some (p, length c)) (zlen c) i).

Definition open_device (ok : bool) (i : slog_info) : slog_info :=
  if ok then set_device true i else set_state SLOG_STATE_OFF (set_device false i).

(** ** Full files *)
Definition DEFAULT_MAX_LOG_SIZE : Z := 256.
Definition MAXROLLLOGS : nat := 9.
Definition INTERNAL_ROLLLOGS : nat := 1.
Definition rolled (buf : text) (i : nat) : text := match i with O => buf | _ => buf ++ chars "." ++ dec_text (Z.of_nat i) end.
Fixpoint file_name_rotate (ok : nat -> bool) (num : nat) (buf : text) (f : fs) : fs :=
  match num with
  | O => f
  | S k => file_name_rotate ok k buf (if ok num then rename (rolled buf k) (rolled buf num) f else f)
  end.
Definition rotatelogs (num : nat) (e : env) (w : world) (i : slog_info) : run (world * slog_info) :=
  p ← gen_logfile (made e) w i;
  '(w, i) ← gen_outfd e (set_files (file_name_rotate (renames e) num p (files w)) w) i;
  Done (w, set_out (fd_out i) 0 i).

Definition is_internal (w : world) : bool := prefix_of INTERNAL_LOG_PATH (cur_path w).
(** When the file counts as full, and what is done then: rename it with a
    number of older ones, or start again at its beginning. *)
Definition size_limit (w : world) (i : slog_info) : Z :=
  if is_internal w then s32 (internal_log_size w * 1024)
  else if max_size i =? 0 then DEFAULT_MAX_LOG_SIZE * 1024 * 1024 else s32 (max_size i * 1024 * 1024).
Definition rolls (w : world) (i : slog_info) : option nat :=
  if is_internal w then Some INTERNAL_ROLLLOGS else if max_size i =? 0 then Some MAXROLLLOGS else None.
Definition log_size_handler (e : env) (w : world) (i : slog_info) : run (world * slog_info) :=
  if outbytecount i >=? size_limit w i then
    match rolls w i with
    | Some n => rotatelogs n e w i
    | None => Done (w, set_out ((fun fd => (fst fd, 0%nat)) <$> fd_out i) 0 i)
    end
  else Done (w, i).

(** [stamp]: year, month, day and time in 17 characters. *)
Definition stamp_line (stamp : text) : text := [NL] ++ chars "============  " ++ stamp ++ chars "  ==============" ++ [NL].
Definition add_timestamp (outs : list wrote) (stamp : text) (w : world) (i : slog_info) : world * slog_info :=
  let '(f, fd, _) := write_from_buffer outs (files w) (fd_out i) (stamp_line stamp) in
  (set_files f w, set_out fd (outbytecount i) i).

(** ** The time in front of the lines of the kernel *)
Definition has_nl (l : text) : bool := contains l [NL].
Fixpoint strinst_loop (fuel : nat) (time src : text) : text :=
  match fuel, break_at NL src with
  | S f, Some (l, r) => l ++ [NL] ++ (if has_nl r then time ++ strinst_loop f time r else [])
  | _, _ => []
  end.
(** [max]: LOGGER_ENTRY_MAX_LEN, the size of the buffer of the message; the
    one of the result is twice as large.  [time] is from [obtime]. *)
Definition strinst (max : nat) (time src : text) : run text :=
  match cstr src with
  | s => if Nat.ltb (length s) max then
           let d := time ++ strinst_loop (S (length s)) time s in
           if Nat.ltb (length d) (2 * max) then Done d else Bad
         else Bad
  end.

(** ** The streams *)
Record io := MkIo { outs : list wrote; again : list wrote; stamp : text; sys : env }.
(** After a write that returned [ret]: on an error the file is opened again. *)
Definition after_write (x : io) (f : fs) (fd : option (text * nat)) (ret : Z) (w : world) (i : slog_info) : run (world * slog_info) :=
  if ret <? 0 then
    '(w, i) ← gen_outfd (sys x) (set_files f w) (set_out None (outbytecount i) i);
    Done (add_timestamp (again x) (stamp x) w i)
  else log_size_handler (sys x) (set_files f w) (set_out fd (outbytecount i + ret) i).
Definition log_text (x : io) (b : text) (w : world) (i : slog_info) : run (world * slog_info) :=
  let '(f, fd, ret) := write_from_buffer (outs x) (files w) (fd_out i) b in after_write x f fd ret w i.

Definition is_kernel (i : slog_info) : bool := starts (name i) "kernel".
Definition is_android (i : slog_info) : bool :=
  starts (name i) "main" || starts (name i) "system" || starts (name i) "radio" || starts (name i) "events".

(** What [select] and [read] find. *)
Inductive event := NotReady | NoData | ReadFailed (reopened : bool) | Entry (time data : text) (x : io).

Section Streams.
(** liblog: [process] is what [android_log_processLogBuffer] or, for the events,
    [android_log_processBinaryLogBuffer] makes of an entry of the stream with a
    name, [None] when it returns an error.  [print] is a call of
    [android_log_printLogLine]: the bytes it writes to the descriptor and the
    value it returns, when the system's answers to its writes are these. *)
Context {line : Type} (max : nat) (process : text -> text -> option line) (print : line -> list wrote -> text * Z).

Definition print_line (x : io) (e : line) (w : world) (i : slog_info) : run (world * slog_info) :=
  let '(t, ret) := print e (outs x) in
  let '(f, fd, _) := write_from_buffer [] (files w) (fd_out i) t in after_write x f fd ret w i.

Definition stream_event (ev : event) (w : world) (i : slog_info) : run (world * slog_info) :=
  if negb (state i =? SLOG_STATE_ON) then Done (w, i) else
  if negb (is_kernel i || is_android i) then Done (w, i) else
  match ev with
  | NotReady | NoData => Done (w, i)
  | ReadFailed ok => Done (w, open_device ok i)
  | Entry time data x =>
    if is_kernel i then b ← strinst max time data; log_text x b w i
    else match process (name i) data with Some e => print_line x e w i | None => Done (w, i) end
  end.

(** One round over the list, with an event for every stream. *)
Fixpoint stream_turn (evs : list event) (w : world) (infos : list slog_info) : run (world * list slog_info) :=
  match infos, evs with
  | i :: infos, ev :: evs =>
    '(w, i) ← stream_event ev w i;
    '(w, infos) ← stream_turn evs w infos;
    Done (w, i :: infos)
  | _, _ => Done (w, infos)
  end.
(** The rounds while the log is enabled. *)
Fixpoint stream_log_handler (rounds : list (list event)) (w : world) (infos : list slog_info) : run (world * list slog_info) :=
  match rounds with
  | [] => Done (w, infos)
  | evs :: rounds => '(w, infos) ← stream_turn evs w infos; stream_log_handler rounds w infos
  end.
End Streams.

(** The streams are opened first. *)
Definition stream_open (device : bool) (x : io) (w : world) (i : slog_info) : run (world * slog_info) :=
  if negb (state i =? SLOG_STATE_ON) then Done (w, i)
  else if is_kernel i || is_android i then
    '(w, i) ← gen_outfd (sys x) w (open_device device i);
    Done (add_timestamp (again x) (stamp x) w i)
  else Done (w, i).

(** ** Names of rolled files *)
Lemma digit_text i : (i < 10)%nat -> dec_text (Z.of_nat i) = [digit_char (Z.of_nat i)].
Proof. intros H. do 10 (destruct i as [|i]; [reflexivity|]). lia. Qed.
Lemma digit_inj i j : (i < 10)%nat -> (j < 10)%nat -> digit_char (Z.of_nat i) = digit_char (Z.of_nat j) -> i = j.
Proof.
  intros Hi Hj E. apply (f_equal nat_of_ascii) in E.
  assert (V : forall k, (k < 10)%nat -> nat_of_ascii (digit_char (Z.of_nat k)) = (48 + k)%nat).
  { intros k Hk. do 10 (destruct k as [|k]; [reflexivity|]). lia. }
  rewrite !V in E by done. lia.
Qed.
Lemma digit_not_g i : (i < 10)%nat -> digit_char (Z.of_nat i) <> "g"%char.
Proof. intros H. do 10 (destruct i as [|i]; [discriminate|]). lia. Qed.

Definition log_name (p : text) : Prop := exists q, p = q ++ chars ".log".
Lemma rolled_S p i : (i < 9)%nat -> rolled p (S i) = (p ++ ["."%char]) ++ [digit_char (Z.of_nat (S i))].
Proof. intros H. unfold rolled. rewrite digit_text by lia. by rewrite <- app_assoc. Qed.
Lemma log_rolled p q j : log_name p -> (j < 9)%nat -> p <> rolled q (S j).
Proof.
  intros (x & ->) H E. rewrite rolled_S in E by done.
  replace (x ++ chars ".log") with ((x ++ chars ".lo") ++ ["g"%char]) in E by (by rewrite <- app_assoc).
  apply app_inj_tail in E as [_ E]. symmetry in E. by apply digit_not_g in E; [|lia].
Qed.
Lemma rolled_inj p q i j : log_name p -> log_name q -> (i <= 9)%nat -> (j <= 9)%nat -> rolled p i = rolled q j -> p = q /\ i = j.
Proof.
  intros Lp Lq Hi Hj E. destruct i as [|i], j as [|j].
  - done.
  - by destruct (log_rolled p q j Lp); [lia|].
  - by destruct (log_rolled q p i Lq); [lia|].
  - rewrite !rolled_S in E by lia. apply app_inj_tail in E as [E D]. apply app_inj_tail in E as [E _]. split; [done|].
    apply digit_inj in D; lia.
Qed.

(** ** What a write leaves *)
Fixpoint emitted (outs : list wrote) (b : text) : text * bool :=
  match b, outs with
  | [], _ => ([], true)
  | _, [] => (b, true)
  | _, Wrote n :: outs => let '(t, ok) := emitted outs (drop n b) in (take n b ++ t, ok)
  | _, Eintr :: outs => emitted outs b
  | _, WriteError :: _ => ([], false)
  end.
Lemma emitted_all outs b t : emitted outs b = (t, true) -> t = b.
Proof.
  revert b t. induction outs as [|[n| |] outs IH]; intros b t E; destruct b as [|c b]; cbn [emitted] in E; try congruence.
  - destruct (emitted outs (drop n (c :: b))) as [t' ok] eqn:E'. injection E as <- ->. rewrite (IH _ _ E'). apply take_drop.
  - by apply IH.
Qed.
Lemma write_at_end c b : write_at c (length c) b = c ++ b.
Proof. unfold write_at. by rewrite take_ge, Nat.sub_diag, drop_ge, app_nil_r by lia. Qed.
Lemma write_loop_end outs f p c b r : f !! p = Some c ->
  write_loop outs f p (length c) b r =
  (<[p := c ++ fst (emitted outs b)]> f, length (c ++ fst (emitted outs b)), if snd (emitted outs b) then r + zlen b else -1).
Proof.
  revert f c b r. induction outs as [|o outs IH]; intros f c b r H; destruct b as [|x b].
  - cbn. by rewrite app_nil_r, insert_id, Z.add_0_r.
  - cbn [write_loop emitted fst snd]. unfold pwrite, file_of. rewrite H. cbn [default]. rewrite write_at_end. by rewrite length_app.
  - cbn. destruct o; cbn; by rewrite app_nil_r, insert_id, Z.add_0_r.
  - destruct o as [n| |]; cbn [write_loop emitted].
    + set (b' := x :: b). unfold pwrite, file_of. rewrite H. cbn [default]. rewrite write_at_end.
      rewrite <- length_app. rewrite IH by apply lookup_insert_eq. destruct (emitted outs (drop n b')) as [t ok]. cbn [fst snd].
      rewrite insert_insert_eq, app_assoc. f_equal. destruct ok; [|done]. rewrite <- (take_drop n b') at 3. rewrite length_app. lia.
    + by apply IH.
    + cbn. by rewrite app_nil_r, insert_id.
Qed.

(** ** Renaming *)
Definition shows (f : fs) (p : text) (n : nat) (gens : list text) : Prop := forall k, (k <= n)%nat -> f !! rolled p k = gens !! k.
Lemma rename_lookup a b f q : a <> b -> rename a b f !! q =
  if decide (q = a) then None else if decide (q = b) then match f !! a with Some c => Some c | None => f !! b end else f !! q.
Proof.
  intros N. unfold rename. destruct (f !! a) as [c|] eqn:E.
  - destruct (decide (q = a)) as [->|Na]; [by rewrite lookup_insert_ne, lookup_delete_eq|].
    destruct (decide (q = b)) as [->|Nb]; [by rewrite lookup_insert_eq|]. by rewrite lookup_insert_ne, lookup_delete_ne.
  - destruct (decide (q = a)) as [->|]; [done|]. by destruct (decide (q = b)) as [->|].
Qed.
Lemma rotate_frame ok m p f q : (forall k, (k <= m)%nat -> q <> rolled p k) -> file_name_rotate ok m p f !! q = f !! q.
Proof.
  revert f. induction m as [|m IH]; intros f H; [done|]. cbn [file_name_rotate]. rewrite IH by (intros k Hk; apply H; lia).
  destruct (ok (S m)); [|done]. unfold rename. destruct (f !! rolled p m) as [c|]; [|done].
  rewrite lookup_insert_ne by (intros E; by apply (H (S m))). rewrite lookup_delete_ne; [done|]. intros E. apply (H m); [lia|done].
Qed.
Lemma rotate_shows ok p n gens : log_name p -> (n <= 9)%nat -> (forall k, ok k = true) -> gens <> [] ->
  forall m f, (m <= n)%nat -> (forall k, (k < m)%nat -> f !! rolled p k = gens !! k) ->
  f !! rolled p m = (if (m =? n)%nat then gens !! n else None) ->
  (forall k, (m < k <= n)%nat -> f !! rolled p k = gens !! (k - 1)%nat) ->
  forall k, (k <= n)%nat -> file_name_rotate ok m p f !! rolled p k = match k with O => (if (n =? 0)%nat then gens !! 0%nat else None) | S j => gens !! j end.
Proof.
  intros Lp Hn Ok Ng. induction m as [|m IH]; intros f Hm Lo Mid Hi k Hk; cbn [file_name_rotate].
  { destruct k as [|k]; [|rewrite Hi by lia; f_equal; lia]. change (rolled p 0) with (rolled p 0) in Mid. rewrite Mid.
    rewrite (Nat.eqb_sym n 0). destruct (0 =? n)%nat eqn:E; [|done]. apply Nat.eqb_eq in E as <-. done. }
  rewrite Ok. assert (Ne : rolled p m <> rolled p (S m)) by (intros E; apply rolled_inj in E as [_ ?]; [lia|done|done|lia|lia]).
  assert (Nk : forall i j, (i <= n)%nat -> (j <= n)%nat -> i <> j -> rolled p i <> rolled p j).
  { intros i j ? ? Nij E. apply rolled_inj in E as [_ ?]; [lia|done|done|lia|lia]. }
  apply IH; [lia| | | |done].
  - intros j Hj. rewrite rename_lookup, !decide_False by (done || apply Nk; lia). apply Lo. lia.
  - rewrite rename_lookup, decide_True by done. replace (m =? n)%nat with false; [done|]. symmetry. apply Nat.eqb_neq. lia.
  - intros j Hj. rewrite rename_lookup by done. rewrite decide_False by (apply Nk; lia).
    destruct (decide (rolled p j = rolled p (S m))) as [E|N].
    + assert (j = S m) as -> by (apply rolled_inj in E as [_ ?]; [done|done|done|lia|lia]).
      rewrite Lo by lia. replace (S m - 1)%nat with m by lia. destruct (gens !! m) as [c|] eqn:G; [done|]. rewrite Mid.
      destruct (Nat.eqb_spec (S m) n) as [<-|]; [|done]. apply lookup_ge_None in G. apply lookup_ge_None. lia.
    + apply Hi. split; [|lia]. destruct (decide (j = S m)) as [->|]; [done|lia].
Qed.
Lemma rotate_all ok p n gens f : log_name p -> (0 < n <= 9)%nat -> (forall k, ok k = true) -> gens <> [] -> shows f p n gens ->
  file_name_rotate ok n p f !! p = None /\ forall k, (k < n)%nat -> file_name_rotate ok n p f !! rolled p (S k) = gens !! k.
Proof.
  intros Lp Hn Ok Ng S. pose proof (rotate_shows ok p n gens Lp ltac:(lia) Ok Ng n f) as R. split.
  - enough (file_name_rotate ok n p f !! rolled p 0 = None) as H by exact H. rewrite R; [|lia| | | |lia].
    + by destruct n; [lia|].
    + intros k Hk. apply S. lia.
    + rewrite Nat.eqb_refl. apply S. lia.
    + intros k Hk. lia.
  - intros k Hk. rewrite R; [done|lia| | | |lia].
    + intros j Hj. apply S. lia.
    + rewrite Nat.eqb_refl. apply S. lia.
    + intros j Hj. lia.
Qed.

(** ** A stream and its file *)
Definition loggable (i : slog_info) : bool := is_kernel i || is_android i.
Definition env_ok (e : env) : Prop := made e = true /\ opens e = true /\ forall k, renames e k = true.
(** The same stream in the same place. *)
Definition same_place (w w' : world) : Prop := cur_path w' = cur_path w /\ top_logdir w' = top_logdir w /\ internal_log_size w' = internal_log_size w.
Definition same_stream (i i' : slog_info) : Prop :=
  name i' = name i /\ log_path i' = log_path i /\ log_basename i' = log_basename i /\ max_size i' = max_size i.
Definition only_files (p : text) (w w' : world) : Prop := forall q, (forall k, (k <= 9)%nat -> q <> rolled p k) -> files w' !! q = files w !! q.
(** [p] is its path, and the open file. *)
Record wf (w : world) (i : slog_info) (p : text) : Prop := {
  wf_path : gen_logfile true w i = Done p;
  wf_fd : exists off c, fd_out i = Some (p, off) /\ files w !! p = Some c;
  wf_kind : loggable i = true }.
(** It is renamed when it is full; [gens]: all files it ever had, the newest
    first, of which the last [n] and the current one are there. *)
Record good (w : world) (i : slog_info) (p : text) (n : nat) (gens : list text) : Prop := {
  g_path : gen_logfile true w i = Done p;
  g_rolls : rolls w i = Some n;
  g_kind : loggable i = true;
  g_cur : exists c old, gens = c :: old /\ fd_out i = Some (p, length c) /\ 0 <= outbytecount i <= zlen c;
  g_shows : shows (files w) p n gens }.

Lemma logfile_name_in size w i p : gen_logfile_in size true w i = Done p -> log_name p.
Proof.
  unfold gen_logfile_in. destruct (Nat.ltb _ _); [|done]. cbn [negb]. destruct (Nat.ltb _ _); [|done]. intros [= <-]. unfold log_name.
  exists (cur_path w ++ chars "/" ++ top_logdir w ++ chars "/" ++ log_path i ++ chars "/" ++ log_basename i). by rewrite <- !app_assoc.
Qed.
Lemma logfile_name w i p : gen_logfile true w i = Done p -> log_name p.
Proof. apply logfile_name_in. Qed.
Lemma logfile_same_in size w w' i i' : same_place w w' -> same_stream i i' -> gen_logfile_in size true w' i' = gen_logfile_in size true w i.
Proof. intros (E1 & E2 & _) (_ & E3 & E4 & _). unfold gen_logfile_in. by rewrite E1, E2, E3, E4. Qed.
Lemma logfile_same w w' i i' : same_place w w' -> same_stream i i' -> gen_logfile true w' i' = gen_logfile true w i.
Proof. apply logfile_same_in. Qed.
Lemma rolls_bound w i n : rolls w i = Some n -> (0 < n <= 9)%nat.
Proof. unfold rolls. destruct (is_internal w); [intros [= <-]; unfold INTERNAL_ROLLLOGS; lia|]. destruct (_ =? _); [intros [= <-]; unfold MAXROLLLOGS; lia|done]. Qed.
Lemma not_modem i : loggable i = true -> starts (name i) "modem" = false.
Proof.
  unfold loggable, is_kernel, is_android. intros H. destruct (starts (name i) "modem") eqn:E; [|done].
  apply prefix_of_app in E as (r & E). rewrite E in H. vm_compute in H. discriminate H.
Qed.

Lemma gen_outfd_ok e w i p : env_ok e -> gen_logfile true w i = Done p -> loggable i = true ->
  gen_outfd e w i = Done (set_files (<[p := file_of (files w) p]> (files w)) w, set_out (Some (p, length (file_of (files w) p))) (zlen (file_of (files w) p)) i).
Proof.
  intros (E1 & E2 & _) G L. unfold gen_outfd. rewrite E1, G. cbn [mbind run_bind]. unfold write_modem_timestamp. rewrite not_modem by done. cbn [negb mbind run_bind].
  by rewrite E2.
Qed.

Lemma same_place_files f w : same_place w (set_files f w).
Proof. done. Qed.
Lemma same_stream_out fd n i : same_stream i (set_out fd n i).
Proof. done. Qed.
#[local] Hint Resolve same_place_files same_stream_out : core.
#[export] Instance same_place_po : PreOrder same_place.
Proof. split; [done|]. intros ? ? ? (?&?&?) (?&?&?). repeat split; congruence. Qed.
#[export] Instance same_stream_po : PreOrder same_stream.
Proof. split; [done|]. intros ? ? ? (?&?&?&?) (?&?&?&?). repeat split; congruence. Qed.
#[export] Instance only_files_po p : PreOrder (only_files p).
Proof. split; [done|]. intros ? ? ? A B q Q. by rewrite B, A. Qed.

Lemma only_insert p c w : only_files p w (set_files (<[p := c]> (files w)) w).
Proof. intros q Q. cbn. apply lookup_insert_ne. intros E. apply (Q 0%nat); [lia|done]. Qed.
Lemma shows_insert f p n c gens : log_name p -> (n <= 9)%nat -> shows f p n gens -> gens <> [] -> shows (<[p := c]> f) p n (c :: tail gens).
Proof.
  intros L Hn S N k Hk. destruct k as [|k]; [apply lookup_insert_eq|]. rewrite lookup_insert_ne.
  - rewrite S by done. by destruct gens.
  - intros E. by destruct (log_rolled p p k L); [lia|].
Qed.

(** ** An entry *)
Lemma write_loop_frame outs f p off b r : forall f' off' r', write_loop outs f p off b r = (f', off', r') ->
  (forall q, q <> p -> f' !! q = f !! q) /\ (is_Some (f !! p) -> is_Some (f' !! p)).
Proof.
  revert f off b r. induction outs as [|o outs IH]; intros f off b r f' off' r' E; destruct b as [|x b]; cbn [write_loop] in E.
  - by injection E as <- _ _.
  - injection E as <- _ _. unfold pwrite. split; [intros q N; by apply lookup_insert_ne|]. intros _. rewrite lookup_insert_eq. by eexists.
  - by injection E as <- _ _.
  - destruct o as [n| |].
    + apply IH in E as [A B]. split.
      * intros q N. rewrite A by done. unfold pwrite. by apply lookup_insert_ne.
      * intros _. apply B. unfold pwrite. rewrite lookup_insert_eq. by eexists.
    + by apply IH in E.
    + by injection E as <- _ _.
Qed.
Lemma wf_fd_write outs w i p b : wf w i p ->
  exists f off' ret c, write_from_buffer outs (files w) (fd_out i) b = (f, Some (p, off'), ret) /\ f !! p = Some c /\ only_files p w (set_files f w).
Proof.
  intros [_ (off & c & -> & Hc) _]. unfold write_from_buffer. destruct (write_loop outs (files w) p off b 0) as [[f off'] ret] eqn:E.
  apply write_loop_frame in E as [A B]. destruct B as [c' Hc']; [by rewrite Hc|]. exists f, off', ret, c'. split; [done|]. split; [done|].
  intros q Q. apply A. intros ->. apply (Q 0%nat); [lia|done].
Qed.

(** Where a step leads. *)
Definition stays (p : text) (w : world) (i : slog_info) (w' : world) (i' : slog_info) : Prop :=
  wf w' i' p /\ same_place w w' /\ same_stream i i' /\ only_files p w w' /\ state i' = state i.
Lemma rotatelogs_ok num e w i p c : (num <= 9)%nat -> env_ok e -> gen_logfile true w i = Done p -> loggable i = true -> files w !! p = Some c ->
  let f := file_name_rotate (renames e) num p (files w) in
  rotatelogs num e w i = Done (set_files (<[p := file_of f p]> f) w, set_out (Some (p, length (file_of f p))) 0 i) /\
  only_files p w (set_files (<[p := file_of f p]> f) w).
Proof.
  intros Hn E G L Hc f. split.
  - unfold rotatelogs. destruct E as (E1 & E2 & E3). rewrite E1, G. cbn [mbind run_bind]. fold f.
    rewrite (gen_outfd_ok e (set_files f w) i p) by (done || by repeat split). done.
  - intros q Q. cbn. rewrite lookup_insert_ne by (intros ->; by apply (Q 0%nat); [lia|]). apply rotate_frame. intros k Hk. apply Q. lia.
Qed.
Lemma size_handler_stays e w i p : env_ok e -> wf w i p -> exists w' i', log_size_handler e w i = Done (w', i') /\ stays p w i w' i'.
Proof.
  intros E [G (off & c & F & Hc) L]. unfold log_size_handler. destruct (outbytecount i >=? size_limit w i).
  2:{ exists w, i. split; [done|]. split; [split; eauto|done]. }
  destruct (rolls w i) as [n|] eqn:R.
  - pose proof (rolls_bound w i n R). destruct (rotatelogs_ok n e w i p c ltac:(lia) E G L Hc) as [-> O]. eexists _, _. split; [reflexivity|].
    split; [|done]. split; [done| |done]. eexists _, _. split; [reflexivity|]. apply lookup_insert_eq.
  - eexists _, _. split; [reflexivity|]. split; [|done]. split; [done| |done]. exists 0%nat, c. cbn. by rewrite F.
Qed.
Lemma after_write_stays x f off ret c w i p :
  env_ok (sys x) -> wf w i p -> f !! p = Some c -> only_files p w (set_files f w) ->
  exists w' i', after_write x f (Some (p, off)) ret w i = Done (w', i') /\ stays p w i w' i'.
Proof.
  intros E W Hc O. pose proof W as [G _ L]. unfold after_write. destruct (ret <? 0).
  - rewrite (gen_outfd_ok (sys x) (set_files f w) (set_out None (outbytecount i) i) p E G L). cbn [mbind run_bind].
    set (w1 := set_files _ (set_files f w)). set (i1 := set_out (Some _) _ _).
    assert (W1 : wf w1 i1 p) by (split; [done| |done]; eexists _, _; split; [reflexivity|apply lookup_insert_eq]).
    destruct (wf_fd_write (again x) w1 i1 p (stamp_line (stamp x)) W1) as (f2 & off2 & r2 & c2 & E2 & Hc2 & O2).
    unfold add_timestamp. rewrite E2. eexists _, _. split; [reflexivity|]. split; [split; [done| |done]; by eexists _, _|].
    split; [done|]. split; [done|]. split; [|done]. etrans; [exact O|]. etrans; [exact (only_insert p (file_of f p) (set_files f w))|exact O2].
  - destruct (size_handler_stays (sys x) (set_files f w) (set_out (Some (p, off)) (outbytecount i + ret) i) p E) as (w' & i' & Eh & W' & P' & S' & O' & St').
    { split; [done| |done]. by eexists _, _. }
    exists w', i'. split; [exact Eh|]. split; [done|]. split; [done|]. split; [done|]. split; [by etrans|done].
Qed.
Lemma log_text_stays x b w i p : env_ok (sys x) -> wf w i p -> exists w' i', log_text x b w i = Done (w', i') /\ stays p w i w' i'.
Proof.
  intros E W. destruct (wf_fd_write (outs x) w i p b W) as (f & off & ret & c & Ew & Hc & O).
  unfold log_text. rewrite Ew. by eapply after_write_stays.
Qed.
Lemma print_line_stays {line} (print : line -> list wrote -> text * Z) x e w i p :
  env_ok (sys x) -> wf w i p -> exists w' i', print_line print x e w i = Done (w', i') /\ stays p w i w' i'.
Proof.
  intros E W. unfold print_line. destruct (print e (outs x)) as [t ret].
  destruct (wf_fd_write [] w i p t W) as (f & off & ret' & c & Ew & Hc & O). rewrite Ew. by eapply after_write_stays.
Qed.

(** ** The files of a stream together *)

(** What an entry adds to the log: what was written of it, and behind a failed
    write the header of the file opened again. *)
Definition header (x : io) : text := fst (emitted (again x) (stamp_line (stamp x))).
Definition log_emitted (x : io) (b : text) : text :=
  let '(t, ok) := emitted (outs x) b in if ok then t else t ++ header x.
Definition print_emitted {line} (print : line -> list wrote -> text * Z) (x : io) (e : line) : text :=
  let '(t, ret) := print e (outs x) in if ret <? 0 then t ++ header x else t.
(** What the handler relies on of [android_log_printLogLine]: a result that is
    not negative is the number of bytes it wrote. *)
Definition counts_bytes {line} (print : line -> list wrote -> text * Z) : Prop :=
  forall e o, 0 <= snd (print e o) -> snd (print e o) = zlen (fst (print e o)).
(** [t] has been logged in the files [new], on top of [old]; all but the last
    of them were full. *)
Definition keeps (w : world) (i : slog_info) (p : text) (n : nat) (old new : list text) (t : text) : Prop :=
  good w i p n (new ++ old) /\ new <> [] /\ concat (rev new) = t /\ Forall (fun g => size_limit w i <= zlen g) (tail new).

Lemma good_wf w i p n gens : good w i p n gens -> wf w i p.
Proof.
  intros [G R L (c & old & -> & F & _) S]. split; [done| |done]. exists (length c), c. split; [done|]. apply (S 0%nat). lia.
Qed.
Lemma limit_same w w' i i' : same_place w w' -> same_stream i i' -> size_limit w' i' = size_limit w i /\ rolls w' i' = rolls w i.
Proof. intros (E1 & E2 & E3) (_ & _ & _ & E4). unfold size_limit, rolls, is_internal. by rewrite E1, E3, E4. Qed.

(** The file grows by [e] and may then be renamed. *)
Lemma size_handler_keeps env w i p n old c new t e k : env_ok env -> keeps w i p n old (c :: new) t -> 0 <= k <= zlen (c ++ e) ->
  exists w' i' new', log_size_handler env (set_files (<[p := c ++ e]> (files w)) w) (set_out (Some (p, length (c ++ e))) k i) = Done (w', i') /\
    keeps w' i' p n old new' (t ++ e).
Proof.
  intros E ([G R L (c0 & o0 & E0 & F & C) S] & _ & T & Fu) Hk. injection E0 as <- <-. pose proof (logfile_name _ _ _ G) as Ln. pose proof (rolls_bound _ _ _ R) as Hn.
  set (w1 := set_files _ w). set (i1 := set_out _ k i). assert (S1 : shows (files w1) p n ((c ++ e) :: new ++ old)).
  { apply (shows_insert (files w) p n (c ++ e) ((c :: new) ++ old) Ln ltac:(lia) S). done. }
  assert (T1 : concat (rev ((c ++ e) :: new)) = t ++ e).
  { rewrite <- T. cbn [rev]. rewrite !concat_app. cbn [concat]. by rewrite !app_nil_r, app_assoc. }
  unfold log_size_handler. destruct (outbytecount i1 >=? size_limit w1 i1) eqn:Full.
  - change (rolls w1 i1) with (rolls w i). rewrite R.
    destruct (rotatelogs_ok n env w1 i1 p (c ++ e) ltac:(lia) E G L (S1 0%nat ltac:(lia))) as [-> _].
    set (f := file_name_rotate _ _ _ _). destruct (rotate_all (renames env) p n ((c ++ e) :: new ++ old) (files w1) Ln Hn) as [R0 Rk]; [apply E|done|done|].
    fold f in R0, Rk. unfold file_of. rewrite R0. cbn [default length].
    eexists _, _, ([] :: (c ++ e) :: new). split; [reflexivity|]. split; [|split; [done|]; split].
    + split; [done|done|done|exists [], ((c ++ e) :: new ++ old); by cbn|]. intros j Hj. destruct j as [|j]; [apply lookup_insert_eq|].
      cbn. rewrite lookup_insert_ne by (apply log_rolled; [done|lia]). apply Rk. lia.
    + cbn [rev]. rewrite concat_app. cbn [concat]. rewrite app_nil_r. exact T1.
    + cbn [tail]. constructor; [|exact Fu]. change (size_limit w1 i1 <= zlen (c ++ e)). cbn [outbytecount i1 set_out] in Full. lia.
  - exists w1, i1, ((c ++ e) :: new). split; [done|]. split; [|done]. split; [done|done|done| |done].
    exists (c ++ e), (new ++ old). done.
Qed.

Lemma after_write_keeps x e ret w i p n old c new t :
  env_ok (sys x) -> keeps w i p n old (c :: new) t -> (0 <= ret -> ret = zlen e) ->
  exists w' i' new', after_write x (<[p := c ++ e]> (files w)) (Some (p, length (c ++ e))) ret w i = Done (w', i') /\
    keeps w' i' p n old new' (t ++ (if ret <? 0 then e ++ header x else e)).
Proof.
  intros E H Hr. pose proof H as ([G R L (c0 & o & E0 & F & C) S] & N & T & Fu). injection E0 as <- <-.
  pose proof (logfile_name _ _ _ G) as Ln. pose proof (rolls_bound _ _ _ R) as Hn.
  unfold after_write. destruct (Z.ltb_spec ret 0) as [Hneg|Hpos].
  - set (w1 := set_files _ w).
    rewrite (gen_outfd_ok (sys x) w1 (set_out None (outbytecount i) i) p E G L). cbn [mbind run_bind]. unfold add_timestamp. cbn [fd_out set_out files set_files].
    unfold file_of. cbn [w1 files set_files]. rewrite lookup_insert_eq. cbn [default]. rewrite insert_insert_eq.
    unfold write_from_buffer. rewrite (write_loop_end _ _ _ (c ++ e)) by apply lookup_insert_eq. fold (header x).
    set (h := header x). rewrite insert_insert_eq. eexists _, _, ((c ++ e ++ h) :: new). split; [reflexivity|].
    rewrite <- !app_assoc. split; [split; [done|done|done| |]|split; [done|]; split; [|done]].
    + exists (c ++ e ++ h), (new ++ old). split; [done|]. split; [done|]. cbn [outbytecount set_out id]. unfold id. rewrite !length_app. lia.
    + apply (shows_insert (files w) p n (c ++ e ++ h) ((c :: new) ++ old) Ln ltac:(lia) S). done.
    + rewrite <- T. cbn [rev]. rewrite !concat_app. cbn [concat]. by rewrite !app_nil_r, app_assoc.
  - apply (size_handler_keeps (sys x) w i p n old c new t e); [done|done|]. rewrite length_app, (Hr Hpos). lia.
Qed.

(** The file that is open ends where the next write goes. *)
Lemma keeps_open outs b w i p n old new t : keeps w i p n old new t ->
  exists c new', new = c :: new' /\ write_from_buffer outs (files w) (fd_out i) b =
    (<[p := c ++ fst (emitted outs b)]> (files w), Some (p, length (c ++ fst (emitted outs b))), if snd (emitted outs b) then zlen b else -1).
Proof.
  intros ([G R L (c & o & E0 & F & C) S] & N & _). destruct new as [|c0 new]; [done|]. injection E0 as -> _.
  exists c, new. split; [done|]. unfold write_from_buffer. rewrite F, (write_loop_end _ _ _ c) by (apply (S 0%nat); lia).
  by rewrite Z.add_0_l.
Qed.

Lemma log_text_keeps x b w i p n old new t : env_ok (sys x) -> keeps w i p n old new t ->
  exists w' i' new', log_text x b w i = Done (w', i') /\ keeps w' i' p n old new' (t ++ log_emitted x b).
Proof.
  intros E H. destruct (keeps_open (outs x) b _ _ _ _ _ _ _ H) as (c & new' & -> & Ew). unfold log_text, log_emitted. rewrite Ew.
  destruct (emitted (outs x) b) as [e ok] eqn:Ee. cbn [fst snd]. destruct ok.
  - apply emitted_all in Ee as ->. destruct (after_write_keeps x b (zlen b) w i p n old c new' t E H) as (w' & i' & new2 & Ea & K); [done|].
    rewrite (proj2 (Z.ltb_ge _ 0)) in K by lia. by exists w', i', new2.
  - by apply (after_write_keeps x e (-1) w i p n old c new' t E H).
Qed.
Lemma print_line_keeps {line} (print : line -> list wrote -> text * Z) x e w i p n old new t :
  counts_bytes print -> env_ok (sys x) -> keeps w i p n old new t ->
  exists w' i' new', print_line print x e w i = Done (w', i') /\ keeps w' i' p n old new' (t ++ print_emitted print x e).
Proof.
  intros Hc E H. specialize (Hc e (outs x)). unfold print_line, print_emitted. destruct (print e (outs x)) as [b ret]. cbn [fst snd] in Hc.
  destruct (keeps_open [] b _ _ _ _ _ _ _ H) as (c & new' & -> & Ew). rewrite Ew.
  assert (Eb : emitted [] b = (b, true)) by (by destruct b). rewrite Eb. cbn [fst snd].
  by apply (after_write_keeps x b ret w i p n old c new' t E H).
Qed.

(** ** All streams *)
Section Rounds.
Context {line : Type} (max : nat) (process : text -> text -> option line) (print : line -> list wrote -> text * Z).
Hypothesis print_counts : counts_bytes print.
Abbreviation stream_event := (stream_event max process print).
Abbreviation stream_turn := (stream_turn max process print).
Abbreviation stream_log_handler := (stream_log_handler max process print).

Definition event_ok (nm : text) (ev : event) : Prop :=
  match ev with
  | Entry time data x => env_ok (sys x) /\ (starts nm "kernel" = true -> exists b, strinst max time data = Done b)
  | _ => True
  end.
(** What the events of a stream log, as long as its device is there. *)
Definition entry_text (nm : text) (ev : event) : text :=
  match ev with
  | Entry time data x =>
    if starts nm "kernel" then match strinst max time data with Done b => log_emitted x b | _ => [] end
    else match process nm data with Some e => print_emitted print x e | None => [] end
  | _ => []
  end.
Definition still_on (on : bool) (ev : event) : bool := on && match ev with ReadFailed ok => ok | _ => true end.
Fixpoint logged (nm : text) (on : bool) (evs : list event) : text :=
  match evs with
  | [] => []
  | ev :: evs => (if on then entry_text nm ev else []) ++ logged nm (still_on on ev) evs
  end.
Definition is_on (i : slog_info) : bool := state i =? SLOG_STATE_ON.

Lemma stays_refl p w i : wf w i p -> stays p w i w i.
Proof. by split. Qed.
Lemma event_stays ev w i p : event_ok (name i) ev -> wf w i p -> exists w' i', stream_event ev w i = Done (w', i') /\
  wf w' i' p /\ same_place w w' /\ same_stream i i' /\ only_files p w w'.
Proof.
  intros Ok W. pose proof W as [G F L]. unfold SlogOut.stream_event. unfold loggable in L. rewrite L. cbn [negb].
  destruct (negb (state i =? SLOG_STATE_ON)); [by exists w, i|]. destruct ev as [| |ok|time data x]; try (by exists w, i).
  - exists w, (open_device ok i). split; [done|]. destruct ok; (split; [by split|done]).
  - destruct Ok as [E K]. unfold is_kernel in *. destruct (starts (name i) "kernel").
    + destruct (K eq_refl) as [b ->]. cbn [mbind run_bind]. destruct (log_text_stays x b w i p E W) as (w' & i' & El & W' & P & S & O & _). by exists w', i'.
    + destruct (process (name i) data) as [e|]; [|by exists w, i].
      destruct (print_line_stays print x e w i p E W) as (w' & i' & El & W' & P & S & O & _). by exists w', i'.
Qed.
Lemma event_idle ev w i : loggable i = false -> stream_event ev w i = Done (w, i).
Proof. intros L. unfold SlogOut.stream_event. unfold loggable in L. rewrite L. by destruct (negb (state i =? SLOG_STATE_ON)). Qed.

Lemma event_keeps ev w i p n old new t : event_ok (name i) ev -> keeps w i p n old new t ->
  exists w' i' new', stream_event ev w i = Done (w', i') /\
    keeps w' i' p n old new' (t ++ (if is_on i then entry_text (name i) ev else [])) /\ is_on i' = still_on (is_on i) ev.
Proof.
  intros Ok H. pose proof H as ([G R L C S] & _). pose proof (good_wf _ _ _ _ _ (proj1 H)) as W.
  unfold SlogOut.stream_event, is_on, still_on. unfold loggable in L. rewrite L. cbn [negb].
  destruct (state i =? SLOG_STATE_ON) eqn:On; cbn [negb andb]; [|exists w, i, new; rewrite app_nil_r; by rewrite On].
  destruct ev as [| |ok|time data x]; try (exists w, i, new; rewrite app_nil_r; by rewrite On).
  - exists w, (open_device ok i), new. rewrite app_nil_r. split; [done|]. destruct H as ([G' R' L' C' S'] & N & T & F).
    destruct ok; (split; [split; [by split|done]|]); [exact On|done].
  - destruct Ok as [E K]. cbn [entry_text].
    assert (T : forall r t', (exists w' i' new', r = Done (w', i') /\ keeps w' i' p n old new' t') -> (exists w' i', r = Done (w', i') /\ stays p w i w' i') ->
      exists w' i' new', r = Done (w', i') /\ keeps w' i' p n old new' t' /\ (state i' =? SLOG_STATE_ON) = true).
    { intros r t' (w' & i' & new' & El & Kp) (w2 & i2 & E2 & _ & _ & _ & _ & St). rewrite El in E2. injection E2 as <- <-.
      exists w', i', new'. by rewrite St. }
    unfold is_kernel. destruct (starts (name i) "kernel").
    + destruct (K eq_refl) as [b ->]. cbn [mbind run_bind]. apply T; [by eapply log_text_keeps|by apply log_text_stays].
    + destruct (process (name i) data) as [e|]; [apply T; [by eapply print_line_keeps|by apply print_line_stays]|]. exists w, i, new. by rewrite app_nil_r, On.
Qed.

(** Streams with different files do not disturb each other. *)
Lemma other_files p q w w' : log_name p -> log_name q -> p <> q -> only_files p w w' ->
  forall k, (k <= 9)%nat -> files w' !! rolled q k = files w !! rolled q k.
Proof. intros Lp Lq N O k Hk. apply O. intros j Hj E. by apply rolled_inj in E as [-> _]. Qed.
Lemma wf_frame w w' i p : wf w i p -> same_place w w' -> files w' !! p = files w !! p -> wf w' i p.
Proof.
  intros [G (off & c & F & Hc) L] P E. split; [by rewrite (logfile_same w w' i i P)| |done]. exists off, c. by rewrite E.
Qed.
Lemma keeps_frame w w' i p n old new t : keeps w i p n old new t -> same_place w w' ->
  (forall k, (k <= 9)%nat -> files w' !! rolled p k = files w !! rolled p k) -> keeps w' i p n old new t.
Proof.
  intros ([G R L C S] & N & T & F) P E. destruct (limit_same w w' i i P) as [El Er]; [done|]. pose proof (rolls_bound _ _ _ R).
  split; [split; [by rewrite (logfile_same w w' i i P)|by rewrite Er|done|done|]|split; [done|]; split; [done|by rewrite El]].
  intros k Hk. rewrite E by lia. by apply S.
Qed.

(** Every stream has its path, and one that is written its file. *)
Definition wf_opt (w : world) (i : slog_info) (p : text) : Prop := gen_logfile true w i = Done p /\ (loggable i = true -> wf w i p).
(** Only files of [ps] are touched. *)
Definition only_of (ps : list text) (w w' : world) : Prop := forall q, (forall p k, p ∈ ps -> (k <= 9)%nat -> q <> rolled p k) -> files w' !! q = files w !! q.
Lemma wf_opt_frame w w' infos ps p : Forall2 (wf_opt w) infos ps -> log_name p -> p ∉ ps -> same_place w w' -> only_files p w w' -> Forall2 (wf_opt w') infos ps.
Proof.
  induction 1 as [|i q infos ps [Gi Hi] F IH]; intros L N P O; [done|]. apply not_elem_of_cons in N as [N1 N]. constructor; [|by apply IH].
  split; [by rewrite (logfile_same w w' i i P)|]. intros Li. specialize (Hi Li). eapply wf_frame; [done|done|].
  apply (other_files p q w w' L (logfile_name _ _ _ Gi) N1 O 0%nat). lia.
Qed.
Lemma paths_named w infos ps : Forall2 (wf_opt w) infos ps -> Forall log_name ps.
Proof. induction 1 as [|i p infos ps [G _] F IH]; constructor; [by eapply logfile_name|done]. Qed.
Lemma apart p ps k : log_name p -> Forall log_name ps -> p ∉ ps -> (k <= 9)%nat -> forall q j, q ∈ ps -> (j <= 9)%nat -> rolled p k <> rolled q j.
Proof.
  intros Lp Ls N Hk q j Hq Hj E. apply rolled_inj in E as [-> _]; [done|done| |done|done].
  apply list_elem_of_In in Hq. rewrite Forall_forall in Ls. by apply Ls.
Qed.

Lemma event_opt ev w i p : event_ok (name i) ev -> wf_opt w i p -> exists w' i', stream_event ev w i = Done (w', i') /\
  wf_opt w' i' p /\ same_place w w' /\ same_stream i i' /\ only_files p w w'.
Proof.
  intros Ok [G W]. destruct (loggable i) eqn:L.
  - destruct (event_stays ev w i p Ok (W eq_refl)) as (w1 & i1 & E & W1 & P & S & O). exists w1, i1. split; [done|]. split; [|done].
    split; [|done]. by rewrite (logfile_same w w1 i i1).
  - exists w, i. rewrite event_idle by done. split; [done|]. split; [|done]. split; [done|]. intros ?. congruence.
Qed.

Lemma turn_stays infos : forall evs w ps, Forall2 (fun i ev => event_ok (name i) ev) infos evs -> Forall2 (wf_opt w) infos ps -> NoDup ps ->
  exists w' infos', stream_turn evs w infos = Done (w', infos') /\ Forall2 (wf_opt w') infos' ps /\ Forall2 same_stream infos infos' /\
    same_place w w' /\ only_of ps w w'.
Proof.
  induction infos as [|i infos IH]; intros evs w ps Ok W D.
  { inversion Ok. inversion W. subst. exists w, []. by repeat split. }
  pose proof (paths_named _ _ _ W) as Ln. inversion Ok as [|? ev ? evs' Oi Os]. inversion W as [|? p ? ps' Wi Ws]. subst.
  inversion D as [|? ? Np D']. subst. apply List.Forall_cons_iff in Ln as [Lp Ls].
  destruct (event_opt ev w i p Oi Wi) as (w1 & i1 & E & [G1 W1] & P & S & O).
  destruct (IH evs' w1 ps' Os) as (w2 & infos2 & E2 & W2 & S2 & P2 & O2); [by eapply wf_opt_frame|done|].
  exists w2, (i1 :: infos2). cbn [SlogOut.stream_turn]. rewrite E. cbn [mbind run_bind]. rewrite E2. cbn [mbind run_bind]. split; [done|].
  split; [|split; [by constructor|split; [by etrans|]]].
  - constructor; [|done]. split; [by rewrite (logfile_same w1 w2 i1 i1 P2)|]. intros Li. eapply wf_frame; [by apply W1|done|].
    apply O2. by apply (apart p ps' 0); [| | |lia].
  - intros q Hq. rewrite O2 by (intros p' k I; apply Hq; by right). apply O. intros k Hk. apply Hq; [by left|done].
Qed.

Lemma turn_keeps infos : forall evs w ps k i p ev n old new t,
  Forall2 (fun i ev => event_ok (name i) ev) infos evs -> Forall2 (wf_opt w) infos ps -> NoDup ps ->
  infos !! k = Some i -> ps !! k = Some p -> evs !! k = Some ev -> keeps w i p n old new t ->
  exists w' infos' i' new', stream_turn evs w infos = Done (w', infos') /\ infos' !! k = Some i' /\
    keeps w' i' p n old new' (t ++ (if is_on i then entry_text (name i) ev else [])) /\ is_on i' = still_on (is_on i) ev.
Proof.
  induction infos as [|j infos IH]; intros evs w ps k i p ev n old new t Ok W D Hi Hp He H; [done|].
  pose proof (paths_named _ _ _ W) as Ln. inversion Ok as [|? ev0 ? evs' Oi Os]. inversion W as [|? q ? ps' Wi Ws]. subst.
  inversion D as [|? ? Nq D']. subst. apply List.Forall_cons_iff in Ln as [Lq Ls].
  destruct (event_opt ev0 w j q Oi Wi) as (w1 & i1 & E & [G1 W1] & P & S & O).
  pose proof (wf_opt_frame w w1 infos ps' q Ws Lq Nq P O) as Ws1. destruct k as [|k]; cbn in Hi, Hp, He.
  - injection Hi as ->. injection Hp as ->. injection He as ->.
    destruct (event_keeps ev w i p n old new t Oi H) as (w1' & i1' & new1 & E' & K1 & On1). rewrite E in E'. injection E' as <- <-.
    destruct (turn_stays infos evs' w1 ps' Os Ws1 D') as (w2 & infos2 & E2 & _ & _ & P2 & O2).
    exists w2, (i1 :: infos2), i1, new1. cbn [SlogOut.stream_turn]. rewrite E. cbn [mbind run_bind]. rewrite E2. cbn [mbind run_bind].
    split; [done|]. split; [done|]. split; [|done]. eapply keeps_frame; [done|done|]. intros k Hk. apply O2. by apply apart.
  - assert (Np : q <> p) by (intros ->; apply Nq; by eapply list_elem_of_lookup_2).
    assert (K1 : keeps w1 i p n old new t).
    { eapply keeps_frame; [done|done|]. apply (other_files q p w w1 Lq); [|done|done]. by eapply logfile_name, H. }
    destruct (IH evs' w1 ps' k i p ev n old new t Os Ws1 D' Hi Hp He K1) as (w2 & infos2 & i2 & new2 & E2 & Hi2 & K2 & On2).
    exists w2, (i1 :: infos2), i2, new2. cbn [SlogOut.stream_turn]. rewrite E. cbn [mbind run_bind]. rewrite E2. cbn [mbind run_bind]. done.
Qed.

Lemma names_ok infos infos' evs : Forall2 same_stream infos infos' ->
  Forall2 (fun nm ev => event_ok nm ev) (name <$> infos) evs -> Forall2 (fun nm ev => event_ok nm ev) (name <$> infos') evs.
Proof.
  intros S. revert evs. induction S as [|i i' infos infos' [N _] F IH]; intros evs H; [done|]. cbn in *. rewrite N.
  inversion H. subst. constructor; [done|by apply IH].
Qed.

Lemma rounds_keep rounds : forall w infos ps k i p n old new t,
  Forall (Forall2 (fun nm ev => event_ok nm ev) (name <$> infos)) rounds -> Forall2 (wf_opt w) infos ps -> NoDup ps ->
  infos !! k = Some i -> ps !! k = Some p -> keeps w i p n old new t ->
  exists w' infos' i' new', stream_log_handler rounds w infos = Done (w', infos') /\ infos' !! k = Some i' /\
    keeps w' i' p n old new' (t ++ logged (name i) (is_on i) (omap (fun evs => evs !! k) rounds)).
Proof.
  induction rounds as [|evs rounds IH]; intros w infos ps k i p n old new t Ok W D Hi Hp H.
  { exists w, infos, i, new. cbn. by rewrite app_nil_r. }
  apply List.Forall_cons_iff in Ok as [O1 Os]. assert (Of : Forall2 (fun i ev => event_ok (name i) ev) infos evs) by (exact (proj1 (Forall2_fmap_l name (event_ok) infos evs) O1)).
  destruct (Forall2_lookup_l _ _ _ _ _ Of Hi) as (ev & He & _).
  destruct (turn_stays infos evs w ps Of W D) as (w1 & infos1 & E & W1 & S1 & P1 & _).
  destruct (turn_keeps infos evs w ps k i p ev n old new t Of W D Hi Hp He H) as (w1' & infos1' & i1 & new1 & E' & Hi1 & K1 & On1).
  rewrite E in E'. injection E' as <- <-. destruct (Forall2_lookup_lr _ _ _ _ _ _ S1 Hi Hi1) as [Nm _].
  destruct (IH w1 infos1 ps k i1 p n old new1 _ ltac:(eapply Forall_impl; [|exact Os]; intros x; by apply names_ok) W1 D Hi1 Hp K1)
    as (w2 & infos2 & i2 & new2 & E2 & Hi2 & K2).
  exists w2, infos2, i2, new2. cbn [SlogOut.stream_log_handler]. rewrite E. cbn [mbind run_bind]. split; [done|]. split; [done|].
  rewrite Nm, On1, <- app_assoc in K2. cbn [omap list_omap]. rewrite He. cbn [logged]. done.
Qed.
End Rounds.


Definition main_info : slog_info := MkInfo SLOG_TYPE_STREAM 0 7 0 [] 0 (chars "main") (chars "android") (chars "main") [] true None 0.
Definition main_path : text := chars "/data/slog/20130101/android/main.log".
Definition small_world : world := MkWorld {[main_path := chars "old"]} (chars "/data/slog") (chars "20130101") 0.
Definition quiet : io := MkIo [] [] (chars "13-01-01 00:00:00") (MkEnv true None true true (fun _ => true)).
Definition main_open : slog_info := set_out (Some (main_path, 3%nat)) 3 main_info.

(** A printer that writes all it is given. *)
Definition print_all (e : text) (o : list wrote) : text * Z := (e, zlen e).


(** ** The time in front of kernel messages *)
Lemma break_at_none c l : c ∉ l -> break_at c l = None.
Proof. induction l as [|a l IH]; intros N; [done|]. apply not_elem_of_cons in N as [Na N]. cbn. destruct (ascii_dec a c); [congruence|]. by rewrite IH. Qed.
Lemma break_at_line c l r : c ∉ l -> break_at c (l ++ c :: r) = Some (l, r).
Proof.
  induction l as [|a l IH]; intros N; cbn; [by destruct (ascii_dec c c)|]. apply not_elem_of_cons in N as [Na N].
  destruct (ascii_dec a c); [congruence|]. by rewrite IH.
Qed.
Lemma has_nl_line l r : has_nl (l ++ NL :: r) = true.
Proof.
  unfold has_nl, contains. induction l as [|a l IH]; cbn [app strstr prefix_of].
  - by destruct (ascii_dec NL NL).
  - destruct (ascii_dec NL a); [by destruct l|exact IH].
Qed.
Lemma has_nl_none l : NL ∉ l -> has_nl l = false.
Proof.
  unfold has_nl, contains. induction l as [|a l IH]; intros N; [done|]. apply not_elem_of_cons in N as [Na N]. cbn [strstr prefix_of].
  destruct (ascii_dec NL a); [congruence|]. by apply IH.
Qed.

(** Every line gets the time; what is behind the last one is lost. *)
Lemma strinst_lines time ls rest : Forall (fun l => NL ∉ l) ls -> NL ∉ rest -> ls <> [] -> forall fuel, (length ls <= fuel)%nat ->
  time ++ strinst_loop fuel time (concat (map (fun l => l ++ [NL]) ls) ++ rest) = concat (map (fun l => time ++ l ++ [NL]) ls).
Proof.
  induction 1 as [|l ls N F IH]; intros Nr Ne fuel Hf; [done|]. destruct fuel as [|fuel]; [cbn in Hf; lia|]. cbn [map concat].
  rewrite <- !app_assoc. cbn [strinst_loop app]. rewrite break_at_line by done. destruct ls as [|l2 ls].
  - cbn [map concat app]. rewrite has_nl_none by done. done.
  - replace (has_nl _) with true by (symmetry; cbn [map concat]; rewrite <- !app_assoc; apply has_nl_line).
    rewrite (IH Nr) by (done || cbn in Hf |- *; lia). done.
Qed.
Lemma strinst_no_line max time l : NL ∉ l -> NUL ∉ l -> (length l < max)%nat -> (length time < 2 * max)%nat -> strinst max time l = Done time.
Proof.
  intros N1 N2 L T. unfold strinst. rewrite cstr_plain, (proj2 (Nat.ltb_lt _ _)) by done. cbn [strinst_loop].
  rewrite break_at_none, app_nil_r by done. by rewrite (proj2 (Nat.ltb_lt _ _)).
Qed.
(** Short lines need more than the double of the buffer. *)
Lemma strinst_overflows max time n : (0 < n < max)%nat -> (2 * max <= n * S (length time))%nat -> strinst max time (replicate n NL) = Bad.
Proof.
  intros H B. unfold strinst. rewrite cstr_plain by (rewrite elem_of_replicate; intros [[=] _]). rewrite length_replicate, (proj2 (Nat.ltb_lt _ _)) by lia.
  pose proof (strinst_lines time (replicate n []) [] ltac:(apply Forall_replicate, not_elem_of_nil) ltac:(apply not_elem_of_nil)) as E.
  assert (R : concat (map (fun l => l ++ [NL]) (replicate n [])) = replicate n NL).
  { clear. induction n as [|n IH]; [done|]. cbn. by f_equal. }
  rewrite app_nil_r, R in E. rewrite E; [|destruct n; [lia|discriminate]|rewrite length_replicate; lia].
  rewrite (proj2 (Nat.ltb_ge _ _)); [done|]. etrans; [exact B|]. clear. induction n as [|n IH]; [done|]. cbn [replicate map concat].
  rewrite !length_app. cbn [length]. lia.
Qed.

(** With a size in the configuration, a full file is overwritten from its
    beginning and keeps the rest of the old text. *)
Lemma circular_overwrites w i p off c b : fd_out i = Some (p, off) -> files w !! p = Some c -> is_internal w = false -> max_size i <> 0 ->
  size_limit w i <= outbytecount i -> (length b <= length c)%nat ->
  exists i', log_size_handler (sys quiet) w i = Done (w, i') /\
    fst (fst (write_from_buffer [] (files w) (fd_out i') b)) = <[p := b ++ drop (length b) c]> (files w).
Proof.
  intros F Hc In M L Lb. unfold log_size_handler. rewrite Z.geb_leb, (proj2 (Z.leb_le _ _)) by done. unfold rolls. rewrite In, (proj2 (Z.eqb_neq _ _)) by done.
  eexists. split; [reflexivity|]. cbn [fd_out set_out]. rewrite F. cbn. destruct b as [|x b]; cbn; [by rewrite insert_id|].
  unfold pwrite, file_of. rewrite Hc. cbn. unfold write_at. cbn. done.
Qed.
