(* ===== verification/SlogModem.v ===== *)
(** The system log daemon, the log of the modem: [modem_log_handler] of
    tools/slog/handler.c with its ring of the last blocks, which a request
    (slogctl hook_modem) writes to a file, and the dump of the modem's memory. *)
From S2P Require Import Prelude TextConf SlogConf SlogOut.
From Stdlib Require Import Ascii.

Definition SINGLE_BUFFER_SIZE : nat := 16 * 1024.
Definition RING_BUFFER_NUM : nat := 128.

(** The ring: 128 places of 16 KB, with the lengths of the blocks in them. *)
Record ring := MkRing { ring_buffer_table : list text; buffer_len : list nat; buffer_start : nat; buffer_end : nat }.
Definition ring0 : ring := MkRing (replicate RING_BUFFER_NUM []) (replicate RING_BUFFER_NUM 0%nat) 0 0.
Definition next_place (n : nat) : nat := (n + 1) mod RING_BUFFER_NUM.
(** The place is cleared, then the block is read into it. *)
Definition ring_read (d : text) (r : ring) : ring :=
  MkRing (<[buffer_end r := d ++ replicate (SINGLE_BUFFER_SIZE - length d) NUL]> (ring_buffer_table r)) (<[buffer_end r := length d]> (buffer_len r))
    (buffer_start r) (buffer_end r).
Definition ring_advance (r : ring) : ring :=
  let e := next_place (buffer_end r) in
  MkRing (ring_buffer_table r) (buffer_len r) (if decide (e = buffer_start r) then next_place (buffer_start r) else buffer_start r) e.
Definition place (r : ring) (k : nat) : text := take (default 0%nat (buffer_len r !! k)) (default [] (ring_buffer_table r !! k)).

(** The places from the start to the end are written one by one; each write
    has its outcomes, and its result is not looked at.  [fuel]: 128 places. *)
Fixpoint hook_loop (fuel : nat) (r : ring) (outss : list (list wrote)) (f : fs) (fd : option (text * nat)) : fs * ring :=
  match fuel with
  | O => (f, r)
  | S k =>
    let '(f, fd, _) := write_from_buffer (hd [] outss) f fd (place r (buffer_start r)) in
    let r := MkRing (ring_buffer_table r) (buffer_len r) (next_place (buffer_start r)) (buffer_end r) in
    if decide (buffer_end r = buffer_start r) then (f, r) else hook_loop k r (tail outss) f fd
  end.
(** [open] with O_CREAT and without O_TRUNC. *)
Definition creat (f : fs) (p : text) : fs := <[p := file_of f p]> f.
Definition hook_modem (p : text) (outss : list (list wrote)) (w : world) (r : ring) : world * ring :=
  let '(f, r) := hook_loop RING_BUFFER_NUM r outss (creat (files w) p) (Some (p, 0%nat)) in (set_files f w, r).

(** ** The dump of the memory *)

(** What [select] and [read] find: nothing for three seconds, an end of file
    after which the device is opened again, an error, a block. *)
Inductive dump_event := DumpTimeout | DumpEof (reopened : bool) | DumpRetry | DumpData (d : text) (outs : list wrote).
(** [tries]: the device is opened again until the command is taken.
    [shark]: the device has the memory in a file, [memory] under the property of
    the kind of modem. *)
Record dump := MkDump { tries : list bool; dump_path : text; dump_opens : bool; dump_events : list dump_event; shark : bool; memory : option text; memory_path : text }.
(** Without the property the shell command is what the stack holds. *)
Definition handle_dump_shark_modem_memory (d : dump) (f : fs) : run fs :=
  match memory d with Some m => Done (<[memory_path d := m]> f) | None => Bad end.
Fixpoint dump_loop (dp : dump) (evs : list dump_event) (received : nat) (f : fs) (fd : option (text * nat)) (i : slog_info) : run (fs * slog_info) :=
  match evs with
  | [] => Done (f, i)
  | DumpTimeout :: _ => f ← (if Nat.ltb received 10 && shark dp then handle_dump_shark_modem_memory dp f else Done f); Done (f, i)
  | DumpEof ok :: evs => dump_loop dp evs received f fd (open_device ok i)
  | DumpRetry :: evs => dump_loop dp evs received f fd i
  | DumpData d outs :: evs => let '(f, fd, _) := write_from_buffer outs f fd d in dump_loop dp evs (S received) f fd i
  end.
Definition handle_dump_modem_file (d : dump) (w : world) (i : slog_info) : run (world * slog_info) :=
  let i := foldl (fun i ok => open_device ok i) i (tries d) in
  if dump_opens d then
    '(f, i) ← dump_loop d (dump_events d) 0 (creat (files w) (dump_path d)) (Some (dump_path d, 0%nat)) i; Done (set_files f w, i)
  else Done (w, i).

(** ** A round of the thread *)
Inductive input := Idle | ReadError (eagain reopened : bool) | Block (d : text).
(** [hook]: the request, with the path for it, the outcome of [open] and of
    the writes. *)
Record turn := MkTurn { dumped : option dump; got : input; log_io : io; hook : option (text * bool * list (list wrote)) }.
Record modem := MkModem { mworld : world; minfo : slog_info; mring : ring }.

(** The block in the log file; a failed write counts as -1 characters. *)
Definition log_block (x : io) (b : text) (w : world) (i : slog_info) : run (world * slog_info) :=
  match fd_out i with
  | None => Done (w, i)
  | Some _ =>
    let '(f, fd, ret) := write_from_buffer (outs x) (files w) (fd_out i) b in
    log_size_handler (sys x) (set_files f w) (set_out fd (outbytecount i + ret) i)
  end.
(** [false]: the loop is left. *)
Definition modem_turn (t : turn) (s : modem) : run (modem * bool) :=
  '(w, i) ← match dumped t with Some d => handle_dump_modem_file d (mworld s) (minfo s) | None => Done (mworld s, minfo s) end;
  match got t with
  | Idle => Done (MkModem w i (mring s), true)
  | ReadError eagain ok => Done (MkModem w (if eagain then i else open_device ok i) (mring s), true)
  | Block d =>
    if Nat.ltb SINGLE_BUFFER_SIZE (length d) then Bad else
    let r := ring_read d (mring s) in
    '(w, i) ← log_block (log_io t) (place r (buffer_end r)) w i;
    let r := ring_advance r in
    match hook t with
    | None => Done (MkModem w i r, true)
    | Some (p, true, outss) => let '(w, r) := hook_modem p outss w r in Done (MkModem w i r, true)
    | Some (_, false, _) => Done (MkModem w i r, false)
    end
  end.
Fixpoint modem_run (ts : list turn) (s : modem) : run (modem * bool) :=
  match ts with
  | [] => Done (s, true)
  | t :: ts => '(s, go) ← modem_turn t s; if go : bool then modem_run ts s else Done (s, false)
  end.

(** The thread opens its file only when the log is enabled, not in the state
    of low power. *)
Definition modem_start (enable : Z) (e : env) (device : bool) (w : world) (i : slog_info) : run (option modem) :=
  if enable =? SLOG_DISABLE then Done None
  else if negb (state i =? SLOG_STATE_ON) then Done None else
  '(w, i) ← (if enable =? SLOG_ENABLE then gen_outfd e w i else Done (w, set_out None (outbytecount i) i));
  Done (Some (MkModem w (open_device device i) ring0)).

(** ** The messages of modemd *)

(** [reset]: the property under which a new modem is waited for instead of a
    dump; [alive]: the log thread runs. *)
Record watch := MkWatch { reset : Z; dump_modem_memory_flag : bool; modem_reset_flag : bool; alive : bool }.
Definition modem_message (m : text) (x : watch) : watch :=
  if contains m (chars "Modem Assert") then
    if reset x =? 0 then MkWatch (reset x) true (modem_reset_flag x) (alive x) else MkWatch (reset x) (dump_modem_memory_flag x) true false
  else if contains m (chars "Modem Alive") then
    MkWatch (reset x) (dump_modem_memory_flag x) false (modem_reset_flag x || alive x)
  else if contains m (chars "Modem Blocked") then MkWatch (reset x) true (modem_reset_flag x) (alive x)
  else x.

(** ** The blocks in the ring *)
Definition held (r : ring) : nat := (buffer_end r + RING_BUFFER_NUM - buffer_start r) mod RING_BUFFER_NUM.
Definition pending (r : ring) : list text := (fun j => place r ((buffer_start r + j) mod RING_BUFFER_NUM)) <$> seq 0 (held r).
(** The last blocks, as many as the ring can hold. *)
Definition recent (l : list text) : list text := drop (length l - (RING_BUFFER_NUM - 1)) l.
Record ring_wf (r : ring) : Prop := {
  wf_start : (buffer_start r < RING_BUFFER_NUM)%nat;
  wf_end : (buffer_end r < RING_BUFFER_NUM)%nat;
  wf_table : length (ring_buffer_table r) = RING_BUFFER_NUM;
  wf_len : length (buffer_len r) = RING_BUFFER_NUM }.
#[local] Opaque SINGLE_BUFFER_SIZE.

Lemma next_place_cases n : (n < RING_BUFFER_NUM)%nat -> next_place n = if decide (n = 127)%nat then 0%nat else S n.
Proof.
  unfold next_place, RING_BUFFER_NUM. intros H. destruct (decide (n = 127)%nat) as [->|]; [done|]. rewrite Nat.mod_small; lia.
Qed.
Lemma held_cases r : ring_wf r -> held r = if decide (buffer_start r <= buffer_end r)%nat then (buffer_end r - buffer_start r)%nat else (buffer_end r + 128 - buffer_start r)%nat.
Proof.
  intros [S E _ _]. unfold held, RING_BUFFER_NUM in *. destruct (decide _).
  - replace (buffer_end r + 128 - buffer_start r)%nat with (buffer_end r - buffer_start r + 1 * 128)%nat by lia.
    rewrite Nat.Div0.mod_add. apply Nat.mod_small. lia.
  - apply Nat.mod_small. lia.
Qed.
Lemma place_read_eq d r : ring_wf r -> place (ring_read d r) (buffer_end r) = d.
Proof.
  intros [_ E T L]. unfold place, ring_read. cbn [buffer_len ring_buffer_table]. rewrite !list_lookup_insert_eq by lia.
  apply take_app_length.
Qed.
Lemma place_read_ne d r k : k <> buffer_end r -> place (ring_read d r) k = place r k.
Proof. intros N. unfold place, ring_read. cbn [buffer_len ring_buffer_table]. by rewrite !list_lookup_insert_ne by done. Qed.
Lemma place_advance r k : place (ring_advance r) k = place r k.
Proof. done. Qed.

(** A block goes in behind the others; in a full ring the oldest is dropped. *)
Lemma recent_app l d : (length l <= RING_BUFFER_NUM - 1)%nat -> recent (l ++ [d]) = if decide (length l = RING_BUFFER_NUM - 1)%nat then tail l ++ [d] else l ++ [d].
Proof.
  intros H. unfold recent. rewrite length_app. cbn [length]. unfold RING_BUFFER_NUM in *. destruct (decide _) as [E|N].
  - destruct l as [|a l]; [done|]. cbn in E. cbn [app]. replace (length (a :: l) + 1 - (128 - 1))%nat with 1%nat by (cbn; lia). by rewrite drop_0 || done.
  - by replace (length l + 1 - (128 - 1))%nat with 0%nat by lia.
Qed.
Lemma pending_length r : length (pending r) = held r.
Proof. unfold pending. by rewrite length_fmap, length_seq. Qed.

Lemma ring_mod n : (n < 2 * RING_BUFFER_NUM)%nat -> (n mod RING_BUFFER_NUM)%nat = if decide (n < 128)%nat then n else (n - 128)%nat.
Proof.
  unfold RING_BUFFER_NUM. intros H. destruct (decide _); [by apply Nat.mod_small|].
  replace n with (n - 128 + 1 * 128)%nat at 1 by lia. rewrite Nat.Div0.mod_add. apply Nat.mod_small. lia.
Qed.
Definition segment (r : ring) (s n : nat) : list text := (fun j => place r ((s + j) mod RING_BUFFER_NUM)) <$> seq 0 n.
Lemma segment_cons r s n : (s < RING_BUFFER_NUM)%nat -> (n < RING_BUFFER_NUM)%nat -> segment r s (S n) = place r s :: segment r (next_place s) n.
Proof.
  intros Hs Hn. unfold segment. cbn [seq fmap list_fmap]. f_equal.
  - rewrite Nat.add_0_r, Nat.mod_small by done. done.
  - rewrite <- seq_shift. rewrite <- list_fmap_compose. apply list_fmap_ext. intros j ? Hj. apply lookup_seq in Hj as [-> Hj]. rewrite ?Nat.add_0_l.
    unfold compose. f_equal. rewrite next_place_cases by done. unfold RING_BUFFER_NUM in *.
    rewrite !ring_mod by (unfold RING_BUFFER_NUM; destruct (decide (s = 127)%nat); lia).
    destruct (decide (s = 127)%nat); repeat destruct (decide _); lia.
Qed.
Lemma segment_read d r s n : ring_wf r -> (s < RING_BUFFER_NUM)%nat -> (n < RING_BUFFER_NUM)%nat -> ((s + n) mod RING_BUFFER_NUM)%nat = buffer_end r ->
  segment (ring_read d r) s (S n) = segment r s n ++ [d].
Proof.
  intros W Hs Hn E. unfold segment. rewrite seq_S, fmap_app. cbn [fmap list_fmap]. rewrite Nat.add_0_l, E, place_read_eq by done. f_equal.
  apply list_fmap_ext. intros j ? Hj. apply lookup_seq in Hj as [-> Hj]. rewrite ?Nat.add_0_l. apply place_read_ne. rewrite <- E.
  unfold RING_BUFFER_NUM in *. rewrite !ring_mod by (unfold RING_BUFFER_NUM; lia). repeat destruct (decide _); lia.
Qed.
Lemma held_end r : ring_wf r -> ((buffer_start r + held r) mod RING_BUFFER_NUM)%nat = buffer_end r /\ (held r < RING_BUFFER_NUM)%nat.
Proof.
  intros W. pose proof W as [S E _ _]. rewrite held_cases by done. unfold RING_BUFFER_NUM in *.
  destruct (decide _); (rewrite ring_mod by (unfold RING_BUFFER_NUM; lia); destruct (decide _); lia).
Qed.
Lemma read_wf d r : ring_wf r -> ring_wf (ring_read d r).
Proof. intros [S E T L]. split; [done|done| |]; cbn; by rewrite length_insert. Qed.
Lemma next_bound n : (next_place n < RING_BUFFER_NUM)%nat.
Proof. unfold next_place. apply Nat.mod_upper_bound. done. Qed.
Lemma advance_wf r : ring_wf r -> ring_wf (ring_advance r).
Proof. intros [S E T L]. split; [cbn|apply next_bound|done|done]. destruct (decide _); [apply next_bound|done]. Qed.

Lemma pending_read d r : ring_wf r -> pending (ring_advance (ring_read d r)) = recent (pending r ++ [d]).
Proof.
  intros W. destruct (held_end r W) as [E Hh]. pose proof W as [Ws We _ _].
  pose proof (advance_wf _ (read_wf d r W)) as W'. pose proof (segment_read d r _ _ W Ws Hh E) as Sg.
  rewrite recent_app by (rewrite pending_length; unfold RING_BUFFER_NUM in *; lia). rewrite pending_length.
  change (pending r) with (segment r (buffer_start r) (held r)). rewrite <- Sg.
  change (pending (ring_advance (ring_read d r))) with (segment (ring_read d r) (buffer_start (ring_advance (ring_read d r))) (held (ring_advance (ring_read d r)))).
  assert (H' : held (ring_advance (ring_read d r)) = if decide (held r = 127)%nat then 127%nat else S (held r)).
  { rewrite !held_cases by done. cbn [ring_advance ring_read buffer_end buffer_start]. rewrite !next_place_cases by done. unfold RING_BUFFER_NUM in *.
    repeat destruct (decide _); lia. }
  assert (S' : buffer_start (ring_advance (ring_read d r)) = if decide (held r = 127)%nat then next_place (buffer_start r) else buffer_start r).
  { rewrite held_cases by done. cbn [ring_advance ring_read buffer_end buffer_start]. rewrite (next_place_cases (buffer_end r)) by done. unfold RING_BUFFER_NUM in *.
    destruct (decide (buffer_end r = 127)%nat); repeat destruct (decide _); lia || done. }
  rewrite H', S'. change (RING_BUFFER_NUM - 1)%nat with 127%nat. destruct (decide (held r = 127)%nat) as [F|N]; [|done].
  rewrite F in Sg |- *. rewrite segment_cons in Sg by (unfold RING_BUFFER_NUM in *; lia). destruct (segment r (buffer_start r) 127) as [|a l] eqn:El; [done|].
  injection Sg as _ ->. done.
Qed.

(** ** The file of a request *)

(** What the writes take of the blocks. *)
Fixpoint hooked (outss : list (list wrote)) (l : list text) : text :=
  match l with [] => [] | b :: l => fst (emitted (hd [] outss) b) ++ hooked (tail outss) l end.
Lemma hooked_all outss l : Forall (fun outs => WriteError ∉ outs) outss -> hooked outss l = concat l.
Proof.
  assert (A : forall outs b, WriteError ∉ outs -> snd (emitted outs b) = true).
  { induction outs as [|o outs IH]; intros [|c b] N; try done; apply not_elem_of_cons in N as [No N]; cbn [emitted].
    destruct o as [n| |]; [|by apply IH|done]. specialize (IH (drop n (c :: b)) N). by destruct (emitted outs (drop n (c :: b))). }
  revert outss. induction l as [|b l IH]; intros outss H; [done|]. cbn [hooked concat].
  rewrite IH by (destruct H; [constructor|done]). f_equal. specialize (A (hd [] outss) b). destruct (emitted (hd [] outss) b) as [t ok] eqn:E.
  cbn [fst snd] in *. assert (ok = true) as -> by (apply A; destruct H; [apply not_elem_of_nil|done]). by apply emitted_all in E.
Qed.

Lemma hook_step r n : ring_wf r -> held r = S n ->
  let r' := MkRing (ring_buffer_table r) (buffer_len r) (next_place (buffer_start r)) (buffer_end r) in
  ring_wf r' /\ held r' = n /\ pending r = place r (buffer_start r) :: pending r'.
Proof.
  intros W H r'. pose proof W as [S E T L]. assert (W' : ring_wf r') by (split; [apply next_bound|done|done|done]).
  assert (Hn : held r' = n).
  { rewrite held_cases in H |- * by done. cbn [r' buffer_start buffer_end]. rewrite next_place_cases by done. unfold RING_BUFFER_NUM in *.
    repeat destruct (decide _); lia. }
  split; [done|]. split; [done|]. destruct (held_end r W) as [_ Hb]. unfold pending at 1. change (segment r (buffer_start r) (held r) = place r (buffer_start r) :: pending r').
  rewrite H, segment_cons by (done || lia). f_equal. unfold pending. by rewrite Hn.
Qed.
Lemma held_0 r : ring_wf r -> buffer_end r = buffer_start r <-> held r = 0%nat.
Proof. intros W. pose proof W as [S E _ _]. rewrite held_cases by done. unfold RING_BUFFER_NUM in *. destruct (decide _); lia. Qed.
Lemma hook_loop_writes n : forall fuel r outss f p c, ring_wf r -> held r = S n -> (n < fuel)%nat -> f !! p = Some c ->
  exists r', hook_loop fuel r outss f (Some (p, length c)) = (<[p := c ++ hooked outss (pending r)]> f, r') /\ ring_wf r' /\ pending r' = [].
Proof.
  induction n as [|n IH]; intros fuel r outss f p c W H Hf Hc; (destruct fuel as [|fuel]; [lia|]); cbn [hook_loop write_from_buffer];
    rewrite (write_loop_end _ _ _ c) by done; destruct (hook_step r _ W H) as (W' & Hn & ->);
    set (r' := MkRing _ _ _ _) in *; cbn [hooked]; set (e := fst (emitted (hd [] outss) _)).
  - rewrite decide_True by (by apply held_0). assert (P : pending r' = []) by (unfold pending; by rewrite Hn).
    exists r'. rewrite P. cbn [hooked]. rewrite app_nil_r. done.
  - rewrite decide_False by (intros E; apply held_0 in E; [congruence|done]).
    destruct (IH fuel r' (tail outss) (<[p := c ++ e]> f) p (c ++ e) W' Hn ltac:(lia) ltac:(apply lookup_insert_eq)) as (r2 & -> & W2 & P2).
    exists r2. rewrite insert_insert_eq, <- app_assoc. done.
Qed.

(** A new file for the request holds the blocks in the ring, which is empty
    then; no other file changes. *)
Lemma hook_modem_writes p outss w r : ring_wf r -> pending r <> [] -> files w !! p = None ->
  exists r', hook_modem p outss w r = (set_files (<[p := hooked outss (pending r)]> (files w)) w, r') /\ ring_wf r' /\ pending r' = [].
Proof.
  intros W Np Hp. destruct (held r) as [|n] eqn:H; [destruct Np; unfold pending; by rewrite H|].
  unfold hook_modem, creat, file_of. rewrite Hp. cbn [default]. destruct (held_end r W) as [_ Hb].
  destruct (hook_loop_writes n RING_BUFFER_NUM r outss (<[p := []]> (files w)) p [] W H ltac:(lia) ltac:(apply lookup_insert_eq)) as (r' & E & W' & P').
  exists r'. cbn [length] in E. unfold id. rewrite E, insert_insert_eq. done.
Qed.
(** Any file for it: only that file changes. *)
Lemma hook_loop_frame fuel : forall r outss f p off f' r', hook_loop fuel r outss f (Some (p, off)) = (f', r') -> forall q, q <> p -> f' !! q = f !! q.
Proof.
  induction fuel as [|fuel IH]; intros r outss f p off f' r' E q N; cbn [hook_loop write_from_buffer] in E; [by injection E as <- _|].
  destruct (write_loop _ f p off _ 0) as [[f1 off1] ret] eqn:Ew. apply write_loop_frame in Ew as [A _].
  destruct (decide _); [injection E as <- _; by apply A|]. rewrite (IH _ _ _ _ _ _ _ E q N). by apply A.
Qed.
Lemma hook_loop_ring n : forall fuel r outss f fd, ring_wf r -> held r = S n -> (n < fuel)%nat ->
  exists f' r', hook_loop fuel r outss f fd = (f', r') /\ ring_wf r' /\ pending r' = [].
Proof.
  induction n as [|n IH]; intros fuel r outss f fd W H Hf; (destruct fuel as [|fuel]; [lia|]); cbn [hook_loop];
    destruct (write_from_buffer _ f fd _) as [[f1 fd1] ret]; destruct (hook_step r _ W H) as (W' & Hn & _); set (r' := MkRing _ _ _ _) in *.
  - rewrite decide_True by (by apply held_0). exists f1, r'. split; [done|]. split; [done|]. unfold pending. by rewrite Hn.
  - rewrite decide_False by (intros E; apply held_0 in E; [congruence|done]). apply IH; [done|done|lia].
Qed.
Lemma hook_modem_stays p outss w r : ring_wf r -> pending r <> [] ->
  exists f r', hook_modem p outss w r = (set_files f w, r') /\ ring_wf r' /\ pending r' = [] /\ forall q, q <> p -> f !! q = files w !! q.
Proof.
  intros W Np. destruct (held r) as [|n] eqn:H; [destruct Np; unfold pending; by rewrite H|]. destruct (held_end r W) as [_ Hb].
  destruct (hook_loop_ring n RING_BUFFER_NUM r outss (creat (files w) p) (Some (p, 0%nat)) W H ltac:(lia)) as (f & r' & E & W' & P').
  exists f, r'. unfold hook_modem. rewrite E. split; [done|]. split; [done|]. split; [done|]. intros q N.
  rewrite (hook_loop_frame _ _ _ _ _ _ _ _ E q N). unfold creat. by apply lookup_insert_ne.
Qed.

(** ** The files of a round *)
Definition env_opens (e : env) : Prop := made e = true /\ opens e = true /\ stamp_opens e = true.
(** [p] is the path of the log, and what is open, if anything is. *)
Definition open_at (p : text) (w : world) (i : slog_info) : Prop := gen_logfile true w i = Done p /\ forall q off, fd_out i = Some (q, off) -> q = p.
Definition moves (p : text) (w : world) (i : slog_info) (w' : world) (i' : slog_info) : Prop := open_at p w' i' /\ only_files p w w'.

Lemma only_append p s w : only_files p w (set_files (append (files w) p s) w).
Proof. apply only_insert. Qed.
Lemma gen_outfd_moves e w i p : env_opens e -> gen_logfile true w i = Done p ->
  exists w' i', gen_outfd e w i = Done (w', i') /\ moves p w i w' i' /\ same_place w w' /\ same_stream i i'.
Proof.
  intros (E1 & E2 & E3) G. unfold gen_outfd. rewrite E1, G. cbn [mbind run_bind].
  assert (exists f, write_modem_timestamp e i p (files w) = Done f /\ only_files p w (set_files f w)) as (f & -> & O).
  { unfold write_modem_timestamp. destruct (negb _); [by exists (files w)|]. destruct (mstamp e) as [s|]; [|by exists (files w)].
    rewrite E3. eexists. split; [reflexivity|]. apply only_append. }
  cbn [mbind run_bind]. rewrite E2. cbn [negb]. eexists _, _. split; [reflexivity|]. split; [|done]. split; [split; [exact G|intros q off [= <- _]; done]|].
  etrans; [exact O|]. apply (only_insert p _ (set_files f w)).
Qed.
Lemma size_handler_moves e w i p : env_opens e -> open_at p w i -> exists w' i', log_size_handler e w i = Done (w', i') /\ moves p w i w' i'.
Proof.
  intros E [G F]. unfold log_size_handler. destruct (_ >=? _); [|by exists w, i]. destruct (rolls w i) as [n|] eqn:R.
  - unfold rotatelogs. rewrite (proj1 E), G. cbn [mbind run_bind]. set (f := file_name_rotate _ _ _ _). pose proof (rolls_bound _ _ _ R).
    destruct (gen_outfd_moves e (set_files f w) i p E G) as (w' & i' & -> & [[G' F'] O] & _). cbn [mbind run_bind].
    eexists _, _. split; [reflexivity|]. split; [split; [exact G'|exact F']|]. intros q Q. rewrite O by done. cbn. apply rotate_frame.
    intros k Hk. apply Q. lia.
  - eexists _, _. split; [reflexivity|]. split; [|done]. split; [exact G|]. intros q off. cbn [fd_out set_out]. destruct (fd_out i) as [[q' o]|] eqn:Ef; [|done].
    intros [= <- _]. by eapply F.
Qed.
Lemma log_block_moves x b w i p : env_opens (sys x) -> open_at p w i -> exists w' i', log_block x b w i = Done (w', i') /\ moves p w i w' i'.
Proof.
  intros E [G F]. unfold log_block. destruct (fd_out i) as [[q off]|] eqn:Ef; [|exists w, i; repeat split; [done|by rewrite Ef]].
  assert (q = p) as -> by (by eapply F). cbn [write_from_buffer]. destruct (write_loop _ _ p off b 0) as [[f off'] ret] eqn:Ew.
  apply write_loop_frame in Ew as [A _]. set (i1 := set_out _ _ _). destruct (size_handler_moves (sys x) (set_files f w) i1 p E) as (w' & i' & El & M & O).
  { split; [exact G|]. by intros q o [= <- _]. }
  exists w', i'. split; [done|]. split; [done|]. intros q Q. rewrite O by done. apply A. intros ->. by apply (Q 0%nat); [lia|].
Qed.

Definition dump_ok (d : dump) : Prop := shark d = true -> is_Some (memory d).
Lemma device_open ok i : same_stream i (open_device ok i) /\ fd_out (open_device ok i) = fd_out i.
Proof. by destruct ok. Qed.
Lemma dump_loop_moves d evs : dump_ok d -> forall n f p off i, exists f' i', dump_loop d evs n f (Some (p, off)) i = Done (f', i') /\
  (forall q, q <> p -> q <> memory_path d -> f' !! q = f !! q) /\ same_stream i i' /\ fd_out i' = fd_out i.
Proof.
  intros Ok. induction evs as [|[|ok| |b outs] evs IH]; intros n f p off i; cbn [dump_loop]; [by exists f, i| | |by apply IH|].
  - destruct (Nat.ltb n 10 && shark d) eqn:E; [|by exists f, i]. apply andb_true_iff in E as [_ Sh]. destruct (Ok Sh) as [m Hm].
    unfold handle_dump_shark_modem_memory. rewrite Hm. cbn [mbind run_bind]. eexists _, i. split; [reflexivity|]. split; [|done].
    intros q _ N. by apply lookup_insert_ne.
  - destruct (IH n f p off (open_device ok i)) as (f' & i' & -> & A & S & F). destruct (device_open ok i) as [S1 F1]. exists f', i'.
    split; [done|]. split; [done|]. split; [by etrans|congruence].
  - cbn [write_from_buffer]. destruct (write_loop outs f p off b 0) as [[f1 off1] ret] eqn:Ew. apply write_loop_frame in Ew as [B _].
    destruct (IH (S n) f1 p off1 i) as (f' & i' & -> & A & S & F). exists f', i'. split; [done|]. split; [|done].
    intros q N1 N2. rewrite A by done. by apply B.
Qed.
Lemma tries_stream l i : same_stream i (foldl (fun i ok => open_device ok i) i l) /\ fd_out (foldl (fun i ok => open_device ok i) i l) = fd_out i.
Proof.
  revert i. induction l as [|ok l IH]; intros i; [done|]. cbn [foldl]. destruct (IH (open_device ok i)) as [S F]. destruct (device_open ok i) as [S1 F1].
  split; [by etrans|congruence].
Qed.
Lemma same_open p w w' i i' : open_at p w i -> same_place w w' -> same_stream i i' -> fd_out i' = fd_out i -> open_at p w' i'.
Proof. intros [G F] P S E. split; [by rewrite (logfile_same w w' i i')|]. by rewrite E. Qed.
Lemma dump_moves d w i p : dump_ok d -> open_at p w i -> exists w' i', handle_dump_modem_file d w i = Done (w', i') /\ open_at p w' i' /\
  forall q, q <> dump_path d -> q <> memory_path d -> files w' !! q = files w !! q.
Proof.
  intros Ok O. unfold handle_dump_modem_file. destruct (tries_stream (tries d) i) as [S F]. set (i1 := foldl _ i (tries d)) in *.
  destruct (dump_opens d); [|exists w, i1; split; [done|]; split; [by eapply same_open|done]].
  destruct (dump_loop_moves d (dump_events d) Ok 0 (creat (files w) (dump_path d)) (dump_path d) 0 i1) as (f & i2 & -> & A & S2 & F2).
  cbn [mbind run_bind]. eexists _, _. split; [reflexivity|]. split; [eapply same_open; [done|done|by etrans|congruence]|].
  intros q N1 N2. cbn. rewrite A by done. unfold creat. by apply lookup_insert_ne.
Qed.

(** ** Rounds *)
Record turn_ok (t : turn) : Prop := {
  ok_dump : forall d, dumped t = Some d -> dump_ok d;
  ok_block : forall d, got t = Block d -> (length d <= SINGLE_BUFFER_SIZE)%nat;
  ok_env : env_opens (sys (log_io t));
  ok_hook : forall q ok outss, hook t = Some (q, ok, outss) -> ok = true }.
(** The other files of a round. *)
Definition dump_paths (t : turn) : list text := match dumped t with Some d => [dump_path d; memory_path d] | None => [] end.
Definition turn_paths (t : turn) : list text := dump_paths t ++ match hook t with Some (q, _, _) => [q] | None => [] end.
(** The blocks that are kept: the last ones since the last request. *)
Definition kept_step (l : list text) (t : turn) : list text :=
  match got t with
  | Block d => match hook t with Some _ => [] | None => recent (l ++ [d]) end
  | _ => l
  end.

Lemma turn_dump t w i p : turn_ok t -> open_at p w i -> exists w' i',
  match dumped t with Some d => handle_dump_modem_file d w i | None => Done (w, i) end = Done (w', i') /\ open_at p w' i' /\
  forall q, q ∉ dump_paths t -> files w' !! q = files w !! q.
Proof.
  intros Ok O. unfold dump_paths. destruct (dumped t) as [d|] eqn:E; [|by exists w, i]. destruct (dump_moves d w i p (ok_dump t Ok d E) O) as (w' & i' & -> & O' & A).
  exists w', i'. split; [done|]. split; [done|]. intros q Q. apply not_elem_of_cons in Q as [N1 Q]. apply not_elem_of_cons in Q as [N2 _]. by apply A.
Qed.
(** Up to the request. *)
Lemma turn_block t s p d : turn_ok t -> open_at p (mworld s) (minfo s) -> ring_wf (mring s) -> got t = Block d -> exists w i,
  modem_turn t s = (let r := ring_advance (ring_read d (mring s)) in match hook t with
    | None => Done (MkModem w i r, true)
    | Some (q, true, outss) => let '(w, r) := hook_modem q outss w r in Done (MkModem w i r, true)
    | Some (_, false, _) => Done (MkModem w i r, false)
    end) /\ open_at p w i /\
  forall q, (forall k, (k <= 9)%nat -> q <> rolled p k) -> q ∉ dump_paths t -> files w !! q = files (mworld s) !! q.
Proof.
  intros Ok O W G. destruct (turn_dump t _ _ p Ok O) as (w1 & i1 & E1 & O1 & A1). unfold modem_turn. rewrite E1. cbn [mbind run_bind]. rewrite G.
  rewrite (proj2 (Nat.ltb_ge _ _)) by (by apply (ok_block t Ok)).
  destruct (log_block_moves (log_io t) (place (ring_read d (mring s)) (buffer_end (ring_read d (mring s)))) w1 i1 p (ok_env t Ok) O1) as (w2 & i2 & -> & O2 & F2).
  exists w2, i2. split; [done|]. split; [done|]. intros q Q D. rewrite F2 by done. by apply A1.
Qed.
Lemma recent_snoc l d : recent (l ++ [d]) <> [].
Proof.
  intros E. apply (f_equal length) in E. unfold recent in E. rewrite length_drop, length_app in E. cbn in E. unfold RING_BUFFER_NUM in E. lia.
Qed.

Definition round_state (p : text) (l : list text) (s : modem) : Prop := open_at p (mworld s) (minfo s) /\ ring_wf (mring s) /\ pending (mring s) = l.
Lemma turn_kept t s p l : turn_ok t -> round_state p l s -> exists s', modem_turn t s = Done (s', true) /\ round_state p (kept_step l t) s' /\
  forall q, (forall k, (k <= 9)%nat -> q <> rolled p k) -> q ∉ turn_paths t -> files (mworld s') !! q = files (mworld s) !! q.
Proof.
  intros Ok (O & W & P). unfold kept_step, turn_paths. destruct (got t) as [|again ok|d] eqn:G.
  1,2: destruct (turn_dump t _ _ p Ok O) as (w1 & i1 & E1 & O1 & A1); unfold modem_turn; rewrite E1; cbn [mbind run_bind]; rewrite G;
    eexists; split; [reflexivity|]; split; [split; [|done]; cbn|intros q _ Q; apply not_elem_of_app in Q as [Q _]; by apply A1].
  - done.
  - destruct again; [done|]. destruct (device_open ok i1). by eapply same_open.
  - destruct (turn_block t s p d Ok O W G) as (w & i & -> & O1 & A1). cbn zeta. set (r := ring_advance _).
    assert (Wr : ring_wf r) by (by apply advance_wf, read_wf). assert (Pr : pending r = recent (l ++ [d])) by (unfold r; by rewrite pending_read, P).
    destruct (hook t) as [[[q ok] outss]|] eqn:H.
    + rewrite (ok_hook t Ok q ok outss H). destruct (hook_modem_stays q outss w r Wr ltac:(rewrite Pr; apply recent_snoc)) as (f & r' & -> & W' & P' & A).
      eexists. split; [reflexivity|]. split; [done|]. intros q' Q D. apply not_elem_of_app in D as [D1 D2]. cbn. rewrite A by set_solver. by apply A1.
    + eexists. split; [reflexivity|]. split; [done|]. intros q Q D. rewrite app_nil_r in D. by apply A1.
Qed.
Lemma run_kept ts : forall s p l, Forall turn_ok ts -> round_state p l s -> exists s', modem_run ts s = Done (s', true) /\
  round_state p (foldl kept_step l ts) s' /\
  forall q, (forall k, (k <= 9)%nat -> q <> rolled p k) -> Forall (fun t => q ∉ turn_paths t) ts -> files (mworld s') !! q = files (mworld s) !! q.
Proof.
  induction ts as [|t ts IH]; intros s p l Ok R; [by exists s|]. apply List.Forall_cons_iff in Ok as [O1 Os].
  destruct (turn_kept t s p l O1 R) as (s1 & E1 & R1 & A1). destruct (IH s1 p _ Os R1) as (s2 & E2 & R2 & A2). exists s2. cbn [modem_run].
  rewrite E1. cbn [mbind run_bind]. split; [done|]. split; [done|]. intros q Q F. apply List.Forall_cons_iff in F as [F1 Fs]. rewrite A2 by done. by apply A1.
Qed.
Lemma run_app ts ts' s s' : modem_run ts s = Done (s', true) -> modem_run (ts ++ ts') s = modem_run ts' s'.
Proof.
  revert s. induction ts as [|t ts IH]; intros s E; cbn in E |- *; [by injection E as ->|].
  destruct (modem_turn t s) as [[s1 go]| |]; cbn in E |- *; [|done|done]. destruct go; [by apply IH|done].
Qed.
Lemma ring0_wf : ring_wf ring0.
Proof. split; done || (cbn; unfold RING_BUFFER_NUM; lia). Qed.

(** C10: a request for the modem's log gets the latest of it.  The ring of 128
    places implements the bounded list of the blocks that have arrived since the
    previous request, of which the last 127 count: whatever blocks, errors of the
    device, dumps, full log files and requests came before, the file that is made
    for a request under a new name holds exactly these blocks, the newest
    included, in the order they came in (as far as [write] takes them), and the
    thread runs on with an empty ring. *)
Theorem modem_hook_recent ts t d q outss w i p : Forall turn_ok ts -> turn_ok t -> open_at p w i ->
  got t = Block d -> hook t = Some (q, true, outss) ->
  files w !! q = None -> (forall k, (k <= 9)%nat -> q <> rolled p k) -> Forall (fun t => q ∉ turn_paths t) ts -> q ∉ dump_paths t ->
  exists s, modem_run (ts ++ [t]) (MkModem w i ring0) = Done (s, true) /\
    files (mworld s) !! q = Some (hooked outss (recent (foldl kept_step [] ts ++ [d]))) /\ pending (mring s) = [].
Proof.
  intros Os Ot O G H Nq Q Ps Pt. destruct (run_kept ts (MkModem w i ring0) p [] Os) as (s1 & E1 & (O1 & W1 & P1) & A1); [split; [done|split; [apply ring0_wf|done]]|].
  rewrite (run_app _ _ _ _ E1). cbn [modem_run]. destruct (turn_block t s1 p d Ot O1 W1 G) as (w2 & i2 & -> & O2 & A2). cbn zeta. rewrite H.
  set (r := ring_advance _). assert (Wr : ring_wf r) by (by apply advance_wf, read_wf).
  assert (Pr : pending r = recent (foldl kept_step [] ts ++ [d])) by (unfold r; by rewrite pending_read, P1).
  destruct (hook_modem_writes q outss w2 r Wr) as (r' & -> & W' & P'); [rewrite Pr; apply recent_snoc|by rewrite A2, A1|].
  cbn [mbind run_bind]. eexists. split; [reflexivity|]. split; [|exact P'].
  cbn [mworld files set_files]. by rewrite lookup_insert_eq, Pr.
Qed.

Definition modem_info : slog_info := MkInfo SLOG_TYPE_STREAM 0 7 0 [] 0 (chars "modem") (chars "modem") (chars "modem") [] true (Some (chars "/data/slog/20130101/modem/modem.log", 3%nat)) 3.
Definition modem_path : text := chars "/data/slog/20130101/modem/modem.log".
Definition modem_world : world := MkWorld {[modem_path := chars "old"]} (chars "/data/slog") (chars "20130101") 10240.
Definition block_turn (b : string) : turn := MkTurn None (Block (chars b)) quiet None.
Definition hook_path : text := chars "/data/log/modem_20130101000000.log".
Definition hook_turn (b : string) : turn := MkTurn None (Block (chars b)) quiet (Some (hook_path, true, [])).
#[local] Transparent SINGLE_BUFFER_SIZE.
Lemma small_block t b : dumped t = None -> got t = Block (chars b) -> (length (chars b) <= 100)%nat -> log_io t = quiet ->
  (forall q ok outss, hook t = Some (q, ok, outss) -> ok = true) -> turn_ok t.
Proof.
  intros D G L Q H. split; [congruence| |by rewrite Q|done]. intros d E. rewrite G in E. injection E as <-.
  unfold SINGLE_BUFFER_SIZE. lia.
Qed.

Lemma modem_hook_recent_witness : exists s, modem_run ([block_turn "one"; MkTurn None Idle quiet None; block_turn "two"] ++ [hook_turn "three"]) (MkModem modem_world modem_info ring0) = Done (s, true) /\
  files (mworld s) !! hook_path = Some (hooked [] (recent (foldl kept_step [] [block_turn "one"; MkTurn None Idle quiet None; block_turn "two"] ++ [chars "three"]))) /\ pending (mring s) = [].
Proof.
  apply (modem_hook_recent [block_turn "one"; MkTurn None Idle quiet None; block_turn "two"] (hook_turn "three") (chars "three") hook_path [] modem_world modem_info modem_path).
  - constructor; [apply (small_block _ "one"); cbn; done || lia|]. constructor; [split; done|]. constructor; [apply (small_block _ "two"); cbn; done || lia|constructor].
  - apply (small_block _ "three"); cbn; [done|done|lia|done|]. by intros ? ? ? [= <- <- <-].
  - split; [reflexivity|]. by intros q off [= <- _].
  - reflexivity.
  - reflexivity.
  - reflexivity.
  - intros k Hk E. apply (log_rolled hook_path modem_path (k - 1)); [by exists (chars "/data/log/modem_20130101000000")| |]; destruct k; try lia; [discriminate E|].
    by replace (S (S k - 1)) with (S k) by lia.
  - repeat constructor; apply not_elem_of_nil.
  - apply not_elem_of_nil.
Defined.

(** When the file of a request can not be opened, the thread ends and with it
    the log of the modem. *)
Lemma hook_failure_stops t ts s p d q outss : turn_ok (MkTurn (dumped t) (got t) (log_io t) None) -> open_at p (mworld s) (minfo s) -> ring_wf (mring s) ->
  got t = Block d -> hook t = Some (q, false, outss) -> exists s', modem_run (t :: ts) s = Done (s', false).
Proof.
  intros Ok O W G H. destruct (turn_block _ s p d Ok O W G) as (w & i & E & _). unfold modem_turn in E. cbn [dumped got log_io hook] in E.
  cbn [modem_run]. unfold modem_turn. rewrite G in E |- *.
  destruct (match dumped t with Some _ => _ | None => _ end) as [[w1 i1]| |]; cbn [mbind run_bind] in E |- *; [|done|done].
  destruct (Nat.ltb _ _); [done|]. destruct (log_block _ _ _ _) as [[w2 i2]| |]; cbn [mbind run_bind] in E |- *; [|done|done].
  rewrite H. by eexists.
Qed.
(** A modem that comes back gets a new thread. *)
Lemma alive_restarts x a b : contains a (chars "Modem Assert") = true -> contains b (chars "Modem Assert") = false -> contains b (chars "Modem Alive") = true ->
  reset x <> 0 -> alive (modem_message a x) = false /\ alive (modem_message b (modem_message a x)) = true.
Proof.
  intros A B1 B2 R. unfold modem_message at 1 3. rewrite A, (proj2 (Z.eqb_neq _ _)) by done. split; [done|]. unfold modem_message. by rewrite B1, B2.
Qed.
(** But not when both messages are found in one read. *)
Lemma alive_lost : alive (modem_message (chars "Modem Assert" ++ chars "Modem Alive") (MkWatch 1 false false true)) = false.
Proof. reflexivity. Qed.
