(* ===== verification/SlogSnap.v ===== *)
(** The system log daemon, the snapshots: tools/slog/handler.c, the thread that
    records the outputs of commands and the contents of files at intervals, and
    the limit on the records for changes in watched directories. *)
From S2P Require Import Prelude TextConf SlogConf SlogOut.

(** ** A record *)

(** What the system answers: [mkdir], [fopen], the time, and the output of the
    command or the content of the file. *)
Record snap_env := MkSnapEnv { smade : bool; sopens : bool; sstamp : text; found : option text }.
Definition record_snap (x : snap_env) (w : world) (i : slog_info) : run world :=
  p ← gen_logfile_in 4096 (smade x) w i;
  if negb (sopens x) then Quit else
  let f := append (append (files w) p (stamp_line (sstamp x))) p (default [] (found x)) in
  if starts (opt i) "cmd" then
    if Nat.ltb (length (content i ++ chars " >> " ++ p)) MAX_NAME_LEN then Done (set_files f w) else Bad
  else Done (set_files f w).

(** ** The thread *)

(** The entries above the level, and the ones for commands of the user, are
    passed over. *)
Definition active (lvl : Z) (i : slog_info) : bool := negb (level i >? lvl) && negb (interval i =? 0).
(** [state] holds the time since the last record. *)
Definition passed (secs : Z) (i : slog_info) : Z := s32 (state i + secs).
Definition is_due (secs : Z) (i : slog_info) : bool := passed secs i >=? interval i.
Definition after_pass (secs : Z) (i : slog_info) : slog_info := set_state (if is_due secs i then 0 else passed secs i) i.
Definition update_next (next tmp : Z) : Z := if (tmp <? next) || (next =? 0) then tmp else next.

(** A pass over the list from place [k]: the files, the entries, the places
    that were recorded and the time to sleep. *)
Fixpoint snap_pass (lvl secs : Z) (xs : nat -> snap_env) (k : nat) (w : world) (infos : list slog_info) (next : Z) : run (world * list slog_info * list nat * Z) :=
  match infos with
  | [] => Done (w, [], [], next)
  | i :: infos =>
    if active lvl i then
      w ← (if is_due secs i then record_snap (xs k) w (after_pass secs i) else Done w);
      let i' := after_pass secs i in
      '(w, infos, due, next) ← snap_pass lvl secs xs (S k) w infos (update_next next (s32 (interval i - state i')));
      Done (w, i' :: infos, (if is_due secs i then [k] else []) ++ due, next)
    else
      '(w, infos, due, next) ← snap_pass lvl secs xs (S k) w infos next;
      Done (w, i :: infos, due, next)
  end.

(** [now]: the seconds slept so far, at the last pass; [history]: the times and
    places of the records. *)
Record snap := MkSnap { now : Z; sleep_secs : Z; sworld : world; sinfos : list slog_info; history : list (Z * nat) }.
Definition snap_start (w : world) (infos : list slog_info) : snap := MkSnap 0 0 w infos [].
(** What the thread meets between two passes: after how many seconds of its
    sleep it found [slog_enable] off, if it did; what the test of the loop finds;
    and the system during the pass. *)
Record tick := MkTick { seen_off : option nat; enabled : bool; answers : nat -> snap_env }.
(** A time below zero is not slept; a sleep that is cut short still counts in
    full for the entries. *)
Definition snap_round (lvl : Z) (t : tick) (s : snap) : run (snap * bool) :=
  let slept := match seen_off t with Some n => Z.min (Z.of_nat n) (Z.max 0 (sleep_secs s)) | None => Z.max 0 (sleep_secs s) end in
  let now := now s + slept in
  '(w, infos, due, next) ← snap_pass lvl (sleep_secs s) (answers t) 0 (sworld s) (sinfos s) 0;
  Done (MkSnap now next w infos (history s ++ ((fun k => (now, k)) <$> due)), negb (next =? 0)).
(** The state behind the last pass, and whether the thread goes on. *)
Fixpoint snap_rounds (lvl : Z) (ts : list tick) (s : snap) : run (snap * bool) :=
  match ts with
  | [] => Done (s, true)
  | t :: ts =>
    if negb (enabled t) then Done (s, false)
    else '(s, go) ← snap_round lvl t s; if go : bool then snap_rounds lvl ts s else Done (s, false)
  end.
(** [None]: the thread ends at once.  [misc]: on, and its level. *)
Definition snapshot_log_handler (misc : slog_info) (ts : list tick) (w : world) (infos : list slog_info) : run (option (snap * bool)) :=
  if negb (state misc =? SLOG_STATE_ON) then Done None
  else match infos with [] => Done None | _ => r ← snap_rounds (level misc) ts (snap_start w infos); Done (Some r) end.

(** ** Watched directories *)

(** The times of the last record of each entry ([interval] is its watch); a
    change is taken up when more than 20 seconds have passed.  [sec]: the time,
    [after]: the times when the entry is looked at again, after its record. *)
Record watch_info := MkWatchInfo { wd : Z; last_sec : Z }.
Fixpoint handle_notify_file (after : list Z) (w : Z) (sec : Z) (infos : list watch_info) : list watch_info * list Z :=
  match infos with
  | [] => ([], [])
  | i :: rest =>
    if negb (w =? wd i) then let '(rest, l) := handle_notify_file after w sec rest in (i :: rest, l)
    else
      (fix again (after : list Z) (sec : Z) (i : watch_info) :=
         if sec >? last_sec i + 20 then
           match after with
           | [] => (MkWatchInfo (wd i) sec :: rest, [sec])
           | t :: after => let '(infos, l) := again after t (MkWatchInfo (wd i) sec) in (infos, sec :: l)
           end
         else (i :: rest, [])) after sec i
  end.

(** ** Records *)
Definition env_fine (x : snap_env) : Prop := smade x = true /\ sopens x = true.
(** The path and the command fit in their buffers. *)
Definition fits (w : world) (i : slog_info) : Prop := exists p, gen_logfile_in 4096 true w i = Done p /\
  (starts (opt i) "cmd" = true -> (length (content i ++ chars " >> " ++ p) < MAX_NAME_LEN)%nat).
Lemma record_snap_fine x w i : env_fine x -> fits w i -> exists p, gen_logfile_in 4096 true w i = Done p /\
  record_snap x w i = Done (set_files (<[p := file_of (files w) p ++ stamp_line (sstamp x) ++ default [] (found x)]> (files w)) w).
Proof.
  intros [E1 E2] (p & G & C). exists p. split; [done|]. unfold record_snap. rewrite E1, G. cbn [mbind run_bind]. rewrite E2. cbn [negb].
  assert (F : append (append (files w) p (stamp_line (sstamp x))) p (default [] (found x)) = <[p := file_of (files w) p ++ stamp_line (sstamp x) ++ default [] (found x)]> (files w)).
  { unfold append, file_of. rewrite lookup_insert_eq, insert_insert_eq. cbn [default]. unfold id. by rewrite <- app_assoc. }
  rewrite F. destruct (starts (opt i) "cmd"); [|done]. by rewrite (proj2 (Nat.ltb_lt _ _)) by (by apply C).
Qed.
Lemma fits_same w w' i st : same_place w w' -> fits w i -> fits w' (set_state st i).
Proof. intros P (p & G & C). exists p. split; [|done]. by rewrite (logfile_same_in 4096 w w' i (set_state st i) P). Qed.

(** ** The schedule *)
Definition paced (i : slog_info) : Prop := 0 < interval i < 2 ^ 31.
(** What a pass needs of an entry. *)
Record ready (lvl secs : Z) (w : world) (i : slog_info) : Prop := {
  r_paced : active lvl i = true -> paced i;
  r_state : active lvl i = true -> 0 <= state i /\ state i + secs <= interval i;
  r_fits : active lvl i = true -> fits w i }.
Definition stepped (lvl secs : Z) (i : slog_info) : slog_info := if active lvl i then after_pass secs i else i.
Definition recorded (lvl secs : Z) (i : slog_info) : bool := active lvl i && is_due secs i.
Definition left_over (lvl : Z) (i : slog_info) : Z := interval i - state i.

Lemma passed_small secs i : paced i -> 0 <= secs -> 0 <= state i -> state i + secs <= interval i -> passed secs i = state i + secs.
Proof. intros P S H1 H2. unfold passed. apply s32_small. unfold paced in P. lia. Qed.
Lemma stepped_state lvl secs i w : 0 <= secs -> ready lvl secs w i -> active lvl i = true ->
  0 <= state (after_pass secs i) < interval i /\ is_due secs i = (state i + secs =? interval i) /\
  state (after_pass secs i) = if state i + secs =? interval i then 0 else state i + secs.
Proof.
  intros S [P St _] A. specialize (P A). specialize (St A). unfold after_pass, is_due. rewrite passed_small by (done || lia). cbn [state set_state].
  unfold paced in P. destruct (Z.eqb_spec (state i + secs) (interval i)) as [E|N].
  - rewrite Z.geb_leb, (proj2 (Z.leb_le _ _)) by lia. lia.
  - rewrite Z.geb_leb, (proj2 (Z.leb_gt _ _)) by lia. lia.
Qed.
Lemma stepped_same lvl secs i : active lvl (stepped lvl secs i) = active lvl i /\ interval (stepped lvl secs i) = interval i.
Proof. unfold stepped. by destruct (active lvl i) eqn:A. Qed.

(** The times of the records at a place. *)
Definition times (k : nat) (h : list (Z * nat)) : list Z := omap (fun e => if decide (e.2 = k) then Some e.1 else None) h.
Lemma times_app k h h' : times k (h ++ h') = times k h ++ times k h'.
Proof. apply omap_app. Qed.
Lemma update_next_le next tmp : 0 <= next -> 0 < tmp -> 0 < update_next next tmp <= tmp /\ (0 < next -> update_next next tmp <= next).
Proof. intros H T. unfold update_next. destruct (tmp <? next) eqn:E1, (next =? 0) eqn:E2; cbn [orb]; lia. Qed.

Lemma times_place (f : slog_info -> bool) t j k i infos b : f i = b ->
  times j ((fun k => (t, k)) <$> (if b then [k] else [])) ++
    (if decide (S k <= j)%nat then match infos !! (j - S k)%nat with Some i => if f i then [t] else [] | None => [] end else []) =
  if decide (k <= j)%nat then match (i :: infos) !! (j - k)%nat with Some i => if f i then [t] else [] | None => [] end else [].
Proof.
  intros Hb. assert (Tk : times j ((fun k => (t, k)) <$> (if b then [k] else [])) = if b then if decide (k = j) then [t] else [] else []) by (destruct b; cbn; [by destruct (decide (k = j))|done]).
  rewrite Tk. destruct (decide (k = j)) as [->|Nj].
  - rewrite decide_False, decide_True, Nat.sub_diag by lia. rewrite app_nil_r. cbn. by rewrite Hb.
  - destruct (decide (S k <= j)%nat).
    + rewrite (decide_True _ _ (P := (k <= j)%nat)) by lia. replace (j - k)%nat with (S (j - S k)) by lia. by destruct b.
    + rewrite (decide_False _ _ (P := (k <= j)%nat)) by lia. by destruct b.
Qed.
Lemma pass_runs lvl secs xs infos : 0 <= secs -> (forall k, env_fine (xs k)) -> forall k w next, Forall (ready lvl secs w) infos -> 0 <= next ->
  exists w' due next', snap_pass lvl secs xs k w infos next = Done (w', stepped lvl secs <$> infos, due, next') /\ same_place w w' /\ 0 <= next' /\
    (0 < next -> 0 < next' <= next) /\
    Forall (fun i => active lvl i = true -> 0 < next' <= interval i - state i) (stepped lvl secs <$> infos) /\
    (forall t j, times j ((fun k => (t, k)) <$> due) = if decide (k <= j)%nat then match infos !! (j - k)%nat with Some i => if recorded lvl secs i then [t] else [] | None => [] end else []).
Proof.
  intros Hs X. induction infos as [|i infos IH]; intros k w next F N; cbn [snap_pass].
  { exists w, [], next. repeat split; try done || lia. intros t j. by destruct (decide _). }
  apply List.Forall_cons_iff in F as [Fi F]. unfold recorded, stepped in *. destruct (active lvl i) eqn:A.
  - destruct (stepped_state lvl secs i w Hs Fi A) as (B & _ & _). set (i' := after_pass secs i) in *.
    assert (exists w1, (if is_due secs i then record_snap (xs k) w i' else Done w) = Done w1 /\ same_place w w1) as (w1 & -> & P1).
    { destruct (is_due secs i); [|by exists w]. destruct (record_snap_fine (xs k) w i' (X k)) as (p & _ & ->); [|by eexists].
      by apply (fits_same w w); [|apply (r_fits _ _ _ _ Fi)]. }
    cbn [mbind run_bind]. destruct (r_paced _ _ _ _ Fi A) as [P0 P31]. rewrite (s32_small (interval i - state i')) by lia.
    destruct (update_next_le next (interval i - state i') N ltac:(lia)) as [U1 U2].
    destruct (IH (S k) w1 (update_next next (interval i - state i'))) as (w2 & due & next' & -> & P2 & N' & L & Fa & T); [|lia|].
    { eapply Forall_impl; [|exact F]. intros x [R1 R2 R3]. split; [done|done|]. intros Ax. destruct (R3 Ax) as (p & G & C). exists p.
      split; [by rewrite (logfile_same_in 4096 w w1 x x P1)|done]. }
    cbn [mbind run_bind]. eexists w2, _, next'. split; [cbn [fmap list_fmap]; rewrite A; reflexivity|]. split; [by etrans|]. split; [done|].
    specialize (L ltac:(lia)). split; [intros Hn; specialize (U2 Hn); lia|]. split.
    + cbn [fmap list_fmap]. rewrite A. constructor; [|exact Fa]. intros _. change (0 < next' <= interval i - state i'). lia.
    + intros t j. rewrite fmap_app, times_app, T. apply (times_place (fun i => active lvl i && is_due secs i)). by rewrite A.
  - destruct (IH (S k) w next F N) as (w2 & due & next' & -> & P2 & N' & L & Fa & T). cbn [mbind run_bind].
    eexists w2, _, next'. split; [cbn [fmap list_fmap]; rewrite A; reflexivity|]. split; [done|]. split; [done|]. split; [done|]. split.
    + cbn [fmap list_fmap]. rewrite A. constructor; [congruence|exact Fa].
    + intros t j. rewrite T. apply (times_place (fun i => active lvl i && is_due secs i) t j k i infos false). by rewrite A.
Qed.

(** The time to sleep is that of an entry. *)
Lemma pass_attained lvl secs xs infos : forall k w next w' infos' due next', snap_pass lvl secs xs k w infos next = Done (w', infos', due, next') ->
  next' = next \/ exists i, i ∈ infos' /\ active lvl i = true /\ next' = s32 (interval i - state i).
Proof.
  induction infos as [|i infos IH]; intros k w next w' infos' due next' E; cbn [snap_pass] in E; [injection E as <- <- <- <-; by left|].
  destruct (active lvl i) eqn:A.
  - destruct (if is_due secs i then record_snap _ _ _ else Done w) as [w1| |]; [|done..]. cbn [mbind run_bind] in E.
    set (i' := after_pass secs i) in *. destruct (snap_pass _ _ _ _ _ _ _) as [[[[w2 r] d] n]| |] eqn:E2; [|done..]. injection E as <- <- <- <-.
    destruct (IH _ _ _ _ _ _ _ E2) as [->|(x & Hx & Ax & ->)]; [|right; exists x; split; [by right|done]].
    unfold update_next. destruct (_ || _); [|by left]. right. exists i'. split; [by left|]. split; [exact A|done].
  - destruct (snap_pass _ _ _ _ _ _ _) as [[[[w2 r] d] n]| |] eqn:E2; [|done..]. injection E as <- <- <- <-.
    destruct (IH _ _ _ _ _ _ _ E2) as [->|(x & Hx & Ax & ->)]; [by left|right; exists x; split; [by right|done]].
Qed.

Definition multiples (n t : Z) : list Z := (fun j => j * n) <$> seqZ 1 (t / n).
Lemma multiples_same n t d : 0 < n -> 0 <= d -> t mod n + d < n -> multiples n (t + d) = multiples n t /\ (t + d) mod n = t mod n + d.
Proof.
  intros N D L. pose proof (Z.mod_pos_bound t n N). assert (E : t + d = (t mod n + d) + t / n * n) by (pose proof (Z.div_mod t n ltac:(lia)); lia).
  unfold multiples. rewrite E. rewrite Z.div_add, Z.div_small, Z.add_0_l by lia. split; [done|]. rewrite Z.mod_add, Z.mod_small by lia. done.
Qed.
Lemma multiples_next n t d : 0 < n -> 0 <= t -> t mod n + d = n -> multiples n (t + d) = multiples n t ++ [t + d] /\ (t + d) mod n = 0.
Proof.
  intros N T L. assert (E : t + d = (t / n + 1) * n) by (pose proof (Z.div_mod t n ltac:(lia)); lia).
  unfold multiples. rewrite E, Z.div_mul, Z.mod_mul by lia. split; [|done]. pose proof (Z.div_pos t n T N).
  rewrite seqZ_app by lia. rewrite fmap_app. by rewrite (Z.add_comm 1).
Qed.

(** [state] is the time since the last record, and the next pass does not come
    after the next record is due. *)
Record on_time (lvl : Z) (s : snap) (k : nat) (i : slog_info) : Prop := {
  t_paced : paced i;
  t_fits : fits (sworld s) i;
  t_state : state i = now s mod interval i;
  t_sleep : sleep_secs s <= interval i - state i;
  t_times : times k (history s) = multiples (interval i) (now s) }.
Record schedule (lvl : Z) (s : snap) : Prop := {
  s_now : 0 <= now s;
  s_sleep : 0 <= sleep_secs s;
  s_all : forall k i, sinfos s !! k = Some i -> active lvl i = true -> on_time lvl s k i }.

Lemma schedule_ready lvl s : schedule lvl s -> Forall (ready lvl (sleep_secs s) (sworld s)) (sinfos s).
Proof.
  intros [N S A]. apply Forall_lookup. intros k i Hi. split; intros Ha; destruct (A k i Hi Ha) as [P F St Sl _]; [done| |done].
  unfold paced in P. pose proof (Z.mod_pos_bound (now s) (interval i) ltac:(lia)). lia.
Qed.
Lemma round_on_time lvl s w' due next' k i : schedule lvl s -> sinfos s !! k = Some i -> active lvl i = true -> same_place (sworld s) w' ->
  next' <= interval i - state (after_pass (sleep_secs s) i) ->
  times k ((fun k => (now s + Z.max 0 (sleep_secs s), k)) <$> due) = (if is_due (sleep_secs s) i then [now s + Z.max 0 (sleep_secs s)] else []) ->
  on_time lvl (MkSnap (now s + Z.max 0 (sleep_secs s)) next' w' (stepped lvl (sleep_secs s) <$> sinfos s)
    (history s ++ ((fun k => (now s + Z.max 0 (sleep_secs s), k)) <$> due))) k (after_pass (sleep_secs s) i).
Proof.
  intros Sc Hi Ha P' Hn T. pose proof Sc as [N S A]. destruct (A k i Hi Ha) as [P F St Sl Ti]. pose proof (schedule_ready lvl s Sc) as R.
  rewrite Forall_lookup in R. specialize (R k i Hi). destruct (stepped_state lvl _ i _ S R Ha) as (B & D & V).
  rewrite Z.max_r in * by done. unfold paced in P. pose proof (Z.mod_pos_bound (now s) (interval i) ltac:(lia)).
  split; cbn [sworld now sleep_secs history]; [exact P|by apply (fits_same (sworld s))| |done|]; change (interval (after_pass (sleep_secs s) i)) with (interval i).
  - rewrite V. destruct (Z.eqb_spec (state i + sleep_secs s) (interval i)) as [E|Ne].
    + by rewrite (proj2 (multiples_next (interval i) (now s) (sleep_secs s) ltac:(lia) N ltac:(lia))).
    + rewrite (proj2 (multiples_same (interval i) (now s) (sleep_secs s) ltac:(lia) S ltac:(lia))). by rewrite St.
  - rewrite times_app, T, Ti, D. destruct (Z.eqb_spec (state i + sleep_secs s) (interval i)) as [E|Ne].
    + by rewrite (proj1 (multiples_next (interval i) (now s) (sleep_secs s) ltac:(lia) N ltac:(lia))).
    + rewrite (proj1 (multiples_same (interval i) (now s) (sleep_secs s) ltac:(lia) S ltac:(lia))). apply app_nil_r.
Qed.
(** What does not change of the entries. *)
Definition pace (lvl : Z) (i : slog_info) : bool * Z := (active lvl i, interval i).
(** The time [t + d] is a multiple of the interval of an active entry, and no
    time between is one. *)
Definition next_due (lvl : Z) (infos : list slog_info) (t d : Z) : Prop :=
  (exists x, x ∈ infos /\ active lvl x = true /\ (t + d) mod interval x = 0) /\
  (forall x u, x ∈ infos -> active lvl x = true -> t < u < t + d -> u mod interval x <> 0).
Lemma next_due_pace lvl infos infos' t d : pace lvl <$> infos' = pace lvl <$> infos -> next_due lvl infos' t d -> next_due lvl infos t d.
Proof.
  intros E [(x & Hx & Ax & Dx) N]. split.
  - assert (I : pace lvl x ∈ pace lvl <$> infos) by (rewrite <- E; by apply list_elem_of_fmap_2).
    apply list_elem_of_fmap in I as (y & [= Ay Iy] & Hy). exists y. split; [done|]. split; congruence.
  - intros y u Hy Ay Hu. assert (I : pace lvl y ∈ pace lvl <$> infos') by (rewrite E; by apply list_elem_of_fmap_2).
    apply list_elem_of_fmap in I as (x' & [= Ax' Ix] & Hx'). rewrite Ix. apply N; [done|congruence|done].
Qed.

Lemma between_multiples n t u d : 0 < n -> t < u < t + d -> d <= n - t mod n -> u mod n <> 0.
Proof.
  intros N H D E. pose proof (Z.mod_pos_bound t n N). pose proof (Z.div_mod t n ltac:(lia)). pose proof (Z.div_mod u n ltac:(lia)).
  assert (t / n < u / n) by nia. assert (u / n < t / n + 1) by nia. lia.
Qed.

Lemma round_schedule lvl t s : schedule lvl s -> (forall k, env_fine (answers t k)) -> seen_off t = None ->
  (exists i, i ∈ sinfos s /\ active lvl i = true) ->
  exists s', snap_round lvl t s = Done (s', true) /\ schedule lvl s' /\ now s' = now s + sleep_secs s /\ 1 <= sleep_secs s' /\
    pace lvl <$> sinfos s' = pace lvl <$> sinfos s /\ next_due lvl (sinfos s') (now s') (sleep_secs s').
Proof.
  intros Sc X Off (i & Hi & Ha). pose proof Sc as [N S A].
  destruct (pass_runs lvl (sleep_secs s) (answers t) (sinfos s) S X 0 (sworld s) 0 (schedule_ready lvl s Sc) ltac:(lia)) as (w' & due & next' & E & P & N' & _ & Fa & T).
  unfold snap_round. rewrite Off, E. cbn [mbind run_bind]. rewrite Forall_lookup in Fa.
  assert (Nx : forall j x, sinfos s !! j = Some x -> active lvl x = true -> 0 < next' <= interval x - state (after_pass (sleep_secs s) x)).
  { intros j x Hx Ax. specialize (Fa j (stepped lvl (sleep_secs s) x)). rewrite list_lookup_fmap, Hx in Fa. specialize (Fa eq_refl).
    unfold stepped in Fa. rewrite Ax in Fa. by apply Fa. }
  assert (Pos : 0 < next') by (apply list_elem_of_lookup in Hi as [k Hk]; by apply (Nx k i)).
  set (s' := MkSnap _ next' w' _ _). assert (Sc' : schedule lvl s').
  { split; [cbn; lia|done|]. intros j x Hx Ax. cbn [sinfos s'] in Hx. rewrite list_lookup_fmap in Hx. destruct (sinfos s !! j) as [y|] eqn:Hy; [|done]. injection Hx as <-.
    rewrite (proj1 (stepped_same lvl (sleep_secs s) y)) in Ax. pose proof (Nx j y Hy Ax). unfold s', stepped at 2. rewrite Ax.
    apply round_on_time; [done|done|done|done|lia|]. rewrite T, Nat.sub_0_r, decide_True, Hy by lia. unfold recorded. by rewrite Ax. }
  exists s'. split; [by rewrite (proj2 (Z.eqb_neq next' 0)) by lia|]. split; [done|]. split; [cbn; lia|]. split; [cbn; lia|]. split.
  - cbn [sinfos s']. rewrite <- list_fmap_compose. apply list_fmap_ext. intros _ x _. unfold compose, pace. by destruct (stepped_same lvl (sleep_secs s) x) as [-> ->].
  - destruct Sc' as [_ _ A']. split.
    + destruct (pass_attained _ _ _ _ _ _ _ _ _ _ _ E) as [?|(x & Hx & Ax & En)]; [lia|]. exists x. split; [done|]. split; [done|].
      apply list_elem_of_lookup in Hx as [k Hk]. destruct (A' k x Hk Ax) as [Px _ St _ _]. unfold paced in Px.
      assert (En' : sleep_secs s' = interval x - state x).
      { cbn [sleep_secs s']. rewrite En. apply s32_small. rewrite St. pose proof (Z.mod_pos_bound (now s') (interval x) ltac:(lia)). lia. }
      rewrite En', St. pose proof (Z.div_mod (now s') (interval x) ltac:(lia)).
      replace (now s' + (interval x - now s' mod interval x)) with ((now s' / interval x + 1) * interval x) by lia. apply Z.mod_mul. lia.
    + intros x u Hx Ax Hu. apply list_elem_of_lookup in Hx as [k Hk]. destruct (A' k x Hk Ax) as [Px _ St Sl _]. unfold paced in Px.
      apply (between_multiples (interval x) (now s') u (sleep_secs s')); [lia|lia|]. by rewrite <- St.
Qed.

(** The passes made before the log was switched off. *)
Fixpoint passes (ts : list tick) : list tick :=
  match ts with t :: ts => if enabled t then t :: passes ts else [] | [] => [] end.
Lemma rounds_schedule lvl ts : forall s, schedule lvl s -> Forall (fun t => (forall k, env_fine (answers t k)) /\ (enabled t = true -> seen_off t = None)) ts ->
  (exists i, i ∈ sinfos s /\ active lvl i = true) ->
  exists s', snap_rounds lvl ts s = Done (s', forallb enabled ts) /\ schedule lvl s' /\ pace lvl <$> sinfos s' = pace lvl <$> sinfos s /\
    (if decide (passes ts = []) then s' = s
     else now s + sleep_secs s + (zlen (passes ts) - 1) <= now s' /\ 1 <= sleep_secs s' /\ next_due lvl (sinfos s') (now s') (sleep_secs s')).
Proof.
  induction ts as [|t ts IH]; intros s Sc X Ex; cbn [snap_rounds forallb]; [by exists s|].
  apply List.Forall_cons_iff in X as [[X1 Off] X]. cbn [passes]. destruct (enabled t); cbn [negb andb]; [|by exists s].
  destruct (round_schedule lvl t s Sc X1 (Off eq_refl) Ex) as (s1 & -> & Sc1 & N1 & S1 & Pc1 & D1). cbn [mbind run_bind].
  assert (Ex1 : exists i, i ∈ sinfos s1 /\ active lvl i = true).
  { destruct D1 as [(x & Hx & Ax & _) _]. by exists x. }
  destruct (IH s1 Sc1 X Ex1) as (s2 & -> & Sc2 & Pc2 & H2). exists s2. split; [done|]. split; [done|]. split; [by rewrite Pc2|].
  rewrite decide_False by done. cbn [length]. destruct (decide (passes ts = [])) as [E|Ne].
  - subst s2. rewrite E. cbn [length]. split; [lia|done].
  - destruct H2 as (H2 & H3 & H4). split; [|done]. lia.
Qed.

(** C20: snapshots are taken on time.  With the misc log on, for entries with
    positive intervals and nothing passed yet, of which at least one is
    active, as long as the log is not switched off and
    on again during a sleep, and the files can be opened and the paths fit
    their buffers: after any number of passes every active entry has been
    recorded exactly at the multiples of its own interval, none missed, none
    twice and without drift, in the time the thread has slept; after each
    pass the thread sleeps at least a second and exactly until the next record
    of an active entry is due; and it ends when, and only when, the test of
    the loop finds the log switched off. *)
Theorem snapshots_on_time misc ts w infos k i : state misc = SLOG_STATE_ON -> infos !! k = Some i -> active (level misc) i = true ->
  Forall (fun t => (forall k, env_fine (answers t k)) /\ (enabled t = true -> seen_off t = None)) ts ->
  Forall (fun i => active (level misc) i = true -> paced i /\ state i = 0 /\ fits w i) infos ->
  exists s, snapshot_log_handler misc ts w infos = Done (Some (s, forallb enabled ts)) /\
    times k (history s) = (fun j => j * interval i) <$> seqZ 1 (now s / interval i) /\
    (passes ts <> [] -> zlen (passes ts) - 1 <= now s /\ 1 <= sleep_secs s /\ next_due (level misc) infos (now s) (sleep_secs s)).
Proof.
  intros On Hi Ha X F. assert (Sc : schedule (level misc) (snap_start w infos)).
  { split; [done|done|]. intros j x Hx Ax. rewrite Forall_lookup in F. destruct (F j x Hx Ax) as (P & S & Ft). unfold paced in P.
    split; cbn [sworld snap_start now sleep_secs history]; [done|done|by rewrite S, Z.mod_0_l by lia|lia|]. unfold multiples. by rewrite Z.div_0_l by lia. }
  destruct (rounds_schedule (level misc) ts (snap_start w infos) Sc X) as (s & E & [_ _ A] & Pc & N).
  { exists i. split; [by eapply list_elem_of_lookup_2|done]. }
  exists s. unfold snapshot_log_handler. rewrite On. cbn [Z.eqb negb SLOG_STATE_ON]. destruct infos as [|a infos]; [done|]. rewrite E. cbn [mbind run_bind].
  split; [done|]. split.
  - assert (Hk : (pace (level misc) <$> sinfos s) !! k = Some (pace (level misc) i)) by (rewrite Pc; cbn [sinfos snap_start]; by rewrite list_lookup_fmap, Hi).
    rewrite list_lookup_fmap in Hk. destruct (sinfos s !! k) as [i'|] eqn:Hi'; [|done]. injection Hk as Ea Ei. rewrite <- Ei. apply (A k i' Hi'). congruence.
  - intros Ne. rewrite decide_False in N by done. cbn [now sleep_secs snap_start] in N. destruct N as (N1 & N2 & N3).
    split; [lia|]. split; [done|]. by eapply next_due_pace.
Qed.

Definition snap_info (b : string) (n : Z) : slog_info := MkInfo SLOG_TYPE_SNAPSHOT 0 1 n (chars "file") 0 (chars b) (chars "misc") (chars b) (chars "/proc/meminfo") false None 0.
Definition misc_on : slog_info := set_state SLOG_STATE_ON (snap_info "misc" 0).
Definition snap_fine (k : nat) : snap_env := MkSnapEnv true true (chars "13-01-01 00:00:00") (Some (chars "x")).

Definition tick_on : tick := MkTick None true snap_fine.
Definition tick_off : tick := MkTick (Some 0%nat) false snap_fine.

Lemma snapshots_on_time_witness : exists s,
  snapshot_log_handler misc_on (replicate 6 tick_on ++ [tick_off]) small_world [snap_info "mem" 3; snap_info "vm" 0; snap_info "cpu" 2] = Done (Some (s, false)) /\
  times 2 (history s) = (fun j => j * 2) <$> seqZ 1 (now s / 2) /\
  (passes (replicate 6 tick_on ++ [tick_off]) <> [] -> zlen (passes (replicate 6 tick_on ++ [tick_off])) - 1 <= now s /\ 1 <= sleep_secs s /\
    next_due 1 [snap_info "mem" 3; snap_info "vm" 0; snap_info "cpu" 2] (now s) (sleep_secs s)).
Proof.
  apply (snapshots_on_time misc_on (replicate 6 tick_on ++ [tick_off]) small_world [snap_info "mem" 3; snap_info "vm" 0; snap_info "cpu" 2] 2 (snap_info "cpu" 2)).
  - reflexivity.
  - reflexivity.
  - reflexivity.
  - repeat (constructor; [split; [intros n; split; reflexivity|first [reflexivity | discriminate]]|]). constructor.
  - constructor; [|constructor; [|constructor; [|constructor]]]; intros A; [|discriminate A|];
      (split; [split; reflexivity|split; [reflexivity|eexists; split; [reflexivity|discriminate]]]).
Defined.

(** A sleep that is cut short, because the log is switched off and on again,
    counts in full: an entry of three seconds is recorded after one. *)
Lemma cut_sleep_early :
  match snapshot_log_handler misc_on [tick_on; MkTick (Some 1%nat) true snap_fine] small_world [snap_info "mem" 3] with
  | Done (Some (s, true)) => history s = [(1, 0%nat)]
  | _ => False
  end.
Proof. vm_compute. reflexivity. Qed.

(** An interval below zero: the entry is recorded in every pass, and the thread
    never sleeps. *)
Lemma negative_interval_spins n m : -2 ^ 31 <= m < 0 -> forall h, exists w, snap_rounds 1 (replicate n tick_on)
  (MkSnap 0 0 small_world [snap_info "mem" m] h) = Done (MkSnap 0 (if decide (n = 0%nat) then 0 else m) w [snap_info "mem" m] (h ++ replicate n (0, 0%nat)), true).
Proof.
  intros M. assert (S : s32 m = m) by (unfold s32; rewrite Z.mod_small; lia).
  assert (R : forall q w h, 0 = q \/ m = q -> fits w (snap_info "mem" m) -> exists w', fits w' (snap_info "mem" m) /\
    snap_round 1 tick_on (MkSnap 0 q w [snap_info "mem" m] h) = Done (MkSnap 0 m w' [snap_info "mem" m] (h ++ [(0, 0%nat)]), true)).
  { intros q w h Q Fi. unfold snap_round. cbn [seen_off answers tick_on now sleep_secs sworld sinfos history snap_pass]. replace (Z.max 0 q) with 0 by lia.
    assert (active 1 (snap_info "mem" m) = true) as -> by (unfold active; cbn [level interval snap_info]; rewrite (proj2 (Z.eqb_neq m 0)) by lia; reflexivity).
    assert (D : is_due q (snap_info "mem" m) = true).
    { unfold is_due, passed. cbn [state interval snap_info]. rewrite Z.add_0_l, Z.geb_leb. apply Z.leb_le. destruct Q as [<-|<-]; [change (s32 0) with 0; lia|lia]. }
    assert (Af : after_pass q (snap_info "mem" m) = snap_info "mem" m) by (unfold after_pass; by rewrite D).
    rewrite D, Af. destruct (record_snap_fine (snap_fine 0) w (snap_info "mem" m)) as (p & _ & ->); [done|done|]. cbn [mbind run_bind].
    cbn [interval state snap_info]. rewrite Z.sub_0_r, S. change (update_next 0 m) with (if (m <? 0) || true then m else 0). rewrite orb_true_r.
    rewrite (proj2 (Z.eqb_neq m 0)) by lia. eexists. split; [|reflexivity]. by apply (fits_same w). }
  assert (G : forall n q w h, 0 = q \/ m = q -> fits w (snap_info "mem" m) -> exists w', snap_rounds 1 (replicate n tick_on) (MkSnap 0 q w [snap_info "mem" m] h) =
    Done (MkSnap 0 (if decide (n = 0%nat) then q else m) w' [snap_info "mem" m] (h ++ replicate n (0, 0%nat)), true)).
  { clear n. induction n as [|n IH]; intros q w h Q Fi; cbn [replicate snap_rounds enabled tick_on negb]; [exists w; by rewrite app_nil_r|].
    destruct (R q w h Q Fi) as (w1 & F1 & ->). cbn [mbind run_bind]. destruct (IH m w1 (h ++ [(0, 0%nat)]) (or_intror eq_refl) F1) as (w2 & ->).
    exists w2. rewrite <- app_assoc. by destruct (decide (n = 0%nat)). }
  intros h. apply G; [by left|]. eexists. split; [reflexivity|]. discriminate.
Qed.
(** A change is recorded once, when the record itself is done in time. *)
Lemma notify_once w sec t after i rest : wd i = w -> last_sec i + 20 < sec -> t <= sec + 20 ->
  handle_notify_file (t :: after) w sec (i :: rest) = (MkWatchInfo w sec :: rest, [sec]).
Proof.
  intros <- L T. cbn [handle_notify_file]. rewrite Z.eqb_refl. cbn [negb]. rewrite Z.gtb_ltb, (proj2 (Z.ltb_lt _ _)) by done. cbn [wd last_sec].
  destruct after; cbn [last_sec wd]; rewrite Z.gtb_ltb, (proj2 (Z.ltb_ge _ _)) by lia; done.
Qed.
(** And again when it took longer. *)
Lemma notify_twice : handle_notify_file [130; 131] 1 100 [MkWatchInfo 1 0] = ([MkWatchInfo 1 130], [100; 130]).
Proof. reflexivity. Qed.
