(* ===== verification/Slog.v ===== *)
(** The system log daemon, its main program: tools/slog/slog.c.  Where the logs
    go (card or internal storage, and the directory of a session), the space
    they may take, the recording of snapshots on demand and the requests of
    slogctl. *)
From S2P Require Import Prelude TextConf SlogConf SlogOut.

(** ** Snapshots on demand *)

(** What the system answers: the file can be opened, the time, the output of the
    command or the content of the file. *)
Record cap_env := MkCapEnv { cmade : bool; copens : bool; cstamp : text; output : option text }.
Definition cap_line (i : slog_info) (stamp : text) : text := [NL] ++ chars "============ " ++ log_basename i ++ chars "  " ++ stamp ++ chars "  ==============" ++ [NL].
Definition handler_exec_cmd (x : cap_env) (w : world) (i : slog_info) (p : text) : run world :=
  if negb (copens x) then Done w else
  if Nat.ltb (length (content i ++ chars " >> " ++ p)) MAX_NAME_LEN then
    Done (set_files (append (files w) p (cap_line i (cstamp x) ++ default [] (output x))) w)
  else Bad.
Definition is_apanic (i : slog_info) : bool := starts (name i) "apanic_console" || starts (name i) "apanic_threads".
(** The file is created also when there is nothing to record; the traces of a
    panic are removed after that. *)
Definition handler_dump_file (x : cap_env) (w : world) (i : slog_info) (p : text) : world :=
  if negb (copens x) then w else
  match output x with
  | None => set_files (append (files w) p []) w
  | Some t =>
    let f := append (files w) p (cap_line i (cstamp x) ++ t) in
    set_files (if is_apanic i then delete (content i) f else f) w
  end.
(** [on]: the daemon is enabled and the misc entry is on. *)
Definition exec_or_dump_content (on : bool) (x : cap_env) (w : world) (i : slog_info) (filepath : option text) : run world :=
  if negb on then Done w else
  p ← match filepath with
      | None => gen_logfile (cmade x) w i
      | Some p => if Nat.ltb (length p) MAX_NAME_LEN then Done p else Bad
      end;
  if starts (opt i) "cmd" then handler_exec_cmd x w i p else Done (handler_dump_file x w i p).

Fixpoint capture_by_name (on : bool) (x : cap_env) (w : world) (head : list slog_info) (nm : text) (filepath : option text) : run world :=
  match head with
  | [] => Done w
  | i :: head => if prefix_of nm (name i) then exec_or_dump_content on x w i filepath else capture_by_name on x w head nm filepath
  end.
(** The entries of a list that [want] names, one after the other. *)
Fixpoint capture_each (want : slog_info -> bool) (on : bool) (xs : list cap_env) (w : world) (head : list slog_info) (filepath : option text) : run world :=
  match head, xs with
  | i :: head, x :: xs =>
    w ← (if want i then exec_or_dump_content on x w i filepath else Done w); capture_each want on xs w head filepath
  | _, _ => Done w
  end.
Definition capture_snap_for_last (on : bool) (xs : list cap_env) (w : world) (head : list slog_info) : run world :=
  capture_each (fun i => level i =? 7) on xs w head None.
(** [hms]: the time in the name of the file. *)
Definition snapshot_path (w : world) (i : slog_info) (hms : text) : text :=
  cur_path w ++ chars "/" ++ top_logdir w ++ chars "/" ++ log_path i ++ chars "/snapshot_" ++ hms ++ chars ".log".
Definition capture_all (enabled misc_on : bool) (made : bool) (hms : text) (xs : list cap_env) (w : world) (head : list slog_info) : run world :=
  if negb enabled then Done w else
  match head with
  | [] => Done w
  | i :: _ =>
    if negb made then Quit else
    if Nat.ltb (length (snapshot_path w i hms)) MAX_NAME_LEN then
      capture_each (fun i => level i <=? 6) misc_on xs w head (Some (snapshot_path w i hms))
    else Bad
  end.

(** ** The directory of a session *)

(** The directories with names from "20", in the order of [readdir], and what is
    in the directory for old logs. *)
Record volume := MkVolume { sessions : list text; last_log : option (list text) }.
(** [step] is the property slog.step, which the daemon keeps over its restarts. *)
Record site := MkSite { cur : storage; step : Z; internal : volume; external : volume; top : text }.
Definition vol (s : site) : volume := match cur s with Internal => internal s | External => external s end.
Definition set_vol (v : volume) (s : site) : site :=
  match cur s with Internal => MkSite Internal (step s) v (external s) (top s) | External => MkSite External (step s) (internal s) v (top s) end.
Definition set_top (t : text) (s : site) : site := MkSite (cur s) (step s) (internal s) (external s) t.
Definition set_step (n : Z) (s : site) : site := MkSite (cur s) n (internal s) (external s) (top s).

Definition LOG_DIR_NUM : nat := 1.
Definition handler_last_dir (v : volume) : volume :=
  if Nat.ltb (length (sessions v)) LOG_DIR_NUM then v else MkVolume [] (Some (sessions v)).
Definition mkdir_session (t : text) (v : volume) : volume :=
  if decide (t ∈ sessions v) then v else MkVolume (sessions v ++ [t]) (last_log v).
Definition cp_internal_to_external (s : site) : site * bool :=
  match sessions (internal s) with
  | [] => (s, false)
  | t :: _ => (MkSite (cur s) (step s) (internal s) (mkdir_session t (external s)) t, true)
  end.
(** [stamp]: the name made of the date and time. *)
Definition create_log_dir (stamp : text) (s : site) : site :=
  let s := set_vol (handler_last_dir (vol s)) s in
  let '(s', copied) := if step s =? 1 then cp_internal_to_external s else (s, false) in
  if copied : bool then s' else set_vol (mkdir_session stamp (vol s)) (set_top stamp s).
Definition use_ori_log_dir (stamp : text) (s : site) : site :=
  match sessions (vol s) with t :: _ => set_top t s | [] => create_log_dir stamp s end.
Definition handle_top_logdir (stamp : text) (s : site) : site :=
  match cur s with
  | Internal => if step s =? 0 then set_step 1 (create_log_dir stamp s) else use_ori_log_dir stamp s
  | External =>
    if (step s =? 0) || (step s =? 1) then set_step 2 (create_log_dir stamp s) else use_ori_log_dir stamp s
  end.

(** ** The place for the logs *)
Definition environment := text -> option text.
Definition storage_of_type (env : environment) (type : Z) : option text :=
  if (type =? 0) || (type =? 1) then env (chars "EXTERNAL_STORAGE") else if type =? 2 then env (chars "SECONDARY_STORAGE") else None.
(** The path of the card; [prop]: the property persist.storage.type. *)
Definition init_external_storage (env : environment) (prop : text) : run text :=
  p ← match env (chars "SECOND_STORAGE_TYPE") with
      | Some t => match storage_of_type env (atoi t) with Some p => Done p | None => Quit end
      | None =>
        let type := atoi prop in
        if (type =? 0) || (type =? 1) || (type =? 2) then match storage_of_type env type with Some p => Done p | None => Quit end
        else match env (chars "SECONDARY_STORAGE") with
             | Some p => Done p
             | None => match env (chars "EXTERNAL_STORAGE") with Some p => Done p | None => Quit end
             end
      end;
  if Nat.ltb (length (p ++ chars "/slog")) MAX_NAME_LEN then Done p else Bad.
(** [mounts]: the lines of /proc/mounts. *)
Definition sdcard_mounted (mounts : option (list text)) (external_path : text) : bool :=
  match mounts with None => false | Some ls => existsb (fun l => contains l external_path) ls end.
(** The place at the start, and whether the card is watched. *)
Definition start_monitor_sdcard_fun (config : storage) (mounted enabled : bool) : storage * bool :=
  match config with
  | External => (if mounted then External else Internal, enabled)
  | Internal => (Internal, false)
  end.
(** A look at the card: the new place, and whether the daemon restarts. *)
Definition monitor_sdcard_fun (mounted : bool) (last : storage) : storage * bool :=
  let s := if mounted then External else Internal in (s, match s, last with Internal, Internal | External, External => false | _, _ => true end).

(** ** Space *)
Definition u64 (z : Z) : Z := z mod 2 ^ 64.
Definition available (bavail bsize : Z) : Z := u32 (u64 (bavail * bsize) / 1024).
(** [None]: the log is disabled. *)
Definition handler_internal_log_size (st : option (Z * Z)) : option Z :=
  match st with
  | None => None
  | Some (bavail, bsize) =>
    let kb := available bavail bsize in
    if kb <? 10 then None else Some (s32 (u32 (kb - 5 * 1024) / 5 * 4 / 12))
  end.
Inductive volume_check := Fine | LowCard | DisableLog.
Definition check_available_volume (on_card : bool) (st : option (Z * Z)) : volume_check :=
  match st with
  | None => Fine
  | Some (bavail, bsize) =>
    let mb := u32 (Z.shiftr (u64 (bavail * bsize)) 20) in
    if on_card then if (0 <? mb) && (mb <? 50) then LowCard else Fine
    else if mb <? 5 then DisableLog else Fine
  end.

(** ** The start *)

(** What the system answers: the space, the time, the snapshots. *)
Record boot := MkBoot { space : option (Z * Z); btime : text; last_envs : list cap_env; bmade : bool; hms : text; all_envs : list cap_env }.
Definition place_text (external_storage : text) (p : storage) : text := match p with Internal => INTERNAL_LOG_PATH | External => external_storage end.
(** [false]: the log is disabled, as there is no space. *)
Definition do_init (external_storage : text) (misc_on : bool) (b : boot) (head : list slog_info) (s : site) (w : world) : run (site * world * bool) :=
  match (match cur s with Internal => handler_internal_log_size (space b) | External => Some (internal_log_size w) end) with
  | None => Done (s, w, false)
  | Some n =>
    let s' := handle_top_logdir (btime b) s in
    let w := MkWorld (files w) (place_text external_storage (cur s)) (top s') n in
    w ← (if step s =? 0 then capture_snap_for_last misc_on (last_envs b) w head else Done w);
    w ← capture_all true misc_on (bmade b) (hms b) (all_envs b) w head;
    Done (s', w, true)
  end.

(** ** Requests *)
Definition CTRL_CMD_TYPE_RELOAD : Z := 0.
Definition CTRL_CMD_TYPE_SNAP : Z := 1.
Definition CTRL_CMD_TYPE_SNAP_ALL : Z := 2.
Definition CTRL_CMD_TYPE_EXEC : Z := 3.
Definition CTRL_CMD_TYPE_ON : Z := 4.
Definition CTRL_CMD_TYPE_OFF : Z := 5.
Definition CTRL_CMD_TYPE_QUERY : Z := 6.
Definition CTRL_CMD_TYPE_CLEAR : Z := 7.
Definition CTRL_CMD_TYPE_DUMP : Z := 8.
Definition CTRL_CMD_TYPE_SCREEN : Z := 9.
Definition CTRL_CMD_TYPE_HOOK_MODEM : Z := 10.

(** The results of [recv]: some characters, or zero or less.  The result of the
    call is the last one when the message is not complete. *)
Fixpoint recv_socket (rs : list (text + Z)) (size : nat) (received : text) : Z * text :=
  if Nat.ltb (length received) size then
    match rs with
    | [] => (0, received)
    | inl d :: rs => recv_socket rs size (received ++ take (size - length received) d)
    | inr e :: _ => (e, received)
    end
  else (zlen received, received).
Fixpoint send_socket (rs : list Z) (size offset result : Z) : Z * Z :=
  if offset <? size then
    match rs with
    | [] => (result, offset)
    | r :: rs => if 0 <? r then send_socket rs size (offset + Z.min r (size - offset)) r else (r, offset)
    end
  else (result, offset).

Record daemon := MkDaemon { d_enable : Z; d_hook : bool; d_init : bool; d_world : world }.
(** What the system answers to a request, and the results of [system] and
    [screen_shot]. *)
Record req_env := MkReqEnv { r_cap : cap_env; r_made : bool; r_hms : text; r_caps : list cap_env; r_query : option text; r_system : Z; r_screen : Z }.
Definition set_dworld (w : world) (d : daemon) : daemon := MkDaemon (d_enable d) (d_hook d) (d_init d) w.
Definition dump_all_log (misc_on : bool) (x : req_env) (d : daemon) (head : list slog_info) : run (daemon * Z) :=
  if is_internal (d_world d) then Done (d, -1) else
  w ← capture_all (d_enable d =? SLOG_ENABLE) misc_on (r_made x) (r_hms x) (r_caps x) (d_world d) head;
  w ← capture_by_name ((d_enable d =? SLOG_ENABLE) && misc_on) (r_cap x) w head (chars "getprop") None;
  Done (set_dworld w d, r_system x).
(** The daemon and [ret]; a reload ends the process.  [size]: of a request. *)
Definition do_request (misc_on : bool) (size : Z) (type : Z) (arg : text) (x : req_env) (d : daemon) (head : list slog_info) : run (daemon * Z * text) :=
  let enabled := d_enable d =? SLOG_ENABLE in
  if (type =? CTRL_CMD_TYPE_RELOAD) || (type =? CTRL_CMD_TYPE_CLEAR) then Quit
  else if type =? CTRL_CMD_TYPE_SNAP then
    w ← capture_by_name (enabled && misc_on) (r_cap x) (d_world d) head arg None; Done (set_dworld w d, 0, arg)
  else if type =? CTRL_CMD_TYPE_SNAP_ALL then
    w ← capture_all enabled misc_on (r_made x) (r_hms x) (r_caps x) (d_world d) head; Done (set_dworld w d, 0, arg)
  else if (type =? CTRL_CMD_TYPE_EXEC) || (type =? CTRL_CMD_TYPE_ON) then Done (d, -1, arg)
  else if type =? CTRL_CMD_TYPE_OFF then Done (MkDaemon SLOG_DISABLE (d_hook d) (d_init d) (d_world d), 0, arg)
  else if type =? CTRL_CMD_TYPE_QUERY then match r_query x with Some t => Done (d, 0, t) | None => Bad end
  else if type =? CTRL_CMD_TYPE_DUMP then '(d, ret) ← dump_all_log misc_on x d head; Done (d, ret, arg)
  else if type =? CTRL_CMD_TYPE_HOOK_MODEM then Done (MkDaemon (d_enable d) true (d_init d) (d_world d), 0, arg)
  else if type =? CTRL_CMD_TYPE_SCREEN then
    if negb enabled || negb (d_init d) then Done (d, size, arg) else
    match arg with
    | [] => if r_made x then Done (d, r_screen x, arg) else Quit
    | _ => Done (d, r_screen x, arg)
    end
  else Done (d, size, arg).
(** The answer says OK or FAIL only when the request had no text. *)
Definition answer (ret : Z) (t : text) : text := match t with [] => if ret =? 0 then chars "OK" else chars "FAIL" | _ => t end.
Definition handle_request (misc_on : bool) (size : Z) (type : Z) (arg : text) (x : req_env) (d : daemon) (head : list slog_info) : run (daemon * text) :=
  '(d, ret, t) ← do_request misc_on size type arg x d head; Done (d, answer ret t).

(** ** Sessions over restarts *)

(** The daemon restarts when the card comes or goes, on the place that is there
    then; the property remains. *)
Definition restart (s : site) (r : storage * text) : site := handle_top_logdir (snd r) (MkSite (fst r) (step s) (internal s) (external s) (top s)).
Definition volume_of (p : storage) (s : site) : volume := match p with Internal => internal s | External => external s end.
Definition archived (v : volume) : option (list text) := match sessions v with [] => last_log v | l => Some l end.

Lemma last_dir_empty v : handler_last_dir v = MkVolume [] (archived v).
Proof. unfold handler_last_dir, archived. destruct v as [[|t l] last]; reflexivity. Qed.
Lemma mkdir_first t last : mkdir_session t (MkVolume [] last) = MkVolume [t] last.
Proof. reflexivity. Qed.

(** The session [t] on the place where the system was started. *)
Record in_session (boot : storage) (t : text) (old : option (list text)) (s : site) : Prop := {
  here : volume_of boot s = MkVolume [t] old;
  later : match boot with Internal => step s = 1 \/ step s = 2 /\ sessions (external s) = [t] | External => step s = 2 end }.
Definition named (boot : storage) (t : text) (s : site) : Prop := boot = Internal \/ cur s = boot -> top s = t /\ sessions (vol s) = [t].

Lemma first_start boot t s : step s = 0 -> let s' := restart s (boot, t) in in_session boot t (archived (volume_of boot s)) s' /\ named boot t s'.
Proof.
  intros E s'. unfold s', restart, handle_top_logdir, create_log_dir, vol, set_vol. cbn [fst snd cur step internal external]. rewrite E.
  destruct boot; cbn [Z.eqb orb]; rewrite last_dir_empty; cbn [set_top set_step cur step internal external Z.eqb]; rewrite ?mkdir_first; (split; [split; [done|]|done]); [by left|done].
Qed.
Lemma restart_internal t old s r : in_session Internal t old s -> let s' := restart s r in in_session Internal t old s' /\ named Internal t s'.
Proof.
  intros [H L] s'. unfold s', restart, handle_top_logdir. destruct r as [[|] stamp]; cbn [fst snd cur step].
  - assert (step s =? 0 = false) as -> by (apply Z.eqb_neq; lia). unfold use_ori_log_dir, vol. cbn [cur internal]. cbn in H. rewrite H. cbn [sessions].
    split; [split; [first [done|exact H]|exact L]|]. intros _. split; [done|]. first [done|cbn; by rewrite H].
  - destruct L as [E|[E X]]; rewrite E; cbn [Z.eqb orb Pos.eqb].
    + unfold create_log_dir, vol, set_vol, cp_internal_to_external. cbn [cur internal external step top]. rewrite last_dir_empty. cbn [Z.eqb Pos.eqb internal].
      cbn in H. rewrite H. cbn [sessions]. split; [split; [first [done|exact H]|right; done]|done].
    + unfold use_ori_log_dir, vol. cbn [cur external]. rewrite X. split; [split; [first [done|exact H]|right; done]|]. intros _. split; [done|]. exact X.
Qed.
Lemma restart_external t old s r : in_session External t old s -> let s' := restart s r in in_session External t old s' /\ named External t s'.
Proof.
  intros [H L] s'. unfold s', restart, handle_top_logdir. destruct r as [[|] stamp]; cbn [fst snd cur step]; rewrite L; cbn [Z.eqb orb Pos.eqb].
  - unfold use_ori_log_dir, vol. cbn [cur internal]. destruct (sessions (internal s)) as [|u l] eqn:I; (split; [|intros [[=]|[=]]]).
    + unfold create_log_dir, vol, set_vol. cbn [cur internal external step top]. cbn. split; [first [done|exact H]|first [done|exact L]].
    + split; [first [done|exact H]|first [done|exact L]].
  - unfold use_ori_log_dir, vol. cbn [cur external]. cbn in H. rewrite H. cbn [sessions]. split; [split; [first [done|exact H]|first [done|exact L]]|]. intros _. first [done|cbn; by rewrite H].
Qed.
Lemma restarts_in_session boot t old rs : forall s, in_session boot t old s -> named boot t s ->
  in_session boot t old (foldl restart s rs) /\ named boot t (foldl restart s rs).
Proof.
  induction rs as [|r rs IH]; intros s I N; [done|]. cbn [foldl]. destruct boot.
  - destruct (restart_internal t old s r I). by apply IH.
  - destruct (restart_external t old s r I). by apply IH.
Qed.

(** C28: the log of a session stays in one directory.  When the system starts,
    the directories of earlier sessions are moved away and a new one is made;
    however often the daemon is restarted after that, as the card is put in and
    taken out, it continues in this directory: on the place of the start always,
    and on the card too when the start was on internal storage, as the directory
    is copied there once.  The earlier sessions stay where they were put. *)
Theorem session_continues s boot stamp rs : step s = 0 ->
  let s' := foldl restart (restart s (boot, stamp)) rs in
  (boot = Internal \/ cur s' = boot -> top s' = stamp /\ sessions (vol s') = [stamp]) /\
  sessions (volume_of boot s') = [stamp] /\ last_log (volume_of boot s') = archived (volume_of boot s).
Proof.
  intros E s'. destruct (first_start boot stamp s E) as [I N]. destruct (restarts_in_session boot stamp _ rs _ I N) as [[H _] N'].
  split; [exact N'|]. fold s' in H. by rewrite H.
Qed.
Lemma session_continues_witness :
  let s := MkSite Internal 0 (MkVolume [chars "20121231"] None) (MkVolume [chars "20120101"; chars "20120102"] None) [] in
  let s' := foldl restart (restart s (Internal, chars "20130101")) [(External, chars "20130102"); (Internal, chars "20130103"); (External, chars "20130104")] in
  (Internal = Internal \/ cur s' = Internal -> top s' = chars "20130101" /\ sessions (vol s') = [chars "20130101"]) /\
  sessions (volume_of Internal s') = [chars "20130101"] /\ last_log (volume_of Internal s') = archived (volume_of Internal s).
Proof. intros s. apply (session_continues s Internal (chars "20130101")). reflexivity. Defined.

(** A session that starts on the card goes on in the directory of an earlier one
    when the card is taken out. *)
Lemma card_removed_mixes s stamp stamp' t l : step s = 0 -> sessions (internal s) = t :: l ->
  top (foldl restart (restart s (External, stamp)) [(Internal, stamp')]) = t.
Proof.
  intros E I. cbn [foldl]. destruct (first_start External stamp s E) as [[_ L] _]. set (s1 := restart s (External, stamp)) in *.
  assert (I1 : sessions (internal s1) = t :: l).
  { unfold s1, restart, handle_top_logdir, create_log_dir, vol, set_vol. cbn. rewrite E. cbn. done. }
  unfold restart, handle_top_logdir. cbn [fst snd cur step]. rewrite L. cbn [Z.eqb Pos.eqb]. unfold use_ori_log_dir, vol. cbn [cur internal]. by rewrite I1.
Qed.

(** ** Space *)

(** Above 5 MB, twelve logs (with the older file of each) fit in four fifths of
    what is left. *)
Lemma log_size_fits bavail bsize n : 5 * 1024 <= available bavail bsize -> handler_internal_log_size (Some (bavail, bsize)) = Some n ->
  0 <= n /\ 12 * n * 5 <= (available bavail bsize - 5 * 1024) * 4.
Proof.
  unfold handler_internal_log_size. set (kb := available bavail bsize). intros K. rewrite (proj2 (Z.ltb_ge _ _)) by lia. intros [= <-].
  assert (B : 0 <= kb < 2 ^ 32) by (apply Z.mod_pos_bound; lia). unfold u32. rewrite (Z.mod_small (kb - 5 * 1024)) by lia.
  set (m := kb - 5 * 1024) in *. pose proof (Z.div_mod m 5 ltac:(lia)). pose proof (Z.mod_pos_bound m 5 ltac:(lia)).
  pose proof (Z.div_mod (m / 5 * 4) 12 ltac:(lia)). pose proof (Z.mod_pos_bound (m / 5 * 4) 12 ltac:(lia)).
  assert (0 <= m / 5) by (apply Z.div_pos; lia). rewrite s32_small; [split; [apply Z.div_pos; lia|lia]|]. split; [apply Z.div_pos; lia|lia].
Qed.
(** Below, the difference wraps around and the size is 273 GB. *)
Lemma log_size_wraps : handler_internal_log_size (Some (10, 1024)) = Some 286330812.
Proof. reflexivity. Qed.
(** With 32 GB free the limit in bytes is below zero, and every entry gets a file
    of its own. *)
Lemma large_storage_rotates : exists n, handler_internal_log_size (Some (32 * 1024 * 1024, 1024)) = Some n /\
  forall i, size_limit (MkWorld ∅ INTERNAL_LOG_PATH [] n) i < 0.
Proof. exists 2236620. split; [reflexivity|]. intros i. unfold size_limit. vm_compute. reflexivity. Qed.
(** A full card is not noticed. *)
Lemma full_card_fine : check_available_volume true (Some (0, 4096)) = Fine.
Proof. reflexivity. Qed.

(** ** Requests *)

(** A message is put together from its pieces. *)
Lemma recv_pieces ds size got : zlen (got ++ concat ds) = Z.of_nat size -> Forall (fun d => d <> []) ds ->
  recv_socket (inl <$> ds) size got = (Z.of_nat size, got ++ concat ds).
Proof.
  revert got. induction ds as [|d ds IH]; intros got L N; cbn [concat fmap list_fmap] in *.
  - rewrite app_nil_r in *. unfold recv_socket. rewrite (proj2 (Nat.ltb_ge _ _)) by lia. by rewrite L.
  - apply List.Forall_cons_iff in N as [Nd N]. rewrite !length_app in L. destruct d as [|a d]; [done|]. cbn [recv_socket].
    rewrite (proj2 (Nat.ltb_lt _ _)) by (cbn in L; lia). rewrite take_ge by lia. rewrite IH; [by rewrite <- app_assoc|rewrite !length_app; lia|done].
Qed.
(** When the other side closes early the result is zero, which is not taken for
    an error. *)
Lemma recv_closed size : (0 < size)%nat -> recv_socket [inr 0] size [] = (0, []).
Proof. intros H. unfold recv_socket. by rewrite (proj2 (Nat.ltb_lt _ _)) by done. Qed.

(** The answers. *)
Lemma request_off misc_on size x d head : handle_request misc_on size CTRL_CMD_TYPE_OFF [] x d head =
  Done (MkDaemon SLOG_DISABLE (d_hook d) (d_init d) (d_world d), chars "OK").
Proof. reflexivity. Qed.
(** A failure is not answered when the request has a text. *)
Lemma request_failure_echoed misc_on size x d head a t : handle_request misc_on size CTRL_CMD_TYPE_EXEC (a :: t) x d head = Done (d, a :: t).
Proof. reflexivity. Qed.

(** ** Snapshots of all entries *)
Definition captured (xs : list cap_env) (head : list slog_info) : text :=
  concat (zip_with (fun i x => if level i <=? 6 then match output x with Some t => cap_line i (cstamp x) ++ t | None => if starts (opt i) "cmd" then cap_line i (cstamp x) else [] end else []) head xs).
(** What the capture of an entry needs. *)
Definition cap_ok (p : text) (i : slog_info) (x : cap_env) : Prop := copens x = true /\
  (starts (opt i) "cmd" = true -> (length (content i ++ chars " >> " ++ p) < MAX_NAME_LEN)%nat) /\ (is_apanic i = true -> content i <> p).
Lemma append_same f p t : append f p t !! p = Some (file_of f p ++ t).
Proof. apply lookup_insert_eq. Qed.
Lemma capture_one x w i p : cap_ok p i x -> (length p < MAX_NAME_LEN)%nat -> exists w', exec_or_dump_content true x w i (Some p) = Done w' /\
  file_of (files w') p = file_of (files w) p ++ match output x with Some t => cap_line i (cstamp x) ++ t | None => if starts (opt i) "cmd" then cap_line i (cstamp x) else [] end.
Proof.
  intros (O & C & A) L. unfold exec_or_dump_content. cbn [negb]. rewrite (proj2 (Nat.ltb_lt _ _)) by done. cbn [mbind run_bind].
  destruct (starts (opt i) "cmd") eqn:K.
  - unfold handler_exec_cmd. rewrite O. cbn [negb]. rewrite (proj2 (Nat.ltb_lt _ _)) by (by apply C). eexists. split; [reflexivity|].
    cbn [files set_files]. unfold file_of at 1. rewrite append_same. destruct (output x); cbn; by rewrite ?app_nil_r.
  - eexists. split; [reflexivity|]. unfold handler_dump_file. rewrite O. cbn [negb]. destruct (output x) as [t|]; cbn [files set_files].
    + unfold file_of at 1. destruct (is_apanic i) eqn:Ap; [rewrite lookup_delete_ne by (by apply A)|]; by rewrite append_same.
    + unfold file_of at 1. by rewrite append_same.
Qed.
(** One file gets the entries up to level 6, in their order. *)
Lemma capture_all_complete head : forall xs w p, Forall2 (cap_ok p) head xs -> (length p < MAX_NAME_LEN)%nat -> exists w',
  capture_each (fun i => level i <=? 6) true xs w head (Some p) = Done w' /\ file_of (files w') p = file_of (files w) p ++ captured xs head.
Proof.
  induction head as [|i head IH]; intros xs w p F L; inversion F as [|? x ? xs' Ok Fs]; subst.
  { exists w. unfold captured. cbn. by rewrite app_nil_r. }
  cbn [capture_each]. assert (exists w1, (if level i <=? 6 then exec_or_dump_content true x w i (Some p) else Done w) = Done w1 /\
    file_of (files w1) p = file_of (files w) p ++ (if level i <=? 6 then match output x with Some t => cap_line i (cstamp x) ++ t | None => if starts (opt i) "cmd" then cap_line i (cstamp x) else [] end else [])) as (w1 & -> & E1).
  { destruct (level i <=? 6); [by apply capture_one|exists w; by rewrite app_nil_r]. }
  cbn [mbind run_bind]. destruct (IH xs' w1 p Fs L) as (w2 & -> & E2). exists w2. split; [done|]. rewrite E2, E1, <- app_assoc. done.
Qed.
