(* ===== verification/SlogCtl.v ===== *)
(** The system log daemon, the rest: the command line of tools/slog/slogctl.c,
    and the threads of handler.c that leave the logging to another program
    (Bluetooth, network), copy the log of the boot loader, or record a change in
    a watched directory. *)
From S2P Require Import Prelude TextConf SlogConf SlogOut Slog.
From Stdlib Require Import Ascii.

(** ** slogctl *)
Definition snprintf (t : text) : text := take (MAX_NAME_LEN - 1) t.
(** The result of [main] without a request; a request, after an edit of the
    configuration in some cases. *)
Inductive ctl := Usage (ret : Z) | Send (type : Z) (arg : text) (edit : option (text * text)).
Definition on_off_arg (argv : list text) : option text :=
  match argv with [_; _; s] => if bool_decide (s = chars "on" \/ s = chars "off") then Some s else None | _ => None end.
Definition switch_cmd (keyword : string) (argv : list text) : ctl :=
  match on_off_arg argv with Some s => Send CTRL_CMD_TYPE_RELOAD [] (Some (chars keyword, s)) | None => Usage (-1) end.
Definition slogctl (argv : list text) : ctl :=
  match argv with
  | _ :: op :: args =>
    if starts op "reload" then Send CTRL_CMD_TYPE_RELOAD [] None
    else if starts op "snap" then
      match args with [] => Send CTRL_CMD_TYPE_SNAP_ALL [] None | a :: _ => Send CTRL_CMD_TYPE_SNAP (snprintf a) None end
    else if starts op "exec" then match args with [] => Usage 0 | a :: _ => Send CTRL_CMD_TYPE_EXEC (snprintf a) None end
    else if starts op "on" then Send CTRL_CMD_TYPE_ON [] None
    else if starts op "off" then Send CTRL_CMD_TYPE_OFF [] None
    else if starts op "clear" then Send CTRL_CMD_TYPE_CLEAR [] None
    else if starts op "dump" then
      match args with [] => Send CTRL_CMD_TYPE_DUMP (chars "slog.tgz") None | a :: _ => Send CTRL_CMD_TYPE_DUMP (snprintf (a ++ chars ".tgz")) None end
    else if starts op "screen" then match args with [a] => Send CTRL_CMD_TYPE_SCREEN (snprintf a) None | _ => Send CTRL_CMD_TYPE_SCREEN [] None end
    else if starts op "query" then Send CTRL_CMD_TYPE_QUERY [] None
    else if starts op "hook_modem" then Send CTRL_CMD_TYPE_HOOK_MODEM [] None
    else if starts op "enable" then Send CTRL_CMD_TYPE_RELOAD [] (Some (chars "enable", []))
    else if starts op "disable" then Send CTRL_CMD_TYPE_RELOAD [] (Some (chars "disable", []))
    else if starts op "low_power" then Send CTRL_CMD_TYPE_RELOAD [] (Some (chars "low_power", []))
    else if starts op "android" then switch_cmd "android" argv
    else if starts op "modem" then switch_cmd "modem" argv
    else if starts op "tcp" then switch_cmd "tcp" argv
    else if starts op "bt" then switch_cmd "bt" argv
    else Usage 0
  | _ => Usage 0
  end.
(** What is printed for an answer, and the result. *)
Definition report (answer : text) : text * Z :=
  if bool_decide (answer = chars "FAIL") then (chars "slogctl cmd fail " ++ [NL], -1) else (answer ++ [NL], 0).

(** ** Threads with another program *)

(** The first entry that is on. *)
Fixpoint find_on (prefix : string) (infos : list slog_info) : option nat :=
  match infos with
  | [] => None
  | i :: infos => if (state i =? SLOG_STATE_ON) && starts (name i) prefix then Some 0%nat else S <$> find_on prefix infos
  end.
(** The child makes the directory, renames the old files and starts the program
    on the path; the process of the daemon only waits and stops it.  [Off]: not
    on internal storage, where the entry is switched off. *)
Inductive child := NoEntry | Off (infos : list slog_info) | NoFork | ChildQuit | Started (p : text) (f : fs) | ChildBad.
Definition child_path (ext : string) (w : world) (i : slog_info) : text :=
  cur_path w ++ chars "/" ++ top_logdir w ++ chars "/" ++ log_path i ++ chars "/" ++ log_basename i ++ chars ext.
Definition program_handler (prefix ext : string) (forks made : bool) (ok : nat -> bool) (w : world) (infos : list slog_info) : child :=
  match find_on prefix infos with
  | None => NoEntry
  | Some k =>
    match infos !! k with
    | None => NoEntry
    | Some i =>
      if is_internal w then Off (<[k := set_state SLOG_STATE_OFF i]> infos)
      else if negb forks then NoFork
      else if Nat.ltb (length (child_path ext w i)) MAX_NAME_LEN then
        if negb made then ChildQuit
        else Started (child_path ext w i) (file_name_rotate ok MAXROLLLOGS (child_path ext w i) (files w))
      else ChildBad
    end
  end.
Definition bt_log_handler : bool -> bool -> (nat -> bool) -> world -> list slog_info -> child := program_handler "bt" ".log".
(** Two characters are compared. *)
Definition tcp_log_handler : bool -> bool -> (nat -> bool) -> world -> list slog_info -> child := program_handler "tc" ".pcap".
(** The process that is stopped at the end: all of them after a failed [fork]. *)
Definition stopped (pid : Z) : option Z := if pid =? -1 then None else Some pid.

(** ** The log of the boot loader *)
Definition strsep (c : ascii) (s : option text) : option (text * option text) :=
  l ← s; match break_at c l with Some (t, r) => Some (t, Some r) | None => Some (l, None) end.
Definition strtoll16 (l : text) : Z :=
  let '(neg, u) := skip_sign (skip_space l) in
  let digits := match u with c :: x :: r => if (code c =? 48) && is_x x then r else u | _ => u end in
  let v := number 16 digits in
  u32 (if neg then Z.max (- v) (- 2 ^ 63) else Z.min v (2 ^ 63 - 1)).
(** The address and the size in the command line of the kernel. *)
Definition boot_ram_log (cmdline : text) : option (Z * Z) :=
  s1 ← strstr cmdline (chars "boot_ram_log=");
  '(_, s1) ← strsep "=" (Some s1);
  match strsep "," s1 with
  | None => Some (0, 0)
  | Some (a, s1) => match strsep " " s1 with None => Some (strtoll16 a, 0) | Some (b, _) => Some (strtoll16 a, strtoll16 b) end
  end.
(** [cmdline]: what is read, with a terminator behind it, which the buffer has only
    by chance.  [mem]: the memory at an address. *)
Definition uboot_log_handler (misc_on : bool) (cmdline : option text) (mem : Z -> Z -> option text) (opens : bool) (w : world) : run world :=
  if negb misc_on then Done w else
  match cmdline with
  | None => Done w
  | Some l =>
    if negb (bool_decide (length l < MAX_LINE_LEN)%nat) then Bad else
    match boot_ram_log l with
    | None => Done w
    | Some (a, n) =>
      match mem a n with
      | None => Done w
      | Some t =>
        if negb opens then Done w
        else Done (set_files (<[cur_path w ++ chars "/" ++ top_logdir w ++ chars "/misc/uboot.log" := t]> (files w)) w)
      end
    end
  end.

(** ** The record of a change *)
Definition cp_file (src : option text) (opens : bool) (new_path : text) (f : fs) : fs :=
  match src with Some t => if opens then <[new_path := t]> f else f | None => f end.
Definition capture_snap_for_notify (on : bool) (xs : list cap_env) (w : world) (head : list slog_info) (filepath : text) : run world :=
  capture_each (fun i => level i <=? 6) on xs w head (Some filepath).
(** What the system answers: [stat] of the changed file, [mkdir] twice, the
    snapshots, and the content of the file three seconds later. *)
Record notify_env := MkNotifyEnv { changed : bool; made_path : bool; made_name : bool; n_caps : list cap_env; n_hms : text; source : option text; n_opens : bool }.
Definition notify_dir (w : world) (i : slog_info) : text :=
  cur_path w ++ chars "/" ++ top_logdir w ++ chars "/" ++ log_path i ++ chars "/" ++ name i.
(** [false]: the file is gone.  [shot]: the screen shot, which writes its own
    file.  The longest path is the one of the copy. *)
Definition notify_record (on : bool) (shot : text -> fs -> fs) (x : notify_env) (w : world) (i : slog_info) (file : text) (head : list slog_info) : run (world * bool) :=
  if negb (bool_decide (length (content i ++ chars "/" ++ file) < MAX_NAME_LEN)%nat) then Bad else
  if negb (changed x) then Done (w, false) else
  if negb (bool_decide (length (notify_dir w i ++ chars "/" ++ file ++ chars "_" ++ n_hms x ++ chars ".log") < MAX_NAME_LEN)%nat) then Bad else
  if negb (made_path x && made_name x) then Quit else
  if negb (bool_decide (length (notify_dir w i ++ chars "/screenshot_" ++ n_hms x ++ chars ".jpg") < MAX_NAME_LEN)%nat) then Bad else
  let w := set_files (shot (notify_dir w i ++ chars "/screenshot_" ++ n_hms x ++ chars ".jpg") (files w)) w in
  w ← capture_snap_for_notify on (n_caps x) w head (notify_dir w i ++ chars "/snapshot_" ++ n_hms x ++ chars ".log");
  Done (set_files (cp_file (source x) (n_opens x) (notify_dir w i ++ chars "/" ++ file ++ chars "_" ++ n_hms x ++ chars ".log") (files w)) w, true).

(** ** Requests from end to end *)

(** A dump that fails, as on internal storage, is reported with its file name as
    if it had worked. *)
Lemma dump_failure_hidden misc_on size x d head a : is_internal (d_world d) = true -> (length a <= 100)%nat ->
  exists t, slogctl [chars "slogctl"; chars "dump"; a] = Send CTRL_CMD_TYPE_DUMP t None /\
    handle_request misc_on size CTRL_CMD_TYPE_DUMP t x d head = Done (d, t) /\ report t = (a ++ chars ".tgz" ++ [NL], 0).
Proof.
  intros I L. exists (a ++ chars ".tgz"). assert (T : snprintf (a ++ chars ".tgz") = a ++ chars ".tgz").
  { unfold snprintf. apply take_ge. rewrite length_app. unfold MAX_NAME_LEN. cbn [length chars String.list_ascii_of_string]. lia. }
  split; [change (Send CTRL_CMD_TYPE_DUMP (snprintf (a ++ chars ".tgz")) None = Send CTRL_CMD_TYPE_DUMP (a ++ chars ".tgz") None); by rewrite T|].
  assert (E : exists c l, a ++ chars ".tgz" = c :: l) by (destruct a as [|c l]; by eexists _, _). destruct E as (c & l & E). split.
  - unfold handle_request, do_request. change (CTRL_CMD_TYPE_DUMP =? CTRL_CMD_TYPE_DUMP) with true. cbn [CTRL_CMD_TYPE_DUMP Z.eqb Pos.eqb orb].
    unfold dump_all_log. rewrite I. cbn [mbind run_bind]. by rewrite E.
  - unfold report. rewrite bool_decide_false; [by rewrite <- app_assoc|]. intros F. apply (f_equal (fun t => List.last t NL)) in F.
    rewrite (List.app_removelast_last NL (l := chars ".tgz")) in F by discriminate. rewrite app_assoc, List.last_last in F. discriminate F.
Qed.
(** Starting the log is a request that always fails. *)
Lemma on_fails misc_on size x d head : exists t, slogctl [chars "slogctl"; chars "on"] = Send CTRL_CMD_TYPE_ON t None /\
  handle_request misc_on size CTRL_CMD_TYPE_ON t x d head = Done (d, chars "FAIL") /\ snd (report (chars "FAIL")) = -1.
Proof. exists []. split; [reflexivity|]. split; reflexivity. Qed.

(** ** Threads *)
Lemma find_on_first prefix infos k : find_on prefix infos = Some k -> exists i, infos !! k = Some i /\ state i = SLOG_STATE_ON /\ starts (name i) prefix = true.
Proof.
  revert k. induction infos as [|i infos IH]; intros k; cbn [find_on]; [done|]. destruct (_ && _) eqn:E.
  - intros [= <-]. apply andb_true_iff in E as [E1 E2]. apply Z.eqb_eq in E1. by exists i.
  - destruct (find_on prefix infos) as [j|]; [|done]. intros [= <-]. by apply IH.
Qed.
(** The program of the Bluetooth log finds no old file on its path, and the nine
    before are still there under the next numbers. *)
Lemma bt_keeps_old ok w infos k i gens : find_on "bt" infos = Some k -> infos !! k = Some i -> is_internal w = false ->
  (length (child_path ".log" w i) < MAX_NAME_LEN)%nat -> (forall n, ok n = true) -> gens <> [] -> shows (files w) (child_path ".log" w i) 9 gens ->
  exists f, bt_log_handler true true ok w infos = Started (child_path ".log" w i) f /\ f !! child_path ".log" w i = None /\
    forall n, (n < 9)%nat -> f !! rolled (child_path ".log" w i) (S n) = gens !! n.
Proof.
  intros Fk Hi In L Ok Ng Sh. set (p := child_path ".log" w i) in *. eexists. split.
  { unfold bt_log_handler, program_handler. rewrite Fk, Hi, In. cbn [negb]. fold p. rewrite (proj2 (Nat.ltb_lt _ _)) by done. reflexivity. }
  assert (Lp : log_name p).
  { exists (cur_path w ++ chars "/" ++ top_logdir w ++ chars "/" ++ log_path i ++ chars "/" ++ log_basename i). unfold p, child_path. by rewrite <- !app_assoc. }
  by apply (rotate_all ok p 9 gens (files w) Lp); [lia| | |].
Qed.
(** A failed [fork] leads to a signal for every process. *)
Lemma fork_failure_stops_all : stopped (-1) = None.
Proof. reflexivity. Qed.

(** The command line of the kernel. *)
Example boot_ram_log_read : boot_ram_log (chars "console=ttyS1 boot_ram_log=0x9fe00000,0x10000 init=/init") = Some (0x9fe00000, 0x10000).
Proof. vm_compute. reflexivity. Qed.

(** The changed file is copied, as it is when the snapshots are done. *)
Lemma capture_place want on : forall xs head w fp w', capture_each want on xs w head fp = Done w' -> cur_path w' = cur_path w /\ top_logdir w' = top_logdir w.
Proof.
  induction xs as [|x xs IH]; intros [|i head] w fp w' E; cbn [capture_each] in E; try by injection E as <-.
  destruct (if want i then exec_or_dump_content on x w i fp else Done w) as [w1| |] eqn:E1; [|done|done]. cbn [mbind run_bind] in E. apply IH in E as [-> ->].
  destruct (want i); [|by injection E1 as <-]. unfold exec_or_dump_content in E1. destruct on; cbn [negb] in E1; [|by injection E1 as <-].
  destruct (match fp with Some p => _ | None => _ end) as [p| |]; [|done|done]. cbn [mbind run_bind] in E1.
  destruct (starts (opt i) "cmd").
  - unfold handler_exec_cmd in E1. destruct (negb (copens x)); [by injection E1 as <-|]. destruct (Nat.ltb _ _); [by injection E1 as <-|done].
  - injection E1 as <-. unfold handler_dump_file. destruct (negb (copens x)); [done|]. by destruct (output x).
Qed.
Lemma notify_copies on shot x w i file head w' t : notify_record on shot x w i file head = Done (w', true) -> source x = Some t -> n_opens x = true ->
  files w' !! (notify_dir w i ++ chars "/" ++ file ++ chars "_" ++ n_hms x ++ chars ".log") = Some t.
Proof.
  intros E S O. unfold notify_record in E. destruct (negb (bool_decide _)); [done|]. destruct (negb (changed x)); [done|].
  destruct (negb (bool_decide _)); [done|]. destruct (negb (_ && _)); [done|]. destruct (negb (bool_decide _)); [done|].
  unfold capture_snap_for_notify in E. destruct (capture_each _ _ _ _ _ _) as [w1| |] eqn:C; [|done|done]. cbn [mbind run_bind] in E. injection E as <-.
  apply capture_place in C as [C1 C2]. cbn [cur_path top_logdir set_files] in C1, C2. cbn [files set_files]. unfold cp_file. rewrite S, O.
  unfold notify_dir at 2. rewrite C1, C2. apply lookup_insert_eq.
Qed.
