(* ===== verification/Md5.v ===== *)
(** * MD5 digests (libs/libdm/src/sprd_dm_md5_b64.c, first part)

    The device-management client authenticates with MD5 digests.  [MD5_CTX] is
    a record; the registers A, B, C, D of the transformation are a [quad].  The
    64 lines of [DM_MD5Transform] are the table [md5_program]: the macro used,
    the order in which the registers are passed, the word of the block, the
    rotation and the constant; [run_line] is the macro.

    The reference is RFC 1321 as its text describes it: a loop over 64 steps
    with index formulas, and a digest of the whole padded message.  The code is
    shown to compute it for any division of the message into calls of
    [DMMD5Update]. *)
From S2P Require Import Prelude.

Definition S11 : Z := 7.
Definition S12 : Z := 12.
Definition S13 : Z := 17.
Definition S14 : Z := 22.
Definition S21 : Z := 5.
Definition S22 : Z := 9.
Definition S23 : Z := 14.
Definition S24 : Z := 20.
Definition S31 : Z := 4.
Definition S32 : Z := 11.
Definition S33 : Z := 16.
Definition S34 : Z := 23.
Definition S41 : Z := 6.
Definition S42 : Z := 10.
Definition S43 : Z := 15.
Definition S44 : Z := 21.

Definition HASHLEN : Z := 16.
(** The bytes of [PADDING], 64 of them. *)
Definition PADDING : list Z := 0x80 :: replicate 63 0.

Record quad := Q { qa : Z; qb : Z; qc : Z; qd : Z }.

Record MD5_CTX := mkMd5 {
  state : quad;
  count0 : Z;
  count1 : Z;
  buffer : list Z }.

(** ** The transformation *)
Definition F (x y z : Z) : Z := Z.lxor z (Z.land x (Z.lxor y z)).
Definition G (x y z : Z) : Z := Z.lxor y (Z.land z (Z.lxor y x)).
Definition H (x y z : Z) : Z := Z.lxor (Z.lxor x y) z.
Definition I (x y z : Z) : Z := Z.lxor y (Z.lor x (u32 (Z.lnot z))).
Definition ROTATE_LEFT (x n : Z) : Z := Z.lor (u32 (Z.shiftl x n)) (Z.shiftr x (32 - n)).

(** The four macros differ in the function only. *)
Inductive md5_macro := FF | GG | HH | II.
Definition macro_fun (m : md5_macro) : Z -> Z -> Z -> Z :=
  match m with FF => F | GG => G | HH => H | II => I end.
Definition macro (m : md5_macro) (a b c d x s ac : Z) : Z :=
  ROTATE_LEFT (a +u (macro_fun m b c d + x + ac)) s +u b.

(** The orders in which the registers are passed to a macro; the first is the
    one assigned. *)
Inductive order := abcd | dabc | cdab | bcda.
Definition set_first (o : order) (f : Z -> Z -> Z -> Z -> Z) (q : quad) : quad :=
  let 'Q a b c d := q in
  match o with
  | abcd => Q (f a b c d) b c d
  | dabc => Q a b c (f d a b c)
  | cdab => Q a b (f c d a b) d
  | bcda => Q a (f b c d a) c d
  end.

Definition md5_line : Type := md5_macro * order * nat * Z * Z.
Definition run_line (x : list Z) (q : quad) (l : md5_line) : quad :=
  let '(m, o, k, s, ac) := l in
  set_first o (fun a b c d => macro m a b c d (nth k x 0) s ac) q.

Definition md5_program : list md5_line := [
  (FF, abcd, 0%nat, S11, 0xd76aa478);
  (FF, dabc, 1%nat, S12, 0xe8c7b756);
  (FF, cdab, 2%nat, S13, 0x242070db);
  (FF, bcda, 3%nat, S14, 0xc1bdceee);
  (FF, abcd, 4%nat, S11, 0xf57c0faf);
  (FF, dabc, 5%nat, S12, 0x4787c62a);
  (FF, cdab, 6%nat, S13, 0xa8304613);
  (FF, bcda, 7%nat, S14, 0xfd469501);
  (FF, abcd, 8%nat, S11, 0x698098d8);
  (FF, dabc, 9%nat, S12, 0x8b44f7af);
  (FF, cdab, 10%nat, S13, 0xffff5bb1);
  (FF, bcda, 11%nat, S14, 0x895cd7be);
  (FF, abcd, 12%nat, S11, 0x6b901122);
  (FF, dabc, 13%nat, S12, 0xfd987193);
  (FF, cdab, 14%nat, S13, 0xa679438e);
  (FF, bcda, 15%nat, S14, 0x49b40821);
  (GG, abcd, 1%nat, S21, 0xf61e2562);
  (GG, dabc, 6%nat, S22, 0xc040b340);
  (GG, cdab, 11%nat, S23, 0x265e5a51);
  (GG, bcda, 0%nat, S24, 0xe9b6c7aa);
  (GG, abcd, 5%nat, S21, 0xd62f105d);
  (GG, dabc, 10%nat, S22, 0x2441453);
  (GG, cdab, 15%nat, S23, 0xd8a1e681);
  (GG, bcda, 4%nat, S24, 0xe7d3fbc8);
  (GG, abcd, 9%nat, S21, 0x21e1cde6);
  (GG, dabc, 14%nat, S22, 0xc33707d6);
  (GG, cdab, 3%nat, S23, 0xf4d50d87);
  (GG, bcda, 8%nat, S24, 0x455a14ed);
  (GG, abcd, 13%nat, S21, 0xa9e3e905);
  (GG, dabc, 2%nat, S22, 0xfcefa3f8);
  (GG, cdab, 7%nat, S23, 0x676f02d9);
  (GG, bcda, 12%nat, S24, 0x8d2a4c8a);
  (HH, abcd, 5%nat, S31, 0xfffa3942);
  (HH, dabc, 8%nat, S32, 0x8771f681);
  (HH, cdab, 11%nat, S33, 0x6d9d6122);
  (HH, bcda, 14%nat, S34, 0xfde5380c);
  (HH, abcd, 1%nat, S31, 0xa4beea44);
  (HH, dabc, 4%nat, S32, 0x4bdecfa9);
  (HH, cdab, 7%nat, S33, 0xf6bb4b60);
  (HH, bcda, 10%nat, S34, 0xbebfbc70);
  (HH, abcd, 13%nat, S31, 0x289b7ec6);
  (HH, dabc, 0%nat, S32, 0xeaa127fa);
  (HH, cdab, 3%nat, S33, 0xd4ef3085);
  (HH, bcda, 6%nat, S34, 0x4881d05);
  (HH, abcd, 9%nat, S31, 0xd9d4d039);
  (HH, dabc, 12%nat, S32, 0xe6db99e5);
  (HH, cdab, 15%nat, S33, 0x1fa27cf8);
  (HH, bcda, 2%nat, S34, 0xc4ac5665);
  (II, abcd, 0%nat, S41, 0xf4292244);
  (II, dabc, 7%nat, S42, 0x432aff97);
  (II, cdab, 14%nat, S43, 0xab9423a7);
  (II, bcda, 5%nat, S44, 0xfc93a039);
  (II, abcd, 12%nat, S41, 0x655b59c3);
  (II, dabc, 3%nat, S42, 0x8f0ccc92);
  (II, cdab, 10%nat, S43, 0xffeff47d);
  (II, bcda, 1%nat, S44, 0x85845dd1);
  (II, abcd, 8%nat, S41, 0x6fa87e4f);
  (II, dabc, 15%nat, S42, 0xfe2ce6e0);
  (II, cdab, 6%nat, S43, 0xa3014314);
  (II, bcda, 13%nat, S44, 0x4e0811a1);
  (II, abcd, 4%nat, S41, 0xf7537e82);
  (II, dabc, 11%nat, S42, 0xbd3af235);
  (II, cdab, 2%nat, S43, 0x2ad7d2bb);
  (II, bcda, 9%nat, S44, 0xeb86d391)].

(** [DM_Encode]: words to bytes, four per turn while [j < len - 3]. *)
Fixpoint encode_loop (fuel : nat) (input : list Z) (j len : Z) : option (list Z) :=
  match fuel with
  | O => None
  | S k =>
      if j <? len -u 3 then
        match input with
        | [] => None
        | w :: r =>
            o ← encode_loop k r (j +u 4) len;
            Some (Z.land w 0xff :: Z.land (Z.shiftr w 8) 0xff ::
                  Z.land (Z.shiftr w 16) 0xff :: Z.land (Z.shiftr w 24) 0xff :: o)
        end
      else Some []
  end.
Definition DM_Encode (input : list Z) (len : Z) : option (list Z) :=
  encode_loop (S (length input)) input 0 len.

(** [DM_Decode]: bytes to words. *)
Fixpoint decode_loop (fuel : nat) (input : list Z) (j len : Z) : option (list Z) :=
  match fuel with
  | O => None
  | S k =>
      if j <? len -u 3 then
        match input with
        | b0 :: b1 :: b2 :: b3 :: r =>
            o ← decode_loop k r (j +u 4) len;
            Some (Z.lor (Z.lor (Z.lor b0 (Z.shiftl b1 8)) (Z.shiftl b2 16)) (Z.shiftl b3 24) :: o)
        | _ => None
        end
      else Some []
  end.
Definition DM_Decode (input : list Z) (len : Z) : option (list Z) :=
  decode_loop (S (length input)) input 0 len.

Definition DM_MD5Transform (st : quad) (block : list Z) : option quad :=
  x ← DM_Decode block 64;
  let q := fold_left (run_line x) md5_program st in
  Some (Q (qa st +u qa q) (qb st +u qb q) (qc st +u qc q) (qd st +u qd q)).

(** ** The context operations *)
Definition DMMD5Init (c : MD5_CTX) : MD5_CTX :=
  mkMd5 (Q 0x67452301 0xefcdab89 0x98badcfe 0x10325476) 0 0 (buffer c).

(** The loop over whole blocks of the input: the state and the final [i].  It
    advances 64 bytes a turn, so the length of the input is enough fuel. *)
Fixpoint transform_loop (fuel : nat) (st : quad) (input : list Z) (i inputLen : Z)
  : option (quad * Z) :=
  match fuel with
  | O => None
  | S k =>
      if (i +u 63) <? inputLen then
        b ← load input i 64;
        st ← DM_MD5Transform st b;
        transform_loop k st input (i +u 64) inputLen
      else Some (st, i)
  end.

Definition DMMD5Update (c : MD5_CTX) (input : list Z) (inputLen : Z) : option MD5_CTX :=
  let index := Z.land (Z.shiftr (count0 c) 3) 0x3F in
  let bits := u32 (Z.shiftl inputLen 3) in
  let c0 := count0 c +u bits in
  let c1 := if c0 <? bits then count1 c +u 1 else count1 c in
  let c1 := c1 +u Z.shiftr inputLen 29 in
  let partLen := 64 -u index in
  if partLen <=? inputLen then
    part ← load input 0 partLen;
    buf ← store (buffer c) index part;
    st ← DM_MD5Transform (state c) buf;
    r ← transform_loop (S (length input)) st input partLen inputLen;
    let '(st, i) := r in
    rest ← load input i (inputLen -u i);
    buf ← store buf 0 rest;
    Some (mkMd5 st c0 c1 buf)
  else
    rest ← load input 0 inputLen;
    buf ← store (buffer c) index rest;
    Some (mkMd5 (state c) c0 c1 buf).

(** [DMMD5Final]: the digest and the zeroised context. *)
Definition DMMD5Final (c : MD5_CTX) : option (list Z * MD5_CTX) :=
  bits ← DM_Encode [count0 c; count1 c] 8;
  let index := Z.land (Z.shiftr (count0 c) 3) 0x3f in
  let padLen := if index <? 56 then 56 -u index else 120 -u index in
  c ← DMMD5Update c PADDING padLen;
  c ← DMMD5Update c bits 8;
  let 'Q a b cc d := state c in
  digest ← DM_Encode [a; b; cc; d] HASHLEN;
  Some (digest, mkMd5 (Q 0 0 0 0) 0 0 (replicate 64 0)).

(** [strlen]: the bytes before the terminator. *)
Fixpoint strlen (m : list Z) : option Z :=
  match m with
  | [] => None
  | b :: r => if b =? 0 then Some 0 else n ← strlen r; Some (n + 1)
  end.

(** [mmidm_calc_md5_cred] replaces the string by its digest in place; [ctx0] is
    the uninitialised context of the stack. *)
Definition mmidm_calc_md5_cred (ctx0 : MD5_CTX) (creddata : list Z) : option (list Z) :=
  n ← strlen creddata;
  c ← DMMD5Update (DMMD5Init ctx0) creddata n;
  r ← DMMD5Final c;
  m ← store creddata 0 (fst r);
  store m HASHLEN [0].

(** ** The reference: RFC 1321 *)

(** The sine of [x] as the sum of the first [n] terms of its series, in units
    of [2^-256]. *)
Fixpoint sine_terms (n : nat) (k t x acc : Z) : Z :=
  match n with
  | O => acc
  | S m => sine_terms m (k + 2) (- Z.quot (t * x * x) ((k + 1) * (k + 2))) x (acc + t)
  end.
Definition sine256 (x : Z) : Z := sine_terms 200 1 (x * 2 ^ 256) x 0.

(** [T[i]], the integer part of [2^32 * abs(sin(i + 1))]. *)
Definition rfc_T (i : Z) : Z := Z.abs (sine256 (i + 1)) / 2 ^ 224.

Definition rfc_F (x y z : Z) : Z := Z.lor (Z.land x y) (Z.land (Z.lnot x) z).
Definition rfc_G (x y z : Z) : Z := Z.lor (Z.land x z) (Z.land y (Z.lnot z)).
Definition rfc_H (x y z : Z) : Z := Z.lxor x (Z.lxor y z).
Definition rfc_I (x y z : Z) : Z := Z.lxor y (Z.lor x (Z.lnot z) mod 2 ^ 32).

(** The function, the word of the block and the rotation of step [i]. *)
Definition rfc_fun (i : Z) : Z -> Z -> Z -> Z :=
  nth (Z.to_nat (i / 16)) [rfc_F; rfc_G; rfc_H; rfc_I] rfc_I.
Definition rfc_k (i : Z) : Z :=
  nth (Z.to_nat (i / 16)) [i; (5 * i + 1) mod 16; (3 * i + 5) mod 16; (7 * i) mod 16] 0.
Definition rfc_s (i : Z) : Z :=
  nth (Z.to_nat (i mod 4))
    (nth (Z.to_nat (i / 16)) [[7; 12; 17; 22]; [5; 9; 14; 20]; [4; 11; 16; 23]; [6; 10; 15; 21]] []) 0.

Definition rotl (x s : Z) : Z := (x * 2 ^ s) mod 2 ^ 32 + x / 2 ^ (32 - s).

Definition rfc_step (x : list Z) (q : quad) (i : Z) : quad :=
  let 'Q a b c d := q in
  Q d ((b + rotl ((a + rfc_fun i b c d + nth (Z.to_nat (rfc_k i)) x 0 + rfc_T i) mod 2 ^ 32) (rfc_s i))
       mod 2 ^ 32) b c.

(** The words of a block, and the block function. *)
Definition words (block : list Z) : list Z := map (fun j => get32 block (4 * j)) (seq 0 16).
Definition compress (st : quad) (block : list Z) : quad :=
  let q := fold_left (rfc_step (words block)) (seqZ 0 64) st in
  Q ((qa st + qa q) mod 2 ^ 32) ((qb st + qb q) mod 2 ^ 32)
    ((qc st + qc q) mod 2 ^ 32) ((qd st + qd q) mod 2 ^ 32).

Fixpoint chain (n : nat) (st : quad) (l : list Z) : quad :=
  match n with
  | O => st
  | S k => chain k (compress st (take 64 l)) (drop 64 l)
  end.

Definition md5_iv : quad := Q 0x67452301 0xefcdab89 0x98badcfe 0x10325476.
Definition md5_pad (m : list Z) : list Z :=
  m ++ 0x80 :: replicate (Z.to_nat ((55 - zlen m) mod 64)) 0 ++ le_enc 8 ((8 * zlen m) mod 2 ^ 64).
Definition md5 (m : list Z) : list Z :=
  let p := md5_pad m in
  let q := chain (length p / 64) md5_iv p in
  le32 (qa q) ++ le32 (qb q) ++ le32 (qc q) ++ le32 (qd q).

(** ** The unrolled transformation is the loop of the RFC *)
Lemma F_rfc x y z : F x y z = rfc_F x y z.
Proof.
  apply Z.bits_inj'. intros i Hi. unfold F, rfc_F.
  rewrite ?Z.lxor_spec, ?Z.land_spec, ?Z.lor_spec, ?Z.land_spec, ?Z.lxor_spec, ?Z.lnot_spec by done.
  by destruct (Z.testbit x i), (Z.testbit y i), (Z.testbit z i).
Qed.
Lemma G_rfc x y z : G x y z = rfc_G x y z.
Proof.
  apply Z.bits_inj'. intros i Hi. unfold G, rfc_G.
  rewrite ?Z.lxor_spec, ?Z.land_spec, ?Z.lor_spec, ?Z.land_spec, ?Z.lxor_spec, ?Z.lnot_spec by done.
  by destruct (Z.testbit x i), (Z.testbit y i), (Z.testbit z i).
Qed.
Lemma I_rfc x y z : is_u32 x -> I x y z = rfc_I x y z.
Proof.
  intros Hx. unfold I, rfc_I. f_equal. apply Z.bits_inj'. intros i Hi. unfold u32.
  rewrite Z.lor_spec, !testbit_mod_pow2, Z.lor_spec by lia. destruct (Z.ltb_spec i 32); simpl; [done|].
  by rewrite (testbit_high 32 x) by (unfold is_u32 in Hx; lia).
Qed.

Lemma rotate_rotl x s : is_u32 x -> 0 < s < 32 -> ROTATE_LEFT x s = rotl x s.
Proof.
  intros Hx Hs. unfold ROTATE_LEFT, rotl, is_u32 in *.
  rewrite Z.shiftr_div_pow2 by lia.
  assert (E : 2 ^ 32 = 2 ^ (32 - s) * 2 ^ s) by (rewrite <- Z.pow_add_r by lia; f_equal; lia).
  assert (Hp : 0 < 2 ^ s) by (apply Z.pow_pos_nonneg; lia).
  assert (Hq : 0 < 2 ^ (32 - s)) by (apply Z.pow_pos_nonneg; lia).
  assert (M : (x * 2 ^ s) mod 2 ^ 32 = (x mod 2 ^ (32 - s)) * 2 ^ s).
  { rewrite E, Z.mul_mod_distr_r by lia. done. }
  unfold u32. rewrite Z.shiftl_mul_pow2, M by lia.
  rewrite <- Z.shiftl_mul_pow2 at 1 by lia. apply lor_shiftl_add; [lia|].
  split; [apply Z.div_pos; lia|]. apply Z.div_lt_upper_bound; lia.
Qed.

(** The order of the next line, and the registers in the order of a line. *)
Definition next_order (o : order) : order :=
  match o with abcd => dabc | dabc => cdab | cdab => bcda | bcda => abcd end.
Definition view (o : order) (q : quad) : quad :=
  let 'Q a b c d := q in
  match o with abcd => Q a b c d | dabc => Q d a b c | cdab => Q c d a b | bcda => Q b c d a end.
Definition step_order (i : Z) : order := nth (Z.to_nat (i mod 4)) [abcd; dabc; cdab; bcda] abcd.
Definition step_macro (i : Z) : md5_macro := nth (Z.to_nat (i / 16)) [FF; GG; HH; II] II.

Lemma md5_program_table :
  md5_program = map (fun i => (step_macro i, step_order i, Z.to_nat (rfc_k i), rfc_s i, rfc_T i)) (seqZ 0 64).
Proof. vm_compute. reflexivity. Qed.

Definition quad_ok (q : quad) : Prop :=
  is_u32 (qa q) /\ is_u32 (qb q) /\ is_u32 (qc q) /\ is_u32 (qd q).

Lemma view_ok o q : quad_ok (view o q) <-> quad_ok q.
Proof. destruct q, o; unfold quad_ok; simpl; tauto. Qed.

Lemma view_set_first o f q :
  view (next_order o) (set_first o f q) =
    (let 'Q a b c d := view o q in Q d (f a b c d) b c).
Proof. by destruct q, o. Qed.

Lemma macro_fun_rfc i b c d :
  0 <= i < 64 -> is_u32 b -> macro_fun (step_macro i) b c d = rfc_fun i b c d.
Proof.
  intros Hi Hb. unfold step_macro, rfc_fun.
  assert (E : i / 16 = 0 \/ i / 16 = 1 \/ i / 16 = 2 \/ i / 16 = 3) by zlia.
  destruct E as [-> | [-> | [-> | ->]]]; cbn.
  - apply F_rfc. - apply G_rfc. - unfold H, rfc_H. apply Z.lxor_assoc. - by apply I_rfc.
Qed.

Lemma rfc_s_range i : 0 <= i < 64 -> 0 < rfc_s i < 32.
Proof.
  intros Hi. pose proof (forall_below (fun i => (0 <? rfc_s i) && (rfc_s i <? 32)) 64) as P.
  specialize (P ltac:(vm_compute; reflexivity) i Hi). cbv beta in P.
  apply andb_prop in P as [?%Z.ltb_lt ?%Z.ltb_lt]. done.
Qed.

Lemma step_order_next i : 0 <= i -> step_order (i + 1) = next_order (step_order i).
Proof.
  intros Hi. unfold step_order.
  assert (E : i mod 4 = 0 \/ i mod 4 = 1 \/ i mod 4 = 2 \/ i mod 4 = 3) by zlia.
  destruct E as [E | [E | [E | E]]]; rewrite E;
    (replace ((i + 1) mod 4) with ((i mod 4 + 1) mod 4) by (rewrite Z.add_mod_idemp_l; lia));
    rewrite E; reflexivity.
Qed.

Lemma macro_rfc i a b c d x :
  0 <= i < 64 -> is_u32 b ->
  macro (step_macro i) a b c d x (rfc_s i) (rfc_T i) =
    (b + rotl ((a + rfc_fun i b c d + x + rfc_T i) mod 2 ^ 32) (rfc_s i)) mod 2 ^ 32.
Proof.
  intros Hi Hb. unfold macro. rewrite macro_fun_rfc by done. unfold u32.
  rewrite rotate_rotl by (apply rfc_s_range || apply u32_range; done).
  rewrite Z.add_comm. by rewrite !Z.add_assoc.
Qed.

Lemma rfc_step_ok x q i : quad_ok q -> quad_ok (rfc_step x q i).
Proof.
  destruct q as [a b c d]. unfold quad_ok. cbn [rfc_step qa qb qc qd]. intros (Ha & Hb & Hc & Hd).
  pose proof (u32_range (b + rotl ((a + rfc_fun i b c d + nth (Z.to_nat (rfc_k i)) x 0 + rfc_T i) mod 2 ^ 32) (rfc_s i))).
  by split_and!.
Qed.

Lemma run_line_rfc x q i :
  0 <= i < 64 -> quad_ok q ->
  view (step_order (i + 1))
    (run_line x q (step_macro i, step_order i, Z.to_nat (rfc_k i), rfc_s i, rfc_T i)) =
  rfc_step x (view (step_order i) q) i.
Proof.
  intros Hi Hq. cbn [run_line]. rewrite step_order_next, view_set_first by lia.
  apply (view_ok (step_order i)) in Hq. destruct (view (step_order i) q) as [a b c d].
  cbn [rfc_step]. f_equal. apply macro_rfc; [done|]. apply Hq.
Qed.

Lemma fold_lines_rfc x n : forall i q,
  0 <= i -> i + Z.of_nat n <= 64 -> quad_ok q ->
  view (step_order (i + Z.of_nat n))
    (fold_left (run_line x)
       (map (fun i => (step_macro i, step_order i, Z.to_nat (rfc_k i), rfc_s i, rfc_T i)) (seqZ i (Z.of_nat n))) q) =
  fold_left (rfc_step x) (seqZ i (Z.of_nat n)) (view (step_order i) q).
Proof.
  induction n as [|n IH]; intros i q Hi Hn Hq.
  - cbn. by rewrite Z.add_0_r.
  - rewrite seqZ_cons by lia. cbn [map fold_left].
    replace (Z.pred (Z.of_nat (S n))) with (Z.of_nat n) by lia.
    replace (Z.succ i) with (i + 1) by lia. rewrite <- run_line_rfc by (lia || done).
    rewrite <- IH; [| lia | lia | ].
    + by replace (i + 1 + Z.of_nat n) with (i + Z.of_nat (S n)) by lia.
    + apply (view_ok (step_order (i + 1))). rewrite run_line_rfc by (lia || done).
      by apply rfc_step_ok, view_ok.
Qed.

Lemma run_program_rfc x q :
  quad_ok q -> fold_left (run_line x) md5_program q = fold_left (rfc_step x) (seqZ 0 64) q.
Proof.
  intros Hq. rewrite md5_program_table.
  pose proof (fold_lines_rfc x 64 0 q ltac:(lia) ltac:(lia) Hq) as E.
  change (step_order (0 + Z.of_nat 64)) with abcd in E. change (step_order 0) with abcd in E.
  change (Z.of_nat 64) with 64 in E.
  assert (V : forall r, view abcd r = r) by (by intros []). by rewrite !V in E.
Qed.

(** ** Words and bytes *)
Lemma land_ff w k : 0 <= k -> Z.land (Z.shiftr w k) 0xff = (w / 2 ^ k) mod 256.
Proof. intros. rewrite Z.shiftr_div_pow2 by done. apply (Z.land_ones _ 8). lia. Qed.

Lemma encode_loop_spec ws : forall fuel j,
  (length ws < fuel)%nat -> 0 <= j -> j + 4 * zlen ws < 2 ^ 32 -> 0 < zlen ws \/ 3 <= j ->
  encode_loop fuel ws j (j + 4 * zlen ws) = Some (flat_map le32 ws).
Proof.
  induction ws as [|w ws IH]; intros [|fuel] j Hf Hj Hb Hn; cbn [length] in *; try lia; cbn [encode_loop].
  - rewrite u32_small by (unfold is_u32; lia). by rewrite (proj2 (Z.ltb_ge _ _)) by lia.
  - rewrite u32_small by (unfold is_u32; lia). rewrite (proj2 (Z.ltb_lt _ _)) by lia.
    rewrite u32_small by (unfold is_u32; lia).
    replace (j + 4 * Z.of_nat (S (length ws))) with (j + 4 + 4 * zlen ws) by lia.
    rewrite IH by lia. cbn [mbind option_bind flat_map]. do 2 f_equal.
    rewrite !land_ff by lia. unfold le32. cbn [le_enc app].
    rewrite !Z.div_div by lia. repeat f_equal.
    apply (Z.land_ones w 8). lia.
Qed.

Lemma word_le b0 b1 b2 b3 :
  is_byte b0 -> is_byte b1 -> is_byte b2 -> is_byte b3 ->
  Z.lor (Z.lor (Z.lor b0 (Z.shiftl b1 8)) (Z.shiftl b2 16)) (Z.shiftl b3 24) = le_dec [b0; b1; b2; b3].
Proof.
  unfold is_byte. intros. rewrite (Z.lor_comm b0), lor_shiftl_add by lia.
  rewrite (Z.lor_comm _ (Z.shiftl b2 16)), lor_shiftl_add by lia.
  rewrite (Z.lor_comm _ (Z.shiftl b3 24)), lor_shiftl_add by lia. cbn [le_dec]. lia.
Qed.

Lemma decode_loop_spec n : forall fuel l j,
  bytes l -> length l = (4 * n)%nat -> (n < fuel)%nat -> 0 <= j -> j + 4 * Z.of_nat n < 2 ^ 32 ->
  (0 < n)%nat \/ 3 <= j ->
  decode_loop fuel l j (j + 4 * Z.of_nat n) = Some (map (fun k => get32 l (4 * k)) (seq 0 n)).
Proof.
  induction n as [|n IH]; intros [|fuel] l j B L Hf Hj Hb Hn; try lia; cbn [decode_loop].
  - rewrite u32_small by (unfold is_u32; lia). by rewrite (proj2 (Z.ltb_ge _ _)) by lia.
  - rewrite u32_small by (unfold is_u32; lia). rewrite (proj2 (Z.ltb_lt _ _)) by lia.
    destruct l as [|b0 [|b1 [|b2 [|b3 l]]]]; cbn [length] in L; try lia.
    do 4 (apply Forall_cons_1 in B as [? B]).
    rewrite u32_small by (unfold is_u32; lia).
    replace (j + 4 * Z.of_nat (S n)) with (j + 4 + 4 * Z.of_nat n) by lia.
    rewrite IH by (lia || done). cbn [mbind option_bind]. rewrite word_le by done.
    cbn [seq map]. f_equal. f_equal.
    rewrite <- seq_shift, map_map. apply map_ext. intros k.
    replace (4 * S k)%nat with (length [b0; b1; b2; b3] + 4 * k)%nat by (cbn [length]; lia).
    change (b0 :: b1 :: b2 :: b3 :: l) with ([b0; b1; b2; b3] ++ l). by rewrite get32_skip.
Qed.

Lemma decode_words block :
  bytes block -> length block = 64%nat -> DM_Decode block 64 = Some (words block).
Proof.
  intros B L. unfold DM_Decode, words.
  apply (decode_loop_spec 16 _ block 0); auto; lia.
Qed.

(** [DM_MD5Transform] is the block function of the RFC. *)
Lemma transform_compress st block :
  bytes block -> length block = 64%nat -> quad_ok st ->
  DM_MD5Transform st block = Some (compress st block).
Proof.
  intros B L Hst. unfold DM_MD5Transform. rewrite decode_words by done. cbn [mbind option_bind].
  by rewrite run_program_rfc.
Qed.

Lemma compress_ok st block : quad_ok (compress st block).
Proof.
  unfold compress, quad_ok. cbn [qa qb qc qd].
  split_and!; apply u32_range.
Qed.

(** ** The chain over whole blocks *)
Lemma chain_ok n st l : quad_ok st -> quad_ok (chain n st l).
Proof. revert st l. induction n; simpl; auto using compress_ok. Qed.

Lemma chain_app n k st a b :
  length a = (64 * n)%nat -> chain (n + k) st (a ++ b) = chain k (chain n st a) b.
Proof.
  revert st a. induction n as [|n IH]; intros st a L; simpl.
  - by destruct a.
  - rewrite take_app_le, drop_app_le by lia. apply IH. rewrite length_drop. lia.
Qed.

Lemma chain_prefix n st a b :
  (64 * n <= length a)%nat -> chain n st (a ++ b) = chain n st a.
Proof.
  revert st a. induction n as [|n IH]; intros st a L; simpl; [done|].
  rewrite take_app_le, drop_app_le by lia. apply IH. rewrite length_drop. lia.
Qed.

(** ** The context after a message *)

(** The bit counter of a message of [n] bytes. *)
Definition counts (n : Z) (c : MD5_CTX) : Prop :=
  count0 c = (8 * n) mod 2 ^ 32 /\ count1 c = (8 * n / 2 ^ 32) mod 2 ^ 32.

(** The context has absorbed [m]: the whole blocks [m1] are in the state, the
    rest [m2] is at the start of the buffer. *)
Record absorbed (m : list Z) (c : MD5_CTX) (n : nat) (m1 m2 : list Z) : Prop := {
  ab_split : m = m1 ++ m2;
  ab_whole : length m1 = (64 * n)%nat;
  ab_part : (length m2 < 64)%nat;
  ab_state : state c = chain n md5_iv m1;
  ab_rest : take (length m2) (buffer c) = m2;
  ab_buffer : length (buffer c) = 64%nat;
  ab_bytes : bytes (buffer c);
  ab_counts : counts (zlen m) c }.

Lemma index_spec n c :
  0 <= n -> counts n c -> Z.land (Z.shiftr (count0 c) 3) 0x3F = n mod 64.
Proof.
  intros Hn [-> _]. rewrite Z.shiftr_div_pow2 by lia. rewrite (Z.land_ones _ 6) by lia.
  change (2 ^ 3) with 8. change (2 ^ 6) with 64. zlia.
Qed.

Lemma counts_step n k c st buf :
  0 <= n -> 0 <= k < 2 ^ 32 -> counts n c ->
  let bits := u32 (Z.shiftl k 3) in
  let c0 := count0 c +u bits in
  counts (n + k)
    (mkMd5 st c0 ((if c0 <? bits then count1 c +u 1 else count1 c) +u Z.shiftr k 29) buf).
Proof.
  intros Hn Hk [E0 E1]. cbv zeta. unfold counts. cbn [count0 count1].
  rewrite E0, E1, Z.shiftl_mul_pow2, Z.shiftr_div_pow2 by lia. unfold u32.
  split; [zlia|]. destruct (Z.ltb_spec (((8 * n) mod 2 ^ 32 + (k * 2 ^ 3) mod 2 ^ 32) mod 2 ^ 32) ((k * 2 ^ 3) mod 2 ^ 32)).
  - rewrite Zplus_mod_idemp_l, <- Z.add_assoc, Zplus_mod_idemp_l. f_equal. zlia.
  - rewrite Zplus_mod_idemp_l. f_equal. zlia.
Qed.

(** The loop over the whole blocks of the input. *)
Lemma transform_loop_spec k : forall fuel st mem i n,
  bytes mem -> quad_ok st -> 0 <= i -> n <= zlen mem -> n + 63 < 2 ^ 32 ->
  i + 64 * Z.of_nat k <= n < i + 64 * Z.of_nat k + 64 -> (k < fuel)%nat ->
  transform_loop fuel st mem i n =
    Some (chain k st (drop (Z.to_nat i) mem), i + 64 * Z.of_nat k).
Proof.
  induction k as [|k IH]; intros [|fuel] st mem i n B Hst Hi Hm Hn Hk Hf; try lia; cbn [transform_loop].
  - rewrite u32_small by (unfold is_u32; lia). rewrite (proj2 (Z.ltb_ge _ _)) by lia.
    cbn [chain]. do 2 f_equal. lia.
  - rewrite u32_small by (unfold is_u32; lia). rewrite (proj2 (Z.ltb_lt _ _)) by lia.
    unfold load. rewrite !(proj2 (Z.leb_le _ _)) by lia. cbn [andb mbind option_bind].
    change (Z.to_nat 64) with 64%nat. rewrite transform_compress; try done.
    + cbn [mbind option_bind]. rewrite u32_small by (unfold is_u32; lia).
      rewrite IH; try lia; auto using compress_ok. cbn [chain]. do 2 f_equal; [|lia].
      f_equal. rewrite drop_drop. f_equal. lia.
    + auto using Forall_take, Forall_drop.
    + rewrite length_take, length_drop. lia.
Qed.

Lemma part_index (m m1 m2 : list Z) n :
  m = m1 ++ m2 -> length m1 = (64 * n)%nat -> (length m2 < 64)%nat -> zlen m mod 64 = zlen m2.
Proof. intros -> L1 L2. rewrite length_app. zlia. Qed.

(** Filling the buffer behind the absorbed rest. *)
Lemma splice_rest (buf m2 p : list Z) :
  take (length m2) buf = m2 -> (length m2 + length p <= length buf)%nat ->
  take (length m2 + length p) (splice buf (length m2) p) = m2 ++ p.
Proof.
  intros E L. unfold splice. rewrite E, app_assoc.
  rewrite <- length_app. apply take_app_0.
Qed.

(** A call that does not complete a block. *)
Lemma update_short m c n m1 m2 mem k :
  absorbed m c n m1 m2 -> bytes mem -> 0 <= k <= zlen mem -> k < 64 - zlen m2 ->
  exists c', DMMD5Update c mem k = Some c' /\
    absorbed (m ++ take (Z.to_nat k) mem) c' n m1 (m2 ++ take (Z.to_nat k) mem).
Proof.
  intros A B Hk Hs. pose proof A as [Sp W Pt St R Bl Bb Cn].
  assert (Ix := index_spec (zlen m) c ltac:(lia) Cn). rewrite (part_index _ _ _ _ Sp W Pt) in Ix.
  unfold DMMD5Update. rewrite Ix, (u32_small (64 - zlen m2)) by (unfold is_u32; lia).
  rewrite (proj2 (Z.leb_gt _ _)) by lia. rewrite load_0 by lia. cbn [mbind option_bind].
  set (p := take (Z.to_nat k) mem). assert (Lp : zlen p = k) by (unfold p; rewrite length_take; lia).
  unfold store. rewrite !(proj2 (Z.leb_le _ _)) by lia. cbn [andb mbind option_bind].
  eexists. split; [done|]. split; cbn [state buffer].
  - by rewrite Sp, app_assoc.
  - done.
  - rewrite length_app. lia.
  - done.
  - rewrite length_app, Nat2Z.id. apply splice_rest; [done|lia].
  - rewrite splice_length; lia.
  - apply bytes_splice; [done|]. unfold p. auto using Forall_take.
  - rewrite length_app, Nat2Z.inj_add, Lp. apply counts_step; [lia|lia|done].
Qed.

(** A call that completes at least one block. *)
Lemma update_long m c n m1 m2 mem k :
  absorbed m c n m1 m2 -> bytes mem -> 0 <= k <= zlen mem -> 64 - zlen m2 <= k -> k + 63 < 2 ^ 32 ->
  exists c' n' m1' m2', DMMD5Update c mem k = Some c' /\
    absorbed (m ++ take (Z.to_nat k) mem) c' n' m1' m2'.
Proof.
  intros A B Hk Hs Hb. pose proof A as [Sp W Pt St R Bl Bb Cn].
  assert (Ix := index_spec (zlen m) c ltac:(lia) Cn). rewrite (part_index _ _ _ _ Sp W Pt) in Ix.
  unfold DMMD5Update. rewrite Ix, (u32_small (64 - zlen m2)) by (unfold is_u32; lia).
  rewrite (proj2 (Z.leb_le _ k)) by lia. rewrite load_0 by lia. cbn [mbind option_bind].
  set (p := take (Z.to_nat (64 - zlen m2)) mem).
  assert (Lp : zlen p = 64 - zlen m2) by (unfold p; rewrite length_take; lia).
  assert (Eb : store (buffer c) (zlen m2) p = Some (m2 ++ p)).
  { unfold store. rewrite !(proj2 (Z.leb_le _ _)) by lia. cbn [andb]. f_equal.
    rewrite Nat2Z.id, <- (splice_rest (buffer c) m2 p R) by lia. rewrite take_ge; [done|].
    rewrite splice_length; lia. }
  rewrite Eb. cbn [mbind option_bind]. assert (Bm2 : bytes m2) by (rewrite <- R; by apply Forall_take).
  assert (Bp : bytes p) by (unfold p; by apply Forall_take).
  assert (Lb : length (m2 ++ p) = 64%nat) by (rewrite length_app; lia).
  rewrite transform_compress; [| by apply Forall_app_2 | done | rewrite St; by apply chain_ok ].
  cbn [mbind option_bind]. set (j := Z.to_nat ((k - (64 - zlen m2)) / 64)).
  assert (Hj : (64 - zlen m2) + 64 * Z.of_nat j <= k < (64 - zlen m2) + 64 * Z.of_nat j + 64)
    by (unfold j; zlia).
  rewrite (transform_loop_spec j) by (lia || auto using compress_ok). cbn [mbind option_bind].
  remember (64 - zlen m2 + 64 * Z.of_nat j) as i eqn:Ei. rewrite (u32_small (k - i)) by (unfold is_u32; lia).
  unfold load. rewrite !(proj2 (Z.leb_le _ _)) by lia. cbn [andb mbind option_bind].
  set (rest := take (Z.to_nat (k - i)) (drop (Z.to_nat i) mem)).
  assert (Lr : zlen rest = k - i) by (unfold rest; rewrite length_take, length_drop; lia).
  unfold store. rewrite !(proj2 (Z.leb_le _ _)) by lia. cbn [andb mbind option_bind].
  set (mid := take (64 * j) (drop (length p) mem)).
  assert (Lm : length mid = (64 * j)%nat) by (unfold mid; rewrite length_take, length_drop; lia).
  assert (Ek : take (Z.to_nat k) mem = p ++ mid ++ rest).
  { unfold mid, rest, p. rewrite <- (take_drop (Z.to_nat (64 - zlen m2)) (take (Z.to_nat k) mem)).
    rewrite take_take, Nat.min_l by lia. f_equal.
    rewrite skipn_firstn_comm.
    rewrite <- (take_drop (64 * j) (take (Z.to_nat k - Z.to_nat (64 - zlen m2)) _)).
    rewrite take_take, Nat.min_l by lia. f_equal; [f_equal; f_equal; rewrite length_take; lia|].
    rewrite skipn_firstn_comm, drop_drop. f_equal; [lia|]. f_equal. lia. }
  eexists _, (n + S j)%nat, (m1 ++ m2 ++ p ++ mid), rest. split; [done|]. split; cbn [state buffer].
  - rewrite Sp, Ek. by rewrite <- !app_assoc.
  - rewrite !length_app, Lm in *. lia.
  - lia.
  - rewrite chain_app by done. rewrite St. change (S j) with (1 + j)%nat.
    rewrite (app_assoc m2 p mid), (chain_app 1) by lia. cbn [chain].
    rewrite take_ge by lia. replace (Z.to_nat (64 - zlen m2)) with (length p) by lia.
    rewrite <- (take_drop (64 * j) (drop (length p) mem)) at 1. fold mid.
    by rewrite chain_prefix by lia.
  - change (Z.to_nat 0) with 0%nat. unfold splice. rewrite firstn_O, app_nil_l. apply take_app_0.
  - rewrite splice_length by lia. done.
  - apply bytes_splice; [by apply Forall_app_2|]. unfold rest. auto using Forall_take, Forall_drop.
  - rewrite length_app, length_take, Nat2Z.inj_add. replace (Z.of_nat (_ `min` _)) with k by lia.
    apply counts_step; [lia|lia|done].
Qed.

(** Every call of [DMMD5Update] absorbs its input. *)
Lemma update_absorbs m c n m1 m2 mem k :
  absorbed m c n m1 m2 -> bytes mem -> 0 <= k <= zlen mem -> k + 63 < 2 ^ 32 ->
  exists c' n' m1' m2', DMMD5Update c mem k = Some c' /\
    absorbed (m ++ take (Z.to_nat k) mem) c' n' m1' m2'.
Proof.
  intros A B Hk Hb. destruct (Z.lt_ge_cases k (64 - zlen m2)).
  - destruct (update_short m c n m1 m2 mem k) as (c' & E & A'); [done..|].
    by exists c', n, m1, (m2 ++ take (Z.to_nat k) mem).
  - by apply (update_long m c n m1 m2).
Qed.

Lemma le_enc_split n k z : le_enc (n + k) z = le_enc n z ++ le_enc k (z / 256 ^ Z.of_nat n).
Proof.
  revert z. induction n as [|n IH]; intros z; cbn [Nat.add le_enc app].
  - by rewrite Z.div_1_r.
  - rewrite IH. do 3 f_equal. rewrite Nat2Z.inj_succ, Z.pow_succ_r by lia.
    by rewrite Z.div_div by lia.
Qed.

Lemma le_enc_mod n z : le_enc n (z mod 256 ^ Z.of_nat n) = le_enc n z.
Proof.
  revert z. induction n as [|n IH]; intros z; cbn [le_enc]; [done|].
  rewrite Nat2Z.inj_succ, Z.pow_succ_r by lia.
  assert (0 < 256 ^ Z.of_nat n) by (apply Z.pow_pos_nonneg; lia).
  rewrite Z.rem_mul_r by lia. rewrite (Z.mul_comm 256 (_ mod _)). f_equal.
  - rewrite Z_mod_plus_full. by rewrite Z.mod_mod by lia.
  - rewrite Z.div_add, (Z.div_small (z mod 256)) by (zlia || lia). apply IH.
Qed.

Lemma encode_bits c n :
  counts n c -> DM_Encode [count0 c; count1 c] 8 = Some (le_enc 8 ((8 * n) mod 2 ^ 64)).
Proof.
  intros [E0 E1]. unfold DM_Encode.
  transitivity (Some (flat_map le32 [count0 c; count1 c])).
  { apply (encode_loop_spec [count0 c; count1 c] 3 0); cbn [length]; lia. }
  f_equal. cbn [flat_map]. rewrite app_nil_r, E0, E1.
  change (2 ^ 64) with (256 ^ Z.of_nat 8). rewrite (le_enc_mod 8).
  change (2 ^ 32) with (256 ^ Z.of_nat 4). rewrite !(le_enc_mod 4).
  symmetry. apply (le_enc_split 4 4).
Qed.

Definition pad_bytes (m : list Z) : list Z := 0x80 :: replicate (Z.to_nat ((55 - zlen m) mod 64)) 0.

Lemma pad_length c n m1 m2 m :
  absorbed m c n m1 m2 ->
  (if Z.land (Z.shiftr (count0 c) 3) 0x3f <? 56
   then 56 -u Z.land (Z.shiftr (count0 c) 3) 0x3f
   else 120 -u Z.land (Z.shiftr (count0 c) 3) 0x3f) = (55 - zlen m) mod 64 + 1.
Proof.
  intros A. rewrite (index_spec (zlen m) c) by (lia || apply A).
  destruct (Z.ltb_spec (zlen m mod 64) 56); rewrite u32_small by (unfold is_u32; zlia); zlia.
Qed.

Lemma padding_prefix m :
  take (Z.to_nat ((55 - zlen m) mod 64 + 1)) PADDING = pad_bytes m.
Proof.
  unfold PADDING, pad_bytes. replace (Z.to_nat (_ + 1)) with (S (Z.to_nat ((55 - zlen m) mod 64))) by zlia.
  rewrite firstn_cons, take_replicate. f_equal. f_equal. zlia.
Qed.

(** [DMMD5Final] returns the digest of the absorbed message. *)
Lemma final_digest m c n m1 m2 :
  absorbed m c n m1 m2 -> DMMD5Final c = Some (md5 m, mkMd5 (Q 0 0 0 0) 0 0 (replicate 64 0)).
Proof.
  intros A. unfold DMMD5Final. rewrite (encode_bits c (zlen m)) by apply A. cbn [mbind option_bind].
  rewrite (pad_length _ _ _ _ _ A).
  assert (BP : bytes PADDING) by (by apply (bool_decide_eq_true_1 (bytes PADDING))).
  destruct (update_absorbs m c n m1 m2 PADDING ((55 - zlen m) mod 64 + 1)) as (c' & n' & a & b & -> & A');
    [done | done | change (zlen PADDING) with 64; zlia | zlia |].
  rewrite padding_prefix in A'. cbn [mbind option_bind]. set (bits := le_enc 8 ((8 * zlen m) mod 2 ^ 64)).
  assert (Lb : length bits = 8%nat) by apply le_enc_length.
  destruct (update_absorbs _ c' n' a b bits 8 A') as (c2 & n2 & a2 & b2 & -> & A2);
    [apply le_enc_bytes | lia | lia |]. cbn [mbind option_bind].
  rewrite take_ge, <- app_assoc in A2 by lia.
  assert (Ep : m ++ pad_bytes m ++ bits = md5_pad m) by done. rewrite Ep in A2.
  assert (Lp : zlen (md5_pad m) mod 64 = 0).
  { unfold md5_pad. rewrite !length_app. cbn [length]. rewrite length_app, length_replicate, le_enc_length. zlia. }
  destruct A2 as [Sp W Pt St _ _ _ _]. rewrite (part_index _ _ _ _ Sp W Pt) in Lp.
  destruct b2; [|cbn [length] in Lp; lia]. rewrite app_nil_r in Sp.
  unfold md5. rewrite Sp in *. replace (length a2 / 64)%nat with n2.
  - rewrite <- St. destruct (state c2) as [qa0 qb0 qc0 qd0]. 
    assert (Ee : DM_Encode [qa0; qb0; qc0; qd0] HASHLEN = Some (flat_map le32 [qa0; qb0; qc0; qd0]))
      by (apply (encode_loop_spec [qa0; qb0; qc0; qd0] 5 0); cbn [length]; lia).
    rewrite Ee. cbn [mbind option_bind flat_map qa qb qc qd fst]. by rewrite app_nil_r.
  - rewrite W. rewrite Nat.mul_comm. by rewrite Nat.div_mul by lia.
Qed.

Lemma init_absorbed c0 :
  length (buffer c0) = 64%nat -> bytes (buffer c0) -> absorbed [] (DMMD5Init c0) 0 [] [].
Proof. intros. split; try done; cbn; lia. Qed.

(** A message in pieces, one call of [DMMD5Update] each. *)
Fixpoint update_all (c : MD5_CTX) (ps : list (list Z)) : option MD5_CTX :=
  match ps with
  | [] => Some c
  | p :: r => c ← DMMD5Update c p (zlen p); update_all c r
  end.

Lemma update_all_absorbs ps : forall m c n m1 m2,
  absorbed m c n m1 m2 -> Forall (fun p => bytes p /\ zlen p + 63 < 2 ^ 32) ps ->
  exists c' n' m1' m2', update_all c ps = Some c' /\ absorbed (m ++ concat ps) c' n' m1' m2'.
Proof.
  induction ps as [|p ps IH]; intros m c n m1 m2 A Hp; cbn [update_all concat].
  - rewrite app_nil_r. eauto 6.
  - apply Forall_cons_1 in Hp as [[B L] Hp].
    destruct (update_absorbs m c n m1 m2 p (zlen p)) as (c1 & n1 & a & b & -> & A1); [done|done|lia|done|].
    cbn [mbind option_bind]. rewrite Nat2Z.id, take_ge in A1 by lia.
    destruct (IH _ _ _ _ _ A1 Hp) as (c2 & n2 & a2 & b2 & E & A2). rewrite <- app_assoc in A2. eauto 6.
Qed.

(** C36: the MD5 code computes RFC 1321.  However a message is cut into pieces,
    initialising a context, absorbing the pieces one by one and finishing
    yields the digest of the whole message as the RFC defines it: padding,
    64-bit length, 64-step block function with its sine constants. *)
Theorem md5_streaming c0 ps :
  length (buffer c0) = 64%nat -> bytes (buffer c0) ->
  Forall (fun p => bytes p /\ zlen p + 63 < 2 ^ 32) ps ->
  exists c, update_all (DMMD5Init c0) ps = Some c /\
    DMMD5Final c = Some (md5 (concat ps), mkMd5 (Q 0 0 0 0) 0 0 (replicate 64 0)).
Proof.
  intros L B Hp. destruct (update_all_absorbs ps [] _ _ _ _ (init_absorbed c0 L B) Hp) as (c & n & a & b & E & A).
  exists c. split; [done|]. apply (final_digest _ _ _ _ _ A).
Qed.

Definition ctx0 : MD5_CTX := mkMd5 (Q 0 0 0 0) 0 0 (replicate 64 0).

Lemma md5_streaming_witness :
  exists c, update_all (DMMD5Init ctx0) [[97]; replicate 70 98; []; [99; 100]] = Some c /\
    DMMD5Final c = Some (md5 (concat [[97]; replicate 70 98; []; [99; 100]]),
                         mkMd5 (Q 0 0 0 0) 0 0 (replicate 64 0)).
Proof.
  apply (md5_streaming ctx0).
  - reflexivity.
  - by apply (bool_decide_eq_true_1 (bytes _)).
  - repeat apply Forall_cons_2; try apply Forall_nil_2; (split; [by apply (bool_decide_eq_true_1 (bytes _)) | done]).
Defined.

(** The digest of [abc] in the appendix of the RFC. *)
Example md5_abc :
  md5 [97; 98; 99] =
    [0x90; 0x01; 0x50; 0x98; 0x3c; 0xd2; 0x4f; 0xb0; 0xd6; 0x96; 0x3f; 0x7d; 0x28; 0xe1; 0x7f; 0x72].
Proof. vm_compute. reflexivity. Qed.

Lemma strlen_spec m t : Forall (fun b => b <> 0) m -> strlen (m ++ 0 :: t) = Some (zlen m).
Proof.
  induction 1 as [|b m Hb _ IH]; cbn [app strlen length]; [done|].
  rewrite (proj2 (Z.eqb_neq b 0)) by done. rewrite IH. cbn [mbind option_bind]. f_equal. lia.
Qed.

Lemma md5_length m : length (md5 m) = 16%nat.
Proof. unfold md5. by rewrite !length_app, !le_enc_length. Qed.

(** [mmidm_calc_md5_cred] replaces a string by the sixteen bytes of its
    digest and a terminator when the caller's buffer has at least seventeen
    bytes, and writes outside a shorter one, whatever the string. *)
Lemma md5_cred_in_place c0 m t :
  length (buffer c0) = 64%nat -> bytes (buffer c0) ->
  Forall (fun b => b <> 0) m -> bytes (m ++ 0 :: t) -> zlen m + 63 < 2 ^ 32 ->
  mmidm_calc_md5_cred c0 (m ++ 0 :: t) =
    if 17 <=? zlen (m ++ 0 :: t) then Some (md5 m ++ 0 :: drop 17 (m ++ 0 :: t)) else None.
Proof.
  intros L B0 Nz B Hl. unfold mmidm_calc_md5_cred. rewrite strlen_spec by done. cbn [mbind option_bind].
  set (mem := m ++ 0 :: t) in *.
  assert (Lm : zlen m <= zlen mem) by (unfold mem; rewrite length_app; lia).
  destruct (update_absorbs [] _ _ _ _ mem (zlen m) (init_absorbed c0 L B0) B) as (c & n & a & b & -> & A); [lia|done|].
  rewrite Nat2Z.id in A. cbn [app] in A. unfold mem in A at 1. rewrite take_app_0 in A.
  cbn [mbind option_bind]. rewrite (final_digest _ _ _ _ _ A). cbn [mbind option_bind fst].
  unfold store, HASHLEN. rewrite md5_length. change (0 <=? 0) with true. change (0 <=? 16) with true. cbn [andb].
  destruct (Z.leb_spec 17 (zlen mem)).
  - rewrite (proj2 (Z.leb_le _ _)) by lia. cbn [mbind option_bind].
    rewrite splice_length by (rewrite md5_length; lia). rewrite (proj2 (Z.leb_le _ _)) by (cbn [length]; lia).
    f_equal. change (Z.to_nat 0) with 0%nat. change (Z.to_nat 16) with (0 + 16)%nat.
    rewrite <- (md5_length m), splice_app by (cbn [length]; rewrite md5_length; lia).
    unfold splice. rewrite firstn_O, app_nil_l, <- app_assoc. reflexivity.
  - destruct (Z.leb_spec (0 + Z.of_nat 16) (zlen mem)); cbn [mbind option_bind]; [|done].
    rewrite splice_length by (rewrite md5_length; lia). by rewrite (proj2 (Z.leb_gt _ _)) by (cbn [length]; lia).
Qed.

Lemma md5_cred_in_place_witness :
  mmidm_calc_md5_cred ctx0 ([97; 98; 99] ++ 0 :: replicate 13 0) = Some (md5 [97; 98; 99] ++ [0]) /\
  mmidm_calc_md5_cred ctx0 ([97; 98; 99] ++ 0 :: replicate 12 0) = None.
Proof.
  split.
  - rewrite (md5_cred_in_place ctx0 [97; 98; 99] (replicate 13 0));
      [reflexivity | reflexivity | by apply (bool_decide_eq_true_1 (bytes _))
      | repeat constructor; done | by apply (bool_decide_eq_true_1 (bytes _)) | reflexivity].
  - rewrite (md5_cred_in_place ctx0 [97; 98; 99] (replicate 12 0));
      [reflexivity | reflexivity | by apply (bool_decide_eq_true_1 (bytes _))
      | repeat constructor; done | by apply (bool_decide_eq_true_1 (bytes _)) | reflexivity].
Defined.
