(* ===== verification/Base64.v ===== *)
(** * Base64 credentials (libs/libdm/src/sprd_dm_md5_b64.c, second part)

    [mmidm_base64Encode] encodes a buffer piecewise, with a line break after
    every 45 bytes; [mmidm_calc_b64_cred] applies it in place to the string
    user:password; [DM_Base64_decode] is the decoder.  The target of the encoder
    is written from its start without gaps, so it is the list of the bytes
    written; the caller's buffers are byte lists with bounds checks.  [char] is
    unsigned, as on ARM. *)
From S2P Require Import Prelude.

Definition MAX_COLUMNS : Z := 45.

(** The alphabet [t]; index 64 is the padding character. *)
Definition t : list Z :=
  map (fun i => if i <? 26 then 65 + i else if i <? 52 then 97 + (i - 26)
                else if i <? 62 then 48 + (i - 52) else if i =? 62 then 43
                else if i =? 63 then 47 else 61) (seqZ 0 65).
Definition ch (i : Z) : Z := nth (Z.to_nat i) t 0.

(** ** The encoder *)

(** The locals of [mmidm_base64Encode]: the bytes written, the space left, the
    source from [pbSourceData] on, [cbDataProcessed], [*pcbOffset],
    [pbSaveBytes] (none is a NULL pointer) and [iSave]. *)
Record enc := mkEnc {
  e_out : list Z;
  e_tgt : Z;
  e_src : list Z;
  e_n : Z;
  e_off : Z;
  e_save : option (list Z);
  e_isave : Z }.

Definition emit (e : enc) (l : list Z) : enc :=
  mkEnc (e_out e ++ l) (e_tgt e -u zlen l) (e_src e) (e_n e) (e_off e) (e_save e) (e_isave e).
Definition bump (e : enc) : enc :=
  mkEnc (e_out e) (e_tgt e) (e_src e) (e_n e) (e_off e +u 1) (e_save e) (e_isave e).

Definition save_count (s : option (list Z)) : Z :=
  match s with Some m => nth 0 m 0 | None => 0 end.

(** The next saved byte. *)
Definition saved_byte (e : enc) : option (Z * enc) :=
  m ← e_save e;
  b ← m !! Z.to_nat (e_isave e);
  m ← store m 0 [u8 (save_count (Some m) - 1)];
  Some (b, mkEnc (e_out e) (e_tgt e) (e_src e) (e_n e) (e_off e) (Some m) (e_isave e + 1)).

(** The next byte: a saved one if there is any, else one of the source. *)
Definition next_byte (e : enc) : option (Z * enc) :=
  if negb (save_count (e_save e) =? 0) then saved_byte e
  else
    match e_src e with
    | [] => None
    | b :: r => Some (b, mkEnc (e_out e) (e_tgt e) r (e_n e -u 1) (e_off e) (e_save e) (e_isave e))
    end.

Definition line_break (e : enc) : bool := (0 <? e_off e) && (e_off e mod MAX_COLUMNS =? 0).

(** The body of the loop after the line break: one group of up to three bytes. *)
Definition encode_group (e : enc) : option enc :=
  r ← next_byte e;
  let '(byt, e) := r in
  let i0 := Z.shiftr byt 2 in
  let i1 := Z.shiftl (Z.land byt 3) 4 in
  let e := bump e in
  if 0 <? e_n e then
    r ← next_byte e;
    let '(byt, e) := r in
    let i1 := i1 + Z.shiftr byt 4 in
    let i2 := Z.shiftl (Z.land byt 0xF) 2 in
    let e := bump e in
    if 0 <? e_n e then
      r ← next_byte e;
      let '(byt, e) := r in
      let i2 := i2 + Z.shiftr (Z.land byt 0xC0) 6 in
      let i3 := Z.land byt 0x3F in
      Some (emit (bump e) [ch i0; ch i1; ch i2; ch i3])
    else Some (emit e [ch i0; ch i1; ch i2; ch 64])
  else Some (emit e [ch i0; ch i1; ch 64; ch 64]).

(** The loop; every turn takes four bytes of the target, so its size is enough
    fuel. *)
Fixpoint encode_loop (fuel : nat) (bLast : Z) (e : enc) : option enc :=
  match fuel with
  | O => None
  | S k =>
      if (4 <=? e_tgt e) && (((3 <=? e_n e) && (bLast =? 0)) || ((0 <? e_n e) && (bLast =? 1))) then
        if line_break e then
          if e_tgt e <? 6 then Some e
          else e ← encode_group (emit e [13; 10]); encode_loop k bLast e
        else e ← encode_group e; encode_loop k bLast e
      else Some e
  end.

(** The branch for [pbData == NULL]: what was saved goes out now. *)
Definition encode_saved (bLast : Z) (e : enc) : option enc :=
  if negb (bLast =? 0) && negb (save_count (e_save e) =? 0) then
    let e := if line_break e then emit e [13; 10] else e in
    r ← saved_byte e;
    let '(byt, e) := r in
    let i0 := Z.shiftr byt 2 in
    let i1 := Z.shiftl (Z.land byt 3) 4 in
    let e := bump e in
    r ← saved_byte e;
    let '(byt, e) := r in
    let i1 := i1 + Z.shiftr byt 4 in
    let i2 := Z.shiftl (Z.land byt 0xF) 2 in
    Some (emit e [ch i0; ch i1; ch i2; ch 0])
  else Some e.

(** [mmidm_base64Encode]: the bytes written, the data buffer, the length left,
    the offset and the saved bytes. *)
Definition mmidm_base64Encode (cbTargetSize : Z) (pbData : option (list Z)) (dataLength offset bLast : Z)
  (pbSaveBytes : option (list Z)) : option (list Z * option (list Z) * Z * Z * option (list Z)) :=
  e ← match pbData with
      | None => encode_saved bLast (mkEnc [] cbTargetSize [] dataLength offset pbSaveBytes 1)
      | Some d => encode_loop (S (Z.to_nat cbTargetSize)) bLast
                    (mkEnc [] cbTargetSize d dataLength offset pbSaveBytes 1)
      end;
  r ← match e_save e with
      | Some m =>
          if (bLast =? 0) && (e_n e <=? 2) then
            d ← load (e_src e) 0 (e_n e);
            m ← store m 0 (e_n e :: d);
            Some (0, Some m)
          else Some (e_n e, Some m)
      | None => Some (e_n e, None)
      end;
  let '(n, save) := r in
  match pbData with
  | Some d =>
      if 0 <? n then
        rest ← load (e_src e) 0 n;
        d ← store d 0 rest;
        Some (e_out e, Some d, n, e_off e, save)
      else Some (e_out e, Some d, n, e_off e, save)
  | None => Some (e_out e, None, n, e_off e, save)
  end.

(** [mmidm_calc_b64_cred] on the caller's buffer; [malloc] gives the work
    buffer, none is a failed allocation. *)
Definition mmidm_calc_b64_cred (malloc : Z -> option (list Z)) (creddata : list Z) (cbLength : Z)
  : option (list Z) :=
  if cbLength =? 0 then store creddata 0 [0] else
  match malloc (cbLength *u 2 +u 4) with
  | None => Some creddata
  | Some outputdata =>
      r ← mmidm_base64Encode 80 (Some creddata) cbLength 0 1 (Some [0; 0; 0; 0]);
      let '(out, data, _, _, _) := r in
      o ← store outputdata 0 out;
      o ← store o (zlen out) [0];
      d ← data;
      c ← load o 0 (zlen out);
      d ← store d 0 c;
      store d (zlen out) [0]
  end.

(** ** The decoder *)
Definition BASE64_BUF_LEN : Z := 128.
Definition BJNK : Z := 127.
Definition BPAD : Z := 64.

Definition decode_table : list Z := [
  BJNK; BJNK; BJNK; BJNK; BJNK; BJNK; BJNK; BJNK; BJNK; BJNK; BJNK; BJNK; BJNK; BJNK; BJNK; BJNK;
  BJNK; BJNK; BJNK; BJNK; BJNK; BJNK; BJNK; BJNK; BJNK; BJNK; BJNK; BJNK; BJNK; BJNK; BJNK; BJNK;
  BJNK; BJNK; BJNK; BJNK; BJNK; BJNK; BJNK; BJNK; BJNK; BJNK; BJNK; 62; BJNK; BJNK; BJNK; 63;
  52; 53; 54; 55; 56; 57; 58; 59; 60; 61; BJNK; BJNK; BJNK; BPAD; BJNK; BJNK;
  BJNK; 0; 1; 2; 3; 4; 5; 6; 7; 8; 9; 10; 11; 12; 13; 14;
  15; 16; 17; 18; 19; 20; 21; 22; 23; 24; 25; BJNK; BJNK; BJNK; BJNK; BJNK;
  BJNK; 26; 27; 28; 29; 30; 31; 32; 33; 34; 35; 36; 37; 38; 39; 40;
  41; 42; 43; 44; 45; 46; 47; 48; 49; 50; 51; BJNK; BJNK; BJNK; BJNK; BJNK;
  BJNK; BJNK; BJNK; BJNK; BJNK; BJNK; BJNK; BJNK; BJNK; BJNK; BJNK; BJNK; BJNK; BJNK; BJNK; BJNK;
  BJNK; BJNK; BJNK; BJNK; BJNK; BJNK; BJNK; BJNK; BJNK; BJNK; BJNK; BJNK; BJNK; BJNK; BJNK; BJNK;
  BJNK; BJNK; BJNK; BJNK; BJNK; BJNK; BJNK; BJNK; BJNK; BJNK; BJNK; BJNK; BJNK; BJNK; BJNK; BJNK;
  BJNK; BJNK; BJNK; BJNK; BJNK; BJNK; BJNK; BJNK; BJNK; BJNK; BJNK; BJNK; BJNK; BJNK; BJNK; BJNK;
  BJNK; BJNK; BJNK; BJNK; BJNK; BJNK; BJNK; BJNK; BJNK; BJNK; BJNK; BJNK; BJNK; BJNK; BJNK; BJNK;
  BJNK; BJNK; BJNK; BJNK; BJNK; BJNK; BJNK; BJNK; BJNK; BJNK; BJNK; BJNK; BJNK; BJNK; BJNK; BJNK;
  BJNK; BJNK; BJNK; BJNK; BJNK; BJNK; BJNK; BJNK; BJNK; BJNK; BJNK; BJNK; BJNK; BJNK; BJNK; BJNK;
  BJNK; BJNK; BJNK; BJNK; BJNK; BJNK; BJNK; BJNK; BJNK; BJNK; BJNK; BJNK; BJNK; BJNK; BJNK; BJNK].
Definition dt (b : Z) : Z := nth (Z.to_nat b) decode_table 0.

(** The locals of [DM_Base64_decode]: [temp_dst] is an index into [dst]. *)
Record dec := mkDec {
  d_e : Z;
  d_cntr : Z;
  d_dst : list Z;
  d_tp : Z;
  d_rt : Z;
  d_destl : Z;
  d_dest : list Z }.

Definition empty_dst : list Z := replicate (Z.to_nat BASE64_BUF_LEN) 0.

(** A step of the decoder goes on, or returns -1 and leaves the destination. *)
Inductive outcome := Go (d : dec) | Fail (dest : list Z).
Definition on_go (o : outcome) (f : dec -> option outcome) : option outcome :=
  match o with Go d => f d | Fail m => Some (Fail m) end.

(** The copy of the decoded bytes to the destination. *)
Definition flush (d : dec) : option outcome :=
  if d_destl d <? d_tp d then Some (Fail (d_dest d)) else
  c ← load (d_dst d) 0 (d_tp d);
  m ← store (d_dest d) (d_rt d) c;
  Some (Go (mkDec (d_e d) (d_cntr d) empty_dst 0 (d_rt d +u d_tp d) (d_destl d -u d_tp d) m)).

(** [*temp_dst = v] and [*temp_dst++ |= v; *temp_dst = w]. *)
Definition put (d : dec) (v : Z) : option (list Z) := store (d_dst d) (d_tp d) [u8 v].
Definition or_put (d : dec) (v : Z) : option (list Z) :=
  o ← d_dst d !! Z.to_nat (d_tp d); store (d_dst d) (d_tp d) [u8 (Z.lor o v)].

(** A data character [c] at position [e] of its group of four. *)
Definition decode_char (c : Z) (d : dec) : option outcome :=
  let num := (BASE64_BUF_LEN / 3) * 4 - 4 in
  let e := d_e d in
  let upd := fun e cntr dst tp => mkDec e cntr dst tp (d_rt d) (d_destl d) (d_dest d) in
  if e =? 0 then
    dst ← put d (Z.shiftl c 2); Some (Go (upd 1 (d_cntr d) dst (d_tp d)))
  else if e =? 1 then
    dst ← or_put d (Z.shiftr c 4);
    dst ← store dst (d_tp d + 1) [u8 (Z.shiftl c 4)];
    Some (Go (upd 2 (d_cntr d) dst (d_tp d + 1)))
  else if e =? 2 then
    dst ← or_put d (Z.shiftr c 2);
    dst ← store dst (d_tp d + 1) [u8 (Z.shiftl c 6)];
    Some (Go (upd 3 (d_cntr d) dst (d_tp d + 1)))
  else if e =? 3 then
    dst ← or_put d c;
    let d := upd 0 (d_cntr d +u 4) dst (d_tp d + 1) in
    if d_cntr d =? num then
      o ← flush d;
      on_go o (fun d => Some (Go (mkDec (d_e d) 0 (d_dst d) (d_tp d) (d_rt d) (d_destl d) (d_dest d))))
    else Some (Go d)
  else Some (Go (upd (u16 (e + 1)) (d_cntr d) (d_dst d) (d_tp d))).

(** The loop after a final padding character: the rest is read until its end
    or a data character, which sets [srcl] to 1 before it is decremented; the
    result is [srcl]. *)
Fixpoint pad_scan (src : list Z) : Z :=
  match src with
  | [] => 0
  | b :: r => if (dt b =? BJNK) || (dt b =? BPAD) then pad_scan r else 1 - 1
  end.

Definition flush_if (b : bool) (d : dec) : option outcome :=
  if b && negb (d_tp d =? 0) then flush d else Some (Go d).

Definition set_e (d : dec) (e : Z) : dec :=
  mkDec e (d_cntr d) (d_dst d) (d_tp d) (d_rt d) (d_destl d) (d_dest d).

(** The main loop over the characters left.  [src] and [srcl] are one list, the
    [srcl] bytes from [src] on: in the source every [*src++] follows a test of
    [srcl] and goes with one decrement of it, and the look at the next [=] is
    behind [srcl &&].  That pairing is built into the recursion, so bounds of
    the source are not among the things shown here; those of the working
    buffer and of the destination are. *)
Fixpoint decode_loop (src : list Z) (d : dec) : option outcome :=
  match src with
  | [] => Some (Go d)
  | b :: r =>
      let c := dt b in
      if c =? BJNK then decode_loop r d
      else if c =? BPAD then
        let e := d_e d in
        let d := set_e d (u16 (e + 1)) in
        if e =? 3 then flush_if (pad_scan r =? 0) d
        else if e =? 2 then
          o ← flush_if (match r with [] => true | _ => false end) d;
          on_go o (fun d =>
            match r with
            | b' :: _ => if b' =? 61 then decode_loop r d else Some (Fail (d_dest d))
            | [] => Some (Fail (d_dest d))
            end)
        else Some (Fail (d_dest d))
      else o ← decode_char c d; on_go o (decode_loop r)
  end.

(** What follows the loop: the last copy, the check for the terminator. *)
Definition decode_finish (d : dec) : option (Z * list Z) :=
  o ← flush_if true d;
  match o with
  | Fail m => Some (-1, m)
  | Go d =>
      if d_destl d <? 1 then Some (-1, d_dest d)
      else m ← store (d_dest d) (d_rt d) [0]; Some (s32 (d_rt d), m)
  end.

(** [DM_Base64_decode]: the result and the destination. *)
Definition DM_Base64_decode (src : list Z) (srcl : Z) (dest : list Z) (destl : Z) : option (Z * list Z) :=
  s ← load src 0 srcl;
  o ← decode_loop s (mkDec 0 0 empty_dst 0 0 destl dest);
  match o with Fail m => Some (-1, m) | Go d => decode_finish d end.

(** ** The reference encoding *)
Definition group3 (a b c : Z) : list Z :=
  [ch (a / 4); ch (a mod 4 * 16 + b / 16); ch (b mod 16 * 4 + c / 64); ch (c mod 64)].
Definition group2 (a b : Z) : list Z :=
  [ch (a / 4); ch (a mod 4 * 16 + b / 16); ch (b mod 16 * 4); 61].
Definition group1 (a : Z) : list Z := [ch (a / 4); ch (a mod 4 * 16); 61; 61].
Definition brk (off : Z) : list Z := if (0 <? off) && (off mod 45 =? 0) then [13; 10] else [].

(** Groups of three bytes, a line break before every 45th byte but the first. *)
Fixpoint b64 (off : Z) (l : list Z) : list Z :=
  match l with
  | a :: b :: c :: r => brk off ++ group3 a b c ++ b64 (off + 3) r
  | [a; b] => brk off ++ group2 a b
  | [a] => brk off ++ group1 a
  | [] => []
  end.

(** Induction by groups of three. *)
Lemma list3_ind (P : list Z -> Prop) :
  P [] -> (forall a, P [a]) -> (forall a b, P [a; b]) ->
  (forall a b c r, P r -> P (a :: b :: c :: r)) -> forall l, P l.
Proof.
  intros H0 H1 H2 H3 l. induction l as [l IH] using list_len_ind.
  destruct l as [|a [|b [|c r]]]; auto. apply H3, IH. simpl. lia.
Qed.

Lemma brk_length off : zlen (brk off) = if (0 <? off) && (off mod 45 =? 0) then 2 else 0.
Proof. unfold brk. by destruct (_ && _). Qed.

Lemma b64_length l l' off : length l = length l' -> length (b64 off l) = length (b64 off l').
Proof.
  revert l' off. induction l as [|a|a b|a b c r IH] using list3_ind;
    intros l' off E; destruct l' as [|a' [|b' [|c' r']]]; cbn [length] in E; try lia; cbn [b64];
    rewrite ?length_app; cbn [length group3 group2 group1]; try done.
  erewrite (IH r') by lia. done.
Qed.

Lemma b64_size n l off : length l = n -> length (b64 off l) = length (b64 off (replicate n 0)).
Proof. intros <-. apply b64_length. by rewrite length_replicate. Qed.

Lemma b64_app k l1 l2 off :
  length l1 = (3 * k)%nat -> b64 off (l1 ++ l2) = b64 off l1 ++ b64 (off + zlen l1) l2.
Proof.
  revert l1 off. induction k as [|k IH]; intros l1 off L.
  - destruct l1; [|cbn [length] in L; lia]. cbn. by rewrite Z.add_0_r.
  - destruct l1 as [|a [|b [|c r]]]; cbn [length] in L; try lia. cbn [app b64].
    rewrite IH by lia. rewrite <- !app_assoc. do 3 f_equal. f_equal. cbn [length]. lia.
Qed.

(** ** The encoder computes it *)

Lemma next_byte_src out tgt b r n off save isv :
  save_count save = 0 ->
  next_byte (mkEnc out tgt (b :: r) n off save isv) = Some (b, mkEnc out tgt r (n -u 1) off save isv).
Proof. intros S0. unfold next_byte. cbn [e_save e_src]. by rewrite S0. Qed.

Lemma land_3 a : Z.land a 3 = a mod 4.
Proof. apply (Z.land_ones a 2). lia. Qed.
Lemma land_f a : Z.land a 0xF = a mod 16.
Proof. apply (Z.land_ones a 4). lia. Qed.
Lemma land_3f a : Z.land a 0x3F = a mod 64.
Proof. apply (Z.land_ones a 6). lia. Qed.
Ltac arith_bits :=
  rewrite ?Z.shiftr_div_pow2, ?Z.shiftl_mul_pow2, ?land_3, ?land_f, ?land_3f by lia;
  change (2 ^ 2) with 4; change (2 ^ 4) with 16; change (2 ^ 6) with 64.

Lemma land_c0 c : is_byte c -> Z.land c 0xC0 = c / 64 * 64.
Proof.
  intros Hc. apply Z.eqb_eq.
  by apply (forall_below (fun c => Z.land c 0xC0 =? c / 64 * 64) 256 eq_refl).
Qed.

Lemma encode_group3 out tgt a b c r n off save isv :
  save_count save = 0 -> 3 <= n < 2 ^ 32 -> 4 <= tgt < 2 ^ 32 -> 0 <= off -> off + 3 < 2 ^ 32 ->
  is_byte c ->
  encode_group (mkEnc out tgt (a :: b :: c :: r) n off save isv) =
    Some (mkEnc (out ++ group3 a b c) (tgt - 4) r (n - 3) (off + 3) save isv).
Proof.
  intros S0 Hn Ht Ho Ho3 Hc. unfold encode_group, bump.
  rewrite next_byte_src by done. cbn [mbind option_bind e_out e_tgt e_src e_n e_off e_save e_isave].
  rewrite !u32_small by (unfold is_u32; lia). rewrite (proj2 (Z.ltb_lt 0 (n - 1))) by lia.
  rewrite next_byte_src by done. cbn [mbind option_bind e_out e_tgt e_src e_n e_off e_save e_isave].
  rewrite !u32_small by (unfold is_u32; lia). rewrite (proj2 (Z.ltb_lt 0 (n - 1 - 1))) by lia.
  rewrite next_byte_src by done. cbn [mbind option_bind e_out e_tgt e_src e_n e_off e_save e_isave].
  unfold emit. cbn [e_out e_tgt e_src e_n e_off e_save e_isave]. rewrite land_c0 by done.
  cbn [length]. rewrite !u32_small by (unfold is_u32; lia).
  unfold group3. arith_bits. rewrite Z.div_mul by lia.
  f_equal. f_equal; lia.
Qed.

Lemma encode_group2 out tgt a b r off save isv :
  save_count save = 0 -> 4 <= tgt < 2 ^ 32 -> 0 <= off -> off + 2 < 2 ^ 32 ->
  encode_group (mkEnc out tgt (a :: b :: r) 2 off save isv) =
    Some (mkEnc (out ++ group2 a b) (tgt - 4) r 0 (off + 2) save isv).
Proof.
  intros S0 Ht Ho Ho3. unfold encode_group, bump.
  rewrite next_byte_src by done. cbn [mbind option_bind e_out e_tgt e_src e_n e_off e_save e_isave].
  change (0 <? 2 -u 1) with true. cbv iota. rewrite (u32_small (off + 1)) by (unfold is_u32; lia).
  rewrite next_byte_src by done. cbn [mbind option_bind e_out e_tgt e_src e_n e_off e_save e_isave].
  change ((2 -u 1) -u 1) with 0. change (0 <? 0) with false. cbv iota.
  unfold emit. cbn [e_out e_tgt e_src e_n e_off e_save e_isave length].
  rewrite !u32_small by (unfold is_u32; lia).
  unfold group2. arith_bits. f_equal. f_equal; lia.
Qed.

Lemma encode_group1 out tgt a r off save isv :
  save_count save = 0 -> 4 <= tgt < 2 ^ 32 -> 0 <= off -> off + 1 < 2 ^ 32 ->
  encode_group (mkEnc out tgt (a :: r) 1 off save isv) =
    Some (mkEnc (out ++ group1 a) (tgt - 4) r 0 (off + 1) save isv).
Proof.
  intros S0 Ht Ho Ho3. unfold encode_group, bump.
  rewrite next_byte_src by done. cbn [mbind option_bind e_out e_tgt e_src e_n e_off e_save e_isave].
  change (0 <? 1 -u 1) with false. change (1 -u 1) with 0. cbv iota.
  unfold emit. cbn [e_out e_tgt e_src e_n e_off e_save e_isave length].
  rewrite !u32_small by (unfold is_u32; lia).
  unfold group1. by arith_bits.
Qed.

(** One turn of the loop on a group of three. *)
Lemma encode_turn fuel out tgt l n off save isv e' :
  0 < n -> 0 <= off -> zlen (brk off) + 4 <= tgt < 2 ^ 32 ->
  encode_group (mkEnc (out ++ brk off) (tgt - zlen (brk off)) l n off save isv) = Some e' ->
  encode_loop (S fuel) 1 (mkEnc out tgt l n off save isv) = encode_loop fuel 1 e'.
Proof.
  intros Hn Ho Ht E. cbn [encode_loop e_tgt e_n]. unfold line_break, MAX_COLUMNS. cbn [e_off e_tgt].
  rewrite (proj2 (Z.leb_le 4 tgt)), (proj2 (Z.ltb_lt 0 n)) by lia.
  change (1 =? 1) with true. rewrite andb_true_r, orb_true_r. cbn [andb].
  unfold brk in *. destruct ((0 <? off) && (off mod 45 =? 0)); cbn [length] in *.
  - rewrite (proj2 (Z.ltb_ge tgt 6)) by lia. unfold emit. cbn [e_out e_tgt e_src e_n e_off e_save e_isave length].
    rewrite u32_small by (unfold is_u32; lia). by rewrite E.
  - rewrite app_nil_r, Z.sub_0_r in E. by rewrite E.
Qed.

(** The groups of a prefix that fits. *)
Lemma encode_prefix k : forall fuel out tgt l1 l2 n off save isv,
  length l1 = (3 * k)%nat -> bytes l1 -> zlen l1 <= n < 2 ^ 32 -> save_count save = 0 ->
  zlen (b64 off l1) <= tgt < 2 ^ 32 -> 0 <= off -> off + n + 3 < 2 ^ 32 ->
  encode_loop (k + fuel) 1 (mkEnc out tgt (l1 ++ l2) n off save isv) =
  encode_loop fuel 1 (mkEnc (out ++ b64 off l1) (tgt - zlen (b64 off l1)) l2 (n - zlen l1)
                        (off + zlen l1) save isv).
Proof.
  induction k as [|k IH]; intros fuel out tgt l1 l2 n off save isv L B Hn S0 Ht Ho Hb.
  - destruct l1; [|cbn [length] in L; lia]. cbn [app b64 length Nat.add].
    by rewrite app_nil_r, !Z.sub_0_r, Z.add_0_r.
  - destruct l1 as [|a [|b [|c r]]]; cbn [length] in L; try lia.
    do 3 (apply Forall_cons_1 in B as [? B]). cbn [b64 app length] in *.
    rewrite !length_app in Ht. cbn [length group3] in Ht.
    change (S k + fuel)%nat with (S (k + fuel)).
    erewrite encode_turn; [| lia | lia | lia | apply encode_group3; (done || lia)].
    rewrite IH by (done || lia). rewrite <- !app_assoc, !length_app. cbn [length group3].
    f_equal. f_equal; lia.
Qed.

(** Everything, when it fits. *)
Lemma encode_all fuel out tgt l x off save isv :
  bytes l -> save_count save = 0 -> zlen (b64 off l) <= tgt < 2 ^ 32 -> 0 <= off -> off + zlen l + 3 < 2 ^ 32 ->
  (length l <= fuel)%nat ->
  encode_loop (S fuel) 1 (mkEnc out tgt (l ++ x) (zlen l) off save isv) =
  Some (mkEnc (out ++ b64 off l) (tgt - zlen (b64 off l)) x 0 (off + zlen l) save isv).
Proof.
  revert fuel out tgt off. induction l as [|a|a b|a b c r IH] using list3_ind; intros fuel out tgt off B S0 Ht Ho Hb Hf.
  - cbn [app length b64 encode_loop e_n e_tgt]. change (3 <=? Z.of_nat 0) with false. change (0 <? Z.of_nat 0) with false.
    cbn [andb orb]. rewrite andb_false_r. by rewrite app_nil_r, Z.sub_0_r, Z.add_0_r.
  - cbn [b64 length app] in *. rewrite length_app in *. cbn [length group1] in *.
    erewrite encode_turn; [| lia | lia | lia | apply encode_group1; (done || lia)].
    destruct fuel; [lia|]. cbn [encode_loop e_n e_tgt]. change (3 <=? 0) with false. change (0 <? 0) with false.
    cbn [andb orb]. rewrite andb_false_r. rewrite <- app_assoc. f_equal. f_equal; lia.
  - cbn [b64 length app] in *. rewrite length_app in *. cbn [length group2] in *.
    erewrite encode_turn; [| lia | lia | lia | apply encode_group2; (done || lia)].
    destruct fuel; [lia|]. cbn [encode_loop e_n e_tgt]. change (3 <=? 0) with false. change (0 <? 0) with false.
    cbn [andb orb]. rewrite andb_false_r. rewrite <- app_assoc. f_equal. f_equal; lia.
  - do 3 (apply Forall_cons_1 in B as [? B]). cbn [b64 length app] in *. rewrite !length_app in *. cbn [length group3] in *.
    erewrite encode_turn; [| lia | lia | lia | apply encode_group3; (done || lia)].
    destruct fuel as [|fuel]; [lia|].
    replace (Z.of_nat (S (S (S (length r)))) - 3) with (zlen r) by lia.
    rewrite IH by (done || lia). rewrite <- !app_assoc. f_equal. f_equal; lia.
Qed.

(** ** The credential string *)

(** What 80 bytes of target hold: the encoding of 57 bytes is 78 bytes long. *)
Lemma b64_fits l : (length l <= 57)%nat -> zlen (b64 0 l) <= 78 /\ (l <> [] -> zlen (b64 0 l) <= 2 * zlen l + 3).
Proof.
  intros L. rewrite (b64_size (length l) l) by done.
  pose proof (forall_below (fun n =>
    (zlen (b64 0 (replicate (Z.to_nat n) 0)) <=? 78) &&
    ((n =? 0) || (zlen (b64 0 (replicate (Z.to_nat n) 0)) <=? 2 * n + 3))) 58 eq_refl (zlen l) ltac:(lia)) as P.
  cbv beta in P. rewrite Nat2Z.id in P. apply andb_prop in P as [P1%Z.leb_le P2].
  split; [done|]. intros Hl. apply orb_prop in P2 as [?%Z.eqb_eq | ?%Z.leb_le]; [|done].
  destruct l; [done|]. cbn [length] in *. lia.
Qed.

Lemma b64_57 l : length l = 57%nat -> zlen (b64 0 l) = 78.
Proof. intros L. rewrite (b64_size 57 l) by done. reflexivity. Qed.

(** The data buffer after the call: what did not fit is moved to its start. *)
Definition leftover (mem : list Z) (n : Z) : list Z :=
  if n <=? 57 then mem else splice mem 0 (drop 57 (take (Z.to_nat n) mem)).

Lemma cred_encode mem n :
  bytes mem -> 0 < n <= zlen mem -> n + 3 < 2 ^ 32 ->
  exists n' off, mmidm_base64Encode 80 (Some mem) n 0 1 (Some [0; 0; 0; 0]) =
    Some (b64 0 (take 57 (take (Z.to_nat n) mem)), Some (leftover mem n), n', off, Some [0; 0; 0; 0]).
Proof.
  intros B Hn Hb. assert (Ex : exists cred x, mem = cred ++ x /\ zlen cred = n).
  { exists (take (Z.to_nat n) mem), (drop (Z.to_nat n) mem). rewrite take_drop, length_take. split; [done|lia]. }
  destruct Ex as (cred & x & -> & Lc). rewrite <- Lc, Nat2Z.id, take_app_0 in *.
  apply Forall_app in B as [Bc _].
  unfold mmidm_base64Encode, leftover. change (S (Z.to_nat 80)) with 81%nat.
  rewrite Nat2Z.id, take_app_0. destruct (Z.leb_spec (zlen cred) 57).
  - destruct (b64_fits cred) as [F _]; [lia|].
    rewrite (encode_all 80) by (done || lia).
    cbn [mbind option_bind e_save e_out e_src e_n e_off app]. change (1 =? 0) with false. cbn [andb mbind option_bind].
    change (0 <? 0) with false. rewrite take_ge by lia. eauto.
  - assert (L1 : length (take 57 cred) = 57%nat) by (rewrite length_take; lia).
    pose proof (b64_57 _ L1) as L78.
    assert (Ll : zlen (drop 57 cred) = zlen cred - 57) by (rewrite length_drop; lia).
    assert (El : encode_loop 81 1 (mkEnc [] 80 (cred ++ x) (zlen cred) 0 (Some [0; 0; 0; 0]) 1) =
      Some (mkEnc (b64 0 (take 57 cred)) 2 (drop 57 cred ++ x) (zlen cred - 57) 57 (Some [0; 0; 0; 0]) 1)).
    { rewrite <- (take_drop 57 cred) at 1. rewrite <- app_assoc. change 81%nat with (19 + 62)%nat.
      rewrite (encode_prefix 19) by (lia || done || by apply Forall_take).
      rewrite L78, L1. reflexivity. }
    rewrite El. cbn [mbind option_bind e_save e_out e_src e_n e_off app]. change (1 =? 0) with false.
    cbn [andb mbind option_bind]. rewrite (proj2 (Z.ltb_lt 0 _)) by lia.
    assert (E0 : load (drop 57 cred ++ x) 0 (zlen cred - 57) = Some (drop 57 cred))
      by (apply (load_mid []); [done|lia]). rewrite E0. cbn [mbind option_bind].
    unfold store. rewrite !(proj2 (Z.leb_le _ _)) by (rewrite ?length_app; lia). cbn [andb mbind option_bind]. eauto.
Qed.

Lemma leftover_length mem n : 0 < n <= zlen mem -> length (leftover mem n) = length mem.
Proof.
  intros Hn. unfold leftover. destruct (Z.leb_spec n 57); [done|]. apply splice_length.
  rewrite length_drop, length_take. lia.
Qed.

Lemma take_prefix_splice (m s : list Z) : (length s <= length m)%nat -> take (length s) (splice m 0 s) = s.
Proof. intros. unfold splice. rewrite firstn_O, app_nil_l. apply take_app_0. Qed.

Lemma splice_0_app m a b :
  (length a + length b <= length m)%nat -> splice (splice m 0 a) (length a) b = splice m 0 (a ++ b).
Proof. intros. apply (splice_app m 0 a b). lia. Qed.

Lemma store_ok m off s : 0 <= off -> off + zlen s <= zlen m -> store m off s = Some (splice m (Z.to_nat off) s).
Proof. intros. unfold store. by rewrite !(proj2 (Z.leb_le _ _)) by lia. Qed.

(** The string and its terminator, copied through the work buffer. *)
Lemma cred_copy work mem out :
  zlen out + 1 <= zlen work ->
  (o ← store work 0 out; o ← store o (zlen out) [0]; c ← load o 0 (zlen out);
   d ← store mem 0 c; store d (zlen out) [0]) =
  if zlen out <? zlen mem then Some (splice mem 0 (out ++ [0])) else None.
Proof.
  intros Hw. rewrite store_ok by lia. cbn [mbind option_bind]. change (Z.to_nat 0) with 0%nat.
  rewrite store_ok by (rewrite ?splice_length; cbn [length]; lia). cbn [mbind option_bind].
  rewrite Nat2Z.id, splice_0_app by (cbn [length]; lia).
  assert (E : load (splice work 0 (out ++ [0])) 0 (zlen out) = Some out).
  { rewrite load_0 by (rewrite splice_length, ?length_app; cbn [length]; rewrite ?length_app; cbn [length]; lia).
    unfold splice. rewrite firstn_O, app_nil_l, Nat2Z.id, <- !app_assoc. by rewrite take_app_0. }
  rewrite E. cbn [mbind option_bind]. destruct (Z.ltb_spec (zlen out) (zlen mem)).
  - rewrite store_ok by lia. cbn [mbind option_bind]. change (Z.to_nat 0) with 0%nat.
    rewrite store_ok by (rewrite ?splice_length; cbn [length]; lia).
    by rewrite Nat2Z.id, splice_0_app by (cbn [length]; lia).
  - destruct (store mem 0 out) as [d|] eqn:Es; cbn [mbind option_bind]; [|done].
    apply store_length in Es. unfold store. rewrite Es.
    rewrite (proj2 (Z.leb_gt _ (zlen mem))) by (cbn [length]; lia). by rewrite andb_false_r.
Qed.

(** [mmidm_calc_b64_cred] leaves in the caller's buffer the terminated
    base64 encoding of the credential, cut to its first 57 bytes: the target
    size passed is the constant 80, and what is longer is dropped without an
    error.  A buffer too short for the encoding is overrun. *)
Lemma b64_cred_encodes malloc mem n :
  (forall k, 0 <= k -> exists b, malloc k = Some b /\ zlen b = k) ->
  bytes mem -> 0 < n <= zlen mem -> 2 * n + 4 < 2 ^ 32 ->
  let out := b64 0 (take 57 (take (Z.to_nat n) mem)) in
  if zlen out <? zlen mem
  then exists m, mmidm_calc_b64_cred malloc mem n = Some m /\ length m = length mem /\
         take (length (out ++ [0])) m = out ++ [0]
  else mmidm_calc_b64_cred malloc mem n = None.
Proof.
  intros Hm B Hn Hb out. unfold mmidm_calc_b64_cred.
  rewrite (proj2 (Z.eqb_neq n 0)), !u32_small by (unfold is_u32; rewrite ?u32_small; unfold is_u32; lia).
  destruct (Hm (n * 2 + 4) ltac:(lia)) as (work & -> & Lw).
  destruct (cred_encode mem n B Hn ltac:(lia)) as (n' & off & ->). cbn [mbind option_bind]. fold out.
  assert (Lk : zlen (take 57 (take (Z.to_nat n) mem)) = Z.min 57 n) by (rewrite !length_take; lia).
  destruct (b64_fits (take 57 (take (Z.to_nat n) mem))) as [_ F]; [lia|].
  specialize (F ltac:(intros E; rewrite E in Lk; cbn [length] in Lk; lia)). fold out in F.
  rewrite <- (leftover_length mem n) by lia.
  pose proof (cred_copy work (leftover mem n) out ltac:(lia)) as C. cbn [mbind option_bind] in C. cbn [mbind option_bind].
  rewrite C. destruct (Z.ltb_spec (zlen out) (zlen (leftover mem n))); [|done].
  eexists. split; [done|]. rewrite splice_length by (rewrite length_app; cbn [length]; lia).
  split; [done|]. apply take_prefix_splice. rewrite length_app. cbn [length]. lia.
Qed.

Lemma b64_cred_encodes_witness :
  mmidm_calc_b64_cred (fun k => Some (replicate (Z.to_nat k) 7)) [117; 58; 112; 0; 0] 3 = Some [100; 84; 112; 119; 0].
Proof.
  pose proof (b64_cred_encodes (fun k => Some (replicate (Z.to_nat k) 7)) [117; 58; 112; 0; 0] 3) as T.
  cbv zeta in T. destruct T as (m & E & L & P).
  - intros k Hk. eexists. split; [reflexivity|]. rewrite length_replicate. lia.
  - by apply (bool_decide_eq_true_1 (bytes _)).
  - cbn [length]. lia.
  - lia.
  - rewrite E. f_equal. rewrite take_ge in P by (rewrite L; vm_compute; lia). rewrite P. reflexivity.
Defined.

(** ** The decoder stays inside its buffers *)
Section Safety.
(** [N] is the size of the destination, [L] the size passed. *)
Context (N : nat) (L : Z).
Hypothesis HL : 0 <= L <= Z.of_nat N.
Hypothesis HN : Z.of_nat N < 2 ^ 31.

(** What holds of the buffers at any time, and between two characters. *)
Record buffers_ok (d : dec) : Prop := {
  bo_dst : length (d_dst d) = 128%nat;
  bo_tp : 0 <= d_tp d <= 123;
  bo_rt : 0 <= d_rt d /\ 0 <= d_destl d /\ d_rt d + d_destl d = L;
  bo_dest : length (d_dest d) = N }.
Record position_ok (d : dec) : Prop := {
  po_e : 0 <= d_e d <= 3;
  po_cntr : exists q, d_cntr d = 4 * q /\ 0 <= q <= 40 /\ d_tp d <= 3 * q + Z.max 0 (d_e d - 1) }.
Definition outcome_ok (P : dec -> Prop) (o : outcome) : Prop :=
  match o with Go d => buffers_ok d /\ P d | Fail m => length m = N end.

Lemma flush_ok d :
  buffers_ok d -> exists o, flush d = Some o /\
    outcome_ok (fun d' => d_tp d' = 0 /\ d_e d' = d_e d /\ d_cntr d' = d_cntr d) o.
Proof.
  intros [Ld Ht (Hr & Hdl & Hs) Ldest]. unfold flush. destruct (Z.ltb_spec (d_destl d) (d_tp d)).
  - eexists. split; [done|]. done.
  - rewrite load_0 by lia. cbn [mbind option_bind].
    rewrite store_ok by (rewrite ?length_take; lia). cbn [mbind option_bind]. eexists. split; [done|].
    split; [|done]. rewrite !u32_small by (unfold is_u32; lia).
    split; cbn [d_dst d_tp d_rt d_destl d_dest]; try done; try lia.
    rewrite splice_length; rewrite ?length_take; lia.
Qed.

Lemma flush_if_ok b d :
  buffers_ok d -> exists o, flush_if b d = Some o /\
    outcome_ok (fun d' => d_tp d' <= d_tp d /\ d_e d' = d_e d /\ d_cntr d' = d_cntr d) o.
Proof.
  intros B. unfold flush_if. destruct (b && _); [|eexists; split; [done|]; split; [done|lia]].
  destruct (flush_ok d B) as ([d'|m] & -> & O); eexists; (split; [done|]); [|done].
  destruct O as (B' & T & E & C). split; [done|]. pose proof (bo_tp _ B). lia.
Qed.

Lemma lookup_dst d : buffers_ok d -> exists o, d_dst d !! Z.to_nat (d_tp d) = Some o.
Proof. intros [Ld Ht _ _]. apply lookup_lt_is_Some. lia. Qed.

Lemma decode_char_ok c d :
  buffers_ok d -> position_ok d ->
  exists o, decode_char c d = Some o /\ outcome_ok position_ok o.
Proof.
  intros B [He (q & Hc & Hq & Ht)]. pose proof B as [Ld Htp Hr Ldest].
  destruct (lookup_dst d B) as [w Ew]. unfold decode_char, put, or_put. rewrite Ew. cbn [mbind option_bind].
  assert (Ce : d_e d = 0 \/ d_e d = 1 \/ d_e d = 2 \/ d_e d = 3) by lia.
  destruct Ce as [E | [E | [E | E]]]; rewrite E in *; cbn [Z.eqb Pos.eqb];
    rewrite !store_ok by (cbn [length]; lia); cbn [mbind option_bind];
    rewrite ?store_ok by (rewrite ?splice_length; cbn [length]; lia); cbn [mbind option_bind].
  1-3: eexists; split; [done|]; split;
    [split; cbn; rewrite ?splice_length; cbn [length]; rewrite ?splice_length; cbn [length]; lia
    |split; cbn; [lia|exists q; lia]].
  rewrite (u32_small (d_cntr d + 4)) by (unfold is_u32; lia).
  set (d1 := mkDec 0 _ _ _ _ _ _).
  assert (B1 : buffers_ok d1).
  { split; cbn; rewrite ?splice_length; cbn [length]; lia. }
  change (BASE64_BUF_LEN / 3 * 4 - 4) with 164. destruct (Z.eqb_spec (d_cntr d1) 164) as [En|En].
  - destruct (flush_ok d1 B1) as ([d'|m] & -> & O); cbn [mbind option_bind on_go]; (eexists; split; [done|]); [|done].
    destruct O as ([? ? ? ?] & T & E' & _). split; [split; done|].
    split; cbn; [rewrite E'; cbn; lia|]. exists 0. cbn. lia.
  - eexists. split; [done|]. split; [done|]. split; cbn; [lia|]. exists (q + 1). cbn in En. lia.
Qed.

Lemma set_e_ok d e : buffers_ok d -> buffers_ok (set_e d e).
Proof. by intros []. Qed.

Lemma decode_loop_ok src d :
  buffers_ok d -> position_ok d ->
  exists o, decode_loop src d = Some o /\ outcome_ok (fun _ => True) o.
Proof.
  revert d. induction src as [|b r IH]; intros d B P; cbn [decode_loop]; [eexists; split; done|].
  destruct (dt b =? BJNK); [by apply IH|]. destruct (dt b =? BPAD).
  - destruct (Z.eqb_spec (d_e d) 3) as [E|E]; [|destruct (Z.eqb_spec (d_e d) 2) as [E2|E2]].
    + destruct (flush_if_ok (pad_scan r =? 0) (set_e d (u16 (d_e d + 1)))) as ([d'|m] & -> & O);
        [by apply set_e_ok | | ]; eexists; (split; [done|]); [split; [apply O|done]|done].
    + rewrite E2. change (u16 (2 + 1)) with 3.
      destruct (flush_if_ok (match r with [] => true | _ => false end) (set_e d 3)) as ([d'|m] & -> & O);
        [by apply set_e_ok | | eexists; split; done]. cbn [mbind option_bind on_go].
      destruct O as (B' & T & E' & C'). pose proof (bo_dest _ B') as LD. destruct r as [|b' r']; [eexists; split; done|].
      destruct (b' =? 61); [|eexists; split; done]. apply IH; [done|]. destruct P as [_ (q & Hc & Hq & Ht)].
      cbn [set_e d_tp d_e d_cntr] in *. split; [lia|]. exists q. rewrite E2 in Ht. lia.
    + eexists. split; [done|]. apply B.
  - destruct (decode_char_ok (dt b) d B P) as ([d'|m] & -> & O); cbn [mbind option_bind on_go]; [|eexists; split; done].
    destruct O as [B' P']. by apply IH.
Qed.

Lemma decode_finish_ok d :
  buffers_ok d -> exists r m, decode_finish d = Some (r, m) /\ length m = N /\ (r = -1 \/ 0 <= r < L).
Proof.
  intros B. unfold decode_finish. destruct (flush_if_ok true d B) as ([d'|m] & -> & O); cbn [mbind option_bind]; [|eauto 6].
  destruct O as ([Ld Ht (Hr & Hdl & Hs) Ldest] & _). destruct (Z.ltb_spec (d_destl d') 1); [eauto 6|].
  rewrite store_ok by (cbn [length]; lia). cbn [mbind option_bind]. eexists _, _. split; [done|].
  rewrite s32_small by lia. rewrite splice_length by (cbn [length]; lia). split; [done|lia].
Qed.
End Safety.

(** C37: [DM_Base64_decode] is memory-safe on every input.  Whatever the bytes of
    the source, junk and misplaced padding included, no access leaves the
    source, the 128-byte work buffer or the [destl] bytes of the destination,
    and the result is -1 or a length that leaves room for the terminator. *)
Theorem b64_decode_safe src srcl dest destl :
  0 <= srcl <= zlen src -> 0 <= destl <= zlen dest -> zlen dest < 2 ^ 31 ->
  exists r m, DM_Base64_decode src srcl dest destl = Some (r, m) /\
    length m = length dest /\ (r = -1 \/ 0 <= r < destl).
Proof.
  intros Hs Hd Hn. unfold DM_Base64_decode. rewrite load_0 by lia. cbn [mbind option_bind].
  destruct (decode_loop_ok (length dest) destl Hd Hn (take (Z.to_nat srcl) src) (mkDec 0 0 empty_dst 0 0 destl dest))
    as (o & -> & O).
  - split; cbn; try done; lia.
  - split; cbn; [lia|]. exists 0. lia.
  - cbn [mbind option_bind]. destruct o as [d|m]; [|by eauto 6].
    apply (decode_finish_ok (length dest) destl); [done|done|apply O].
Qed.

Lemma b64_decode_safe_witness :
  exists r m, DM_Base64_decode [61; 65; 61; 61; 33] 5 [1; 2; 3] 2 = Some (r, m) /\
    length m = length [1; 2; 3] /\ (r = -1 \/ 0 <= r < 2).
Proof. apply (b64_decode_safe [61; 65; 61; 61; 33] 5 [1; 2; 3] 2); cbn; lia. Defined.

(** ** Decoding inverts encoding *)
Lemma dt_ch i : 0 <= i < 64 -> dt (ch i) = i.
Proof.
  intros Hi. apply Z.eqb_eq. by apply (forall_below (fun i => dt (ch i) =? i) 64 eq_refl).
Qed.

Lemma decode_loop_data i r d :
  0 <= i < 64 ->
  decode_loop (ch i :: r) d = (o ← decode_char i d; on_go o (decode_loop r)).
Proof.
  intros Hi. cbn [decode_loop]. rewrite dt_ch by done. unfold BJNK, BPAD.
  by rewrite (proj2 (Z.eqb_neq i 127)), (proj2 (Z.eqb_neq i 64)) by lia.
Qed.

Lemma decode_loop_break off r d : decode_loop (brk off ++ r) d = decode_loop r d.
Proof. unfold brk. by destruct (_ && _). Qed.

Section Chars.
(** The work buffer is [P ++ ...] with [temp_dst] behind [P]. *)
Context (P : list Z) (tp : Z) (Htp : tp = zlen P) (cntr rt destl : Z) (dest : list Z).

Lemma decode_char0 c x Y :
  decode_char c (mkDec 0 cntr (P ++ x :: Y) tp rt destl dest) =
    Some (Go (mkDec 1 cntr (P ++ u8 (Z.shiftl c 2) :: Y) tp rt destl dest)).
Proof.
  unfold decode_char, put. cbn [d_e d_cntr d_dst d_tp d_rt d_destl d_dest Z.eqb].
  by rewrite (store_mid P [x] [u8 (Z.shiftl c 2)] Y) by done.
Qed.

Lemma or_put_mid e v x Y :
  or_put (mkDec e cntr (P ++ x :: Y) tp rt destl dest) v = Some (P ++ u8 (Z.lor x v) :: Y).
Proof.
  unfold or_put. cbn [d_dst d_tp]. rewrite Htp, Nat2Z.id, list_lookup_middle by done. cbn [mbind option_bind].
  by apply (store_mid P [x] [_] Y).
Qed.

Lemma store_next v x y Y : store (P ++ x :: y :: Y) (tp + 1) [v] = Some (P ++ x :: v :: Y).
Proof.
  change (P ++ x :: y :: Y) with (P ++ [x] ++ [y] ++ Y). rewrite app_assoc.
  rewrite (store_mid (P ++ [x]) [y] [v] Y); [by rewrite <- app_assoc| |done].
  rewrite length_app. cbn [length]. lia.
Qed.

Lemma decode_char1 c x y Y :
  decode_char c (mkDec 1 cntr (P ++ x :: y :: Y) tp rt destl dest) =
    Some (Go (mkDec 2 cntr (P ++ u8 (Z.lor x (Z.shiftr c 4)) :: u8 (Z.shiftl c 4) :: Y) (tp + 1) rt destl dest)).
Proof.
  unfold decode_char. cbn [d_e d_cntr d_dst d_tp d_rt d_destl d_dest Z.eqb Pos.eqb].
  rewrite or_put_mid. cbn [mbind option_bind]. by rewrite store_next.
Qed.

Lemma decode_char2 c x y Y :
  decode_char c (mkDec 2 cntr (P ++ x :: y :: Y) tp rt destl dest) =
    Some (Go (mkDec 3 cntr (P ++ u8 (Z.lor x (Z.shiftr c 2)) :: u8 (Z.shiftl c 6) :: Y) (tp + 1) rt destl dest)).
Proof.
  unfold decode_char. cbn [d_e d_cntr d_dst d_tp d_rt d_destl d_dest Z.eqb Pos.eqb].
  rewrite or_put_mid. cbn [mbind option_bind]. by rewrite store_next.
Qed.

Lemma decode_char3 c x Y :
  decode_char c (mkDec 3 cntr (P ++ x :: Y) tp rt destl dest) =
    let d := mkDec 0 (cntr +u 4) (P ++ u8 (Z.lor x c) :: Y) (tp + 1) rt destl dest in
    if cntr +u 4 =? 164 then
      o ← flush d;
      on_go o (fun d => Some (Go (mkDec (d_e d) 0 (d_dst d) (d_tp d) (d_rt d) (d_destl d) (d_dest d))))
    else Some (Go d).
Proof.
  unfold decode_char. cbn [d_e d_cntr d_dst d_tp d_rt d_destl d_dest Z.eqb Pos.eqb].
  by rewrite or_put_mid.
Qed.
End Chars.

(** The three bytes of a group from its four characters. *)
Lemma join1 a b : is_byte a -> is_byte b ->
  u8 (Z.lor (u8 (Z.shiftl (a / 4) 2)) (Z.shiftr (a mod 4 * 16 + b / 16) 4)) = a.
Proof.
  unfold is_byte. intros. rewrite (u8_small (Z.shiftl _ _)) by (rewrite Z.shiftl_mul_pow2; unfold is_byte; zlia).
  rewrite Z.shiftr_div_pow2 by lia. change (2 ^ 4) with 16. rewrite Z.div_add_l, (Z.div_small (b / 16)) by zlia.
  rewrite Z.add_0_r, lor_shiftl_add by zlia. rewrite u8_small; unfold is_byte; zlia.
Qed.

Lemma join2 a b c : is_byte a -> is_byte b -> is_byte c ->
  u8 (Z.lor (u8 (Z.shiftl (a mod 4 * 16 + b / 16) 4)) (Z.shiftr (b mod 16 * 4 + c / 64) 2)) = b.
Proof.
  unfold is_byte. intros.
  assert (E : u8 (Z.shiftl (a mod 4 * 16 + b / 16) 4) = Z.shiftl (b / 16) 4).
  { unfold u8. rewrite !Z.shiftl_mul_pow2 by lia. change (2 ^ 4) with 16. change (2 ^ 8) with 256. zlia. }
  rewrite E, Z.shiftr_div_pow2 by lia. change (2 ^ 2) with 4. rewrite Z.div_add_l, (Z.div_small (c / 64)) by zlia.
  rewrite Z.add_0_r, lor_shiftl_add by zlia. rewrite u8_small; unfold is_byte; zlia.
Qed.

Lemma join3 b c : is_byte b -> is_byte c ->
  u8 (Z.lor (u8 (Z.shiftl (b mod 16 * 4 + c / 64) 6)) (c mod 64)) = c.
Proof.
  unfold is_byte. intros.
  assert (E : u8 (Z.shiftl (b mod 16 * 4 + c / 64) 6) = Z.shiftl (c / 64) 6).
  { unfold u8. rewrite !Z.shiftl_mul_pow2 by lia. change (2 ^ 6) with 64. change (2 ^ 8) with 256. zlia. }
  rewrite E, lor_shiftl_add by zlia. rewrite u8_small; unfold is_byte; zlia.
Qed.

Section RoundTrip.
Context (dest0 : list Z) (L : Z).
Hypothesis HL : 0 <= L <= zlen dest0.
Hypothesis HN : zlen dest0 < 2 ^ 31.

(** [A] has been copied to the destination, [P] is in the work buffer. *)
Definition at_state (e cntr : Z) (A P X : list Z) : dec :=
  mkDec e cntr (P ++ X) (zlen P) (zlen A) (L - zlen A) (splice dest0 0 A).

Lemma flush_at e cntr A P X :
  zlen A + zlen P <= L -> flush (at_state e cntr A P X) = Some (Go (at_state e cntr (A ++ P) [] empty_dst)).
Proof.
  intros Hl. unfold flush, at_state. cbn [d_e d_cntr d_dst d_tp d_rt d_destl d_dest].
  rewrite (proj2 (Z.ltb_ge _ _)) by lia. rewrite (load_mid [] P X) by done. cbn [mbind option_bind].
  rewrite store_ok by (rewrite ?splice_length; lia). cbn [mbind option_bind].
  rewrite Nat2Z.id, splice_0_app by lia. rewrite !u32_small by (unfold is_u32; lia).
  rewrite length_app, app_nil_l. do 3 f_equal; cbn [length]; lia.
Qed.

(** A group of four characters. *)
Lemma decode_group3 q A P X a b c r :
  zlen P = 3 * q -> 0 <= q <= 40 -> length (P ++ X) = 128%nat -> zlen A + zlen P + 3 <= L ->
  is_byte a -> is_byte b -> is_byte c ->
  exists q' A' P' X', decode_loop (group3 a b c ++ r) (at_state 0 (4 * q) A P X) =
      decode_loop r (at_state 0 (4 * q') A' P' X') /\
    A' ++ P' = A ++ P ++ [a; b; c] /\ zlen P' = 3 * q' /\ 0 <= q' <= 40 /\ length (P' ++ X') = 128%nat.
Proof.
  intros HP Hq LX Hl Ha Hb Hc. rewrite length_app in LX.
  destruct X as [|x [|y [|z X]]]; cbn [length] in LX; try lia. unfold at_state, group3. cbn [app].
  unfold is_byte in Ha, Hb, Hc.
  rewrite decode_loop_data, decode_char0 by (done || zlia). cbn [mbind option_bind on_go].
  rewrite decode_loop_data, decode_char1 by (done || zlia). cbn [mbind option_bind on_go]. rewrite join1 by done.
  change (P ++ a :: ?y :: ?Y) with (P ++ [a] ++ y :: Y). rewrite (app_assoc P).
  rewrite decode_loop_data, decode_char2 by ((rewrite length_app; cbn [length]; lia) || zlia).
  cbn [mbind option_bind on_go]. rewrite join2 by done.
  change ((P ++ [a]) ++ b :: ?y :: ?Y) with ((P ++ [a]) ++ [b] ++ y :: Y). rewrite (app_assoc (P ++ [a])).
  rewrite decode_loop_data, decode_char3 by ((rewrite !length_app; cbn [length]; lia) || zlia).
  rewrite join3 by done. rewrite (u32_small (4 * q + 4)) by (unfold is_u32; lia). cbv zeta.
  set (P3 := P ++ [a; b; c]).
  assert (E3 : (((P ++ [a]) ++ [b]) ++ c :: X) = P3 ++ X) by (unfold P3; by rewrite <- !app_assoc).
  assert (L3 : zlen P3 = zlen P + 3) by (unfold P3; rewrite length_app; cbn [length]; lia).
  rewrite E3. replace (zlen P + 1 + 1 + 1) with (zlen P3) by lia.
  destruct (Z.eqb_spec (4 * q + 4) 164) as [Eq|Eq].
  - pose proof (flush_at 0 (4 * q + 4) A P3 X ltac:(lia)) as F. unfold at_state in F. rewrite F.
    cbn [mbind option_bind on_go d_e d_cntr d_dst d_tp d_rt d_destl d_dest].
    exists 0, (A ++ P3), [], empty_dst. split; [done|]. split; [by rewrite app_nil_r|]. split; [done|]. split; [lia|done].
  - cbn [mbind option_bind on_go]. exists (q + 1), A, P3, X. replace (4 * (q + 1)) with (4 * q + 4) by lia.
    split; [done|]. split; [done|]. rewrite length_app. lia.
Qed.

Lemma finish_at e cntr A P X :
  zlen A + zlen P < L ->
  decode_finish (at_state e cntr A P X) = Some (zlen (A ++ P), splice dest0 0 ((A ++ P) ++ [0])).
Proof.
  intros Hl. unfold decode_finish, flush_if. cbn [andb].
  assert (E : exists P' X', (if negb (d_tp (at_state e cntr A P X) =? 0) then flush (at_state e cntr A P X)
                             else Some (Go (at_state e cntr A P X))) = Some (Go (at_state e cntr (A ++ P) P' X'))).
  { unfold at_state at 1. cbn [d_tp]. destruct (Z.eqb_spec (zlen P) 0) as [E0|E0]; cbn [negb].
    - destruct P; [|cbn [length] in E0; lia]. rewrite app_nil_r. eauto.
    - rewrite flush_at by lia. eauto. }
  destruct E as (P' & X' & ->). cbn [mbind option_bind]. unfold at_state. cbn [d_destl d_dest d_rt].
  assert (Lm : zlen (A ++ P) = zlen A + zlen P) by (rewrite length_app; lia).
  assert (Ls : length (splice dest0 0 (A ++ P)) = length dest0) by (apply splice_length; lia).
  rewrite (proj2 (Z.ltb_ge _ _)) by lia. rewrite store_ok by (rewrite ?Ls; cbn [length]; lia).
  cbn [mbind option_bind]. rewrite Nat2Z.id, splice_0_app by (cbn [length]; lia).
  by rewrite s32_small by lia.
Qed.

(** The last group, of one or two bytes, with its padding. *)
Lemma flush_if_at e cntr A P X :
  0 < zlen P -> zlen A + zlen P <= L ->
  flush_if true (at_state e cntr A P X) = Some (Go (at_state e cntr (A ++ P) [] empty_dst)).
Proof.
  intros HP Hl. unfold flush_if. cbn [andb]. unfold at_state at 1. cbn [d_tp].
  rewrite (proj2 (Z.eqb_neq _ _)) by lia. by apply flush_at.
Qed.

Lemma decode_pad1 cntr dst tp rt destl dest :
  decode_loop [61] (mkDec 3 cntr dst tp rt destl dest) = flush_if true (mkDec 4 cntr dst tp rt destl dest).
Proof. reflexivity. Qed.
Lemma decode_pad2 cntr dst tp rt destl dest :
  decode_loop [61; 61] (mkDec 2 cntr dst tp rt destl dest) = flush_if true (mkDec 4 cntr dst tp rt destl dest).
Proof. reflexivity. Qed.

Lemma decode_group2 q A P X a b :
  zlen P = 3 * q -> 0 <= q <= 40 -> length (P ++ X) = 128%nat -> zlen A + zlen P + 2 <= L ->
  is_byte a -> is_byte b ->
  decode_loop (group2 a b) (at_state 0 (4 * q) A P X) =
    Some (Go (at_state 4 (4 * q) (A ++ P ++ [a; b]) [] empty_dst)).
Proof.
  intros HP Hq LX Hl Ha Hb. rewrite length_app in LX.
  destruct X as [|x [|y [|z X]]]; cbn [length] in LX; try lia. unfold at_state at 1, group2.
  unfold is_byte in Ha, Hb.
  rewrite decode_loop_data, decode_char0 by (done || zlia). cbn [mbind option_bind on_go].
  rewrite decode_loop_data, decode_char1 by (done || zlia). cbn [mbind option_bind on_go]. rewrite join1 by done.
  change (P ++ a :: ?y :: ?Y) with (P ++ [a] ++ y :: Y). rewrite (app_assoc P).
  rewrite decode_loop_data, decode_char2 by ((rewrite length_app; cbn [length]; lia) || zlia).
  cbn [mbind option_bind on_go].
  assert (J := join2 a b 0 Ha Hb ltac:(unfold is_byte; lia)). change (0 / 64) with 0 in J. rewrite Z.add_0_r in J. rewrite J.
  set (X2 := u8 _ :: X).
  assert (E2 : ((P ++ [a]) ++ b :: X2) = (P ++ [a; b]) ++ X2) by (by rewrite <- !app_assoc).
  rewrite E2, decode_pad1.
  replace (zlen P + 1 + 1) with (zlen (P ++ [a; b])) by (rewrite length_app; cbn [length]; lia).
  apply (flush_if_at 4 (4 * q) A (P ++ [a; b]) X2); rewrite length_app; cbn [app length]; lia.
Qed.

Lemma decode_group1 q A P X a :
  zlen P = 3 * q -> 0 <= q <= 40 -> length (P ++ X) = 128%nat -> zlen A + zlen P + 1 <= L ->
  is_byte a ->
  decode_loop (group1 a) (at_state 0 (4 * q) A P X) =
    Some (Go (at_state 4 (4 * q) (A ++ P ++ [a]) [] empty_dst)).
Proof.
  intros HP Hq LX Hl Ha. rewrite length_app in LX.
  destruct X as [|x [|y [|z X]]]; cbn [length] in LX; try lia. unfold at_state at 1, group1.
  unfold is_byte in Ha.
  rewrite decode_loop_data, decode_char0 by (done || zlia). cbn [mbind option_bind on_go].
  rewrite decode_loop_data, decode_char1 by (done || zlia). cbn [mbind option_bind on_go].
  assert (J := join1 a 0 Ha ltac:(unfold is_byte; lia)). change (0 / 16) with 0 in J. rewrite Z.add_0_r in J. rewrite J.
  set (X2 := u8 _ :: z :: X).
  assert (E2 : (P ++ a :: X2) = (P ++ [a]) ++ X2) by (by rewrite <- !app_assoc).
  rewrite E2, decode_pad2.
  replace (zlen P + 1) with (zlen (P ++ [a])) by (rewrite length_app; cbn [length]; lia).
  apply (flush_if_at 4 (4 * q) A (P ++ [a]) X2); rewrite length_app; cbn [length]; lia.
Qed.

Lemma decode_b64 l : forall off q A P X,
  bytes l -> zlen P = 3 * q -> 0 <= q <= 40 -> length (P ++ X) = 128%nat -> zlen A + zlen P + zlen l < L ->
  exists d, decode_loop (b64 off l) (at_state 0 (4 * q) A P X) = Some (Go d) /\
    decode_finish d = Some (zlen (A ++ P ++ l), splice dest0 0 ((A ++ P ++ l) ++ [0])).
Proof.
  induction l as [|a|a b|a b c r IH] using list3_ind; intros off q A P X B HP Hq LX Hl; cbn [length] in Hl.
  - eexists. split; [done|]. rewrite app_nil_r. apply finish_at. lia.
  - apply Forall_cons_1 in B as [? _]. cbn [b64]. rewrite decode_loop_break, decode_group1 by (done || lia).
    eexists. split; [done|].
    pose proof (finish_at 4 (4 * q) (A ++ P ++ [a]) [] empty_dst) as F. rewrite app_nil_r in F. apply F.
    rewrite !length_app. cbn [length]. lia.
  - do 2 (apply Forall_cons_1 in B as [? B]). cbn [b64]. rewrite decode_loop_break, decode_group2 by (done || lia).
    eexists. split; [done|].
    pose proof (finish_at 4 (4 * q) (A ++ P ++ [a; b]) [] empty_dst) as F. rewrite app_nil_r in F. apply F.
    rewrite !length_app. cbn [length]. lia.
  - do 3 (apply Forall_cons_1 in B as [? B]). cbn [b64]. rewrite decode_loop_break.
    destruct (decode_group3 q A P X a b c (b64 (off + 3) r)) as (q' & A' & P' & X' & -> & E & HP' & Hq' & LX');
      try done; [lia|].
    assert (El : zlen A' + zlen P' = zlen A + zlen P + 3).
    { apply (f_equal length) in E. rewrite !length_app in E. cbn [length] in E. lia. }
    destruct (IH (off + 3) q' A' P' X' B HP' Hq' LX' ltac:(lia)) as (d & Ed & Ef).
    exists d. split; [done|]. rewrite Ef.
    assert (Ea : A' ++ P' ++ r = A ++ P ++ a :: b :: c :: r) by (rewrite app_assoc, E, <- !app_assoc; done).
    by rewrite Ea.
Qed.
End RoundTrip.

(** Decoding inverts encoding.  For every byte string, of any length and with
    the line breaks the encoder inserts, [DM_Base64_decode] of its encoding
    into a buffer with room for it and a terminator returns its length and
    leaves the string, terminated, at the start of the buffer and the rest of
    the buffer alone; the intermediate copies of its 128-byte work buffer lose
    nothing. *)
Lemma b64_decode_encode l x dest destl :
  bytes l -> zlen l < destl <= zlen dest -> zlen dest < 2 ^ 31 ->
  DM_Base64_decode (b64 0 l ++ x) (zlen (b64 0 l)) dest destl = Some (zlen l, splice dest 0 (l ++ [0])).
Proof.
  intros B Hl Hn. unfold DM_Base64_decode. rewrite (load_mid [] (b64 0 l) x) by done. cbn [mbind option_bind].
  destruct (decode_b64 dest destl ltac:(lia) Hn l 0 0 [] [] empty_dst) as (d & E & F);
    [done | done | lia | done | cbn [length]; lia |].
  unfold at_state in E. cbn [app length] in E. change (Z.of_nat 0) with 0 in E.
  rewrite Z.sub_0_r, splice_nil in E by lia. change (4 * 0) with 0 in E. rewrite E. cbn [mbind option_bind]. apply F.
Qed.

Lemma b64_decode_encode_witness :
  DM_Base64_decode (b64 0 [117; 58; 112; 119] ++ [0]) (zlen (b64 0 [117; 58; 112; 119])) (replicate 8 9) 6 =
    Some (4, [117; 58; 112; 119; 0; 9; 9; 9]).
Proof.
  rewrite (b64_decode_encode [117; 58; 112; 119] [0] (replicate 8 9) 6);
    [reflexivity | by apply (bool_decide_eq_true_1 (bytes _)) | cbn; lia | cbn; lia].
Defined.

(** The branch that flushes saved bytes emits no padding: one saved byte, 0x41,
    becomes [QQAA] instead of [QQ==], and the count of saved bytes wraps to
    255. *)
Example encode_saved_unpadded :
  mmidm_base64Encode 80 None 0 0 1 (Some [1; 65; 0; 0]) =
    Some ([81; 81; 65; 65], None, 0, 1, Some [255; 65; 0; 0]) /\
  b64 0 [65] = [81; 81; 61; 61].
Proof. split; reflexivity. Qed.
