(* ===== verification/NumConv.v ===== *)
(** * Number conversion (libs/libdm/src/sprd_dm_md5_b64.c, third part)

    [MMIDM_atoIU32] and [MMIDM_IU32toa] convert between 32-bit values and their
    decimal or hexadecimal strings.  A string is the memory from the pointer on;
    reading or writing past it is undefined.  [int16] counters wrap. *)
From S2P Require Import Prelude.

Definition s16 (z : Z) : Z := (z + 2 ^ 15) mod 2 ^ 16 - 2 ^ 15.
Definition MAX_IU32_DIV_TEN : Z := 0xffffffff / 10.
Definition MAX_IU32_MOD_TEN : Z := 0xffffffff mod 10.

(** ** Parsing *)
Definition is_digit (c : Z) : bool := (48 <=? c) && (c <=? 57).

(** The decimal loop: the string behind [nextChr]; the value, the character it
    stopped at and the number of digits. *)
Fixpoint dec_loop (string : list Z) (nextChr myVal digitsParsed : Z) : option (Z * Z * Z) :=
  if is_digit nextChr then
    if (MAX_IU32_DIV_TEN <? myVal) ||
       ((myVal =? MAX_IU32_DIV_TEN) && (48 + MAX_IU32_MOD_TEN <? nextChr))
    then Some (myVal, nextChr, digitsParsed)
    else match string with
         | [] => None
         | c :: r => dec_loop r c ((myVal *u 10) +u (nextChr - 48)) (s16 (digitsParsed + 1))
         end
  else Some (myVal, nextChr, digitsParsed).

Definition hex_value (c : Z) : option Z :=
  if (48 <=? c) && (c <=? 57) then Some (c - 48)
  else if (65 <=? c) && (c <=? 70) then Some (c - 65 + 10)
  else if (97 <=? c) && (c <=? 102) then Some (c - 97 + 10)
  else None.

Fixpoint hex_loop (string : list Z) (cVal myVal digitsParsed : Z) : option (Z * Z * Z) :=
  if cVal =? 0 then Some (myVal, cVal, digitsParsed) else
  match hex_value cVal with
  | None => Some (myVal, cVal, digitsParsed)
  | Some h =>
      let myVal := Z.lor (u32 (Z.shiftl myVal 4)) h in
      let digits := s16 (digitsParsed + 1) in
      if 8 <? digitsParsed then Some (myVal, cVal, digits)
      else match string with
           | [] => None
           | c :: r => hex_loop r c myVal digits
           end
  end.

(** The optional [0x]. *)
Definition skip_prefix (string : list Z) : option (list Z) :=
  match string with
  | [] => None
  | c :: r =>
      if c =? 48 then
        match r with
        | [] => None
        | x :: r' => if (x =? 120) || (x =? 88) then Some r' else Some string
        end
      else Some string
  end.

(** [MMIDM_atoIU32]: the value, and what is written to [*success], nothing for
    a NULL string. *)
Definition MMIDM_atoIU32 (string : option (list Z)) (radix : Z) : option (Z * option bool) :=
  match string with
  | None => Some (0, None)
  | Some s =>
      if radix =? 10 then
        match s with
        | [] => None
        | c :: r =>
            o ← dec_loop r c 0 0;
            let '(v, c, n) := o in Some (v, Some ((c =? 0) && (0 <? n)))
        end
      else
        s ← skip_prefix s;
        match s with
        | [] => None
        | c :: r =>
            o ← hex_loop r c 0 0;
            let '(v, c, n) := o in Some (v, Some ((0 <? n) && (n <? 9) && (c =? 0)))
        end
  end.

(** ** Printing *)

(** The loop that counts the digits; [next] removes one.  A 32-bit value has at
    most 32 digits in any base, so a fuel of 33 is enough. *)
Fixpoint count_digits (fuel : nat) (next : Z -> Z) (v i : Z) : option Z :=
  match fuel with
  | O => None
  | S k => let v := next v in let i := i + 1 in
           if negb (v =? 0) then count_digits k next v i else Some i
  end.

(** The loop that writes them, from the last to the first. *)
Fixpoint write_digits (n : nat) (next digit : Z -> Z) (value : Z) (string : list Z) : option (list Z) :=
  match n with
  | O => Some string
  | S k => s ← store string (Z.of_nat k) [digit value]; write_digits k next digit (next value) s
  end.

Definition hex_digit (value : Z) : Z :=
  let ch := 48 + Z.land value 0xF in if 57 <? ch then ch + 65 - (57 + 1) else ch.
Definition dec_digit (value : Z) : Z := 48 + value mod 10.

Definition print_digits (next digit : Z -> Z) (value : Z) (string : list Z) : option (list Z) :=
  i ← count_digits 33 next value 0;
  s ← store string i [0];
  write_digits (Z.to_nat i) next digit value s.

(** [MMIDM_IU32toa]: the string, unchanged when it is NULL. *)
Definition MMIDM_IU32toa (value : Z) (string : option (list Z)) (radix : Z) : option (option (list Z)) :=
  match string with
  | None => Some None
  | Some s =>
      r ← (if radix =? 16 then print_digits (fun v => Z.shiftr v 4) hex_digit value s
           else print_digits (fun v => v / 10) dec_digit value s);
      Some (Some r)
  end.

(** ** The decimal parser *)
Definition digits (ds : list Z) : Prop := Forall (fun c => 48 <= c <= 57) ds.
(** The value of a digit string read after the value [a]. *)
Definition dec_value (a : Z) (ds : list Z) : Z := fold_left (fun a c => a * 10 + (c - 48)) ds a.

Lemma is_digit_spec c : is_digit c = true <-> 48 <= c <= 57.
Proof. unfold is_digit. rewrite andb_true_iff, !Z.leb_le. done. Qed.

Lemma dec_value_ge ds a : digits ds -> 0 <= a -> a <= dec_value a ds.
Proof.
  intros D. revert a. induction D as [|c ds Hc _ IH]; intros a Ha; [apply Z.le_refl|].
  unfold dec_value in *. cbn [fold_left]. etransitivity; [|apply IH]; lia.
Qed.

(** The overflow test is exact. *)
Lemma overflow_test a c :
  0 <= a < 2 ^ 32 -> 48 <= c <= 57 ->
  ((MAX_IU32_DIV_TEN <? a) || ((a =? MAX_IU32_DIV_TEN) && (48 + MAX_IU32_MOD_TEN <? c))) = (2 ^ 32 <=? a * 10 + (c - 48)).
Proof.
  intros Ha Hc. change MAX_IU32_DIV_TEN with 429496729. change (48 + MAX_IU32_MOD_TEN) with 53.
  apply eq_bool_prop_intro. destruct (Z.leb_spec (2 ^ 32) (a * 10 + (c - 48))),
    (Z.ltb_spec 429496729 a), (Z.eqb_spec a 429496729), (Z.ltb_spec 53 c); cbn; lia.
Qed.

Lemma s16_small z : 0 <= z < 2 ^ 15 -> s16 z = z.
Proof. intros. unfold s16. rewrite Z.mod_small; lia. Qed.

(** The loop on digits [d :: ds] followed by a character that is none. *)
Lemma dec_loop_spec ds : forall d a n c t,
  digits (d :: ds) -> is_digit c = false -> 0 <= a < 2 ^ 32 -> 0 <= n -> n + zlen (d :: ds) < 2 ^ 15 ->
  if dec_value a (d :: ds) <? 2 ^ 32
  then dec_loop (ds ++ c :: t) d a n = Some (dec_value a (d :: ds), c, n + zlen (d :: ds))
  else exists v e k, dec_loop (ds ++ c :: t) d a n = Some (v, e, k) /\ e <> 0.
Proof.
  induction ds as [|d' ds IH]; intros d a n c t D Hc Ha Hn Hl;
    (apply Forall_cons_1 in D as [Hd D]); cbn [app dec_loop length] in *;
    rewrite (proj2 (is_digit_spec d)), overflow_test by done.
  - unfold dec_value. cbn [fold_left]. rewrite Z.ltb_antisym. destruct (Z.leb_spec (2 ^ 32) (a * 10 + (d - 48))); cbn [negb].
    + eexists _, _, _. split; [done|lia].
    + assert (E : forall v, dec_loop t c v (s16 (n + 1)) = Some (v, c, s16 (n + 1))) by (intros; destruct t; cbn; by rewrite Hc).
      rewrite E, s16_small by lia. rewrite (u32_small (a * 10)), u32_small by (unfold is_u32; lia). do 2 f_equal.
  - change (dec_value a (d :: d' :: ds)) with (dec_value (a * 10 + (d - 48)) (d' :: ds)).
    destruct (Z.leb_spec (2 ^ 32) (a * 10 + (d - 48))).
    + pose proof (dec_value_ge (d' :: ds) (a * 10 + (d - 48)) D ltac:(lia)).
      rewrite (proj2 (Z.ltb_ge _ _)) by lia. eexists _, _, _. split; [done|lia].
    + rewrite (u32_small (a * 10)), u32_small, s16_small by (unfold is_u32; lia).
      specialize (IH d' (a * 10 + (d - 48)) (n + 1) c t D Hc ltac:(lia) ltac:(lia)).
      cbn [length] in IH. specialize (IH ltac:(lia)).
      replace (n + Z.of_nat (S (S (length ds)))) with (n + 1 + Z.of_nat (S (length ds))) by lia. exact IH.
Qed.

(** The decimal parser is exact.  A nonempty digit string, leading zeros
    included, is accepted if and only if it is followed by the terminator and
    its value fits 32 bits, and then its value is returned; the overflow test
    never fires early or late. *)
Lemma atoIU32_decimal ds c t :
  digits ds -> ds <> [] -> is_digit c = false -> zlen ds < 2 ^ 15 ->
  exists v, MMIDM_atoIU32 (Some (ds ++ c :: t)) 10 =
      Some (v, Some ((c =? 0) && (dec_value 0 ds <? 2 ^ 32))) /\
    (dec_value 0 ds < 2 ^ 32 -> v = dec_value 0 ds).
Proof.
  intros D Ne Hc Hl. destruct ds as [|d ds]; [done|]. unfold MMIDM_atoIU32. cbn [app].
  change (10 =? 10) with true. cbv iota.
  pose proof (dec_loop_spec ds d 0 0 c t D Hc ltac:(lia) ltac:(lia) ltac:(lia)) as S.
  destruct (Z.ltb_spec (dec_value 0 (d :: ds)) (2 ^ 32)).
  - rewrite S. cbn [mbind option_bind]. eexists. split; [|done].
    rewrite (proj2 (Z.ltb_lt 0 _)) by (cbn [length]; lia). done.
  - destruct S as (v & e & k & -> & He). cbn [mbind option_bind].
    rewrite (proj2 (Z.eqb_neq e 0)) by done. rewrite andb_false_r. cbn [andb]. eexists. split; [done|lia].
Qed.

Lemma atoIU32_decimal_witness :
  MMIDM_atoIU32 (Some ([48; 52; 50] ++ 0 :: [7])) 10 = Some (42, Some true).
Proof.
  destruct (atoIU32_decimal [48; 52; 50] 0 [7]) as (v & E & V).
  - repeat constructor; lia.
  - discriminate.
  - reflexivity.
  - cbn; lia.
  - rewrite E, V; [reflexivity | cbn; lia].
Defined.

(** ** The hexadecimal parser *)
Definition hexes (ds hs : list Z) : Prop := Forall2 (fun c h => hex_value c = Some h) ds hs.
Definition hex_val (a : Z) (hs : list Z) : Z := fold_left (fun a h => a * 16 + h) hs a.

Lemma hex_value_range c h : hex_value c = Some h -> 0 <= h < 16 /\ c <> 0 /\ c <> 120 /\ c <> 88.
Proof.
  unfold hex_value. intros E.
  destruct (Z.leb_spec 48 c), (Z.leb_spec c 57); cbn [andb] in E; simplify_eq; try lia;
  destruct (Z.leb_spec 65 c), (Z.leb_spec c 70); cbn [andb] in E; simplify_eq; try lia;
  destruct (Z.leb_spec 97 c), (Z.leb_spec c 102); cbn [andb] in E; simplify_eq; lia.
Qed.

Lemma hex_loop_end c t a n : c = 0 \/ hex_value c = None -> hex_loop t c a n = Some (a, c, n).
Proof.
  intros [-> | E]; destruct t; cbn [hex_loop]; try done; rewrite E; by destruct (c =? 0).
Qed.

Lemma hex_loop_spec ds : forall hs d h a n c t,
  hexes (d :: ds) (h :: hs) -> c = 0 \/ hex_value c = None -> 0 <= n -> n + zlen (d :: ds) <= 8 ->
  0 <= a < 16 ^ n ->
  hex_loop (ds ++ c :: t) d a n = Some (hex_val a (h :: hs), c, n + zlen (d :: ds)).
Proof.
  induction ds as [|d' ds IH]; intros hs d h a n c t F Hc Hn Hl Ha;
    (apply Forall2_cons_1 in F as [Hd F]); cbn [app length] in *; cbn [hex_loop];
    destruct (hex_value_range d h Hd) as (Hh & Hd0 & _);
    rewrite (proj2 (Z.eqb_neq d 0)), Hd by done; rewrite (proj2 (Z.ltb_ge 8 n)), s16_small by lia;
    assert (Hp : 16 ^ n <= 2 ^ 28) by (change (2 ^ 28) with (16 ^ 7); apply Z.pow_le_mono_r; lia);
    assert (Ev : Z.lor (u32 (Z.shiftl a 4)) h = a * 16 + h)
      by (rewrite u32_small by (rewrite Z.shiftl_mul_pow2; unfold is_u32; lia); apply lor_shiftl_add; lia);
    rewrite Ev; destruct hs as [|h' hs]; try (by inversion F).
  - rewrite hex_loop_end by done. reflexivity.
  - erewrite IH; [| exact F | done | lia | cbn [length]; lia | rewrite Z.pow_add_r; lia].
    do 2 f_equal. cbn [length]. lia.
Qed.

(** More than eight digits are refused. *)
Lemma hex_loop_long ds : forall hs d h a n c t,
  hexes (d :: ds) (h :: hs) -> c = 0 \/ hex_value c = None -> 0 <= n <= 9 -> 9 <= n + zlen (d :: ds) ->
  exists v e k, hex_loop (ds ++ c :: t) d a n = Some (v, e, k) /\ (9 <= k \/ e <> 0).
Proof.
  induction ds as [|d' ds IH]; intros hs d h a n c t F Hc Hn Hl;
    (apply Forall2_cons_1 in F as [Hd F]); cbn [app length] in *; cbn [hex_loop];
    destruct (hex_value_range d h Hd) as (Hh & Hd0 & _);
    rewrite (proj2 (Z.eqb_neq d 0)), Hd by done; rewrite s16_small by lia;
    destruct (Z.ltb_spec 8 n); try (eexists _, _, _; split; [done|by right]).
  - rewrite hex_loop_end by done. eexists _, _, _. split; [done|lia].
  - destruct hs as [|h' hs]; [by inversion F|]. eapply IH; [exact F | done | lia | cbn [length]; lia].
Qed.

Lemma skip_prefix_none d r : (forall x r', d = 48 -> r = x :: r' -> x <> 120 /\ x <> 88) -> r <> [] ->
  skip_prefix (d :: r) = Some (d :: r).
Proof.
  intros H Hr. cbn [skip_prefix]. destruct (Z.eqb_spec d 48); [|done]. destruct r as [|x r]; [done|].
  destruct (H x r) as [? ?]; [done|done|]. by rewrite (proj2 (Z.eqb_neq x 120)), (proj2 (Z.eqb_neq x 88)) by done.
Qed.

(** Hexadecimal strings of one to eight digits, of either case, are accepted
    with their value; longer ones are refused, whatever their value. *)
Lemma atoIU32_hex ds hs t :
  hexes ds hs -> ds <> [] -> 
  exists v, MMIDM_atoIU32 (Some (ds ++ 0 :: t)) 16 = Some (v, Some (zlen ds <=? 8)) /\
    (zlen ds <= 8 -> v = hex_val 0 hs).
Proof.
  intros F Ne. destruct ds as [|d ds]; [done|]. destruct hs as [|h hs]; [by inversion F|].
  unfold MMIDM_atoIU32. change (16 =? 10) with false. cbv iota. cbn [app].
  pose proof F as [_ F']%Forall2_cons_1.
  rewrite skip_prefix_none; [| | by destruct ds].
  - cbn [mbind option_bind]. destruct (Z.leb_spec (zlen (d :: ds)) 8).
    + rewrite (hex_loop_spec ds hs d h) by (done || lia || by left). cbn [mbind option_bind]. eexists. split; [|done].
      rewrite (proj2 (Z.ltb_lt 0 _)), (proj2 (Z.ltb_lt _ 9)) by (cbn [length] in *; lia). done.
    + destruct (hex_loop_long ds hs d h 0 0 0 t) as (v & e & k & -> & K); [done | by left | lia | lia |].
      cbn [mbind option_bind]. eexists. split; [|lia]. do 3 f_equal. destruct K as [K|K].
      * rewrite (proj2 (Z.ltb_ge k 9)) by lia. by rewrite andb_false_r.
      * rewrite (proj2 (Z.eqb_neq e 0)) by done. by rewrite andb_false_r.
  - intros x r' _ E. destruct ds as [|d' ds]; cbn [app] in E; injection E as <- _; [lia|].
    destruct hs as [|h' hs]; [by inversion F'|]. apply Forall2_cons_1 in F' as [Hd' _].
    by destruct (hex_value_range d' h' Hd') as (_ & _ & ?).
Qed.

(** ** Printing *)
Section Print.
(** The base, and the digit characters. *)
Context (b : Z) (Hb : 2 <= b) (next digit : Z -> Z) (chr : Z -> Z).
Hypothesis next_div : forall v, 0 <= v -> next v = v / b.
Hypothesis digit_chr : forall v, 0 <= v -> digit v = chr (v mod b).

(** The [n] lowest digits of [v], most significant first. *)
Fixpoint ref_digits (n : nat) (v : Z) : list Z :=
  match n with O => [] | S k => ref_digits k (v / b) ++ [v mod b] end.

Lemma ref_digits_length n v : length (ref_digits n v) = n.
Proof. revert v. induction n as [|n IH]; intros v; [done|]. cbn [ref_digits]. rewrite length_app, IH. cbn. lia. Qed.

Lemma ref_digits_range n v : Forall (fun h => 0 <= h < b) (ref_digits n v).
Proof.
  revert v. induction n as [|n IH]; intros v; cbn [ref_digits]; [constructor|].
  apply Forall_app_2; [done|]. repeat constructor; apply Z.mod_pos_bound; lia.
Qed.

Lemma ref_digits_value n v : 0 <= v < b ^ Z.of_nat n -> fold_left (fun a h => a * b + h) (ref_digits n v) 0 = v.
Proof.
  revert v. induction n as [|n IH]; intros v Hv; cbn [ref_digits].
  - change (b ^ Z.of_nat 0) with 1 in Hv. cbn. lia.
  - rewrite fold_left_app. cbn [fold_left]. rewrite IH.
    + rewrite Z.mul_comm. symmetry. apply Z.div_mod. lia.
    + rewrite Nat2Z.inj_succ, Z.pow_succ_r in Hv by lia. split; [apply Z.div_pos; lia|].
      apply Z.div_lt_upper_bound; lia.
Qed.

(** The number of digits is the least that suffices, but at least one. *)
Lemma count_digits_spec fuel : forall v i,
  0 <= v < b ^ Z.of_nat fuel -> (0 < fuel)%nat ->
  exists n, count_digits fuel next v i = Some (i + Z.of_nat n) /\ (1 <= n <= fuel)%nat /\
    v < b ^ Z.of_nat n /\ (n = 1%nat \/ b ^ (Z.of_nat n - 1) <= v).
Proof.
  induction fuel as [|fuel IH]; intros v i Hv Hf; [lia|]. cbn [count_digits]. rewrite next_div by lia.
  rewrite Nat2Z.inj_succ, Z.pow_succ_r in Hv by lia.
  assert (Hq : 0 <= v / b < b ^ Z.of_nat fuel).
  { split; [apply Z.div_pos; lia|]. apply Z.div_lt_upper_bound; lia. }
  destruct (Z.eqb_spec (v / b) 0) as [E|E]; cbn [negb].
  - exists 1%nat. split; [done|]. split; [lia|]. split; [|by left].
    change (Z.of_nat 1) with 1. rewrite Z.pow_1_r. apply Z.div_small_iff in E; lia.
  - destruct fuel as [|fuel]; [cbn in Hq; lia|].
    destruct (IH (v / b) (i + 1)) as (n & -> & Hn & Hlt & Hge); [done|lia|].
    assert (D : v = b * (v / b) + v mod b) by (apply Z.div_mod; lia).
    pose proof (Z.mod_pos_bound v b ltac:(lia)).
    exists (S n). split; [f_equal; lia|]. split; [lia|]. split.
    + rewrite Nat2Z.inj_succ, Z.pow_succ_r by lia. nia.
    + right. replace (Z.of_nat (S n) - 1) with (Z.of_nat n) by lia. destruct Hge as [-> | Hge].
      * change (Z.of_nat 1) with 1. rewrite Z.pow_1_r. nia.
      * replace (Z.of_nat n) with (1 + (Z.of_nat n - 1)) by lia. rewrite Z.pow_add_r, Z.pow_1_r by lia. nia.
Qed.

Lemma splice_before (m a c : list Z) :
  (length a + length c <= length m)%nat -> splice (splice m (length a) c) 0 a = splice m 0 (a ++ c).
Proof.
  intros H. apply list_eq. intros i. rewrite !lookup_splice; rewrite ?splice_length, ?length_app; try lia.
  repeat case_decide; try lia; try done; rewrite ?lookup_app_l, ?lookup_app_r by lia; f_equal; lia.
Qed.

Lemma write_digits_spec n : forall v s,
  0 <= v -> (n <= length s)%nat ->
  write_digits n next digit v s = Some (splice s 0 (map chr (ref_digits n v))).
Proof.
  induction n as [|n IH]; intros v s Hv L; cbn [write_digits ref_digits].
  - cbn [map]. by rewrite splice_nil by lia.
  - unfold store. rewrite !(proj2 (Z.leb_le _ _)) by (cbn [length]; lia). cbn [andb mbind option_bind].
    rewrite next_div, IH by (done || (apply Z.div_pos; lia) || (rewrite splice_length; cbn [length]; lia)).
    f_equal. rewrite map_app. cbn [map]. rewrite digit_chr by done.
    assert (Ll : length (map chr (ref_digits n (v / b))) = n) by (rewrite length_map; apply ref_digits_length).
    rewrite <- splice_before by (rewrite Ll; cbn [length]; lia). by rewrite Ll, Nat2Z.id.
Qed.

Lemma print_digits_spec v s :
  0 <= v < b ^ 33 ->
  exists n, (1 <= n <= 33)%nat /\ v < b ^ Z.of_nat n /\ (n = 1%nat \/ b ^ (Z.of_nat n - 1) <= v) /\
    print_digits next digit v s =
      if Z.of_nat n <? zlen s then Some (splice s 0 (map chr (ref_digits n v) ++ [0])) else None.
Proof.
  intros Hv. unfold print_digits.
  destruct (count_digits_spec 33 v 0) as (n & -> & Hn & Hlt & Hge); [done|lia|].
  exists n. split; [done|]. split; [done|]. split; [done|]. cbn [mbind option_bind]. rewrite Z.add_0_l.
  assert (Ll : length (map chr (ref_digits n v)) = n) by (rewrite length_map; apply ref_digits_length).
  unfold store. destruct (Z.ltb_spec (Z.of_nat n) (zlen s)).
  - rewrite !(proj2 (Z.leb_le _ _)) by (cbn [length]; lia). cbn [andb mbind option_bind]. rewrite Nat2Z.id.
    rewrite write_digits_spec by (lia || (rewrite splice_length; cbn [length]; lia)). f_equal.
    rewrite <- splice_before by (rewrite Ll; cbn [length]; lia). by rewrite Ll.
  - rewrite (proj2 (Z.leb_gt _ (zlen s))) by (cbn [length]; lia). by rewrite andb_false_r.
Qed.
End Print.

Definition dec_chr (h : Z) : Z := 48 + h.
Definition hex_chr (h : Z) : Z := if h <? 10 then 48 + h else 55 + h.

Lemma dec_print v s :
  is_u32 v ->
  exists n, (1 <= n <= 10)%nat /\ v < 10 ^ Z.of_nat n /\
    MMIDM_IU32toa v (Some s) 10 =
      if Z.of_nat n <? zlen s then Some (Some (splice s 0 (map dec_chr (ref_digits 10 n v) ++ [0]))) else None.
Proof.
  intros Hv. unfold is_u32 in Hv.
  destruct (print_digits_spec 10 ltac:(lia) (fun v => v / 10) dec_digit dec_chr ltac:(done) ltac:(done) v s)
    as (n & Hn & Hlt & Hge & E); [lia|].
  exists n. split; [|split; [done|]].
  - split; [lia|]. destruct Hge as [-> | Hge]; [lia|]. destruct (Nat.le_gt_cases n 10); [done|exfalso].
    assert (10 ^ 10 <= 10 ^ (Z.of_nat n - 1)) by (apply Z.pow_le_mono_r; lia). lia.
  - unfold MMIDM_IU32toa. change (10 =? 16) with false. cbv iota. rewrite E. by destruct (_ <? _).
Qed.

Lemma hex_digit_chr v : 0 <= v -> hex_digit v = hex_chr (v mod 16).
Proof.
  intros Hv. unfold hex_digit, hex_chr. 
  assert (E : Z.land v 0xF = v mod 16) by (apply (Z.land_ones v 4); lia). rewrite E.
  pose proof (Z.mod_pos_bound v 16 ltac:(lia)).
  destruct (Z.ltb_spec 57 (48 + v mod 16)), (Z.ltb_spec (v mod 16) 10); lia.
Qed.

Lemma hex_print v s :
  is_u32 v ->
  exists n, (1 <= n <= 8)%nat /\ v < 16 ^ Z.of_nat n /\
    MMIDM_IU32toa v (Some s) 16 =
      if Z.of_nat n <? zlen s then Some (Some (splice s 0 (map hex_chr (ref_digits 16 n v) ++ [0]))) else None.
Proof.
  intros Hv. unfold is_u32 in Hv.
  destruct (print_digits_spec 16 ltac:(lia) (fun v => Z.shiftr v 4) hex_digit hex_chr) with (v := v) (s := s)
    as (n & Hn & Hlt & Hge & E); [| apply hex_digit_chr | lia |].
  - intros w Hw. by rewrite Z.shiftr_div_pow2 by lia.
  - exists n. split; [|split; [done|]].
    + split; [lia|]. destruct Hge as [-> | Hge]; [lia|]. destruct (Nat.le_gt_cases n 8); [done|exfalso].
      assert (16 ^ 8 <= 16 ^ (Z.of_nat n - 1)) by (apply Z.pow_le_mono_r; lia). lia.
    + unfold MMIDM_IU32toa. change (16 =? 16) with true. cbv iota. rewrite E. by destruct (_ <? _).
Qed.

Lemma dec_value_map hs a : dec_value a (map dec_chr hs) = fold_left (fun a h => a * 10 + h) hs a.
Proof.
  revert a. induction hs as [|h hs IH]; intros a; [done|]. cbn [map]. unfold dec_value in *. cbn [fold_left].
  rewrite IH. f_equal. unfold dec_chr. lia.
Qed.

Lemma hex_chr_value h : 0 <= h < 16 -> hex_value (hex_chr h) = Some h.
Proof.
  intros Hh. pose proof (forall_below (fun h => bool_decide (hex_value (hex_chr h) = Some h)) 16 eq_refl h Hh) as E.
  by apply bool_decide_eq_true_1 in E.
Qed.

(** Printing and parsing are inverse.  For every 32-bit value and either
    radix, [MMIDM_IU32toa] into a buffer of eleven bytes succeeds, and
    [MMIDM_atoIU32] of the string it leaves there succeeds and returns the
    value. *)
Lemma IU32toa_atoIU32 v s radix :
  is_u32 v -> 11 <= zlen s -> radix = 10 \/ radix = 16 ->
  exists s', MMIDM_IU32toa v (Some s) radix = Some (Some s') /\ length s' = length s /\
    MMIDM_atoIU32 (Some s') radix = Some (v, Some true).
Proof.
  intros Hv Hs [-> | ->].
  - destruct (dec_print v s Hv) as (n & Hn & Hlt & ->). rewrite (proj2 (Z.ltb_lt _ _)) by lia.
    set (ds := map dec_chr (ref_digits 10 n v)).
    assert (Ld : length ds = n) by (unfold ds; rewrite length_map; by apply ref_digits_length).
    eexists. split; [done|]. split; [apply splice_length; rewrite length_app; cbn [length]; lia|].
    unfold splice. rewrite firstn_O, app_nil_l, <- app_assoc. cbn [app].
    assert (Ev : dec_value 0 ds = v) by (unfold ds; rewrite dec_value_map; apply ref_digits_value; unfold is_u32 in Hv; lia).
    assert (D : digits ds).
    { unfold ds. apply Forall_map. eapply List.Forall_impl; [|apply (ref_digits_range 10); lia]. unfold dec_chr. cbn. lia. }
    generalize (drop (0 + length (ds ++ [0])) s). intros tl.
    destruct ds as [|d ds']; [cbn [length] in Ld; lia|]. unfold MMIDM_atoIU32. change (10 =? 10) with true. cbv iota. cbn [app].
    pose proof (dec_loop_spec ds' d 0 0 0 tl D eq_refl ltac:(lia) ltac:(lia) ltac:(lia)) as S.
    rewrite Ev, (proj2 (Z.ltb_lt _ _)) in S by apply Hv. rewrite S. cbn [mbind option_bind].
    rewrite (proj2 (Z.ltb_lt 0 _)) by (cbn [length]; lia). done.
  - destruct (hex_print v s Hv) as (n & Hn & Hlt & ->). rewrite (proj2 (Z.ltb_lt _ _)) by lia.
    set (ds := map hex_chr (ref_digits 16 n v)).
    assert (Ld : length ds = n) by (unfold ds; rewrite length_map; by apply ref_digits_length).
    eexists. split; [done|]. split; [apply splice_length; rewrite length_app; cbn [length]; lia|].
    unfold splice. rewrite firstn_O, app_nil_l, <- app_assoc. cbn [app].
    assert (F : hexes ds (ref_digits 16 n v)).
    { unfold hexes, ds. apply Forall2_fmap_l. apply Forall_Forall2_diag.
      eapply List.Forall_impl; [|apply (ref_digits_range 16); lia]. intros h Hh. cbn. by apply hex_chr_value. }
    destruct (atoIU32_hex ds _ (drop (0 + length (ds ++ [0])) s) F) as (w & E & W).
    { intros E0. rewrite E0 in Ld. cbn [length] in Ld. lia. }
    rewrite E, W by lia. rewrite (proj2 (Z.leb_le _ _)) by lia. do 2 f_equal.
    apply ref_digits_value; unfold is_u32 in Hv; lia.
Qed.

Lemma IU32toa_atoIU32_witness :
  exists s', MMIDM_IU32toa 0xDEADBEEF (Some (replicate 11 1)) 16 = Some (Some s') /\
    length s' = length (replicate 11 1) /\ MMIDM_atoIU32 (Some s') 16 = Some (0xDEADBEEF, Some true).
Proof.
  apply (IU32toa_atoIU32 0xDEADBEEF (replicate 11 1) 16); [split; lia | cbn; lia | right; reflexivity].
Defined.
